(* ===== verification/_CoqProject ===== *)
-Q . S2P
Prelude.v
Wire.v
Fields.v
Messages.v
MessagesRT.v
Codec.v
ConnQueue.v
AudioVarint.v
AudioPacket.v
AudioCache.v
Ocb2.v
CryptState.v
Registry.v
RegistryConc.v
Control.v
ControlSync.v
UserManager.v
ChannelManager.v
ChannelTable.v
Acl.v
AclCache.v
AclConc.v
AclSample.v
Listeners.v
VoiceState.v
VoiceRouting.v
VoiceServer.v
VoiceSample.v
UdpIngress.v
UdpSample.v
Ban.v
RateLimit.v
ServerState.v
UserStateHandler.v
TextHandlers.v
ChannelHandlers.v
SessionHandlers.v
HandlerSample.v
Identity.v
Login.v
Revalidation.v
LoginSample.v
ExternalAuthority.v
ExternalSample.v
SiteInvariant.v
Accounts.v
RestServer.v
Ingress.v
SiteEdges.v
RemoteWire.v
RemoteEdges.v
Events.v
EdgeSample.v
RestSample.v
RemoteCore.v
LinkQueue.v
EdgeLink.v
CoreLink.v
EdgeRuntime.v
EdgeSafety.v
EdgeProcessSample.v
Configuration.v
Startup.v
AccountsSample.v
Management.v
RegisteredUsers.v
ChannelView.v
Argon2.v
