(* ===== verification/Prelude.v ===== *)
(** * go-mumble-server: a verification development

    The repository is a Mumble server in Go. One process, the Core, owns the
    users, channels, permissions, bans and the routing of voice. Clients connect
    by TLS and send control messages in a stream, and voice in encrypted
    datagrams; the part that holds their connections is an edge. The local edge
    runs inside the Core's process; remote edges are processes of their own,
    linked to the Core by a framed JSON protocol. This development translates
    that code, function by function, into definitions that compute, and proves
    what it is meant to do. Paths below are relative to [src/].

    ** How the code is translated

    A struct is a record, an enumeration an inductive type, a map a [gmap] or,
    where order or sharing matters, a heap of locations. Integers are [Z] at the
    width of the Go type, their wrap-around written out ([u8] ... [i64] below);
    float32 values are bit patterns; strings and byte slices are lists of bytes.
    A function that fails returns [result] or an error beside its values. The
    decoders of voice packets, which read what anybody sends, check every index
    and slice as Go does at run time, and panic out of range. A method that changes its receiver returns the new one. What a function sends,
    broadcasts or closes is a list of effects in its order. What iterates over a
    Go map takes the order of the iteration as an argument. The clock, random
    bytes and the answers of the network are arguments as well; third-party code
    (the database, AES, JSON, Unicode case folding, TLS) is a parameter or a
    type class with the laws the code relies on, instantiated in the sample
    files. Goroutines are programs of single steps at the accesses to shared
    state; the theorems then speak of every schedule.

    ** The files

    - Control stream ([pkg/mumble/protocol]): [Wire] (protobuf primitives),
      [Fields], [Messages], [MessagesRT] (every message, its encoder, decoder
      and round trip), [Codec] (framing and dispatch; [codec_roundtrip]).
    - Connections ([internal/connection/conn.go]): [ConnQueue], the write queue
      as interleaving goroutines ([conn_queue_sound], [conn_drains]); the state
      of a connection is [Login.Client], the rounds of its read loop are
      [Ingress.received] and [EdgeRuntime.received].
    - Voice packets ([pkg/mumble/audio], [pkg/mumble/crypto]): [AudioVarint],
      [AudioPacket] ([DecodeClientPacket_safe], [server_packet_roundtrip]),
      [AudioCache], [Ocb2] ([ocb2_roundtrip]), [CryptState]
      ([legacy_nonce_once]).
    - Sessions ([internal/cluster/registry.go], [control.go]): [Registry],
      [RegistryConc] ([session_lifecycle]), [Control], [ControlSync]
      ([control_order], [control_delivers]).
    - Users and channels ([internal/user/manager.go],
      [internal/channel/manager.go]): [UserManager], [ChannelManager]
      ([channel_tree_invariant], [connected_channels_exact], [clean_exact]),
      [ChannelTable] (a store and a sort that meet its interfaces).
    - Permissions ([internal/acl]): [Acl] (evaluation), [AclCache] (the cache
      refines an evaluation of the moment, [cache_refines_evaluation]), [AclConc]
      (checks beside concurrent changes, [permission_checks_settle]).
    - Voice at the Core ([internal/mumble], [internal/audio/router.go],
      [internal/cluster/dispatcher.go]): [Listeners]
      ([listener_tables_refine]), [VoiceState], [VoiceRouting], [VoiceServer]
      ([speech_delivered], [voice_target_exact]).
    - Voice at the local edge ([internal/edge/protocol.go],
      [internal/mumble/local_voice_transport.go]): [UdpIngress]
      ([udp_attribution], [ping_reply_safe]).
    - The handlers ([internal/mumble/handlers.go]): [Ban] (the list of bans over
      its table; [session_ban_exact]), [RateLimit],
      [ServerState], [UserStateHandler] ([user_state_authorized]),
      [TextHandlers] ([text_message_exact]), [ChannelHandlers]
      ([channel_state_authorized], [channel_remove_exact]), [SessionHandlers]
      ([user_remove_exact], [sessions_end_cleanly]).
    - Logging in ([internal/identity], [internal/mumble/identity_authority.go],
      [identity_revalidation.go], [remoteedge.go]): [Identity]
      ([local_authentication_sound]), [Login] ([login_exact],
      [login_completes], [snapshot_sound]), [Revalidation]
      ([revalidation_exact]), [ExternalAuthority] ([external_http.go], the
      client of an identity service; [external_admission_sound]).
    - The whole server: [SiteInvariant] (the invariant [site_ok] and that every
      entry keeps it), [Ingress] ([internal/edge/ingress.go] and the handler
      tables; [client_message_sound]), [SiteEdges], [RemoteWire] and
      [RemoteEdges] ([internal/cluster/wire.go], [remoteedgeserver.go];
      [edge_message_sound], [edge_takes_over], [bad_message_ends_edge]),
      [Events] (everything that happens from the start on, as a step relation;
      [reachable_sound]).
    - The queues of a link, as interleaving goroutines: [LinkQueue] (an abstract
      queue of frames with its invariant), [EdgeLink] ([remotecore.go];
      [edge_link_sound], [sender_stranded]), [CoreLink]
      ([remoteedgeserver.go]; [core_send_returns]).
    - An edge process ([internal/edge]): [RemoteCore] ([remotecore.go], the link
      to the Core, against the interface [RemoteDelivery] with its laws
      [DeliveryLaws]), [EdgeRuntime] ([edgeruntime.go], [clientruntime.go]),
      [EdgeSafety] (the interface implemented; [edge_delivers_exactly],
      [core_loss_closes], [edge_speaks_for_owner], [accepted_login_served],
      [slow_client_ends_edge]).
    - Configuration and start ([internal/config], [internal/app]):
      [Configuration] (defaults, file and environment; [load_precedence]),
      [Startup] (what a mode requires, the settings of the database, the parts
      of a process; [validation_exact], [database_decides]).
    - The management interface ([internal/handler], [internal/rest],
      [internal/service], [internal/middleware], [internal/auth]): [RestServer]
      (what requests do to the running server, as the closures of
      [internal/server/server.go] pass it on, and to the users it has: kick, ban,
      mute, and the callback of an identity provider; [rest_request_sound],
      [listing_private]), [Accounts] (registration, login, tokens, roles and the
      guards of every route, with requests that overlap; [management_access],
      [administrator_remains]), [Management] (virtual servers and settings,
      together with the starts of a process; [update_config_exact],
      [password_cannot_be_set], [deletion_is_final]), [RegisteredUsers]
      ([registered_numbers_distinct]), [Argon2] (the stored form of their
      passwords; [argon2_roundtrip]), [ChannelView] (the tree of channels;
      [channel_view_exact]). Requests that reach the running server are events
      of [Events].
    - Samples: the files whose name ends in [Sample], [ChannelTable], and the ends
      of the smaller files hold concrete servers, the hypotheses of the theorems
      discharged at them, and computed examples. Behaviour that contradicts its
      documentation is shown there, too.

    ** What the theorems show

    Round trips: messages, voice packets, OCB2 and stored passwords are read back
    as they were written, control messages through a whole stream of packets.
    Safety of untrusted input: decoding ends without a panic and within bounds, no
    nonce is accepted twice in legacy mode, a datagram is attributed to a session
    whose key it verifies under or to one in lite mode, a message of a client
    changes what its permissions allow and nothing before
    the login, and a ban refuses whom it should and nobody else. Invariants: the
    trees, tables, registries and queues stay consistent, at last all of them
    together in every state the server or an edge process reaches
    ([reachable_sound] excepts one request of the management interface, which
    [rest_request_sound] shows to break them). Refinement: the
    permission cache and the listener tables against specifications without
    caches and indices, both ends of a link against one abstract queue. Delivery:
    who gets speech, whispers, texts, broadcasts and the initial snapshot is
    characterised exactly. Liveness: logins,
    deliveries, permission checks and, at the Core, senders that wait for a link
    come to an end with the right result. Error
    behaviour: what failing parts leave behind, which for an edge and its links
    is more than one would wish, what becomes of a ban or a number when a statement
    of the database fails, and what some requests of an administrator do. The
    management interface: whose requests are let in, and what they change.

    ** Bounds and fuel

    Recursion that is not structural carries fuel: varint loops the ten groups a
    64-bit number has, packet readers the length of their input (each round
    consumes a byte), searches of the channel tree the number of its channels,
    and the tree that is shown one more than there are rows.
    The theorems about these functions show that the fuel is enough, or speak of
    the loop itself. [reachable_sound] needs fewer than 2^64 - 2 sessions, the
    invariant of an edge fewer than 2^32 events, so that the counters do not
    wrap; these are hypotheses.

    ** What is not modelled

    The granularity: a handler is not interrupted by other handlers, except in
    the files about interleavings ([RegistryConc], [Control], [AclConc],
    [ConnQueue], [EdgeLink], [CoreLink]) and at the Core's answer to a login of an edge ([EdgeRuntime]).
    Left out are JSON, HTTP and the pages of the management interface, its
    requests that only print rows, the libraries for tokens and password hashes
    (parameters of [Accounts], [Identity] and [Argon2]), the set-up of the
    database, the making of certificates, mDNS, sockets and deadlines, the
    shutdown of a process, logging, and the deep copy of messages ([clone.go]),
    which is the identity on values: they are I/O around the code above, or code
    of libraries. In [Accounts] requests overlap; in [Management] and
    [RegisteredUsers] one follows the other. *)

From Stdlib Require Import ZArith Lia String Ascii.
From stdpp Require Import base numbers list gmap option.
From stdpp Require Export tactics.

#[export] Set Default Goal Selector "!".

Open Scope Z_scope.

(** ** Results: a value or one of the errors of a Go package *)

Inductive result (E A : Type) : Type :=
  | Ok (a : A)
  | Err (e : E).
Arguments Ok {E A} a.
Arguments Err {E A} e.

#[export] Instance result_ret E : MRet (result E) := fun A a => Ok a.
#[export] Instance result_bind E : MBind (result E) := fun A B f r =>
  match r with Ok a => f a | Err e => Err e end.
#[export] Instance result_fmap E : FMap (result E) := fun A B f r =>
  match r with Ok a => Ok (f a) | Err e => Err e end.

#[export] Instance result_eq_dec {E A} `{EqDecision E, EqDecision A} :
  EqDecision (result E A).
Proof. solve_decision. Defined.

Definition is_ok {E A} (r : result E A) : bool :=
  match r with Ok _ => true | Err _ => false end.

(** ** Machine integers

    A w-bit unsigned Go integer is a [Z] in [0, 2^w); the conversions
    [uint8(x)], [uint32(x)], ... are the functions [u8], [u32], ...; the
    signed conversions are [i32] and [i64] (two's complement). *)

Definition u8 (z : Z) : Z := z mod 2 ^ 8.
Definition u16 (z : Z) : Z := z mod 2 ^ 16.
Definition u32 (z : Z) : Z := z mod 2 ^ 32.
Definition u64 (z : Z) : Z := z mod 2 ^ 64.
Definition i32 (z : Z) : Z := (z + 2 ^ 31) mod 2 ^ 32 - 2 ^ 31.
Definition i64 (z : Z) : Z := (z + 2 ^ 63) mod 2 ^ 64 - 2 ^ 63.

Definition is_u8 (z : Z) : Prop := 0 <= z < 2 ^ 8.
Definition is_u16 (z : Z) : Prop := 0 <= z < 2 ^ 16.
Definition is_u32 (z : Z) : Prop := 0 <= z < 2 ^ 32.
Definition is_u64 (z : Z) : Prop := 0 <= z < 2 ^ 64.
Definition is_i32 (z : Z) : Prop := - 2 ^ 31 <= z < 2 ^ 31.
Definition is_i64 (z : Z) : Prop := - 2 ^ 63 <= z < 2 ^ 63.

(** A byte slice and a Go string are both lists of bytes. *)
Notation bytes := (list Z).
Notation gostring := (list Z).
Definition bytes_ok (b : bytes) : Prop := Forall is_u8 b.

(** [len(b)] as a Go [int]. *)
Definition zlen {A} (l : list A) : Z := Z.of_nat (length l).

(** [b[n:]] and [b[:n]] for a Go [int] [n] within bounds. *)
Definition zdrop {A} (n : Z) (l : list A) : list A := drop (Z.to_nat n) l.
Definition ztake {A} (n : Z) (l : list A) : list A := take (Z.to_nat n) l.

(** String literals of the source, as bytes. *)
Definition str (s : string) : gostring :=
  map (fun c => Z.of_N (N_of_ascii c)) (list_ascii_of_string s).

(** ** Automation *)

Create HintDb mumble discriminated.
Create HintDb mumble_len discriminated.

(** Turns the machine-width predicates into bounds [lia] understands. *)
Ltac unfold_widths :=
  unfold is_u8, is_u16, is_u32, is_u64, is_i32, is_i64 in *.

Ltac zlia := unfold_widths; change (2 ^ 8) with 256 in *; change (2 ^ 16) with 65536 in *;
  change (2 ^ 31) with 2147483648 in *; change (2 ^ 32) with 4294967296 in *;
  change (2 ^ 63) with 9223372036854775808 in *;
  change (2 ^ 64) with 18446744073709551616 in *; lia.

(** ** Conversions *)

Lemma u8_id z : is_u8 z -> u8 z = z.
Proof. intros. unfold u8. apply Z.mod_small. zlia. Qed.
Lemma u16_id z : is_u16 z -> u16 z = z.
Proof. intros. unfold u16. apply Z.mod_small. zlia. Qed.
Lemma u32_id z : is_u32 z -> u32 z = z.
Proof. intros. unfold u32. apply Z.mod_small. zlia. Qed.
Lemma u64_id z : is_u64 z -> u64 z = z.
Proof. intros. unfold u64. apply Z.mod_small. zlia. Qed.

Lemma u8_range z : is_u8 (u8 z).
Proof. apply Z.mod_pos_bound. lia. Qed.
Lemma u16_range z : is_u16 (u16 z).
Proof. apply Z.mod_pos_bound. lia. Qed.
Lemma u32_range z : is_u32 (u32 z).
Proof. apply Z.mod_pos_bound. lia. Qed.
Lemma u64_range z : is_u64 (u64 z).
Proof. apply Z.mod_pos_bound. lia. Qed.

Lemma is_u32_u64 z : is_u32 z -> is_u64 z.
Proof. zlia. Qed.
Lemma is_u8_u64 z : is_u8 z -> is_u64 z.
Proof. zlia. Qed.
#[export] Hint Resolve u8_range u16_range u32_range u64_range is_u32_u64 is_u8_u64 : mumble.

(** A signed value survives the round trip through its unsigned image. *)
Lemma i32_u64 z : is_i32 z -> i32 (u64 z) = z.
Proof.
  intros H. unfold i32, u64.
  replace ((z mod 2 ^ 64 + 2 ^ 31) mod 2 ^ 32) with ((z + 2 ^ 31) mod 2 ^ 32).
  - rewrite Z.mod_small; zlia.
  - rewrite <- (Z.add_mod_idemp_l z), <- (Z.add_mod_idemp_l (z mod 2 ^ 64)) by lia.
    do 2 f_equal. change (2 ^ 64) with (2 ^ 32 * 2 ^ 32).
    rewrite Z.rem_mul_r, (Z.mul_comm _ (_ mod _)), Z.mod_add by lia.
    symmetry. apply Z.mod_mod. lia.
Qed.

Lemma i64_u64 z : is_i64 z -> i64 (u64 z) = z.
Proof.
  intros H. unfold i64, u64. rewrite Z.add_mod_idemp_l by lia.
  rewrite Z.mod_small; zlia.
Qed.

Lemma u64_i64 z : is_u64 z -> u64 (i64 z) = z.
Proof.
  intros H. unfold i64, u64. rewrite Zminus_mod_idemp_l.
  rewrite Z.add_simpl_r. apply Z.mod_small. zlia.
Qed.

Lemma i64_range z : is_i64 (i64 z).
Proof. unfold i64. pose proof (Z.mod_pos_bound (z + 2 ^ 63) (2 ^ 64)). zlia. Qed.
Lemma i64_id z : is_i64 z -> i64 z = z.
Proof. intros. unfold i64. rewrite Z.mod_small; zlia. Qed.
Lemma i32_id z : is_i32 z -> i32 z = z.
Proof. intros. unfold i32. rewrite Z.mod_small; zlia. Qed.

(** ** Bit operations as arithmetic *)

Lemma land_ones_mod z n : 0 <= n -> Z.land z (2 ^ n - 1) = z mod 2 ^ n.
Proof. intros. rewrite <- Z.land_ones by done. f_equal. rewrite Z.ones_equiv. lia. Qed.

(** Disjoint bit ranges: [x | y<<n] is [x + y*2^n]. *)
Lemma lor_shiftl_add x y n :
  0 <= n -> 0 <= x < 2 ^ n -> Z.lor x (Z.shiftl y n) = x + y * 2 ^ n.
Proof.
  intros Hn Hx.
  assert (Z.land x (Z.shiftl y n) = 0) as Hd.
  { apply Z.bits_inj'. intros i Hi.
    rewrite Z.land_spec, Z.shiftl_spec, Z.bits_0 by done.
    destruct (decide (i < n)) as [Hlt|Hge].
    - rewrite (Z.testbit_neg_r y) by lia. apply andb_false_r.
    - rewrite <- (Z.mod_small x (2 ^ n)), Z.mod_pow2_bits_high by lia. done. }
  rewrite <- Z.lxor_lor, <- Z.add_nocarry_lxor by done.
  rewrite Z.shiftl_mul_pow2 by done. lia.
Qed.

Lemma lor_add_disjoint x y n :
  0 <= n -> 0 <= x < 2 ^ n -> y mod 2 ^ n = 0 -> Z.lor x y = x + y.
Proof.
  intros Hn Hx Hy. replace y with (Z.shiftl (y / 2 ^ n) n) at 1.
  - rewrite lor_shiftl_add by done.
    rewrite (Z.div_mod y (2 ^ n)) at 2 by lia. lia.
  - rewrite Z.shiftl_mul_pow2 by done. rewrite (Z.div_mod y (2 ^ n)) at 2 by lia. lia.
Qed.

Lemma lor_u8 x y : is_u8 x -> is_u8 y -> is_u8 (Z.lor x y).
Proof.
  intros Hx Hy. assert (0 <= Z.lor x y) by (apply Z.lor_nonneg; zlia).
  split; [done|]. destruct (decide (Z.lor x y = 0)) as [->|]; [lia|].
  apply Z.log2_lt_pow2; [lia|]. rewrite Z.log2_lor by zlia.
  assert (forall z, is_u8 z -> Z.log2 z < 8) as Hl.
  { intros z Hz. destruct (decide (z = 0)) as [->|]; [done|].
    apply Z.log2_lt_pow2; zlia. }
  pose proof (Hl x Hx). pose proof (Hl y Hy). lia.
Qed.

Lemma land_u8_l x y : is_u8 x -> 0 <= y -> is_u8 (Z.land x y).
Proof.
  intros Hx Hy. assert (0 <= Z.land x y) by (apply Z.land_nonneg; zlia).
  split; [done|]. destruct (decide (Z.land x y = 0)) as [->|]; [lia|].
  apply Z.log2_lt_pow2; [lia|].
  destruct (decide (x = 0)) as [->|]; [by rewrite Z.land_0_l in *|].
  pose proof (Z.log2_land x y). assert (Z.log2 x < 8) by (apply Z.log2_lt_pow2; zlia). zlia.
Qed.

Lemma lxor_u8 x y : is_u8 x -> is_u8 y -> is_u8 (Z.lxor x y).
Proof.
  intros Hx Hy. assert (0 <= Z.lxor x y) by (apply Z.lxor_nonneg; zlia).
  split; [done|]. destruct (decide (Z.lxor x y = 0)) as [->|]; [lia|].
  apply Z.log2_lt_pow2; [lia|]. pose proof (Z.log2_lxor x y ltac:(zlia) ltac:(zlia)).
  assert (forall z, is_u8 z -> Z.log2 z < 8) as Hl.
  { intros z Hz. destruct (decide (z = 0)) as [->|]; [done|].
    apply Z.log2_lt_pow2; zlia. }
  pose proof (Hl x Hx). pose proof (Hl y Hy). lia.
Qed.
#[export] Hint Resolve lor_u8 land_u8_l lxor_u8 : mumble.

(** A decidable fact about one byte is checked on the 256 bytes. *)
Lemma u8_exhaust (P : Z -> bool) :
  forallb P (seqZ 0 256) = true -> forall z, is_u8 z -> P z = true.
Proof.
  rewrite forallb_forall. intros H z Hz. apply H.
  apply list_elem_of_In, elem_of_seqZ. zlia.
Qed.

(** ** Lists *)

Lemma zlen_nil {A} : zlen (@nil A) = 0. Proof. done. Qed.
Lemma zlen_cons {A} (x : A) l : zlen (x :: l) = 1 + zlen l.
Proof. unfold zlen. simpl. lia. Qed.
Lemma zlen_app {A} (l1 l2 : list A) : zlen (l1 ++ l2) = zlen l1 + zlen l2.
Proof. unfold zlen. rewrite length_app. lia. Qed.
Lemma zlen_nonneg {A} (l : list A) : 0 <= zlen l.
Proof. unfold zlen. lia. Qed.
Create Rewrite HintDb mumble_len.
#[export] Hint Rewrite @zlen_nil @zlen_cons @zlen_app : mumble_len.

Lemma zdrop_app {A} (l1 l2 : list A) : zdrop (zlen l1) (l1 ++ l2) = l2.
Proof. unfold zdrop, zlen. rewrite Nat2Z.id. apply drop_app_length. Qed.
Lemma ztake_app {A} (l1 l2 : list A) : ztake (zlen l1) (l1 ++ l2) = l1.
Proof. unfold ztake, zlen. rewrite Nat2Z.id. apply take_app_length. Qed.
Lemma zdrop_0 {A} (l : list A) : zdrop 0 l = l.
Proof. done. Qed.
Lemma ztake_all {A} (l : list A) : ztake (zlen l) l = l.
Proof. rewrite <- (app_nil_r l) at 2. apply ztake_app. Qed.
Lemma zlen_zdrop {A} n (l : list A) : 0 <= n <= zlen l -> zlen (zdrop n l) = zlen l - n.
Proof. unfold zlen, zdrop. rewrite length_drop. lia. Qed.
Lemma zlen_ztake {A} n (l : list A) : 0 <= n <= zlen l -> zlen (ztake n l) = n.
Proof. unfold zlen, ztake. rewrite length_take. lia. Qed.
Lemma ztake_zdrop {A} n (l : list A) : ztake n l ++ zdrop n l = l.
Proof. apply take_drop. Qed.

Lemma bytes_ok_app b1 b2 : bytes_ok b1 -> bytes_ok b2 -> bytes_ok (b1 ++ b2).
Proof. intros. by apply Forall_app. Qed.
Lemma bytes_ok_cons x b : bytes_ok (x :: b) <-> is_u8 x /\ bytes_ok b.
Proof. apply Forall_cons_iff. Qed.
Lemma bytes_ok_zdrop n b : bytes_ok b -> bytes_ok (zdrop n b).
Proof. apply Forall_drop. Qed.
Lemma bytes_ok_ztake n b : bytes_ok b -> bytes_ok (ztake n b).
Proof. apply Forall_take. Qed.
#[export] Hint Resolve bytes_ok_app bytes_ok_zdrop bytes_ok_ztake : mumble.
