(* ===== verification/Wire.v ===== *)
(** * The protobuf wire format of the control channel
    (pkg/mumble/protocol/wire/wire.go)

    The append functions, the readers with their error paths, and the round
    trips every message of the protocol is built on. *)

From Stdlib Require Import ZArith Lia.
From stdpp Require Import base numbers list.
From S2P Require Import Prelude.
Open Scope Z_scope.

Inductive wire_error := ErrBufferTooShort | ErrInvalidTag.

#[export] Instance wire_error_eq_dec : EqDecision wire_error.
Proof. solve_decision. Defined.

Definition WireVarint : Z := 0.
Definition WireFixed64 : Z := 1.
Definition WireLengthDelimited : Z := 2.
Definition WireFixed32 : Z := 5.

(** ** Appending *)

(** The loop of [AppendVarint]; ten rounds write any [uint64]
    ([AppendVarint_step] shows the fuel is never the reason to stop). *)
Fixpoint append_varint_loop (fuel : nat) (b : bytes) (v : Z) : bytes :=
  match fuel with
  | O => b
  | S fuel =>
      if 0x80 <=? v
      then append_varint_loop fuel (b ++ [Z.lor (u8 v) 0x80]) (Z.shiftr v 7)
      else b ++ [u8 v]
  end.

Definition AppendVarint (b : bytes) (v : Z) : bytes := append_varint_loop 10 b v.

Definition AppendTag (b : bytes) (fieldNum wireType : Z) : bytes :=
  AppendVarint b (Z.lor (u64 (Z.shiftl (u64 fieldNum) 3)) (u64 wireType)).

(** [binary.LittleEndian.PutUint32] and [Uint32]. *)
Definition le32 (v : Z) : bytes :=
  [u8 v; u8 (Z.shiftr v 8); u8 (Z.shiftr v 16); u8 (Z.shiftr v 24)].

Definition le32_read (b : bytes) : Z :=
  match b with
  | b0 :: b1 :: b2 :: b3 :: _ =>
      Z.lor b0 (Z.lor (Z.shiftl b1 8) (Z.lor (Z.shiftl b2 16) (Z.shiftl b3 24)))
  | _ => 0
  end.

(** The big-endian side of encoding/binary. *)
Definition be16 (v : Z) : bytes := [u8 (Z.shiftr v 8); u8 v].
Definition be32 (v : Z) : bytes :=
  [u8 (Z.shiftr v 24); u8 (Z.shiftr v 16); u8 (Z.shiftr v 8); u8 v].
Definition be16_read (b : bytes) : Z :=
  match b with b0 :: b1 :: _ => Z.lor b1 (Z.shiftl b0 8) | _ => 0 end.
Definition be32_read (b : bytes) : Z :=
  match b with
  | b0 :: b1 :: b2 :: b3 :: _ =>
      Z.lor b3 (Z.lor (Z.shiftl b2 8) (Z.lor (Z.shiftl b1 16) (Z.shiftl b0 24)))
  | _ => 0
  end.

Definition be64 (v : Z) : bytes := be32 (Z.shiftr v 32) ++ be32 v.
Definition be64_read (b : bytes) : Z :=
  Z.lor (be32_read (drop 4 b)) (Z.shiftl (be32_read b) 32).

Definition AppendFixed32 (b : bytes) (v : Z) : bytes := b ++ le32 v.

Definition AppendBytes (b : bytes) (fieldNum : Z) (data : bytes) : bytes :=
  let b := AppendTag b fieldNum WireLengthDelimited in
  let b := AppendVarint b (u64 (zlen data)) in
  b ++ data.

Definition AppendString (b : bytes) (fieldNum : Z) (s : gostring) : bytes :=
  AppendBytes b fieldNum s.

(** ** Reading *)

(** [for i, c := range b]: the index, the shift and the accumulator are the
    loop's variables. *)
Fixpoint read_varint_loop (b : bytes) (i s x : Z) : result wire_error (Z * Z) :=
  match b with
  | [] => Err ErrBufferTooShort
  | c :: b =>
      if 10 <=? i then Err ErrInvalidTag else
      let x := Z.lor x (u64 (Z.shiftl (Z.land c 0x7F) s)) in
      if c <? 0x80 then Ok (x, i + 1) else read_varint_loop b (i + 1) (s + 7) x
  end.

Definition ReadVarint (b : bytes) : result wire_error (Z * Z) :=
  read_varint_loop b 0 0 0.

Definition ReadTag (b : bytes) : result wire_error (Z * Z * Z) :=
  '(v, n) ← ReadVarint b;
  Ok (Z.shiftr v 3, Z.land v 7, n).

(** The caller ensures [len(b) >= 4]. *)
Definition ReadFixed32 (b : bytes) : Z := le32_read b.

Definition SkipField (b : bytes) (wireType : Z) : result wire_error Z :=
  if wireType =? WireVarint then
    '(_, n) ← ReadVarint b; Ok n
  else if wireType =? WireFixed64 then
    if zlen b <? 8 then Err ErrBufferTooShort else Ok 8
  else if wireType =? WireLengthDelimited then
    '(l, n) ← ReadVarint b;
    if u64 (zlen b - n) <? l then Err ErrBufferTooShort else Ok (n + i64 l)
  else if wireType =? WireFixed32 then
    if zlen b <? 4 then Err ErrBufferTooShort else Ok 4
  else Err ErrInvalidTag.

Definition ReadLengthDelimited (b : bytes) : result wire_error (bytes * Z) :=
  '(l, n) ← ReadVarint b;
  if u64 (zlen b - n) <? l then Err ErrBufferTooShort
  else Ok (ztake (i64 l) (zdrop n b), n + i64 l).

(** ** Varints: fuel, shape and round trip *)

Lemma append_varint_loop_S fuel b v :
  append_varint_loop (S fuel) b v =
    if 0x80 <=? v
    then append_varint_loop fuel (b ++ [Z.lor (u8 v) 0x80]) (Z.shiftr v 7)
    else b ++ [u8 v].
Proof. done. Qed.

Lemma append_varint_loop_app fuel b v :
  append_varint_loop fuel b v = b ++ append_varint_loop fuel [] v.
Proof.
  revert b v. induction fuel as [|fuel IH]; intros b v; cbn -[Z.leb].
  - by rewrite app_nil_r.
  - destruct (0x80 <=? v); [|done].
    by rewrite IH, (IH [_]), app_assoc.
Qed.

Lemma AppendVarint_app b v : AppendVarint b v = b ++ AppendVarint [] v.
Proof. apply append_varint_loop_app. Qed.

Lemma append_varint_loop_fuel fuel v :
  (0 < fuel)%nat -> 0 <= v < 2 ^ (7 * Z.of_nat fuel) -> forall fuel', (fuel <= fuel')%nat ->
  forall b, append_varint_loop fuel' b v = append_varint_loop fuel b v.
Proof.
  revert v. induction fuel as [|fuel IH]; [lia|]. intros v _ Hv fuel' Hf b.
  destruct fuel' as [|fuel']; [lia|]. cbn -[Z.leb].
  destruct (Z.leb_spec 0x80 v); [|done].
  destruct fuel as [|fuel]; [change (2 ^ (7 * Z.of_nat 1)) with 128 in Hv; lia|].
  apply IH; [lia| |lia]. rewrite Z.shiftr_div_pow2 by lia.
  split; [apply Z.div_pos; lia|]. apply Z.div_lt_upper_bound; [lia|].
  rewrite <- Z.pow_add_r by lia. replace (7 + 7 * Z.of_nat (S fuel)) with (7 * Z.of_nat (S (S fuel))) by lia. lia.
Qed.

(** The defining equation of the Go loop, on every [uint64]. *)
Lemma AppendVarint_step b v : is_u64 v ->
  AppendVarint b v =
    if 0x80 <=? v then AppendVarint (b ++ [Z.lor (u8 v) 0x80]) (Z.shiftr v 7)
    else b ++ [u8 v].
Proof.
  intros Hv. unfold AppendVarint at 1. rewrite append_varint_loop_S.
  destruct (0x80 <=? v) eqn:E; [|done]. symmetry.
  apply append_varint_loop_fuel; [lia| |lia].
  rewrite Z.shiftr_div_pow2 by lia. split; [apply Z.div_pos; zlia|].
  apply Z.div_lt_upper_bound; [lia|]. change (2 ^ 7 * 2 ^ (7 * Z.of_nat 9)) with (2 ^ 70).
  zlia.
Qed.

Lemma varint_byte_low v : Z.land (u8 v) 0x7F = v mod 128.
Proof.
  change 0x7F with (2 ^ 7 - 1). rewrite land_ones_mod by lia. unfold u8.
  change (2 ^ 8) with (2 ^ 7 * 2). rewrite Z.rem_mul_r by lia.
  rewrite (Z.mul_comm (2 ^ 7)), Z.mod_add by lia. by rewrite Z.mod_mod.
Qed.

Lemma varint_byte_cont v :
  0x80 <= Z.lor (u8 v) 0x80 /\ Z.land (Z.lor (u8 v) 0x80) 0x7F = v mod 128.
Proof.
  rewrite <- varint_byte_low. generalize (u8 v) (u8_range v). intros c Hc.
  enough ((0x80 <=? Z.lor c 0x80) && (Z.land (Z.lor c 0x80) 0x7F =? Z.land c 0x7F) = true) as H
    by (apply andb_true_iff in H; lia).
  revert c Hc. apply u8_exhaust. vm_compute. done.
Qed.

Lemma varint_acc x v i :
  0 <= i -> 0 <= x < 2 ^ (7 * i) -> 0 <= v < 2 ^ (64 - 7 * i) -> i <= 9 ->
  Z.lor x (u64 (Z.shiftl (v mod 128) (7 * i))) = x + v mod 128 * 2 ^ (7 * i).
Proof.
  intros Hi Hx Hv Hi9. pose proof (Z.mod_pos_bound v 128).
  rewrite u64_id; [apply lor_shiftl_add; lia|].
  rewrite Z.shiftl_mul_pow2 by lia. assert (v mod 128 <= v) by (apply Z.mod_le; lia).
  assert (2 ^ (64 - 7 * i) * 2 ^ (7 * i) = 2 ^ 64) as He
    by (rewrite <- Z.pow_add_r by lia; f_equal; lia).
  unfold is_u64. rewrite <- He. nia.
Qed.

(** The reader resumed at byte [i] finishes what the writer has left. *)
Lemma read_append_varint_loop fuel v i x rest :
  0 <= i -> Z.of_nat fuel = 10 - i -> 0 <= x < 2 ^ (7 * i) ->
  0 <= v < 2 ^ (64 - 7 * i) -> i <= 9 ->
  read_varint_loop (append_varint_loop fuel [] v ++ rest) i (7 * i) x =
    Ok (x + v * 2 ^ (7 * i), i + zlen (append_varint_loop fuel [] v)).
Proof.
  revert v i x. induction fuel as [|fuel IH]; intros v i x Hi Hf Hx Hv Hi9; [lia|].
  rewrite append_varint_loop_S. destruct (Z.leb_spec 0x80 v) as [Hb|Hb].
  - rewrite append_varint_loop_app. cbn [app read_varint_loop].
    destruct (varint_byte_cont v) as [Hc Hl].
    destruct (Z.leb_spec 10 i); [lia|]. destruct (Z.ltb_spec (Z.lor (u8 v) 0x80) 0x80); [lia|].
    rewrite Hl, varint_acc by done.
    assert (i < 9).
    { destruct (decide (i = 9)) as [->|]; [|lia]. change (2 ^ (64 - 7 * 9)) with 2 in Hv. lia. }
    replace (7 * i + 7) with (7 * (i + 1)) by lia.
    assert (2 ^ (7 * (i + 1)) = 2 ^ (7 * i) * 128) as Hp.
    { replace (7 * (i + 1)) with (7 * i + 7) by lia. rewrite Z.pow_add_r; lia. }
    pose proof (Z.mod_pos_bound v 128). rewrite Z.shiftr_div_pow2 by lia. change (2 ^ 7) with 128.
    pose proof (Z.div_mod v 128). rewrite IH; [| lia | lia | nia | | lia].
    + f_equal. f_equal; [rewrite Hp; nia|]. autorewrite with mumble_len. lia.
    + split; [apply Z.div_pos; lia|]. apply Z.div_lt_upper_bound; [lia|].
      replace (64 - 7 * i) with (7 + (64 - 7 * (i + 1))) in Hv by lia.
      rewrite Z.pow_add_r in Hv by lia. lia.
  - cbn [app read_varint_loop]. destruct (Z.leb_spec 10 i); [lia|].
    rewrite varint_byte_low, varint_acc by done. rewrite u8_id by zlia.
    destruct (Z.ltb_spec v 0x80); [|lia]. rewrite Z.mod_small by lia. done.
Qed.

Lemma ReadVarint_AppendVarint v rest : is_u64 v ->
  ReadVarint (AppendVarint [] v ++ rest) = Ok (v, zlen (AppendVarint [] v)).
Proof.
  intros Hv. unfold ReadVarint, AppendVarint.
  pose proof (read_append_varint_loop 10 v 0 0 rest) as H. change (7 * 0) with 0 in H.
  rewrite H; [|lia|lia|lia|zlia|lia]. f_equal. f_equal; lia.
Qed.

Lemma append_varint_loop_len fuel v :
  (0 < fuel)%nat -> 1 <= zlen (append_varint_loop fuel [] v) <= Z.of_nat fuel.
Proof.
  revert v. induction fuel as [|fuel IH]; intros v Hf; [lia|].
  rewrite append_varint_loop_S. destruct (0x80 <=? v).
  - rewrite append_varint_loop_app. autorewrite with mumble_len.
    destruct fuel as [|fuel]; [cbn [append_varint_loop]; autorewrite with mumble_len; lia|].
    specialize (IH (Z.shiftr v 7) ltac:(lia)). cbn [length] in *. lia.
  - autorewrite with mumble_len. lia.
Qed.

Lemma AppendVarint_len v : 1 <= zlen (AppendVarint [] v) <= 10.
Proof. apply (append_varint_loop_len 10). lia. Qed.

Lemma append_varint_loop_ok fuel v : bytes_ok (append_varint_loop fuel [] v).
Proof.
  revert v. induction fuel as [|fuel IH]; intros v; [constructor|].
  rewrite append_varint_loop_S. destruct (0x80 <=? v).
  - rewrite append_varint_loop_app. apply bytes_ok_app; [|apply IH].
    repeat constructor; apply lor_u8; auto with mumble; zlia.
  - repeat constructor; apply u8_range.
Qed.

Lemma AppendVarint_ok v : bytes_ok (AppendVarint [] v).
Proof. apply append_varint_loop_ok. Qed.

(** ** What the readers consume *)

Lemma read_varint_loop_bounds b i s x v n :
  0 <= i -> read_varint_loop b i s x = Ok (v, n) ->
  i < n <= i + zlen b /\ n <= 10.
Proof.
  revert i s x. induction b as [|c b IH]; intros i s x Hi; cbn [read_varint_loop]; [done|].
  destruct (Z.leb_spec 10 i); [done|]. rewrite zlen_cons. pose proof (zlen_nonneg b).
  destruct (c <? 0x80).
  - intros [= <- <-]. lia.
  - intros H'. apply IH in H'; lia.
Qed.

Lemma ReadVarint_bounds b v n :
  ReadVarint b = Ok (v, n) -> 1 <= n <= zlen b /\ n <= 10.
Proof. intros H. apply read_varint_loop_bounds in H; lia. Qed.

Lemma lor_u64 x y : is_u64 x -> is_u64 y -> is_u64 (Z.lor x y).
Proof.
  intros Hx Hy. assert (0 <= Z.lor x y) by (apply Z.lor_nonneg; zlia).
  split; [done|]. destruct (decide (Z.lor x y = 0)) as [->|]; [lia|].
  apply Z.log2_lt_pow2; [lia|]. rewrite Z.log2_lor by zlia.
  assert (forall z, is_u64 z -> Z.log2 z < 64) as Hl.
  { intros z Hz. destruct (decide (z = 0)) as [->|]; [done|].
    apply Z.log2_lt_pow2; zlia. }
  pose proof (Hl x Hx). pose proof (Hl y Hy). lia.
Qed.

Lemma read_varint_loop_u64 b i s x v n :
  is_u64 x -> read_varint_loop b i s x = Ok (v, n) -> is_u64 v.
Proof.
  revert i s x. induction b as [|c b IH]; intros i s x Hx; cbn [read_varint_loop]; [done|].
  destruct (10 <=? i); [done|].
  assert (is_u64 (Z.lor x (u64 (Z.shiftl (Z.land c 0x7F) s))))
    by auto using lor_u64 with mumble.
  destruct (c <? 0x80); [by intros [= <- <-]|by apply IH].
Qed.

Lemma ReadVarint_u64 b v n : ReadVarint b = Ok (v, n) -> is_u64 v.
Proof. apply read_varint_loop_u64. zlia. Qed.

Ltac destruct_bind H :=
  match type of H with
  | context [mbind _ ?r] => destruct r as [[? ?]|] eqn:?; cbn in H; [|done]
  end.

(** [l <= len(b)-n] makes the Go conversion [int(l)] exact. *)
Lemma delimited_len (b : bytes) l n :
  1 <= n <= zlen b -> zlen b < 2 ^ 63 -> is_u64 l -> (u64 (zlen b - n) <? l) = false ->
  i64 l = l /\ l <= zlen b - n.
Proof.
  intros Hn Hb Hl H. rewrite u64_id in H by zlia. split; [apply i64_id|]; zlia.
Qed.

Lemma ReadTag_bounds b fn wt n :
  ReadTag b = Ok (fn, wt, n) -> 1 <= n <= zlen b /\ 0 <= fn < 2 ^ 61 /\ 0 <= wt < 8.
Proof.
  unfold ReadTag. intros H. destruct_bind H. injection H as <- <- <-.
  match goal with H : _ = Ok _ |- _ => pose proof (ReadVarint_bounds _ _ _ H); apply ReadVarint_u64 in H end.
  rewrite Z.shiftr_div_pow2 by lia. change 7 with (2 ^ 3 - 1). rewrite land_ones_mod by lia.
  split; [lia|]. split; [|apply Z.mod_pos_bound; lia].
  split; [apply Z.div_pos; zlia|]. apply Z.div_lt_upper_bound; zlia.
Qed.

Lemma SkipField_bounds (b : bytes) wt n :
  zlen b < 2 ^ 63 -> SkipField b wt = Ok n -> 1 <= n <= zlen b.
Proof.
  intros Hb. unfold SkipField. intros H. repeat case_match; try done.
  - destruct_bind H. injection H as <-. by eapply ReadVarint_bounds.
  - injection H as <-. lia.
  - destruct_bind H. case_match; [done|]. injection H as <-.
    match goal with H : ReadVarint _ = _ |- _ =>
      pose proof (ReadVarint_bounds _ _ _ H); apply ReadVarint_u64 in H end.
    edestruct delimited_len as [-> ?]; [| | |done|]; try done; [lia|]. zlia.
  - injection H as <-. lia.
Qed.

Lemma ReadLengthDelimited_bounds (b d : bytes) n :
  zlen b < 2 ^ 63 -> ReadLengthDelimited b = Ok (d, n) ->
  1 <= n <= zlen b /\ zlen d < n.
Proof.
  intros Hb. unfold ReadLengthDelimited. intros H. destruct_bind H. case_match; [done|].
  injection H as <- <-.
  match goal with H : ReadVarint _ = _ |- _ =>
    pose proof (ReadVarint_bounds _ _ _ H); apply ReadVarint_u64 in H end.
  edestruct delimited_len as [-> ?]; [| | |done|]; try done; [lia|].
  rewrite zlen_ztake by (rewrite zlen_zdrop by lia; zlia). zlia.
Qed.

(** ** Round trips *)

Lemma tag_value fn wt : 0 <= fn < 2 ^ 29 -> 0 <= wt < 8 ->
  Z.lor (u64 (Z.shiftl (u64 fn) 3)) (u64 wt) = fn * 8 + wt.
Proof.
  intros. rewrite !(u64_id fn), (u64_id wt) by zlia.
  rewrite u64_id by (rewrite Z.shiftl_mul_pow2 by lia; zlia).
  rewrite Z.lor_comm, lor_shiftl_add by lia. lia.
Qed.

Lemma AppendTag_app b fn wt : AppendTag b fn wt = b ++ AppendTag [] fn wt.
Proof. apply AppendVarint_app. Qed.

Lemma ReadTag_AppendTag fn wt rest : 0 <= fn < 2 ^ 29 -> 0 <= wt < 8 ->
  ReadTag (AppendTag [] fn wt ++ rest) = Ok (fn, wt, zlen (AppendTag [] fn wt)).
Proof.
  intros Hf Hw. unfold ReadTag, AppendTag. rewrite tag_value by done.
  rewrite ReadVarint_AppendVarint by zlia. cbn [mbind result_bind].
  rewrite Z.shiftr_div_pow2 by lia. change 7 with (2 ^ 3 - 1). rewrite land_ones_mod by lia.
  change (2 ^ 3) with 8. rewrite Z.div_add_l, Z.div_small by lia.
  rewrite (Z.add_comm (fn * 8) wt), Z.mod_add, Z.mod_small by lia. by rewrite Z.add_0_r.
Qed.

Lemma ReadLengthDelimited_append (data rest : bytes) : zlen data < 2 ^ 63 - 10 ->
  zlen rest < 2 ^ 63 - 10 - zlen data ->
  ReadLengthDelimited (AppendVarint [] (u64 (zlen data)) ++ data ++ rest) =
    Ok (data, zlen (AppendVarint [] (u64 (zlen data))) + zlen data).
Proof.
  intros Hd Hr. pose proof (zlen_nonneg data). pose proof (zlen_nonneg rest).
  pose proof (AppendVarint_len (zlen data)).
  rewrite (u64_id (zlen data)) by zlia. unfold ReadLengthDelimited.
  rewrite ReadVarint_AppendVarint by zlia. cbn [mbind result_bind].
  autorewrite with mumble_len. rewrite u64_id by zlia.
  destruct (Z.ltb_spec (zlen (AppendVarint [] (zlen data)) + (zlen data + zlen rest)
     - zlen (AppendVarint [] (zlen data))) (zlen data)); [lia|].
  rewrite zdrop_app, i64_id, ztake_app by zlia. done.
Qed.

Lemma le32_u8 v : bytes_ok (le32 v).
Proof. repeat constructor; apply u8_range. Qed.

Lemma ReadFixed32_le32 v rest : is_u32 v -> ReadFixed32 (le32 v ++ rest) = v.
Proof.
  intros Hv. cbn [ReadFixed32 le32_read le32 app]. unfold u8.
  rewrite !Z.shiftr_div_pow2 by lia.
  rewrite <- (Z.shiftl_shiftl _ 8 16), <- (Z.shiftl_shiftl _ 8 8) by lia.
  rewrite <- (Z.shiftl_shiftl _ 8 8) by lia.
  rewrite <- !Z.shiftl_lor.
  pose proof (Z.mod_pos_bound v (2 ^ 8)). pose proof (Z.mod_pos_bound (v / 2 ^ 8) (2 ^ 8)).
  pose proof (Z.mod_pos_bound (v / 2 ^ 16) (2 ^ 8)).
  rewrite !lor_shiftl_add by lia.
  change (2 ^ 16) with (2 ^ 8 * 2 ^ 8). change (2 ^ 24) with (2 ^ 8 * 2 ^ 8 * 2 ^ 8).
  rewrite <- !Z.div_div by lia. rewrite (Z.mod_small (v / 2 ^ 8 / 2 ^ 8 / 2 ^ 8)).
  - rewrite <- !(Z.mul_comm (2 ^ 8)). rewrite !(Z.add_comm (_ mod _)), <- !Z.div_mod by lia. done.
  - rewrite !Z.div_div by lia. split; [apply Z.div_pos; zlia|].
    apply Z.div_lt_upper_bound; [lia|]. zlia.
Qed.

Lemma be32_back v rest : is_u32 v -> be32_read (be32 v ++ rest) = v.
Proof. intros Hv. apply (ReadFixed32_le32 v [] Hv). Qed.

Lemma be16_back v rest : is_u16 v -> be16_read (be16 v ++ rest) = v.
Proof.
  intros Hv. cbn [be16_read be16 app]. unfold u8. rewrite Z.shiftr_div_pow2 by lia.
  pose proof (Z.mod_pos_bound v (2 ^ 8)).
  rewrite lor_shiftl_add, (Z.mod_small (v / 2 ^ 8)) by
    (try (split; [apply Z.div_pos|apply Z.div_lt_upper_bound]); zlia).
  rewrite (Z.mul_comm _ (2 ^ 8)), Z.add_comm, <- Z.div_mod by lia. done.
Qed.

Lemma be32_read_nonneg b : bytes_ok b -> 0 <= be32_read b.
Proof.
  intros Hok. unfold be32_read. repeat case_match; try done. subst.
  unfold bytes_ok in Hok. decompose_Forall_hyps.
  rewrite !Z.lor_nonneg, !Z.shiftl_nonneg. unfold_widths. lia.
Qed.

Lemma be32_mod v rest : be32_read (be32 v ++ rest) = v mod 2 ^ 32.
Proof.
  assert (be32 v = be32 (v mod 2 ^ 32)) as ->; [|apply be32_back, u32_range].
  assert (forall k, 0 <= k <= 24 -> u8 (Z.shiftr (v mod 2 ^ 32) k) = u8 (Z.shiftr v k)) as H.
  { intros k Hk. unfold u8. apply Z.bits_inj'. intros i Hi. destruct (decide (i < 8)).
    - by rewrite !Z.mod_pow2_bits_low, !Z.shiftr_spec, Z.mod_pow2_bits_low by lia.
    - by rewrite !Z.mod_pow2_bits_high by lia. }
  unfold be32. rewrite !H by lia. f_equal. pose proof (H 0 ltac:(lia)) as H0.
  rewrite !Z.shiftr_0_r in H0. by rewrite H0.
Qed.

Lemma be64_back v rest : is_u64 v -> be64_read (be64 v ++ rest) = v.
Proof.
  intros Hv. unfold be64_read, be64.
  change (drop 4 ((be32 (Z.shiftr v 32) ++ be32 v) ++ rest)) with (be32 v ++ rest).
  rewrite <- app_assoc, !be32_mod, Z.shiftr_div_pow2 by lia.
  rewrite lor_shiftl_add by (lia || (apply Z.mod_pos_bound; lia)).
  rewrite (Z.mod_small (v / 2 ^ 32)).
  - rewrite (Z.mul_comm _ (2 ^ 32)), Z.add_comm, <- Z.div_mod by lia. done.
  - split; [apply Z.div_pos|apply Z.div_lt_upper_bound]; zlia.
Qed.
