(* ===== verification/Fields.v ===== *)
(** * The shape shared by every control message
    (pkg/mumble/protocol/messages)

    Every [Unmarshal] of the package is the same loop: read a tag, advance,
    switch on the field number. Here are that loop, the bodies its cases are
    made of, the field idioms of [Marshal], and the lemmas that turn a
    round-trip proof of one message into one lemma application per field. *)

From Stdlib Require Import ZArith Lia.
From stdpp Require Import base numbers list.
From S2P Require Import Prelude Wire.
Open Scope Z_scope.

(** ** Record update: [m <| field := v |>] *)

Class Eta (R : Type) := eta : R -> R.
Class SetField {R E : Type} (proj : R -> E) := set_field : E -> R -> R.
#[global] Arguments set_field {R E proj SetField} v r /.

Ltac mk_set_field R E proj :=
  let e := constr:(_ : Eta R) in
  let e := eval hnf in e in
  exact (fun (v : E) (r : R) =>
    ltac:(let body := eval cbv beta in (e r) in
          let p := eval pattern (proj r) in body in
          match p with ?f _ => let t := eval cbv beta in (f v) in exact t end)).

#[export] Hint Extern 0 (@SetField ?R ?E ?proj) => mk_set_field R E proj : typeclass_instances.

Notation "m <| proj := v |>" := (set_field (proj := proj) v m)
  (at level 1, left associativity, proj at level 99, format "m  <| proj  :=  v |>").

(** ** The loop of Unmarshal

    A Go method mutates its receiver and returns an error; on an error the
    fields read so far stay in the receiver, and two callers ignore the error.
    So the loop returns the receiver next to the optional error. *)

Definition outcome (M : Type) : Type := M * option wire_error.

Section Loop.
Context {M : Type}.

(** The [switch fn] of one message: field number, wire type, the bytes after
    the tag, the receiver; the updated receiver and the bytes left. *)
Definition switch : Type := Z -> Z -> bytes -> M -> result wire_error (M * bytes).

Variable field : switch.

(** The case bodies. *)
Definition case_varint (set : Z -> M -> M) (b : bytes) (m : M) : result wire_error (M * bytes) :=
  '(v, n) ← ReadVarint b; Ok (set v m, zdrop n b).

Definition case_delimited (set : bytes -> M -> M) (b : bytes) (m : M)
    : result wire_error (M * bytes) :=
  '(s, n) ← ReadLengthDelimited b; Ok (set s m, zdrop n b).

Definition case_fixed32 (set : Z -> M -> M) (b : bytes) (m : M) : result wire_error (M * bytes) :=
  if zlen b <? 4 then Ok (m, b) else Ok (set (ReadFixed32 b) m, zdrop 4 b).

Definition case_skip (wt : Z) (b : bytes) (m : M) : result wire_error (M * bytes) :=
  n ← SkipField b wt; Ok (m, zdrop n b).

(** [for len(b) > 0]; a round consumes at least the tag, so [len(data)]
    rounds are enough ([unmarshal_step]). *)
Fixpoint unmarshal_loop (fuel : nat) (m : M) (b : bytes) : outcome M :=
  match b, fuel with
  | [], _ => (m, None)
  | _, O => (m, None)
  | _, S fuel =>
      match ReadTag b with
      | Err e => (m, Some e)
      | Ok (fn, wt, n) =>
          match field fn wt (zdrop n b) m with
          | Err e => (m, Some e)
          | Ok (m, b) => unmarshal_loop fuel m b
          end
      end
  end.

Definition unmarshal (m : M) (data : bytes) : outcome M :=
  unmarshal_loop (length data) m data.

(** A switch never hands back more bytes than it was given. *)
Definition consuming : Prop := forall fn wt b m m' b',
  zlen b < 2 ^ 63 -> field fn wt b m = Ok (m', b') -> zlen b' <= zlen b.

Lemma case_varint_consuming set b m m' b' :
  case_varint set b m = Ok (m', b') -> zlen b' <= zlen b.
Proof.
  unfold case_varint. intros H. destruct_bind H. injection H as <- <-.
  match goal with H : ReadVarint _ = _ |- _ => apply ReadVarint_bounds in H end.
  rewrite zlen_zdrop; lia.
Qed.

Lemma case_delimited_consuming set b m m' b' : zlen b < 2 ^ 63 ->
  case_delimited set b m = Ok (m', b') -> zlen b' <= zlen b.
Proof.
  unfold case_delimited. intros Hb H. destruct_bind H. injection H as <- <-.
  match goal with H : ReadLengthDelimited _ = _ |- _ =>
    apply ReadLengthDelimited_bounds in H; [|done] end.
  rewrite zlen_zdrop; lia.
Qed.

Lemma case_fixed32_consuming set b m m' b' :
  case_fixed32 set b m = Ok (m', b') -> zlen b' <= zlen b.
Proof.
  unfold case_fixed32. case_match; intros [= <- <-]; [lia|]. rewrite zlen_zdrop; lia.
Qed.

Lemma case_skip_consuming wt b m m' b' : zlen b < 2 ^ 63 ->
  case_skip wt b m = Ok (m', b') -> zlen b' <= zlen b.
Proof.
  unfold case_skip. intros Hb H.
  destruct (SkipField b wt) as [n|] eqn:E; cbn in H; [|done]. injection H as <- <-.
  apply SkipField_bounds in E; [|done]. rewrite zlen_zdrop; lia.
Qed.

Section Consuming.
Hypothesis Hfield : consuming.

Lemma unmarshal_loop_fuel f1 f2 m b :
  zlen b < 2 ^ 63 -> (length b <= f1)%nat -> (length b <= f2)%nat ->
  unmarshal_loop f1 m b = unmarshal_loop f2 m b.
Proof.
  revert f2 m b. induction f1 as [|f1 IH]; intros f2 m b Hb H1 H2.
  - destruct b; [by destruct f2|cbn in H1; lia].
  - destruct b as [|c b0]; [by destruct f2|]. destruct f2 as [|f2]; [cbn in H2; lia|].
    cbn [unmarshal_loop]. destruct (ReadTag (c :: b0)) as [[[fn wt] n]|] eqn:E; [|done].
    destruct (field fn wt (zdrop n (c :: b0)) m) as [[m' b']|] eqn:E2; [|done].
    apply ReadTag_bounds in E. assert (zlen b' <= zlen (c :: b0) - n) as Hl.
    { rewrite <- zlen_zdrop by lia. eapply Hfield, E2. rewrite zlen_zdrop; lia. }
    unfold zlen in *. cbn [length] in *. apply IH; unfold zlen; lia.
Qed.

(** The loop of the source, without fuel. *)
Lemma unmarshal_step m b : b <> [] -> zlen b < 2 ^ 63 ->
  unmarshal m b =
    match ReadTag b with
    | Err e => (m, Some e)
    | Ok (fn, wt, n) =>
        match field fn wt (zdrop n b) m with
        | Err e => (m, Some e)
        | Ok (m', b') => unmarshal m' b'
        end
    end.
Proof.
  intros Hb Hl. unfold unmarshal at 1. destruct b as [|c b0]; [done|].
  cbn [length unmarshal_loop].
  destruct (ReadTag (c :: b0)) as [[[fn wt] n]|] eqn:E; [|done].
  destruct (field fn wt (zdrop n (c :: b0)) m) as [[m' b']|] eqn:E2; [|done].
  apply ReadTag_bounds in E. assert (zlen b' <= zlen (c :: b0) - n) as Hl'.
  { rewrite <- zlen_zdrop by lia. eapply Hfield, E2. rewrite zlen_zdrop; lia. }
  apply unmarshal_loop_fuel; unfold zlen in *; cbn [length] in *; lia.
Qed.

(** ** Writing a field and reading it back *)

(** [emits b m]: a reader that starts from [m0] and consumes [b] stands at
    [m], whatever follows. *)
Variable m0 : M.
Definition emits (b : bytes) (m : M) : Prop := forall rest,
  zlen (b ++ rest) < 2 ^ 62 -> unmarshal m0 (b ++ rest) = unmarshal m rest.

Lemma emits_nil : emits [] m0.
Proof. by intros rest. Qed.

Lemma emits_done b m : zlen b < 2 ^ 62 -> emits b m -> unmarshal m0 b = (m, None).
Proof. intros Hl H. specialize (H []). rewrite app_nil_r in H. by apply H. Qed.

(** One field: its tag, then a payload the case body consumes. *)
Lemma emits_field b m fn wt payload m' :
  0 <= fn < 2 ^ 29 -> 0 <= wt < 8 -> emits b m ->
  (forall rest, zlen (payload ++ rest) < 2 ^ 62 ->
     field fn wt (payload ++ rest) m = Ok (m', rest)) ->
  emits (AppendTag b fn wt ++ payload) m'.
Proof.
  intros Hf Hw Hb Hp rest Hl. rewrite AppendTag_app in *. rewrite <- !app_assoc in *.
  rewrite Hb by done.
  pose proof (AppendVarint_len (Z.lor (u64 (Z.shiftl (u64 fn) 3)) (u64 wt))) as Ht.
  rewrite !zlen_app in Hl. unfold AppendTag in Hl.
  pose proof (zlen_nonneg b). pose proof (zlen_nonneg rest). pose proof (zlen_nonneg payload).
  rewrite unmarshal_step.
  - rewrite ReadTag_AppendTag by done. rewrite zdrop_app, Hp; [done|].
    rewrite zlen_app; lia.
  - intros H'. apply (f_equal zlen) in H'. rewrite !zlen_app in H'. unfold AppendTag in H'.
    rewrite zlen_nil in H'. lia.
  - rewrite !zlen_app. unfold AppendTag. lia.
Qed.
End Consuming.
End Loop.
Arguments switch : clear implicits.

(** ** The field idioms of Marshal *)

(** [b = AppendTag(b, fn, WireVarint); b = AppendVarint(b, v)]. *)
Definition put_varint (b : bytes) (fn v : Z) : bytes :=
  AppendVarint (AppendTag b fn WireVarint) v.

Lemma put_varint_len b fn v : zlen (put_varint b fn v) <= zlen b + 20.
Proof.
  unfold put_varint. rewrite AppendVarint_app, AppendTag_app, !zlen_app.
  pose proof (AppendVarint_len v). unfold AppendTag.
  pose proof (AppendVarint_len (Z.lor (u64 (Z.shiftl (u64 fn) 3)) (u64 WireVarint))). lia.
Qed.

(** [b = AppendTag(b, fn, WireFixed32); b = AppendFixed32(b, v)]. *)
Definition put_fixed32 (b : bytes) (fn v : Z) : bytes :=
  AppendFixed32 (AppendTag b fn WireFixed32) v.

(** [if x { AppendVarint(b, 1) } else { AppendVarint(b, 0) }]. *)
Definition bool_bit (x : bool) : Z := if x then 1 else 0.

Lemma bool_bit_u64 x : is_u64 (bool_bit x).
Proof. by destruct x. Qed.
Lemma bool_bit_nonzero x : negb (bool_bit x =? 0) = x.
Proof. by destruct x. Qed.

(** [for _, v := range l { ... }]. *)
Definition put_each {A} (put : bytes -> A -> bytes) (l : list A) (b : bytes) : bytes :=
  fold_left put l b.

(** [if c { b = put(b) }]. *)
Definition when (c : bool) (put : bytes -> bytes) (b : bytes) : bytes :=
  if c then put b else b.

Definition nonempty {A} (l : list A) : bool := match l with [] => false | _ => true end.

(** A float32 travels as its IEEE 754 bit pattern; it compares equal to zero
    when it is plus or minus zero. *)
Definition f32_nonzero (bits : Z) : bool := negb ((bits =? 0) || (bits =? 2 ^ 31)).

(** The bit patterns the senders of this protocol put on the wire unchanged:
    minus zero is left out like zero. *)
Definition f32_wire (bits : Z) : Prop := is_u32 bits /\ bits <> 2 ^ 31.

Section Emits.
Context {M : Type} (field : switch M) (Hfield : consuming field) (m0 : M).
Local Notation emits := (emits field m0).

Lemma emits_varint b m' m fn v set :
  0 <= fn < 2 ^ 29 -> is_u64 v -> emits b m' ->
  (forall wt b m, field fn wt b m = case_varint set b m) -> set v m' = m ->
  emits (put_varint b fn v) m.
Proof.
  intros Hf Hv Hb Hs <-. unfold put_varint. rewrite AppendVarint_app.
  apply emits_field with (m := m'); [done..|]. intros rest Hl. rewrite Hs. unfold case_varint.
  rewrite ReadVarint_AppendVarint by done. cbn [mbind result_bind].
  by rewrite zdrop_app.
Qed.

(** A length-delimited field; the payload is within the bound of its buffer. *)
Lemma emits_payload b m' m fn (data : bytes) :
  0 <= fn < 2 ^ 29 -> emits b m' ->
  (zlen data < 2 ^ 62 -> forall b n, ReadLengthDelimited b = Ok (data, n) ->
     field fn WireLengthDelimited b m' = Ok (m, zdrop n b)) ->
  emits (AppendBytes b fn data) m.
Proof.
  intros Hf Hb Hs. unfold AppendBytes.
  rewrite AppendVarint_app, <- app_assoc.
  apply emits_field with (m := m'); [done..|]. intros rest Hl.
  rewrite <- app_assoc in *. pose proof (AppendVarint_len (u64 (zlen data))).
  rewrite !zlen_app in Hl. pose proof (zlen_nonneg data). pose proof (zlen_nonneg rest).
  rewrite (Hs ltac:(lia) _ _ (ReadLengthDelimited_append data rest ltac:(lia) ltac:(lia))).
  by rewrite <- zlen_app, app_assoc, zdrop_app.
Qed.

Lemma emits_bytes b m' m fn (data : bytes) set :
  0 <= fn < 2 ^ 29 -> emits b m' ->
  (forall wt b m, field fn wt b m = case_delimited set b m) ->
  (zlen data < 2 ^ 62 -> set data m' = m) ->
  emits (AppendBytes b fn data) m.
Proof.
  intros Hf Hb Hs Hm. eapply emits_payload; [done..|]. intros Hl b' n Hr.
  rewrite Hs. unfold case_delimited. rewrite Hr. cbn [mbind result_bind]. by rewrite Hm.
Qed.

Lemma emits_fixed32 b m' m fn v set :
  0 <= fn < 2 ^ 29 -> is_u32 v -> emits b m' ->
  (forall wt b m, field fn wt b m = case_fixed32 set b m) -> set v m' = m ->
  emits (put_fixed32 b fn v) m.
Proof.
  intros Hf Hv Hb Hs <-. unfold put_fixed32, AppendFixed32.
  apply emits_field with (m := m'); [done..|]. intros rest Hl. rewrite Hs. unfold case_fixed32.
  destruct (Z.ltb_spec (zlen (le32 v ++ rest)) 4) as [H'|_].
  { rewrite zlen_app in H'. pose proof (zlen_nonneg rest).
    change (zlen (le32 v)) with 4 in H'. lia. }
  by rewrite ReadFixed32_le32.
Qed.

(** An optional field that is left out must leave the receiver as it is. *)
Lemma emits_opt (c : bool) put b m' m :
  emits b m' -> (c = true -> emits b m' -> emits (put b) m) -> (c = false -> m' = m) ->
  emits (when c put b) m.
Proof. unfold when. destruct c; intros H1 H2 H3; [by apply H2|by rewrite <- H3]. Qed.

(** A repeated field appends its elements one by one. *)
Lemma emits_each {A} (P : A -> Prop) (put : bytes -> A -> bytes) (upd : list A -> M -> M)
    l b m' m :
  Forall P l -> emits b m' ->
  (forall b m a, P a -> emits b m -> emits (put b a) (upd [a] m)) ->
  (forall m, upd [] m = m) ->
  (forall l1 l2 m, upd l2 (upd l1 m) = upd (l1 ++ l2) m) ->
  upd l m' = m -> emits (put_each put l b) m.
Proof.
  intros HP Hb Hput H0 Happ <-. revert b m' Hb.
  induction HP as [|a l Ha HP IH]; intros b m' Hb; [by rewrite H0|].
  cbn. change (a :: l) with ([a] ++ l). rewrite <- Happ. apply IH. by apply Hput.
Qed.
End Emits.

(** ** Automation of the round trips *)

#[global] Arguments put_varint : simpl never.
#[global] Arguments put_fixed32 : simpl never.
#[global] Arguments bool_bit : simpl never.
#[global] Arguments when : simpl never.
#[global] Arguments put_each : simpl never.
#[global] Arguments AppendBytes : simpl never.
#[global] Arguments AppendString : simpl never.
#[global] Arguments AppendTag : simpl never.
#[global] Arguments AppendVarint : simpl never.
#[global] Arguments f32_nonzero : simpl never.
#[global] Arguments nonempty : simpl never.
#[global] Arguments unmarshal : simpl never.
#[global] Arguments u32 : simpl never.
#[global] Arguments u64 : simpl never.
#[global] Arguments i32 : simpl never.

Ltac solve_consuming :=
  intros fn wt b m m' b' Hb H;
  match type of H with ?f _ _ _ _ = _ => unfold f in H end;
  repeat case_match;
  eauto using case_varint_consuming, case_delimited_consuming,
    case_fixed32_consuming, case_skip_consuming.

(** Opens a record message: its fields become variables. *)
Ltac start_emits Hcons :=
  match goal with |- ?wf ?m -> emits ?f ?z (?marshal ?m) ?m =>
    pose proof Hcons; unfold wf, marshal; destruct m; cbn; intros; destruct_and?
  end.

Ltac fix_conversions :=
  repeat first
    [ rewrite u32_id by (assumption || zlia) | rewrite i32_u64 by (assumption || zlia)
    | rewrite i32_id by (assumption || zlia) | rewrite bool_bit_nonzero ].

(** A field that was left out holds its zero value. *)
Ltac absent :=
  intros Hc; cbn in *;
  repeat match goal with
    | H : negb _ = false |- _ => apply negb_false_iff in H
    | H : (_ =? _) = true |- _ => apply Z.eqb_eq in H
    | H : _ || _ = false |- _ => apply orb_false_iff in H; destruct H
    | H : f32_nonzero _ = false |- _ => unfold f32_nonzero in H
    | H : (_ || _) = true |- _ => apply orb_true_iff in H; destruct H
    | H : f32_wire _ |- _ => destruct H
    | H : nonempty ?l = false |- _ => destruct l; [clear H|discriminate H]
    end; subst; cbn; intuition (auto; congruence).

Ltac same_message := intros; cbn; fix_conversions; try reflexivity.

(** One field of the buffer, from the last to the first: the goal becomes the
    buffer before the field and the message [m'] without it. *)
Ltac peel_field Hc m' :=
  first
    [ eapply (emits_varint _ Hc _ _ m');
        [lia | first [assumption | apply bool_bit_u64 | apply u64_range | zlia] | | intros; reflexivity | same_message]
    | eapply (emits_fixed32 _ Hc _ _ m');
        [lia | first [assumption | match goal with H : f32_wire _ |- _ => apply H end]
        | | intros; reflexivity | same_message]
    | unfold AppendString; eapply (emits_bytes _ Hc _ _ m');
        [lia | | intros; reflexivity | same_message] ].

Ltac peel_to m' :=
  lazymatch goal with
  | Hc : consuming ?f |- emits ?f _ (when ?c ?put ?b) _ =>
      apply (emits_opt f _ c put b m');
      [ | intros Hflag ?; try subst; cbn; peel_field Hc m'; assumption
        | absent ]
  | Hc : consuming ?f |- emits ?f _ _ _ => peel_field Hc m'
  end.

Ltac peel proj z :=
  lazymatch goal with |- emits _ _ _ ?m =>
    let m' := eval cbn in (set_field (proj := proj) z m) in peel_to m'
  end.

(** A field with its presence flag. *)
Ltac peel2 proj1 z1 proj2 z2 :=
  lazymatch goal with |- emits _ _ _ ?m =>
    let m' := eval cbn in
      (set_field (proj := proj2) z2 (set_field (proj := proj1) z1 m)) in peel_to m'
  end.

(** A repeated field; [tac] shows one element is read back. *)
Ltac peel_each_with proj tac :=
  lazymatch goal with
  | Hc : consuming ?f |- emits ?f _ (put_each ?put ?l ?b) ?m =>
      let E := lazymatch type of l with list ?E => E end in
      let P := match goal with
               | H : Forall ?P l |- _ => P
               | _ => constr:(fun _ : E => True)
               end in
      let m' := eval cbn in (set_field (proj := proj) (@nil E) m) in
      apply (emits_each f _ P put
               (fun xs r => set_field (proj := proj) (proj r ++ xs) r) l b m' m);
      [ first [assumption | by apply Forall_true]
      | | let m1 := fresh "m" in intros ? m1 ? ? ?; tac Hc m1
      | let m1 := fresh "m" in intros m1; destruct m1; cbn; by rewrite app_nil_r
      | let m1 := fresh "m" in intros ? ? m1; destruct m1; cbn; by rewrite app_assoc
      | reflexivity ]
  end.

Ltac peel_each proj :=
  peel_each_with proj ltac:(fun Hc m1 => try subst; peel_field Hc m1; assumption).
