(* ===== verification/Messages.v ===== *)
(** * The control messages (pkg/mumble/protocol/messages)

    One Module per Go struct, with the record, its zero value, [Marshal], the
    [switch] of [Unmarshal] ([field]) and [Unmarshal]. Integer fields are [Z]
    at the width of the Go type, float32 fields are bit patterns, strings and
    byte slices are byte lists (nil and empty slices are one value, except in
    [CryptSetup.Key], where the code tells them apart). [wf] states the width
    of the fields and the presence conventions a value must obey to survive the
    wire. *)

From Stdlib Require Import ZArith Lia.
From stdpp Require Import base numbers list.
From S2P Require Import Prelude Wire Fields.
Open Scope Z_scope.

Module Version.
Record t := mk {
  VersionV1 : Z;
  VersionV2 : Z;
  Release : gostring;
  OS : gostring;
  OSVersion : gostring;
  CryptoModes : Z }.
#[global] Instance eta_t : Eta t := fun m =>
  mk m.(VersionV1) m.(VersionV2) m.(Release) m.(OS) m.(OSVersion) m.(CryptoModes).
Definition zero : t := mk 0 0 [] [] [] 0.

Definition Marshal (m : t) : bytes :=
  let b := [] in
  let b := when (negb (m.(VersionV1) =? 0)) (fun b => put_varint b 1 m.(VersionV1)) b in
  let b := when (nonempty m.(Release)) (fun b => AppendString b 2 m.(Release)) b in
  let b := when (nonempty m.(OS)) (fun b => AppendString b 3 m.(OS)) b in
  let b := when (nonempty m.(OSVersion)) (fun b => AppendString b 4 m.(OSVersion)) b in
  let b := when (negb (m.(VersionV2) =? 0)) (fun b => put_varint b 5 m.(VersionV2)) b in
  let b := when (negb (m.(CryptoModes) =? 0)) (fun b => put_varint b 6 m.(CryptoModes)) b in
  b.

Definition field : switch t := fun fn wt b m =>
  match fn with
  | 1 => case_varint (fun v m => m <| VersionV1 := u32 v |>) b m
  | 2 => case_delimited (fun s m => m <| Release := s |>) b m
  | 3 => case_delimited (fun s m => m <| OS := s |>) b m
  | 4 => case_delimited (fun s m => m <| OSVersion := s |>) b m
  | 5 => case_varint (fun v m => m <| VersionV2 := v |>) b m
  | 6 => case_varint (fun v m => m <| CryptoModes := u32 v |>) b m
  | _ => case_skip wt b m
  end.
Definition Unmarshal (m : t) (data : bytes) : outcome t := unmarshal field m data.

Definition wf (m : t) : Prop :=
  is_u32 m.(VersionV1) /\ is_u64 m.(VersionV2) /\ is_u32 m.(CryptoModes).
End Version.

Module Authenticate.
Record t := mk {
  Username : gostring;
  Password : gostring;
  Tokens : list gostring;
  CeltVersions : list Z;
  Opus : bool;
  ClientType : Z }.
#[global] Instance eta_t : Eta t := fun m =>
  mk m.(Username) m.(Password) m.(Tokens) m.(CeltVersions) m.(Opus) m.(ClientType).
Definition zero : t := mk [] [] [] [] false 0.

Definition Marshal (m : t) : bytes :=
  let b := [] in
  let b := when (nonempty m.(Username)) (fun b => AppendString b 1 m.(Username)) b in
  let b := when (nonempty m.(Password)) (fun b => AppendString b 2 m.(Password)) b in
  let b := put_each (fun b v => AppendString b 3 v) m.(Tokens) b in
  let b := put_each (fun b v => put_varint b 4 (u64 v)) m.(CeltVersions) b in
  let b := when (m.(Opus)) (fun b => put_varint b 5 1) b in
  let b := when (negb (m.(ClientType) =? 0)) (fun b => put_varint b 6 (u64 m.(ClientType))) b in
  b.

Definition field : switch t := fun fn wt b m =>
  match fn with
  | 1 => case_delimited (fun s m => m <| Username := s |>) b m
  | 2 => case_delimited (fun s m => m <| Password := s |>) b m
  | 3 => case_delimited (fun s m => m <| Tokens := m.(Tokens) ++ [s] |>) b m
  | 4 => case_varint (fun v m => m <| CeltVersions := m.(CeltVersions) ++ [i32 v] |>) b m
  | 5 => case_varint (fun v m => m <| Opus := negb (v =? 0) |>) b m
  | 6 => case_varint (fun v m => m <| ClientType := i32 v |>) b m
  | _ => case_skip wt b m
  end.
Definition Unmarshal (m : t) (data : bytes) : outcome t := unmarshal field m data.

Definition wf (m : t) : Prop :=
  Forall is_i32 m.(CeltVersions) /\ is_i32 m.(ClientType).
End Authenticate.

Module Ping.
Record t := mk {
  Timestamp : Z;
  Good : Z;
  Late : Z;
  Lost : Z;
  Resync : Z;
  UDPPackets : Z;
  TCPPackets : Z;
  UDPPingAvg : Z;
  UDPPingVar : Z;
  TCPPingAvg : Z;
  TCPPingVar : Z }.
#[global] Instance eta_t : Eta t := fun m =>
  mk m.(Timestamp) m.(Good) m.(Late) m.(Lost) m.(Resync) m.(UDPPackets) m.(TCPPackets) m.(UDPPingAvg) m.(UDPPingVar) m.(TCPPingAvg) m.(TCPPingVar).
Definition zero : t := mk 0 0 0 0 0 0 0 0 0 0 0.

Definition Marshal (m : t) : bytes :=
  let b := [] in
  let b := when (negb (m.(Timestamp) =? 0)) (fun b => put_varint b 1 m.(Timestamp)) b in
  let b := when (negb (m.(Good) =? 0)) (fun b => put_varint b 2 m.(Good)) b in
  let b := when (negb (m.(Late) =? 0)) (fun b => put_varint b 3 m.(Late)) b in
  let b := when (negb (m.(Lost) =? 0)) (fun b => put_varint b 4 m.(Lost)) b in
  let b := when (negb (m.(Resync) =? 0)) (fun b => put_varint b 5 m.(Resync)) b in
  let b := when (negb (m.(UDPPackets) =? 0)) (fun b => put_varint b 6 m.(UDPPackets)) b in
  let b := when (negb (m.(TCPPackets) =? 0)) (fun b => put_varint b 7 m.(TCPPackets)) b in
  let b := when (f32_nonzero m.(UDPPingAvg)) (fun b => put_fixed32 b 8 m.(UDPPingAvg)) b in
  let b := when (f32_nonzero m.(UDPPingVar)) (fun b => put_fixed32 b 9 m.(UDPPingVar)) b in
  let b := when (f32_nonzero m.(TCPPingAvg)) (fun b => put_fixed32 b 10 m.(TCPPingAvg)) b in
  let b := when (f32_nonzero m.(TCPPingVar)) (fun b => put_fixed32 b 11 m.(TCPPingVar)) b in
  b.

Definition field : switch t := fun fn wt b m =>
  match fn with
  | 1 => case_varint (fun v m => m <| Timestamp := v |>) b m
  | 2 => case_varint (fun v m => m <| Good := u32 v |>) b m
  | 3 => case_varint (fun v m => m <| Late := u32 v |>) b m
  | 4 => case_varint (fun v m => m <| Lost := u32 v |>) b m
  | 5 => case_varint (fun v m => m <| Resync := u32 v |>) b m
  | 6 => case_varint (fun v m => m <| UDPPackets := u32 v |>) b m
  | 7 => case_varint (fun v m => m <| TCPPackets := u32 v |>) b m
  | 8 => case_fixed32 (fun v m => m <| UDPPingAvg := v |>) b m
  | 9 => case_fixed32 (fun v m => m <| UDPPingVar := v |>) b m
  | 10 => case_fixed32 (fun v m => m <| TCPPingAvg := v |>) b m
  | 11 => case_fixed32 (fun v m => m <| TCPPingVar := v |>) b m
  | _ => case_skip wt b m
  end.
Definition Unmarshal (m : t) (data : bytes) : outcome t := unmarshal field m data.

Definition wf (m : t) : Prop :=
  is_u64 m.(Timestamp) /\ is_u32 m.(Good) /\ is_u32 m.(Late) /\ is_u32 m.(Lost) /\ is_u32 m.(Resync) /\ is_u32 m.(UDPPackets) /\ is_u32 m.(TCPPackets) /\ f32_wire m.(UDPPingAvg) /\ f32_wire m.(UDPPingVar) /\ f32_wire m.(TCPPingAvg) /\ f32_wire m.(TCPPingVar).
End Ping.

Module Reject.
Record t := mk {
  Type_ : Z;
  Reason : gostring }.
#[global] Instance eta_t : Eta t := fun m =>
  mk m.(Type_) m.(Reason).
Definition zero : t := mk 0 [].

Definition Marshal (m : t) : bytes :=
  let b := [] in
  let b := when (negb (m.(Type_) =? 0)) (fun b => put_varint b 1 m.(Type_)) b in
  let b := when (nonempty m.(Reason)) (fun b => AppendString b 2 m.(Reason)) b in
  b.

Definition field : switch t := fun fn wt b m =>
  match fn with
  | 1 => case_varint (fun v m => m <| Type_ := u32 v |>) b m
  | 2 => case_delimited (fun s m => m <| Reason := s |>) b m
  | _ => case_skip wt b m
  end.
Definition Unmarshal (m : t) (data : bytes) : outcome t := unmarshal field m data.

Definition wf (m : t) : Prop :=
  is_u32 m.(Type_).
End Reject.

Module ServerSync.
Record t := mk {
  Session : Z;
  MaxBandwidth : Z;
  WelcomeText : gostring;
  Permissions : Z }.
#[global] Instance eta_t : Eta t := fun m =>
  mk m.(Session) m.(MaxBandwidth) m.(WelcomeText) m.(Permissions).
Definition zero : t := mk 0 0 [] 0.

Definition Marshal (m : t) : bytes :=
  let b := [] in
  let b := when (negb (m.(Session) =? 0)) (fun b => put_varint b 1 m.(Session)) b in
  let b := when (negb (m.(MaxBandwidth) =? 0)) (fun b => put_varint b 2 m.(MaxBandwidth)) b in
  let b := when (nonempty m.(WelcomeText)) (fun b => AppendString b 3 m.(WelcomeText)) b in
  let b := when (negb (m.(Permissions) =? 0)) (fun b => put_varint b 4 m.(Permissions)) b in
  b.

Definition field : switch t := fun fn wt b m =>
  match fn with
  | 1 => case_varint (fun v m => m <| Session := u32 v |>) b m
  | 2 => case_varint (fun v m => m <| MaxBandwidth := u32 v |>) b m
  | 3 => case_delimited (fun s m => m <| WelcomeText := s |>) b m
  | 4 => case_varint (fun v m => m <| Permissions := v |>) b m
  | _ => case_skip wt b m
  end.
Definition Unmarshal (m : t) (data : bytes) : outcome t := unmarshal field m data.

Definition wf (m : t) : Prop :=
  is_u32 m.(Session) /\ is_u32 m.(MaxBandwidth) /\ is_u64 m.(Permissions).
End ServerSync.

Module ChannelRemove.
Record t := mk {
  ChannelID : Z }.
#[global] Instance eta_t : Eta t := fun m =>
  mk m.(ChannelID).
Definition zero : t := mk 0.

Definition Marshal (m : t) : bytes :=
  let b := [] in
  let b := put_varint b 1 m.(ChannelID) in
  b.

Definition field : switch t := fun fn wt b m =>
  match fn with
  | 1 => case_varint (fun v m => m <| ChannelID := u32 v |>) b m
  | _ => case_skip wt b m
  end.
Definition Unmarshal (m : t) (data : bytes) : outcome t := unmarshal field m data.

Definition wf (m : t) : Prop :=
  is_u32 m.(ChannelID).
End ChannelRemove.

Module ChannelState.
Record t := mk {
  ChannelID : Z;
  Parent : Z;
  HasParent : bool;
  Name : gostring;
  Links : list Z;
  Description : gostring;
  LinksAdd : list Z;
  LinksRemove : list Z;
  Temporary : bool;
  Position : Z;
  DescriptionHash : bytes;
  MaxUsers : Z;
  IsEnterRestricted : bool;
  HasEnterRestricted : bool;
  CanEnter : bool;
  HasCanEnter : bool }.
#[global] Instance eta_t : Eta t := fun m =>
  mk m.(ChannelID) m.(Parent) m.(HasParent) m.(Name) m.(Links) m.(Description) m.(LinksAdd)
    m.(LinksRemove) m.(Temporary) m.(Position) m.(DescriptionHash) m.(MaxUsers)
    m.(IsEnterRestricted) m.(HasEnterRestricted) m.(CanEnter) m.(HasCanEnter).
Definition zero : t :=
  mk 0 0 false [] [] [] [] [] false 0 [] 0 false false false false.

Definition Marshal (m : t) : bytes :=
  let b := [] in
  let b := put_varint b 1 m.(ChannelID) in
  let b := when m.(HasParent) (fun b => put_varint b 2 m.(Parent)) b in
  let b := when (nonempty m.(Name)) (fun b => AppendString b 3 m.(Name)) b in
  let b := put_each (fun b v => put_varint b 4 v) m.(Links) b in
  let b := when (nonempty m.(Description)) (fun b => AppendString b 5 m.(Description)) b in
  let b := put_each (fun b v => put_varint b 6 v) m.(LinksAdd) b in
  let b := put_each (fun b v => put_varint b 7 v) m.(LinksRemove) b in
  let b := when m.(Temporary) (fun b => put_varint b 8 1) b in
  let b := when (negb (m.(Position) =? 0)) (fun b => put_varint b 9 (u64 m.(Position))) b in
  let b := when (nonempty m.(DescriptionHash)) (fun b => AppendBytes b 10 m.(DescriptionHash)) b in
  let b := when (negb (m.(MaxUsers) =? 0)) (fun b => put_varint b 11 m.(MaxUsers)) b in
  let b := when (m.(HasEnterRestricted) || m.(IsEnterRestricted))
             (fun b => put_varint b 12 (bool_bit m.(IsEnterRestricted))) b in
  let b := when (m.(HasCanEnter) || m.(CanEnter))
             (fun b => put_varint b 13 (bool_bit m.(CanEnter))) b in
  b.

Definition field : switch t := fun fn wt b m =>
  match fn with
  | 1 => case_varint (fun v m => m <| ChannelID := u32 v |>) b m
  | 2 => case_varint (fun v m => m <| Parent := u32 v |> <| HasParent := true |>) b m
  | 3 => case_delimited (fun s m => m <| Name := s |>) b m
  | 4 => case_varint (fun v m => m <| Links := m.(Links) ++ [u32 v] |>) b m
  | 5 => case_delimited (fun s m => m <| Description := s |>) b m
  | 6 => case_varint (fun v m => m <| LinksAdd := m.(LinksAdd) ++ [u32 v] |>) b m
  | 7 => case_varint (fun v m => m <| LinksRemove := m.(LinksRemove) ++ [u32 v] |>) b m
  | 8 => case_varint (fun v m => m <| Temporary := negb (v =? 0) |>) b m
  | 9 => case_varint (fun v m => m <| Position := i32 v |>) b m
  | 10 => case_delimited (fun s m => m <| DescriptionHash := s |>) b m
  | 11 => case_varint (fun v m => m <| MaxUsers := u32 v |>) b m
  | 12 => case_varint (fun v m =>
      m <| IsEnterRestricted := negb (v =? 0) |> <| HasEnterRestricted := true |>) b m
  | 13 => case_varint (fun v m =>
      m <| CanEnter := negb (v =? 0) |> <| HasCanEnter := true |>) b m
  | _ => case_skip wt b m
  end.
Definition Unmarshal (m : t) (data : bytes) : outcome t := unmarshal field m data.

(** The presence flags agree with the values they announce. *)
Definition wf (m : t) : Prop :=
  is_u32 m.(ChannelID) /\ is_u32 m.(Parent) /\ Forall is_u32 m.(Links) /\
  Forall is_u32 m.(LinksAdd) /\ Forall is_u32 m.(LinksRemove) /\ is_i32 m.(Position) /\
  is_u32 m.(MaxUsers) /\ (m.(HasParent) = false -> m.(Parent) = 0) /\
  (m.(HasEnterRestricted) = false -> m.(IsEnterRestricted) = false) /\
  (m.(HasCanEnter) = false -> m.(CanEnter) = false).
End ChannelState.

Module UserRemove.
Record t := mk {
  Session : Z;
  Actor : Z;
  Reason : gostring;
  Ban : bool }.
#[global] Instance eta_t : Eta t := fun m =>
  mk m.(Session) m.(Actor) m.(Reason) m.(Ban).
Definition zero : t := mk 0 0 [] false.

Definition Marshal (m : t) : bytes :=
  let b := [] in
  let b := put_varint b 1 m.(Session) in
  let b := when (negb (m.(Actor) =? 0)) (fun b => put_varint b 2 m.(Actor)) b in
  let b := when (nonempty m.(Reason)) (fun b => AppendString b 3 m.(Reason)) b in
  let b := when (m.(Ban)) (fun b => put_varint b 4 1) b in
  b.

Definition field : switch t := fun fn wt b m =>
  match fn with
  | 1 => case_varint (fun v m => m <| Session := u32 v |>) b m
  | 2 => case_varint (fun v m => m <| Actor := u32 v |>) b m
  | 3 => case_delimited (fun s m => m <| Reason := s |>) b m
  | 4 => case_varint (fun v m => m <| Ban := negb (v =? 0) |>) b m
  | _ => case_skip wt b m
  end.
Definition Unmarshal (m : t) (data : bytes) : outcome t := unmarshal field m data.

Definition wf (m : t) : Prop :=
  is_u32 m.(Session) /\ is_u32 m.(Actor).
End UserRemove.

Module VolumeAdjustment.
Record t := mk {
  ListeningChannel : Z;
  Volume : Z }.
#[global] Instance eta_t : Eta t := fun m => mk m.(ListeningChannel) m.(Volume).
Definition zero : t := mk 0 0.

(** The buffer [vaBuf] built in the loop of [UserState.Marshal]. *)
Definition Marshal (va : t) : bytes :=
  let b := [] in
  let b := put_varint b 1 va.(ListeningChannel) in
  let b := when (f32_nonzero va.(Volume)) (fun b => put_fixed32 b 2 va.(Volume)) b in
  b.

Definition field : switch t := fun fn wt b m =>
  match fn with
  | 1 => case_varint (fun v m => m <| ListeningChannel := u32 v |>) b m
  | 2 => case_fixed32 (fun v m => m <| Volume := v |>) b m
  | _ => case_skip wt b m
  end.
Definition Unmarshal (m : t) (data : bytes) : outcome t := unmarshal field m data.

Definition wf (m : t) : Prop := is_u32 m.(ListeningChannel) /\ f32_wire m.(Volume).
End VolumeAdjustment.

Module UserState.
Record t := mk {
  Session : Z;
  Actor : Z;
  Name : gostring;
  UserID : Z;
  ChannelID : Z;
  Mute : bool;
  Deaf : bool;
  Suppress : bool;
  SelfMute : bool;
  SelfDeaf : bool;
  Texture : bytes;
  PluginContext : bytes;
  PluginIdentity : gostring;
  Comment : gostring;
  Hash : gostring;
  CommentHash : bytes;
  TextureHash : bytes;
  PrioritySpeaker : bool;
  Recording : bool;
  TemporaryAccessTokens : list gostring;
  ListeningChannelAdd : list Z;
  ListeningChannelRemove : list Z;
  ListeningVolumeAdjustment : list VolumeAdjustment.t;
  SetFields : Z }.
#[global] Instance eta_t : Eta t := fun m =>
  mk m.(Session) m.(Actor) m.(Name) m.(UserID) m.(ChannelID) m.(Mute)
    m.(Deaf) m.(Suppress) m.(SelfMute) m.(SelfDeaf) m.(Texture) m.(PluginContext)
    m.(PluginIdentity) m.(Comment) m.(Hash) m.(CommentHash) m.(TextureHash) m.(PrioritySpeaker)
    m.(Recording)
    m.(TemporaryAccessTokens) m.(ListeningChannelAdd) m.(ListeningChannelRemove)
    m.(ListeningVolumeAdjustment) m.(SetFields).
Definition zero : t :=
  mk 0 0 [] 0 0 false false false false false [] [] [] [] [] [] [] false false
    [] [] [] [] 0.

(** The presence bits [UserStateSet*] are [1 << k] in this order. *)
Definition SetSession : Z := 2 ^ 0.
Definition SetActor : Z := 2 ^ 1.
Definition SetName : Z := 2 ^ 2.
Definition SetUserID : Z := 2 ^ 3.
Definition SetChannelID : Z := 2 ^ 4.
Definition SetMute : Z := 2 ^ 5.
Definition SetDeaf : Z := 2 ^ 6.
Definition SetSuppress : Z := 2 ^ 7.
Definition SetSelfMute : Z := 2 ^ 8.
Definition SetSelfDeaf : Z := 2 ^ 9.
Definition SetTexture : Z := 2 ^ 10.
Definition SetPluginContext : Z := 2 ^ 11.
Definition SetPluginIdentity : Z := 2 ^ 12.
Definition SetComment : Z := 2 ^ 13.
Definition SetHash : Z := 2 ^ 14.
Definition SetCommentHash : Z := 2 ^ 15.
Definition SetTextureHash : Z := 2 ^ 16.
Definition SetPrioritySpeaker : Z := 2 ^ 17.
Definition SetRecording : Z := 2 ^ 18.

Definition Has (m : t) (bit : Z) : bool := negb (Z.land m.(SetFields) bit =? 0).

Definition appendBool (m : t) (b : bytes) (fn bit : Z) (v : bool) : bytes :=
  when (negb (negb (Has m bit) && negb v)) (fun b => put_varint b fn (bool_bit v)) b.

Definition Marshal (m : t) : bytes :=
  let b := [] in
  let b := when (Has m SetSession || negb (m.(Session) =? 0)) (fun b => put_varint b 1 m.(Session)) b in
  let b := when (Has m SetActor || negb (m.(Actor) =? 0)) (fun b => put_varint b 2 m.(Actor)) b in
  let b := when (Has m SetName || nonempty m.(Name)) (fun b => AppendString b 3 m.(Name)) b in
  let b := when (Has m SetUserID || negb (m.(UserID) =? 0)) (fun b => put_varint b 4 m.(UserID)) b in
  let b := when (Has m SetChannelID || negb (m.(ChannelID) =? 0)) (fun b => put_varint b 5 m.(ChannelID)) b in
  let b := appendBool m b 6 SetMute m.(Mute) in
  let b := appendBool m b 7 SetDeaf m.(Deaf) in
  let b := appendBool m b 8 SetSuppress m.(Suppress) in
  let b := appendBool m b 9 SetSelfMute m.(SelfMute) in
  let b := appendBool m b 10 SetSelfDeaf m.(SelfDeaf) in
  let b := when (Has m SetTexture || nonempty m.(Texture)) (fun b => AppendBytes b 11 m.(Texture)) b in
  let b := when (Has m SetPluginContext || nonempty m.(PluginContext)) (fun b => AppendBytes b 12 m.(PluginContext)) b in
  let b := when (Has m SetPluginIdentity || nonempty m.(PluginIdentity)) (fun b => AppendString b 13 m.(PluginIdentity)) b in
  let b := when (Has m SetComment || nonempty m.(Comment)) (fun b => AppendString b 14 m.(Comment)) b in
  let b := when (Has m SetHash || nonempty m.(Hash)) (fun b => AppendString b 15 m.(Hash)) b in
  let b := when (Has m SetCommentHash || nonempty m.(CommentHash)) (fun b => AppendBytes b 16 m.(CommentHash)) b in
  let b := when (Has m SetTextureHash || nonempty m.(TextureHash)) (fun b => AppendBytes b 17 m.(TextureHash)) b in
  let b := appendBool m b 18 SetPrioritySpeaker m.(PrioritySpeaker) in
  let b := appendBool m b 19 SetRecording m.(Recording) in
  let b := put_each (fun b s => AppendString b 20 s) m.(TemporaryAccessTokens) b in
  let b := put_each (fun b v => put_varint b 21 v) m.(ListeningChannelAdd) b in
  let b := put_each (fun b v => put_varint b 22 v) m.(ListeningChannelRemove) b in
  let b := put_each (fun b va =>
             let vaBuf := VolumeAdjustment.Marshal va in
             when (nonempty vaBuf) (fun b => AppendBytes b 23 vaBuf) b)
             m.(ListeningVolumeAdjustment) b in
  b.

(** [m.SetFields |= bit]. *)
Definition mark (bit : Z) (m : t) : t := m <| SetFields := Z.lor m.(SetFields) bit |>.

Definition field : switch t := fun fn wt b m =>
  match fn with
  | 1 => case_varint (fun v m => mark SetSession (m <| Session := u32 v |>)) b m
  | 2 => case_varint (fun v m => mark SetActor (m <| Actor := u32 v |>)) b m
  | 3 => case_delimited (fun s m => mark SetName (m <| Name := s |>)) b m
  | 4 => case_varint (fun v m => mark SetUserID (m <| UserID := u32 v |>)) b m
  | 5 => case_varint (fun v m => mark SetChannelID (m <| ChannelID := u32 v |>)) b m
  | 6 => case_varint (fun v m => mark SetMute (m <| Mute := negb (v =? 0) |>)) b m
  | 7 => case_varint (fun v m => mark SetDeaf (m <| Deaf := negb (v =? 0) |>)) b m
  | 8 => case_varint (fun v m => mark SetSuppress (m <| Suppress := negb (v =? 0) |>)) b m
  | 9 => case_varint (fun v m => mark SetSelfMute (m <| SelfMute := negb (v =? 0) |>)) b m
  | 10 => case_varint (fun v m => mark SetSelfDeaf (m <| SelfDeaf := negb (v =? 0) |>)) b m
  | 11 => case_delimited (fun s m => mark SetTexture (m <| Texture := s |>)) b m
  | 12 => case_delimited (fun s m => mark SetPluginContext (m <| PluginContext := s |>)) b m
  | 13 => case_delimited (fun s m => mark SetPluginIdentity (m <| PluginIdentity := s |>)) b m
  | 14 => case_delimited (fun s m => mark SetComment (m <| Comment := s |>)) b m
  | 15 => case_delimited (fun s m => mark SetHash (m <| Hash := s |>)) b m
  | 16 => case_delimited (fun s m => mark SetCommentHash (m <| CommentHash := s |>)) b m
  | 17 => case_delimited (fun s m => mark SetTextureHash (m <| TextureHash := s |>)) b m
  | 18 => case_varint (fun v m => mark SetPrioritySpeaker (m <| PrioritySpeaker := negb (v =? 0) |>)) b m
  | 19 => case_varint (fun v m => mark SetRecording (m <| Recording := negb (v =? 0) |>)) b m
  | 20 => case_delimited (fun s m =>
      m <| TemporaryAccessTokens := m.(TemporaryAccessTokens) ++ [s] |>) b m
  | 21 => case_varint (fun v m =>
      m <| ListeningChannelAdd := m.(ListeningChannelAdd) ++ [u32 v] |>) b m
  | 22 => case_varint (fun v m =>
      m <| ListeningChannelRemove := m.(ListeningChannelRemove) ++ [u32 v] |>) b m
  | 23 => case_delimited (fun bb m =>
      let va := fst (VolumeAdjustment.Unmarshal VolumeAdjustment.zero bb) in
      m <| ListeningVolumeAdjustment := m.(ListeningVolumeAdjustment) ++ [va] |>) b m
  | _ => case_skip wt b m
  end.

(** Presence is recorded from scratch: [m.SetFields = 0] before the loop. *)
Definition Unmarshal (m : t) (data : bytes) : outcome t :=
  unmarshal field (m <| SetFields := 0 |>) data.

(** A field that is not marked present holds its default. *)
Definition marked (m : t) : Prop :=
  (Has m SetSession = false -> m.(Session) = 0) /\
  (Has m SetActor = false -> m.(Actor) = 0) /\
  (Has m SetName = false -> m.(Name) = []) /\
  (Has m SetUserID = false -> m.(UserID) = 0) /\
  (Has m SetChannelID = false -> m.(ChannelID) = 0) /\
  (Has m SetMute = false -> m.(Mute) = false) /\
  (Has m SetDeaf = false -> m.(Deaf) = false) /\
  (Has m SetSuppress = false -> m.(Suppress) = false) /\
  (Has m SetSelfMute = false -> m.(SelfMute) = false) /\
  (Has m SetSelfDeaf = false -> m.(SelfDeaf) = false) /\
  (Has m SetTexture = false -> m.(Texture) = []) /\
  (Has m SetPluginContext = false -> m.(PluginContext) = []) /\
  (Has m SetPluginIdentity = false -> m.(PluginIdentity) = []) /\
  (Has m SetComment = false -> m.(Comment) = []) /\
  (Has m SetHash = false -> m.(Hash) = []) /\
  (Has m SetCommentHash = false -> m.(CommentHash) = []) /\
  (Has m SetTextureHash = false -> m.(TextureHash) = []) /\
  (Has m SetPrioritySpeaker = false -> m.(PrioritySpeaker) = false) /\
  (Has m SetRecording = false -> m.(Recording) = false).

Definition wf (m : t) : Prop :=
  is_u32 m.(Session) /\ is_u32 m.(Actor) /\ is_u32 m.(UserID) /\ is_u32 m.(ChannelID) /\
  Forall is_u32 m.(ListeningChannelAdd) /\ Forall is_u32 m.(ListeningChannelRemove) /\
  Forall VolumeAdjustment.wf m.(ListeningVolumeAdjustment) /\
  0 <= m.(SetFields) < 2 ^ 19 /\ marked m.
End UserState.

Module BanEntry.
Record t := mk {
  Address : bytes;
  Mask : Z;
  Name : gostring;
  Hash : gostring;
  Reason : gostring;
  Start : gostring;
  Duration : Z }.
#[global] Instance eta_t : Eta t := fun m =>
  mk m.(Address) m.(Mask) m.(Name) m.(Hash) m.(Reason) m.(Start) m.(Duration).
Definition zero : t := mk [] 0 [] [] [] [] 0.

(** The buffer [eb] built in the loop of [BanList.Marshal]. *)
Definition Marshal (m : t) : bytes :=
  let b := [] in
  let b := AppendBytes b 1 m.(Address) in
  let b := put_varint b 2 m.(Mask) in
  let b := when (nonempty m.(Name)) (fun b => AppendString b 3 m.(Name)) b in
  let b := when (nonempty m.(Hash)) (fun b => AppendString b 4 m.(Hash)) b in
  let b := when (nonempty m.(Reason)) (fun b => AppendString b 5 m.(Reason)) b in
  let b := when (nonempty m.(Start)) (fun b => AppendString b 6 m.(Start)) b in
  let b := when (negb (m.(Duration) =? 0)) (fun b => put_varint b 7 m.(Duration)) b in
  b.

Definition field : switch t := fun fn wt b m =>
  match fn with
  | 1 => case_delimited (fun s m => m <| Address := s |>) b m
  | 2 => case_varint (fun v m => m <| Mask := u32 v |>) b m
  | 3 => case_delimited (fun s m => m <| Name := s |>) b m
  | 4 => case_delimited (fun s m => m <| Hash := s |>) b m
  | 5 => case_delimited (fun s m => m <| Reason := s |>) b m
  | 6 => case_delimited (fun s m => m <| Start := s |>) b m
  | 7 => case_varint (fun v m => m <| Duration := u32 v |>) b m
  | _ => case_skip wt b m
  end.
Definition Unmarshal (m : t) (data : bytes) : outcome t := unmarshal field m data.

Definition wf (m : t) : Prop := is_u32 m.(Mask) /\ is_u32 m.(Duration).
End BanEntry.

Module BanList.
Record t := mk {
  Bans : list BanEntry.t;
  Query : bool }.
#[global] Instance eta_t : Eta t := fun m => mk m.(Bans) m.(Query).
Definition zero : t := mk [] false.

Definition Marshal (m : t) : bytes :=
  let b := [] in
  let b := put_each (fun b be => AppendBytes b 1 (BanEntry.Marshal be)) m.(Bans) b in
  let b := when m.(Query) (fun b => put_varint b 2 1) b in
  b.

(** The error of the nested [unmarshal] is dropped: the entry keeps the fields
    read before it. *)
Definition field : switch t := fun fn wt b m =>
  match fn with
  | 1 => case_delimited (fun eb m =>
      let be := fst (BanEntry.Unmarshal BanEntry.zero eb) in
      m <| Bans := m.(Bans) ++ [be] |>) b m
  | 2 => case_varint (fun v m => m <| Query := negb (v =? 0) |>) b m
  | _ => case_skip wt b m
  end.
Definition Unmarshal (m : t) (data : bytes) : outcome t := unmarshal field m data.

Definition wf (m : t) : Prop := Forall BanEntry.wf m.(Bans).
End BanList.

Module TextMessage.
Record t := mk {
  Actor : Z;
  Session : list Z;
  ChannelID : list Z;
  TreeID : list Z;
  Message : gostring }.
#[global] Instance eta_t : Eta t := fun m =>
  mk m.(Actor) m.(Session) m.(ChannelID) m.(TreeID) m.(Message).
Definition zero : t := mk 0 [] [] [] [].

Definition Marshal (m : t) : bytes :=
  let b := [] in
  let b := when (negb (m.(Actor) =? 0)) (fun b => put_varint b 1 m.(Actor)) b in
  let b := put_each (fun b v => put_varint b 2 v) m.(Session) b in
  let b := put_each (fun b v => put_varint b 3 v) m.(ChannelID) b in
  let b := put_each (fun b v => put_varint b 4 v) m.(TreeID) b in
  let b := AppendString b 5 m.(Message) in
  b.

Definition field : switch t := fun fn wt b m =>
  match fn with
  | 1 => case_varint (fun v m => m <| Actor := u32 v |>) b m
  | 2 => case_varint (fun v m => m <| Session := m.(Session) ++ [u32 v] |>) b m
  | 3 => case_varint (fun v m => m <| ChannelID := m.(ChannelID) ++ [u32 v] |>) b m
  | 4 => case_varint (fun v m => m <| TreeID := m.(TreeID) ++ [u32 v] |>) b m
  | 5 => case_delimited (fun s m => m <| Message := s |>) b m
  | _ => case_skip wt b m
  end.
Definition Unmarshal (m : t) (data : bytes) : outcome t := unmarshal field m data.

Definition wf (m : t) : Prop :=
  is_u32 m.(Actor) /\ Forall is_u32 m.(Session) /\ Forall is_u32 m.(ChannelID) /\ Forall is_u32 m.(TreeID).
End TextMessage.

Module PermissionDenied.
Record t := mk {
  Permission : Z;
  ChannelID : Z;
  Session : Z;
  Reason : gostring;
  Type_ : Z;
  Name : gostring }.
#[global] Instance eta_t : Eta t := fun m =>
  mk m.(Permission) m.(ChannelID) m.(Session) m.(Reason) m.(Type_) m.(Name).
Definition zero : t := mk 0 0 0 [] 0 [].

Definition Marshal (m : t) : bytes :=
  let b := [] in
  let b := when (negb (m.(Permission) =? 0)) (fun b => put_varint b 1 m.(Permission)) b in
  let b := put_varint b 2 m.(ChannelID) in
  let b := when (negb (m.(Session) =? 0)) (fun b => put_varint b 3 m.(Session)) b in
  let b := when (nonempty m.(Reason)) (fun b => AppendString b 4 m.(Reason)) b in
  let b := when (negb (m.(Type_) =? 0)) (fun b => put_varint b 5 m.(Type_)) b in
  let b := when (nonempty m.(Name)) (fun b => AppendString b 6 m.(Name)) b in
  b.

Definition field : switch t := fun fn wt b m =>
  match fn with
  | 1 => case_varint (fun v m => m <| Permission := u32 v |>) b m
  | 2 => case_varint (fun v m => m <| ChannelID := u32 v |>) b m
  | 3 => case_varint (fun v m => m <| Session := u32 v |>) b m
  | 4 => case_delimited (fun s m => m <| Reason := s |>) b m
  | 5 => case_varint (fun v m => m <| Type_ := u32 v |>) b m
  | 6 => case_delimited (fun s m => m <| Name := s |>) b m
  | _ => case_skip wt b m
  end.
Definition Unmarshal (m : t) (data : bytes) : outcome t := unmarshal field m data.

Definition wf (m : t) : Prop :=
  is_u32 m.(Permission) /\ is_u32 m.(ChannelID) /\ is_u32 m.(Session) /\ is_u32 m.(Type_).
End PermissionDenied.

Module ACL.
Record t := mk {
  ChannelID : Z;
  InheritACLs : bool;
  Query : bool }.
#[global] Instance eta_t : Eta t := fun m => mk m.(ChannelID) m.(InheritACLs) m.(Query).
Definition zero : t := mk 0 false false.

Definition Marshal (m : t) : bytes :=
  let b := [] in
  let b := put_varint b 1 m.(ChannelID) in
  let b := when (negb m.(InheritACLs)) (fun b => put_varint b 2 0) b in
  let b := when m.(Query) (fun b => put_varint b 5 1) b in
  b.

Definition field : switch t := fun fn wt b m =>
  match fn with
  | 1 => case_varint (fun v m => m <| ChannelID := u32 v |>) b m
  | 2 => case_varint (fun v m => m <| InheritACLs := negb (v =? 0) |>) b m
  | 5 => case_varint (fun v m => m <| Query := negb (v =? 0) |>) b m
  | _ => case_skip wt b m
  end.
Definition Unmarshal (m : t) (data : bytes) : outcome t := unmarshal field m data.

(** Only [InheritACLs = false] survives the wire; see [ACL_inherit_lost]. *)
Definition wf (m : t) : Prop := is_u32 m.(ChannelID) /\ m.(InheritACLs) = false.
End ACL.

Module QueryUsers.
Record t := mk {
  IDs : list Z;
  Names : list gostring }.
#[global] Instance eta_t : Eta t := fun m =>
  mk m.(IDs) m.(Names).
Definition zero : t := mk [] [].

Definition Marshal (m : t) : bytes :=
  let b := [] in
  let b := put_each (fun b v => put_varint b 1 v) m.(IDs) b in
  let b := put_each (fun b v => AppendString b 2 v) m.(Names) b in
  b.

Definition field : switch t := fun fn wt b m =>
  match fn with
  | 1 => case_varint (fun v m => m <| IDs := m.(IDs) ++ [u32 v] |>) b m
  | 2 => case_delimited (fun s m => m <| Names := m.(Names) ++ [s] |>) b m
  | _ => case_skip wt b m
  end.
Definition Unmarshal (m : t) (data : bytes) : outcome t := unmarshal field m data.

Definition wf (m : t) : Prop :=
  Forall is_u32 m.(IDs).
End QueryUsers.

Module CryptSetup.
(** [Key] distinguishes nil from empty: a nil key is not sent. *)
Record t := mk {
  Key : option bytes;
  ClientNonce : bytes;
  ServerNonce : bytes }.
#[global] Instance eta_t : Eta t := fun m => mk m.(Key) m.(ClientNonce) m.(ServerNonce).
Definition zero : t := mk None [] [].

Definition Marshal (m : t) : bytes :=
  let b := [] in
  let b := match m.(Key) with Some k => AppendBytes b 1 k | None => b end in
  let b := when (nonempty m.(ClientNonce)) (fun b => AppendBytes b 2 m.(ClientNonce)) b in
  let b := when (nonempty m.(ServerNonce)) (fun b => AppendBytes b 3 m.(ServerNonce)) b in
  b.

(** [append([]byte(nil), data...)] of no data is nil. *)
Definition slice_copy (s : bytes) : option bytes := if nonempty s then Some s else None.

Definition field : switch t := fun fn wt b m =>
  match fn with
  | 1 => case_delimited (fun bb m => m <| Key := slice_copy bb |>) b m
  | 2 => case_delimited (fun bb m => m <| ClientNonce := bb |>) b m
  | 3 => case_delimited (fun bb m => m <| ServerNonce := bb |>) b m
  | _ => case_skip wt b m
  end.
Definition Unmarshal (m : t) (data : bytes) : outcome t := unmarshal field m data.

Definition wf (m : t) : Prop := m.(Key) <> Some [].
End CryptSetup.

Module ContextActionModify.
Record t := mk {
  Action : gostring;
  Text : gostring;
  Context : Z;
  Operation : Z }.
#[global] Instance eta_t : Eta t := fun m =>
  mk m.(Action) m.(Text) m.(Context) m.(Operation).
Definition zero : t := mk [] [] 0 0.

Definition Marshal (m : t) : bytes :=
  let b := [] in
  let b := AppendString b 1 m.(Action) in
  let b := when (nonempty m.(Text)) (fun b => AppendString b 2 m.(Text)) b in
  let b := when (negb (m.(Context) =? 0)) (fun b => put_varint b 3 m.(Context)) b in
  let b := when (negb (m.(Operation) =? 0)) (fun b => put_varint b 4 m.(Operation)) b in
  b.

Definition field : switch t := fun fn wt b m =>
  match fn with
  | 1 => case_delimited (fun s m => m <| Action := s |>) b m
  | 2 => case_delimited (fun s m => m <| Text := s |>) b m
  | 3 => case_varint (fun v m => m <| Context := u32 v |>) b m
  | 4 => case_varint (fun v m => m <| Operation := u32 v |>) b m
  | _ => case_skip wt b m
  end.
Definition Unmarshal (m : t) (data : bytes) : outcome t := unmarshal field m data.

Definition wf (m : t) : Prop :=
  is_u32 m.(Context) /\ is_u32 m.(Operation).
End ContextActionModify.

Module ContextAction.
Record t := mk {
  Session : Z;
  ChannelID : Z;
  Action : gostring }.
#[global] Instance eta_t : Eta t := fun m =>
  mk m.(Session) m.(ChannelID) m.(Action).
Definition zero : t := mk 0 0 [].

Definition Marshal (m : t) : bytes :=
  let b := [] in
  let b := when (negb (m.(Session) =? 0)) (fun b => put_varint b 1 m.(Session)) b in
  let b := put_varint b 2 m.(ChannelID) in
  let b := AppendString b 3 m.(Action) in
  b.

Definition field : switch t := fun fn wt b m =>
  match fn with
  | 1 => case_varint (fun v m => m <| Session := u32 v |>) b m
  | 2 => case_varint (fun v m => m <| ChannelID := u32 v |>) b m
  | 3 => case_delimited (fun s m => m <| Action := s |>) b m
  | _ => case_skip wt b m
  end.
Definition Unmarshal (m : t) (data : bytes) : outcome t := unmarshal field m data.

Definition wf (m : t) : Prop :=
  is_u32 m.(Session) /\ is_u32 m.(ChannelID).
End ContextAction.

Module VoiceTargetTarget.
Record t := mk {
  HasChannelID : bool;
  Session : list Z;
  ChannelID : Z;
  Group : gostring;
  Links : bool;
  Children : bool }.
#[global] Instance eta_t : Eta t := fun m =>
  mk m.(HasChannelID) m.(Session) m.(ChannelID) m.(Group) m.(Links) m.(Children).
Definition zero : t := mk false [] 0 [] false false.

(** The buffer [tb] built in the loop of [VoiceTarget.Marshal]. *)
Definition Marshal (m : t) : bytes :=
  let b := [] in
  let b := put_each (fun b v => put_varint b 1 v) m.(Session) b in
  let b := when (m.(HasChannelID) || negb (m.(ChannelID) =? 0))
             (fun b => put_varint b 2 m.(ChannelID)) b in
  let b := when (nonempty m.(Group)) (fun b => AppendString b 3 m.(Group)) b in
  let b := when m.(Links) (fun b => put_varint b 4 1) b in
  let b := when m.(Children) (fun b => put_varint b 5 1) b in
  b.

Definition field : switch t := fun fn wt b m =>
  match fn with
  | 1 => case_varint (fun v m => m <| Session := m.(Session) ++ [u32 v] |>) b m
  | 2 => case_varint (fun v m => m <| ChannelID := u32 v |> <| HasChannelID := true |>) b m
  | 3 => case_delimited (fun s m => m <| Group := s |>) b m
  | 4 => case_varint (fun v m => m <| Links := negb (v =? 0) |>) b m
  | 5 => case_varint (fun v m => m <| Children := negb (v =? 0) |>) b m
  | _ => case_skip wt b m
  end.
Definition Unmarshal (m : t) (data : bytes) : outcome t := unmarshal field m data.

Definition wf (m : t) : Prop :=
  Forall is_u32 m.(Session) /\ is_u32 m.(ChannelID) /\
  (m.(HasChannelID) = false -> m.(ChannelID) = 0).
End VoiceTargetTarget.

Module VoiceTarget.
Record t := mk {
  ID : Z;
  Targets : list VoiceTargetTarget.t }.
#[global] Instance eta_t : Eta t := fun m => mk m.(ID) m.(Targets).
Definition zero : t := mk 0 [].

Definition Marshal (m : t) : bytes :=
  let b := [] in
  let b := when (negb (m.(ID) =? 0)) (fun b => put_varint b 1 m.(ID)) b in
  let b := put_each (fun b t =>
             let tb := VoiceTargetTarget.Marshal t in
             when (nonempty tb) (fun b => AppendBytes b 2 tb) b) m.(Targets) b in
  b.

(** Unlike [BanList], an error of a nested target is returned. *)
Definition field : switch t := fun fn wt b m =>
  match fn with
  | 1 => case_varint (fun v m => m <| ID := u32 v |>) b m
  | 2 =>
      '(tb, n) ← ReadLengthDelimited b;
      match VoiceTargetTarget.Unmarshal VoiceTargetTarget.zero tb with
      | (_, Some e) => Err e
      | (t, None) => Ok (m <| Targets := m.(Targets) ++ [t] |>, zdrop n b)
      end
  | _ => case_skip wt b m
  end.
Definition Unmarshal (m : t) (data : bytes) : outcome t := unmarshal field m data.

(** A target that names nothing is not sent. *)
Definition wf (m : t) : Prop :=
  is_u32 m.(ID) /\ Forall VoiceTargetTarget.wf m.(Targets) /\
  Forall (fun t => t <> VoiceTargetTarget.zero) m.(Targets).
End VoiceTarget.

Module PermissionQuery.
Record t := mk {
  ChannelID : Z;
  Permissions : Z;
  Flush : bool }.
#[global] Instance eta_t : Eta t := fun m =>
  mk m.(ChannelID) m.(Permissions) m.(Flush).
Definition zero : t := mk 0 0 false.

Definition Marshal (m : t) : bytes :=
  let b := [] in
  let b := put_varint b 1 m.(ChannelID) in
  let b := when (negb (m.(Permissions) =? 0)) (fun b => put_varint b 2 m.(Permissions)) b in
  let b := when (m.(Flush)) (fun b => put_varint b 3 1) b in
  b.

Definition field : switch t := fun fn wt b m =>
  match fn with
  | 1 => case_varint (fun v m => m <| ChannelID := u32 v |>) b m
  | 2 => case_varint (fun v m => m <| Permissions := u32 v |>) b m
  | 3 => case_varint (fun v m => m <| Flush := negb (v =? 0) |>) b m
  | _ => case_skip wt b m
  end.
Definition Unmarshal (m : t) (data : bytes) : outcome t := unmarshal field m data.

Definition wf (m : t) : Prop :=
  is_u32 m.(ChannelID) /\ is_u32 m.(Permissions).
End PermissionQuery.

Module CodecVersion.
Record t := mk {
  Alpha : Z;
  Beta : Z;
  PreferAlpha : bool;
  Opus : bool }.
#[global] Instance eta_t : Eta t := fun m =>
  mk m.(Alpha) m.(Beta) m.(PreferAlpha) m.(Opus).
Definition zero : t := mk 0 0 false false.

Definition Marshal (m : t) : bytes :=
  let b := [] in
  let b := put_varint b 1 (u64 m.(Alpha)) in
  let b := put_varint b 2 (u64 m.(Beta)) in
  let b := put_varint b 3 (bool_bit m.(PreferAlpha)) in
  let b := when (m.(Opus)) (fun b => put_varint b 4 1) b in
  b.

Definition field : switch t := fun fn wt b m =>
  match fn with
  | 1 => case_varint (fun v m => m <| Alpha := i32 v |>) b m
  | 2 => case_varint (fun v m => m <| Beta := i32 v |>) b m
  | 3 => case_varint (fun v m => m <| PreferAlpha := negb (v =? 0) |>) b m
  | 4 => case_varint (fun v m => m <| Opus := negb (v =? 0) |>) b m
  | _ => case_skip wt b m
  end.
Definition Unmarshal (m : t) (data : bytes) : outcome t := unmarshal field m data.

Definition wf (m : t) : Prop :=
  is_i32 m.(Alpha) /\ is_i32 m.(Beta).
End CodecVersion.

Module UserStats.
Record t := mk {
  Session : Z }.
#[global] Instance eta_t : Eta t := fun m =>
  mk m.(Session).
Definition zero : t := mk 0.

Definition Marshal (m : t) : bytes :=
  let b := [] in
  let b := when (negb (m.(Session) =? 0)) (fun b => put_varint b 1 m.(Session)) b in
  b.

Definition field : switch t := fun fn wt b m =>
  match fn with
  | 1 => case_varint (fun v m => m <| Session := u32 v |>) b m
  | _ => case_skip wt b m
  end.
Definition Unmarshal (m : t) (data : bytes) : outcome t := unmarshal field m data.

Definition wf (m : t) : Prop :=
  is_u32 m.(Session).
End UserStats.

Module RequestBlob.
Record t := mk {
  SessionTexture : list Z;
  SessionComment : list Z;
  ChannelDescription : list Z }.
#[global] Instance eta_t : Eta t := fun m =>
  mk m.(SessionTexture) m.(SessionComment) m.(ChannelDescription).
Definition zero : t := mk [] [] [].

Definition Marshal (m : t) : bytes :=
  let b := [] in
  let b := put_each (fun b v => put_varint b 1 v) m.(SessionTexture) b in
  let b := put_each (fun b v => put_varint b 2 v) m.(SessionComment) b in
  let b := put_each (fun b v => put_varint b 3 v) m.(ChannelDescription) b in
  b.

Definition field : switch t := fun fn wt b m =>
  match fn with
  | 1 => case_varint (fun v m => m <| SessionTexture := m.(SessionTexture) ++ [u32 v] |>) b m
  | 2 => case_varint (fun v m => m <| SessionComment := m.(SessionComment) ++ [u32 v] |>) b m
  | 3 => case_varint (fun v m => m <| ChannelDescription := m.(ChannelDescription) ++ [u32 v] |>) b m
  | _ => case_skip wt b m
  end.
Definition Unmarshal (m : t) (data : bytes) : outcome t := unmarshal field m data.

Definition wf (m : t) : Prop :=
  Forall is_u32 m.(SessionTexture) /\ Forall is_u32 m.(SessionComment) /\ Forall is_u32 m.(ChannelDescription).
End RequestBlob.

Module ServerConfig.
Record t := mk {
  MaxBandwidth : Z;
  WelcomeText : gostring;
  AllowHTML : bool;
  MessageLength : Z;
  ImageMessageLength : Z;
  MaxUsers : Z;
  RecordingAllowed : bool }.
#[global] Instance eta_t : Eta t := fun m =>
  mk m.(MaxBandwidth) m.(WelcomeText) m.(AllowHTML) m.(MessageLength) m.(ImageMessageLength) m.(MaxUsers) m.(RecordingAllowed).
Definition zero : t := mk 0 [] false 0 0 0 false.

Definition Marshal (m : t) : bytes :=
  let b := [] in
  let b := when (negb (m.(MaxBandwidth) =? 0)) (fun b => put_varint b 1 m.(MaxBandwidth)) b in
  let b := when (nonempty m.(WelcomeText)) (fun b => AppendString b 2 m.(WelcomeText)) b in
  let b := when (m.(AllowHTML)) (fun b => put_varint b 3 1) b in
  let b := when (negb (m.(MessageLength) =? 0)) (fun b => put_varint b 4 m.(MessageLength)) b in
  let b := when (negb (m.(ImageMessageLength) =? 0)) (fun b => put_varint b 5 m.(ImageMessageLength)) b in
  let b := when (negb (m.(MaxUsers) =? 0)) (fun b => put_varint b 6 m.(MaxUsers)) b in
  let b := when (m.(RecordingAllowed)) (fun b => put_varint b 7 1) b in
  b.

Definition field : switch t := fun fn wt b m =>
  match fn with
  | 1 => case_varint (fun v m => m <| MaxBandwidth := u32 v |>) b m
  | 2 => case_delimited (fun s m => m <| WelcomeText := s |>) b m
  | 3 => case_varint (fun v m => m <| AllowHTML := negb (v =? 0) |>) b m
  | 4 => case_varint (fun v m => m <| MessageLength := u32 v |>) b m
  | 5 => case_varint (fun v m => m <| ImageMessageLength := u32 v |>) b m
  | 6 => case_varint (fun v m => m <| MaxUsers := u32 v |>) b m
  | 7 => case_varint (fun v m => m <| RecordingAllowed := negb (v =? 0) |>) b m
  | _ => case_skip wt b m
  end.
Definition Unmarshal (m : t) (data : bytes) : outcome t := unmarshal field m data.

Definition wf (m : t) : Prop :=
  is_u32 m.(MaxBandwidth) /\ is_u32 m.(MessageLength) /\ is_u32 m.(ImageMessageLength) /\ is_u32 m.(MaxUsers).
End ServerConfig.

Module SuggestConfig.
Record t := mk {
  VersionV1 : Z;
  VersionV2 : Z;
  Positional : bool;
  PushToTalk : bool }.
#[global] Instance eta_t : Eta t := fun m =>
  mk m.(VersionV1) m.(VersionV2) m.(Positional) m.(PushToTalk).
Definition zero : t := mk 0 0 false false.

Definition Marshal (m : t) : bytes :=
  let b := [] in
  let b := when (negb (m.(VersionV1) =? 0)) (fun b => put_varint b 1 m.(VersionV1)) b in
  let b := when (m.(Positional)) (fun b => put_varint b 2 1) b in
  let b := when (m.(PushToTalk)) (fun b => put_varint b 3 1) b in
  let b := when (negb (m.(VersionV2) =? 0)) (fun b => put_varint b 4 m.(VersionV2)) b in
  b.

Definition field : switch t := fun fn wt b m =>
  match fn with
  | 1 => case_varint (fun v m => m <| VersionV1 := u32 v |>) b m
  | 2 => case_varint (fun v m => m <| Positional := negb (v =? 0) |>) b m
  | 3 => case_varint (fun v m => m <| PushToTalk := negb (v =? 0) |>) b m
  | 4 => case_varint (fun v m => m <| VersionV2 := v |>) b m
  | _ => case_skip wt b m
  end.
Definition Unmarshal (m : t) (data : bytes) : outcome t := unmarshal field m data.

Definition wf (m : t) : Prop :=
  is_u32 m.(VersionV1) /\ is_u64 m.(VersionV2).
End SuggestConfig.

Module PluginDataTransmission.
Record t := mk {
  SenderSession : Z;
  ReceiverSessions : list Z;
  Data : bytes;
  DataID : gostring }.
#[global] Instance eta_t : Eta t := fun m =>
  mk m.(SenderSession) m.(ReceiverSessions) m.(Data) m.(DataID).
Definition zero : t := mk 0 [] [] [].

Definition Marshal (m : t) : bytes :=
  let b := [] in
  let b := when (negb (m.(SenderSession) =? 0)) (fun b => put_varint b 1 m.(SenderSession)) b in
  let b := put_each (fun b v => put_varint b 2 v) m.(ReceiverSessions) b in
  let b := when (nonempty m.(Data)) (fun b => AppendBytes b 3 m.(Data)) b in
  let b := when (nonempty m.(DataID)) (fun b => AppendString b 4 m.(DataID)) b in
  b.

Definition field : switch t := fun fn wt b m =>
  match fn with
  | 1 => case_varint (fun v m => m <| SenderSession := u32 v |>) b m
  | 2 => case_varint (fun v m => m <| ReceiverSessions := m.(ReceiverSessions) ++ [u32 v] |>) b m
  | 3 => case_delimited (fun s m => m <| Data := s |>) b m
  | 4 => case_delimited (fun s m => m <| DataID := s |>) b m
  | _ => case_skip wt b m
  end.
Definition Unmarshal (m : t) (data : bytes) : outcome t := unmarshal field m data.

Definition wf (m : t) : Prop :=
  is_u32 m.(SenderSession) /\ Forall is_u32 m.(ReceiverSessions).
End PluginDataTransmission.

(** UserList carries nothing: both methods are stubs in the source. *)
Module UserList.
Record t := mk { }.
Definition zero : t := mk.
Definition Marshal (m : t) : bytes := [].
Definition Unmarshal (m : t) (data : bytes) : outcome t := (m, None).
Definition wf (m : t) : Prop := True.
End UserList.
