(* ===== verification/MessagesRT.v ===== *)
(** * Round trips of the control messages *)

From Stdlib Require Import ZArith Lia.
From stdpp Require Import base numbers list.
From S2P Require Import Prelude Wire Fields Messages.
Open Scope Z_scope.

#[local] Arguments Z.testbit : simpl never.
#[local] Arguments BanEntry.Unmarshal : simpl never.
#[local] Arguments BanEntry.Marshal : simpl never.
#[local] Arguments VolumeAdjustment.Unmarshal : simpl never.
#[local] Arguments VolumeAdjustment.Marshal : simpl never.
#[local] Arguments VoiceTargetTarget.Unmarshal : simpl never.
#[local] Arguments VoiceTargetTarget.Marshal : simpl never.

Lemma Version_consuming : consuming Version.field.
Proof. solve_consuming. Qed.

Lemma Version_emits m : Version.wf m -> emits Version.field Version.zero (Version.Marshal m) m.
Proof.
  start_emits Version_consuming.
  peel Version.CryptoModes 0. peel Version.VersionV2 0. peel Version.OSVersion ([] : gostring).
  peel Version.OS ([] : gostring). peel Version.Release ([] : gostring). peel Version.VersionV1 0.
  apply emits_nil.
Qed.

Lemma Authenticate_consuming : consuming Authenticate.field.
Proof. solve_consuming. Qed.

Lemma Authenticate_emits m : Authenticate.wf m -> emits Authenticate.field Authenticate.zero (Authenticate.Marshal m) m.
Proof.
  start_emits Authenticate_consuming.
  peel Authenticate.ClientType 0. peel Authenticate.Opus false. peel_each Authenticate.CeltVersions.
  peel_each Authenticate.Tokens. peel Authenticate.Password ([] : gostring). peel Authenticate.Username ([] : gostring).
  apply emits_nil.
Qed.

Lemma Ping_consuming : consuming Ping.field.
Proof. solve_consuming. Qed.

Lemma Ping_emits m : Ping.wf m -> emits Ping.field Ping.zero (Ping.Marshal m) m.
Proof.
  start_emits Ping_consuming.
  peel Ping.TCPPingVar 0. peel Ping.TCPPingAvg 0. peel Ping.UDPPingVar 0.
  peel Ping.UDPPingAvg 0. peel Ping.TCPPackets 0. peel Ping.UDPPackets 0.
  peel Ping.Resync 0. peel Ping.Lost 0. peel Ping.Late 0.
  peel Ping.Good 0. peel Ping.Timestamp 0.
  apply emits_nil.
Qed.

Lemma Reject_consuming : consuming Reject.field.
Proof. solve_consuming. Qed.

Lemma Reject_emits m : Reject.wf m -> emits Reject.field Reject.zero (Reject.Marshal m) m.
Proof.
  start_emits Reject_consuming.
  peel Reject.Reason ([] : gostring). peel Reject.Type_ 0.
  apply emits_nil.
Qed.

Lemma ServerSync_consuming : consuming ServerSync.field.
Proof. solve_consuming. Qed.

Lemma ServerSync_emits m : ServerSync.wf m -> emits ServerSync.field ServerSync.zero (ServerSync.Marshal m) m.
Proof.
  start_emits ServerSync_consuming.
  peel ServerSync.Permissions 0. peel ServerSync.WelcomeText ([] : gostring). peel ServerSync.MaxBandwidth 0.
  peel ServerSync.Session 0.
  apply emits_nil.
Qed.

Lemma ChannelRemove_consuming : consuming ChannelRemove.field.
Proof. solve_consuming. Qed.

Lemma ChannelRemove_emits m : ChannelRemove.wf m -> emits ChannelRemove.field ChannelRemove.zero (ChannelRemove.Marshal m) m.
Proof.
  start_emits ChannelRemove_consuming.
  peel ChannelRemove.ChannelID 0.
  apply emits_nil.
Qed.

Lemma ChannelState_consuming : consuming ChannelState.field.
Proof. solve_consuming. Qed.

Lemma ChannelState_emits m : ChannelState.wf m ->
  emits ChannelState.field ChannelState.zero (ChannelState.Marshal m) m.
Proof.
  start_emits ChannelState_consuming.
  assert (Hce : HasCanEnter || CanEnter = HasCanEnter)
    by (destruct HasCanEnter; intuition congruence).
  assert (Her : HasEnterRestricted || IsEnterRestricted = HasEnterRestricted)
    by (destruct HasEnterRestricted; intuition congruence).
  rewrite Hce, Her; clear Hce Her.
  peel2 ChannelState.CanEnter false ChannelState.HasCanEnter false.
  peel2 ChannelState.IsEnterRestricted false ChannelState.HasEnterRestricted false.
  peel ChannelState.MaxUsers 0. peel ChannelState.DescriptionHash ([] : bytes).
  peel ChannelState.Position 0. peel ChannelState.Temporary false.
  peel_each ChannelState.LinksRemove. peel_each ChannelState.LinksAdd.
  peel ChannelState.Description ([] : gostring). peel_each ChannelState.Links.
  peel ChannelState.Name ([] : gostring).
  peel2 ChannelState.Parent 0 ChannelState.HasParent false. peel ChannelState.ChannelID 0.
  apply emits_nil.
Qed.

Lemma UserRemove_consuming : consuming UserRemove.field.
Proof. solve_consuming. Qed.

Lemma UserRemove_emits m : UserRemove.wf m -> emits UserRemove.field UserRemove.zero (UserRemove.Marshal m) m.
Proof.
  start_emits UserRemove_consuming.
  peel UserRemove.Ban false. peel UserRemove.Reason ([] : gostring). peel UserRemove.Actor 0.
  peel UserRemove.Session 0.
  apply emits_nil.
Qed.

Lemma VolumeAdjustment_consuming : consuming VolumeAdjustment.field.
Proof. solve_consuming. Qed.

Lemma VolumeAdjustment_emits m : VolumeAdjustment.wf m ->
  emits VolumeAdjustment.field VolumeAdjustment.zero (VolumeAdjustment.Marshal m) m.
Proof.
  start_emits VolumeAdjustment_consuming.
  peel VolumeAdjustment.Volume 0. peel VolumeAdjustment.ListeningChannel 0.
  apply emits_nil.
Qed.

Lemma VolumeAdjustment_back m :
  VolumeAdjustment.wf m -> zlen (VolumeAdjustment.Marshal m) < 2 ^ 62 ->
  VolumeAdjustment.Unmarshal VolumeAdjustment.zero (VolumeAdjustment.Marshal m) = (m, None).
Proof. intros. by apply emits_done, VolumeAdjustment_emits. Qed.

(** *** UserState: the presence bits *)

(** The bits below [k]: the presence the fields before the [k]-th have left. *)
Definition low_bits (s k : Z) : Z := s mod 2 ^ k.
#[global] Arguments low_bits : simpl never.

Lemma Has_testbit m k : 0 <= k ->
  UserState.Has m (2 ^ k) = Z.testbit m.(UserState.SetFields) k.
Proof.
  intros Hk. unfold UserState.Has. destruct (Z.testbit _ k) eqn:E.
  - apply negb_true_iff, Z.eqb_neq. intros H0. apply (f_equal (fun z => Z.testbit z k)) in H0.
    rewrite Z.land_spec, E, Z.pow2_bits_true, Z.bits_0 in H0 by done. done.
  - apply negb_false_iff, Z.eqb_eq, Z.bits_inj'. intros i Hi.
    rewrite Z.land_spec, Z.bits_0. destruct (decide (i = k)) as [->|].
    + by rewrite E.
    + rewrite Z.pow2_bits_false by done. apply andb_false_r.
Qed.

Lemma low_bits_set s k k' : 0 <= k -> k' = k + 1 -> Z.testbit s k = true ->
  Z.lor (low_bits s k) (2 ^ k) = low_bits s k'.
Proof.
  intros Hk -> Hb. apply Z.bits_inj'. intros i Hi. unfold low_bits. rewrite Z.lor_spec.
  destruct (decide (i = k)) as [->|].
  - by rewrite Z.pow2_bits_true, orb_true_r, Z.mod_pow2_bits_low by lia.
  - rewrite Z.pow2_bits_false, orb_false_r by done. destruct (decide (i < k)).
    + by rewrite !Z.mod_pow2_bits_low by lia.
    + by rewrite !Z.mod_pow2_bits_high by lia.
Qed.

Lemma low_bits_clear s k k' : 0 <= k -> k' = k + 1 -> Z.testbit s k = false ->
  low_bits s k = low_bits s k'.
Proof.
  intros Hk -> Hb. apply Z.bits_inj'. intros i Hi. unfold low_bits.
  destruct (decide (i = k)) as [->|].
  - by rewrite Z.mod_pow2_bits_high, Z.mod_pow2_bits_low by lia.
  - destruct (decide (i < k)).
    + by rewrite !Z.mod_pow2_bits_low by lia.
    + by rewrite !Z.mod_pow2_bits_high by lia.
Qed.

(** A marked field is emitted exactly when its bit is set. *)
Lemma marked_cond (c has : bool) : (has = false -> c = false) -> has || c = has.
Proof. destruct c, has; intuition. Qed.

Lemma appendBool_when m b fn bit v :
  UserState.appendBool m b fn bit v =
    when (UserState.Has m bit || v) (fun b => put_varint b fn (bool_bit v)) b.
Proof. unfold UserState.appendBool. f_equal. by destruct (UserState.Has m bit), v. Qed.

Lemma VolumeAdjustment_nonempty m : nonempty (VolumeAdjustment.Marshal m) = true.
Proof.
  unfold VolumeAdjustment.Marshal, when, put_fixed32, put_varint, AppendFixed32.
  rewrite AppendVarint_app. pose proof (AppendVarint_len (VolumeAdjustment.ListeningChannel m)).
  destruct (AppendVarint [] (VolumeAdjustment.ListeningChannel m)) as [|c l];
    [rewrite zlen_nil in *; lia|].
  destruct (f32_nonzero _); [rewrite AppendTag_app|]; by destruct (AppendTag [] 1 WireVarint).
Qed.

Ltac peel_volume Hc m1 :=
  rewrite VolumeAdjustment_nonempty; unfold when;
  eapply (emits_bytes _ Hc _ _ m1); [lia|eassumption|intros; reflexivity|];
  intros ?; cbn; by rewrite VolumeAdjustment_back.

Lemma UserState_consuming : consuming UserState.field.
Proof. solve_consuming. Qed.

(** Under the presence convention the conditions of [Marshal] are the bits. *)
Ltac marked_conditions :=
  repeat (rewrite marked_cond by
    (intros Hhas;
     match goal with H : (_ = false -> _) |- _ => rewrite (H Hhas); reflexivity end));
  unfold UserState.SetSession, UserState.SetActor, UserState.SetName, UserState.SetUserID, UserState.SetChannelID, UserState.SetMute, UserState.SetDeaf, UserState.SetSuppress, UserState.SetSelfMute, UserState.SetSelfDeaf, UserState.SetTexture, UserState.SetPluginContext, UserState.SetPluginIdentity, UserState.SetComment, UserState.SetHash, UserState.SetCommentHash, UserState.SetTextureHash, UserState.SetPrioritySpeaker, UserState.SetRecording in *; rewrite !Has_testbit in * by lia.

(** The field of bit [k]: with it the receiver has the bits below [k+1]. *)
Ltac peel_bit proj z k :=
  lazymatch goal with Hc : consuming ?f |- emits ?f _ (when ?c ?put ?b) ?m =>
    let s := lazymatch c with Z.testbit ?s _ => s end in
    let m' := eval cbn in
      (set_field (proj := UserState.SetFields) (low_bits s k) (set_field (proj := proj) z m)) in
    let k1 := eval compute in (k + 1) in
    apply (emits_opt f _ c put b m');
    [ | intros Hflag ?; rewrite <- (low_bits_set s k k1) by (lia || done);
        peel_field Hc m'; assumption
      | intros Hflag; rewrite <- (low_bits_clear s k k1) by (lia || done); f_equal; symmetry; auto ]
  end.

Lemma UserState_emits m : UserState.wf m ->
  emits UserState.field UserState.zero (UserState.Marshal m) m.
Proof.
  intros (?&?&?&?&?&?&?&Hs&Hm). pose proof UserState_consuming as Hc.
  unfold UserState.Marshal. rewrite !appendBool_when.
  unfold UserState.marked in Hm. destruct_and? Hm. marked_conditions.
  destruct m; cbn in *.
  replace SetFields with (low_bits SetFields 19) at 20 by (apply Z.mod_small; lia).
  peel_each_with UserState.ListeningVolumeAdjustment peel_volume.
  peel_each UserState.ListeningChannelRemove. peel_each UserState.ListeningChannelAdd.
  peel_each UserState.TemporaryAccessTokens.
  peel_bit UserState.Recording false 18. peel_bit UserState.PrioritySpeaker false 17.
  peel_bit UserState.TextureHash ([] : gostring) 16. peel_bit UserState.CommentHash ([] : gostring) 15.
  peel_bit UserState.Hash ([] : gostring) 14. peel_bit UserState.Comment ([] : gostring) 13.
  peel_bit UserState.PluginIdentity ([] : gostring) 12. peel_bit UserState.PluginContext ([] : gostring) 11.
  peel_bit UserState.Texture ([] : gostring) 10. peel_bit UserState.SelfDeaf false 9.
  peel_bit UserState.SelfMute false 8. peel_bit UserState.Suppress false 7.
  peel_bit UserState.Deaf false 6. peel_bit UserState.Mute false 5.
  peel_bit UserState.ChannelID 0 4. peel_bit UserState.UserID 0 3.
  peel_bit UserState.Name ([] : gostring) 2. peel_bit UserState.Actor 0 1.
  peel_bit UserState.Session 0 0.
  unfold low_bits. rewrite Z.mod_1_r. apply emits_nil.
Qed.

Lemma BanEntry_consuming : consuming BanEntry.field.
Proof. solve_consuming. Qed.

Lemma BanEntry_emits m : BanEntry.wf m ->
  emits BanEntry.field BanEntry.zero (BanEntry.Marshal m) m.
Proof.
  start_emits BanEntry_consuming.
  peel BanEntry.Duration 0. peel BanEntry.Start ([] : gostring).
  peel BanEntry.Reason ([] : gostring). peel BanEntry.Hash ([] : gostring).
  peel BanEntry.Name ([] : gostring). peel BanEntry.Mask 0. peel BanEntry.Address ([] : bytes).
  apply emits_nil.
Qed.

Lemma BanEntry_back m : BanEntry.wf m -> zlen (BanEntry.Marshal m) < 2 ^ 62 ->
  BanEntry.Unmarshal BanEntry.zero (BanEntry.Marshal m) = (m, None).
Proof. intros. by apply emits_done, BanEntry_emits. Qed.

Lemma BanList_consuming : consuming BanList.field.
Proof. solve_consuming. Qed.

Lemma BanList_emits m : BanList.wf m ->
  emits BanList.field BanList.zero (BanList.Marshal m) m.
Proof.
  start_emits BanList_consuming.
  peel BanList.Query false.
  peel_each_with BanList.Bans ltac:(fun Hc m1 =>
    eapply (emits_bytes _ Hc _ _ m1); [lia|eassumption|intros; reflexivity|];
    intros ?; cbn; by rewrite BanEntry_back).
  apply emits_nil.
Qed.

Lemma TextMessage_consuming : consuming TextMessage.field.
Proof. solve_consuming. Qed.

Lemma TextMessage_emits m : TextMessage.wf m -> emits TextMessage.field TextMessage.zero (TextMessage.Marshal m) m.
Proof.
  start_emits TextMessage_consuming.
  peel TextMessage.Message ([] : gostring). peel_each TextMessage.TreeID. peel_each TextMessage.ChannelID.
  peel_each TextMessage.Session. peel TextMessage.Actor 0.
  apply emits_nil.
Qed.

Lemma PermissionDenied_consuming : consuming PermissionDenied.field.
Proof. solve_consuming. Qed.

Lemma PermissionDenied_emits m : PermissionDenied.wf m -> emits PermissionDenied.field PermissionDenied.zero (PermissionDenied.Marshal m) m.
Proof.
  start_emits PermissionDenied_consuming.
  peel PermissionDenied.Name ([] : gostring). peel PermissionDenied.Type_ 0. peel PermissionDenied.Reason ([] : gostring).
  peel PermissionDenied.Session 0. peel PermissionDenied.ChannelID 0. peel PermissionDenied.Permission 0.
  apply emits_nil.
Qed.

Lemma ACL_consuming : consuming ACL.field.
Proof. solve_consuming. Qed.

Lemma ACL_emits m : ACL.wf m -> emits ACL.field ACL.zero (ACL.Marshal m) m.
Proof.
  start_emits ACL_consuming. subst.
  peel ACL.Query false. peel ACL.InheritACLs false. peel ACL.ChannelID 0.
  apply emits_nil.
Qed.

Lemma QueryUsers_consuming : consuming QueryUsers.field.
Proof. solve_consuming. Qed.

Lemma QueryUsers_emits m : QueryUsers.wf m -> emits QueryUsers.field QueryUsers.zero (QueryUsers.Marshal m) m.
Proof.
  start_emits QueryUsers_consuming.
  peel_each QueryUsers.Names. peel_each QueryUsers.IDs.
  apply emits_nil.
Qed.

Lemma CryptSetup_consuming : consuming CryptSetup.field.
Proof. solve_consuming. Qed.

Lemma CryptSetup_emits m : CryptSetup.wf m ->
  emits CryptSetup.field CryptSetup.zero (CryptSetup.Marshal m) m.
Proof.
  start_emits CryptSetup_consuming.
  peel CryptSetup.ServerNonce ([] : bytes). peel CryptSetup.ClientNonce ([] : bytes).
  destruct Key as [[|c k]|]; [done| |apply emits_nil].
  peel CryptSetup.Key (None : option bytes). apply emits_nil.
Qed.

Lemma ContextActionModify_consuming : consuming ContextActionModify.field.
Proof. solve_consuming. Qed.

Lemma ContextActionModify_emits m : ContextActionModify.wf m -> emits ContextActionModify.field ContextActionModify.zero (ContextActionModify.Marshal m) m.
Proof.
  start_emits ContextActionModify_consuming.
  peel ContextActionModify.Operation 0. peel ContextActionModify.Context 0. peel ContextActionModify.Text ([] : gostring).
  peel ContextActionModify.Action ([] : gostring).
  apply emits_nil.
Qed.

Lemma ContextAction_consuming : consuming ContextAction.field.
Proof. solve_consuming. Qed.

Lemma ContextAction_emits m : ContextAction.wf m -> emits ContextAction.field ContextAction.zero (ContextAction.Marshal m) m.
Proof.
  start_emits ContextAction_consuming.
  peel ContextAction.Action ([] : gostring). peel ContextAction.ChannelID 0. peel ContextAction.Session 0.
  apply emits_nil.
Qed.

Lemma VoiceTargetTarget_consuming : consuming VoiceTargetTarget.field.
Proof. solve_consuming. Qed.

Lemma VoiceTargetTarget_emits m : VoiceTargetTarget.wf m ->
  emits VoiceTargetTarget.field VoiceTargetTarget.zero (VoiceTargetTarget.Marshal m) m.
Proof.
  start_emits VoiceTargetTarget_consuming.
  assert (Hid : HasChannelID || negb (ChannelID =? 0) = HasChannelID).
  { destruct HasChannelID; [done|]. cbn. rewrite (H3 eq_refl). done. }
  rewrite Hid; clear Hid.
  peel VoiceTargetTarget.Children false. peel VoiceTargetTarget.Links false.
  peel VoiceTargetTarget.Group ([] : gostring).
  peel2 VoiceTargetTarget.ChannelID 0 VoiceTargetTarget.HasChannelID false.
  peel_each VoiceTargetTarget.Session.
  apply emits_nil.
Qed.

Lemma VoiceTargetTarget_back m :
  VoiceTargetTarget.wf m -> zlen (VoiceTargetTarget.Marshal m) < 2 ^ 62 ->
  VoiceTargetTarget.Unmarshal VoiceTargetTarget.zero (VoiceTargetTarget.Marshal m) = (m, None).
Proof. intros. by apply emits_done, VoiceTargetTarget_emits. Qed.

Lemma VoiceTargetTarget_nonempty m : VoiceTargetTarget.wf m -> m <> VoiceTargetTarget.zero ->
  nonempty (VoiceTargetTarget.Marshal m) = true.
Proof.
  intros Hwf Hne. destruct (VoiceTargetTarget.Marshal m) as [|c l] eqn:E; [|done].
  destruct Hne. pose proof (VoiceTargetTarget_back m Hwf) as Hb. rewrite E in Hb.
  specialize (Hb ltac:(rewrite zlen_nil; lia)). by injection Hb as <-.
Qed.

Lemma VoiceTarget_consuming : consuming VoiceTarget.field.
Proof.
  intros fn wt b m m1 b1 Hb H. unfold VoiceTarget.field in H. repeat case_match;
    eauto using case_varint_consuming, case_skip_consuming.
  destruct_bind H. repeat case_match; try done. injection H as <- <-.
  match goal with H : ReadLengthDelimited _ = _ |- _ =>
    apply ReadLengthDelimited_bounds in H; [|done] end.
  rewrite zlen_zdrop; lia.
Qed.

Ltac peel_target Hc m1 :=
  match goal with H : VoiceTargetTarget.wf ?t /\ ?t <> _ |- _ =>
    destruct H; rewrite VoiceTargetTarget_nonempty by done; unfold when;
    eapply (emits_payload _ Hc _ _ m1); [lia|eassumption|];
    intros ? ? ? Hread; cbn; rewrite Hread; cbn; by rewrite VoiceTargetTarget_back
  end.

Lemma VoiceTarget_emits m : VoiceTarget.wf m ->
  emits VoiceTarget.field VoiceTarget.zero (VoiceTarget.Marshal m) m.
Proof.
  start_emits VoiceTarget_consuming.
  assert (Forall (fun t => VoiceTargetTarget.wf t /\ t <> VoiceTargetTarget.zero) Targets)
    by (by apply Forall_and).
  clear H0 H3. peel_each_with VoiceTarget.Targets peel_target. peel VoiceTarget.ID 0.
  apply emits_nil.
Qed.

Lemma PermissionQuery_consuming : consuming PermissionQuery.field.
Proof. solve_consuming. Qed.

Lemma PermissionQuery_emits m : PermissionQuery.wf m -> emits PermissionQuery.field PermissionQuery.zero (PermissionQuery.Marshal m) m.
Proof.
  start_emits PermissionQuery_consuming.
  peel PermissionQuery.Flush false. peel PermissionQuery.Permissions 0. peel PermissionQuery.ChannelID 0.
  apply emits_nil.
Qed.

Lemma CodecVersion_consuming : consuming CodecVersion.field.
Proof. solve_consuming. Qed.

Lemma CodecVersion_emits m : CodecVersion.wf m -> emits CodecVersion.field CodecVersion.zero (CodecVersion.Marshal m) m.
Proof.
  start_emits CodecVersion_consuming.
  peel CodecVersion.Opus false. peel CodecVersion.PreferAlpha false. peel CodecVersion.Beta 0.
  peel CodecVersion.Alpha 0.
  apply emits_nil.
Qed.

Lemma UserStats_consuming : consuming UserStats.field.
Proof. solve_consuming. Qed.

Lemma UserStats_emits m : UserStats.wf m -> emits UserStats.field UserStats.zero (UserStats.Marshal m) m.
Proof.
  start_emits UserStats_consuming.
  peel UserStats.Session 0.
  apply emits_nil.
Qed.

Lemma RequestBlob_consuming : consuming RequestBlob.field.
Proof. solve_consuming. Qed.

Lemma RequestBlob_emits m : RequestBlob.wf m -> emits RequestBlob.field RequestBlob.zero (RequestBlob.Marshal m) m.
Proof.
  start_emits RequestBlob_consuming.
  peel_each RequestBlob.ChannelDescription. peel_each RequestBlob.SessionComment. peel_each RequestBlob.SessionTexture.
  apply emits_nil.
Qed.

Lemma ServerConfig_consuming : consuming ServerConfig.field.
Proof. solve_consuming. Qed.

Lemma ServerConfig_emits m : ServerConfig.wf m -> emits ServerConfig.field ServerConfig.zero (ServerConfig.Marshal m) m.
Proof.
  start_emits ServerConfig_consuming.
  peel ServerConfig.RecordingAllowed false. peel ServerConfig.MaxUsers 0. peel ServerConfig.ImageMessageLength 0.
  peel ServerConfig.MessageLength 0. peel ServerConfig.AllowHTML false. peel ServerConfig.WelcomeText ([] : gostring).
  peel ServerConfig.MaxBandwidth 0.
  apply emits_nil.
Qed.

Lemma SuggestConfig_consuming : consuming SuggestConfig.field.
Proof. solve_consuming. Qed.

Lemma SuggestConfig_emits m : SuggestConfig.wf m -> emits SuggestConfig.field SuggestConfig.zero (SuggestConfig.Marshal m) m.
Proof.
  start_emits SuggestConfig_consuming.
  peel SuggestConfig.VersionV2 0. peel SuggestConfig.PushToTalk false. peel SuggestConfig.Positional false.
  peel SuggestConfig.VersionV1 0.
  apply emits_nil.
Qed.

Lemma PluginDataTransmission_consuming : consuming PluginDataTransmission.field.
Proof. solve_consuming. Qed.

Lemma PluginDataTransmission_emits m : PluginDataTransmission.wf m -> emits PluginDataTransmission.field PluginDataTransmission.zero (PluginDataTransmission.Marshal m) m.
Proof.
  start_emits PluginDataTransmission_consuming.
  peel PluginDataTransmission.DataID ([] : gostring). peel PluginDataTransmission.Data ([] : bytes). peel_each PluginDataTransmission.ReceiverSessions.
  peel PluginDataTransmission.SenderSession 0.
  apply emits_nil.
Qed.

