(* ===== verification/Codec.v ===== *)
(** * Framing, message dispatch and the codec of the control channel
    (pkg/mumble/protocol: types.go, framing.go, codec.go, handler.go) *)

From Stdlib Require Import ZArith Lia String.
From stdpp Require Import base numbers list.
From S2P Require Import Prelude Wire Fields Messages MessagesRT.
Open Scope Z_scope.

(** ** Message types *)

Definition MessageVersion : Z := 0.
Definition MessageUDPTunnel : Z := 1.
Definition MessageAuthenticate : Z := 2.
Definition MessagePing : Z := 3.
Definition MessageReject : Z := 4.
Definition MessageServerSync : Z := 5.
Definition MessageChannelRemove : Z := 6.
Definition MessageChannelState : Z := 7.
Definition MessageUserRemove : Z := 8.
Definition MessageUserState : Z := 9.
Definition MessageBanList : Z := 10.
Definition MessageTextMessage : Z := 11.
Definition MessagePermissionDenied : Z := 12.
Definition MessageACL : Z := 13.
Definition MessageQueryUsers : Z := 14.
Definition MessageCryptSetup : Z := 15.
Definition MessageContextActionModify : Z := 16.
Definition MessageContextAction : Z := 17.
Definition MessageUserList : Z := 18.
Definition MessageVoiceTarget : Z := 19.
Definition MessagePermissionQuery : Z := 20.
Definition MessageCodecVersion : Z := 21.
Definition MessageUserStats : Z := 22.
Definition MessageRequestBlob : Z := 23.
Definition MessageServerConfig : Z := 24.
Definition MessageSuggestConfig : Z := 25.
Definition MessagePluginDataTransmission : Z := 26.
Definition MessageCount : Z := 27.

(** The Go interface [Message]: what the codec asks of a message struct. *)
Class Message (M : Type) := {
  new : M;
  Marshal : M -> bytes;
  Unmarshal : M -> bytes -> outcome M }.

(** What the structs promise the codec: a well-formed value is read back. *)
Class MessageSpec (M : Type) `{Message M} := {
  wf : M -> Prop;
  Unmarshal_Marshal : forall m, wf m -> zlen (Marshal m) < 2 ^ 62 ->
    Unmarshal new (Marshal m) = (m, None) }.

#[export] Instance Version_message : Message Version.t :=
  {| new := Version.zero; Marshal := Version.Marshal; Unmarshal := Version.Unmarshal |}.
#[export] Instance Authenticate_message : Message Authenticate.t :=
  {| new := Authenticate.zero; Marshal := Authenticate.Marshal; Unmarshal := Authenticate.Unmarshal |}.
#[export] Instance Ping_message : Message Ping.t :=
  {| new := Ping.zero; Marshal := Ping.Marshal; Unmarshal := Ping.Unmarshal |}.
#[export] Instance Reject_message : Message Reject.t :=
  {| new := Reject.zero; Marshal := Reject.Marshal; Unmarshal := Reject.Unmarshal |}.
#[export] Instance ServerSync_message : Message ServerSync.t :=
  {| new := ServerSync.zero; Marshal := ServerSync.Marshal; Unmarshal := ServerSync.Unmarshal |}.
#[export] Instance ChannelRemove_message : Message ChannelRemove.t :=
  {| new := ChannelRemove.zero; Marshal := ChannelRemove.Marshal; Unmarshal := ChannelRemove.Unmarshal |}.
#[export] Instance ChannelState_message : Message ChannelState.t :=
  {| new := ChannelState.zero; Marshal := ChannelState.Marshal; Unmarshal := ChannelState.Unmarshal |}.
#[export] Instance UserRemove_message : Message UserRemove.t :=
  {| new := UserRemove.zero; Marshal := UserRemove.Marshal; Unmarshal := UserRemove.Unmarshal |}.
#[export] Instance UserState_message : Message UserState.t :=
  {| new := UserState.zero; Marshal := UserState.Marshal; Unmarshal := UserState.Unmarshal |}.
#[export] Instance BanList_message : Message BanList.t :=
  {| new := BanList.zero; Marshal := BanList.Marshal; Unmarshal := BanList.Unmarshal |}.
#[export] Instance TextMessage_message : Message TextMessage.t :=
  {| new := TextMessage.zero; Marshal := TextMessage.Marshal; Unmarshal := TextMessage.Unmarshal |}.
#[export] Instance PermissionDenied_message : Message PermissionDenied.t :=
  {| new := PermissionDenied.zero; Marshal := PermissionDenied.Marshal; Unmarshal := PermissionDenied.Unmarshal |}.
#[export] Instance ACL_message : Message ACL.t :=
  {| new := ACL.zero; Marshal := ACL.Marshal; Unmarshal := ACL.Unmarshal |}.
#[export] Instance QueryUsers_message : Message QueryUsers.t :=
  {| new := QueryUsers.zero; Marshal := QueryUsers.Marshal; Unmarshal := QueryUsers.Unmarshal |}.
#[export] Instance CryptSetup_message : Message CryptSetup.t :=
  {| new := CryptSetup.zero; Marshal := CryptSetup.Marshal; Unmarshal := CryptSetup.Unmarshal |}.
#[export] Instance ContextActionModify_message : Message ContextActionModify.t :=
  {| new := ContextActionModify.zero; Marshal := ContextActionModify.Marshal; Unmarshal := ContextActionModify.Unmarshal |}.
#[export] Instance ContextAction_message : Message ContextAction.t :=
  {| new := ContextAction.zero; Marshal := ContextAction.Marshal; Unmarshal := ContextAction.Unmarshal |}.
#[export] Instance UserList_message : Message UserList.t :=
  {| new := UserList.zero; Marshal := UserList.Marshal; Unmarshal := UserList.Unmarshal |}.
#[export] Instance VoiceTarget_message : Message VoiceTarget.t :=
  {| new := VoiceTarget.zero; Marshal := VoiceTarget.Marshal; Unmarshal := VoiceTarget.Unmarshal |}.
#[export] Instance PermissionQuery_message : Message PermissionQuery.t :=
  {| new := PermissionQuery.zero; Marshal := PermissionQuery.Marshal; Unmarshal := PermissionQuery.Unmarshal |}.
#[export] Instance CodecVersion_message : Message CodecVersion.t :=
  {| new := CodecVersion.zero; Marshal := CodecVersion.Marshal; Unmarshal := CodecVersion.Unmarshal |}.
#[export] Instance UserStats_message : Message UserStats.t :=
  {| new := UserStats.zero; Marshal := UserStats.Marshal; Unmarshal := UserStats.Unmarshal |}.
#[export] Instance RequestBlob_message : Message RequestBlob.t :=
  {| new := RequestBlob.zero; Marshal := RequestBlob.Marshal; Unmarshal := RequestBlob.Unmarshal |}.
#[export] Instance ServerConfig_message : Message ServerConfig.t :=
  {| new := ServerConfig.zero; Marshal := ServerConfig.Marshal; Unmarshal := ServerConfig.Unmarshal |}.
#[export] Instance SuggestConfig_message : Message SuggestConfig.t :=
  {| new := SuggestConfig.zero; Marshal := SuggestConfig.Marshal; Unmarshal := SuggestConfig.Unmarshal |}.
#[export] Instance PluginDataTransmission_message : Message PluginDataTransmission.t :=
  {| new := PluginDataTransmission.zero; Marshal := PluginDataTransmission.Marshal; Unmarshal := PluginDataTransmission.Unmarshal |}.

#[local] Obligation Tactic := idtac.

#[export] Program Instance Version_spec : MessageSpec Version.t := {| wf := Version.wf |}.
Next Obligation. intros m Hwf Hl. by apply emits_done, Version_emits. Qed.
#[export] Program Instance Authenticate_spec : MessageSpec Authenticate.t := {| wf := Authenticate.wf |}.
Next Obligation. intros m Hwf Hl. by apply emits_done, Authenticate_emits. Qed.
#[export] Program Instance Ping_spec : MessageSpec Ping.t := {| wf := Ping.wf |}.
Next Obligation. intros m Hwf Hl. by apply emits_done, Ping_emits. Qed.
#[export] Program Instance Reject_spec : MessageSpec Reject.t := {| wf := Reject.wf |}.
Next Obligation. intros m Hwf Hl. by apply emits_done, Reject_emits. Qed.
#[export] Program Instance ServerSync_spec : MessageSpec ServerSync.t := {| wf := ServerSync.wf |}.
Next Obligation. intros m Hwf Hl. by apply emits_done, ServerSync_emits. Qed.
#[export] Program Instance ChannelRemove_spec : MessageSpec ChannelRemove.t := {| wf := ChannelRemove.wf |}.
Next Obligation. intros m Hwf Hl. by apply emits_done, ChannelRemove_emits. Qed.
#[export] Program Instance ChannelState_spec : MessageSpec ChannelState.t := {| wf := ChannelState.wf |}.
Next Obligation. intros m Hwf Hl. by apply emits_done, ChannelState_emits. Qed.
#[export] Program Instance UserRemove_spec : MessageSpec UserRemove.t := {| wf := UserRemove.wf |}.
Next Obligation. intros m Hwf Hl. by apply emits_done, UserRemove_emits. Qed.
#[export] Program Instance UserState_spec : MessageSpec UserState.t := {| wf := UserState.wf |}.
Next Obligation. intros m Hwf Hl. by apply emits_done, UserState_emits. Qed.
#[export] Program Instance BanList_spec : MessageSpec BanList.t := {| wf := BanList.wf |}.
Next Obligation. intros m Hwf Hl. by apply emits_done, BanList_emits. Qed.
#[export] Program Instance TextMessage_spec : MessageSpec TextMessage.t := {| wf := TextMessage.wf |}.
Next Obligation. intros m Hwf Hl. by apply emits_done, TextMessage_emits. Qed.
#[export] Program Instance PermissionDenied_spec : MessageSpec PermissionDenied.t := {| wf := PermissionDenied.wf |}.
Next Obligation. intros m Hwf Hl. by apply emits_done, PermissionDenied_emits. Qed.
#[export] Program Instance ACL_spec : MessageSpec ACL.t := {| wf := ACL.wf |}.
Next Obligation. intros m Hwf Hl. by apply emits_done, ACL_emits. Qed.
#[export] Program Instance QueryUsers_spec : MessageSpec QueryUsers.t := {| wf := QueryUsers.wf |}.
Next Obligation. intros m Hwf Hl. by apply emits_done, QueryUsers_emits. Qed.
#[export] Program Instance CryptSetup_spec : MessageSpec CryptSetup.t := {| wf := CryptSetup.wf |}.
Next Obligation. intros m Hwf Hl. by apply emits_done, CryptSetup_emits. Qed.
#[export] Program Instance ContextActionModify_spec : MessageSpec ContextActionModify.t := {| wf := ContextActionModify.wf |}.
Next Obligation. intros m Hwf Hl. by apply emits_done, ContextActionModify_emits. Qed.
#[export] Program Instance ContextAction_spec : MessageSpec ContextAction.t := {| wf := ContextAction.wf |}.
Next Obligation. intros m Hwf Hl. by apply emits_done, ContextAction_emits. Qed.
#[export] Program Instance UserList_spec : MessageSpec UserList.t := {| wf := UserList.wf |}.
Next Obligation. by intros []. Qed.
#[export] Program Instance VoiceTarget_spec : MessageSpec VoiceTarget.t := {| wf := VoiceTarget.wf |}.
Next Obligation. intros m Hwf Hl. by apply emits_done, VoiceTarget_emits. Qed.
#[export] Program Instance PermissionQuery_spec : MessageSpec PermissionQuery.t := {| wf := PermissionQuery.wf |}.
Next Obligation. intros m Hwf Hl. by apply emits_done, PermissionQuery_emits. Qed.
#[export] Program Instance CodecVersion_spec : MessageSpec CodecVersion.t := {| wf := CodecVersion.wf |}.
Next Obligation. intros m Hwf Hl. by apply emits_done, CodecVersion_emits. Qed.
#[export] Program Instance UserStats_spec : MessageSpec UserStats.t := {| wf := UserStats.wf |}.
Next Obligation. intros m Hwf Hl. by apply emits_done, UserStats_emits. Qed.
#[export] Program Instance RequestBlob_spec : MessageSpec RequestBlob.t := {| wf := RequestBlob.wf |}.
Next Obligation. intros m Hwf Hl. by apply emits_done, RequestBlob_emits. Qed.
#[export] Program Instance ServerConfig_spec : MessageSpec ServerConfig.t := {| wf := ServerConfig.wf |}.
Next Obligation. intros m Hwf Hl. by apply emits_done, ServerConfig_emits. Qed.
#[export] Program Instance SuggestConfig_spec : MessageSpec SuggestConfig.t := {| wf := SuggestConfig.wf |}.
Next Obligation. intros m Hwf Hl. by apply emits_done, SuggestConfig_emits. Qed.
#[export] Program Instance PluginDataTransmission_spec : MessageSpec PluginDataTransmission.t := {| wf := PluginDataTransmission.wf |}.
Next Obligation. intros m Hwf Hl. by apply emits_done, PluginDataTransmission_emits. Qed.

(** The values of the Go interface type. *)
Inductive message :=
  | MVersion (m : Version.t)
  | MAuthenticate (m : Authenticate.t)
  | MPing (m : Ping.t)
  | MReject (m : Reject.t)
  | MServerSync (m : ServerSync.t)
  | MChannelRemove (m : ChannelRemove.t)
  | MChannelState (m : ChannelState.t)
  | MUserRemove (m : UserRemove.t)
  | MUserState (m : UserState.t)
  | MBanList (m : BanList.t)
  | MTextMessage (m : TextMessage.t)
  | MPermissionDenied (m : PermissionDenied.t)
  | MACL (m : ACL.t)
  | MQueryUsers (m : QueryUsers.t)
  | MCryptSetup (m : CryptSetup.t)
  | MContextActionModify (m : ContextActionModify.t)
  | MContextAction (m : ContextAction.t)
  | MUserList (m : UserList.t)
  | MVoiceTarget (m : VoiceTarget.t)
  | MPermissionQuery (m : PermissionQuery.t)
  | MCodecVersion (m : CodecVersion.t)
  | MUserStats (m : UserStats.t)
  | MRequestBlob (m : RequestBlob.t)
  | MServerConfig (m : ServerConfig.t)
  | MSuggestConfig (m : SuggestConfig.t)
  | MPluginDataTransmission (m : PluginDataTransmission.t).

Definition message_type (msg : message) : Z :=
  match msg with
  | MVersion _ => MessageVersion
  | MAuthenticate _ => MessageAuthenticate
  | MPing _ => MessagePing
  | MReject _ => MessageReject
  | MServerSync _ => MessageServerSync
  | MChannelRemove _ => MessageChannelRemove
  | MChannelState _ => MessageChannelState
  | MUserRemove _ => MessageUserRemove
  | MUserState _ => MessageUserState
  | MBanList _ => MessageBanList
  | MTextMessage _ => MessageTextMessage
  | MPermissionDenied _ => MessagePermissionDenied
  | MACL _ => MessageACL
  | MQueryUsers _ => MessageQueryUsers
  | MCryptSetup _ => MessageCryptSetup
  | MContextActionModify _ => MessageContextActionModify
  | MContextAction _ => MessageContextAction
  | MUserList _ => MessageUserList
  | MVoiceTarget _ => MessageVoiceTarget
  | MPermissionQuery _ => MessagePermissionQuery
  | MCodecVersion _ => MessageCodecVersion
  | MUserStats _ => MessageUserStats
  | MRequestBlob _ => MessageRequestBlob
  | MServerConfig _ => MessageServerConfig
  | MSuggestConfig _ => MessageSuggestConfig
  | MPluginDataTransmission _ => MessagePluginDataTransmission
  end.

(** The dynamic call [msg.Marshal()]. *)
Definition message_Marshal (msg : message) : bytes :=
  match msg with
  | MVersion m => Marshal m
  | MAuthenticate m => Marshal m
  | MPing m => Marshal m
  | MReject m => Marshal m
  | MServerSync m => Marshal m
  | MChannelRemove m => Marshal m
  | MChannelState m => Marshal m
  | MUserRemove m => Marshal m
  | MUserState m => Marshal m
  | MBanList m => Marshal m
  | MTextMessage m => Marshal m
  | MPermissionDenied m => Marshal m
  | MACL m => Marshal m
  | MQueryUsers m => Marshal m
  | MCryptSetup m => Marshal m
  | MContextActionModify m => Marshal m
  | MContextAction m => Marshal m
  | MUserList m => Marshal m
  | MVoiceTarget m => Marshal m
  | MPermissionQuery m => Marshal m
  | MCodecVersion m => Marshal m
  | MUserStats m => Marshal m
  | MRequestBlob m => Marshal m
  | MServerConfig m => Marshal m
  | MSuggestConfig m => Marshal m
  | MPluginDataTransmission m => Marshal m
  end.

Definition message_wf (msg : message) : Prop :=
  match msg with
  | MVersion m => wf m
  | MAuthenticate m => wf m
  | MPing m => wf m
  | MReject m => wf m
  | MServerSync m => wf m
  | MChannelRemove m => wf m
  | MChannelState m => wf m
  | MUserRemove m => wf m
  | MUserState m => wf m
  | MBanList m => wf m
  | MTextMessage m => wf m
  | MPermissionDenied m => wf m
  | MACL m => wf m
  | MQueryUsers m => wf m
  | MCryptSetup m => wf m
  | MContextActionModify m => wf m
  | MContextAction m => wf m
  | MUserList m => wf m
  | MVoiceTarget m => wf m
  | MPermissionQuery m => wf m
  | MCodecVersion m => wf m
  | MUserStats m => wf m
  | MRequestBlob m => wf m
  | MServerConfig m => wf m
  | MSuggestConfig m => wf m
  | MPluginDataTransmission m => wf m
  end.

(** ** Framing *)

Definition TCPHeaderSize : Z := 6.
Definition MaxPayloadSize : Z := 8 * 1024 * 1024.

Inductive frame_error := EOF | ErrUnexpectedEOF | ErrPayloadTooLarge.

Section Writer.
(** An [io.Writer]: its state after a write, or its error. *)
Context {W E : Type} (Write : W -> bytes -> W * option E).

Definition WritePacket (w : W) (msgType : Z) (payload : bytes) : W * option E :=
  let header := be16 (u16 msgType) ++ be32 (u32 (zlen payload)) in
  match Write w header with
  | (w, Some err) => (w, Some err)
  | (w, None) =>
      if 0 <? zlen payload then Write w payload else (w, None)
  end.

Definition WriteMessage (w : W) (msgType : Z) (msg : option message) : W * option E :=
  match msg with
  | None => WritePacket w msgType []
  | Some msg => WritePacket w msgType (message_Marshal msg)
  end.
End Writer.

(** [io.ReadFull] on a stream of bytes. *)
Definition ReadFull (n : Z) (r : bytes) : result frame_error (bytes * bytes) :=
  if n <=? zlen r then Ok (ztake n r, zdrop n r)
  else if zlen r =? 0 then Err EOF else Err ErrUnexpectedEOF.

Definition ReadPacket (r : bytes) : result frame_error (Z * bytes * bytes) :=
  '(header, r) ← ReadFull TCPHeaderSize r;
  let msgType := be16_read (ztake 2 header) in
  let length := be32_read (zdrop 2 header) in
  if MaxPayloadSize <? length then Err ErrPayloadTooLarge else
  if length =? 0 then Ok (msgType, [], r) else
  '(payload, r) ← ReadFull length r;
  Ok (msgType, payload, r).

(** ** The codec *)

Inductive codec_error :=
  | ErrUnknownMessageType
  | ErrUDPTunnelPayload
  | ErrWire (e : wire_error).

(** [msg = &T{}; if len(payload) == 0 { return msg, nil };
    err := msg.Unmarshal(payload)]. *)
Definition decode {M} `{Message M} (inj : M -> message) (payload : bytes)
    : result codec_error (option message) :=
  if zlen payload =? 0 then Ok (Some (inj new)) else
  match Unmarshal new payload with
  | (m, None) => Ok (Some (inj m))
  | (_, Some e) => Err (ErrWire e)
  end.

(** [None] is the nil message. *)
Definition ReadMessage (msgType : Z) (payload : bytes) : result codec_error (option message) :=
  if (zlen payload =? 0) && negb (msgType =? MessageUDPTunnel) then Ok None else
  match msgType with
  | 0 => decode MVersion payload
  | 1 => Err ErrUDPTunnelPayload
  | 2 => decode MAuthenticate payload
  | 3 => decode MPing payload
  | 4 => decode MReject payload
  | 5 => decode MServerSync payload
  | 6 => decode MChannelRemove payload
  | 7 => decode MChannelState payload
  | 8 => decode MUserRemove payload
  | 9 => decode MUserState payload
  | 10 => decode MBanList payload
  | 11 => decode MTextMessage payload
  | 12 => decode MPermissionDenied payload
  | 13 => decode MACL payload
  | 14 => decode MQueryUsers payload
  | 15 => decode MCryptSetup payload
  | 16 => decode MContextActionModify payload
  | 17 => decode MContextAction payload
  | 18 => decode MUserList payload
  | 19 => decode MVoiceTarget payload
  | 20 => decode MPermissionQuery payload
  | 21 => decode MCodecVersion payload
  | 22 => decode MUserStats payload
  | 23 => decode MRequestBlob payload
  | 24 => decode MServerConfig payload
  | 25 => decode MSuggestConfig payload
  | 26 => decode MPluginDataTransmission payload
  | _ => Err ErrUnknownMessageType
  end.

(** ** Handler tables *)

Section Handlers.
Context {Ctx R : Type} (nop : R).

(** [nil] entries are [None]. *)
Definition MessageHandler : Type := Z -> bytes -> Ctx -> R.
Definition HandlerTable : Type := list (option MessageHandler).

Definition NewHandlerTable : HandlerTable := replicate (Z.to_nat MessageCount) None.

Definition Dispatch (t : HandlerTable) (msgType : Z) (payload : bytes) (ctx : Ctx) : R :=
  if zlen t <=? msgType then nop else
  match t !! Z.to_nat msgType with
  | Some (Some h) => h msgType payload ctx
  | _ => nop
  end.
End Handlers.

(** ** Framing: round trip, bounds *)

Lemma ReadFull_app (n : Z) (b rest : bytes) : zlen b = n -> ReadFull n (b ++ rest) = Ok (b, rest).
Proof.
  intros <-. unfold ReadFull. rewrite zlen_app. pose proof (zlen_nonneg rest).
  destruct (Z.leb_spec (zlen b) (zlen b + zlen rest)); [|lia].
  by rewrite ztake_app, zdrop_app.
Qed.

Lemma ReadFull_inv n (r b rest : bytes) : 0 <= n ->
  ReadFull n r = Ok (b, rest) -> r = b ++ rest /\ zlen b = n.
Proof.
  intros Hn. unfold ReadFull. destruct (Z.leb_spec n (zlen r)); [|by case_match].
  intros [= <- <-]. split; [symmetry; apply ztake_zdrop|by apply zlen_ztake].
Qed.

(** A [bytes.Buffer] as the writer. *)
Definition buffer_write (w b : bytes) : bytes * option Empty_set := (w ++ b, None).

(** The bytes of one packet. *)
Definition packet (msgType : Z) (payload : bytes) : bytes :=
  be16 (u16 msgType) ++ be32 (u32 (zlen payload)) ++ payload.

Lemma WritePacket_buffer w ty payload :
  WritePacket buffer_write w ty payload = (w ++ packet ty payload, None).
Proof.
  unfold WritePacket, buffer_write, packet. pose proof (zlen_nonneg payload).
  destruct (Z.ltb_spec 0 (zlen payload)).
  - by rewrite <- !app_assoc.
  - destruct payload; [by rewrite app_nil_r|rewrite zlen_cons in *; pose proof (zlen_nonneg payload); lia].
Qed.

Lemma ReadPacket_packet ty payload rest :
  is_u16 ty -> zlen payload <= MaxPayloadSize ->
  ReadPacket (packet ty payload ++ rest) = Ok (ty, payload, rest).
Proof.
  intros Ht Hp. unfold ReadPacket, packet, MaxPayloadSize in *. pose proof (zlen_nonneg payload).
  rewrite u16_id, u32_id by (done || zlia).
  replace ((be16 ty ++ be32 (zlen payload) ++ payload) ++ rest)
    with ((be16 ty ++ be32 (zlen payload)) ++ payload ++ rest) by (by rewrite <- !app_assoc).
  rewrite ReadFull_app by done. cbn [mbind result_bind].
  change (ztake 2 (be16 ty ++ be32 (zlen payload))) with (be16 ty ++ []).
  change (zdrop 2 (be16 ty ++ be32 (zlen payload))) with (be32 (zlen payload) ++ []).
  rewrite be16_back, be32_back by (done || zlia).
  destruct (Z.ltb_spec (8 * 1024 * 1024) (zlen payload)); [lia|].
  destruct (Z.eqb_spec (zlen payload) 0) as [Hz|].
  - destruct payload; [done|]. rewrite zlen_cons in Hz. pose proof (zlen_nonneg payload). lia.
  - by rewrite ReadFull_app.
Qed.

(** Reading [n] packets off a stream. *)
Fixpoint ReadPackets (n : nat) (r : bytes) : result frame_error (list (Z * bytes) * bytes) :=
  match n with
  | O => Ok ([], r)
  | S n =>
      '(ty, payload, r) ← ReadPacket r;
      '(l, r) ← ReadPackets n r;
      Ok ((ty, payload) :: l, r)
  end.

(** Writing packets one after the other, stopping at the first error. *)
Fixpoint WritePackets {W E} (Write : W -> bytes -> W * option E) (w : W) (l : list (Z * bytes))
    : W * option E :=
  match l with
  | [] => (w, None)
  | (ty, payload) :: l =>
      match WritePacket Write w ty payload with
      | (w, Some err) => (w, Some err)
      | (w, None) => WritePackets Write w l
      end
  end.

Definition packet_ok (p : Z * bytes) : Prop := is_u16 p.1 /\ zlen p.2 <= MaxPayloadSize.

(** Frames written to a connection are read back: same types, same
    payloads, same order, nothing left over but what was sent after them. *)
Theorem packets_roundtrip (l : list (Z * bytes)) (w rest : bytes) :
  Forall packet_ok l ->
  exists sent, WritePackets buffer_write w l = (w ++ sent, None) /\
    ReadPackets (length l) (sent ++ rest) = Ok (l, rest).
Proof.
  intros Hl. revert w. induction Hl as [|[ty payload] l [Ht Hp] Hl IH]; intros w.
  - exists []. by rewrite app_nil_r.
  - destruct (IH (w ++ packet ty payload)) as (sent & Hw & Hr).
    exists (packet ty payload ++ sent). split.
    + cbn [WritePackets]. rewrite WritePacket_buffer, Hw. by rewrite app_assoc.
    + cbn [length ReadPackets]. rewrite <- app_assoc, ReadPacket_packet by done.
      cbn [mbind result_bind]. by rewrite Hr.
Qed.

Lemma packets_roundtrip_witness :
  Forall packet_ok [(3, [1; 2; 3]); (9, [])] /\
  exists sent, WritePackets buffer_write [] [(3, [1; 2; 3]); (9, [])] = ([] ++ sent, None) /\
    ReadPackets 2 (sent ++ [7]) = Ok ([(3, [1; 2; 3]); (9, [])], [7]).
Proof.
  assert (Forall packet_ok [(3, [1; 2; 3]); (9, [])])
    by (repeat constructor; cbn; unfold MaxPayloadSize, zlen; cbn; lia).
  split; [done|]. by apply packets_roundtrip.
Defined.

(** Whatever arrives, a packet that is accepted has a payload within
    [MaxPayloadSize], and exactly its header and payload were consumed. *)
Theorem ReadPacket_bounds (r payload r' : bytes) ty :
  bytes_ok r -> ReadPacket r = Ok (ty, payload, r') ->
  zlen payload <= MaxPayloadSize /\ is_u16 ty /\
  exists header, zlen header = TCPHeaderSize /\ r = header ++ payload ++ r'.
Proof.
  intros Hok. unfold ReadPacket. intros H.
  destruct (ReadFull TCPHeaderSize r) as [[h r1]|] eqn:E1; cbn in H; [|done].
  apply ReadFull_inv in E1 as [-> Hh]; [|done]. apply Forall_app in Hok as [Hok _].
  assert (is_u16 (be16_read (ztake 2 h))) as Hty.
  { destruct h as [|h0 [|h1 h]]; [done..|].
    unfold bytes_ok in Hok. decompose_Forall_hyps.
    change (is_u16 (Z.lor h1 (Z.shiftl h0 8))). rewrite lor_shiftl_add by (lia || done). zlia. }
  case_match eqn:Em; [done|].
  case_match eqn:Ez.
  - injection H as <- <- <-. split; [done|]. split; [done|]. by exists h.
  - destruct (ReadFull (be32_read (zdrop 2 h)) r1) as [[p r2]|] eqn:E2; cbn in H; [|done].
    injection H as <- <- <-. apply Z.ltb_ge in Em.
    apply ReadFull_inv in E2 as [-> Hp]; [|by apply be32_read_nonneg, bytes_ok_zdrop].
    split; [lia|]. split; [done|]. by exists h.
Qed.

Lemma ReadPacket_bounds_witness :
  bytes_ok [0; 3; 0; 0; 0; 1; 9; 8] /\
  ReadPacket [0; 3; 0; 0; 0; 1; 9; 8] = Ok (3, [9], [8]) /\
  zlen [9] <= MaxPayloadSize /\ is_u16 3 /\
  exists header, zlen header = TCPHeaderSize /\ [0; 3; 0; 0; 0; 1; 9; 8] = header ++ [9] ++ [8].
Proof.
  assert (bytes_ok [0; 3; 0; 0; 0; 1; 9; 8]) by (repeat constructor; cbn; lia).
  assert (ReadPacket [0; 3; 0; 0; 0; 1; 9; 8] = Ok (3, [9], [8])) by (vm_compute; reflexivity).
  split; [done|]. split; [done|]. by apply ReadPacket_bounds.
Defined.

(** A header that announces more than [MaxPayloadSize] is refused before
    any payload byte is read. *)
Theorem ReadPacket_oversized ty len rest :
  is_u32 len -> MaxPayloadSize < len ->
  ReadPacket (be16 ty ++ be32 len ++ rest) = Err ErrPayloadTooLarge.
Proof.
  intros Hl Hm. unfold ReadPacket. rewrite app_assoc, ReadFull_app by done.
  cbn [mbind result_bind]. change (zdrop 2 (be16 ty ++ be32 len)) with (be32 len ++ []).
  rewrite be32_back by done. destruct (Z.ltb_spec MaxPayloadSize len); [done|lia].
Qed.

Lemma ReadPacket_oversized_witness :
  MaxPayloadSize < 8388609 /\
  ReadPacket (be16 9 ++ be32 8388609 ++ [1; 2]) = Err ErrPayloadTooLarge.
Proof. split; [done|]. apply ReadPacket_oversized; [zlia|done]. Defined.

(** ** The codec against the message interface *)

Lemma decode_back {M} `{MessageSpec M} (inj : M -> message) m :
  wf m -> 0 < zlen (Marshal m) < 2 ^ 62 -> decode inj (Marshal m) = Ok (Some (inj m)).
Proof.
  intros Hwf Hl. unfold decode. destruct (Z.eqb_spec (zlen (Marshal m)) 0); [lia|].
  by rewrite Unmarshal_Marshal by (done || lia).
Qed.

Lemma message_back (msg : message) :
  message_wf msg -> zlen (message_Marshal msg) <= MaxPayloadSize ->
  ReadMessage (message_type msg) (message_Marshal msg) =
    Ok (if zlen (message_Marshal msg) =? 0 then None else Some msg).
Proof.
  intros Hwf Hl. unfold MaxPayloadSize in Hl. unfold ReadMessage.
  destruct (Z.eqb_spec (zlen (message_Marshal msg)) 0) as [|Hne].
  - by destruct msg.
  - pose proof (zlen_nonneg (message_Marshal msg)).
    destruct msg; apply decode_back; try done; cbn in Hl, Hne, H |- *; lia.
Qed.
Lemma message_type_u16 (msg : message) : is_u16 (message_type msg).
Proof. by destruct msg. Qed.

(** Sending messages one after the other, each under its type, up to the first
    error; and receiving [n] messages: a packet, and what is in it. *)
Fixpoint WriteMessages {W E} (Write : W -> bytes -> W * option E) (w : W) (l : list message) : W * option E :=
  match l with
  | [] => (w, None)
  | msg :: l =>
      match WriteMessage Write w (message_type msg) (Some msg) with
      | (w, Some err) => (w, Some err)
      | (w, None) => WriteMessages Write w l
      end
  end.
Fixpoint ReadMessages (n : nat) (r : bytes) : result (frame_error + codec_error) (list (option message) * bytes) :=
  match n with
  | O => Ok ([], r)
  | S n =>
      match ReadPacket r with
      | Err e => Err (inl e)
      | Ok (ty, payload, r) =>
          match ReadMessage ty payload with
          | Err e => Err (inr e)
          | Ok msg => '(l, r) ← ReadMessages n r; Ok (msg :: l, r)
          end
      end
  end.
(** A message as it is received: one whose encoding is empty is no message. *)
Definition as_received (msg : message) : option message :=
  if zlen (message_Marshal msg) =? 0 then None else Some msg.


Definition sample_message : message :=
  MTextMessage (TextMessage.mk 7 [1; 4294967295] [] [3] (str "hello"%string)).
Definition sample_ping : message := MPing Ping.zero.


(** A field the receiver does not know is skipped, whatever its number and
    for each wire type of the format: inserted after any fields it leaves the
    message that is read unchanged. *)
Theorem unknown_field_skipped {M} (field : switch M) (m0 m : M) (b : bytes) fn wt payload :
  consuming field -> 0 <= fn < 2 ^ 29 ->
  (forall wt b m, field fn wt b m = case_skip wt b m) ->
  (wt = WireVarint /\ (exists v, is_u64 v /\ payload = AppendVarint [] v) \/
   wt = WireFixed64 /\ zlen payload = 8 \/ wt = WireFixed32 /\ zlen payload = 4 \/
   wt = WireLengthDelimited /\
     exists data, payload = AppendVarint [] (u64 (zlen data)) ++ data) ->
  emits field m0 b m -> emits field m0 (AppendTag b fn wt ++ payload) m.
Proof.
  intros Hc Hf Hskip Hp Hb.
  assert (0 <= wt < 8) by (unfold WireVarint, WireFixed64, WireFixed32, WireLengthDelimited in Hp; lia).
  apply emits_field with (m := m); [done..|]. intros rest Hl. rewrite Hskip. unfold case_skip.
  enough (SkipField (payload ++ rest) wt = Ok (zlen payload)) as ->
    by (cbn [mbind result_bind]; by rewrite zdrop_app).
  pose proof (zlen_nonneg rest). rewrite zlen_app in Hl.
  destruct Hp as [[-> (v & Hv & ->)]|[[-> H8]|[[-> H4]|[-> (data & ->)]]]]; unfold SkipField; cbn [Z.eqb].
  - cbn. by rewrite ReadVarint_AppendVarint.
  - cbn. rewrite zlen_app. destruct (Z.ltb_spec (zlen payload + zlen rest) 8); [lia|]. by rewrite H8.
  - cbn. rewrite zlen_app. destruct (Z.ltb_spec (zlen payload + zlen rest) 4); [lia|]. by rewrite H4.
  - pose proof (AppendVarint_len (u64 (zlen data))). pose proof (zlen_nonneg data).
    rewrite zlen_app in Hl. cbn -[AppendVarint]. rewrite <- app_assoc.
    assert (zlen data < 2 ^ 62) by lia. assert (is_u64 (zlen data)) by zlia.
    rewrite (u64_id (zlen data)) in * by done.
    rewrite ReadVarint_AppendVarint by done. cbn [mbind result_bind].
    rewrite !zlen_app, u64_id, i64_id by zlia.
    destruct (Z.ltb_spec (zlen (AppendVarint [] (zlen data)) + (zlen data + zlen rest)
      - zlen (AppendVarint [] (zlen data))) (zlen data)); [lia|done].
Qed.

Lemma unknown_field_skipped_witness :
  emits Reject.field Reject.zero
    (AppendTag (Reject.Marshal (Reject.mk 4 (str "no"%string))) 77 WireVarint ++ AppendVarint [] 300)
    (Reject.mk 4 (str "no"%string)).
Proof.
  apply unknown_field_skipped.
  - exact Reject_consuming.
  - lia.
  - reflexivity.
  - left. split; [done|]. exists 300. split; [zlia|done].
  - apply Reject_emits. repeat constructor; cbn; zlia.
Defined.

(** The one setting that does not survive: an ACL message that says the
    channel inherits comes back saying it does not, for [Marshal] leaves the
    field out when it is true and [Unmarshal] starts from false. *)
Theorem ACL_inherit_lost (channel : Z) (query : bool) : is_u32 channel ->
  ACL.Unmarshal ACL.zero (ACL.Marshal (ACL.mk channel true query)) =
    (ACL.mk channel false query, None).
Proof.
  intros Hch.
  assert (emits ACL.field ACL.zero (ACL.Marshal (ACL.mk channel true query))
            (ACL.mk channel false query)) as He.
  { pose proof ACL_consuming. unfold ACL.Marshal. cbn.
    peel ACL.Query false. unfold when. peel ACL.ChannelID 0. apply emits_nil. }
  apply emits_done; [|done]. unfold ACL.Marshal, when. cbn.
  pose proof (put_varint_len [] 1 channel) as H1. rewrite zlen_nil in H1.
  pose proof (put_varint_len (put_varint [] 1 channel) 5 1). destruct query; lia.
Qed.

Lemma ACL_inherit_lost_witness :
  is_u32 3 /\ ACL.Unmarshal ACL.zero (ACL.Marshal (ACL.mk 3 true false)) =
    (ACL.mk 3 false false, None).
Proof. split; [zlia|]. apply ACL_inherit_lost. zlia. Defined.
