(* ===== verification/ConnQueue.v ===== *)
(** * What is written to a connection

    [internal/connection/conn.go]: messages are queued by any goroutine, written
    to the socket by one, and waited for by whoever wants to close the
    connection with a last word. The goroutines interleave at their accesses to
    the shared state. *)

From Stdlib Require Import ZArith Lia.
From stdpp Require Import base numbers list option.
From S2P Require Import Prelude Wire Fields Messages Codec.

Module ConnQueue.

(** [writeReq]: a type with a payload, or with a message. *)
Record writeReq := mkReq { rq_type : Z; rq_msg : option message; rq_payload : bytes }.
Definition WriteMessage_req (typ : Z) (m : option message) : writeReq := mkReq typ m [].
Definition WriteRaw_req (typ : Z) (payload : bytes) : writeReq := mkReq typ None payload.
(** A socket takes all bytes. *)
Definition socket_Write (s b : bytes) : bytes * option unit := (s ++ b, None).
(** [writeOne]: what is on the socket afterwards. *)
Definition writeOne (s : bytes) (r : writeReq) : bytes :=
  if 0 <? zlen (rq_payload r) then (WritePacket socket_Write s (rq_type r) (rq_payload r)).1
  else (WriteMessage socket_Write s (rq_type r) (rq_msg r)).1.
(** The capacity of [writeCh]. *)
Definition capacity : Z := 64.

(** The shared part of a connection. [closed] says that the state is
    [StateClosed]. [accepted] and [sent] are what was queued and what was handed
    to the socket so far; [hung] is a closed socket. *)
Record conn := mkConn {
  closed : bool;
  done : bool;
  hung : bool;
  writeCh : list writeReq;
  pending : Z;
  socket : bytes;
  notified : Z;
  accepted : list writeReq;
  sent : list writeReq }.
#[export] Instance conn_eta : Eta conn := fun c =>
  mkConn (closed c) (done c) (hung c) (writeCh c) (pending c) (socket c) (notified c) (accepted c) (sent c).
Definition New : conn := mkConn false false false [] 0 [] 0 [] [].

(** Where a goroutine is. *)
Inductive pc :=
  | Enqueue (r : writeReq)  (* [enqueue], before it looks at [done] *)
  | Count (r : writeReq)
  | Offer (r : writeReq)
  | Uncount
  | Queued
  | Refused
  | Write                   (* [writeLoop] *)
  | Writing (r : writeReq)
  | Wrote
  | Stopped
  | CloseAfterFlush
  | Wait
  | AwaitFlush
  | Flushed
  | TimedOut
  | Close
  | CloseDone
  | HangUp
  | Notify
  | Closed
  | SetActive
  | Activated
  | Panicked.               (* a channel closed twice *)

(** One step. [b] is the choice the runtime makes: in the select of the write
    loop, or that a deadline has passed. *)
Definition tstep (c : conn) (p : pc) (b : bool) : option (conn * pc) :=
  match p with
  | Enqueue r => Some (c, if done c then Refused else Count r)
  | Count r => Some (c <| pending := pending c + 1 |>, Offer r)
  | Offer r =>
      if zlen (writeCh c) <? capacity then Some (c <| writeCh := writeCh c ++ [r] |> <| accepted := accepted c ++ [r] |>, Queued)
      else Some (c, Uncount)
  | Uncount => Some (c <| pending := pending c - 1 |>, Refused)
  | Write =>
      if done c && b then Some (c, Stopped) else
      match writeCh c with
      | r :: q => Some (c <| writeCh := q |>, Writing r)
      | [] => if done c then Some (c, Stopped) else None
      end
  | Writing r => Some (c <| socket := if hung c then socket c else writeOne (socket c) r |> <| sent := sent c ++ [r] |>, Wrote)
  | Wrote => Some (c <| pending := pending c - 1 |>, Write)
  | CloseAfterFlush => Some (c, if closed c then Close else Wait)
  | Wait => Some (c, if (0 <? pending c) && negb b then Wait else Close)
  | AwaitFlush => Some (c, if 0 <? pending c then if b then TimedOut else AwaitFlush else Flushed)
  | Close => if closed c then Some (c, Closed) else Some (c <| closed := true |>, CloseDone)
  | CloseDone => if done c then Some (c, Panicked) else Some (c <| done := true |>, HangUp)
  | HangUp => Some (c <| hung := true |>, Notify)
  | Notify => Some (c <| notified := notified c + 1 |>, Closed)
  | SetActive => Some (c <| closed := false |>, Activated)
  | Queued | Refused | Stopped | Flushed | TimedOut | Closed | Activated | Panicked => None
  end.
Definition step (s : conn * list pc) (i : nat) (b : bool) : option (conn * list pc) :=
  let '(c, ts) := s in p ← ts !! i; '(c, p) ← tstep c p b; Some (c, <[i := p]> ts).
Fixpoint run (s : conn * list pc) (schedule : list (nat * bool)) : option (conn * list pc) :=
  match schedule with
  | [] => Some s
  | (i, b) :: schedule => s ← step s i b; run s schedule
  end.

(** A goroutine that has not started, among those that leave a closed connection
    closed. *)
Definition starts (p : pc) : Prop := match p with Enqueue _ | Write | CloseAfterFlush | AwaitFlush | Close => True | _ => False end.

(** ** The invariant *)

(** Who has counted a message that is not in the queue, who writes, who is
    closing. *)
Definition counts (p : pc) : nat := match p with Offer _ | Uncount | Writing _ | Wrote => 1 | _ => 0 end.
Definition writes (p : pc) : nat := match p with Write | Writing _ | Wrote | Stopped => 1 | _ => 0 end.
Definition closing (p : pc) : nat := match p with CloseDone | HangUp | Notify => 1 | _ => 0 end.
Definition hanging (p : pc) : nat := match p with HangUp | Notify => 1 | _ => 0 end.
Definition shutting (p : pc) : nat := match p with CloseDone => 1 | _ => 0 end.
Definition astray (p : pc) : nat := match p with SetActive | Panicked => 1 | _ => 0 end.
Definition holds (p : pc) : list writeReq := match p with Writing r => [r] | _ => [] end.
Definition held (ts : list pc) : list writeReq := flat_map holds ts.
#[local] Notation total f ts := (sum_list_with f ts) (only parsing).

Record queue_ok (s : conn * list pc) : Prop := {
  qo_one : (total writes s.2 <= 1)%nat;
  qo_pending : pending s.1 = zlen (writeCh s.1) + Z.of_nat (total counts s.2);
  qo_bound : zlen (writeCh s.1) <= capacity;
  qo_order : accepted s.1 = sent s.1 ++ held s.2 ++ writeCh s.1;
  qo_socket : hung s.1 = false -> socket s.1 = fold_left writeOne (sent s.1) [];
  qo_close : notified s.1 + Z.of_nat (total closing s.2) = if closed s.1 then 1 else 0;
  qo_notified : 0 <= notified s.1;
  qo_done : done s.1 = true -> closed s.1 = true;
  qo_hanging : (0 < total hanging s.2)%nat -> done s.1 = true;
  qo_hung : hung s.1 = true -> done s.1 = true;
  qo_shutting : done s.1 = true -> total shutting s.2 = 0%nat;
  qo_astray : total astray s.2 = 0%nat }.

Lemma total_insert (f : pc -> nat) ts i p q : ts !! i = Some p -> (total f (<[i := q]> ts) + f p = total f ts + f q)%nat.
Proof.
  revert i. induction ts as [|t ts IH]; intros [|i] H; [done|done| |].
  - injection H as ->. change (f q + total f ts + f p = f p + total f ts + f q)%nat. lia.
  - specialize (IH i H). change (f t + total f (<[i := q]> ts) + f p = f t + total f ts + f q)%nat. lia.
Qed.
Lemma held_other ts i p q : ts !! i = Some p -> holds p = [] -> holds q = [] -> held (<[i := q]> ts) = held ts.
Proof.
  unfold held. revert i. induction ts as [|t ts IH]; intros [|i] H Hp Hq; [done|done| |].
  - injection H as ->. cbn. by rewrite Hp, Hq.
  - change (holds t ++ flat_map holds (<[i := q]> ts) = holds t ++ flat_map holds ts). by rewrite (IH i H Hp Hq).
Qed.
Lemma held_none ts : total writes ts = 0%nat -> held ts = [].
Proof. unfold held. induction ts as [|t ts IH]; cbn; [done|]. intros H. rewrite IH by lia. destruct t; try done; cbn in H; lia. Qed.
Lemma total_some (f : pc -> nat) ts i p : ts !! i = Some p -> (f p <= total f ts)%nat.
Proof.
  revert i. induction ts as [|t ts IH]; intros [|i] H; [done|done| |].
  - injection H as ->. cbn. lia.
  - specialize (IH i H). cbn. lia.
Qed.
Lemma held_one ts i p q : (total writes ts <= 1)%nat -> ts !! i = Some p -> writes p = 1%nat -> held (<[i := q]> ts) = holds q.
Proof.
  revert i. induction ts as [|t ts IH]; intros [|i] H1 Hi Hp; [done|done| |]; change (writes t + total writes ts <= 1)%nat in H1.
  - injection Hi as ->. change (holds q ++ held ts = holds q). rewrite (held_none ts) by lia. apply app_nil_r.
  - change (holds t ++ held (<[i := q]> ts) = holds q). pose proof (total_some writes ts i p Hi). rewrite (IH i) by (done || lia). destruct t; try done. cbn in H1. lia.
Qed.

Lemma queue_step_ok s i b s' : queue_ok s -> step s i b = Some s' -> queue_ok s'.
Proof.
  destruct s as [[cl dn hu wc pe so no ac se] ts]. intros [O1 O2 O3 O4 O5 O6 O7 O8 O9 O10 O11 O12]. cbn [fst snd closed done hung writeCh pending socket notified accepted sent] in *.
  unfold step. destruct (ts !! i) as [p|] eqn:Hi; [|done]. cbn [mbind option_bind].
  destruct (tstep _ p b) as [[c' q]|] eqn:Ht; [|done]. cbn [mbind option_bind]. intros [= <-].
  pose proof (total_insert writes ts i p q Hi) as Tw. pose proof (total_insert counts ts i p q Hi) as Tc. pose proof (total_insert closing ts i p q Hi) as Tl. pose proof (total_some closing ts i p Hi) as Ll.
  pose proof (total_insert hanging ts i p q Hi) as Th. pose proof (total_some hanging ts i p Hi) as Lh.
  pose proof (total_insert shutting ts i p q Hi) as Ts. pose proof (total_some shutting ts i p Hi) as Ls. pose proof (total_insert astray ts i p q Hi) as Ta. pose proof (total_some astray ts i p Hi) as La.
  assert (total shutting ts <= total closing ts)%nat as Lsc by (clear; induction ts as [|t ts IH]; [done|]; change (shutting t + total shutting ts <= closing t + total closing ts)%nat; destruct t; cbn; lia).
  pose proof (held_other ts i p q Hi) as Ho. pose proof (held_one ts i p q O1 Hi) as Hw. pose proof (held_one ts i p p O1 Hi) as Hp. rewrite list_insert_id in Hp by exact Hi.
  destruct p; cbn in Ht;
    repeat match type of Ht with
    | (if ?x then _ else _) = _ => destruct x eqn:?
    | (match ?x with _ => _ end) = _ => destruct x eqn:?
    | Some (_, if ?x then _ else _) = _ => destruct x eqn:?
    end; try done; injection Ht as <- <-; cbn in Tw, Tc, Tl, Ll, Th, Lh, Ts, Ls, Ta, La, Ho, Hw, Hp;
    first [specialize (Hw eq_refl); specialize (Hp eq_refl); clear Ho | specialize (Ho eq_refl); clear Hw Hp].
  all: split; cbn [fst snd closed done hung writeCh pending socket notified accepted sent]; try first [lia|done|exact O5].
  all: try (rewrite ?zlen_app, ?zlen_cons in *; change (zlen (@nil writeReq)) with 0 in *; unfold capacity in *; lia).
  all: try (rewrite Ho, O4; rewrite <- ?app_assoc; done).
  all: try (rewrite Hw; rewrite Hp in O4; rewrite O4; rewrite <- ?app_assoc; done).
  all: try (intros _; first [destruct cl; [done|lia]|apply O9; lia]).
  all: try (intros Hd; specialize (O11 Hd); lia).
  all: try (intros Hd; specialize (O8 Hd); destruct cl; [lia|done]).
  all: try (intros _; destruct cl; lia).
  all: try (intros _; apply O8; lia).
  all: try (intros H; apply O9; lia).
  all: try (intros ->; rewrite fold_left_app; cbn; by rewrite O5).
Qed.
Lemma queue_run_ok schedule : forall s s', queue_ok s -> run s schedule = Some s' -> queue_ok s'.
Proof.
  induction schedule as [|[i b] schedule IH]; intros s s' O; cbn [run]; [by intros [= <-]|]. destruct (step s i b) as [s1|] eqn:E; [|done]. cbn [mbind option_bind]. apply IH. by eapply queue_step_ok.
Qed.
Lemma start_total (f : pc -> nat) ts : Forall starts ts -> (forall p, starts p -> f p = 0%nat) -> total f ts = 0%nat.
Proof. intros H Hf. induction H as [|p ts Hp _ IH]; [done|]. cbn. by rewrite (Hf p Hp), IH. Qed.
Lemma New_ok ts : Forall starts ts -> (total writes ts <= 1)%nat -> queue_ok (New, ts).
Proof.
  intros H H1. split; cbn [fst snd]; try done.
  - rewrite (start_total counts ts H); [done|by intros []].
  - rewrite app_nil_r. symmetry. change (held ts = []). clear H1. induction H as [|p ts Hp _ IH]; [done|]. change (holds p ++ held ts = []). rewrite IH. by destruct p.
  - rewrite (start_total closing ts H); [done|by intros []].
  - rewrite (start_total hanging ts H); [lia|by intros []].
  - apply (start_total astray ts H). by intros [].
Qed.
Lemma counted_nonneg s : queue_ok s -> 0 <= pending s.1.
Proof. intros O. rewrite (qo_pending _ O). pose proof (zlen_nonneg (writeCh s.1)). lia. Qed.
Lemma counted_none s : queue_ok s -> pending s.1 = 0 -> writeCh s.1 = [] /\ held s.2 = [].
Proof.
  intros O H. rewrite (qo_pending _ O) in H. pose proof (zlen_nonneg (writeCh s.1)) as Hn. split.
  - apply length_zero_iff_nil. unfold zlen in *. lia.
  - assert (total counts s.2 = 0%nat) as Hc by lia. clear - Hc. induction s.2 as [|p ts IH]; [done|]. change (counts p + total counts ts = 0)%nat in Hc. change (holds p ++ held ts = []). rewrite IH by lia. by destruct p.
Qed.

(** C27: what is accepted is written, in order, and a wait for it is not in vain.
    However the goroutines that send, write, wait and close interleave, the
    queue holds at most 64 messages, what was accepted is what was written, the
    message being written and the queue, in the order of acceptance, and the
    bytes on an open socket are those messages and nothing else. The counter
    that CloseAfterFlush and AwaitFlush wait for is never negative, and when it
    is zero every accepted message has been written. The connection is closed
    and its end reported at most once, and no channel is closed twice, as long
    as nobody activates the connection. *)
Theorem conn_queue_sound ts0 schedule c ts :
  Forall starts ts0 -> (total writes ts0 <= 1)%nat -> run (New, ts0) schedule = Some (c, ts) ->
  zlen (writeCh c) <= capacity /\
  accepted c = sent c ++ held ts ++ writeCh c /\ (length (held ts) <= 1)%nat /\
  (hung c = false -> socket c = fold_left writeOne (sent c) []) /\
  0 <= pending c /\ (pending c = 0 -> sent c = accepted c) /\
  0 <= notified c <= 1 /\ (hung c = true -> done c = true) /\ (done c = true -> closed c = true) /\ Panicked ∉ ts.
Proof.
  intros H H1 Hr. pose proof (queue_run_ok _ _ _ (New_ok ts0 H H1) Hr) as O. split; [apply O|]. split; [apply O|]. split; [|split; [apply O|split; [by apply counted_nonneg in O|split; [|split; [|split; [apply O|split; [apply O|]]]]]]].
  - pose proof (qo_one _ O) as Hw. cbn [snd] in Hw. clear - Hw. induction ts as [|p ts IH]; [cbn; lia|]. change (writes p + total writes ts <= 1)%nat in Hw. change (length (holds p ++ held ts) <= 1)%nat. rewrite length_app.
    destruct (total writes ts) as [|n] eqn:E; [|destruct p; cbn in *; lia]. rewrite (held_none ts E). destruct p; cbn; lia.
  - intros Hp. destruct (counted_none _ O Hp) as [Hq Hh]. pose proof (qo_order _ O) as Ho. cbn [fst snd] in *. by rewrite Ho, Hq, Hh, !app_nil_r.
  - pose proof (qo_close _ O). pose proof (qo_notified _ O). cbn [fst] in *. destruct (closed c); lia.
  - intros [i Hi]%list_elem_of_lookup. pose proof (total_some astray ts i Panicked Hi) as Hp. pose proof (qo_astray _ O) as Ha. cbn [fst snd] in *. cbn in Hp. lia.
Qed.

(** ** The writer gets there *)

(** Writing one message takes the writer three steps. *)
Lemma write_one c ts i r q : ts !! i = Some Write -> done c = false -> writeCh c = r :: q ->
  exists c', run (c, ts) [(i, false); (i, false); (i, false)] = Some (c', ts) /\ done c' = false /\ writeCh c' = q /\ pending c' = pending c - 1 /\ accepted c' = accepted c.
Proof.
  intros Hi Hd Hq. unfold run, step. rewrite Hi. cbn [mbind option_bind tstep]. rewrite Hd, Hq. cbn [andb mbind option_bind].
  rewrite list_lookup_insert_eq by (by eapply lookup_lt_Some). cbn [mbind option_bind tstep]. rewrite list_insert_insert_eq, list_lookup_insert_eq by (by eapply lookup_lt_Some). cbn [mbind option_bind tstep].
  rewrite list_insert_insert_eq, list_insert_id by done. eexists. split; [reflexivity|]. done.
Qed.
(** Nothing keeps the writer from the queue. While the connection is open,
    the writer, left to itself, has written everything that was accepted after
    three steps for each message of the queue, and the counter then is the
    number of those who are about to queue a message. *)
Theorem conn_drains n : forall c ts i, queue_ok (c, ts) -> ts !! i = Some Write -> done c = false -> length (writeCh c) = n ->
  exists schedule c', length schedule = (3 * n)%nat /\ run (c, ts) schedule = Some (c', ts) /\
    writeCh c' = [] /\ sent c' = accepted c /\ pending c' = Z.of_nat (total counts ts).
Proof.
  induction n as [|n IH]; intros c ts i O Hi Hd Hn.
  - exists [], c. apply length_zero_iff_nil in Hn. pose proof (qo_order _ O) as Ho. pose proof (qo_pending _ O) as Hp. cbn [fst snd] in *. rewrite Hn in *. split; [done|]. split; [done|]. split; [done|]. split; [|done].
    rewrite Ho. pose proof (held_one ts i Write Write (qo_one _ O) Hi eq_refl) as Hh. rewrite list_insert_id in Hh by done. by rewrite Hh, !app_nil_r.
  - destruct (writeCh c) as [|r q] eqn:Hq; [done|]. destruct (write_one c ts i r q Hi Hd Hq) as (c1 & R1 & D1 & Q1 & P1 & A1). injection Hn as Hn.
    pose proof (queue_run_ok _ _ _ O R1) as O1. destruct (IH c1 ts i O1 Hi D1 ltac:(by rewrite Q1)) as (sch & c' & L & R & W & S & P).
    exists ([(i, false); (i, false); (i, false)] ++ sch), c'. split; [rewrite length_app, L; cbn; lia|]. split; [|split; [done|split; [congruence|done]]].
    revert R1 R. generalize [(i, false); (i, false); (i, false)]. generalize (c, ts). clear. intros s l. revert s. induction l as [|[j b] l IH]; intros s; cbn [run app]; [by intros [= ->]|].
    destruct (step s j b) as [s1|]; [|done]. cbn [mbind option_bind]. apply IH.
Qed.

(** ** A last word *)

Definition bye : writeReq := WriteRaw_req MessageUDPTunnel [1; 2; 3].
Definition hello : writeReq := WriteMessage_req MessagePing None.
(** A sender, the writer and somebody who kicks the client. *)
Definition three : list pc := [Enqueue hello; Enqueue bye; Write; CloseAfterFlush].
Definition kicked : list (nat * bool) :=
  [(0, false); (0, false); (1, false); (0, false); (1, false); (3, false); (1, false); (2, false); (3, false); (2, false); (2, false); (2, false); (2, false); (3, false); (2, false); (3, false); (3, false); (3, false); (3, false); (3, false); (2, true)]%nat.
Example said_before_closed : (fun s => (socket s.1, notified s.1, hung s.1, s.2)) <$> run (New, three) kicked =
  Some (be16 MessagePing ++ be32 0 ++ be16 MessageUDPTunnel ++ be32 3 ++ [1; 2; 3], 1, true, [Queued; Queued; Stopped; Closed]).
Proof. vm_compute. reflexivity. Qed.

(** [SetActive] does not look at the state. When a connection is closed while
    its login is being completed, it counts as open again, and the next [Close],
    the one at the end of the read loop, closes [done] a second time. *)
Example activated_while_closing : (fun s => s.2) <$> run (New, [Close; SetActive; Close]) [(0, false); (1, false); (2, false); (0, false); (2, false)]%nat = Some [HangUp; Activated; Panicked].
Proof. vm_compute. reflexivity. Qed.
Definition kicked_end : conn * list pc := default (New, []) (run (New, three) kicked).
Lemma conn_queue_sound_witness :
  Forall starts three /\ (total writes three <= 1)%nat /\ run (New, three) kicked = Some (kicked_end.1, kicked_end.2) /\
  zlen (writeCh kicked_end.1) <= capacity /\
  accepted kicked_end.1 = sent kicked_end.1 ++ held kicked_end.2 ++ writeCh kicked_end.1 /\ (length (held kicked_end.2) <= 1)%nat /\
  (hung kicked_end.1 = false -> socket kicked_end.1 = fold_left writeOne (sent kicked_end.1) []) /\
  0 <= pending kicked_end.1 /\ (pending kicked_end.1 = 0 -> sent kicked_end.1 = accepted kicked_end.1) /\
  0 <= notified kicked_end.1 <= 1 /\ (hung kicked_end.1 = true -> done kicked_end.1 = true) /\ (done kicked_end.1 = true -> closed kicked_end.1 = true) /\ Panicked ∉ kicked_end.2.
Proof.
  assert (Forall starts three) as H by (repeat constructor).
  assert (total writes three <= 1)%nat as H1 by (cbn; lia).
  assert (run (New, three) kicked = Some (kicked_end.1, kicked_end.2)) as Hr by (vm_compute; reflexivity).
  split; [exact H|]. split; [exact H1|]. split; [exact Hr|]. exact (conn_queue_sound three kicked _ _ H H1 Hr).
Defined.
End ConnQueue.
