(* ===== verification/AudioVarint.v ===== *)
(** * The Mumble varint of the voice packets (pkg/mumble/audio/varint.go)

    [DecodeVarint] and [EncodeVarint] on [int64], with the prefix cases in the
    order of the source. *)

From Stdlib Require Import ZArith Lia.
From stdpp Require Import base numbers list.
From S2P Require Import Prelude Wire.
Open Scope Z_scope.

Definition MaxVarintLen : Z := 10.

(** ** Indices and slices with Go's run-time check

    [None] is the panic out of range. An upper bound past the length counts as
    one, although Go would let a slice reach into spare capacity. *)

Definition index (b : bytes) (i : Z) : option Z :=
  if 0 <=? i then b !! Z.to_nat i else None.
(** [b[i:]] *)
Definition slice_from (i : Z) (b : bytes) : option bytes :=
  if (0 <=? i) && (i <=? zlen b) then Some (zdrop i b) else None.
(** [b[i:j]] *)
Definition slice (i j : Z) (b : bytes) : option bytes :=
  if (0 <=? i) && (i <=? j) && (j <=? zlen b) then Some (ztake (j - i) (zdrop i b)) else None.
(** [binary.LittleEndian.Uint32], [BigEndian.Uint32] and [BigEndian.Uint64] on
    a buffer that may be too short. *)
Definition le_uint32 (b : bytes) : option Z := if 4 <=? zlen b then Some (le32_read b) else None.
Definition be_uint32 (b : bytes) : option Z := if 4 <=? zlen b then Some (be32_read b) else None.
Definition be_uint64 (b : bytes) : option Z := if 8 <=? zlen b then Some (be64_read b) else None.

(** The value and the number of bytes read; zero bytes on error; [None] is a
    panic. The match is the source's [len(b) == 0] and [b[0]]. *)
Fixpoint DecodeVarint (b : bytes) : option (Z * Z) :=
  match b with
  | [] => Some (0, 0)
  | b0 :: tail =>
      if Z.land b0 0x80 =? 0 then Some (b0, 1)
      else if (Z.land b0 0xC0 =? 0x80) && (2 <=? zlen b) then
        b1 ← index b 1;
        Some (Z.lor (Z.shiftl (Z.land b0 0x3F) 8) b1, 2)
      else if (Z.land b0 0xE0 =? 0xC0) && (3 <=? zlen b) then
        b1 ← index b 1; b2 ← index b 2;
        Some (Z.lor (Z.lor (Z.shiftl (Z.land b0 0x1F) 16) (Z.shiftl b1 8)) b2, 3)
      else if (Z.land b0 0xF0 =? 0xE0) && (4 <=? zlen b) then
        b1 ← index b 1; b2 ← index b 2; b3 ← index b 3;
        Some (Z.lor (Z.lor (Z.lor (Z.shiftl (Z.land b0 0xF) 24) (Z.shiftl b1 16))
                  (Z.shiftl b2 8)) b3, 4)
      else if (Z.land b0 0xFC =? 0xF0) && (5 <=? zlen b) then
        v ← be_uint32 tail; Some (v, 5)
      else if (Z.land b0 0xFC =? 0xF4) && (9 <=? zlen b) then
        v ← be_uint64 tail; Some (i64 v, 9)
      else if Z.land b0 0xFC =? 0xF8 then
        '(v, n) ← DecodeVarint tail;
        Some (if 0 <? n then (i64 (- v), n + 1) else (0, 0))
      else if Z.land b0 0xFC =? 0xFC then Some (Z.lnot (Z.land b0 0x03), 1)
      else Some (0, 0)
  end.

(** The bytes written into a buffer of [cap] bytes; [None] is the Go panic on
    a buffer that is too short for the chosen form. *)
Definition fits (cap : nat) (out : bytes) : option bytes :=
  if Nat.leb (length out) cap then Some out else None.

Fixpoint EncodeVarint (cap : nat) (value : Z) : option bytes :=
  match cap with
  | O => Some []
  | S cap' =>
      if (-4 <=? value) && (value <=? -1) then
        Some [Z.lor 0xFC (u8 (Z.land (Z.lnot value) 0xFF))]
      else if value <? 0 then
        out ← EncodeVarint cap' (i64 (- value)); Some (0xF8 :: out)
      else if value <=? 0x7F then Some [u8 value]
      else if value <=? 0x3FFF then
        fits cap [u8 (Z.lor (Z.land (Z.shiftr value 8) 0x3F) 0x80); u8 (Z.land value 0xFF)]
      else if value <=? 0x1FFFFF then
        fits cap [u8 (Z.lor (Z.land (Z.shiftr value 16) 0x1F) 0xC0);
                  u8 (Z.land (Z.shiftr value 8) 0xFF); u8 (Z.land value 0xFF)]
      else if value <=? 0xFFFFFFF then
        fits cap [u8 (Z.lor (Z.land (Z.shiftr value 24) 0xF) 0xE0);
                  u8 (Z.land (Z.shiftr value 16) 0xFF);
                  u8 (Z.land (Z.shiftr value 8) 0xFF); u8 (Z.land value 0xFF)]
      else if value <=? 2 ^ 31 - 1 then fits cap (0xF0 :: be32 (u32 value))
      else fits cap (0xF4 :: be64 (u64 value))
  end.

(** ** Lemmas *)

Lemma slice_from_ok i b : 0 <= i <= zlen b -> slice_from i b = Some (zdrop i b).
Proof.
  intros H. unfold slice_from. destruct (Z.leb_spec 0 i); [|lia]. by destruct (Z.leb_spec i (zlen b)); [|lia].
Qed.
Lemma slice_from_app l1 l2 : slice_from (zlen l1) (l1 ++ l2) = Some l2.
Proof.
  pose proof (zlen_nonneg l1). pose proof (zlen_nonneg l2).
  rewrite slice_from_ok by (rewrite zlen_app; lia). by rewrite zdrop_app.
Qed.
Lemma slice_from_inv i b b' : slice_from i b = Some b' -> 0 <= i <= zlen b /\ b' = zdrop i b.
Proof.
  unfold slice_from. destruct (Z.leb_spec 0 i), (Z.leb_spec i (zlen b)); cbn; try done.
  intros [= <-]. split; [lia|done].
Qed.
Lemma slice_ok i j b : 0 <= i <= j -> j <= zlen b -> slice i j b = Some (ztake (j - i) (zdrop i b)).
Proof.
  intros H Hj. unfold slice. destruct (Z.leb_spec 0 i); [|lia]. destruct (Z.leb_spec i j); [|lia].
  by destruct (Z.leb_spec j (zlen b)); [|lia].
Qed.
Lemma slice_to_app l1 l2 : slice 0 (zlen l1) (l1 ++ l2) = Some l1.
Proof.
  pose proof (zlen_nonneg l1). pose proof (zlen_nonneg l2).
  rewrite slice_ok by (rewrite ?zlen_app; lia). by rewrite zdrop_0, Z.sub_0_r, ztake_app.
Qed.
Lemma index_0 x l : index (x :: l) 0 = Some x. Proof. done. Qed.
Lemma slice_from_1 x l : slice_from 1 (x :: l) = Some l.
Proof. change 1 with (zlen [x]). apply (slice_from_app [x]). Qed.
Lemma zlen_cons_nz {A} (x : A) l : (zlen (x :: l) =? 0) = false.
Proof. rewrite zlen_cons. pose proof (zlen_nonneg l). by apply Z.eqb_neq; lia. Qed.
Lemma zlen_cons_pos {A} (x : A) l : (zlen (x :: l) <? 1) = false.
Proof. rewrite zlen_cons. pose proof (zlen_nonneg l). by apply Z.ltb_ge; lia. Qed.
Lemma le_uint32_ok b : 4 <= zlen b -> le_uint32 b = Some (le32_read b).
Proof. intros H. unfold le_uint32. by apply Z.leb_le in H as ->. Qed.
Lemma be_uint32_ok b : 4 <= zlen b -> be_uint32 b = Some (be32_read b).
Proof. intros H. unfold be_uint32. by apply Z.leb_le in H as ->. Qed.
Lemma be_uint64_ok b : 8 <= zlen b -> be_uint64 b = Some (be64_read b).
Proof. intros H. unfold be_uint64. by apply Z.leb_le in H as ->. Qed.
Lemma index_ok b i : bytes_ok b -> 0 <= i < zlen b -> exists x, index b i = Some x /\ is_u8 x.
Proof.
  intros Hb Hi. unfold index. destruct (Z.leb_spec 0 i); [|lia].
  destruct (lookup_lt_is_Some_2 b (Z.to_nat i)) as [x Hx]; [unfold zlen in Hi; lia|].
  exists x. split; [done|]. by eapply Forall_lookup_1.
Qed.

Lemma land_255 v : u8 (Z.land v 0xFF) = v mod 2 ^ 8.
Proof.
  change 0xFF with (2 ^ 8 - 1). rewrite land_ones_mod by lia. unfold u8. by rewrite Z.mod_mod.
Qed.

(** The first byte of the two-, three- and four-byte forms. *)
Lemma prefix_byte x k p :
  0 <= k <= 6 -> 0 <= x < 2 ^ k -> 0 <= p < 2 ^ 8 -> p mod 2 ^ k = 0 ->
  u8 (Z.lor (Z.land x (2 ^ k - 1)) p) = x + p.
Proof.
  intros Hk Hx Hp Hm. rewrite land_ones_mod, Z.mod_small by lia.
  assert (Z.lor x p = x + p) as E by (apply (lor_add_disjoint x p k); lia).
  rewrite <- E. apply u8_id, lor_u8; [|done].
  split; [lia|]. apply Z.lt_le_trans with (2 ^ k); [lia|]. apply Z.pow_le_mono_r; lia.
Qed.

(** What [DecodeVarint] tests on such a byte, on all of them. *)
Definition form_test (b0 : Z) : bool :=
  (if (128 <=? b0) && (b0 <? 192) then
     negb (Z.land b0 0x80 =? 0) && (Z.land b0 0xC0 =? 0x80) && (Z.land b0 0x3F =? b0 - 128)
   else true) &&
  (if (192 <=? b0) && (b0 <? 224) then
     negb (Z.land b0 0x80 =? 0) && negb (Z.land b0 0xC0 =? 0x80) &&
     (Z.land b0 0xE0 =? 0xC0) && (Z.land b0 0x1F =? b0 - 192)
   else true) &&
  (if (224 <=? b0) && (b0 <? 240) then
     negb (Z.land b0 0x80 =? 0) && negb (Z.land b0 0xC0 =? 0x80) &&
     negb (Z.land b0 0xE0 =? 0xC0) && (Z.land b0 0xF0 =? 0xE0) && (Z.land b0 0xF =? b0 - 224)
   else true) &&
  (if (0 <=? b0) && (b0 <? 128) then Z.land b0 0x80 =? 0 else true).

Lemma form_test_all b0 : is_u8 b0 -> form_test b0 = true.
Proof. apply u8_exhaust. vm_compute. done. Qed.

Ltac use_form b0 :=
  let H := fresh in
  assert (form_test b0 = true) as H by (apply form_test_all; zlia);
  unfold form_test in H; rewrite !andb_true_iff in H;
  repeat match type of H with context [(?a <=? b0) && (b0 <? ?c)] =>
    first [ replace ((a <=? b0) && (b0 <? c)) with true in H
              by (symmetry; apply andb_true_iff; split; [apply Z.leb_le|apply Z.ltb_lt]; lia)
          | replace ((a <=? b0) && (b0 <? c)) with false in H
              by (symmetry; apply andb_false_iff; rewrite Z.leb_gt, Z.ltb_ge; lia) ] end;
  destruct_and? H;
  repeat match goal with
    | H : _ && _ = true |- _ => apply andb_true_iff in H as [? ?]
    | H : negb _ = true |- _ => apply negb_true_iff in H
    | H : (Z.land _ _ =? _ - _) = true |- _ => apply Z.eqb_eq in H
    end.

Lemma decode_2 x y rest : 0 <= x < 64 -> is_u8 y ->
  DecodeVarint (x + 128 :: y :: rest) = Some (x * 2 ^ 8 + y, 2).
Proof.
  intros Hx Hy. use_form (x + 128). cbn [DecodeVarint].
  rewrite !zlen_cons. pose proof (zlen_nonneg rest).
  destruct (Z.leb_spec 2 (1 + (1 + zlen rest))); [|lia].
  repeat match goal with H : (Z.land _ _ =? _) = _ |- _ => rewrite H; clear H end.
  cbn [andb]. match goal with H : Z.land _ 0x3F = _ |- _ => rewrite H end.
  change (index (_ :: y :: rest) 1) with (Some y). cbn [mbind option_bind]. do 2 f_equal.
  rewrite Z.lor_comm, lor_shiftl_add by zlia. lia.
Qed.

Lemma lor_be2 a y : is_u8 y -> Z.lor (Z.shiftl a 8) y = a * 2 ^ 8 + y.
Proof. intros Hy. rewrite Z.lor_comm, lor_shiftl_add by zlia. lia. Qed.

Lemma lor_be3 a y z : is_u8 y -> is_u8 z ->
  Z.lor (Z.lor (Z.shiftl a 16) (Z.shiftl y 8)) z = a * 2 ^ 16 + y * 2 ^ 8 + z.
Proof.
  intros Hy Hz. change 16 with (8 + 8) at 1. rewrite <- Z.shiftl_shiftl, <- Z.shiftl_lor by lia.
  rewrite lor_be2, lor_be2 by done. lia.
Qed.

Lemma lor_be4 a x y z : is_u8 x -> is_u8 y -> is_u8 z ->
  Z.lor (Z.lor (Z.lor (Z.shiftl a 24) (Z.shiftl x 16)) (Z.shiftl y 8)) z =
    a * 2 ^ 24 + x * 2 ^ 16 + y * 2 ^ 8 + z.
Proof.
  intros Hx Hy Hz. change 24 with (16 + 8) at 1. change 16 with (8 + 8) at 2.
  rewrite <- !Z.shiftl_shiftl, <- !Z.shiftl_lor by lia.
  rewrite lor_be3, lor_be2 by done. lia.
Qed.

Lemma decode_3 x y z rest : 0 <= x < 32 -> is_u8 y -> is_u8 z ->
  DecodeVarint (x + 192 :: y :: z :: rest) = Some (x * 2 ^ 16 + y * 2 ^ 8 + z, 3).
Proof.
  intros Hx Hy Hz. use_form (x + 192). cbn [DecodeVarint].
  rewrite !zlen_cons. pose proof (zlen_nonneg rest).
  destruct (Z.leb_spec 3 (1 + (1 + (1 + zlen rest)))); [|lia].
  repeat match goal with H : (Z.land _ _ =? _) = _ |- _ => rewrite H; clear H end.
  cbn [andb]. match goal with H : Z.land _ 0x1F = _ |- _ => rewrite H end.
  change (index (_ :: y :: z :: rest) 1) with (Some y). change (index (_ :: y :: z :: rest) 2) with (Some z).
  cbn [mbind option_bind]. do 2 f_equal. rewrite lor_be3 by done. lia.
Qed.

Lemma decode_4 w x y z rest : 0 <= w < 16 -> is_u8 x -> is_u8 y -> is_u8 z ->
  DecodeVarint (w + 224 :: x :: y :: z :: rest) =
    Some (w * 2 ^ 24 + x * 2 ^ 16 + y * 2 ^ 8 + z, 4).
Proof.
  intros Hw Hx Hy Hz. use_form (w + 224). cbn [DecodeVarint].
  rewrite !zlen_cons. pose proof (zlen_nonneg rest).
  destruct (Z.leb_spec 4 (1 + (1 + (1 + (1 + zlen rest))))); [|lia].
  repeat match goal with H : (Z.land _ _ =? _) = _ |- _ => rewrite H; clear H end.
  cbn [andb]. match goal with H : Z.land _ 0xF = _ |- _ => rewrite H end.
  change (index (_ :: x :: y :: z :: rest) 1) with (Some x).
  change (index (_ :: x :: y :: z :: rest) 2) with (Some y).
  change (index (_ :: x :: y :: z :: rest) 3) with (Some z).
  cbn [mbind option_bind]. do 2 f_equal. rewrite lor_be4 by done. lia.
Qed.

(** The numbers the source splits into bytes. *)
Lemma split_bytes_2 v : v / 2 ^ 8 * 2 ^ 8 + v mod 2 ^ 8 = v.
Proof. rewrite (Z.div_mod v (2 ^ 8)) at 3 by lia. lia. Qed.

Lemma shiftr_byte v k : 0 <= k -> u8 (Z.land (Z.shiftr v k) 0xFF) = (v / 2 ^ k) mod 2 ^ 8.
Proof. intros. by rewrite land_255, Z.shiftr_div_pow2. Qed.

Lemma shiftr_top v k j mask p : mask = 2 ^ j - 1 -> 0 <= k -> 0 <= j <= 6 -> 0 <= v < 2 ^ (k + j) ->
  0 <= p < 2 ^ 8 -> p mod 2 ^ j = 0 ->
  u8 (Z.lor (Z.land (Z.shiftr v k) mask) p) = v / 2 ^ k + p.
Proof.
  intros -> Hk Hj Hv Hp Hm. rewrite Z.shiftr_div_pow2 by lia. apply prefix_byte; [lia| |lia|done].
  split; [apply Z.div_pos; lia|]. apply Z.div_lt_upper_bound; [lia|].
  rewrite <- Z.pow_add_r by lia. lia.
Qed.

Lemma div_top v k j : 0 <= k -> 0 <= j -> 0 <= v < 2 ^ (k + j) -> 0 <= v / 2 ^ k < 2 ^ j.
Proof.
  intros. split; [apply Z.div_pos; lia|]. apply Z.div_lt_upper_bound; [lia|].
  rewrite <- Z.pow_add_r by lia. lia.
Qed.

Lemma fits_ok cap out : (length out <= cap)%nat -> fits cap out = Some out.
Proof. intros H. unfold fits. by apply Nat.leb_le in H as ->. Qed.

(** A non-negative value, in any buffer of nine bytes or more. *)
Lemma encode_nonneg cap v rest : (9 <= cap)%nat -> 0 <= v < 2 ^ 63 ->
  exists out, EncodeVarint cap v = Some out /\ bytes_ok out /\ 1 <= zlen out <= 9 /\
    hd 0 out < 0xf8 /\ DecodeVarint (out ++ rest) = Some (v, zlen out).
Proof.
  intros Hcap Hv. destruct cap as [|cap]; [lia|]. cbn [EncodeVarint].
  destruct (Z.leb_spec v (-1)); [lia|]. rewrite andb_false_r.
  destruct (Z.ltb_spec v 0); [lia|].
  pose proof (Z.mod_pos_bound v (2 ^ 8)). pose proof (Z.mod_pos_bound (v / 2 ^ 8) (2 ^ 8)).
  pose proof (Z.mod_pos_bound (v / 2 ^ 16) (2 ^ 8)).
  assert (v / 2 ^ 16 = v / 2 ^ 8 / 2 ^ 8) as E16 by (rewrite Z.div_div by lia; done).
  assert (v / 2 ^ 24 = v / 2 ^ 16 / 2 ^ 8) as E24 by (rewrite Z.div_div by lia; done).
  pose proof (split_bytes_2 v). pose proof (split_bytes_2 (v / 2 ^ 8)).
  pose proof (split_bytes_2 (v / 2 ^ 16)).
  destruct (Z.leb_spec v 0x7F) as [|Hb1].
  { exists [u8 v]. rewrite u8_id by zlia. use_form v. split; [done|].
    split; [repeat constructor; zlia|]. split; [done|]. split; [cbn; zlia|].
    cbn [app DecodeVarint].
    match goal with H : (Z.land v 128 =? 0) = _ |- _ => by rewrite H end. }
  destruct (Z.leb_spec v 0x3FFF) as [|Hb2].
  { eexists. rewrite fits_ok by (cbn; lia). split; [done|].
    rewrite (shiftr_top v 8 6 0x3F 0x80), land_255 by (lia || done).
    pose proof (div_top v 8 6). split; [repeat constructor; zlia|]. split; [done|]. split; [cbn; zlia|].
    cbn [app]. rewrite decode_2 by zlia. do 2 f_equal. lia. }
  destruct (Z.leb_spec v 0x1FFFFF) as [|Hb3].
  { eexists. rewrite fits_ok by (cbn; lia). split; [done|].
    rewrite (shiftr_top v 16 5 0x1F 0xC0), (shiftr_byte v 8), land_255 by (lia || done).
    pose proof (div_top v 16 5). split; [repeat constructor; zlia|]. split; [done|]. split; [cbn; zlia|].
    cbn [app]. rewrite decode_3 by zlia. do 2 f_equal. lia. }
  destruct (Z.leb_spec v 0xFFFFFFF) as [|Hb4].
  { eexists. rewrite fits_ok by (cbn; lia). split; [done|].
    rewrite (shiftr_top v 24 4 0xF 0xE0), (shiftr_byte v 16), (shiftr_byte v 8), land_255 by (lia || done).
    pose proof (div_top v 24 4). split; [repeat constructor; zlia|]. split; [done|]. split; [cbn; zlia|].
    cbn [app]. rewrite decode_4 by zlia. do 2 f_equal. lia. }
  destruct (Z.leb_spec v (2 ^ 31 - 1)) as [|Hb5].
  { eexists. rewrite fits_ok by (cbn; lia). split; [done|].
    split; [repeat constructor; apply u8_range || zlia|]. split; [done|]. split; [done|].
    rewrite u32_id by zlia. cbn [app DecodeVarint].
    rewrite be_uint32_ok, be32_back by (rewrite ?zlen_app; pose proof (zlen_nonneg rest); change (zlen (be32 v)) with 4; zlia).
    rewrite zlen_cons, zlen_app. pose proof (zlen_nonneg rest). change (zlen (be32 v)) with 4.
    destruct (Z.leb_spec 5 (1 + (4 + zlen rest))); [|lia]. done. }
  eexists. rewrite fits_ok by (cbn; lia). split; [done|].
  split; [repeat constructor; apply u8_range || zlia|]. split; [done|]. split; [done|].
  rewrite u64_id by zlia. cbn [app DecodeVarint].
  rewrite be_uint64_ok, be64_back by (rewrite ?zlen_app; pose proof (zlen_nonneg rest); change (zlen (be64 v)) with 8; zlia).
  rewrite zlen_cons, zlen_app. pose proof (zlen_nonneg rest). change (zlen (be64 v)) with 8.
  destruct (Z.leb_spec 9 (1 + (8 + zlen rest))); [|lia].
  cbn [mbind option_bind]. rewrite i64_id by zlia. done.
Qed.

(** The one-byte form of -4..-1. *)
Lemma encode_small_neg v rest : -4 <= v <= -1 ->
  DecodeVarint (Z.lor 0xFC (u8 (Z.land (Z.lnot v) 0xFF)) :: rest) = Some (v, 1).
Proof.
  intros Hv. assert (v = -4 \/ v = -3 \/ v = -2 \/ v = -1) as Hc by lia.
  destruct Hc as [->|[->|[->| ->]]]; vm_compute; reflexivity.
Qed.

Lemma EncodeVarint_neg cap v : v < -4 ->
  EncodeVarint (S cap) v = (out ← EncodeVarint cap (i64 (- v)); Some (0xF8 :: out)).
Proof.
  intros Hv. cbn [EncodeVarint]. destruct (Z.leb_spec (-4) v); [lia|]. cbn [andb].
  destruct (Z.ltb_spec v 0); [done|lia].
Qed.

(** The varint codec is exact on every [int64] but the smallest: the ten
    bytes the callers provide are enough, the encoder never runs past them,
    and the decoder returns the value and the length, whatever follows. *)
Theorem varint_roundtrip (v : Z) (rest : bytes) :
  is_i64 v -> v <> - 2 ^ 63 ->
  exists out, EncodeVarint (Z.to_nat MaxVarintLen) v = Some out /\ bytes_ok out /\
    1 <= zlen out <= MaxVarintLen /\ DecodeVarint (out ++ rest) = Some (v, zlen out).
Proof.
  intros Hv Hm. change (Z.to_nat MaxVarintLen) with 10%nat. unfold MaxVarintLen.
  destruct (decide (0 <= v)) as [Hp|Hn].
  { destruct (encode_nonneg 10 v rest) as (out & ?&?&?&_&?); [lia|zlia|].
    exists out. repeat split; try done; lia. }
  destruct (decide (-4 <= v)) as [Hs|Hs].
  - cbn [EncodeVarint]. destruct (Z.leb_spec (-4) v); [|lia]. destruct (Z.leb_spec v (-1)); [|lia].
    cbn [andb]. eexists. split; [done|]. split.
    { repeat constructor; apply lor_u8; auto with mumble; zlia. }
    split; [done|]. cbn [app]. rewrite encode_small_neg by lia. done.
  - rewrite EncodeVarint_neg, i64_id by zlia.
    destruct (encode_nonneg 9 (- v) rest) as (out & -> & Hok & Hl & _ & Hd); [lia|zlia|].
    exists (0xF8 :: out). split; [done|]. split; [by constructor; [zlia|]|].
    rewrite zlen_cons. split; [lia|].
    change (DecodeVarint ((0xF8 :: out) ++ rest)) with
      ('(v, n) ← DecodeVarint (out ++ rest);
       Some (if 0 <? n then (i64 (- v), n + 1) else (0, 0))).
    rewrite Hd. cbn [mbind option_bind]. destruct (Z.ltb_spec 0 (zlen out)); [|lia].
    rewrite Z.opp_involutive, i64_id by done. do 2 f_equal. lia.
Qed.

Lemma varint_roundtrip_witness :
  is_i64 (-300) /\ -300 <> - 2 ^ 63 /\
  exists out, EncodeVarint (Z.to_nat MaxVarintLen) (-300) = Some out /\ bytes_ok out /\
    1 <= zlen out <= MaxVarintLen /\ DecodeVarint (out ++ [1; 2]) = Some (-300, zlen out).
Proof. split; [zlia|]. split; [lia|]. apply varint_roundtrip; [zlia|lia]. Defined.

(** The exception. The smallest [int64] is its own negation, so the encoder
    recurses until the buffer is full of the negative prefix, and the decoder
    rejects what it wrote. *)
Theorem varint_min_int64 :
  EncodeVarint (Z.to_nat MaxVarintLen) (- 2 ^ 63) = Some (replicate 10 0xF8) /\
  DecodeVarint (replicate 10 0xF8) = Some (0, 0).
Proof. split; vm_compute; reflexivity. Qed.

Lemma u32_i64 z : is_u32 z -> is_i64 z.
Proof. zlia. Qed.

Lemma be32_read_range b : bytes_ok b -> is_u32 (be32_read b).
Proof.
  intros Hok. unfold be32_read. repeat case_match; try (subst; split; lia).
  unfold bytes_ok in Hok. subst. decompose_Forall_hyps.
  match goal with |- is_u32 (Z.lor ?z (Z.lor (Z.shiftl ?y 8) (Z.lor (Z.shiftl ?x 16) (Z.shiftl ?w 24)))) =>
    replace (Z.lor z (Z.lor (Z.shiftl y 8) (Z.lor (Z.shiftl x 16) (Z.shiftl w 24))))
      with (Z.lor (Z.lor (Z.lor (Z.shiftl w 24) (Z.shiftl x 16)) (Z.shiftl y 8)) z)
      by (rewrite !(Z.lor_comm _ z), !(Z.lor_comm _ (Z.shiftl y 8)), !(Z.lor_comm _ (Z.shiftl x 16)); done);
    rewrite lor_be4 by done; zlia
  end.
Qed.

(** On any input the decoder returns without a panic, consumes no more than it
    was given, and the value it returns is an [int64]. *)
Theorem DecodeVarint_bounds (b : bytes) :
  bytes_ok b -> exists v n, DecodeVarint b = Some (v, n) /\ 0 <= n <= zlen b /\ is_i64 v.
Proof.
  induction b as [|b0 tail IH]; intros Hok; [by exists 0, 0|].
  destruct (proj1 (bytes_ok_cons _ _) Hok) as [Hb0 Htail].
  pose proof (zlen_nonneg tail). pose proof (fun i => index_ok _ i Hok) as Hat.
  cbn [DecodeVarint]. rewrite zlen_cons in *.
  assert (forall m, 0 <= m < 2 ^ 8 -> 0 <= Z.land b0 m < 2 ^ 8) as Hland
    by (intros m Hm; apply (land_u8_l b0 m); [done|lia]).
  case_match; [eexists _, _; split; [done|split; [lia|zlia]]|].
  pose proof (Hland 0x3F ltac:(lia)). pose proof (Hland 0x1F ltac:(lia)).
  pose proof (Hland 0xF ltac:(lia)). pose proof (Hland 0x03 ltac:(lia)).
  case_match; [|case_match; [|case_match; [|case_match; [|case_match; [|case_match]]]]].
  1-3: destruct (Hat 1) as (b1 & -> & ?); [lia|].
  2-3: destruct (Hat 2) as (b2 & -> & ?); [lia|].
  3: destruct (Hat 3) as (b3 & -> & ?); [lia|].
  - eexists _, _. split; [done|]. rewrite lor_be2 by done. split; zlia.
  - eexists _, _. split; [done|]. rewrite lor_be3 by done. split; zlia.
  - eexists _, _. split; [done|]. rewrite lor_be4 by done. split; zlia.
  - rewrite be_uint32_ok by lia. eexists _, _. split; [done|]. split; [zlia|by apply u32_i64, be32_read_range].
  - rewrite be_uint64_ok by lia. eexists _, _. split; [done|]. split; [zlia|apply i64_range].
  - destruct (IH Htail) as (v & n & -> & Hn & _). cbn [mbind option_bind].
    destruct (0 <? n); eexists _, _; (split; [done|]); split; [lia|apply i64_range|lia|zlia].
  - case_match; eexists _, _; (split; [done|]); split; try lia; unfold Z.lnot; zlia.
Qed.

Lemma DecodeVarint_bounds_witness :
  bytes_ok [0xF8; 0x81; 0x2C] /\ DecodeVarint [0xF8; 0x81; 0x2C] = Some (-300, 3) /\
  exists v n, DecodeVarint [0xF8; 0x81; 0x2C] = Some (v, n) /\ 0 <= n <= zlen [0xF8; 0x81; 0x2C] /\ is_i64 v.
Proof.
  assert (bytes_ok [0xF8; 0x81; 0x2C]) as H by (repeat constructor; cbn; lia).
  split; [exact H|]. split; [vm_compute; reflexivity|]. exact (DecodeVarint_bounds _ H).
Defined.
