(* ===== verification/AudioPacket.v ===== *)
(** * Voice packets (pkg/mumble/audio: frame.go, legacy.go, protobuf.go,
    packet.go, ping.go)

    The two wire forms of a voice frame, the strict protobuf field reader with
    its nested groups, and the boundary functions the transports call. A
    [float32] is its 32-bit pattern throughout. *)

From Stdlib Require Import ZArith Lia.
From stdpp Require Import base numbers list.
From S2P Require Import Prelude Wire Fields AudioVarint.
Open Scope Z_scope.

(** [Panic] is the outcome of a Go run-time panic, an index or a slice out of
    range, and of a loop that runs past its fuel; it is not an error value of
    the source. *)
Inductive audio_error := ErrPacketTooShort | ErrInvalidPacket | Panic.

(** The value of an operation with Go's run-time check. *)
Definition or_panic {A} (o : option A) : result audio_error A :=
  match o with Some x => Ok x | None => Err Panic end.

#[export] Instance audio_error_eq_dec : EqDecision audio_error.
Proof. solve_decision. Defined.

(** ** frame.go and codec.go: constants and records *)

Definition WireLegacy : Z := 0.
Definition WireProtobuf : Z := 1.

Definition CodecOpus : Z := 4.

Definition ContextNormal : Z := 0.
Definition ContextShout : Z := 1.
Definition ContextWhisper : Z := 2.
Definition ContextListen : Z := 3.

Definition MaxPacketSize : Z := 1024.
Definition ProtobufAudioType : Z := 0.
Definition MaxUint32 : Z := 2 ^ 32 - 1.
Definition MaxInt64 : Z := 2 ^ 63 - 1.

Record Frame := mkFrame {
  Codec : Z;
  Target : Z;
  SenderSession : Z;
  FrameNumber : Z;
  OpusData : bytes;
  Position : list Z;
  HasPosition : bool;
  IsTerminator : bool }.

#[export] Instance Frame_eta : Eta Frame := fun f =>
  mkFrame (Codec f) (Target f) (SenderSession f) (FrameNumber f) (OpusData f) (Position f)
    (HasPosition f) (IsTerminator f).
#[export] Instance Frame_eq_dec : EqDecision Frame.
Proof. solve_decision. Defined.

(** [Frame{}]. *)
Definition Frame_zero : Frame := mkFrame 0 0 0 0 [] [0; 0; 0] false false.

(** The embedded [Frame] is the field [frame]. *)
Record Delivery := mkDelivery {
  frame : Frame;
  Context : Z;
  VolumeAdjustment : Z }.

#[export] Instance Delivery_eta : Eta Delivery := fun d =>
  mkDelivery (frame d) (Context d) (VolumeAdjustment d).
#[export] Instance Delivery_eq_dec : EqDecision Delivery.
Proof. solve_decision. Defined.

Definition NegotiateWireMode (clientVersion serverVersion : Z) : Z :=
  let modern := Z.lor (Z.shiftl 1 48) (Z.shiftl 5 32) in
  if (modern <=? clientVersion) && (modern <=? serverVersion) then WireProtobuf else WireLegacy.

(** ** legacy.go *)

(** The closure [read] of [decodeLegacy]: the value and the bytes left. *)
Definition legacy_read (b : bytes) : result audio_error (Z * bytes) :=
  if zlen b =? 0 then Err ErrPacketTooShort else
  b0 ← or_panic (index b 0);
  if 0xf8 <=? b0 then Err ErrInvalidPacket else
  '(v, n) ← or_panic (DecodeVarint b);
  if n <=? 0 then Err ErrPacketTooShort else
  b ← or_panic (slice_from n b);
  Ok (u64 v, b).

(** [for i := range f.Position], reading a word at [b[i*4:]]. *)
Definition position_word (b : bytes) (i : Z) : option Z :=
  b ← slice_from (i * 4) b; le_uint32 b.
Definition read_position (b : bytes) : option (list Z) :=
  x ← position_word b 0; y ← position_word b 1; z ← position_word b 2; Some [x; y; z].

(** The part of [decodeLegacy] after the session: sequence, size, payload,
    position. A Go error comes with the frame filled so far. *)
Definition decodeLegacy_body (f : Frame) (b : bytes) : Frame * option audio_error :=
  match legacy_read b with
  | Err e => (f, Some e)
  | Ok (seq, b) =>
    let f := f <| FrameNumber := seq |> in
    match legacy_read b with
    | Err e => (f, Some e)
    | Ok (size, b) =>
      if 0x3fff <? size then (f, Some ErrInvalidPacket) else
      let f := f <| IsTerminator := negb (Z.land size 0x2000 =? 0) |> in
      let size := Z.land size 0x1fff in
      if u64 (zlen b) <? size then (f, Some ErrPacketTooShort) else
      match slice 0 (i64 size) b, slice_from (i64 size) b with
      | Some p, Some b =>
        let f := f <| OpusData := p |> in
        if negb (zlen b =? 0) && negb (zlen b =? 12) then (f, Some ErrInvalidPacket) else
        let f := f <| HasPosition := zlen b =? 12 |> in
        if HasPosition f then
          match read_position b with
          | Some ps => (f <| Position := ps |>, None)
          | None => (f, Some Panic)
          end
        else (f, None)
      | _, _ => (f, Some Panic)
      end
    end
  end.

Definition decodeLegacy (b : bytes) (server : bool) : Frame * option audio_error :=
  let f := Frame_zero in
  if zlen b <? 1 then (f, Some ErrPacketTooShort) else
  if MaxPacketSize <? zlen b then (f, Some ErrInvalidPacket) else
  match index b 0, slice_from 1 b with
  | Some b0, Some rest =>
    let f := f <| Codec := Z.shiftr b0 5 |> in
    let f := f <| Target := Z.land b0 31 |> in
    if negb (Codec f =? CodecOpus) then (f, Some ErrInvalidPacket) else
    if server then
      match legacy_read rest with
      | Err e => (f, Some e)
      | Ok (v, rest) =>
        if MaxUint32 <? v then (f, Some ErrInvalidPacket)
        else decodeLegacy_body (f <| SenderSession := u32 v |>) rest
      end
    else decodeLegacy_body f rest
  | _, _ => (f, Some Panic)
  end.

(** The closure [add] of [encodeLegacy]: the bytes appended. *)
Definition legacy_add (v : Z) : result audio_error bytes :=
  if MaxInt64 <? v then Ok (0xf4 :: be64 v)
  else match EncodeVarint (Z.to_nat MaxVarintLen) (i64 v) with
       | Some out => Ok out
       | None => Err Panic
       end.

Definition encodeLegacy (d : Delivery) (server : bool) : result audio_error bytes :=
  let f := frame d in
  if (0x1fff <? zlen (OpusData f)) || (31 <? Target f) then Err ErrInvalidPacket else
  let header := if server then u8 (Context d) else u8 (Target f) in
  let b := [Z.lor (u8 (Z.shiftl (u8 (Codec f)) 5)) header] in
  b ← (if server then out ← legacy_add (SenderSession f); Ok (b ++ out) else Ok b);
  out ← legacy_add (FrameNumber f);
  let b := b ++ out in
  let size := u64 (zlen (OpusData f)) in
  let size := if IsTerminator f then Z.lor size 0x2000 else size in
  out ← legacy_add size;
  let b := b ++ out in
  let b := b ++ OpusData f in
  Ok (if HasPosition f then b ++ concat (map le32 (Position f)) else b).

(** ** encoding/binary's Uvarint: the value and the bytes read; zero bytes when
    the buffer is too short, a negative count on overflow. *)
Fixpoint uvarint_loop (b : bytes) (i s x : Z) : Z * Z :=
  match b with
  | [] => (0, 0)
  | c :: b =>
      if i =? 10 then (0, - (i + 1)) else
      if c <? 0x80 then
        if (i =? 9) && (1 <? c) then (0, - (i + 1))
        else (Z.lor x (u64 (Z.shiftl c s)), i + 1)
      else uvarint_loop b (i + 1) (s + 7) (Z.lor x (u64 (Z.shiftl (Z.land c 0x7f) s)))
  end.

Definition Uvarint (b : bytes) : Z * Z := uvarint_loop b 0 0 0.

(** ** protobuf.go *)

(** What [consumeField] returns without an error. *)
Record field_item := mkField {
  f_number : Z;
  f_typ : Z;
  f_value : Z;
  f_payload : bytes;
  f_used : Z }.

#[export] Instance field_item_eq_dec : EqDecision field_item.
Proof. solve_decision. Defined.

(** The group case calls back into the reader; [None] is out of fuel, which
    [consume_field_total] excludes for the fuel [consumeField] passes. *)
Fixpoint consume_field (fuel : nat) (b : bytes) (depth : Z)
    : option (result audio_error field_item) :=
  match fuel with
  | O => None
  | S fuel =>
    let '(tag, n) := Uvarint b in
    if (n <=? 0) || (Z.shiftr tag 3 =? 0) || (2 ^ 29 - 1 <? Z.shiftr tag 3)
       || (MaxPacketSize <? depth)
    then Some (Err ErrInvalidPacket) else
    let field := Z.shiftr tag 3 in
    let typ := Z.land tag 7 in
    let used := n in
    match slice_from n b with None => Some (Err Panic) | Some rest =>
    if typ =? 0 then
      let '(value, n) := Uvarint rest in
      if n <=? 0 then Some (Err ErrInvalidPacket)
      else Some (Ok (mkField field typ value [] (used + n)))
    else if (typ =? 1) || (typ =? 5) then
      let n := if typ =? 1 then 8 else 4 in
      if zlen rest <? n then Some (Err ErrInvalidPacket) else
      match slice 0 n rest with
      | None => Some (Err Panic)
      | Some payload => Some (Ok (mkField field typ 0 payload (used + n)))
      end
    else if typ =? 2 then
      let '(size, k) := Uvarint rest in
      if (k <=? 0) || (u64 (zlen rest - k) <? size) then Some (Err ErrInvalidPacket) else
      match slice k (i64 (k + i64 size)) rest with
      | None => Some (Err Panic)
      | Some payload => Some (Ok (mkField field typ 0 payload (i64 (used + i64 (k + i64 size)))))
      end
    else if typ =? 3 then
      match consume_group fuel b field used depth with
      | None => None
      | Some (Err e) => Some (Err e)
      | Some (Ok used) => Some (Ok (mkField field typ 0 [] used))
      end
    else Some (Err ErrInvalidPacket)
    end
  end
with consume_group (fuel : nat) (b : bytes) (field used depth : Z)
    : option (result audio_error Z) :=
  match fuel with
  | O => None
  | S fuel =>
    match slice_from used b with None => Some (Err Panic) | Some rest =>
    let '(end_, k) := Uvarint rest in
    if k <=? 0 then Some (Err ErrInvalidPacket) else
    if Z.land end_ 7 =? 4 then
      if negb (Z.shiftr end_ 3 =? field) then Some (Err ErrInvalidPacket) else Some (Ok (used + k))
    else match consume_field fuel rest (depth + 1) with
         | None => None
         | Some (Err Panic) => Some (Err Panic)
         | Some (Err _) => Some (Err ErrInvalidPacket)
         | Some (Ok it) => consume_group fuel b field (used + f_used it) depth
         end
    end
  end.

Definition consumeField (b : bytes) (depth : Z) : result audio_error field_item :=
  match consume_field (2 * length b + 1) b depth with
  | Some r => r
  | None => Err Panic
  end.

(** The inner loop of field 6, [for len(p) > 0]: each round stores a word in the
    array of three and takes four bytes, so [len(p)] rounds are enough. *)
Fixpoint position_loop (fuel : nat) (p : bytes) (d : Delivery) (positions : nat)
    : Delivery * nat * option audio_error :=
  if zlen p =? 0 then (d, positions, None) else
  match fuel with
  | O => (d, positions, Some Panic)
  | S fuel =>
    if Nat.leb 3 positions then (d, positions, Some ErrInvalidPacket) else
    match le_uint32 p, Position (frame d) !! positions, slice_from 4 p with
    | Some w, Some _, Some p =>
        let f := frame d in
        let f := f <| Position := <[positions := w]> (Position f) |> in
        position_loop fuel p (d <| frame := f |>) (S positions)
    | _, _, _ => (d, positions, Some Panic)
    end
  end.

(** The [switch field] of [decodeProtobuf]. *)
Definition protobuf_field (it : field_item) (d : Delivery) (positions : nat)
    : Delivery * nat * option audio_error :=
  let field := f_number it in
  let typ := f_typ it in
  let v := f_value it in
  let p := f_payload it in
  let f := frame d in
  if (field =? 1) || (field =? 2) || (field =? 3) || (field =? 4) || (field =? 16) then
    if negb (typ =? 0) then (d, positions, Some ErrInvalidPacket) else
    if (field <=? 3) && (MaxUint32 <? v) then (d, positions, Some ErrInvalidPacket) else
    let d :=
      if field =? 1 then
        d <| frame := f <| Target := u32 v |> |> <| Context := ContextNormal |>
      else if field =? 2 then
        d <| frame := f <| Target := 0 |> |> <| Context := u8 v |>
      else if field =? 3 then d <| frame := f <| SenderSession := u32 v |> |>
      else if field =? 4 then d <| frame := f <| FrameNumber := v |> |>
      else d <| frame := f <| IsTerminator := negb (v =? 0) |> |> in
    (d, positions, None)
  else if field =? 5 then
    if negb (typ =? 2) then (d, positions, Some ErrInvalidPacket) else
    (d <| frame := f <| OpusData := p |> |>, positions, None)
  else if field =? 6 then
    if (negb (typ =? 2) && negb (typ =? 5)) || negb (zlen p mod 4 =? 0)
    then (d, positions, Some ErrInvalidPacket)
    else position_loop (length p) p d positions
  else if field =? 7 then
    if negb (typ =? 5) then (d, positions, Some ErrInvalidPacket) else
    match le_uint32 p with
    | None => (d, positions, Some Panic)
    | Some w => (d <| VolumeAdjustment := w |>, positions, None)
    end
  else (d, positions, None).

(** [for b = b[1:]; len(b) > 0;]: every field takes a byte at least, so
    [len(b)] rounds are enough ([protobuf_loop_step]). *)
Fixpoint protobuf_loop (fuel : nat) (b : bytes) (d : Delivery) (positions : nat)
    : Delivery * nat * option audio_error :=
  match b, fuel with
  | [], _ => (d, positions, None)
  | _, O => (d, positions, Some Panic)
  | _, S fuel =>
      match consumeField b 0 with
      | Err e => (d, positions, Some e)
      | Ok it =>
          match slice_from (f_used it) b with
          | None => (d, positions, Some Panic)
          | Some b =>
              match protobuf_field it d positions with
              | (d, positions, Some e) => (d, positions, Some e)
              | (d, positions, None) => protobuf_loop fuel b d positions
              end
          end
      end
  end.

Definition decodeProtobuf (b : bytes) : Delivery * option audio_error :=
  let d := mkDelivery (Frame_zero <| Codec := CodecOpus |>) 0 0 in
  if (zlen b =? 0) || (MaxPacketSize <? zlen b) then (d, Some ErrInvalidPacket) else
  match index b 0, slice_from 1 b with
  | Some b0, Some rest =>
    if negb (b0 =? ProtobufAudioType) then (d, Some ErrInvalidPacket) else
    match protobuf_loop (length rest) rest d 0 with
    | (d, _, Some e) => (d, Some e)
    | (d, positions, None) =>
      if (zlen (OpusData (frame d)) =? 0) || (negb (Nat.eqb positions 0) && negb (Nat.eqb positions 3))
      then (d, Some ErrInvalidPacket)
      else (d <| frame := (frame d) <| HasPosition := Nat.eqb positions 3 |> |>, None)
    end
  | _, _ => (d, Some Panic)
  end.

(** The closure [add] of [encodeProtobuf]. *)
Definition protobuf_add (b : bytes) (field v : Z) : bytes :=
  AppendVarint (AppendTag b field 0) v.

(** The bit pattern of [float32(1)]. *)
Definition f32_one : Z := 0x3F800000.

Definition encodeProtobuf (d : Delivery) (server : bool) : bytes :=
  let f := frame d in
  let b := [ProtobufAudioType] in
  let b := if server then protobuf_add (protobuf_add b 2 (Context d)) 3 (SenderSession f)
           else protobuf_add b 1 (Target f) in
  let b := if negb (FrameNumber f =? 0) then protobuf_add b 4 (FrameNumber f) else b in
  let b := AppendBytes b 5 (OpusData f) in
  let b := if HasPosition f
           then AppendBytes b 6 (fold_left AppendFixed32 (Position f) [])
           else b in
  let b := if server && f32_nonzero (VolumeAdjustment d) && negb (VolumeAdjustment d =? f32_one)
           then AppendFixed32 (AppendTag b 7 5) (VolumeAdjustment d)
           else b in
  if IsTerminator f then protobuf_add b 16 1 else b.

(** ** frame.go: the two boundary functions *)

Definition DecodeClientPacket (mode : Z) (data : bytes) : Frame * option audio_error :=
  if zlen data =? 0 then (Frame_zero, Some ErrPacketTooShort) else
  if MaxPacketSize <? zlen data then (Frame_zero, Some ErrInvalidPacket) else
  let '(f, err) :=
    if mode =? WireLegacy then decodeLegacy data false
    else if mode =? WireProtobuf then
      let '(d, err) := decodeProtobuf data in (frame d, err)
    else (Frame_zero, Some ErrInvalidPacket) in
  let f := f <| SenderSession := 0 |> in
  match err with
  | None =>
      if (31 <? Target f) || negb (Codec f =? CodecOpus) || (zlen (OpusData f) =? 0)
      then (f, Some ErrInvalidPacket) else (f, None)
  | Some _ => (f, err)
  end.

Definition EncodeServerPacket (mode : Z) (d : Delivery) : result audio_error bytes :=
  let f := frame d in
  if negb (Codec f =? CodecOpus) || (zlen (OpusData f) =? 0) || (MaxPacketSize <? zlen (OpusData f))
     || (ContextListen <? Context d)
  then Err ErrInvalidPacket else
  b ← (if mode =? WireLegacy then encodeLegacy d true
       else if mode =? WireProtobuf then Ok (encodeProtobuf d true)
       else Err ErrInvalidPacket);
  if MaxPacketSize <? zlen b then Err ErrInvalidPacket else Ok b.

(** ** packet.go *)

Record ParsedPacket := mkParsed {
  pp_Position : list Z;
  pp_HasPosition : bool;
  pp_Codec : Z;
  pp_Target : Z;
  pp_Sequence : Z;
  pp_PayloadLen : Z;
  pp_IsTerminator : bool;
  pp_Payload : bytes }.

Definition ParsePacket (data : bytes) : result audio_error ParsedPacket :=
  match decodeLegacy data false with
  | (_, Some e) => Err e
  | (f, None) =>
      Ok (mkParsed (Position f) (HasPosition f) (u8 (Codec f)) (u8 (Target f))
            (i64 (FrameNumber f)) (zlen (OpusData f)) (IsTerminator f) (OpusData f))
  end.

(** ** ping.go *)

(** The loop of the protobuf ping: the timestamp and the extended flag. *)
Fixpoint ping_loop (fuel : nat) (b : bytes) (timestamp : Z) (extended : bool)
    : result audio_error (Z * bool) :=
  match b, fuel with
  | [], _ => Ok (timestamp, extended)
  | _, O => Err Panic
  | _, S fuel =>
      it ← consumeField b 0;
      b ← or_panic (slice_from (f_used it) b);
      let field := f_number it in
      if (1 <=? field) && (field <=? 6) && negb (f_typ it =? 0) then Err ErrInvalidPacket else
      let timestamp := if field =? 1 then f_value it else timestamp in
      let extended := if field =? 2 then negb (f_value it =? 0) else extended in
      ping_loop fuel b timestamp extended
  end.

Definition DecodePing (mode : Z) (b : bytes) : result audio_error (Z * bool) :=
  if (zlen b <? 2) || (MaxPacketSize <? zlen b) then Err ErrInvalidPacket else
  b0 ← or_panic (index b 0);
  if mode =? WireLegacy then
    b1 ← or_panic (index b 1);
    if negb (Z.shiftr b0 5 =? 1) || (0xf8 <=? b1) then Err ErrInvalidPacket else
    rest ← or_panic (slice_from 1 b);
    '(v, n) ← or_panic (DecodeVarint rest);
    if negb (n =? zlen b - 1) || (n <=? 0) then Err ErrInvalidPacket
    else Ok (u64 v, false)
  else if mode =? WireProtobuf then
    if negb (b0 =? 1) then Err ErrInvalidPacket else
    rest ← or_panic (slice_from 1 b);
    ping_loop (length rest) rest 0 false
  else Err ErrInvalidPacket.

(** ** Well-formed values: every field at its Go width *)

Definition frame_wf (f : Frame) : Prop :=
  is_u8 (Codec f) /\ is_u32 (Target f) /\ is_u32 (SenderSession f) /\ is_u64 (FrameNumber f) /\
  bytes_ok (OpusData f) /\ length (Position f) = 3%nat /\ Forall is_u32 (Position f).

Definition delivery_wf (d : Delivery) : Prop :=
  frame_wf (frame d) /\ is_u8 (Context d) /\ is_u32 (VolumeAdjustment d).

(** The position a receiver sees: only sent when [HasPosition]. *)
Definition seen_position (f : Frame) : list Z :=
  if HasPosition f then Position f else [0; 0; 0].

(** ** Legacy form *)

Lemma legacy_read_cons b0 b :
  legacy_read (b0 :: b) =
    if 0xf8 <=? b0 then Err ErrInvalidPacket else
    '(v, n) ← or_panic (DecodeVarint (b0 :: b));
    if n <=? 0 then Err ErrPacketTooShort else
    b ← or_panic (slice_from n (b0 :: b)); Ok (u64 v, b).
Proof. unfold legacy_read. by rewrite zlen_cons_nz. Qed.

(** A value in the form the encoder chose is read, and the rest is left. *)
Lemma legacy_read_back out rest v : out <> [] -> hd 0 out < 0xf8 ->
  DecodeVarint (out ++ rest) = Some (v, zlen out) -> legacy_read (out ++ rest) = Ok (u64 v, rest).
Proof.
  intros Hne Hh Hd. destruct out as [|b0 out]; [done|]. cbn [app hd] in *. rewrite legacy_read_cons.
  destruct (Z.leb_spec 0xf8 b0); [lia|]. rewrite Hd. cbn [or_panic mbind result_bind].
  rewrite zlen_cons. pose proof (zlen_nonneg out). destruct (Z.leb_spec (1 + zlen out) 0); [lia|].
  rewrite <- (zlen_cons b0). change (b0 :: out ++ rest) with ((b0 :: out) ++ rest). by rewrite slice_from_app.
Qed.

Lemma legacy_read_add v : is_u64 v ->
  exists out, legacy_add v = Ok out /\ bytes_ok out /\ 1 <= zlen out <= 9 /\
    forall rest, legacy_read (out ++ rest) = Ok (v, rest).
Proof.
  intros Hv. unfold legacy_add, MaxInt64. destruct (Z.ltb_spec (2 ^ 63 - 1) v) as [Hbig|Hsmall].
  - exists (0xf4 :: be64 v). split; [done|].
    split; [constructor; [zlia|]; repeat constructor; apply u8_range|]. split; [done|].
    intros rest. rewrite (legacy_read_back (0xf4 :: be64 v) rest (i64 v)); [by rewrite u64_i64|done|cbn; lia|].
    cbn [app DecodeVarint]. pose proof (zlen_nonneg rest).
    rewrite be_uint64_ok, be64_back by (done || (rewrite zlen_app; change (zlen (be64 v)) with 8; lia)).
    rewrite zlen_cons, zlen_app. change (zlen (be64 v)) with 8.
    destruct (Z.leb_spec 9 (1 + (8 + zlen rest))); [done|lia].
  - change (Z.to_nat MaxVarintLen) with 10%nat. rewrite i64_id by zlia.
    destruct (encode_nonneg 10 v [] ltac:(lia) ltac:(zlia)) as (out & E & Hok & Hl & Hb & _).
    rewrite E. exists out. split; [done|]. split; [done|]. split; [done|]. intros rest.
    destruct (encode_nonneg 10 v rest ltac:(lia) ltac:(zlia)) as (out' & E' & _ & _ & _ & Hd).
    rewrite E in E'. injection E' as <-. rewrite (legacy_read_back out rest v) by
      (done || (intros ->; rewrite zlen_nil in Hl; lia)). by rewrite u64_id by zlia.
Qed.

(** The size word: thirteen bits of length, one terminator bit. *)
Lemma size_word (n : Z) (t : bool) : 0 <= n <= 0x1fff ->
  let size := if t then Z.lor (u64 n) 0x2000 else u64 n in
  0 <= size <= 0x3fff /\ negb (Z.land size 0x2000 =? 0) = t /\ Z.land size 0x1fff = n.
Proof.
  intros Hn. cbn zeta. rewrite u64_id by zlia.
  assert (Z.land n 0x2000 = 0) as H0.
  { apply Z.bits_inj'. intros i Hi. rewrite Z.land_spec, Z.bits_0. change 0x2000 with (2 ^ 13).
    rewrite Z.pow2_bits_eqb by lia. destruct (Z.eqb_spec 13 i) as [<-|]; [|apply andb_false_r].
    rewrite <- (Z.mod_small n (2 ^ 13)) by lia. by rewrite Z.mod_pow2_bits_high by lia. }
  assert (Z.land n 0x1fff = n) as H1
    by (change 0x1fff with (2 ^ 13 - 1); rewrite land_ones_mod, Z.mod_small by lia; done).
  destruct t.
  - rewrite (lor_add_disjoint n 0x2000 13) by (lia || done). split; [lia|].
    rewrite <- (lor_add_disjoint n 0x2000 13) by (lia || done).
    rewrite !Z.land_lor_distr_l, H0, H1. split; [done|]. apply Z.lor_0_r.
  - rewrite H0, H1. split; [lia|done].
Qed.

Lemma le32_concat_len (ps : list Z) : zlen (concat (map le32 ps)) = 4 * zlen ps.
Proof. induction ps as [|p ps IH]; [done|]. cbn [map concat]. autorewrite with mumble_len. change (zlen (le32 p)) with 4. lia. Qed.

Lemma le32_concat_ok (ps : list Z) : bytes_ok (concat (map le32 ps)).
Proof. induction ps as [|p ps IH]; [constructor|]. apply bytes_ok_app; [apply le32_u8|done]. Qed.

Lemma read_position_le32 (ps : list Z) : length ps = 3%nat -> Forall is_u32 ps ->
  read_position (concat (map le32 ps)) = Some ps.
Proof.
  intros Hl Hps. destruct ps as [|x [|y [|z [|]]]]; try done.
  apply Forall_cons_iff in Hps as [Hx Hps]. apply Forall_cons_iff in Hps as [Hy Hps].
  apply Forall_cons_iff in Hps as [Hz _].
  change (read_position (concat (map le32 [x; y; z]))) with (Some
    [ReadFixed32 (le32 x ++ le32 y ++ le32 z); ReadFixed32 (le32 y ++ le32 z); ReadFixed32 (le32 z ++ [])]).
  by rewrite !ReadFixed32_le32.
Qed.

(** Header byte: codec 4 in the top three bits, [t] in the low five. *)
Lemma legacy_header t : 0 <= t <= 31 ->
  let b0 := Z.lor (u8 (Z.shiftl (u8 CodecOpus) 5)) (u8 t) in
  is_u8 b0 /\ Z.shiftr b0 5 = CodecOpus /\ Z.land b0 31 = t.
Proof.
  intros Ht. cbn zeta. rewrite (u8_id t) by zlia.
  change (u8 (Z.shiftl (u8 CodecOpus) 5)) with 128.
  rewrite Z.lor_comm, (lor_add_disjoint t 128 5) by (lia || done). split; [zlia|].
  rewrite Z.shiftr_div_pow2 by lia. change 31 with (2 ^ 5 - 1). rewrite land_ones_mod by lia.
  change 128 with (4 * 2 ^ 5). rewrite Z.div_add, Z.div_small, Z.mod_add, Z.mod_small by lia. done.
Qed.

(** What follows the header in both directions. *)
Definition legacy_tail (f : Frame) (o1 o2 : bytes) : bytes :=
  o1 ++ o2 ++ OpusData f ++ (if HasPosition f then concat (map le32 (Position f)) else []).

Lemma decodeLegacy_body_tail (f g : Frame) o1 o2 :
  frame_wf f -> zlen (OpusData f) <= 0x1fff ->
  legacy_read (o1 ++ o2 ++ OpusData f ++ (if HasPosition f then concat (map le32 (Position f)) else []))
    = Ok (FrameNumber f, o2 ++ OpusData f ++ (if HasPosition f then concat (map le32 (Position f)) else [])) ->
  legacy_read (o2 ++ OpusData f ++ (if HasPosition f then concat (map le32 (Position f)) else []))
    = Ok ((if IsTerminator f then Z.lor (u64 (zlen (OpusData f))) 0x2000 else u64 (zlen (OpusData f))),
          OpusData f ++ (if HasPosition f then concat (map le32 (Position f)) else [])) ->
  Position g = [0; 0; 0] ->
  decodeLegacy_body g (legacy_tail f o1 o2) =
    (mkFrame (Codec g) (Target g) (SenderSession g) (FrameNumber f) (OpusData f)
       (seen_position f) (HasPosition f) (IsTerminator f), None).
Proof.
  intros (_ & _ & _ & _ & _ & Hp & Hps) Hl H1 H2 Hg. unfold decodeLegacy_body, legacy_tail.
  rewrite H1, H2. pose proof (zlen_nonneg (OpusData f)) as Hnn.
  destruct (size_word (zlen (OpusData f)) (IsTerminator f)) as (Hs & Ht & Hn); [lia|].
  destruct (Z.ltb_spec 0x3fff (if IsTerminator f then Z.lor (u64 (zlen (OpusData f))) 0x2000
    else u64 (zlen (OpusData f)))) as [|_]; [lia|].
  rewrite Ht, Hn, i64_id by zlia. rewrite slice_to_app, slice_from_app, zlen_app.
  assert (zlen (if HasPosition f then concat (map le32 (Position f)) else []) =
    if HasPosition f then 12 else 0) as Hlen.
  { destruct (HasPosition f); [|done]. rewrite le32_concat_len. unfold zlen. rewrite Hp. done. }
  rewrite Hlen. rewrite u64_id by (destruct (HasPosition f); zlia).
  destruct (Z.ltb_spec (zlen (OpusData f) + (if HasPosition f then 12 else 0)) (zlen (OpusData f)));
    [destruct (HasPosition f); lia|].
  unfold seen_position. destruct (HasPosition f); cbn -[read_position concat map].
  - by rewrite read_position_le32.
  - by rewrite Hg.
Qed.

(** What a receiver of the legacy form sees: the low header bits are the
    context in the server direction, the target in the client direction. *)
Definition legacy_seen (server : bool) (d : Delivery) : Frame :=
  let f := frame d in
  mkFrame CodecOpus (if server then Context d else Target f)
    (if server then SenderSession f else 0) (FrameNumber f) (OpusData f) (seen_position f)
    (HasPosition f) (IsTerminator f).

Lemma encodeLegacy_shape d server :
  delivery_wf d -> zlen (OpusData (frame d)) <= 0x1fff -> Target (frame d) <= 31 ->
  exists o0 o1 o2,
    let f := frame d in
    encodeLegacy d server =
      Ok (Z.lor (u8 (Z.shiftl (u8 (Codec f)) 5)) (u8 (if server then Context d else Target f))
          :: (if server then o0 else []) ++ legacy_tail f o1 o2) /\
    (forall rest, legacy_read (o0 ++ rest) = Ok (SenderSession f, rest)) /\
    (forall rest, legacy_read (o1 ++ rest) = Ok (FrameNumber f, rest)) /\
    (forall rest, legacy_read (o2 ++ rest) =
      Ok ((if IsTerminator f then Z.lor (u64 (zlen (OpusData f))) 0x2000 else u64 (zlen (OpusData f))), rest)) /\
    zlen o0 <= 9 /\ zlen o1 <= 9 /\ zlen o2 <= 9.
Proof.
  intros ((_ & Ht & Hss & Hfn & _ & _ & _) & _ & _) Hl Ht31. pose proof (zlen_nonneg (OpusData (frame d))).
  destruct (legacy_read_add (SenderSession (frame d))) as (o0 & E0 & _ & L0 & R0); [zlia|].
  destruct (legacy_read_add (FrameNumber (frame d))) as (o1 & E1 & _ & L1 & R1); [done|].
  destruct (size_word (zlen (OpusData (frame d))) (IsTerminator (frame d))) as (Hs & _ & _); [lia|].
  edestruct legacy_read_add as (o2 & E2 & _ & L2 & R2); [|exists o0, o1, o2].
  2: { split; [|split; [exact R0|split; [exact R1|split; [exact R2|lia]]]].
       unfold encodeLegacy, legacy_tail. cbn zeta. rewrite E0, E1, E2.
       destruct (Z.ltb_spec 0x1fff (zlen (OpusData (frame d)))); [lia|].
       destruct (Z.ltb_spec 31 (Target (frame d))); [lia|]. cbn [orb].
       destruct server; cbn [mbind result_bind]; f_equal; destruct (HasPosition (frame d));
         cbn [app]; rewrite <- ?app_assoc, ?app_nil_r; done. }
  zlia.
Qed.

Lemma decodeLegacy_encodeLegacy d server b :
  delivery_wf d -> Codec (frame d) = CodecOpus -> (server = true -> Context d <= 31) ->
  encodeLegacy d server = Ok b -> zlen b <= MaxPacketSize ->
  decodeLegacy b server = (legacy_seen server d, None).
Proof.
  intros Hwf Hc Hctx He Hb. pose proof Hwf as ((_ & Ht & Hss & _) & Hx & _).
  destruct (decide (zlen (OpusData (frame d)) <= 0x1fff)) as [Hl|Hl].
  2: { unfold encodeLegacy in He. destruct (Z.ltb_spec 0x1fff (zlen (OpusData (frame d)))); [done|lia]. }
  destruct (decide (Target (frame d) <= 31)) as [Ht31|Ht31].
  2: { unfold encodeLegacy in He. destruct (Z.ltb_spec 31 (Target (frame d))); [|lia].
       by rewrite orb_true_r in He. }
  destruct (encodeLegacy_shape d server Hwf Hl Ht31) as (o0 & o1 & o2 & He' & R0 & R1 & R2 & _).
  cbn zeta in He'. rewrite He in He'. injection He' as ->. rewrite Hc in *.
  destruct (legacy_header (if server then Context d else Target (frame d))) as (_ & Hcod & Htgt);
    [destruct server; zlia|].
  unfold decodeLegacy, legacy_seen. rewrite zlen_cons_pos, index_0, slice_from_1. destruct (Z.ltb_spec MaxPacketSize
    (zlen (Z.lor (u8 (Z.shiftl (u8 CodecOpus) 5)) (u8 (if server then Context d else Target (frame d)))
          :: (if server then o0 else []) ++ legacy_tail (frame d) o1 o2))) as [|_]; [lia|].
  cbn [set_field Codec]. rewrite Hcod. cbn [Z.eqb CodecOpus Pos.eqb negb].
  destruct server; cbn [app].
  - rewrite R0. destruct (Z.ltb_spec MaxUint32 (SenderSession (frame d))); [unfold MaxUint32 in *; zlia|].
    rewrite (decodeLegacy_body_tail (frame d)); [|apply Hwf|done|apply R1|apply R2|done].
    cbn. by rewrite Htgt, u32_id.
  - rewrite (decodeLegacy_body_tail (frame d)); [|apply Hwf|done|apply R1|apply R2|done].
    cbn. by rewrite Htgt.
Qed.

(** ** Uvarint *)

Lemma uvarint_loop_bounds b i s x v n :
  0 <= i <= 10 -> uvarint_loop b i s x = (v, n) -> 0 < n -> i < n <= i + zlen b /\ n <= 10.
Proof.
  revert i s x. induction b as [|c b IH]; intros i s x Hi; cbn [uvarint_loop].
  { intros [= <- <-]. lia. }
  rewrite zlen_cons. pose proof (zlen_nonneg b).
  destruct (Z.eqb_spec i 10); [intros [= <- <-]; lia|].
  destruct (c <? 0x80).
  - destruct ((i =? 9) && (1 <? c)) eqn:E; intros [= <- <-] Hn; lia.
  - intros H' Hn. apply IH in H'; lia.
Qed.

Lemma Uvarint_bounds b v n : Uvarint b = (v, n) -> 0 < n -> 1 <= n <= zlen b.
Proof. intros H Hn. apply uvarint_loop_bounds in H; lia. Qed.

Lemma uvarint_loop_u64 b i s x : is_u64 x -> is_u64 (uvarint_loop b i s x).1.
Proof.
  revert i s x. induction b as [|c b IH]; intros i s x Hx; cbn [uvarint_loop]; [cbn; zlia|].
  repeat case_match; cbn; auto using lor_u64 with mumble; zlia.
Qed.

Lemma Uvarint_u64 b v n : Uvarint b = (v, n) -> is_u64 v.
Proof. intros H. pose proof (uvarint_loop_u64 b 0 0 0 ltac:(zlia)) as Hu. unfold Uvarint in H. by rewrite H in Hu. Qed.

Lemma uvarint_append_loop fuel v i x rest :
  0 <= i -> Z.of_nat fuel = 10 - i -> 0 <= x < 2 ^ (7 * i) ->
  0 <= v < 2 ^ (64 - 7 * i) -> i <= 9 ->
  uvarint_loop (append_varint_loop fuel [] v ++ rest) i (7 * i) x =
    (x + v * 2 ^ (7 * i), i + zlen (append_varint_loop fuel [] v)).
Proof.
  revert v i x. induction fuel as [|fuel IH]; intros v i x Hi Hf Hx Hv Hi9; [lia|].
  rewrite append_varint_loop_S. destruct (Z.leb_spec 0x80 v) as [Hb|Hb].
  - rewrite append_varint_loop_app. cbn [app uvarint_loop].
    destruct (varint_byte_cont v) as [Hc Hl].
    destruct (Z.eqb_spec i 10); [lia|]. destruct (Z.ltb_spec (Z.lor (u8 v) 0x80) 0x80); [lia|].
    rewrite Hl, varint_acc by done.
    assert (i < 9).
    { destruct (decide (i = 9)) as [->|]; [|lia]. change (2 ^ (64 - 7 * 9)) with 2 in Hv. lia. }
    replace (7 * i + 7) with (7 * (i + 1)) by lia.
    assert (2 ^ (7 * (i + 1)) = 2 ^ (7 * i) * 128) as Hp.
    { replace (7 * (i + 1)) with (7 * i + 7) by lia. rewrite Z.pow_add_r; lia. }
    pose proof (Z.mod_pos_bound v 128). rewrite Z.shiftr_div_pow2 by lia. change (2 ^ 7) with 128.
    pose proof (Z.div_mod v 128). rewrite IH; [| lia | lia | nia | | lia].
    + f_equal; [rewrite Hp; nia|]. autorewrite with mumble_len. lia.
    + split; [apply Z.div_pos; lia|]. apply Z.div_lt_upper_bound; [lia|].
      replace (64 - 7 * i) with (7 + (64 - 7 * (i + 1))) in Hv by lia.
      rewrite Z.pow_add_r in Hv by lia. lia.
  - cbn [app uvarint_loop]. rewrite u8_id by zlia. destruct (Z.eqb_spec i 10); [lia|].
    destruct (Z.ltb_spec v 0x80); [|lia].
    destruct (Z.eqb_spec i 9) as [->|]; cbn [andb];
      [change (2 ^ (64 - 7 * 9)) with 2 in Hv; destruct (Z.ltb_spec 1 v); [lia|]|];
      pose proof (varint_acc x v) as Ha; rewrite Z.mod_small in Ha by lia; rewrite Ha by lia; done.
Qed.

Lemma Uvarint_AppendVarint v rest : is_u64 v ->
  Uvarint (AppendVarint [] v ++ rest) = (v, zlen (AppendVarint [] v)).
Proof.
  intros Hv. unfold Uvarint, AppendVarint.
  pose proof (uvarint_append_loop 10 v 0 0 rest) as H. change (7 * 0) with 0 in H.
  rewrite H; [|lia|lia|lia|zlia|lia]. f_equal; lia.
Qed.

(** ** consumeField: total, and within its input *)

Definition field_bounds (len : Z) (r : option (result audio_error field_item)) : Prop :=
  match r with
  | None => False
  | Some (Err e) => e = ErrInvalidPacket
  | Some (Ok it) => 1 <= f_used it <= len /\ 1 <= f_number it < 2 ^ 29 /\ is_u64 (f_value it) /\
      (f_typ it = 5 -> zlen (f_payload it) = 4)
  end.

Definition group_bounds (used len : Z) (r : option (result audio_error Z)) : Prop :=
  match r with
  | None => False
  | Some (Err e) => e = ErrInvalidPacket
  | Some (Ok u) => used < u <= len
  end.

Lemma consume_field_bounds fuel :
  (forall b depth, zlen b < 2 ^ 63 -> 2 * zlen b < Z.of_nat fuel ->
     field_bounds (zlen b) (consume_field fuel b depth)) /\
  (forall b field used depth, zlen b < 2 ^ 63 -> 0 <= used <= zlen b ->
     2 * (zlen b - used) + 1 < Z.of_nat fuel ->
     group_bounds used (zlen b) (consume_group fuel b field used depth)).
Proof.
  induction fuel as [|fuel [IHf IHg]]; [split; intros; pose proof (zlen_nonneg b); lia|]. split.
  - intros b depth Hb Hf. cbn [consume_field]. destruct (Uvarint b) as [tag n] eqn:E.
    destruct (_ || _ || _ || _) eqn:G; [done|].
    rewrite !orb_false_iff in G. destruct G as (((Hn & Hz) & Hbig) & _).
    apply Z.leb_gt in Hn. apply Z.eqb_neq in Hz. apply Z.ltb_ge in Hbig.
    pose proof (Uvarint_bounds _ _ _ E Hn). pose proof (Uvarint_u64 _ _ _ E) as Ht.
    assert (0 <= Z.shiftr tag 3) by (apply Z.shiftr_nonneg; zlia).
    assert (zlen (zdrop n b) = zlen b - n) as Hr by (apply zlen_zdrop; lia).
    rewrite slice_from_ok by lia.
    destruct (Z.eqb_spec (Z.land tag 7) 0) as [T0|T0]; [|destruct ((_ =? 1) || _) eqn:T1;
      [|destruct (Z.eqb_spec (Z.land tag 7) 2) as [T2|T2]; [|destruct (Z.eqb_spec (Z.land tag 7) 3)]]].
    + destruct (Uvarint (zdrop n b)) as [v k] eqn:E'. destruct (Z.leb_spec k 0); [done|]. cbn.
      pose proof (Uvarint_bounds _ _ _ E' ltac:(done)). pose proof (Uvarint_u64 _ _ _ E'). zlia.
    + destruct (Z.ltb_spec (zlen (zdrop n b)) (if Z.land tag 7 =? 1 then 8 else 4)); [done|].
      rewrite slice_ok by (destruct (Z.land tag 7 =? 1); lia). rewrite zdrop_0, Z.sub_0_r. cbn -[ztake].
      split; [destruct (Z.land tag 7 =? 1); lia|]. split; [lia|]. split; [zlia|].
      intros T5. rewrite T5 in *. cbn -[ztake] in *. rewrite zlen_ztake; lia.
    + destruct (Uvarint (zdrop n b)) as [sz k] eqn:E'. destruct ((k <=? 0) || _) eqn:G; [done|].
      apply orb_false_iff in G as [Hk Hs]. apply Z.leb_gt in Hk.
      pose proof (Uvarint_bounds _ _ _ E' Hk). pose proof (Uvarint_u64 _ _ _ E').
      destruct (delimited_len (zdrop n b) sz k) as [Hi Hle]; [lia|lia|done|done|].
      rewrite Hi, !i64_id, slice_ok by zlia. cbn. split; [zlia|]. split; [lia|]. split; [zlia|]. intros T5. lia.
    + specialize (IHg b (Z.shiftr tag 3) n depth Hb ltac:(lia) ltac:(lia)).
      destruct (consume_group _ _ _ _ _) as [[u|er]|]; cbn in *; [|done|done].
      split; [lia|]. split; [lia|]. split; [zlia|]. intros T5. lia.
    + done.
  - intros b field used depth Hb Hu Hf. cbn [consume_group].
    rewrite slice_from_ok by lia.
    destruct (Uvarint (zdrop used b)) as [e k] eqn:E. destruct (Z.leb_spec k 0); [done|].
    pose proof (Uvarint_bounds _ _ _ E ltac:(done)).
    assert (zlen (zdrop used b) = zlen b - used) as Hr by (apply zlen_zdrop; lia).
    destruct (Z.land e 7 =? 4).
    + destruct (negb _); [done|]. cbn. lia.
    + specialize (IHf (zdrop used b) (depth + 1) ltac:(lia) ltac:(lia)).
      destruct (consume_field _ _ _) as [[it|?]|]; cbn in IHf; [|by subst|done].
      specialize (IHg b field (used + f_used it) depth Hb ltac:(lia) ltac:(lia)).
      destruct (consume_group _ _ _ _ _) as [[u|?]|]; cbn in *; [lia|done|done].
Qed.

(** The fuel of [consumeField] is enough. *)
Lemma consumeField_bounds b depth : zlen b < 2 ^ 63 ->
  match consumeField b depth with
  | Err e => e = ErrInvalidPacket
  | Ok it => 1 <= f_used it <= zlen b /\ 1 <= f_number it < 2 ^ 29 /\ is_u64 (f_value it) /\
      (f_typ it = 5 -> zlen (f_payload it) = 4)
  end.
Proof.
  intros Hb. unfold consumeField.
  pose proof (proj1 (consume_field_bounds (2 * length b + 1)) b depth Hb) as H.
  specialize (H ltac:(unfold zlen; lia)).
  destruct (consume_field _ b depth) as [[it|e]|]; done.
Qed.

(** ** The fields a well-formed packet is made of *)

Lemma Uvarint_AppendTag fn wt rest : 0 <= fn < 2 ^ 29 -> 0 <= wt < 8 ->
  Uvarint (AppendTag [] fn wt ++ rest) = (fn * 8 + wt, zlen (AppendTag [] fn wt)).
Proof.
  intros Hf Hw. unfold AppendTag. rewrite tag_value by done.
  apply Uvarint_AppendVarint. zlia.
Qed.

Lemma tag_split fn wt : 0 <= wt < 8 ->
  Z.shiftr (fn * 8 + wt) 3 = fn /\ Z.land (fn * 8 + wt) 7 = wt.
Proof.
  intros Hw. rewrite Z.shiftr_div_pow2 by lia. change 7 with (2 ^ 3 - 1).
  rewrite land_ones_mod by lia. change (2 ^ 3) with 8.
  rewrite Z.div_add_l, Z.div_small by lia.
  rewrite (Z.add_comm (fn * 8) wt), Z.mod_add, Z.mod_small by lia. split; [lia|done].
Qed.

Lemma AppendTag_len fn wt : 1 <= zlen (AppendTag [] fn wt) <= 10.
Proof. apply AppendVarint_len. Qed.

(** The tag is read and the guards pass; what is left is the wire type. *)
Lemma consume_tag fuel fn wt rest : 1 <= fn < 2 ^ 29 -> 0 <= wt < 8 ->
  consume_field (S fuel) (AppendTag [] fn wt ++ rest) 0 =
    let used := zlen (AppendTag [] fn wt) in
    if wt =? 0 then
      let '(value, n) := Uvarint rest in
      if n <=? 0 then Some (Err ErrInvalidPacket)
      else Some (Ok (mkField fn wt value [] (used + n)))
    else if (wt =? 1) || (wt =? 5) then
      let n := if wt =? 1 then 8 else 4 in
      if zlen rest <? n then Some (Err ErrInvalidPacket) else
      match slice 0 n rest with
      | None => Some (Err Panic)
      | Some payload => Some (Ok (mkField fn wt 0 payload (used + n)))
      end
    else if wt =? 2 then
      let '(size, k) := Uvarint rest in
      if (k <=? 0) || (u64 (zlen rest - k) <? size) then Some (Err ErrInvalidPacket) else
      match slice k (i64 (k + i64 size)) rest with
      | None => Some (Err Panic)
      | Some payload => Some (Ok (mkField fn wt 0 payload (i64 (used + i64 (k + i64 size)))))
      end
    else if wt =? 3 then
      match consume_group fuel (AppendTag [] fn wt ++ rest) fn used 0 with
      | None => None
      | Some (Err e) => Some (Err e)
      | Some (Ok used) => Some (Ok (mkField fn wt 0 [] used))
      end
    else Some (Err ErrInvalidPacket).
Proof.
  intros Hf Hw. cbn [consume_field]. rewrite Uvarint_AppendTag by lia.
  destruct (tag_split fn wt Hw) as [-> ->]. pose proof (AppendTag_len fn wt).
  destruct (Z.leb_spec (zlen (AppendTag [] fn wt)) 0); [lia|].
  destruct (Z.eqb_spec fn 0); [lia|]. destruct (Z.ltb_spec (2 ^ 29 - 1) fn); [lia|].
  by rewrite slice_from_app.
Qed.

Lemma consumeField_tag fn wt rest : exists fuel,
  consumeField (AppendTag [] fn wt ++ rest) 0 =
  match consume_field (S fuel) (AppendTag [] fn wt ++ rest) 0 with Some r => r | None => Err Panic end.
Proof.
  exists (2 * length (AppendTag [] fn wt ++ rest))%nat. unfold consumeField.
  by rewrite Nat.add_1_r.
Qed.

Lemma consumeField_varint fn v rest : 1 <= fn < 2 ^ 29 -> is_u64 v ->
  consumeField (AppendTag [] fn 0 ++ AppendVarint [] v ++ rest) 0 =
    Ok (mkField fn 0 v [] (zlen (AppendTag [] fn 0) + zlen (AppendVarint [] v))).
Proof.
  intros Hf Hv. destruct (consumeField_tag fn 0 (AppendVarint [] v ++ rest)) as [fuel ->].
  rewrite consume_tag by lia. cbn -[AppendTag AppendVarint]. rewrite Uvarint_AppendVarint by done.
  pose proof (AppendVarint_len v). destruct (Z.leb_spec (zlen (AppendVarint [] v)) 0); [lia|done].
Qed.

Lemma consumeField_bytes fn (p rest : bytes) : 1 <= fn < 2 ^ 29 ->
  zlen p < 2 ^ 63 - 20 -> zlen rest < 2 ^ 63 - 20 - zlen p ->
  consumeField (AppendTag [] fn 2 ++ AppendVarint [] (u64 (zlen p)) ++ p ++ rest) 0 =
    Ok (mkField fn 2 0 p (zlen (AppendTag [] fn 2) + (zlen (AppendVarint [] (u64 (zlen p))) + zlen p))).
Proof.
  intros Hf Hp Hr. pose proof (zlen_nonneg p). pose proof (zlen_nonneg rest).
  destruct (consumeField_tag fn 2 (AppendVarint [] (u64 (zlen p)) ++ p ++ rest)) as [fuel ->].
  rewrite consume_tag by lia. cbn -[AppendTag AppendVarint u64 ztake zdrop i64 slice].
  rewrite (u64_id (zlen p)) by zlia. rewrite Uvarint_AppendVarint by zlia.
  pose proof (AppendVarint_len (zlen p)).
  destruct (Z.leb_spec (zlen (AppendVarint [] (zlen p))) 0); [lia|].
  autorewrite with mumble_len. rewrite u64_id by zlia.
  destruct (Z.ltb_spec (zlen (AppendVarint [] (zlen p)) + (zlen p + zlen rest)
     - zlen (AppendVarint [] (zlen p))) (zlen p)); [lia|]. cbn [orb].
  pose proof (AppendTag_len fn 2). rewrite (i64_id (zlen p)) by zlia. rewrite (i64_id (zlen (AppendVarint [] (zlen p)) + zlen p)), i64_id by zlia.
  rewrite slice_ok by (autorewrite with mumble_len; lia).
  rewrite zdrop_app. replace (zlen (AppendVarint [] (zlen p)) + zlen p - zlen (AppendVarint [] (zlen p)))
    with (zlen p) by lia. by rewrite ztake_app.
Qed.

Lemma consumeField_fixed32 fn v rest : 1 <= fn < 2 ^ 29 ->
  consumeField (AppendTag [] fn 5 ++ le32 v ++ rest) 0 =
    Ok (mkField fn 5 0 (le32 v) (zlen (AppendTag [] fn 5) + 4)).
Proof.
  intros Hf. destruct (consumeField_tag fn 5 (le32 v ++ rest)) as [fuel ->].
  rewrite consume_tag by lia. cbn -[AppendTag le32 ztake slice]. pose proof (zlen_nonneg rest).
  rewrite zlen_app. change (zlen (le32 v)) with 4.
  destruct (Z.ltb_spec (4 + zlen rest) 4); [lia|].
  change 4 with (zlen (le32 v)) at 1. by rewrite slice_to_app.
Qed.

(** ** The loop, without its fuel *)

Lemma protobuf_loop_fuel n : forall b d p f1 f2, zlen b < 2 ^ 63 ->
  (length b <= n)%nat -> (length b <= f1)%nat -> (length b <= f2)%nat ->
  protobuf_loop f1 b d p = protobuf_loop f2 b d p.
Proof.
  induction n as [|n IH]; intros b d p f1 f2 Hb Hn H1 H2.
  { destruct b; [|cbn in Hn; lia]. by destruct f1, f2. }
  destruct b as [|c b]; [by destruct f1, f2|].
  destruct f1 as [|f1]; [cbn in H1; lia|]. destruct f2 as [|f2]; [cbn in H2; lia|].
  cbn [protobuf_loop]. pose proof (consumeField_bounds (c :: b) 0 Hb) as Hc.
  destruct (consumeField (c :: b) 0) as [it|e]; [|done].
  rewrite slice_from_ok by lia. destruct (protobuf_field it d p) as [[d' p'] [e|]]; [done|].
  assert (zlen (zdrop (f_used it) (c :: b)) = zlen (c :: b) - f_used it) by (apply zlen_zdrop; lia).
  unfold zlen in *. cbn [length] in *. apply IH; lia.
Qed.

Definition ploop (b : bytes) (d : Delivery) (p : nat) : Delivery * nat * option audio_error :=
  protobuf_loop (length b) b d p.

Lemma protobuf_loop_step b d p : zlen b < 2 ^ 63 -> b <> [] ->
  ploop b d p =
    match consumeField b 0 with
    | Err e => (d, p, Some e)
    | Ok it =>
        match protobuf_field it d p with
        | (d, p, Some e) => (d, p, Some e)
        | (d, p, None) => ploop (zdrop (f_used it) b) d p
        end
    end.
Proof.
  intros Hb Hne. unfold ploop. destruct b as [|c b]; [done|].
  change (length (c :: b)) with (S (length b)). cbn [protobuf_loop].
  pose proof (consumeField_bounds (c :: b) 0 Hb) as Hc.
  destruct (consumeField (c :: b) 0) as [it|e]; [|done].
  rewrite slice_from_ok by lia. destruct (protobuf_field it d p) as [[d' p'] [e|]]; [done|].
  assert (zlen (zdrop (f_used it) (c :: b)) = zlen (c :: b) - f_used it) by (apply zlen_zdrop; lia).
  unfold zlen in *. cbn [length] in *. eapply protobuf_loop_fuel; [|done|..]; unfold zlen; lia.
Qed.

Lemma tag_app_nonnil fn wt rest : AppendTag [] fn wt ++ rest <> [].
Proof. pose proof (AppendTag_len fn wt). destruct (AppendTag [] fn wt); [rewrite zlen_nil in *; lia|done]. Qed.

Lemma ploop_varint fn v rest d p : 1 <= fn < 2 ^ 29 -> is_u64 v ->
  zlen rest < 2 ^ 63 - 20 ->
  ploop (AppendTag [] fn 0 ++ AppendVarint [] v ++ rest) d p =
    match protobuf_field (mkField fn 0 v [] (zlen (AppendTag [] fn 0) + zlen (AppendVarint [] v))) d p with
    | (d, p, Some e) => (d, p, Some e)
    | (d, p, None) => ploop rest d p
    end.
Proof.
  intros Hf Hv Hr. pose proof (AppendTag_len fn 0). pose proof (AppendVarint_len v).
  rewrite protobuf_loop_step, consumeField_varint by
    (done || (autorewrite with mumble_len; lia) || apply tag_app_nonnil).
  cbn [f_used]. rewrite <- zlen_app, (app_assoc (AppendTag [] fn 0)), zdrop_app. done.
Qed.

Lemma ploop_bytes fn x rest d p : 1 <= fn < 2 ^ 29 -> zlen x < 2 ^ 62 ->
  zlen rest < 2 ^ 62 - 20 ->
  ploop (AppendTag [] fn 2 ++ AppendVarint [] (u64 (zlen x)) ++ x ++ rest) d p =
    match protobuf_field (mkField fn 2 0 x
      (zlen (AppendTag [] fn 2) + (zlen (AppendVarint [] (u64 (zlen x))) + zlen x))) d p with
    | (d, p, Some e) => (d, p, Some e)
    | (d, p, None) => ploop rest d p
    end.
Proof.
  intros Hf Hx Hr. pose proof (AppendTag_len fn 2). pose proof (AppendVarint_len (u64 (zlen x))).
  rewrite protobuf_loop_step, consumeField_bytes by
    (done || lia || (autorewrite with mumble_len; lia) || apply tag_app_nonnil).
  cbn [f_used]. rewrite <- !zlen_app, !app_assoc, zdrop_app. done.
Qed.

Lemma ploop_fixed32 fn v rest d p : 1 <= fn < 2 ^ 29 -> zlen rest < 2 ^ 63 - 20 ->
  ploop (AppendTag [] fn 5 ++ le32 v ++ rest) d p =
    match protobuf_field (mkField fn 5 0 (le32 v) (zlen (AppendTag [] fn 5) + 4)) d p with
    | (d, p, Some e) => (d, p, Some e)
    | (d, p, None) => ploop rest d p
    end.
Proof.
  intros Hf Hr. pose proof (AppendTag_len fn 5).
  rewrite protobuf_loop_step, consumeField_fixed32 by
    (done || (rewrite !zlen_app; change (zlen (le32 v)) with 4; lia) || apply tag_app_nonnil).
  cbn [f_used]. change 4 with (zlen (le32 v)) at 2. rewrite <- zlen_app, app_assoc, zdrop_app. done.
Qed.

(** ** Protobuf form *)

(** [VolumeAdjustment] is left out when it is 0 or 1. *)
Definition volume_sent (server : bool) (d : Delivery) : bool :=
  server && f32_nonzero (VolumeAdjustment d) && negb (VolumeAdjustment d =? f32_one).

(** What a receiver of the protobuf form sees. *)
Definition protobuf_seen (server : bool) (d : Delivery) : Delivery :=
  let f := frame d in
  mkDelivery
    (mkFrame CodecOpus (if server then 0 else Target f) (if server then SenderSession f else 0)
       (FrameNumber f) (OpusData f) (seen_position f) (HasPosition f) (IsTerminator f))
    (if server then Context d else ContextNormal)
    (if volume_sent server d then VolumeAdjustment d else 0).

Definition field_varint (fn v : Z) : bytes := AppendTag [] fn 0 ++ AppendVarint [] v.
Definition field_bytes (fn : Z) (x : bytes) : bytes :=
  AppendTag [] fn 2 ++ AppendVarint [] (u64 (zlen x)) ++ x.

Lemma protobuf_add_app b fn v : protobuf_add b fn v = b ++ field_varint fn v.
Proof. unfold protobuf_add, field_varint. by rewrite AppendVarint_app, AppendTag_app, app_assoc. Qed.

Lemma AppendBytes_app b fn x : AppendBytes b fn x = b ++ field_bytes fn x.
Proof.
  unfold AppendBytes, field_bytes, WireLengthDelimited.
  by rewrite AppendVarint_app, AppendTag_app, !app_assoc.
Qed.

Lemma AppendFixed32_fold ps b : fold_left AppendFixed32 ps b = b ++ concat (map le32 ps).
Proof.
  revert b. induction ps as [|p ps IH]; intros b; cbn [fold_left map concat]; [by rewrite app_nil_r|].
  rewrite IH. unfold AppendFixed32. by rewrite app_assoc.
Qed.

Lemma encodeProtobuf_shape d server :
  encodeProtobuf d server =
    ProtobufAudioType ::
      (if server then field_varint 2 (Context d) ++ field_varint 3 (SenderSession (frame d))
       else field_varint 1 (Target (frame d))) ++
      (if negb (FrameNumber (frame d) =? 0) then field_varint 4 (FrameNumber (frame d)) else []) ++
      field_bytes 5 (OpusData (frame d)) ++
      (if HasPosition (frame d) then field_bytes 6 (concat (map le32 (Position (frame d)))) else []) ++
      (if volume_sent server d then AppendTag [] 7 5 ++ le32 (VolumeAdjustment d) else []) ++
      (if IsTerminator (frame d) then field_varint 16 1 else []).
Proof.
  unfold encodeProtobuf, volume_sent. cbn zeta.
  rewrite AppendFixed32_fold. unfold AppendFixed32.
  rewrite (AppendTag_app _ 7), !AppendBytes_app, !protobuf_add_app.
  destruct server, (negb (FrameNumber (frame d) =? 0)), (HasPosition (frame d)),
    (f32_nonzero (VolumeAdjustment d)), (VolumeAdjustment d =? f32_one), (IsTerminator (frame d));
    cbn [andb negb app]; rewrite ?app_nil_r, <- ?app_assoc; reflexivity.
Qed.

(** The three words of the position fill the array. *)
Lemma position_loop_three ps d : length ps = 3%nat -> Forall is_u32 ps -> length (Position (frame d)) = 3%nat ->
  position_loop 12 (concat (map le32 ps)) d 0 =
    (d <| frame := (frame d) <| Position := ps |> |>, 3%nat, None).
Proof.
  intros Hl Hps Hd. destruct ps as [|x [|y [|z [|]]]]; try done.
  apply Forall_cons_iff in Hps as [Hx Hps]. apply Forall_cons_iff in Hps as [Hy Hps].
  apply Forall_cons_iff in Hps as [Hz _].
  destruct (Position (frame d)) as [|p1 [|p2 [|p3 [|]]]] eqn:Ep; try done.
  pose proof (ReadFixed32_le32 x (le32 y ++ le32 z) Hx) as Rx.
  pose proof (ReadFixed32_le32 y (le32 z) Hy) as Ry.
  pose proof (ReadFixed32_le32 z [] Hz) as Rz. unfold ReadFixed32 in *.
  transitivity (d <| frame := (frame d) <| Position :=
    [le32_read (le32 x ++ le32 y ++ le32 z); le32_read (le32 y ++ le32 z); le32_read (le32 z ++ [])] |> |>,
    3%nat, @None audio_error).
  - cbn -[le32_read]. rewrite Ep. reflexivity.
  - by rewrite Rx, Ry, Rz.
Qed.

(** One piece of the encoding at a time. *)
Section Pieces.
Context (rest : bytes) (Hrest : zlen rest < 2 ^ 60).

Lemma piece_varint fn v d d' p : 1 <= fn < 2 ^ 29 -> is_u64 v ->
  (forall u, protobuf_field (mkField fn 0 v [] u) d p = (d', p, None)) ->
  ploop (field_varint fn v ++ rest) d p = ploop rest d' p.
Proof.
  intros Hf Hv H. unfold field_varint. rewrite <- app_assoc, ploop_varint, H by (done || lia). done.
Qed.

Lemma piece_bytes fn x d d' p p' : 1 <= fn < 2 ^ 29 -> zlen x < 2 ^ 60 ->
  (forall u, protobuf_field (mkField fn 2 0 x u) d p = (d', p', None)) ->
  ploop (field_bytes fn x ++ rest) d p = ploop rest d' p'.
Proof.
  intros Hf Hv H. unfold field_bytes. rewrite <- !app_assoc, ploop_bytes, H by (done || lia). done.
Qed.

Lemma piece_fixed32 fn v d d' p : 1 <= fn < 2 ^ 29 ->
  (forall u, protobuf_field (mkField fn 5 0 (le32 v) u) d p = (d', p, None)) ->
  ploop ((AppendTag [] fn 5 ++ le32 v) ++ rest) d p = ploop rest d' p.
Proof.
  intros Hf H. rewrite <- app_assoc, ploop_fixed32, H by (done || lia). done.
Qed.
End Pieces.

Lemma field_varint_len fn v : zlen (field_varint fn v) <= 20.
Proof.
  unfold field_varint. rewrite zlen_app. pose proof (AppendTag_len fn 0).
  pose proof (AppendVarint_len v). lia.
Qed.

Lemma field_bytes_len fn x : zlen (field_bytes fn x) <= 20 + zlen x.
Proof.
  unfold field_bytes. rewrite !zlen_app. pose proof (AppendTag_len fn 2).
  pose proof (AppendVarint_len (u64 (zlen x))). lia.
Qed.

Lemma pieces_len d server : length (Position (frame d)) = 3%nat ->
  let f := frame d in
  zlen (if negb (FrameNumber f =? 0) then field_varint 4 (FrameNumber f) else []) <= 20 /\
  zlen (field_bytes 5 (OpusData f)) <= 20 + zlen (OpusData f) /\
  zlen (if HasPosition f then field_bytes 6 (concat (map le32 (Position f))) else []) <= 32 /\
  zlen (if volume_sent server d then AppendTag [] 7 5 ++ le32 (VolumeAdjustment d) else []) <= 14 /\
  zlen (if IsTerminator f then field_varint 16 1 else []) <= 20.
Proof.
  intros Hp. cbn zeta. pose proof (field_bytes_len 6 (concat (map le32 (Position (frame d))))) as H6.
  assert (zlen (Position (frame d)) = 3) as H3 by (unfold zlen; by rewrite Hp).
  rewrite le32_concat_len, H3 in H6.
  repeat split; repeat case_match; rewrite ?zlen_nil, ?zlen_app; try lia;
    first [apply field_varint_len | apply field_bytes_len | pose proof (AppendTag_len 7 5);
           change (zlen (le32 (VolumeAdjustment d))) with 4; lia].
Qed.

(** The pieces after the addressing fields, from any state. *)
Lemma ploop_pieces d server f0 c :
  delivery_wf d -> zlen (OpusData (frame d)) < 2 ^ 50 ->
  length (Position f0) = 3%nat ->
  ploop ((if negb (FrameNumber (frame d) =? 0) then field_varint 4 (FrameNumber (frame d)) else []) ++
      field_bytes 5 (OpusData (frame d)) ++
      (if HasPosition (frame d) then field_bytes 6 (concat (map le32 (Position (frame d)))) else []) ++
      (if volume_sent server d then AppendTag [] 7 5 ++ le32 (VolumeAdjustment d) else []) ++
      (if IsTerminator (frame d) then field_varint 16 1 else []))
    (mkDelivery (f0 <| FrameNumber := 0 |> <| IsTerminator := false |>) c 0) 0 =
  (mkDelivery (mkFrame (Codec f0) (Target f0) (SenderSession f0) (FrameNumber (frame d))
      (OpusData (frame d)) (if HasPosition (frame d) then Position (frame d) else Position f0)
      (HasPosition f0) (IsTerminator (frame d))) c
      (if volume_sent server d then VolumeAdjustment d else 0),
   (if HasPosition (frame d) then 3%nat else 0%nat), None).
Proof.
  intros ((_ & _ & _ & Hfn & _ & Hp & Hps) & _ & Hv) Hl H0.
  assert (zlen (concat (map le32 (Position (frame d)))) = 12) as Lp
    by (rewrite le32_concat_len; unfold zlen; rewrite Hp; done).
  destruct (pieces_len d server Hp) as (L0 & L4 & L3 & L2 & L1).
  etransitivity.
  { destruct (negb (FrameNumber (frame d) =? 0)) eqn:E.
    - eapply (piece_varint _); [rewrite !zlen_app; lia|lia|done|]. intros u. unfold protobuf_field. cbn. reflexivity.
    - apply negb_false_iff, Z.eqb_eq in E. cbn [app]. rewrite <- E. reflexivity. }
  etransitivity.
  { eapply (piece_bytes _); [rewrite !zlen_app; lia|lia|lia|]. intros u. unfold protobuf_field. cbn. reflexivity. }
  etransitivity.
  { instantiate (1 := ploop _ (mkDelivery (mkFrame (Codec f0) (Target f0) (SenderSession f0)
      (FrameNumber (frame d)) (OpusData (frame d))
      (if HasPosition (frame d) then Position (frame d) else Position f0)
      (HasPosition f0) false) c 0) (if HasPosition (frame d) then 3%nat else 0%nat)).
    destruct (HasPosition (frame d)) eqn:E; [|reflexivity].
    eapply (piece_bytes _); [rewrite !zlen_app; lia|lia|lia|]. intros u.
    unfold protobuf_field. cbn [f_number f_typ f_value f_payload]. rewrite Lp.
    assert (length (concat (map le32 (Position (frame d)))) = 12%nat) as -> by (unfold zlen in Lp; lia).
    cbn -[position_loop concat map le32]. by rewrite position_loop_three. }
  etransitivity.
  { instantiate (1 := ploop _ (mkDelivery _ _ (if volume_sent server d then VolumeAdjustment d else 0)) _).
    destruct (volume_sent server d); [|reflexivity].
    eapply (piece_fixed32 _); [lia|lia|]. intros u.
    unfold protobuf_field. cbn -[le32 le_uint32]. rewrite le_uint32_ok by done.
    pose proof (ReadFixed32_le32 (VolumeAdjustment d) [] Hv) as R.
    unfold ReadFixed32 in R. rewrite app_nil_r in R. rewrite R. reflexivity. }
  destruct (IsTerminator (frame d)) eqn:E.
  - rewrite <- (app_nil_r (field_varint 16 1)). cbn [app].
    etransitivity; [eapply (piece_varint []); [done|lia|zlia|]|reflexivity].
    intros u. unfold protobuf_field. cbn. reflexivity.
  - reflexivity.
Qed.

Lemma field_bytes_ge fn x : zlen x <= zlen (field_bytes fn x).
Proof.
  unfold field_bytes. rewrite !zlen_app. pose proof (zlen_nonneg (AppendTag [] fn 2)).
  pose proof (zlen_nonneg (AppendVarint [] (u64 (zlen x)))). lia.
Qed.

(** The addressing fields: context and sender, or the target. *)
Lemma ploop_address d (server : bool) rest : delivery_wf d -> zlen rest < 2 ^ 59 ->
  ploop ((if server then field_varint 2 (Context d) ++ field_varint 3 (SenderSession (frame d))
          else field_varint 1 (Target (frame d))) ++ rest)
    (mkDelivery (Frame_zero <| Codec := CodecOpus |>) 0 0) 0 =
  ploop rest (mkDelivery (mkFrame CodecOpus (if server then 0 else Target (frame d))
      (if server then SenderSession (frame d) else 0) 0 [] [0; 0; 0] false false)
    (if server then Context d else ContextNormal) 0) 0.
Proof.
  intros ((_ & Ht & Hss & _) & Hx & _) Hr.
  destruct server; [rewrite <- app_assoc; etransitivity|].
  - eapply (piece_varint _); [rewrite zlen_app; pose proof (field_varint_len 3 (SenderSession (frame d))); lia|lia|zlia|].
    intros u. unfold protobuf_field, MaxUint32. cbn [f_number f_typ f_value].
    destruct (Z.ltb_spec (2 ^ 32 - 1) (Context d)); [zlia|]. cbn -[u8]. rewrite u8_id by done. reflexivity.
  - eapply (piece_varint _); [lia|lia|zlia|].
    intros u. unfold protobuf_field, MaxUint32. cbn [f_number f_typ f_value].
    destruct (Z.ltb_spec (2 ^ 32 - 1) (SenderSession (frame d))); [zlia|]. cbn -[u32]. rewrite u32_id by done. reflexivity.
  - eapply (piece_varint _); [lia|lia|zlia|].
    intros u. unfold protobuf_field, MaxUint32. cbn [f_number f_typ f_value].
    destruct (Z.ltb_spec (2 ^ 32 - 1) (Target (frame d))); [zlia|]. cbn -[u32]. rewrite u32_id by done. reflexivity.
Qed.

Lemma decodeProtobuf_encodeProtobuf d server :
  delivery_wf d -> OpusData (frame d) <> [] -> zlen (encodeProtobuf d server) <= MaxPacketSize ->
  decodeProtobuf (encodeProtobuf d server) = (protobuf_seen server d, None).
Proof.
  intros Hwf Hne Hlen. pose proof Hwf as ((_ & _ & _ & _ & _ & Hp & _) & _ & _).
  assert (zlen (OpusData (frame d)) <> 0) as Hpos.
  { destruct (OpusData (frame d)) as [|o os]; [done|]. rewrite zlen_cons. pose proof (zlen_nonneg os). lia. }
  assert (zlen (OpusData (frame d)) < 2 ^ 50) as Hl.
  { pose proof (field_bytes_ge 5 (OpusData (frame d))). unfold MaxPacketSize in Hlen.
    rewrite encodeProtobuf_shape, zlen_cons, !zlen_app in Hlen.
    repeat match type of Hlen with context [zlen (if ?c then ?l else ?r)] =>
      pose proof (zlen_nonneg (if c then l else r)); generalize dependent (zlen (if c then l else r)); intros end.
    lia. }
  destruct (pieces_len d server Hp) as (L0 & L4 & L3 & L2 & L1). cbn zeta in *.
  unfold decodeProtobuf. rewrite encodeProtobuf_shape in *. unfold MaxPacketSize in *.
  rewrite zlen_cons_nz, index_0, slice_from_1.
  match type of Hlen with ?l <= _ => destruct (Z.ltb_spec 1024 l) as [|_]; [lia|] end.
  cbn [orb negb Z.eqb ProtobufAudioType]. fold ploop.
  match goal with |- context [protobuf_loop (length ?b) ?b ?d0 ?p0] =>
    change (protobuf_loop (length b) b d0 p0) with (ploop b d0 p0) end.
  rewrite ploop_address by (done || (rewrite !zlen_app; lia)).
  pose proof (ploop_pieces d server (mkFrame CodecOpus (if server then 0 else Target (frame d))
      (if server then SenderSession (frame d) else 0) 0 [] [0; 0; 0] false false)
    (if server then Context d else ContextNormal) Hwf Hl eq_refl) as HP.
  cbn [set_field Codec Target SenderSession FrameNumber OpusData Position HasPosition IsTerminator] in HP.
  rewrite HP. cbn [frame OpusData]. apply Z.eqb_neq in Hpos. rewrite Hpos.
  unfold protobuf_seen, seen_position. destruct (HasPosition (frame d)); reflexivity.
Qed.

(** ** Decoders on arbitrary input: fields at their widths, no panic *)

Lemma le32_read_u32 b : bytes_ok b -> is_u32 (le32_read b).
Proof.
  intros Hb. destruct b as [|b0 [|b1 [|b2 [|b3 b]]]]; try (split; cbn; lia).
  change (le32_read (b0 :: b1 :: b2 :: b3 :: b)) with (be32_read [b3; b2; b1; b0]).
  apply be32_read_range. unfold bytes_ok in *. decompose_Forall_hyps.
  repeat (constructor; [assumption|]). constructor.
Qed.

Lemma position_word_ok b i : bytes_ok b -> 0 <= i -> i * 4 + 4 <= zlen b ->
  exists w, position_word b i = Some w /\ is_u32 w.
Proof.
  intros Hb Hi Hl. unfold position_word. rewrite slice_from_ok by lia. cbn [mbind option_bind].
  rewrite le_uint32_ok by (rewrite zlen_zdrop; lia). eexists. split; [done|].
  by apply le32_read_u32, bytes_ok_zdrop.
Qed.

Lemma read_position_ok b : bytes_ok b -> zlen b = 12 ->
  exists ps, read_position b = Some ps /\ length ps = 3%nat /\ Forall is_u32 ps.
Proof.
  intros Hb Hl. unfold read_position.
  destruct (position_word_ok b 0 Hb) as (x & -> & Hx); [lia|lia|].
  destruct (position_word_ok b 1 Hb) as (y & -> & Hy); [lia|lia|].
  destruct (position_word_ok b 2 Hb) as (z & -> & Hz); [lia|lia|].
  eexists. split; [done|]. split; [done|]. repeat (constructor; [done|]). constructor.
Qed.

Lemma legacy_read_wf b : bytes_ok b ->
  match legacy_read b with
  | Ok (v, b') => is_u64 v /\ bytes_ok b' /\ zlen b' <= zlen b
  | Err e => e <> Panic
  end.
Proof.
  intros Hb. destruct b as [|b0 b]; [done|]. rewrite legacy_read_cons.
  destruct (0xf8 <=? b0); [done|]. destruct (DecodeVarint_bounds _ Hb) as (v & n & -> & Hn & _).
  cbn [or_panic mbind result_bind]. destruct (n <=? 0); [done|]. rewrite slice_from_ok by lia.
  cbn [or_panic]. split; [auto with mumble|]. split; [auto with mumble|]. rewrite zlen_zdrop; lia.
Qed.

Lemma set_frame_number f v : frame_wf f -> is_u64 v -> frame_wf (f <| FrameNumber := v |>).
Proof. unfold frame_wf. cbn. tauto. Qed.
Lemma set_terminator f v : frame_wf f -> frame_wf (f <| IsTerminator := v |>).
Proof. unfold frame_wf. cbn. tauto. Qed.
Lemma set_has_position f v : frame_wf f -> frame_wf (f <| HasPosition := v |>).
Proof. unfold frame_wf. cbn. tauto. Qed.
Lemma set_opus f v : frame_wf f -> bytes_ok v -> frame_wf (f <| OpusData := v |>).
Proof. unfold frame_wf. cbn. tauto. Qed.
Lemma set_position f v : frame_wf f -> length v = 3%nat -> Forall is_u32 v -> frame_wf (f <| Position := v |>).
Proof. unfold frame_wf. cbn. tauto. Qed.
Lemma set_session f v : frame_wf f -> is_u32 v -> frame_wf (f <| SenderSession := v |>).
Proof. unfold frame_wf. cbn. tauto. Qed.
Lemma set_target f v : frame_wf f -> is_u32 v -> frame_wf (f <| Target := v |>).
Proof. unfold frame_wf. cbn. tauto. Qed.
#[local] Hint Resolve set_frame_number set_terminator set_has_position set_opus set_position
  set_session set_target : mumble.

Lemma has_position_set f v : HasPosition (f <| HasPosition := v |>) = v.
Proof. done. Qed.

Lemma decodeLegacy_body_wf f b : frame_wf f -> bytes_ok b -> zlen b < 2 ^ 63 ->
  frame_wf (decodeLegacy_body f b).1 /\ (decodeLegacy_body f b).2 <> Some Panic.
Proof.
  intros Hf Hb Hl. unfold decodeLegacy_body. pose proof (legacy_read_wf b Hb) as R1.
  destruct (legacy_read b) as [[seq b']|e]; [|split; [done|cbn; congruence]]. destruct R1 as (Hs & Hb' & Hl1).
  pose proof (legacy_read_wf b' Hb') as R2.
  destruct (legacy_read b') as [[size b'']|e]; [|split; [by cbn [fst]; auto with mumble|cbn; congruence]].
  destruct R2 as (Hz & Hb'' & Hl2).
  destruct (0x3fff <? size); [split; [by cbn [fst]; auto with mumble|done]|].
  destruct (Z.ltb_spec (u64 (zlen b'')) (Z.land size 0x1fff)) as [|Hle]; [split; [by cbn [fst]; auto with mumble|done]|].
  pose proof (zlen_nonneg b''). rewrite u64_id in Hle by zlia.
  assert (0 <= Z.land size 0x1fff) by (apply Z.land_nonneg; zlia).
  rewrite i64_id, slice_ok, slice_from_ok, zdrop_0, Z.sub_0_r by zlia.
  destruct (negb _ && _); [split; [by cbn [fst]; auto 6 with mumble|done]|]. rewrite has_position_set.
  destruct (Z.eqb_spec (zlen (zdrop (Z.land size 0x1fff) b'')) 12) as [H12|]; [|split; [|done]; cbn [fst]; auto 8 with mumble].
  destruct (read_position_ok _ (bytes_ok_zdrop _ _ Hb'') H12) as (ps & -> & Hp & Hw).
  split; [|done]. cbn [fst]. apply set_position; [|done|done]. auto 8 with mumble.
Qed.

Lemma decodeLegacy_wf b server : bytes_ok b ->
  frame_wf (decodeLegacy b server).1 /\ (decodeLegacy b server).2 <> Some Panic.
Proof.
  intros Hb. assert (frame_wf Frame_zero) as H0.
  { unfold frame_wf. cbn. repeat split; try zlia; repeat constructor. all: zlia. }
  unfold decodeLegacy. destruct b as [|b0 b]; [done|]. rewrite zlen_cons_pos, index_0, slice_from_1.
  destruct (Z.ltb_spec MaxPacketSize (zlen (b0 :: b))) as [|Hlen]; [done|].
  unfold MaxPacketSize in Hlen. rewrite zlen_cons in Hlen. apply bytes_ok_cons in Hb as [Hb0 Hb].
  assert (is_u8 (Z.shiftr b0 5)) as Hs.
  { rewrite Z.shiftr_div_pow2 by lia. split; [apply Z.div_pos; zlia|]. apply Z.div_lt_upper_bound; zlia. }
  assert (frame_wf (Frame_zero <| Codec := Z.shiftr b0 5 |> <| Target := Z.land b0 31 |>)) as H1.
  { apply set_target; [|pose proof (land_u8_l b0 31 Hb0); zlia].
    unfold frame_wf in *. cbn in *. tauto. }
  destruct (negb _); [done|]. destruct server; [|apply decodeLegacy_body_wf; [done|done|lia]].
  pose proof (legacy_read_wf b Hb) as R.
  destruct (legacy_read b) as [[v b']|e]; [|split; [done|cbn; congruence]]. destruct R as (_ & Hb' & Hl').
  destruct (MaxUint32 <? v); [done|]. apply decodeLegacy_body_wf; [|done|lia]. auto with mumble.
Qed.

Lemma bytes_ok_slice i j b p : bytes_ok b -> slice i j b = Some p -> bytes_ok p.
Proof. intros Hb. unfold slice. destruct (_ && _ && _); [|done]. intros [= <-]. auto with mumble. Qed.

Lemma consumeField_payload_ok b it : bytes_ok b -> consumeField b 0 = Ok it -> bytes_ok (f_payload it).
Proof.
  intros Hb. unfold consumeField. rewrite Nat.add_1_r. cbn [consume_field].
  destruct (Uvarint b) as [tag n]. destruct (_ || _ || _ || _); [done|].
  destruct (slice_from n b) as [rest|] eqn:Er; [|done].
  apply slice_from_inv in Er as [_ ->]. pose proof (bytes_ok_zdrop n _ Hb) as Hr.
  destruct (Z.land tag 7 =? 0).
  { destruct (Uvarint _) as [v k]. destruct (k <=? 0); [done|]. intros [= <-]. constructor. }
  destruct ((_ =? 1) || _).
  { destruct (_ <? _); [done|]. destruct (slice _ _ _) as [p|] eqn:Ep; [|done].
    intros [= <-]. by eapply bytes_ok_slice. }
  destruct (_ =? 2).
  { destruct (Uvarint _) as [v k]. destruct ((k <=? 0) || _); [done|].
    destruct (slice _ _ _) as [p|] eqn:Ep; [|done]. intros [= <-]. by eapply bytes_ok_slice. }
  destruct (_ =? 3); [|done].
  destruct (consume_group _ _ _ _ _) as [[u|er]|]; [|done|done]. intros [= <-]. constructor.
Qed.

Lemma position_loop_wf fuel : forall p d k, (length p <= fuel)%nat -> zlen p mod 4 = 0 ->
  bytes_ok p -> delivery_wf d ->
  delivery_wf (position_loop fuel p d k).1.1 /\ (position_loop fuel p d k).2 <> Some Panic.
Proof.
  induction fuel as [|fuel IH]; intros p d k Hn H4 Hp Hd.
  { destruct p; [done|cbn in Hn; lia]. }
  cbn [position_loop]. destruct (Z.eqb_spec (zlen p) 0); [done|].
  destruct (Nat.leb_spec 3 k); [done|]. pose proof (zlen_nonneg p).
  assert (4 <= zlen p) by (destruct (decide (zlen p < 4)); [rewrite Z.mod_small in H4; lia|lia]).
  rewrite le_uint32_ok, slice_from_ok by lia. pose proof Hd as (Hf & ? & ?).
  destruct (lookup_lt_is_Some_2 (Position (frame d)) k) as [w ->]; [destruct Hf as (_ & _ & _ & _ & _ & -> & _); lia|].
  assert (zlen (zdrop 4 p) = zlen p - 4) as Hz by (apply zlen_zdrop; lia).
  apply IH; [unfold zlen in *; lia| |auto with mumble|].
  { rewrite Hz. replace (zlen p - 4) with (zlen p + (-1) * 4) by lia. by rewrite Z.mod_add by lia. }
  split; [|done]. apply set_position; [done| |].
  - rewrite length_insert. apply Hf.
  - apply Forall_insert; [apply Hf|]. by apply le32_read_u32.
Qed.

Lemma protobuf_field_wf it d k : is_u64 (f_value it) -> bytes_ok (f_payload it) ->
  (f_typ it = 5 -> zlen (f_payload it) = 4) -> delivery_wf d ->
  delivery_wf (protobuf_field it d k).1.1 /\ (protobuf_field it d k).2 <> Some Panic.
Proof.
  intros Hv Hp H5 Hd. pose proof Hd as (Hf & Hc & Hvol). unfold protobuf_field. cbn zeta.
  destruct (_ || _ || _ || _ || _).
  { repeat case_match; cbn [fst snd]; try done.
    all: split; [|done]; pose proof (u8_range (f_value it)); pose proof (u32_range (f_value it));
      unfold delivery_wf, frame_wf in *; destruct_and?; cbn -[u8 u32]; repeat split; try done; try zlia. }
  destruct (f_number it =? 5). { destruct (negb _); [done|]. split; [|done]. split; [|done]. by apply set_opus. }
  destruct (f_number it =? 6).
  { destruct (_ || _) eqn:E; [done|]. apply orb_false_iff in E as [_ E]. apply negb_false_iff, Z.eqb_eq in E.
    by apply position_loop_wf. }
  destruct (f_number it =? 7); [|done]. destruct (Z.eqb_spec (f_typ it) 5) as [T|]; [|done]. cbn [negb].
  rewrite le_uint32_ok by (rewrite H5; done). split; [|done]. split; [done|]. split; [done|].
  cbn. by apply le32_read_u32.
Qed.

Lemma protobuf_loop_wf fuel : forall b d k, zlen b < 2 ^ 63 -> (length b <= fuel)%nat ->
  bytes_ok b -> delivery_wf d ->
  delivery_wf (protobuf_loop fuel b d k).1.1 /\ (protobuf_loop fuel b d k).2 <> Some Panic.
Proof.
  induction fuel as [|fuel IH]; intros b d k Hb Hn Hok Hd.
  { destruct b; [done|cbn in Hn; lia]. }
  destruct b as [|c b]; [done|]. cbn [protobuf_loop].
  pose proof (consumeField_bounds (c :: b) 0 Hb) as HB.
  pose proof (consumeField_payload_ok (c :: b)) as HP.
  destruct (consumeField (c :: b) 0) as [it|e]; [|split; [done|cbn; congruence]].
  rewrite slice_from_ok by lia.
  destruct (protobuf_field_wf it d k) as [W1 W2]; [apply HB|by apply HP|apply HB|done|].
  destruct (protobuf_field it d k) as [[d' k'] [e|]]; [done|].
  assert (zlen (zdrop (f_used it) (c :: b)) = zlen (c :: b) - f_used it) as Hl by (apply zlen_zdrop; lia).
  apply IH; [lia| |by auto with mumble|done]. unfold zlen in *. cbn [length] in *. lia.
Qed.

Lemma decodeProtobuf_wf b : bytes_ok b ->
  delivery_wf (decodeProtobuf b).1 /\ (decodeProtobuf b).2 <> Some Panic.
Proof.
  intros Hb. unfold decodeProtobuf.
  assert (delivery_wf (mkDelivery (Frame_zero <| Codec := CodecOpus |>) 0 0)) as H0.
  { unfold delivery_wf, frame_wf, CodecOpus. cbn. repeat split; try zlia; repeat constructor. all: zlia. }
  destruct b as [|b0 b]; [done|]. rewrite zlen_cons_nz, index_0, slice_from_1. cbn [orb].
  destruct (Z.ltb_spec MaxPacketSize (zlen (b0 :: b))) as [|E]; [done|].
  unfold MaxPacketSize in E. rewrite zlen_cons in E. destruct (negb _); [done|].
  apply bytes_ok_cons in Hb as [_ Hb].
  destruct (protobuf_loop_wf (length b) b (mkDelivery (Frame_zero <| Codec := CodecOpus |>) 0 0) 0) as [W1 W2];
    [lia|lia|done|done|].
  destruct (protobuf_loop _ _ _ _) as [[d k] [e|]]; [done|]. cbn [fst snd] in *.
  destruct (_ || _); [done|]. split; [|done]. destruct W1 as (? & ? & ?). split; [|done].
  cbn. auto with mumble.
Qed.

(** ** The boundary functions *)

(** C36: the trust boundary of incoming voice. Whatever bytes a client sends, in
    whatever mode: the decoder returns, no index and no slice of it is ever out
    of range (which would be a panic), and it never reports a sender (the
    session is assigned by the authenticated connection); a packet
    it accepts has an Opus payload, a target of five bits, and every field at
    its width. *)
Theorem DecodeClientPacket_safe (mode : Z) (data : bytes) :
  bytes_ok data ->
  let '(f, err) := DecodeClientPacket mode data in
  SenderSession f = 0 /\ frame_wf f /\ err <> Some Panic /\
  (err = None -> Target f <= 31 /\ Codec f = CodecOpus /\ OpusData f <> [] /\
     zlen data <= MaxPacketSize).
Proof.
  intros Hok. assert (frame_wf Frame_zero) as H0.
  { unfold frame_wf. cbn. repeat split; try zlia; repeat constructor. all: zlia. }
  unfold DecodeClientPacket. destruct (zlen data =? 0); [done|].
  destruct (Z.ltb_spec MaxPacketSize (zlen data)) as [|Hlen]; [done|].
  assert (exists f err, (if mode =? WireLegacy then decodeLegacy data false
    else if mode =? WireProtobuf then let '(d, err) := decodeProtobuf data in (frame d, err)
    else (Frame_zero, Some ErrInvalidPacket)) = (f, err) /\ frame_wf f /\ err <> Some Panic)
    as (f & err & -> & Hf & He).
  { destruct (decodeLegacy_wf data false Hok) as [W1 W2].
    destruct (decodeProtobuf_wf data Hok) as [(W3 & _) W4].
    destruct (mode =? WireLegacy); [by destruct (decodeLegacy data false); eauto|].
    destruct (mode =? WireProtobuf); [by destruct (decodeProtobuf data); eauto|]. by eauto. }
  assert (frame_wf (f <| SenderSession := 0 |>)) by (apply set_session; [done|zlia]).
  destruct err as [e|]; [done|].
  destruct (_ || _) eqn:E; [done|]. rewrite !orb_false_iff in E. destruct E as ((E1 & E2) & E3).
  apply Z.ltb_ge in E1. apply negb_false_iff, Z.eqb_eq in E2. apply Z.eqb_neq in E3.
  split; [done|]. split; [done|]. split; [done|]. intros _. split; [done|]. split; [done|].
  split; [|done]. intros E4. by rewrite E4 in E3.
Qed.

Lemma DecodeClientPacket_safe_witness :
  bytes_ok [0x83; 5; 2; 9; 9] /\
  (let '(f, err) := DecodeClientPacket WireLegacy [0x83; 5; 2; 9; 9] in
   SenderSession f = 0 /\ frame_wf f /\ err <> Some Panic /\
   (err = None -> Target f <= 31 /\ Codec f = CodecOpus /\ OpusData f <> [] /\
     zlen [0x83; 5; 2; 9; 9] <= MaxPacketSize)) /\
  (DecodeClientPacket WireLegacy [0x83; 5; 2; 9; 9]).2 = None.
Proof.
  assert (bytes_ok [0x83; 5; 2; 9; 9]) as H by (repeat constructor; cbn; lia).
  split; [exact H|]. split; [exact (DecodeClientPacket_safe WireLegacy _ H)|]. vm_compute. reflexivity.
Defined.

Lemma EncodeServerPacket_inv mode d b : EncodeServerPacket mode d = Ok b ->
  Codec (frame d) = CodecOpus /\ OpusData (frame d) <> [] /\ Context d <= 3 /\ zlen b <= MaxPacketSize /\
  ((mode = WireLegacy /\ encodeLegacy d true = Ok b) \/
   (mode = WireProtobuf /\ b = encodeProtobuf d true)).
Proof.
  unfold EncodeServerPacket. destruct (_ || _) eqn:E; [done|].
  rewrite !orb_false_iff in E. destruct E as (((E1 & E2) & E3) & E4).
  apply negb_false_iff, Z.eqb_eq in E1. apply Z.eqb_neq in E2. apply Z.ltb_ge in E4.
  intros H. split; [done|]. split; [intros Ho; by rewrite Ho in E2|]. split; [done|].
  destruct (Z.eqb_spec mode WireLegacy); [|destruct (Z.eqb_spec mode WireProtobuf); [|done]].
  - destruct (encodeLegacy d true) as [b'|]; [|done]. cbn [mbind result_bind] in H.
    destruct (Z.ltb_spec MaxPacketSize (zlen b')); [done|]. injection H as <-. auto.
  - cbn [mbind result_bind] in H.
    destruct (Z.ltb_spec MaxPacketSize (zlen (encodeProtobuf d true))); [done|]. injection H as <-. auto.
Qed.

(** C38: what the server encodes for a listener, the listener's decoder reads
    back field by field, in both wire forms: payload, sender, sequence number,
    context, terminator and position, and in the protobuf form the volume
    (whose neutral values 0 and 1 are left out). The packet is never larger
    than the limit receivers enforce. *)
Theorem server_packet_roundtrip (mode : Z) (d : Delivery) (b : bytes) :
  delivery_wf d -> EncodeServerPacket mode d = Ok b ->
  zlen b <= MaxPacketSize /\
  ((mode = WireLegacy /\ decodeLegacy b true = (legacy_seen true d, None)) \/
   (mode = WireProtobuf /\ decodeProtobuf b = (protobuf_seen true d, None))).
Proof.
  intros Hwf He. destruct (EncodeServerPacket_inv mode d b He) as (Hc & Hne & Hx & Hl & [[-> E]|[-> ->]]).
  - split; [done|]. left. split; [done|]. apply decodeLegacy_encodeLegacy; try done. lia.
  - split; [done|]. right. split; [done|]. by apply decodeProtobuf_encodeProtobuf.
Qed.

Definition sample_delivery : Delivery :=
  mkDelivery (mkFrame CodecOpus 0 77 300 [1; 2; 3] [1; 2; 0x3F800000] true true) ContextWhisper 0x40000000.

Lemma sample_delivery_wf : delivery_wf sample_delivery.
Proof.
  unfold sample_delivery, CodecOpus, ContextWhisper, delivery_wf, frame_wf. cbn.
  repeat split; try zlia; repeat constructor. all: zlia.
Qed.

Lemma server_packet_roundtrip_witness :
  delivery_wf sample_delivery /\
  exists b, EncodeServerPacket WireProtobuf sample_delivery = Ok b /\ zlen b <= MaxPacketSize /\
    ((WireProtobuf = WireLegacy /\ decodeLegacy b true = (legacy_seen true sample_delivery, None)) \/
     (WireProtobuf = WireProtobuf /\ decodeProtobuf b = (protobuf_seen true sample_delivery, None))).
Proof.
  split; [exact sample_delivery_wf|]. eexists. split; [vm_compute; reflexivity|].
  apply server_packet_roundtrip; [exact sample_delivery_wf|vm_compute; reflexivity].
Defined.

(** The encoder does not drop ordinary voice: an Opus frame of up to 870
    bytes, with any session, sequence number, context, position and volume, is
    encoded in both modes (no error, no panic), payload included. *)
Theorem EncodeServerPacket_complete (mode : Z) (d : Delivery) :
  delivery_wf d -> mode = WireLegacy \/ mode = WireProtobuf ->
  Codec (frame d) = CodecOpus -> 0 < zlen (OpusData (frame d)) <= 870 ->
  Target (frame d) <= 31 -> Context d <= ContextListen ->
  exists b, EncodeServerPacket mode d = Ok b /\ zlen (OpusData (frame d)) < zlen b.
Proof.
  intros Hwf Hm Hc Hl Ht Hx. pose proof Hwf as ((_ & _ & _ & _ & _ & Hp & _) & _ & _).
  unfold EncodeServerPacket. rewrite Hc. unfold MaxPacketSize in *.
  destruct (Z.eqb_spec (zlen (OpusData (frame d))) 0); [lia|].
  destruct (Z.ltb_spec 1024 (zlen (OpusData (frame d)))); [lia|].
  destruct (Z.ltb_spec ContextListen (Context d)); [lia|]. cbn [Z.eqb CodecOpus Pos.eqb negb orb].
  destruct Hm as [-> | ->]; cbn [Z.eqb Pos.eqb WireLegacy WireProtobuf].
  - destruct (encodeLegacy_shape d true Hwf) as (o0 & o1 & o2 & -> & _ & _ & _ & L0 & L1 & L2); [lia|done|].
    cbn [mbind result_bind]. eexists. unfold legacy_tail.
    assert (zlen (if HasPosition (frame d) then concat (map le32 (Position (frame d))) else []) <= 12).
    { destruct (HasPosition (frame d)); [|done]. rewrite le32_concat_len. unfold zlen. rewrite Hp. done. }
    pose proof (zlen_nonneg (if HasPosition (frame d) then concat (map le32 (Position (frame d))) else [])).
    pose proof (zlen_nonneg o0). pose proof (zlen_nonneg o1). pose proof (zlen_nonneg o2).
    match goal with |- context [1024 <? ?l] => destruct (Z.ltb_spec 1024 l) as [Hbig|] end.
    { rewrite zlen_cons, !zlen_app in Hbig. lia. }
    split; [done|]. rewrite zlen_cons, !zlen_app. lia.
  - cbn [mbind result_bind]. eexists. rewrite encodeProtobuf_shape.
    destruct (pieces_len d true Hp) as (L0 & L4 & L3 & L2 & L1). cbn zeta in *.
    pose proof (field_bytes_ge 5 (OpusData (frame d))).
    pose proof (field_varint_len 2 (Context d)). pose proof (field_varint_len 3 (SenderSession (frame d))).
    match goal with |- context [1024 <? ?l] => destruct (Z.ltb_spec 1024 l) as [Hbig|] end.
    { rewrite zlen_cons, !zlen_app in Hbig. lia. }
    split; [done|]. rewrite zlen_cons, !zlen_app.
    repeat match goal with |- context [zlen (if ?c then ?l else ?r)] =>
      pose proof (zlen_nonneg (if c then l else r)); generalize dependent (zlen (if c then l else r)); intros end.
    pose proof (zlen_nonneg (field_varint 2 (Context d))).
    pose proof (zlen_nonneg (field_varint 3 (SenderSession (frame d)))). lia.
Qed.

Lemma EncodeServerPacket_complete_witness :
  exists b, EncodeServerPacket WireLegacy sample_delivery = Ok b /\
    zlen (OpusData (frame sample_delivery)) < zlen b.
Proof.
  apply EncodeServerPacket_complete; [exact sample_delivery_wf|by left|reflexivity|done|done|done].
Defined.

(** A client frame survives the client's encoder and the server's decoder
    in both wire forms; only the claimed sender is erased. *)
Theorem client_packet_roundtrip (d : Delivery) (b : bytes) (mode : Z) :
  delivery_wf d -> Codec (frame d) = CodecOpus -> OpusData (frame d) <> [] ->
  Target (frame d) <= 31 -> zlen b <= MaxPacketSize ->
  (mode = WireLegacy /\ encodeLegacy d false = Ok b) \/
  (mode = WireProtobuf /\ encodeProtobuf d false = b) ->
  DecodeClientPacket mode b = (legacy_seen false d, None).
Proof.
  intros Hwf Hc Hne Ht Hb He. unfold DecodeClientPacket.
  assert (zlen b <> 0) as Hnz.
  { destruct He as [[_ He]|[_ <-]].
    - destruct b; [|rewrite zlen_cons; pose proof (zlen_nonneg b); lia].
      by pose proof (decodeLegacy_encodeLegacy d false [] Hwf Hc ltac:(done) He Hb).
    - rewrite encodeProtobuf_shape, zlen_cons. match goal with |- 1 + zlen ?l <> 0 => pose proof (zlen_nonneg l) end. lia. }
  apply Z.eqb_neq in Hnz. rewrite Hnz. destruct (Z.ltb_spec MaxPacketSize (zlen b)); [lia|].
  assert (zlen (OpusData (frame d)) <> 0) as Ho.
  { destruct (OpusData (frame d)) as [|o os]; [done|]. rewrite zlen_cons. pose proof (zlen_nonneg os). lia. }
  apply Z.eqb_neq in Ho.
  destruct He as [[-> He]|[-> <-]]; cbn [Z.eqb Pos.eqb WireLegacy WireProtobuf].
  - rewrite (decodeLegacy_encodeLegacy d false b) by done. unfold legacy_seen. cbn -[Z.ltb Z.eqb].
    destruct (Z.ltb_spec 31 (Target (frame d))); [lia|]. by rewrite Ho.
  - rewrite decodeProtobuf_encodeProtobuf by done. unfold protobuf_seen, legacy_seen. cbn -[Z.ltb Z.eqb].
    destruct (Z.ltb_spec 31 (Target (frame d))); [lia|]. by rewrite Ho.
Qed.

Lemma client_packet_roundtrip_witness :
  exists b, encodeLegacy sample_delivery false = Ok b /\
    DecodeClientPacket WireLegacy b = (legacy_seen false sample_delivery, None).
Proof.
  eexists. split; [vm_compute; reflexivity|].
  apply client_packet_roundtrip; [exact sample_delivery_wf|reflexivity|done|done|done|].
  left. split; [reflexivity|vm_compute; reflexivity].
Defined.
