(* ===== verification/AudioCache.v ===== *)
(** * Sharing encodings between receivers (pkg/mumble/audio/cache.go)

    [EncodingCache.Encode] against the plain encoder, and [MergeDelivery]
    against the order in which a receiver is reached. *)

From Stdlib Require Import ZArith Lia.
From stdpp Require Import base numbers list gmap countable.
From S2P Require Import Prelude Wire Fields AudioVarint AudioPacket.
Open Scope Z_scope.

Record encodingKey := mkKey {
  key_mode : Z;
  key_context : Z;
  key_volume : Z;
  key_position : bool }.

#[export] Instance encodingKey_eq_dec : EqDecision encodingKey.
Proof. solve_decision. Defined.
#[export] Instance encodingKey_countable : Countable encodingKey.
Proof.
  apply (inj_countable' (fun k => (key_mode k, key_context k, key_volume k, key_position k))
    (fun '(m, c, v, p) => mkKey m c v p)). by intros [].
Defined.

Definition EncodingCache : Type := gmap encodingKey bytes.
Definition NewEncodingCache : EncodingCache := ∅.

(** The receiver may be nil; the cache is updated only by a first success. *)
Definition Encode (c : option EncodingCache) (mode : Z) (d : Delivery)
    : result audio_error bytes * option EncodingCache :=
  match c with
  | None => (EncodeServerPacket mode d, None)
  | Some packets =>
      let key := mkKey mode (Context d) (VolumeAdjustment d) (HasPosition (frame d)) in
      match packets !! key with
      | Some b => (Ok b, c)
      | None =>
          match EncodeServerPacket mode d with
          | Ok b => (Ok b, Some (<[key := b]> packets))
          | Err e => (Err e, c)
          end
      end
  end.

Definition Groups (c : EncodingCache) : Z := Z.of_nat (size c).

(** One routing call: the results of a sequence of [Encode]s on one cache. *)
Fixpoint encode_all (c : option EncodingCache) (calls : list (Z * Delivery))
    : list (result audio_error bytes) * option EncodingCache :=
  match calls with
  | [] => ([], c)
  | (mode, d) :: calls =>
      let '(r, c) := Encode c mode d in
      let '(rs, c) := encode_all c calls in (r :: rs, c)
  end.

(** ** float32 comparison on bit patterns *)

Definition f32_is_nan (bits : Z) : bool :=
  0x7F800000 <? Z.land bits 0x7FFFFFFF.

(** Sign and magnitude, ordered like the values; both zeros are 0. *)
Definition f32_order (bits : Z) : Z :=
  if bits <? 2 ^ 31 then bits else - (bits - 2 ^ 31).

(** [a > b]: false when either side is a NaN. *)
Definition f32_gt (a b : Z) : bool :=
  negb (f32_is_nan a) && negb (f32_is_nan b) && (f32_order b <? f32_order a).

Definition MergeDelivery (a b : Delivery) : Delivery :=
  let a := if Context b <? Context a then a <| Context := Context b |> else a in
  if f32_gt (VolumeAdjustment b) (VolumeAdjustment a)
  then a <| VolumeAdjustment := VolumeAdjustment b |> else a.

(** ** The cache is transparent *)

(** The frames of one routing call differ at most in whether the position is
    forwarded. *)
Definition same_voice (f : Frame) (d : Delivery) : Prop :=
  frame d = f <| HasPosition := HasPosition (frame d) |>.

Definition cache_ok (f : Frame) (c : EncodingCache) : Prop :=
  forall mode d b, same_voice f d ->
    c !! mkKey mode (Context d) (VolumeAdjustment d) (HasPosition (frame d)) = Some b ->
    EncodeServerPacket mode d = Ok b.

Lemma same_voice_key f d d' : same_voice f d -> same_voice f d' ->
  Context d = Context d' -> VolumeAdjustment d = VolumeAdjustment d' ->
  HasPosition (frame d) = HasPosition (frame d') -> d = d'.
Proof.
  unfold same_voice. destruct d as [fd c v], d' as [fd' c' v']. cbn. intros H H' -> -> Hp.
  rewrite H, H', Hp. done.
Qed.

Lemma Encode_ok f c mode d : cache_ok f c -> same_voice f d ->
  (Encode (Some c) mode d).1 = EncodeServerPacket mode d /\
  exists c', (Encode (Some c) mode d).2 = Some c' /\ cache_ok f c'.
Proof.
  intros Hc Hd. cbn [Encode].
  destruct (c !! _) as [b|] eqn:E.
  { split; [symmetry; by eapply Hc|]. by exists c. }
  destruct (EncodeServerPacket mode d) as [b|e] eqn:Es; cbn [fst snd]; (split; [done|]).
  2: { by exists c. }
  eexists. split; [done|]. intros mode' d' b' Hd' Hl.
  apply lookup_insert_Some in Hl. destruct Hl as [[Hk <-]|[_ Hl]]; [|by eapply Hc].
  injection Hk as <- Hx Hv Hp. by rewrite (same_voice_key f d' d).
Qed.

(** The cache is invisible: in one routing call, where every delivery
    carries the same frame (with or without its position), every [Encode]
    returns exactly what encoding afresh would have returned, whatever the
    sequence of modes, contexts and volumes. *)
Theorem encode_cache_transparent (f : Frame) (calls : list (Z * Delivery)) :
  Forall (fun c => same_voice f c.2) calls ->
  (encode_all (Some NewEncodingCache) calls).1 =
    map (fun c => EncodeServerPacket c.1 c.2) calls.
Proof.
  intros Hall. assert (cache_ok f NewEncodingCache) as H0 by (intros mode d b _ Hl; by unfold NewEncodingCache, EncodingCache in Hl; rewrite lookup_empty in Hl).
  revert H0. generalize NewEncodingCache. induction calls as [|[mode d] calls IH]; intros c Hc; [done|].
  apply Forall_cons_iff in Hall as [Hd Hall]. cbn [encode_all map fst snd] in *.
  destruct (Encode_ok f c mode d Hc Hd) as (H1 & c' & H2 & Hc').
  destruct (Encode (Some c) mode d) as [r oc]. cbn [fst snd] in *. subst r oc.
  specialize (IH Hall c' Hc'). destruct (encode_all (Some c') calls) as [rs oc]. cbn [fst] in *. by subst.
Qed.

Lemma encode_cache_transparent_witness :
  let d := sample_delivery in
  let quiet := d <| VolumeAdjustment := 0 |> in
  (encode_all (Some NewEncodingCache) [(1, d); (0, d); (1, quiet); (1, d)]).1 =
    map (fun c => EncodeServerPacket c.1 c.2) [(1, d); (0, d); (1, quiet); (1, d)].
Proof.
  apply (encode_cache_transparent (frame sample_delivery)). repeat constructor.
Defined.

(** ** Merging is independent of the order *)

Definition merge_all (d : Delivery) (ds : list Delivery) : Delivery := fold_left MergeDelivery ds d.

(** A volume a comparison can order: not a NaN, and one zero. *)
Definition f32_ordered (bits : Z) : Prop :=
  is_u32 bits /\ f32_is_nan bits = false /\ bits <> 2 ^ 31.

Lemma f32_order_inj a b : f32_ordered a -> f32_ordered b -> f32_order a = f32_order b -> a = b.
Proof.
  intros (Ha & _ & Na) (Hb & _ & Nb). unfold f32_order.
  destruct (Z.ltb_spec a (2 ^ 31)), (Z.ltb_spec b (2 ^ 31)); zlia.
Qed.

(** The merge of [ds]: its frame, the least context, the greatest volume. *)
Definition is_merge (f : Frame) (ds : list Delivery) (r : Delivery) : Prop :=
  frame r = f /\ (exists d, d ∈ ds /\ Context r = Context d) /\
  (exists d, d ∈ ds /\ VolumeAdjustment r = VolumeAdjustment d) /\
  (forall d, d ∈ ds -> Context r <= Context d /\
     f32_order (VolumeAdjustment d) <= f32_order (VolumeAdjustment r)).

Lemma MergeDelivery_is_merge f ds r b :
  Forall (fun d => f32_ordered (VolumeAdjustment d)) (b :: ds) ->
  is_merge f ds r -> is_merge f (b :: ds) (MergeDelivery r b).
Proof.
  intros Hord (Hf & (dc & Hdc & Hc) & (dv & Hdv & Hv) & Hall). rewrite Forall_forall in Hord.
  assert (f32_ordered (VolumeAdjustment r)) as Hr by (rewrite Hv; apply Hord; right; by apply list_elem_of_In).
  assert (f32_ordered (VolumeAdjustment b)) as Hb by (apply Hord; by left).
  assert (f32_gt (VolumeAdjustment b) (VolumeAdjustment r) =
    (f32_order (VolumeAdjustment r) <? f32_order (VolumeAdjustment b))) as Hgt.
  { unfold f32_gt. destruct Hr as (_ & -> & _), Hb as (_ & -> & _). done. }
  unfold MergeDelivery. 
  destruct (Z.ltb_spec (Context b) (Context r)) as [Hlt|Hge]; cbn [set_field VolumeAdjustment Context frame];
    rewrite Hgt;
    destruct (Z.ltb_spec (f32_order (VolumeAdjustment r)) (f32_order (VolumeAdjustment b)));
    (split; [done|]); cbn [Context VolumeAdjustment]; (split; [|split]);
    try (by exists b; split; [left|]); try (by exists dc; split; [right|]); try (by exists dv; split; [right|]);
    intros d [->|Hd]%elem_of_cons; try (split; lia); specialize (Hall d Hd); split; lia.
Qed.

Lemma merge_all_is_merge f d ds :
  Forall (fun d => frame d = f /\ f32_ordered (VolumeAdjustment d)) (d :: ds) ->
  is_merge f (d :: ds) (merge_all d ds).
Proof.
  intros Hall. unfold merge_all.
  enough (forall seen r, Forall (fun d => f32_ordered (VolumeAdjustment d)) (seen ++ ds) ->
    is_merge f seen r -> is_merge f (rev ds ++ seen) (fold_left MergeDelivery ds r)) as H.
  { apply Forall_cons_iff in Hall as [[Hf Ho] Hall].
    specialize (H [d] d). destruct H as (H1 & (x & Hx & Hc) & (y & Hy & Hv) & H4).
    - constructor; [done|]. eapply Forall_impl; [|exact Hall]. by intros ? [].
    - split; [done|]. split; [by exists d; split; [left|]|]. split; [by exists d; split; [left|]|].
      intros e [->|He]%elem_of_cons; [lia|by apply elem_of_nil in He].
    - assert (forall x, x ∈ rev ds ++ [d] <-> x ∈ d :: ds) as Hm.
      { intros z. change (z ∈ rev (d :: ds) <-> z ∈ d :: ds). rewrite !list_elem_of_In. symmetry. apply in_rev. }
      split; [done|]. split; [exists x; by rewrite <- Hm|]. split; [exists y; by rewrite <- Hm|].
      intros z Hz. apply H4. by apply Hm. }
  clear Hall. induction ds as [|b ds IH]; intros seen r Hord Hm; [done|].
  cbn [fold_left rev]. rewrite <- app_assoc. apply IH.
  - eapply Permutation_Forall; [|exact Hord]. symmetry. cbn. apply Permutation_middle.
  - apply MergeDelivery_is_merge; [|done]. apply Forall_app in Hord as [Hs Hb].
    apply Forall_cons_iff in Hb as [Hb _]. by constructor.
Qed.

(** A receiver reached along several paths (as channel member, whisper
    target, listener) gets the same delivery in whatever order the paths are
    merged, as the comment on [MergeDelivery] says, provided the volumes are
    ordinary floats: no NaN, no negative zero. *)
Theorem merge_order_independent (f : Frame) (d d' : Delivery) (ds ds' : list Delivery) :
  Forall (fun d => frame d = f /\ f32_ordered (VolumeAdjustment d)) (d :: ds) ->
  d :: ds ≡ₚ d' :: ds' ->
  merge_all d ds = merge_all d' ds'.
Proof.
  intros Hall Hp. assert (Forall (fun d => frame d = f /\ f32_ordered (VolumeAdjustment d)) (d' :: ds')) as Hall'
    by (eapply Permutation_Forall; [exact Hp|done]).
  destruct (merge_all_is_merge f d ds Hall) as (F & (x & Hx & Ec) & (y & Hy & Ev) & M).
  destruct (merge_all_is_merge f d' ds' Hall') as (F' & (x' & Hx' & Ec') & (y' & Hy' & Ev') & M').
  assert (f32_ordered (VolumeAdjustment y) /\ f32_ordered (VolumeAdjustment y')) as [Oy Oy'].
  { rewrite Forall_forall in Hall, Hall'. split; [apply Hall|apply Hall']; by apply list_elem_of_In. }
  pose proof (M x' ltac:(by rewrite Hp)) as [? _]. pose proof (M' x ltac:(by rewrite <- Hp)) as [? _].
  pose proof (M y' ltac:(by rewrite Hp)) as [_ ?]. pose proof (M' y ltac:(by rewrite <- Hp)) as [_ ?].
  assert (VolumeAdjustment y = VolumeAdjustment y') by (apply f32_order_inj; [done|done|]; rewrite Ev, Ev' in *; lia).
  destruct (merge_all d ds) as [f1 c1 v1], (merge_all d' ds') as [f2 c2 v2]. cbn in *.
  subst. f_equal; [lia|done].
Qed.

Lemma merge_order_independent_witness :
  let a := sample_delivery in
  let b := a <| Context := ContextNormal |> <| VolumeAdjustment := 0xC0000000 |> in
  merge_all a [b] = merge_all b [a] /\ Context (merge_all a [b]) = ContextNormal.
Proof.
  split; [|reflexivity].
  apply (merge_order_independent (frame sample_delivery)).
  - repeat constructor; done.
  - apply Permutation_swap.
Defined.

(** The proviso matters: a NaN volume is kept or dropped depending on which
    path is merged first. *)
Theorem merge_nan_order_dependent (f : Frame) :
  let nan := mkDelivery f ContextNormal 0x7FC00000 in
  let one := mkDelivery f ContextNormal f32_one in
  MergeDelivery nan one = nan /\ MergeDelivery one nan = one /\ nan <> one.
Proof. cbn. split; [done|]. split; [done|]. intros [=]. Qed.
