(* ===== verification/Ocb2.v ===== *)
(** * OCB2-AES128 (pkg/mumble/crypto/ocb2/ocb2.go)

    The mode of operation over an abstract 16-byte block cipher
    ([crypto/cipher.Block]), the field arithmetic it uses, and the proof that
    decryption inverts encryption and accepts its tag. *)

From Stdlib Require Import ZArith Lia.
From stdpp Require Import base numbers list.
From S2P Require Import Prelude.
Open Scope Z_scope.

Definition BlockSize : nat := 16.
Definition TagSize : nat := 16.
Definition NonceSize : nat := 16.
Definition MumbleTag : nat := 3.

(** [zeros(block)] on a buffer of one block. *)
Definition zeros : bytes := replicate BlockSize 0.

(** [xor(dst, a, b)]: the first [n] bytes of [dst] are overwritten. *)
Definition xor (dst a b : bytes) : bytes :=
  let n := BlockSize in
  let n := if Nat.ltb (length a) n then length a else n in
  let n := if Nat.ltb (length b) n then length b else n in
  zip_with Z.lxor (take n a) (take n b) ++ drop n dst.

(** [copy(dst, src)]. *)
Definition copy (dst src : bytes) : bytes :=
  take (length dst) src ++ drop (length src) dst.

(** [block[i] << 1 | (block[i+1] >> 7) & 1], and the last byte with the carry;
    each byte reads its right neighbour before that one is written. *)
Fixpoint shift_block (block : bytes) (carry : Z) : bytes :=
  match block with
  | [] => []
  | [b] => [Z.lxor (u8 (Z.shiftl b 1)) (u8 (carry * 135))]
  | b :: (b' :: _) as tail =>
      Z.lor (u8 (Z.shiftl b 1)) (Z.land (Z.shiftr b' 7) 0x1) :: shift_block tail carry
  end.

Definition block_carry (block : bytes) : Z :=
  match block with b :: _ => Z.land (Z.shiftr b 7) 0x1 | [] => 0 end.

Definition times2 (block : bytes) : bytes := shift_block block (block_carry block).

Definition times3 (block : bytes) : bytes :=
  zip_with Z.lxor block (shift_block block (block_carry block)).

Section Mode.

(** [block.Encrypt] and [block.Decrypt] of the cipher. *)
Context (E D : bytes -> bytes).

(** The state of the block loop: the source left, the offset [delta], the
    checksum, and the output so far. *)
Fixpoint encrypt_blocks (fuel : nat) (src delta checksum out : bytes)
    : bytes * bytes * bytes * bytes :=
  match fuel with
  | O => (src, delta, checksum, out)
  | S fuel =>
      if Nat.ltb BlockSize (length src) then
        let delta := times2 delta in
        let s := take BlockSize src in
        let tmp := E (xor zeros delta s) in
        let o := xor zeros delta tmp in
        let checksum := xor checksum checksum s in
        encrypt_blocks fuel (drop BlockSize src) delta checksum (out ++ o)
      else (src, delta, checksum, out)
  end.

Fixpoint decrypt_blocks (fuel : nat) (src delta checksum out : bytes)
    : bytes * bytes * bytes * bytes :=
  match fuel with
  | O => (src, delta, checksum, out)
  | S fuel =>
      if Nat.ltb BlockSize (length src) then
        let delta := times2 delta in
        let s := take BlockSize src in
        let tmp := D (xor zeros delta s) in
        let o := xor zeros delta tmp in
        let checksum := xor checksum checksum o in
        decrypt_blocks fuel (drop BlockSize src) delta checksum (out ++ o)
      else (src, delta, checksum, out)
  end.

(** The block that encodes the bit length of the last, short, block. *)
Definition length_block (remain : nat) : bytes :=
  let num := Z.of_nat remain * 8 in
  <[15%nat := u8 (Z.land num 0xff)]> (<[14%nat := u8 (Z.land (Z.shiftr (u32 num) 8) 0xff)]> zeros).

(** The ciphertext written to [dst] and the tag; [None] is the panic on a
    nonce that is not one block ([block.BlockSize()] is 16 for AES). *)
Definition Encrypt (src nonce : bytes) (tagLen : nat) : option (bytes * bytes) :=
  if negb (Nat.eqb (length nonce) NonceSize) then None else
  let delta := E nonce in
  let checksum := zeros in
  let '(rest, delta, checksum, out) := encrypt_blocks (length src) src delta checksum [] in
  let remain := length rest in
  let delta := times2 delta in
  let tmp := length_block remain in
  let tmp := xor tmp tmp delta in
  let pad := E tmp in
  let tmp := copy tmp rest in
  let tmp := take remain tmp ++ drop remain pad in
  let checksum := xor checksum checksum tmp in
  let tmp := xor tmp pad tmp in
  let out := out ++ take remain tmp in
  let delta := times3 delta in
  let tmp := xor tmp delta checksum in
  Some (out, take tagLen (E tmp)).

(** The plaintext written to [dst] and whether the tag verifies. *)
Definition Decrypt (src nonce tag : bytes) : option (bytes * bool) :=
  if negb (Nat.eqb (length nonce) NonceSize) then None else
  let tagLen := if Nat.ltb TagSize (length tag) then TagSize else length tag in
  let delta := E nonce in
  let checksum := zeros in
  let '(rest, delta, checksum, out) := decrypt_blocks (length src) src delta checksum [] in
  let remain := length rest in
  let delta := times2 delta in
  let tmp := length_block remain in
  let tmp := xor tmp tmp delta in
  let pad := E tmp in
  let tmp := xor tmp rest pad in
  let tmp := take remain tmp ++ drop remain pad in
  let checksum := xor checksum checksum tmp in
  let out := out ++ take remain tmp in
  let delta := times3 delta in
  let tmp := xor tmp delta checksum in
  Some (out, bool_decide (take tagLen (E tmp) = tag)).

(** ** Decryption inverts encryption *)

(** What the mode relies on: [Decrypt] undoes [Encrypt] on a block, and both
    return blocks. *)
Context (E_block : forall b, length b = BlockSize -> length (E b) = BlockSize).
Context (DE : forall b, length b = BlockSize -> D (E b) = b).

Lemma xor_block dst a b : length dst = BlockSize -> length a = BlockSize -> length b = BlockSize ->
  xor dst a b = zip_with Z.lxor a b.
Proof.
  intros Hd Ha Hb. unfold xor. rewrite Ha, Hb. cbn [Nat.ltb Nat.leb BlockSize].
  change 16%nat with BlockSize. rewrite !take_ge, drop_ge, app_nil_r by lia. done.
Qed.

Lemma xor_length dst a b : length dst = BlockSize -> length a = BlockSize -> length b = BlockSize ->
  length (xor dst a b) = BlockSize.
Proof. intros. rewrite xor_block by done. rewrite length_zip_with. lia. Qed.

Lemma zip_lxor_cancel (a b : bytes) : length a = length b ->
  zip_with Z.lxor a (zip_with Z.lxor a b) = b.
Proof.
  revert b. induction a as [|x a IH]; intros [|y b] H; try done. cbn. injection H as H.
  rewrite IH by done. by rewrite <- Z.lxor_assoc, Z.lxor_nilpotent, Z.lxor_0_l.
Qed.

Lemma zip_lxor_comm (a b : bytes) : zip_with Z.lxor a b = zip_with Z.lxor b a.
Proof. revert b. induction a as [|x a IH]; intros [|y b]; cbn; try done. by rewrite IH, Z.lxor_comm. Qed.

Lemma shift_block_length block carry : length (shift_block block carry) = length block.
Proof.
  induction block as [|b [|b' block] IH]; [done..|].
  change (length (shift_block (b :: b' :: block) carry)) with (S (length (shift_block (b' :: block) carry))).
  by rewrite IH.
Qed.
Lemma times2_length b : length (times2 b) = length b.
Proof. apply shift_block_length. Qed.
Lemma times3_length b : length (times3 b) = length b.
Proof. unfold times3. rewrite length_zip_with, shift_block_length. lia. Qed.
Lemma length_block_length n : length (length_block n) = BlockSize.
Proof. unfold length_block. by rewrite !length_insert. Qed.
Lemma zeros_length : length zeros = BlockSize.
Proof. done. Qed.
#[local] Hint Resolve xor_length times2_length times3_length length_block_length zeros_length E_block : mumble.

(** The loops, block by block: decrypting what was encrypted walks through the
    same offsets and checksums and returns the source. *)
Lemma blocks_inverse fuel : forall src delta checksum out,
  (length src <= fuel)%nat -> length delta = BlockSize -> length checksum = BlockSize ->
  exists ct pl rest delta' checksum',
    encrypt_blocks fuel src delta checksum out = (rest, delta', checksum', out ++ ct) /\
    src = pl ++ rest /\ (length rest <= BlockSize)%nat /\ length ct = length pl /\
    length delta' = BlockSize /\ length checksum' = BlockSize /\
    forall tail fuel' out', length tail = length rest -> (length src <= fuel')%nat ->
      decrypt_blocks fuel' (ct ++ tail) delta checksum out' = (tail, delta', checksum', out' ++ pl).
Proof.
  assert (forall src delta checksum, (length src <= BlockSize)%nat -> forall fuel out,
    decrypt_blocks fuel src delta checksum out = (src, delta, checksum, out)) as Hstop.
  { intros src delta checksum Hs [|fuel'] out; [done|]. cbn [decrypt_blocks].
    destruct (Nat.ltb_spec BlockSize (length src)); [lia|done]. }
  induction fuel as [|fuel IH]; intros src delta checksum out Hf Hd Hc.
  - exists [], [], src, delta, checksum. cbn [encrypt_blocks app]. rewrite app_nil_r.
    destruct src; [|cbn in Hf; lia]. repeat split; try done; [cbn; lia|].
    intros [|] fuel' out' Ht _; [|done]. rewrite Hstop by (cbn; lia). by rewrite app_nil_r.
  - cbn [encrypt_blocks]. destruct (Nat.ltb_spec BlockSize (length src)) as [Hlt|Hge].
    2: { exists [], [], src, delta, checksum. rewrite app_nil_r. repeat split; try done.
         intros tail fuel' out' Ht _. cbn [app]. rewrite Hstop by lia. by rewrite app_nil_r. }
    set (delta1 := times2 delta). set (s := take BlockSize src).
    assert (length delta1 = BlockSize) as Hd1 by (unfold delta1; by rewrite times2_length).
    assert (length s = BlockSize) as Hs by (unfold s; rewrite length_take; lia).
    set (x := xor zeros delta1 s). assert (length x = BlockSize) as Hx by (apply xor_length; done).
    set (o := xor zeros delta1 (E x)).
    assert (length o = BlockSize) as Ho by (apply xor_length; auto).
    destruct (IH (drop BlockSize src) delta1 (xor checksum checksum s) (out ++ o))
      as (ct & pl & rest & delta' & cs' & -> & Hsrc & Hr & Hl & Hd' & Hc' & Hdec);
      [rewrite length_drop; unfold BlockSize in *; lia|done|by apply xor_length|].
    exists (o ++ ct), (s ++ pl), rest, delta', cs'.
    split; [by rewrite app_assoc|]. split; [by rewrite <- app_assoc, <- Hsrc; symmetry; apply take_drop|].
    split; [done|]. split; [rewrite !length_app; lia|]. split; [done|]. split; [done|].
    intros tail fuel' out' Ht Hf'.
    assert (length (drop BlockSize src) = length (pl ++ rest)) as Hlen by (by rewrite <- Hsrc).
    rewrite length_drop, length_app in Hlen. unfold BlockSize in *.
    destruct fuel' as [|fuel']; [lia|]. cbn [decrypt_blocks]. rewrite <- app_assoc.
    destruct (Nat.ltb_spec BlockSize (length (o ++ ct ++ tail))) as [_|Hbad];
      [|rewrite !length_app in Hbad; unfold BlockSize in *; lia].
    unfold BlockSize. rewrite <- Ho, take_app_length, drop_app_length. fold delta1.
    assert (xor zeros delta1 o = E x) as ->.
    { unfold o. rewrite (xor_block zeros delta1 (E x)), xor_block by (auto || (rewrite length_zip_with, Hd1, (E_block x) by done; done)).
      apply zip_lxor_cancel. rewrite Hd1, E_block; done. }
    rewrite DE by done. assert (xor zeros delta1 x = s) as ->.
    { unfold x. rewrite (xor_block zeros delta1 s), xor_block by (done || (rewrite length_zip_with, Hd1, Hs; done)).
      apply zip_lxor_cancel. lia. }
    rewrite Hdec by (done || (rewrite length_drop; lia)). by rewrite <- app_assoc.
Qed.

(** The short block: what is recovered from it and the pad it was hidden with. *)
Lemma short_block (rest pad tmp0 tmp1 : bytes) :
  (length rest <= BlockSize)%nat -> length pad = BlockSize ->
  length tmp0 = BlockSize -> length tmp1 = BlockSize ->
  let remain := length rest in
  let tmp := take remain (copy tmp0 rest) ++ drop remain pad in
  let ct := take remain (xor tmp pad tmp) in
  length tmp = BlockSize /\ length ct = remain /\
  take remain (xor tmp1 ct pad) ++ drop remain pad = tmp /\ take remain tmp = rest.
Proof.
  intros Hr Hp H0 H1. cbn zeta.
  assert (take (length rest) (copy tmp0 rest) = rest) as Ht.
  { unfold copy. rewrite (take_ge rest) by lia. by rewrite take_app_length. }
  rewrite Ht. set (tmp := rest ++ drop (length rest) pad).
  assert (length tmp = BlockSize) as Hl by (unfold tmp; rewrite length_app, length_drop; lia).
  assert (take (length rest) tmp = rest) as Htt by (unfold tmp; by rewrite take_app_length).
  rewrite (xor_block tmp pad tmp) by done. rewrite zip_with_take, Htt.
  set (ct := zip_with Z.lxor (take (length rest) pad) rest).
  assert (length ct = length rest) as Hc by (unfold ct; rewrite length_zip_with, length_take; lia).
  split; [done|]. split; [done|]. split; [|done].
  unfold tmp. f_equal. unfold xor. rewrite Hc, Hp.
  destruct (Nat.ltb_spec (length rest) BlockSize) as [Hlt|Hge].
  - destruct (Nat.ltb_spec BlockSize (length rest)); [lia|].
    rewrite (take_ge ct) by lia. rewrite take_app_le by (rewrite length_zip_with, length_take; lia).
    rewrite take_ge by (rewrite length_zip_with, length_take; lia). unfold ct.
    rewrite zip_lxor_comm. apply zip_lxor_cancel. rewrite length_take. lia.
  - assert (length rest = BlockSize) as Hq by lia. rewrite Hq. rewrite Nat.ltb_irrefl.
    rewrite (take_ge ct), (take_ge pad) by lia. rewrite (drop_ge tmp1), app_nil_r by lia.
    rewrite take_ge by (rewrite length_zip_with; lia). unfold ct. rewrite Hq, (take_ge pad) by lia.
    rewrite zip_lxor_comm. apply zip_lxor_cancel. lia.
Qed.

Lemma encrypt_decrypt (src nonce : bytes) (tagLen : nat) :
  length nonce = NonceSize -> (tagLen <= TagSize)%nat ->
  exists ct tag, Encrypt src nonce tagLen = Some (ct, tag) /\
    length ct = length src /\ length tag = tagLen /\ Decrypt ct nonce tag = Some (src, true).
Proof.
  intros Hn Ht. unfold Encrypt, Decrypt. rewrite Hn, Nat.eqb_refl. cbn [negb].
  destruct (blocks_inverse (length src) src (E nonce) zeros []) as
    (ct & pl & rest & delta & cs & -> & Hsrc & Hr & Hl & Hd & Hc & Hdec); [lia|by apply E_block|done|].
  cbn [app]. set (d2 := times2 delta).
  assert (length d2 = BlockSize) as Hd2 by (unfold d2; by rewrite times2_length).
  set (t0 := xor (length_block (length rest)) (length_block (length rest)) d2).
  assert (length t0 = BlockSize) as Ht0 by (apply xor_length; auto using length_block_length).
  set (pad := E t0). assert (length pad = BlockSize) as Hpad by (by apply E_block).
  destruct (short_block rest pad t0 t0 Hr Hpad Ht0 Ht0) as (Hs1 & Hs2 & Hs3 & Hs4). cbn zeta in *.
  set (tmp := take (length rest) (copy t0 rest) ++ drop (length rest) pad) in *.
  set (sct := take (length rest) (xor tmp pad tmp)) in *.
  assert (length (ct ++ sct) = length src) as Hlen by (rewrite Hsrc, !length_app; lia).
  eexists _, _. split; [reflexivity|]. split; [done|].
  set (cs' := xor cs cs tmp). assert (length cs' = BlockSize) as Hcs' by (by apply xor_length).
  assert (length (times3 d2) = BlockSize) as Hd3 by (by rewrite times3_length).
  set (final := xor (xor tmp pad tmp) (times3 d2) cs').
  assert (length final = BlockSize) as Hfin by (apply xor_length; [apply xor_length|..]; done).
  assert (length (E final) = BlockSize) as HE by (by apply E_block).
  assert (length (take tagLen (E final)) = tagLen) as Htl
    by (rewrite length_take, HE; unfold TagSize, BlockSize in *; lia).
  split; [done|]. rewrite Hdec by (rewrite ?Hlen; lia). rewrite Hs2, Htl. fold d2 t0 pad. rewrite Hs3, Hs4.
  f_equal. f_equal; [done|].
  assert (xor tmp (times3 d2) (xor cs cs tmp) = final) as ->.
  { unfold final. fold cs'. rewrite !(xor_block _ (times3 d2) cs'); try done. by apply xor_length. }
  destruct (Nat.ltb_spec TagSize tagLen); [lia|]. by apply bool_decide_eq_true.
Qed.

End Mode.

(** ** The offsets live in GF(2^128) *)

(** A block read as a big-endian number. *)
Fixpoint block_value (b : bytes) : Z :=
  match b with
  | [] => 0
  | x :: b => x * 2 ^ (8 * zlen b) + block_value b
  end.

(** Doubling modulo x^128 + x^7 + x^2 + x + 1. *)
Definition gf_double (v : Z) : Z :=
  Z.lxor ((2 * v) mod 2 ^ 128) (if Z.testbit v 127 then 135 else 0).

Lemma block_value_range b : bytes_ok b -> 0 <= block_value b < 2 ^ (8 * zlen b).
Proof.
  induction b as [|x b IH]; [by vm_compute|]. intros [Hx Hb]%bytes_ok_cons. specialize (IH Hb).
  cbn [block_value]. rewrite zlen_cons. replace (8 * (1 + zlen b)) with (8 + 8 * zlen b) by lia.
  pose proof (zlen_nonneg b). rewrite Z.pow_add_r by lia. unfold is_u8 in Hx. nia.
Qed.

Lemma lxor_high a r c k : 0 <= k -> 0 <= r < 2 ^ k -> 0 <= c < 2 ^ k ->
  a * 2 ^ k + Z.lxor r c = Z.lxor (a * 2 ^ k + r) c.
Proof.
  intros Hk Hr Hc.
  assert (0 <= Z.lxor r c) by (apply Z.lxor_nonneg; lia).
  assert (forall z, 0 <= z < 2 ^ k -> a * 2 ^ k + z = Z.lxor z (Z.shiftl a k)) as Hd.
  { intros z Hz. rewrite Z.add_comm, <- lor_shiftl_add by lia. symmetry. apply Z.lxor_lor.
    apply Z.bits_inj'. intros i Hi. rewrite Z.land_spec, Z.shiftl_spec, Z.bits_0 by done.
    destruct (decide (i < k)).
    - rewrite (Z.testbit_neg_r a) by lia. apply andb_false_r.
    - rewrite <- (Z.mod_small z (2 ^ k)), Z.mod_pow2_bits_high by lia. done. }
  assert (Z.lxor r c < 2 ^ k) as Hlt.
  { rewrite <- (Z.mod_small r (2 ^ k)), <- (Z.mod_small c (2 ^ k)) by lia.
    destruct (decide (Z.lxor (r mod 2 ^ k) (c mod 2 ^ k) = 0)) as [->|Hne]; [lia|].
    rewrite !Z.mod_small in * by lia. apply Z.log2_lt_pow2; [lia|].
    pose proof (Z.log2_lxor r c ltac:(lia) ltac:(lia)).
    assert (forall z, 0 <= z < 2 ^ k -> 0 < k -> Z.log2 z < k) as Hl.
    { intros z Hz Hk0. destruct (decide (z = 0)) as [->|]; [by rewrite Z.log2_nonpos|].
      apply Z.log2_lt_pow2; lia. }
    destruct (decide (k = 0)) as [->|]; [change (2 ^ 0) with 1 in *; assert (r = 0) as -> by lia; assert (c = 0) as -> by lia; done|].
    pose proof (Hl r Hr ltac:(lia)). pose proof (Hl c Hc ltac:(lia)). lia. }
  rewrite !Hd by lia. by rewrite !Z.lxor_assoc, (Z.lxor_comm c).
Qed.

Lemma top_bit b : is_u8 b -> Z.land (Z.shiftr b 7) 0x1 = b / 128 /\ u8 (Z.shiftl b 1) = 2 * b - 256 * (b / 128) /\
  0 <= b / 128 <= 1.
Proof.
  intros Hb.
  enough ((Z.land (Z.shiftr b 7) 0x1 =? b / 128) && (u8 (Z.shiftl b 1) =? 2 * b - 256 * (b / 128)) &&
    (0 <=? b / 128) && (b / 128 <=? 1) = true) as H by (rewrite !andb_true_iff in H; lia).
  revert b Hb. apply u8_exhaust. vm_compute. done.
Qed.

Lemma shift_block_value block carry : bytes_ok block -> block <> [] -> 0 <= carry <= 1 ->
  block_value (shift_block block carry) =
    Z.lxor ((2 * block_value block) mod 2 ^ (8 * zlen block)) (carry * 135).
Proof.
  intros Hok Hne Hc. induction block as [|b [|b' block] IH]; [done| |].
  - apply bytes_ok_cons in Hok as [Hb _]. cbn [shift_block block_value zlen length].
    change (2 ^ (8 * zlen (@nil Z))) with 1. change (2 ^ (8 * zlen [b])) with 256.
    rewrite !Z.mul_1_r, !Z.add_0_r. rewrite (u8_id (carry * 135)) by zlia.
    unfold u8. rewrite Z.shiftl_mul_pow2, (Z.mul_comm b) by lia. done.
  - apply bytes_ok_cons in Hok as [Hb Hok]. specialize (IH Hok ltac:(done)).
    pose proof (proj1 (proj1 (bytes_ok_cons _ _) Hok)) as Hb'.
    change (shift_block (b :: b' :: block) carry) with
      (Z.lor (u8 (Z.shiftl b 1)) (Z.land (Z.shiftr b' 7) 0x1) :: shift_block (b' :: block) carry).
    cbn [block_value]. unfold zlen at 1. rewrite shift_block_length. fold (zlen (b' :: block)).
    rewrite IH. set (tail := b' :: block) in *.
    pose proof (block_value_range tail Hok) as Hv. pose proof (zlen_nonneg block).
    destruct (top_bit b Hb) as (_ & -> & Hq). destruct (top_bit b' Hb') as (-> & _ & Hq').
    assert (1 <= zlen tail) by (unfold tail; rewrite zlen_cons; lia).
    set (k := 8 * zlen tail) in *.
    assert (8 <= k) by lia. assert (2 ^ 8 <= 2 ^ k) by (apply Z.pow_le_mono_r; lia).
    assert (block_value tail / 2 ^ (k - 1) = b' / 128) as Htop.
    { unfold k, tail. cbn [block_value]. rewrite zlen_cons.
      apply bytes_ok_cons in Hok as [_ Hok]. pose proof (block_value_range block Hok).
      replace (8 * (1 + zlen block) - 1) with (8 * zlen block + 7) by lia.
      rewrite Z.pow_add_r, <- Z.div_div by lia. rewrite Z.div_add_l, (Z.div_small (block_value block)) by lia.
      by rewrite Z.add_0_r. }
    assert (2 ^ k = 2 * 2 ^ (k - 1)) as Hk by (rewrite <- Z.pow_succ_r by lia; f_equal; lia).
    assert ((2 * block_value tail) mod 2 ^ k = 2 * block_value tail - b' / 128 * 2 ^ k) as Hm.
    { rewrite Z.mod_eq by lia. rewrite Hk, Z.div_mul_cancel_l by lia. rewrite Htop. lia. }
    assert (Z.lor (2 * b - 256 * (b / 128)) (b' / 128) = 2 * b - 256 * (b / 128) + b' / 128) as ->.
    { rewrite Z.lor_comm, (lor_add_disjoint _ _ 1); [lia|lia|lia|].
      replace (2 * b - 256 * (b / 128)) with ((b - 128 * (b / 128)) * 2 ^ 1) by lia. by rewrite Z.mod_mul. }
    pose proof (Z.mod_pos_bound (2 * block_value tail) (2 ^ k)).
    rewrite lxor_high by lia. f_equal. rewrite Hm, zlen_cons.
    replace (8 * (1 + zlen tail)) with (8 + k) by (unfold k; lia).
    rewrite Z.pow_add_r by lia. change (2 ^ 8) with 256.
    change (b' * 2 ^ (8 * zlen block) + block_value block) with (block_value tail).
    assert (0 <= 2 * block_value tail - b' / 128 * 2 ^ k < 2 ^ k) as Hlow by (rewrite <- Hm; lia).
    pose proof (Z.div_mod b 128). pose proof (Z.mod_pos_bound b 128).
    apply (Zmod_unique _ _ (b / 128)); [|ring].
    assert (0 <= 2 * b - 256 * (b / 128) + b' / 128 <= 255) by lia. nia.
Qed.

Lemma carry_testbit block : bytes_ok block -> length block = BlockSize ->
  block_carry block = if Z.testbit (block_value block) 127 then 1 else 0.
Proof.
  intros Hok Hl. destruct block as [|b block]; [done|]. apply bytes_ok_cons in Hok as [Hb Hok].
  assert (zlen block = 15) as Hz by (unfold zlen; injection Hl as ->; done).
  pose proof (block_value_range block Hok) as Hv. cbn [block_carry block_value]. rewrite Hz in *.
  destruct (top_bit b Hb) as (-> & _ & Hq). change (8 * 15) with 120 in *.
  assert ((b * 2 ^ 120 + block_value block) / 2 ^ 127 = b / 128) as Ht.
  { change 127 with (120 + 7). rewrite Z.pow_add_r, <- Z.div_div by lia.
    by rewrite Z.div_add_l, (Z.div_small (block_value block)), Z.add_0_r by lia. }
  rewrite Z.testbit_eqb by lia. rewrite Ht. assert (b / 128 = 0 \/ b / 128 = 1) as [-> | ->] by lia; done.
Qed.

Lemma zip_lxor_value a b : bytes_ok a -> bytes_ok b -> length a = length b ->
  block_value (zip_with Z.lxor a b) = Z.lxor (block_value a) (block_value b).
Proof.
  revert b. induction a as [|x a IH]; intros [|y b] Ha Hb Hl; try done.
  apply bytes_ok_cons in Ha as [Hx Ha]. apply bytes_ok_cons in Hb as [Hy Hb]. injection Hl as Hl.
  cbn [zip_with block_value]. rewrite IH by done. unfold zlen at 1. rewrite length_zip_with, Nat.min_l by lia.
  fold (zlen a). replace (zlen b) with (zlen a) by (unfold zlen; by rewrite Hl).
  pose proof (block_value_range a Ha). pose proof (block_value_range b Hb).
  replace (zlen b) with (zlen a) in * by (unfold zlen; by rewrite Hl).
  pose proof (zlen_nonneg a). rewrite lxor_high by lia.
  rewrite !(Z.add_comm (_ * _)), <- !lor_shiftl_add by lia.
  apply Z.bits_inj'. intros i Hi.
  rewrite !Z.lxor_spec, !Z.lor_spec, !Z.shiftl_spec, Z.lxor_spec by done.
  destruct (decide (i < 8 * zlen a)).
  - rewrite !(Z.testbit_neg_r _ (i - _)) by lia. by rewrite !orb_false_r.
  - assert (forall z, 0 <= z < 2 ^ (8 * zlen a) -> Z.testbit z i = false) as Hh.
    { intros z Hz. rewrite <- (Z.mod_small z (2 ^ (8 * zlen a))), Z.mod_pow2_bits_high by lia. done. }
    rewrite !Hh by done. cbn. by destruct (Z.testbit x _), (Z.testbit y _).
Qed.

Lemma shift_block_ok block carry : bytes_ok block -> 0 <= carry <= 1 -> bytes_ok (shift_block block carry).
Proof.
  intros Hok Hc. induction block as [|b [|b' block] IH]; [constructor| |].
  - repeat constructor; apply lxor_u8; auto with mumble.
  - apply bytes_ok_cons in Hok as [_ Hok].
    change (shift_block (b :: b' :: block) carry) with
      (Z.lor (u8 (Z.shiftl b 1)) (Z.land (Z.shiftr b' 7) 0x1) :: shift_block (b' :: block) carry).
    apply bytes_ok_cons. split; [|by apply IH]. apply bytes_ok_cons in Hok as [Hb' _].
    destruct (top_bit b' Hb') as (-> & _ & ?). apply lor_u8; [apply u8_range|zlia].
Qed.

(** The offset arithmetic is that of the field: [times2] doubles and
    [times3] triples the block in GF(2^128) with the polynomial of OCB2, on
    every block. *)
Theorem times2_times3_gf (block : bytes) :
  bytes_ok block -> length block = BlockSize ->
  block_value (times2 block) = gf_double (block_value block) /\
  block_value (times3 block) = Z.lxor (block_value block) (gf_double (block_value block)).
Proof.
  intros Hok Hl. assert (zlen block = 16) as Hz by (unfold zlen; by rewrite Hl).
  assert (block <> []) as Hne by (intros ->; done).
  assert (0 <= block_carry block <= 1) as Hc by (rewrite carry_testbit by done; case_match; lia).
  assert (block_value (times2 block) = gf_double (block_value block)) as H2.
  { unfold times2, gf_double. rewrite shift_block_value, Hz, carry_testbit by done.
    f_equal. by destruct (Z.testbit _ _). }
  split; [done|]. unfold times3. fold (times2 block).
  rewrite zip_lxor_value, H2; [done|done|by apply shift_block_ok|by rewrite times2_length].
Qed.

Lemma times2_times3_gf_witness :
  let b := 0x80 :: replicate 14 0 ++ [0x81] in
  bytes_ok b /\ length b = BlockSize /\
  (block_value (times2 b) = gf_double (block_value b) /\
   block_value (times3 b) = Z.lxor (block_value b) (gf_double (block_value b))) /\
  times2 b = replicate 14 0 ++ [1; 0x85].
Proof.
  cbn zeta. assert (bytes_ok (0x80 :: replicate 14 0 ++ [0x81])) as H
    by (cbn; repeat constructor; cbn; lia).
  split; [exact H|]. split; [reflexivity|]. split; [apply times2_times3_gf; [exact H|reflexivity]|].
  vm_compute. reflexivity.
Defined.

(** C40: OCB2 as implemented is a cipher: over any block cipher whose decryption
    inverts its encryption, decrypting a ciphertext with its nonce and its
    (possibly truncated) tag returns the plaintext, byte for byte and of the
    same length, and accepts the tag, for messages of every length. *)
Theorem ocb2_roundtrip (E D : bytes -> bytes) (src nonce : bytes) (tagLen : nat) :
  (forall b, length b = BlockSize -> length (E b) = BlockSize) ->
  (forall b, length b = BlockSize -> D (E b) = b) ->
  length nonce = NonceSize -> (tagLen <= TagSize)%nat ->
  exists ct tag, Encrypt E src nonce tagLen = Some (ct, tag) /\
    length ct = length src /\ length tag = tagLen /\ Decrypt E D ct nonce tag = Some (src, true).
Proof. intros. by apply encrypt_decrypt. Qed.

(** A block cipher to evaluate the mode with: rotate and mask. *)
Definition toy_E (b : bytes) : bytes := map (Z.lxor 0x5a) (drop 3 b ++ take 3 b).
Definition toy_D (b : bytes) : bytes := let m := map (Z.lxor 0x5a) b in drop 13 m ++ take 13 m.

Lemma toy_E_block b : length b = BlockSize -> length (toy_E b) = BlockSize.
Proof. intros H. unfold toy_E. rewrite length_map, length_app, length_drop, length_take. unfold BlockSize in *. lia. Qed.

Lemma toy_DE b : length b = BlockSize -> toy_D (toy_E b) = b.
Proof.
  intros H. unfold toy_D, toy_E. rewrite map_map.
  rewrite (map_ext _ id) by (intros x; by rewrite <- Z.lxor_assoc, Z.lxor_nilpotent, Z.lxor_0_l).
  rewrite map_id. assert (length (drop 3 b) = 13%nat) as Hl by (rewrite length_drop, H; done).
  rewrite <- Hl, drop_app_length, take_app_length. apply take_drop.
Qed.

Lemma ocb2_roundtrip_witness :
  let nonce := replicate 16 7 in
  let msg := map Z.of_nat (seq 0 37) in
  exists ct tag, Encrypt toy_E msg nonce MumbleTag = Some (ct, tag) /\
    length ct = length msg /\ length tag = MumbleTag /\ Decrypt toy_E toy_D ct nonce tag = Some (msg, true).
Proof.
  apply (ocb2_roundtrip toy_E toy_D); [exact toy_E_block|exact toy_DE|reflexivity|].
  unfold MumbleTag, TagSize. lia.
Defined.
