(* ===== verification/CryptState.v ===== *)
(** * Encryption state of a voice connection (pkg/mumble/crypto/cryptstate.go)

    The three modes with their nonces, replay state and counters. AES and
    AES-GCM are the standard library's: arguments of the model, a function of
    the key each. A buffer argument is a byte list and its new contents are
    returned; the mutex makes every method one step. *)

From Stdlib Require Import ZArith Lia.
From stdpp Require Import base numbers list.
From S2P Require Import Prelude Wire Fields Ocb2.
Open Scope Z_scope.

Inductive Mode := ModeLite | ModeLegacy | ModeSecure.
#[export] Instance Mode_eq_dec : EqDecision Mode.
Proof. solve_decision. Defined.

Definition legacyKeySize : Z := 16.
Definition legacyNonceSize : Z := 16.
Definition legacyTagSize : Z := 3.
Definition legacyOverhead : Z := 1 + legacyTagSize.
Definition secureKeySize : Z := 32.
Definition secureNonceSize : Z := 12.
Definition secureTagSize : Z := 16.
Definition secureOverhead : Z := secureNonceSize + secureTagSize.
Definition decryptHistory : nat := 256.

Inductive crypto_error :=
  | ErrDecryptFailed
  | ErrInvalidPacket
  | ErrReplayDetected
  | ErrKeyNotSet
  | ErrDstTooSmall
  | ErrKeySize
  | ErrNonceSize
  | ErrEntropy
  | Panic.
#[export] Instance crypto_error_eq_dec : EqDecision crypto_error.
Proof. solve_decision. Defined.

(** A cipher object is the key it was made from. *)
Record CryptState := mkCrypt {
  mode : Mode;
  legacyBlock : option bytes;
  encNonce : bytes;
  decNonce : bytes;
  decHistory : list Z;
  secureAEAD : option bytes;
  encCounter : Z;
  decMax : Z;
  decBitmap : list Z;
  Good : Z;
  Late : Z;
  Lost : Z;
  Resync : Z }.
#[export] Instance CryptState_eta : Eta CryptState := fun c =>
  mkCrypt (mode c) (legacyBlock c) (encNonce c) (decNonce c) (decHistory c) (secureAEAD c)
    (encCounter c) (decMax c) (decBitmap c) (Good c) (Late c) (Lost c) (Resync c).

Definition NewCryptState (m : Mode) : CryptState :=
  mkCrypt m None (replicate 16 0) (replicate 16 0) (replicate decryptHistory 0) None
    0 0 (replicate 8 0) 0 0 0 0.

Definition Stats (c : CryptState) : Z * Z * Z * Z := (Good c, Late c, Lost c, Resync c).

(** [nil] outside the legacy mode. *)
Definition EncNonce (c : CryptState) : option bytes :=
  match mode c with
  | ModeLite => None
  | ModeLegacy => Some (encNonce c)
  | ModeSecure => None
  end.

Definition SetDecNonce (c : CryptState) (nonce : bytes) : CryptState * option crypto_error :=
  match mode c with
  | ModeLite => (c, None)
  | ModeLegacy =>
      if negb (zlen nonce =? legacyNonceSize) then (c, Some ErrNonceSize)
      else (c <| decNonce := nonce |>, None)
  | ModeSecure => (c, None)
  end.

Definition SetKey (c : CryptState) (key enc dec : bytes) : CryptState * option crypto_error :=
  match mode c with
  | ModeLite => (c, None)
  | ModeLegacy =>
      if negb (zlen key =? legacyKeySize) || negb (zlen enc =? legacyNonceSize)
         || negb (zlen dec =? legacyNonceSize)
      then (c, Some ErrKeySize)
      else (c <| legacyBlock := Some key |> <| encNonce := enc |> <| decNonce := dec |>, None)
  | ModeSecure =>
      if negb (zlen key =? secureKeySize) then (c, Some ErrKeySize)
      else (c <| secureAEAD := Some key |>, None)
  end.

(** [io.ReadFull(rand.Reader, b)] on the entropy left. *)
Definition ReadRandom (n : Z) (rand : bytes) : result crypto_error (bytes * bytes) :=
  if zlen rand <? n then Err ErrEntropy else Ok (ztake n rand, zdrop n rand).

Definition GenerateKey (c : CryptState) (rand : bytes) : CryptState * option crypto_error :=
  match mode c with
  | ModeLite => (c, None)
  | ModeLegacy =>
      match ReadRandom legacyKeySize rand with
      | Err e => (c, Some e)
      | Ok (key, rand) =>
        match ReadRandom legacyNonceSize rand with
        | Err e => (c, Some e)
        | Ok (encN, rand) =>
          match ReadRandom legacyNonceSize rand with
          | Err e => (c, Some e)
          | Ok (decN, _) => SetKey c key encN decN
          end
        end
      end
  | ModeSecure =>
      match ReadRandom secureKeySize rand with
      | Err e => (c, Some e)
      | Ok (key, _) => SetKey c key [] []
      end
  end.

Definition Overhead (c : CryptState) : Z :=
  match mode c with
  | ModeLite => 0
  | ModeLegacy => legacyOverhead
  | ModeSecure => secureOverhead
  end.

(** [for i := ..; i < 16; i++ { n[i]++; if n[i] != 0 { break } }]. *)
Fixpoint inc_bytes (n : bytes) : bytes :=
  match n with
  | [] => []
  | b :: n => let b := u8 (b + 1) in if negb (b =? 0) then b :: n else b :: inc_bytes n
  end.

(** The carry of [decryptLegacy], from byte 1. *)
Definition inc_upper (n : bytes) : bytes :=
  match n with [] => [] | b :: n => b :: inc_bytes n end.

Definition set_first (v : Z) (n : bytes) : bytes := <[0%nat := v]> n.
Definition first (n : bytes) : Z := nth 0 n 0.
Definition second (n : bytes) : Z := nth 1 n 0.
Definition history (c : CryptState) (iv : Z) : Z := nth (Z.to_nat iv) (decHistory c) 0.

Section Ciphers.

(** AES by key: [Encrypt], [Decrypt] of a block; GCM by key and nonce:
    [Seal], and [Open] with [None] on an authentication failure. *)
Context (aesE aesD : bytes -> bytes -> bytes).
Context (gcmSeal : bytes -> bytes -> bytes -> bytes).
Context (gcmOpen : bytes -> bytes -> bytes -> option bytes).

(** ** Legacy mode *)

Definition encryptLegacy (c : CryptState) (dst src : bytes) : CryptState * bytes * option crypto_error :=
  match legacyBlock c with
  | None => (c, dst, Some ErrKeyNotSet)
  | Some key =>
    if zlen dst <? zlen src + legacyOverhead then (c, dst, Some ErrDstTooSmall) else
    let c := c <| encNonce := inc_bytes (encNonce c) |> in
    match Encrypt (aesE key) src (encNonce c) (Z.to_nat legacyTagSize) with
    | None => (c, dst, Some Panic)
    | Some (ct, tag) => (c, copy dst (first (encNonce c) :: tag ++ ct), None)
    end
  end.

(** The difference of the two nonce bytes, folded into one turn. *)
Definition iv_diff (ivByte decFirst : Z) : Z :=
  let diff := ivByte - decFirst in
  if diff <? -128 then diff + 256 else if 128 <? diff then diff - 256 else diff.

(** Moving forward: the new first byte, and the carry when it wrapped. *)
Definition advance (n : bytes) (ivByte decFirst : Z) : bytes :=
  let n := set_first ivByte n in
  if ivByte <? decFirst then inc_upper n else n.

(** The nonce chosen from the transmitted byte, and whether it is to be put
    back afterwards; an error is [ErrReplayDetected]. *)
Definition choose_nonce (c : CryptState) (ivByte : Z) : result crypto_error (CryptState * bool) :=
  let decFirst := first (decNonce c) in
  let diff := iv_diff ivByte decFirst in
  if diff =? 1 then
    Ok (c <| decNonce := advance (decNonce c) ivByte decFirst |>, false)
  else if 1 <? diff then
    let c := c <| Lost := u32 (Lost c + u32 (diff - 1)) |> in
    Ok (c <| decNonce := advance (decNonce c) ivByte decFirst |>, false)
  else if (-30 <? diff) && (diff <? 0) then
    let c := c <| Late := u32 (Late c + 1) |> in
    Ok (c <| decNonce := set_first ivByte (decNonce c) |>, true)
  else Err ErrReplayDetected.

Definition decryptLegacy (c : CryptState) (dst src : bytes) : CryptState * bytes * option crypto_error :=
  match legacyBlock c with
  | None => (c, dst, Some ErrKeyNotSet)
  | Some key =>
    if zlen src <? legacyOverhead then (c, dst, Some ErrInvalidPacket) else
    let plainLen := zlen src - legacyOverhead in
    if zlen dst <? plainLen then (c, dst, Some ErrDstTooSmall) else
    let ivByte := first src in
    let saveNonce := decNonce c in
    match choose_nonce c ivByte with
    | Err e => (c, dst, Some e)
    | Ok (c, restore) =>
      if history c ivByte =? second (decNonce c)
      then (c <| decNonce := saveNonce |>, dst, Some ErrReplayDetected) else
      match Decrypt (aesE key) (aesD key) (zdrop 4 src) (decNonce c) (ztake 3 (zdrop 1 src)) with
      | None => (c, dst, Some Panic)
      | Some (plain, ok) =>
        let dst := copy dst plain in
        if negb ok then (c <| decNonce := saveNonce |>, dst, Some ErrDecryptFailed) else
        let c := c <| decHistory := <[Z.to_nat ivByte := second (decNonce c)]> (decHistory c) |> in
        let c := if restore then c <| decNonce := saveNonce |> else c in
        (c <| Good := u32 (Good c + 1) |>, dst, None)
      end
    end
  end.

(** ** Secure mode *)

Definition encryptSecure (c : CryptState) (dst src : bytes) : CryptState * bytes * option crypto_error :=
  match secureAEAD c with
  | None => (c, dst, Some ErrKeyNotSet)
  | Some key =>
    if zlen dst <? zlen src + secureOverhead then (c, dst, Some ErrDstTooSmall) else
    let c := c <| encCounter := u64 (encCounter c + 1) |> in
    let nonce := replicate 4 0 ++ be64 (encCounter c) in
    (c, copy dst (nonce ++ gcmSeal key nonce src), None)
  end.

(** [decBitmap[i] << shift | decBitmap[i+1] >> (8-shift)] along the bytes;
    the count [8-shift] is a [uint64], so beyond 8 it is huge and shifts all
    bits out. *)
Definition shr8 (b count : Z) : Z := if 8 <=? u64 count then 0 else Z.shiftr b (u64 count).
Definition shl8 (b count : Z) : Z := if 8 <=? count then 0 else u8 (Z.shiftl b count).

Fixpoint shift_bitmap (bm : list Z) (shift : Z) : list Z :=
  match bm with
  | [] => []
  | [b] => [shl8 b shift]
  | b :: (b' :: _) as tail => Z.lor (shl8 b shift) (shr8 b' (8 - shift)) :: shift_bitmap tail shift
  end.

Definition or_bit (bm : list Z) (byteIdx bitIdx : Z) : list Z :=
  <[Z.to_nat byteIdx := Z.lor (nth (Z.to_nat byteIdx) bm 0) (Z.shiftl 1 bitIdx)]> bm.

(** The sliding window: the state after [counter], or a replay. *)
Definition window (c : CryptState) (counter : Z) : result crypto_error CryptState :=
  if counter <=? decMax c then
    if 64 <=? decMax c - counter then Err ErrReplayDetected else
    let idx := 63 - (decMax c - counter) in
    let byteIdx := idx / 8 in
    let bitIdx := idx mod 8 in
    if negb (Z.land (nth (Z.to_nat byteIdx) (decBitmap c) 0) (Z.shiftl 1 bitIdx) =? 0)
    then Err ErrReplayDetected else
    let c := c <| decBitmap := or_bit (decBitmap c) byteIdx bitIdx |> in
    Ok (c <| Late := u32 (Late c + 1) |>)
  else
    let shift := counter - decMax c in
    let '(c, shift) :=
      if 64 <? shift then (c <| decBitmap := replicate 8 0 |>, 64)
      else (c <| decBitmap := shift_bitmap (decBitmap c) shift |>, shift) in
    let c := c <| decBitmap := or_bit (decBitmap c) 0 7 |> in
    let c := c <| decMax := counter |> in
    let c := if 1 <? shift then c <| Lost := u32 (Lost c + u32 (shift - 1)) |> else c in
    Ok (c <| Good := u32 (Good c + 1) |>).

Definition decryptSecure (c : CryptState) (dst src : bytes) : CryptState * bytes * option crypto_error :=
  match secureAEAD c with
  | None => (c, dst, Some ErrKeyNotSet)
  | Some key =>
    if zlen src <? secureOverhead then (c, dst, Some ErrInvalidPacket) else
    let nonce := ztake secureNonceSize src in
    let ct := zdrop secureNonceSize src in
    let counter := be64_read (zdrop 4 nonce) in
    match window c counter with
    | Err e => (c, dst, Some e)
    | Ok c =>
      match gcmOpen key nonce ct with
      | None => (c, dst, Some ErrDecryptFailed)
      | Some plain =>
        if zlen dst <? zlen plain then (c, dst, Some ErrDstTooSmall)
        else (c, copy dst plain, None)
      end
    end
  end.

(** ** Dispatch on the mode *)

Definition EncryptPacket (c : CryptState) (dst src : bytes) : CryptState * bytes * option crypto_error :=
  match mode c with
  | ModeLite => (c, copy dst src, None)
  | ModeLegacy => encryptLegacy c dst src
  | ModeSecure => encryptSecure c dst src
  end.

Definition DecryptPacket (c : CryptState) (dst src : bytes) : CryptState * bytes * option crypto_error :=
  match mode c with
  | ModeLite => (c, copy dst src, None)
  | ModeLegacy => decryptLegacy c dst src
  | ModeSecure => decryptSecure c dst src
  end.

(** ** Well-formed states and nonces as numbers *)

Definition nonce_wf (n : bytes) : Prop := length n = 16%nat /\ bytes_ok n.

Definition crypt_wf (c : CryptState) : Prop :=
  nonce_wf (encNonce c) /\ nonce_wf (decNonce c) /\
  length (decHistory c) = decryptHistory /\ length (decBitmap c) = 8%nat.

(** A nonce is a little-endian counter. *)
Fixpoint le_value (n : bytes) : Z :=
  match n with [] => 0 | b :: n => b + 2 ^ 8 * le_value n end.

(** Everything but the transmitted byte. *)
Definition upper (n : bytes) : Z := le_value (tail n).

Lemma inc_bytes_length n : length (inc_bytes n) = length n.
Proof. induction n as [|b n IH]; [done|]. cbn -[u8]. destruct (negb _); cbn; by rewrite ?IH. Qed.

Lemma inc_bytes_ok n : bytes_ok n -> bytes_ok (inc_bytes n).
Proof.
  induction n as [|b n IH]; [done|]. intros [Hb Hn]%bytes_ok_cons. cbn -[u8].
  destruct (negb _); apply bytes_ok_cons; auto with mumble.
Qed.

Lemma nonce_wf_inc n : nonce_wf n -> nonce_wf (inc_bytes n).
Proof. intros [Hl Hok]. split; [by rewrite inc_bytes_length|by apply inc_bytes_ok]. Qed.

Lemma u8_succ b : is_u8 b -> u8 (b + 1) = if b =? 255 then 0 else b + 1.
Proof.
  intros Hb. destruct (Z.eqb_spec b 255) as [->|]; [done|]. apply u8_id. zlia.
Qed.

Lemma le_value_range n : bytes_ok n -> 0 <= le_value n < 2 ^ (8 * zlen n).
Proof.
  induction n as [|b n IH]; [by vm_compute|]. intros [Hb Hn]%bytes_ok_cons. specialize (IH Hn).
  cbn [le_value]. rewrite zlen_cons. pose proof (zlen_nonneg n).
  replace (8 * (1 + zlen n)) with (8 + 8 * zlen n) by lia. rewrite Z.pow_add_r by lia.
  unfold is_u8 in Hb. nia.
Qed.

Lemma le_value_inc n : bytes_ok n -> le_value n + 1 < 2 ^ (8 * zlen n) ->
  le_value (inc_bytes n) = le_value n + 1.
Proof.
  induction n as [|b n IH]; intros Hok Hlt; [vm_compute in Hlt; done|].
  apply bytes_ok_cons in Hok as [Hb Hn].
  cbn [le_value] in *. rewrite zlen_cons in Hlt. pose proof (zlen_nonneg n).
  replace (8 * (1 + zlen n)) with (8 + 8 * zlen n) in Hlt by lia. rewrite Z.pow_add_r in Hlt by lia.
  cbn [inc_bytes]. rewrite u8_succ by done. destruct (Z.eqb_spec b 255) as [->|]; cbn [negb Z.eqb].
  - cbn [le_value]. rewrite IH by (done || lia). lia.
  - destruct (Z.eqb_spec (b + 1) 0); [zlia|]. cbn [negb le_value]. lia.
Qed.

Lemma nonce_split n : nonce_wf n -> exists b0 b1 t, n = b0 :: b1 :: t /\ is_u8 b0 /\ is_u8 b1 /\
  bytes_ok t /\ length t = 14%nat.
Proof.
  intros [Hl Hok]. destruct n as [|b0 [|b1 t]]; try done.
  apply bytes_ok_cons in Hok as [? Hok]. apply bytes_ok_cons in Hok as [? Hok].
  exists b0, b1, t. repeat split; try done; try zlia. cbn in Hl. lia.
Qed.

(** The second byte is the low byte of [upper]. *)
Lemma second_upper n : nonce_wf n -> second n = upper n mod 2 ^ 8.
Proof.
  intros (b0 & b1 & t & -> & _ & H1 & _)%nonce_split. unfold second, upper. cbn [nth tail le_value].
  rewrite (Z.mul_comm (2 ^ 8)), Z.mod_add by lia. symmetry. apply Z.mod_small. zlia.
Qed.

(** ** What one packet does to the nonce *)

Lemma iv_diff_range iv b : is_u8 iv -> is_u8 b -> -128 <= iv_diff iv b <= 128.
Proof. intros Hi Hb. unfold iv_diff. repeat case_match; zlia. Qed.

Lemma choose_nonce_spec c iv c1 restore :
  nonce_wf (decNonce c) -> is_u8 iv -> upper (decNonce c) + 1 < 2 ^ 120 ->
  choose_nonce c iv = Ok (c1, restore) ->
  nonce_wf (decNonce c1) /\ first (decNonce c1) = iv /\ decHistory c1 = decHistory c /\
  encNonce c1 = encNonce c /\ decBitmap c1 = decBitmap c /\ legacyBlock c1 = legacyBlock c /\
  (upper (decNonce c1) = upper (decNonce c) \/
   (restore = false /\ upper (decNonce c1) = upper (decNonce c) + 1)).
Proof.
  intros Hn Hiv Hu. unfold choose_nonce. cbn [set_field decNonce].
  destruct (nonce_split _ Hn) as (b0 & b1 & t & E & H0 & H1 & Ht & Hl). rewrite E in *.
  cbn [first nth]. unfold advance, set_first. cbn [insert list_insert].
  assert (nonce_wf (iv :: b1 :: t)) as Hset.
  { split; [cbn; lia|]. by repeat (apply bytes_ok_cons; split). }
  assert (nonce_wf (inc_upper (iv :: b1 :: t))) as Hinc.
  { split; [cbn [inc_upper length]; rewrite inc_bytes_length; cbn; lia|].
    cbn [inc_upper]. apply bytes_ok_cons. split; [done|]. apply inc_bytes_ok, bytes_ok_cons. done. }
  assert (upper (inc_upper (iv :: b1 :: t)) = upper (b0 :: b1 :: t) + 1) as Hup.
  { unfold upper in *. cbn [inc_upper tail] in *. apply le_value_inc; [by apply bytes_ok_cons|].
    unfold zlen. cbn [length]. rewrite Hl. change (8 * Z.of_nat 15) with 120. lia. }
  repeat case_match; intros [= <- <-]; cbn [set_field decNonce decHistory encNonce decBitmap legacyBlock];
    (split; [assumption|]); (split; [reflexivity|]); repeat (split; [reflexivity|]); auto.
Qed.

(** The history cell of a byte. *)
Lemma history_insert c iv v : length (decHistory c) = decryptHistory -> is_u8 iv ->
  forall i, 0 <= i ->
  nth (Z.to_nat i) (<[Z.to_nat iv := v]> (decHistory c)) 0 = if decide (i = iv) then v else history c i.
Proof.
  intros Hl Hiv i Hi. rewrite nth_lookup. case_decide as Hd.
  - subst i. rewrite list_lookup_insert_eq by (rewrite Hl; unfold decryptHistory; zlia). done.
  - rewrite list_lookup_insert_ne by zlia. by rewrite <- nth_lookup.
Qed.

(** ** No nonce is accepted twice *)

(** The nonce a successful [decryptLegacy] used. *)
Definition accepted_nonce (c : CryptState) (dst src : bytes) : option bytes :=
  match choose_nonce c (first src), decryptLegacy c dst src with
  | Ok (c1, _), (_, _, None) => Some (decNonce c1)
  | _, _ => None
  end.

(** A run of the receiver on packets from anywhere: the nonces it accepted,
    the latest first. *)
Fixpoint receive_all (c : CryptState) (pkts : list (bytes * bytes)) (acc : list bytes)
    : CryptState * list bytes :=
  match pkts with
  | [] => (c, acc)
  | (dst, src) :: pkts =>
      let acc := match accepted_nonce c dst src with Some n => n :: acc | None => acc end in
      receive_all (decryptLegacy c dst src).1.1 pkts acc
  end.

Definition replay_inv (c : CryptState) (acc : list bytes) : Prop :=
  NoDup acc /\ Forall (fun n => nonce_wf n /\ upper n <= upper (decNonce c) /\
    (upper n = upper (decNonce c) -> history c (first n) = second n)) acc.

(** One packet, by cases: refused with the nonce as before, or accepted. *)
Lemma decryptLegacy_cases c dst src :
  crypt_wf c -> bytes_ok src -> upper (decNonce c) + 1 < 2 ^ 120 ->
  let '(c', _, err) := decryptLegacy c dst src in
  crypt_wf c' /\
  ((err <> None /\ accepted_nonce c dst src = None /\ decNonce c' = decNonce c /\
      decHistory c' = decHistory c) \/
   (err = None /\ exists c1 restore, choose_nonce c (first src) = Ok (c1, restore) /\
      accepted_nonce c dst src = Some (decNonce c1) /\
      history c (first src) <> second (decNonce c1) /\
      decHistory c' = <[Z.to_nat (first src) := second (decNonce c1)]> (decHistory c) /\
      decNonce c' = (if restore then decNonce c else decNonce c1) /\
      legacyBlock c' = legacyBlock c /\ is_Some (legacyBlock c) /\
      legacyOverhead <= zlen src /\ zlen src - legacyOverhead <= zlen dst)).
Proof.
  intros (Hen & Hdn & Hh & Hbm) Hok Hu. unfold accepted_nonce.
  destruct (decryptLegacy c dst src) as [[c' dst'] err] eqn:Ed. revert Ed. unfold decryptLegacy.
  assert (crypt_wf c) as Hwf by done.
  destruct (legacyBlock c) as [key|] eqn:Ek; [|intros [= <- <- <-]; split; [done|left]; split; [done|]; split; [by case_match; [case_match|]|done]].
  destruct (Z.ltb_spec (zlen src) legacyOverhead) as [|Hs];
    [intros [= <- <- <-]; split; [done|left]; split; [done|]; split; [by case_match; [case_match|]|done]|].
  destruct (Z.ltb_spec (zlen dst) (zlen src - legacyOverhead)) as [|Hds];
    [intros [= <- <- <-]; split; [done|left]; split; [done|]; split; [by case_match; [case_match|]|done]|].
  assert (is_u8 (first src)) as Hiv.
  { unfold first. destruct src as [|x src]; [cbn; zlia|]. by apply bytes_ok_cons in Hok as [? _]. }
  destruct (choose_nonce c (first src)) as [[c1 restore]|e] eqn:Ec; [|by intros [= <- <- <-]; split; [done|left]].
  destruct (choose_nonce_spec c (first src) c1 restore Hdn Hiv Hu Ec) as (Hn1 & Hf1 & Hh1 & He1 & Hb1 & Hk1 & _).
  destruct (Z.eqb_spec (history c1 (first src)) (second (decNonce c1))) as [|Hne].
  { intros [= <- <- <-]. split; [|left; by rewrite <- Hh1]. unfold crypt_wf. cbn. by rewrite He1, Hb1, Hh1. }
  destruct (Decrypt _ _ _ _ _) as [[plain ok]|] eqn:Edec.
  2: { exfalso. unfold Decrypt in Edec. destruct Hn1 as [Hl1 _]. rewrite Hl1 in Edec. cbn -[decrypt_blocks] in Edec.
       by destruct (decrypt_blocks _ _ _ _ _ _) as [[[? ?] ?] ?]. }
  destruct ok; cbn [negb].
  - intros [= <- <- <-]. split.
    + unfold crypt_wf. destruct restore; cbn; rewrite He1, Hb1, Hh1, length_insert; done.
    + right. split; [done|]. exists c1, restore. unfold history in *. rewrite Hh1 in Hne.
      split; [done|]. split; [done|]. split; [done|].
      split; [by destruct restore; cbn; rewrite Hh1|]. split; [by destruct restore|].
      split; [by destruct restore; cbn; rewrite Hk1|]. by eauto.
  - intros [= <- <- <-]. split; [|left; by rewrite <- Hh1]. unfold crypt_wf. cbn. by rewrite He1, Hb1, Hh1.
Qed.

Lemma replay_inv_step c dst src acc :
  crypt_wf c -> bytes_ok src -> upper (decNonce c) + 1 < 2 ^ 120 -> replay_inv c acc ->
  let c' := (decryptLegacy c dst src).1.1 in
  crypt_wf c' /\ upper (decNonce c') <= upper (decNonce c) + 1 /\
  replay_inv c' (match accepted_nonce c dst src with Some n => n :: acc | None => acc end).
Proof.
  intros Hwf Hok Hu [Hnd Hall]. pose proof (decryptLegacy_cases c dst src Hwf Hok Hu) as Hc.
  destruct (decryptLegacy c dst src) as [[c' dst'] err]. cbn [fst]. destruct Hc as [Hwf' [Hrej|Hacc]].
  { destruct Hrej as (_ & -> & Hn & Hh). split; [done|]. rewrite Hn. split; [lia|]. split; [done|].
    unfold history in *. by rewrite Hn, Hh. }
  destruct Hacc as (_ & c1 & restore & Ec & -> & Hne & Hh & Hn & _).
  assert (is_u8 (first src)) as Hiv.
  { unfold first. destruct src as [|x src]; [cbn; zlia|]. by apply bytes_ok_cons in Hok as [? _]. }
  pose proof Hwf as (_ & Hdn & Hlen & _).
  destruct (choose_nonce_spec c (first src) c1 restore Hdn Hiv Hu Ec) as (Hn1 & Hf1 & _ & _ & _ & _ & Hup).
  assert (upper (decNonce c) <= upper (decNonce c') /\ upper (decNonce c1) = upper (decNonce c')) as [Hle Heq].
  { rewrite Hn. destruct restore, Hup as [?|[? ?]]; try done; lia. }
  split; [done|]. split; [rewrite <- Heq; lia|]. split.
  - constructor; [|done]. intros Hin. apply list_elem_of_In in Hin. rewrite Forall_forall in Hall.
    destruct (Hall _ Hin) as (_ & Hu1 & Hh1). apply Hne. rewrite <- Hf1. apply Hh1. lia.
  - assert (forall n, nonce_wf n -> 0 <= first n) as Hpos.
    { intros n (b0 & b1 & t & -> & ? & _)%nonce_split. cbn. zlia. }
    constructor.
    + split; [done|]. split; [lia|]. intros _. unfold history. rewrite Hh, history_insert by auto.
      by rewrite Hf1, decide_True.
    + eapply Forall_impl; [|exact Hall]. intros n (Hw & Hu1 & Hh1). split; [done|]. split; [lia|].
      intros Hun. unfold history. rewrite Hh, history_insert by auto. case_decide.
      * rewrite !second_upper by done. by rewrite Hun, Heq.
      * apply Hh1. destruct Hup as [?|[-> ?]]; lia.
Qed.

(** C28: the replay guarantee of the legacy mode, against any peer: whatever
    packets arrive in whatever order, duplicated, forged or late, no nonce
    ever opens two packets (until the 120-bit part of the counter would wrap,
    which the bound on the number of packets excludes). *)
Theorem legacy_nonce_once (c : CryptState) (pkts : list (bytes * bytes)) :
  crypt_wf c -> Forall (fun p => bytes_ok p.2) pkts ->
  upper (decNonce c) + zlen pkts < 2 ^ 120 ->
  NoDup (receive_all c pkts []).2.
Proof.
  assert (replay_inv c []) as Hinv by (split; [constructor|constructor]).
  revert Hinv. generalize (@nil bytes). revert c.
  induction pkts as [|[dst src] pkts IH]; intros c acc Hinv Hwf Hok Hb; [apply Hinv|].
  apply Forall_cons_iff in Hok as [Hsrc Hok]. rewrite zlen_cons in Hb. pose proof (zlen_nonneg pkts).
  destruct (replay_inv_step c dst src acc Hwf Hsrc ltac:(lia) Hinv) as (Hwf' & Hu & Hinv').
  cbn [receive_all]. apply IH; try done. lia.
Qed.

(** ** Sender and receiver in step *)

Lemma iter_inc b0 t (k : nat) : is_u8 b0 -> (k < 256)%nat ->
  Nat.iter k inc_bytes (b0 :: t) =
    if b0 + Z.of_nat k <? 256 then (b0 + Z.of_nat k) :: t else (b0 + Z.of_nat k - 256) :: inc_bytes t.
Proof.
  intros Hb. induction k as [|k IH]; intros Hk.
  { cbn [Nat.iter nat_rect]. rewrite Z.add_0_r. destruct (Z.ltb_spec b0 256); [done|zlia]. }
  change (Nat.iter (S k) inc_bytes (b0 :: t)) with (inc_bytes (Nat.iter k inc_bytes (b0 :: t))).
  rewrite IH by lia. destruct (Z.ltb_spec (b0 + Z.of_nat k) 256).
  - cbn [inc_bytes]. rewrite u8_succ by zlia. destruct (Z.eqb_spec (b0 + Z.of_nat k) 255).
    + destruct (Z.ltb_spec (b0 + Z.of_nat (S k)) 256); [lia|].
      replace (b0 + Z.of_nat (S k) - 256) with 0 by lia. done.
    + destruct (Z.ltb_spec (b0 + Z.of_nat (S k)) 256); [|lia].
      destruct (Z.eqb_spec (b0 + Z.of_nat k + 1) 0); [zlia|]. cbn [negb]. f_equal. lia.
  - cbn [inc_bytes]. rewrite u8_succ by zlia. destruct (Z.eqb_spec (b0 + Z.of_nat k - 256) 255); [zlia|].
    destruct (Z.ltb_spec (b0 + Z.of_nat (S k)) 256); [lia|].
    destruct (Z.eqb_spec (b0 + Z.of_nat k - 256 + 1) 0); [zlia|]. cbn [negb]. f_equal. lia.
Qed.

Lemma nonce_wf_iter k n : nonce_wf n -> nonce_wf (Nat.iter k inc_bytes n).
Proof. intros Hn. induction k as [|k IH]; [done|]. by apply nonce_wf_inc. Qed.

(** The history does not already hold what the next turn will bring. *)
Definition history_ok (c : CryptState) : Prop :=
  forall i, 0 <= i < 256 ->
    history c i <> if first (decNonce c) <? i then second (decNonce c) else u8 (second (decNonce c) + 1).

(** The nonce [k] packets ahead, from the byte that is sent. *)
Lemma choose_nonce_ahead c (k : nat) : nonce_wf (decNonce c) -> (1 <= k <= 127)%nat ->
  let n := Nat.iter k inc_bytes (decNonce c) in
  exists c1, choose_nonce c (first n) = Ok (c1, false) /\ decNonce c1 = n /\
    c1 = c <| decNonce := n |> <| Lost := if Nat.eqb k 1 then Lost c else u32 (Lost c + (Z.of_nat k - 1)) |>.
Proof.
  intros Hn Hk. destruct (nonce_split _ Hn) as (b0 & b1 & t & E & H0 & H1 & Ht & Hl). cbn zeta.
  assert (first (Nat.iter k inc_bytes (decNonce c)) =
    if b0 + Z.of_nat k <? 256 then b0 + Z.of_nat k else b0 + Z.of_nat k - 256) as Hf.
  { rewrite E, iter_inc by (done || lia). by destruct (_ <? _). }
  assert (iv_diff (first (Nat.iter k inc_bytes (decNonce c))) (first (decNonce c)) = Z.of_nat k) as Hd.
  { rewrite Hf, E. cbn [first nth]. unfold iv_diff. repeat case_match; zlia. }
  assert (advance (decNonce c) (first (Nat.iter k inc_bytes (decNonce c))) (first (decNonce c)) =
    Nat.iter k inc_bytes (decNonce c)) as Ha.
  { rewrite Hf, E. unfold advance, set_first. rewrite iter_inc by (done || lia). cbn [first nth].
    destruct (Z.ltb_spec (b0 + Z.of_nat k) 256); cbn [insert list_insert].
    - destruct (Z.ltb_spec (b0 + Z.of_nat k) b0); [lia|done].
    - destruct (Z.ltb_spec (b0 + Z.of_nat k - 256) b0); [done|zlia]. }
  unfold choose_nonce. cbn [set_field decNonce]. rewrite Hd, Ha.
  destruct (Nat.eqb_spec k 1) as [->|Hne].
  - eexists. split; [reflexivity|]. split; [done|]. by destruct c.
  - destruct (Z.eqb_spec (Z.of_nat k) 1); [lia|]. destruct (Z.ltb_spec 1 (Z.of_nat k)); [|lia].
    eexists. split; [reflexivity|]. split; [done|]. rewrite (u32_id (Z.of_nat k - 1)) by zlia. by destruct c.
Qed.

(** The history check passes for it. *)
Lemma history_ahead c (k : nat) : nonce_wf (decNonce c) -> history_ok c -> (1 <= k <= 127)%nat ->
  let n := Nat.iter k inc_bytes (decNonce c) in
  is_u8 (first n) /\ history c (first n) <> second n.
Proof.
  intros Hn Hh Hk. destruct (nonce_split _ Hn) as (b0 & b1 & t & E & H0 & H1 & Ht & Hl). cbn zeta.
  unfold history_ok in Hh. rewrite E, iter_inc by (done || lia). rewrite E in Hh.
  cbn [first second nth] in Hh.
  destruct (Z.ltb_spec (b0 + Z.of_nat k) 256); cbn [first second nth].
  - split; [zlia|]. specialize (Hh (b0 + Z.of_nat k) ltac:(zlia)).
    destruct (Z.ltb_spec b0 (b0 + Z.of_nat k)); [done|lia].
  - split; [zlia|]. specialize (Hh (b0 + Z.of_nat k - 256) ltac:(zlia)).
    destruct (Z.ltb_spec b0 (b0 + Z.of_nat k - 256)); [zlia|].
    cbn [inc_bytes]. destruct (negb _); done.
Qed.

Context (aesE_block : forall key b, length b = BlockSize -> length (aesE key b) = BlockSize).
Context (aesDE : forall key b, length b = BlockSize -> aesD key (aesE key b) = b).

Lemma copy_exact (dst src : bytes) : length dst = length src -> copy dst src = src.
Proof. intros H. unfold copy. by rewrite H, take_ge, drop_ge, app_nil_r by lia. Qed.

(** The receiver state after a packet [k] ahead. *)
Definition received (r : CryptState) (k : nat) : CryptState :=
  let n := Nat.iter k inc_bytes (decNonce r) in
  r <| decNonce := n |>
    <| Lost := if Nat.eqb k 1 then Lost r else u32 (Lost r + (Z.of_nat k - 1)) |>
    <| decHistory := <[Z.to_nat (first n) := second n]> (decHistory r) |>
    <| Good := u32 (Good r + 1) |>.

Lemma legacy_opens r key (k : nat) m dst :
  crypt_wf r -> legacyBlock r = Some key -> history_ok r -> (1 <= k <= 127)%nat ->
  length dst = length m ->
  let n := Nat.iter k inc_bytes (decNonce r) in
  exists ct tag, Encrypt (aesE key) m n (Z.to_nat legacyTagSize) = Some (ct, tag) /\
    zlen (first n :: tag ++ ct) = zlen m + legacyOverhead /\
    decryptLegacy r dst (first n :: tag ++ ct) = (received r k, m, None).
Proof.
  intros Hwf Hkey Hh Hk Hdst. pose proof Hwf as (_ & Hdn & _). cbn zeta.
  pose proof (nonce_wf_iter k _ Hdn) as [Hnl _].
  destruct (encrypt_decrypt (aesE key) (aesD key) (aesE_block key) (aesDE key) m
    (Nat.iter k inc_bytes (decNonce r)) (Z.to_nat legacyTagSize)) as (ct & tag & HE & Hct & Htag & HD);
    [done|vm_compute; lia|].
  exists ct, tag. split; [done|]. change (Z.to_nat legacyTagSize) with 3%nat in Htag.
  assert (zlen (first (Nat.iter k inc_bytes (decNonce r)) :: tag ++ ct) = zlen m + legacyOverhead) as Hlen.
  { rewrite zlen_cons, zlen_app. unfold zlen, legacyOverhead, legacyTagSize. rewrite Hct, Htag. lia. }
  split; [done|]. unfold decryptLegacy. rewrite Hkey, Hlen. pose proof (zlen_nonneg m).
  destruct (Z.ltb_spec (zlen m + legacyOverhead) legacyOverhead); [lia|].
  destruct (Z.ltb_spec (zlen dst) (zlen m + legacyOverhead - legacyOverhead)) as [Hbad|_].
  { unfold zlen in Hbad. rewrite Hdst in Hbad. lia. }
  destruct (choose_nonce_ahead r k Hdn Hk) as (c1 & Hc1 & Hc1n & Hc1e).
  destruct (history_ahead r k Hdn Hh Hk) as [Hiv Hne]. cbn zeta in *.
  set (n := Nat.iter k inc_bytes (decNonce r)) in *.
  change (first (first n :: tag ++ ct)) with (first n). rewrite Hc1, Hc1n.
  assert (history c1 (first n) = history r (first n)) as -> by (by rewrite Hc1e).
  apply Z.eqb_neq in Hne. rewrite Hne.
  assert (zdrop 4 (first n :: tag ++ ct) = ct) as ->.
  { destruct tag as [|? [|? [|? [|]]]]; done. }
  assert (ztake 3 (zdrop 1 (first n :: tag ++ ct)) = tag) as ->.
  { destruct tag as [|? [|? [|? [|]]]]; done. }
  rewrite HD. cbn [negb]. rewrite copy_exact by done. rewrite Hc1e. done.
Qed.

Lemma received_ok r : crypt_wf r -> history_ok r ->
  crypt_wf (received r 1) /\ history_ok (received r 1) /\ decNonce (received r 1) = inc_bytes (decNonce r).
Proof.
  intros (He & Hdn & Hl & Hb) Hh. pose proof (nonce_wf_inc _ Hdn) as Hinc.
  split; [|split; [|done]].
  { unfold crypt_wf, received. cbn -[first second]. by rewrite length_insert. }
  destruct (nonce_split _ Hdn) as (b0 & b1 & t & E & H0 & H1 & Ht & _).
  assert (is_u8 (first (inc_bytes (decNonce r)))) as Hfu.
  { destruct (nonce_split _ Hinc) as (? & ? & ? & -> & ? & _). done. }
  intros i Hi. unfold history, received. cbn [decNonce decHistory set_field Nat.iter nat_rect].
  rewrite history_insert by (done || lia). specialize (Hh i Hi). rewrite E in *. cbn [inc_bytes] in *.
  rewrite u8_succ in * by done. cbn [first second nth] in *.
  assert (forall b, is_u8 b -> b <> u8 (b + 1)) as Hsucc.
  { intros b Hb'. rewrite u8_succ by done. destruct (Z.eqb_spec b 255); lia. }
  destruct (Z.eqb_spec b0 255) as [->|]; cbn [negb Z.eqb first second nth] in *.
  - rewrite u8_succ in * by done.
    assert (nth 0 (if negb ((if b1 =? 255 then 0 else b1 + 1) =? 0) then (if b1 =? 255 then 0 else b1 + 1) :: t
      else (if b1 =? 255 then 0 else b1 + 1) :: inc_bytes t) 0 = if b1 =? 255 then 0 else b1 + 1) as ->
      by (by destruct (negb _)).
    case_decide; [subst i; cbn [Z.ltb Z.compare]; apply Hsucc; destruct (Z.eqb_spec b1 255); zlia|].
    destruct (Z.ltb_spec 0 i); [|lia]. destruct (Z.ltb_spec 255 i); [lia|]. done.
  - destruct (Z.eqb_spec (b0 + 1) 0); [zlia|]. cbn [negb first second nth].
    case_decide; [subst i; rewrite Z.ltb_irrefl; by apply Hsucc|].
    destruct (Z.ltb_spec (b0 + 1) i), (Z.ltb_spec b0 i); try lia; rewrite ?u8_succ by done; done.
Qed.

(** ** A voice stream over the legacy mode *)

(** Encrypting a list of messages into buffers of the documented size. *)
Fixpoint send_all (s : CryptState) (ms : list bytes) : CryptState * list (bytes * option crypto_error) :=
  match ms with
  | [] => (s, [])
  | m :: ms =>
      let '(s, pkt, err) := EncryptPacket s (replicate (length m + Z.to_nat (Overhead s)) 0) m in
      let '(s, rest) := send_all s ms in (s, (pkt, err) :: rest)
  end.

(** Decrypting a list of packets. *)
Fixpoint deliver_all (r : CryptState) (pkts : list bytes) : CryptState * list (bytes * option crypto_error) :=
  match pkts with
  | [] => (r, [])
  | p :: pkts =>
      let '(r, m, err) := DecryptPacket r (replicate (length p - Z.to_nat (Overhead r)) 0) p in
      let '(r, rest) := deliver_all r pkts in (r, (m, err) :: rest)
  end.

(** Sender and receiver agree on key and nonce. *)
Definition in_step (s r : CryptState) (key : bytes) : Prop :=
  mode s = ModeLegacy /\ mode r = ModeLegacy /\ legacyBlock s = Some key /\ legacyBlock r = Some key /\
  decNonce r = encNonce s /\ crypt_wf r /\ history_ok r.

Lemma encryptLegacy_packet s key m ct tag :
  legacyBlock s = Some key ->
  Encrypt (aesE key) m (inc_bytes (encNonce s)) (Z.to_nat legacyTagSize) = Some (ct, tag) ->
  zlen (first (inc_bytes (encNonce s)) :: tag ++ ct) = zlen m + legacyOverhead ->
  encryptLegacy s (replicate (length m + Z.to_nat legacyOverhead) 0) m =
    (s <| encNonce := inc_bytes (encNonce s) |>, first (inc_bytes (encNonce s)) :: tag ++ ct, None).
Proof.
  intros Hk HE Hl. unfold encryptLegacy. rewrite Hk.
  assert (zlen (replicate (length m + Z.to_nat legacyOverhead) 0) = zlen m + legacyOverhead) as Hz.
  { unfold zlen. rewrite length_replicate. change (Z.to_nat legacyOverhead) with 4%nat.
    change legacyOverhead with 4. lia. }
  rewrite Hz, Z.ltb_irrefl. cbn [set_field encNonce]. rewrite HE. rewrite copy_exact; [done|].
  unfold zlen in *. lia.
Qed.

Lemma in_step_packet s r key m : in_step s r key ->
  exists pkt, encryptLegacy s (replicate (length m + Z.to_nat legacyOverhead) 0) m =
      (s <| encNonce := inc_bytes (encNonce s) |>, pkt, None) /\
    decryptLegacy r (replicate (length pkt - Z.to_nat legacyOverhead) 0) pkt = (received r 1, m, None) /\
    in_step (s <| encNonce := inc_bytes (encNonce s) |>) (received r 1) key.
Proof.
  intros (Hms & Hmr & Hs & Hr & Hn & Hwf & Hh).
  destruct (legacy_opens r key 1 m (replicate (length m) 0) Hwf Hr Hh ltac:(lia)) as (ct & tag & HE & Hl & HD);
    [by rewrite length_replicate|].
  change (Nat.iter 1 inc_bytes (decNonce r)) with (inc_bytes (decNonce r)) in *. rewrite Hn in *.
  exists (first (inc_bytes (encNonce s)) :: tag ++ ct). split; [by apply (encryptLegacy_packet s key)|].
  assert (length (first (inc_bytes (encNonce s)) :: tag ++ ct) - Z.to_nat legacyOverhead = length m)%nat as ->.
  { unfold zlen in Hl. change legacyOverhead with 4 in Hl. change (Z.to_nat legacyOverhead) with 4%nat. lia. }
  split; [done|]. destruct (received_ok r Hwf Hh) as (? & ? & Hd). rewrite Hn in Hd. done.
Qed.

(** Voice gets through: over any AES, packets encrypted by one side and
    delivered in order to the other are all decrypted to the messages that
    were sent, of any number and length, across every wrap of the transmitted
    nonce byte, and counted as good; none is counted lost or late. *)
Theorem legacy_stream (s r : CryptState) (key : bytes) (ms : list bytes) :
  in_step s r key ->
  let '(_, pkts) := send_all s ms in
  Forall (fun p => p.2 = None) pkts /\
  let '(r', out) := deliver_all r (map fst pkts) in
  out = map (fun m => (m, None)) ms /\ Good r' = fold_left (fun g _ => u32 (g + 1)) ms (Good r) /\
  Lost r' = Lost r /\ Late r' = Late r.
Proof.
  revert s r. induction ms as [|m ms IH]; intros s r Hst.
  { cbn. split; [constructor|done]. }
  cbn [send_all]. pose proof Hst as (Hms & Hmr & _). unfold EncryptPacket, Overhead. rewrite Hms.
  destruct (in_step_packet s r key m Hst) as (pkt & -> & HD & Hst'). specialize (IH _ _ Hst').
  destruct (send_all _ ms) as [s' pkts]. destruct IH as [Hall IH].
  split; [by constructor|]. cbn [map fst deliver_all]. unfold DecryptPacket, Overhead. rewrite Hmr, HD.
  destruct (deliver_all (received r 1) (map fst pkts)) as [r' out]. destruct IH as (-> & -> & -> & ->). done.
Qed.

(** Loss on the network does not desynchronise the nonces: after up to 126
    lost packets in a row the next one still opens, the receiver's counter is
    the sender's again, and exactly the missing packets are counted as lost. *)
Theorem legacy_survives_loss (r : CryptState) (key m dst : bytes) (k : nat) :
  crypt_wf r -> legacyBlock r = Some key -> history_ok r -> (1 <= k <= 127)%nat ->
  length dst = length m ->
  let n := Nat.iter k inc_bytes (decNonce r) in
  exists ct tag r', Encrypt (aesE key) m n (Z.to_nat legacyTagSize) = Some (ct, tag) /\
    decryptLegacy r dst (first n :: tag ++ ct) = (r', m, None) /\
    decNonce r' = n /\ (is_u32 (Lost r) -> Lost r' = u32 (Lost r + (Z.of_nat k - 1))).
Proof.
  intros Hwf Hkey Hh Hk Hdst. destruct (legacy_opens r key k m dst Hwf Hkey Hh Hk Hdst) as (ct & tag & HE & _ & HD).
  exists ct, tag, (received r k). split; [done|]. split; [done|]. split; [done|]. intros Hu.
  cbn. destruct (Nat.eqb_spec k 1) as [->|]; [|done]. by rewrite Z.add_0_r, u32_id.
Qed.

(** What is chosen depends on the nonce only. *)
Lemma choose_nonce_late c c' iv c1 : choose_nonce c iv = Ok (c1, true) -> decNonce c' = decNonce c ->
  exists c1', choose_nonce c' iv = Ok (c1', true) /\ decNonce c1' = decNonce c1 /\ decHistory c1' = decHistory c'.
Proof.
  intros H Hn. revert H. unfold choose_nonce. cbn [set_field decNonce]. rewrite Hn.
  repeat case_match; intros [= <-]. by eexists.
Qed.

(** A packet that was accepted is refused when it is presented again at
    once, whether it was in order, after a gap, or late. *)
Theorem legacy_replay_refused (c : CryptState) (dst dst2 src : bytes) :
  crypt_wf c -> bytes_ok src -> upper (decNonce c) + 1 < 2 ^ 120 ->
  (decryptLegacy c dst src).2 = None -> length dst2 = length dst ->
  (decryptLegacy (decryptLegacy c dst src).1.1 dst2 src).2 = Some ErrReplayDetected.
Proof.
  intros Hwf Hok Hu Herr Hd2. pose proof (decryptLegacy_cases c dst src Hwf Hok Hu) as Hc.
  destruct (decryptLegacy c dst src) as [[c' dst'] err]. cbn [fst snd] in *. subst err.
  destruct Hc as [_ [[? _]|Hacc]]; [done|].
  destruct Hacc as (_ & c1 & restore & Ec & _ & Hne & Hh & Hn & Hk & [key Hkey] & Hs & Hd).
  assert (is_u8 (first src)) as Hiv.
  { unfold first. destruct src as [|x src]; [cbn; zlia|]. by apply bytes_ok_cons in Hok as [? _]. }
  pose proof Hwf as (_ & Hdn & Hlen & _).
  destruct (choose_nonce_spec c (first src) c1 restore Hdn Hiv Hu Ec) as (_ & Hf1 & _).
  unfold decryptLegacy. rewrite Hk, Hkey. destruct (Z.ltb_spec (zlen src) legacyOverhead); [lia|].
  assert (zlen dst2 = zlen dst) as -> by (unfold zlen; by rewrite Hd2).
  destruct (Z.ltb_spec (zlen dst) (zlen src - legacyOverhead)); [lia|].
  destruct restore.
  - destruct (choose_nonce_late c c' _ _ Ec Hn) as (c1' & -> & Hn' & Hh').
    assert (history c1' (first src) = second (decNonce c1')) as ->; [|by rewrite Z.eqb_refl].
    unfold history. rewrite Hh', Hh, history_insert, decide_True by (done || zlia). by rewrite Hn'.
  - assert (choose_nonce c' (first src) = Err ErrReplayDetected) as ->; [|done].
    unfold choose_nonce. rewrite Hn, Hf1. unfold iv_diff. rewrite Z.sub_diag. done.
Qed.

(** A fresh history is all zeros: it is good for a second nonce byte other
    than 0 and 255. *)
Lemma fresh_history_ok r : decHistory r = replicate decryptHistory 0 -> nonce_wf (decNonce r) ->
  second (decNonce r) <> 0 -> second (decNonce r) <> 255 -> history_ok r.
Proof.
  intros Hh Hn H0 H255 i Hi. unfold history. rewrite Hh.
  assert (nth (Z.to_nat i) (replicate decryptHistory 0) 0 = 0) as ->.
  { rewrite nth_lookup, lookup_replicate_2; [done|]. unfold decryptHistory. lia. }
  destruct (nonce_split _ Hn) as (b0 & b1 & t & E & ? & ? & _). rewrite E in *. cbn [first second nth] in *.
  destruct (_ <? _); [done|]. rewrite u8_succ by done. destruct (Z.eqb_spec b1 255); zlia.
Qed.

Lemma zero_history_refuses c key dst src :
  legacyBlock c = Some key -> nonce_wf (decNonce c) -> second (decNonce c) = 0 ->
  decHistory c = replicate decryptHistory 0 ->
  legacyOverhead <= zlen src -> zlen src <= zlen dst ->
  first (decNonce c) < first src <= 255 -> first src - first (decNonce c) <= 128 ->
  (decryptLegacy c dst src).2 = Some ErrReplayDetected.
Proof.
  intros Hk Hn H2 Hh Hs Hd Hf Hdiff.
  destruct (nonce_split _ Hn) as (b0 & b1 & t & E & Hb0 & Hb1 & Ht & Hl).
  unfold decryptLegacy. rewrite Hk.
  destruct (Z.ltb_spec (zlen src) legacyOverhead); [lia|].
  destruct (Z.ltb_spec (zlen dst) (zlen src - legacyOverhead)); [unfold legacyOverhead, legacyTagSize in *; lia|].
  assert (exists c1, choose_nonce c (first src) = Ok (c1, false) /\ decHistory c1 = decHistory c /\
    decNonce c1 = set_first (first src) (decNonce c)) as (c1 & -> & Hh1 & Hn1).
  { unfold choose_nonce. assert (iv_diff (first src) (first (decNonce c)) = first src - first (decNonce c)) as ->.
    { unfold iv_diff. repeat case_match; lia. }
    assert (advance (decNonce c) (first src) (first (decNonce c)) = set_first (first src) (decNonce c)) as Ha.
    { unfold advance. destruct (Z.ltb_spec (first src) (first (decNonce c))); [lia|done]. }
    destruct (Z.eqb_spec (first src - first (decNonce c)) 1); [eexists; split; [reflexivity|split; [reflexivity|exact Ha]]|].
    destruct (Z.ltb_spec 1 (first src - first (decNonce c))); [eexists; split; [reflexivity|split; [reflexivity|exact Ha]]|lia]. }
  assert (second (decNonce c1) = 0) as -> by (rewrite Hn1; rewrite E in *; done).
  assert (history c1 (first src) = 0) as ->; [|done].
  unfold history. rewrite Hh1, Hh, nth_lookup, lookup_replicate_2; [done|]. unfold decryptHistory.
  rewrite E in Hf. cbn [first nth] in Hf. zlia.
Qed.

(** The other nonces lose the start of the stream: a receiver whose agreed
    nonce has a zero second byte takes its empty history for a record of
    packets, and refuses as replays all packets up to the next wrap of the
    transmitted byte. *)
Theorem legacy_fresh_history_refuses (key n dst src : bytes) :
  zlen key = legacyKeySize -> nonce_wf n -> second n = 0 ->
  legacyOverhead <= zlen src -> zlen src <= zlen dst ->
  first n < first src <= 255 -> first src - first n <= 128 ->
  let r := (SetKey (NewCryptState ModeLegacy) key n n).1 in
  (decryptLegacy r dst src).2 = Some ErrReplayDetected.
Proof.
  intros Hk Hn H2 Hs Hd Hf Hdiff.
  assert (zlen n = legacyNonceSize) as Hln by (unfold zlen; destruct Hn as [-> _]; done).
  unfold SetKey. cbn [mode NewCryptState]. rewrite Hk, Hln, !Z.eqb_refl. cbn [negb orb fst].
  apply (zero_history_refuses _ key); done.
Qed.

(** ** Secure mode *)

Context (gcm_open_seal : forall key nonce m, gcmOpen key nonce (gcmSeal key nonce m) = Some m).
Context (gcm_seal_len : forall key nonce m, zlen (gcmSeal key nonce m) = zlen m + secureTagSize).

Definition secure_packet (key : bytes) (counter : Z) (m : bytes) : bytes :=
  let nonce := replicate 4 0 ++ be64 counter in nonce ++ gcmSeal key nonce m.

Lemma secure_packet_parts key counter m : is_u64 counter ->
  zlen (secure_packet key counter m) = zlen m + secureOverhead /\
  ztake secureNonceSize (secure_packet key counter m) = replicate 4 0 ++ be64 counter /\
  zdrop secureNonceSize (secure_packet key counter m) = gcmSeal key (replicate 4 0 ++ be64 counter) m /\
  be64_read (zdrop 4 (replicate 4 0 ++ be64 counter)) = counter.
Proof.
  intros Hc. unfold secure_packet. set (nonce := replicate 4 0 ++ be64 counter).
  assert (zlen nonce = 12) as Hn by done. change secureNonceSize with (zlen nonce).
  rewrite ztake_app, zdrop_app, zlen_app, gcm_seal_len, Hn.
  unfold secureOverhead, secureNonceSize, secureTagSize. split; [lia|]. split; [done|]. split; [done|].
  change (zdrop 4 nonce) with (be64 counter). rewrite <- (app_nil_r (be64 counter)). by apply be64_back.
Qed.

Lemma secure_opens c key counter m dst c1 : secureAEAD c = Some key -> is_u64 counter ->
  window c counter = Ok c1 -> length dst = length m ->
  decryptSecure c dst (secure_packet key counter m) = (c1, m, None).
Proof.
  intros Hk Hc Hw Hd. destruct (secure_packet_parts key counter m Hc) as (Hl & Ht & Hdr & Hr).
  unfold decryptSecure. rewrite Hk, Hl, Ht, Hdr, Hr, Hw, gcm_open_seal. pose proof (zlen_nonneg m).
  destruct (Z.ltb_spec (zlen m + secureOverhead) secureOverhead); [lia|].
  assert (zlen dst = zlen m) as -> by (unfold zlen; by rewrite Hd).
  rewrite Z.ltb_irrefl. by rewrite copy_exact.
Qed.

(** A newer counter always moves the window. *)
Lemma window_newer c counter : decMax c < counter ->
  exists c1, window c counter = Ok c1 /\ decMax c1 = counter /\ secureAEAD c1 = secureAEAD c /\
    mode c1 = mode c /\ Good c1 = u32 (Good c + 1) /\ Late c1 = Late c.
Proof.
  intros Hc. destruct c as [? ? ? ? ? ? ? dm bm ? ? ? ?]. cbn in Hc. unfold window. cbn -[or_bit shift_bitmap u32 replicate].
  destruct (Z.leb_spec counter dm); [lia|].
  destruct (64 <? counter - dm); cbn -[or_bit shift_bitmap u32 replicate];
    [|destruct (1 <? counter - dm)]; by eexists.
Qed.

(** Voice gets through in secure mode too: over any AEAD that opens what it
    seals, packets delivered in order are all decrypted to what was sent, from
    any earlier state of the receiver's window. *)
Theorem secure_stream (s r : CryptState) (key : bytes) (ms : list bytes) :
  mode s = ModeSecure -> mode r = ModeSecure -> secureAEAD s = Some key -> secureAEAD r = Some key ->
  0 <= decMax r <= encCounter s -> encCounter s + zlen ms < 2 ^ 64 ->
  let '(_, pkts) := send_all s ms in
  Forall (fun p => p.2 = None) pkts /\
  let '(r', out) := deliver_all r (map fst pkts) in
  out = map (fun m => (m, None)) ms /\ Late r' = Late r.
Proof.
  revert s r. induction ms as [|m ms IH]; intros s r Hms Hmr Hks Hkr Hctr Hb.
  { cbn. split; [constructor|done]. }
  rewrite zlen_cons in Hb. pose proof (zlen_nonneg ms). pose proof (zlen_nonneg m).
  assert (EncryptPacket s (replicate (length m + Z.to_nat (Overhead s)) 0) m =
    (s <| encCounter := encCounter s + 1 |>, secure_packet key (encCounter s + 1) m, None)) as HE.
  { unfold EncryptPacket, Overhead, encryptSecure. rewrite Hms, Hks.
    assert (zlen (replicate (length m + Z.to_nat secureOverhead) 0) = zlen m + secureOverhead) as Hz.
    { unfold zlen. rewrite length_replicate. change (Z.to_nat secureOverhead) with 28%nat.
      change secureOverhead with 28. lia. }
    rewrite Hz, Z.ltb_irrefl. cbn [set_field encCounter]. rewrite u64_id by zlia.
    fold (secure_packet key (encCounter s + 1) m). rewrite copy_exact; [done|].
    destruct (secure_packet_parts key (encCounter s + 1) m ltac:(zlia)) as (Hl & _). unfold zlen in *. lia. }
  cbn [send_all]. rewrite HE. destruct (window_newer r (encCounter s + 1) ltac:(lia)) as (r1 & Hw & Hmax & Hk1 & Hm1 & _ & Hl1).
  pose (s <| encCounter := encCounter s + 1 |>) as s1. fold s1.
  specialize (IH s1 r1 Hms ltac:(congruence) Hks ltac:(congruence) ltac:(cbn; lia) ltac:(cbn; lia)). destruct (send_all _ ms) as [s' pkts]. destruct IH as [Hall IH].
  split; [by constructor|]. cbn [map fst deliver_all]. unfold DecryptPacket, Overhead. rewrite Hmr.
  rewrite (secure_opens r key _ m _ r1) by
    (done || zlia || (destruct (secure_packet_parts key (encCounter s + 1) m ltac:(zlia)) as (Hl & _);
       rewrite length_replicate; unfold zlen in Hl; change secureOverhead with 28 in *;
       change (Z.to_nat 28) with 28%nat; lia)).
  destruct (deliver_all r1 (map fst pkts)) as [r' out]. destruct IH as (-> & ->). by rewrite Hl1.
Qed.

Lemma shift_bitmap_zeros shift n : shift_bitmap (replicate n 0) shift = replicate n 0.
Proof.
  assert (shl8 0 shift = 0) as Hl by (unfold shl8; case_match; [done|by rewrite Z.shiftl_0_l]).
  assert (shr8 0 (8 - shift) = 0) as Hr by (unfold shr8; case_match; [done|by rewrite Z.shiftr_0_l]).
  induction n as [|[|n] IH]; [done|cbn; by rewrite Hl|].
  change (shift_bitmap (replicate (S (S n)) 0) shift) with
    (Z.lor (shl8 0 shift) (shr8 0 (8 - shift)) :: shift_bitmap (replicate (S n) 0) shift).
  by rewrite Hl, Hr, IH.
Qed.

(** The replay window of the secure mode is misaligned: it marks a new
    packet at the wrong end of the bitmap, so a receiver accepts the newest
    packet a second time (and only then marks it where it looks). *)
Theorem secure_replay_accepted (r : CryptState) (key m : bytes) (counter : Z) :
  secureAEAD r = Some key -> decBitmap r = replicate 8 0 -> 0 <= decMax r < counter -> is_u64 counter ->
  let dst := replicate (length m) 0 in
  let pkt := secure_packet key counter m in
  let '(r1, out1, err1) := decryptSecure r dst pkt in
  let '(r2, out2, err2) := decryptSecure r1 dst pkt in
  err1 = None /\ out1 = m /\ err2 = None /\ out2 = m /\
  (decryptSecure r2 dst pkt).2 = Some ErrReplayDetected.
Proof.
  intros Hk Hbm Hc Hu. cbn zeta.
  destruct (window_newer r counter ltac:(lia)) as (r1 & Hw & Hmax & Hk1 & _).
  assert (decBitmap r1 = 0x80 :: replicate 7 0) as Hb1.
  { revert Hw. destruct r as [? ? ? ? ? ? ? dm bm ? ? ? ?]. cbn in Hc. cbn -[replicate] in Hbm. subst bm. unfold window.
    cbn -[or_bit shift_bitmap u32 replicate]. destruct (Z.leb_spec counter dm); [lia|]. rewrite shift_bitmap_zeros.
    destruct (64 <? counter - dm); cbn -[or_bit u32 replicate];
      [|destruct (1 <? counter - dm)]; intros [= <-]; reflexivity. }
  rewrite (secure_opens r key counter m _ r1) by (done || by rewrite length_replicate).
  assert (exists r2, window r1 counter = Ok r2 /\ secureAEAD r2 = Some key /\ decMax r2 = counter /\
    nth 7 (decBitmap r2) 0 = 0x80) as (r2 & Hw2 & Hk2 & Hm2 & Hb2).
  { rewrite Hk in Hk1. destruct r1 as [? ? ? ? ? ? ? dm bm ? ? ? ?]. cbn in Hmax, Hb1, Hk1. subst. unfold window.
    cbn -[or_bit u32]. rewrite Z.leb_refl, Z.sub_diag. by eexists. }
  rewrite (secure_opens r1 key counter m _ r2) by (congruence || done || by rewrite length_replicate).
  repeat (split; [done|]).
  destruct (secure_packet_parts key counter m Hu) as (Hl & Ht & Hdr & Hr).
  unfold decryptSecure. rewrite Hk2, Hl, Ht, Hdr, Hr. pose proof (zlen_nonneg m).
  destruct (Z.ltb_spec (zlen m + secureOverhead) secureOverhead); [lia|].
  assert (window r2 counter = Err ErrReplayDetected) as ->; [|done].
  unfold window. rewrite Hm2, Z.leb_refl, Z.sub_diag. change (Z.to_nat ((63 - 0) / 8)) with 7%nat.
  change (nth 7 (decBitmap r2) 0) with (nth 7 (decBitmap r2) 0). rewrite Hb2. done.
Qed.

(** The window moves before the packet is authenticated: one forged packet
    with a large counter, itself refused, makes the receiver refuse every
    genuine packet whose counter is 64 or more below it. *)
Theorem secure_forgery_blocks (r : CryptState) (key dst src src2 dst2 : bytes) :
  secureAEAD r = Some key -> secureOverhead <= zlen src -> secureOverhead <= zlen src2 ->
  let counter p := be64_read (zdrop 4 (ztake secureNonceSize p)) in
  decMax r < counter src -> counter src2 + 64 <= counter src ->
  gcmOpen key (ztake secureNonceSize src) (zdrop secureNonceSize src) = None ->
  let '(r1, _, err1) := decryptSecure r dst src in
  err1 = Some ErrDecryptFailed /\ (decryptSecure r1 dst2 src2).2 = Some ErrReplayDetected.
Proof.
  cbn beta zeta. intros Hk Hs Hs2 Hc Hc2 Hforged. unfold decryptSecure at 1. rewrite Hk.
  destruct (Z.ltb_spec (zlen src) secureOverhead); [lia|].
  destruct (window_newer r _ Hc) as (r1 & -> & Hmax & Hk1 & _). rewrite Hforged. split; [done|].
  unfold decryptSecure. rewrite Hk1, Hk. destruct (Z.ltb_spec (zlen src2) secureOverhead); [lia|].
  unfold window. rewrite Hmax.
  match goal with |- context [?a <=? ?b] => destruct (Z.leb_spec a b); [|lia] end.
  match goal with |- context [64 <=? ?b] => destruct (Z.leb_spec 64 b); [|lia] end. done.
Qed.
End Ciphers.

(** ** The theorems at concrete ciphers *)

Definition toy_aesE (key : bytes) : bytes -> bytes := toy_E.
Definition toy_aesD (key : bytes) : bytes -> bytes := toy_D.
Definition toy_seal (key nonce m : bytes) : bytes := m ++ replicate 16 1.
Definition toy_open (key nonce ct : bytes) : option bytes :=
  let k := (length ct - 16)%nat in
  if bool_decide (drop k ct = replicate 16 1) then Some (take k ct) else None.

Lemma toy_open_seal key nonce m : toy_open key nonce (toy_seal key nonce m) = Some m.
Proof.
  unfold toy_open, toy_seal. rewrite length_app, length_replicate, Nat.add_sub.
  rewrite drop_app_length, take_app_length. by rewrite bool_decide_eq_true_2.
Qed.
Lemma toy_seal_len key nonce m : zlen (toy_seal key nonce m) = zlen m + secureTagSize.
Proof. unfold toy_seal. by rewrite zlen_app. Qed.

Definition sample_key : bytes := replicate 16 9.
Definition sample_nonce : bytes := 254 :: 7 :: replicate 14 0.
Definition sample_state : CryptState :=
  (SetKey (NewCryptState ModeLegacy) sample_key sample_nonce sample_nonce).1.

Lemma sample_nonce_wf : nonce_wf sample_nonce.
Proof. split; [done|]. repeat constructor; cbn; lia. Qed.
Lemma sample_wf : crypt_wf sample_state.
Proof. split; [exact sample_nonce_wf|]. split; [exact sample_nonce_wf|]. done. Qed.
Lemma sample_history_ok : history_ok sample_state.
Proof. apply fresh_history_ok; [done|exact sample_nonce_wf|done|done]. Qed.
Lemma sample_in_step : in_step sample_state sample_state sample_key.
Proof. repeat (split; [done|]). split; [exact sample_wf|exact sample_history_ok]. Qed.

Lemma legacy_stream_witness :
  let ms := [[1; 2; 3]; []; replicate 40 5] in
  let '(_, pkts) := send_all toy_aesE toy_seal sample_state ms in
  Forall (fun p => p.2 = None) pkts /\
  let '(r', out) := deliver_all toy_aesE toy_aesD toy_open sample_state (map fst pkts) in
  out = map (fun m => (m, None)) ms /\
  Good r' = fold_left (fun g _ => u32 (g + 1)) ms (Good sample_state) /\
  Lost r' = Lost sample_state /\ Late r' = Late sample_state.
Proof.
  apply (legacy_stream toy_aesE toy_aesD toy_seal toy_open (fun _ => toy_E_block) (fun _ => toy_DE) _ _ sample_key).
  exact sample_in_step.
Defined.

Lemma legacy_survives_loss_witness :
  let n := Nat.iter 100 inc_bytes sample_nonce in
  exists ct tag r', Encrypt (toy_aesE sample_key) [1; 2; 3] n (Z.to_nat legacyTagSize) = Some (ct, tag) /\
    decryptLegacy toy_aesE toy_aesD sample_state [0; 0; 0] (first n :: tag ++ ct) = (r', [1; 2; 3], None) /\
    decNonce r' = n /\ (is_u32 (Lost sample_state) -> Lost r' = u32 (Lost sample_state + (Z.of_nat 100 - 1))).
Proof.
  apply (legacy_survives_loss toy_aesE toy_aesD (fun _ => toy_E_block) (fun _ => toy_DE) sample_state);
    [exact sample_wf|reflexivity|exact sample_history_ok|lia|reflexivity].
Defined.

(** The first packet of the sample stream. *)
Definition sample_packet : bytes :=
  (encryptLegacy toy_aesE sample_state (replicate 7 0) [1; 2; 3]).1.2.

Lemma sample_packet_ok : bytes_ok sample_packet.
Proof.
  assert (forallb (fun z => (0 <=? z) && (z <? 256)) sample_packet = true) as H by (vm_compute; reflexivity).
  unfold bytes_ok. apply Forall_forall. intros z Hz. rewrite forallb_forall in H. specialize (H z Hz). zlia.
Qed.

Lemma legacy_nonce_once_witness :
  let pkts := [([0; 0; 0], sample_packet); ([0; 0; 0], sample_packet)] in
  NoDup (receive_all toy_aesE toy_aesD sample_state pkts []).2 /\
  length (receive_all toy_aesE toy_aesD sample_state pkts []).2 = 1%nat.
Proof.
  split; [|vm_compute; reflexivity].
  apply (legacy_nonce_once toy_aesE toy_aesD sample_state); [exact sample_wf| |vm_compute; reflexivity].
  constructor; [exact sample_packet_ok|]. constructor; [exact sample_packet_ok|constructor].
Defined.

Lemma legacy_replay_refused_witness :
  (decryptLegacy toy_aesE toy_aesD
     (decryptLegacy toy_aesE toy_aesD sample_state [0; 0; 0] sample_packet).1.1 [9; 9; 9] sample_packet).2 =
  Some ErrReplayDetected.
Proof.
  apply (legacy_replay_refused toy_aesE toy_aesD sample_state [0; 0; 0]);
    [exact sample_wf|exact sample_packet_ok|vm_compute; reflexivity|vm_compute; reflexivity|reflexivity].
Defined.

Lemma legacy_fresh_history_refuses_witness :
  let n := 10 :: 0 :: replicate 14 3 in
  (decryptLegacy toy_aesE toy_aesD (SetKey (NewCryptState ModeLegacy) sample_key n n).1
     (replicate 8 0) [11; 0; 0; 0; 1; 2; 3]).2 = Some ErrReplayDetected.
Proof.
  apply (legacy_fresh_history_refuses toy_aesE toy_aesD sample_key); try done.
  split; [done|]. repeat constructor; cbn; lia.
Defined.

Definition secure_key : bytes := replicate 32 4.
Definition secure_state : CryptState := (SetKey (NewCryptState ModeSecure) secure_key [] []).1.

Lemma secure_stream_witness :
  let ms := [[1; 2; 3]; []; [4]] in
  let '(_, pkts) := send_all toy_aesE toy_seal secure_state ms in
  Forall (fun p => p.2 = None) pkts /\
  let '(r', out) := deliver_all toy_aesE toy_aesD toy_open secure_state (map fst pkts) in
  out = map (fun m => (m, None)) ms /\ Late r' = Late secure_state.
Proof.
  apply (secure_stream toy_aesE toy_aesD toy_seal toy_open toy_open_seal toy_seal_len _ _ secure_key);
    [reflexivity|reflexivity|reflexivity|reflexivity|vm_compute; split; discriminate|vm_compute; reflexivity].
Defined.

Lemma secure_replay_accepted_witness :
  let dst := replicate (length [1; 2; 3]) 0 in
  let pkt := secure_packet toy_seal secure_key 1 [1; 2; 3] in
  let '(r1, out1, err1) := decryptSecure toy_open secure_state dst pkt in
  let '(r2, out2, err2) := decryptSecure toy_open r1 dst pkt in
  err1 = None /\ out1 = [1; 2; 3] /\ err2 = None /\ out2 = [1; 2; 3] /\
  (decryptSecure toy_open r2 dst pkt).2 = Some ErrReplayDetected.
Proof.
  apply (secure_replay_accepted toy_seal toy_open toy_open_seal toy_seal_len secure_state);
    [reflexivity|reflexivity|vm_compute; split; [discriminate|reflexivity]|split; lia].
Defined.

Lemma secure_forgery_blocks_witness :
  let forged := replicate 4 0 ++ replicate 8 255 ++ replicate 16 0 in
  let genuine := secure_packet toy_seal secure_key 1 [1; 2; 3] in
  let '(r1, _, err1) := decryptSecure toy_open secure_state [] forged in
  err1 = Some ErrDecryptFailed /\
  (decryptSecure toy_open r1 [0; 0; 0] genuine).2 = Some ErrReplayDetected.
Proof.
  apply (secure_forgery_blocks toy_open secure_state secure_key);
    [reflexivity|done|vm_compute; done|vm_compute; done|vm_compute; done|vm_compute; reflexivity].
Defined.
