(* ===== verification/Registry.v ===== *)
(** * The session registry (internal/cluster/registry.go, types.go)

    Where every live session is and in which phase of its life. The registry
    stores pointers to entries, so the model has a heap of entries and a map
    from session IDs to heap locations: an entry removed from the map can
    still be held by a goroutine that looked it up before. Every section of
    the code guarded by [r.mu] is one function here; what happens between the
    sections is in the file of the concurrent model. *)

From Stdlib Require Import ZArith Lia String.
From stdpp Require Import base numbers list gmap countable fin_maps.
From S2P Require Import Prelude Fields.
Open Scope Z_scope.

(** ** types.go *)

Definition EdgeID : Type := gostring.
Definition LocalEdgeID : EdgeID := str "local"%string.

Record SessionRef := mkRef { SessionID : Z; Generation : Z }.
#[export] Instance SessionRef_eq_dec : EqDecision SessionRef.
Proof. solve_decision. Defined.

#[export] Instance SessionRef_countable : Countable SessionRef.
Proof. by refine (inj_countable' (fun r => (SessionID r, Generation r)) (fun p => mkRef p.1 p.2) _); intros []. Defined.

Definition Valid (r : SessionRef) : bool := negb (SessionID r =? 0) && negb (Generation r =? 0).

Inductive SessionState := StateSyncing | StateActive | StateClosing | StateClosed.
#[export] Instance SessionState_eq_dec : EqDecision SessionState.
Proof. solve_decision. Defined.

(** An edge with its incarnation (control.go). *)
Record EdgeInstanceRef := mkInstance { inst_edge : EdgeID; inst_generation : Z }.

(** ** registry.go *)

Inductive registry_error :=
  ErrInvalidSession | ErrEdgeNotFound | ErrSessionBound | ErrStaleSession | ErrInvalidState.
#[export] Instance registry_error_eq_dec : EqDecision registry_error.
Proof. solve_decision. Defined.

Record entry := mkEntry {
  ref : SessionRef;
  edge : EdgeID;
  state : SessionState;
  announced : bool }.
#[export] Instance entry_eta : Eta entry := fun e => mkEntry (ref e) (edge e) (state e) (announced e).

Record SessionSnapshot := mkSnap {
  s_Ref : SessionRef;
  s_Edge : EdgeID;
  s_State : SessionState;
  s_Announced : bool }.
#[export] Instance SessionSnapshot_eta : Eta SessionSnapshot := fun s =>
  mkSnap (s_Ref s) (s_Edge s) (s_State s) (s_Announced s).

(** [loc] is the address of an entry; [next] the next fresh one. *)
Notation loc := nat.
Record Registry := mkRegistry {
  edges : gmap EdgeID Z;
  sessions : gmap Z loc;
  heap : gmap loc entry;
  next : loc }.
#[export] Instance Registry_eta : Eta Registry := fun r =>
  mkRegistry (edges r) (sessions r) (heap r) (next r).

Definition NewRegistry : Registry := mkRegistry ∅ ∅ ∅ 0%nat.

(** [r.sessions[sid]], followed through the pointer. *)
Definition session_entry (r : Registry) (sid : Z) : option (loc * entry) :=
  l ← sessions r !! sid; e ← heap r !! l; Some (l, e).

(** [e.f = v] through the pointer. *)
Definition write_entry (l : loc) (e : entry) (r : Registry) : Registry :=
  r <| heap := <[l := e]> (heap r) |>.

Definition snapshot (e : entry) : SessionSnapshot :=
  mkSnap (ref e) (edge e) (state e) (announced e).

Definition RegisterEdge (r : Registry) (id : EdgeID) (generation : Z)
    : Registry * option registry_error :=
  if (zlen id =? 0) || (generation =? 0) then (r, Some ErrEdgeNotFound) else
  match edges r !! id with
  | Some current =>
      if negb (current =? generation) then (r, Some ErrSessionBound)
      else (r <| edges := <[id := generation]> (edges r) |>, None)
  | None => (r <| edges := <[id := generation]> (edges r) |>, None)
  end.

Definition EdgeRegistered (r : Registry) (id : EdgeID) : bool :=
  match edges r !! id with Some _ => true | None => false end.

Definition EdgeGeneration (r : Registry) (id : EdgeID) : option Z := edges r !! id.

(** The entries in the order of the map's traversal, which Go leaves open. *)
Definition live_entries (r : Registry) : list entry :=
  omap (fun l => heap r !! l) (map snd (map_to_list (sessions r))).

Definition SessionsForEdge (r : Registry) (i : EdgeInstanceRef) : list SessionRef :=
  match edges r !! inst_edge i with
  | None => []
  | Some current =>
      if negb (current =? inst_generation i) then []
      else map ref (filter (fun e => edge e = inst_edge i) (live_entries r))
  end.

Definition Bind (r : Registry) (rf : SessionRef) (ed : EdgeID) : Registry * option registry_error :=
  if negb (Valid rf) then (r, Some ErrInvalidSession) else
  match edges r !! ed with
  | None => (r, Some ErrEdgeNotFound)
  | Some _ =>
    match session_entry r (SessionID rf) with
    | Some (_, old) =>
        if bool_decide (ref old = rf) && bool_decide (edge old = ed) then (r, None)
        else (r, Some ErrSessionBound)
    | None =>
        (r <| sessions := <[SessionID rf := next r]> (sessions r) |>
           <| heap := <[next r := mkEntry rf ed StateSyncing false]> (heap r) |>
           <| next := S (next r) |>, None)
    end
  end.

Definition Snapshot (r : Registry) (rf : SessionRef) : option SessionSnapshot :=
  match session_entry r (SessionID rf) with
  | Some (_, e) => if bool_decide (ref e = rf) then Some (snapshot e) else None
  | None => None
  end.

Definition Ref (r : Registry) (sid : Z) : option SessionRef :=
  match session_entry r sid with Some (_, e) => Some (ref e) | None => None end.

Definition Active (r : Registry) (rf : SessionRef) : bool :=
  match Snapshot r rf with Some s => bool_decide (s_State s = StateActive) | None => false end.

(** The lookup of [transition]; the lock is taken afterwards. *)
Definition transition (r : Registry) (rf : SessionRef) : result registry_error loc :=
  match session_entry r (SessionID rf) with
  | Some (l, e) => if bool_decide (ref e = rf) then Ok l else Err ErrStaleSession
  | None => Err ErrStaleSession
  end.

(** The re-check of [withTransition] under [r.mu]. *)
Definition recheck (r : Registry) (rf : SessionRef) (l : loc) : result registry_error SessionSnapshot :=
  match session_entry r (SessionID rf) with
  | Some (l', e) =>
      if bool_decide (l' = l) && bool_decide (ref e = rf) then Ok (snapshot e) else Err ErrStaleSession
  | None => Err ErrStaleSession
  end.

(** The guard of [WithSession] on the snapshot. *)
Definition with_session_guard (s : SessionSnapshot) : option registry_error :=
  match s_State s with
  | StateSyncing | StateActive => None
  | _ => Some ErrInvalidState
  end.

Definition commitActive (r : Registry) (rf : SessionRef) : Registry * option registry_error :=
  match session_entry r (SessionID rf) with
  | Some (l, e) =>
      if negb (bool_decide (ref e = rf)) then (r, Some ErrStaleSession) else
      match state e with
      | StateSyncing => (write_entry l (e <| state := StateActive |>) r, None)
      | _ => (r, Some ErrInvalidState)
      end
  | None => (r, Some ErrStaleSession)
  end.

(** [e.announced = true] under [r.mu]. *)
Definition set_announced (r : Registry) (l : loc) : Registry :=
  match heap r !! l with
  | Some e => write_entry l (e <| announced := true |>) r
  | None => r
  end.

Definition beginClose (r : Registry) (rf : SessionRef)
    : Registry * result registry_error SessionSnapshot :=
  match session_entry r (SessionID rf) with
  | Some (l, e) =>
      if negb (bool_decide (ref e = rf)) then (r, Err ErrStaleSession) else
      match state e with
      | StateClosing | StateClosed => (r, Ok ((snapshot e) <| s_Announced := false |>))
      | StateSyncing | StateActive =>
          let e := e <| state := StateClosing |> in (write_entry l e r, Ok (snapshot e))
      end
  | None => (r, Err ErrStaleSession)
  end.

Definition unbind (r : Registry) (rf : SessionRef) : Registry * option registry_error :=
  match session_entry r (SessionID rf) with
  | Some (l, e) =>
      if negb (bool_decide (ref e = rf)) then (r, Some ErrStaleSession) else
      let r := write_entry l (e <| state := StateClosed |>) r in
      (r <| sessions := delete (SessionID rf) (sessions r) |>, None)
  | None => (r, Some ErrStaleSession)
  end.

(** The first section of [CloseAndUnbind]: the snapshot handed to the
    callback. *)
Definition close_section (r : Registry) (rf : SessionRef) (l : loc)
    : Registry * result registry_error SessionSnapshot :=
  match session_entry r (SessionID rf) with
  | Some (l', e) =>
      if negb (bool_decide (l' = l)) then (r, Err ErrStaleSession) else
      let snap := snapshot e in
      let snap := if bool_decide (state e = StateClosing) then snap <| s_Announced := false |> else snap in
      (write_entry l (e <| state := StateClosing |>) r, Ok snap)
  | None => (r, Err ErrStaleSession)
  end.

Definition on_edge (r : Registry) (id : EdgeID) (l : loc) : bool :=
  match heap r !! l with Some e => bool_decide (edge e = id) | None => false end.

Definition RemoveEdge (r : Registry) (id : EdgeID) (generation : Z) : Registry * list SessionRef :=
  match edges r !! id with
  | None => (r, [])
  | Some current =>
      if negb (current =? generation) then (r, []) else
      let removed := map ref (filter (fun e => edge e = id) (live_entries r)) in
      (r <| edges := delete id (edges r) |>
         <| sessions := filter (fun kv => on_edge r id kv.2 = false) (sessions r) |>, removed)
  end.

Definition Sessions (r : Registry) : list SessionSnapshot := map snapshot (live_entries r).

(** ** Well-formedness: the map and the heap agree *)

Record registry_wf (r : Registry) : Prop := {
  wf_sessions : forall sid l, sessions r !! sid = Some l ->
    exists e, heap r !! l = Some e /\ SessionID (ref e) = sid /\ is_Some (edges r !! edge e) /\
      state e <> StateClosed;
  wf_next : forall l, is_Some (heap r !! l) -> (l < next r)%nat }.

Lemma session_entry_Some r sid l e : session_entry r sid = Some (l, e) <->
  sessions r !! sid = Some l /\ heap r !! l = Some e.
Proof.
  unfold session_entry. destruct (sessions r !! sid) as [l'|]; cbn; [|by split; [|intros []]].
  destruct (heap r !! l') as [e'|] eqn:E; cbn.
  - split; [intros [= <- <-]; done|]. intros [[= <-] He]. congruence.
  - split; [done|]. intros [[= <-] He]. congruence.
Qed.

Lemma session_entry_None r sid : registry_wf r -> session_entry r sid = None -> sessions r !! sid = None.
Proof.
  intros Hwf. unfold session_entry. destruct (sessions r !! sid) as [l|] eqn:E; [|done]. cbn.
  destruct (wf_sessions r Hwf _ _ E) as (e & -> & _). done.
Qed.

Lemma elem_of_live_entries r e : e ∈ live_entries r <-> exists sid l, session_entry r sid = Some (l, e).
Proof.
  unfold live_entries. rewrite list_elem_of_omap. split.
  - intros (l & Hl & He). apply list_elem_of_fmap in Hl as ([sid l'] & -> & Hin).
    apply elem_of_map_to_list in Hin. exists sid, l'. by apply session_entry_Some.
  - intros (sid & l & [Hs He]%session_entry_Some). exists l. split; [|done].
    apply list_elem_of_fmap. exists (sid, l). split; [done|]. by apply elem_of_map_to_list.
Qed.

Lemma elem_of_edge_refs r id rf : registry_wf r ->
  rf ∈ map ref (filter (fun e => edge e = id) (live_entries r)) <->
  exists l e, session_entry r (SessionID rf) = Some (l, e) /\ ref e = rf /\ edge e = id.
Proof.
  intros Hwf. split.
  - intros (e & -> & Hin)%list_elem_of_fmap. apply list_elem_of_filter in Hin as [Hed Hin].
    apply elem_of_live_entries in Hin as (sid & l & Hs). pose proof Hs as [Hs1 He]%session_entry_Some.
    destruct (wf_sessions r Hwf _ _ Hs1) as (e' & He' & Hid & _). assert (e' = e) as -> by congruence.
    exists l, e. by rewrite Hid.
  - intros (l & e & Hs & Hr & Hed). apply list_elem_of_fmap. exists e. split; [done|].
    apply list_elem_of_filter. split; [done|]. apply elem_of_live_entries. by eauto.
Qed.

(** ** Every operation keeps the registry well-formed *)

Lemma RegisterEdge_wf r id g : registry_wf r ->
  registry_wf (RegisterEdge r id g).1 /\ heap (RegisterEdge r id g).1 = heap r /\
  sessions (RegisterEdge r id g).1 = sessions r.
Proof.
  intros [W1 W2]. assert (registry_wf (r <| edges := <[id := g]> (edges r) |>)) as H.
  { split; cbn; [|done]. intros sid l Hl. destruct (W1 _ _ Hl) as (e & H0 & H1 & H2 & H3). exists e.
    split; [done|]. split; [done|]. split; [|done]. destruct (decide (edge e = id)) as [->|Hne].
    - rewrite lookup_insert_eq. done.
    - by rewrite lookup_insert_ne. }
  unfold RegisterEdge. repeat case_match; cbn; done.
Qed.

Lemma RemoveEdge_wf r id g : registry_wf r ->
  registry_wf (RemoveEdge r id g).1 /\ heap (RemoveEdge r id g).1 = heap r /\
  (forall sid l, sessions (RemoveEdge r id g).1 !! sid = Some l -> sessions r !! sid = Some l).
Proof.
  intros [W1 W2]. unfold RemoveEdge. destruct (edges r !! id) as [cur|] eqn:E; [|done].
  destruct (negb _); [done|]. cbn. split; [|split; [done|]].
  - split; cbn; [|done]. intros sid l [Hl Hon]%map_lookup_filter_Some.
    destruct (W1 _ _ Hl) as (e & H0 & H1 & H2 & H3). exists e. split; [done|]. split; [done|]. split; [|done].
    cbn in Hon. unfold on_edge in Hon. rewrite H0 in Hon. apply bool_decide_eq_false in Hon.
    by rewrite lookup_delete_ne.
  - intros sid l [Hl _]%map_lookup_filter_Some. done.
Qed.

Lemma Bind_wf r rf ed : registry_wf r -> registry_wf (Bind r rf ed).1.
Proof.
  intros Hwf. pose proof Hwf as [W1 W2]. unfold Bind. destruct (negb (Valid rf)); [done|].
  destruct (edges r !! ed) as [g|] eqn:Ee; [|done].
  destruct (session_entry r (SessionID rf)) as [[l e]|]; [by destruct (_ && _)|]. split; cbn.
  - intros sid l. destruct (decide (sid = SessionID rf)) as [->|Hsid].
    + rewrite lookup_insert_eq. intros [= <-]. eexists. rewrite lookup_insert_eq. split; [done|]. cbn. by eauto.
    + rewrite lookup_insert_ne by done. intros Hl. destruct (W1 _ _ Hl) as (e & H0 & H1).
      exists e. rewrite lookup_insert_ne; [done|]. intros <-. pose proof (W2 _ ltac:(by eexists)). lia.
  - intros l [x Hx]. destruct (decide (l = next r)) as [->|Hl]; [lia|].
    rewrite lookup_insert_ne in Hx by done. pose proof (W2 l ltac:(by eexists)). lia.
Qed.

Lemma NewRegistry_wf : registry_wf NewRegistry.
Proof.
  split.
  - intros sid l H. cbn -[lookup] in H. by rewrite lookup_empty in H.
  - intros l [e H]. cbn -[lookup] in H. by rewrite lookup_empty in H.
Qed.

(** Losing an edge removes exactly its sessions: with the current
    incarnation of the edge, every session on it is reported and gone, every
    other session is untouched, and the edge is no longer registered; with any
    other incarnation (a delayed disconnect of an old connection) nothing
    changes. *)
Theorem RemoveEdge_exact (r : Registry) (id : EdgeID) (g : Z) :
  registry_wf r ->
  let '(r', removed) := RemoveEdge r id g in
  (edges r !! id <> Some g -> r' = r /\ removed = []) /\
  (edges r !! id = Some g ->
     EdgeRegistered r' id = false /\
     (forall rf, rf ∈ removed <->
        exists l e, session_entry r (SessionID rf) = Some (l, e) /\ ref e = rf /\ edge e = id) /\
     (forall sid l e, session_entry r' sid = Some (l, e) <->
        session_entry r sid = Some (l, e) /\ edge e <> id)).
Proof.
  intros Hwf. unfold RemoveEdge. destruct (edges r !! id) as [cur|] eqn:E; [|by split; [|intros [=]]].
  destruct (Z.eqb_spec cur g) as [->|Hne]; cbn [negb]; [|split; [done|congruence]].
  split; [done|]. intros _. split; [|split].
  - unfold EdgeRegistered. cbn. by rewrite lookup_delete_eq.
  - intros rf. by apply elem_of_edge_refs.
  - intros sid l e. rewrite !session_entry_Some. cbn. rewrite map_lookup_filter_Some. cbn. unfold on_edge. split.
    + intros [[Hs Hon] He]. rewrite He in Hon. by apply bool_decide_eq_false in Hon.
    + intros [[Hs He] Hed]. rewrite He. split; [|done]. split; [done|]. by apply bool_decide_eq_false_2.
Qed.

Definition sample_registry : Registry :=
  let r := (RegisterEdge NewRegistry LocalEdgeID 1).1 in
  let r := (RegisterEdge r (str "east"%string) 5).1 in
  let r := (Bind r (mkRef 7 1) LocalEdgeID).1 in
  (Bind r (mkRef 8 2) (str "east"%string)).1.

Lemma sample_registry_wf : registry_wf sample_registry.
Proof. apply Bind_wf, Bind_wf, RegisterEdge_wf, RegisterEdge_wf, NewRegistry_wf. Qed.

Lemma RemoveEdge_exact_witness :
  let r := sample_registry in
  let id := str "east"%string in
  let '(r', removed) := RemoveEdge r id 5 in
  ((edges r !! id <> Some 5 -> r' = r /\ removed = []) /\
   (edges r !! id = Some 5 ->
     EdgeRegistered r' id = false /\
     (forall rf, rf ∈ removed <->
        exists l e, session_entry r (SessionID rf) = Some (l, e) /\ ref e = rf /\ edge e = id) /\
     (forall sid l e, session_entry r' sid = Some (l, e) <->
        session_entry r sid = Some (l, e) /\ edge e <> id))) /\
  edges r !! id = Some 5 /\ removed = [mkRef 8 2].
Proof.
  pose proof (RemoveEdge_exact sample_registry (str "east"%string) 5 sample_registry_wf) as H.
  cbn zeta. destruct (RemoveEdge sample_registry (str "east"%string) 5) as [r' removed] eqn:E.
  split; [exact H|]. vm_compute in E. split; [vm_compute; reflexivity|]. congruence.
Defined.
