(* ===== verification/RegistryConc.v ===== *)
(** * Session lifecycles under concurrency (internal/cluster/registry.go)

    Any number of goroutines run [WithSession], [CommitActiveAndAnnounce],
    [BeginCloseAndNotify], [Unbind] and [CloseAndUnbind] against one registry,
    while edges come and go and sessions are bound. A step is one section
    guarded by [r.mu], one acquisition or release of an entry's [transition]
    mutex, or one callback; the callbacks are recorded in a log. The theorems
    are about every interleaving. *)

From Stdlib Require Import ZArith Lia.
From stdpp Require Import base numbers list gmap countable fin_maps.
From S2P Require Import Prelude Fields Registry.
Open Scope Z_scope.

(** ** Goroutines *)

Inductive op :=
  | OpWithSession
  | OpCommit (announce : bool)
  | OpBeginClose (notify : bool)
  | OpUnbind
  | OpCloseAndUnbind.

(** Where a goroutine is. From [Inside] to [Unlocking] it holds the entry's
    [transition] mutex. *)
Inductive pc :=
  | Start (o : op) (rf : SessionRef)
  | Waiting (o : op) (rf : SessionRef) (l : loc)
  | Inside (o : op) (rf : SessionRef) (l : loc)
  | Calling (l : loc)
  | Announcing (l : loc)
  | Marking (l : loc)
  | Notifying (l : loc) (s : SessionSnapshot)
  | Cleaning (rf : SessionRef) (l : loc) (s : SessionSnapshot)
  | Unbinding (rf : SessionRef) (l : loc)
  | Unlocking (l : loc)
  | Finished.

(** The callbacks, with the entry they are about: the function of
    [WithSession], [announce], [notify] and [cleanup]. *)
Inductive event :=
  | Called (l : loc)
  | Announced (l : loc)
  | Notified (l : loc) (s : SessionSnapshot)
  | Cleaned (l : loc) (s : SessionSnapshot).

Record System := mkSystem {
  reg : Registry;
  locks : gmap loc nat;
  threads : gmap nat pc;
  log : list event;
  bound : list SessionRef }.
#[export] Instance System_eta : Eta System := fun s =>
  mkSystem (reg s) (locks s) (threads s) (log s) (bound s).

Definition System_init : System := mkSystem NewRegistry ∅ ∅ [] [].

Definition goto (t : nat) (p : pc) (s : System) : System :=
  s <| threads := <[t := p]> (threads s) |>.

Definition emit (ev : event) (s : System) : System := s <| log := ev :: log s |>.

(** One step of goroutine [t] at [p]; [None] when it is blocked or done. *)
Definition thread_step (t : nat) (p : pc) (s : System) : option System :=
  match p with
  | Start o rf =>
      match transition (reg s) rf with
      | Ok l => Some (goto t (Waiting o rf l) s)
      | Err _ => Some (goto t Finished s)
      end
  | Waiting o rf l =>
      match locks s !! l with
      | None => Some (goto t (Inside o rf l) (s <| locks := <[l := t]> (locks s) |>))
      | Some _ => None
      end
  | Inside OpWithSession rf l =>
      match recheck (reg s) rf l with
      | Ok sn => match with_session_guard sn with
                 | None => Some (goto t (Calling l) s)
                 | Some _ => Some (goto t (Unlocking l) s)
                 end
      | Err _ => Some (goto t (Unlocking l) s)
      end
  | Inside (OpCommit announce) rf l =>
      match commitActive (reg s) rf with
      | (r, None) => Some (goto t (if announce then Announcing l else Unlocking l) (s <| reg := r |>))
      | (r, Some _) => Some (goto t (Unlocking l) (s <| reg := r |>))
      end
  | Inside (OpBeginClose notify) rf l =>
      match beginClose (reg s) rf with
      | (r, Ok sn) => Some (goto t (if notify then Notifying l sn else Unlocking l) (s <| reg := r |>))
      | (r, Err _) => Some (goto t (Unlocking l) (s <| reg := r |>))
      end
  | Inside OpUnbind rf l => Some (goto t (Unlocking l) (s <| reg := (unbind (reg s) rf).1 |>))
  | Inside OpCloseAndUnbind rf l =>
      match close_section (reg s) rf l with
      | (r, Ok sn) => Some (goto t (Cleaning rf l sn) (s <| reg := r |>))
      | (r, Err _) => Some (goto t (Unlocking l) (s <| reg := r |>))
      end
  | Calling l => Some (goto t (Unlocking l) (emit (Called l) s))
  | Announcing l => Some (goto t (Marking l) (emit (Announced l) s))
  | Marking l => Some (goto t (Unlocking l) (s <| reg := set_announced (reg s) l |>))
  | Notifying l sn => Some (goto t (Unlocking l) (emit (Notified l sn) s))
  | Cleaning rf l sn => Some (goto t (Unbinding rf l) (emit (Cleaned l sn) s))
  | Unbinding rf l => Some (goto t (Unlocking l) (s <| reg := (unbind (reg s) rf).1 |>))
  | Unlocking l => Some (goto t Finished (s <| locks := delete l (locks s) |>))
  | Finished => None
  end.

(** The interleavings. A reference is bound at most once: the user manager
    never issues a generation twice. *)
Inductive step : System -> System -> Prop :=
  | step_spawn s t o rf : threads s !! t = None -> step s (goto t (Start o rf) s)
  | step_thread s t p s' : threads s !! t = Some p -> thread_step t p s = Some s' -> step s s'
  | step_register s id g : step s (s <| reg := (RegisterEdge (reg s) id g).1 |>)
  | step_remove s id g : step s (s <| reg := (RemoveEdge (reg s) id g).1 |>)
  | step_bind s rf ed : rf ∉ bound s ->
      step s (s <| reg := (Bind (reg s) rf ed).1 |> <| bound := rf :: bound s |>).

Definition reachable (s : System) : Prop := rtc step System_init s.

(** ** What the log must look like *)

Definition event_loc (ev : event) : loc :=
  match ev with Called l | Announced l | Notified l _ | Cleaned l _ => l end.

(** A leave broadcast: a snapshot that says the join was announced. *)
Definition is_leave (l : loc) (ev : event) : bool :=
  match ev with
  | Notified l' s | Cleaned l' s => bool_decide (l' = l) && s_Announced s
  | _ => false
  end.
Definition is_announce (l : loc) (ev : event) : bool :=
  match ev with Announced l' => bool_decide (l' = l) | _ => false end.
Definition is_closing (l : loc) (ev : event) : bool :=
  match ev with Notified l' _ | Cleaned l' _ => bool_decide (l' = l) | _ => false end.
Definition is_cleanup (l : loc) (ev : event) : bool :=
  match ev with Cleaned l' _ => bool_decide (l' = l) | _ => false end.

(** An event is in order after the events before it: nothing follows a
    cleanup; no work and no join once closing was notified; one join; one
    leave, after the join. *)
Definition event_ok (ev : event) (before : list event) : Prop :=
  existsb (is_cleanup (event_loc ev)) before = false /\
  match ev with
  | Called l => existsb (is_closing l) before = false
  | Announced l => existsb (is_closing l) before = false /\ existsb (is_announce l) before = false
  | Notified l s | Cleaned l s =>
      s_Announced s = true ->
      existsb (is_announce l) before = true /\ existsb (is_leave l) before = false
  end.

Fixpoint log_ok (evs : list event) : Prop :=
  match evs with [] => True | ev :: before => event_ok ev before /\ log_ok before end.

(** ** The invariant *)

Definition rank (st : SessionState) : nat :=
  match st with StateSyncing => 0 | StateActive => 1 | StateClosing => 2 | StateClosed => 3 end.

(** The entry at [l] has reached phase [n]; it carries reference [rf]. *)
Definition begun (r : Registry) (l : loc) (n : nat) : Prop :=
  exists e, heap r !! l = Some e /\ (n <= rank (state e))%nat.
Definition entry_ref (r : Registry) (l : loc) (rf : SessionRef) : Prop :=
  exists e, heap r !! l = Some e /\ ref e = rf.

Definition holds (p : pc) : option loc :=
  match p with
  | Inside _ _ l | Calling l | Announcing l | Marking l | Notifying l _ | Cleaning _ l _
  | Unbinding _ l | Unlocking l => Some l
  | Start _ _ | Waiting _ _ _ | Finished => None
  end.

Definition leave_pending (l : loc) (sn : SessionSnapshot) (evs : list event) : Prop :=
  s_Announced sn = true -> existsb (is_announce l) evs = true /\ existsb (is_leave l) evs = false.

(** What a goroutine may rely on at its program point. *)
Definition pc_inv (r : Registry) (evs : list event) (p : pc) : Prop :=
  match p with
  | Waiting _ rf l | Inside _ rf l => entry_ref r l rf
  | Calling l => begun r l 0 /\ existsb (is_closing l) evs = false
  | Announcing l => begun r l 1 /\ existsb (is_closing l) evs = false /\ existsb (is_announce l) evs = false
  | Marking l => existsb (is_announce l) evs = true
  | Notifying l sn => begun r l 2 /\ existsb (is_cleanup l) evs = false /\ leave_pending l sn evs
  | Cleaning rf l sn =>
      entry_ref r l rf /\ begun r l 2 /\ existsb (is_cleanup l) evs = false /\ leave_pending l sn evs
  | Unbinding rf l => entry_ref r l rf /\ begun r l 2
  | Start _ _ | Unlocking _ | Finished => True
  end.

(** What the log says about an entry and its state. *)
Definition loc_inv (r : Registry) (ths : gmap nat pc) (evs : list event) (l : loc) (e : entry) : Prop :=
  (existsb (is_closing l) evs = true -> (2 <= rank (state e))%nat) /\
  (existsb (is_announce l) evs = true -> (1 <= rank (state e))%nat) /\
  (announced e = true -> existsb (is_announce l) evs = true) /\
  (existsb (is_cleanup l) evs = true ->
     (forall sid, sessions r !! sid <> Some l) \/ exists t rf, ths !! t = Some (Unbinding rf l)).

Record inv (s : System) : Prop := {
  i_wf : registry_wf (reg s);
  i_locks : forall l t, locks s !! l = Some t <->
    exists p, threads s !! t = Some p /\ holds p = Some l;
  i_refs : forall l1 l2 rf, entry_ref (reg s) l1 rf -> entry_ref (reg s) l2 rf -> l1 = l2;
  i_bound : forall l rf, entry_ref (reg s) l rf -> rf ∈ bound s;
  i_pcs : forall t p, threads s !! t = Some p -> pc_inv (reg s) (log s) p;
  i_locs : forall l e, heap (reg s) !! l = Some e -> loc_inv (reg s) (threads s) (log s) l e;
  i_alloc : forall ev, ev ∈ log s -> is_Some (heap (reg s) !! event_loc ev);
  i_log : log_ok (log s) }.

(** ** Steps that touch one entry *)

(** From [r] to [r'] only the entry at [l] is written, forward in its life, and
    sessions are at most removed. *)
Record touches (l : loc) (r r' : Registry) : Prop := {
  t_next : next r' = next r;
  t_edges : edges r' = edges r;
  t_sessions : forall sid l', sessions r' !! sid = Some l' -> sessions r !! sid = Some l';
  t_other : forall l', l' <> l -> heap r' !! l' = heap r !! l';
  t_none : heap r !! l = None -> heap r' !! l = None;
  t_this : forall e, heap r !! l = Some e -> exists e', heap r' !! l = Some e' /\ ref e' = ref e /\
    (rank (state e) <= rank (state e'))%nat }.

Lemma touches_refl l r : touches l r r.
Proof. split; try done. intros e He. by exists e. Qed.

Lemma touches_write l r e e' : heap r !! l = Some e -> ref e' = ref e ->
  (rank (state e) <= rank (state e'))%nat -> touches l r (write_entry l e' r).
Proof.
  intros He Hr Hk. split; try done; cbn.
  - intros l' Hl. by rewrite lookup_insert_ne.
  - congruence.
  - intros e0 He0. exists e'. rewrite lookup_insert_eq. split; [done|]. assert (e0 = e) as -> by congruence. done.
Qed.

Lemma touches_entry_ref l r r' l' rf : touches l r r' -> entry_ref r' l' rf <-> entry_ref r l' rf.
Proof.
  intros T. destruct (decide (l' = l)) as [->|Hne].
  - destruct (heap r !! l) as [e|] eqn:E.
    + destruct (t_this l r r' T e E) as (e' & E' & Hr & _).
      split; intros (e0 & H0 & H1); [exists e|exists e']; split; congruence.
    + pose proof (t_none l r r' T E). split; intros (e0 & H0 & H1); congruence.
  - unfold entry_ref. by rewrite (t_other l r r' T l' Hne).
Qed.

Lemma touches_begun l r r' l' n : touches l r r' -> begun r l' n -> begun r' l' n.
Proof.
  intros T (e & He & Hn). destruct (decide (l' = l)) as [->|Hne].
  - destruct (t_this l r r' T e He) as (e' & E' & _ & Hk). exists e'. split; [done|lia].
  - exists e. by rewrite (t_other l r r' T l' Hne).
Qed.

Lemma existsb_other (f : loc -> event -> bool) l ev evs :
  (forall ev, f l ev = true -> event_loc ev = l) -> event_loc ev <> l ->
  existsb (f l) (ev :: evs) = existsb (f l) evs.
Proof. intros Hf Hne. cbn. destruct (f l ev) eqn:E; [|done]. by apply Hf in E. Qed.

Lemma is_closing_loc l ev : is_closing l ev = true -> event_loc ev = l.
Proof. destruct ev; cbn; intros H; try done; by apply bool_decide_eq_true in H. Qed.
Lemma is_cleanup_loc l ev : is_cleanup l ev = true -> event_loc ev = l.
Proof. destruct ev; cbn; intros H; try done; by apply bool_decide_eq_true in H. Qed.
Lemma is_announce_loc l ev : is_announce l ev = true -> event_loc ev = l.
Proof. destruct ev; cbn; intros H; try done; by apply bool_decide_eq_true in H. Qed.
Lemma is_leave_loc l ev : is_leave l ev = true -> event_loc ev = l.
Proof. destruct ev; cbn; intros H; try done; apply andb_true_iff in H as [H _]; by apply bool_decide_eq_true in H. Qed.

(** The log as other entries see it. *)
Definition log_extends (l : loc) (evs evs' : list event) : Prop :=
  evs' = evs \/ exists ev, evs' = ev :: evs /\ event_loc ev = l /\ event_ok ev evs.

Lemma log_extends_other l evs evs' l' : log_extends l evs evs' -> l' <> l ->
  existsb (is_closing l') evs' = existsb (is_closing l') evs /\
  existsb (is_cleanup l') evs' = existsb (is_cleanup l') evs /\
  existsb (is_announce l') evs' = existsb (is_announce l') evs /\
  existsb (is_leave l') evs' = existsb (is_leave l') evs.
Proof.
  intros [->|(ev & -> & Hl & _)] Hne; [done|].
  assert (event_loc ev <> l') by congruence.
  repeat split; apply existsb_other; auto using is_closing_loc, is_cleanup_loc, is_announce_loc, is_leave_loc.
Qed.

Lemma pc_inv_frame l r r' evs evs' p :
  touches l r r' -> log_extends l evs evs' -> holds p <> Some l -> pc_inv r evs p -> pc_inv r' evs' p.
Proof.
  intros T L Hh. assert (forall l', holds p = Some l' -> l' <> l) as Hne by (intros l' H ->; done).
  destruct p as [o rf|o rf l'|o rf l'|l'|l'|l'|l' sn|rf l' sn|rf l'|l'|]; cbn [pc_inv holds] in *; try done;
    try (by rewrite (touches_entry_ref l r r' l' rf T));
    destruct (log_extends_other l evs evs' l' L (Hne _ eq_refl)) as (Hc & Hu & Ha & Hv);
    unfold leave_pending; rewrite ?Hc, ?Hu, ?Ha, ?Hv, ?(touches_entry_ref l r r' l' _ T); try done.
  - intros [H1 H2]. split; [by eapply touches_begun|done].
  - intros (H1 & H2). split; [by eapply touches_begun|done].
  - intros (H1 & H2). split; [by eapply touches_begun|done].
  - intros (H0 & H1 & H2). split; [done|]. split; [by eapply touches_begun|done].
  - intros (H0 & H1). split; [done|]. by eapply touches_begun.
Qed.

(** A goroutine that holds the mutex of [l], keeps it, and touches only [l]. *)
Lemma inv_own s t p p' l r' evs :
  inv s -> threads s !! t = Some p -> holds p = Some l -> holds p' = Some l ->
  touches l (reg s) r' -> registry_wf r' -> log_extends l (log s) evs ->
  (evs <> log s -> is_Some (heap (reg s) !! l)) ->
  pc_inv r' evs p' ->
  (forall e, heap r' !! l = Some e -> loc_inv r' (<[t := p']> (threads s)) evs l e) ->
  inv (mkSystem r' (locks s) (<[t := p']> (threads s)) evs (bound s)).
Proof.
  intros I Ht Hp Hp' T Hwf L Hal Hpc Hloc. split; cbn [reg locks threads log bound]; try done.
  - intros l0 t0. rewrite (i_locks s I). destruct (decide (t0 = t)) as [->|Hne].
    + rewrite lookup_insert_eq. split; intros (q & Hq & Hh); [exists p'|exists p]; split; congruence.
    + by rewrite lookup_insert_ne.
  - intros l1 l2 rf. rewrite !(touches_entry_ref l (reg s) r' _ rf T). apply (i_refs s I).
  - intros l1 rf. rewrite (touches_entry_ref l (reg s) r' _ rf T). apply (i_bound s I).
  - intros t0 q. destruct (decide (t0 = t)) as [->|Hne]; [rewrite lookup_insert_eq; by intros [= <-]|].
    rewrite lookup_insert_ne by done. intros Hq. apply (pc_inv_frame l (reg s) r' (log s)); try done.
    + intros Hh. apply Hne. assert (locks s !! l = Some t0) by (apply (i_locks s I); eauto).
      assert (locks s !! l = Some t) by (apply (i_locks s I); eauto). congruence.
    + by apply (i_pcs s I t0).
  - intros l0 e He. destruct (decide (l0 = l)) as [->|Hne]; [by apply Hloc|].
    rewrite (t_other l _ _ T l0 Hne) in He. destruct (i_locs s I l0 e He) as (A & B & C & D).
    destruct (log_extends_other l _ _ l0 L Hne) as (Hc & Hu & Ha & _).
    unfold loc_inv. rewrite Hc, Hu, Ha. split; [done|]. split; [done|]. split; [done|]. intros Hcl.
    destruct (D Hcl) as [Hno|(t0 & rf & Ht0)].
    + left. intros sid Hs. by apply (Hno sid), (t_sessions l _ _ T).
    + right. exists t0, rf. rewrite lookup_insert_ne; [done|]. intros ->. rewrite Ht in Ht0. injection Ht0 as ->. cbn in Hp. congruence.
  - intros ev Hev. assert (ev ∈ log s \/ (evs <> log s /\ event_loc ev = l)) as [Hin|[Hne Hl]].
    { destruct L as [->|(ev0 & -> & Hl & _)]; [by left|].
      apply elem_of_cons in Hev as [->|?]; [right|by left]. split; [|done].
      intros Heq. apply (f_equal length) in Heq. cbn in Heq. lia. }
    + destruct (i_alloc s I ev Hin) as [e He]. destruct (decide (event_loc ev = l)) as [Hl|Hl].
      * rewrite Hl in *. destruct (t_this l _ _ T e He) as (e' & -> & _). done.
      * by rewrite (t_other l _ _ T).
    + destruct (Hal Hne) as [e He]. destruct (t_this l _ _ T e He) as (e' & E' & _). rewrite Hl. by exists e'.
  - destruct L as [->|(ev & -> & _ & Hok)]; [apply (i_log s I)|]. split; [done|apply (i_log s I)].
Qed.

(** ** The sections of the code *)

(** The entry a section finds is the one whose mutex is held. *)
Lemma section_entry s l rf l' e : inv s -> entry_ref (reg s) l rf ->
  session_entry (reg s) (SessionID rf) = Some (l', e) -> ref e = rf -> l' = l /\ heap (reg s) !! l = Some e.
Proof.
  intros I Hl [Hs He]%session_entry_Some Hr.
  assert (l' = l) as -> by (apply (i_refs s I l' l rf); [by exists e|done]). done.
Qed.

Lemma write_wf l r e e' : registry_wf r -> heap r !! l = Some e -> ref e' = ref e -> edge e' = edge e ->
  state e' <> StateClosed -> registry_wf (write_entry l e' r).
Proof.
  intros [W1 W2] He Hr Hd Hs. split; cbn.
  - intros sid l' Hl'. destruct (W1 sid l' Hl') as (e0 & H0 & H1 & H2 & H3).
    destruct (decide (l' = l)) as [->|Hne].
    + exists e'. rewrite lookup_insert_eq. assert (e0 = e) as -> by congruence. by rewrite Hr, Hd.
    + exists e0. by rewrite lookup_insert_ne.
  - intros l' [x Hx]. apply W2. destruct (decide (l' = l)) as [->|Hne]; [by exists e|].
    rewrite lookup_insert_ne in Hx by done. by exists x.
Qed.

Lemma set_announced_touches s l e : inv s -> heap (reg s) !! l = Some e ->
  touches l (reg s) (set_announced (reg s) l) /\ registry_wf (set_announced (reg s) l) /\
  heap (set_announced (reg s) l) !! l = Some (e <| announced := true |>) /\
  sessions (set_announced (reg s) l) = sessions (reg s).
Proof.
  intros I He. unfold set_announced. rewrite He.
  assert (registry_wf (write_entry l (e <| announced := true |>) (reg s))) as Hwf.
  { destruct (i_wf s I) as [W1 W2]. split; cbn.
    - intros sid l' Hl'. destruct (W1 sid l' Hl') as (e0 & H0 & H1 & H2 & H3).
      destruct (decide (l' = l)) as [->|Hne].
      + eexists. rewrite lookup_insert_eq. split; [done|]. assert (e0 = e) as -> by congruence. done.
      + exists e0. by rewrite lookup_insert_ne.
    - intros l' [x Hx]. apply W2. destruct (decide (l' = l)) as [->|Hne]; [by exists e|].
      rewrite lookup_insert_ne in Hx by done. by exists x. }
  split; [by apply (touches_write l _ e)|]. split; [done|]. cbn. by rewrite lookup_insert_eq.
Qed.

Lemma commitActive_spec s l rf r' : inv s -> entry_ref (reg s) l rf ->
  commitActive (reg s) rf = (r', None) ->
  exists e, heap (reg s) !! l = Some e /\ state e = StateSyncing /\
    r' = write_entry l (e <| state := StateActive |>) (reg s).
Proof.
  intros I Hl. unfold commitActive.
  destruct (session_entry (reg s) (SessionID rf)) as [[l' e]|] eqn:E; [|done].
  destruct (bool_decide_reflect (ref e = rf)) as [Hr|]; [|done]. cbn [negb].
  destruct (section_entry s l rf l' e I Hl E Hr) as [-> He].
  destruct (state e) eqn:Est; try done. intros [= <-]. by exists e.
Qed.

Lemma commitActive_err s rf r' er : commitActive (reg s) rf = (r', Some er) -> r' = reg s.
Proof. unfold commitActive. repeat case_match; congruence. Qed.

Lemma beginClose_err s rf r' er : beginClose (reg s) rf = (r', Err er) -> r' = reg s.
Proof. unfold beginClose. repeat case_match; congruence. Qed.

Lemma beginClose_spec s l rf r' sn : inv s -> entry_ref (reg s) l rf ->
  beginClose (reg s) rf = (r', Ok sn) ->
  exists e e', heap (reg s) !! l = Some e /\ r' = write_entry l e' (reg s) /\ ref e' = ref e /\ edge e' = edge e /\
    announced e' = announced e /\ state e' = StateClosing /\ sessions (reg s) !! SessionID rf = Some l /\
    (rank (state e) <= 2)%nat /\
    (s_Announced sn = true -> announced e = true /\ (rank (state e) < 2)%nat).
Proof.
  intros I Hl. unfold beginClose.
  destruct (session_entry (reg s) (SessionID rf)) as [[l' e]|] eqn:E; [|done].
  destruct (bool_decide_reflect (ref e = rf)) as [Hr|]; [|done]. cbn [negb].
  destruct (section_entry s l rf l' e I Hl E Hr) as [-> He].
  apply session_entry_Some in E as [Hs _].
  assert (state e <> StateClosed) as Hcl.
  { destruct (wf_sessions _ (i_wf s I) _ _ Hs) as (e0 & H0 & _ & _ & H3). congruence. }
  destruct (state e) eqn:Est; try done; intros [= <- <-]; exists e; cbn [s_Announced snapshot set_field announced].
  - eexists. split; [done|]. split; [reflexivity|]. cbn.
    split_and!; try done; rewrite Est; cbn; try lia. intros Ha. split; [done|lia].
  - eexists. split; [done|]. split; [reflexivity|]. cbn.
    split_and!; try done; rewrite Est; cbn; try lia. intros Ha. split; [done|lia].
  - exists e. split; [done|]. split.
    { unfold write_entry. destruct (reg s); cbn in *. f_equal. symmetry. by apply insert_id. }
    split_and!; try done; rewrite Est; cbn; lia.
Qed.

Lemma close_section_err s rf l r' er : close_section (reg s) rf l = (r', Err er) -> r' = reg s.
Proof. unfold close_section. repeat case_match; congruence. Qed.

Lemma close_section_spec s l rf r' sn : inv s -> close_section (reg s) rf l = (r', Ok sn) ->
  exists e, heap (reg s) !! l = Some e /\ sessions (reg s) !! SessionID rf = Some l /\
    r' = write_entry l (e <| state := StateClosing |>) (reg s) /\ (rank (state e) <= 2)%nat /\
    (s_Announced sn = true -> announced e = true /\ (rank (state e) < 2)%nat).
Proof.
  intros I. unfold close_section.
  destruct (session_entry (reg s) (SessionID rf)) as [[l' e]|] eqn:E; [|done].
  destruct (bool_decide_reflect (l' = l)) as [->|]; [|done]. cbn [negb]. intros [= <- <-].
  apply session_entry_Some in E as [Hs He]. exists e. split; [done|]. split; [done|]. split; [done|].
  assert (state e <> StateClosed) as Hcl.
  { destruct (wf_sessions _ (i_wf s I) _ _ Hs) as (e0 & H0 & _ & _ & H3). congruence. }
  split; [destruct (state e); cbn; try done; lia|].
  case_bool_decide as Hst; [done|]. cbn. intros Ha. split; [done|]. destruct (state e); cbn; try done; lia.
Qed.

Lemma unbind_spec s l rf : inv s -> entry_ref (reg s) l rf ->
  let r' := (unbind (reg s) rf).1 in
  touches l (reg s) r' /\ registry_wf r' /\ (forall sid, sessions r' !! sid <> Some l) /\
  exists e e', heap (reg s) !! l = Some e /\ heap r' !! l = Some e' /\ announced e' = announced e /\
    (rank (state e) <= rank (state e'))%nat.
Proof.
  intros I (e & He & Hr). cbn zeta. pose proof (i_wf s I) as [W1 W2].
  assert (forall sid, sessions (reg s) !! sid = Some l -> sid = SessionID rf) as Hsid.
  { intros sid Hs. destruct (W1 _ _ Hs) as (e0 & H0 & H1 & _). congruence. }
  unfold unbind. destruct (session_entry (reg s) (SessionID rf)) as [[l' e0]|] eqn:E.
  2: { apply session_entry_None in E; [|done]. split; [apply touches_refl|]. split; [done|].
       split; [cbn; intros sid Hs; rewrite (Hsid sid Hs) in Hs; congruence|]. exists e, e. done. }
  destruct (bool_decide_reflect (ref e0 = rf)) as [Hr0|Hr0]; cbn [negb fst].
  - destruct (section_entry s l rf l' e0 I (ex_intro _ e (conj He Hr)) E Hr0) as [-> He0].
    assert (e0 = e) as -> by congruence. split; [|split; [|split]].
    + split; cbn; try done.
      * intros sid l' Hl'. by apply lookup_delete_Some in Hl' as [_ ?].
      * intros l' Hne. by rewrite lookup_insert_ne.
      * congruence.
      * intros e1 He1. eexists. rewrite lookup_insert_eq. split; [done|].
        assert (e1 = e) as -> by congruence. split; [done|]. cbn. destruct (state e); cbn; lia.
    + split; cbn.
      * intros sid l' [Hne Hl']%lookup_delete_Some. destruct (W1 _ _ Hl') as (e1 & H1 & H2 & H3).
        exists e1. rewrite lookup_insert_ne; [done|]. intros <-. assert (e1 = e) as -> by congruence. congruence.
      * intros l' [x Hx]. apply W2. destruct (decide (l' = l)) as [->|Hne]; [by exists e|].
        rewrite lookup_insert_ne in Hx by done. by exists x.
    + cbn. intros sid [Hne Hs]%lookup_delete_Some. apply Hne. symmetry. by apply Hsid.
    + eexists e, _. cbn. rewrite lookup_insert_eq. split; [done|]. split; [done|]. cbn.
      split; [done|]. destruct (state e); cbn; lia.
  - split; [apply touches_refl|]. split; [done|]. split.
    + intros sid Hs. pose proof (Hsid sid Hs). subst sid. apply session_entry_Some in E as [Hs' He']. congruence.
    + exists e, e. done.
Qed.

(** No other goroutine is unbinding an entry whose mutex is held. *)
Lemma no_unbinding s t p l : inv s -> threads s !! t = Some p -> holds p = Some l ->
  (forall rf, p <> Unbinding rf l) -> forall t' rf, threads s !! t' <> Some (Unbinding rf l).
Proof.
  intros I Ht Hh Hp t' rf Ht'.
  assert (locks s !! l = Some t) by (apply (i_locks s I); eauto).
  assert (locks s !! l = Some t') by (apply (i_locks s I); eauto).
  assert (t' = t) as -> by congruence. rewrite Ht in Ht'. by apply (Hp rf); congruence.
Qed.

(** An entry still in the map, with its mutex held elsewhere than in the final
    unbinding, has not been cleaned up. *)
Lemma not_cleaned s t p l e sid : inv s -> threads s !! t = Some p -> holds p = Some l ->
  (forall rf, p <> Unbinding rf l) -> heap (reg s) !! l = Some e -> sessions (reg s) !! sid = Some l ->
  existsb (is_cleanup l) (log s) = false.
Proof.
  intros I Ht Hh Hp He Hs. destruct (existsb _ _) eqn:E; [|done]. exfalso.
  destruct (i_locs s I l e He) as (_ & _ & _ & D). destruct (D E) as [Hno|(t' & rf & Ht')].
  - by apply (Hno sid).
  - by apply (no_unbinding s t p l I Ht Hh Hp t' rf).
Qed.

(** [loc_inv] when the entry moves forward and the log does not change. *)
Lemma loc_inv_forward r ths evs l e r' ths' e' :
  loc_inv r ths evs l e -> (rank (state e) <= rank (state e'))%nat -> announced e' = announced e ->
  (existsb (is_cleanup l) evs = true ->
     (forall sid, sessions r' !! sid <> Some l) \/ exists t rf, ths' !! t = Some (Unbinding rf l)) ->
  loc_inv r' ths' evs l e'.
Proof.
  intros (A & B & C & _) Hk Ha HD. unfold loc_inv. rewrite Ha.
  split; [intros H; specialize (A H); lia|]. split; [intros H; specialize (B H); lia|]. done.
Qed.

(** The same when the goroutine was not unbinding: the clause on cleanup
    survives its move. *)
Lemma cleanup_clause_keep s t p p' l e r' : inv s -> threads s !! t = Some p -> holds p = Some l ->
  (forall rf, p <> Unbinding rf l) -> heap (reg s) !! l = Some e ->
  (forall sid, sessions r' !! sid = Some l -> sessions (reg s) !! sid = Some l) ->
  existsb (is_cleanup l) (log s) = true ->
  (forall sid, sessions r' !! sid <> Some l) \/ exists t' rf, <[t := p']> (threads s) !! t' = Some (Unbinding rf l).
Proof.
  intros I Ht Hh Hp He Hsub Hc. left. intros sid Hs.
  destruct (i_locs s I l e He) as (_ & _ & _ & D). destruct (D Hc) as [Hno|(t' & rf & Ht')].
  - by apply (Hno sid), Hsub.
  - by apply (no_unbinding s t p l I Ht Hh Hp t' rf).
Qed.

(** Leaving the critical part: the registry and the log are as before. *)
Lemma inv_to_unlock s t p l : inv s -> threads s !! t = Some p -> holds p = Some l ->
  (forall rf, p <> Unbinding rf l) -> inv (goto t (Unlocking l) s).
Proof.
  intros I Ht Hh Hp. apply (inv_own s t p (Unlocking l) l); try done.
  - apply touches_refl.
  - apply (i_wf s I).
  - by left.
  - intros e He. eapply loc_inv_forward; [by apply (i_locs s I)|lia|done|].
    by apply (cleanup_clause_keep s t p (Unlocking l) l e).
Qed.

(** The section wrote the entry forward and the goroutine goes on to [p']. *)
Lemma inv_write s t p p' l e e' : inv s -> threads s !! t = Some p -> holds p = Some l ->
  holds p' = Some l -> (forall rf, p <> Unbinding rf l) -> heap (reg s) !! l = Some e ->
  ref e' = ref e -> edge e' = edge e -> announced e' = announced e -> (rank (state e) <= rank (state e'))%nat ->
  state e' <> StateClosed -> pc_inv (write_entry l e' (reg s)) (log s) p' ->
  inv (goto t p' (s <| reg := write_entry l e' (reg s) |>)).
Proof.
  intros I Ht Hh Hh' Hp He Hr Hd Ha Hk Hs Hpc.
  apply (inv_own s t p p' l (write_entry l e' (reg s)) (log s)); try done.
  - by apply (touches_write l _ e).
  - by apply (write_wf l _ e); [apply (i_wf s I)|..].
  - by left.
  - cbn. intros e0. rewrite lookup_insert_eq. intros [= <-].
    eapply loc_inv_forward; [by apply (i_locs s I)|done|done|].
    by apply (cleanup_clause_keep s t p p' l e).
Qed.

(** ** Every step keeps the invariant *)

(** A snapshot taken before closing began announces the only leave. *)
Lemma leave_pending_fresh s l e sn : inv s -> heap (reg s) !! l = Some e ->
  (s_Announced sn = true -> announced e = true /\ (rank (state e) < 2)%nat) -> leave_pending l sn (log s).
Proof.
  intros I He Hsn Ha. destruct (Hsn Ha) as [Hann Hk]. destruct (i_locs s I l e He) as (A & _ & C & _).
  split; [by apply C|]. destruct (existsb (is_leave l) (log s)) eqn:E; [|done].
  apply existsb_exists in E as (ev & Hin & Hev).
  assert (existsb (is_closing l) (log s) = true) as Hc; [|specialize (A Hc); lia].
  apply existsb_exists. exists ev. split; [done|].
  destruct ev; cbn in *; try done; by apply andb_true_iff in Hev as [? _].
Qed.

(** Steps that move a goroutine without a mutex. *)
Lemma inv_free s t p' : inv s ->
  (forall p, threads s !! t = Some p -> holds p = None) -> holds p' = None ->
  pc_inv (reg s) (log s) p' -> inv (goto t p' s).
Proof.
  intros I Hold Hh Hpc. split; cbn; try apply I.
  - intros l t0. rewrite (i_locks s I). destruct (decide (t0 = t)) as [->|Hne]; [|by rewrite lookup_insert_ne].
    rewrite lookup_insert_eq. split; intros (q & Hq & Hl); [|congruence]. specialize (Hold q Hq). congruence.
  - intros t0 q. destruct (decide (t0 = t)) as [->|Hne]; [rewrite lookup_insert_eq; by intros [= <-]|].
    rewrite lookup_insert_ne by done. apply (i_pcs s I).
  - intros l e He. destruct (i_locs s I l e He) as (A & B & C & D). repeat (split; [done|]). intros Hc.
    destruct (D Hc) as [?|(t0 & rf & Ht0)]; [by left|right]. exists t0, rf.
    rewrite lookup_insert_ne; [done|]. intros ->. specialize (Hold _ Ht0). done.
Qed.

Lemma inv_lock s t o rf l : inv s -> threads s !! t = Some (Waiting o rf l) -> locks s !! l = None ->
  inv (goto t (Inside o rf l) (s <| locks := <[l := t]> (locks s) |>)).
Proof.
  intros I Ht Hl. split; cbn; try apply I.
  - intros l0 t0. destruct (decide (l0 = l)) as [->|Hnl].
    + rewrite lookup_insert_eq. split.
      * intros [= <-]. exists (Inside o rf l). by rewrite lookup_insert_eq.
      * intros (q & Hq & Hh). destruct (decide (t0 = t)) as [->|Hne]; [done|].
        rewrite lookup_insert_ne in Hq by done.
        assert (locks s !! l = Some t0) by (apply (i_locks s I); eauto). congruence.
    + rewrite lookup_insert_ne by done. rewrite (i_locks s I).
      destruct (decide (t0 = t)) as [->|Hne]; [|by rewrite lookup_insert_ne].
      rewrite lookup_insert_eq. split; intros (q & Hq & Hh).
      * rewrite Ht in Hq. injection Hq as <-. done.
      * injection Hq as <-. cbn in Hh. congruence.
  - intros t0 q. destruct (decide (t0 = t)) as [->|Hne].
    + rewrite lookup_insert_eq. intros [= <-]. apply (i_pcs s I t _ Ht).
    + rewrite lookup_insert_ne by done. apply (i_pcs s I).
  - intros l0 e He. destruct (i_locs s I l0 e He) as (A & B & C & D). repeat (split; [done|]). intros Hc.
    destruct (D Hc) as [?|(t0 & rf0 & Ht0)]; [by left|right]. exists t0, rf0.
    rewrite lookup_insert_ne; [done|]. intros ->. congruence.
Qed.

Lemma inv_unlock s t l : inv s -> threads s !! t = Some (Unlocking l) ->
  inv (goto t Finished (s <| locks := delete l (locks s) |>)).
Proof.
  intros I Ht. assert (locks s !! l = Some t) as Hl by (apply (i_locks s I); eauto).
  split; cbn; try apply I.
  - intros l0 t0. rewrite lookup_delete_Some, (i_locks s I).
    destruct (decide (t0 = t)) as [->|Hne].
    + rewrite lookup_insert_eq. split; [|intros (q & [= <-] & Hh); done].
      intros (Hnl & q & Hq & Hh). rewrite Ht in Hq. injection Hq as <-. cbn in Hh. congruence.
    + rewrite lookup_insert_ne by done. split; [by intros [_ ?]|]. intros (q & Hq & Hh). split; [|by eauto].
      intros ->. assert (locks s !! l0 = Some t0) by (apply (i_locks s I); eauto). congruence.
  - intros t0 q. destruct (decide (t0 = t)) as [->|Hne]; [rewrite lookup_insert_eq; by intros [= <-]|].
    rewrite lookup_insert_ne by done. apply (i_pcs s I).
  - intros l0 e He. destruct (i_locs s I l0 e He) as (A & B & C & D). repeat (split; [done|]). intros Hc.
    destruct (D Hc) as [?|(t0 & rf0 & Ht0)]; [by left|right]. exists t0, rf0.
    rewrite lookup_insert_ne; [done|]. intros ->. congruence.
Qed.

(** A callback: the log grows by an event in order. *)
Lemma inv_emit s t p p' l ev : inv s -> threads s !! t = Some p -> holds p = Some l -> holds p' = Some l ->
  event_loc ev = l -> event_ok ev (log s) -> begun (reg s) l 0 ->
  pc_inv (reg s) (ev :: log s) p' ->
  (forall e, heap (reg s) !! l = Some e -> loc_inv (reg s) (<[t := p']> (threads s)) (ev :: log s) l e) ->
  inv (goto t p' (emit ev s)).
Proof.
  intros I Ht Hh Hh' Hl Hok (e & He & _) Hpc Hloc. apply (inv_own s t p p' l (reg s)); try done.
  - apply touches_refl.
  - apply (i_wf s I).
  - right. by exists ev.
Qed.

Lemma inv_unbind s t p rf l : inv s -> threads s !! t = Some p -> holds p = Some l ->
  entry_ref (reg s) l rf -> inv (goto t (Unlocking l) (s <| reg := (unbind (reg s) rf).1 |>)).
Proof.
  intros I Ht Hh Hr. destruct (unbind_spec s l rf I Hr) as (T & Hwf & Hno & e & e' & He & He' & Ha & Hk).
  cbn zeta in *. apply (inv_own s t p (Unlocking l) l (unbind (reg s) rf).1 (log s)); try done.
  - by left.
  - intros e0 He0. assert (e0 = e') as -> by congruence.
    eapply loc_inv_forward; [by apply (i_locs s I)|done|done|]. by left.
Qed.

Lemma inside_inv s t o rf l s' : inv s -> threads s !! t = Some (Inside o rf l) ->
  thread_step t (Inside o rf l) s = Some s' -> inv s'.
Proof.
  intros I Ht Hstep. pose proof (i_pcs s I t _ Ht) as Hr. cbn [pc_inv] in Hr.
  assert (forall rf', Inside o rf l <> Unbinding rf' l) as Hnu by done.
  pose proof (inv_to_unlock s t _ l I Ht eq_refl Hnu) as Hout.
  assert (forall r', r' = reg s -> inv (goto t (Unlocking l) (s <| reg := r' |>))) as Hout'
    by (intros r' ->; exact Hout).
  destruct o as [|an|nt| |]; cbn [thread_step] in Hstep.
  - destruct (recheck (reg s) rf l) as [sn|] eqn:E; [|by injection Hstep as <-].
    destruct (with_session_guard sn) eqn:G; injection Hstep as <-; [done|].
    unfold recheck in E. destruct (session_entry _ _) as [[l' e]|] eqn:Es; [|done].
    case_bool_decide as Hl; [|done]. case_bool_decide as Hrf; [|done]. subst l'. injection E as <-.
    apply session_entry_Some in Es as [Hs He].
    apply (inv_own s t (Inside OpWithSession rf l) (Calling l) l); try done;
      [apply touches_refl|apply (i_wf s I)|by left| |].
    + split; [exists e; split; [done|lia]|]. destruct (existsb _ _) eqn:Ec; [|done].
      destruct (i_locs s I l e He) as (A & _). specialize (A Ec).
      unfold with_session_guard, snapshot in G. cbn in G. destruct (state e); cbn in *; try done; lia.
    + intros e0 He0. eapply loc_inv_forward; [by apply (i_locs s I)|lia|done|].
      by apply (cleanup_clause_keep s t (Inside OpWithSession rf l) (Calling l) l e0).
  - destruct (commitActive (reg s) rf) as [r' [er|]] eqn:E; injection Hstep as <-.
    { apply commitActive_err in E. by apply Hout'. }
    destruct (commitActive_spec s l rf r' I Hr E) as (e & He & Hst & ->).
    apply (inv_write s t (Inside (OpCommit an) rf l) _ l e); try done.
    + by destruct an.
    + rewrite Hst. cbn. lia.
    + destruct an; [|done]. destruct (i_locs s I l e He) as (A & B & _). rewrite Hst in A, B. cbn in A, B.
      split; [|split].
      * eexists. cbn. rewrite lookup_insert_eq. split; [done|]. cbn. lia.
      * destruct (existsb (is_closing l) (log s)); [|done]. specialize (A eq_refl). lia.
      * destruct (existsb (is_announce l) (log s)); [|done]. specialize (B eq_refl). lia.
  - destruct (beginClose (reg s) rf) as [r' [sn|er]] eqn:E; injection Hstep as <-.
    2: { apply beginClose_err in E. by apply Hout'. }
    destruct (beginClose_spec s l rf r' sn I Hr E) as (e & e' & He & -> & Hre & Hed & Ha & Hst & Hs & Hk & Hsn).
    apply (inv_write s t (Inside (OpBeginClose nt) rf l) _ l e); try done.
    + by destruct nt.
    + rewrite Hst. cbn. lia.
    + rewrite Hst. done.
    + destruct nt; [|done]. split; [|split].
      * eexists. cbn. rewrite lookup_insert_eq. split; [done|]. rewrite Hst. cbn. lia.
      * by apply (not_cleaned s t (Inside (OpBeginClose true) rf l) l e (SessionID rf)).
      * by apply (leave_pending_fresh s l e).
  - injection Hstep as <-. by apply (inv_unbind s t (Inside OpUnbind rf l)).
  - destruct (close_section (reg s) rf l) as [r' [sn|er]] eqn:E; injection Hstep as <-.
    2: { apply close_section_err in E. by apply Hout'. }
    destruct (close_section_spec s l rf r' sn I E) as (e & He & Hs & -> & Hk & Hsn).
    apply (inv_write s t (Inside OpCloseAndUnbind rf l) _ l e); try done.
    split; [|split; [|split]].
    + destruct Hr as (e0 & H0 & H1). eexists. cbn. rewrite lookup_insert_eq. split; [done|]. cbn. congruence.
    + eexists. cbn. rewrite lookup_insert_eq. split; [done|]. cbn. lia.
    + by apply (not_cleaned s t (Inside OpCloseAndUnbind rf l) l e (SessionID rf)).
    + by apply (leave_pending_fresh s l e).
Qed.

Lemma cleanup_of_closing l evs : existsb (is_closing l) evs = false -> existsb (is_cleanup l) evs = false.
Proof.
  intros H. destruct (existsb (is_cleanup l) evs) eqn:E; [|done]. apply existsb_exists in E as (ev & Hin & Hev).
  assert (existsb (is_closing l) evs = true); [|congruence]. apply existsb_exists. exists ev. by destruct ev.
Qed.

(** What an event at the head of the log adds to the tests on it. *)
Lemma loc_inv_emit s t p' l e ev : inv s -> heap (reg s) !! l = Some e -> event_loc ev = l ->
  (is_closing l ev = true -> (2 <= rank (state e))%nat) ->
  (is_announce l ev = true -> (1 <= rank (state e))%nat) ->
  (existsb (is_cleanup l) (ev :: log s) = true ->
     (forall sid, sessions (reg s) !! sid <> Some l) \/
     exists t' rf, <[t := p']> (threads s) !! t' = Some (Unbinding rf l)) ->
  loc_inv (reg s) (<[t := p']> (threads s)) (ev :: log s) l e.
Proof.
  intros I He Hl Hc Ha HD. destruct (i_locs s I l e He) as (A & B & C & _).
  split; [|split; [|split; [|done]]]; cbn [existsb].
  - intros [H|H]%orb_true_iff; auto.
  - intros [H|H]%orb_true_iff; auto.
  - intros H. rewrite (C H). apply orb_true_r.
Qed.

Lemma thread_step_inv s t p s' : inv s -> threads s !! t = Some p -> thread_step t p s = Some s' -> inv s'.
Proof.
  intros I Ht Hstep. pose proof (i_pcs s I t p Ht) as Hpc.
  destruct p as [o rf|o rf l|o rf l|l|l|l|l sn|rf l sn|rf l|l|]; cbn [thread_step pc_inv] in Hstep, Hpc.
  - destruct (transition (reg s) rf) as [l|] eqn:E; injection Hstep as <-;
      (apply inv_free; [done|intros q Hq; by rewrite Ht in Hq; injection Hq as <-|done|]); [|done].
    unfold transition in E. destruct (session_entry _ _) as [[l' e]|] eqn:Es; [|done].
    case_bool_decide as Hrf; [|done]. injection E as <-. apply session_entry_Some in Es as [_ He]. by exists e.
  - destruct (locks s !! l) eqn:E; [done|]. injection Hstep as <-. by apply inv_lock.
  - by apply (inside_inv s t o rf l).
  - injection Hstep as <-. destruct Hpc as [Hb Hc].
    assert (existsb (is_cleanup l) (log s) = false) as Hu by (by apply cleanup_of_closing).
    apply (inv_emit s t (Calling l) _ l); try done.
    intros e He. apply loc_inv_emit; try done. cbn. by rewrite Hu.
  - injection Hstep as <-. destruct Hpc as ((e & He & Hk) & Hc & Ha).
    assert (existsb (is_cleanup l) (log s) = false) as Hu by (by apply cleanup_of_closing).
    apply (inv_emit s t (Announcing l) _ l); try done.
    + exists e. split; [done|lia].
    + cbn. by rewrite bool_decide_eq_true_2.
    + intros e0 He0. assert (e0 = e) as -> by congruence. apply loc_inv_emit; try done. cbn. by rewrite Hu.
  - injection Hstep as <-. destruct (heap (reg s) !! l) as [e|] eqn:He.
    2: { assert (set_announced (reg s) l = reg s) as E by (unfold set_announced; by rewrite He).
         rewrite E. by apply (inv_to_unlock s t (Marking l)). }
    destruct (set_announced_touches s l e I He) as (T & Hwf & He' & Hs).
    apply (inv_own s t (Marking l) (Unlocking l) l (set_announced (reg s) l) (log s)); try done; [by left|].
    intros e0 He0. assert (e0 = e <| announced := true |>) as -> by congruence.
    destruct (i_locs s I l e He) as (A & B & _). split; [done|]. split; [done|]. split; [done|].
    apply (cleanup_clause_keep s t (Marking l) (Unlocking l) l e); try done. by rewrite Hs.
  - injection Hstep as <-. destruct Hpc as ((e & He & Hk) & Hu & Hlv).
    apply (inv_emit s t (Notifying l sn) _ l); try done.
    + exists e. split; [done|lia].
    + intros e0 He0. assert (e0 = e) as -> by congruence. apply loc_inv_emit; try done. cbn. by rewrite Hu.
  - injection Hstep as <-. destruct Hpc as (Hr & (e & He & Hk) & Hu & Hlv).
    apply (inv_emit s t (Cleaning rf l sn) _ l); try done.
    + exists e. split; [done|lia].
    + split; [done|]. by exists e.
    + intros e0 He0. assert (e0 = e) as -> by congruence. apply loc_inv_emit; try done.
      intros _. right. exists t, rf. by rewrite lookup_insert_eq.
  - injection Hstep as <-. destruct Hpc as [Hr _]. by apply (inv_unbind s t (Unbinding rf l)).
  - injection Hstep as <-. by apply inv_unlock.
  - done.
Qed.

(** ** The environment: edges and new sessions *)

Lemma pc_inv_heap r r' evs p : (forall l e, heap r !! l = Some e -> heap r' !! l = Some e) ->
  pc_inv r evs p -> pc_inv r' evs p.
Proof.
  intros Hh. assert (forall l n, begun r l n -> begun r' l n) as Hb by (intros l n (e & He & ?); exists e; auto).
  assert (forall l rf, entry_ref r l rf -> entry_ref r' l rf) as Hr by (intros l rf (e & He & ?); exists e; auto).
  destruct p; cbn [pc_inv]; try done; firstorder.
Qed.

(** A registry with fewer sessions or other edges but the same entries. *)
Lemma inv_env s r' : inv s -> heap r' = heap (reg s) -> registry_wf r' ->
  (forall sid l, sessions r' !! sid = Some l -> sessions (reg s) !! sid = Some l) ->
  inv (s <| reg := r' |>).
Proof.
  intros I Hh Hwf Hs. split; cbn; try done; unfold entry_ref; try rewrite Hh; try apply I.
  - intros t p Hp. eapply pc_inv_heap; [|by apply (i_pcs s I t)]. by rewrite Hh.
  - intros l e He. destruct (i_locs s I l e He) as (A & B & C & D). repeat (split; [done|]). intros Hc.
    destruct (D Hc) as [Hno|?]; [left|by right]. intros sid Hsid. by apply (Hno sid), Hs.
Qed.

(** A fresh entry: nothing in the log or in any goroutine is about it. *)
Lemma inv_bind s rf ed : inv s -> rf ∉ bound s ->
  inv (s <| reg := (Bind (reg s) rf ed).1 |> <| bound := rf :: bound s |>).
Proof.
  intros I Hfresh.
  assert (inv (s <| bound := rf :: bound s |>)) as I0.
  { split; cbn; try apply I. intros l rf' Hr. right. by apply (i_bound s I l). }
  unfold Bind. destruct (negb (Valid rf)) eqn:EV; [exact I0|]. destruct (edges (reg s) !! ed) as [g|] eqn:Ee; [|exact I0].
  destruct (session_entry (reg s) (SessionID rf)) as [[l e]|] eqn:Es; [by destruct (_ && _)|].
  apply session_entry_None in Es; [|apply (i_wf s I)]. pose proof (i_wf s I) as [W1 W2].
  set (l0 := next (reg s)).
  assert (heap (reg s) !! l0 = None) as Hnone.
  { destruct (heap (reg s) !! l0) eqn:E; [|done]. pose proof (W2 l0 ltac:(by eexists)). unfold l0 in *. lia. }
  assert (forall ev, ev ∈ log s -> event_loc ev <> l0) as Hlog.
  { intros ev Hev Hl. destruct (i_alloc s I ev Hev) as [e He]. rewrite Hl in He. congruence. }
  assert (forall f : loc -> event -> bool, (forall ev, f l0 ev = true -> event_loc ev = l0) ->
    existsb (f l0) (log s) = false) as Hno.
  { intros f Hf. destruct (existsb (f l0) (log s)) eqn:E; [|done]. apply existsb_exists in E as (ev & Hin & Hev).
    exfalso. apply (Hlog ev); [by apply list_elem_of_In|by apply Hf]. }
  assert (forall l e, heap (reg s) !! l = Some e -> l <> l0) as Hne by congruence.
  cbn [fst]. split; cbn [reg locks threads log bound set_field heap sessions edges next]; try apply I.
  - pose proof (Bind_wf (reg s) rf ed (i_wf s I)) as Hb. unfold Bind in Hb. rewrite EV, Ee in Hb.
    replace (session_entry (reg s) (SessionID rf)) with (@None (loc * entry)) in Hb; [done|].
    unfold session_entry. by rewrite Es.
  - assert (forall l rf', entry_ref (mkRegistry (edges (reg s)) (<[SessionID rf := l0]> (sessions (reg s)))
        (<[l0 := mkEntry rf ed StateSyncing false]> (heap (reg s))) (S l0)) l rf' ->
      (l = l0 /\ rf' = rf) \/ entry_ref (reg s) l rf') as Hent.
    { intros l rf' (e & He & Hr). cbn in He. destruct (decide (l = l0)) as [->|Hl].
      - rewrite lookup_insert_eq in He. injection He as <-. by left.
      - rewrite lookup_insert_ne in He by done. right. by exists e. }
    intros l1 l2 rf' [[-> ->]|H1]%Hent [[-> Hr]|H2]%Hent; try done.
    + exfalso. by apply Hfresh, (i_bound s I l2).
    + exfalso. subst rf'. by apply Hfresh, (i_bound s I l1).
    + by apply (i_refs s I l1 l2 rf').
  - intros l rf' (e & He & Hr). cbn in He. destruct (decide (l = l0)) as [->|Hl].
    + rewrite lookup_insert_eq in He. injection He as <-. cbn in Hr. subst. by left.
    + rewrite lookup_insert_ne in He by done. right. apply (i_bound s I l). by exists e.
  - intros t p Hp. eapply pc_inv_heap; [|by apply (i_pcs s I t)]. intros l e He. cbn.
    rewrite lookup_insert_ne; [done|]. intros <-. by apply (Hne _ _ He).
  - intros l e. destruct (decide (l = l0)) as [->|Hl].
    + rewrite lookup_insert_eq. intros [= <-]. unfold loc_inv.
      rewrite !Hno by (intros; auto using is_closing_loc, is_cleanup_loc, is_announce_loc). done.
    + rewrite lookup_insert_ne by done. intros He. destruct (i_locs s I l e He) as (A & B & C & D).
      repeat (split; [done|]). intros Hc. destruct (D Hc) as [Hn|?]; [left|by right].
      intros sid. cbn. destruct (decide (sid = SessionID rf)) as [->|Hsid];
        [rewrite lookup_insert_eq; congruence|rewrite lookup_insert_ne by done; apply Hn].
  - intros ev Hev. rewrite lookup_insert_ne; [by apply (i_alloc s I)|]. intros Hl. by apply (Hlog ev).
Qed.

Lemma inv_init : inv System_init.
Proof.
  split; cbn -[lookup]; try done.
  - split; cbn -[lookup]; [intros sid l H; by rewrite lookup_empty in H|]. intros l [e He]. by rewrite lookup_empty in He.
  - intros l t. rewrite !lookup_empty. split; [done|]. intros (p & Hp & _). done.
  - intros l1 l2 rf (e & He & _). cbn in He. by rewrite lookup_empty in He.
  - intros l rf (e & He & _). cbn in He. by rewrite lookup_empty in He.
  - intros ev Hev. by apply elem_of_nil in Hev.
Qed.

Lemma step_inv s s' : inv s -> step s s' -> inv s'.
Proof.
  intros I Hst. revert I. destruct Hst as [s0 t o rf Ht|s0 t p s1 Ht Hs|s0 id g|s0 id g|s0 rf ed Hf]; intros I.
  - apply inv_free; [done|intros p Hp; congruence|done|done].
  - by apply (thread_step_inv s0 t p).
  - destruct (RegisterEdge_wf (reg s0) id g (i_wf s0 I)) as (Hwf & Hh & Hs). apply inv_env; try done. by rewrite Hs.
  - destruct (RemoveEdge_wf (reg s0) id g (i_wf s0 I)) as (Hwf & Hh & Hs). by apply inv_env.
  - by apply inv_bind.
Qed.

Lemma reachable_inv s : reachable s -> inv s.
Proof.
  intros H. assert (forall a b, rtc step a b -> inv a -> inv b) as Hind.
  { intros a b Hab. induction Hab as [|a b c Hs _ IH]; [done|]. intros Ha. by apply IH, (step_inv a). }
  by apply (Hind System_init s H), inv_init.
Qed.

(** ** Schedules, to evaluate *)

Inductive action :=
  | ASpawn (t : nat) (o : op) (rf : SessionRef)
  | ARun (t : nat)
  | ARegister (id : EdgeID) (g : Z)
  | ARemove (id : EdgeID) (g : Z)
  | ABind (rf : SessionRef) (ed : EdgeID).

Definition act (a : action) (s : System) : option System :=
  match a with
  | ASpawn t o rf => match threads s !! t with None => Some (goto t (Start o rf) s) | Some _ => None end
  | ARun t => p ← threads s !! t; thread_step t p s
  | ARegister id g => Some (s <| reg := (RegisterEdge (reg s) id g).1 |>)
  | ARemove id g => Some (s <| reg := (RemoveEdge (reg s) id g).1 |>)
  | ABind rf ed =>
      if bool_decide (rf ∈ bound s) then None
      else Some (s <| reg := (Bind (reg s) rf ed).1 |> <| bound := rf :: bound s |>)
  end.

Definition run (acts : list action) : option System :=
  foldl (fun s a => s ≫= act a) (Some System_init) acts.

Lemma act_step a s s' : act a s = Some s' -> step s s'.
Proof.
  destruct a as [t o rf|t|id g|id g|rf ed]; cbn.
  - destruct (threads s !! t) eqn:E; [done|]. intros [= <-]. by constructor.
  - destruct (threads s !! t) as [p|] eqn:E; [|done]. cbn. intros H. by eapply step_thread.
  - intros [= <-]. constructor.
  - intros [= <-]. constructor.
  - case_bool_decide; [done|]. intros [= <-]. by constructor.
Qed.

Lemma run_reachable acts s : run acts = Some s -> reachable s.
Proof.
  assert (forall acts, foldl (fun s a => s ≫= act a) None acts = None) as Hnone
    by (intros l; induction l; done).
  unfold run, reachable. generalize System_init. induction acts as [|a acts IH]; intros s0; cbn.
  - intros [= <-]. constructor.
  - destruct (act a s0) as [s1|] eqn:E; [|by rewrite Hnone].
    intros H. eapply rtc_l; [by apply (act_step a)|]. by apply IH.
Qed.

(** C24: in every interleaving of goroutines, edge changes and bindings, the
    callbacks of one session come in order: the join is announced at most
    once and never once closing was notified; no [WithSession] work runs after
    closing was notified; at most one leave is broadcast, and only after the
    join was; the cleanup runs at most once, and nothing follows it. *)
Theorem session_lifecycle (s : System) : reachable s -> log_ok (log s).
Proof. intros H. apply (i_log s), reachable_inv, H. Qed.

Definition sample_schedule : list action :=
  let rf := mkRef 7 1 in
  [ARegister LocalEdgeID 1; ABind rf LocalEdgeID;
   ASpawn 0 (OpCommit true) rf; ASpawn 1 OpCloseAndUnbind rf; ASpawn 2 (OpBeginClose true) rf;
   ARun 0; ARun 1; ARun 2; ARun 0; ARun 0; ARun 0; ARun 0; ARun 0;
   ARun 2; ARun 2; ARun 2; ARun 2; ARun 1; ARun 1; ARun 1; ARun 1; ARun 1].

Lemma session_lifecycle_witness :
  exists s, run sample_schedule = Some s /\ reachable s /\ log_ok (log s) /\ length (log s) = 3%nat.
Proof.
  eexists. split; [vm_compute; reflexivity|].
  match goal with |- reachable ?s /\ _ => assert (reachable s) as H by (apply (run_reachable sample_schedule); vm_compute; reflexivity) end.
  split; [exact H|]. split; [exact (session_lifecycle _ H)|reflexivity].
Defined.

(** The transition mutex excludes: two goroutines are never inside the
    critical part of the same entry, and the cleanup of an entry is never in
    progress twice. *)
Theorem transition_mutual_exclusion (s : System) t1 t2 p1 p2 l :
  reachable s -> threads s !! t1 = Some p1 -> threads s !! t2 = Some p2 ->
  holds p1 = Some l -> holds p2 = Some l -> t1 = t2.
Proof.
  intros H H1 H2 Hl1 Hl2. pose proof (reachable_inv s H) as I.
  assert (locks s !! l = Some t1) by (apply (i_locks s I); eauto).
  assert (locks s !! l = Some t2) by (apply (i_locks s I); eauto). congruence.
Qed.
