(* ===== verification/Control.v ===== *)
(** * The control transport (internal/cluster/control.go)

    Every session has a bounded queue of control messages and a goroutine that
    writes them to the session's sink. While a session is synchronised it
    receives the initial messages; what others send meanwhile is deferred. The
    commit waits for the initial messages to be flushed, appends what was
    deferred and makes the session active. A final message closes the queue.

    A step is a section guarded by the mutexes of the registry and the
    session, a call of the sink, or a receive on a channel; the theorems are
    about every order of steps ([run]). The sink may fail at any time, the
    registry is changed by others at any time. A lookup of the queue is one
    step with the section that uses it: what happens to the table in between
    does not concern the queue that was looked up. *)

From Stdlib Require Import ZArith Lia.
From stdpp Require Import base numbers list gmap countable fin_maps option.
From S2P Require Import Prelude Fields Messages Codec Registry.

Module Control.

Inductive control_error :=
  ErrControlClosed | ErrControlOverflow | ErrRegistry (e : registry_error) | ErrSink | ErrDeadline.

(** [ctx] and [done] of a command come together: [done] is the call that
    waits. *)
Record controlCommand := mkCommand {
  c_message : option message;
  c_done : option nat;
  c_final : bool }.
Definition plain (m : message) : controlCommand := mkCommand (Some m) None false.
Definition barrier (t : nat) : controlCommand := mkCommand None (Some t) false.

(** Where the goroutine [run] is: before and in its two [select]s, with a
    command received, writing it, flushing, in the handling of an error,
    closing the sink and answering. *)
Inductive worker :=
  | AtTop
  | AtSelect
  | Received (c : controlCommand)
  | Writing (c : controlCommand)
  | Flushing (c : controlCommand)
  | Failing (c : controlCommand) (err : control_error)
  | Ending (c : controlCommand) (err : option control_error)
  | Answering (c : controlCommand) (err : option control_error)
  | Returned.

(** [go_close] and [go_failure] are the goroutines [failLocked] starts,
    [answers] the [done] channels, [sink_closed] whether [closeOnce] has run. *)
Record controlSession := mkSession {
  cs_ref : SessionRef;
  queue : list controlCommand;
  stopped : bool;
  closed : bool;
  committing : bool;
  failed : option control_error;
  deferred : list message;
  limit : nat;
  sink_closed : bool;
  at_ : worker;
  go_close : bool;
  go_failure : option control_error;
  answers : gmap nat (option control_error) }.
#[export] Instance controlSession_eta : Eta controlSession := fun s =>
  mkSession (cs_ref s) (queue s) (stopped s) (closed s) (committing s) (failed s) (deferred s) (limit s) (sink_closed s) (at_ s)
    (go_close s) (go_failure s) (answers s).

Definition new_session (rf : SessionRef) (lim : nat) : controlSession :=
  mkSession rf [] false false false None [] lim false AtTop false None ∅.

Definition stopLocked (cs : controlSession) : controlSession := cs <| closed := true |> <| deferred := [] |> <| stopped := true |>.
Definition failLocked (err : control_error) (cs : controlSession) : controlSession :=
  if stopped cs then cs
  else (stopLocked (cs <| failed := Some err |>)) <| go_close := true |> <| go_failure := Some err |>.
Definition closeSink (cs : controlSession) : controlSession := cs <| sink_closed := true |>.

Definition enqueueLocked (cs : controlSession) (cmd : controlCommand) (reserved : bool) : controlSession * option control_error :=
  if negb reserved && (limit cs <=? length (queue cs))%nat then (failLocked ErrControlOverflow cs, Some ErrControlOverflow) else
  if (length (queue cs) <? S (limit cs))%nat then (cs <| queue := queue cs ++ [cmd] |>, None)
  else (failLocked ErrControlOverflow cs, Some ErrControlOverflow).

(** ** What is recorded *)

(** The messages a queue took, and what became of them. *)
Inductive event :=
  | Initial (m : message)
  | Deferred (m : message)
  | Committed
  | Live (m : message)
  | Final (m : option message)
  | Wrote (m : message)
  | Announced
  | Failed (err : control_error).

(** ** The sections under the locks of registry and session *)

Definition send_initial (m : message) (state : SessionState) (cs : controlSession) : controlSession * list event * option control_error :=
  if closed cs then (cs, [], Some ErrControlClosed) else
  if negb (bool_decide (state = StateSyncing)) || committing cs then (cs, [], Some (ErrRegistry ErrInvalidState)) else
  match enqueueLocked cs (plain m) false with
  | (cs, None) => (cs, [Initial m], None)
  | (cs, Some e) => (cs, [], Some e)
  end.
Definition send (m : message) (state : SessionState) (cs : controlSession) : controlSession * list event * option control_error :=
  if closed cs then (cs, [], Some ErrControlClosed) else
  match state with
  | StateSyncing =>
      if (limit cs <=? length (deferred cs))%nat then (failLocked ErrControlOverflow cs, [], Some ErrControlOverflow)
      else (cs <| deferred := deferred cs ++ [m] |>, [Deferred m], None)
  | StateActive =>
      match enqueueLocked cs (plain m) false with
      | (cs, None) => (cs, [Live m], None)
      | (cs, Some e) => (cs, [], Some e)
      end
  | _ => (cs, [], Some (ErrRegistry ErrInvalidState))
  end.
(** The first section of [CommitSyncAndAnnounce]; [t] waits for the barrier. *)
Definition begin_commit (t : nat) (state : SessionState) (cs : controlSession) : controlSession * list event * option control_error :=
  if closed cs || negb (bool_decide (state = StateSyncing)) || committing cs then (cs, [], Some (ErrRegistry ErrInvalidState)) else
  let '(cs, e) := enqueueLocked (cs <| committing := true |>) (barrier t) true in (cs, [], e).
(** The section of [close]. *)
Definition begin_close (t : nat) (final : option message) (state : SessionState) (cs : controlSession) : controlSession * list event * option control_error :=
  if closed cs || bool_decide (state = StateClosed) then (cs, [], Some ErrControlClosed) else
  match enqueueLocked (cs <| closed := true |> <| deferred := [] |>) (mkCommand final (Some t) true) true with
  | (cs, None) => (cs, [Final final], None)
  | (cs, Some e) => (cs, [], Some e)
  end.

(** The loop that appends the deferred messages. *)
Fixpoint splice (cs : controlSession) (ms : list message) : controlSession * option control_error :=
  match ms with
  | [] => (cs, None)
  | m :: ms => match enqueueLocked cs (plain m) false with
               | (cs, None) => splice cs ms
               | (cs, Some e) => (cs, Some e)
               end
  end.
(** The second section of [CommitSyncAndAnnounce]; the flag says that the
    entry becomes active. *)
Definition commit (state : option SessionState) (cs : controlSession) : controlSession * list event * option control_error * bool :=
  let cs := cs <| committing := false |> in
  if negb (bool_decide (state = Some StateSyncing)) || closed cs then (cs, [], Some (ErrRegistry ErrInvalidState), false) else
  match splice cs (deferred cs) with
  | (cs, Some e) => (cs, [], Some e, false)
  | (cs, None) => (cs <| deferred := [] |>, [Committed], None, true)
  end.

(** ** The worker *)

(** One step of [run]; [stop] chooses among the ready cases of a [select],
    [out] is what the sink answers. [None] when it is blocked or has returned. *)
Definition work (stop : bool) (out : option control_error) (cs : controlSession) : option (controlSession * list event) :=
  match at_ cs with
  | AtTop => Some (cs <| at_ := if stopped cs then Returned else AtSelect |>, [])
  | AtSelect =>
      match queue cs with
      | c :: q => if stopped cs && stop then Some (cs <| at_ := Returned |>, [])
                  else Some (cs <| queue := q |> <| at_ := Received c |>, [])
      | [] => if stopped cs then Some (cs <| at_ := Returned |>, []) else None
      end
  | Received c => Some (cs <| at_ := if stopped cs then Returned else Writing c |>, [])
  | Writing c =>
      let next := match c_done c with Some _ => Flushing c | None => Ending c None end in
      match c_message c with
      | None => Some (cs <| at_ := next |>, [])
      | Some m => Some (cs <| at_ := match out with Some err => Failing c err | None => next end |>, [Wrote m])
      end
  | Flushing c => Some (cs <| at_ := match out with Some err => Failing c err | None => Ending c None end |>, [])
  | Failing c err => Some ((failLocked err cs) <| at_ := Ending c (Some err) |>, [])
  | Ending c err => Some ((if c_final c then closeSink cs else cs) <| at_ := Answering c err |>, [])
  | Answering c err =>
      let cs := match c_done c with Some t => cs <| answers := <[t := err]> (answers cs) |> | None => cs end in
      Some (cs <| at_ := if bool_decide (is_Some err) || c_final c then Returned else AtTop |>, [])
  | Returned => None
  end.

(** ** The transport *)

(** What is left to do of a call: the wait of a commit or a close, the
    transition of a commit, its announcement and the mark of it, the removal
    of the queue after a close, the end of [AbortSync] or [Detach]. *)
Inductive task :=
  | AwaitCommit (rf : SessionRef) (l : nat) (announce : bool)
  | Transition (rf : SessionRef) (l : nat) (announce : bool)
  | Section (rf : SessionRef) (l : nat) (announce : bool)
  | Announcing (l entry : nat)
  | Marking (entry : nat)
  | AwaitClose (rf : SessionRef) (l : nat)
  | Taking (rf : SessionRef) (result : option control_error)
  | Stopping (l : nat) (close : bool)
  | Closing (l : nat)
  | Done (result : option control_error).

Record ControlTransport := mkTransport {
  registry : Registry;
  table : gmap SessionRef nat;
  controls : gmap nat controlSession;
  fresh : nat;
  tasks : gmap nat task;
  log : list (nat * event);
  used : list SessionRef }.
#[export] Instance ControlTransport_eta : Eta ControlTransport := fun t =>
  mkTransport (registry t) (table t) (controls t) (fresh t) (tasks t) (log t) (used t).

Definition NewControlTransport (r : Registry) : ControlTransport := mkTransport r ∅ ∅ 0 ∅ [] [].

Definition record (l : nat) (es : list event) (t : ControlTransport) : ControlTransport := t <| log := log t ++ map (fun e => (l, e)) es |>.
Definition put (l : nat) (cs : controlSession) (es : list event) (t : ControlTransport) : ControlTransport :=
  record l es (t <| controls := <[l := cs]> (controls t) |>).
Definition set_task (n : nat) (k : task) (t : ControlTransport) : ControlTransport := t <| tasks := <[n := k]> (tasks t) |>.

(** The state of the entry of exactly this session. *)
Definition state_of (r : Registry) (rf : SessionRef) : option SessionState := s_State <$> Registry.Snapshot r rf.

Definition BeginSync (t : ControlTransport) (rf : SessionRef) (lim : Z) : ControlTransport * option control_error :=
  if lim <? 1 then (t, Some (ErrRegistry ErrInvalidSession)) else
  match state_of (registry t) rf with
  | None => (t, Some (ErrRegistry ErrStaleSession))
  | Some state =>
      if negb (bool_decide (state = StateSyncing)) then (t, Some (ErrRegistry ErrInvalidState)) else
      match table t !! rf with
      | Some _ => (t, Some (ErrRegistry ErrSessionBound))
      | None => (t <| table := <[rf := fresh t]> (table t) |> <| controls := <[fresh t := new_session rf (Z.to_nat lim)]> (controls t) |>
                   <| fresh := S (fresh t) |>, None)
      end
  end.

(** The queue that [fn] runs on is also returned, for the waits. *)
Definition withQueue (t : ControlTransport) (rf : SessionRef)
    (fn : SessionState -> controlSession -> controlSession * list event * option control_error)
    : ControlTransport * result control_error nat :=
  match state_of (registry t) rf with
  | None => (t, Err (ErrRegistry ErrStaleSession))
  | Some state =>
      match table t !! rf with
      | None => (t, Err (ErrRegistry ErrStaleSession))
      | Some l =>
          match controls t !! l with
          | None => (t, Err (ErrRegistry ErrStaleSession))
          | Some cs => let '(cs, es, e) := fn state cs in
                       (put l cs es t, match e with None => Ok l | Some e => Err e end)
          end
      end
  end.

Definition SendInitial (t : ControlTransport) (rf : SessionRef) (m : message) : ControlTransport * option control_error :=
  let '(t, r) := withQueue t rf (send_initial m) in (t, match r with Ok _ => None | Err e => Some e end).
Definition Send (t : ControlTransport) (rf : SessionRef) (m : message) : ControlTransport * option control_error :=
  let '(t, r) := withQueue t rf (send m) in (t, match r with Ok _ => None | Err e => Some e end).
Definition CommitSyncAndAnnounce (n : nat) (t : ControlTransport) (rf : SessionRef) (announce : bool) : ControlTransport :=
  let '(t, r) := withQueue t rf (begin_commit n) in
  set_task n (match r with Ok l => AwaitCommit rf l announce | Err e => Done (Some e) end) t.
Definition close (n : nat) (t : ControlTransport) (rf : SessionRef) (final : option message) : ControlTransport :=
  let '(t, r) := withQueue t rf (begin_close n final) in
  set_task n (match r with Ok l => AwaitClose rf l | Err e => Done (Some e) end) t.
Definition take (t : ControlTransport) (rf : SessionRef) : ControlTransport * option nat :=
  (t <| table := delete rf (table t) |>, table t !! rf).
Definition AbortSync (n : nat) (t : ControlTransport) (rf : SessionRef) : ControlTransport :=
  let '(t, o) := take t rf in set_task n (match o with Some l => Stopping l true | None => Done (Some (ErrRegistry ErrStaleSession)) end) t.
Definition Detach (n : nat) (t : ControlTransport) (rf : SessionRef) : ControlTransport :=
  let '(t, o) := take t rf in set_task n (match o with Some l => Stopping l false | None => Done None end) t.

(** The cases of the [select] of [await]. *)
Inductive ready := Answer | Stop | Deadline.
Definition await (n : nat) (how : ready) (cs : controlSession) : option (controlSession * option control_error) :=
  match how with
  | Answer => r ← answers cs !! n; Some (cs, r)
  | Stop => if stopped cs then Some (cs, Some (default ErrControlClosed (failed cs))) else None
  | Deadline => Some (failLocked ErrDeadline cs, Some ErrDeadline)
  end.

(** [e.state = StateActive] through the pointer. *)
Definition activate (r : Registry) (l : nat) : Registry :=
  match heap r !! l with Some e => write_entry l (e <| state := StateActive |>) r | None => r end.

Definition advance (n : nat) (how : ready) (k : task) (t : ControlTransport) : option ControlTransport :=
  match k with
  | AwaitCommit rf l announce =>
      cs ← controls t !! l; '(cs, r) ← await n how cs;
      Some (set_task n (match r with None => Transition rf l announce | Some e => Done (Some e) end) (put l cs [] t))
  | Transition rf l announce =>
      Some (set_task n (match Registry.transition (registry t) rf with Ok _ => Section rf l announce | Err e => Done (Some (ErrRegistry e)) end) t)
  | Section rf l announce =>
      cs ← controls t !! l;
      let '(cs, es, e, active) := commit (state_of (registry t) rf) cs in
      let t := put l cs es t in
      match active, session_entry (registry t) (SessionID rf) with
      | true, Some (entry, _) =>
          Some (set_task n (if announce : bool then Announcing l entry else Done None) (t <| registry := activate (registry t) entry |>))
      | _, _ => Some (set_task n (Done e) t)
      end
  | Announcing l entry => cs ← controls t !! l; Some (set_task n (Marking entry) (put l cs [Announced] t))
  | Marking entry => Some (set_task n (Done None) (t <| registry := set_announced (registry t) entry |>))
  | AwaitClose rf l =>
      cs ← controls t !! l; '(cs, r) ← await n how cs;
      Some (set_task n (Taking rf r) (put l cs [] t))
  | Taking rf r => Some (set_task n (Done r) (take t rf).1)
  | Stopping l close =>
      cs ← controls t !! l; Some (set_task n (if close : bool then Closing l else Done None) (put l (stopLocked cs) [] t))
  | Closing l => cs ← controls t !! l; Some (set_task n (Done None) (put l (closeSink cs) [] t))
  | Done _ => None
  end.

(** What others do to the registry; a session is bound once. *)
Inductive registry_op :=
  | RRegister (id : EdgeID) (generation : Z)
  | RRemove (id : EdgeID) (generation : Z)
  | RBind (rf : SessionRef) (id : EdgeID)
  | RBeginClose (rf : SessionRef)
  | RUnbind (rf : SessionRef).
Definition registry_act (o : registry_op) (t : ControlTransport) : option ControlTransport :=
  match o with
  | RRegister id g => Some (t <| registry := (RegisterEdge (registry t) id g).1 |>)
  | RRemove id g => Some (t <| registry := (RemoveEdge (registry t) id g).1 |>)
  | RBind rf id => if bool_decide (rf ∈ used t) then None
                   else Some (t <| registry := (Bind (registry t) rf id).1 |> <| used := rf :: used t |>)
  | RBeginClose rf => Some (t <| registry := (beginClose (registry t) rf).1 |>)
  | RUnbind rf => Some (t <| registry := (unbind (registry t) rf).1 |>)
  end.

Inductive action :=
  | ABegin (rf : SessionRef) (lim : Z)
  | AInitial (rf : SessionRef) (m : message)
  | ASend (rf : SessionRef) (m : message)
  | ACommit (n : nat) (rf : SessionRef) (announce : bool)
  | AClose (n : nat) (rf : SessionRef) (final : option message)
  | AAbort (n : nat) (rf : SessionRef)
  | ADetach (n : nat) (rf : SessionRef)
  | ATask (n : nat) (how : ready)
  | AWorker (l : nat) (stop : bool) (out : option control_error)
  | AGoClose (l : nat)
  | AGoFailure (l : nat)
  | ARegistry (o : registry_op).

(** A new call takes a new number. *)
Definition unused (n : nat) (t : ControlTransport) : option unit := match tasks t !! n with None => Some tt | Some _ => None end.

Definition act (a : action) (t : ControlTransport) : option ControlTransport :=
  match a with
  | ABegin rf lim => Some (BeginSync t rf lim).1
  | AInitial rf m => Some (SendInitial t rf m).1
  | ASend rf m => Some (Send t rf m).1
  | ACommit n rf announce => _ ← unused n t; Some (CommitSyncAndAnnounce n t rf announce)
  | AClose n rf final => _ ← unused n t; Some (close n t rf final)
  | AAbort n rf => _ ← unused n t; Some (AbortSync n t rf)
  | ADetach n rf => _ ← unused n t; Some (Detach n t rf)
  | ATask n how => k ← tasks t !! n; advance n how k t
  | AWorker l stop out => cs ← controls t !! l; '(cs, es) ← work stop out cs; Some (put l cs es t)
  | AGoClose l => cs ← controls t !! l;
      if go_close cs then Some (put l (closeSink (cs <| go_close := false |>)) [] t) else None
  | AGoFailure l => cs ← controls t !! l;
      match go_failure cs with Some err => Some (put l (cs <| go_failure := None |>) [Failed err] t) | None => None end
  | ARegistry o => registry_act o t
  end.
Fixpoint run (t : ControlTransport) (acts : list action) : option ControlTransport :=
  match acts with
  | [] => Some t
  | a :: acts => t ← act a t; run t acts
  end.

(** ** The order a client must see *)

(** The messages in the order the calls promise: the initial ones, what was
    deferred when the session is committed, then the live ones and the last. *)
Record script := mkScript { lines : list message; waiting : list message }.
Definition tell (s : script) (e : event) : script :=
  match e with
  | Initial m | Live m | Final (Some m) => mkScript (lines s ++ [m]) (waiting s)
  | Deferred m => mkScript (lines s) (waiting s ++ [m])
  | Committed => mkScript (lines s ++ waiting s) []
  | _ => s
  end.
Definition script_of (es : list event) : script := foldl tell (mkScript [] []) es.
Definition written (es : list event) : list message := omap (fun e => match e with Wrote m => Some m | _ => None end) es.
Definition is_final (e : event) : bool := match e with Final _ => true | _ => false end.
(** The messages that were taken; the rest of the log is what follows. *)
Definition is_taken (e : event) : bool := match e with Initial _ | Deferred _ | Committed | Live _ | Final _ => true | _ => false end.
Definition events_of (l : nat) (log : list (nat * event)) : list event :=
  omap (fun p => if decide (p.1 = l) then Some p.2 else None) log.

(** The message the worker has received and not yet written, and the one it
    is writing. *)
Definition held (w : worker) : list message := match w with Received c | Writing c => option_list (c_message c) | _ => [] end.
Definition flight (w : worker) : list message := match w with Writing c => option_list (c_message c) | _ => [] end.

Record ordered (es : list event) (cs : controlSession) : Prop := {
  o_open : stopped cs = false -> written es ++ held (at_ cs) ++ omap c_message (queue cs) = lines (script_of es);
  o_any : written es ++ flight (at_ cs) `prefix_of` lines (script_of es);
  o_deferred : closed cs = false -> deferred cs = waiting (script_of es);
  o_closed : stopped cs = true -> closed cs = true;
  o_final : existsb is_final es = true -> closed cs = true;
  o_last : forall pre e post, filter is_taken es = pre ++ e :: post -> is_final e = true -> post = [];
  o_queue : (length (queue cs) <= S (limit cs))%nat;
  o_waiting : (length (deferred cs) <= limit cs)%nat }.

Lemma script_snoc es e : script_of (es ++ [e]) = tell (script_of es) e.
Proof. unfold script_of. by rewrite foldl_app. Qed.
Lemma written_snoc es e : written (es ++ [e]) = written es ++ match e with Wrote m => [m] | _ => [] end.
Proof. unfold written. rewrite omap_app. by destruct e. Qed.
Lemma lines_mono es e : lines (script_of es) `prefix_of` lines (script_of (es ++ [e])).
Proof. rewrite script_snoc. destruct e as [m|m| |m|[m|]|m| |err]; cbn; first [done|apply prefix_app_r, reflexivity]. Qed.
Lemma final_snoc es e : existsb is_final (es ++ [e]) = existsb is_final es || is_final e.
Proof. rewrite existsb_app. cbn. by rewrite orb_false_r. Qed.

(** What is taken when the queue is open is the last so far. *)
Lemma last_snoc es cs e : ordered es cs -> closed cs = false \/ is_taken e = false ->
  forall pre x post, filter is_taken (es ++ [e]) = pre ++ x :: post -> is_final x = true -> post = [].
Proof.
  intros O H pre x post. rewrite (list.filter_app is_taken). destruct (is_taken e) eqn:Et.
  - destruct H as [Hc|]; [|done]. rewrite (list.filter_cons_True is_taken e) by (by rewrite Et). rewrite list.filter_nil. intros E Hx.
    destruct post as [|y post _] using rev_ind; [done|]. exfalso.
    rewrite app_comm_cons, app_assoc in E. apply app_inj_tail in E as [E _].
    assert (existsb is_final es = true) as H.
    { apply existsb_exists. exists x. split; [|done]. apply list_elem_of_In. apply (list_elem_of_filter is_taken). rewrite E. set_solver. }
    apply (o_final _ _ O) in H. congruence.
  - rewrite (list.filter_cons_False is_taken e) by (rewrite Et; by intros []). rewrite list.filter_nil. rewrite app_nil_r. apply (o_last _ _ O).
Qed.

Lemma ordered_new rf lim : ordered [] (new_session rf lim).
Proof. split; cbn; try done; try lia. intros [|] ? ? [=]. Qed.
Lemma ordered_stop es cs : ordered es cs -> ordered es (stopLocked cs).
Proof. intros []. split; cbn; try done; lia. Qed.
Lemma ordered_fail err es cs : ordered es cs -> ordered es (failLocked err cs).
Proof. intros O. unfold failLocked. destruct (stopped cs) eqn:E; [done|]. apply ordered_stop in O as []. split; cbn; done. Qed.

(** Changes that do not concern the order. *)
Lemma ordered_same es cs cs' : ordered es cs -> queue cs' = queue cs -> stopped cs' = stopped cs -> closed cs' = closed cs ->
  deferred cs' = deferred cs -> limit cs' = limit cs -> held (at_ cs') = held (at_ cs) -> flight (at_ cs') = flight (at_ cs) -> ordered es cs'.
Proof. intros [] Hq Hs Hc Hd Hl Hh Hf. split; rewrite ?Hq, ?Hs, ?Hc, ?Hd, ?Hl, ?Hh, ?Hf; done. Qed.

(** A command is appended, or the session fails. *)
Lemma enqueueLocked_cases cs cmd reserved :
  (enqueueLocked cs cmd reserved = (cs <| queue := queue cs ++ [cmd] |>, None) /\ (length (queue cs) < S (limit cs))%nat /\
   (reserved = false -> (length (queue cs) < limit cs)%nat)) \/
  (enqueueLocked cs cmd reserved = (failLocked ErrControlOverflow cs, Some ErrControlOverflow) /\
   (limit cs <= length (queue cs))%nat).
Proof.
  unfold enqueueLocked. destruct reserved; cbn [negb andb].
  - destruct (Nat.ltb_spec (length (queue cs)) (S (limit cs))); [left|right]; (split; [done|]); [done|lia].
  - destruct (Nat.leb_spec (limit cs) (length (queue cs))); [right; split; [done|lia]|].
    destruct (Nat.ltb_spec (length (queue cs)) (S (limit cs))); [left|lia]. split; [done|]. split; [lia|done].
Qed.

(** A message is taken: the queue and the script grow by the same lines. *)
Lemma ordered_take es cs cs' e more :
  ordered es cs -> closed cs = false -> is_taken e = true ->
  stopped cs' = false -> at_ cs' = at_ cs -> limit cs' = limit cs -> (length (queue cs') <= S (limit cs))%nat -> (length (deferred cs') <= limit cs)%nat ->
  omap c_message (queue cs') = omap c_message (queue cs) ++ more -> lines (tell (script_of es) e) = lines (script_of es) ++ more ->
  (closed cs' = false -> deferred cs' = waiting (tell (script_of es) e)) -> (is_final e = true -> closed cs' = true) ->
  ordered (es ++ [e]) cs'.
Proof.
  intros O Hc Ht Hs Ha Hl Hq Hd Hm Hlines Hw Hf.
  assert (written (es ++ [e]) = written es) as Hwr by (rewrite written_snoc; destruct e; by rewrite ?app_nil_r).
  split.
  - intros _. rewrite Hwr, Ha, Hm, script_snoc, Hlines, !app_assoc. f_equal. rewrite <- (app_assoc (written es)). apply (o_open _ _ O).
    destruct (stopped cs) eqn:E; [|done]. apply (o_closed _ _ O) in E. congruence.
  - rewrite Hwr, Ha. etrans; [apply (o_any _ _ O)|apply lines_mono].
  - rewrite script_snoc. exact Hw.
  - congruence.
  - rewrite final_snoc. intros [H|H]%orb_true_iff; [apply (o_final _ _ O) in H; congruence|auto].
  - eapply last_snoc; [exact O|by left].
  - by rewrite Hl.
  - by rewrite Hl.
Qed.

Lemma send_initial_ordered m state es cs : ordered es cs -> let '(cs', new, _) := send_initial m state cs in ordered (es ++ new) cs'.
Proof.
  intros O. unfold send_initial. destruct (closed cs) eqn:Hc; [by rewrite app_nil_r|]. destruct (negb _ || committing cs); [by rewrite app_nil_r|].
  destruct (enqueueLocked_cases cs (plain m) false) as [(-> & Hq & Hl)|(-> & _)]; [|rewrite app_nil_r; by apply ordered_fail].
  apply (ordered_take es cs _ (Initial m) [m]); cbn; try done.
  - destruct (stopped cs) eqn:E; [|done]. apply (o_closed _ _ O) in E. congruence.
  - rewrite length_app. cbn. lia.
  - apply O.
  - by rewrite omap_app.
  - intros _. by apply O.
Qed.
Lemma send_ordered m state es cs : ordered es cs -> let '(cs', new, _) := send m state cs in ordered (es ++ new) cs'.
Proof.
  intros O. unfold send. destruct (closed cs) eqn:Hc; [by rewrite app_nil_r|].
  assert (stopped cs = false) as Hs. { destruct (stopped cs) eqn:E; [|done]. apply (o_closed _ _ O) in E. congruence. }
  destruct state; try (by rewrite app_nil_r).
  - destruct (Nat.leb_spec (limit cs) (length (deferred cs))); [rewrite app_nil_r; by apply ordered_fail|].
    apply (ordered_take es cs _ (Deferred m) []); cbn; try done; [apply O| |by rewrite app_nil_r|by rewrite app_nil_r|].
    + rewrite length_app. cbn. lia.
    + intros _. f_equal. by apply O.
  - destruct (enqueueLocked_cases cs (plain m) false) as [(-> & Hq & Hl)|(-> & _)]; [|rewrite app_nil_r; by apply ordered_fail].
    apply (ordered_take es cs _ (Live m) [m]); cbn; try done; [rewrite length_app; cbn; lia|apply O|by rewrite omap_app|intros _; by apply O].
Qed.
Lemma begin_commit_ordered t state es cs : ordered es cs -> let '(cs', new, _) := begin_commit t state cs in ordered (es ++ new) cs'.
Proof.
  intros O. unfold begin_commit. destruct (closed cs || _ || _) eqn:Hc; [by rewrite app_nil_r|].
  assert (ordered es (cs <| committing := true |>)) as O' by (by eapply ordered_same).
  destruct (enqueueLocked_cases (cs <| committing := true |>) (barrier t) true) as [(-> & Hq & _)|(-> & _)]; rewrite app_nil_r; [|by apply ordered_fail].
  destruct O'. split; cbn in *; try done. 
  - intros H. rewrite omap_app. cbn. rewrite app_nil_r. auto.
  - rewrite length_app. cbn. lia.
Qed.
Lemma begin_close_ordered t final state es cs : ordered es cs -> let '(cs', new, _) := begin_close t final state cs in ordered (es ++ new) cs'.
Proof.
  intros O. unfold begin_close. destruct (closed cs) eqn:Hc; cbn [orb]; [by rewrite app_nil_r|]. destruct (bool_decide _); [by rewrite app_nil_r|].
  assert (stopped cs = false) as Hs. { destruct (stopped cs) eqn:E; [|done]. apply (o_closed _ _ O) in E. congruence. }
  destruct (enqueueLocked_cases (cs <| closed := true |> <| deferred := [] |>) (mkCommand final (Some t) true) true) as [(-> & Hq & _)|(-> & _)].
  - apply (ordered_take es cs _ (Final final) (option_list final)); cbn in *; try done; [rewrite length_app; cbn; lia|lia| |].
    + rewrite omap_app. by destruct final.
    + destruct final; cbn; by rewrite ?app_nil_r.
  - rewrite app_nil_r. apply ordered_fail. destruct O. split; cbn; try done. lia.
Qed.

Lemma splice_cases ms cs :
  splice cs ms = (cs <| queue := queue cs ++ map plain ms |>, None) /\ (length (queue cs ++ map plain ms) <= S (limit cs) \/ ms = [])%nat \/
  exists ms1 e, splice cs ms = (failLocked ErrControlOverflow (cs <| queue := queue cs ++ map plain ms1 |>), Some e) /\
    (length (queue cs ++ map plain ms1) <= S (limit cs) \/ ms1 = [])%nat /\ (limit cs < length (queue cs) + length ms)%nat.
Proof.
  revert cs. induction ms as [|m ms IH]; intros cs; cbn [splice map].
  - left. rewrite app_nil_r. split; [by destruct cs|by right].
  - destruct (enqueueLocked_cases cs (plain m) false) as [(-> & Hq & Hl)|(-> & Hl)].
    + destruct (IH (cs <| queue := queue cs ++ [plain m] |>)) as [[-> H]|(ms1 & e & -> & H & Hn)]; cbn in *.
      * left. rewrite <- app_assoc in *. split; [done|]. left. rewrite !length_app in *. cbn in *. destruct H as [H| ->]; cbn in *; lia.
      * right. exists (m :: ms1), e. cbn. rewrite <- app_assoc in *. split; [done|]. rewrite !length_app in *. cbn in *. split; [left; destruct H as [H| ->]; cbn in *; lia|lia].
    + right. exists [], ErrControlOverflow. cbn. rewrite app_nil_r. split; [by destruct cs|]. split; [by right|lia].
Qed.
Lemma omap_plain ms : omap c_message (map plain ms) = ms.
Proof. induction ms as [|m ms IH]; [done|]. cbn. by f_equal. Qed.
Lemma commit_ordered state es cs : ordered es cs -> let '(cs', new, _, _) := commit state cs in ordered (es ++ new) cs'.
Proof.
  intros O. unfold commit. assert (ordered es (cs <| committing := false |>)) as O' by (by eapply ordered_same).
  set (cs1 := cs <| committing := false |>) in *. destruct (negb _); cbn [orb]; [by rewrite app_nil_r|]. destruct (closed cs1) eqn:Hc; [by rewrite app_nil_r|].
  assert (stopped cs1 = false) as Hs. { destruct (stopped cs1) eqn:E; [|done]. apply (o_closed _ _ O') in E. congruence. }
  pose proof (o_queue _ _ O') as Hq. destruct (splice_cases (deferred cs1) cs1) as [[-> H]|(ms1 & e & -> & H & _)].
  - apply (ordered_take es cs1 _ Committed (deferred cs1)); cbn in *; try done.
    + destruct H as [H| E]; [done|]. rewrite E. cbn. by rewrite app_nil_r.
    + lia.
    + by rewrite omap_app, omap_plain.
    + f_equal. symmetry. by apply (o_deferred _ _ O').
  - rewrite app_nil_r. unfold failLocked. cbn [stopped]. change (stopped (cs1 <| queue := _ |>)) with (stopped cs1). rewrite Hs.
    destruct O'. split; cbn in *; try done; try lia. destruct H as [H| ->]; [done|]. cbn. by rewrite app_nil_r.
Qed.

Lemma work_ordered stop out es cs cs' new : ordered es cs -> work stop out cs = Some (cs', new) -> ordered (es ++ new) cs'.
Proof.
  intros O. assert (stopped cs = false -> written es ++ held (at_ cs) ++ omap c_message (queue cs) = lines (script_of es)) as Ho by apply O.
  pose proof (o_any _ _ O) as Hany. pose proof (o_queue _ _ O) as Hq.
  unfold work. destruct (at_ cs) as [| |c|c|c|c err|c err|c err|] eqn:Ea; cbn [held flight] in *.
  - intros [= <- <-]. rewrite app_nil_r. eapply ordered_same; [exact O|..]; cbn; rewrite ?Ea; by destruct (stopped cs).
  - destruct (queue cs) as [|c q] eqn:Eq.
    + destruct (stopped cs) eqn:Es; [|done]. intros [= <- <-]. rewrite app_nil_r. eapply ordered_same; [exact O|..]; cbn; rewrite ?Ea; done.
    + destruct (stopped cs && stop).
      * intros [= <- <-]. rewrite app_nil_r. eapply ordered_same; [exact O|..]; cbn; rewrite ?Ea; done.
      * intros [= <- <-]. rewrite app_nil_r. destruct O. split; cbn in *; try done; [|lia]. intros Hs. rewrite <- (Ho Hs). cbn. by destruct (c_message c).
  - intros [= <- <-]. rewrite app_nil_r. destruct (stopped cs) eqn:Es.
    + destruct O. split; cbn in *; try done. auto.
    + destruct O. split; cbn in *; try done. rewrite <- (Ho eq_refl). rewrite app_assoc. apply prefix_app_r. done.
  - destruct (c_message c) as [m|] eqn:Em; intros [= <- <-]; cbn [option_list] in *.
    + assert (held (match out with Some err => Failing c err | None => match c_done c with Some _ => Flushing c | None => Ending c None end end) = []) as Hh
        by (by destruct out, (c_done c)).
      assert (flight (match out with Some err => Failing c err | None => match c_done c with Some _ => Flushing c | None => Ending c None end end) = []) as Hfl
        by (by destruct out, (c_done c)).
      split; cbn [stopped closed deferred limit queue at_].
      * intros Hs. rewrite written_snoc, script_snoc. cbn [tell]. rewrite <- (Ho Hs), <- app_assoc. by destruct out, (c_done c).
      * rewrite written_snoc, script_snoc. cbn. rewrite Hfl, app_nil_r. done.
      * rewrite script_snoc. apply O.
      * apply O.
      * rewrite final_snoc, orb_false_r. apply O.
      * eapply last_snoc; [exact O|by right].
      * done.
      * apply O.
    + rewrite app_nil_r. eapply ordered_same; [exact O|..]; cbn; rewrite ?Ea; cbn; rewrite ?Em; destruct (c_done c); done.
  - intros [= <- <-]. rewrite app_nil_r. eapply ordered_same; [exact O|..]; cbn; rewrite ?Ea; destruct out; done.
  - intros [= <- <-]. rewrite app_nil_r. eapply (ordered_same _ (failLocked err cs)); [by apply ordered_fail|..]; cbn; try done.
    + unfold failLocked. destruct (stopped cs); cbn; by rewrite Ea.
    + unfold failLocked. destruct (stopped cs); cbn; by rewrite Ea.
  - intros [= <- <-]. rewrite app_nil_r. eapply ordered_same; [exact O|..]; cbn; rewrite ?Ea; destruct (c_final c); done.
  - intros [= <- <-]. rewrite app_nil_r. eapply ordered_same; [exact O|..]; cbn; rewrite ?Ea; destruct (c_done c), err, (c_final c); done.
  - done.
Qed.

Lemma await_ordered n how es cs cs' r : ordered es cs -> await n how cs = Some (cs', r) -> ordered es cs'.
Proof.
  intros O. destruct how; cbn.
  - intros (? & _ & [= <- <-])%bind_Some. done.
  - destruct (stopped cs); [|done]. by intros [= <- _].
  - intros [= <- _]. by apply ordered_fail.
Qed.

(** ** Every queue, after every step *)

Record transport_ok (t : ControlTransport) : Prop := {
  t_ordered : forall l cs, controls t !! l = Some cs -> ordered (events_of l (log t)) cs;
  t_fresh : forall l, (fresh t <= l)%nat -> controls t !! l = None /\ events_of l (log t) = [] }.

Lemma events_of_record l' l es log : events_of l' (log ++ map (fun e => (l, e)) es) = events_of l' log ++ if decide (l = l') then es else [].
Proof.
  unfold events_of. rewrite omap_app. f_equal. induction es as [|e es IH]; [by case_decide|]. cbn. rewrite IH. by case_decide.
Qed.
Lemma put_log l cs es t : log (put l cs es t) = log t ++ map (fun e => (l, e)) es.
Proof. done. Qed.
Lemma put_controls l cs es t : controls (put l cs es t) = <[l := cs]> (controls t).
Proof. done. Qed.
Lemma put_ok t l cs cs' es : transport_ok t -> controls t !! l = Some cs -> ordered (events_of l (log t) ++ es) cs' -> transport_ok (put l cs' es t).
Proof.
  intros [O F] Hl H. split.
  - intros l1 cs1. rewrite put_log, put_controls, events_of_record. destruct (decide (l = l1)) as [->|Hn].
    + rewrite lookup_insert_eq. by intros [= <-].
    + rewrite lookup_insert_ne, app_nil_r by done. apply O.
  - intros l1 H1. destruct (F l1 H1) as [F1 F2]. rewrite put_log, put_controls, events_of_record, F2. rewrite decide_False, lookup_insert_ne by congruence. done.
Qed.
Lemma set_task_ok n k t : transport_ok t -> transport_ok (set_task n k t).
Proof. intros [O F]. by split. Qed.
Lemma control_registry_ok t r : transport_ok t -> transport_ok (t <| registry := r |>).
Proof. intros [O F]. by split. Qed.
Lemma with_table_ok t b : transport_ok t -> transport_ok (t <| table := b |>).
Proof. intros [O F]. by split. Qed.
(** An event that is neither a message taken nor a write. *)
Lemma ordered_note es cs e : ordered es cs -> is_taken e = false -> (forall m, e <> Wrote m) -> ordered (es ++ [e]) cs.
Proof.
  intros O He Hw. assert (script_of (es ++ [e]) = script_of es) as Es by (rewrite script_snoc; by destruct e).
  assert (written (es ++ [e]) = written es) as Ew.
  { rewrite written_snoc. destruct e; rewrite ?app_nil_r; try done. by destruct (Hw m). }
  pose proof (last_snoc _ _ e O (or_intror He)). destruct O. split; rewrite ?Es, ?Ew; try done.
  rewrite final_snoc. destruct e; rewrite ?orb_false_r; done.
Qed.
Lemma withQueue_ok t rf fn : transport_ok t ->
  (forall state es cs, ordered es cs -> let '(cs', new, _) := fn state cs in ordered (es ++ new) cs') -> transport_ok (withQueue t rf fn).1.
Proof.
  intros T H. unfold withQueue. destruct (state_of _ _) as [state|]; [|done]. destruct (table t !! rf) as [l|]; [|done].
  destruct (controls t !! l) as [cs|] eqn:Hl; [|done]. specialize (H state (events_of l (log t)) cs (t_ordered _ T l cs Hl)).
  destruct (fn state cs) as [[cs' new] e]. by eapply put_ok.
Qed.

Lemma BeginSync_ok t rf lim : transport_ok t -> transport_ok (BeginSync t rf lim).1.
Proof.
  intros T. unfold BeginSync. destruct (lim <? 1); [done|]. destruct (state_of _ _) as [state|]; [|done]. destruct (negb _); [done|].
  destruct (table t !! rf); [done|]. destruct T as [O F].
  split; cbn -[events_of lookup insert].
  - intros l cs. destruct (decide (fresh t = l)) as [<-|Hn].
    + rewrite lookup_insert_eq. intros [= <-]. destruct (F (fresh t)) as [_ ->]; [done|]. apply ordered_new.
    + rewrite lookup_insert_ne by done. apply O.
  - intros l Hl. rewrite lookup_insert_ne by lia. apply F. lia.
Qed.

Ltac opened := repeat match goal with
  | H : mbind _ _ = Some _ |- _ => apply bind_Some in H as (? & ? & H)
  | H : Some _ = Some _ |- _ => injection H as <-
  | p : prod _ _ |- _ => destruct p
  end.

Lemma advance_ok n how k t t' : transport_ok t -> advance n how k t = Some t' -> transport_ok t'.
Proof.
  intros T H. destruct k as [rf l an|rf l an|rf l an|l en|en|rf l|rf r|l cl|l|r]; cbn in H; opened; try done;
    try (apply set_task_ok; first [done|destruct T; by split]).
  - apply set_task_ok. eapply put_ok; [done|eassumption|]. rewrite app_nil_r. eapply await_ordered; [|eassumption]. by apply T.
  - match goal with Hl : controls t !! l = Some ?cs |- _ => pose proof (commit_ordered (state_of (registry t) rf) _ cs (t_ordered _ T l cs Hl)) as Hc end.
    destruct (commit _ _) as [[[cs' es] e] active]. assert (transport_ok (put l cs' es t)) as T' by (by eapply put_ok).
    destruct active; [|injection H as <-; by apply set_task_ok]. destruct (session_entry _ _) as [[entry ?]|]; injection H as <-; apply set_task_ok; [destruct T'; by split|done].
  - apply set_task_ok. eapply put_ok; [done|eassumption|]. apply ordered_note; [by apply T|done|done].
  - apply set_task_ok. eapply put_ok; [done|eassumption|]. rewrite app_nil_r. eapply await_ordered; [|eassumption]. by apply T.
  - apply set_task_ok. eapply put_ok; [done|eassumption|]. rewrite app_nil_r. apply ordered_stop. by apply T.
  - apply set_task_ok. eapply put_ok; [done|eassumption|]. rewrite app_nil_r. eapply ordered_same; [by apply T|done..].
Qed.

Lemma act_ok a t t' : transport_ok t -> act a t = Some t' -> transport_ok t'.
Proof.
  intros T H. destruct a as [rf lim|rf m|rf m|n rf an|n rf fin|n rf|n rf|n how|l stop out|l|l|o]; cbn in H; opened; try done.
  - by apply BeginSync_ok.
  - unfold SendInitial. pose proof (withQueue_ok t rf (send_initial m) T (send_initial_ordered m)). by destruct (withQueue _ _ _).
  - unfold Send. pose proof (withQueue_ok t rf (send m) T (send_ordered m)). by destruct (withQueue _ _ _).
  - unfold CommitSyncAndAnnounce. pose proof (withQueue_ok t rf (begin_commit n) T (begin_commit_ordered n)). destruct (withQueue _ _ _). by apply set_task_ok.
  - unfold close. pose proof (withQueue_ok t rf (begin_close n fin) T (begin_close_ordered n fin)). destruct (withQueue _ _ _). by apply set_task_ok.
  - apply set_task_ok. destruct T; by split.
  - apply set_task_ok. destruct T; by split.
  - by eapply advance_ok.
  - eapply put_ok; [done|eassumption|]. eapply work_ordered; [by apply T|eassumption].
  - destruct (go_close _); [|done]. injection H as <-. eapply put_ok; [done|eassumption|]. rewrite app_nil_r. eapply ordered_same; [by apply T|done..].
  - destruct (go_failure _); [|done]. injection H as <-. eapply put_ok; [done|eassumption|]. apply ordered_note; [|done|done].
    eapply ordered_same; [by apply T|done..].
  - destruct o; cbn in H; try (injection H as <-; destruct T; by split). destruct (bool_decide _); [done|]. injection H as <-. destruct T; by split.
Qed.
Lemma run_ok acts t t' : transport_ok t -> run t acts = Some t' -> transport_ok t'.
Proof. revert t. induction acts as [|a acts IH]; intros t T H; cbn in H; [by injection H as <-|]. apply bind_Some in H as (t1 & H1 & H). eapply IH; [|exact H]. by eapply act_ok. Qed.
Lemma NewControlTransport_ok r : transport_ok (NewControlTransport r).
Proof. by split. Qed.
End Control.
