(* ===== verification/ControlSync.v ===== *)
(** * The phases of a session on the control transport

    While a session is synchronised its queue takes initial and deferred
    messages, after the commit live ones: the state of the session in the
    registry and the history of its queue go together, whatever interleaves. A
    session that is not stopped and whose sink keeps accepting gets everything.
    A sample transport ends the file. *)

From Stdlib Require Import ZArith Lia.
From stdpp Require Import base numbers list gmap countable fin_maps option.
From S2P Require Import Prelude Fields Messages Codec Registry Control.

Module ControlSync.
Import Control.

(** ** The states of the registry *)

Lemma state_of_Some r rf st : state_of r rf = Some st <->
  exists l e, sessions r !! SessionID rf = Some l /\ heap r !! l = Some e /\ ref e = rf /\ state e = st.
Proof.
  unfold state_of, Registry.Snapshot. split.
  - destruct (session_entry r (SessionID rf)) as [[l e]|] eqn:E; [|done]. case_bool_decide; [|done]. intros [= <-].
    apply session_entry_Some in E as [? ?]. by exists l, e.
  - intros (l & e & H1 & H2 & H3 & <-). rewrite (proj2 (session_entry_Some r (SessionID rf) l e)) by done. by rewrite bool_decide_eq_true_2.
Qed.

(** The addresses from [next] on are free. *)
Definition heap_fresh (r : Registry) : Prop := forall l, is_Some (heap r !! l) -> (l < next r)%nat.

(** No session becomes younger, and no session becomes active. *)
Record aged (r r' : Registry) : Prop := {
  ag_syncing : forall rf, state_of r' rf = Some StateSyncing -> state_of r rf = Some StateSyncing;
  ag_active : forall rf, state_of r' rf = Some StateActive -> state_of r rf = Some StateActive;
  ag_there : forall rf, is_Some (state_of r' rf) -> is_Some (state_of r rf);
  ag_fresh : heap_fresh r -> heap_fresh r' }.

Lemma write_aged r l e e' : heap r !! l = Some e -> ref e' = ref e -> state e' = state e \/ state e' = StateClosing \/ state e' = StateClosed ->
  aged r (write_entry l e' r).
Proof.
  intros He Hr Hs. assert (forall rf st, state_of (write_entry l e' r) rf = Some st ->
    state_of r rf = Some st \/ is_Some (state_of r rf) /\ (st = StateClosing \/ st = StateClosed)) as H.
  { intros rf st (l1 & e1 & H1 & H2 & H3 & H4)%state_of_Some. cbn -[lookup insert] in H1, H2. destruct (decide (l = l1)) as [<-|Hn].
    - rewrite lookup_insert_eq in H2. injection H2 as <-. destruct Hs as [Hs|Hs].
      + left. apply state_of_Some. exists l, e. repeat split; [done..|congruence|congruence].
      + right. split; [|destruct Hs; subst; auto; right; congruence]. exists (state e). apply state_of_Some. exists l, e. repeat split; [done..|congruence].
    - rewrite lookup_insert_ne in H2 by done. left. apply state_of_Some. by exists l1, e1. }
  split.
  - intros rf [?|[_ [?|?]]]%H; done.
  - intros rf [?|[_ [?|?]]]%H; done.
  - intros rf [st [?|[? _]]%H]; [by eexists|done].
  - intros F l1 [x Hx]. cbn -[lookup insert] in *. destruct (decide (l = l1)) as [<-|Hn]; [apply F; by eexists|]. rewrite lookup_insert_ne in Hx by done. apply F. by eexists.
Qed.
Lemma aged_refl r : aged r r.
Proof. by split. Qed.
Lemma aged_trans r1 r2 r3 : aged r1 r2 -> aged r2 r3 -> aged r1 r3.
Proof. intros [] []. split; auto. Qed.
(** Entries that are forgotten. *)
Lemma fewer_aged r r' : heap r' = heap r -> next r' = next r -> (forall sid l, sessions r' !! sid = Some l -> sessions r !! sid = Some l) -> aged r r'.
Proof.
  intros Hh Hn Hs. assert (forall rf st, state_of r' rf = Some st -> state_of r rf = Some st) as H.
  { intros rf st (l & e & H1 & H2 & H3)%state_of_Some. apply state_of_Some. exists l, e. rewrite Hh in H2. auto. }
  split; [auto|auto| |].
  - intros rf [st ?%H]. by eexists.
  - intros F l Hl. rewrite Hn. apply F. by rewrite <- Hh.
Qed.
Lemma registry_ops_aged r : (forall id g, aged r (RegisterEdge r id g).1) /\ (forall id g, aged r (RemoveEdge r id g).1) /\
  (forall rf, aged r (beginClose r rf).1) /\ (forall rf, aged r (unbind r rf).1) /\ (forall l, aged r (set_announced r l)).
Proof.
  repeat split_and.
  - intros id g. unfold RegisterEdge. destruct (_ || _); [apply aged_refl|]. destruct (edges r !! id); [destruct (negb _)|]; try apply aged_refl; by apply fewer_aged.
  - intros id g. unfold RemoveEdge. destruct (edges r !! id); [|apply aged_refl]. destruct (negb _); [apply aged_refl|]. apply fewer_aged; [done..|].
    intros sid l [H _]%map_lookup_filter_Some. done.
  - intros rf. unfold beginClose. destruct (session_entry r (SessionID rf)) as [[l e]|] eqn:E; [|apply aged_refl]. apply session_entry_Some in E as [_ E].
    destruct (negb _); [apply aged_refl|]. destruct (state e); try apply aged_refl; eapply write_aged; [done|done|auto|done|done|auto].
  - intros rf. unfold unbind. destruct (session_entry r (SessionID rf)) as [[l e]|] eqn:E; [|apply aged_refl]. apply session_entry_Some in E as [_ E].
    destruct (negb _); [apply aged_refl|]. eapply aged_trans; [eapply (write_aged r l e (e <| state := StateClosed |>)); [done|done|auto]|].
    apply fewer_aged; [done..|]. intros sid l1. cbn -[lookup delete]. by intros [_ H]%lookup_delete_Some.
  - intros l. unfold set_announced. destruct (heap r !! l) as [e|] eqn:E; [|apply aged_refl]. eapply write_aged; [done|done|auto].
Qed.

Lemma bind_states r rf id : heap_fresh r -> heap_fresh (Bind r rf id).1 /\
  (forall rf' st, state_of (Bind r rf id).1 rf' = Some st -> state_of r rf' = Some st \/ rf' = rf /\ st = StateSyncing).
Proof.
  intros F. unfold Bind. destruct (negb (Valid rf)); [by split; [|left]|]. destruct (edges r !! id); [|by split; [|left]].
  destruct (session_entry r (SessionID rf)) as [[l e]|] eqn:E; [destruct (_ && _); by split; [|left]|]. split.
  - intros l [x Hx]. cbn -[lookup insert] in *. destruct (decide (next r = l)) as [<-|Hn]; [lia|]. rewrite lookup_insert_ne in Hx by done.
    assert (l < next r)%nat by (apply F; by eexists). lia.
  - intros rf' st (l & e & H1 & H2 & H3 & H4)%state_of_Some. cbn -[lookup insert] in H1, H2. destruct (decide (SessionID rf = SessionID rf')) as [Es|Es].
    + rewrite Es, lookup_insert_eq in H1. injection H1 as <-. rewrite lookup_insert_eq in H2. injection H2 as <-. by right.
    + rewrite lookup_insert_ne in H1 by done. left. apply state_of_Some. destruct (decide (next r = l)) as [<-|Hn].
      * rewrite lookup_insert_eq in H2. injection H2 as <-. cbn in H3. by subst.
      * rewrite lookup_insert_ne in H2 by done. by exists l, e.
Qed.
Lemma activate_states r rf l e : session_entry r (SessionID rf) = Some (l, e) -> state_of r rf = Some StateSyncing ->
  (heap_fresh r -> heap_fresh (activate r l)) /\ (forall rf' st, state_of (activate r l) rf' = Some st -> rf' = rf /\ st = StateActive \/ rf' <> rf /\ state_of r rf' = Some st).
Proof.
  intros [Hl He]%session_entry_Some (l1 & e1 & H1 & H2 & H3 & H4)%state_of_Some. assert (l1 = l) as -> by congruence. assert (e1 = e) as -> by congruence.
  unfold activate. rewrite He. split.
  - intros F l1 [x Hx]. cbn -[lookup insert] in *. destruct (decide (l = l1)) as [<-|Hn]; [apply F; by eexists|]. rewrite lookup_insert_ne in Hx by done. apply F. by eexists.
  - intros rf' st (l1 & e1 & K1 & K2 & K3 & K4)%state_of_Some. cbn -[lookup insert] in K1, K2. destruct (decide (l = l1)) as [<-|Hn].
    + rewrite lookup_insert_eq in K2. injection K2 as <-. cbn in *. left. subst. done.
    + rewrite lookup_insert_ne in K2 by done. right. split; [|apply state_of_Some; by exists l1, e1]. intros ->. congruence.
Qed.

(** ** Phases *)

Definition is_early (e : event) : bool := match e with Initial _ | Deferred _ => true | _ => false end.
Definition is_live (e : event) : bool := match e with Live _ => true | _ => false end.
(** What a queue took: messages of the synchronisation; after the commit, if
    there was one, live messages; perhaps a last one. *)
Record phases (es : list event) (ins : list event) (committed : bool) (lives fin : list event) : Prop := {
  ph_ins : Forall is_early ins;
  ph_lives : Forall is_live lives;
  ph_fin : fin = [] \/ exists m, fin = [Final m];
  ph_taken : filter is_taken es = ins ++ (if committed then Committed :: lives else []) ++ fin }.
Definition in_phases (es : list event) : Prop := exists ins committed lives fin, phases es ins committed lives fin.

Lemma in_phases_note es e : in_phases es -> is_taken e = false -> in_phases (es ++ [e]).
Proof.
  intros (ins & c & lives & fin & []) He. exists ins, c, lives, fin. split; try done.
  rewrite (list.filter_app is_taken), (list.filter_cons_False is_taken e), list.filter_nil, app_nil_r by (rewrite He; by intros []). done.
Qed.
Lemma committed_phases es ins c lives fin : phases es ins c lives fin -> (Committed ∈ es <-> c = true).
Proof.
  intros [Hi Hl Hf Ht]. assert (Committed ∈ es <-> Committed ∈ filter is_taken es) as ->.
  { rewrite (list_elem_of_filter is_taken). split; [|by intros [_ ?]]. by intros ?. }
  rewrite Ht, !elem_of_app. assert (Committed ∉ ins) as H1 by (intros H; by apply (proj1 (list.Forall_forall _ _) Hi) in H).
  assert (Committed ∉ fin) as H2 by (destruct Hf as [-> |[m ->]]; [set_solver|]; by intros [=]%list_elem_of_singleton).
  destruct c; [set_solver|]. split; [|done]. intros [?|[?%elem_of_nil|?]]; done.
Qed.
(** A queue that is open has no last message yet. *)
Lemma open_phases es cs : ordered es cs -> closed cs = false -> in_phases es -> exists ins c lives, phases es ins c lives [].
Proof.
  intros O Hc (ins & c & lives & fin & P). exists ins, c, lives. destruct (ph_fin _ _ _ _ _ P) as [-> |[m ->]]; [done|].
  assert (existsb is_final es = true) as H; [|apply (o_final _ _ O) in H; congruence]. apply existsb_exists. exists (Final m). split; [|done].
  apply list_elem_of_In, (list_elem_of_filter is_taken). rewrite (ph_taken _ _ _ _ _ P). set_solver.
Qed.
Lemma take_phases es cs e : ordered es cs -> closed cs = false -> in_phases es -> is_taken e = true ->
  (is_early e = true \/ e = Committed -> Committed ∉ es) -> (is_live e = true -> Committed ∈ es) -> in_phases (es ++ [e]).
Proof.
  intros O Hc P He H1 H2. destruct (open_phases es cs O Hc P) as (ins & c & lives & P'). pose proof (committed_phases _ _ _ _ _ P') as Hcm.
  assert (filter is_taken (es ++ [e]) = ins ++ (if c then Committed :: lives else []) ++ [e]) as Hf.
  { rewrite (list.filter_app is_taken), (list.filter_cons_True is_taken e), list.filter_nil by (by rewrite He). rewrite (ph_taken _ _ _ _ _ P'), app_nil_r. by rewrite <- app_assoc. }
  destruct P' as [Hi Hl _ _]. destruct e as [m|m| |m|m|m| |err]; try done.
  - assert (c = false) as -> by (destruct c; [|done]; exfalso; apply H1; [by left|by apply Hcm]).
    exists (ins ++ [Initial m]), false, [], []. split; [by apply Forall_app_2; [|constructor]|done|by left|]. rewrite Hf. cbn. by rewrite app_nil_r.
  - assert (c = false) as -> by (destruct c; [|done]; exfalso; apply H1; [by left|by apply Hcm]).
    exists (ins ++ [Deferred m]), false, [], []. split; [by apply Forall_app_2; [|constructor]|done|by left|]. rewrite Hf. cbn. by rewrite app_nil_r.
  - assert (c = false) as -> by (destruct c; [|done]; exfalso; apply H1; [by right|by apply Hcm]).
    exists ins, true, [], []. split; [done|done|by left|]. done.
  - assert (c = true) as -> by (apply Hcm; auto). exists ins, true, (lives ++ [Live m]), []. split; [done|by apply Forall_app_2; [|constructor]|by left|].
    rewrite Hf. cbn. by rewrite app_nil_r.
  - exists ins, c, lives, [Final m]. split; [done|done|right; by eexists|done].
Qed.

Lemma enqueueLocked_ref cs cmd b : cs_ref (enqueueLocked cs cmd b).1 = cs_ref cs.
Proof. destruct (enqueueLocked_cases cs cmd b) as [(-> & _)|(-> & _)]; [done|]. cbn. unfold failLocked. by destruct (stopped cs). Qed.
Lemma failLocked_ref err cs : cs_ref (failLocked err cs) = cs_ref cs.
Proof. unfold failLocked. by destruct (stopped cs). Qed.

(** What a section adds to the history fits the state of the session. *)
Definition fits (fn : SessionState -> controlSession -> controlSession * list event * option control_error) : Prop :=
  forall state es cs, ordered es cs -> in_phases es -> (state = StateSyncing -> Committed ∉ es) -> (state = StateActive -> Committed ∈ es) ->
  let '(cs', new, _) := fn state cs in cs_ref cs' = cs_ref cs /\ in_phases (es ++ new) /\ Committed ∉ new.

Lemma send_initial_fits m : fits (send_initial m).
Proof.
  intros state es cs O P Hs Ha. unfold send_initial. destruct (closed cs) eqn:Hc; [rewrite app_nil_r; set_solver|].
  destruct (bool_decide (state = StateSyncing)) eqn:Hst; [apply bool_decide_eq_true_1 in Hst|cbn; rewrite app_nil_r; set_solver].
  destruct (committing cs); cbn [negb orb]; [rewrite app_nil_r; set_solver|]. pose proof (enqueueLocked_ref cs (plain m) false) as Hr.
  destruct (enqueueLocked cs (plain m) false) as [cs' [e|]]; [rewrite app_nil_r; set_solver|]. split; [done|]. split; [|by intros [=]%list_elem_of_singleton].
  apply (take_phases es cs); auto. done.
Qed.
Lemma send_fits m : fits (send m).
Proof.
  intros state es cs O P Hs Ha. unfold send. destruct (closed cs) eqn:Hc; [rewrite app_nil_r; set_solver|]. destruct state; try (rewrite app_nil_r; set_solver).
  - destruct (_ <=? _)%nat; [rewrite app_nil_r, failLocked_ref; set_solver|]. split; [done|]. split; [|by intros [=]%list_elem_of_singleton].
    apply (take_phases es cs); auto. done.
  - pose proof (enqueueLocked_ref cs (plain m) false) as Hr. destruct (enqueueLocked cs (plain m) false) as [cs' [e|]]; [rewrite app_nil_r; set_solver|].
    split; [done|]. split; [|by intros [=]%list_elem_of_singleton]. apply (take_phases es cs); auto. by intros [|].
Qed.
Lemma begin_commit_fits t : fits (begin_commit t).
Proof.
  intros state es cs O P Hs Ha. unfold begin_commit. destruct (closed cs || _ || _); [rewrite app_nil_r; set_solver|].
  pose proof (enqueueLocked_ref (cs <| committing := true |>) (barrier t) true) as Hr. destruct (enqueueLocked _ _ _) as [cs' e]. rewrite app_nil_r. set_solver.
Qed.
Lemma begin_close_fits t final : fits (begin_close t final).
Proof.
  intros state es cs O P Hs Ha. unfold begin_close. destruct (closed cs) eqn:Hc; cbn [orb]; [rewrite app_nil_r; set_solver|].
  destruct (bool_decide _); [rewrite app_nil_r; set_solver|].
  pose proof (enqueueLocked_ref (cs <| closed := true |> <| deferred := [] |>) (mkCommand final (Some t) true) true) as Hr.
  destruct (enqueueLocked _ _ _) as [cs' [e|]]; [rewrite app_nil_r; set_solver|]. split; [done|]. split; [|by intros [=]%list_elem_of_singleton].
  apply (take_phases es cs); auto; [|done]. by intros [|].
Qed.
Lemma work_fits stop out es cs cs' new : work stop out cs = Some (cs', new) -> in_phases es -> cs_ref cs' = cs_ref cs /\ in_phases (es ++ new) /\ Committed ∉ new.
Proof.
  intros H P. assert (cs_ref cs' = cs_ref cs /\ (new = [] \/ exists m, new = [Wrote m])) as [Hr [-> |[m ->]]].
  { revert H. unfold work. destruct (at_ cs) as [| |c|c|c|c err|c err|c err|]; try (intros [= <- <-]; cbn; by split; [|left]).
    - destruct (queue cs); [destruct (stopped cs)|destruct (stopped cs && stop)]; try done; intros [= <- <-]; by split; [|left].
    - destruct (c_message c); intros [= <- <-]; (split; [done|]); [right; by eexists|by left].
    - intros [= <- <-]. cbn. rewrite failLocked_ref. by split; [|left].
    - intros [= <- <-]. cbn. by destruct (c_final c); split; [|left| |left].
    - intros [= <- <-]. cbn. by destruct (c_done c); split; [|left| |left].
 }
  - rewrite app_nil_r. set_solver.
  - split; [done|]. split; [by apply in_phases_note|]. by intros [=]%list_elem_of_singleton.
Qed.

(** ** The registry and the queues together *)

Definition committing_at (k : task) : option (SessionRef * nat) :=
  match k with AwaitCommit rf l _ | Transition rf l _ | Section rf l _ => Some (rf, l) | _ => None end.

Record sync_ok (t : ControlTransport) : Prop := {
  k_ok : transport_ok t;
  k_fresh : heap_fresh (registry t);
  k_used : forall rf, is_Some (state_of (registry t) rf) -> rf ∈ used t;
  k_table : forall rf l, table t !! rf = Some l -> exists cs, controls t !! l = Some cs /\ cs_ref cs = rf;
  k_one : forall l1 l2 cs1 cs2, controls t !! l1 = Some cs1 -> controls t !! l2 = Some cs2 -> cs_ref cs1 = cs_ref cs2 -> l1 = l2;
  k_ref : forall l cs, controls t !! l = Some cs -> cs_ref cs ∈ used t;
  k_syncing : forall l cs, controls t !! l = Some cs -> Committed ∈ events_of l (log t) -> state_of (registry t) (cs_ref cs) <> Some StateSyncing;
  k_active : forall l cs, controls t !! l = Some cs -> state_of (registry t) (cs_ref cs) = Some StateActive -> Committed ∈ events_of l (log t);
  k_tasks : forall n k rf l, tasks t !! n = Some k -> committing_at k = Some (rf, l) -> exists cs, controls t !! l = Some cs /\ cs_ref cs = rf;
  k_phases : forall l cs, controls t !! l = Some cs -> in_phases (events_of l (log t)) }.

(** A queue changes, and not by a commit. *)
Lemma put_sync t l cs cs' new : sync_ok t -> controls t !! l = Some cs -> cs_ref cs' = cs_ref cs -> ordered (events_of l (log t) ++ new) cs' ->
  in_phases (events_of l (log t) ++ new) -> Committed ∉ new -> sync_ok (put l cs' new t).
Proof.
  intros [T F U B O R S A K P] Hl Hr Ho Hp Hn.
  assert (forall l1 cs1, controls (put l cs' new t) !! l1 = Some cs1 -> exists cs0, controls t !! l1 = Some cs0 /\ cs_ref cs0 = cs_ref cs1) as Hb.
  { intros l1 cs1. rewrite put_controls. destruct (decide (l = l1)) as [<-|]; [rewrite lookup_insert_eq|rewrite lookup_insert_ne by done]; intros H; simplify_eq; eauto. }
  assert (forall l1 rf, (exists cs0, controls t !! l1 = Some cs0 /\ cs_ref cs0 = rf) -> exists cs1, controls (put l cs' new t) !! l1 = Some cs1 /\ cs_ref cs1 = rf) as Hf.
  { intros l1 rf (cs0 & H1 & H2). rewrite put_controls. destruct (decide (l = l1)) as [<-|]; [rewrite lookup_insert_eq|rewrite lookup_insert_ne by done]; simplify_eq; eauto. }
  assert (forall l1, Committed ∈ events_of l1 (log (put l cs' new t)) <-> Committed ∈ events_of l1 (log t)) as Hc.
  { intros l1. rewrite put_log, events_of_record. case_decide; set_solver. }
  split; try done.
  - by eapply put_ok.
  - intros rf l1 H. by apply Hf, B.
  - intros l1 l2 cs1 cs2 (c1 & K1 & E1)%Hb (c2 & K2 & E2)%Hb E. apply (O l1 l2 c1 c2); congruence.
  - intros l1 cs1 (c1 & K1 & <-)%Hb. by eapply R.
  - intros l1 cs1 (c1 & K1 & <-)%Hb. rewrite Hc. by apply S.
  - intros l1 cs1 (c1 & K1 & <-)%Hb. rewrite Hc. by apply A.
  - intros n k rf l1 H1 H2. by eapply Hf, K.
  - intros l1 cs1 H. rewrite put_log, events_of_record. case_decide; [by subst|]. rewrite app_nil_r. rewrite put_controls, lookup_insert_ne in H by done. by eapply P.
Qed.
(** The registry ages. *)
Lemma aged_sync t r : sync_ok t -> aged (registry t) r -> sync_ok (t <| registry := r |>).
Proof. intros [T F U B O R S A K P] [G1 G2 G3 G4]. split; cbn; try done; [by destruct T; split|auto|auto| |]; intros l cs H; cbn in H; [intros Hc ?%G1; by eapply S|intros ?%G2; by eapply A]. Qed.
Lemma task_sync n k t : sync_ok t -> (forall rf l, committing_at k = Some (rf, l) -> exists cs, controls t !! l = Some cs /\ cs_ref cs = rf) -> sync_ok (set_task n k t).
Proof.
  intros [T F U B O R S A K P] H. split; try done; [by apply set_task_ok|]. intros n1 k1 rf l. cbn -[lookup insert].
  destruct (decide (n = n1)) as [<-|]; [rewrite lookup_insert_eq; intros [= <-]; apply H|rewrite lookup_insert_ne by done; apply K].
Qed.
Lemma take_sync t rf : sync_ok t -> sync_ok (take t rf).1.
Proof. intros [T F U B O R S A K P]. split; try done; [by destruct T; split|]. intros rf1 l. cbn -[lookup delete]. intros [_ H]%lookup_delete_Some. by apply B. Qed.

Lemma withQueue_sync t rf fn : sync_ok t -> fits fn -> (forall state es cs, ordered es cs -> let '(cs', new, _) := fn state cs in ordered (es ++ new) cs') ->
  sync_ok (withQueue t rf fn).1 /\ (forall l, (withQueue t rf fn).2 = Ok l -> exists cs, controls (withQueue t rf fn).1 !! l = Some cs /\ cs_ref cs = rf).
Proof.
  intros Y Hfit Hord. unfold withQueue. destruct (state_of _ _) as [state|] eqn:Hst; [|done]. destruct (table t !! rf) as [l|] eqn:Htb; [|done].
  destruct (k_table t Y rf l Htb) as (cs & Hl & Hr). rewrite Hl.
  pose proof (Hord state (events_of l (log t)) cs (t_ordered _ (k_ok _ Y) l cs Hl)) as H1.
  pose proof (Hfit state (events_of l (log t)) cs (t_ordered _ (k_ok _ Y) l cs Hl) (k_phases _ Y l cs Hl)) as H2.
  destruct (fn state cs) as [[cs' new] e]. destruct H2 as (H2 & H3 & H4).
  - intros -> Hc. eapply (k_syncing t Y l cs Hl Hc). by rewrite Hr.
  - intros ->. apply (k_active t Y l cs Hl). by rewrite Hr.
  - split; [by eapply put_sync|]. intros l1. cbn [snd]. destruct e; intros [= <-]. exists cs'. cbn [fst]. rewrite put_controls, lookup_insert_eq, H2. done.
Qed.

Lemma begin_sync t rf lim : sync_ok t -> (forall l cs, controls t !! l = Some cs -> cs_ref cs <> rf) -> sync_ok (BeginSync t rf lim).1.
Proof.
  intros Y Hnew. pose proof (BeginSync_ok t rf lim (k_ok _ Y)) as T'. revert T'. unfold BeginSync. destruct (lim <? 1); [done|].
  destruct (state_of (registry t) rf) as [state|] eqn:Hst; [|done]. destruct (negb _) eqn:Hb; [done|]. apply negb_false_iff, bool_decide_eq_true_1 in Hb. subst state.
  destruct (table t !! rf) eqn:Htb; [done|]. intros T'. pose proof Y as [T F U B O R S A K P].
  destruct (t_fresh _ T (fresh t) (le_n _)) as [Hno Hev].
  assert (forall l cs, <[fresh t := new_session rf (Z.to_nat lim)]> (controls t) !! l = Some cs ->
    l = fresh t /\ cs = new_session rf (Z.to_nat lim) \/ l <> fresh t /\ controls t !! l = Some cs) as Hc.
  { intros l cs. destruct (decide (fresh t = l)) as [<-|]; [rewrite lookup_insert_eq|rewrite lookup_insert_ne by done]; intros H; simplify_eq; auto. }
  assert (forall l rf1, (exists cs, controls t !! l = Some cs /\ cs_ref cs = rf1) -> exists cs, <[fresh t := new_session rf (Z.to_nat lim)]> (controls t) !! l = Some cs /\ cs_ref cs = rf1) as Hf.
  { intros l rf1 (cs & H1 & H2). exists cs. rewrite lookup_insert_ne by congruence. done. }
  split; cbn [fst]; try done; cbn -[events_of lookup insert].
  - intros rf1 l. destruct (decide (rf = rf1)) as [<-|]; [rewrite lookup_insert_eq; intros [= <-]; exists (new_session rf (Z.to_nat lim)); by rewrite lookup_insert_eq|].
    rewrite lookup_insert_ne by done. intros H. by apply Hf, B.
  - intros l1 l2 cs1 cs2 [[-> ->]|[N1 H1]]%Hc [[-> ->]|[N2 H2]]%Hc E; cbn in E; [done|by destruct (Hnew l2 cs2)|by destruct (Hnew l1 cs1)|by eapply O].
  - intros l cs [[-> ->]|[N1 H1]]%Hc; [apply U; by eexists|by eapply R].
  - intros l cs [[-> ->]|[N1 H1]]%Hc; [rewrite Hev; by intros ?%elem_of_nil|by apply S].
  - intros l cs [[-> ->]|[N1 H1]]%Hc; [cbn; congruence|by apply A].
  - intros n k rf1 l H1 H2. by eapply Hf, K.
  - intros l cs [[-> ->]|[N1 H1]]%Hc; [rewrite Hev; by exists [], false, [], []; split; [| |left|]|by eapply P].
Qed.

(** The second section of a commit: nothing happens to the order, or the
    queue takes the deferred messages and the session becomes active. *)
Lemma commit_cases state cs : let '(cs', new, e, active) := commit state cs in cs_ref cs' = cs_ref cs /\
  (new = [] /\ active = false \/ new = [Committed] /\ active = true /\ state = Some StateSyncing /\ closed cs = false).
Proof.
  unfold commit. destruct (bool_decide (state = Some StateSyncing)) eqn:Hst; cbn [negb orb]; [|by split; [|left]]. apply bool_decide_eq_true_1 in Hst.
  change (closed (cs <| committing := false |>)) with (closed cs). destruct (closed cs) eqn:Hc; [by split; [|left]|].
  destruct (splice_cases (deferred (cs <| committing := false |>)) (cs <| committing := false |>)) as [[-> _]|(ms & e & -> & _)].
  - split; [done|]. by right.
  - rewrite failLocked_ref. by split; [|left].
Qed.

Lemma section_sync t rf l cs entry : sync_ok t -> controls t !! l = Some cs -> cs_ref cs = rf -> session_entry (registry t) (SessionID rf) = Some entry ->
  let '(cs', new, e, active) := commit (state_of (registry t) rf) cs in
  sync_ok (if active then (put l cs' new t) <| registry := activate (registry t) entry.1 |> else put l cs' new t).
Proof.
  intros Y Hl Hr He. pose proof (commit_ordered (state_of (registry t) rf) _ cs (t_ordered _ (k_ok _ Y) l cs Hl)) as Ho.
  pose proof (commit_cases (state_of (registry t) rf) cs) as Hc. destruct (commit _ _) as [[[cs' new] e] active].
  destruct Hc as [Hr' [[-> ->]|(-> & -> & Hst & Hcl)]].
  { eapply put_sync; eauto; [|set_solver]. rewrite app_nil_r. by eapply (k_phases t Y). }
  pose proof Y as [T F U B O R S A K P]. destruct entry as [en ent]. destruct (activate_states _ _ _ _ He Hst) as [Gf Gs].
  assert (Committed ∉ events_of l (log t)) as Hnc. { intros H. eapply (S l cs); [done|done|]. by rewrite Hr. }
  assert (forall l1 cs1, <[l := cs']> (controls t) !! l1 = Some cs1 -> exists cs0, controls t !! l1 = Some cs0 /\ cs_ref cs0 = cs_ref cs1) as Hb.
  { intros l1 cs1. destruct (decide (l = l1)) as [<-|]; [rewrite lookup_insert_eq|rewrite lookup_insert_ne by done]; intros H; simplify_eq; eauto. }
  assert (forall l1 rf1, (exists cs0, controls t !! l1 = Some cs0 /\ cs_ref cs0 = rf1) -> exists cs1, <[l := cs']> (controls t) !! l1 = Some cs1 /\ cs_ref cs1 = rf1) as Hf.
  { intros l1 rf1 (cs0 & H1 & H2). destruct (decide (l = l1)) as [<-|]; [rewrite lookup_insert_eq|rewrite lookup_insert_ne by done]; simplify_eq; eauto. }
  assert (forall l1, events_of l1 (log (put l cs' [Committed] t)) = events_of l1 (log t) ++ if decide (l = l1) then [Committed] else []) as Hev.
  { intros l1. by rewrite put_log, events_of_record. }
  assert (transport_ok (put l cs' [Committed] t)) as T' by (by eapply put_ok).
  split; cbn [fst].
  - destruct T'; by split.
  - by apply Gf.
  - intros rf1 [st [[-> _]|[_ H]]%Gs]; apply U; by eexists.
  - intros rf1 l1 H. by apply Hf, B.
  - intros l1 l2 cs1 cs2 (c1 & K1 & E1)%Hb (c2 & K2 & E2)%Hb E. apply (O l1 l2 c1 c2); congruence.
  - intros l1 cs1 (c1 & K1 & <-)%Hb. by eapply R.
  - intros l1 cs1 (c1 & K1 & <-)%Hb. change (Committed ∈ events_of l1 (log (put l cs' [Committed] t)) -> state_of (activate (registry t) en) (cs_ref c1) <> Some StateSyncing).
    rewrite Hev. intros Hc [[_ ?]|[Hn H]]%Gs; [done|]. case_decide as Hd; [subst l1; assert (c1 = cs) as -> by congruence; done|]. rewrite app_nil_r in Hc. by eapply S.
  - intros l1 cs1 (c1 & K1 & <-)%Hb. change (state_of (activate (registry t) en) (cs_ref c1) = Some StateActive -> Committed ∈ events_of l1 (log (put l cs' [Committed] t))).
    rewrite Hev. intros [[E _]|[Hn H]]%Gs; [|apply elem_of_app; left; by eapply A]. assert (l1 = l) as -> by (eapply O; [exact K1|exact Hl|congruence]).
    rewrite decide_True by done. set_solver.
  - intros n k rf1 l1 H1 H2. by eapply Hf, K.
  - intros l1 cs1 (c1 & K1 & _)%Hb. change (in_phases (events_of l1 (log (put l cs' [Committed] t)))). rewrite Hev.
    case_decide as Hd; [subst l1|rewrite app_nil_r; by eapply P]. apply (take_phases _ cs); auto; [by apply T|by eapply P|done].
Qed.

(** A queue whose order does not change. *)
Lemma same_sync t l cs cs' : sync_ok t -> controls t !! l = Some cs -> cs_ref cs' = cs_ref cs -> ordered (events_of l (log t)) cs' -> sync_ok (put l cs' [] t).
Proof. intros Y Hl Hr Ho. eapply put_sync; eauto; [by rewrite app_nil_r|rewrite app_nil_r; by eapply (k_phases t Y)|set_solver]. Qed.
Lemma note_sync t l cs cs' e : sync_ok t -> controls t !! l = Some cs -> cs_ref cs' = cs_ref cs -> ordered (events_of l (log t) ++ [e]) cs' ->
  is_taken e = false -> sync_ok (put l cs' [e] t).
Proof. intros Y Hl Hr Ho He. eapply put_sync; eauto; [apply in_phases_note; [by eapply (k_phases t Y)|done]|]. by intros <-%list_elem_of_singleton. Qed.
Lemma await_ref n how cs cs' r : await n how cs = Some (cs', r) -> cs_ref cs' = cs_ref cs.
Proof. destruct how; cbn; [by intros (? & _ & [= <- _])%bind_Some|destruct (stopped cs); by intros [= <- _]|intros [= <- _]; apply failLocked_ref]. Qed.

Lemma advance_sync n how k t t' : sync_ok t -> tasks t !! n = Some k -> advance n how k t = Some t' -> sync_ok t'.
Proof.
  intros Y Hn H. destruct k as [rf l an|rf l an|rf l an|l en|en|rf l|rf r|l cl|l|r]; cbn in H; opened; try done.
  - match goal with Ha : await _ _ _ = Some _, Hl : controls t !! l = Some _ |- _ => pose proof (await_ref _ _ _ _ _ Ha) as Hr; pose proof (await_ordered _ _ _ _ _ _ (t_ordered _ (k_ok _ Y) l _ Hl) Ha) as Ho end.
    destruct (k_tasks t Y n _ rf l Hn eq_refl) as (cs & Hl & Hcr). simplify_eq. apply task_sync; [by eapply same_sync|].
    intros rf1 l1. destruct o; [done|]. intros [= <- <-]. rewrite put_controls, lookup_insert_eq. eexists. split; [done|]. simplify_eq. congruence.
  - destruct (k_tasks t Y n _ rf l Hn eq_refl) as (cs & Hl & Hcr). apply task_sync; [done|]. intros rf1 l1. destruct (transition _ _); intros [= <- <-]. eauto.
  - destruct (k_tasks t Y n _ rf l Hn eq_refl) as (cs & Hl & Hcr). subst rf.
    match goal with H1 : controls t !! l = Some ?x |- _ => assert (x = cs) as -> by congruence; clear H1 end.
    destruct (session_entry (registry t) (SessionID (cs_ref cs))) as [[en ent]|] eqn:He.
    + pose proof (section_sync t _ l cs _ Y Hl eq_refl He) as Hs. destruct (commit _ _) as [[[cs' new] e] active].
      destruct active; injection H as <-; (apply task_sync; [done|]); [by destruct an|done].
    + pose proof (commit_cases (state_of (registry t) (cs_ref cs)) cs) as Hc. pose proof (commit_ordered (state_of (registry t) (cs_ref cs)) _ cs (t_ordered _ (k_ok _ Y) l cs Hl)) as Ho.
      destruct (commit _ _) as [[[cs' new] e] active]. destruct Hc as [Hr [[-> ->]|(_ & _ & Hst & _)]].
      * injection H as <-. apply task_sync; [|done]. eapply same_sync; [done|done|done|by rewrite app_nil_r in Ho].
      * unfold state_of, Registry.Snapshot in Hst. by rewrite He in Hst.
  - apply task_sync; [|done]. eapply note_sync; [done|eassumption|done| |done]. apply ordered_note; [by apply (k_ok t Y)|done|done].
  - apply task_sync; [|done]. apply aged_sync; [done|]. apply registry_ops_aged.
  - match goal with Ha : await _ _ _ = Some _, Hl : controls t !! l = Some _ |- _ => pose proof (await_ref _ _ _ _ _ Ha) as Hr; pose proof (await_ordered _ _ _ _ _ _ (t_ordered _ (k_ok _ Y) l _ Hl) Ha) as Ho end.
    apply task_sync; [by eapply same_sync|done].
  - apply task_sync; [by apply take_sync|done].
  - apply task_sync; [|by destruct cl]. eapply same_sync; [done|eassumption|done|]. apply ordered_stop. by apply (k_ok t Y).
  - apply task_sync; [|done]. eapply same_sync; [done|eassumption|done|]. eapply ordered_same; [by apply (k_ok t Y)|done..].
Qed.

Lemma bind_sync t rf id : sync_ok t -> rf ∉ used t -> sync_ok (t <| registry := (Bind (registry t) rf id).1 |> <| used := rf :: used t |>).
Proof.
  intros [T F U B O R S A K P] Hrf. destruct (bind_states (registry t) rf id F) as [F' Gs]. split; cbn -[events_of]; try done.
  - by destruct T; split.
  - intros rf1 [st [H|[-> _]]%Gs]; [right; apply U; by eexists|left].
  - intros l cs H. right. by eapply R.
  - intros l cs H Hc [H1|[E _]]%Gs; [by eapply S|]. apply Hrf. rewrite <- E. by eapply R.
  - intros l cs H [H1|[_ ?]]%Gs; [by eapply A|done].
Qed.

Definition begins (a : action) : option SessionRef := match a with ABegin rf _ => Some rf | _ => None end.
Lemma act_sync a t t' : sync_ok t -> (forall rf, begins a = Some rf -> forall l cs, controls t !! l = Some cs -> cs_ref cs <> rf) -> act a t = Some t' ->
  sync_ok t'.
Proof.
  intros Y Hb H. destruct a as [rf lim|rf m|rf m|n rf an|n rf fin|n rf|n rf|n how|l stop out|l|l|o]; cbn in H; opened; try done.
  - apply begin_sync; [done|]. by apply Hb.
  - unfold SendInitial. destruct (withQueue_sync t rf _ Y (send_initial_fits m) (send_initial_ordered m)) as [H _]. by destruct (withQueue _ _ _).
  - unfold Send. destruct (withQueue_sync t rf _ Y (send_fits m) (send_ordered m)) as [H _]. by destruct (withQueue _ _ _).
  - unfold CommitSyncAndAnnounce. destruct (withQueue_sync t rf _ Y (begin_commit_fits n) (begin_commit_ordered n)) as [H Hok].
    destruct (withQueue _ _ _) as [t1 [l|e]]; (apply task_sync; [done|]); [|done]. intros rf1 l1 [= <- <-]. by apply Hok.
  - unfold close. destruct (withQueue_sync t rf _ Y (begin_close_fits n fin) (begin_close_ordered n fin)) as [H _].
    destruct (withQueue _ _ _) as [t1 [l|e]]; by apply task_sync.
  - unfold AbortSync. cbn [take]. apply task_sync; [by apply (take_sync t rf)|]. by destruct (table t !! rf).
  - unfold Detach. cbn [take]. apply task_sync; [by apply (take_sync t rf)|]. by destruct (table t !! rf).
  - by eapply advance_sync.
  - match goal with Hw : work _ _ ?cs = Some (?cs', ?new), Hl : controls t !! l = Some ?cs |- _ =>
      destruct (work_fits _ _ _ _ _ _ Hw (k_phases t Y l cs Hl)) as (? & ? & ?); eapply put_sync; eauto; eapply work_ordered; [by apply (k_ok t Y)|exact Hw] end.
  - destruct (go_close _); [|done]. injection H as <-. eapply same_sync; [done|eassumption|done|]. eapply ordered_same; [by apply (k_ok t Y)|done..].
  - destruct (go_failure _); [|done]. injection H as <-. eapply note_sync; [done|eassumption|done| |done]. apply ordered_note; [|done|done].
    eapply ordered_same; [by apply (k_ok t Y)|done..].
  - destruct (registry_ops_aged (registry t)) as (G1 & G2 & G3 & G4 & _). destruct o; cbn in H; try (injection H as <-; by apply aged_sync).
    destruct (bool_decide _) eqn:Hu; [done|]. apply bool_decide_eq_false_1 in Hu. injection H as <-. by apply bind_sync.
Qed.

(** The queues that exist were begun. *)
Lemma act_begun a t t' l cs : sync_ok t -> act a t = Some t' -> controls t' !! l = Some cs -> (exists cs0, controls t !! l = Some cs0 /\ cs_ref cs0 = cs_ref cs) \/ begins a = Some (cs_ref cs).
Proof.
  assert (forall (t1 t2 : ControlTransport), controls t2 = controls t1 -> controls t2 !! l = Some cs -> exists cs0, controls t1 !! l = Some cs0 /\ cs_ref cs0 = cs_ref cs) as Hsame
    by (intros t1 t2 E H; rewrite E in H; eauto).
  assert (forall (t0 : ControlTransport) l0 c0 c1, controls t0 !! l0 = Some c0 -> cs_ref c1 = cs_ref c0 -> <[l0 := c1]> (controls t0) !! l = Some cs ->
    exists cs0, controls t0 !! l = Some cs0 /\ cs_ref cs0 = cs_ref cs) as Hput.
  { intros t0 l0 c0 c1 H0 Hr. destruct (decide (l0 = l)) as [<-|]; [rewrite lookup_insert_eq|rewrite lookup_insert_ne by done]; intros H; simplify_eq; eauto. }
  assert (forall rf fn, sync_ok t -> fits fn -> controls (withQueue t rf fn).1 !! l = Some cs -> exists cs0, controls t !! l = Some cs0 /\ cs_ref cs0 = cs_ref cs) as Hq.
  { intros rf fn Y Hfit. unfold withQueue. destruct (state_of _ _) as [state|] eqn:Hst; [|by eauto]. destruct (table t !! rf) as [l0|] eqn:Htb; [|by eauto].
    destruct (k_table t Y rf l0 Htb) as (c0 & Hl & Hr). rewrite Hl.
    pose proof (Hfit state (events_of l0 (log t)) c0 (t_ordered _ (k_ok _ Y) l0 c0 Hl) (k_phases _ Y l0 c0 Hl)) as H2.
    destruct (fn state c0) as [[c1 new] e]. destruct H2 as (H2 & _).
    - intros -> Hc. eapply (k_syncing t Y l0 c0 Hl Hc). by rewrite Hr.
    - intros ->. apply (k_active t Y l0 c0 Hl). by rewrite Hr.
    - by eapply Hput. }
  intros Y H Hl. destruct a as [rf lim|rf m|rf m|n rf an|n rf fin|n rf|n rf|n how|l0 stop out|l0|l0|o]; cbn in H; opened; try (left; by eapply Hsame).
  - revert Hl. unfold BeginSync. destruct (lim <? 1); [by left; eauto|]. destruct (state_of _ _); [|by left; eauto]. destruct (negb _); [by left; eauto|].
    destruct (table t !! rf); [by left; eauto|]. cbn -[lookup insert]. destruct (decide (fresh t = l)) as [<-|]; [rewrite lookup_insert_eq|rewrite lookup_insert_ne by done]; intros H; simplify_eq; eauto.
  - left. apply (Hq rf _ Y (send_initial_fits m)). revert Hl. unfold SendInitial. by destruct (withQueue _ _ _).
  - left. apply (Hq rf _ Y (send_fits m)). revert Hl. unfold Send. by destruct (withQueue _ _ _).
  - left. apply (Hq rf _ Y (begin_commit_fits n)). revert Hl. unfold CommitSyncAndAnnounce. by destruct (withQueue _ _ _).
  - left. apply (Hq rf _ Y (begin_close_fits n fin)). revert Hl. unfold close. by destruct (withQueue _ _ _).
  - left. destruct x as [rf l0 an|rf l0 an|rf l0 an|l0 en|en|rf l0|rf r|l0 cl|l0|r]; cbn in H; opened; try done; first [by eapply Hsame|by eapply Hput; [eassumption|by eapply await_ref|exact Hl]|by eapply Hput; [eassumption| |exact Hl]|idtac].
    match goal with H1 : controls t !! l0 = Some ?x |- _ => pose proof (commit_cases (state_of (registry t) rf) x) as Hc; rename x into c0 end.
    destruct (commit _ _) as [[[c1 new] e] active]. destruct Hc as [Hr _].
    assert (controls (put l0 c1 new t) !! l = Some cs) as Hl'. { destruct active; [destruct (session_entry _ _) as [[]|]|]; injection H as <-; exact Hl. }
    by eapply Hput.
  - left. eapply Hput; [eassumption| |exact Hl]. match goal with Hw : work _ _ _ = Some _, Hl0 : controls t !! l0 = Some _ |- _ => by destruct (work_fits _ _ _ _ _ _ Hw (k_phases t Y l0 _ Hl0)) end.
  - left. destruct (go_close _); [|done]. injection H as <-. eapply Hput; [| |exact Hl]; [eassumption|done].
  - left. destruct (go_failure _); [|done]. injection H as <-. eapply Hput; [| |exact Hl]; [eassumption|done].
  - left. destruct o; cbn in H; try (injection H as <-; by eapply Hsame). destruct (bool_decide _); [done|]. injection H as <-. by eapply Hsame.
Qed.
Lemma run_sync acts t t' : sync_ok t -> NoDup (omap begins acts) -> (forall rf, rf ∈ omap begins acts -> forall l cs, controls t !! l = Some cs -> cs_ref cs <> rf) ->
  run t acts = Some t' -> sync_ok t'.
Proof.
  revert t. induction acts as [|a acts IH]; intros t Y Hnd Hb H; cbn in H; [by injection H as <-|]. apply bind_Some in H as (t1 & H1 & H).
  assert (forall rf, begins a = Some rf -> forall l cs, controls t !! l = Some cs -> cs_ref cs <> rf) as Hba.
  { intros rf Ha. apply Hb. cbn. rewrite Ha. left. }
  apply (IH t1); [by eapply act_sync| | |done].
  - cbn in Hnd. destruct (begins a); [by apply list.NoDup_cons in Hnd as [_ ?]|done].
  - intros rf Hin l cs Hl Hr. destruct (act_begun a t t1 l cs Y H1 Hl) as [(cs0 & Hl0 & Hr0)|Ha].
    + eapply (Hb rf); [|exact Hl0|congruence]. cbn. destruct (begins a); [by right|done].
    + cbn in Hnd. rewrite Ha in Hnd. apply list.NoDup_cons in Hnd as [Hnd _]. apply Hnd. by rewrite Hr.
Qed.
Lemma initial_sync : sync_ok (NewControlTransport NewRegistry).
Proof.
  split; try done; [intros l [? ?]; done|intros rf [st (l & e & H & _)%state_of_Some]; done].
Qed.

(** ** The order in full *)

Definition initials (es : list event) : list message := omap (fun e => match e with Initial m => Some m | _ => None end) es.
Definition deferreds (es : list event) : list message := omap (fun e => match e with Deferred m => Some m | _ => None end) es.
Definition lived (es : list event) : list message := omap (fun e => match e with Live m => Some m | _ => None end) es.
Definition last_words (es : list event) : list message := omap (fun e => match e with Final m => m | _ => None end) es.

Lemma script_taken es : script_of es = script_of (filter is_taken es).
Proof.
  induction es as [|e es IH] using rev_ind; [done|]. rewrite script_snoc, IH, (list.filter_app is_taken). destruct (is_taken e) eqn:Et.
  - rewrite (list.filter_cons_True is_taken e), list.filter_nil by (by rewrite Et). by rewrite script_snoc.
  - rewrite (list.filter_cons_False is_taken e), list.filter_nil, app_nil_r by (rewrite Et; by intros []). by destruct e.
Qed.
Lemma script_early ins s : Forall is_early ins -> foldl tell s ins = mkScript (lines s ++ initials ins) (waiting s ++ deferreds ins).
Proof.
  intros H. revert s. induction H as [|e ins He _ IH]; intros s; cbn; [rewrite !app_nil_r; by destruct s|]. rewrite IH.
  destruct e; try done; cbn; by rewrite <- app_assoc.
Qed.
Lemma script_lives lives s : Forall is_live lives -> foldl tell s lives = mkScript (lines s ++ lived lives) (waiting s).
Proof.
  intros H. revert s. induction H as [|e lives He _ IH]; intros s; cbn; [rewrite !app_nil_r; by destruct s|]. rewrite IH.
  destruct e; try done; cbn; by rewrite <- app_assoc.
Qed.
Lemma script_phases es ins c lives fin : phases es ins c lives fin ->
  lines (script_of es) = initials ins ++ (if c then deferreds ins ++ lived lives else []) ++ last_words fin.
Proof.
  intros [Hi Hl Hf Ht]. rewrite script_taken, Ht. unfold script_of. rewrite !foldl_app, (script_early ins) by done.
  assert (forall s, lines (foldl tell s fin) = lines s ++ last_words fin) as Hfin.
  { intros s. destruct Hf as [-> |[[m|] ->]]; cbn; by rewrite ?app_nil_r. }
  rewrite Hfin. destruct c; cbn; [|done]. rewrite (script_lives lives) by done. cbn. by rewrite <- !app_assoc.
Qed.

(** C25: a client sees its session in order. When every session is synchronised
    once, whatever calls, failures, closings and changes of the registry
    interleave: what a queue takes are first messages of the synchronisation,
    then, after the commit, live messages, and perhaps one last message; what
    has been written is a beginning of the initial messages in order, followed,
    only after the commit, by what was deferred and by the live messages, and
    then by the last one; and queue and deferred messages stay within their
    limits. *)
Theorem control_order acts t l cs : run (NewControlTransport NewRegistry) acts = Some t -> NoDup (omap begins acts) -> controls t !! l = Some cs ->
  exists ins committed lives fin, phases (events_of l (log t)) ins committed lives fin /\
    written (events_of l (log t)) `prefix_of` initials ins ++ (if committed then deferreds ins ++ lived lives else []) ++ last_words fin /\
    (length (queue cs) <= S (limit cs))%nat /\ (length (deferred cs) <= limit cs)%nat.
Proof.
  intros H Hnd Hl. assert (sync_ok t) as Y by (eapply run_sync; [apply initial_sync|exact Hnd|done|exact H]).
  destruct (k_phases t Y l cs Hl) as (ins & c & lives & fin & P). exists ins, c, lives, fin. split; [done|]. rewrite <- (script_phases _ _ _ _ _ P).
  destruct (t_ordered _ (k_ok t Y) l cs Hl) as [_ O _ _ _ _ Q D]. split; [|done]. etrans; [|exact O]. by apply prefix_app_r.
Qed.

(** ** Delivery *)

(** A queue without a last message has a worker that goes on. *)
Definition goes_on (w : worker) : Prop :=
  match w with
  | Returned => False
  | Received c | Writing c | Flushing c | Failing c _ => c_final c = false
  | Ending c err | Answering c err => c_final c = false /\ err = None
  | _ => True
  end.
Definition open_ok (cs : controlSession) : Prop :=
  closed cs = false -> stopped cs = false /\ Forall (fun c => c_final c = false) (queue cs) /\ goes_on (at_ cs).

Lemma open_fail err cs : open_ok cs -> open_ok (failLocked err cs).
Proof. unfold failLocked. destruct (stopped cs); [done|]. by intros _ [=]. Qed.
Lemma open_enqueue cs cmd b : open_ok cs -> c_final cmd = false \/ closed cs = true -> open_ok (enqueueLocked cs cmd b).1.
Proof.
  intros H Hc. destruct (enqueueLocked_cases cs cmd b) as [(-> & _)|(-> & _)]; [|by apply open_fail]. intros Ho. cbn in Ho. destruct Hc as [Hc|Hc]; [|congruence].
  destruct (H Ho) as (H1 & H2 & H3). split; [done|]. split; [|done]. cbn. apply Forall_app_2; [done|by constructor].
Qed.
Lemma open_sections cs state : open_ok cs -> (forall m, open_ok (send_initial m state cs).1.1) /\ (forall m, open_ok (send m state cs).1.1) /\
  (forall n, open_ok (begin_commit n state cs).1.1) /\ (forall n fin, open_ok (begin_close n fin state cs).1.1) /\ (forall o, open_ok (commit o cs).1.1.1).
Proof.
  intros H. repeat split_and.
  - intros m. unfold send_initial. destruct (closed cs); [done|]. destruct (_ || _); [done|]. pose proof (open_enqueue cs (plain m) false H (or_introl eq_refl)).
    by destruct (enqueueLocked _ _ _) as [? [?|]].
  - intros m. unfold send. destruct (closed cs); [done|]. destruct state; try done; [destruct (_ <=? _)%nat; [by apply open_fail|done]|].
    pose proof (open_enqueue cs (plain m) false H (or_introl eq_refl)). by destruct (enqueueLocked _ _ _) as [? [?|]].
  - intros n. unfold begin_commit. destruct (_ || _); [done|]. assert (open_ok (cs <| committing := true |>)) as H' by done.
    pose proof (open_enqueue _ (barrier n) true H' (or_introl eq_refl)). by destruct (enqueueLocked _ _ _).
  - intros n fin. unfold begin_close. destruct (_ || _); [done|]. assert (open_ok (cs <| closed := true |> <| deferred := [] |>)) as H' by (by intros [=]).
    pose proof (open_enqueue _ (mkCommand fin (Some n) true) true H' (or_intror eq_refl)). by destruct (enqueueLocked _ _ _) as [? [?|]].
  - intros o. unfold commit. destruct (_ || _); [done|].
    destruct (splice_cases (deferred (cs <| committing := false |>)) (cs <| committing := false |>)) as [[-> _]|(ms & e & -> & _)]; [|].
    + intros Ho. cbn in *. destruct (H Ho) as (H1 & H2 & H3). split; [done|]. split; [|done]. apply Forall_app_2; [done|]. apply list.Forall_forall.
      intros c (m & -> & _)%list_elem_of_fmap. done.
    + unfold failLocked. cbn. destruct (stopped cs) eqn:Es; [|by intros [=]]. intros Ho. cbn in Ho. destruct (H Ho). congruence.
Qed.
Lemma open_work stop out cs cs' new : open_ok cs -> work stop out cs = Some (cs', new) -> open_ok cs'.
Proof.
  intros H. unfold work. assert (forall w, goes_on w -> goes_on (at_ cs) -> open_ok (cs <| at_ := w |>)) as Hw.
  { intros w Hg _ Ho. destruct (H Ho) as (H1 & H2 & _). done. }
  assert (stopped cs = true -> closed cs = true) as Hs. { intros Es. destruct (closed cs) eqn:Ec; [done|]. destruct (H Ec). congruence. }
  destruct (at_ cs) as [| |c|c|c|c err|c err|c err|] eqn:Ea.
  - intros [= <- _] Ho. destruct (H Ho) as (H1 & H2 & _). cbn in *. rewrite H1. done.
  - destruct (queue cs) as [|c q] eqn:Eq.
    + destruct (stopped cs); [|done]. intros [= <- _] Ho. rewrite Hs in Ho; done.
    + destruct (stopped cs) eqn:Es; cbn [andb]; [destruct stop; intros [= <- _] Ho; cbn in Ho; rewrite Hs in Ho; done|].
      intros [= <- _] Ho. destruct (H Ho) as (_ & H2 & _). rewrite Eq in H2. apply Forall_cons_iff in H2 as [? ?]. done.
  - intros [= <- _] Ho. destruct (H Ho) as (H1 & H2 & H3). rewrite Ea in H3. cbn in *. rewrite H1. done.
  - destruct (c_message c); intros [= <- _] Ho; destruct (H Ho) as (H1 & H2 & H3); rewrite Ea in H3; cbn in *; (split; [done|]); (split; [done|]); destruct out, (c_done c); done.
  - intros [= <- _] Ho; destruct (H Ho) as (H1 & H2 & H3); rewrite Ea in H3; cbn in *; (split; [done|]); (split; [done|]); destruct out; done.
  - intros [= <- _]. unfold failLocked. destruct (stopped cs) eqn:Es; [|by intros [=]]. intros Ho. cbn in Ho. rewrite Hs in Ho; done.
  - intros [= <- _] Ho. assert (closed cs = false) as Hc by (by destruct (c_final c)). destruct (H Hc) as (H1 & H2 & H3). rewrite Ea in H3. cbn in *. by destruct (c_final c).
  - intros [= <- _] Ho. assert (closed cs = false) as Hc by (by destruct (c_done c)). destruct (H Hc) as (H1 & H2 & H3). rewrite Ea in H3. cbn in H3. destruct H3 as [H3 ->].
    rewrite H3. by destruct (c_done c).
  - done.
Qed.

Definition all_open (t : ControlTransport) : Prop := forall l cs, controls t !! l = Some cs -> open_ok cs.
Lemma put_open t l cs es : all_open t -> open_ok cs -> all_open (put l cs es t).
Proof. intros A H l1 cs1. rewrite put_controls. destruct (decide (l = l1)) as [<-|]; [rewrite lookup_insert_eq; by intros [= <-]|rewrite lookup_insert_ne by done; apply A]. Qed.
Lemma withQueue_open t rf fn : all_open t -> (forall state cs, open_ok cs -> open_ok (fn state cs).1.1) -> all_open (withQueue t rf fn).1.
Proof.
  intros A H. unfold withQueue. destruct (state_of _ _) as [state|]; [|done]. destruct (table t !! rf) as [l|]; [|done]. destruct (controls t !! l) as [cs|] eqn:Hl; [|done].
  specialize (H state cs (A l cs Hl)). destruct (fn state cs) as [[cs' new] e]. by apply put_open.
Qed.
Lemma await_open n how cs cs' r : open_ok cs -> await n how cs = Some (cs', r) -> open_ok cs'.
Proof. intros H. destruct how; cbn; [by intros (? & _ & [= <- _])%bind_Some|destruct (stopped cs); by intros [= <- _]|intros [= <- _]; by apply open_fail]. Qed.

Lemma advance_open n how k t t' : all_open t -> advance n how k t = Some t' -> all_open t'.
Proof.
  intros A H. destruct k as [rf l an|rf l an|rf l an|l en|en|rf l|rf r|l cl|l|r]; cbn in H; opened; try done; try (apply put_open; [done|]).
  - eapply await_open; [|eassumption]. by eapply A.
  - match goal with Hl : controls t !! l = Some ?cs |- _ => pose proof (proj2 (proj2 (proj2 (proj2 (open_sections cs StateSyncing (A l cs Hl))))) (state_of (registry t) rf)) as Hc end.
    destruct (commit _ _) as [[[cs' new] e] active]. pose proof (put_open t l cs' new A Hc) as A'.
    destruct active; [destruct (session_entry _ _) as [[]|]|]; injection H as <-; exact A'.
  - by eapply A.
  - eapply await_open; [|eassumption]. by eapply A.
  - by intros [=].
  - match goal with Hl : controls t !! l = Some _ |- _ => exact (A l _ Hl) end.
Qed.
Lemma act_open a t t' : all_open t -> act a t = Some t' -> all_open t'.
Proof.
  intros A H. destruct a as [rf lim|rf m|rf m|n rf an|n rf fin|n rf|n rf|n how|l stop out|l|l|o]; cbn in H; opened; try done.
  - unfold BeginSync. destruct (lim <? 1); [done|]. destruct (state_of _ _); [|done]. destruct (negb _); [done|]. destruct (table t !! rf); [done|].
    intros l cs. cbn -[lookup insert]. destruct (decide (fresh t = l)) as [<-|]; [rewrite lookup_insert_eq; by intros [= <-]|rewrite lookup_insert_ne by done; apply A].
  - unfold SendInitial. pose proof (withQueue_open t rf (send_initial m) A (fun st cs H => proj1 (open_sections cs st H) m)). by destruct (withQueue _ _ _).
  - unfold Send. pose proof (withQueue_open t rf (send m) A (fun st cs H => proj1 (proj2 (open_sections cs st H)) m)). by destruct (withQueue _ _ _).
  - unfold CommitSyncAndAnnounce. pose proof (withQueue_open t rf (begin_commit n) A (fun st cs H => proj1 (proj2 (proj2 (open_sections cs st H))) n)). by destruct (withQueue _ _ _).
  - unfold close. pose proof (withQueue_open t rf (begin_close n fin) A (fun st cs H => proj1 (proj2 (proj2 (proj2 (open_sections cs st H)))) n fin)). by destruct (withQueue _ _ _).
  - by eapply advance_open.
  - apply put_open; [done|]. eapply open_work; [|eassumption]. by eapply A.
  - destruct (go_close _); [|done]. injection H as <-. apply put_open; [done|]. match goal with Hl : controls t !! l = Some _ |- _ => exact (A l _ Hl) end.
  - destruct (go_failure _); [|done]. injection H as <-. apply put_open; [done|]. match goal with Hl : controls t !! l = Some _ |- _ => exact (A l _ Hl) end.
  - destruct o; cbn in H; try (injection H as <-; done). destruct (bool_decide _); [done|]. by injection H as <-.
Qed.
Lemma run_open acts t t' : all_open t -> run t acts = Some t' -> all_open t'.
Proof. revert t. induction acts as [|a acts IH]; intros t A H; cbn in H; [by injection H as <-|]. apply bind_Some in H as (t1 & H1 & H). eapply IH; [|exact H]. by eapply act_open. Qed.

(** The worker alone, with a sink that accepts everything. *)
Fixpoint works (k : nat) (cs : controlSession) : option (controlSession * list event) :=
  match k with
  | O => Some (cs, [])
  | S k => '(cs, e1) ← work false None cs; '(cs, e2) ← works k cs; Some (cs, e1 ++ e2)
  end.
Lemma works_add k1 k2 cs cs1 e1 cs2 e2 : works k1 cs = Some (cs1, e1) -> works k2 cs1 = Some (cs2, e2) -> works (k1 + k2) cs = Some (cs2, e1 ++ e2).
Proof.
  revert cs e1. induction k1 as [|k1 IH]; intros cs e1; cbn; [by intros [= <- <-]|]. intros ([c ea] & -> & ([c' eb] & H & [= <- <-])%bind_Some)%bind_Some H2. cbn.
  rewrite (IH _ _ H H2). cbn. by rewrite app_assoc.
Qed.

(** What is left to do before the worker waits again. *)
Definition steps_of (w : worker) : nat :=
  match w with AtTop => 1 | AtSelect => 0 | Received _ => 6 | Writing _ => 5 | Flushing _ => 4 | Ending _ _ => 3 | Answering _ _ => 2 | Failing _ _ | Returned => 0 end.
Definition waits (cs : controlSession) : Prop := at_ cs = AtSelect /\ stopped cs = false /\ closed cs = false.
Lemma to_select cs : open_ok cs -> closed cs = false -> (forall c err, at_ cs <> Failing c err) ->
  exists k cs' es, (k <= steps_of (at_ cs))%nat /\ works k cs = Some (cs', es) /\ waits cs' /\ queue cs' = queue cs /\ open_ok cs'.
Proof.
  intros H Hc Hf. remember (steps_of (at_ cs)) as n eqn:Hn. revert cs H Hc Hf Hn. induction n as [n IH] using lt_wf_ind. intros cs H Hc Hf ->.
  pose proof (H Hc) as (Hs & Hq & Hg). assert (at_ cs = AtSelect \/ at_ cs <> AtSelect) as [Ea|Ea] by (destruct (at_ cs); first [by left|by right]).
  { exists O, cs, []. split; [lia|]. repeat split; done. }
  assert (exists cs1 e1, work false None cs = Some (cs1, e1) /\ (steps_of (at_ cs1) < steps_of (at_ cs))%nat /\ closed cs1 = false /\ queue cs1 = queue cs /\
    (forall c err, at_ cs1 <> Failing c err)) as (cs1 & e1 & Hw & Hlt & Hc1 & Hq1 & Hf1).
  { unfold work. destruct (at_ cs) as [| |c|c|c|c err|c err|c err|] eqn:Ew; try done.
    - eexists _, _. split; [done|]. cbn. rewrite Hs. split; [cbn; lia|done].
    - eexists _, _. split; [done|]. cbn. rewrite Hs. split; [cbn; lia|done].
    - destruct (c_message c), (c_done c); (eexists _, _; split; [done|]; cbn; split; [lia|done]).
    - eexists _, _. split; [done|]. cbn. split; [lia|done].
    - by destruct (Hf c err).
    - cbn in Hg. destruct Hg as [-> ->]. eexists _, _. split; [done|]. cbn. split; [lia|done].
    - cbn in Hg. destruct Hg as [-> ->]. eexists _, _. split; [done|]. destruct (c_done c); cbn; (split; [lia|done]). }
  destruct (IH _ Hlt cs1 (open_work _ _ _ _ _ H Hw) Hc1 Hf1 eq_refl) as (k & cs' & es & Hk & Hr & Hwt & Hq' & Ho).
  exists (S k), cs', (e1 ++ es). split; [lia|]. split; [cbn; rewrite Hw; cbn; by rewrite Hr|]. split; [done|]. by rewrite Hq', Hq1.
Qed.
Lemma drain cs : open_ok cs -> closed cs = false -> (forall c err, at_ cs <> Failing c err) ->
  exists k cs' es, (k <= 6 + 7 * length (queue cs))%nat /\ works k cs = Some (cs', es) /\ waits cs' /\ queue cs' = [].
Proof.
  remember (length (queue cs)) as n eqn:Hn. revert cs Hn. induction n as [n IH] using lt_wf_ind. intros cs -> H Hc Hf.
  destruct (to_select cs H Hc Hf) as (k & cs1 & e1 & Hk & Hw & (Ea & Hs & Hc1) & Hq & Ho).
  assert (k <= 6)%nat as Hk6 by (destruct (at_ cs); cbn in Hk; lia).
  destruct (queue cs) as [|c q] eqn:Eq.
  { exists k, cs1, e1. split; [lia|]. repeat split; done. }
  set (cs2 := cs1 <| queue := q |> <| at_ := Received c |>).
  assert (work false None cs1 = Some (cs2, [])) as Hw2. { unfold work. rewrite Ea, Hq, Hs. done. }
  destruct (IH (length q) ltac:(cbn; lia) cs2 eq_refl (open_work _ _ _ _ _ Ho Hw2) Hc1 ltac:(done)) as (k' & cs3 & e3 & Hk' & Hr & Hwt & Hq3).
  exists (k + S k')%nat, cs3, (e1 ++ e3). split; [cbn; lia|]. split; [|done].
  eapply works_add; [done|]. cbn. rewrite Hw2. cbn. by rewrite Hr.
Qed.

Lemma work_script stop out cs cs' new es : work stop out cs = Some (cs', new) -> script_of (es ++ new) = script_of es.
Proof.
  intros H. assert (new = [] \/ exists m, new = [Wrote m]) as [-> |[m ->]].
  { revert H. unfold work. destruct (at_ cs) as [| |c|c|c|c err|c err|c err|]; try (intros [= _ <-]; by left).
    - destruct (queue cs); [destruct (stopped cs)|destruct (stopped cs && stop)]; intros [= _ <-]; by left.
    - destruct (c_message c); intros [= _ <-]; [right; by eexists|by left]. }
  - by rewrite app_nil_r.
  - by rewrite script_snoc.
Qed.
(** The worker runs on its own, with a sink that accepts. *)
Definition undisturbed (k l : nat) : list action := replicate k (AWorker l false None).
Lemma works_run k t l cs cs' es : controls t !! l = Some cs -> works k cs = Some (cs', es) ->
  exists t', run t (undisturbed k l) = Some t' /\ controls t' !! l = Some cs' /\ script_of (events_of l (log t')) = script_of (events_of l (log t)).
Proof.
  revert t cs es. induction k as [|k IH]; intros t cs es Hl; cbn; [intros [= <- <-]; by exists t|].
  intros ([c ea] & Hw & ([c' eb] & H & [= <- <-])%bind_Some)%bind_Some. cbn. rewrite Hl. cbn. rewrite Hw. cbn.
  destruct (IH (put l c ea t) c eb) as (t' & Hr & Hc & Hsc); [rewrite put_controls; apply lookup_insert_eq|exact H|].
  exists t'. split; [done|]. split; [done|]. rewrite Hsc, put_log, events_of_record, decide_True by done. by eapply work_script.
Qed.

(** C26: what is taken is delivered. From any state that can be reached, if a
    session's queue is open and its sink is not failing, then the worker,
    running on its own with a sink that accepts, has after at most seven steps
    per queued command (and six for the command at hand) written every message
    the queue ever took, in order. *)
Theorem control_delivers r acts t l cs : run (NewControlTransport r) acts = Some t -> controls t !! l = Some cs -> closed cs = false ->
  (forall c err, at_ cs <> Failing c err) ->
  exists k t', (k <= 6 + 7 * length (queue cs))%nat /\ run t (undisturbed k l) = Some t' /\
    written (events_of l (log t')) = lines (script_of (events_of l (log t))).
Proof.
  intros H Hl Hc Hf. assert (all_open t) as A by (eapply run_open; [|exact H]; by intros l1 cs1 H1).
  destruct (drain cs (A l cs Hl) Hc Hf) as (k & cs' & es & Hk & Hw & (Ea & Hs & _) & Hq).
  destruct (works_run k t l cs cs' es Hl Hw) as (t' & Hr & Hl' & Hsc). exists k, t'. split; [done|]. split; [done|].
  assert (transport_ok t') as T by (eapply run_ok; [|exact Hr]; eapply run_ok; [apply NewControlTransport_ok|exact H]).
  pose proof (o_open _ _ (t_ordered _ T l cs' Hl') Hs) as Ho. rewrite Ea, Hq in Ho. cbn [held omap list_omap] in Ho. rewrite !app_nil_r in Ho. by rewrite Ho, Hsc.
Qed.

(** The initial messages must fit the queue unless the worker keeps up: a
    snapshot of more messages than the limit fails when it has not run. *)
Fixpoint send_all (cs : controlSession) (ms : list message) : controlSession * option control_error :=
  match ms with
  | [] => (cs, None)
  | m :: ms => match send_initial m StateSyncing cs with (cs, _, None) => send_all cs ms | (cs, _, Some e) => (cs, Some e) end
  end.
Lemma snapshot_overflow rf lim ms : (lim < length ms)%nat -> (send_all (new_session rf lim) ms).2 = Some ErrControlOverflow.
Proof.
  intros H. assert (forall cs, closed cs = false -> committing cs = false -> (length (queue cs) <= limit cs)%nat -> (limit cs < length (queue cs) + length ms)%nat ->
    (send_all cs ms).2 = Some ErrControlOverflow) as Hg; [|apply Hg; cbn; done || lia].
  clear H. induction ms as [|m ms IH]; intros cs Hc Hm Hq Hl; cbn in *; [lia|]. unfold send_initial. rewrite Hc, Hm. cbn [negb orb].
  rewrite bool_decide_eq_true_2 by done. cbn [negb orb]. unfold enqueueLocked. cbn [negb andb]. destruct (Nat.leb_spec (limit cs) (length (queue cs))); [done|].
  destruct (Nat.ltb_spec (length (queue cs)) (S (limit cs))); [|lia]. apply IH; [done|done| |]; cbn; rewrite length_app; cbn; lia.
Qed.

(** ** A sample *)

Definition rf7 : SessionRef := mkRef 7 1.
Definition note (n : Z) : message := MTextMessage (TextMessage.zero <| TextMessage.Message := [n] |>).
(** A session gets two initial messages, somebody else speaks meanwhile and
    after the commit, and it is kicked. *)
Definition joining : list action :=
  [ARegistry (RRegister LocalEdgeID 1); ARegistry (RBind rf7 LocalEdgeID); ABegin rf7 2; AInitial rf7 (note 1); ASend rf7 (note 3);
   AInitial rf7 (note 2); ACommit 0 rf7 true] ++ replicate 20 (AWorker 0 false None) ++
  [ATask 0 Answer; ATask 0 Answer; ATask 0 Answer; ATask 0 Answer; ATask 0 Answer; ASend rf7 (note 4)].
Definition leaving : list action := [AClose 1 rf7 (Some (note 5)); ASend rf7 (note 6)] ++ replicate 18 (AWorker 0 false None).
Definition joined : ControlTransport := default (NewControlTransport NewRegistry) (run (NewControlTransport NewRegistry) joining).
Lemma joined_run : run (NewControlTransport NewRegistry) joining = Some joined.
Proof. vm_compute. reflexivity. Qed.
Example all_written : (fun t => written (events_of 0 (log t))) <$> run (NewControlTransport NewRegistry) (joining ++ leaving) = Some (map note [1; 2; 3; 4; 5]).
Proof. vm_compute. reflexivity. Qed.
Definition queue7 : controlSession := default (new_session rf7 0) (controls joined !! 0%nat).
Lemma queue7_there : controls joined !! 0%nat = Some queue7.
Proof. vm_compute. reflexivity. Qed.
Lemma control_order_witness :
  exists ins committed lives fin, phases (events_of 0 (log joined)) ins committed lives fin /\
    written (events_of 0 (log joined)) `prefix_of` initials ins ++ (if committed then deferreds ins ++ lived lives else []) ++ last_words fin /\
    (length (queue queue7) <= S (limit queue7))%nat /\ (length (deferred queue7) <= limit queue7)%nat.
Proof.
  apply (control_order joining joined 0 queue7); [exact joined_run| |exact queue7_there]. vm_compute. constructor; [by intros ?%elem_of_nil|constructor].
Defined.
Lemma queue7_open : closed queue7 = false /\ forall c err, at_ queue7 <> Failing c err.
Proof. vm_compute. split; [reflexivity|]. by intros. Qed.
Lemma control_delivers_witness :
  exists k t', (k <= 6 + 7 * length (queue queue7))%nat /\ run joined (undisturbed k 0) = Some t' /\
    written (events_of 0 (log t')) = lines (script_of (events_of 0 (log joined))).
Proof. apply (control_delivers NewRegistry joining joined 0 queue7); [exact joined_run|exact queue7_there|apply queue7_open|apply queue7_open]. Defined.
End ControlSync.
