(* ===== verification/UserManager.v ===== *)
(** * Connected users (internal/user/manager.go, pkg/mumble/user.go)

    The session table with its two indexes, the pool of session IDs and the
    generations that tell two uses of one ID apart. Both indexes of the source
    hold pointers to one record, so the model has a heap of records. Every
    method holds the manager's mutex from beginning to end: one method is one
    step. The notifications a method sends to the authorization listeners
    after releasing the mutex are part of its result; [cloneUser] copies a
    record whose value is what matters here. *)

From Stdlib Require Import ZArith Lia.
From stdpp Require Import base numbers list gmap fin_maps fin_sets.
From S2P Require Import Prelude Fields Registry.
Open Scope Z_scope.

(** ** pkg/mumble/user.go *)

Record VoiceState := mkVoice {
  Mute : bool;
  Deaf : bool;
  Suppress : bool;
  SelfMute : bool;
  SelfDeaf : bool;
  PrioritySpeaker : bool;
  Recording : bool }.
#[export] Instance VoiceState_eta : Eta VoiceState := fun v =>
  mkVoice (Mute v) (Deaf v) (Suppress v) (SelfMute v) (SelfDeaf v) (PrioritySpeaker v) (Recording v).
#[export] Instance VoiceState_eq_dec : EqDecision VoiceState.
Proof. solve_decision. Defined.

Module User.
Record t := mk {
  SessionGeneration : Z;
  AuthorizationRevision : Z;
  CertificateVerified : bool;
  SessionID : Z;
  UserID : Z;
  ChannelID : Z;
  Name : gostring;
  AccessTokens : list gostring;
  ExternalGroups : list gostring;
  ExternalIdentity : bool;
  IdentityVersion : Z;
  PolicyVersion : Z;
  IdentityLastValidatedAt : Z;
  Voice : VoiceState;
  PluginIdentity : gostring;
  PluginContext : bytes;
  Texture : bytes;
  Comment : gostring;
  Address : gostring;
  Ping : Z;
  CertHash : gostring;
  ClientVersion : Z;
  CryptoMode : gostring;
  IsSuperUser : bool }.
#[global] Instance eta_t : Eta t := fun u =>
  mk (SessionGeneration u) (AuthorizationRevision u) (CertificateVerified u) (SessionID u) (UserID u)
    (ChannelID u) (Name u) (AccessTokens u) (ExternalGroups u) (ExternalIdentity u) (IdentityVersion u)
    (PolicyVersion u) (IdentityLastValidatedAt u) (Voice u) (PluginIdentity u) (PluginContext u)
    (Texture u) (Comment u) (Address u) (Ping u) (CertHash u) (ClientVersion u) (CryptoMode u)
    (IsSuperUser u).
Definition zero : t :=
  mk 0 0 false 0 0 0 [] [] [] false 0 0 0 (mkVoice false false false false false false false) [] [] [] [] [] 0 [] 0
    [] false.
End User.

(** ** The pool of session IDs *)

Record sessionPool := mkPool {
  next_sid : Z;
  free : list Z;
  inUse : gset Z;
  pool_max : Z }.
#[export] Instance sessionPool_eta : Eta sessionPool := fun p =>
  mkPool (next_sid p) (free p) (inUse p) (pool_max p).

Definition newSessionPool (max : Z) : sessionPool := mkPool 1 [] ∅ max.

Definition Alloc (p : sessionPool) : sessionPool * option Z :=
  if (pool_max p <=? Z.of_nat (size (inUse p))) && (0 <? pool_max p) then (p, None) else
  match free p !! pred (length (free p)) with
  | Some sid => (p <| free := take (pred (length (free p))) (free p) |> <| inUse := {[sid]} ∪ inUse p |>, Some sid)
  | None =>
      let sid := next_sid p in
      let p := p <| next_sid := u32 (next_sid p + 1) |> in
      if (0 <? pool_max p) && (u32 (pool_max p * 2) <=? sid) then (p, None)
      else (p <| inUse := {[sid]} ∪ inUse p |>, Some sid)
  end.

Definition Free (p : sessionPool) (sid : Z) : sessionPool :=
  if bool_decide (sid ∈ inUse p)
  then p <| inUse := inUse p ∖ {[sid]} |> <| free := free p ++ [sid] |>
  else p.

(** ** The manager *)

(** A listener is a function value: here, its position. *)
Record Manager := mkManager {
  bySession : gmap Z loc;
  byName : gmap gostring loc;
  records : gmap loc User.t;
  fresh : loc;
  pool : sessionPool;
  maxUsers : Z;
  generation : Z;
  authorizationListeners : list nat }.
#[export] Instance Manager_eta : Eta Manager := fun m =>
  mkManager (bySession m) (byName m) (records m) (fresh m) (pool m) (maxUsers m) (generation m)
    (authorizationListeners m).

Definition NewManager (max : Z) : Manager :=
  mkManager ∅ ∅ ∅ 0%nat (newSessionPool (max * 2)) max 0 [].

(** [notify(u, removed)] on each listener. *)
Definition notification : Type := nat * User.t * bool.
Definition notify_all (m : Manager) (u : User.t) (removed : bool) : list notification :=
  map (fun l => (l, u, removed)) (authorizationListeners m).

(** [m.bySession[sid]] and [m.byName[name]], through the pointer. *)
Definition user_at (m : Manager) (sid : Z) : option (loc * User.t) :=
  l ← bySession m !! sid; u ← records m !! l; Some (l, u).
Definition user_named (m : Manager) (name : gostring) : option (loc * User.t) :=
  l ← byName m !! name; u ← records m !! l; Some (l, u).

(** [*u = v] through the pointer. *)
Definition write_user (l : loc) (u : User.t) (m : Manager) : Manager :=
  m <| records := <[l := u]> (records m) |>.

Definition Count (m : Manager) : Z := Z.of_nat (size (bySession m)).

Definition Add (m : Manager) (u : User.t) : Manager * option User.t :=
  match user_named m (User.Name u) with
  | Some _ => (m, None)
  | None =>
    if (maxUsers m <=? Count m) && (0 <? maxUsers m) then (m, None) else
    match Alloc (pool m) with
    | (p, None) => (m <| pool := p |>, None)
    | (p, Some sid) =>
        let m := m <| pool := p |> <| generation := u64 (generation m + 1) |> in
        let stored := u <| User.SessionID := sid |>
                        <| User.SessionGeneration := generation m |>
                        <| User.AuthorizationRevision := 1 |> in
        let l := fresh m in
        (m <| fresh := S l |>
           <| records := <[l := stored]> (records m) |>
           <| bySession := <[sid := l]> (bySession m) |>
           <| byName := <[User.Name stored := l]> (byName m) |>, Some stored)
    end
  end.

Definition remove (m : Manager) (sid gen : Z) (conditional : bool)
    : Manager * option User.t * list notification :=
  match user_at m sid with
  | None => (m, None, [])
  | Some (_, u) =>
      if conditional && negb (User.SessionGeneration u =? gen) then (m, None, []) else
      (m <| bySession := delete sid (bySession m) |>
         <| byName := delete (User.Name u) (byName m) |>
         <| pool := Free (pool m) sid |>, Some u, notify_all m u true)
  end.

Definition Remove (m : Manager) (sid : Z) := remove m sid 0 false.
Definition RemoveIfGeneration (m : Manager) (sid gen : Z) := remove m sid gen true.

Definition Exists (m : Manager) (sid : Z) : bool :=
  match user_at m sid with Some _ => true | None => false end.

(** The records in the order of the map's traversal, which Go leaves open. *)
Definition users (m : Manager) : list User.t :=
  omap (fun l => records m !! l) (map snd (map_to_list (bySession m))).

Definition SessionIDsInChannel (m : Manager) (channelID : Z) : list Z :=
  map User.SessionID (filter (fun u => User.ChannelID u = channelID) (users m)).
Definition CountInChannel (m : Manager) (channelID : Z) : Z :=
  zlen (filter (fun u => User.ChannelID u = channelID) (users m)).

Definition SetPing (m : Manager) (sid ping : Z) : Manager :=
  match user_at m sid with
  | Some (l, u) => write_user l (u <| User.Ping := ping |>) m
  | None => m
  end.

Definition Snapshot (m : Manager) (sid : Z) : option User.t := snd <$> user_at m sid.
Definition SnapshotRef (m : Manager) (rf : SessionRef) : option User.t :=
  match user_at m (SessionID rf) with
  | Some (_, u) => if negb (User.SessionGeneration u =? Generation rf) then None else Some u
  | None => None
  end.
Definition SnapshotByName (m : Manager) (name : gostring) : option User.t := snd <$> user_named m name.
Definition SnapshotByUserID (m : Manager) (uid : Z) : option User.t :=
  head (filter (fun u => User.UserID u = uid) (users m)).
Definition SnapshotAll (m : Manager) : list User.t := users m.
Definition SnapshotByChannel (m : Manager) (channelID : Z) : list User.t :=
  filter (fun u => User.ChannelID u = channelID) (users m).
Definition VoiceStateOf (m : Manager) (sid : Z) : option VoiceState := User.Voice <$> Snapshot m sid.
Definition ChannelIDOf (m : Manager) (sid : Z) : option Z := User.ChannelID <$> Snapshot m sid.

Record SpeakGate := mkGate { gate_Voice : VoiceState; gate_UserID : Z; gate_ChannelID : Z }.
Definition SpeakGateFor (m : Manager) (sid : Z) : option SpeakGate :=
  (fun u => mkGate (User.Voice u) (User.UserID u) (User.ChannelID u)) <$> Snapshot m sid.

Definition authorizationChanged (a b : User.t) : bool :=
  negb (User.UserID a =? User.UserID b) || negb (User.ChannelID a =? User.ChannelID b)
  || negb (eqb (User.IsSuperUser a) (User.IsSuperUser b))
  || negb (bool_decide (User.CertHash a = User.CertHash b))
  || negb (eqb (User.CertificateVerified a) (User.CertificateVerified b))
  || negb (eqb (User.ExternalIdentity a) (User.ExternalIdentity b))
  || negb (User.IdentityVersion a =? User.IdentityVersion b)
  || negb (User.PolicyVersion a =? User.PolicyVersion b)
  || negb (bool_decide (User.AccessTokens a = User.AccessTokens b))
  || negb (bool_decide (User.ExternalGroups a = User.ExternalGroups b)).

(** The part the two update methods share: the fields only the manager
    maintains are put back, and the revision counts what matters to
    authorization. *)
Definition settle (before after : User.t) : User.t * bool :=
  let u := after <| User.SessionGeneration := User.SessionGeneration before |>
                 <| User.AuthorizationRevision := User.AuthorizationRevision before |> in
  if authorizationChanged before u
  then (u <| User.AuthorizationRevision := u64 (User.AuthorizationRevision u + 1) |>, true)
  else (u, false).

Definition UpdateUser (m : Manager) (sid : Z) (fn : User.t -> User.t)
    : Manager * option User.t * list notification :=
  match user_at m sid with
  | None => (m, None, [])
  | Some (l, before) =>
      let '(u, changed) := settle before (fn before) in
      (write_user l u m, Some u, if changed then notify_all m u false else [])
  end.

Definition updateIdentity (m : Manager) (rf : SessionRef) (checkGeneration : bool)
    (fn : User.t -> User.t) : Manager * option User.t * list notification :=
  match user_at m (SessionID rf) with
  | None => (m, None, [])
  | Some (l, u) =>
      if checkGeneration && negb (User.SessionGeneration u =? Generation rf) then (m, None, []) else
      let candidate := fn u in
      let collides :=
        match user_named m (User.Name candidate) with
        | Some (_, other) => negb (User.SessionID other =? SessionID rf)
        | None => false
        end in
      if collides then (m, None, []) else
      let '(candidate, changed) := settle u candidate in
      let m' := write_user l candidate m in
      let m' := if negb (bool_decide (User.Name u = User.Name candidate))
                then m' <| byName := <[User.Name candidate := l]> (delete (User.Name u) (byName m')) |>
                else m' in
      (m', Some candidate, if changed then notify_all m candidate false else [])
  end.

Definition UpdateIdentity (m : Manager) (sid : Z) (fn : User.t -> User.t) :=
  updateIdentity m (mkRef sid 0) false fn.
Definition UpdateIdentityRef (m : Manager) (rf : SessionRef) (fn : User.t -> User.t) :=
  updateIdentity m rf true fn.

(** [publish] receives the same record the method returns. *)
Definition UpdateIdentityRefAndPublish (m : Manager) (rf : SessionRef) (fn : User.t -> User.t)
    : Manager * option User.t * list notification * option User.t :=
  let '(m, r, ns) := updateIdentity m rf true fn in (m, r, ns, r).

Definition SetChannel (m : Manager) (sid channelID : Z) :=
  UpdateUser m sid (fun u => u <| User.ChannelID := channelID |>).

Definition AddAuthorizationListener (m : Manager) (l : nat) : Manager :=
  m <| authorizationListeners := authorizationListeners m ++ [l] |>.

(** ** The pool hands out each ID once *)

Record pool_wf (p : sessionPool) : Prop := {
  pw_next : 1 <= next_sid p;
  pw_cover : forall x, (x ∈ inUse p \/ x ∈ free p) <-> 1 <= x < next_sid p;
  pw_disj : forall x, x ∈ free p -> x ∉ inUse p;
  pw_nodup : NoDup (free p) }.

Lemma pool_full p : pool_wf p -> free p = [] -> Z.of_nat (size (inUse p)) = next_sid p - 1.
Proof.
  intros W Hf. assert (inUse p = list_to_set (seqZ 1 (next_sid p - 1))) as ->.
  { apply set_eq. intros x. rewrite elem_of_list_to_set, elem_of_seqZ. pose proof (pw_cover p W x) as H.
    rewrite Hf in H. rewrite <- (Z.add_comm (next_sid p - 1) 1). split.
    - intros Hx. apply or_introl with (B := x ∈ []) in Hx. apply H in Hx. lia.
    - intros Hx. destruct (proj2 H ltac:(lia)) as [?|Hn]; [done|]. by apply elem_of_nil in Hn. }
  rewrite size_list_to_set by apply NoDup_seqZ. rewrite length_seqZ. pose proof (pw_next p W). lia.
Qed.

Lemma last_split (l : list Z) sid : l !! pred (length l) = Some sid -> l = take (pred (length l)) l ++ [sid].
Proof.
  intros H. rewrite <- (take_drop (pred (length l)) l) at 1. f_equal.
  assert (length l <> 0%nat) by (destruct l; done). apply list_eq. intros [|i].
  - by rewrite lookup_drop, Nat.add_0_r.
  - rewrite lookup_drop. cbn. apply lookup_ge_None_2. lia.
Qed.

Lemma Alloc_spec p max : pool_wf p -> pool_max p = max * 2 -> 0 < max -> 4 * max < 2 ^ 32 ->
  Z.of_nat (size (inUse p)) < max -> next_sid p <= max + 1 ->
  exists p' sid, Alloc p = (p', Some sid) /\ pool_wf p' /\ sid ∉ inUse p /\ 1 <= sid <= max /\
    inUse p' = {[sid]} ∪ inUse p /\ pool_max p' = pool_max p /\ next_sid p' <= max + 1.
Proof.
  intros W Hm H0 H4 Hs Hn. pose proof W as [W1 W2 W3 W4]. unfold Alloc.
  destruct (Z.leb_spec (pool_max p) (Z.of_nat (size (inUse p)))); [lia|]. cbn [andb].
  destruct (free p !! pred (length (free p))) as [sid|] eqn:E.
  - pose proof (last_split _ _ E) as Hf. set (rest := take (pred (length (free p))) (free p)) in *.
    assert (sid ∈ free p) as Hin by (rewrite Hf, elem_of_app; right; by left).
    pose proof (proj1 (W2 sid) (or_intror Hin)).
    eexists _, sid. split; [reflexivity|]. cbn [set_field inUse next_sid pool_max free].
    split; [|split; [by apply W3|split; [lia|done]]].
    rewrite Hf in W4. apply list.NoDup_app in W4 as (N1 & N2 & _).
    split; cbn; [done| | |done].
    + intros x. rewrite elem_of_union, elem_of_singleton, <- W2. rewrite Hf, elem_of_app, list_elem_of_singleton. tauto.
    + intros x Hx. rewrite not_elem_of_union, not_elem_of_singleton. split.
      * intros ->. apply (N2 _ Hx). by left.
      * apply W3. rewrite Hf, elem_of_app. by left.
  - assert (free p = []) as Hf.
    { destruct (free p) as [|x l] eqn:El; [done|]. apply lookup_ge_None_1 in E. cbn in E. lia. }
    pose proof (pool_full p W Hf) as Hsz. cbn [set_field pool_max next_sid].
    rewrite Hm. rewrite (u32_id (max * 2 * 2)) by zlia.
    destruct (Z.leb_spec (max * 2 * 2) (next_sid p)); [lia|]. rewrite andb_false_r.
    rewrite u32_id by zlia. eexists _, (next_sid p). split; [reflexivity|].
    assert (next_sid p ∉ inUse p) as Hno.
    { intros Hin. pose proof (proj1 (W2 _) (or_introl Hin)). lia. }
    cbn [set_field inUse next_sid pool_max free]. split; [|split; [done|split; [lia|split; [done|split; [done|lia]]]]].
    split; cbn [inUse next_sid free]; rewrite ?Hf; [lia| |intros x Hx; by apply elem_of_nil in Hx|constructor].
    intros x. rewrite elem_of_union, elem_of_singleton. specialize (W2 x). rewrite Hf in W2. split.
    + intros [[->|Hx]|Hx]; [lia| |by apply elem_of_nil in Hx].
      pose proof (proj1 W2 (or_introl Hx)). lia.
    + intros Hx. destruct (decide (x = next_sid p)) as [->|Hne]; [tauto|].
      pose proof (proj2 W2 ltac:(lia)). tauto.
Qed.

Lemma Free_spec p sid : pool_wf p -> sid ∈ inUse p ->
  pool_wf (Free p sid) /\ inUse (Free p sid) = inUse p ∖ {[sid]} /\
  pool_max (Free p sid) = pool_max p /\ next_sid (Free p sid) = next_sid p.
Proof.
  intros [W1 W2 W3 W4] Hin. unfold Free. rewrite bool_decide_eq_true_2 by done. cbn.
  split; [|done]. split; cbn; [done| | |].
  - intros x. rewrite elem_of_difference, elem_of_singleton, elem_of_app, list_elem_of_singleton, <- W2.
    destruct (decide (x = sid)) as [->|]; tauto.
  - intros x. rewrite elem_of_app, list_elem_of_singleton, not_elem_of_difference, elem_of_singleton.
    intros [Hx| ->]; [left; by apply W3|by right].
  - apply list.NoDup_app. split; [done|]. split; [|apply list.NoDup_singleton].
    intros x Hx Hs. apply list_elem_of_singleton in Hs as ->. by apply (W3 sid Hx).
Qed.

(** ** The table *)

Record mgr_wf (m : Manager) : Prop := {
  mw_session : forall sid l, bySession m !! sid = Some l -> exists u, records m !! l = Some u /\
    User.SessionID u = sid /\ byName m !! User.Name u = Some l /\
    1 <= User.SessionGeneration u <= generation m;
  mw_name : forall n l, byName m !! n = Some l -> exists u, records m !! l = Some u /\
    User.Name u = n /\ bySession m !! User.SessionID u = Some l;
  mw_gen : forall s1 s2 l1 l2 u1 u2, user_at m s1 = Some (l1, u1) -> user_at m s2 = Some (l2, u2) ->
    User.SessionGeneration u1 = User.SessionGeneration u2 -> s1 = s2;
  mw_fresh : forall l, is_Some (records m !! l) -> (l < fresh m)%nat;
  mw_pool : pool_wf (pool m);
  mw_inuse : inUse (pool m) = dom (bySession m);
  mw_max : pool_max (pool m) = maxUsers m * 2 /\ 0 < maxUsers m /\ 4 * maxUsers m < 2 ^ 32;
  mw_next : next_sid (pool m) <= maxUsers m + 1;
  mw_size : Count m <= maxUsers m;
  mw_generation : 0 <= generation m }.

Lemma user_at_Some m sid l u : user_at m sid = Some (l, u) <->
  bySession m !! sid = Some l /\ records m !! l = Some u.
Proof.
  unfold user_at. destruct (bySession m !! sid) as [l'|]; cbn; [|by split; [|intros []]].
  destruct (records m !! l') as [u'|] eqn:E; cbn.
  - split; [intros [= <- <-]; done|]. intros [[= <-] Hu]. congruence.
  - split; [done|]. intros [[= <-] Hu]. congruence.
Qed.
Lemma user_named_Some m n l u : user_named m n = Some (l, u) <->
  byName m !! n = Some l /\ records m !! l = Some u.
Proof.
  unfold user_named. destruct (byName m !! n) as [l'|]; cbn; [|by split; [|intros []]].
  destruct (records m !! l') as [u'|] eqn:E; cbn.
  - split; [intros [= <- <-]; done|]. intros [[= <-] Hu]. congruence.
  - split; [done|]. intros [[= <-] Hu]. congruence.
Qed.

Lemma user_at_None m sid : mgr_wf m -> user_at m sid = None <-> bySession m !! sid = None.
Proof.
  intros W. unfold user_at. destruct (bySession m !! sid) as [l|] eqn:E; [|done]. cbn.
  destruct (mw_session m W _ _ E) as (u & -> & _). done.
Qed.
Lemma user_named_None m n : mgr_wf m -> user_named m n = None <-> byName m !! n = None.
Proof.
  intros W. unfold user_named. destruct (byName m !! n) as [l|] eqn:E; [|done]. cbn.
  destruct (mw_name m W _ _ E) as (u & -> & _). done.
Qed.

Lemma size_inuse m : mgr_wf m -> Z.of_nat (size (inUse (pool m))) = Count m.
Proof. intros W. rewrite (mw_inuse m W). unfold Count. by rewrite size_dom. Qed.

Lemma NewManager_wf max : 0 < max -> 4 * max < 2 ^ 32 -> mgr_wf (NewManager max).
Proof.
  intros H0 H4.
  assert (forall sid, user_at (NewManager max) sid = None) as Hnone.
  { intros sid. unfold user_at. cbn -[lookup]. by rewrite lookup_empty. }
  split.
  - intros sid l H. cbn -[lookup] in H. by rewrite lookup_empty in H.
  - intros n l H. cbn -[lookup] in H. by rewrite lookup_empty in H.
  - intros s1 s2 l1 l2 u1 u2 H. by rewrite Hnone in H.
  - intros l [u H]. cbn -[lookup] in H. by rewrite lookup_empty in H.
  - split; cbn; [lia| |intros x Hx; by apply elem_of_nil in Hx|constructor].
    intros x. split; [|lia]. intros [Hx|Hx]; [by apply elem_of_empty in Hx|by apply elem_of_nil in Hx].
  - cbn. by rewrite dom_empty_L.
  - done.
  - cbn. lia.
  - unfold Count. cbn -[size]. rewrite map_size_empty. lia.
  - done.
Qed.

(** ** Every method keeps the table well-formed *)

Lemma session_loc_inj m s1 s2 l : mgr_wf m -> bySession m !! s1 = Some l -> bySession m !! s2 = Some l -> s1 = s2.
Proof.
  intros W H1 H2. destruct (mw_session m W _ _ H1) as (u1 & E1 & <- & _).
  destruct (mw_session m W _ _ H2) as (u2 & E2 & <- & _). congruence.
Qed.

Lemma write_user_at m l u sid : mgr_wf m -> is_Some (records m !! l) ->
  user_at (write_user l u m) sid =
    match bySession m !! sid with
    | Some l' => if decide (l' = l) then Some (l, u) else user_at m sid
    | None => None
    end.
Proof.
  intros W [u0 H0]. unfold user_at. cbn. destruct (bySession m !! sid) as [l'|]; [|done]. cbn.
  case_decide as Hd; [subst; by rewrite lookup_insert_eq|by rewrite lookup_insert_ne].
Qed.

(** The record is replaced by one with the same identity. *)
Lemma write_user_wf m sid l u u' : mgr_wf m -> user_at m sid = Some (l, u) ->
  User.SessionID u' = User.SessionID u -> User.Name u' = User.Name u ->
  User.SessionGeneration u' = User.SessionGeneration u -> mgr_wf (write_user l u' m).
Proof.
  intros W Hu Hs Hn Hg. pose proof Hu as [Hb Hr]%user_at_Some. split; try apply W; cbn.
  - intros sid' l' Hl'. destruct (mw_session m W _ _ Hl') as (u0 & E0 & H1 & H2 & H3).
    destruct (decide (l' = l)) as [->|Hne].
    + exists u'. rewrite lookup_insert_eq. assert (u0 = u) as -> by congruence. by rewrite Hs, Hn, Hg.
    + exists u0. by rewrite lookup_insert_ne.
  - intros n l' Hl'. destruct (mw_name m W _ _ Hl') as (u0 & E0 & H1 & H2).
    destruct (decide (l' = l)) as [->|Hne].
    + exists u'. rewrite lookup_insert_eq. assert (u0 = u) as -> by congruence. by rewrite Hs, Hn.
    + exists u0. by rewrite lookup_insert_ne.
  - intros s1 s2 l1 l2 u1 u2 H1 H2. rewrite write_user_at in H1, H2 by (done || by eexists).
    assert (forall s l0 u0, match bySession m !! s with
        | Some l' => if decide (l' = l) then Some (l, u') else user_at m s
        | None => None end = Some (l0, u0) ->
      exists u1, user_at m s = Some (l0, u1) /\ User.SessionGeneration u1 = User.SessionGeneration u0) as Hk.
    { intros s l0 u0. destruct (bySession m !! s) as [l'|] eqn:E; [|done]. case_decide; [|by eauto].
      intros [= <- <-]. subst l'. exists u. split; [|done]. by apply user_at_Some. }
    apply Hk in H1 as (v1 & H1 & G1). apply Hk in H2 as (v2 & H2 & G2). intros Hgen.
    apply (mw_gen m W s1 s2 l1 l2 v1 v2); try done. congruence.
  - intros l' [x Hx]. apply (mw_fresh m W). destruct (decide (l' = l)) as [->|Hne]; [by eexists|].
    rewrite lookup_insert_ne in Hx by done. by eexists.
Qed.

Lemma settle_identity before after u ch : settle before after = (u, ch) ->
  User.SessionID u = User.SessionID after /\ User.Name u = User.Name after /\
  User.SessionGeneration u = User.SessionGeneration before.
Proof. unfold settle. case_match; intros [= <- <-]; done. Qed.

(** Updates leave the session ID (and, except in [updateIdentity], the name)
    alone, as every caller in the server does. *)
Definition keeps_session (fn : User.t -> User.t) : Prop :=
  forall u, User.SessionID (fn u) = User.SessionID u.
Definition keeps_name (fn : User.t -> User.t) : Prop :=
  forall u, User.Name (fn u) = User.Name u.

Lemma UpdateUser_wf m sid fn : mgr_wf m -> keeps_session fn -> keeps_name fn ->
  mgr_wf (UpdateUser m sid fn).1.1.
Proof.
  intros W Hs Hn. unfold UpdateUser. destruct (user_at m sid) as [[l u]|] eqn:E; [|done].
  destruct (settle u (fn u)) as [u' ch] eqn:Es. destruct (settle_identity _ _ _ _ Es) as (H1 & H2 & H3).
  cbn [fst]. apply (write_user_wf m sid l u); try done; congruence.
Qed.

Lemma SetPing_wf m sid ping : mgr_wf m -> mgr_wf (SetPing m sid ping).
Proof.
  intros W. unfold SetPing. destruct (user_at m sid) as [[l u]|] eqn:E; [|done]. by apply (write_user_wf m sid l u).
Qed.

Lemma remove_wf m sid gen c : mgr_wf m -> mgr_wf (remove m sid gen c).1.1.
Proof.
  intros W. unfold remove. destruct (user_at m sid) as [[l u]|] eqn:E; [|done]. destruct (_ && _); [done|]. cbn [fst].
  pose proof E as [Hb Hr]%user_at_Some. destruct (mw_session m W _ _ Hb) as (u0 & E0 & H1 & H2 & H3).
  assert (u0 = u) as -> by congruence.
  assert (sid ∈ inUse (pool m)) as Hin by (rewrite (mw_inuse m W); apply elem_of_dom; by eexists).
  destruct (Free_spec (pool m) sid (mw_pool m W) Hin) as (Wp & Hu & Hmx & Hnx).
  assert (forall s l0 u0, user_at (m <| bySession := delete sid (bySession m) |>
      <| byName := delete (User.Name u) (byName m) |> <| pool := Free (pool m) sid |>) s = Some (l0, u0) ->
    user_at m s = Some (l0, u0)) as Hsub.
  { intros s l0 u0 [Hs Hr0]%user_at_Some. cbn in *. apply lookup_delete_Some in Hs as [_ Hs]. by apply user_at_Some. }
  split; cbn.
  - intros s l' [Hne Hl']%lookup_delete_Some. destruct (mw_session m W _ _ Hl') as (u0 & E1 & K1 & K2 & K3).
    exists u0. split; [done|]. split; [done|]. split; [|done]. rewrite lookup_delete_ne; [done|].
    intros Hn. assert (l' = l) as -> by congruence. apply Hne. by apply (session_loc_inj m sid s l).
  - intros n l' [Hne Hl']%lookup_delete_Some. destruct (mw_name m W _ _ Hl') as (u0 & E1 & K1 & K2).
    exists u0. split; [done|]. split; [done|]. rewrite lookup_delete_ne; [done|].
    intros Hs. assert (l' = l) as -> by congruence. congruence.
  - intros s1 s2 l1 l2 u1 u2 K1%Hsub K2%Hsub. by apply (mw_gen m W s1 s2 l1 l2).
  - apply (mw_fresh m W).
  - done.
  - rewrite Hu, (mw_inuse m W). by rewrite dom_delete_L.
  - rewrite Hmx. apply (mw_max m W).
  - rewrite Hnx. apply (mw_next m W).
  - pose proof (mw_size m W). unfold Count in *. cbn. rewrite map_size_delete_Some by (by eexists). lia.
  - apply (mw_generation m W).
Qed.

(** [Add], by cases: refused without effect, or one more user. *)
Lemma Add_cases m u : mgr_wf m -> generation m + 1 < 2 ^ 64 ->
  (Add m u = (m, None) /\ (is_Some (user_named m (User.Name u)) \/ Count m = maxUsers m)) \/
  (user_named m (User.Name u) = None /\ Count m < maxUsers m /\
   exists m' stored, Add m u = (m', Some stored) /\ mgr_wf m' /\
     user_at m (User.SessionID stored) = None /\
     stored = u <| User.SessionID := User.SessionID stored |>
                <| User.SessionGeneration := generation m + 1 |> <| User.AuthorizationRevision := 1 |> /\
     generation m' = generation m + 1 /\ maxUsers m' = maxUsers m /\
     forall sid, Snapshot m' sid = if decide (sid = User.SessionID stored) then Some stored else Snapshot m sid).
Proof.
  intros W Hg. unfold Add. destruct (user_named m (User.Name u)) as [[l0 u0]|] eqn:En; [left; by eauto|].
  destruct (mw_max m W) as (Hmx & Hm0 & Hm4). pose proof (mw_size m W) as Hsz.
  destruct (Z.leb_spec (maxUsers m) (Count m)); destruct (Z.ltb_spec 0 (maxUsers m)); cbn [andb]; try lia.
  { left. split; [done|]. right. lia. }
  right. split; [done|]. split; [done|].
  destruct (Alloc_spec (pool m) (maxUsers m) (mw_pool m W) Hmx Hm0 Hm4) as
    (p' & sid & -> & Wp & Hno & Hsid & Hu & Hpm & Hnx);
    [rewrite size_inuse by done; lia|apply (mw_next m W)|].
  rewrite (mw_inuse m W) in Hno. apply not_elem_of_dom in Hno.
  assert (user_at m sid = None) as Hat by (by apply user_at_None).
  pose proof (mw_generation m W) as Hg0. pose proof (mw_fresh m W) as Hfr.
  cbn [set_field generation fresh records bySession byName]. rewrite u64_id by zlia.
  set (l := fresh m). set (stored := u <| User.SessionID := sid |>
    <| User.SessionGeneration := generation m + 1 |> <| User.AuthorizationRevision := 1 |>).
  assert (records m !! l = None) as Hl.
  { destruct (records m !! l) eqn:E; [|done]. pose proof (Hfr l ltac:(by eexists)). unfold l in *. lia. }
  assert (forall l0 u0, records m !! l0 = Some u0 -> l0 <> l) as Hne by congruence.
  apply user_named_None in En; [|done].
  eexists _, stored. split; [reflexivity|]. split; [|split; [done|split; [done|split; [done|split; [done|]]]]].
  2: { intros s. unfold Snapshot, user_at. cbn. case_decide as Hd.
       - subst s. rewrite lookup_insert_eq. cbn. by rewrite lookup_insert_eq.
       - rewrite lookup_insert_ne by done. destruct (bySession m !! s) as [l'|] eqn:E; [|done]. cbn.
         destruct (mw_session m W _ _ E) as (u0 & E0 & _). rewrite lookup_insert_ne by (intros <-; by apply (Hne _ _ E0)). done. }
  assert (forall s l0 u0, user_at (mkManager (<[sid := l]> (bySession m)) (<[User.Name stored := l]> (byName m))
      (<[l := stored]> (records m)) (S l) p' (maxUsers m) (generation m + 1) (authorizationListeners m)) s = Some (l0, u0) ->
    (s = sid /\ u0 = stored) \/ user_at m s = Some (l0, u0)) as Hat'.
  { intros s l0 u0 [H1 H2]%user_at_Some. cbn in H1, H2. destruct (decide (s = sid)) as [->|Hs].
    - rewrite lookup_insert_eq in H1. injection H1 as <-. rewrite lookup_insert_eq in H2. injection H2 as <-. by left.
    - rewrite lookup_insert_ne in H1 by done. right. apply user_at_Some. split; [done|].
      destruct (mw_session m W _ _ H1) as (u1 & E1 & _).
      rewrite lookup_insert_ne in H2 by (intros <-; by apply (Hne _ _ E1)). done. }
  assert (forall s l0 u0, user_at m s = Some (l0, u0) -> User.SessionGeneration u0 <= generation m) as Hold.
  { intros s l0 u0 [H1 H2]%user_at_Some. destruct (mw_session m W _ _ H1) as (u1 & E1 & _ & _ & ?).
    assert (u1 = u0) as -> by congruence. lia. }
  split; cbn [bySession byName records fresh pool maxUsers generation].
  - intros s l'. destruct (decide (s = sid)) as [->|Hs].
    + rewrite lookup_insert_eq. intros [= <-]. exists stored. rewrite !lookup_insert_eq. cbn. split_and!; try done; lia.
    + rewrite lookup_insert_ne by done. intros E. destruct (mw_session m W _ _ E) as (u0 & E0 & K1 & K2 & K3).
      exists u0. rewrite lookup_insert_ne by (intros <-; by apply (Hne _ _ E0)). split; [done|]. split; [done|].
      split; [|lia]. rewrite lookup_insert_ne; [done|]. intros Hn. cbn in Hn. rewrite <- Hn in K2. congruence.
  - intros n l'. destruct (decide (n = User.Name stored)) as [->|Hn].
    + rewrite lookup_insert_eq. intros [= <-]. exists stored. rewrite !lookup_insert_eq. done.
    + rewrite lookup_insert_ne by done. intros E. destruct (mw_name m W _ _ E) as (u0 & E0 & K1 & K2).
      exists u0. rewrite lookup_insert_ne by (intros <-; by apply (Hne _ _ E0)). split; [done|]. split; [done|].
      rewrite lookup_insert_ne; [done|]. intros Hs. congruence.
  - intros s1 s2 l1 l2 u1 u2 [[-> ->]|H1]%Hat' [[-> ->]|H2]%Hat' Hgen; try done.
    + cbn in Hgen. pose proof (Hold _ _ _ H2). lia.
    + cbn in Hgen. pose proof (Hold _ _ _ H1). lia.
    + by apply (mw_gen m W s1 s2 l1 l2 u1 u2).
  - intros l' [x Hx]. destruct (decide (l' = l)) as [->|Hd]; [lia|].
    rewrite lookup_insert_ne in Hx by done. pose proof (Hfr l' ltac:(by eexists)). unfold l. lia.
  - done.
  - rewrite Hu, (mw_inuse m W). by rewrite dom_insert_L.
  - by rewrite Hpm.
  - done.
  - unfold Count in *. cbn [bySession]. rewrite map_size_insert_None by done. lia.
  - lia.
Qed.

Lemma updateIdentity_wf m rf c fn : mgr_wf m -> keeps_session fn -> mgr_wf (updateIdentity m rf c fn).1.1.
Proof.
  intros W Hk. unfold updateIdentity. destruct (user_at m (SessionID rf)) as [[l u]|] eqn:E; [|done].
  destruct (_ && _); [done|]. pose proof E as [Hb Hr]%user_at_Some.
  destruct (mw_session m W _ _ Hb) as (u0 & E0 & H1 & H2 & H3). assert (u0 = u) as -> by congruence.
  destruct (match user_named m (User.Name (fn u)) with Some (_, other) => _ | None => false end) eqn:Ec; [done|].
  destruct (settle u (fn u)) as [cand ch] eqn:Es. destruct (settle_identity _ _ _ _ Es) as (K1 & K2 & K3).
  cbn [fst]. rewrite Hk in K1. case_bool_decide as Hn; cbn [negb].
  { apply (write_user_wf m (SessionID rf) l u); congruence. }
  assert (byName m !! User.Name cand = None) as Hfree.
  { apply user_named_None; [done|]. destruct (user_named m (User.Name cand)) as [[l' other]|] eqn:En; [|done]. exfalso.
    rewrite <- K2, En in Ec. apply negb_false_iff, Z.eqb_eq in Ec. apply user_named_Some in En as [En1 En2].
    destruct (mw_name m W _ _ En1) as (o & Eo & Ho1 & Ho2). assert (o = other) as -> by congruence.
    rewrite Ec in Ho2. assert (l' = l) as -> by congruence. congruence. }
  assert (mgr_wf (write_user l (cand <| User.Name := User.Name u |>) m)) as W'
    by (apply (write_user_wf m (SessionID rf) l u); cbn; congruence).
  split; try apply W; cbn.
  - intros s l' Hl'. destruct (decide (l' = l)) as [->|Hne].
    + exists cand. rewrite lookup_insert_eq. rewrite lookup_insert_eq. split; [done|].
      rewrite (session_loc_inj m s (SessionID rf) l W Hl' Hb). split; [congruence|]. split; [done|]. by rewrite K3.
    + destruct (mw_session m W _ _ Hl') as (u1 & E1 & L1 & L2 & L3). exists u1.
      rewrite lookup_insert_ne by done. split; [done|]. split; [done|]. split; [|done].
      rewrite lookup_insert_ne by congruence. rewrite lookup_delete_ne; [done|]. intros Hx. rewrite <- Hx in L2. congruence.
  - intros n l'. destruct (decide (n = User.Name cand)) as [->|Hnn].
    + rewrite lookup_insert_eq. intros [= <-]. exists cand. rewrite lookup_insert_eq. split; [done|]. split; [done|].
      by rewrite K1, H1.
    + rewrite lookup_insert_ne by done. intros [Hd Hl']%lookup_delete_Some.
      destruct (mw_name m W _ _ Hl') as (u1 & E1 & L1 & L2). exists u1.
      rewrite lookup_insert_ne; [done|]. intros <-. assert (u1 = u) as -> by congruence. congruence.
  - intros s1 s2 l1 l2 u1 u2 M1 M2 Hgen.
    assert (forall s l0 u0, user_at (m <| records := <[l := cand]> (records m) |>
        <| byName := <[User.Name cand := l]> (delete (User.Name u) (byName m)) |>) s = Some (l0, u0) ->
      exists u1, user_at m s = Some (l0, u1) /\ User.SessionGeneration u1 = User.SessionGeneration u0) as Hq.
    { intros s l0 u0 [N1 N2]%user_at_Some. cbn in N1, N2. destruct (decide (l0 = l)) as [->|Hne].
      - rewrite lookup_insert_eq in N2. injection N2 as <-. exists u. split; [by apply user_at_Some|done].
      - rewrite lookup_insert_ne in N2 by done. exists u0. split; [by apply user_at_Some|done]. }
    apply Hq in M1 as (v1 & M1 & G1). apply Hq in M2 as (v2 & M2 & G2).
    apply (mw_gen m W s1 s2 l1 l2 v1 v2); try done. congruence.
  - intros l' [x Hx]. apply (mw_fresh m W). destruct (decide (l' = l)) as [->|Hne]; [by eexists|].
    rewrite lookup_insert_ne in Hx by done. by eexists.
Qed.

(** ** Runs of the manager *)

Inductive mop :=
  | OpAdd (u : User.t)
  | OpRemove (sid : Z)
  | OpRemoveIfGeneration (sid gen : Z)
  | OpUpdateUser (sid : Z) (fn : User.t -> User.t)
  | OpUpdateIdentity (rf : SessionRef) (check : bool) (fn : User.t -> User.t)
  | OpSetPing (sid ping : Z)
  | OpListener (l : nat).

Definition mop_ok (o : mop) : Prop :=
  match o with
  | OpUpdateUser _ fn => keeps_session fn /\ keeps_name fn
  | OpUpdateIdentity _ _ fn => keeps_session fn
  | _ => True
  end.

Definition exec (m : Manager) (o : mop) : Manager :=
  match o with
  | OpAdd u => (Add m u).1
  | OpRemove sid => (Remove m sid).1.1
  | OpRemoveIfGeneration sid gen => (RemoveIfGeneration m sid gen).1.1
  | OpUpdateUser sid fn => (UpdateUser m sid fn).1.1
  | OpUpdateIdentity rf check fn => (updateIdentity m rf check fn).1.1
  | OpSetPing sid ping => SetPing m sid ping
  | OpListener l => AddAuthorizationListener m l
  end.

(** The references a run issues. *)
Definition issued (m : Manager) (o : mop) : list SessionRef :=
  match o with
  | OpAdd u => match (Add m u).2 with
               | Some u => [mkRef (User.SessionID u) (User.SessionGeneration u)]
               | None => []
               end
  | _ => []
  end.

Fixpoint run_mgr (m : Manager) (ops : list mop) : Manager * list SessionRef :=
  match ops with
  | [] => (m, [])
  | o :: ops => let '(m', refs) := run_mgr (exec m o) ops in (m', issued m o ++ refs)
  end.

Lemma generation_other m o : (forall u, o <> OpAdd u) -> generation (exec m o) = generation m /\ issued m o = [].
Proof.
  intros Ho. split; [|by destruct o; try done; specialize (Ho u)].
  destruct o as [u|sid|sid gen|sid fn|rf c fn|sid ping|l]; cbn [exec].
  - by specialize (Ho u).
  - unfold Remove, remove. by repeat case_match.
  - unfold RemoveIfGeneration, remove. by repeat case_match.
  - unfold UpdateUser. destruct (user_at m sid) as [[l u]|]; [|done]. by destruct (settle _ _).
  - unfold updateIdentity. destruct (user_at _ _) as [[l u]|]; [|done]. destruct (_ && _); [done|].
    repeat case_match; done.
  - unfold SetPing. by repeat case_match.
  - done.
Qed.

Lemma exec_wf m o : mgr_wf m -> mop_ok o -> generation m + 1 < 2 ^ 64 ->
  mgr_wf (exec m o) /\ generation m <= generation (exec m o) <= generation m + 1 /\
  (forall rf, rf ∈ issued m o -> generation m < Generation rf <= generation (exec m o)) /\
  (length (issued m o) <= 1)%nat.
Proof.
  intros W Ho Hg. destruct o as [u|sid|sid gen|sid fn|rf c fn|sid ping|l].
  - cbn [exec issued]. destruct (Add_cases m u W Hg) as [[-> _]|(_ & _ & m' & st & -> & W' & _ & Hst & Hgen & _)].
    + cbn. split; [done|]. split; [lia|]. split; [|lia]. intros rf Hrf. by apply elem_of_nil in Hrf.
    + cbn. split; [done|]. split; [lia|]. split; [|lia]. intros rf ->%list_elem_of_singleton. cbn.
      rewrite Hst. cbn. lia.
  - destruct (generation_other m (OpRemove sid) ltac:(done)) as [-> ->].
    split; [by apply remove_wf|]. split; [lia|]. split; [|cbn; lia]. intros rf Hrf. by apply elem_of_nil in Hrf.
  - destruct (generation_other m (OpRemoveIfGeneration sid gen) ltac:(done)) as [-> ->].
    split; [by apply remove_wf|]. split; [lia|]. split; [|cbn; lia]. intros rf Hrf. by apply elem_of_nil in Hrf.
  - destruct (generation_other m (OpUpdateUser sid fn) ltac:(done)) as [-> ->]. destruct Ho.
    split; [by apply UpdateUser_wf|]. split; [lia|]. split; [|cbn; lia]. intros rf Hrf. by apply elem_of_nil in Hrf.
  - destruct (generation_other m (OpUpdateIdentity rf c fn) ltac:(done)) as [-> ->].
    split; [by apply updateIdentity_wf|]. split; [lia|]. split; [|cbn; lia]. intros rf' Hrf. by apply elem_of_nil in Hrf.
  - destruct (generation_other m (OpSetPing sid ping) ltac:(done)) as [-> ->].
    split; [by apply SetPing_wf|]. split; [lia|]. split; [|cbn; lia]. intros rf Hrf. by apply elem_of_nil in Hrf.
  - destruct (generation_other m (OpListener l) ltac:(done)) as [-> ->].
    split; [by destruct W; split|]. split; [lia|]. split; [|cbn; lia]. intros rf Hrf. by apply elem_of_nil in Hrf.
Qed.

Lemma exec_max m o : maxUsers (exec m o) = maxUsers m.
Proof.
  destruct o as [u|sid|sid gen|sid fn|rf c fn|sid ping|l]; cbn [exec];
    unfold Add, Remove, RemoveIfGeneration, remove, UpdateUser, updateIdentity, SetPing; by repeat case_match.
Qed.

Lemma run_mgr_wf ops m : mgr_wf m -> Forall mop_ok ops -> generation m + zlen ops < 2 ^ 64 ->
  mgr_wf (run_mgr m ops).1 /\ maxUsers (run_mgr m ops).1 = maxUsers m /\
  NoDup (map Generation (run_mgr m ops).2) /\
  (forall rf, rf ∈ (run_mgr m ops).2 -> generation m < Generation rf) /\
  generation (run_mgr m ops).1 <= generation m + zlen ops.
Proof.
  revert m. induction ops as [|o ops IH]; intros m W Hok Hb; cbn [run_mgr].
  { split; [done|]. split; [done|]. split; [constructor|]. split; [|rewrite zlen_nil; cbn; lia].
    intros rf Hrf. by apply elem_of_nil in Hrf. }
  apply Forall_cons_iff in Hok as [Ho Hok]. rewrite zlen_cons in *. pose proof (zlen_nonneg ops).
  destruct (exec_wf m o W Ho ltac:(lia)) as (W' & Hg & Hi & Hlen).
  specialize (IH (exec m o) W' Hok ltac:(lia)). destruct (run_mgr (exec m o) ops) as [m' refs]. cbn [fst snd] in *.
  destruct IH as (W2 & Hmx & Hnd & Hgen & Hgb). split; [done|]. split; [by rewrite Hmx, exec_max|].
  split; [|split; [|lia]].
  - rewrite map_app. apply list.NoDup_app. split; [|split; [|done]].
    + destruct (issued m o) as [|r [|]]; cbn in *; [constructor|apply list.NoDup_singleton|lia].
    + intros g (r & -> & Hr)%list_elem_of_fmap (r' & Heq & Hr')%list_elem_of_fmap.
      pose proof (Hi r Hr). pose proof (Hgen r' Hr'). lia.
  - intros rf [Hr|Hr]%elem_of_app; [by apply Hi|]. pose proof (Hgen rf Hr). lia.
Qed.

Lemma Snapshot_Some m sid u : Snapshot m sid = Some u <-> exists l, user_at m sid = Some (l, u).
Proof.
  unfold Snapshot. destruct (user_at m sid) as [[l v]|]; cbn; [|by split; [|intros []]].
  split; [intros [= <-]; by eexists|]. intros (l' & [= _ <-]). done.
Qed.
Lemma SnapshotByName_Some m n u : SnapshotByName m n = Some u <-> exists l, user_named m n = Some (l, u).
Proof.
  unfold SnapshotByName. destruct (user_named m n) as [[l v]|]; cbn; [|by split; [|intros []]].
  split; [intros [= <-]; by eexists|]. intros (l' & [= _ <-]). done.
Qed.

(** The user table is consistent after any sequence of operations: never
    more users than the limit, the session index and the name index describe
    the same users, and no two connected users share a name or a
    generation. *)
Theorem user_table_consistent (max : Z) (ops : list mop) :
  0 < max -> 4 * max < 2 ^ 32 -> zlen ops < 2 ^ 64 -> Forall mop_ok ops ->
  let m := (run_mgr (NewManager max) ops).1 in
  Count m <= max /\
  (forall sid u, Snapshot m sid = Some u ->
     User.SessionID u = sid /\ SnapshotByName m (User.Name u) = Some u) /\
  (forall n u, SnapshotByName m n = Some u ->
     User.Name u = n /\ Snapshot m (User.SessionID u) = Some u) /\
  (forall s1 s2 u1 u2, Snapshot m s1 = Some u1 -> Snapshot m s2 = Some u2 ->
     User.Name u1 = User.Name u2 \/ User.SessionGeneration u1 = User.SessionGeneration u2 -> s1 = s2).
Proof.
  intros H0 H4 Hl Hok. cbn zeta.
  destruct (run_mgr_wf ops (NewManager max) (NewManager_wf max H0 H4) Hok) as (W & Hmx & _); [cbn; lia|].
  set (m := (run_mgr (NewManager max) ops).1) in *. cbn in Hmx.
  split; [rewrite <- Hmx; apply (mw_size m W)|].
  assert (forall sid u, Snapshot m sid = Some u -> exists l, bySession m !! sid = Some l /\ records m !! l = Some u /\
    User.SessionID u = sid /\ byName m !! User.Name u = Some l) as Hs.
  { intros sid u (l & [H1 H2]%user_at_Some)%Snapshot_Some. destruct (mw_session m W _ _ H1) as (u0 & E & ? & ? & _).
    assert (u0 = u) as -> by congruence. by exists l. }
  split; [|split].
  - intros sid u (l & H1 & H2 & H3 & H5)%Hs. split; [done|]. apply SnapshotByName_Some. exists l. by apply user_named_Some.
  - intros n u (l & [H1 H2]%user_named_Some)%SnapshotByName_Some. destruct (mw_name m W _ _ H1) as (u0 & E & ? & ?).
    assert (u0 = u) as -> by congruence. split; [done|]. apply Snapshot_Some. exists l. by apply user_at_Some.
  - intros s1 s2 u1 u2 H1 H2 [Hn|Hg].
    + destruct (Hs _ _ H1) as (l1 & ? & ? & <- & N1). destruct (Hs _ _ H2) as (l2 & ? & ? & <- & N2).
      rewrite Hn in N1. congruence.
    + apply Snapshot_Some in H1 as (l1 & H1). apply Snapshot_Some in H2 as (l2 & H2). by apply (mw_gen m W s1 s2 l1 l2 u1 u2).
Qed.

Definition sample_user (name : Z) : User.t := User.zero <| User.Name := [name] |>.
Definition sample_ops : list mop :=
  [OpAdd (sample_user 65); OpAdd (sample_user 66); OpAdd (sample_user 65); OpRemove 1;
   OpAdd (sample_user 67); OpUpdateIdentity (mkRef 2 2) true (fun u => u <| User.Name := [68] |>)].

Lemma sample_ops_ok : Forall mop_ok sample_ops.
Proof. by repeat constructor. Qed.

Lemma user_table_consistent_witness :
  let m := (run_mgr (NewManager 5) sample_ops).1 in
  (Count m <= 5 /\
   (forall sid u, Snapshot m sid = Some u ->
      User.SessionID u = sid /\ SnapshotByName m (User.Name u) = Some u) /\
   (forall n u, SnapshotByName m n = Some u ->
      User.Name u = n /\ Snapshot m (User.SessionID u) = Some u) /\
   (forall s1 s2 u1 u2, Snapshot m s1 = Some u1 -> Snapshot m s2 = Some u2 ->
      User.Name u1 = User.Name u2 \/ User.SessionGeneration u1 = User.SessionGeneration u2 -> s1 = s2)) /\
  Count m = 2 /\ (User.Name <$> Snapshot m 2) = Some [68].
Proof.
  split; [apply (user_table_consistent 5 sample_ops); [lia|lia|done|exact sample_ops_ok]|].
  split; vm_compute; reflexivity.
Defined.

(** A session reference is never issued twice: over any sequence of
    operations the generations of the sessions that were added are pairwise
    distinct, although session IDs are reused. *)
Theorem session_refs_unique (max : Z) (ops : list mop) :
  0 < max -> 4 * max < 2 ^ 32 -> zlen ops < 2 ^ 64 -> Forall mop_ok ops ->
  NoDup (map Generation (run_mgr (NewManager max) ops).2).
Proof.
  intros H0 H4 Hl Hok. apply (run_mgr_wf ops (NewManager max) (NewManager_wf max H0 H4) Hok). cbn. lia.
Qed.

Lemma session_refs_unique_witness :
  NoDup (map Generation (run_mgr (NewManager 5) sample_ops).2) /\
  (run_mgr (NewManager 5) sample_ops).2 = [mkRef 1 1; mkRef 2 2; mkRef 1 3].
Proof.
  split; [apply session_refs_unique; [lia|lia|done|exact sample_ops_ok]|vm_compute; reflexivity].
Defined.

(** A user is refused exactly when the name is taken or the server is full:
    the pool never runs out before the limit, whatever was added and removed
    before; an accepted user is stored as given, under an ID nobody holds,
    and nobody else's record changes. *)
Theorem Add_exact (max : Z) (ops : list mop) (u : User.t) :
  0 < max -> 4 * max < 2 ^ 32 -> zlen ops + 1 < 2 ^ 64 -> Forall mop_ok ops ->
  let m := (run_mgr (NewManager max) ops).1 in
  ((Add m u).2 = None <-> is_Some (SnapshotByName m (User.Name u)) \/ Count m = max) /\
  (forall stored, (Add m u).2 = Some stored ->
     Snapshot m (User.SessionID stored) = None /\
     stored = u <| User.SessionID := User.SessionID stored |>
                <| User.SessionGeneration := generation m + 1 |> <| User.AuthorizationRevision := 1 |> /\
     forall sid, Snapshot (Add m u).1 sid =
       if decide (sid = User.SessionID stored) then Some stored else Snapshot m sid).
Proof.
  intros H0 H4 Hl Hok. cbn zeta.
  destruct (run_mgr_wf ops (NewManager max) (NewManager_wf max H0 H4) Hok) as (W & Hmx & _ & _ & Hg); [cbn; lia|].
  set (m := (run_mgr (NewManager max) ops).1) in *. cbn in Hmx, Hg.
  assert (is_Some (user_named m (User.Name u)) <-> is_Some (SnapshotByName m (User.Name u))) as Hn.
  { unfold SnapshotByName. destruct (user_named m (User.Name u)) as [[l v]|]; cbn; split; intros [? ?]; first [done|by eexists]. }
  destruct (Add_cases m u W ltac:(lia)) as [[-> Hwhy]|(Hnone & Hc & m' & st & -> & _ & Hat & Hst & _ & _ & Hsn)];
    cbn [fst snd].
  - split; [|done]. split; [|done]. intros _. rewrite <- Hn, <- Hmx. done.
  - split.
    + split; [done|]. rewrite <- Hn, Hnone. intros [[? ?]|?]; [done|lia].
    + intros st' [= <-]. split; [unfold Snapshot; by rewrite Hat|]. done.
Qed.

Lemma Add_exact_witness :
  let m := (run_mgr (NewManager 5) sample_ops).1 in
  let u := sample_user 69 in
  (((Add m u).2 = None <-> is_Some (SnapshotByName m (User.Name u)) \/ Count m = 5) /\
   (forall stored, (Add m u).2 = Some stored ->
      Snapshot m (User.SessionID stored) = None /\
      stored = u <| User.SessionID := User.SessionID stored |>
                 <| User.SessionGeneration := generation m + 1 |> <| User.AuthorizationRevision := 1 |> /\
      forall sid, Snapshot (Add m u).1 sid =
        if decide (sid = User.SessionID stored) then Some stored else Snapshot m sid)) /\
  (User.SessionID <$> (Add m u).2) = Some 3.
Proof.
  split; [apply (Add_exact 5 sample_ops); [lia|lia|done|exact sample_ops_ok]|vm_compute; reflexivity].
Defined.

(** A stale reference is inert: when the session ID now belongs to another
    generation, removing, reading or updating through the old reference finds
    nobody, changes nothing and notifies nobody. *)
Theorem stale_reference_inert (m : Manager) (rf : SessionRef) (u : User.t) (fn : User.t -> User.t) :
  Snapshot m (SessionID rf) = Some u -> User.SessionGeneration u <> Generation rf ->
  RemoveIfGeneration m (SessionID rf) (Generation rf) = (m, None, []) /\
  SnapshotRef m rf = None /\ UpdateIdentityRef m rf fn = (m, None, []).
Proof.
  intros (l & Hu)%Snapshot_Some Hg. apply Z.eqb_neq in Hg.
  unfold RemoveIfGeneration, remove, SnapshotRef, UpdateIdentityRef, updateIdentity. by rewrite Hu, Hg.
Qed.

Lemma stale_reference_inert_witness :
  let m := (run_mgr (NewManager 5) sample_ops).1 in
  RemoveIfGeneration m 1 1 = (m, None, []) /\ SnapshotRef m (mkRef 1 1) = None /\
  UpdateIdentityRef m (mkRef 1 1) id = (m, None, []).
Proof.
  cbn zeta. eapply (stale_reference_inert _ (mkRef 1 1)); [vm_compute; reflexivity|done].
Defined.

(** What authorization depends on. *)
Definition auth_view (u : User.t) :=
  (User.UserID u, User.ChannelID u, User.IsSuperUser u, User.CertHash u, User.CertificateVerified u,
   User.ExternalIdentity u, User.IdentityVersion u, User.PolicyVersion u, User.AccessTokens u,
   User.ExternalGroups u).

Lemma authorizationChanged_view a b : authorizationChanged a b = false <-> auth_view a = auth_view b.
Proof.
  unfold authorizationChanged, auth_view. rewrite !orb_false_iff, !negb_false_iff, !Z.eqb_eq, !eqb_true_iff, !bool_decide_eq_true.
  split; [intros H; destruct_and! H; congruence|]. intros [=]. split_and!; done.
Qed.

(** The authorization revision tells caches the truth: an update raises it
    by one, and tells every listener, exactly when something authorization
    depends on has changed; and no update function can alter the generation or
    the revision itself. *)
Theorem UpdateUser_revision (m : Manager) (sid : Z) (fn : User.t -> User.t) (u : User.t) :
  Snapshot m sid = Some u ->
  exists m' u' ns, UpdateUser m sid fn = (m', Some u', ns) /\ Snapshot m' sid = Some u' /\
    User.SessionGeneration u' = User.SessionGeneration u /\ auth_view u' = auth_view (fn u) /\
    (auth_view u = auth_view (fn u) -> User.AuthorizationRevision u' = User.AuthorizationRevision u /\ ns = []) /\
    (auth_view u <> auth_view (fn u) ->
       User.AuthorizationRevision u' = u64 (User.AuthorizationRevision u + 1) /\
       ns = map (fun l => (l, u', false)) (authorizationListeners m)).
Proof.
  intros (l & Hu)%Snapshot_Some. unfold UpdateUser. rewrite Hu. unfold settle.
  set (after := (fn u) <| User.SessionGeneration := User.SessionGeneration u |>
    <| User.AuthorizationRevision := User.AuthorizationRevision u |>).
  assert (auth_view after = auth_view (fn u)) as Hv by done.
  assert (forall v, Snapshot (write_user l v m) sid = Some v) as Hsn.
  { intros v. apply user_at_Some in Hu as [Hb _]. unfold Snapshot, user_at. cbn. rewrite Hb. cbn. by rewrite lookup_insert_eq. }
  destruct (authorizationChanged u after) eqn:E.
  - eexists _, _, _. split; [reflexivity|]. split; [apply Hsn|]. split; [done|]. split; [done|].
    split; [|done]. rewrite <- Hv. intros Heq. apply authorizationChanged_view in Heq. congruence.
  - eexists _, _, _. split; [reflexivity|]. split; [apply Hsn|]. split; [done|]. split; [done|].
    split; [done|]. rewrite <- Hv. intros Hne. exfalso. by apply Hne, authorizationChanged_view.
Qed.

Lemma UpdateUser_revision_witness :
  let m := (run_mgr (NewManager 5) (OpListener 0 :: sample_ops)).1 in
  let fn u := u <| User.ChannelID := 9 |> <| User.AuthorizationRevision := 77 |> in
  exists u, Snapshot m 2 = Some u /\
  exists m' u' ns, UpdateUser m 2 fn = (m', Some u', ns) /\ Snapshot m' 2 = Some u' /\
    User.SessionGeneration u' = User.SessionGeneration u /\ auth_view u' = auth_view (fn u) /\
    (auth_view u = auth_view (fn u) -> User.AuthorizationRevision u' = User.AuthorizationRevision u /\ ns = []) /\
    (auth_view u <> auth_view (fn u) ->
       User.AuthorizationRevision u' = u64 (User.AuthorizationRevision u + 1) /\
       ns = map (fun l => (l, u', false)) (authorizationListeners m)).
Proof.
  intros m fn. destruct (Snapshot m 2) as [u|] eqn:E; [|by vm_compute in E].
  exists u. split; [done|]. exact (UpdateUser_revision m 2 fn u E).
Defined.
