(* ===== verification/ChannelManager.v ===== *)
(** * The channel tree

    Models [internal/channel/manager.go] and [pkg/mumble/channel.go]: the tree
    of channel nodes with its parent and child pointers, the links between
    channels, and the temporary channels. Nodes live on a heap: [tree] maps an
    ID to a node and a node's [Children] are pointers to the same nodes.

    The database (GORM over SQLite) is an interface, [ChannelStore]: what the
    manager calls, with the two promises it relies on. [sort.Slice] is any
    function that returns a sorted permutation ([Sorter]); a Go map is
    iterated in an order chosen anew for each loop, an argument [order]. *)

From Stdlib Require Import ZArith Lia String.
From stdpp Require Import base numbers list gmap sets option sorting.
From S2P Require Import Prelude Wire Fields Registry.

Module Channels.

Definition rootChannelID : Z := 0.

Record Channel := mkChannel {
  ID : Z;
  ParentID : Z;
  Name : gostring;
  Description : gostring;
  Position : Z;
  MaxUsers : Z;
  IsTemporary : bool;
  Links : list Z;
  InheritACL : bool }.
#[global] Instance Channel_eta : Eta Channel := fun c =>
  mkChannel (ID c) (ParentID c) (Name c) (Description c) (Position c) (MaxUsers c) (IsTemporary c)
    (Links c) (InheritACL c).

Record channelNode := mkNode { chan : Channel; Children : list loc }.
#[global] Instance channelNode_eta : Eta channelNode := fun n => mkNode (chan n) (Children n).

(** A row of the table [channels] of this virtual server. *)
Record Row := mkRow {
  row_ID : Z;
  row_ParentID : option Z;
  row_Name : gostring;
  row_Description : gostring;
  row_Position : Z;
  row_MaxUsers : Z;
  row_IsTemporary : bool;
  row_InheritACL : bool;
  row_Links : list Z }.

(** The map [updates] of [Update], column by column. *)
Record Updates := mkUpdates {
  up_name : option gostring;
  up_description : option gostring;
  up_position : option Z;
  up_max_users : option Z;
  up_is_temporary : option bool;
  up_links : option (list Z) }.

Record UpdateOpts := mkOpts {
  opt_Name : option gostring;
  opt_Description : option gostring;
  opt_Position : option Z;
  opt_MaxUsers : option Z;
  opt_Temporary : option bool;
  opt_Links : option (list Z);
  opt_LinksAdd : list Z;
  opt_LinksRemove : list Z }.

(** [sort.Slice] by an integer key: sorted, and not necessarily stable. *)
Class Sorter := {
  sortBy : forall {A : Type}, (A -> Z) -> list A -> list A;
  sortBy_perm : forall A (key : A -> Z) l, sortBy key l ≡ₚ l;
  sortBy_sorted : forall A (key : A -> Z) l, StronglySorted (fun x y => key x <= key y) (sortBy key l) }.

(** What the manager asks of the database, [None] or [false] on an error.
    [db_ids] are the IDs given out so far, of deleted rows too: the primary
    key is assigned by the database and rows are deleted softly. *)
Class ChannelStore (DB TX : Type) := {
  dbFind : DB -> option (list Row);
  dbCreate : DB -> Row -> DB * option Row;
  dbUpdates : DB -> Z -> Updates -> DB * bool;
  dbDelete : DB -> Z -> DB * bool;
  dbMigrateRoot : DB -> Z -> option DB;
  txBegin : DB -> option TX;
  txUpdateLinks : TX -> Z -> list Z -> option TX;
  txCommit : TX -> option DB;
  db_ids : DB -> gset Z;
  dbCreate_fresh : forall db r db' r', dbCreate db r = (db', Some r') ->
    0 < row_ID r' < 2 ^ 32 /\ row_ID r' ∉ db_ids db /\ row_ID r' ∈ db_ids db';
  dbCreate_columns : forall db r db' r', dbCreate db r = (db', Some r') ->
    row_Name r' = row_Name r /\ row_Description r' = row_Description r /\ row_Position r' = row_Position r /\
    row_MaxUsers r' = row_MaxUsers r /\ row_IsTemporary r' = row_IsTemporary r;
  dbCreate_ids : forall db r db' o, dbCreate db r = (db', o) -> db_ids db ⊆ db_ids db';
  dbUpdates_ids : forall db id u db' ok, dbUpdates db id u = (db', ok) -> db_ids db ⊆ db_ids db';
  dbDelete_ids : forall db id db' ok, dbDelete db id = (db', ok) -> db_ids db ⊆ db_ids db';
  tx_ids : TX -> gset Z;
  txBegin_ids : forall db tx, txBegin db = Some tx -> tx_ids tx = db_ids db;
  txUpdateLinks_ids : forall tx id ls tx', txUpdateLinks tx id ls = Some tx' -> tx_ids tx' = tx_ids tx;
  txCommit_ids : forall tx db, txCommit tx = Some db -> db_ids db = tx_ids tx }.

(** The order in which a loop visits the keys of a map. *)
Definition order : Type := list Z -> list Z.
Definition order_ok (ord : order) : Prop := forall l, ord l ≡ₚ l.

Section Manager.
Context `{SO : Sorter} {DB TX : Type} `{CS : ChannelStore DB TX}.

Record Manager := mkManager {
  db : DB;
  tree : gmap Z loc;
  nodes : gmap loc channelNode;
  fresh : loc;
  authorizationListeners : list nat }.
#[local] Instance Manager_eta : Eta Manager := fun m =>
  mkManager (db m) (tree m) (nodes m) (fresh m) (authorizationListeners m).

Definition node_at (m : Manager) (id : Z) : option (loc * channelNode) :=
  l ← tree m !! id; n ← nodes m !! l; Some (l, n).
Definition channel_at (m : Manager) (id : Z) : option Channel := chan ∘ snd <$> node_at m id.
Definition write_node (l : loc) (n : channelNode) (m : Manager) : Manager :=
  m <| nodes := <[l := n]> (nodes m) |>.
Definition keys (m : Manager) : list Z := elements (dom (tree m)).
Definition in_tree (m : Manager) (id : Z) : bool := bool_decide (is_Some (tree m !! id)).

(** [p.Children = append(...)], [sort.Slice(p.Children, ...)]. *)
Definition position_of (m : Manager) (l : loc) : Z := default 0 (Position ∘ chan <$> nodes m !! l).
Definition sort_children (m : Manager) (l : loc) : Manager :=
  match nodes m !! l with
  | Some n => write_node l (n <| Children := sortBy (position_of m) (Children n) |>) m
  | None => m
  end.
Definition append_child (m : Manager) (parent : Z) (l : loc) : Manager :=
  match node_at m parent with
  | Some (p, n) => write_node p (n <| Children := Children n ++ [l] |>) m
  | None => m
  end.

(** ** Loading *)

Definition ptrToUint32 (p : option Z) : Z := match p with None => 0 | Some v => u32 v end.

(** The last row without a parent, and whether some row has ID 0. *)
Definition root_scan (rows : list Row) : option Row * bool :=
  fold_left (fun '(root, zero) c =>
    (match row_ParentID c with None => Some c | Some _ => root end, zero || (row_ID c =? 0)))
    rows (None, false).

Definition fixRootID (d : DB) (rows : list Row) : DB * list Row :=
  let '(root, hasZero) := root_scan rows in
  match root with
  | None => (d, rows)
  | Some r =>
      if row_ID r =? 0 then (d, rows) else
      if hasZero then (d, rows) else
      match dbMigrateRoot d (row_ID r) with
      | None => (d, rows)
      | Some d' => match dbFind d' with None => (d', rows) | Some fixed => (d', fixed) end
      end
  end.

Definition root_row : Row := mkRow 0 None (str "Root"%string) [] 0 0 false true [].

Definition row_channel (c : Row) : Channel :=
  mkChannel (u32 (row_ID c)) (ptrToUint32 (row_ParentID c)) (row_Name c) (row_Description c)
    (row_Position c) (row_MaxUsers c) (row_IsTemporary c) (row_Links c) (row_InheritACL c).

Definition add_row (m : Manager) (c : Row) : Manager :=
  let l := fresh m in
  m <| nodes := <[l := mkNode (row_channel c) []]> (nodes m) |>
    <| tree := <[u32 (row_ID c) := l]> (tree m) |> <| fresh := S l |>.

Definition attach (m : Manager) (id : Z) : Manager :=
  match node_at m id with
  | Some (l, n) => if ID (chan n) =? 0 then m else append_child m (ParentID (chan n)) l
  | None => m
  end.
Definition sort_node (m : Manager) (id : Z) : Manager :=
  match tree m !! id with Some l => sort_children m l | None => m end.

(** The rows the tree is built from: an empty table gets a root first. *)
Definition load_rows (d : DB) (rows : list Row) : DB * list Row :=
  match rows with
  | [] => match dbCreate d root_row with
          | (d, Some root) => fixRootID d [root]
          | (d, None) => (d, [])
          end
  | _ => fixRootID d rows
  end.

(** [ord1] and [ord2] are the orders of the two loops over the tree. *)
Definition load (ord1 ord2 : order) (m : Manager) : Manager :=
  match dbFind (db m) with
  | None => m
  | Some rows =>
      let '(d, rows) := load_rows (db m) rows in
      let m := fold_left add_row rows (m <| db := d |>) in
      let m := fold_left attach (ord1 (keys m)) m in
      fold_left sort_node (ord2 (keys m)) m
  end.

Definition NewManager (ord1 ord2 : order) (d : DB) : Manager :=
  load ord1 ord2 (mkManager d ∅ ∅ 0%nat []).

Definition Reload (ord1 ord2 : order) (m : Manager) : Manager * list nat :=
  let m := load ord1 ord2 (m <| tree := ∅ |>) in (m, authorizationListeners m).

(** ** Reading *)

Definition GetChannel (m : Manager) (id : Z) : option Channel := channel_at m id.
Definition GetChannelWithMeta (m : Manager) (id : Z) : option (Channel * bool) :=
  (fun c => (c, InheritACL c)) <$> channel_at m id.

(** [None] when the recursion does not end within [fuel] levels. *)
Fixpoint walk (fuel : nat) (m : Manager) (l : loc) : option (list Channel) :=
  match fuel with
  | O => None
  | S fuel =>
      match nodes m !! l with
      | None => Some []
      | Some n => ls ← mapM (walk fuel m) (Children n); Some (chan n :: concat ls)
      end
  end.

Definition GetTree (m : Manager) : option (list Channel) :=
  match tree m !! rootChannelID with
  | None => Some []
  | Some l => walk (S (size (tree m))) m l
  end.

Fixpoint ancestor_loop (fuel : nat) (m : Manager) (cid : Z) (seen : gset Z) (chain : list Z)
    : option (list Z) :=
  match fuel with
  | O => None
  | S fuel =>
      match channel_at m cid with
      | None => Some chain
      | Some c =>
          if bool_decide (cid ∈ seen) then Some chain else
          let chain := chain ++ [cid] in
          if cid =? rootChannelID then Some chain
          else ancestor_loop fuel m (ParentID c) ({[cid]} ∪ seen) chain
      end
  end.
Definition AncestorChain (m : Manager) (channelID : Z) : option (list Z) :=
  ancestor_loop (2 + size (tree m)) m channelID ∅ [].

Fixpoint subtree_walk (fuel : nat) (m : Manager) (cid : Z) : option (list Z) :=
  match fuel with
  | O => None
  | S fuel =>
      match node_at m cid with
      | None => Some [cid]
      | Some (_, n) =>
          ids ← mapM (fun l => ID ∘ chan <$> nodes m !! l) (Children n);
          ls ← mapM (subtree_walk fuel m) ids; Some (cid :: concat ls)
      end
  end.
Definition SubtreeIDs (m : Manager) (id : Z) : option (list Z) :=
  subtree_walk (S (size (tree m))) m id.

(** ** Changing *)

Definition Create (m : Manager) (parentID : Z) (name description : gostring) (position : Z)
    (temporary : bool) (maxUsers : Z) : Manager * option Channel * list nat :=
  let ls := authorizationListeners m in
  if negb (in_tree m parentID) then (m, None, ls) else
  if bool_decide (name = []) then (m, None, ls) else
  match dbCreate (db m) (mkRow 0 (Some parentID) name description position maxUsers temporary false []) with
  | (d, None) => (m <| db := d |>, None, ls)
  | (d, Some row) =>
      let ch := mkChannel (u32 (row_ID row)) parentID (row_Name row) (row_Description row) (row_Position row)
                  (row_MaxUsers row) (row_IsTemporary row) [] (row_InheritACL row) in
      let l := fresh m in
      let m := m <| db := d |> <| nodes := <[l := mkNode ch []]> (nodes m) |>
                 <| tree := <[ID ch := l]> (tree m) |> <| fresh := S l |> in
      let m := append_child m parentID l in
      let m := sort_node m parentID in
      (m, Some ch, ls)
  end.

Definition set_opt {A B} (o : option A) (f : A -> B -> B) (b : B) : B :=
  match o with Some a => f a b | None => b end.

(** The links after [LinksRemove] and [LinksAdd], as the set [links] of the
    code; [ord] is the order of the loop that turns it into a slice. *)
Definition new_links (ord : order) (o : UpdateOpts) (old : list Z) : option (list Z) :=
  match opt_Links o with
  | Some ls => Some ls
  | None =>
      if bool_decide (opt_LinksAdd o = []) && bool_decide (opt_LinksRemove o = []) then None
      else Some (ord (elements ((list_to_set old ∖ list_to_set (opt_LinksRemove o))
                                ∪ list_to_set (opt_LinksAdd o) : gset Z)))
  end.

Definition updates_of (ord : order) (o : UpdateOpts) (c : Channel) : Updates :=
  mkUpdates (opt_Name o) (opt_Description o) (opt_Position o) (opt_MaxUsers o) (opt_Temporary o)
    (new_links ord o (Links c)).
Definition updates_empty (u : Updates) : bool :=
  bool_decide (up_name u = None) && bool_decide (up_description u = None) && bool_decide (up_position u = None)
  && bool_decide (up_max_users u = None) && bool_decide (up_is_temporary u = None)
  && bool_decide (up_links u = None).

Definition apply_updates (u : Updates) (c : Channel) : Channel :=
  let c := set_opt (up_name u) (fun v c => c <| Name := v |>) c in
  let c := set_opt (up_description u) (fun v c => c <| Description := v |>) c in
  let c := set_opt (up_position u) (fun v c => c <| Position := v |>) c in
  let c := set_opt (up_max_users u) (fun v c => c <| MaxUsers := v |>) c in
  let c := set_opt (up_is_temporary u) (fun v c => c <| IsTemporary := v |>) c in
  set_opt (up_links u) (fun v c => c <| Links := v |>) c.

Definition Update (ord : order) (m : Manager) (id : Z) (o : UpdateOpts) : Manager * bool * list nat :=
  let ls := authorizationListeners m in
  match node_at m id with
  | None => (m, false, ls)
  | Some (l, n) =>
      let u := updates_of ord o (chan n) in
      let m := write_node l (n <| chan := apply_updates u (chan n) |>) m in
      if updates_empty u then (m, true, ls) else
      let '(d, ok) := dbUpdates (db m) id u in
      (m <| db := d |>, ok, ls)
  end.

(** The loop that cuts the first child with this ID out of the slice. *)
Fixpoint cut_child (m : Manager) (id : Z) (ls : list loc) : list loc :=
  match ls with
  | [] => []
  | l :: ls => if bool_decide (ID ∘ chan <$> nodes m !! l = Some id) then ls else l :: cut_child m id ls
  end.
Definition detach (m : Manager) (id parent : Z) : Manager :=
  let m := m <| tree := delete id (tree m) |> in
  match node_at m parent with
  | Some (p, n) => write_node p (n <| Children := cut_child m id (Children n) |>) m
  | None => m
  end.

Definition Remove (m : Manager) (id : Z) : Manager * bool * list nat :=
  let ls := authorizationListeners m in
  if id =? 0 then (m, false, ls) else
  match node_at m id with
  | None => (m, false, ls)
  | Some (_, n) =>
      if negb (bool_decide (Children n = [])) then (m, false, ls) else
      let '(d, ok) := dbDelete (db m) id in
      let m := m <| db := d |> in
      if negb ok then (m, false, ls) else
      (detach m id (ParentID (chan n)), true, ls)
  end.

(** The children loop [for id, n := range m.tree] of one round: the first
    channel that may go and whose row could be deleted. *)
Fixpoint clean_round (m : Manager) (hasUsers : Z -> bool) (ids : list Z) : Manager * bool :=
  match ids with
  | [] => (m, false)
  | id :: ids =>
      match node_at m id with
      | None => clean_round m hasUsers ids
      | Some (_, n) =>
          if (id =? 0) || negb (IsTemporary (chan n)) || negb (bool_decide (Children n = []))
          then clean_round m hasUsers ids else
          if hasUsers id then clean_round m hasUsers ids else
          let '(d, ok) := dbDelete (db m) id in
          let m := m <| db := d |> in
          if negb ok then clean_round m hasUsers ids else
          (detach m id (ParentID (chan n)), true)
      end
  end.

(** [ord k] is the order of the loop of the round with [k] rounds of fuel left. *)
Fixpoint clean_loop (fuel : nat) (ord : nat -> order) (m : Manager) (hasUsers : Z -> bool) : option Manager :=
  match fuel with
  | O => None
  | S fuel =>
      let '(m, removed) := clean_round m hasUsers (ord fuel (keys m)) in
      if removed then clean_loop fuel ord m hasUsers else Some m
  end.
Definition CleanEmptyTempChannels (ord : nat -> order) (m : Manager) (hasUsers : Z -> bool)
    : option (Manager * list nat) :=
  (fun m' => (m', authorizationListeners m)) <$> clean_loop (S (size (tree m))) ord m hasUsers.

Definition AddAuthorizationListener (m : Manager) (l : nat) : Manager :=
  m <| authorizationListeners := authorizationListeners m ++ [l] |>.

(** ** Links *)

Definition links_of (m : Manager) (id : Z) : list Z := default [] (Links <$> channel_at m id).

Definition LinkedChannelIDs (m : Manager) (channelID : Z) : option (list Z) :=
  c ← channel_at m channelID; Some (channelID :: filter (fun lid => in_tree m lid = true) (Links c)).

(** The map [adjacent]: both directions of every usable link. *)
Definition add_edge (a b : Z) (adj : gmap Z (list Z)) : gmap Z (list Z) :=
  <[a := default [] (adj !! a) ++ [b]]> adj.
Definition add_links (m : Manager) (adj : gmap Z (list Z)) (id : Z) : gmap Z (list Z) :=
  fold_left (fun adj linkedID =>
    if (linkedID =? id) || negb (in_tree m linkedID) then adj
    else add_edge linkedID id (add_edge id linkedID adj)) (links_of m id) adj.
Definition adjacent (ord : order) (m : Manager) : gmap Z (list Z) :=
  fold_left (add_links m) (ord (keys m)) ∅.

Definition visit (acc : gset Z * list Z) (linkedID : Z) : gset Z * list Z :=
  let '(seen, queue) := acc in
  if bool_decide (linkedID ∈ seen) then acc else ({[linkedID]} ∪ seen, queue ++ [linkedID]).
Fixpoint bfs (fuel : nat) (adj : gmap Z (list Z)) (seen : gset Z) (queue : list Z) : option (gset Z) :=
  match queue with
  | [] => Some seen
  | id :: queue =>
      match fuel with
      | O => None
      | S fuel =>
          let '(seen, queue) := fold_left visit (default [] (adj !! id)) (seen, queue) in
          bfs fuel adj seen queue
      end
  end.

Definition sortedLinkIDs (ord : order) (s : gset Z) : list Z := sortBy id (ord (elements s)).

(** An unknown channel gives the nil slice. *)
Definition ConnectedChannelIDs (ord1 ord2 : order) (m : Manager) (channelID : Z) : option (list Z) :=
  if negb (in_tree m channelID) then Some []
  else sortedLinkIDs ord2 <$> bfs (S (size (tree m))) (adjacent ord1 m) {[channelID]} [channelID].

Definition usable (m : Manager) (self : Z) (ls : list Z) : gset Z :=
  list_to_set (filter (fun l => l <> self /\ in_tree m l = true) ls).

Definition inbound (m : Manager) (channelID id : Z) : bool := bool_decide (channelID ∈ links_of m id).

Definition links_after (m : Manager) (channelID : Z) (desired : gset Z) (id : Z) : gset Z :=
  if id =? channelID then desired
  else let links := usable m id (links_of m id) ∖ {[channelID]} in
       if bool_decide (id ∈ desired) then {[channelID]} ∪ links else links.

Fixpoint tx_links (tx : TX) (updated : list (Z * list Z)) : option TX :=
  match updated with
  | [] => Some tx
  | (id, links) :: updated => tx ← txUpdateLinks tx id links; tx_links tx updated
  end.
Definition save_links (d : DB) (updated : list (Z * list Z)) : option DB :=
  tx ← txBegin d; tx ← tx_links tx updated; txCommit tx.

Definition set_links (m : Manager) (id : Z) (ls : list Z) : Manager :=
  match node_at m id with
  | Some (l, n) => write_node l (n <| chan := (chan n) <| Links := ls |> |>) m
  | None => m
  end.

(** [ord1] orders the loops over [changedSet] and [updated], [ord2] the loops
    of [sortedLinkIDs]. *)
Definition UpdateLinks (ord1 ord2 : order) (m : Manager) (channelID : Z) (desired : list Z)
    : Manager * option (list Z) :=
  match channel_at m channelID with
  | None => (m, None)
  | Some node =>
      if existsb (fun l => (l =? channelID) || negb (in_tree m l)) desired then (m, None) else
      let desiredSet : gset Z := list_to_set desired in
      let oldSet := usable m channelID (Links node) in
      let inboundSet : gset Z := list_to_set (filter (fun id => inbound m channelID id = true) (keys m)) in
      let changedSet := {[channelID]} ∪ oldSet ∪ desiredSet ∪ inboundSet in
      let stable := (Nat.eqb (size oldSet) (size desiredSet))
        && forallb (fun id => bool_decide (id ∈ desiredSet)) (elements oldSet)
        && forallb (fun id => (id =? channelID) || eqb (inbound m channelID id) (bool_decide (id ∈ desiredSet)))
             (keys m) in
      if stable then (m, Some []) else
      let updated := (fun id => (id, sortedLinkIDs ord2 (links_after m channelID desiredSet id)))
                       <$> ord1 (elements changedSet) in
      match save_links (db m) updated with
      | None => (m, None)
      | Some d =>
          (fold_left (fun m '(id, ls) => set_links m id ls) updated (m <| db := d |>),
           Some (sortBy id updated.*1))
      end
  end.

(** ** Well-formed trees *)

(** [path m id p]: following the parents from [id] leads to the root, along
    the channels [p]. *)
Inductive path (m : Manager) : Z -> list Z -> Prop :=
  | path_root : is_Some (channel_at m 0) -> path m 0 [0]
  | path_up id c p : id <> 0 -> channel_at m id = Some c -> path m (ParentID c) p -> path m id (id :: p).

(** [x] lies in the subtree of [id]. *)
Definition below (m : Manager) (id x : Z) : Prop := exists p, path m x p /\ id ∈ p.

(** [l] is the node of a channel whose parent is [id]. *)
Definition kid (m : Manager) (id : Z) (l : loc) : Prop :=
  exists n, nodes m !! l = Some n /\ tree m !! ID (chan n) = Some l /\ ID (chan n) <> 0 /\ ParentID (chan n) = id.

Record chan_wf (m : Manager) : Prop := {
  cw_nodes : forall id l, tree m !! id = Some l -> exists n, nodes m !! l = Some n /\ ID (chan n) = id;
  cw_heap : forall l, is_Some (nodes m !! l) -> (l < fresh m)%nat;
  cw_root : is_Some (tree m !! 0);
  cw_path : forall id, is_Some (tree m !! id) -> exists p, path m id p;
  cw_children : forall id l n, tree m !! id = Some l -> nodes m !! l = Some n ->
    NoDup (Children n) /\ forall l', l' ∈ Children n <-> kid m id l';
  cw_ids : dom (tree m) ⊆ db_ids (db m) }.

Lemma node_at_Some m id l n : node_at m id = Some (l, n) <-> tree m !! id = Some l /\ nodes m !! l = Some n.
Proof.
  unfold node_at. destruct (tree m !! id) as [l'|]; cbn; [|by split; [|intros []]].
  destruct (nodes m !! l') as [n'|] eqn:E; cbn; [|split; [done|intros [[= ->] ?]; congruence]].
  split; [intros [= <- <-]; done|]. intros [[= ->] ?]. congruence.
Qed.
Lemma channel_at_Some m id c :
  channel_at m id = Some c <-> exists l n, tree m !! id = Some l /\ nodes m !! l = Some n /\ chan n = c.
Proof.
  unfold channel_at. destruct (node_at m id) as [[l n]|] eqn:E; cbn.
  - apply node_at_Some in E as [E1 E2]. split; [intros [= <-]; eauto|].
    intros (l' & n' & ? & ? & <-). congruence.
  - split; [done|]. intros (l & n & H1 & H2 & _). assert (node_at m id = Some (l, n)) by (by apply node_at_Some).
    congruence.
Qed.
Lemma in_tree_spec m id : in_tree m id = true <-> is_Some (tree m !! id).
Proof. unfold in_tree. apply bool_decide_eq_true. Qed.
Lemma elem_of_keys m id : id ∈ keys m <-> is_Some (tree m !! id).
Proof. unfold keys. rewrite elem_of_elements. apply elem_of_dom. Qed.

Section Paths.
Variable m : Manager.

Lemma path_fun a p : path m a p -> forall p', path m a p' -> p = p'.
Proof.
  induction 1 as [Hr|a c p Ha Hc Hp IH]; intros p' H'; inversion H' as [|? c' p2 ? Hc' Hp']; subst; try done.
  assert (c' = c) as -> by congruence. f_equal. by apply IH.
Qed.
Lemma path_tree a p : path m a p -> forall x, x ∈ p -> is_Some (tree m !! x).
Proof.
  induction 1 as [[c Hr]|a c p Ha Hc Hp IH]; intros x.
  - intros ->%list_elem_of_singleton. apply channel_at_Some in Hr as (l & ? & ? & _). eauto.
  - intros [->|Hx]%elem_of_cons; [|by apply IH]. apply channel_at_Some in Hc as (l & ? & ? & _). eauto.
Qed.
Lemma path_self a p : path m a p -> a ∈ p.
Proof. destruct 1; apply elem_of_cons; by left. Qed.
Lemma path_to_root a p : path m a p -> list.last p = Some 0.
Proof.
  induction 1 as [|a c p Ha Hc Hp IH]; [done|]. destruct p; [done|]. exact IH.
Qed.
Lemma path_part a p : path m a p -> forall x, x ∈ p -> exists p', path m x p' /\ p' `suffix_of` p.
Proof.
  induction 1 as [Hr|a c p Ha Hc Hp IH]; intros x.
  - intros ->%list_elem_of_singleton. exists [0]. split; [by constructor|done].
  - intros [->|Hx]%elem_of_cons.
    + exists (a :: p). split; [by econstructor|done].
    + destruct (IH x Hx) as (p' & Hp' & Hs). exists p'. split; [done|]. by apply suffix_cons_r.
Qed.
Lemma path_NoDup a p : path m a p -> NoDup p.
Proof.
  induction 1 as [Hr|a c p Ha Hc Hp IH]; [apply list.NoDup_singleton|]. constructor; [|done].
  intros Hin. destruct (path_part _ _ Hp a Hin) as (p' & Hp' & Hs).
  assert (p' = a :: p) as -> by (eapply path_fun; [done|by econstructor]).
  apply suffix_length in Hs. cbn in Hs. lia.
Qed.
Lemma path_length a p : path m a p -> (length p <= size (tree m))%nat.
Proof.
  intros Hp. rewrite <- size_dom. rewrite <- (size_list_to_set (C := gset Z) p) by (by apply (path_NoDup a)).
  apply subseteq_size. intros x Hx%elem_of_list_to_set. apply elem_of_dom. by apply (path_tree a p).
Qed.
Lemma path_parent a c p : path m a p -> a <> 0 -> channel_at m a = Some c -> exists p', p = a :: p' /\ path m (ParentID c) p'.
Proof.
  intros Hp Ha Hc. inversion Hp as [|? c' p' ? Hc' Hp']; subst; [done|].
  assert (c' = c) as -> by congruence. eauto.
Qed.

(** Two channels on one path at the same height are one. *)
Lemma path_same_level x p a pa b pb : path m x p -> a ∈ p -> b ∈ p ->
  path m a pa -> path m b pb -> length pa = length pb -> a = b.
Proof.
  intros Hx Ha Hb Hpa Hpb Hl.
  destruct (path_part _ _ Hx a Ha) as (pa' & Ha' & Sa). destruct (path_part _ _ Hx b Hb) as (pb' & Hb' & Sb).
  assert (pa' = pa) as -> by (by eapply path_fun). assert (pb' = pb) as -> by (by eapply path_fun).
  destruct Sa as [k1 E1]. destruct Sb as [k2 E2]. rewrite E1 in E2. apply app_inj_2 in E2 as [_ ->]; [|done].
  inversion Hpa; inversion Hpb; congruence.
Qed.
End Paths.

(** ** Walking the tree *)

(** Each channel comes after its parent, given the IDs seen before. *)
Fixpoint parents_first (seen : list Z) (out : list Channel) : Prop :=
  match out with
  | [] => True
  | c :: out => ParentID c ∈ seen /\ parents_first (ID c :: seen) out
  end.

Lemma parents_first_mono out : forall seen seen', seen ⊆ seen' -> parents_first seen out -> parents_first seen' out.
Proof.
  induction out as [|c out IH]; intros seen seen' Hs; [done|]. intros [H1 H2]. split; [by apply Hs|].
  eapply IH; [|done]. intros x [->|Hx]%elem_of_cons; apply elem_of_cons; [by left|right; by apply Hs].
Qed.
Lemma parents_first_concat seen ls : Forall (parents_first seen) ls -> parents_first seen (concat ls).
Proof.
  induction 1 as [|o ls Ho _ IH]; [done|]. cbn. revert seen Ho IH.
  induction o as [|c o IHo]; intros seen Ho IH; [done|]. destruct Ho as [H1 H2]. split; [done|].
  apply IHo; [done|]. eapply parents_first_mono; [|done]. intros x Hx. apply elem_of_cons. by right.
Qed.
Lemma parents_first_index out : forall seen i c, parents_first seen out -> out !! i = Some c ->
  ParentID c ∈ seen \/ exists j p, (j < i)%nat /\ out !! j = Some p /\ ID p = ParentID c.
Proof.
  induction out as [|c0 out IH]; intros seen i c Hp Hi; [done|]. destruct Hp as [H1 H2].
  destruct i as [|i]; [injection Hi as ->; by left|].
  destruct (IH _ i c H2 Hi) as [[Hc|Hs]%elem_of_cons|(j & p & Hj & Hp & He)]; [|by left|].
  - right. exists 0%nat, c0. split; [lia|]. split; [done|]. done.
  - right. exists (S j), p. split; [lia|]. done.
Qed.

Lemma mapM_total {A B} (f : A -> option B) (P : A -> B -> Prop) l :
  (forall x, x ∈ l -> exists y, f x = Some y /\ P x y) ->
  exists k, mapM f l = Some k /\ Forall2 P l k.
Proof.
  induction l as [|x l IH]; intros H; [by exists []|].
  destruct (H x) as (y & Hy & Py); [apply elem_of_cons; by left|].
  destruct IH as (k & Hk & Pk); [intros z Hz; apply H, elem_of_cons; by right|].
  exists (y :: k). cbn. rewrite Hy. cbn. rewrite Hk. split; [done|by constructor].
Qed.

(** What [walk] returns for the channel [id]. *)
Record walked (m : Manager) (id : Z) (out : list Channel) : Prop := {
  wk_stored : forall c, c ∈ out -> channel_at m (ID c) = Some c;
  wk_once : NoDup (map ID out);
  wk_all : forall x, x ∈ map ID out <-> below m id x;
  wk_order : exists c rest, channel_at m id = Some c /\ out = c :: rest /\ parents_first [id] rest }.

Lemma below_child m id x : chan_wf m -> below m id x -> x <> id ->
  exists c l, channel_at m (ID c) = Some c /\ tree m !! ID c = Some l /\ ID c <> 0 /\ ParentID c = id /\ below m (ID c) x.
Proof.
  intros W (p & Hp & Hin) Hne. revert Hin Hne. induction Hp as [Hr|a c p Ha Hc Hp IH]; intros Hin Hne.
  { apply list_elem_of_singleton in Hin. congruence. }
  apply elem_of_cons in Hin as [->|Hin]; [done|].
  assert (path m a (a :: p)) as Hpa by (by econstructor).
  apply channel_at_Some in Hc as (l & n & Hl & Hn & <-). destruct (cw_nodes m W _ _ Hl) as (n' & Hn' & Hid).
  assert (n' = n) as -> by congruence.
  destruct (decide (ParentID (chan n) = id)) as [He|He].
  - exists (chan n), l. rewrite Hid. split; [apply channel_at_Some; eauto|]. split; [done|]. split; [done|]. split; [done|].
    exists (a :: p). split; [done|]. apply elem_of_cons. by left.
  - destruct IH as (c & l' & H1 & H2 & H3 & H4 & p' & Hp' & Hin'); [done|done|].
    exists c, l'. split; [done|]. split; [done|]. split; [done|]. split; [done|].
    assert (p' = p) as -> by (by eapply path_fun). exists (a :: p). split; [done|]. apply elem_of_cons. by right.
Qed.

Lemma below_trans m c x : channel_at m c = Some x -> c <> 0 -> forall y, below m c y -> below m (ParentID x) y.
Proof.
  intros Hc H0 y (p & Hp & Hin). exists p. split; [done|].
  destruct (path_part m _ _ Hp c Hin) as (p' & Hp' & Hs).
  destruct (path_parent m _ _ _ Hp' H0 Hc) as (p2 & -> & Hp2).
  destruct Hs as [k ->]. apply elem_of_app. right. apply elem_of_cons. right. by apply (path_self m).
Qed.

Lemma forest_once m (f : loc -> Z) ks ls : NoDup ks ->
  (forall k1 k2 x, k1 ∈ ks -> k2 ∈ ks -> below m (f k1) x -> below m (f k2) x -> k1 = k2) ->
  Forall2 (fun k out => walked m (f k) out) ks ls -> NoDup (map ID (concat ls)).
Proof.
  intros Hnd Hdis. induction 1 as [|k out ks ls Hk Hks IH]; [constructor|].
  apply list.NoDup_cons in Hnd as [Hk0 Hnd]. cbn. rewrite map_app. apply list.NoDup_app.
  split; [apply Hk|]. split; [|apply IH; [done|]; intros; eapply Hdis; try done; apply elem_of_cons; by right].
  intros x Hx Hx'. apply (wk_all m _ _ Hk) in Hx. apply list_elem_of_fmap in Hx' as (c & -> & Hc).
  apply list_elem_of_In, in_concat in Hc as (o & Ho & Hc). apply list_elem_of_In in Ho, Hc.
  apply list_elem_of_lookup in Ho as [i Ho]. destruct (Forall2_lookup_r _ _ _ _ _ Hks Ho) as (k' & Hk' & Wk').
  apply list_elem_of_lookup_2 in Hk'. apply Hk0.
  assert (k = k') as ->; [|done]. eapply (Hdis k k' (ID c)); [apply elem_of_cons; by left|apply elem_of_cons; by right|done|].
  apply (wk_all m _ _ Wk'). apply list_elem_of_fmap. eauto.
Qed.

(** The children of a node, as channels. *)
Definition child (m : Manager) (id : Z) (l : loc) (c : Channel) : Prop :=
  channel_at m (ID c) = Some c /\ tree m !! ID c = Some l /\ ID c <> 0 /\ ParentID c = id.
Definition id_of (m : Manager) (l : loc) : Z := default 0 (ID ∘ chan <$> nodes m !! l).

Lemma children_spec m id l n : chan_wf m -> tree m !! id = Some l -> nodes m !! l = Some n ->
  forall l', l' ∈ Children n <-> exists c, child m id l' c.
Proof.
  intros W Hl Hn l'. destruct (cw_children m W _ _ _ Hl Hn) as [_ ->]. split.
  - intros (n' & Hn' & Ht & H0 & Hp). exists (chan n'). split; [|done]. apply channel_at_Some. eauto.
  - intros (c & (l2 & n2 & T2 & N2 & <-)%channel_at_Some & Ht & H0 & Hp). exists n2.
    assert (l2 = l') as -> by congruence. done.
Qed.
Lemma child_id m id l c : child m id l c -> id_of m l = ID c.
Proof.
  intros ((l2 & n2 & T2 & N2 & E2)%channel_at_Some & Ht & _). assert (l2 = l) as -> by congruence.
  unfold id_of. rewrite N2. cbn. by rewrite E2.
Qed.
Lemma child_path m id l c p : child m id l c -> path m id p -> path m (ID c) (ID c :: p).
Proof. intros (Hc & _ & H0 & <-) Hp. by econstructor. Qed.

Section Forest.
Context (m : Manager) (W : chan_wf m) (id : Z) (l : loc) (n : channelNode) (p : list Z).
Hypothesis (Hl : tree m !! id = Some l) (Hn : nodes m !! l = Some n) (Hp : path m id p).
Context (ls : list (list Channel)) (Hls : Forall2 (fun l' out => walked m (id_of m l') out) (Children n) ls).

Lemma forest_tree o : o ∈ ls -> exists l' c, child m id l' c /\ walked m (ID c) o.
Proof.
  intros [i Ho]%list_elem_of_lookup. destruct (Forall2_lookup_r _ _ _ _ _ Hls Ho) as (l' & Hl' & Wl).
  apply list_elem_of_lookup_2 in Hl'. apply (children_spec m id l n W Hl Hn) in Hl' as [c Hc].
  exists l', c. split; [done|]. by rewrite <- (child_id m id l').
Qed.
Lemma forest_of l' c : child m id l' c -> exists o, o ∈ ls /\ walked m (ID c) o.
Proof.
  intros Hc. assert (l' ∈ Children n) as [i Hi]%list_elem_of_lookup by (apply (children_spec m id l n W Hl Hn); eauto).
  destruct (Forall2_lookup_l _ _ _ _ _ Hls Hi) as (o & Ho & Wo). rewrite (child_id m id l' c Hc) in Wo.
  exists o. split; [by apply list_elem_of_lookup_2 in Ho|done].
Qed.
Lemma elem_of_forest c : c ∈ concat ls <-> exists o, o ∈ ls /\ c ∈ o.
Proof.
  rewrite list_elem_of_In, in_concat. by setoid_rewrite <- list_elem_of_In.
Qed.

Lemma forest_mem x : x ∈ map ID (concat ls) <-> below m id x /\ x <> id.
Proof.
  split.
  - intros (c & -> & (o & Ho & Hc)%elem_of_forest)%list_elem_of_fmap.
    destruct (forest_tree o Ho) as (l' & k & Hk & Wo). pose proof (child_path m id l' k p Hk Hp) as Hkp.
    assert (below m (ID k) (ID c)) as Hb by (apply (wk_all m _ _ Wo), list_elem_of_fmap; eauto).
    destruct Hk as (K1 & _ & K2 & <-). split; [by apply (below_trans m (ID k))|].
    intros Heq. destruct Hb as (px & Hpx & Hin). rewrite Heq in Hpx.
    assert (px = p) as -> by (by eapply path_fun).
    pose proof (path_NoDup m _ _ Hkp) as Hd. apply list.NoDup_cons in Hd as [Hd _]. done.
  - intros [Hb Hne]. destruct (below_child m id x W Hb Hne) as (c & l' & H1 & H2 & H3 & H4 & H5).
    destruct (forest_of l' c) as (o & Ho & Wo); [by repeat split|].
    apply (wk_all m _ _ Wo) in H5. apply list_elem_of_fmap in H5 as (cx & -> & Hcx).
    apply list_elem_of_fmap. exists cx. split; [done|]. apply elem_of_forest. eauto.
Qed.

Lemma forest_NoDup : NoDup (map ID (concat ls)).
Proof.
  apply (forest_once m (id_of m) (Children n)); [by apply (cw_children m W _ _ _ Hl Hn)| |done].
  intros k1 k2 x Hk1 Hk2 (px & Hpx & I1) (px' & Hpx' & I2). assert (px' = px) as -> by (by eapply path_fun).
  apply (children_spec m id l n W Hl Hn) in Hk1 as [c1 C1]. apply (children_spec m id l n W Hl Hn) in Hk2 as [c2 C2].
  rewrite (child_id _ _ _ _ C1) in I1. rewrite (child_id _ _ _ _ C2) in I2.
  assert (ID c1 = ID c2) as E by
    (eapply (path_same_level m x); [done|done|done|by eapply child_path|by eapply child_path|done]).
  destruct C1 as (_ & T1 & _), C2 as (_ & T2 & _). congruence.
Qed.

Lemma forest_walked : walked m id (chan n :: concat ls).
Proof.
  destruct (cw_nodes m W _ _ Hl) as (n' & Hn' & Hid). assert (n' = n) as -> by congruence.
  assert (channel_at m id = Some (chan n)) as Hc by (apply channel_at_Some; eauto). split.
  - intros c [->|(o & Ho & Hc')%elem_of_forest]%elem_of_cons; [by rewrite Hid|].
    destruct (forest_tree o Ho) as (l' & k & Hk & Wo). by apply (wk_stored m _ _ Wo).
  - cbn. rewrite Hid. constructor; [intros Hin; by apply forest_mem in Hin as [_ ?]|apply forest_NoDup].
  - intros x. cbn. rewrite Hid, elem_of_cons, forest_mem. split.
    + intros [->|[? _]]; [|done]. exists p. split; [done|]. by apply (path_self m).
    + intros Hb. destruct (decide (x = id)); [by left|by right].
  - exists (chan n), (concat ls). split; [done|]. split; [done|]. apply parents_first_concat, Forall_forall.
    intros o Ho%list_elem_of_In. destruct (forest_tree o Ho) as (l' & k & (K1 & _ & _ & K2) & Wl).
    destruct (wk_order m _ _ Wl) as (k' & rest & K3 & -> & Hr). assert (k' = k) as -> by congruence.
    split; [by apply list_elem_of_singleton|]. eapply parents_first_mono; [|done]. set_solver.
Qed.
End Forest.

Lemma walk_spec m : chan_wf m -> forall fuel id l p, tree m !! id = Some l -> path m id p ->
  (size (tree m) < fuel + length p)%nat -> exists out, walk fuel m l = Some out /\ walked m id out.
Proof.
  intros W. induction fuel as [|fuel IH]; intros id l p Hl Hp Hf; [apply path_length in Hp; lia|].
  destruct (cw_nodes m W _ _ Hl) as (n & Hn & Hid). cbn [walk]. rewrite Hn.
  destruct (mapM_total (walk fuel m) (fun l' out => walked m (id_of m l') out) (Children n)) as (ls & -> & Hls).
  { intros l' [c Hc]%(children_spec m id l n W Hl Hn). rewrite (child_id _ _ _ _ Hc).
    pose proof (child_path _ _ _ _ _ Hc Hp). destruct Hc as (_ & Ht & _). eapply IH; [done|done|]. cbn. lia. }
  cbn. eexists. split; [reflexivity|]. by eapply forest_walked.
Qed.

Lemma mapM_fmap_r {A B C} (f : A -> option B) (h : B -> C) (g : A -> option C) l :
  (forall x, x ∈ l -> g x = h <$> f x) -> mapM g l = map h <$> mapM f l.
Proof.
  induction l as [|x l IH]; intros H; [done|]. cbn. rewrite H by (apply elem_of_cons; by left).
  destruct (f x); [|done]. cbn. rewrite IH by (intros; apply H, elem_of_cons; by right). by destruct (mapM f l).
Qed.
Lemma mapM_map {A B C} (f : A -> B) (g : B -> option C) l : mapM g (map f l) = mapM (g ∘ f) l.
Proof. induction l as [|x l IH]; [done|]. cbn. destruct (g (f x)); [|done]. cbn. by rewrite IH. Qed.

(** The walk over IDs of [SubtreeIDs] is the walk over pointers. *)
Lemma subtree_walk_spec m : chan_wf m -> forall fuel id l, tree m !! id = Some l ->
  subtree_walk fuel m id = map ID <$> walk fuel m l.
Proof.
  intros W. induction fuel as [|fuel IH]; intros id l Hl; [done|].
  destruct (cw_nodes m W _ _ Hl) as (n & Hn & Hid). cbn [walk subtree_walk]. rewrite Hn.
  assert (node_at m id = Some (l, n)) as -> by (by apply node_at_Some).
  rewrite (mapM_fmap_r Some (id_of m)); cycle 1.
  { intros l' [c Hc]%(children_spec m id l n W Hl Hn). unfold id_of. destruct Hc as ((l2 & n2 & T & N & _)%channel_at_Some & Ht & _).
    assert (l2 = l') as -> by congruence. cbn. by rewrite N. }
  rewrite (proj2 (mapM_Some _ (Children n) (Children n)) ltac:(by apply Forall_Forall2_diag, Forall_forall)). cbn.
  rewrite mapM_map, (mapM_fmap_r (walk fuel m) (map ID)); cycle 1.
  { intros l' [c Hc]%(children_spec m id l n W Hl Hn). cbn. rewrite (child_id _ _ _ _ Hc). apply IH, Hc. }
  destruct (mapM (walk fuel m) (Children n)) as [ls|]; [|done]. cbn. by rewrite Hid, concat_map.
Qed.

Lemma ancestor_loop_path m id p : path m id p -> forall fuel seen chain, (length p <= fuel)%nat ->
  (forall x, x ∈ p -> x ∉ seen) -> ancestor_loop fuel m id seen chain = Some (chain ++ p).
Proof.
  induction 1 as [[c Hr]|id c p H0 Hc Hp IH]; intros [|fuel] seen chain Hf Hs; cbn in Hf; try lia; cbn [ancestor_loop].
  - rewrite Hr. rewrite bool_decide_eq_false_2 by (apply Hs, elem_of_cons; by left). done.
  - rewrite Hc. rewrite bool_decide_eq_false_2 by (apply Hs, elem_of_cons; by left).
    rewrite (proj2 (Z.eqb_neq _ _)) by done. rewrite IH, <- app_assoc; [done|lia|].
    intros x Hx. rewrite not_elem_of_union, not_elem_of_singleton. split; [|apply Hs, elem_of_cons; by right].
    intros ->. assert (path m id (id :: p)) as Hnd%path_NoDup by (by econstructor).
    by apply list.NoDup_cons in Hnd as [? _].
Qed.
Lemma AncestorChain_path m id p : path m id p -> AncestorChain m id = Some p.
Proof.
  intros Hp. unfold AncestorChain. pose proof (path_length m id p Hp).
  by rewrite (ancestor_loop_path m id p Hp) by (lia || set_solver).
Qed.

(** The walk upwards ends on any tree, a broken one too. *)
Lemma ancestor_loop_total m fuel : forall cid (seen : gset Z) chain, seen ⊆ dom (tree m) ->
  (size (tree m) < fuel + size seen)%nat -> is_Some (ancestor_loop fuel m cid seen chain).
Proof.
  induction fuel as [|fuel IH]; intros cid seen chain Hs Hf.
  { apply subseteq_size in Hs. rewrite size_dom in Hs. lia. }
  cbn. destruct (channel_at m cid) as [c|] eqn:Hc; [|done].
  destruct (decide (cid ∈ seen)) as [Hin|Hin]; [rewrite bool_decide_eq_true_2 by done; done|].
  rewrite bool_decide_eq_false_2 by done. destruct (cid =? rootChannelID); [done|].
  apply channel_at_Some in Hc as (l & n & Hl & _). apply IH.
  - intros x [->%elem_of_singleton|Hx]%elem_of_union; [apply elem_of_dom; eauto|by apply Hs].
  - rewrite size_union, size_singleton; [lia|]. set_solver.
Qed.

(** The channel list sent to clients is complete and in order: on a
    well-formed tree [GetTree] returns, lists every channel exactly once with
    its stored data, and puts every channel but the root after its parent. *)
Theorem GetTree_parents_first (m : Manager) : chan_wf m ->
  exists out, GetTree m = Some out /\ NoDup (map ID out) /\
    (forall x c, channel_at m x = Some c <-> c ∈ out /\ ID c = x) /\
    (forall i c, out !! i = Some c -> ID c = 0 \/
       exists j p, (j < i)%nat /\ out !! j = Some p /\ ID p = ParentID c).
Proof.
  intros W. destruct (cw_root m W) as [l Hl]. destruct (cw_path m W 0 ltac:(eauto)) as [p Hp].
  unfold GetTree, rootChannelID. rewrite Hl.
  destruct (walk_spec m W (S (size (tree m))) 0 l p Hl Hp ltac:(lia)) as (out & -> & Wk).
  destruct (cw_nodes m W _ _ Hl) as (n & Hn & Hid).
  assert (channel_at m 0 = Some (chan n)) as Hr by (apply channel_at_Some; eauto).
  exists out. split; [done|]. split; [apply Wk|]. split.
  - intros x c. split; [|intros [Hc <-]; by apply (wk_stored m _ _ Wk)]. intros Hc.
    assert (x ∈ map ID out) as (c' & -> & Hc')%list_elem_of_fmap.
    { apply (wk_all m _ _ Wk). destruct (proj1 (channel_at_Some m x c) Hc) as (lx & nx & Hx & _).
      destruct (cw_path m W x ltac:(eauto)) as [px Hpx]. exists px. split; [done|].
      apply path_to_root in Hpx as Hlast. by apply last_Some_elem_of in Hlast. }
    pose proof (wk_stored m _ _ Wk c' Hc'). assert (c' = c) as -> by congruence. done.
  - intros i c Hi. destruct (wk_order m _ _ Wk) as (c0 & rest & H0 & -> & Ho).
    assert (ID c0 = 0) as Hid0 by congruence. destruct i as [|i]; [injection Hi as <-; by left|]. right.
    destruct (parents_first_index _ _ i c Ho Hi) as [Hp0%list_elem_of_singleton|(j & pc & Hj & Hpc & He)].
    + exists 0%nat, c0. split; [lia|]. split; [done|]. congruence.
    + exists (S j), pc. split; [lia|]. done.
Qed.

Lemma path_steps m id p : path m id p -> forall i a b, p !! i = Some a -> p !! S i = Some b ->
  exists c, channel_at m a = Some c /\ ParentID c = b.
Proof.
  induction 1 as [|id c p H0 Hc Hp IH]; intros i a b Ha Hb; [by destruct i|].
  destruct i as [|i]; [|by apply (IH i)]. injection Ha as <-. exists c. split; [done|].
  inversion Hp; subst; cbn in Hb; congruence.
Qed.

Lemma SubtreeIDs_below (m : Manager) (id : Z) : chan_wf m -> is_Some (tree m !! id) ->
  exists sub, SubtreeIDs m id = Some sub /\ forall x, x ∈ sub <-> below m id x.
Proof.
  intros W [l Hl]. destruct (cw_path m W id ltac:(eauto)) as [p Hp].
  destruct (walk_spec m W (S (size (tree m))) id l p Hl Hp ltac:(lia)) as (out & Ho & Wk).
  exists (map ID out). split; [unfold SubtreeIDs; by rewrite (subtree_walk_spec m W _ id l Hl), Ho|]. apply (wk_all m _ _ Wk).
Qed.

(** The ancestor chain of a channel leads from it through the parents to the
    root, and a subtree is exactly the channels whose ancestor chain goes
    through its top; both walks end. *)
Theorem ancestors_and_subtrees (m : Manager) (id : Z) : chan_wf m -> is_Some (tree m !! id) ->
  exists chain sub, AncestorChain m id = Some chain /\ SubtreeIDs m id = Some sub /\
    chain !! 0%nat = Some id /\ list.last chain = Some 0 /\
    (forall i a b, chain !! i = Some a -> chain !! S i = Some b ->
       exists c, channel_at m a = Some c /\ ParentID c = b) /\
    NoDup chain /\ NoDup sub /\
    (forall x, is_Some (tree m !! x) -> exists chain', AncestorChain m x = Some chain' /\ (x ∈ sub <-> id ∈ chain')).
Proof.
  intros W [l Hl]. destruct (cw_path m W id ltac:(eauto)) as [p Hp].
  destruct (walk_spec m W (S (size (tree m))) id l p Hl Hp ltac:(lia)) as (out & Ho & Wk).
  exists p, (map ID out). split; [by apply AncestorChain_path|].
  split; [unfold SubtreeIDs; by rewrite (subtree_walk_spec m W _ id l Hl), Ho|].
  split; [by inversion Hp|]. split; [by eapply path_to_root|]. split; [by apply (path_steps m id)|].
  split; [by apply (path_NoDup m id)|]. split; [apply Wk|]. intros x Hx. destruct (cw_path m W x Hx) as [px Hpx].
  exists px. split; [by apply AncestorChain_path|]. rewrite (wk_all m _ _ Wk). split.
  - intros (p' & Hp' & Hin). assert (p' = px) as -> by (by eapply path_fun). done.
  - intros Hin. by exists px.
Qed.

(** ** Preservation *)

Lemma path_transfer m m' id p :
  (forall x c, x ∈ p -> channel_at m x = Some c -> exists c', channel_at m' x = Some c' /\ ParentID c' = ParentID c) ->
  path m id p -> path m' id p.
Proof.
  intros H Hp. induction Hp as [[c Hr]|id c p H0 Hc Hp IH].
  - destruct (H 0 c) as (c' & Hc' & _); [by apply list_elem_of_singleton|done|]. constructor. eauto.
  - destruct (H id c) as (c' & Hc' & He); [apply elem_of_cons; by left|done|].
    econstructor; [done|done|]. rewrite He. apply IH. intros x cx Hx. apply H, elem_of_cons. by right.
Qed.

(** Nodes that differ only in their data, or in the order of their children. *)
Definition same_node (n n' : channelNode) : Prop :=
  ID (chan n') = ID (chan n) /\ ParentID (chan n') = ParentID (chan n) /\ Children n' ≡ₚ Children n.
Record same_shape (m m' : Manager) : Prop := {
  ss_tree : tree m' = tree m;
  ss_fresh : fresh m' = fresh m;
  ss_nodes : forall l, option_Forall2 same_node (nodes m !! l) (nodes m' !! l);
  ss_ids : db_ids (db m) ⊆ db_ids (db m') }.

Lemma same_node_refl n : same_node n n.
Proof. done. Qed.
Lemma same_shape_refl m : same_shape m m.
Proof. split; try done. intros l. destruct (nodes m !! l); constructor; apply same_node_refl. Qed.
Lemma same_shape_trans m1 m2 m3 : same_shape m1 m2 -> same_shape m2 m3 -> same_shape m1 m3.
Proof.
  intros [T1 F1 N1 D1] [T2 F2 N2 D2]. split; [congruence|congruence| |set_solver].
  intros l. specialize (N1 l). specialize (N2 l). destruct N1 as [n1 n2 (A1 & A2 & A3)|]; inversion N2 as [? n3 (B1 & B2 & B3)|]; subst.
  - constructor. split; [congruence|]. split; [congruence|]. by rewrite B3.
  - constructor.
Qed.
Lemma same_shape_write m l n n' : nodes m !! l = Some n -> same_node n n' -> same_shape m (write_node l n' m).
Proof.
  intros Hn Hs. split; try done. intros l'. cbn. destruct (decide (l' = l)) as [->|Hne].
  - rewrite Hn, lookup_insert_eq. by constructor.
  - rewrite lookup_insert_ne by done. destruct (nodes m !! l'); constructor. apply same_node_refl.
Qed.

Lemma same_shape_wf m m' : same_shape m m' -> chan_wf m -> chan_wf m'.
Proof.
  intros [HT HF HN HD] W.
  assert (forall l n, nodes m !! l = Some n -> exists n', nodes m' !! l = Some n' /\ same_node n n') as Hto.
  { intros l n Hn. specialize (HN l). rewrite Hn in HN. inversion HN; subst. eauto. }
  assert (forall l n', nodes m' !! l = Some n' -> exists n, nodes m !! l = Some n /\ same_node n n') as Hfrom.
  { intros l n' Hn. specialize (HN l). rewrite Hn in HN. inversion HN; subst. eauto. }
  split; rewrite ?HT, ?HF.
  - intros id l Hl. destruct (cw_nodes m W id l Hl) as (n & Hn & <-). destruct (Hto l n Hn) as (n' & Hn' & S & _). eauto.
  - intros l [n' Hn']. destruct (Hfrom l n' Hn') as (n & Hn & _). apply (cw_heap m W). eauto.
  - apply (cw_root m W).
  - intros id Hid. destruct (cw_path m W id Hid) as [p Hp]. exists p. eapply path_transfer; [|done].
    intros x c _ (l & n & Hl & Hn & <-)%channel_at_Some. destruct (Hto l n Hn) as (n' & Hn' & _ & S & _).
    exists (chan n'). split; [|done]. apply channel_at_Some. rewrite HT. eauto.
  - intros id l n' Hl Hn'. destruct (Hfrom l n' Hn') as (n & Hn & _ & _ & S).
    destruct (cw_children m W id l n Hl Hn) as [Hnd Hch]. split; [by rewrite S|]. intros l'. rewrite S, Hch. split.
    + intros (k & Hk & Ht & H0 & Hp). destruct (Hto l' k Hk) as (k' & Hk' & K1 & K2 & _). exists k'. by rewrite HT, K1, K2.
    + intros (k & Hk & Ht & H0 & Hp). destruct (Hfrom l' k Hk) as (k' & Hk' & K1 & K2 & _). exists k'. by rewrite <- HT, <- K1, <- K2.
  - intros x Hx. apply HD, (cw_ids m W). done.
Qed.

Lemma same_shape_db m d : db_ids (db m) ⊆ db_ids d -> same_shape m (m <| db := d |>).
Proof. intros H. split; try done. intros l. exact (ss_nodes m m (same_shape_refl m) l). Qed.
Lemma apply_updates_ids u c : ID (apply_updates u c) = ID c /\ ParentID (apply_updates u c) = ParentID c.
Proof. destruct c, u as [[] [] [] [] [] []]; done. Qed.

Lemma Update_same_shape ord m id o : same_shape m (Update ord m id o).1.1.
Proof.
  unfold Update. destruct (node_at m id) as [[l n]|] eqn:E; [|apply same_shape_refl].
  apply node_at_Some in E as [_ E]. set (u := updates_of ord o (chan n)).
  assert (same_shape m (write_node l (n <| chan := apply_updates u (chan n) |>) m)) as Hw.
  { apply (same_shape_write m l n); [done|]. destruct (apply_updates_ids u (chan n)). done. }
  destruct (updates_empty u); [done|].
  destruct (dbUpdates (db _) id u) as [d ok] eqn:Ed. apply dbUpdates_ids in Ed.
  eapply same_shape_trans; [exact Hw|]. by apply same_shape_db.
Qed.
Lemma sort_children_same_shape m l : same_shape m (sort_children m l).
Proof.
  unfold sort_children. destruct (nodes m !! l) as [n|] eqn:E; [|apply same_shape_refl].
  apply (same_shape_write m l n); [done|]. split; [done|]. split; [done|]. apply sortBy_perm.
Qed.
Lemma set_links_same_shape m id ls : same_shape m (set_links m id ls).
Proof.
  unfold set_links. destruct (node_at m id) as [[l n]|] eqn:E; [|apply same_shape_refl].
  apply node_at_Some in E as [_ E]. by apply (same_shape_write m l n).
Qed.

(** Managers with the same channels, whatever the children. *)
Record same_chans (m m' : Manager) : Prop := {
  sc_db : db m' = db m;
  sc_tree : tree m' = tree m;
  sc_fresh : fresh m' = fresh m;
  sc_chan : forall l, chan <$> nodes m' !! l = chan <$> nodes m !! l }.

Lemma same_chans_refl m : same_chans m m.
Proof. done. Qed.
Lemma same_chans_trans m1 m2 m3 : same_chans m1 m2 -> same_chans m2 m3 -> same_chans m1 m3.
Proof. intros [] []. split; intros; congruence. Qed.
Lemma same_chans_node m m' l n : same_chans m m' -> nodes m !! l = Some n -> exists n', nodes m' !! l = Some n' /\ chan n' = chan n.
Proof. intros S Hn. pose proof (sc_chan m m' S l) as H. rewrite Hn in H. cbn in H. apply fmap_Some in H as (n' & ? & ?). eauto. Qed.
Lemma same_chans_sym m m' : same_chans m m' -> same_chans m' m.
Proof. intros []. by split. Qed.
Lemma same_chans_kid m m' id l : same_chans m m' -> kid m' id l <-> kid m id l.
Proof.
  assert (forall a b, same_chans a b -> kid a id l -> kid b id l) as H.
  { intros a b S (n & Hn & Ht & H0 & Hp). destruct (same_chans_node a b l n S Hn) as (n' & Hn' & Hc).
    exists n'. by rewrite Hc, (sc_tree a b S). }
  intros S. split; [by apply H, same_chans_sym|by apply H].
Qed.
Lemma same_chans_channel m m' x : same_chans m m' -> channel_at m' x = channel_at m x.
Proof.
  intros S. unfold channel_at, node_at. rewrite (sc_tree m m' S). destruct (tree m !! x) as [l|]; [|done]. cbn.
  pose proof (sc_chan m m' S l) as H. destruct (nodes m' !! l), (nodes m !! l); cbn in *; congruence.
Qed.
Lemma same_chans_write m l n n' : nodes m !! l = Some n -> chan n' = chan n -> same_chans m (write_node l n' m).
Proof.
  intros Hn Hc. split; [done|done|done|]. intros l'. cbn. destruct (decide (l' = l)) as [->|Hne].
  - rewrite lookup_insert_eq, Hn. cbn. by rewrite Hc.
  - by rewrite lookup_insert_ne.
Qed.

Lemma kid_parent m : chan_wf m -> forall id l, kid m id l -> is_Some (tree m !! id).
Proof.
  intros W id l (n & Hn & Ht & H0 & <-). destruct (cw_path m W (ID (chan n)) ltac:(eauto)) as [p Hp].
  assert (channel_at m (ID (chan n)) = Some (chan n)) as Hc by (apply channel_at_Some; eauto).
  destruct (path_parent m _ _ _ Hp H0 Hc) as (p' & _ & Hp'). apply (path_tree m _ _ Hp'). by apply (path_self m).
Qed.

(** A new leaf under an existing channel. *)
Section Leaf.
Context (m : Manager) (W : chan_wf m) (d : DB) (ch : Channel) (pl : loc) (pn : channelNode) (ls : list nat).
Hypothesis (Hpl : tree m !! ParentID ch = Some pl) (Hpn : nodes m !! pl = Some pn).
Hypothesis (Hnew : tree m !! ID ch = None) (H0 : ID ch <> 0).
Hypothesis (Hids : db_ids (db m) ⊆ db_ids d) (Hid : ID ch ∈ db_ids d).

Definition leaf_added : Manager :=
  mkManager d (<[ID ch := fresh m]> (tree m))
    (<[pl := pn <| Children := Children pn ++ [fresh m] |>]> (<[fresh m := mkNode ch []]> (nodes m)))
    (S (fresh m)) ls.

Lemma leaf_fresh l n : nodes m !! l = Some n -> l <> fresh m.
Proof. intros Hn. pose proof (cw_heap m W l ltac:(eauto)). lia. Qed.
Lemma leaf_node : nodes leaf_added !! fresh m = Some (mkNode ch []).
Proof. pose proof (leaf_fresh _ _ Hpn). cbn. by rewrite lookup_insert_ne, lookup_insert_eq by done. Qed.
Lemma leaf_kept l n : nodes m !! l = Some n -> exists n', nodes leaf_added !! l = Some n' /\ chan n' = chan n /\
  Children n' = Children n ++ (if decide (l = pl) then [fresh m] else []).
Proof.
  intros Hn. pose proof (leaf_fresh _ _ Hn) as Hl. cbn. destruct (decide (l = pl)) as [->|Hne].
  - rewrite lookup_insert_eq. eexists. split; [done|]. assert (pn = n) as -> by congruence. done.
  - rewrite !lookup_insert_ne by done. rewrite app_nil_r. eauto.
Qed.
Lemma leaf_back l n' : nodes leaf_added !! l = Some n' -> l <> fresh m -> exists n, nodes m !! l = Some n /\ chan n' = chan n.
Proof.
  intros Hn' Hl. destruct (nodes m !! l) as [n|] eqn:Hn.
  - destruct (leaf_kept l n Hn) as (n2 & Hn2 & Hc & _). exists n. split; [done|]. congruence.
  - cbn in Hn'. rewrite lookup_insert_ne in Hn' by congruence. rewrite lookup_insert_ne in Hn' by done. congruence.
Qed.
Lemma leaf_channel x c : channel_at m x = Some c -> channel_at leaf_added x = Some c.
Proof.
  intros (l & n & Hl & Hn & <-)%channel_at_Some. destruct (leaf_kept l n Hn) as (n' & Hn' & Hc & _).
  apply channel_at_Some. exists l, n'. split; [|done]. cbn. rewrite lookup_insert_ne; [done|]. congruence.
Qed.

Lemma leaf_channels x : channel_at leaf_added x = if decide (x = ID ch) then Some ch else channel_at m x.
Proof.
  destruct (decide (x = ID ch)) as [->|Hne].
  - apply channel_at_Some. exists (fresh m), (mkNode ch []). split; [cbn; by rewrite lookup_insert_eq|].
    split; [exact leaf_node|done].
  - destruct (channel_at m x) as [c|] eqn:E; [by apply leaf_channel|].
    destruct (channel_at leaf_added x) as [c|] eqn:E'; [|done]. apply channel_at_Some in E' as (l & n & Hl & _).
    cbn in Hl. rewrite lookup_insert_ne in Hl by done. destruct (cw_nodes m W _ _ Hl) as (n0 & Hn0 & _).
    assert (channel_at m x = Some (chan n0)) by (apply channel_at_Some; eauto). congruence.
Qed.
Lemma leaf_tree id : id <> ID ch -> tree leaf_added !! id = tree m !! id.
Proof. intros Hne. cbn. by rewrite lookup_insert_ne. Qed.
Lemma leaf_tree_new : tree leaf_added !! ID ch = Some (fresh m).
Proof. cbn. by rewrite lookup_insert_eq. Qed.

Lemma leaf_kid id l : kid leaf_added id l <-> kid m id l \/ (l = fresh m /\ id = ParentID ch).
Proof.
  split.
  - intros (n' & Hn' & Ht & Hz & Hp). destruct (decide (l = fresh m)) as [->|Hl].
    { rewrite leaf_node in Hn'. injection Hn' as <-. by right. }
    destruct (leaf_back l n' Hn' Hl) as (n & Hn & Hc). rewrite Hc in *. left. exists n. split; [done|].
    rewrite leaf_tree in Ht; [done|]. intros E. rewrite E, leaf_tree_new in Ht. congruence.
  - intros [(n & Hn & Ht & Hz & Hp)|[-> ->]].
    + destruct (leaf_kept l n Hn) as (n' & Hn' & Hc & _). exists n'. rewrite Hc. split; [done|].
      rewrite leaf_tree; [done|]. congruence.
    + exists (mkNode ch []). split; [exact leaf_node|]. split; [exact leaf_tree_new|done].
Qed.

Lemma leaf_path id : is_Some (tree leaf_added !! id) -> exists p, path leaf_added id p.
Proof.
  assert (forall id, is_Some (tree m !! id) -> exists p, path leaf_added id p) as Hold.
  { intros x Hi. destruct (cw_path m W x Hi) as [p Hp]. exists p. eapply path_transfer; [|done].
    intros y c _ Hc. exists c. split; [by apply leaf_channel|done]. }
  destruct (decide (id = ID ch)) as [->|Hne]; [|rewrite leaf_tree by done; apply Hold].
  intros _. destruct (Hold (ParentID ch)) as [p Hp]; [eauto|]. exists (ID ch :: p).
  econstructor; [done| |exact Hp]. apply channel_at_Some. exists (fresh m), (mkNode ch []).
  split; [exact leaf_tree_new|]. split; [exact leaf_node|done].
Qed.

Lemma leaf_added_wf : chan_wf leaf_added.
Proof.
  split.
  - intros id l. destruct (decide (id = ID ch)) as [->|Hne].
    + rewrite leaf_tree_new. intros [= <-]. exists (mkNode ch []). split; [exact leaf_node|done].
    + rewrite leaf_tree by done. intros Hl. destruct (cw_nodes m W id l Hl) as (n & Hn & He).
      destruct (leaf_kept l n Hn) as (n' & Hn' & Hc & _). exists n'. split; [done|]. congruence.
  - intros l [n' Hn']. change (fresh leaf_added) with (S (fresh m)). destruct (decide (l = fresh m)); [lia|].
    destruct (leaf_back l n' Hn') as (n2 & Hn2 & _); [done|]. pose proof (cw_heap m W l ltac:(eauto)). lia.
  - rewrite leaf_tree by done. apply (cw_root m W).
  - exact leaf_path.
  - intros id l n' Hl Hn'. destruct (decide (id = ID ch)) as [->|Hne].
    + rewrite leaf_tree_new in Hl. injection Hl as <-. rewrite leaf_node in Hn'. injection Hn' as <-.
      split; [constructor|]. intros l'. rewrite leaf_kid. split; [by intros ?%elem_of_nil|].
      intros [Hk|[_ E]]; [|congruence]. apply (kid_parent m W) in Hk. destruct Hk. congruence.
    + rewrite leaf_tree in Hl by done. destruct (cw_nodes m W id l Hl) as (n & Hn & He).
      destruct (leaf_kept l n Hn) as (n2 & Hn2 & _ & Hch). assert (n2 = n') as -> by congruence.
      destruct (cw_children m W id l n Hl Hn) as [Hnd Hkids]. rewrite Hch. split.
      * apply list.NoDup_app. split; [done|].
        destruct (decide (l = pl)); [split; [|apply list.NoDup_singleton]|split; [|constructor]; by intros ? _ ?%elem_of_nil].
        intros x (nx & Hnx & _)%Hkids ->%list_elem_of_singleton. by apply (leaf_fresh _ _ Hnx).
      * intros l'. rewrite elem_of_app, Hkids, leaf_kid. destruct (decide (l = pl)) as [->|Hlp].
        -- rewrite list_elem_of_singleton. assert (id = ParentID ch); [|naive_solver].
           destruct (cw_nodes m W _ _ Hpl) as (n3 & ? & ?). congruence.
        -- rewrite elem_of_nil. assert (id <> ParentID ch); [|naive_solver]. intros ->. congruence.
  - unfold leaf_added. cbn. rewrite dom_insert. pose proof (cw_ids m W). set_solver.
Qed.
End Leaf.

Lemma sort_node_same_shape m id : same_shape m (sort_node m id).
Proof. unfold sort_node. destruct (tree m !! id); [apply sort_children_same_shape|apply same_shape_refl]. Qed.

Lemma sort_node_chans m id : same_chans m (sort_node m id).
Proof.
  unfold sort_node, sort_children. destruct (tree m !! id) as [l|]; [|apply same_chans_refl].
  destruct (nodes m !! l) as [n|] eqn:E; [|apply same_chans_refl]. by apply (same_chans_write m l n).
Qed.

(** The two outcomes of [Create]. *)
Lemma Create_cases m parent name desc pos temp max : chan_wf m ->
  let '(m', r, _) := Create m parent name desc pos temp max in
  (r = None /\ same_shape m m' /\ forall x, channel_at m' x = channel_at m x) \/
  (exists ch d pl pn, r = Some ch /\ is_Some (tree m !! parent) /\ name <> [] /\ ParentID ch = parent /\
     tree m !! ID ch = None /\ chan_wf (leaf_added m d ch pl pn (authorizationListeners m)) /\
     m' = sort_node (leaf_added m d ch pl pn (authorizationListeners m)) parent /\
     forall x, channel_at m' x = if decide (x = ID ch) then Some ch else channel_at m x).
Proof.
  intros W. unfold Create. destruct (in_tree m parent) eqn:Ei; cbn [negb]; [|left; split; [done|]; split; [apply same_shape_refl|done]].
  apply in_tree_spec in Ei as [pl Hpl]. destruct (decide (name = [])) as [->|Hname].
  { rewrite bool_decide_eq_true_2 by done. left. split; [done|]. split; [apply same_shape_refl|done]. }
  rewrite bool_decide_eq_false_2 by done.
  destruct (dbCreate (db m) _) as [d [row|]] eqn:Ed; 
    [|left; split; [done|]; split; [apply same_shape_db; by eapply dbCreate_ids|done]].
  right. destruct (dbCreate_fresh _ _ _ _ Ed) as (Hr & Hnot & Hin). apply dbCreate_ids in Ed.
  destruct (cw_nodes m W _ _ Hpl) as (pn & Hpn & _).
  set (ch := mkChannel (u32 (row_ID row)) parent (row_Name row) (row_Description row) (row_Position row)
    (row_MaxUsers row) (row_IsTemporary row) [] (row_InheritACL row)).
  assert (ID ch = row_ID row) as Hid by (cbn; apply u32_id; zlia).
  assert (tree m !! ID ch = None) as Hnew.
  { rewrite Hid. apply not_elem_of_dom. intros Hd. by apply Hnot, (cw_ids m W). }
  exists ch, d, pl, pn. split; [done|]. split; [eauto|]. split; [done|]. split; [done|]. split; [done|].
  split; [apply (leaf_added_wf m W d ch pl pn _ Hpl Hpn Hnew); [rewrite Hid; lia|done|by rewrite Hid]|].
  unfold append_child. match goal with |- context [node_at ?x parent] => assert (node_at x parent = Some (pl, pn)) as -> end.
  { apply node_at_Some. assert (pl <> fresh m) by (by eapply leaf_fresh). cbn.
    rewrite !lookup_insert_ne by (done || (cbn in Hnew; congruence)). done. }
  split; [done|]. intros x. rewrite (same_chans_channel _ _ x (sort_node_chans _ parent)).
  by apply (leaf_channels m W d ch pl pn).
Qed.

(** A created channel is what was asked for. *)
Definition asked (ch : Channel) (parent : Z) (name desc : gostring) (pos : Z) (temp : bool) (max : Z) : Prop :=
  ParentID ch = parent /\ Name ch = name /\ Description ch = desc /\ Position ch = pos /\ IsTemporary ch = temp /\ MaxUsers ch = max /\ Links ch = [].
Lemma Create_asked m parent name desc pos temp max ch : (Create m parent name desc pos temp max).1.2 = Some ch -> asked ch parent name desc pos temp max.
Proof.
  unfold Create. destruct (negb _); [done|]. case_bool_decide; [done|]. destruct (dbCreate (db m) _) as [d [row|]] eqn:E; [|done]. cbn. intros [= <-].
  destruct (dbCreate_columns _ _ _ _ E) as (H1 & H2 & H3 & H4 & H5). cbn in *. done.
Qed.
Lemma Create_refused m parent name desc pos temp max : (Create m parent name desc pos temp max).1.2 = None ->
  channel_at m parent = None \/ name = [] \/ exists r, (dbCreate (db m) r).2 = None.
Proof.
  unfold Create. destruct (in_tree m parent) eqn:Ei; cbn [negb].
  - case_bool_decide; [auto|]. intros Hc. do 2 right. match goal with _ : context [dbCreate (db m) ?r] |- _ => exists r end.
    by destruct (dbCreate (db m) _) as [d [row|]].
  - intros _. left. destruct (channel_at m parent) eqn:E; [|done]. apply channel_at_Some in E as (l & n & Hl & _).
    enough (in_tree m parent = true) by congruence. apply in_tree_spec. by eexists.
Qed.

Lemma cut_child_spec m id l ls : NoDup ls ->
  (forall l', l' ∈ ls -> ID ∘ chan <$> nodes m !! l' = Some id <-> l' = l) ->
  NoDup (cut_child m id ls) /\ forall x, x ∈ cut_child m id ls <-> x ∈ ls /\ x <> l.
Proof.
  induction ls as [|l0 ls IH]; intros Hnd Hl; [cbn; split; [constructor|set_solver]|].
  apply list.NoDup_cons in Hnd as [H0 Hnd]. pose proof (Hl l0 ltac:(apply elem_of_cons; by left)) as Hl0. cbn.
  destruct IH as [IH1 IH2]; [done|intros l' Hl'; apply Hl, elem_of_cons; by right|].
  destruct (decide (l0 = l)) as [->|Hne].
  - rewrite bool_decide_eq_true_2 by (by apply Hl0). split; [done|]. intros x. rewrite elem_of_cons. split; [|naive_solver].
    intros Hx. split; [by right|]. intros ->. done.
  - rewrite bool_decide_eq_false_2 by (by intros ?%Hl0). split.
    + apply list.NoDup_cons. split; [|done]. intros [? _]%IH2. done.
    + intros x. rewrite !elem_of_cons, IH2. naive_solver.
Qed.

(** Taking a leaf out of the tree. *)
Section Detach.
Context (m : Manager) (W : chan_wf m) (id : Z) (l : loc) (n : channelNode).
Hypothesis (Hl : tree m !! id = Some l) (Hn : nodes m !! l = Some n) (H0 : id <> 0) (Hleaf : Children n = []).

Lemma leaf_above x p : path m x p -> x <> id -> id ∉ p.
Proof.
  intros Hp Hx Hin. destruct (below_child m id x W ltac:(by exists p) Hx) as (c & l' & H1 & H2 & H3 & H4 & _).
  assert (l' ∈ Children n) as Hc by (apply (children_spec m id l n W Hl Hn); exists c; by repeat split).
  rewrite Hleaf in Hc. by apply elem_of_nil in Hc.
Qed.
Lemma detach_id : ID (chan n) = id.
Proof. destruct (cw_nodes m W _ _ Hl) as (n' & ? & ?). congruence. Qed.
Lemma detach_parent : exists pl pn, tree m !! ParentID (chan n) = Some pl /\ nodes m !! pl = Some pn /\
  ParentID (chan n) <> id.
Proof.
  destruct (cw_path m W id ltac:(eauto)) as [p Hp]. assert (channel_at m id = Some (chan n)) as Hc by (apply channel_at_Some; eauto).
  destruct (path_parent m _ _ _ Hp H0 Hc) as (p' & -> & Hp'). apply path_self in Hp' as Hs.
  destruct (path_tree m _ _ Hp' _ Hs) as [pl Hpl]. destruct (cw_nodes m W _ _ Hpl) as (pn & Hpn & _).
  exists pl, pn. split; [done|]. split; [done|]. intros E. rewrite E in Hs.
  apply path_NoDup, list.NoDup_cons in Hp as [? _]. done.
Qed.

Let m' := detach m id (ParentID (chan n)).

Lemma detach_shape : exists pl pn cs, tree m !! ParentID (chan n) = Some pl /\ nodes m !! pl = Some pn /\
  m' = m <| tree := delete id (tree m) |> <| nodes := <[pl := pn <| Children := cs |>]> (nodes m) |> /\
  NoDup cs /\ (forall x, x ∈ cs <-> x ∈ Children pn /\ x <> l).
Proof.
  destruct detach_parent as (pl & pn & Hpl & Hpn & Hne).
  exists pl, pn, (cut_child (m <| tree := delete id (tree m) |>) id (Children pn)). split; [done|]. split; [done|]. split.
  - unfold m', detach. match goal with |- context [node_at ?x ?y] => assert (node_at x y = Some (pl, pn)) as -> end.
    { apply node_at_Some. cbn. by rewrite lookup_delete_ne by done. }
    done.
  - destruct (cw_children m W _ _ _ Hpl Hpn) as [Hnd Hch]. apply cut_child_spec; [done|].
    intros l' (k & Hk & Ht & _)%Hch. cbn. rewrite Hk. cbn. split; [intros [= E]; congruence|].
    intros ->. assert (k = n) as -> by congruence. by rewrite detach_id.
Qed.

Lemma detach_node l' k : nodes m !! l' = Some k -> exists k', nodes m' !! l' = Some k' /\ chan k' = chan k.
Proof.
  intros Hk. destruct detach_shape as (pl & pn & cs & _ & Hpn & -> & _). cbn. destruct (decide (l' = pl)) as [->|Hne].
  - rewrite lookup_insert_eq. eexists. split; [done|]. by assert (k = pn) as -> by congruence.
  - rewrite lookup_insert_ne by done. eauto.
Qed.
Lemma detach_back l' k' : nodes m' !! l' = Some k' -> exists k, nodes m !! l' = Some k /\ chan k' = chan k.
Proof.
  destruct (nodes m !! l') as [k|] eqn:Hk.
  - intros Hk'. destruct (detach_node l' k Hk) as (k2 & Hk2 & Hc). exists k. split; [done|]. congruence.
  - destruct detach_shape as (pl & pn & cs & _ & Hpn & -> & _). cbn. rewrite lookup_insert_ne by congruence. congruence.
Qed.
Lemma detach_tree : tree m' = delete id (tree m).
Proof. by destruct detach_shape as (pl & pn & cs & _ & _ & -> & _). Qed.
Lemma detach_kid x l' : kid m' x l' <-> kid m x l' /\ l' <> l.
Proof.
  split.
  - intros (k' & Hk' & Ht & Hz & Hp). destruct (detach_back l' k' Hk') as (k & Hk & Hc). rewrite Hc, detach_tree in *.
    apply lookup_delete_Some in Ht as [Hne Ht]. split; [by exists k|]. intros ->. apply Hne.
    assert (k = n) as -> by congruence. symmetry. exact detach_id.
  - intros [(k & Hk & Ht & Hz & Hp) Hne]. destruct (detach_node l' k Hk) as (k' & Hk' & Hc). exists k'.
    rewrite Hc, detach_tree. split; [done|]. split; [|done]. apply lookup_delete_Some. split; [|done]. congruence.
Qed.

Lemma detach_wf : chan_wf m'.
Proof.
  pose proof detach_tree as HT. split.
  - intros x lx. rewrite HT. intros [_ Hx]%lookup_delete_Some. destruct (cw_nodes m W _ _ Hx) as (k & Hk & He).
    destruct (detach_node lx k Hk) as (k' & Hk' & Hc). exists k'. split; [done|]. congruence.
  - intros lx [k' Hk']. destruct (detach_back lx k' Hk') as (k & Hk & _).
    assert (fresh m' = fresh m) as -> by (by destruct detach_shape as (pl & pn & cs & _ & _ & -> & _)).
    apply (cw_heap m W). eauto.
  - rewrite HT. destruct (cw_root m W) as [lr Hr]. exists lr. apply lookup_delete_Some. done.
  - intros x. rewrite HT. intros [lx [Hne Hx]%lookup_delete_Some].
    destruct (cw_path m W x ltac:(eauto)) as [p Hp]. exists p. eapply path_transfer; [|done].
    intros y c Hy (ly & k & Hly & Hk & <-)%channel_at_Some. destruct (detach_node ly k Hk) as (k' & Hk' & Hc).
    exists (chan k'). split; [|congruence]. apply channel_at_Some. exists ly, k'. split; [|done]. rewrite HT.
    apply lookup_delete_Some. split; [|done]. intros E. rewrite <- E in Hy. by apply (leaf_above x p Hp).
  - intros x lx k'. rewrite HT. intros [Hne Hx]%lookup_delete_Some Hk'.
    destruct detach_shape as (pl & pn & cs & Hpl & Hpn & Hm & Hnd & Hcs).
    destruct (decide (lx = pl)) as [->|Hlp].
    + assert (k' = pn <| Children := cs |>) as ->.
      { rewrite Hm in Hk'. cbn in Hk'. rewrite lookup_insert_eq in Hk'. by injection Hk' as <-. }
      destruct (cw_children m W x pl pn Hx Hpn) as [_ Hch]. split; [done|]. intros l'. cbn [Children set_field].
      by rewrite Hcs, Hch, detach_kid.
    + assert (nodes m !! lx = Some k') as Hk.
      { rewrite Hm in Hk'. cbn in Hk'. by rewrite lookup_insert_ne in Hk' by done. }
      destruct (cw_children m W x lx k' Hx Hk) as [Hnd' Hch]. split; [done|]. intros l'. rewrite Hch, detach_kid.
      split; [|by intros [? _]]. intros Hkd. split; [done|]. intros ->. destruct Hkd as (k & Hk2 & _ & _ & Hpar).
      assert (k = n) as -> by congruence. congruence.
  - rewrite HT, dom_delete. destruct detach_shape as (pl & pn & cs & _ & _ & -> & _). cbn. pose proof (cw_ids m W). set_solver.
Qed.
End Detach.

Lemma same_shape_tree_channel m m' id : same_shape m m' -> is_Some (channel_at m' id) <-> is_Some (channel_at m id).
Proof.
  intros [HT _ HN _]. assert (forall a b : Manager, tree a = tree b -> (forall l, is_Some (nodes a !! l) -> is_Some (nodes b !! l)) ->
    is_Some (channel_at a id) -> is_Some (channel_at b id)) as Hgo.
  { intros a b Ht Hn [c (l & n & Hl & Hnl & _)%channel_at_Some]. destruct (Hn l ltac:(eauto)) as [n' Hn'].
    exists (chan n'). apply channel_at_Some. rewrite <- Ht. eauto. }
  split; apply Hgo; try done; intros l [n Hn]; specialize (HN l); rewrite Hn in HN; inversion HN; eauto.
Qed.

(** After [detach] exactly the leaf is gone. *)
Lemma detach_channel m id l n : chan_wf m -> tree m !! id = Some l -> nodes m !! l = Some n -> id <> 0 -> Children n = [] ->
  forall x, channel_at (detach m id (ParentID (chan n))) x = if decide (x = id) then None else channel_at m x.
Proof.
  intros W Hl Hn H0 Hleaf x. set (m' := detach m id (ParentID (chan n))).
  pose proof (detach_tree m W id l n Hl Hn H0) as HT. fold m' in HT.
  destruct (decide (x = id)) as [->|Hne].
  - destruct (channel_at m' id) as [c|] eqn:E; [|done]. apply channel_at_Some in E as (l' & n' & Ht & _).
    rewrite HT, lookup_delete_eq in Ht. done.
  - apply option_eq. intros c. rewrite !channel_at_Some. split; intros (l' & k & Ht & Hk & <-).
    + rewrite HT, lookup_delete_ne in Ht by done.
      destruct (detach_back m W id l n Hl Hn H0 l' k Hk) as (k0 & Hk0 & ->). eauto.
    + destruct (detach_node m W id l n Hl Hn H0 l' k Hk) as (k' & Hk' & <-).
      exists l', k'. split; [|done]. by rewrite HT, lookup_delete_ne by done.
Qed.

Lemma db_channel m d x : channel_at (m <| db := d |>) x = channel_at m x.
Proof. done. Qed.

Lemma Remove_cases m id : chan_wf m ->
  let '(m', ok, _) := Remove m id in
  chan_wf m' /\
  ((ok = false /\ forall x, channel_at m' x = channel_at m x) \/
   (ok = true /\ id <> 0 /\ (forall l, ~ kid m id l) /\
    forall x, channel_at m' x = if decide (x = id) then None else channel_at m x)).
Proof.
  intros W. unfold Remove. destruct (Z.eqb_spec id 0) as [->|H0]; [by split; [|left]|].
  destruct (node_at m id) as [[l n]|] eqn:E; [|by split; [|left]]. apply node_at_Some in E as [Hl Hn].
  destruct (decide (Children n = [])) as [Hc|Hc]; [|rewrite bool_decide_eq_false_2 by done; by split; [|left]].
  rewrite bool_decide_eq_true_2 by done. cbn [negb].
  destruct (dbDelete (db m) id) as [d ok] eqn:Ed. apply dbDelete_ids in Ed.
  assert (chan_wf (m <| db := d |>)) as Wd by (eapply same_shape_wf; [by apply same_shape_db|done]).
  destruct ok; cbn [negb]; [|split; [done|left]; split; [done|]; apply db_channel].
  split; [by eapply (detach_wf _ Wd id l n)|]. right. split; [done|]. split; [done|]. split.
  - intros l' Hk. apply (cw_children m W id l n Hl Hn) in Hk. rewrite Hc in Hk. by apply elem_of_nil in Hk.
  - intros x. by rewrite (detach_channel (m <| db := d |>) id l n Wd Hl Hn H0 Hc).
Qed.

(** A channel [CleanEmptyTempChannels] may take away. *)
Definition removable (m : Manager) (hasUsers : Z -> bool) (id : Z) (n : channelNode) : Prop :=
  (exists l, node_at m id = Some (l, n)) /\ id <> 0 /\ IsTemporary (chan n) = true /\ Children n = [] /\ hasUsers id = false.

(** One round takes away one such channel, or finds none that the database
    lets go. *)
Lemma clean_round_spec m hasUsers ids : forall d0, db_ids (db m) ⊆ db_ids d0 ->
  let '(m', removed) := clean_round (m <| db := d0 |>) hasUsers ids in
  exists d, db_ids (db m) ⊆ db_ids d /\
  if removed then exists id n, removable m hasUsers id n /\ m' = detach (m <| db := d |>) id (ParentID (chan n))
  else m' = m <| db := d |> /\
    forall id n, id ∈ ids -> removable m hasUsers id n -> exists d, (dbDelete d id).2 = false.
Proof.
  induction ids as [|id ids IH]; intros d0 Hd0.
  { exists d0. split; [done|]. split; [done|]. by intros id n ?%elem_of_nil. }
  cbn [clean_round]. change (node_at (m <| db := d0 |>) id) with (node_at m id).
  assert (forall d1, db_ids (db m) ⊆ db_ids d1 ->
    (forall n, removable m hasUsers id n -> exists d, (dbDelete d id).2 = false) ->
    let '(m', removed) := clean_round (m <| db := d1 |>) hasUsers ids in
    exists d, db_ids (db m) ⊆ db_ids d /\
    if removed then exists id n, removable m hasUsers id n /\ m' = detach (m <| db := d |>) id (ParentID (chan n))
    else m' = m <| db := d |> /\
      forall x n, x ∈ id :: ids -> removable m hasUsers x n -> exists d, (dbDelete d x).2 = false) as Hskip.
  { intros d1 Hd1 Hid. specialize (IH d1 Hd1). destruct (clean_round _ hasUsers ids) as [m' [|]]; [done|].
    destruct IH as (d & Hd & Hm & Hdel). exists d. split; [done|]. split; [done|].
    intros x n [->|Hx]%elem_of_cons; [apply Hid|by apply Hdel]. }
  destruct (node_at m id) as [[l n]|] eqn:En; [|apply Hskip; [done|]; intros n [[l Hx] _]; congruence].
  assert (forall n', removable m hasUsers id n' -> n' = n) as Hone by (intros n' [[l' Hx] _]; congruence).
  destruct ((id =? 0) || negb (IsTemporary (chan n)) || negb (bool_decide (Children n = []))) eqn:Ec.
  { apply Hskip; [done|]. intros n' Hr. rewrite (Hone n' Hr) in Hr. destruct Hr as (_ & H0 & Ht & Hc & _).
    rewrite Ht, bool_decide_eq_true_2 in Ec by done. destruct (Z.eqb_spec id 0); done. }
  rewrite !orb_false_iff, !negb_false_iff, bool_decide_eq_true, Z.eqb_neq in Ec. destruct Ec as [[H0 Ht] Hc].
  destruct (hasUsers id) eqn:Hu; [apply Hskip; [done|]; intros n' (_ & _ & _ & _ & ?); congruence|].
  change (db (m <| db := d0 |>)) with d0. destruct (dbDelete d0 id) as [d ok] eqn:Ed.
  change (m <| db := d0 |> <| db := d |>) with (m <| db := d |>).
  assert (db_ids (db m) ⊆ db_ids d) as Hd by (apply dbDelete_ids in Ed; set_solver).
  destruct ok; cbn [negb]; [|apply Hskip; [done|]; intros; exists d0; by rewrite Ed].
  exists d. split; [done|]. exists id, n. split; [|done]. split; [eauto|]. done.
Qed.

Lemma clean_loop_spec hasUsers ord : forall fuel m, chan_wf m -> (size (tree m) < fuel)%nat ->
  exists m', clean_loop fuel ord m hasUsers = Some m' /\ chan_wf m' /\
    (forall x c, channel_at m' x = Some c -> channel_at m x = Some c) /\
    (forall x c, channel_at m x = Some c -> channel_at m' x = None -> x <> 0 /\ IsTemporary c = true /\ hasUsers x = false) /\
    ((forall k, order_ok (ord k)) -> forall x n, removable m' hasUsers x n -> exists d, (dbDelete d x).2 = false).
Proof.
  induction fuel as [|fuel IH]; intros m W Hf; [lia|]. cbn [clean_loop].
  pose proof (clean_round_spec m hasUsers (ord fuel (keys m)) (db m) ltac:(done)) as H.
  replace (m <| db := db m |>) with m in H by (by destruct m).
  destruct (clean_round m hasUsers (ord fuel (keys m))) as [m1 [|]]; destruct H as (d & Hd & H).
  - destruct H as (id & n & ((l & [Hl Hn]%node_at_Some) & H0 & Ht & Hc & Hu) & ->).
    assert (chan_wf (m <| db := d |>)) as Wd by (eapply same_shape_wf; [by apply same_shape_db|done]).
    pose proof (detach_wf _ Wd id l n Hl Hn H0 Hc) as W1.
    pose proof (detach_channel _ id l n Wd Hl Hn H0 Hc) as Hch.
    pose proof (detach_tree _ Wd id l n Hl Hn H0) as HT.
    set (m1 := detach (m <| db := d |>) id (ParentID (chan n))) in *.
    assert (size (tree m1) < fuel)%nat as Hsz.
    { rewrite HT. change (tree (m <| db := d |>)) with (tree m). rewrite map_size_delete, Hl.
      assert (size (tree m) <> 0%nat); [|lia]. intros E%map_size_empty_iff. by rewrite E, lookup_empty in Hl. }
    destruct (IH m1 W1 Hsz) as (m' & Hm' & W' & Hsub & Hgone & Hrest). exists m'. split; [done|]. split; [done|].
    split; [|split; [|done]].
    + intros x c Hx%Hsub. rewrite Hch in Hx. by destruct (decide (x = id)).
    + intros x c Hx Hnone. destruct (decide (x = id)) as [->|Hne].
      * assert (c = chan n) as ->; [|done]. apply channel_at_Some in Hx as (? & ? & ? & ? & <-). congruence.
      * apply Hgone; [|done]. rewrite Hch. by destruct (decide (x = id)).
  - destruct H as [-> Hdel]. exists (m <| db := d |>). split; [done|].
    split; [eapply same_shape_wf; [by apply same_shape_db|done]|]. split; [done|].
    split; [intros x c Hx Hnone; rewrite db_channel in Hnone; congruence|].
    intros Hord x n Hr. apply (Hdel x n); [|exact Hr]. rewrite (Hord fuel (keys m)). apply elem_of_keys.
    destruct Hr as [(l & [Hl _]%node_at_Some) _]. eauto.
Qed.

(** Cleaning up is safe and complete: it ends, leaves a well-formed tree with
    the data of the remaining channels unchanged, takes away only temporary
    channels without users (never the root), and when the database lets rows
    go no temporary channel without users and children is left. *)
Theorem clean_exact (ord : nat -> order) (m : Manager) (hasUsers : Z -> bool) :
  chan_wf m -> (forall k, order_ok (ord k)) ->
  exists m' ls, CleanEmptyTempChannels ord m hasUsers = Some (m', ls) /\ chan_wf m' /\
    (forall x c, channel_at m' x = Some c -> channel_at m x = Some c) /\
    (forall x c, channel_at m x = Some c -> channel_at m' x = None ->
       x <> 0 /\ IsTemporary c = true /\ hasUsers x = false) /\
    ((forall d id, (dbDelete d id).2 = true) -> forall x n, ~ removable m' hasUsers x n).
Proof.
  intros W Hord. destruct (clean_loop_spec hasUsers ord (S (size (tree m))) m W ltac:(lia)) as (m' & Hm & W' & Hsub & Hgone & Hrest).
  exists m', (authorizationListeners m). unfold CleanEmptyTempChannels. rewrite Hm. split; [done|]. split; [done|].
  split; [done|]. split; [done|]. intros Hdel x n Hr. destruct (Hrest Hord x n Hr) as [d Hd]. rewrite Hdel in Hd. done.
Qed.

(** ** Links *)

(** [a] and [b] are linked in the sense of voice routing: a usable link in
    either direction. *)
Definition link (m : Manager) (a b : Z) : Prop :=
  a <> b /\ is_Some (tree m !! a) /\ is_Some (tree m !! b) /\ (b ∈ links_of m a \/ a ∈ links_of m b).

Definition nbrs (adj : gmap Z (list Z)) (a : Z) : list Z := default [] (adj !! a).

Lemma elem_of_add_edge a b adj x y : y ∈ nbrs (add_edge a b adj) x <-> y ∈ nbrs adj x \/ (x = a /\ y = b).
Proof.
  unfold nbrs, add_edge. destruct (decide (x = a)) as [->|Hne].
  - rewrite lookup_insert_eq. cbn. rewrite elem_of_app, list_elem_of_singleton. naive_solver.
  - rewrite lookup_insert_ne by done. naive_solver.
Qed.
Definition usable_link (m : Manager) (id l : Z) : Prop := l ∈ links_of m id /\ l <> id /\ in_tree m l = true.
Lemma elem_of_add_links m id x y : forall adj, y ∈ nbrs (add_links m adj id) x <->
  y ∈ nbrs adj x \/ (x = id /\ usable_link m id y) \/ (y = id /\ usable_link m id x).
Proof.
  unfold add_links, usable_link. induction (links_of m id) as [|l ls IH]; intros adj; cbn [fold_left]; [set_solver|].
  rewrite IH. setoid_rewrite elem_of_cons.
  destruct (Z.eqb_spec l id) as [->|Hne]; cbn [orb]; [naive_solver|].
  destruct (in_tree m l) eqn:Et; cbn [negb]; [|naive_solver congruence]. rewrite !elem_of_add_edge. naive_solver.
Qed.
Lemma links_of_tree m id l : l ∈ links_of m id -> is_Some (tree m !! id).
Proof.
  unfold links_of. destruct (channel_at m id) as [c|] eqn:E; [|by intros ?%elem_of_nil].
  intros _. apply channel_at_Some in E as (? & ? & ? & _). eauto.
Qed.
Lemma elem_of_adjacent ord m x y : order_ok ord -> y ∈ nbrs (adjacent ord m) x <-> link m x y.
Proof.
  intros Hord. assert (forall ids adj, y ∈ nbrs (fold_left (add_links m) ids adj) x <->
    y ∈ nbrs adj x \/ (x ∈ ids /\ usable_link m x y) \/ (y ∈ ids /\ usable_link m y x)) as Hfold.
  { induction ids as [|id ids IH]; intros adj; cbn [fold_left]; [set_solver|].
    rewrite IH, elem_of_add_links. setoid_rewrite elem_of_cons. naive_solver. }
  unfold adjacent. rewrite Hfold. rewrite !(Hord (keys m)), !elem_of_keys. unfold link, usable_link. rewrite !in_tree_spec.
  unfold nbrs at 1. rewrite lookup_empty. cbn. rewrite elem_of_nil. split.
  - intros [[]|[(H1 & H2 & H3 & H4)|(H1 & H2 & H3 & H4)]]; (split; [congruence|]); auto.
  - intros (H1 & H2 & H3 & [H4|H4]); right; [left|right]; by repeat split.
Qed.

Lemma visit_spec ns : forall (seen : gset Z) q, exists new,
  fold_left visit ns (seen, q) = (list_to_set ns ∪ seen, q ++ new) /\
  size (list_to_set ns ∪ seen : gset Z) = (size seen + length new)%nat /\
  (forall x, x ∈ new -> x ∈ ns) /\ (forall x, x ∈ ns -> x ∈ seen \/ x ∈ new).
Proof.
  induction ns as [|n ns IH]; intros seen q; cbn [fold_left visit].
  { exists []. rewrite app_nil_r. cbn. rewrite (left_id_L ∅ (∪)). split; [done|]. split; [lia|]. set_solver. }
  destruct (decide (n ∈ seen)) as [Hin|Hin].
  - rewrite bool_decide_eq_true_2 by done. destruct (IH seen q) as (new & E & Hs & H1 & H2). exists new.
    assert (list_to_set (n :: ns) ∪ seen = list_to_set ns ∪ seen :> gset Z) as -> by set_solver.
    split; [done|]. split; [done|]. split; [set_solver|]. intros x [->|Hx]%elem_of_cons; [by left|by apply H2].
  - rewrite bool_decide_eq_false_2 by done. destruct (IH ({[n]} ∪ seen) (q ++ [n])) as (new & E & Hs & H1 & H2).
    exists (n :: new). assert (list_to_set (n :: ns) ∪ seen = list_to_set ns ∪ ({[n]} ∪ seen) :> gset Z) as -> by set_solver.
    split; [by rewrite E, <- app_assoc|]. split; [rewrite Hs, size_union, size_singleton by set_solver; cbn; lia|].
    split; [set_solver|]. intros x [->|Hx]%elem_of_cons; [right; apply elem_of_cons; by left|].
    destruct (H2 x Hx) as [?|?]; set_solver.
Qed.

Lemma rtc_closed (R : Z -> Z -> Prop) (S : gset Z) a b :
  (forall x y, x ∈ S -> R x y -> y ∈ S) -> a ∈ S -> rtc R a b -> b ∈ S.
Proof. intros Hcl Ha. induction 1 as [|a a' b Hab _ IH]; [done|]. apply IH. by apply (Hcl a). Qed.

(** Breadth-first search finds everything that can be reached. *)
Lemma bfs_spec (R : Z -> Z -> Prop) (D : gset Z) (start : Z) adj :
  (forall x y, y ∈ nbrs adj x <-> R x y) -> (forall x y, R x y -> y ∈ D) ->
  forall fuel (seen : gset Z) q, seen ⊆ D -> (length q + size D <= fuel + size seen)%nat -> start ∈ seen ->
  (forall x, x ∈ q -> x ∈ seen) -> (forall x, x ∈ seen -> rtc R start x) ->
  (forall x y, x ∈ seen -> x ∉ q -> R x y -> y ∈ seen) ->
  exists out, bfs fuel adj seen q = Some out /\ forall x, x ∈ out <-> rtc R start x.
Proof.
  intros Hadj HD. induction fuel as [|fuel IH]; intros seen q Hs Hf Hst Hq Hr Hcl.
  - apply subseteq_size in Hs as Hsz. destruct q as [|id q]; cbn in *; [|lia]. exists seen. split; [done|].
    intros x. split; [apply Hr|]. apply rtc_closed; [|done]. intros y z Hy. apply Hcl; [done|]. apply not_elem_of_nil.
  - destruct q as [|id q].
    { exists seen. split; [done|]. intros x. split; [apply Hr|].
      apply rtc_closed; [|done]. intros y z Hy. apply Hcl; [done|]. apply not_elem_of_nil. }
    cbn [bfs]. fold (nbrs adj id). destruct (visit_spec (nbrs adj id) seen q) as (new & -> & Hsz & H1 & H2).
    assert (id ∈ seen) as Hid by (apply Hq, elem_of_cons; by left). apply IH.
    + intros x [Hx%elem_of_list_to_set|Hx]%elem_of_union; [|by apply Hs]. apply (HD id). by apply Hadj.
    + rewrite length_app, Hsz. cbn in Hf. lia.
    + set_solver.
    + intros x [Hx|Hx]%elem_of_app; [|set_solver]. apply elem_of_union. right. apply Hq, elem_of_cons. by right.
    + intros x [Hx%elem_of_list_to_set|Hx]%elem_of_union; [|by apply Hr]. eapply rtc_r; [by apply Hr|]. by apply Hadj.
    + intros x y [Hx%elem_of_list_to_set|Hx]%elem_of_union Hnq HR.
      * destruct (decide (x = id)) as [->|Hne]; [apply elem_of_union_l, elem_of_list_to_set; by apply Hadj|].
        destruct (H2 x Hx) as [Hx'|Hx']; [|set_solver]. apply elem_of_union_r, (Hcl x); [done| |done]. set_solver.
      * destruct (decide (x = id)) as [->|Hne]; [apply elem_of_union_l, elem_of_list_to_set; by apply Hadj|].
        apply elem_of_union_r, (Hcl x); [done| |done]. set_solver.
Qed.

Lemma elem_of_sortedLinkIDs ord (s : gset Z) x : order_ok ord -> x ∈ sortedLinkIDs ord s <-> x ∈ s.
Proof. intros Hord. unfold sortedLinkIDs. by rewrite sortBy_perm, (Hord (elements s)), elem_of_elements. Qed.
Lemma sortedLinkIDs_NoDup ord (s : gset Z) : order_ok ord -> NoDup (sortedLinkIDs ord s).
Proof. intros Hord. unfold sortedLinkIDs. rewrite sortBy_perm, (Hord (elements s)). apply NoDup_elements. Qed.
Lemma sortedLinkIDs_ext ord ord' (s s' : gset Z) : order_ok ord -> order_ok ord' -> s = s' ->
  sortedLinkIDs ord s = sortedLinkIDs ord' s'.
Proof.
  intros Ho Ho' <-. unfold sortedLinkIDs. apply (StronglySorted_unique Z.le).
  - apply (sortBy_sorted _ id).
  - apply (sortBy_sorted _ id).
  - by rewrite !sortBy_perm, (Ho (elements s)), (Ho' (elements s)).
Qed.

Lemma link_sym m a b : link m a b -> link m b a.
Proof. intros (H1 & H2 & H3 & H4). split; [congruence|]. split; [done|]. split; [done|]. naive_solver. Qed.
Lemma link_rtc_sym m a b : rtc (link m) a b -> rtc (link m) b a.
Proof. induction 1 as [|a b c Hab _ IH]; [done|]. eapply rtc_r; [done|by apply link_sym]. Qed.

Lemma connected_component ord1 ord2 m a : order_ok ord1 -> order_ok ord2 -> is_Some (tree m !! a) ->
  exists comp : gset Z, ConnectedChannelIDs ord1 ord2 m a = Some (sortedLinkIDs ord2 comp) /\
    forall x, x ∈ comp <-> rtc (link m) a x.
Proof.
  intros Ho1 Ho2 Ha. unfold ConnectedChannelIDs. rewrite (proj2 (in_tree_spec m a) Ha). cbn [negb].
  destruct (bfs_spec (link m) (dom (tree m)) a (adjacent ord1 m) (fun x y => elem_of_adjacent ord1 m x y Ho1)
    ltac:(intros x y (_ & _ & Hy & _); by apply elem_of_dom) (S (size (tree m))) {[a]} [a]) as (comp & -> & Hcomp).
  - intros x ->%elem_of_singleton. by apply elem_of_dom.
  - rewrite size_dom, size_singleton. cbn. lia.
  - set_solver.
  - set_solver.
  - by intros x ->%elem_of_singleton.
  - intros x y ->%elem_of_singleton []. apply elem_of_cons. by left.
  - exists comp. split; [done|]. done.
Qed.

(** Voice reaches the whole group of linked channels: the search ends and
    returns, sorted and without repetition, exactly the channels connected by
    usable links in either direction; every channel of the group gets the same
    list. *)
Theorem connected_channels_exact (ord1 ord2 ord1' ord2' : order) (m : Manager) (a : Z) :
  order_ok ord1 -> order_ok ord2 -> order_ok ord1' -> order_ok ord2' -> is_Some (tree m !! a) ->
  exists out, ConnectedChannelIDs ord1 ord2 m a = Some out /\ NoDup out /\ StronglySorted Z.le out /\
    (forall x, x ∈ out <-> rtc (link m) a x) /\
    (forall b, b ∈ out -> ConnectedChannelIDs ord1' ord2' m b = Some out).
Proof.
  intros Ho1 Ho2 Ho1' Ho2' Ha. destruct (connected_component ord1 ord2 m a Ho1 Ho2 Ha) as (comp & -> & Hc).
  eexists. split; [done|]. split; [by apply sortedLinkIDs_NoDup|]. split; [apply (sortBy_sorted _ id)|].
  split; [intros x; by rewrite elem_of_sortedLinkIDs|]. intros b Hb. rewrite elem_of_sortedLinkIDs, Hc in Hb by done.
  assert (is_Some (tree m !! b)) as Hbt.
  { destruct (rtc_inv_r _ _ Hb) as [<-|(y & _ & _ & _ & ? & _)]; done. }
  destruct (connected_component ord1' ord2' m b Ho1' Ho2' Hbt) as (comp' & -> & Hc').
  f_equal. apply sortedLinkIDs_ext; [done|done|]. apply set_eq. intros x. rewrite Hc, Hc'.
  split; intros H; (etrans; [|exact H]); [done|by apply link_rtc_sym].
Qed.

(** [a] links to [b] directly. *)
Definition links_to (m : Manager) (a b : Z) : Prop := b ∈ usable m a (links_of m a).

Lemma elem_of_usable m a ls b : b ∈ usable m a ls <-> b ∈ ls /\ b <> a /\ in_tree m b = true.
Proof. unfold usable. rewrite elem_of_list_to_set, list_elem_of_filter. naive_solver. Qed.

Lemma set_links_channel m id ls x : chan_wf m ->
  channel_at (set_links m id ls) x = if decide (x = id) then (fun c => c <| Links := ls |>) <$> channel_at m x else channel_at m x.
Proof.
  intros W. unfold set_links. destruct (node_at m id) as [[l n]|] eqn:E.
  - apply node_at_Some in E as [Hl Hn]. unfold channel_at, node_at. cbn. destruct (decide (x = id)) as [->|Hne].
    + rewrite Hl. cbn. by rewrite lookup_insert_eq, Hn.
    + destruct (tree m !! x) as [lx|] eqn:Hx; [|done]. cbn. rewrite lookup_insert_ne; [done|]. intros <-.
      destruct (cw_nodes m W _ _ Hx) as (? & ? & ?), (cw_nodes m W _ _ Hl) as (? & ? & ?). congruence.
  - destruct (decide (x = id)) as [->|]; [|done]. unfold channel_at. by rewrite E.
Qed.

Definition store_links (m : Manager) (g : Z -> list Z) (ids : list Z) : Manager :=
  fold_left (fun m '(id, ls) => set_links m id ls) ((fun id => (id, g id)) <$> ids) m.

Lemma store_links_same_shape g ids : forall m, same_shape m (store_links m g ids).
Proof.
  induction ids as [|id ids IH]; intros m; [apply same_shape_refl|].
  eapply same_shape_trans; [apply set_links_same_shape|apply IH].
Qed.
Lemma store_links_channel g ids x : forall m, chan_wf m ->
  channel_at (store_links m g ids) x =
    if decide (x ∈ ids) then (fun c => c <| Links := g x |>) <$> channel_at m x else channel_at m x.
Proof.
  induction ids as [|id ids IH]; intros m W; [done|]. unfold store_links. cbn [fold_left fmap list_fmap].
  fold (store_links (set_links m id (g id)) g ids).
  rewrite IH by (eapply same_shape_wf; [apply set_links_same_shape|done]). rewrite set_links_channel by done.
  destruct (decide (x = id)) as [->|Hne].
  - rewrite (decide_True (P := id ∈ id :: ids)) by (apply elem_of_cons; by left).
    destruct (decide (id ∈ ids)); [|done]. by destruct (channel_at m id).
  - destruct (decide (x ∈ ids)) as [H|H]; destruct (decide (x ∈ id :: ids)) as [H'|H']; try done; set_solver.
Qed.
Lemma store_links_of g ids x m : chan_wf m -> is_Some (tree m !! x) ->
  links_of (store_links m g ids) x = if decide (x ∈ ids) then g x else links_of m x.
Proof.
  intros W [l Hl]. unfold links_of. rewrite store_links_channel by done.
  destruct (cw_nodes m W _ _ Hl) as (n & Hn & _). assert (channel_at m x = Some (chan n)) as -> by (apply channel_at_Some; eauto).
  by destruct (decide (x ∈ ids)).
Qed.

(** What a change of the links of [ch] to [desired] comes to. *)
Definition links_updated (m m' : Manager) (ch : Z) (desired changed : list Z) : Prop :=
  chan_wf m' /\ tree m' = tree m /\
  (forall b, links_to m' ch b <-> b ∈ desired) /\
  (forall a, a <> ch -> is_Some (tree m !! a) -> links_to m' a ch <-> a ∈ desired) /\
  (forall a b, a <> ch -> b <> ch -> links_to m' a b <-> links_to m a b) /\
  (forall x, x ∉ changed -> channel_at m' x = channel_at m x).

Lemma save_links_ids d ups d' : save_links d ups = Some d' -> db_ids d' = db_ids d.
Proof.
  unfold save_links. destruct (txBegin d) as [tx|] eqn:E; [|done]. cbn. apply txBegin_ids in E. rewrite <- E. clear E d.
  revert tx. induction ups as [|[id ls] ups IH]; intros tx; cbn; [apply txCommit_ids|].
  destruct (txUpdateLinks tx id ls) as [tx'|] eqn:E; [|done]. cbn. intros H%IH. apply txUpdateLinks_ids in E. congruence.
Qed.

Lemma links_to_tree m a b : links_to m a b -> is_Some (tree m !! a) /\ is_Some (tree m !! b).
Proof. intros (H1 & _ & H2)%elem_of_usable. split; [by eapply links_of_tree|by apply in_tree_spec]. Qed.

Lemma links_to_iff m m' a b : tree m' = tree m ->
  links_to m' a b <-> b ∈ links_of m' a /\ b <> a /\ is_Some (tree m !! b).
Proof. intros HT. unfold links_to. rewrite elem_of_usable, in_tree_spec. by rewrite HT. Qed.

Section UpdateLinks.
Context (m : Manager) (W : chan_wf m) (ord1 ord2 : order) (Ho1 : order_ok ord1) (Ho2 : order_ok ord2).
Context (ch : Z) (node : Channel) (desired : list Z) (Hch : channel_at m ch = Some node).
Hypothesis Hdes : forall x, x ∈ desired -> x <> ch /\ is_Some (tree m !! x).

Let desiredSet : gset Z := list_to_set desired.

Lemma links_of_ch : links_of m ch = Links node.
Proof. unfold links_of. by rewrite Hch. Qed.

Lemma links_stable :
  size (usable m ch (Links node)) = size desiredSet ->
  (forall x, x ∈ usable m ch (Links node) -> x ∈ desiredSet) ->
  (forall x, is_Some (tree m !! x) -> x <> ch -> inbound m ch x = bool_decide (x ∈ desiredSet)) ->
  links_updated m m ch desired [].
Proof.
  intros Hsz Hsub Hin. split; [done|]. split; [done|]. split; [|split; [|split; [done|done]]].
  - intros b. unfold links_to. rewrite links_of_ch.
    assert (usable m ch (Links node) = desiredSet) as ->; [|unfold desiredSet; apply elem_of_list_to_set].
    apply set_subseteq_size_eq; [done|lia].
  - intros a Ha Ht. rewrite (links_to_iff m m) by done. specialize (Hin a Ht Ha). unfold inbound in Hin.
    assert (is_Some (tree m !! ch)) by (apply channel_at_Some in Hch as (? & ? & ? & _); eauto).
    assert (a ∈ desiredSet <-> a ∈ desired) as <- by apply elem_of_list_to_set.
    assert (ch ∈ links_of m a <-> a ∈ desiredSet) as <- by
      (by rewrite <- (bool_decide_eq_true (ch ∈ links_of m a)), Hin, bool_decide_eq_true).
    naive_solver.
Qed.

Lemma links_stored d ids : db_ids d = db_ids (db m) ->
  (forall x, x = ch \/ x ∈ desiredSet \/ (is_Some (tree m !! x) /\ inbound m ch x = true) -> x ∈ ids) ->
  links_updated m (store_links (m <| db := d |>) (fun id => sortedLinkIDs ord2 (links_after m ch desiredSet id)) ids) ch desired ids.
Proof.
  intros Hd Hids. set (g := fun id => sortedLinkIDs ord2 (links_after m ch desiredSet id)).
  assert (chan_wf (m <| db := d |>)) as Wd by (eapply same_shape_wf; [apply same_shape_db; by rewrite Hd|done]).
  pose proof (store_links_same_shape g ids (m <| db := d |>)) as Hs.
  set (m' := store_links (m <| db := d |>) g ids) in *. assert (tree m' = tree m) as HT by (apply (ss_tree _ _ Hs)).
  assert (forall a, is_Some (tree m !! a) -> links_of m' a = if decide (a ∈ ids) then g a else links_of m a) as Hlinks.
  { intros a Ha. unfold m'. by rewrite (store_links_of g ids a (m <| db := d |>)). }
  assert (is_Some (tree m !! ch)) as Hcht by (apply channel_at_Some in Hch as (? & ? & ? & _); eauto).
  assert (forall a b, is_Some (tree m !! a) -> b ∈ links_of m' a <->
    (a ∈ ids /\ b ∈ links_after m ch desiredSet a) \/ (a ∉ ids /\ b ∈ links_of m a)) as Hmem.
  { intros a b Ha. rewrite Hlinks by done. destruct (decide (a ∈ ids)); [unfold g; rewrite elem_of_sortedLinkIDs by done|]; naive_solver. }
  split; [by eapply same_shape_wf|]. split; [done|]. split; [|split; [|split]].
  - intros b. rewrite (links_to_iff m m'), Hmem by done. unfold links_after. rewrite Z.eqb_refl.
    assert (b ∈ desiredSet <-> b ∈ desired) as -> by apply elem_of_list_to_set.
    assert (ch ∈ ids) by (apply Hids; by left). pose proof (Hdes b). naive_solver.
  - intros a Ha Ht. rewrite (links_to_iff m m'), Hmem by done. unfold links_after. rewrite (proj2 (Z.eqb_neq a ch)) by done.
    assert (a ∈ desiredSet <-> a ∈ desired) as Hda by apply elem_of_list_to_set. rewrite <- Hda.
    destruct (decide (a ∈ desiredSet)) as [Had|Had].
    + rewrite bool_decide_eq_true_2 by done. assert (a ∈ ids) by (apply Hids; auto). set_solver.
    + rewrite bool_decide_eq_false_2 by done. split; [|done]. intros [[[_ Hx]|[Hni Hx]] _]; [set_solver|]. exfalso.
      apply Hni, Hids. right. right. split; [done|]. unfold inbound. by apply bool_decide_eq_true.
  - intros a b Ha Hb. destruct (tree m !! a) as [la|] eqn:Ea.
    + rewrite (links_to_iff m m'), (links_to_iff m m), Hmem by eauto. unfold links_after. rewrite (proj2 (Z.eqb_neq a ch)) by done.
      assert (forall b', b' <> ch -> b' ∈ (if bool_decide (a ∈ desiredSet) then {[ch]} ∪ usable m a (links_of m a) ∖ {[ch]}
        else usable m a (links_of m a) ∖ {[ch]}) <-> b' ∈ links_of m a /\ b' <> a /\ is_Some (tree m !! b')) as Hu.
      { intros b' Hb'. rewrite <- in_tree_spec, <- elem_of_usable. destruct (bool_decide _); set_solver. }
      rewrite Hu by done. destruct (decide (a ∈ ids)); naive_solver.
    + split; intros [Hx _]%links_to_tree; rewrite ?HT, Ea in Hx; by destruct Hx.
  - intros x Hx. unfold m'. by rewrite store_links_channel, decide_False by done.
Qed.
End UpdateLinks.

Lemma UpdateLinks_cases (ord1 ord2 : order) (m : Manager) (ch : Z) (desired : list Z) :
  chan_wf m -> order_ok ord1 -> order_ok ord2 ->
  match UpdateLinks ord1 ord2 m ch desired with
  | (m', None) => m' = m
  | (m', Some changed) => links_updated m m' ch desired changed
  end.
Proof.
  intros W Ho1 Ho2. unfold UpdateLinks. destruct (channel_at m ch) as [node|] eqn:Hch; [|done].
  destruct (existsb _ desired) eqn:Hex; [done|].
  assert (forall x, x ∈ desired -> x <> ch /\ is_Some (tree m !! x)) as Hdes.
  { intros x Hx%list_elem_of_In. destruct ((x =? ch) || negb (in_tree m x)) eqn:Ex.
    - assert (existsb (fun l => (l =? ch) || negb (in_tree m l)) desired = true) by (apply existsb_exists; eauto). congruence.
    - apply orb_false_iff in Ex as [E1 E2]. apply Z.eqb_neq in E1. apply negb_false_iff, in_tree_spec in E2. done. }
  set (desiredSet := list_to_set desired : gset Z).
  match goal with |- context [if ?b then (m, Some []) else _] => destruct b eqn:Est end.
  - rewrite !andb_true_iff, Nat.eqb_eq, !forallb_forall in Est. destruct Est as [[Hsz Hsub] Hin].
    apply (links_stable m W ch node); [done|done|done| |].
    + intros x Hx. apply (bool_decide_eq_true (x ∈ desiredSet)), Hsub. by apply list_elem_of_In, elem_of_elements.
    + intros x Hx Hne. assert (In x (keys m)) as Hk by (by apply list_elem_of_In, elem_of_keys).
      specialize (Hin x Hk). rewrite (proj2 (Z.eqb_neq x ch)) in Hin by done. by apply eqb_prop in Hin.
  - clear Est. match goal with |- context [elements ?s] => set (changedSet := s) end.
    destruct (save_links (db m) _) as [d|] eqn:Es; [|done]. apply save_links_ids in Es.
    assert (forall x, x ∈ sortBy id ((fun id => (id, sortedLinkIDs ord2 (links_after m ch desiredSet id))) <$> ord1 (elements changedSet)).*1
      <-> x ∈ ord1 (elements changedSet)) as Hsame.
    { intros x. rewrite sortBy_perm, <- list_fmap_compose. cbn. by rewrite list_fmap_id. }
    destruct (links_stored m W ord1 ord2 Ho1 Ho2 ch node desired Hch Hdes d (ord1 (elements changedSet)) Es) as (H1 & H2 & H3 & H4 & H5 & H6).
    + intros x Hx. rewrite (Ho1 (elements changedSet)), elem_of_elements. unfold changedSet.
      rewrite !elem_of_union, elem_of_singleton, elem_of_list_to_set, list_elem_of_filter, elem_of_keys. naive_solver.
    + repeat (split; [done|]). intros x Hx. apply H6. by rewrite <- Hsame.
Qed.

Lemma UpdateLinks_refused (ord1 ord2 : order) (m : Manager) (ch : Z) (desired : list Z) : (UpdateLinks ord1 ord2 m ch desired).2 = None ->
  channel_at m ch = None \/ (exists x, x ∈ desired /\ (x = ch \/ tree m !! x = None)) \/ exists ups, save_links (db m) ups = None.
Proof.
  unfold UpdateLinks. destruct (channel_at m ch); [|auto]. destruct (existsb _ desired) eqn:E.
  - intros _. right. left. apply existsb_exists in E as (x & Hx & [Hq%Z.eqb_eq|Ht%negb_true_iff]%orb_true_iff); exists x; (split; [by apply list_elem_of_In|]); [by left|right].
    apply eq_None_not_Some. intros H%in_tree_spec. congruence.
  - match goal with |- context [if ?b then (m, Some []) else _] => destruct b end; [done|]. destruct (save_links (db m) _) eqn:Es; [done|]. eauto.
Qed.

(** Links stay symmetric: a refused change of links changes nothing; an
    accepted one makes [ch] link to exactly the wanted channels, makes exactly
    those link back (repairing one-sided links), and leaves the links among
    all other channels, and the channels not reported as changed, as they
    were. *)
Theorem UpdateLinks_exact (ord1 ord2 : order) (m : Manager) (ch : Z) (desired : list Z) :
  chan_wf m -> order_ok ord1 -> order_ok ord2 ->
  match UpdateLinks ord1 ord2 m ch desired with
  | (m', None) => m' = m
  | (m', Some changed) => links_updated m m' ch desired changed
  end.
Proof. apply UpdateLinks_cases. Qed.

(** ** Loading a stored tree *)

(** Rows that describe a tree: distinct IDs, a row 0, and every other row with
    a parent among the rows that is nearer to the root. *)
Record rows_ok (rows : list Row) (depth : Z -> nat) : Prop := {
  ro_ids : NoDup (map row_ID rows);
  ro_range : forall r, r ∈ rows -> 0 <= row_ID r < 2 ^ 32;
  ro_root : 0 ∈ map row_ID rows;
  ro_parent : forall r, r ∈ rows -> row_ID r <> 0 ->
    exists p, row_ParentID r = Some p /\ p ∈ map row_ID rows /\ (depth p < depth (row_ID r))%nat }.

(** The children found so far: those of the channels [done]. *)
Record attached (m : Manager) (done : list Z) : Prop := {
  at_nodes : forall id l, tree m !! id = Some l -> exists n, nodes m !! l = Some n /\ ID (chan n) = id;
  at_children : forall id l n, tree m !! id = Some l -> nodes m !! l = Some n ->
    NoDup (Children n) /\ forall l', l' ∈ Children n <-> kid m id l' /\ id_of m l' ∈ done }.

Lemma kid_id m id l c : kid m id l -> tree m !! c = Some l -> (forall x k, tree m !! x = Some k -> exists n, nodes m !! k = Some n /\ ID (chan n) = x) ->
  id_of m l = c.
Proof.
  intros (n & Hn & Ht & _) Hc H. destruct (H c l Hc) as (n' & Hn' & <-). unfold id_of. rewrite Hn'. done.
Qed.

Lemma attach_step m done id : attached m done -> is_Some (tree m !! id) -> id ∉ done ->
  same_chans m (attach m id) /\ attached (attach m id) (id :: done).
Proof.
  intros A [l Hl] Hid. destruct (at_nodes m done A id l Hl) as (n & Hn & Hni). unfold attach.
  assert (node_at m id = Some (l, n)) as -> by (by apply node_at_Some).
  assert (id_of m l = id) as Hol by (unfold id_of; by rewrite Hn).
  assert (forall x l', kid m x l' -> id_of m l' = id -> l' = l) as Hone.
  { intros x l' (k & Hk & Ht & _) Ho. unfold id_of in Ho. rewrite Hk in Ho. cbn in Ho. congruence. }
  assert (forall x, kid m x l <-> id <> 0 /\ x = ParentID (chan n)) as Hkl.
  { intros x. split; [intros (k & Hk & Ht & H0 & Hp); assert (k = n) as -> by congruence; split; congruence|].
    intros [H0 ->]. exists n. rewrite Hni. done. }
  assert (forall x, (forall l', kid m x l' -> l' <> l) ->
    forall l', kid m x l' /\ id_of m l' ∈ done <-> kid m x l' /\ id_of m l' ∈ id :: done) as Hsame.
  { intros x Hx l'. rewrite elem_of_cons. split; [naive_solver|]. intros [Hk [Ho|Ho]]; [|done].
    exfalso. by apply (Hx l' Hk), (Hone x). }
  rewrite Hni. destruct (Z.eqb_spec id 0) as [->|H0].
  { split; [apply same_chans_refl|]. split; [apply A|]. intros x lx k Hx Hk.
    destruct (at_children m done A x lx k Hx Hk) as [Hnd Hch]. split; [done|]. intros l'. rewrite Hch. apply Hsame.
    intros l2 Hk2 ->. by apply Hkl in Hk2 as [? _]. }
  unfold append_child. destruct (node_at m (ParentID (chan n))) as [[pl pn]|] eqn:Ep; cycle 1.
  { split; [apply same_chans_refl|]. split; [apply A|]. intros x lx k Hx Hk.
    destruct (at_children m done A x lx k Hx Hk) as [Hnd Hch]. split; [done|]. intros l'. rewrite Hch. apply Hsame.
    intros l2 Hk2 ->. apply Hkl in Hk2 as [_ ->].
    assert (node_at m (ParentID (chan n)) = Some (lx, k)) by (by apply node_at_Some). congruence. }
  apply node_at_Some in Ep as [Hpl Hpn].
  set (m' := write_node pl (pn <| Children := Children pn ++ [l] |>) m).
  assert (same_chans m m') as S by (by apply (same_chans_write m pl pn)). split; [done|].
  assert (forall l', id_of m' l' = id_of m l') as Ho.
  { intros l'. unfold id_of. pose proof (sc_chan m m' S l') as H. destruct (nodes m' !! l'), (nodes m !! l'); cbn in *; congruence. }
  split.
  - intros x lx Hx. destruct (at_nodes m done A x lx Hx) as (k & Hk & Hkx).
    destruct (same_chans_node m m' lx k S Hk) as (k' & Hk' & Hc). exists k'. split; [done|]. congruence.
  - intros x lx k Hx Hk. change (tree m !! x = Some lx) in Hx. setoid_rewrite Ho. setoid_rewrite (same_chans_kid m m' x _ S).
    destruct (decide (lx = pl)) as [->|Hne].
    + cbn in Hk. rewrite lookup_insert_eq in Hk. injection Hk as <-. cbn [Children].
      assert (x = ParentID (chan n)) as ->.
      { destruct (at_nodes m done A _ _ Hx) as (? & ? & ?), (at_nodes m done A _ _ Hpl) as (? & ? & ?). congruence. }
      destruct (at_children m done A _ pl pn Hx Hpn) as [Hnd Hch]. split.
      * apply list.NoDup_app. split; [done|]. split; [|apply list.NoDup_singleton].
        intros y [_ Hy]%Hch ->%list_elem_of_singleton. congruence.
      * intros l'. rewrite elem_of_app, list_elem_of_singleton, Hch, elem_of_cons. pose proof (Hkl (ParentID (chan n))).
        split; [intros [?| ->]; naive_solver|]. intros [Hk [E|E]]; [right; by eapply Hone|by left].
    + cbn in Hk. rewrite lookup_insert_ne in Hk by done. destruct (at_children m done A x lx k Hx Hk) as [Hnd Hch].
      split; [done|]. intros l'. rewrite Hch. apply Hsame. intros l2 Hk2 ->. apply Hkl in Hk2 as [_ ->]. congruence.
Qed.

Lemma attach_all ids : forall m done, attached m done -> NoDup ids -> (forall x, x ∈ ids -> x ∉ done) ->
  (forall x, x ∈ ids -> is_Some (tree m !! x)) ->
  same_chans m (fold_left attach ids m) /\ exists done', attached (fold_left attach ids m) done' /\
    forall x, x ∈ done' <-> x ∈ ids \/ x ∈ done.
Proof.
  induction ids as [|id ids IH]; intros m done A Hnd Hdis Hin; cbn [fold_left].
  { split; [apply same_chans_refl|]. exists done. split; [exact A|set_solver]. }
  apply list.NoDup_cons in Hnd as [Hid Hnd].
  destruct (attach_step m done id A) as [S A']; [apply Hin, elem_of_cons; by left|apply Hdis, elem_of_cons; by left|].
  destruct (IH (attach m id) (id :: done) A' Hnd) as (S' & done' & A2 & Hd).
  - intros x Hx [->|Hxd]%elem_of_cons; [done|]. apply (Hdis x); [apply elem_of_cons; by right|done].
  - intros x Hx. rewrite (sc_tree _ _ S). apply Hin, elem_of_cons. by right.
  - split; [by eapply same_chans_trans|]. exists done'. split; [done|]. intros x. rewrite Hd, !elem_of_cons. naive_solver.
Qed.

(** The rows become nodes without children. *)
Lemma add_rows_spec rows : forall m, NoDup (map row_ID rows) -> (forall r, r ∈ rows -> 0 <= row_ID r < 2 ^ 32) ->
  (forall r, r ∈ rows -> tree m !! row_ID r = None) -> attached m [] ->
  (forall l, is_Some (nodes m !! l) -> (l < fresh m)%nat) ->
  let m' := fold_left add_row rows m in
  attached m' [] /\ db m' = db m /\ (forall l, is_Some (nodes m' !! l) -> (l < fresh m')%nat) /\
  (forall x c, channel_at m' x = Some c <-> channel_at m x = Some c \/ exists r, r ∈ rows /\ x = row_ID r /\ c = row_channel r).
Proof.
  induction rows as [|r rows IH]; intros m Hnd Hr Hnew A Hh; cbn [fold_left].
  { split; [done|]. split; [done|]. split; [done|]. intros x c. split; [by left|]. intros [?|(r & ?%elem_of_nil & _)]; done. }
  apply list.NoDup_cons in Hnd as [Hrn Hnd]. cbn [map] in *.
  assert (u32 (row_ID r) = row_ID r) as Hu by (apply u32_id; apply Hr, elem_of_cons; by left).
  assert (tree m !! row_ID r = None) as Hfree by (apply Hnew, elem_of_cons; by left).
  set (m1 := add_row m r).
  assert (forall l n, nodes m !! l = Some n -> nodes m1 !! l = Some n) as Hold.
  { intros l n Hn. cbn. rewrite lookup_insert_ne; [done|]. pose proof (Hh l ltac:(eauto)). lia. }
  assert (nodes m1 !! fresh m = Some (mkNode (row_channel r) [])) as Hfresh by (cbn; by rewrite lookup_insert_eq).
  assert (tree m1 !! row_ID r = Some (fresh m)) as Ht1 by (cbn; by rewrite Hu, lookup_insert_eq).
  assert (forall x, x <> row_ID r -> tree m1 !! x = tree m !! x) as Ht2 by (intros x Hx; cbn; rewrite Hu; by rewrite lookup_insert_ne).
  assert (forall x c, channel_at m1 x = Some c <-> channel_at m x = Some c \/ (x = row_ID r /\ c = row_channel r)) as Hc1.
  { intros x c. rewrite !channel_at_Some. destruct (decide (x = row_ID r)) as [->|Hne].
    - rewrite Ht1, Hfree. split; [intros (l & n & [= <-] & Hn & <-); rewrite Hfresh in Hn; injection Hn as <-; by right|].
      intros [(? & ? & [=] & _)|[_ ->]]. eauto.
    - rewrite Ht2 by done. split.
      + intros (l & n & Hl & Hn & <-). left. destruct (at_nodes m [] A x l Hl) as (n0 & Hn0 & _).
        pose proof (Hold l n0 Hn0). exists l, n0. split; [done|]. split; [done|]. congruence.
      + intros [(l & n & Hl & Hn & <-)|[-> _]]; [|done]. exists l, n. eauto. }
  assert (attached m1 []) as A1.
  { split.
    - intros x l Hx. destruct (decide (x = row_ID r)) as [->|Hne].
      + rewrite Ht1 in Hx. injection Hx as <-. exists (mkNode (row_channel r) []). split; [done|]. cbn. done.
      + rewrite Ht2 in Hx by done. destruct (at_nodes m [] A x l Hx) as (n & Hn & He). eauto.
    - intros x l n Hx Hn. assert (Children n = []) as ->.
      { destruct (decide (x = row_ID r)) as [->|Hne].
        - rewrite Ht1 in Hx. injection Hx as <-. rewrite Hfresh in Hn. by injection Hn as <-.
        - rewrite Ht2 in Hx by done. destruct (at_nodes m [] A x l Hx) as (n0 & Hn0 & _).
          assert (n0 = n) as -> by (pose proof (Hold l n0 Hn0); congruence).
          destruct (at_children m [] A x l n Hx Hn0) as [_ Hch]. apply elem_of_nil_inv. intros l' [_ ?%elem_of_nil]%Hch. done. }
      split; [constructor|]. intros l'. rewrite !elem_of_nil. naive_solver. }
  destruct (IH m1 Hnd) as (A' & Hdb & Hh' & Hc').
  - intros r' Hr'. apply Hr, elem_of_cons. by right.
  - intros r' Hr'. rewrite Ht2; [apply Hnew, elem_of_cons; by right|]. intros E. apply Hrn. rewrite <- E.
    apply list_elem_of_fmap. eauto.
  - done.
  - intros l [n Hn]. cbn in *. destruct (decide (l = fresh m)); [lia|]. rewrite lookup_insert_ne in Hn by done.
    pose proof (Hh l ltac:(eauto)). lia.
  - split; [done|]. split; [done|]. split; [done|]. intros x c. rewrite Hc', Hc1. setoid_rewrite elem_of_cons. naive_solver.
Qed.

Lemma sort_all_same_shape ids : forall m, same_shape m (fold_left sort_node ids m).
Proof.
  induction ids as [|id ids IH]; intros m; [apply same_shape_refl|]. cbn.
  eapply same_shape_trans; [apply sort_node_same_shape|apply IH].
Qed.
Lemma sort_all_chans ids : forall m, same_chans m (fold_left sort_node ids m).
Proof.
  induction ids as [|id ids IH]; intros m; [apply same_chans_refl|]. cbn.
  eapply same_chans_trans; [apply sort_node_chans|apply IH].
Qed.

(** Rows that decrease towards the root give paths. *)
Lemma rows_path rows depth m : rows_ok rows depth ->
  (forall x c, channel_at m x = Some c <-> exists r, r ∈ rows /\ x = row_ID r /\ c = row_channel r) ->
  forall k r, r ∈ rows -> (depth (row_ID r) < k)%nat -> exists p, path m (row_ID r) p.
Proof.
  intros R Hc. induction k as [|k IH]; intros r Hr Hk; [lia|]. destruct (decide (row_ID r = 0)) as [E|E].
  - exists [0]. rewrite E. constructor. exists (row_channel r). apply Hc. eauto.
  - destruct (ro_parent rows depth R r Hr E) as (p & Hp & (r' & -> & Hr')%list_elem_of_fmap & Hd).
    destruct (IH r' Hr') as [q Hq]; [lia|]. exists (row_ID r :: q). econstructor; [done|apply Hc; eauto|].
    cbn. rewrite Hp. cbn. rewrite u32_id; [done|]. apply (ro_range rows depth R r' Hr').
Qed.

Lemma load_wf ord1 ord2 m rows0 d rows depth : order_ok ord1 -> order_ok ord2 ->
  dbFind (db m) = Some rows0 -> load_rows (db m) rows0 = (d, rows) -> rows_ok rows depth ->
  (forall r, r ∈ rows -> row_ID r ∈ db_ids d) ->
  tree m = ∅ -> (forall l, is_Some (nodes m !! l) -> (l < fresh m)%nat) ->
  let m' := load ord1 ord2 m in
  chan_wf m' /\ forall x c, channel_at m' x = Some c <-> exists r, r ∈ rows /\ x = row_ID r /\ c = row_channel r.
Proof.
  intros Ho1 Ho2 Hf Hl R Hids Ht Hh. cbn zeta. unfold load. rewrite Hf, Hl.
  assert (attached (m <| db := d |>) []) as A0.
  { split; cbn; rewrite Ht; intros *; by rewrite lookup_empty. }
  destruct (add_rows_spec rows (m <| db := d |>) (ro_ids _ _ R) (ro_range _ _ R)) as (A1 & Hdb & Hh1 & Hc1);
    [cbn; rewrite Ht; intros; apply lookup_empty|done|done|].
  set (m1 := fold_left add_row rows (m <| db := d |>)) in *.
  assert (NoDup (ord1 (keys m1)) /\ forall x, x ∈ ord1 (keys m1) <-> is_Some (tree m1 !! x)) as [Hnd Hk].
  { rewrite (Ho1 (keys m1)). split; [unfold keys; apply NoDup_elements|]. intros x. rewrite (Ho1 (keys m1)). apply elem_of_keys. }
  destruct (attach_all (ord1 (keys m1)) m1 [] A1 Hnd) as (S2 & done' & A2 & Hd'); [set_solver|intros; by apply Hk|].
  set (m2 := fold_left attach (ord1 (keys m1)) m1) in *.
  assert (forall x c, channel_at m2 x = Some c <-> exists r, r ∈ rows /\ x = row_ID r /\ c = row_channel r) as Hc2.
  { intros x c. rewrite (same_chans_channel m1 m2 x S2), Hc1. split; [|by right]. intros [H|?]; [|done].
    apply channel_at_Some in H as (? & ? & H & _). cbn in H. by rewrite Ht, lookup_empty in H. }
  assert (forall x, is_Some (tree m2 !! x) -> exists r, r ∈ rows /\ x = row_ID r) as Hrow.
  { intros x [l Hx]. destruct (at_nodes _ _ A2 _ _ Hx) as (n & Hn & _).
    assert (channel_at m2 x = Some (chan n)) as (r & ? & ? & _)%Hc2 by (apply channel_at_Some; eauto). eauto. }
  assert (chan_wf m2) as W2.
  { split.
    - apply A2.
    - intros l [n Hn]. rewrite (sc_fresh _ _ S2). apply Hh1.
      destruct (same_chans_node m2 m1 l n (same_chans_sym _ _ S2) Hn) as (? & ? & _). eauto.
    - destruct (proj1 (list_elem_of_fmap _ _ _) (ro_root _ _ R)) as (r & E & Hr).
      assert (channel_at m2 0 = Some (row_channel r)) as (? & ? & ? & _)%channel_at_Some by (apply Hc2; eauto). eauto.
    - intros x (r & Hr & ->)%Hrow. apply (rows_path rows depth m2 R Hc2 (S (depth (row_ID r)))); [done|lia].
    - intros x l n Hx Hn. destruct (at_children _ _ A2 x l n Hx Hn) as [Hnd2 Hch]. split; [done|].
      intros l'. rewrite Hch. split; [by intros [? _]|]. intros Hkid. split; [done|]. apply Hd'. left. apply Hk.
      destruct Hkid as (k & Hk2 & Htk & _). rewrite <- (sc_tree _ _ S2). unfold id_of. rewrite Hk2. cbn. eauto.
    - intros x Hx%elem_of_dom. destruct (Hrow x Hx) as (r & Hr & ->). rewrite (sc_db _ _ S2), Hdb. by apply Hids. }
  split; [eapply same_shape_wf; [apply sort_all_same_shape|done]|].
  intros x c. by rewrite (same_chans_channel _ _ x (sort_all_chans _ m2)).
Qed.

(** ** Any sequence of operations *)

Inductive cop :=
  | OpCreate (parent : Z) (name desc : gostring) (pos : Z) (temp : bool) (max : Z)
  | OpUpdate (ord : order) (id : Z) (o : UpdateOpts)
  | OpRemove (id : Z)
  | OpUpdateLinks (ord1 ord2 : order) (ch : Z) (desired : list Z)
  | OpClean (ord : nat -> order) (hasUsers : Z -> bool)
  | OpListener (l : nat).

Definition cop_ok (o : cop) : Prop :=
  match o with
  | OpUpdateLinks ord1 ord2 _ _ => order_ok ord1 /\ order_ok ord2
  | OpClean ord _ => forall k, order_ok (ord k)
  | _ => True
  end.

Definition exec (m : Manager) (o : cop) : option Manager :=
  match o with
  | OpCreate parent name desc pos temp max => Some (Create m parent name desc pos temp max).1.1
  | OpUpdate ord id o => Some (Update ord m id o).1.1
  | OpRemove id => Some (Remove m id).1.1
  | OpUpdateLinks ord1 ord2 ch desired => Some (UpdateLinks ord1 ord2 m ch desired).1
  | OpClean ord hasUsers => fst <$> CleanEmptyTempChannels ord m hasUsers
  | OpListener l => Some (AddAuthorizationListener m l)
  end.

Definition run (m : Manager) (ops : list cop) : option Manager :=
  fold_left (fun acc o => m ← acc; exec m o) ops (Some m).

Lemma UpdateLinks_wf ord1 ord2 m ch desired : order_ok ord1 -> order_ok ord2 -> chan_wf m ->
  chan_wf (UpdateLinks ord1 ord2 m ch desired).1.
Proof.
  intros Ho1 Ho2 W. pose proof (UpdateLinks_cases ord1 ord2 m ch desired W Ho1 Ho2) as H.
  destruct (UpdateLinks ord1 ord2 m ch desired) as [m' [changed|]]; cbn in *; [apply H|by subst].
Qed.
Lemma Create_wf m parent name desc pos temp max : chan_wf m -> chan_wf (Create m parent name desc pos temp max).1.1.
Proof.
  intros W. pose proof (Create_cases m parent name desc pos temp max W) as H.
  destruct (Create m parent name desc pos temp max) as [[m' r] ls]. cbn.
  destruct H as [(_ & S & _)|(ch & d & pl & pn & _ & _ & _ & _ & _ & W1 & -> & _)];
    [by eapply same_shape_wf|]. eapply same_shape_wf; [apply sort_node_same_shape|done].
Qed.
Lemma Remove_wf m id : chan_wf m -> chan_wf (Remove m id).1.1.
Proof. intros W. pose proof (Remove_cases m id W) as H. destruct (Remove m id) as [[m' r] ls]. apply H. Qed.

Lemma cop_exec_wf m o : chan_wf m -> cop_ok o -> exists m', exec m o = Some m' /\ chan_wf m'.
Proof.
  intros W Ho. destruct o as [parent name desc pos temp max|ord id o|id|ord1 ord2 ch desired|ord hasUsers|l]; cbn [exec].
  - eexists. split; [done|]. by apply Create_wf.
  - eexists. split; [done|]. eapply same_shape_wf; [apply Update_same_shape|done].
  - eexists. split; [done|]. by apply Remove_wf.
  - eexists. split; [done|]. destruct Ho. by apply UpdateLinks_wf.
  - destruct (clean_loop_spec hasUsers ord (S (size (tree m))) m W ltac:(lia)) as (m' & Hm & W' & _).
    exists m'. unfold CleanEmptyTempChannels. by rewrite Hm.
  - eexists. split; [done|]. apply (same_shape_wf m); [|done]. split; try done. exact (ss_nodes m m (same_shape_refl m)).
Qed.
Lemma run_wf ops : forall m, chan_wf m -> Forall cop_ok ops -> exists m', run m ops = Some m' /\ chan_wf m'.
Proof.
  unfold run. induction ops as [|o ops IH]; intros m W Hok; [by exists m|].
  apply Forall_cons_iff in Hok as [Ho Hok]. destruct (cop_exec_wf m o W Ho) as (m1 & Hm1 & W1). cbn. rewrite Hm1. by apply IH.
Qed.

(** C34: the channel tree stays a tree: loaded from rows that form a tree and
    after any sequence of creations, updates, removals, link changes and
    clean-ups (each of which ends, whatever the database answers), there is a
    root, every channel's ancestors lead to it, and every node's children are
    exactly the channels that name it as parent. *)
Theorem channel_tree_invariant (ord1 ord2 : order) (d d' : DB) (rows0 rows : list Row) (depth : Z -> nat) (ops : list cop) :
  order_ok ord1 -> order_ok ord2 -> dbFind d = Some rows0 -> load_rows d rows0 = (d', rows) ->
  rows_ok rows depth -> (forall r, r ∈ rows -> row_ID r ∈ db_ids d') -> Forall cop_ok ops ->
  let m0 := NewManager ord1 ord2 d in
  (forall x c, channel_at m0 x = Some c <-> exists r, r ∈ rows /\ x = row_ID r /\ c = row_channel r) /\
  exists m, run m0 ops = Some m /\ chan_wf m.
Proof.
  intros Ho1 Ho2 Hf Hl R Hids Hok. cbn zeta.
  destruct (load_wf ord1 ord2 (mkManager d ∅ ∅ 0%nat []) rows0 d' rows depth Ho1 Ho2 Hf Hl R Hids) as [W Hc];
    [done|intros l [n Hn]; cbn in Hn; by rewrite lookup_empty in Hn|].
  split; [exact Hc|]. by apply run_wf.
Qed.

(** A new channel appears exactly where it was asked for: [Create] refuses an
    unknown parent and an empty name, and otherwise, when the database stores
    the row, adds one channel with a new ID under that parent and changes no
    other channel; [Remove] refuses the root and channels with children, and
    otherwise takes away exactly that channel. *)
Theorem create_remove_exact (m : Manager) (parent : Z) (name desc : gostring) (pos : Z) (temp : bool) (max id : Z) :
  chan_wf m ->
  (let '(m', r, _) := Create m parent name desc pos temp max in
   (tree m !! parent = None \/ name = [] -> r = None) /\
   match r with
   | None => forall x, channel_at m' x = channel_at m x
   | Some ch => channel_at m (ID ch) = None /\ ParentID ch = parent /\
       forall x, channel_at m' x = if decide (x = ID ch) then Some ch else channel_at m x
   end) /\
  (let '(m', ok, _) := Remove m id in
   (id = 0 \/ (exists l, kid m id l) -> ok = false) /\
   forall x, channel_at m' x = if decide (x = id /\ ok = true) then None else channel_at m x).
Proof.
  intros W. split.
  - pose proof (Create_cases m parent name desc pos temp max W) as H.
    destruct (Create m parent name desc pos temp max) as [[m' r] ls].
    destruct H as [(-> & _ & Hc)|(ch & d & pl & pn & -> & Hp & Hn & Hpar & Hnew & _ & _ & Hc)].
    + split; [done|exact Hc].
    + split; [intros [E|E]; [rewrite E in Hp; by destruct Hp|done]|]. split; [|split; [done|exact Hc]].
      destruct (channel_at m (ID ch)) eqn:E; [|done]. apply channel_at_Some in E as (? & ? & ? & _). congruence.
  - pose proof (Remove_cases m id W) as H. destruct (Remove m id) as [[m' ok] ls].
    destruct H as [_ [[-> Hx]|(-> & H0 & Hk & Hx)]].
    + split; [done|]. intros x. rewrite Hx. by destruct (decide _) as [[_ ?]|].
    + split; [intros [?|[l ?]]; [done|by edestruct Hk]|]. intros x. rewrite Hx.
      destruct (decide (x = id)), (decide (x = id /\ true = true)); naive_solver.
Qed.
End Manager.
Arguments Manager DB : clear implicits.
End Channels.
