(* ===== verification/ChannelTable.v ===== *)
(** * A concrete database and sort for the channel tree

    An insertion sort and an in-memory table that meet the interfaces
    [Sorter] and [ChannelStore], and the theorems of the channel tree applied
    to a small server with them. *)

From Stdlib Require Import ZArith Lia String.
From stdpp Require Import base numbers list gmap sets option sorting.
From S2P Require Import Prelude Wire Fields Registry ChannelManager.

Module ChannelTable.
Import Channels.

Section Sort.
Context {A : Type} (key : A -> Z).

Fixpoint insert_by (x : A) (l : list A) : list A :=
  match l with
  | [] => [x]
  | y :: l' => if key x <=? key y then x :: l else y :: insert_by x l'
  end.
Definition sort_by (l : list A) : list A := fold_right insert_by [] l.

Lemma insert_by_perm x l : insert_by x l ≡ₚ x :: l.
Proof.
  induction l as [|y l IH]; [done|]. cbn. destruct (key x <=? key y); [done|]. rewrite IH. constructor.
Qed.
Lemma sort_by_perm l : sort_by l ≡ₚ l.
Proof. induction l as [|x l IH]; [done|]. cbn. by rewrite insert_by_perm, IH. Qed.
Lemma insert_by_sorted x l : StronglySorted (fun a b => key a <= key b) l ->
  StronglySorted (fun a b => key a <= key b) (insert_by x l).
Proof.
  induction 1 as [|y l Hl IH Hy]; [repeat constructor|]. cbn. destruct (Z.leb_spec (key x) (key y)) as [H|H].
  - constructor; [by constructor|]. constructor; [done|]. eapply Forall_impl; [|exact Hy]. cbn. lia.
  - constructor; [done|]. rewrite insert_by_perm. constructor; [lia|done].
Qed.
Lemma sort_by_sorted l : StronglySorted (fun a b => key a <= key b) (sort_by l).
Proof. induction l as [|x l IH]; [constructor|]. by apply insert_by_sorted. Qed.
End Sort.

#[global] Instance insertion_sorter : Sorter :=
  {| sortBy := @sort_by; sortBy_perm := @sort_by_perm; sortBy_sorted := @sort_by_sorted |}.

(** Rows in the order [position, id] of the query, the IDs given out, and the
    next one. *)
Record table := mkTable { rows : list Row; issued : gset Z; next : Z }.

Definition table_create (d : table) (r : Row) : table * option Row :=
  if decide (0 < next d < 2 ^ 32 /\ next d ∉ issued d) then
    let r := mkRow (next d) (row_ParentID r) (row_Name r) (row_Description r) (row_Position r) (row_MaxUsers r)
               (row_IsTemporary r) true (row_Links r) in
    (mkTable (rows d ++ [r]) ({[next d]} ∪ issued d) (next d + 1), Some r)
  else (d, None).
Definition update_row (id : Z) (f : Row -> Row) (d : table) : table :=
  mkTable (map (fun r => if row_ID r =? id then f r else r) (rows d)) (issued d) (next d).
Definition table_update (d : table) (id : Z) (u : Updates) : table * bool :=
  (update_row id (fun r => mkRow (row_ID r) (row_ParentID r) (default (row_Name r) (up_name u))
     (default (row_Description r) (up_description u)) (default (row_Position r) (up_position u))
     (default (row_MaxUsers r) (up_max_users u)) (default (row_IsTemporary r) (up_is_temporary u)) (row_InheritACL r)
     (default (row_Links r) (up_links u))) d, true).
Definition set_row_links (ls : list Z) (r : Row) : Row :=
  mkRow (row_ID r) (row_ParentID r) (row_Name r) (row_Description r) (row_Position r) (row_MaxUsers r)
    (row_IsTemporary r) (row_InheritACL r) ls.
Definition table_delete (d : table) (id : Z) : table * bool :=
  (mkTable (filter (fun r => row_ID r <> id) (rows d)) (issued d) (next d), true).
Definition table_migrate (d : table) (old : Z) : option table :=
  Some (mkTable (map (fun r =>
    let parent := if decide (row_ParentID r = Some old) then Some 0 else row_ParentID r in
    let id := if row_ID r =? old then 0 else row_ID r in
    mkRow id parent (row_Name r) (row_Description r) (row_Position r) (row_MaxUsers r) (row_IsTemporary r)
      (row_InheritACL r) (row_Links r)) (rows d)) ({[0]} ∪ issued d) (next d)).

#[global] Program Instance table_store : ChannelStore table table :=
  {| dbFind d := Some (rows d);
     dbCreate := table_create;
     dbUpdates := table_update;
     dbDelete := table_delete;
     dbMigrateRoot := table_migrate;
     txBegin := Some;
     txUpdateLinks d id ls := Some (update_row id (set_row_links ls) d);
     txCommit := Some;
     db_ids := issued;
     tx_ids := issued |}.
Next Obligation.
  unfold table_create. intros d r d' r'. destruct (decide _) as [[H1 H2]|]; [|done]. intros [= <- <-]. cbn.
  split; [done|]. split; [done|]. set_solver.
Qed.
Next Obligation. unfold table_create. intros d r d' r'. destruct (decide _); [|done]. by intros [= <- <-]. Qed.
Next Obligation. unfold table_create. intros d r d' o. destruct (decide _); intros [= <- <-]; cbn; set_solver. Qed.
Next Obligation. intros d id u d' ok [= <- <-]. done. Qed.
Next Obligation. intros d id d' ok [= <- <-]. done. Qed.
Next Obligation. intros d tx [= <-]. done. Qed.
Next Obligation. intros tx id ls tx' [= <-]. done. Qed.
Next Obligation. intros tx d [= <-]. done. Qed.

(** A server started on an empty table, with a few channels. *)
Definition ident : order := fun l => l.
Lemma ident_ok : order_ok ident.
Proof. intros l. reflexivity. Qed.
Definition empty_table : table := mkTable [] ∅ 1.
Definition server0 : Manager table := NewManager ident ident empty_table.
Definition sample_ops : list cop :=
  [OpCreate 0 (str "Lobby") [] 2 false 0; OpCreate 0 (str "Games") [] 1 false 0;
   OpCreate 3 (str "Chess") [] 0 true 0; OpUpdateLinks ident ident 2 [3; 4]].
Definition server1 : Manager table := default server0 (run server0 sample_ops).

Example server1_tree : (map ID <$> GetTree server1) = Some [0; 3; 4; 2].
Proof. vm_compute. reflexivity. Qed.
Example server1_links : links_of server1 2 = [3; 4] /\ links_of server1 3 = [2] /\
  ConnectedChannelIDs ident ident server1 4 = Some [2; 3; 4].
Proof. split; [|split]; vm_compute; reflexivity. Qed.

Lemma server_ops_ok : Forall cop_ok sample_ops.
Proof. repeat constructor; apply ident_ok. Qed.
Definition empty_rows : list Row := [mkRow 0 None (str "Root") [] 0 0 false true []].
Lemma empty_rows_ok : rows_ok empty_rows (fun _ => 0%nat).
Proof.
  split.
  - apply list.NoDup_singleton.
  - intros r ->%list_elem_of_singleton. cbn. lia.
  - by apply list_elem_of_singleton.
  - by intros r ->%list_elem_of_singleton.
Qed.

Lemma channel_tree_invariant_witness :
  (forall x c, channel_at server0 x = Some c <-> exists r, r ∈ empty_rows /\ x = row_ID r /\ c = row_channel r) /\
  exists m, run server0 sample_ops = Some m /\ chan_wf m.
Proof.
  apply (channel_tree_invariant ident ident empty_table (load_rows empty_table []).1 [] empty_rows (fun _ => 0%nat));
    [exact ident_ok|exact ident_ok|reflexivity|vm_compute; reflexivity|exact empty_rows_ok| |exact server_ops_ok].
  intros r ->%list_elem_of_singleton. vm_compute. reflexivity.
Defined.

Lemma server1_run : run server0 sample_ops = Some server1.
Proof. vm_compute. reflexivity. Qed.
Lemma server1_wf : chan_wf server1.
Proof.
  destruct (load_wf (CS := table_store) ident ident (mkManager empty_table ∅ ∅ 0%nat []) [] (load_rows empty_table []).1 empty_rows (fun _ => 0%nat)
    ident_ok ident_ok ltac:(reflexivity) ltac:(vm_compute; reflexivity) empty_rows_ok) as [W _].
  - intros r ->%list_elem_of_singleton. vm_compute. reflexivity.
  - done.
  - intros l [n Hn]. cbn in Hn. by rewrite lookup_empty in Hn.
  - destruct (run_wf sample_ops server0 W server_ops_ok) as (m & Hm & Wm).
    unfold server1. rewrite Hm. exact Wm.
Qed.

Lemma GetTree_parents_first_witness :
  exists out, GetTree server1 = Some out /\ NoDup (map ID out) /\
    (forall x c, channel_at server1 x = Some c <-> c ∈ out /\ ID c = x) /\
    (forall i c, out !! i = Some c -> ID c = 0 \/
       exists j p, (j < i)%nat /\ out !! j = Some p /\ ID p = ParentID c).
Proof. apply (GetTree_parents_first server1). exact server1_wf. Defined.

Lemma ancestors_and_subtrees_witness :
  AncestorChain server1 4 = Some [4; 3; 0] /\
  exists chain sub, AncestorChain server1 3 = Some chain /\ SubtreeIDs server1 3 = Some sub /\
    chain !! 0%nat = Some 3 /\ list.last chain = Some 0 /\
    (forall i a b, chain !! i = Some a -> chain !! S i = Some b ->
       exists c, channel_at server1 a = Some c /\ ParentID c = b) /\
    NoDup chain /\ NoDup sub /\
    (forall x, is_Some (tree server1 !! x) -> exists chain', AncestorChain server1 x = Some chain' /\ (x ∈ sub <-> 3 ∈ chain')).
Proof.
  split; [vm_compute; reflexivity|]. apply (ancestors_and_subtrees server1 3); [exact server1_wf|vm_compute; eauto].
Defined.

Lemma clean_exact_witness :
  (exists m' ls, CleanEmptyTempChannels (fun _ => ident) server1 (fun _ => false) = Some (m', ls) /\ chan_wf m' /\
    (forall x c, channel_at m' x = Some c -> channel_at server1 x = Some c) /\
    (forall x c, channel_at server1 x = Some c -> channel_at m' x = None ->
       x <> 0 /\ IsTemporary c = true /\ (fun _ : Z => false) x = false) /\
    ((forall (d : table) id, (dbDelete d id).2 = true) -> forall x n, ~ removable m' (fun _ => false) x n)) /\
  (keys ∘ fst <$> CleanEmptyTempChannels (fun _ => ident) server1 (fun _ => false)) = Some [3; 2; 0].
Proof.
  split; [|vm_compute; reflexivity].
  apply (clean_exact (fun _ => ident) server1); [exact server1_wf|intros _; exact ident_ok].
Defined.

Lemma connected_channels_exact_witness :
  exists out, ConnectedChannelIDs ident ident server1 4 = Some out /\ NoDup out /\ StronglySorted Z.le out /\
    (forall x, x ∈ out <-> rtc (link server1) 4 x) /\
    (forall b, b ∈ out -> ConnectedChannelIDs (@rev Z) ident server1 b = Some out).
Proof.
  apply (connected_channels_exact ident ident (@rev Z) ident);
    [exact ident_ok|exact ident_ok|intros l; symmetry; apply Permutation_rev|exact ident_ok|vm_compute; eauto].
Defined.

Lemma UpdateLinks_exact_witness :
  match UpdateLinks ident ident server1 2 [0; 4] with
  | (m', None) => m' = server1
  | (m', Some changed) => links_updated server1 m' 2 [0; 4] changed
  end /\ (UpdateLinks ident ident server1 2 [0; 4]).2 = Some [0; 2; 3; 4].
Proof.
  split; [apply (UpdateLinks_exact ident ident server1); [exact server1_wf|exact ident_ok|exact ident_ok]|vm_compute; reflexivity].
Defined.

Lemma create_remove_exact_witness :
  (let '(m', r, _) := Create server1 2 (str "New") [] 0 false 0 in
   (tree server1 !! 2 = None \/ str "New" = [] -> r = None) /\
   match r with
   | None => forall x, channel_at m' x = channel_at server1 x
   | Some ch => channel_at server1 (ID ch) = None /\ ParentID ch = 2 /\
       forall x, channel_at m' x = if decide (x = ID ch) then Some ch else channel_at server1 x
   end) /\
  (let '(m', ok, _) := Remove server1 4 in
   (4 = 0 \/ (exists l, kid server1 4 l) -> ok = false) /\
   forall x, channel_at m' x = if decide (x = 4 /\ ok = true) then None else channel_at server1 x).
Proof. apply (create_remove_exact server1). exact server1_wf. Defined.
End ChannelTable.
