(* ===== verification/Acl.v ===== *)
(** * Access control: permissions, selectors and the evaluator

    Models [internal/acl/evaluator.go], [group.go], [rbac_strategy.go] and
    [seed.go] with [pkg/mumble/permission.go] and the tables
    [channel_acls] and [channel_groups]. The tables and the API accounts are
    what the queries return ([AclStore], [None] on a database error); the
    channel tree is the interface [ChannelTree], which the channel manager
    implements; users come from the user manager. [strings.EqualFold] (Unicode
    case folding) is a parameter. *)

From Stdlib Require Import ZArith Lia String.
From stdpp Require Import base numbers list gmap sets option.
From S2P Require Import Prelude Wire Fields Registry UserManager.

Module Acl.

(** ** Permissions *)

Definition PermissionNone : Z := 0.
Definition PermissionWrite : Z := 0x1.
Definition PermissionTraverse : Z := 0x2.
Definition PermissionEnter : Z := 0x4.
Definition PermissionSpeak : Z := 0x8.
Definition PermissionMuteDeafen : Z := 0x10.
Definition PermissionMove : Z := 0x20.
Definition PermissionMakeChannel : Z := 0x40.
Definition PermissionLinkChannel : Z := 0x80.
Definition PermissionWhisper : Z := 0x100.
Definition PermissionTextMessage : Z := 0x200.
Definition PermissionMakeTempChannel : Z := 0x400.
Definition PermissionListen : Z := 0x800.
Definition PermissionKick : Z := 0x10000.
Definition PermissionBan : Z := 0x20000.
Definition PermissionRegister : Z := 0x40000.
Definition PermissionSelfRegister : Z := 0x80000.
Definition PermissionResetUser : Z := 0x100000.

Definition union_of (ps : list Z) : Z := fold_left Z.lor ps 0.

Definition PermissionAll : Z := union_of
  [PermissionWrite; PermissionTraverse; PermissionEnter; PermissionSpeak; PermissionMuteDeafen; PermissionMove;
   PermissionMakeChannel; PermissionLinkChannel; PermissionWhisper; PermissionTextMessage; PermissionMakeTempChannel;
   PermissionListen; PermissionKick; PermissionBan; PermissionRegister; PermissionSelfRegister; PermissionResetUser].
Definition DefaultPermissions : Z := union_of
  [PermissionTraverse; PermissionEnter; PermissionSpeak; PermissionWhisper; PermissionTextMessage; PermissionListen].
Definition rootPermissions : Z := union_of
  [PermissionKick; PermissionBan; PermissionRegister; PermissionSelfRegister; PermissionResetUser].
Definition writePermissions : Z := union_of
  [PermissionTraverse; PermissionEnter; PermissionMuteDeafen; PermissionMove; PermissionMakeChannel;
   PermissionLinkChannel; PermissionTextMessage; PermissionMakeTempChannel; PermissionListen].

(** [x & perm != 0] for one-bit permissions. *)
Definition has (x perm : Z) : bool := negb (Z.land x perm =? 0).

(** ** Rows *)

Record ChannelACL := mkACL {
  acl_ChannelID : Z;
  acl_ApplyHere : bool;
  acl_ApplySubs : bool;
  acl_UserID : option Z;
  acl_GroupName : gostring;
  acl_AccessToken : gostring;
  acl_EvalHere : bool;
  acl_Invert : bool;
  acl_Grant : Z;
  acl_Deny : Z }.

Record ChannelGroup := mkGroup {
  grp_ChannelID : Z;
  grp_Inherit : bool;
  grp_Inheritable : bool;
  grp_AddUserIDs : list Z;
  grp_RemoveUserIDs : list Z }.

(** The answers of the queries: the ACL rows of a channel by priority and ID,
    the groups of a channel with a name, the role of an API account ([Some
    None]: not found), and all ACL rows. *)
Record AclStore := mkStore {
  aclRows : Z -> option (list ChannelACL);
  groupRows : Z -> gostring -> option (list ChannelGroup);
  apiRole : Z -> option (option gostring);
  allRows : option (list ChannelACL) }.

(** ** API users *)

Definition APIUserIDBase : Z := 0x80000000.
Definition APIUserIDMask : Z := 0x7FFFFFFF.
Definition IsAPIUserID (userID : Z) : bool := APIUserIDBase <=? userID.
Definition MakeAPIUserID (dbid : Z) : Z :=
  if dbid =? 0 then 0 else Z.lor APIUserIDBase (u32 (Z.land dbid APIUserIDMask)).
Definition APIUserIDToDBID (userID : Z) : Z :=
  if negb (IsAPIUserID userID) then 0 else Z.land userID APIUserIDMask.
Definition RoleAdmin : gostring := str "admin"%string.

Definition apiAdmin (st : AclStore) (id : Z) : option bool :=
  (fun role => match role with None => false | Some r => bool_decide (r = RoleAdmin) end)
    <$> apiRole st (APIUserIDToDBID id).

Definition ResolveAPIAdmin (st : AclStore) (userID : Z) : bool :=
  let dbID := APIUserIDToDBID userID in
  if dbID =? 0 then false else
  match apiRole st dbID with Some (Some r) => bool_decide (r = RoleAdmin) | _ => false end.

Definition userInStoredAdminGroup (st : AclStore) (userID : Z) : bool :=
  match groupRows st 0 (str "admin"%string) with
  | Some (g :: _) => bool_decide (userID ∈ grp_AddUserIDs g)
  | _ => false
  end.

Definition IsAdminForDisplay (st : AclStore) (userID : Z) : bool :=
  if userID =? 0 then false else
  if IsAPIUserID userID then ResolveAPIAdmin st userID else userInStoredAdminGroup st userID.

(** ** The channel tree, as the evaluator sees it *)

Class ChannelTree (T : Type) := {
  chain : T -> Z -> list Z;
  inherits : T -> Z -> option bool }.

(** What the tree promises. *)
Class ChannelTreeLaws (T : Type) `{ChannelTree T} (t : T) : Prop := {
  chain_known : forall id, is_Some (inherits t id) <-> chain t id <> [];
  chain_head : forall id, chain t id <> [] -> list.head (chain t id) = Some id;
  chain_root : forall id, chain t id <> [] -> list.last (chain t id) = Some 0;
  chain_inside : forall id x, x ∈ chain t id -> is_Some (inherits t x);
  chain_once : forall id, NoDup (chain t id) }.

(** ** Subjects and temporary members *)

Record Subject := mkSubject { sub_SessionID : Z; sub_UserID : Z; sub_Generation : Z }.
#[global] Instance Subject_eq_dec : EqDecision Subject.
Proof. solve_decision. Defined.
#[global] Program Instance Subject_countable : Countable Subject :=
  inj_countable' (fun s => (sub_SessionID s, sub_UserID s, sub_Generation s)) (fun '(a, b, c) => mkSubject a b c) _.
Next Obligation. by intros []. Qed.

Definition SubjectOf (u : User.t) : Subject :=
  mkSubject (User.SessionID u) (User.UserID u) (User.SessionGeneration u).
Definition SubjectForUserID (id : Z) : Subject := mkSubject 0 id 0.

Notation groupKey := (Z * gostring)%type.
Notation sessionMember := (Z * Z)%type.
Record temporaryMembers := mkMembers { tm_users : gset Z; tm_sessions : gset sessionMember }.

Notation membersMap := (gmap groupKey temporaryMembers).

Record cacheKey := mkKey { key_subject : Subject; key_channelID : Z; key_revision : Z }.
#[global] Instance cacheKey_eq_dec : EqDecision cacheKey.
Proof. solve_decision. Defined.
#[global] Program Instance cacheKey_countable : Countable cacheKey :=
  inj_countable' (fun k => (key_subject k, key_channelID k, key_revision k)) (fun '(a, b, c) => mkKey a b c) _.
Next Obligation. by intros []. Qed.

Record Evaluator := mkEvaluator {
  cache : gmap cacheKey Z;
  eval_generation : Z;
  temporary : gmap groupKey temporaryMembers }.
#[global] Instance Evaluator_eta : Eta Evaluator := fun e => mkEvaluator (cache e) (eval_generation e) (temporary e).

Definition NewEvaluator : Evaluator := mkEvaluator ∅ 0 ∅.

Definition invalidateLocked (e : Evaluator) : Evaluator :=
  e <| eval_generation := u64 (eval_generation e + 1) |> <| cache := ∅ |>.
Definition InvalidateCache (e : Evaluator) : Evaluator := invalidateLocked e.

(** ** Selectors *)

Record selector := mkSel { sel_name : gostring; sel_invert : bool; sel_here : bool; sel_token : bool; sel_cert : bool }.
#[global] Instance selector_eta : Eta selector := fun s =>
  mkSel (sel_name s) (sel_invert s) (sel_here s) (sel_token s) (sel_cert s).

Fixpoint parse_selector_loop (name : gostring) (s : selector) : selector :=
  match name with
  | [] => s
  | c :: rest =>
      if c =? 33 then parse_selector_loop rest (s <| sel_invert := true |>) else
      if c =? 126 then parse_selector_loop rest (s <| sel_here := true |>) else
      if c =? 35 then parse_selector_loop rest (s <| sel_token := true |>) else
      if c =? 36 then parse_selector_loop rest (s <| sel_cert := true |>) else
      s <| sel_name := name |>
  end.
Definition parseSelector (name : gostring) : selector := parse_selector_loop name (mkSel [] false false false false).

(** [strings.TrimSpace]: the UTF-8 encodings of the white-space code points. *)
Definition spaces : list gostring :=
  [[9]; [10]; [11]; [12]; [13]; [32]; [0xc2; 0x85]; [0xc2; 0xa0]; [0xe1; 0x9a; 0x80]; [0xe2; 0x80; 0xa8];
   [0xe2; 0x80; 0xa9]; [0xe2; 0x80; 0xaf]; [0xe2; 0x81; 0x9f]; [0xe3; 0x80; 0x80]]
  ++ map (fun k => [0xe2; 0x80; 0x80 + Z.of_nat k]) (seq 0 11).
Definition strip_prefix (p s : gostring) : option gostring :=
  if bool_decide (take (length p) s = p) then Some (drop (length p) s) else None.
Fixpoint trim_left (fuel : nat) (sp : list gostring) (s : gostring) : gostring :=
  match fuel with
  | O => s
  | S fuel => match list.head (omap (fun p => strip_prefix p s) sp) with
              | Some s' => trim_left fuel sp s'
              | None => s
              end
  end.
Definition TrimSpace (s : gostring) : gostring :=
  let s := trim_left (length s) spaces s in
  rev (trim_left (length s) (map (@rev Z) spaces) (rev s)).

(** [strconv.ParseInt(s, 10, 32)]. *)
Fixpoint parse_digits (s : gostring) (acc : Z) : option Z :=
  match s with
  | [] => Some acc
  | c :: s => if (48 <=? c) && (c <=? 57) then parse_digits s (10 * acc + (c - 48)) else None
  end.
Definition ParseInt32 (s : gostring) : option Z :=
  let '(neg, digits) := match s with
    | c :: rest => if c =? 45 then (true, rest) else if c =? 43 then (false, rest) else (false, s)
    | [] => (false, s) end in
  match digits with
  | [] => None
  | _ => n ← parse_digits digits 0;
         let v := if neg : bool then - n else n in
         if (- 2 ^ 31 <=? v) && (v <? 2 ^ 31) then Some v else None
  end.
Definition selectorInt (value : gostring) : Z := default 0 (ParseInt32 (TrimSpace value)).

(** [strings.Split(s, ",")]. *)
Fixpoint split_comma (s cur : gostring) : list gostring :=
  match s with
  | [] => [rev cur]
  | c :: s => if c =? 44 then rev cur :: split_comma s [] else split_comma s (c :: cur)
  end.

(** The three numbers of [sub,a,b,c]. *)
Definition sub_values (name : gostring) : Z * Z * Z :=
  let args := if bool_decide (name = str "sub"%string) then []
              else split_comma (match strip_prefix (str "sub,"%string) name with Some r => r | None => name end) [] in
  let value i dflt := match args !! i with
                      | Some [] | None => dflt
                      | Some a => selectorInt a
                      end in
  (value 0%nat 0, value 1%nat 1, value 2%nat 1000).

Fixpoint index_of (x : Z) (l : list Z) : option nat :=
  match l with
  | [] => None
  | y :: l => if y =? x then Some 0%nat else S <$> index_of x l
  end.

(** ** The evaluator *)

Section Evaluate.
Context (EqualFold : gostring -> gostring -> bool).
Context {T : Type} `{CT : ChannelTree T}.

Definition userHasToken (u : option User.t) (token : gostring) : bool :=
  match u with
  | None => false
  | Some u => negb (bool_decide (token = [])) && existsb (fun t => EqualFold t token) (User.AccessTokens u)
  end.

Definition matchSub (t : T) (name : gostring) (target context : Z) (u : option User.t) : bool :=
  match u with
  | None => false
  | Some u =>
      let '(v0, v1, v2) := sub_values name in
      let path := rev (chain t target) in
      match index_of context path with
      | None => false
      | Some index =>
          let required := Z.of_nat index + v0 in
          let required := if required <? 0 then 0 else required in
          if zlen path <=? required then false else
          let home := chain t (User.ChannelID u) in
          if negb (bool_decide (nth (Z.to_nat required) path 0 ∈ home)) then false else
          let depth := zlen home - 1 in
          (required + v1 <=? depth) && (depth <=? required + v2)
      end
  end.

Definition temporaryMatch (tmp : membersMap) (key : groupKey) (id : Z) (u : option User.t) : bool :=
  let members := default (mkMembers ∅ ∅) (tmp !! key) in
  (negb (id =? 0) && bool_decide (id ∈ tm_users members)) ||
  match u with
  | None => false
  | Some u => negb (User.SessionGeneration u =? 0)
              && bool_decide ((User.SessionID u, User.SessionGeneration u) ∈ tm_sessions members)
  end.

(** The loop that collects the definitions of the group from the context
    upwards; [None] on a database error. *)
Fixpoint group_stack (st : AclStore) (tmp : membersMap) (name : gostring) (context : Z) (cids : list Z)
    : option (list ChannelGroup) :=
  match cids with
  | [] => Some []
  | cid :: cids =>
      rows ← groupRows st cid name;
      let g := match rows with
               | g :: _ => Some g
               | [] => match tmp !! (cid, name) with
                       | Some _ => Some (mkGroup cid true true [] [])
                       | None => None
                       end
               end in
      match g with
      | None => group_stack st tmp name context cids
      | Some g =>
          if negb (cid =? context) && negb (grp_Inheritable g) then Some [] else
          if negb (grp_Inherit g) then Some [g] else
          rest ← group_stack st tmp name context cids; Some (g :: rest)
      end
  end.

(** One definition, applied to what the ancestors said. *)
Definition group_apply (tmp : membersMap) (id : Z) (name : gostring) (u : option User.t) (match_ : bool) (g : ChannelGroup) : bool :=
  let match_ := if (negb (id =? 0) && bool_decide (id ∈ grp_AddUserIDs g)) || temporaryMatch tmp (u32 (grp_ChannelID g), name) id u
                then true else match_ in
  if negb (id =? 0) && bool_decide (id ∈ grp_RemoveUserIDs g) then false else match_.

Definition storedGroup (st : AclStore) (tmp : membersMap) (t : T) (id : Z) (name : gostring) (context : Z) (u : option User.t)
    : option bool :=
  let ch := chain t context in
  if negb (bool_decide (list.last ch = Some 0)) then None else
  stack ← group_stack st tmp name context ch;
  Some (fold_left (group_apply tmp id name u) (rev stack) false).

Definition matchSelector (st : AclStore) (tmp : membersMap) (t : T) (s : selector) (id target definition : Z) (u : option User.t)
    : option bool :=
  let name := sel_name s in
  if bool_decide (name = []) then Some false else
  let context := if sel_here s then definition else target in
  match_ ←
    (if sel_token s then Some (userHasToken u name)
     else if sel_cert s then Some (match u with Some u => bool_decide (User.CertHash u = name) | None => false end)
     else if bool_decide (name = str "none"%string) then Some false
     else if bool_decide (name = str "all"%string) then Some true
     else if bool_decide (name = str "auth"%string) then Some (0 <? id)
     else if bool_decide (name = str "strong"%string)
     then Some (match u with Some u => User.CertificateVerified u | None => false end)
     else if bool_decide (name = str "in"%string)
     then Some (match u with Some u => User.ChannelID u =? context | None => false end)
     else if bool_decide (name = str "out"%string)
     then Some (match u with Some u => negb (User.ChannelID u =? context) | None => true end)
     else if bool_decide (name = str "sub"%string) || bool_decide (is_Some (strip_prefix (str "sub,"%string) name))
     then Some (matchSub t name target context u)
     else if match u with
             | Some u => User.ExternalIdentity u && bool_decide (name ∈ User.ExternalGroups u)
             | None => false end
     then Some true
     else if bool_decide (name = str "admin"%string) && IsAPIUserID id then apiAdmin st id
     else storedGroup st tmp t id name context u);
  Some (if sel_invert s then negb match_ else match_).

Definition entryMatches (st : AclStore) (tmp : membersMap) (t : T) (row : ChannelACL) (id target : Z) (u : option User.t)
    : option bool :=
  match acl_UserID row with
  | Some uid =>
      let match_ := negb (id =? 0) && negb (uid =? -1) && (u32 uid =? id) in
      Some (if acl_Invert row then negb match_ else match_)
  | None =>
      let s := parseSelector (acl_GroupName row) in
      let s := if bool_decide (acl_AccessToken row = []) then s
               else mkSel (acl_AccessToken row) false false true false in
      let s := s <| sel_here := sel_here s || acl_EvalHere row |> <| sel_invert := sel_invert s || acl_Invert row |> in
      matchSelector st tmp t s id target (u32 (acl_ChannelID row)) u
  end.

(** What the loops of [evaluate] carry. *)
Record acc := mkAcc { granted : Z; traverse : bool; write : bool }.
#[global] Instance acc_eta : Eta acc := fun a => mkAcc (granted a) (traverse a) (write a).

Definition apply_row (cid target : Z) (row : ChannelACL) (a : acc) : acc :=
  let self := (cid =? target) && acl_ApplyHere row in
  let inherited := negb (cid =? target) && acl_ApplySubs row in
  let apply := self || inherited in
  let a := if inherited || acl_ApplyHere row then
             let a := if has (acl_Grant row) PermissionTraverse then a <| traverse := true |> else a in
             if has (acl_Deny row) PermissionTraverse then a <| traverse := false |> else a
           else a in
  let a := if apply then
             let a := if has (acl_Grant row) PermissionWrite then a <| write := true |> else a in
             if has (acl_Deny row) PermissionWrite then a <| write := false |> else a
           else a in
  let a := if (cid =? 0) && self
           then a <| granted := Z.lor (granted a) (Z.land (acl_Grant row) rootPermissions) |> else a in
  if apply
  then a <| granted := Z.ldiff (Z.lor (granted a) (Z.land (acl_Grant row) (Z.ldiff PermissionAll rootPermissions)))
                         (acl_Deny row) |>
  else a.

Fixpoint eval_rows (st : AclStore) (tmp : membersMap) (t : T) (id cid target : Z) (u : option User.t)
    (rows : list ChannelACL) (a : acc) : option acc :=
  match rows with
  | [] => Some a
  | row :: rows =>
      match_ ← entryMatches st tmp t row id target u;
      eval_rows st tmp t id cid target u rows (if match_ : bool then apply_row cid target row a else a)
  end.

(** The loop from the root down to the target. [Some None] is the early
    [return 0, nil]. *)
Fixpoint eval_chain (st : AclStore) (tmp : membersMap) (t : T) (id target def : Z) (u : option User.t)
    (cids : list Z) (a : acc) : option (option acc) :=
  match cids with
  | [] => Some (Some a)
  | cid :: cids =>
      inherit ← inherits t cid;
      let a := if negb inherit then a <| granted := def |> else a in
      rows ← aclRows st cid;
      a ← eval_rows st tmp t id cid target u rows a;
      if negb (traverse a) && negb (write a) then Some None
      else eval_chain st tmp t id target def u cids a
  end.

Definition finish (target g : Z) : Z :=
  let g := if has g PermissionWrite then
             let g := Z.lor g writePermissions in
             if target =? 0 then Z.lor g rootPermissions else g
           else g in
  Z.land g PermissionAll.

(** The permissions every evaluation starts from. *)
Definition default_for (st : AclStore) (id : Z) : option Z :=
  if IsAPIUserID id then
    (fun admin : bool => if admin then Z.lor DefaultPermissions PermissionWrite else DefaultPermissions) <$> apiAdmin st id
  else Some DefaultPermissions.

(** [None] is an error, for which the caller grants nothing. *)
Definition evaluate (st : AclStore) (tmp : membersMap) (t : T) (subject : Subject) (target : Z) (u : option User.t) : option Z :=
  let ch := chain t target in
  if negb (bool_decide (list.last ch = Some 0)) then None else
  def ← default_for st (sub_UserID subject);
  r ← eval_chain st tmp t (sub_UserID subject) target def u (rev ch) (mkAcc def true (has def PermissionWrite));
  Some (match r with None => 0 | Some a => finish target (granted a) end).

(** [None]: the session is gone or another one; [Some None]: no session. *)
Definition resolveUser (users : Manager) (subject : Subject) : option (option User.t) :=
  if sub_SessionID subject =? 0 then Some None else
  match Snapshot users (sub_SessionID subject) with
  | Some u =>
      if (User.UserID u =? sub_UserID subject)
         && ((sub_Generation subject =? 0) || (sub_Generation subject =? User.SessionGeneration u))
      then Some (Some u) else None
  | None => None
  end.

Definition key_of (subject : Subject) (u : option User.t) (channelID : Z) : cacheKey :=
  match u with
  | Some u => mkKey (SubjectOf u) channelID (User.AuthorizationRevision u)
  | None => mkKey subject channelID 0
  end.

(** One pass of [permissions]; without other goroutines the generation is the
    same at both reads, and the loop runs once. *)
Definition permissions (st : AclStore) (users : Manager) (e : Evaluator) (t : T) (subject : Subject) (channelID : Z) (cached : bool)
    : Evaluator * Z :=
  let cached := cached && negb (IsAPIUserID (sub_UserID subject)) in
  match resolveUser users subject with
  | None => (e, 0)
  | Some u =>
      if match u with Some u => User.IsSuperUser u | None => false end
      then (e, Z.ldiff PermissionAll (Z.lor PermissionSpeak PermissionWhisper)) else
      let key := key_of subject u channelID in
      match (if cached then cache e !! key else None) with
      | Some p => (e, p)
      | None =>
          match evaluate st (temporary e) t subject channelID u with
          | None => (e, 0)
          | Some p => (if cached then e <| cache := <[key := p]> (cache e) |> else e, p)
          end
      end
  end.

Definition EffectivePermissions st users e t subject channelID := permissions st users e t subject channelID true.
Definition Check st users e t subject channelID (perm : Z) : Evaluator * bool :=
  let '(e, p) := EffectivePermissions st users e t subject channelID in (e, Z.land p perm =? perm).
Definition CheckCurrent st users e t subject channelID (perm : Z) : bool :=
  Z.land (permissions st users e t subject channelID false).2 perm =? perm.

Definition EnterRestrictedChannels (st : AclStore) : option (gset Z) :=
  (fun rows => list_to_set (map (fun r => u32 (acl_ChannelID r)) (filter (fun r => has (acl_Deny r) PermissionEnter = true) rows)))
    <$> allRows st.

Definition InGroup (st : AclStore) (e : Evaluator) (t : T) (u : User.t) (channelID : Z) (group : gostring) : bool :=
  match inherits t channelID with
  | None => false
  | Some _ => default false (matchSelector st (temporary e) t (parseSelector group) (User.UserID u) channelID channelID (Some u))
  end.

(** ** Temporary members *)

Fixpoint resolve_members (users : Manager) (subjects : list Subject) : option (gset sessionMember) :=
  match subjects with
  | [] => Some ∅
  | s :: subjects =>
      match resolveUser users s with
      | Some (Some u) => ({[(User.SessionID u, User.SessionGeneration u)]} ∪.) <$> resolve_members users subjects
      | _ => None
      end
  end.

Definition ReplaceTemporaryMembers (users : Manager) (e : Evaluator) (t : T) (channelID : Z) (name : gostring) (ids : list Z)
    (sessions : list Subject) : Evaluator * bool :=
  if bool_decide (name = []) then (e, false) else
  match inherits t channelID with
  | None => (e, false)
  | Some _ =>
      match resolve_members users sessions with
      | None => (e, false)
      | Some ss =>
          let members := mkMembers (list_to_set (filter (fun id => id <> 0) ids)) ss in
          (invalidateLocked (e <| temporary := <[(channelID, name) := members]> (temporary e) |>), true)
      end
  end.

Definition clear_member (subject : Subject) (m : temporaryMembers) : temporaryMembers :=
  mkMembers (tm_users m) (filter (fun s : sessionMember =>
    ~ (s.1 = sub_SessionID subject /\ (sub_Generation subject = 0 \/ s.2 = sub_Generation subject))) (tm_sessions m)).
Definition ClearSessionMembers (e : Evaluator) (subject : Subject) : Evaluator :=
  invalidateLocked (e <| temporary := omap (fun m => let m := clear_member subject m in
    if bool_decide (tm_sessions m = ∅) && bool_decide (tm_users m = ∅) then None else Some m) (temporary e) |>).

(** The listeners [NewEvaluator] registers with the managers. *)
Definition on_user (e : Evaluator) (n : User.t * bool) : Evaluator :=
  let '(u, removed) := n in if removed : bool then ClearSessionMembers e (SubjectOf u) else InvalidateCache e.
Definition on_channels (e : Evaluator) (t : T) : Evaluator :=
  invalidateLocked (e <| temporary := filter (fun kv : groupKey * temporaryMembers => is_Some (inherits t kv.1.1)) (temporary e) |>).

(** ** What an evaluation can give *)

(** [x] has no permission outside [p]. *)
Definition within (x p : Z) : Prop := Z.land x p = x.

(** An invariant of the accumulator is an invariant of the evaluation. *)
Lemma eval_rows_ind st tmp t id cid target u (P : acc -> Prop) rows :
  (forall row a, P a -> P (apply_row cid target row a)) ->
  forall a b, P a -> eval_rows st tmp t id cid target u rows a = Some b -> P b.
Proof.
  intros Hrow. induction rows as [|row rows IH]; intros a b Ha; cbn; [by intros [= <-]|].
  destruct (entryMatches st tmp t row id target u) as [[|]|]; [| |done]; cbn; apply IH; auto.
Qed.
Lemma eval_chain_ind st tmp t id target def u (P : acc -> Prop) cids :
  (forall cid row a, P a -> P (apply_row cid target row a)) -> (forall a, P a -> P (a <| granted := def |>)) ->
  forall a b, P a -> eval_chain st tmp t id target def u cids a = Some (Some b) -> P b.
Proof.
  intros Hrow Hdef. induction cids as [|cid cids IH]; intros a b Ha; cbn; [by intros [= <-]|].
  destruct (inherits t cid) as [i|]; [|done]. cbn. destruct (aclRows st cid) as [rows|]; [|done]. cbn.
  destruct (eval_rows _ _ _ _ _ _ _ rows _) as [a'|] eqn:E; [|done]. cbn.
  assert (P a') as Ha'. { eapply eval_rows_ind; [apply Hrow| |exact E]. destruct i; [done|by apply Hdef]. }
  destruct (_ && _); [done|]. by apply IH.
Qed.

Ltac zbits := apply Z.bits_inj'; intros ? ?; rewrite ?Z.land_spec, ?Z.lor_spec, ?Z.ldiff_spec, ?Z.bits_0.

Lemma land_lor_absorb g a b : Z.land (Z.land (Z.lor g a) b) a = Z.land a b.
Proof. zbits. by repeat case_match; destruct (Z.testbit g n), (Z.testbit a n), (Z.testbit b n). Qed.

Definition no_root (g : Z) : Prop := Z.land g rootPermissions = 0.
Lemma no_root_lor a b : no_root a -> no_root b -> no_root (Z.lor a b).
Proof. unfold no_root. intros Ha Hb. by rewrite Z.land_lor_distr_l, Ha, Hb. Qed.
Lemma no_root_ldiff a b : no_root a -> no_root (Z.ldiff a b).
Proof.
  unfold no_root. intros Ha. apply Z.bits_inj'. intros n Hn. rewrite Z.land_spec, Z.ldiff_spec, Z.bits_0.
  apply (f_equal (fun z => Z.testbit z n)) in Ha. rewrite Z.land_spec, Z.bits_0 in Ha.
  destruct (Z.testbit a n), (Z.testbit b n), (Z.testbit rootPermissions n); done.
Qed.
Lemma no_root_land a b : no_root b -> no_root (Z.land a b).
Proof. unfold no_root. intros Hb. by rewrite <- Z.land_assoc, Hb, Z.land_0_r. Qed.

Lemma apply_row_no_root cid target row a : target <> 0 -> no_root (granted a) -> no_root (granted (apply_row cid target row a)).
Proof.
  intros Ht Ha. unfold apply_row.
  destruct (cid =? target) eqn:E1, (acl_ApplyHere row), (acl_ApplySubs row); cbn [andb orb negb];
    repeat case_match; cbn [granted set_field] in *; try done;
    try (apply no_root_ldiff, no_root_lor; [done|by apply no_root_land]).
  all: rewrite !andb_true_iff, !Z.eqb_eq in *; naive_solver congruence.
Qed.

Lemma finish_within target g : within (finish target g) PermissionAll.
Proof. unfold within, finish. by rewrite <- Z.land_assoc, Z.land_diag. Qed.
Lemma finish_no_root target g : target <> 0 -> no_root g -> no_root (finish target g).
Proof.
  intros Ht Hg. unfold finish. rewrite (proj2 (Z.eqb_neq _ _) Ht).
  assert (forall x, no_root x -> no_root (Z.land x PermissionAll)) as Hl.
  { intros x Hx. rewrite Z.land_comm. by apply no_root_land. }
  destruct (has g PermissionWrite); apply Hl; [|done]. by apply no_root_lor.
Qed.

Lemma has_bit0 g : has g PermissionWrite = Z.testbit g 0.
Proof.
  unfold has, PermissionWrite. destruct (Z.testbit g 0) eqn:E.
  - apply negb_true_iff, Z.eqb_neq. intros H. apply (f_equal (fun z => Z.testbit z 0)) in H.
    rewrite Z.land_spec, E, Z.bits_0 in H. done.
  - apply negb_false_iff, Z.eqb_eq. change 1 with (Z.ones 1). rewrite Z.land_ones by lia. change (2 ^ 1) with 2.
    rewrite Zmod_odd, <- Z.bit0_odd, E. done.
Qed.
Lemma finish_write target g : has (finish target g) PermissionWrite = true ->
  Z.land (finish target g) writePermissions = writePermissions /\
  (target = 0 -> Z.land (finish target g) rootPermissions = rootPermissions).
Proof.
  rewrite !has_bit0. unfold finish. rewrite Z.land_spec, has_bit0. destruct (Z.testbit g 0) eqn:E.
  - intros _. split.
    + destruct (target =? 0); [rewrite <- Z.lor_assoc, (Z.lor_comm writePermissions), Z.lor_assoc|];
        by rewrite land_lor_absorb.
    + intros ->. cbn [Z.eqb]. by rewrite land_lor_absorb.
  - rewrite E. done.
Qed.

(** What the evaluator can give: permissions of the protocol only; the
    server-wide ones (kick, ban, register, ...) never on a channel but the
    root; and whoever has Write has everything Write stands for. *)
Theorem evaluate_shape (st : AclStore) (tmp : membersMap) (t : T) (subject : Subject) (target : Z) (u : option User.t) (p : Z) :
  evaluate st tmp t subject target u = Some p ->
  within p PermissionAll /\ (target <> 0 -> Z.land p rootPermissions = 0) /\
  (has p PermissionWrite = true -> Z.land p writePermissions = writePermissions /\
     (target = 0 -> Z.land p rootPermissions = rootPermissions)).
Proof.
  unfold evaluate. destruct (bool_decide _); cbn [negb]; [|done].
  destruct (default_for st (sub_UserID subject)) as [def|] eqn:Ed; [|done]. cbn.
  destruct (eval_chain _ _ _ _ _ _ _ _ _) as [[a|]|] eqn:Ec; [| |done]; cbn; intros [= <-]; [|done].
  split; [apply finish_within|]. split; [|apply finish_write]. intros Ht. apply finish_no_root; [done|].
  assert (no_root def) as Hdef.
  { unfold default_for in Ed. destruct (IsAPIUserID _); [|by injection Ed as <-].
    destruct (apiAdmin _ _) as [[|]|]; [| |done]; by injection Ed as <-. }
  eapply (eval_chain_ind _ _ _ _ _ _ _ (fun a => no_root (granted a))); [| | |exact Ec]; [|done|done].
  intros cid row a'. by apply apply_row_no_root.
Qed.

(** ** Channels that do not inherit *)

Lemma apply_row_granted cid target row a b : granted a = granted b -> granted (apply_row cid target row a) = granted (apply_row cid target row b).
Proof.
  intros H. unfold apply_row. repeat case_match; cbn [granted set_field]; by rewrite ?H.
Qed.
Lemma eval_rows_granted st tmp t id cid target u rows : forall a b a', granted a = granted b ->
  eval_rows st tmp t id cid target u rows a = Some a' ->
  exists b', eval_rows st tmp t id cid target u rows b = Some b' /\ granted b' = granted a'.
Proof.
  induction rows as [|row rows IH]; intros a b a' H; cbn; [intros [= <-]; eauto|].
  destruct (entryMatches st tmp t row id target u) as [[|]|]; [| |done]; cbn; apply IH; [by apply apply_row_granted|done].
Qed.

Lemma eval_chain_last st tmp t id target def u a b cids : forall acc0,
  eval_chain st tmp t id target def u (cids ++ [target]) acc0 = Some (Some a) -> inherits t target = Some false ->
  aclRows st target = Some b -> exists acc1, granted acc1 = def /\ eval_rows st tmp t id target target u b acc1 = Some a.
Proof.
  induction cids as [|cid cids IH]; intros acc0; cbn.
  - intros H Hi Hr. rewrite Hi, Hr in H. cbn in H.
    destruct (eval_rows _ _ _ _ _ _ _ b _) as [a'|] eqn:E; [|done]. cbn in H. destruct (_ && _); [done|].
    injection H as <-. eexists. split; [|exact E]. done.
  - destruct (inherits t cid); [|done]. cbn. destruct (aclRows st cid); [|done]. cbn.
    destruct (eval_rows _ _ _ _ _ _ _ _ _); [|done]. cbn. destruct (_ && _); [done|]. apply IH.
Qed.

(** A channel that does not inherit decides for itself: apart from refusing
    everything to somebody who may not traverse the path, the permissions come
    from the defaults and the channel's own rows alone. *)
Theorem no_inherit_own_rows (st : AclStore) (tmp : membersMap) (t : T) (subject : Subject) (target : Z) (u : option User.t) (p : Z)
    (rows : list ChannelACL) :
  ChannelTreeLaws T t -> inherits t target = Some false -> aclRows st target = Some rows ->
  evaluate st tmp t subject target u = Some p -> p <> 0 ->
  exists def a, default_for st (sub_UserID subject) = Some def /\
    eval_rows st tmp t (sub_UserID subject) target target u rows (mkAcc def true false) = Some a /\
    p = finish target (granted a).
Proof.
  intros L Hi Hr. unfold evaluate. destruct (bool_decide _); cbn [negb]; [|done].
  destruct (default_for st (sub_UserID subject)) as [def|] eqn:Ed; [|done]. cbn.
  destruct (eval_chain _ _ _ _ _ _ _ _ _) as [[a|]|] eqn:Ec; [| |done]; cbn; intros [= <-] Hp; [|done].
  assert (chain t target <> []) as Hne by (apply chain_known; by rewrite Hi).
  pose proof (chain_head target Hne) as Hh. destruct (chain t target) as [|x xs]; [done|]. injection Hh as ->. cbn in Ec.
  destruct (eval_chain_last _ _ _ _ _ _ _ _ rows (rev xs) _ Ec Hi Hr) as (a1 & Ha1 & E1).
  destruct (eval_rows_granted _ _ _ _ _ _ _ _ a1 (mkAcc def true false) a Ha1 E1) as (b & Hb & Hg).
  exists def, b. split; [done|]. split; [done|]. by rewrite Hg.
Qed.

(** ** The default policy *)

Definition all_acl : ChannelACL :=
  mkACL 0 true true None (str "all"%string) [] false false (union_of [PermissionTraverse; PermissionEnter; PermissionSpeak;
    PermissionWhisper; PermissionTextMessage; PermissionListen]) 0.
Definition auth_acl : ChannelACL :=
  mkACL 0 true true None (str "auth"%string) [] false false (Z.lor PermissionMakeTempChannel PermissionSelfRegister) 0.
Definition admin_acl : ChannelACL :=
  mkACL 0 true true None (str "admin"%string) [] false false PermissionWrite 0.
Definition default_acls : list ChannelACL := [all_acl; auth_acl; admin_acl].
Definition default_groups : list (gostring * ChannelGroup) := [(str "admin"%string, mkGroup 0 true true [] [])].

Section Seed.
Context {D : Type} (countRootACLs : D -> option Z) (createACL : D -> ChannelACL -> option D)
  (createGroup : D -> gostring -> ChannelGroup -> option D).

Definition create_all {A} (create : D -> A -> option D) (xs : list A) (d : D) : option D :=
  fold_left (fun acc x => d ← acc; create d x) xs (Some d).
Definition EnsureDefaultRootACLs (d : D) : option D :=
  count ← countRootACLs d;
  if 0 <? count then Some d else
  d ← create_all (fun d '(name, g) => createGroup d name g) default_groups d;
  create_all createACL default_acls d.
End Seed.

(** The tables of a server with the default rows, whose group [admin] has got
    members. *)
Definition default_store (admins removed : list Z) (role : Z -> option (option gostring)) : AclStore :=
  mkStore (fun cid => Some (if cid =? 0 then default_acls else []))
    (fun cid name => Some (if (cid =? 0) && bool_decide (name = str "admin"%string)
                           then [mkGroup 0 true true admins removed] else []))
    role (Some default_acls).

Definition is_admin (admins removed : list Z) (id : Z) (u : option User.t) : bool :=
  match u with
  | Some u => User.ExternalIdentity u && bool_decide (str "admin"%string ∈ User.ExternalGroups u)
  | None => false
  end || (negb (id =? 0) && bool_decide (id ∈ admins) && negb (bool_decide (id ∈ removed))).

(** What the default rows grant before [finish]. *)
Definition default_grant (admins removed : list Z) (id target : Z) (u : option User.t) : Z :=
  let g := DefaultPermissions in
  let g := if 0 <? id then Z.lor g (Z.lor PermissionMakeTempChannel (if target =? 0 then PermissionSelfRegister else 0)) else g in
  if is_admin admins removed id u then Z.lor g PermissionWrite else g.

Lemma temporaryMatch_none tmp key id u : tmp !! key = None -> temporaryMatch tmp key id u = false.
Proof.
  intros H. unfold temporaryMatch. rewrite H. unfold default. cbn [from_option tm_users tm_sessions].
  rewrite (bool_decide_eq_false_2 (id ∈ (∅ : gset Z))), andb_false_r by apply not_elem_of_empty. cbn [orb].
  destruct u as [u|]; [|done]. by rewrite bool_decide_eq_false_2, andb_false_r by apply not_elem_of_empty.
Qed.

Lemma group_stack_default admins removed role tmp context cids : tmp = ∅ ->
  Forall (fun c => c <> 0) cids ->
  group_stack (default_store admins removed role) tmp (str "admin"%string) context (cids ++ [0]) =
    Some [mkGroup 0 true true admins removed].
Proof.
  intros He. induction 1 as [|c cids Hc _ IH]; cbn [app group_stack]; [|].
  - cbn -[str Z.eqb]. rewrite bool_decide_eq_true_2, Z.eqb_refl by done. cbn -[str Z.eqb]. by rewrite andb_false_r.
  - cbn -[str Z.eqb]. rewrite (proj2 (Z.eqb_neq c 0) Hc). cbn -[str Z.eqb]. rewrite He in *. rewrite lookup_empty. exact IH.
Qed.

Lemma chain_split t target : ChannelTreeLaws T t -> chain t target <> [] ->
  exists cids, chain t target = cids ++ [0] /\ Forall (fun c => c <> 0) cids.
Proof.
  intros L Hne. pose proof (chain_root target Hne) as Hl. pose proof (chain_once target) as Hnd.
  destruct (list.last_Some (chain t target) 0) as [H _]. destruct (H Hl) as [cids E]. exists cids. split; [done|].
  rewrite E in Hnd. apply list.NoDup_app in Hnd as (_ & Hd & _). apply Forall_forall. intros c Hc%list_elem_of_In ->.
  apply (Hd 0 Hc). by apply list_elem_of_singleton.
Qed.

Lemma storedGroup_default admins removed role tmp t id target u : ChannelTreeLaws T t -> chain t target <> [] ->
  tmp = ∅ ->
  storedGroup (default_store admins removed role) tmp t id (str "admin"%string) target u =
    Some (negb (id =? 0) && bool_decide (id ∈ admins) && negb (bool_decide (id ∈ removed))).
Proof.
  intros L Hne He. unfold storedGroup. rewrite (chain_root target Hne), bool_decide_eq_true_2 by done. cbn [negb].
  destruct (chain_split t target L Hne) as (cids & -> & Hc). rewrite group_stack_default by done. cbn -[str].
  unfold group_apply. rewrite temporaryMatch_none by (by rewrite He, lookup_empty). cbn. f_equal.
  destruct (negb (id =? 0)), (bool_decide (id ∈ admins)), (bool_decide (id ∈ removed)); done.
Qed.

Lemma entryMatches_admin admins removed role tmp t id target u : ChannelTreeLaws T t -> chain t target <> [] ->
  tmp = ∅ -> IsAPIUserID id = false ->
  entryMatches (default_store admins removed role) tmp t admin_acl id target u = Some (is_admin admins removed id u).
Proof.
  intros L Hne He Hid. unfold entryMatches, is_admin.
  change (acl_UserID admin_acl) with (@None Z). cbv beta iota zeta.
  match goal with |- matchSelector _ _ _ ?s _ _ _ _ = _ => change s with (mkSel (str "admin"%string) false false false false) end.
  unfold matchSelector. cbn [sel_name sel_invert sel_here sel_token sel_cert].
  repeat match goal with |- context [bool_decide (?a = ?b)] =>
    let v := eval vm_compute in (bool_decide (a = b)) in change (bool_decide (a = b)) with v end.
  change (bool_decide (is_Some (strip_prefix (str "sub,"%string) (str "admin"%string)))) with false.
  cbn [orb andb negb]. rewrite Hid.
  destruct (match u with Some u => User.ExternalIdentity u && bool_decide (str "admin"%string ∈ User.ExternalGroups u) | None => false end);
    [done|]. rewrite storedGroup_default by done. done.
Qed.

Lemma eval_chain_empty admins removed role tmp t id target def u cids a :
  Forall (fun c => c <> 0) cids -> Forall (fun c => inherits t c = Some true) cids -> traverse a = true ->
  eval_chain (default_store admins removed role) tmp t id target def u cids a = Some (Some a).
Proof.
  intros H1 H2 Ha. induction H1 as [|c cids Hc _ IH]; [done|]. apply Forall_cons_iff in H2 as [Hi H2].
  cbn -[Z.eqb]. rewrite Hi, (proj2 (Z.eqb_neq c 0) Hc). cbn. rewrite Ha. by apply IH.
Qed.

(** Seen from the root, all that matters of a target is whether it is the root. *)
Lemma apply_row_from_root target row a : apply_row 0 target row a = apply_row 0 (if target =? 0 then 0 else 1) row a.
Proof. unfold apply_row. rewrite (Z.eqb_sym 0 target). by destruct (target =? 0). Qed.
Lemma finish_from_root target g : finish target g = finish (if target =? 0 then 0 else 1) g.
Proof. unfold finish. by destruct (target =? 0). Qed.

(** The three default rows, one after the other. *)
Lemma default_rows admins removed role tmp t id target u : ChannelTreeLaws T t -> chain t target <> [] -> tmp = ∅ ->
  IsAPIUserID id = false ->
  exists a, eval_rows (default_store admins removed role) tmp t id 0 target u default_acls (mkAcc DefaultPermissions true false) = Some a /\
    traverse a = true /\ finish target (granted a) = finish target (default_grant admins removed id target u).
Proof.
  intros L Hne He Hid. unfold default_acls. cbn [eval_rows].
  change (entryMatches _ tmp t all_acl id target u) with (Some true).
  change (entryMatches _ tmp t auth_acl id target u) with (Some (0 <? id)).
  rewrite (entryMatches_admin admins removed role tmp t id target u L Hne He Hid). cbn [mbind option_bind].
  rewrite !(apply_row_from_root target). unfold default_grant. eexists. split; [reflexivity|].
  rewrite !(finish_from_root target).
  destruct (target =? 0), (0 <? id), (is_admin admins removed id u); (split; [vm_compute; reflexivity|vm_compute; reflexivity]).
Qed.

(** The default policy, exactly: with the rows a new server gets, everyone
    has the default permissions on every channel, registered users may also
    create temporary channels everywhere and register themselves at the root,
    and members of the group [admin] have Write with all it implies; nobody
    has anything else. *)
Theorem default_policy (admins removed : list Z) (role : Z -> option (option gostring)) (tmp : membersMap) (t : T)
    (subject : Subject) (target : Z) (u : option User.t) :
  ChannelTreeLaws T t -> is_Some (inherits t target) -> (forall c, c ∈ chain t target -> inherits t c = Some true) ->
  tmp = ∅ -> IsAPIUserID (sub_UserID subject) = false ->
  evaluate (default_store admins removed role) tmp t subject target u =
    Some (finish target (default_grant admins removed (sub_UserID subject) target u)).
Proof.
  intros L Hk Hi He Hid. assert (chain t target <> []) as Hne by (by apply chain_known).
  unfold evaluate, default_for. rewrite (chain_root target Hne), bool_decide_eq_true_2, Hid by done. cbn [negb mbind option_bind].
  destruct (chain_split t target L Hne) as (cids & E & Hc). rewrite E, rev_app_distr. cbn [rev app eval_chain].
  rewrite Hi by (rewrite E; apply elem_of_app; right; by apply list_elem_of_singleton). cbn [mbind option_bind negb].
  change (aclRows (default_store admins removed role) 0) with (Some default_acls). cbn [mbind option_bind].
  destruct (default_rows admins removed role tmp t (sub_UserID subject) target u L Hne He Hid) as (a & Ha & Ht & Hg).
  change (has DefaultPermissions PermissionWrite) with false. rewrite Ha. cbn [mbind option_bind]. rewrite Ht. cbn [negb andb].
  rewrite eval_chain_empty; [cbn; by rewrite Hg| | |done].
  - by apply Forall_rev.
  - apply Forall_rev, Forall_forall. intros c Hcc%list_elem_of_In. apply Hi. rewrite E. apply elem_of_app. by left.
Qed.

Definition members (e : Evaluator) (key : groupKey) : temporaryMembers := default (mkMembers ∅ ∅) (temporary e !! key).

Lemma cleared_members e s key : members (ClearSessionMembers e s) key = clear_member s (members e key).
Proof.
  unfold members, ClearSessionMembers. cbn [temporary invalidateLocked set_field]. rewrite lookup_omap.
  destruct (temporary e !! key) as [m|]; unfold default; cbn [from_option mbind option_bind]; unfold id.
  - destruct (decide (tm_sessions (clear_member s m) = ∅)) as [E1|E1];
      [rewrite (bool_decide_eq_true_2 _ E1)|by rewrite (bool_decide_eq_false_2 _ E1)].
    destruct (decide (tm_users (clear_member s m) = ∅)) as [E2|E2];
      [rewrite (bool_decide_eq_true_2 _ E2)|by rewrite (bool_decide_eq_false_2 _ E2)].
    cbn [andb from_option]. destruct (clear_member s m) as [us ss]. cbn [tm_users tm_sessions] in E1, E2. by subst.
  - unfold clear_member. by f_equal.
Qed.
Lemma temporaryMatch_members e key id u : temporaryMatch (temporary e) key id u =
  (negb (id =? 0) && bool_decide (id ∈ tm_users (members e key))) ||
  match u with
  | None => false
  | Some u => negb (User.SessionGeneration u =? 0)
              && bool_decide ((User.SessionID u, User.SessionGeneration u) ∈ tm_sessions (members e key))
  end.
Proof. done. Qed.

(** A temporary membership ends with the session: once the evaluator has
    been told that a user is gone, no temporary group contains that session any
    more, under any channel and name, and nobody else's membership changed. *)
Theorem temporary_membership_ends (e : Evaluator) (u v : User.t) (key : groupKey) (id : Z) :
  let e' := on_user e (u, true) in
  temporaryMatch (temporary e') key 0 (Some u) = false /\
  ((User.SessionID v, User.SessionGeneration v) <> (User.SessionID u, User.SessionGeneration u) ->
   User.SessionGeneration u <> 0 ->
   temporaryMatch (temporary e') key id (Some v) = temporaryMatch (temporary e) key id (Some v)) /\
  temporaryMatch (temporary e') key id None = temporaryMatch (temporary e) key id None.
Proof.
  cbn zeta. rewrite !temporaryMatch_members. cbn [on_user]. rewrite !cleared_members.
  unfold clear_member. cbn [tm_users tm_sessions Z.eqb negb andb orb sub_SessionID sub_Generation SubjectOf].
  split; [|split; [|done]].
  - rewrite andb_false_iff. right. apply bool_decide_eq_false_2. rewrite elem_of_filter. intros [H _]. apply H. split; [done|by right].
  - intros Hne Hu. f_equal. f_equal. apply bool_decide_ext. rewrite elem_of_filter. cbn.
    split; [by intros [_ ?]|]. intros Hin. split; [|done]. intros [H1 [H2|H2]]; [done|]. apply Hne. congruence.
Qed.

(** An API account and its Mumble user ID determine each other, and the ID
    stays clear of the registered users (below 2^31) and of 0. *)
Theorem api_user_id_roundtrip (dbid : Z) : 0 < dbid < 2 ^ 31 ->
  IsAPIUserID (MakeAPIUserID dbid) = true /\ is_u32 (MakeAPIUserID dbid) /\ APIUserIDToDBID (MakeAPIUserID dbid) = dbid.
Proof.
  intros H. unfold MakeAPIUserID. rewrite (proj2 (Z.eqb_neq dbid 0)) by lia.
  assert (Z.land dbid APIUserIDMask = dbid) as Hl by (change APIUserIDMask with (Z.ones 31); rewrite Z.land_ones by lia; apply Z.mod_small; lia).
  rewrite Hl, u32_id by zlia. assert (Z.lor APIUserIDBase dbid = 2 ^ 31 + dbid) as E.
  { change APIUserIDBase with (Z.shiftl 1 31). rewrite Z.lor_comm, lor_shiftl_add by lia. lia. }
  rewrite E. unfold IsAPIUserID, APIUserIDToDBID, APIUserIDBase. split; [lia|]. split; [zlia|].
  unfold IsAPIUserID, APIUserIDBase. destruct (Z.leb_spec 0x80000000 (2 ^ 31 + dbid)); [|lia]. cbn [negb].
  change APIUserIDMask with (Z.ones 31). rewrite Z.land_ones by lia.
  replace (2 ^ 31 + dbid) with (dbid + 1 * 2 ^ 31) by lia. rewrite Z.mod_add by lia. apply Z.mod_small. lia.
Qed.

(** ** What of a user the evaluation depends on *)

Definition norm (u : User.t) : User.t :=
  User.mk (User.SessionGeneration u) 0 (User.CertificateVerified u) (User.SessionID u) (User.UserID u) (User.ChannelID u) []
    (User.AccessTokens u) (User.ExternalGroups u) (User.ExternalIdentity u) (User.IdentityVersion u) (User.PolicyVersion u)
    (User.IdentityLastValidatedAt User.zero) (User.Voice User.zero) [] [] [] [] [] 0 (User.CertHash u) 0 [] (User.IsSuperUser u).

Definition same_view (a b : User.t) : Prop :=
  auth_view a = auth_view b /\ User.SessionID a = User.SessionID b /\ User.SessionGeneration a = User.SessionGeneration b.
Lemma same_view_norm a b : same_view a b -> norm a = norm b.
Proof. unfold auth_view, norm. intros (E & Hs & Hg). injection E. intros. by f_equal. Qed.

Lemma entryMatches_norm st tmp t row id target u :
  entryMatches st tmp t row id target (Some (norm u)) = entryMatches st tmp t row id target (Some u).
Proof. reflexivity. Qed.
Lemma eval_rows_norm st tmp t id cid target u rows : forall a,
  eval_rows st tmp t id cid target (Some (norm u)) rows a = eval_rows st tmp t id cid target (Some u) rows a.
Proof.
  induction rows as [|row rows IH]; intros a; [done|]. cbn [eval_rows]. rewrite entryMatches_norm.
  destruct (entryMatches _ _ _ _ _ _ _) as [b|]; [|done]. apply IH.
Qed.
Lemma eval_chain_norm st tmp t id target def u cids : forall a,
  eval_chain st tmp t id target def (Some (norm u)) cids a = eval_chain st tmp t id target def (Some u) cids a.
Proof.
  induction cids as [|cid cids IH]; intros a; [done|]. cbn [eval_chain]. destruct (inherits t cid) as [i|]; [|done]. cbn.
  destruct (aclRows st cid) as [rows|]; [|done]. cbn. rewrite eval_rows_norm.
  destruct (eval_rows _ _ _ _ _ _ _ _ _) as [a'|]; [|done]. cbn. destruct (_ && _); [done|]. apply IH.
Qed.
Lemma evaluate_view st tmp t s s' target a b : sub_UserID s = sub_UserID s' -> same_view a b ->
  evaluate st tmp t s target (Some a) = evaluate st tmp t s' target (Some b).
Proof.
  intros Hs Hv. unfold evaluate. rewrite Hs. destruct (negb _); [done|]. destruct (default_for st _) as [def|]; [|done]. cbn.
  by rewrite <- (eval_chain_norm _ _ _ _ _ _ a), (same_view_norm a b Hv), eval_chain_norm.
Qed.
Lemma evaluate_subject st tmp t s s' target u : sub_UserID s = sub_UserID s' ->
  evaluate st tmp t s target u = evaluate st tmp t s' target u.
Proof. intros Hs. unfold evaluate. by rewrite Hs. Qed.

(** The evaluation sees the tree only through the ancestor chains and the
    inheritance flags. *)
Definition same_tree (t t' : T) : Prop := (forall id, chain t' id = chain t id) /\ (forall id, inherits t' id = inherits t id).

Lemma matchSub_tree t t' name target context u : same_tree t t' -> matchSub t' name target context u = matchSub t name target context u.
Proof. intros [Hc _]. unfold matchSub. destruct u as [u|]; [|done]. by rewrite !Hc. Qed.
Lemma entryMatches_tree st tmp t t' row id target u : same_tree t t' ->
  entryMatches st tmp t' row id target u = entryMatches st tmp t row id target u.
Proof.
  intros S. unfold entryMatches, matchSelector, storedGroup. destruct (acl_UserID row); [done|].
  rewrite !(matchSub_tree t t') by done. destruct S as [Hc _]. by rewrite !Hc.
Qed.
Lemma eval_rows_tree st tmp t t' id cid target u rows : same_tree t t' -> forall a,
  eval_rows st tmp t' id cid target u rows a = eval_rows st tmp t id cid target u rows a.
Proof.
  intros S. induction rows as [|row rows IH]; intros a; [done|]. cbn [eval_rows]. rewrite (entryMatches_tree st tmp t t') by done.
  destruct (entryMatches _ _ _ _ _ _ _) as [b|]; [|done]. apply IH.
Qed.
Lemma evaluate_tree st tmp t t' s target u : same_tree t t' -> evaluate st tmp t' s target u = evaluate st tmp t s target u.
Proof.
  intros S. unfold evaluate. rewrite (proj1 S). destruct (negb _); [done|]. destruct (default_for st _) as [def|]; [|done]. cbn.
  assert (forall cids a, eval_chain st tmp t' (sub_UserID s) target def u cids a = eval_chain st tmp t (sub_UserID s) target def u cids a) as ->; [|done].
  induction cids as [|cid cids IH]; intros a; [done|]. cbn [eval_chain]. rewrite (proj2 S).
  destruct (inherits t cid) as [i|]; [|done]. cbn. destruct (aclRows st cid) as [rows|]; [|done]. cbn.
  rewrite (eval_rows_tree st tmp t t') by done. destruct (eval_rows _ _ _ _ _ _ _ _ _) as [a'|]; [|done]. cbn.
  destruct (_ && _); [done|]. apply IH.
Qed.
End Evaluate.
End Acl.
