(* ===== verification/AclCache.v ===== *)
(** * The permission cache over users, channels and tables

    Composes the evaluator ([internal/acl/evaluator.go]) with the managers it
    listens to. The channel manager implements the interface [ChannelTree] of
    the evaluator; the world holds the tables, both managers and the
    evaluator, and every operation runs the notifications its manager sends,
    in the order of the code. The specification is an evaluator without a
    cache: every answer of the cached one is the answer of an evaluation made
    at that moment. *)

From Stdlib Require Import ZArith Lia String.
From stdpp Require Import base numbers list gmap sets option.
From S2P Require Import Prelude Wire Fields Registry UserManager ChannelManager Acl.

Module AclCache.
Import Acl.

(** ** The channel manager as a [ChannelTree] *)

Section Tree.
Context `{SO : Channels.Sorter} {DB TX : Type} `{CS : Channels.ChannelStore DB TX}.

#[global] Instance manager_tree : ChannelTree (Channels.Manager DB) :=
  {| chain m id := default [] (Channels.AncestorChain m id);
     inherits m id := snd <$> Channels.GetChannelWithMeta m id |}.

Lemma chain_of_path (m : Channels.Manager DB) id p : Channels.path m id p -> chain m id = p.
Proof. intros H. unfold chain, manager_tree. by rewrite (Channels.AncestorChain_path m id p H). Qed.
Lemma chain_outside (m : Channels.Manager DB) id : Channels.channel_at m id = None -> chain m id = [].
Proof. intros H. unfold chain, manager_tree, Channels.AncestorChain. cbn [Nat.add Channels.ancestor_loop]. by rewrite H. Qed.
Lemma inherits_Some (m : Channels.Manager DB) id : is_Some (inherits m id) <-> is_Some (Channels.channel_at m id).
Proof. unfold inherits, manager_tree, Channels.GetChannelWithMeta. by rewrite !fmap_is_Some. Qed.
Lemma wf_path (m : Channels.Manager DB) id : Channels.chan_wf m -> is_Some (Channels.channel_at m id) ->
  exists p, Channels.path m id p.
Proof.
  intros W [c (l & n & Hl & _)%Channels.channel_at_Some]. by apply (Channels.cw_path m W); eauto.
Qed.
Lemma path_nonempty (m : Channels.Manager DB) id p : Channels.path m id p -> p <> [].
Proof. by destruct 1. Qed.
Lemma chain_path (m : Channels.Manager DB) id : Channels.chan_wf m -> chain m id <> [] -> Channels.path m id (chain m id).
Proof.
  intros W H. destruct (Channels.channel_at m id) as [c|] eqn:E; [|by rewrite (chain_outside m id E) in H].
  destruct (wf_path m id W ltac:(eauto)) as [p Hp]. by rewrite (chain_of_path m id p Hp).
Qed.

(** The channel manager keeps the promises the evaluator relies on. *)
#[global] Instance manager_tree_laws (m : Channels.Manager DB) : Channels.chan_wf m -> ChannelTreeLaws (Channels.Manager DB) m.
Proof.
  intros W. split.
  - intros id. rewrite inherits_Some. split.
    + intros H. destruct (wf_path m id W H) as [p Hp]. rewrite (chain_of_path m id p Hp). by eapply path_nonempty.
    + intros H. destruct (Channels.channel_at m id) eqn:E; [done|]. by rewrite (chain_outside m id E) in H.
  - intros id H. apply (chain_path m id W) in H. revert H. generalize (chain m id). by destruct 1.
  - intros id H. by apply (Channels.path_to_root m id), chain_path.
  - intros id x Hx. assert (chain m id <> []) as H by (intros E; rewrite E in Hx; by apply elem_of_nil in Hx).
    destruct (Channels.path_part m id _ (chain_path m id W H) x Hx) as (p' & Hp' & _).
    apply inherits_Some. destruct Hp'; [done|eauto].
  - intros id. destruct (decide (chain m id = [])) as [->|H]; [constructor|].
    by apply (Channels.path_NoDup m id), chain_path.
Qed.

(** What the evaluator sees of a channel. *)
Definition tree_view (c : Channels.Channel) : Z * bool := (Channels.ParentID c, Channels.InheritACL c).

Lemma ancestor_loop_view (m m' : Channels.Manager DB) :
  (forall x, tree_view <$> Channels.channel_at m' x = tree_view <$> Channels.channel_at m x) ->
  forall fuel cid seen ch, Channels.ancestor_loop fuel m' cid seen ch = Channels.ancestor_loop fuel m cid seen ch.
Proof.
  intros H. induction fuel as [|fuel IH]; intros cid seen ch; [done|]. cbn [Channels.ancestor_loop]. specialize (H cid).
  destruct (Channels.channel_at m' cid) as [c'|], (Channels.channel_at m cid) as [c|]; try done.
  injection H as Hp _. repeat case_match; try done. rewrite IH. by rewrite Hp.
Qed.
Lemma view_same_tree (m m' : Channels.Manager DB) : Channels.tree m' = Channels.tree m ->
  (forall x, tree_view <$> Channels.channel_at m' x = tree_view <$> Channels.channel_at m x) -> same_tree m m'.
Proof.
  intros Ht H. split; intros id.
  - unfold chain, manager_tree, Channels.AncestorChain. by rewrite Ht, (ancestor_loop_view m m' H).
  - unfold inherits, manager_tree, Channels.GetChannelWithMeta. specialize (H id).
    destruct (Channels.channel_at m' id), (Channels.channel_at m id); try done. cbn. by injection H as _ ->.
Qed.

Lemma set_links_view (m : Channels.Manager DB) id ls : Channels.tree (Channels.set_links m id ls) = Channels.tree m /\
  forall x, tree_view <$> Channels.channel_at (Channels.set_links m id ls) x = tree_view <$> Channels.channel_at m x.
Proof.
  unfold Channels.set_links. destruct (Channels.node_at m id) as [[l n]|] eqn:E; [|done]. split; [done|]. intros x.
  apply Channels.node_at_Some in E as [_ E]. unfold Channels.channel_at, Channels.node_at, Channels.write_node.
  cbn [Channels.tree Channels.nodes set_field]. destruct (Channels.tree m !! x) as [l'|]; [|done]. cbn [mbind option_bind].
  destruct (decide (l' = l)) as [->|Hne]; [by rewrite lookup_insert_eq, E|by rewrite lookup_insert_ne].
Qed.
Lemma fold_links_view ups : forall m0 : Channels.Manager DB, 
  let m' := fold_left (fun m '(id, ls) => Channels.set_links m id ls) ups m0 in
  Channels.tree m' = Channels.tree m0 /\
  forall x, tree_view <$> Channels.channel_at m' x = tree_view <$> Channels.channel_at m0 x.
Proof.
  induction ups as [|[id ls] ups IH]; intros m0; [done|]. cbn [fold_left]. destruct (IH (Channels.set_links m0 id ls)) as [-> H].
  destruct (set_links_view m0 id ls) as [H1 H2]. split; [done|]. intros x. by rewrite H, H2.
Qed.
Lemma UpdateLinks_same_tree ord1 ord2 (m : Channels.Manager DB) ch desired :
  same_tree m (Channels.UpdateLinks ord1 ord2 m ch desired).1.
Proof.
  unfold Channels.UpdateLinks. destruct (Channels.channel_at m ch) as [node|]; [|done].
  destruct (existsb _ _); [done|]. destruct (_ && _); [done|]. destruct (Channels.save_links _ _) as [d|]; [|done].
  cbn [fst]. set (ups := fmap _ _). match goal with |- context [fold_left _ ups ?m1] => destruct (fold_links_view ups m1) as [H1 H2] end.
  by apply view_same_tree.
Qed.
End Tree.

(** ** The world *)

Section World.
Context (EqualFold : gostring -> gostring -> bool).
Context `{SO : Channels.Sorter} {DB TX : Type} `{CS : Channels.ChannelStore DB TX}.

Record World := mkWorld {
  w_store : AclStore;
  w_users : Manager;
  w_chans : Channels.Manager DB;
  w_eval : Evaluator }.
#[local] Instance World_eta : Eta World := fun w => mkWorld (w_store w) (w_users w) (w_chans w) (w_eval w).

(** The listener [NewEvaluator] registers with both managers. *)
Definition self : nat := 0%nat.

(** An operation of the user manager and the notifications it sends. *)
Definition user_exec (m : Manager) (o : mop) : Manager * list notification :=
  match o with
  | OpAdd u => ((Add m u).1, [])
  | OpRemove sid => let '(m, _, ns) := Remove m sid in (m, ns)
  | OpRemoveIfGeneration sid gen => let '(m, _, ns) := RemoveIfGeneration m sid gen in (m, ns)
  | OpUpdateUser sid fn => let '(m, _, ns) := UpdateUser m sid fn in (m, ns)
  | OpUpdateIdentity rf check fn => let '(m, _, ns) := updateIdentity m rf check fn in (m, ns)
  | OpSetPing sid ping => (SetPing m sid ping, [])
  | OpListener l => (UserManager.AddAuthorizationListener m l, [])
  end.
Definition deliver_users (e : Evaluator) (ns : list notification) : Evaluator :=
  fold_left (fun e '(l, u, removed) => if Nat.eqb l self then on_user e (u, removed) else e) ns e.

(** An operation of the channel manager, and the listeners it calls. *)
Definition chan_exec (m : Channels.Manager DB) (o : Channels.cop) : option (Channels.Manager DB * list nat) :=
  match o with
  | Channels.OpCreate parent name desc pos temp max =>
      let '(m, _, ls) := Channels.Create m parent name desc pos temp max in Some (m, ls)
  | Channels.OpUpdate ord id o => let '(m, _, ls) := Channels.Update ord m id o in Some (m, ls)
  | Channels.OpRemove id => let '(m, _, ls) := Channels.Remove m id in Some (m, ls)
  | Channels.OpUpdateLinks ord1 ord2 ch desired => Some ((Channels.UpdateLinks ord1 ord2 m ch desired).1, [])
  | Channels.OpClean ord hasUsers => Channels.CleanEmptyTempChannels ord m hasUsers
  | Channels.OpListener l => Some (Channels.AddAuthorizationListener m l, [])
  end.
Definition deliver_channels (e : Evaluator) (m : Channels.Manager DB) (ls : list nat) : Evaluator :=
  fold_left (fun e l => if Nat.eqb l self then on_channels e m else e) ls e.

(** What can happen. The ACL tables change together with an invalidation (the
    handler writes the rows and then invalidates); the role of an API account
    changes in its own table, and nobody is told. *)
Inductive wop :=
  | WStore (acls : Z -> option (list ChannelACL)) (groups : Z -> gostring -> option (list ChannelGroup))
      (all : option (list ChannelACL))
  | WRole (role : Z -> option (option gostring))
  | WUser (o : mop)
  | WChan (o : Channels.cop)
  | WTemporary (channelID : Z) (name : gostring) (ids : list Z) (sessions : list Subject)
  | WClear (subject : Subject)
  | WAsk (subject : Subject) (channelID : Z).

(** With [cached] the evaluator of the code; without, the specification. *)
Definition wstep (cached : bool) (w : World) (o : wop) : option (World * list Z) :=
  match o with
  | WStore acls groups all =>
      Some (w <| w_store := mkStore acls groups (apiRole (w_store w)) all |> <| w_eval := InvalidateCache (w_eval w) |>, [])
  | WRole role =>
      let st := w_store w in Some (w <| w_store := mkStore (aclRows st) (groupRows st) role (allRows st) |>, [])
  | WUser o =>
      let '(m, ns) := user_exec (w_users w) o in
      Some (w <| w_users := m |> <| w_eval := deliver_users (w_eval w) ns |>, [])
  | WChan o =>
      '(m, ls) ← chan_exec (w_chans w) o;
      Some (w <| w_chans := m |> <| w_eval := deliver_channels (w_eval w) m ls |>, [])
  | WTemporary ch name ids sessions =>
      Some (w <| w_eval := (ReplaceTemporaryMembers (w_users w) (w_eval w) (w_chans w) ch name ids sessions).1 |>, [])
  | WClear subject => Some (w <| w_eval := ClearSessionMembers (w_eval w) subject |>, [])
  | WAsk subject ch =>
      let '(e, p) := permissions EqualFold (w_store w) (w_users w) (w_eval w) (w_chans w) subject ch cached in
      Some (w <| w_eval := e |>, [p])
  end.
Fixpoint wrun (cached : bool) (w : World) (ops : list wop) : option (World * list Z) :=
  match ops with
  | [] => Some (w, [])
  | o :: ops => '(w, a) ← wstep cached w o; '(w, b) ← wrun cached w ops; Some (w, a ++ b)
  end.

Definition wop_ok (o : wop) : Prop :=
  match o with WUser o => mop_ok o | WChan o => Channels.cop_ok o | _ => True end.

(** ** What notifications do to the evaluator *)

(** Two evaluators that differ at most in the cache and its generation. *)
Definition same_members (e e' : Evaluator) : Prop := temporary e' = temporary e.
Lemma on_user_members e e' n : same_members e e' -> same_members (on_user e n) (on_user e' n).
Proof. unfold same_members. intros H. destruct n as [u []]; cbn; by rewrite H. Qed.
Lemma on_channels_members e e' (m : Channels.Manager DB) : same_members e e' -> same_members (on_channels e m) (on_channels e' m).
Proof. unfold same_members. intros H. cbn. by rewrite H. Qed.
Lemma deliver_users_members ns : forall e e', same_members e e' -> same_members (deliver_users e ns) (deliver_users e' ns).
Proof.
  induction ns as [|[[l u] r] ns IH]; intros e e' H; [done|]. cbn [deliver_users fold_left]. apply IH.
  destruct (Nat.eqb l self); [by apply on_user_members|done].
Qed.
Lemma deliver_channels_members m ls : forall e e', same_members e e' -> same_members (deliver_channels e m ls) (deliver_channels e' m ls).
Proof.
  induction ls as [|l ls IH]; intros e e' H; [done|]. cbn [deliver_channels fold_left]. apply IH.
  destruct (Nat.eqb l self); [by apply on_channels_members|done].
Qed.

Lemma deliver_users_cache ns : forall e, (exists u r, (self, u, r) ∈ ns) \/ cache e = ∅ -> cache (deliver_users e ns) = ∅.
Proof.
  induction ns as [|[[l v] r] ns IH]; intros e; [intros [(u & r & H%elem_of_nil)|H]; done|]. cbn. intros H. apply IH.
  destruct (Nat.eqb_spec l self) as [->|Hl]; [right; by destruct r|]. destruct H as [(u & r' & [[=]|H]%elem_of_cons)|H]; [|left; by eauto|by right].
  by subst.
Qed.
Lemma deliver_channels_cache m ls : forall e, self ∈ ls \/ cache e = ∅ -> cache (deliver_channels e m ls) = ∅.
Proof.
  induction ls as [|l ls IH]; intros e; [intros [H%elem_of_nil|H]; done|]. cbn. intros H. apply IH.
  destruct (Nat.eqb_spec l self) as [->|Hl]; [by right|]. destruct H as [[E|H]%elem_of_cons|H]; [congruence|by left|by right].
Qed.

(** ** Silent operations change nothing an evaluation depends on *)

Lemma user_exec_exec m o : (user_exec m o).1 = exec m o.
Proof.
  destruct o as [u|sid|sid gen|sid fn|rf c fn|sid ping|l]; cbn [user_exec exec]; try done;
    [destruct (Remove m sid) as [[]]|destruct (RemoveIfGeneration m sid gen) as [[]]
    |destruct (UpdateUser m sid fn) as [[]]|destruct (updateIdentity m rf c fn) as [[]]]; done.
Qed.

Lemma write_snapshot m l u sid : mgr_wf m -> is_Some (records m !! l) ->
  Snapshot (write_user l u m) sid = if decide (bySession m !! sid = Some l) then Some u else Snapshot m sid.
Proof.
  intros W H. unfold Snapshot. rewrite (write_user_at m l u sid W H). unfold user_at.
  destruct (bySession m !! sid) as [l'|] eqn:E; cbn [mbind option_bind].
  - repeat case_decide; try done; congruence.
  - by case_decide.
Qed.
Lemma notify_all_self m u r : self ∈ authorizationListeners m -> (self, u, r) ∈ notify_all m u r.
Proof. intros H. unfold notify_all. by apply (list_elem_of_fmap_2 (fun l => (l, u, r))). Qed.
Lemma notify_all_nil m u r : self ∈ authorizationListeners m -> notify_all m u r <> [].
Proof. intros H E. apply (notify_all_self m u r) in H. rewrite E in H. by apply elem_of_nil in H. Qed.

(** The view of a user that stayed, or a generation nobody had before. *)
Definition kept (m : Manager) (u' : User.t) : Prop :=
  (exists u, Snapshot m (User.SessionID u') = Some u /\ same_view u u' /\ User.AuthorizationRevision u' = User.AuthorizationRevision u)
  \/ User.SessionGeneration u' = generation m + 1.
Lemma kept_self m sid u : mgr_wf m -> Snapshot m sid = Some u -> kept m u.
Proof.
  intros W H. left. exists u. split; [|done]. apply Snapshot_Some in H as (l & H). pose proof H as [Hb Hr]%user_at_Some.
  destruct (mw_session m W sid l Hb) as (u0 & H0 & <- & _). apply Snapshot_Some. exists l. congruence.
Qed.
Lemma settle_kept u fu u' : settle u fu = (u', false) -> User.SessionID fu = User.SessionID u ->
  same_view u u' /\ User.AuthorizationRevision u' = User.AuthorizationRevision u.
Proof.
  unfold settle. destruct (authorizationChanged _ _) eqn:E; [done|]. intros [= <-] Hs.
  apply authorizationChanged_view in E. done.
Qed.
Lemma write_kept m l u u' : mgr_wf m -> user_at m (User.SessionID u) = Some (l, u) -> same_view u u' ->
  User.AuthorizationRevision u' = User.AuthorizationRevision u ->
  forall sid v, Snapshot (write_user l u' m) sid = Some v -> kept m v.
Proof.
  intros W Hu Hv Hr sid v. pose proof Hu as [Hb Hl]%user_at_Some. rewrite write_snapshot by eauto. case_decide as Hd.
  - intros [= <-]. left. exists u. destruct Hv as (Hv & Hs & Hg). rewrite <- Hs. split; [|done]. apply Snapshot_Some. eauto.
  - by apply kept_self.
Qed.

Lemma user_exec_kept m o : mgr_wf m -> mop_ok o -> generation m + 1 < 2 ^ 64 -> self ∈ authorizationListeners m ->
  self ∈ authorizationListeners (user_exec m o).1 /\
  ((exists u r, (self, u, r) ∈ (user_exec m o).2) \/
   ((user_exec m o).2 = [] /\ forall sid u', Snapshot (user_exec m o).1 sid = Some u' -> kept m u')).
Proof.
  intros W Ho Hg Hself. destruct o as [u|sid|sid gen|sid fn|rf c fn|sid ping|l]; cbn [user_exec].
  - destruct (Add_cases m u W Hg) as [[-> _]|(_ & _ & m' & st & E & W' & _ & Hst & Hgen & Hmx & Hs)].
    + split; [done|]. right. split; [done|]. intros sid u'. by apply kept_self.
    + split.
      { revert E. unfold Add. repeat case_match; intros [= <- ?]; done. }
      rewrite E. right. split; [done|]. cbn [fst]. intros sid u'. rewrite Hs. case_decide; [|by apply kept_self].
      intros [= <-]. right. by rewrite Hst.
  - unfold Remove, remove. destruct (user_at m sid) as [[l u]|]; cbn;
      [split; [done|]; left; eauto using notify_all_self|split; [done|]; right; eauto using kept_self].
  - unfold RemoveIfGeneration, remove. destruct (user_at m sid) as [[l u]|]; cbn;
      [destruct (negb _); cbn; [|split; [done|]; left; eauto using notify_all_self]|];
      (split; [done|]; right; eauto using kept_self).
  - destruct Ho as [Hks Hkn]. unfold UpdateUser. destruct (user_at m sid) as [[l u]|] eqn:Hu;
      [|split; [done|]; right; eauto using kept_self].
    destruct (settle u (fn u)) as [u' [|]] eqn:Es; cbn; (split; [done|]); [left; eauto using notify_all_self|right].
    split; [done|]. apply settle_kept in Es as [Hv Hr]; [|apply Hks]. eapply (write_kept m l u u'); try done.
    pose proof Hu as [Hb Hl]%user_at_Some. destruct (mw_session m W sid l Hb) as (u0 & H0 & <- & _). congruence.
  - unfold updateIdentity. destruct (user_at m (SessionID rf)) as [[l u]|] eqn:Hu;
      [|split; [done|]; right; eauto using kept_self].
    destruct (_ && _); [split; [done|]; right; eauto using kept_self|].
    destruct (match user_named m (User.Name (fn u)) with Some _ => _ | None => _ end);
      [split; [done|]; right; eauto using kept_self|].
    destruct (settle u (fn u)) as [u' ch] eqn:Es. split; [by destruct (negb _)|].
    destruct ch; [left; eauto using notify_all_self|right].
    split; [done|]. apply settle_kept in Es as [Hv Hr]; [|apply Ho].
    assert (user_at m (User.SessionID u) = Some (l, u)) as Hu'.
    { pose proof Hu as [Hb Hl]%user_at_Some. destruct (mw_session m W _ l Hb) as (u0 & H0 & E0 & _). congruence. }
    intros sid v Hs. apply (write_kept m l u u' W Hu' Hv Hr sid v). revert Hs. cbn [fst].
    by destruct (negb _).
  - unfold SetPing. destruct (user_at m sid) as [[l u]|] eqn:Hu; (split; [done|]; right; split; [done|]); [|eauto using kept_self].
    eapply (write_kept m l u); try done. pose proof Hu as [Hb Hl]%user_at_Some.
    destruct (mw_session m W sid l Hb) as (u0 & H0 & <- & _). congruence.
  - split; [cbn; apply elem_of_app; by left|]. right. split; [done|]. intros sid u' H. by apply (kept_self m sid).
Qed.

(** No operation of the channel manager loses a listener. *)
Lemma sort_node_listeners (m : Channels.Manager DB) id :
  Channels.authorizationListeners (Channels.sort_node m id) = Channels.authorizationListeners m.
Proof. unfold Channels.sort_node, Channels.sort_children. by repeat case_match. Qed.
Lemma append_child_listeners (m : Channels.Manager DB) id l :
  Channels.authorizationListeners (Channels.append_child m id l) = Channels.authorizationListeners m.
Proof. unfold Channels.append_child. by repeat case_match. Qed.
Lemma detach_listeners (m : Channels.Manager DB) id p :
  Channels.authorizationListeners (Channels.detach m id p) = Channels.authorizationListeners m.
Proof. unfold Channels.detach. by repeat case_match. Qed.
Lemma clean_round_listeners hasUsers ids : forall m : Channels.Manager DB,
  Channels.authorizationListeners (Channels.clean_round m hasUsers ids).1 = Channels.authorizationListeners m.
Proof.
  induction ids as [|id ids IH]; intros m; [done|]. cbn [Channels.clean_round].
  destruct (Channels.node_at m id) as [[l n]|]; [|apply IH]. destruct (_ || _); [apply IH|]. destruct (hasUsers id); [apply IH|].
  destruct (Channels.dbDelete _ _) as [d [|]]; cbn [negb fst]; [by rewrite detach_listeners|by rewrite IH].
Qed.
Lemma clean_loop_listeners hasUsers ord fuel : forall m m' : Channels.Manager DB,
  Channels.clean_loop fuel ord m hasUsers = Some m' ->
  Channels.authorizationListeners m' = Channels.authorizationListeners m.
Proof.
  induction fuel as [|fuel IH]; intros m m'; [done|]. cbn [Channels.clean_loop].
  pose proof (clean_round_listeners hasUsers (ord fuel (Channels.keys m)) m) as H.
  destruct (Channels.clean_round _ _ _) as [m1 [|]]; cbn [fst] in H; [|by intros [= <-]].
  intros E. by rewrite (IH m1 m' E).
Qed.
Lemma fold_links_listeners ups : forall m : Channels.Manager DB,
  Channels.authorizationListeners (fold_left (fun m '(id, ls) => Channels.set_links m id ls) ups m) = Channels.authorizationListeners m.
Proof.
  induction ups as [|[id ls] ups IH]; intros m; [done|]. cbn [fold_left]. rewrite IH. unfold Channels.set_links. by repeat case_match.
Qed.

Lemma Create_listeners (m : Channels.Manager DB) parent name desc pos temp max :
  let r := Channels.Create m parent name desc pos temp max in
  r.2 = Channels.authorizationListeners m /\ Channels.authorizationListeners r.1.1 = Channels.authorizationListeners m.
Proof.
  cbn zeta. unfold Channels.Create. destruct (negb _); [done|]. destruct (bool_decide _); [done|].
  destruct (Channels.dbCreate _ _) as [d [row|]]; [|done]. cbn [fst snd]. by rewrite sort_node_listeners, append_child_listeners.
Qed.
Lemma Update_listeners ord (m : Channels.Manager DB) id o :
  let r := Channels.Update ord m id o in
  r.2 = Channels.authorizationListeners m /\ Channels.authorizationListeners r.1.1 = Channels.authorizationListeners m.
Proof. cbn zeta. unfold Channels.Update. by repeat case_match. Qed.
Lemma Remove_listeners (m : Channels.Manager DB) id :
  let r := Channels.Remove m id in
  r.2 = Channels.authorizationListeners m /\ Channels.authorizationListeners r.1.1 = Channels.authorizationListeners m.
Proof.
  cbn zeta. unfold Channels.Remove. destruct (id =? 0); [done|]. destruct (Channels.node_at m id) as [[l n]|]; [|done].
  destruct (negb _); [done|]. destruct (Channels.dbDelete _ _) as [d [|]]; [|done]. cbn. by rewrite detach_listeners.
Qed.
Lemma UpdateLinks_listeners ord1 ord2 (m : Channels.Manager DB) ch desired :
  Channels.authorizationListeners (Channels.UpdateLinks ord1 ord2 m ch desired).1 = Channels.authorizationListeners m.
Proof.
  unfold Channels.UpdateLinks. destruct (Channels.channel_at m ch) as [node|]; [|done]. destruct (existsb _ _); [done|].
  destruct (_ && _); [done|]. destruct (Channels.save_links _ _); [|done]. cbn [fst]. by rewrite fold_links_listeners.
Qed.

(** Every operation of the channel manager calls the listeners, or leaves the
    tree as the evaluator sees it. *)
Lemma chan_exec_kept m o : Channels.chan_wf m -> Channels.cop_ok o -> self ∈ Channels.authorizationListeners m ->
  exists m' ls, chan_exec m o = Some (m', ls) /\ Channels.chan_wf m' /\ self ∈ Channels.authorizationListeners m' /\
    (self ∈ ls \/ (ls = [] /\ same_tree m m')).
Proof.
  intros W Ho Hself. destruct (Channels.cop_exec_wf m o W Ho) as (m' & E & W').
  destruct o as [parent name desc pos temp max|ord id o|id|ord1 ord2 ch desired|ord hasUsers|l]; cbn [chan_exec Channels.exec] in *.
  - pose proof (Create_listeners m parent name desc pos temp max) as H.
    destruct (Channels.Create _ _ _ _ _ _ _) as [[m1 r] ls]; cbn in *. destruct H as [-> H2]. injection E as ->.
    eexists _, _. split; [done|]. rewrite H2. auto.
  - pose proof (Update_listeners ord m id o) as H.
    destruct (Channels.Update _ _ _ _) as [[m1 r] ls]; cbn in *. destruct H as [-> H2]. injection E as ->.
    eexists _, _. split; [done|]. rewrite H2. auto.
  - pose proof (Remove_listeners m id) as H.
    destruct (Channels.Remove _ _) as [[m1 r] ls]; cbn in *. destruct H as [-> H2]. injection E as ->.
    eexists _, _. split; [done|]. rewrite H2. auto.
  - injection E as <-. eexists _, _. split; [done|]. split; [done|]. rewrite UpdateLinks_listeners. split; [done|].
    right. split; [done|]. apply UpdateLinks_same_tree.
  - unfold Channels.CleanEmptyTempChannels in *. destruct (Channels.clean_loop _ _ _ _) as [m1|] eqn:Ec; [|done]. injection E as ->.
    eexists _, _. split; [done|]. split; [done|]. rewrite (clean_loop_listeners _ _ _ _ _ Ec). auto.
  - injection E as <-. eexists _, _. split; [done|]. split; [done|]. split; [cbn; apply elem_of_app; by left|]. right.
    split; [done|]. by apply view_same_tree.
Qed.

(** ** The cache is always right *)

(** The user an entry was computed for, if still there as it was. *)
Definition live (m : Manager) (k : cacheKey) (u : option User.t) : Prop :=
  match u with
  | None => sub_SessionID (key_subject k) = 0
  | Some u => Snapshot m (sub_SessionID (key_subject k)) = Some u /\ SubjectOf u = key_subject k /\
              User.AuthorizationRevision u = key_revision k
  end.

Record cache_valid (st : AclStore) (m : Manager) (tmp : membersMap) (t : Channels.Manager DB) (c : gmap cacheKey Z) : Prop := {
  cv_value : forall k p, c !! k = Some p -> forall u, live m k u ->
    evaluate EqualFold st tmp t (key_subject k) (key_channelID k) u = Some p;
  cv_account : forall k p, c !! k = Some p -> IsAPIUserID (sub_UserID (key_subject k)) = false;
  cv_generation : forall k p, c !! k = Some p -> sub_Generation (key_subject k) <= generation m \/ sub_SessionID (key_subject k) = 0 }.

Lemma cache_valid_empty st m tmp t : cache_valid st m tmp t ∅.
Proof. split; intros k p; by rewrite lookup_empty. Qed.

(** The role of an API account plays no part for anyone else. *)
Lemma group_stack_roles st role tmp name context cids :
  group_stack (mkStore (aclRows st) (groupRows st) role (allRows st)) tmp name context cids = group_stack st tmp name context cids.
Proof.
  induction cids as [|cid cids IH]; [done|]. cbn [group_stack]. change (groupRows (mkStore _ _ role _) cid name) with (groupRows st cid name).
  by rewrite IH.
Qed.
Lemma evaluate_roles st role tmp (t : Channels.Manager DB) s target u : IsAPIUserID (sub_UserID s) = false ->
  evaluate EqualFold (mkStore (aclRows st) (groupRows st) role (allRows st)) tmp t s target u =
  evaluate EqualFold st tmp t s target u.
Proof.
  intros Hid. set (st' := mkStore _ _ role _).
  assert (forall row, entryMatches EqualFold st' tmp t row (sub_UserID s) target u =
                      entryMatches EqualFold st tmp t row (sub_UserID s) target u) as Hm.
  { assert (forall name ctx, (if bool_decide (name = str "admin"%string) && IsAPIUserID (sub_UserID s)
        then apiAdmin st' (sub_UserID s) else storedGroup st' tmp t (sub_UserID s) name ctx u) =
      (if bool_decide (name = str "admin"%string) && IsAPIUserID (sub_UserID s)
        then apiAdmin st (sub_UserID s) else storedGroup st tmp t (sub_UserID s) name ctx u)) as Ha
      by (intros; rewrite Hid, andb_false_r; unfold storedGroup; by rewrite (group_stack_roles st role)).
    intros row. unfold entryMatches, matchSelector. destruct (acl_UserID row); [done|]. by rewrite Ha. }
  assert (forall cid rows a, eval_rows EqualFold st' tmp t (sub_UserID s) cid target u rows a =
                             eval_rows EqualFold st tmp t (sub_UserID s) cid target u rows a) as Hr.
  { intros cid. induction rows as [|row rows IH]; intros a; [done|]. cbn [eval_rows]. rewrite Hm.
    destruct (entryMatches _ _ _ _ _ _ _ _) as [b|]; [|done]. apply IH. }
  unfold evaluate. destruct (negb _); [done|]. unfold default_for. rewrite Hid. cbn [mbind option_bind].
  enough (forall cids a, eval_chain EqualFold st' tmp t (sub_UserID s) target DefaultPermissions u cids a =
                         eval_chain EqualFold st tmp t (sub_UserID s) target DefaultPermissions u cids a) as -> by done.
  induction cids as [|cid cids IH]; intros a; [done|]. cbn [eval_chain]. destruct (inherits t cid); [|done]. cbn [mbind option_bind].
  change (aclRows st' cid) with (aclRows st cid). destruct (aclRows st cid); [|done]. cbn [mbind option_bind]. rewrite Hr.
  destruct (eval_rows _ _ _ _ _ _ _ _ _ _); [|done]. cbn [mbind option_bind]. destruct (_ && _); [done|]. apply IH.
Qed.

Lemma cache_valid_roles st role m tmp t c : cache_valid st m tmp t c ->
  cache_valid (mkStore (aclRows st) (groupRows st) role (allRows st)) m tmp t c.
Proof. intros [V A G]. split; [|done|done]. intros k p Hk u Hu. rewrite evaluate_roles by eauto. eauto. Qed.
Lemma cache_valid_tree st m tmp t t' c : cache_valid st m tmp t c -> same_tree t t' -> cache_valid st m tmp t' c.
Proof. intros [V A G] S. split; [|done|done]. intros k p Hk u Hu. rewrite (evaluate_tree EqualFold st tmp t t') by done. eauto. Qed.

Lemma live_session m k u : mgr_wf m -> live m k (Some u) -> sub_SessionID (key_subject k) <> 0.
Proof.
  intros W (H & _). apply Snapshot_Some in H as (l & [Hb _]%user_at_Some). intros E. rewrite E in Hb.
  assert (0 ∈ inUse (pool m)) as Hin by (rewrite (mw_inuse m W); apply elem_of_dom; eauto).
  pose proof (proj1 (pw_cover _ (mw_pool m W) 0) (or_introl Hin)). lia.
Qed.
Lemma cache_valid_users st m m' tmp t c : mgr_wf m -> mgr_wf m' -> generation m <= generation m' ->
  (forall sid u', Snapshot m' sid = Some u' -> kept m u') -> cache_valid st m tmp t c -> cache_valid st m' tmp t c.
Proof.
  intros W W' Hg Hk [V A G]. split; [|done|].
  - intros k p Hc [u'|] Hu; [|by apply (V k p Hc None)]. pose proof (live_session m' k u' W' Hu) as Hs.
    destruct Hu as (H1 & H2 & H3). destruct (Hk _ _ H1) as [(u & Hu & Hv & Hr)|Hn].
    + rewrite <- (V k p Hc (Some u)).
      * symmetry. by apply evaluate_view.
      * destruct Hv as (Hv & E1 & E2). unfold live. rewrite <- H2. split; [done|]. split; [|congruence].
        unfold SubjectOf. injection Hv. intros. by f_equal.
    + exfalso. destruct (G k p Hc) as [Hle|?]; [|done]. rewrite <- H2 in Hle. cbn in Hle. lia.
  - intros k p Hc. destruct (G k p Hc); [left; lia|by right].
Qed.

(** One question: the answer is that of a fresh evaluation, and the cache
    stays right. *)
Lemma permissions_valid w_st m e (t : Channels.Manager DB) s ch : mgr_wf m -> cache_valid w_st m (temporary e) t (cache e) ->
  let r := permissions EqualFold w_st m e t s ch true in
  r.2 = (permissions EqualFold w_st m e t s ch false).2 /\ temporary r.1 = temporary e /\
  cache_valid w_st m (temporary e) t (cache r.1).
Proof.
  intros W V. cbn zeta. unfold permissions. destruct (resolveUser m s) as [u|] eqn:Eu; [|done].
  destruct (match u with Some u => User.IsSuperUser u | None => false end); [done|]. cbn [andb].
  set (k := key_of s u ch).
  assert (live m k u /\ sub_UserID (key_subject k) = sub_UserID s /\ key_channelID k = ch /\
          (forall u', live m k u' -> u' = u) /\
          (sub_Generation (key_subject k) <= generation m \/ sub_SessionID (key_subject k) = 0)) as (Hl & Hid & Hch & Hu & Hg).
  { revert Eu. subst k. unfold resolveUser. destruct (Z.eqb_spec (sub_SessionID s) 0) as [E0|E0].
    - intros [= <-]. cbn. split; [done|]. split; [done|]. split; [done|]. split; [|by right]. intros [u'|]; [|done].
      intros H. by destruct (live_session m _ _ W H).
    - destruct (Snapshot m (sub_SessionID s)) as [v|] eqn:Ev; [|done]. destruct (_ && _) eqn:Ec; [|done]. intros [= <-].
      apply andb_true_iff in Ec as [Eid%Z.eqb_eq _]. apply Snapshot_Some in Ev as (l & Ev). pose proof Ev as [Hb Hr]%user_at_Some.
      destruct (mw_session m W _ l Hb) as (v' & Hv' & Hsid & _ & Hgen). assert (v' = v) as -> by congruence.
      assert (Snapshot m (User.SessionID v) = Some v) as Hsn by (rewrite Hsid; apply Snapshot_Some; eauto).
      cbn. split; [done|]. split; [done|]. split; [done|]. split; [|left; lia]. intros [u'|]; cbn; [|congruence].
      intros (H & _). congruence. }
  destruct (IsAPIUserID (sub_UserID s)) eqn:Eapi; cbn [negb andb].
  { by destruct (evaluate _ _ _ _ _ _ _). }
  destruct (cache e !! k) as [p|] eqn:Ek.
  - pose proof (cv_value _ _ _ _ _ V k p Ek u Hl) as H. rewrite Hch in H.
    rewrite (evaluate_subject EqualFold _ _ _ _ s ch u Hid) in H. by rewrite H.
  - destruct (evaluate EqualFold w_st (temporary e) t s ch u) as [p|] eqn:Ee; [|done]. split; [done|]. split; [done|]. cbn.
    destruct V as [V A G]. split; intros k' p'; (destruct (decide (k' = k)) as [->|Hne];
      [rewrite lookup_insert_eq; intros [= <-]|rewrite lookup_insert_ne by done; eauto]).
    + intros u' Hl'. rewrite (Hu u' Hl'), Hch. by rewrite (evaluate_subject EqualFold _ _ _ _ s ch u Hid).
    + by rewrite Hid.
    + done.
Qed.

(** ** The refinement *)

(** The world of the code and the world of the specification. *)
Record simulates (w v : World) : Prop := {
  sim_store : w_store v = w_store w;
  sim_users : w_users v = w_users w;
  sim_chans : w_chans v = w_chans w;
  sim_members : same_members (w_eval w) (w_eval v);
  sim_users_wf : mgr_wf (w_users w);
  sim_chans_wf : Channels.chan_wf (w_chans w);
  sim_listens : self ∈ authorizationListeners (w_users w) /\ self ∈ Channels.authorizationListeners (w_chans w);
  sim_cache : cache_valid (w_store w) (w_users w) (temporary (w_eval w)) (w_chans w) (cache (w_eval w)) }.

Lemma permissions_spec w_st m e e' (t : Channels.Manager DB) s ch : same_members e e' ->
  permissions EqualFold w_st m e' t s ch false = (e', (permissions EqualFold w_st m e t s ch false).2).
Proof. intros H. unfold permissions. cbn [andb]. rewrite H. by repeat case_match. Qed.

Lemma ReplaceTemporaryMembers_cases m e e' (t : Channels.Manager DB) ch name ids ss : same_members e e' ->
  let r := (ReplaceTemporaryMembers m e t ch name ids ss).1 in
  same_members r (ReplaceTemporaryMembers m e' t ch name ids ss).1 /\ (cache r = ∅ \/ r = e).
Proof.
  unfold same_members. intros H. cbn zeta. unfold ReplaceTemporaryMembers. repeat case_match; cbn; rewrite ?H; auto.
Qed.

Lemma wstep_simulates w v o : simulates w v -> wop_ok o -> generation (w_users w) + 1 < 2 ^ 64 ->
  exists w' v' a, wstep true w o = Some (w', a) /\ wstep false v o = Some (v', a) /\ simulates w' v' /\
    generation (w_users w') <= generation (w_users w) + 1.
Proof.
  intros S Ho Hg. destruct w as [st m t e], v as [st' m' t' e'].
  destruct S as [S1 S2 S3 S4 S5 S6 [S7 S8] S9]. cbn in *. subst st' m' t'.
  destruct o as [acls groups all|role|o|o|ch name ids ss|s|s ch]; cbn [wstep w_store w_users w_chans w_eval].
  - eexists _, _, _. split; [reflexivity|]. split; [reflexivity|]. cbn. split; [|lia].
    by split.
  - eexists _, _, _. split; [reflexivity|]. split; [reflexivity|]. cbn. split; [|lia].
    split; try done. by apply cache_valid_roles.
  - destruct (exec_wf m o S5 Ho Hg) as (W' & G' & _). rewrite <- user_exec_exec in W', G'.
    destruct (user_exec_kept m o S5 Ho Hg S7) as [L' K]. destruct (user_exec m o) as [m' ns]. cbn [fst snd] in *.
    eexists _, _, _. split; [reflexivity|]. split; [reflexivity|]. cbn. split; [|lia].
    split; try done; [by apply deliver_users_members|]. cbn. destruct K as [K|[-> K]].
    + rewrite deliver_users_cache by (left; exact K). apply cache_valid_empty.
    + cbn. eapply (cache_valid_users st m m'); eauto. lia.
  - destruct (chan_exec_kept t o S6 Ho S8) as (t' & ls & -> & W' & L' & K). cbn [mbind option_bind].
    eexists _, _, _. split; [reflexivity|]. split; [reflexivity|]. cbn. split; [|lia].
    split; try done; [by apply deliver_channels_members|]. cbn. destruct K as [K|[-> K]].
    + rewrite deliver_channels_cache by (left; exact K). apply cache_valid_empty.
    + cbn. by eapply cache_valid_tree.
  - destruct (ReplaceTemporaryMembers_cases m e e' t ch name ids ss S4) as [M K].
    eexists _, _, _. split; [reflexivity|]. split; [reflexivity|]. cbn. split; [|lia]. split; try done. cbn.
    destruct K as [->| ->]; [apply cache_valid_empty|done].
  - eexists _, _, _. split; [reflexivity|]. split; [reflexivity|]. cbn. split; [|lia]. split; try done.
    unfold same_members in *. cbn. by rewrite S4.
  - destruct (permissions_valid st m e t s ch S5 S9) as (P1 & P2 & P3).
    rewrite (permissions_spec st m e e' t s ch S4). destruct (permissions EqualFold st m e t s ch true) as [e1 p]. cbn [fst snd] in *.
    eexists _, _, _. split; [reflexivity|]. split; [by rewrite P1|]. cbn. split; [|lia]. split; try done; cbn.
    + unfold same_members in *. cbn in *. by rewrite S4, P2.
    + by rewrite P2.
Qed.

Lemma wrun_simulates ops : forall w v, simulates w v -> Forall wop_ok ops -> generation (w_users w) + zlen ops < 2 ^ 64 ->
  exists w' v' a, wrun true w ops = Some (w', a) /\ wrun false v ops = Some (v', a) /\ simulates w' v'.
Proof.
  induction ops as [|o ops IH]; intros w v S Hok Hb; [by eexists _, _, _|].
  apply Forall_cons_iff in Hok as [Ho Hok]. rewrite zlen_cons in Hb. pose proof (zlen_nonneg ops).
  destruct (wstep_simulates w v o S Ho ltac:(lia)) as (w1 & v1 & a & E1 & E2 & S1 & G1).
  destruct (IH w1 v1 S1 Hok ltac:(lia)) as (w2 & v2 & b & F1 & F2 & S2).
  cbn [wrun]. rewrite E1, E2. cbn [mbind option_bind]. rewrite F1, F2. cbn [mbind option_bind]. by eexists _, _, _.
Qed.

(** A server as it starts: the evaluator has registered with both managers. *)
Definition start (st : AclStore) (max : Z) (t : Channels.Manager DB) : World :=
  mkWorld st (UserManager.AddAuthorizationListener (NewManager max) self) (Channels.AddAuthorizationListener t self) NewEvaluator.

(** C2: the permission cache is invisible: whatever users, channels, tables, API
    roles and temporary groups do, in any order, every permission the cached
    evaluator answers is the one an evaluator without a cache computes from
    the state at that moment; every operation completes. *)
Theorem cache_refines_evaluation (st : AclStore) (max : Z) (t : Channels.Manager DB) (ops : list wop) :
  0 < max -> 4 * max < 2 ^ 32 -> Channels.chan_wf t -> Forall wop_ok ops -> zlen ops < 2 ^ 64 ->
  exists w v answers, wrun true (start st max t) ops = Some (w, answers) /\ wrun false (start st max t) ops = Some (v, answers) /\
    w_store v = w_store w /\ w_users v = w_users w /\ w_chans v = w_chans w /\ temporary (w_eval v) = temporary (w_eval w).
Proof.
  intros H0 H4 W Hok Hb. destruct (wrun_simulates ops (start st max t) (start st max t)) as (w & v & a & E1 & E2 & S); [|done|done|].
  - split; try done; cbn.
    + destruct (NewManager_wf max H0 H4). by split.
    + by eapply (Channels.cop_exec_wf t (Channels.OpListener self)) in W as (? & [= <-] & ?).
    + split; [by left|]. apply elem_of_app. right. by left.
  - eexists _, _, _. split; [exact E1|]. split; [exact E2|]. by destruct S.
Qed.
End World.
End AclCache.
