(* ===== verification/AclConc.v ===== *)
(** * Permission checks beside concurrent changes

    [Evaluator.permissions] ([internal/acl/evaluator.go]) runs without a lock:
    it notes the generation, reads users, channels, tables and temporary
    groups one after the other, and stores its result only when the
    generation is still the same. Here the evaluation is a program of single
    reads, each of which sees the data of its moment; goroutines take turns
    in any order with changes of the data and with the invalidations that
    follow them. *)

From Stdlib Require Import ZArith Lia String.
From stdpp Require Import base numbers list gmap sets option.
From S2P Require Import Prelude Wire Fields Registry UserManager Acl.

Module AclConc.
Import Acl.

(** ** Programs of reads *)

Inductive prog (D R : Type) : Type :=
  | Ret (r : R)
  | Read {A : Type} (f : D -> A) (k : A -> prog D R).
Arguments Ret {D R} r.
Arguments Read {D R A} f k.

Fixpoint pbind {D R S} (m : prog D R) (k : R -> prog D S) : prog D S :=
  match m with
  | Ret r => k r
  | Read f j => Read f (fun x => pbind (j x) k)
  end.
(** The program run while nothing changes, and the number of its reads. *)
Fixpoint run_prog {D R} (d : D) (m : prog D R) : R :=
  match m with Ret r => r | Read f k => run_prog d (k (f d)) end.
Fixpoint reads {D R} (d : D) (m : prog D R) : nat :=
  match m with Ret _ => 0 | Read f k => S (reads d (k (f d))) end.

Declare Scope prog_scope.
Delimit Scope prog_scope with prog.
Notation "x <- m ;; k" := (pbind m (fun x => k)) (at level 100, m at next level, right associativity) : prog_scope.
Notation "x <-? m ;; k" := (pbind m (fun r => match r with None => Ret None | Some x => k end))
  (at level 100, m at next level, right associativity) : prog_scope.
Definition ask {D A} (f : D -> A) : prog D A := Read f Ret.

Lemma run_bind {D R S} (d : D) (m : prog D R) (k : R -> prog D S) : run_prog d (pbind m k) = run_prog d (k (run_prog d m)).
Proof. induction m as [r|A f j IH]; [done|]. cbn. apply IH. Qed.

(** ** The evaluation, read by read *)

Section Conc.
Context (EqualFold : gostring -> gostring -> bool).
Context {T : Type} `{CT : ChannelTree T}.

Record data := mkData { d_store : AclStore; d_users : Manager; d_tmp : membersMap; d_tree : T }.
Notation P := (prog data).
Open Scope prog_scope.

Definition chainP (id : Z) : P (list Z) := ask (fun d => chain (d_tree d) id).

Definition matchSubP (name : gostring) (target context : Z) (u : option User.t) : P bool :=
  match u with
  | None => Ret false
  | Some u =>
      let '(v0, v1, v2) := sub_values name in
      path <- chainP target;;
      match index_of context (rev path) with
      | None => Ret false
      | Some index =>
          let required := Z.of_nat index + v0 in
          let required := if required <? 0 then 0 else required in
          if zlen (rev path) <=? required then Ret false else
          home <- chainP (User.ChannelID u);;
          if negb (bool_decide (nth (Z.to_nat required) (rev path) 0 ∈ home)) then Ret false else
          let depth := zlen home - 1 in
          Ret ((required + v1 <=? depth) && (depth <=? required + v2))
      end
  end.

Definition temporaryMatchP (key : groupKey) (id : Z) (u : option User.t) : P bool :=
  ask (fun d => temporaryMatch (d_tmp d) key id u).

Fixpoint group_stackP (name : gostring) (context : Z) (cids : list Z) : P (option (list ChannelGroup)) :=
  match cids with
  | [] => Ret (Some [])
  | cid :: cids =>
      rows <-? ask (fun d => groupRows (d_store d) cid name);;
      g <- match rows with
           | g :: _ => Ret (Some g)
           | [] => tmp <- ask (fun d => d_tmp d !! (cid, name));;
                   Ret (match tmp with Some _ => Some (mkGroup cid true true [] []) | None => None end)
           end;;
      match g with
      | None => group_stackP name context cids
      | Some g =>
          if negb (cid =? context) && negb (grp_Inheritable g) then Ret (Some []) else
          if negb (grp_Inherit g) then Ret (Some [g]) else
          rest <-? group_stackP name context cids;; Ret (Some (g :: rest))
      end
  end.

Definition group_applyP (id : Z) (name : gostring) (u : option User.t) (match_ : bool) (g : ChannelGroup) : P bool :=
  member <- (if negb (id =? 0) && bool_decide (id ∈ grp_AddUserIDs g) then Ret true
             else temporaryMatchP (u32 (grp_ChannelID g), name) id u);;
  let match_ := if member then true else match_ in
  Ret (if negb (id =? 0) && bool_decide (id ∈ grp_RemoveUserIDs g) then false else match_).
Fixpoint group_foldP (id : Z) (name : gostring) (u : option User.t) (stack : list ChannelGroup) (match_ : bool) : P bool :=
  match stack with
  | [] => Ret match_
  | g :: stack => match_ <- group_applyP id name u match_ g;; group_foldP id name u stack match_
  end.

Definition storedGroupP (id : Z) (name : gostring) (context : Z) (u : option User.t) : P (option bool) :=
  ch <- chainP context;;
  if negb (bool_decide (list.last ch = Some 0)) then Ret None else
  stack <-? group_stackP name context ch;;
  match_ <- group_foldP id name u (rev stack) false;; Ret (Some match_).

Definition apiAdminP (id : Z) : P (option bool) := ask (fun d => apiAdmin (d_store d) id).

Definition matchSelectorP (s : selector) (id target definition : Z) (u : option User.t) : P (option bool) :=
  let name := sel_name s in
  if bool_decide (name = []) then Ret (Some false) else
  let context := if sel_here s then definition else target in
  match_ <-?
    (if sel_token s then Ret (Some (userHasToken EqualFold u name))
     else if sel_cert s then Ret (Some (match u with Some u => bool_decide (User.CertHash u = name) | None => false end))
     else if bool_decide (name = str "none"%string) then Ret (Some false)
     else if bool_decide (name = str "all"%string) then Ret (Some true)
     else if bool_decide (name = str "auth"%string) then Ret (Some (0 <? id))
     else if bool_decide (name = str "strong"%string)
     then Ret (Some (match u with Some u => User.CertificateVerified u | None => false end))
     else if bool_decide (name = str "in"%string)
     then Ret (Some (match u with Some u => User.ChannelID u =? context | None => false end))
     else if bool_decide (name = str "out"%string)
     then Ret (Some (match u with Some u => negb (User.ChannelID u =? context) | None => true end))
     else if bool_decide (name = str "sub"%string) || bool_decide (is_Some (strip_prefix (str "sub,"%string) name))
     then (m <- matchSubP name target context u;; Ret (Some m))
     else if match u with
             | Some u => User.ExternalIdentity u && bool_decide (name ∈ User.ExternalGroups u)
             | None => false end
     then Ret (Some true)
     else if bool_decide (name = str "admin"%string) && IsAPIUserID id then apiAdminP id
     else storedGroupP id name context u);;
  Ret (Some (if sel_invert s then negb match_ else match_)).

Definition entryMatchesP (row : ChannelACL) (id target : Z) (u : option User.t) : P (option bool) :=
  match acl_UserID row with
  | Some uid =>
      let match_ := negb (id =? 0) && negb (uid =? -1) && (u32 uid =? id) in
      Ret (Some (if acl_Invert row then negb match_ else match_))
  | None =>
      let s := parseSelector (acl_GroupName row) in
      let s := if bool_decide (acl_AccessToken row = []) then s
               else mkSel (acl_AccessToken row) false false true false in
      let s := s <| sel_here := sel_here s || acl_EvalHere row |> <| sel_invert := sel_invert s || acl_Invert row |> in
      matchSelectorP s id target (u32 (acl_ChannelID row)) u
  end.

Fixpoint eval_rowsP (id cid target : Z) (u : option User.t) (rows : list ChannelACL) (a : acc) : P (option acc) :=
  match rows with
  | [] => Ret (Some a)
  | row :: rows =>
      match_ <-? entryMatchesP row id target u;;
      eval_rowsP id cid target u rows (if match_ : bool then apply_row cid target row a else a)
  end.

Fixpoint eval_chainP (id target def : Z) (u : option User.t) (cids : list Z) (a : acc) : P (option (option acc)) :=
  match cids with
  | [] => Ret (Some (Some a))
  | cid :: cids =>
      inherit <-? ask (fun d => inherits (d_tree d) cid);;
      let a := if negb inherit then mkAcc def (traverse a) (write a) else a in
      rows <-? ask (fun d => aclRows (d_store d) cid);;
      a <-? eval_rowsP id cid target u rows a;;
      if negb (traverse a) && negb (write a) then Ret (Some None)
      else eval_chainP id target def u cids a
  end.

Definition default_forP (id : Z) : P (option Z) :=
  if IsAPIUserID id then
    admin <-? apiAdminP id;;
    Ret (Some (if admin : bool then Z.lor DefaultPermissions PermissionWrite else DefaultPermissions))
  else Ret (Some DefaultPermissions).

Definition evaluateP (subject : Subject) (target : Z) (u : option User.t) : P (option Z) :=
  ch <- chainP target;;
  if negb (bool_decide (list.last ch = Some 0)) then Ret None else
  def <-? default_forP (sub_UserID subject);;
  r <-? eval_chainP (sub_UserID subject) target def u (rev ch) (mkAcc def true (has def PermissionWrite));;
  Ret (Some (match r with None => 0 | Some a => finish target (granted a) end)).

(** ** Without interference, the program is [evaluate] *)

Section Quiet.
Context (d : data).
Notation run := (run_prog d).

Lemma run_obind {R S} (m : P (option R)) (k : R -> P (option S)) :
  run (r <-? m;; k r) = (r ← run m; run (k r)).
Proof. rewrite run_bind. by destruct (run m). Qed.

Lemma matchSubP_run name target context u : run (matchSubP name target context u) = matchSub (d_tree d) name target context u.
Proof.
  unfold matchSubP, matchSub. destruct u as [u|]; [|done]. destruct (sub_values name) as [[v0 v1] v2]. rewrite run_bind. cbn [chainP ask run_prog].
  destruct (index_of _ _); [|done]. destruct (zlen _ <=? _); [done|]. rewrite run_bind. cbn [chainP ask run_prog].
  by destruct (negb _).
Qed.
Lemma group_stackP_run name context cids :
  run (group_stackP name context cids) = group_stack (d_store d) (d_tmp d) name context cids.
Proof.
  induction cids as [|cid cids IH]; [done|]. cbn [group_stackP group_stack]. rewrite run_obind. cbn [ask run_prog].
  destruct (groupRows _ cid name) as [rows|]; [|done]. cbn [mbind option_bind]. rewrite run_bind.
  assert (forall g, run match g with
      | Some g => if negb (cid =? context) && negb (grp_Inheritable g) then Ret (Some []) else
          if negb (grp_Inherit g) then Ret (Some [g]) else rest <-? group_stackP name context cids;; Ret (Some (g :: rest))
      | None => group_stackP name context cids end =
    match g with
      | None => group_stack (d_store d) (d_tmp d) name context cids
      | Some g => if negb (cid =? context) && negb (grp_Inheritable g) then Some [] else
          if negb (grp_Inherit g) then Some [g] else rest ← group_stack (d_store d) (d_tmp d) name context cids; Some (g :: rest)
      end) as H.
  { intros [g|]; [|done]. destruct (_ && _); [done|]. destruct (negb _); [done|]. rewrite run_obind, IH. done. }
  rewrite H. destruct rows as [|g rows]; [|done]. rewrite run_bind. cbn [ask run_prog]. done.
Qed.
Lemma group_foldP_run id name u stack : forall m,
  run (group_foldP id name u stack m) = fold_left (group_apply (d_tmp d) id name u) stack m.
Proof.
  induction stack as [|g stack IH]; intros m; [done|]. cbn [group_foldP fold_left]. rewrite run_bind, IH. f_equal.
  unfold group_applyP, group_apply. rewrite run_bind. by destruct (negb (id =? 0) && bool_decide (id ∈ grp_AddUserIDs g)).
Qed.
Lemma storedGroupP_run id name context u :
  run (storedGroupP id name context u) = storedGroup (d_store d) (d_tmp d) (d_tree d) id name context u.
Proof.
  unfold storedGroupP, storedGroup. rewrite run_bind. cbn [chainP ask run_prog]. destruct (negb _); [done|].
  rewrite run_obind, group_stackP_run. destruct (group_stack _ _ _ _ _) as [stack|]; [|done]. cbn [mbind option_bind].
  by rewrite run_bind, group_foldP_run.
Qed.
Lemma matchSelectorP_run s id target definition u :
  run (matchSelectorP s id target definition u) = matchSelector EqualFold (d_store d) (d_tmp d) (d_tree d) s id target definition u.
Proof.
  unfold matchSelectorP, matchSelector. destruct (bool_decide (sel_name s = [])); [done|]. rewrite run_obind.
  match goal with |- mbind _ ?a = mbind _ ?b => assert (a = b) as -> end.
  { repeat match goal with |- run (if ?b then _ else _) = _ => destruct b; [try done|] end.
    - by rewrite run_bind, matchSubP_run.
    - apply storedGroupP_run. }
  done.
Qed.
Lemma eval_rowsP_run id cid target u rows : forall a,
  run (eval_rowsP id cid target u rows a) = eval_rows EqualFold (d_store d) (d_tmp d) (d_tree d) id cid target u rows a.
Proof.
  induction rows as [|row rows IH]; intros a; [done|]. cbn [eval_rowsP eval_rows]. rewrite run_obind.
  replace (run (entryMatchesP row id target u)) with (entryMatches EqualFold (d_store d) (d_tmp d) (d_tree d) row id target u).
  - destruct (entryMatches _ _ _ _ _ _ _ _); [|done]. apply IH.
  - unfold entryMatches, entryMatchesP. destruct (acl_UserID row); [done|]. by rewrite matchSelectorP_run.
Qed.
Lemma eval_chainP_run id target def u cids : forall a,
  run (eval_chainP id target def u cids a) = eval_chain EqualFold (d_store d) (d_tmp d) (d_tree d) id target def u cids a.
Proof.
  induction cids as [|cid cids IH]; intros a; [done|]. cbn [eval_chainP eval_chain]. rewrite run_obind. cbn [ask run_prog].
  destruct (inherits _ cid) as [i|]; [|done]. cbn [mbind option_bind]. rewrite run_obind. cbn [ask run_prog].
  destruct (aclRows _ cid) as [rows|]; [|done]. cbn [mbind option_bind]. rewrite run_obind, eval_rowsP_run.
  replace (if negb i then mkAcc def (traverse a) (write a) else a) with (if negb i then a <| granted := def |> else a)
    by by destruct i.
  destruct (eval_rows _ _ _ _ _ _ _ _ _ _) as [a'|]; [|done]. cbn [mbind option_bind]. destruct (_ && _); [done|]. apply IH.
Qed.
Lemma evaluateP_run subject target u :
  run (evaluateP subject target u) = evaluate EqualFold (d_store d) (d_tmp d) (d_tree d) subject target u.
Proof.
  unfold evaluateP, evaluate. rewrite run_bind. cbn [chainP ask run_prog]. destruct (negb _); [done|]. rewrite run_obind.
  assert (run (default_forP (sub_UserID subject)) = default_for (d_store d) (sub_UserID subject)) as ->.
  { unfold default_forP, default_for. destruct (IsAPIUserID _); [|done]. rewrite run_obind. cbn [apiAdminP ask run_prog].
    by destruct (apiAdmin _ _). }
  destruct (default_for _ _) as [def|]; [|done]. cbn [mbind option_bind]. by rewrite run_obind, eval_chainP_run.
Qed.
End Quiet.

(** ** Goroutines *)

Record call := mkCall { c_subject : Subject; c_channel : Z; c_cached : bool }.

(** Where a call of [permissions] stands: before the generation is read; about
    to resolve the user; about to look into the cache; evaluating, or about to
    take the lock with the result; returned. *)
Inductive phase :=
  | PStart
  | PResolve (g : Z)
  | PLookup (g : Z) (u : option User.t) (k : cacheKey)
  | PEval (g : Z) (k : cacheKey) (m : P (option Z))
  | PDone (p : Z).

(** [s_pending] counts the changes whose invalidation is still to come. *)
Record cstate := mkState {
  s_data : data;
  s_gen : Z;
  s_cache : gmap cacheKey Z;
  s_pending : nat;
  s_threads : gmap nat (call * phase) }.

Definition superPermissions : Z := Z.ldiff PermissionAll (Z.lor PermissionSpeak PermissionWhisper).
Definition is_super (u : option User.t) : bool := match u with Some u => User.IsSuperUser u | None => false end.

(** One step of a call: what becomes of the cache, and where the call goes. *)
Definition tstep (d : data) (gen : Z) (cache : gmap cacheKey Z) (c : call) (ph : phase) : gmap cacheKey Z * phase :=
  match ph with
  | PStart => (cache, PResolve gen)
  | PResolve g =>
      match resolveUser (d_users d) (c_subject c) with
      | None => (cache, PDone 0)
      | Some u =>
          if is_super u then (cache, PDone superPermissions) else
          let k := key_of (c_subject c) u (c_channel c) in
          if c_cached c then (cache, PLookup g u k)
          else (cache, PEval g k (evaluateP (c_subject c) (c_channel c) u))
      end
  | PLookup g u k =>
      if negb (g =? gen) then (cache, PStart) else
      match cache !! k with
      | Some p => (cache, PDone p)
      | None => (cache, PEval g k (evaluateP (c_subject c) (c_channel c) u))
      end
  | PEval g k (Read f m) => (cache, PEval g k (m (f d)))
  | PEval g k (Ret None) => (cache, PDone 0)
  | PEval g k (Ret (Some p)) =>
      if negb (g =? gen) then (cache, PStart)
      else (if c_cached c then <[k := p]> cache else cache, PDone p)
  | PDone p => (cache, PDone p)
  end.

(** A call begins; a call takes a step; users, channels or tables change; the
    invalidation that follows such a change runs, with its change of the
    temporary groups; [ReplaceTemporaryMembers] takes effect. *)
Inductive event :=
  | ECall (i : nat) (subject : Subject) (channelID : Z) (cached : bool)
  | EThread (i : nat)
  | EChange (st : AclStore) (users : Manager) (tree : T)
  | EInvalidate (tmp : membersMap)
  | EReplace (tmp : membersMap).

Definition invalidate (s : cstate) (tmp : membersMap) (pending : nat) : cstate :=
  let d := s_data s in
  mkState (mkData (d_store d) (d_users d) tmp (d_tree d)) (u64 (s_gen s + 1)) ∅ pending (s_threads s).
Definition estep (s : cstate) (e : event) : cstate :=
  match e with
  | ECall i subject ch cached =>
      mkState (s_data s) (s_gen s) (s_cache s) (s_pending s)
        (<[i := (mkCall subject ch (cached && negb (IsAPIUserID (sub_UserID subject))), PStart)]> (s_threads s))
  | EThread i =>
      match s_threads s !! i with
      | None => s
      | Some (c, ph) =>
          let '(cache, ph) := tstep (s_data s) (s_gen s) (s_cache s) c ph in
          mkState (s_data s) (s_gen s) cache (s_pending s) (<[i := (c, ph)]> (s_threads s))
      end
  | EChange st users tree =>
      mkState (mkData st users (d_tmp (s_data s)) tree) (s_gen s) (s_cache s) (S (s_pending s)) (s_threads s)
  | EInvalidate tmp => invalidate s tmp (pred (s_pending s))
  | EReplace tmp => invalidate s tmp (s_pending s)
  end.
Definition erun (s : cstate) (es : list event) : cstate := fold_left estep es s.

Definition event_ok (e : event) : Prop := match e with EChange _ users _ => mgr_wf users | _ => True end.
Definition init (d : data) : cstate := mkState d 0 ∅ 0 ∅.

(** What the call should answer: an evaluation, without a cache. *)
Definition answer (d : data) (c : call) : Z :=
  (permissions EqualFold (d_store d) (d_users d) (mkEvaluator ∅ 0 (d_tmp d)) (d_tree d) (c_subject c) (c_channel c) false).2.
Definition eval_now (d : data) (c : call) (u : option User.t) : option Z :=
  evaluate EqualFold (d_store d) (d_tmp d) (d_tree d) (c_subject c) (c_channel c) u.

Lemma answer_unfold d c : answer d c =
  match resolveUser (d_users d) (c_subject c) with
  | None => 0
  | Some u => if is_super u then superPermissions else default 0 (eval_now d c u)
  end.
Proof.
  unfold answer, permissions, eval_now, is_super. destruct (resolveUser _ _) as [u|]; [|done].
  destruct (match u with Some u => User.IsSuperUser u | None => false end); [done|]. cbn [andb temporary].
  by destruct (evaluate _ _ _ _ _ _ _).
Qed.

(** ** What holds whenever no invalidation is outstanding *)

Definition resolved (d : data) (c : call) (u : option User.t) (k : cacheKey) : Prop :=
  resolveUser (d_users d) (c_subject c) = Some u /\ is_super u = false /\ k = key_of (c_subject c) u (c_channel c).
(** The entry is the answer to every call with this key. *)
Definition right (d : data) (k : cacheKey) (p : Z) : Prop := forall c u, resolved d c u k -> eval_now d c u = Some p.

Lemma resolveUser_cases m s u : mgr_wf m -> resolveUser m s = Some u ->
  match u with
  | None => sub_SessionID s = 0
  | Some u => Snapshot m (User.SessionID u) = Some u /\ User.SessionID u <> 0 /\ User.UserID u = sub_UserID s
  end.
Proof.
  intros W. unfold resolveUser. destruct (Z.eqb_spec (sub_SessionID s) 0) as [E|E]; [by intros [= <-]|].
  destruct (Snapshot m _) as [v|] eqn:Ev; [|done]. destruct (_ && _) eqn:Ec; [|done]. intros [= <-].
  apply andb_true_iff in Ec as [Eid%Z.eqb_eq _]. apply Snapshot_Some in Ev as (l & Ev). pose proof Ev as [Hb Hr]%user_at_Some.
  destruct (mw_session m W _ l Hb) as (v' & Hv' & Hsid & _). assert (v' = v) as -> by congruence. rewrite Hsid.
  split; [apply Snapshot_Some; eauto|done].
Qed.
Lemma resolved_same d c c' u u' k : mgr_wf (d_users d) -> resolved d c u k -> resolved d c' u' k -> eval_now d c u = eval_now d c' u'.
Proof.
  intros W (H1 & _ & ->) (H2 & _ & E). pose proof (resolveUser_cases _ _ _ W H1) as R1. pose proof (resolveUser_cases _ _ _ W H2) as R2.
  unfold eval_now. destruct u as [u|], u' as [u'|]; cbn in E.
  - injection E as E1 E2 E3 E4 E5. destruct R1 as (A1 & A2 & A3), R2 as (B1 & B2 & B3).
    assert (u = u') as -> by congruence. rewrite E4. apply evaluate_subject. congruence.
  - injection E as E1 E2 E3. destruct R1 as (A1 & A2 & A3), c' as [s' ch' b']. cbn in *. subst s'. cbn in *. congruence.
  - injection E as E1 E2 E3. destruct R2 as (A1 & A2 & A3), c as [s' ch' b']. cbn in *. subst s'. cbn in *. congruence.
  - injection E as E1 E2. rewrite E1, E2. done.
Qed.

(** A call that noted the current generation has read nothing old. *)
Definition phase_ok (d : data) (gen : Z) (c : call) (ph : phase) : Prop :=
  match ph with
  | PLookup g u k => g = gen -> resolved d c u k
  | PEval g k m => g = gen -> exists u, resolved d c u k /\ run_prog d m = eval_now d c u
  | _ => True
  end.
Definition noted (ph : phase) : Z :=
  match ph with PResolve g | PLookup g _ _ | PEval g _ _ => g | _ => 0 end.

Record conc_ok (n : Z) (s : cstate) : Prop := {
  co_gen : 0 <= s_gen s <= n;
  co_users : mgr_wf (d_users (s_data s));
  co_noted : forall i c ph, s_threads s !! i = Some (c, ph) -> noted ph <= s_gen s;
  co_cache : s_pending s = 0%nat -> forall k p, s_cache s !! k = Some p -> right (s_data s) k p;
  co_phase : s_pending s = 0%nat -> forall i c ph, s_threads s !! i = Some (c, ph) -> phase_ok (s_data s) (s_gen s) c ph }.

Lemma tstep_ok d gen cache c ph : mgr_wf (d_users d) -> noted ph <= gen -> 0 <= gen ->
  let '(cache', ph') := tstep d gen cache c ph in
  noted ph' <= gen /\
  ((forall k p, cache !! k = Some p -> right d k p) -> phase_ok d gen c ph ->
   (forall k p, cache' !! k = Some p -> right d k p) /\ phase_ok d gen c ph').
Proof.
  intros W Hn H0. destruct ph as [|g|g u k|g k m|p]; cbn [tstep noted] in *.
  - split; [done|]. by intros.
  - destruct (resolveUser _ _) as [u|] eqn:Eu; [|by split; [cbn; lia|]]. destruct (is_super u) eqn:Es; [by split; [cbn; lia|]|].
    destruct (c_cached c); (split; [done|]); intros Hc _; (split; [done|]); cbn; intros ->; [done|].
    exists u. split; [done|]. apply evaluateP_run.
  - destruct (Z.eqb_spec g gen) as [->|Hg]; cbn [negb]; [|by split; [cbn; lia|]].
    destruct (cache !! k); (split; [cbn; lia|]); intros Hc Hp; (split; [done|]); [done|]. cbn in *. intros _.
    exists u. split; [by apply Hp|]. apply evaluateP_run.
  - destruct m as [[p|]|A f m]; [|by split; [cbn; lia|]|by split; [cbn; lia|]].
    destruct (Z.eqb_spec g gen) as [->|Hg]; cbn [negb]; [|by split; [cbn; lia|]]. split; [cbn; lia|]. intros Hc Hp. split; [|done].
    destruct (Hp eq_refl) as (u & Hr & Hv). destruct (c_cached c); [|done]. intros k' p'.
    destruct (decide (k' = k)) as [->|Hne]; [rewrite lookup_insert_eq; intros [= <-]|rewrite lookup_insert_ne by done; apply Hc].
    intros c' u' Hr'. by rewrite (resolved_same d c' c u' u k W Hr' Hr).
  - by split.
Qed.

Lemma invalidate_ok n s tmp pending : conc_ok n s -> n + 1 < 2 ^ 64 -> conc_ok (n + 1) (invalidate s tmp pending).
Proof.
  intros [G U N C F] Hn. unfold invalidate. rewrite u64_id by zlia. split; cbn; [lia|done| | |].
  - intros i c ph Hi. specialize (N i c ph Hi). lia.
  - intros _ k p. by rewrite lookup_empty.
  - intros _ i c ph Hi. specialize (N i c ph Hi). destruct ph; cbn in *; try done; lia.
Qed.
Lemma estep_ok n s e : conc_ok n s -> event_ok e -> n + 1 < 2 ^ 64 -> conc_ok (n + 1) (estep s e).
Proof.
  intros I He Hn. pose proof I as [G U N C F]. destruct e as [i subject ch cached|i|st users tree|tmp|tmp]; cbn [estep].
  - split; cbn; [lia|done| |done|].
    + intros j c ph Hj. destruct (decide (j = i)) as [->|Hne]; simplify_map_eq; [cbn; lia|by eapply N].
    + intros Hp j c ph Hj. destruct (decide (j = i)) as [->|Hne]; simplify_map_eq; [done|by eapply F].
  - destruct (s_threads s !! i) as [[c ph]|] eqn:Ei; [|split; try done; lia].
    pose proof (tstep_ok (s_data s) (s_gen s) (s_cache s) c ph U (N _ _ _ Ei) ltac:(lia)) as H.
    destruct (tstep _ _ _ _ _) as [cache' ph']. destruct H as [H1 H2]. split; cbn; [lia|done| | |].
    + intros j c' ph'' Hj. destruct (decide (j = i)) as [->|Hne]; simplify_map_eq; [done|]. by eapply N.
    + intros Hp. apply H2; eauto.
    + intros Hp j c' ph'' Hj. destruct (decide (j = i)) as [->|Hne]; simplify_map_eq; [|by eapply F].
      apply H2; eauto.
  - by split; cbn; [lia| | | |].
  - by apply invalidate_ok.
  - by apply invalidate_ok.
Qed.
Lemma erun_ok es : forall n s, conc_ok n s -> Forall event_ok es -> n + zlen es < 2 ^ 64 -> conc_ok (n + zlen es) (erun s es).
Proof.
  induction es as [|e es IH]; intros n s I Hok Hn; [by rewrite zlen_nil, Z.add_0_r|].
  apply Forall_cons_iff in Hok as [He Hok]. rewrite zlen_cons in *. pose proof (zlen_nonneg es).
  replace (n + (1 + zlen es)) with (n + 1 + zlen es) by lia. apply IH; [apply estep_ok; [done|done|lia]|done|lia].
Qed.
Lemma init_ok d : mgr_wf (d_users d) -> conc_ok 0 (init d).
Proof. intros W. split; cbn; [lia|done| | |]; intros; simplify_map_eq. Qed.

(** No stale permission is kept: whatever the order in which goroutines
    check permissions, read by read, while users, channels, tables and
    temporary groups change and the invalidations arrive, as soon as every
    change has been followed by its invalidation each entry of the cache is
    what an evaluation gives now. *)
Theorem no_stale_entry (d : data) (es : list event) (c : call) (u : option User.t) (p : Z) :
  mgr_wf (d_users d) -> Forall event_ok es -> zlen es < 2 ^ 64 ->
  let s := erun (init d) es in
  s_pending s = 0%nat -> resolveUser (d_users (s_data s)) (c_subject c) = Some u -> is_super u = false ->
  s_cache s !! key_of (c_subject c) u (c_channel c) = Some p -> p = answer (s_data s) c.
Proof.
  intros W Hok Hb. cbn zeta. intros Hp Hu Hs Hk. pose proof (erun_ok es 0 (init d) (init_ok d W) Hok ltac:(lia)) as I.
  pose proof (co_cache _ _ I Hp _ _ Hk c u) as H. rewrite answer_unfold, Hu, Hs, H; done.
Qed.

(** ** Every check ends *)

(** A call on its way to the right answer; when not [exact], it may still be
    evaluating from a mixture of old and new, and then the worst it can do is
    to deny. *)
Definition tracked (d : data) (gen : Z) (c : call) (exact : bool) (ph : phase) : Prop :=
  match ph with
  | PStart | PResolve _ => True
  | PLookup g u k => g = gen -> resolved d c u k
  | PEval g k m => (exists u, resolved d c u k /\ run_prog d m = eval_now d c u) \/ (exact = false /\ g <> gen)
  | PDone p => p = answer d c \/ (exact = false /\ p = 0)
  end.

Lemma resolved_answer d c u k : resolved d c u k -> answer d c = default 0 (eval_now d c u).
Proof. intros (H1 & H2 & _). by rewrite answer_unfold, H1, H2. Qed.

Lemma tstep_tracked d gen cache c exact ph :
  (forall k p, cache !! k = Some p -> right d k p) -> tracked d gen c exact ph -> tracked d gen c exact (tstep d gen cache c ph).2.
Proof.
  intros Hc Ht. destruct ph as [|g|g u k|g k m|p]; cbn [tstep tracked] in *; [done| | | |done].
  - destruct (resolveUser _ _) as [u|] eqn:Eu; [|left; by rewrite answer_unfold, Eu].
    destruct (is_super u) eqn:Es; [left; by rewrite answer_unfold, Eu, Es|].
    destruct (c_cached c); cbn; [done|]. left. exists u. split; [done|]. apply evaluateP_run.
  - destruct (Z.eqb_spec g gen) as [->|Hg]; cbn [negb]; [|done]. specialize (Ht eq_refl).
    destruct (cache !! k) as [p|] eqn:Ek; cbn.
    + left. by rewrite (resolved_answer d c u k Ht), (Hc k p Ek c u Ht).
    + left. exists u. split; [done|]. apply evaluateP_run.
  - destruct m as [[p|]|A f m]; cbn [snd] in *.
    + destruct (Z.eqb_spec g gen) as [->|Hg]; cbn [negb snd]; [|done]. destruct Ht as [(u & Hr & Hv)|[_ Hg]]; [|done].
      left. rewrite (resolved_answer d c u k Hr), <- Hv. done.
    + destruct Ht as [(u & Hr & Hv)|[He _]]; [|by right]. left. by rewrite (resolved_answer d c u k Hr), <- Hv.
    + exact Ht.
Qed.

(** How many steps a call needs at most, once nothing changes any more. *)
Definition fresh_reads (d : data) (c : call) : nat :=
  match resolveUser (d_users d) (c_subject c) with
  | Some u => reads d (evaluateP (c_subject c) (c_channel c) u)
  | None => 0
  end.
Definition steps_left (d : data) (gen : Z) (c : call) (ph : phase) : nat :=
  let again g := if g =? gen then 0%nat else (4 + fresh_reads d c)%nat in
  match ph with
  | PStart => 4 + fresh_reads d c
  | PResolve g => 3 + fresh_reads d c + again g
  | PLookup g u k => if g =? gen then 2 + reads d (evaluateP (c_subject c) (c_channel c) u) else 1 + again g
  | PEval g k m => 1 + reads d m + again g
  | PDone _ => 0
  end.

Lemma tstep_progress d gen cache c ph :
  steps_left d gen c ph = 0%nat \/ (steps_left d gen c (tstep d gen cache c ph).2 < steps_left d gen c ph)%nat.
Proof.
  destruct ph as [|g|g u k|g k m|p]; cbn [tstep]; [right|right|right|right|by left].
  - cbn. rewrite Z.eqb_refl. lia.
  - destruct (resolveUser _ _) as [u|] eqn:Eu; [|cbn; lia]. destruct (is_super u); [cbn; lia|].
    assert (fresh_reads d c = reads d (evaluateP (c_subject c) (c_channel c) u)) by (unfold fresh_reads; by rewrite Eu).
    destruct (c_cached c); cbn [steps_left snd]; destruct (g =? gen); lia.
  - destruct (Z.eqb_spec g gen) as [->|Hg]; cbn [negb].
    + destruct (cache !! k); cbn [steps_left snd]; rewrite Z.eqb_refl; lia.
    + cbn. destruct (Z.eqb_spec g gen); [done|]. lia.
  - destruct m as [[p|]|A f m]; cbn; [|lia|lia]. destruct (Z.eqb_spec g gen) as [->|Hg]; cbn; lia.
Qed.
Lemma steps_left_done d gen c ph : steps_left d gen c ph = 0%nat -> exists p, ph = PDone p.
Proof. destruct ph as [|g|g u k|g k m|p]; cbn; try lia; [destruct (g =? gen); lia|eauto]. Qed.

Lemma schedule_settles sched : forall n s i c exact ph, conc_ok n s -> n + zlen sched < 2 ^ 64 -> s_pending s = 0%nat ->
  s_threads s !! i = Some (c, ph) -> tracked (s_data s) (s_gen s) c exact ph ->
  (steps_left (s_data s) (s_gen s) c ph <= count_occ Nat.eq_dec sched i)%nat ->
  exists p, s_threads (erun s (map EThread sched)) !! i = Some (c, PDone p) /\
    tracked (s_data s) (s_gen s) c exact (PDone p).
Proof.
  induction sched as [|j sched IH]; intros n s i c exact ph I Hn Hp Hi Ht Hs.
  { cbn [count_occ] in Hs. apply Nat.le_0_r, steps_left_done in Hs as (p & ->). by exists p. }
  rewrite zlen_cons in Hn. pose proof (zlen_nonneg sched). cbn [map erun fold_left].
  pose proof (estep_ok n s (EThread j) I ltac:(done) ltac:(lia)) as I'.
  change (fold_left estep (map EThread sched) (estep s (EThread j))) with (erun (estep s (EThread j)) (map EThread sched)).
  assert (s_data (estep s (EThread j)) = s_data s /\ s_gen (estep s (EThread j)) = s_gen s /\ s_pending (estep s (EThread j)) = s_pending s)
    as (Ed & Eg & Ep). { cbn. destruct (s_threads s !! j) as [[c' ph']|]; [|done]. by destruct (tstep _ _ _ _ _). }
  rewrite <- Ed, <- Eg in *. destruct (decide (j = i)) as [->|Hne].
  - rewrite count_occ_cons_eq in Hs by done.
    pose proof (tstep_tracked (s_data s) (s_gen s) (s_cache s) c exact ph (co_cache _ _ I Hp)) as T1.
    pose proof (tstep_progress (s_data s) (s_gen s) (s_cache s) c ph) as M1.
    eapply (IH (n + 1) _ i c exact (tstep (s_data s) (s_gen s) (s_cache s) c ph).2 I'); [lia|congruence| |rewrite Ed, Eg in *; by apply T1|].
    + cbn. rewrite Hi. destruct (tstep _ _ _ _ _). cbn. by rewrite lookup_insert_eq.
    + rewrite Ed, Eg in *. destruct M1 as [M1|M1]; [|lia]. destruct (steps_left_done _ _ _ _ M1) as (p & ->). cbn. lia.
  - rewrite count_occ_cons_neq in Hs by done. eapply (IH (n + 1) _ i c exact ph I'); [lia|congruence| |done|done].
    cbn. destruct (s_threads s !! j) as [[c' ph']|]; [|done]. destruct (tstep _ _ _ _ _). cbn. by rewrite lookup_insert_ne.
Qed.

(** C37: permission checks come to an end and tell the truth: once no change is
    without its invalidation, a call that is still running returns after
    finitely many steps of its own ([steps_left], computed from the reads its
    evaluation makes), whatever the other goroutines do in between; it returns
    what an evaluation gives now, and a call that had begun before may at
    worst be denied; a call begun after the last invalidation is exact. *)
Theorem permission_checks_settle (d : data) (es : list event) (sched : list nat) (i : nat) (c : call) (ph : phase) :
  mgr_wf (d_users d) -> Forall event_ok es -> zlen es + zlen sched < 2 ^ 64 ->
  let s := erun (init d) es in
  s_pending s = 0%nat -> s_threads s !! i = Some (c, ph) -> (forall p, ph <> PDone p) ->
  (steps_left (s_data s) (s_gen s) c ph <= count_occ Nat.eq_dec sched i)%nat ->
  exists p, s_threads (erun s (map EThread sched)) !! i = Some (c, PDone p) /\
    (p = answer (s_data s) c \/ (p = 0 /\ ph <> PStart)).
Proof.
  intros W Hok Hb. cbn zeta. intros Hp Hi Hnd Hs. pose proof (zlen_nonneg sched).
  pose proof (erun_ok es 0 (init d) (init_ok d W) Hok ltac:(lia)) as I.
  set (exact := match ph with PStart => true | _ => false end).
  destruct (schedule_settles sched (0 + zlen es) (erun (init d) es) i c exact ph I ltac:(lia) Hp Hi) as (p & E & Ht); [|done|].
  - pose proof (co_phase _ _ I Hp i c ph Hi) as F. destruct ph as [|g|g u k|g k m|p]; cbn in *; try done; [|by specialize (Hnd p)].
    destruct (decide (g = s_gen (erun (init d) es))) as [Eg|]; [left; by apply F|by right].
  - exists p. split; [done|]. destruct Ht as [->|[He ->]]; [by left|right]. split; [done|]. by intros ->.
Qed.
End Conc.
End AclConc.
