(* ===== verification/AclSample.v ===== *)
(** * A small server for access control

    A tree with a channel that does not inherit, two users, the default
    tables, and the theorems of [Acl], [AclCache] and [AclConc] applied to
    them. *)

From Stdlib Require Import ZArith Lia String.
From stdpp Require Import base numbers list gmap sets option.
From S2P Require Import Prelude Wire Fields Registry UserManager ChannelManager ChannelTable Acl AclCache AclConc.

Module AclSample.
Import Channels ChannelTable Acl AclCache AclConc.

(** Equality of ASCII strings up to case. *)
Definition lower (c : Z) : Z := if (65 <=? c) && (c <=? 90) then c + 32 else c.
Definition fold_ascii (a b : gostring) : bool := bool_decide (map lower a = map lower b).

Definition rows2 : list Row :=
  [mkRow 0 None (str "Root") [] 0 0 false true []; mkRow 2 (Some 0) (str "Lobby") [] 0 0 false true [];
   mkRow 5 (Some 2) (str "Staff") [] 0 0 false false []].
Definition table2 : table := mkTable rows2 {[0; 2; 5]} 6.
Definition depth2 (id : Z) : nat := if id =? 0 then 0 else if id =? 2 then 1 else 2.
Definition server2 : Channels.Manager table := NewManager ident ident table2.

Lemma rows2_ok : rows_ok rows2 depth2.
Proof.
  split.
  - by apply (bool_decide_unpack _); vm_compute.
  - intros r Hr. repeat (apply elem_of_cons in Hr as [->|Hr]; [cbn; lia|]). by apply elem_of_nil in Hr.
  - by left.
  - intros r Hr H0. apply elem_of_cons in Hr as [->|Hr]; [done|]. apply elem_of_cons in Hr as [->|Hr].
    { exists 0. split; [done|]. split; [by left|]. vm_compute. lia. }
    apply list_elem_of_singleton in Hr as ->. exists 2. split; [done|]. split; [right; by left|]. vm_compute. lia.
Qed.
Lemma server2_wf : chan_wf server2.
Proof.
  destruct (load_wf (CS := table_store) ident ident (mkManager table2 ∅ ∅ 0%nat []) rows2 table2 rows2 depth2
    ident_ok ident_ok ltac:(reflexivity) ltac:(vm_compute; reflexivity) rows2_ok) as [W _].
  - intros r Hr. repeat (apply elem_of_cons in Hr as [->|Hr]; [vm_compute; reflexivity|]). by apply elem_of_nil in Hr.
  - done.
  - intros l [n Hn]. cbn in Hn. by rewrite lookup_empty in Hn.
  - exact W.
Qed.

(** Two users: one registered, one not; the second channel's rows deny Enter
    to everybody but the account 7. *)
Definition user (name uid ch : Z) : User.t :=
  User.zero <| User.Name := [name] |> <| User.UserID := uid |> <| User.ChannelID := ch |>.
Definition joins : list mop := [OpAdd (user 65 7 0); OpAdd (user 66 0 2)].
Definition staff_rows : list ChannelACL :=
  [mkACL 5 true true None (str "all") [] false false 0 PermissionEnter;
   mkACL 5 true true (Some 7) [] [] false false PermissionEnter 0].
Definition store2 : AclStore :=
  mkStore (fun cid => Some (if cid =? 0 then default_acls else if cid =? 5 then staff_rows else []))
    (fun _ _ => Some []) (fun _ => Some None) (Some (default_acls ++ staff_rows)).

Lemma evaluate_shape_witness :
  let p := default 0 (evaluate fold_ascii store2 ∅ server2 (SubjectForUserID 7) 5 None) in
  within p PermissionAll /\ (5 <> 0 -> Z.land p rootPermissions = 0) /\
  (has p PermissionWrite = true -> Z.land p writePermissions = writePermissions /\
     (5 = 0 -> Z.land p rootPermissions = rootPermissions)).
Proof.
  intros p. apply (evaluate_shape fold_ascii store2 ∅ server2 (SubjectForUserID 7) 5 None p). vm_compute. reflexivity.
Defined.

Lemma no_inherit_own_rows_witness :
  let p := default 0 (evaluate fold_ascii store2 ∅ server2 (SubjectForUserID 7) 5 None) in
  exists def a, default_for store2 7 = Some def /\
    eval_rows fold_ascii store2 ∅ server2 7 5 5 None staff_rows (mkAcc def true false) = Some a /\
    p = finish 5 (granted a).
Proof.
  intros p. apply (no_inherit_own_rows fold_ascii store2 ∅ server2 (SubjectForUserID 7) 5 None p staff_rows).
  - apply manager_tree_laws, server2_wf.
  - vm_compute. reflexivity.
  - reflexivity.
  - vm_compute. reflexivity.
  - vm_compute. discriminate.
Defined.

Lemma default_policy_witness :
  evaluate fold_ascii (default_store [7] [] (fun _ => Some None)) ∅ server2 (SubjectForUserID 7) 2 None =
    Some (finish 2 (default_grant [7] [] 7 2 None)).
Proof.
  apply (default_policy fold_ascii [7] [] (fun _ => Some None) ∅ server2 (SubjectForUserID 7) 2 None);
    [apply manager_tree_laws, server2_wf|vm_compute; eauto| |reflexivity|reflexivity].
  intros c Hc. vm_compute in Hc. apply elem_of_cons in Hc as [->|Hc]; [vm_compute; reflexivity|].
  apply list_elem_of_singleton in Hc as ->. vm_compute. reflexivity.
Defined.

Lemma api_user_id_roundtrip_witness :
  IsAPIUserID (MakeAPIUserID 5) = true /\ is_u32 (MakeAPIUserID 5) /\ APIUserIDToDBID (MakeAPIUserID 5) = 5.
Proof. apply (api_user_id_roundtrip 5). lia. Defined.

Definition sample_key : groupKey := (5, str "g").
Definition evaluator2 : Evaluator := mkEvaluator ∅ 0 {[sample_key := mkMembers {[9]} {[(1, 4); (2, 5)]}]}.
Lemma temporary_membership_ends_witness :
  let u := User.zero <| User.SessionID := 1 |> <| User.SessionGeneration := 4 |> in
  let v := User.zero <| User.SessionID := 2 |> <| User.SessionGeneration := 5 |> in
  temporaryMatch (temporary evaluator2) sample_key 0 (Some u) = true /\
  let e' := on_user evaluator2 (u, true) in
  temporaryMatch (temporary e') sample_key 0 (Some u) = false /\
  ((2, 5) <> (1, 4) -> 4 <> 0 ->
   temporaryMatch (temporary e') sample_key 9 (Some v) = temporaryMatch (temporary evaluator2) sample_key 9 (Some v)) /\
  temporaryMatch (temporary e') sample_key 9 None = temporaryMatch (temporary evaluator2) sample_key 9 None.
Proof.
  intros u v. split; [vm_compute; reflexivity|]. exact (temporary_membership_ends evaluator2 u v sample_key 9).
Defined.

(** Ask, move, ask again, and let the role table change in between. *)
Definition world_ops : list wop :=
  map WUser joins ++
  [WAsk (SubjectForUserID 7) 5; WAsk (mkSubject 2 0 0) 5; WAsk (mkSubject 2 0 0) 5;
   WUser (OpUpdateUser 2 (fun u => u <| User.ChannelID := 5 |>));
   WRole (fun _ => Some (Some RoleAdmin)); WAsk (mkSubject 2 0 0) 5;
   WChan (Channels.OpCreate 0 (str "New") [] 0 false 0); WAsk (mkSubject 2 0 0) 6; WAsk (SubjectForUserID 7) 5].

Lemma world_ops_ok : Forall wop_ok world_ops.
Proof. repeat constructor. Qed.
Example world_answers : (snd <$> wrun fold_ascii true (start store2 5 server2) world_ops) =
  Some [2830; 2826; 2826; 2826; 2830; 2830].
Proof. vm_compute. reflexivity. Qed.

Lemma cache_refines_evaluation_witness :
  exists w v answers, wrun fold_ascii true (start store2 5 server2) world_ops = Some (w, answers) /\
    wrun fold_ascii false (start store2 5 server2) world_ops = Some (v, answers) /\
    w_store v = w_store w /\ w_users v = w_users w /\ w_chans v = w_chans w /\ temporary (w_eval v) = temporary (w_eval w).
Proof.
  apply (cache_refines_evaluation fold_ascii store2 5 server2 world_ops);
    [lia|lia|exact server2_wf|exact world_ops_ok|vm_compute; reflexivity].
Defined.

(** Two goroutines beside a change of the rows. *)
Definition users2 : UserManager.Manager := (run_mgr (UserManager.NewManager 5) joins).1.
Lemma users2_wf : mgr_wf users2.
Proof.
  destruct (run_mgr_wf joins (UserManager.NewManager 5)) as [W _]; [by apply NewManager_wf|repeat constructor|vm_compute; reflexivity|exact W].
Qed.
Definition data2 : data := mkData store2 users2 ∅ server2.
Definition store3 : AclStore :=
  mkStore (fun cid => Some (if cid =? 0 then default_acls else if cid =? 5 then take 1 staff_rows else []))
    (fun _ _ => Some []) (fun _ => Some None) None.
Definition race : list (event (T := Channels.Manager table)) :=
  [ECall 1 (SubjectForUserID 7) 5 true; EThread 1; EThread 1;
   EChange store3 users2 server2; ECall 2 (SubjectForUserID 7) 5 true; EThread 2; EThread 2; EInvalidate ∅]
  ++ repeat (EThread 2) 30.
Lemma race_ok : Forall (event_ok (T := Channels.Manager table)) race.
Proof. repeat (constructor; [first [exact I|exact users2_wf]|]). constructor. Qed.

Lemma no_stale_entry_witness :
  let s := erun fold_ascii (init data2) race in let c := mkCall (SubjectForUserID 7) 5 true in
  s_cache s !! key_of (c_subject c) None (c_channel c) = Some 2826 /\ 2826 = answer fold_ascii (s_data s) c.
Proof.
  intros s c. split; [vm_compute; reflexivity|].
  exact (no_stale_entry fold_ascii data2 race c None 2826 users2_wf race_ok ltac:(vm_compute; reflexivity)
    ltac:(vm_compute; reflexivity) ltac:(vm_compute; reflexivity) eq_refl ltac:(vm_compute; reflexivity)).
Defined.

Lemma permission_checks_settle_witness :
  let s := erun fold_ascii (init data2) race in
  let c := mkCall (SubjectForUserID 7) 5 true in let ph := PLookup 0 None (mkKey (SubjectForUserID 7) 5 0) in
  s_threads s !! 1%nat = Some (c, ph) /\
  exists p, s_threads (erun fold_ascii s (map EThread (repeat 1%nat 40))) !! 1%nat = Some (c, PDone p) /\
    (p = answer fold_ascii (s_data s) c \/ (p = 0 /\ ph <> PStart)).
Proof.
  intros s c ph. split; [vm_compute; reflexivity|].
  exact (permission_checks_settle fold_ascii data2 race (repeat 1%nat 40) 1 c ph users2_wf race_ok ltac:(vm_compute; reflexivity)
    ltac:(vm_compute; reflexivity) ltac:(vm_compute; reflexivity) ltac:(discriminate) ltac:(vm_compute; lia)).
Defined.
End AclSample.
