(* ===== verification/Listeners.v ===== *)
(** * Channel listeners (internal/mumble/listeners.go)

    [listenerManager] keeps three nested maps: the channels a session listens
    to, the sessions that listen to a channel, and the volumes. The
    specification is one map from pairs of session and channel to an optional
    volume; the file shows that the nested maps implement it. *)

From Stdlib Require Import ZArith Lia String.
From stdpp Require Import base numbers list gmap sets option sorting.
From S2P Require Import Prelude Wire Fields ChannelManager.

Module Listeners.

(** ** The manager *)

Record listenerManager := mkListeners {
  bySession : gmap Z (gset Z);
  byChannel : gmap Z (gset Z);
  volumes : gmap Z (gmap Z Z) }.
#[global] Instance listenerManager_eta : Eta listenerManager := fun m => mkListeners (bySession m) (byChannel m) (volumes m).

(** The zero value. *)
Definition empty_manager : listenerManager := mkListeners ∅ ∅ ∅.

(** [m[k]] of a map of sets: the nil set when absent. *)
Definition members (m : gmap Z (gset Z)) (k : Z) : gset Z := default ∅ (m !! k).
Definition volumes_of (m : listenerManager) (session : Z) : gmap Z Z := default ∅ (volumes m !! session).

(** [delete(m[k], x); if len(m[k]) == 0 { delete(m, k) }]. *)
Definition drop_member (x k : Z) (m : gmap Z (gset Z)) : gmap Z (gset Z) :=
  let s := members m k ∖ {[x]} in
  if bool_decide (s = ∅) then delete k m else <[k := s]> m.
Definition drop_volume (session channel : Z) (m : listenerManager) : gmap Z (gmap Z Z) :=
  let v := delete channel (volumes_of m session) in
  if bool_decide (v = ∅) then delete session (volumes m) else <[session := v]> (volumes m).

Definition Add (m : listenerManager) (session channel : Z) : listenerManager * bool :=
  let chans := members (bySession m) session in
  let sessions := members (byChannel m) channel in
  let m := m <| bySession := <[session := chans]> (bySession m) |> <| byChannel := <[channel := sessions]> (byChannel m) |> in
  if bool_decide (channel ∈ chans) then (m, false) else
  (m <| bySession := <[session := {[channel]} ∪ chans]> (bySession m) |>
     <| byChannel := <[channel := {[session]} ∪ sessions]> (byChannel m) |>, true).

Definition Remove (m : listenerManager) (session channel : Z) : listenerManager * bool :=
  if negb (bool_decide (channel ∈ members (bySession m) session)) then (m, false) else
  (mkListeners (drop_member channel session (bySession m)) (drop_member session channel (byChannel m))
     (drop_volume session channel m), true).

Section Sorted.
Context `{SO : Channels.Sorter}.
(** The IDs of a set in ascending order; [ord] is the order of the loop that
    collects them. *)
Definition sorted_ids (ord : Channels.order) (s : gset Z) : list Z := Channels.sortBy id (ord (elements s)).

Definition RemoveAllFor (ord : Channels.order) (m : listenerManager) (session : Z) : listenerManager * list Z :=
  match bySession m !! session with
  | None => (m, [])
  | Some chans =>
      (mkListeners (delete session (bySession m))
         (fold_left (fun bc cid => drop_member session cid bc) (ord (elements chans)) (byChannel m))
         (delete session (volumes m)), sorted_ids ord chans)
  end.

Definition drop_session (channel : Z) (m : listenerManager) (sid : Z) : listenerManager :=
  mkListeners (drop_member channel sid (bySession m)) (byChannel m) (drop_volume sid channel m).
Definition RemoveChannel (ord : Channels.order) (m : listenerManager) (channel : Z) : listenerManager * list Z :=
  match byChannel m !! channel with
  | None => (m, [])
  | Some sessions =>
      let m := fold_left (drop_session channel) (ord (elements sessions)) m in
      (m <| byChannel := delete channel (byChannel m) |>, sorted_ids ord sessions)
  end.

Definition ChannelsFor (ord : Channels.order) (m : listenerManager) (session : Z) : list Z :=
  match bySession m !! session with Some chans => sorted_ids ord chans | None => [] end.
Definition SessionIDsIn (ord : Channels.order) (m : listenerManager) (channel : Z) : list Z :=
  match byChannel m !! channel with Some sessions => sorted_ids ord sessions | None => [] end.

Definition ListeningVolumes (ord : Channels.order) (m : listenerManager) (session : Z) : list (Z * Z) :=
  match volumes m !! session with
  | None => []
  | Some vols => Channels.sortBy fst (omap (fun cid => (fun v => (cid, v)) <$> vols !! cid) (ord (elements (dom vols))))
  end.
End Sorted.

Definition IsListening (m : listenerManager) (session channel : Z) : bool :=
  bool_decide (channel ∈ members (bySession m) session).
Definition CountInChannel (m : listenerManager) (channel : Z) : Z := Z.of_nat (size (members (byChannel m) channel)).
Definition CountForSession (m : listenerManager) (session : Z) : Z := Z.of_nat (size (members (bySession m) session)).

Definition SetVolume (m : listenerManager) (session channel v : Z) : listenerManager :=
  if negb (bool_decide (channel ∈ members (bySession m) session)) then m
  else m <| volumes := <[session := <[channel := v]> (volumes_of m session)]> (volumes m) |>.

(** [1.0] as a float32. *)
Definition unit_gain : Z := 0x3F800000.
Definition Volume (m : listenerManager) (session channel : Z) : Z := default unit_gain (volumes_of m session !! channel).

(** ** Nested maps of sets *)

Lemma members_insert m k k' s : members (<[k := s]> m) k' = if decide (k' = k) then s else members m k'.
Proof. unfold members. case_decide as H; [subst; by rewrite lookup_insert_eq|by rewrite lookup_insert_ne]. Qed.
Lemma members_delete m k k' : members (delete k m) k' = if decide (k' = k) then ∅ else members m k'.
Proof. unfold members. case_decide as H; [subst; by rewrite lookup_delete_eq|by rewrite lookup_delete_ne]. Qed.
Lemma members_drop x k m k' : members (drop_member x k m) k' = if decide (k' = k) then members m k ∖ {[x]} else members m k'.
Proof.
  unfold drop_member. case_bool_decide as H; [rewrite members_delete|rewrite members_insert]; repeat case_decide; by subst.
Qed.
Lemma members_absent m k : m !! k = None -> members m k = ∅.
Proof. unfold members. by intros ->. Qed.
Lemma members_present m k s : m !! k = Some s -> members m k = s.
Proof. unfold members. by intros ->. Qed.

(** No empty inner set is left behind. *)
Definition tidy (m : gmap Z (gset Z)) : Prop := forall k s, m !! k = Some s -> s <> ∅.
Lemma tidy_drop x k m : tidy m -> tidy (drop_member x k m).
Proof.
  intros H k' s. unfold drop_member. case_bool_decide as E.
  - intros [_ Hs]%lookup_delete_Some. by eapply H.
  - intros [[<- <-]|[_ Hs]]%lookup_insert_Some; [done|by eapply H].
Qed.
Lemma tidy_insert k s m : tidy m -> s <> ∅ -> tidy (<[k := s]> m).
Proof. intros H Hs k' s' [[<- <-]|[_ E]]%lookup_insert_Some; [done|by eapply H]. Qed.
Lemma tidy_delete k m : tidy m -> tidy (delete k m).
Proof. intros H k' s [_ E]%lookup_delete_Some. by eapply H. Qed.
Lemma tidy_none m k : tidy m -> members m k = ∅ -> m !! k = None.
Proof. intros H E. unfold members in E. destruct (m !! k) as [s|] eqn:Ek; [|done]. by apply H in Ek. Qed.

Lemma volumes_drop s c m s' : default ∅ (drop_volume s c m !! s') = if decide (s' = s) then delete c (volumes_of m s) else volumes_of m s'.
Proof.
  unfold drop_volume, volumes_of. case_bool_decide as H; case_decide as Hd; subst.
  - by rewrite lookup_delete_eq.
  - by rewrite lookup_delete_ne.
  - by rewrite lookup_insert_eq.
  - by rewrite lookup_insert_ne.
Qed.

(** ** The specification: a map from pairs to an optional volume *)

Notation pairs := (gmap (Z * Z) (option Z)).
Definition spec_Add (L : pairs) (s c : Z) : pairs * bool :=
  match L !! (s, c) with Some _ => (L, false) | None => (<[(s, c) := None]> L, true) end.
Definition spec_Remove (L : pairs) (s c : Z) : pairs * bool :=
  (delete (s, c) L, bool_decide (is_Some (L !! (s, c)))).
Definition channels_of (L : pairs) (s : Z) : gset Z := set_map snd (filter (fun p => p.1 = s) (dom L)).
Definition sessions_of (L : pairs) (c : Z) : gset Z := set_map fst (filter (fun p => p.2 = c) (dom L)).
Definition spec_RemoveAllFor (L : pairs) (s : Z) : pairs := filter (fun kv => kv.1.1 <> s) L.
Definition spec_RemoveChannel (L : pairs) (c : Z) : pairs := filter (fun kv => kv.1.2 <> c) L.
Definition spec_SetVolume (L : pairs) (s c v : Z) : pairs :=
  match L !! (s, c) with Some _ => <[(s, c) := Some v]> L | None => L end.

(** The nested maps describe the pairs. *)
Record refines (m : listenerManager) (L : pairs) : Prop := {
  rf_pairs : forall s c, L !! (s, c) = if decide (c ∈ members (bySession m) s) then Some (volumes_of m s !! c) else None;
  rf_inverse : forall s c, s ∈ members (byChannel m) c <-> c ∈ members (bySession m) s;
  rf_volumes : forall s c, is_Some (volumes_of m s !! c) -> c ∈ members (bySession m) s;
  rf_tidy : tidy (bySession m) /\ tidy (byChannel m) /\ forall s vs, volumes m !! s = Some vs -> vs <> ∅ }.

Lemma refines_empty : refines empty_manager ∅.
Proof.
  split.
  - intros s c. rewrite lookup_empty. unfold members. cbn. rewrite lookup_empty. cbn. case_decide as H; [|done].
    by apply elem_of_empty in H.
  - intros s c. unfold members. cbn. rewrite !lookup_empty. done.
  - intros s c. unfold volumes_of. cbn. rewrite lookup_empty. cbn. rewrite lookup_empty. by intros [].
  - repeat split; intros k x; cbn; by rewrite lookup_empty.
Qed.

Lemma rf_listening m L s c : refines m L -> c ∈ members (bySession m) s <-> is_Some (L !! (s, c)).
Proof. intros R. rewrite (rf_pairs m L R). case_decide; split; naive_solver. Qed.
Lemma rf_channels m L s : refines m L -> members (bySession m) s = channels_of L s.
Proof.
  intros R. apply set_eq. intros c. rewrite (rf_listening m L s c R). unfold channels_of. rewrite elem_of_map. split.
  - intros H. exists (s, c). split; [done|]. by rewrite elem_of_filter, elem_of_dom.
  - intros ([s' c'] & -> & [H1 H2]%elem_of_filter). cbn in *. subst. by apply elem_of_dom in H2.
Qed.
Lemma rf_sessions m L c : refines m L -> members (byChannel m) c = sessions_of L c.
Proof.
  intros R. apply set_eq. intros s. rewrite (rf_inverse m L R), (rf_listening m L s c R). unfold sessions_of. rewrite elem_of_map. split.
  - intros H. exists (s, c). split; [done|]. by rewrite elem_of_filter, elem_of_dom.
  - intros ([s' c'] & -> & [H1 H2]%elem_of_filter). cbn in *. subst. by apply elem_of_dom in H2.
Qed.

(** ** The operations *)

Lemma Add_refines m L s c : refines m L ->
  refines (Add m s c).1 (spec_Add L s c).1 /\ (Add m s c).2 = (spec_Add L s c).2.
Proof.
  intros R. pose proof R as [P I V (T1 & T2 & T3)]. unfold Add, spec_Add.
  destruct (decide (c ∈ members (bySession m) s)) as [Hc|Hc].
  - rewrite bool_decide_eq_true_2 by done. destruct (proj1 (rf_listening m L s c R) Hc) as [v ->]. split; [|done]. cbn [fst].
    assert (s ∈ members (byChannel m) c) as Hs by (by apply I).
    split; cbn; unfold volumes_of in *; cbn in *.
    + intros s' c'. rewrite members_insert, P. by destruct (decide (s' = s)) as [->|].
    + intros s' c'. specialize (I s' c'). rewrite !members_insert. by destruct (decide (s' = s)) as [->|], (decide (c' = c)) as [->|].
    + intros s' c' H. rewrite members_insert. apply V in H. case_decide; by subst.
    + split; [|split]; [apply tidy_insert; [done|set_solver]|apply tidy_insert; [done|set_solver]|done].
  - rewrite bool_decide_eq_false_2 by done. destruct (L !! (s, c)) as [v|] eqn:EL.
    { destruct Hc. apply (rf_listening m L s c R). by rewrite EL. }
    split; [|done]. cbn [fst]. assert (volumes_of m s !! c = None) as Hv.
    { destruct (volumes_of m s !! c) eqn:E; [|done]. destruct Hc. apply V. by rewrite E. }
    split; cbn; unfold volumes_of in *; cbn in *.
    + intros s' c'. rewrite insert_insert_eq, members_insert. destruct (decide (s' = s)) as [->|Hs].
      * destruct (decide (c' = c)) as [->|Hcc].
        -- rewrite lookup_insert_eq, decide_True by set_solver. by rewrite Hv.
        -- rewrite lookup_insert_ne by congruence. rewrite P. repeat case_decide; try done; set_solver.
      * rewrite lookup_insert_ne by congruence. apply P.
    + intros s' c'. rewrite !insert_insert_eq, !members_insert. specialize (I s' c'). repeat case_decide; subst; set_solver.
    + intros s' c' H. rewrite insert_insert_eq, members_insert. apply V in H. case_decide; [subst; set_solver|done].
    + split; [|split]; [rewrite insert_insert_eq; apply tidy_insert; [done|set_solver]
        |rewrite insert_insert_eq; apply tidy_insert; [done|set_solver]|done].
Qed.

Lemma drop_volume_tidy s c m : (forall s vs, volumes m !! s = Some vs -> vs <> ∅) ->
  forall s' vs, drop_volume s c m !! s' = Some vs -> vs <> ∅.
Proof.
  intros H s' vs. unfold drop_volume. case_bool_decide.
  - intros [_ E]%lookup_delete_Some. by eapply H.
  - intros [[<- <-]|[_ E]]%lookup_insert_Some; [done|by eapply H].
Qed.

Lemma Remove_refines m L s c : refines m L ->
  refines (Remove m s c).1 (spec_Remove L s c).1 /\ (Remove m s c).2 = (spec_Remove L s c).2.
Proof.
  intros R. pose proof R as [P I V (T1 & T2 & T3)]. unfold Remove, spec_Remove.
  destruct (decide (c ∈ members (bySession m) s)) as [Hc|Hc].
  - rewrite bool_decide_eq_true_2 by done. cbn [negb fst snd].
    rewrite (bool_decide_eq_true_2 (is_Some _)) by (by apply (rf_listening m L)). split; [|done].
    split; cbn.
    + intros s' c'. rewrite members_drop. unfold volumes_of. cbn. rewrite volumes_drop. destruct (decide (s' = s)) as [->|Hs].
      * destruct (decide (c' = c)) as [->|Hcc].
        -- rewrite lookup_delete_eq, decide_False by set_solver. done.
        -- rewrite !lookup_delete_ne by congruence. rewrite P. repeat case_decide; try done; set_solver.
      * rewrite lookup_delete_ne by congruence. apply P.
    + intros s' c'. rewrite !members_drop. specialize (I s' c'). repeat case_decide; subst; set_solver.
    + intros s' c'. rewrite members_drop. unfold volumes_of. cbn. rewrite volumes_drop. destruct (decide (s' = s)) as [->|Hs].
      * intros [v [Hne Hv]%lookup_delete_Some]. apply elem_of_difference. split; [apply V; eauto|set_solver].
      * apply V.
    + split; [|split]; [by apply tidy_drop|by apply tidy_drop|by apply drop_volume_tidy].
  - rewrite bool_decide_eq_false_2 by done. cbn [negb fst snd].
    assert (L !! (s, c) = None) as EL by (destruct (L !! (s, c)) eqn:E; [destruct Hc; apply (rf_listening m L s c R); by rewrite E|done]).
    rewrite bool_decide_eq_false_2 by (rewrite EL; by intros []). rewrite delete_id by done. done.
Qed.

Lemma SetVolume_refines m L s c v : refines m L -> refines (SetVolume m s c v) (spec_SetVolume L s c v).
Proof.
  intros R. pose proof R as [P I V (T1 & T2 & T3)]. unfold SetVolume, spec_SetVolume.
  destruct (decide (c ∈ members (bySession m) s)) as [Hc|Hc].
  - rewrite bool_decide_eq_true_2 by done. cbn [negb]. destruct (proj1 (rf_listening m L s c R) Hc) as [w ->].
    split; cbn; [|done| |].
    + intros s' c'. unfold volumes_of. cbn. destruct (decide (s' = s)) as [->|Hs].
      * rewrite lookup_insert_eq. cbn. destruct (decide (c' = c)) as [->|Hcc].
        -- by rewrite !lookup_insert_eq, decide_True.
        -- rewrite !lookup_insert_ne by congruence. apply P.
      * rewrite !lookup_insert_ne by congruence. apply P.
    + intros s' c'. unfold volumes_of. cbn. destruct (decide (s' = s)) as [->|Hs].
      * rewrite lookup_insert_eq. cbn. destruct (decide (c' = c)) as [->|Hcc]; [done|].
        rewrite lookup_insert_ne by congruence. apply V.
      * rewrite lookup_insert_ne by congruence. apply V.
    + split; [done|]. split; [done|]. intros s' vs [[<- <-]|[_ E]]%lookup_insert_Some; [apply insert_non_empty|by eapply T3].
  - rewrite bool_decide_eq_false_2 by done. cbn [negb].
    destruct (L !! (s, c)) eqn:E; [destruct Hc; apply (rf_listening m L s c R); by rewrite E|done].
Qed.

Lemma lookup_spec_RemoveAllFor L s s' c' :
  spec_RemoveAllFor L s !! (s', c') = if decide (s' = s) then None else L !! (s', c').
Proof.
  unfold spec_RemoveAllFor. rewrite map_lookup_filter. destruct (L !! (s', c')) as [v|]; cbn; [|by case_decide].
  repeat case_guard; repeat case_decide; cbn in *; try done; congruence.
Qed.
Lemma lookup_spec_RemoveChannel L c s' c' :
  spec_RemoveChannel L c !! (s', c') = if decide (c' = c) then None else L !! (s', c').
Proof.
  unfold spec_RemoveChannel. rewrite map_lookup_filter. destruct (L !! (s', c')) as [v|]; cbn; [|by case_decide].
  repeat case_guard; repeat case_decide; cbn in *; try done; congruence.
Qed.

(** The loop over the channels of a session. *)
Lemma fold_drop_members x ks : forall m k,
  members (fold_left (fun m k => drop_member x k m) ks m) k = if decide (k ∈ ks) then members m k ∖ {[x]} else members m k.
Proof.
  induction ks as [|k0 ks IH]; intros m k; cbn [fold_left].
  { rewrite decide_False; [done|]. apply not_elem_of_nil. }
  rewrite IH, members_drop. destruct (decide (k = k0)) as [->|Hne].
  - rewrite (decide_True (P := k0 ∈ k0 :: ks)) by (by left). case_decide; set_solver.
  - destruct (decide (k ∈ ks)) as [Hk|Hk]; [rewrite decide_True by (by right)|rewrite decide_False by (by intros [->|]%elem_of_cons)]; done.
Qed.
Lemma fold_drop_tidy x ks : forall m, tidy m -> tidy (fold_left (fun m k => drop_member x k m) ks m).
Proof. induction ks as [|k ks IH]; intros m H; [done|]. by apply IH, tidy_drop. Qed.

Section Ordered.
Context `{SO : Channels.Sorter} (ord : Channels.order) (Hord : Channels.order_ok ord).

Lemma elem_of_ord (s : gset Z) x : x ∈ ord (elements s) <-> x ∈ s.
Proof. by rewrite (Hord (elements s)), elem_of_elements. Qed.

Lemma sorted_ids_empty : sorted_ids ord ∅ = [].
Proof. unfold sorted_ids. rewrite elements_empty. apply Permutation_nil. rewrite Channels.sortBy_perm. symmetry. apply Hord. Qed.

Lemma RemoveAllFor_refines m L s : refines m L ->
  refines (RemoveAllFor ord m s).1 (spec_RemoveAllFor L s) /\ (RemoveAllFor ord m s).2 = sorted_ids ord (channels_of L s).
Proof.
  intros R. pose proof R as [P I V (T1 & T2 & T3)]. unfold RemoveAllFor. rewrite <- (rf_channels m L s R).
  destruct (bySession m !! s) as [chans|] eqn:Es.
  - rewrite (members_present _ _ _ Es). split; [|done]. cbn [fst]. split; cbn.
    + intros s' c'. rewrite lookup_spec_RemoveAllFor, members_delete. unfold volumes_of. cbn. destruct (decide (s' = s)) as [->|Hs].
      * rewrite decide_False; [done|]. apply not_elem_of_empty.
      * rewrite lookup_delete_ne by done. apply P.
    + intros s' c'. rewrite fold_drop_members, members_delete. specialize (I s' c').
      assert (c' ∈ ord (elements chans) <-> c' ∈ members (bySession m) s) as He by (rewrite elem_of_ord; by rewrite (members_present _ _ _ Es)).
      destruct (decide (s' = s)) as [->|Hs]; destruct (decide (c' ∈ ord (elements chans))) as [Hc|Hc]; set_solver.
    + intros s' c'. unfold volumes_of. cbn. rewrite members_delete. destruct (decide (s' = s)) as [->|Hs].
      * rewrite lookup_delete_eq. cbn. rewrite lookup_empty. by intros [].
      * rewrite lookup_delete_ne by done. apply V.
    + split; [by apply tidy_delete|]. split; [by apply fold_drop_tidy|]. intros s' vs [_ E]%lookup_delete_Some. by eapply T3.
  - rewrite (members_absent _ _ Es). split; cbn [fst snd].
    + assert (spec_RemoveAllFor L s = L) as ->; [|done]. apply map_eq. intros [s' c']. rewrite lookup_spec_RemoveAllFor.
      case_decide; [subst|done]. rewrite P, decide_False; [done|]. rewrite (members_absent _ _ Es). apply not_elem_of_empty.
    + by rewrite sorted_ids_empty.
Qed.

(** The loop over the sessions of a channel takes one pair after another
    away; the index by channel follows at the end. *)
Lemma drop_sessions c ss : forall m,
  let m' := fold_left (drop_session c) ss m in
  byChannel m' = byChannel m /\
  (forall s, members (bySession m') s = if decide (s ∈ ss) then members (bySession m) s ∖ {[c]} else members (bySession m) s) /\
  (forall s, volumes_of m' s = if decide (s ∈ ss) then delete c (volumes_of m s) else volumes_of m s) /\
  (tidy (bySession m) -> tidy (bySession m')) /\
  ((forall s vs, volumes m !! s = Some vs -> vs <> ∅) -> forall s vs, volumes m' !! s = Some vs -> vs <> ∅).
Proof.
  induction ss as [|s0 ss IH]; intros m; cbn [fold_left].
  { split; [done|]. split; [|split]; [| |done]; intros s; rewrite decide_False; try done; apply not_elem_of_nil. }
  destruct (IH (drop_session c m s0)) as (H1 & H2 & H3 & H4 & H5). split; [done|]. split; [|split; [|split]].
  - intros s. rewrite H2. unfold drop_session. cbn. rewrite members_drop. destruct (decide (s = s0)) as [->|Hne].
    + rewrite (decide_True (P := s0 ∈ s0 :: ss)) by (by left). case_decide; set_solver.
    + destruct (decide (s ∈ ss)) as [Hk|Hk]; [rewrite decide_True by (by right)|rewrite decide_False by (by intros [->|]%elem_of_cons)]; done.
  - intros s. rewrite H3. unfold volumes_of at 1 2, drop_session. cbn. rewrite volumes_drop. destruct (decide (s = s0)) as [->|Hne].
    + rewrite (decide_True (P := s0 ∈ s0 :: ss)) by (by left). case_decide; [|done]. apply delete_id, lookup_delete_eq.
    + destruct (decide (s ∈ ss)) as [Hk|Hk]; [rewrite decide_True by (by right)|rewrite decide_False by (by intros [->|]%elem_of_cons)]; done.
  - intros T. apply H4. by apply tidy_drop.
  - intros T. apply H5. by apply drop_volume_tidy.
Qed.

Lemma RemoveChannel_refines m L c : refines m L ->
  refines (RemoveChannel ord m c).1 (spec_RemoveChannel L c) /\ (RemoveChannel ord m c).2 = sorted_ids ord (sessions_of L c).
Proof.
  intros R. pose proof R as [P I V (T1 & T2 & T3)]. unfold RemoveChannel. rewrite <- (rf_sessions m L c R).
  destruct (byChannel m !! c) as [ss|] eqn:Ec.
  - rewrite (members_present _ _ _ Ec). destruct (drop_sessions c (ord (elements ss)) m) as (H1 & H2 & H3 & H4 & H5).
    set (m' := fold_left (drop_session c) (ord (elements ss)) m) in *.
    assert (forall s, s ∈ ord (elements ss) <-> c ∈ members (bySession m) s) as He.
    { intros s. rewrite elem_of_ord, <- I. by rewrite (members_present _ _ _ Ec). }
    split; [|done]. cbn [fst]. split; cbn.
    + intros s' c'. rewrite lookup_spec_RemoveChannel, H2. unfold volumes_of at 1. cbn. fold (volumes_of m' s').
      rewrite H3. specialize (He s'). specialize (P s' c').
      destruct (decide (s' ∈ ord (elements ss))) as [Hs|Hs]; destruct (decide (c' = c)) as [->|Hcc].
      * rewrite decide_False; [done|]. set_solver.
      * rewrite lookup_delete_ne by done. rewrite P. repeat case_decide; try done; set_solver.
      * rewrite decide_False; [done|]. tauto.
      * exact P.
    + intros s' c'. rewrite H1, members_delete, H2. specialize (I s' c'). specialize (He s').
      destruct (decide (c' = c)) as [->|Hcc]; destruct (decide (s' ∈ ord (elements ss))); set_solver.
    + intros s' c'. unfold volumes_of at 1. cbn. fold (volumes_of m' s'). rewrite H3, H2.
      specialize (He s'). destruct (decide (s' ∈ ord (elements ss))) as [Hs|Hs]; [|apply V].
      intros [v [Hne Hv]%lookup_delete_Some]. apply elem_of_difference. split; [apply V; eauto|set_solver].
    + split; [by apply H4|]. split; [|by apply H5]. rewrite H1. by apply tidy_delete.
  - rewrite (members_absent _ _ Ec). split; cbn [fst snd].
    + assert (spec_RemoveChannel L c = L) as ->; [|done]. apply map_eq. intros [s' c']. rewrite lookup_spec_RemoveChannel.
      case_decide; [subst|done]. rewrite P, decide_False; [done|]. rewrite <- I, (members_absent _ _ Ec). apply not_elem_of_empty.
    + by rewrite sorted_ids_empty.
Qed.

(** ** Any sequence of operations and questions *)

Inductive lop :=
  | LAdd (s c : Z) | LRemove (s c : Z) | LRemoveAllFor (s : Z) | LRemoveChannel (c : Z) | LSetVolume (s c v : Z)
  | LIsListening (s c : Z) | LChannelsFor (s : Z) | LSessionIDsIn (c : Z) | LCountInChannel (c : Z)
  | LCountForSession (s : Z) | LVolume (s c : Z) | LListeningVolumes (s : Z).
Inductive lanswer := ABool (b : bool) | AIDs (l : list Z) | ANumber (n : Z) | AVolumes (l : list (Z * Z)) | ANone.

Definition lstep (m : listenerManager) (o : lop) : listenerManager * lanswer :=
  match o with
  | LAdd s c => let '(m, b) := Add m s c in (m, ABool b)
  | LRemove s c => let '(m, b) := Remove m s c in (m, ABool b)
  | LRemoveAllFor s => let '(m, l) := RemoveAllFor ord m s in (m, AIDs l)
  | LRemoveChannel c => let '(m, l) := RemoveChannel ord m c in (m, AIDs l)
  | LSetVolume s c v => (SetVolume m s c v, ANone)
  | LIsListening s c => (m, ABool (IsListening m s c))
  | LChannelsFor s => (m, AIDs (ChannelsFor ord m s))
  | LSessionIDsIn c => (m, AIDs (SessionIDsIn ord m c))
  | LCountInChannel c => (m, ANumber (CountInChannel m c))
  | LCountForSession s => (m, ANumber (CountForSession m s))
  | LVolume s c => (m, ANumber (Volume m s c))
  | LListeningVolumes s => (m, AVolumes (ListeningVolumes ord m s))
  end.

(** The volumes set for the channels of a session, by channel. *)
Definition spec_volumes (L : pairs) (s : Z) : list (Z * Z) :=
  Channels.sortBy fst (omap (fun c => v ← L !! (s, c); (fun v => (c, v)) <$> v) (elements (channels_of L s))).
Definition spec_step (L : pairs) (o : lop) : pairs * lanswer :=
  match o with
  | LAdd s c => let '(L, b) := spec_Add L s c in (L, ABool b)
  | LRemove s c => let '(L, b) := spec_Remove L s c in (L, ABool b)
  | LRemoveAllFor s => (spec_RemoveAllFor L s, AIDs (sorted_ids ord (channels_of L s)))
  | LRemoveChannel c => (spec_RemoveChannel L c, AIDs (sorted_ids ord (sessions_of L c)))
  | LSetVolume s c v => (spec_SetVolume L s c v, ANone)
  | LIsListening s c => (L, ABool (bool_decide (is_Some (L !! (s, c)))))
  | LChannelsFor s => (L, AIDs (sorted_ids ord (channels_of L s)))
  | LSessionIDsIn c => (L, AIDs (sorted_ids ord (sessions_of L c)))
  | LCountInChannel c => (L, ANumber (Z.of_nat (size (sessions_of L c))))
  | LCountForSession s => (L, ANumber (Z.of_nat (size (channels_of L s))))
  | LVolume s c => (L, ANumber (default unit_gain (v ← L !! (s, c); v)))
  | LListeningVolumes s => (L, AVolumes (spec_volumes L s))
  end.
Fixpoint lrun {S} (step : S -> lop -> S * lanswer) (m : S) (ops : list lop) : S * list lanswer :=
  match ops with
  | [] => (m, [])
  | o :: ops => let '(m, a) := step m o in let '(m, l) := lrun step m ops in (m, a :: l)
  end.

Lemma ids_of_members m k : match m !! k with Some s => sorted_ids ord s | None => [] end = sorted_ids ord (members m k).
Proof. unfold members. destruct (m !! k); [done|]. cbn. by rewrite sorted_ids_empty. Qed.
Lemma rf_volume m L s c : refines m L -> (v ← L !! (s, c); v) = volumes_of m s !! c.
Proof.
  intros R. rewrite (rf_pairs m L R). case_decide as H; [done|]. cbn. destruct (volumes_of m s !! c) eqn:E; [|done].
  destruct H. apply (rf_volumes m L R). by rewrite E.
Qed.

(** Lists of pairs with distinct first components, sorted by them, are equal
    as soon as they are permutations. *)
Lemma sorted_pairs_unique (l l' : list (Z * Z)) : NoDup l.*1 -> l ≡ₚ l' -> Channels.sortBy fst l = Channels.sortBy fst l'.
Proof.
  intros Hnd Hp. pose proof (Channels.sortBy_perm _ fst l) as P1. pose proof (Channels.sortBy_perm _ fst l') as P2.
  pose proof (Channels.sortBy_sorted _ fst l) as S1. pose proof (Channels.sortBy_sorted _ fst l') as S2.
  assert (NoDup (Channels.sortBy fst l).*1) as N1 by (by rewrite P1).
  assert (Channels.sortBy fst l ≡ₚ Channels.sortBy fst l') as Q by (by rewrite P1, P2).
  revert N1 Q S1 S2. generalize (Channels.sortBy fst l) (Channels.sortBy fst l'). clear.
  induction l as [|[x v] l IH]; intros [|[y w] l'] N Q S1 S2; [done|by apply Permutation_nil_cons in Q|by symmetry in Q; apply Permutation_nil_cons in Q|].
  inversion S1 as [|? ? S1' F1]; inversion S2 as [|? ? S2' F2]; subst. rewrite Forall_forall in F1, F2.
  apply list.NoDup_cons in N as [N0 N].
  assert ((x, v) = (y, w)) as E.
  { assert ((x, v) ∈ (y, w) :: l') as H1 by (rewrite <- Q; by left). assert ((y, w) ∈ (x, v) :: l) as H2 by (rewrite Q; by left).
    apply elem_of_cons in H1 as [H1|H1]; [done|]. apply elem_of_cons in H2 as [H2|H2]; [done|].
    pose proof (F2 _ (proj1 (list_elem_of_In _ _) H1)) as A1. pose proof (F1 _ (proj1 (list_elem_of_In _ _) H2)) as A2. cbn in A1, A2.
    destruct N0. apply list_elem_of_fmap. exists (y, w). split; [cbn; lia|done]. }
  injection E as <- <-. f_equal. apply IH; [done|by eapply Permutation_cons_inv|done|done].
Qed.

Definition tagged (vs : gmap Z Z) (l : list Z) : list (Z * Z) := omap (fun c => (fun v => (c, v)) <$> vs !! c) l.
Lemma elem_of_tagged vs l x : x ∈ tagged vs l <-> x.1 ∈ l /\ vs !! x.1 = Some x.2.
Proof.
  destruct x as [c v]. unfold tagged. rewrite list_elem_of_omap. cbn. split.
  - intros (c' & Hc & (v' & E & [= -> ->])%fmap_Some). done.
  - intros [Hc E]. exists c. by rewrite E.
Qed.
Lemma tagged_NoDup vs l : NoDup l -> NoDup (tagged vs l).*1.
Proof.
  induction 1 as [|c l Hc Hl IH]; [constructor|]. unfold tagged. cbn. destruct (vs !! c) as [v|]; [|done]. cbn. constructor; [|done].
  intros (y & -> & [Hy _]%elem_of_tagged)%list_elem_of_fmap. done.
Qed.
Lemma tagged_sorted vs l l' : NoDup l -> NoDup l' -> (forall c, is_Some (vs !! c) -> c ∈ l) -> (forall c, is_Some (vs !! c) -> c ∈ l') ->
  Channels.sortBy fst (tagged vs l) = Channels.sortBy fst (tagged vs l').
Proof.
  intros H1 H2 H3 H4. apply sorted_pairs_unique; [by apply tagged_NoDup|].
  apply NoDup_Permutation; [eapply list.NoDup_fmap_1; by apply tagged_NoDup|eapply list.NoDup_fmap_1; by apply tagged_NoDup|].
  intros x. rewrite !elem_of_tagged. split; intros [? E]; (split; [|done]); [apply H4|apply H3]; by rewrite E.
Qed.
Lemma tagged_empty l : tagged ∅ l = [].
Proof. induction l as [|c l IH]; [done|]. unfold tagged. cbn. by rewrite lookup_empty. Qed.

Lemma ListeningVolumes_refines m L s : refines m L -> ListeningVolumes ord m s = spec_volumes L s.
Proof.
  intros R. unfold ListeningVolumes, spec_volumes. rewrite <- (rf_channels m L s R).
  replace (omap _ (elements (members _ s))) with (tagged (volumes_of m s) (elements (members (bySession m) s))).
  2: { unfold tagged. induction (elements (members (bySession m) s)) as [|c cs IH]; [done|]. cbn. rewrite IH, <- (rf_volume m L s c R).
       by destruct (L !! (s, c)). }
  destruct (volumes m !! s) as [vs|] eqn:Ev.
  - assert (volumes_of m s = vs) as Evs by (unfold volumes_of; by rewrite Ev). rewrite Evs. apply tagged_sorted.
    + rewrite (Hord _). apply NoDup_elements.
    + apply NoDup_elements.
    + intros c Hc. apply elem_of_ord. by apply elem_of_dom.
    + intros c Hc. apply elem_of_elements. apply (rf_volumes m L R). by rewrite Evs.
  - assert (volumes_of m s = ∅) as -> by (unfold volumes_of; by rewrite Ev).
    rewrite tagged_empty. symmetry. apply Permutation_nil. symmetry. apply Channels.sortBy_perm.
Qed.

Lemma lstep_refines m L o : refines m L -> refines (lstep m o).1 (spec_step L o).1 /\ (lstep m o).2 = (spec_step L o).2.
Proof.
  intros R. destruct o as [s c|s c|s|c|s c v|s c|s|c|c|s|s c|s]; cbn [lstep spec_step].
  - destruct (Add_refines m L s c R) as [H1 H2]. destruct (Add m s c), (spec_Add L s c). cbn in *. by subst.
  - destruct (Remove_refines m L s c R) as [H1 H2]. destruct (Remove m s c), (spec_Remove L s c). cbn in *. by subst.
  - destruct (RemoveAllFor_refines m L s R) as [H1 H2]. destruct (RemoveAllFor ord m s). cbn in *. by subst.
  - destruct (RemoveChannel_refines m L c R) as [H1 H2]. destruct (RemoveChannel ord m c). cbn in *. by subst.
  - split; [by apply SetVolume_refines|done].
  - split; [done|]. cbn. f_equal. apply bool_decide_ext. by apply rf_listening.
  - split; [done|]. cbn. f_equal. unfold ChannelsFor. by rewrite ids_of_members, (rf_channels m L s R).
  - split; [done|]. cbn. f_equal. unfold SessionIDsIn. by rewrite ids_of_members, (rf_sessions m L c R).
  - split; [done|]. cbn. unfold CountInChannel. by rewrite (rf_sessions m L c R).
  - split; [done|]. cbn. unfold CountForSession. by rewrite (rf_channels m L s R).
  - split; [done|]. cbn. unfold Volume. by rewrite (rf_volume m L s c R).
  - split; [done|]. cbn. f_equal. by apply ListeningVolumes_refines.
Qed.
Lemma lrun_refines ops : forall m L, refines m L ->
  (lrun lstep m ops).2 = (lrun spec_step L ops).2 /\ refines (lrun lstep m ops).1 (lrun spec_step L ops).1.
Proof.
  induction ops as [|o ops IH]; intros m L R; [done|]. cbn [lrun]. destruct (lstep_refines m L o R) as [H1 H2].
  destruct (lstep m o) as [m' a], (spec_step L o) as [L' a']. cbn in *. subst a'. destruct (IH m' L' H1) as [H3 H4].
  destruct (lrun lstep m' ops), (lrun spec_step L' ops). cbn in *. by subst.
Qed.

(** C39: the three nested maps of the listener table are one table of pairs:
    after any sequence of operations from the empty table, every answer is
    what a single map from (session, channel) to an optional volume gives, both
    indices describe the same pairs, no volume outlives its pair and no empty
    inner map is left behind. *)
Theorem listener_tables_refine (ops : list lop) :
  (lrun lstep empty_manager ops).2 = (lrun spec_step ∅ ops).2 /\
  refines (lrun lstep empty_manager ops).1 (lrun spec_step ∅ ops).1.
Proof. apply lrun_refines, refines_empty. Qed.
End Ordered.
End Listeners.
