(* ===== verification/VoiceState.v ===== *)
(** * Voice flags and channel crypto modes

    The mute and deafen cascade of [internal/mumble/voicestate.go], and the
    aggregate crypto mode of a channel ([UpdateChannelCrypto],
    [channelHasMixedCrypto] of [internal/mumble/handlers.go]), which decides
    whether voice may go over UDP. *)

From Stdlib Require Import ZArith Lia String.
From stdpp Require Import base numbers list gmap sets option sorting.
From S2P Require Import Prelude Wire Fields Messages Registry UserManager ChannelManager.

Module VoiceFlags.
Import Messages.

(** [us.SetFields |= bit]. *)
Definition mark (us : UserState.t) (bit : Z) : UserState.t := us <| UserState.SetFields := Z.lor (UserState.SetFields us) bit |>.

Definition applySelfVoiceState (vs : VoiceState) (us : UserState.t) : VoiceState * UserState.t :=
  let '(vs, us) :=
    if UserState.Has us UserState.SetSelfDeaf then
      let vs := vs <| SelfDeaf := UserState.SelfDeaf us |> in
      if SelfDeaf vs
      then (vs <| SelfMute := true |>, mark (us <| UserState.SelfMute := true |>) UserState.SetSelfMute)
      else (vs, us)
    else (vs, us) in
  let '(vs, us) :=
    if UserState.Has us UserState.SetSelfMute then
      let vs := vs <| SelfMute := UserState.SelfMute us |> in
      if negb (SelfMute vs)
      then (vs <| SelfDeaf := false |>, mark (us <| UserState.SelfDeaf := false |>) UserState.SetSelfDeaf)
      else (vs, us)
    else (vs, us) in
  let vs := if UserState.Has us UserState.SetRecording then vs <| Recording := UserState.Recording us |> else vs in
  (vs, us).

Definition applyAdminVoiceState (vs : VoiceState) (us : UserState.t) : VoiceState * UserState.t :=
  let '(vs, us) :=
    if UserState.Has us UserState.SetDeaf then
      let vs := vs <| Deaf := UserState.Deaf us |> in
      if Deaf vs
      then (vs <| Mute := true |>, mark (us <| UserState.Mute := true |>) UserState.SetMute)
      else (vs, us)
    else (vs, us) in
  let '(vs, us) :=
    if UserState.Has us UserState.SetMute then
      let vs := vs <| Mute := UserState.Mute us |> in
      if negb (Mute vs)
      then (vs <| Deaf := false |>, mark (us <| UserState.Deaf := false |>) UserState.SetDeaf)
      else (vs, us)
    else (vs, us) in
  let vs := if UserState.Has us UserState.SetSuppress then vs <| Suppress := UserState.Suppress us |> else vs in
  let vs := if UserState.Has us UserState.SetPrioritySpeaker then vs <| PrioritySpeaker := UserState.PrioritySpeaker us |> else vs in
  (vs, us).

Definition applySuppressFromSpeak (vs : VoiceState) (maySpeak : bool) : VoiceState * bool :=
  if eqb maySpeak (Suppress vs) then (vs <| Suppress := negb maySpeak |>, true) else (vs, false).

Definition applyChannelEnterEffects (vs : VoiceState) (maySpeak : bool) : VoiceState * bool * bool :=
  let '(vs, priorityChanged) :=
    if PrioritySpeaker vs then (vs <| PrioritySpeaker := false |>, true) else (vs, false) in
  let '(vs, suppressChanged) := applySuppressFromSpeak vs maySpeak in
  (vs, priorityChanged, suppressChanged).

(** ** Deafened users are muted, and messages say what happened *)

(** Mumble's invariant on both pairs of flags. *)
Definition deaf_muted (vs : VoiceState) : bool :=
  (negb (SelfDeaf vs) || SelfMute vs) && (negb (Deaf vs) || Mute vs).

(** [us] tells the truth about the flag [bit] of [vs]. *)
Definition truthful (us : UserState.t) (bit : Z) (said flag : bool) : Prop := UserState.Has us bit = true -> said = flag.

Definition has_bit (x bit : Z) : bool := negb (Z.land x bit =? 0).
Lemma has_bit_lor x a b : has_bit (Z.lor x a) b = has_bit x b || has_bit a b.
Proof.
  unfold has_bit. rewrite Z.land_lor_distr_l. destruct (Z.eqb_spec (Z.lor (Z.land x b) (Z.land a b)) 0) as [E|E].
  - apply Z.lor_eq_0_iff in E as [-> ->]. done.
  - destruct (Z.eqb_spec (Z.land x b) 0) as [Ex|]; [|done]. destruct (Z.eqb_spec (Z.land a b) 0) as [Ea|]; [|done].
    by rewrite Ex, Ea in E.
Qed.

(** A change of one flag: what the message says of it is what happened, and a
    flag it does not mention is as before. *)
Definition told (us : UserState.t) (bit : Z) (said after before : bool) : Prop :=
  if UserState.Has us bit then said = after else after = before.

(** Computes the presence bits of constants. *)
Ltac const_bits := repeat match goal with |- context [has_bit ?a ?b] =>
  is_const a; let v := eval vm_compute in (has_bit a b) in
  match v with true => change (has_bit a b) with true | false => change (has_bit a b) with false end end.
Ltac fold_bits := change UserState.Has with (fun m bit => has_bit (UserState.SetFields m) bit); cbn -[has_bit Z.lor].

Lemma self_cascade vs us : deaf_muted vs = true ->
  let '(vs', us') := applySelfVoiceState vs us in
  deaf_muted vs' = true /\ Mute vs' = Mute vs /\ Deaf vs' = Deaf vs /\ Suppress vs' = Suppress vs /\
  PrioritySpeaker vs' = PrioritySpeaker vs /\
  told us' UserState.SetSelfMute (UserState.SelfMute us') (SelfMute vs') (SelfMute vs) /\
  told us' UserState.SetSelfDeaf (UserState.SelfDeaf us') (SelfDeaf vs') (SelfDeaf vs) /\
  told us' UserState.SetRecording (UserState.Recording us') (Recording vs') (Recording vs).
Proof.
  destruct vs as [mu de su sm sd ps rc], us as [x1 x2 x3 x4 x5 x6 x7 x8 sm' sd' x11 x12 x13 x14 x15 x16 x17 x18 rc' x20 x21 x22 x23 sf].
  unfold applySelfVoiceState, deaf_muted, told, mark. fold_bits. intros Hinv.
  destruct (has_bit sf UserState.SetSelfDeaf) eqn:B1, sd', (has_bit sf UserState.SetSelfMute) eqn:B2, sm', (has_bit sf UserState.SetRecording) eqn:B3;
    do 3 (cbn -[has_bit Z.lor]; rewrite ?has_bit_lor, ?B1, ?B2, ?B3; const_bits); cbn;
    split_and!; try done; by destruct sd, sm, de, mu.
Qed.
Lemma admin_cascade vs us : deaf_muted vs = true ->
  let '(vs', us') := applyAdminVoiceState vs us in
  deaf_muted vs' = true /\ SelfMute vs' = SelfMute vs /\ SelfDeaf vs' = SelfDeaf vs /\ Recording vs' = Recording vs /\
  told us' UserState.SetMute (UserState.Mute us') (Mute vs') (Mute vs) /\
  told us' UserState.SetDeaf (UserState.Deaf us') (Deaf vs') (Deaf vs) /\
  told us' UserState.SetSuppress (UserState.Suppress us') (Suppress vs') (Suppress vs) /\
  told us' UserState.SetPrioritySpeaker (UserState.PrioritySpeaker us') (PrioritySpeaker vs') (PrioritySpeaker vs).
Proof.
  destruct vs as [mu de su sm sd ps rc], us as [x1 x2 x3 x4 x5 mu' de' su' x9 x10 x11 x12 x13 x14 x15 x16 x17 ps' x19 x20 x21 x22 x23 sf].
  unfold applyAdminVoiceState, deaf_muted, told, mark. fold_bits. intros Hinv.
  destruct (has_bit sf UserState.SetDeaf) eqn:B1, de', (has_bit sf UserState.SetMute) eqn:B2, mu',
    (has_bit sf UserState.SetSuppress) eqn:B3, (has_bit sf UserState.SetPrioritySpeaker) eqn:B4;
    do 3 (cbn -[has_bit Z.lor]; rewrite ?has_bit_lor, ?B1, ?B2, ?B3, ?B4; const_bits); cbn;
    split_and!; try done; by destruct sd, sm, de, mu.
Qed.

(** Entering a channel clears the priority flag, makes suppression the
    opposite of the right to speak, and reports exactly the flips. *)
Lemma enter_effects vs maySpeak :
  let '(vs', pc, sc) := applyChannelEnterEffects vs maySpeak in
  PrioritySpeaker vs' = false /\ Suppress vs' = negb maySpeak /\ deaf_muted vs' = deaf_muted vs /\
  pc = xorb (PrioritySpeaker vs) (PrioritySpeaker vs') /\ sc = xorb (Suppress vs) (Suppress vs') /\
  Mute vs' = Mute vs /\ Deaf vs' = Deaf vs /\ SelfMute vs' = SelfMute vs /\ SelfDeaf vs' = SelfDeaf vs /\ Recording vs' = Recording vs.
Proof. destruct vs as [[] [] [] [] [] [] []], maySpeak; cbn; done. Qed.

(** What a client, an administrator and the server do to the flags. *)
Inductive vop := VSelf (us : UserState.t) | VAdmin (us : UserState.t) | VEnter (maySpeak : bool) | VSuppress (maySpeak : bool).
Definition vstep (vs : VoiceState) (o : vop) : VoiceState :=
  match o with
  | VSelf us => (applySelfVoiceState vs us).1
  | VAdmin us => (applyAdminVoiceState vs us).1
  | VEnter b => (applyChannelEnterEffects vs b).1.1
  | VSuppress b => (applySuppressFromSpeak vs b).1
  end.
Definition quiet : VoiceState := mkVoice false false false false false false false.

Lemma vstep_deaf_muted vs o : deaf_muted vs = true -> deaf_muted (vstep vs o) = true.
Proof.
  intros H. destruct o as [us|us|b|b]; cbn [vstep].
  - pose proof (self_cascade vs us H) as K. by destruct (applySelfVoiceState vs us); destruct K.
  - pose proof (admin_cascade vs us H) as K. by destruct (applyAdminVoiceState vs us); destruct K.
  - pose proof (enter_effects vs b) as K. destruct (applyChannelEnterEffects vs b) as [[? ?] ?]. destruct K as (_ & _ & K & _). cbn. congruence.
  - by destruct vs as [[] [] [] [] [] [] []], b.
Qed.
Lemma vrun_deaf_muted ops : forall vs, deaf_muted vs = true -> deaf_muted (fold_left vstep ops vs) = true.
Proof. induction ops as [|o ops IH]; intros vs H; [done|]. by apply IH, vstep_deaf_muted. Qed.

(** A deafened user is always muted, and what the server broadcasts is what
    it did: after any sequence of requests of the user, of administrators and
    of channel moves both deaf flags imply their mute flags; a request of the
    user never touches what administrators imposed and the other way round;
    the message that goes out names each changed flag with its new value, and
    a flag it does not name is unchanged. *)
Theorem voice_flags_consistent (ops : list vop) (us : UserState.t) :
  let vs := fold_left vstep ops quiet in
  let '(vs1, us1) := applySelfVoiceState vs us in
  let '(vs2, us2) := applyAdminVoiceState vs us in
  deaf_muted vs = true /\
  (Mute vs1 = Mute vs /\ Deaf vs1 = Deaf vs /\ Suppress vs1 = Suppress vs /\ PrioritySpeaker vs1 = PrioritySpeaker vs) /\
  (told us1 UserState.SetSelfMute (UserState.SelfMute us1) (SelfMute vs1) (SelfMute vs) /\
   told us1 UserState.SetSelfDeaf (UserState.SelfDeaf us1) (SelfDeaf vs1) (SelfDeaf vs) /\
   told us1 UserState.SetRecording (UserState.Recording us1) (Recording vs1) (Recording vs)) /\
  (SelfMute vs2 = SelfMute vs /\ SelfDeaf vs2 = SelfDeaf vs /\ Recording vs2 = Recording vs) /\
  (told us2 UserState.SetMute (UserState.Mute us2) (Mute vs2) (Mute vs) /\
   told us2 UserState.SetDeaf (UserState.Deaf us2) (Deaf vs2) (Deaf vs) /\
   told us2 UserState.SetSuppress (UserState.Suppress us2) (Suppress vs2) (Suppress vs) /\
   told us2 UserState.SetPrioritySpeaker (UserState.PrioritySpeaker us2) (PrioritySpeaker vs2) (PrioritySpeaker vs)).
Proof.
  cbn zeta. assert (deaf_muted (fold_left vstep ops quiet) = true) as H by (by apply vrun_deaf_muted).
  pose proof (self_cascade _ us H) as K1. pose proof (admin_cascade _ us H) as K2.
  destruct (applySelfVoiceState _ us), (applyAdminVoiceState _ us). tauto.
Qed.
End VoiceFlags.

(** ** The crypto mode of a channel *)

Module ChannelCrypto.
Import VoiceFlags.

Definition mixed : gostring := str "mixed"%string.
(** The set [modes]: the crypto modes in use among some users. *)
Definition crypto_modes (us : list User.t) : gset gostring :=
  list_to_set (filter (fun m => m <> []) (map User.CryptoMode us)).
Definition aggregate (modes : gset gostring) : gostring :=
  match elements modes with [] => [] | [m] => m | _ => mixed end.

Definition UpdateChannelCrypto (users : Manager) (crypto : gmap Z gostring) (channelID : Z) : gmap Z gostring :=
  let mode := aggregate (crypto_modes (SnapshotByChannel users channelID)) in
  if bool_decide (mode = []) then delete channelID crypto else <[channelID := mode]> crypto.
Definition ChannelCryptoMode (crypto : gmap Z gostring) (channelID : Z) : gostring := default [] (crypto !! channelID).

(** The loop of [channelHasMixedCrypto] over the channels of a component. *)
Fixpoint mixed_loop (crypto : gmap Z gostring) (cids : list Z) (allModes : gset gostring) : bool :=
  match cids with
  | [] => (1 <? Z.of_nat (size allModes))
  | cid :: cids =>
      match crypto !! cid with
      | Some m =>
          if bool_decide (m = []) then mixed_loop crypto cids allModes
          else if bool_decide (m = mixed) then true
          else mixed_loop crypto cids ({[m]} ∪ allModes)
      | None => mixed_loop crypto cids allModes
      end
  end.

Section Mixed.
Context `{SO : Channels.Sorter} {DB TX : Type} `{CS : Channels.ChannelStore DB TX}.
Definition channelHasMixedCrypto (ord1 ord2 : Channels.order) (chans : Channels.Manager DB) (crypto : gmap Z gostring) (channelID : Z)
    : option bool :=
  (fun cids => mixed_loop crypto cids ∅) <$> Channels.ConnectedChannelIDs ord1 ord2 chans channelID.

(** The entry of a channel says what its users use. *)
Definition entry_fresh (users : Manager) (crypto : gmap Z gostring) (cid : Z) : Prop :=
  crypto !! cid = (let mode := aggregate (crypto_modes (SnapshotByChannel users cid)) in if bool_decide (mode = []) then None else Some mode).

Lemma update_other users crypto cid cid' : cid' <> cid -> UpdateChannelCrypto users crypto cid !! cid' = crypto !! cid'.
Proof. intros H. unfold UpdateChannelCrypto. case_bool_decide; [by rewrite lookup_delete_ne|by rewrite lookup_insert_ne]. Qed.
Lemma update_self users crypto cid : entry_fresh users (UpdateChannelCrypto users crypto cid) cid.
Proof. unfold entry_fresh, UpdateChannelCrypto. cbn zeta. case_bool_decide; [apply lookup_delete_eq|apply lookup_insert_eq]. Qed.
Lemma updates_fresh users cids : forall crypto cid, (cid ∈ cids \/ entry_fresh users crypto cid) ->
  entry_fresh users (fold_left (UpdateChannelCrypto users) cids crypto) cid.
Proof.
  induction cids as [|c cids IH]; intros crypto cid H; cbn [fold_left]; [by destruct H as [H%elem_of_nil|H]|].
  apply IH. destruct (decide (cid = c)) as [->|Hne]; [right; apply update_self|].
  destruct H as [[?|H]%elem_of_cons|H]; [done|by left|right]. unfold entry_fresh in *. by rewrite update_other.
Qed.

(** [m] is a mode in use in the channel. *)
Definition in_use (users : Manager) (cid : Z) (m : gostring) : Prop := m ∈ crypto_modes (SnapshotByChannel users cid).

(** What the entry of one channel contributes. *)
Lemma fresh_cases users crypto cid : entry_fresh users crypto cid -> (forall m, in_use users cid m -> m <> mixed) ->
  match crypto !! cid with
  | None => forall m, ~ in_use users cid m
  | Some m => m <> [] /\ (m = mixed -> exists m1 m2, m1 <> m2 /\ in_use users cid m1 /\ in_use users cid m2) /\
              (m <> mixed -> forall m', in_use users cid m' <-> m' = m)
  end.
Proof.
  unfold entry_fresh, in_use. intros -> Hm. cbn zeta. set (S := crypto_modes (SnapshotByChannel users cid)) in *.
  assert (forall m, m ∈ S -> m <> []) as Hne.
  { intros m. subst S. unfold crypto_modes. rewrite elem_of_list_to_set, list_elem_of_filter. by intros []. }
  unfold aggregate. destruct (elements S) as [|m1 [|m2 l]] eqn:E.
  - rewrite bool_decide_eq_true_2 by done. intros m Hin. apply elem_of_elements in Hin. rewrite E in Hin. by apply elem_of_nil in Hin.
  - assert (forall m', m' ∈ S <-> m' = m1) as Hs.
    { intros m'. rewrite <- elem_of_elements, E. apply list_elem_of_singleton. }
    assert (m1 ∈ S) as H1 by (by apply Hs). rewrite bool_decide_eq_false_2 by (by apply Hne).
    split; [by apply Hne|]. split; [|done]. intros ->. by destruct (Hm mixed H1).
  - rewrite bool_decide_eq_false_2 by done. split; [done|]. split; [|done]. intros _. exists m1, m2.
    pose proof (NoDup_elements S) as N. rewrite E in N. apply list.NoDup_cons in N as [N _].
    split; [intros ->; apply N; by left|]. split; apply elem_of_elements; rewrite E; [by left|right; by left].
Qed.

Lemma mixed_loop_spec users crypto cids : (forall cid, cid ∈ cids -> entry_fresh users crypto cid) ->
  (forall cid m, cid ∈ cids -> in_use users cid m -> m <> mixed) ->
  forall allModes : gset gostring,
  mixed_loop crypto cids allModes = true <->
  exists m1 m2, m1 <> m2 /\ (m1 ∈ allModes \/ exists c, c ∈ cids /\ in_use users c m1) /\ (m2 ∈ allModes \/ exists c, c ∈ cids /\ in_use users c m2).
Proof.
  induction cids as [|cid cids IH]; intros Hf Hm allModes; cbn [mixed_loop].
  - rewrite Z.ltb_lt. split.
    + intros Hs. assert (exists m1 m2, m1 <> m2 /\ m1 ∈ allModes /\ m2 ∈ allModes) as (m1 & m2 & H & H1 & H2); [|exists m1, m2; tauto].
      unfold size, set_size in Hs. cbn in Hs. destruct (elements allModes) as [|m1 [|m2 l]] eqn:E; cbn in Hs; [lia|lia|].
      exists m1, m2. pose proof (NoDup_elements allModes) as N. rewrite E in N. apply list.NoDup_cons in N as [N _].
      split; [intros ->; apply N; by left|]. split; apply elem_of_elements; rewrite E; [by left|right; by left].
    + intros (m1 & m2 & H & [H1|(c & Hc%elem_of_nil & _)] & [H2|(c' & Hc'%elem_of_nil & _)]); try done.
      assert (size ({[m1; m2]} : gset gostring) <= size allModes)%nat as Hle by (apply subseteq_size; set_solver).
      rewrite size_union in Hle by set_solver. rewrite !size_singleton in Hle. lia.
  - specialize (IH ltac:(intros; apply Hf; by right) ltac:(intros c m Hc; apply Hm; by right)).
    pose proof (fresh_cases users crypto cid (Hf cid ltac:(by left)) (fun m => Hm cid m ltac:(by left))) as K.
    assert (forall m, (exists c, c ∈ cid :: cids /\ in_use users c m) <-> in_use users cid m \/ exists c, c ∈ cids /\ in_use users c m) as Hex.
    { intros m. split.
      - intros (c & [->|Hc]%elem_of_cons & Hu); [by left|right; eauto].
      - intros [Hu|(c & Hc & Hu)]; [exists cid; split; [by left|done]|exists c; split; [by right|done]]. }
    setoid_rewrite Hex. destruct (crypto !! cid) as [m|].
    + destruct K as (K1 & K2 & K3). rewrite bool_decide_eq_false_2 by done. case_bool_decide as Em.
      * split; [|done]. intros _. destruct (K2 Em) as (m1 & m2 & H & H1 & H2). exists m1, m2. tauto.
      * rewrite IH. specialize (K3 Em). setoid_rewrite elem_of_union. setoid_rewrite elem_of_singleton. setoid_rewrite K3.
        split; intros (m1 & m2 & H); exists m1, m2; tauto.
    + rewrite IH. split; intros (m1 & m2 & H & H1 & H2); exists m1, m2; [tauto|]. split; [done|].
      destruct H1 as [?|[Hb|?]], H2 as [?|[Hb'|?]]; try tauto; by apply K in Hb || by apply K in Hb'.
Qed.

(** The users whose voice reaches the channel through links. *)
Definition speaks_with (chans : Channels.Manager DB) (users : Manager) (ch : Z) (u : User.t) : Prop :=
  u ∈ UserManager.users users /\ User.CryptoMode u <> [] /\ rtc (Channels.link chans) ch (User.ChannelID u).

Lemma in_use_spec users cid m : in_use users cid m <->
  exists u, u ∈ UserManager.users users /\ User.ChannelID u = cid /\ User.CryptoMode u = m /\ m <> [].
Proof.
  unfold in_use, crypto_modes, SnapshotByChannel. rewrite elem_of_list_to_set, list_elem_of_filter, list_elem_of_fmap. split.
  - intros [Hne (u & -> & [Hc Hu]%list_elem_of_filter)]. by exists u.
  - intros (u & Hu & Hc & <- & Hne). split; [done|]. exists u. split; [done|]. by apply list_elem_of_filter.
Qed.

(** Voice is forced through TCP exactly when it must be: if the entries of
    all channels but [changed] are up to date and the server recomputes those,
    [channelHasMixedCrypto] ends and says whether two users connected to the
    channel by links use different crypto modes. *)
Theorem mixed_crypto_exact (ord1 ord2 : Channels.order) (chans : Channels.Manager DB) (users : Manager) (crypto : gmap Z gostring)
    (changed : list Z) (ch : Z) :
  Channels.order_ok ord1 -> Channels.order_ok ord2 -> is_Some (Channels.tree chans !! ch) ->
  (forall u, u ∈ UserManager.users users -> User.CryptoMode u <> mixed) ->
  (forall cid, cid ∉ changed -> entry_fresh users crypto cid) ->
  exists b, channelHasMixedCrypto ord1 ord2 chans (fold_left (UpdateChannelCrypto users) changed crypto) ch = Some b /\
    (b = true <-> exists u v, speaks_with chans users ch u /\ speaks_with chans users ch v /\ User.CryptoMode u <> User.CryptoMode v).
Proof.
  intros Ho1 Ho2 Hch Hmix Hfresh. unfold channelHasMixedCrypto.
  destruct (Channels.connected_component ord1 ord2 chans ch Ho1 Ho2 Hch) as (comp & -> & Hcomp). cbn [fmap option_fmap option_map].
  eexists. split; [reflexivity|]. set (crypto' := fold_left _ _ _).
  assert (forall cid, entry_fresh users crypto' cid) as Hf.
  { intros cid. apply updates_fresh. destruct (decide (cid ∈ changed)); [by left|right; by apply Hfresh]. }
  rewrite (mixed_loop_spec users); [|intros cid _; apply Hf|].
  - assert (forall m, (m ∈ (∅ : gset gostring) \/ exists c, c ∈ Channels.sortedLinkIDs ord2 comp /\ in_use users c m) <->
      exists u, speaks_with chans users ch u /\ User.CryptoMode u = m) as Hin.
    { intros m. split.
      - intros [H%elem_of_empty|(c & Hc & (u & Hu & <- & <- & Hne)%in_use_spec)]; [done|].
        apply Channels.elem_of_sortedLinkIDs in Hc; [|done]. exists u. split; [|done]. split; [done|]. split; [done|]. by apply Hcomp.
      - intros (u & (Hu & Hne & Hl) & <-). right. exists (User.ChannelID u). split.
        + apply Channels.elem_of_sortedLinkIDs; [done|]. by apply Hcomp.
        + apply in_use_spec. by exists u. }
    split.
    + intros (m1 & m2 & H & H1 & H2). apply Hin in H1 as (u & Hu & <-). apply Hin in H2 as (v & Hv & <-). by exists u, v.
    + intros (u & v & Hu & Hv & H). exists (User.CryptoMode u), (User.CryptoMode v). split; [done|]. split; apply Hin; eauto.
  - intros cid m _ (u & Hu & _ & <- & _)%in_use_spec. by apply Hmix.
Qed.
End Mixed.
End ChannelCrypto.
