(* ===== verification/VoiceRouting.v ===== *)
(** * Routing voice

    [Router.RouteRef] ([internal/audio/router.go]) over a configuration of
    functions, [Dispatcher.DispatchVoice] ([internal/cluster/dispatcher.go]),
    and the part of the server they are built on: voice targets
    ([internal/mumble/voicetarget.go]), the gates of speaking and hearing and
    [SendVoice] ([internal/mumble/handlers.go]). A permission check is asked
    for its answer only: what it leaves in the cache changes no later answer. *)

From Stdlib Require Import ZArith Lia String.
From stdpp Require Import base numbers list gmap sets option sorting.
From S2P Require Import Prelude Wire Fields Messages AudioVarint AudioPacket AudioCache Registry UserManager ChannelManager Acl AclCache Listeners VoiceState.

Module Routing.
Import Messages.

(** ** The router *)

Record Recipient := mkRecipient { r_SessionID : Z; r_Session : SessionRef; r_Delivery : Delivery }.

(** A function the configuration may leave unset is an [option]. *)
Record RouterConfig := mkConfig {
  HasSender : bool;
  GetChan : option (Z -> Z);
  GetUsersInChan : option (Z -> list Z);
  ResolveVoiceTarget : option (Z -> Z -> Frame -> list Recipient);
  ResolveSession : option (Z -> option SessionRef);
  GetLinkedChans : option (Z -> list Z);
  GetListenersInChan : option (Z -> list Z);
  GetListenerVolume : option (Z -> Z -> Z);
  FilterRecipient : option (Z -> Z -> bool);
  CanSenderSpeak : option (Z -> bool);
  CanSenderSpeakInChan : option (Z -> Z -> bool) }.

(** What the router does where a function is unset. *)
Definition resolve_session (cfg : RouterConfig) (sid : Z) : option SessionRef :=
  match ResolveSession cfg with Some g => g sid | None => Some (mkRef sid 0) end.
Definition linked_chans (cfg : RouterConfig) (ch : Z) : list Z :=
  match GetLinkedChans cfg with Some g => g ch | None => [] end.
Definition listeners_in (cfg : RouterConfig) (ch : Z) : list Z :=
  match GetListenersInChan cfg with Some g => g ch | None => [] end.
Definition listener_volume (cfg : RouterConfig) (sid ch : Z) : Z :=
  match GetListenerVolume cfg with Some g => g sid ch | None => f32_one end.
Definition filter_recipient (cfg : RouterConfig) (sender sid : Z) : bool :=
  match FilterRecipient cfg with Some g => g sender sid | None => true end.
Definition can_speak (cfg : RouterConfig) (sender : Z) : bool :=
  match CanSenderSpeak cfg with Some g => g sender | None => true end.
Definition can_speak_in (cfg : RouterConfig) (sender ch : Z) : bool :=
  match CanSenderSpeakInChan cfg with Some g => g sender ch | None => true end.

(** A call of [Sender.SendVoice]. *)
Definition sending : Type := SessionRef * Frame * list Recipient.

(** The closure [add]. *)
Definition add_recipient (cfg : RouterConfig) (sender : Z) (f : Frame) (recipients : gmap Z Delivery) (c : Z * Z * Z) : gmap Z Delivery :=
  let '(sid, context, volume) := c in
  if (sid =? sender) || negb (filter_recipient cfg sender sid) then recipients else
  let d := mkDelivery f context volume in
  let d := match recipients !! sid with Some old => MergeDelivery old d | None => d end in
  <[sid := d]> recipients.

(** The calls of [add] for one channel, and for all. *)
Definition channel_calls (cfg : RouterConfig) (users : Z -> list Z) (sender cid : Z) : list (Z * Z * Z) :=
  if negb (can_speak_in cfg sender cid) then [] else
  map (fun sid => (sid, ContextNormal, f32_one)) (users cid) ++
  map (fun sid => (sid, ContextListen, listener_volume cfg sid cid)) (listeners_in cfg cid).
Definition route_calls (cfg : RouterConfig) (users : Z -> list Z) (ch sender : Z) : list (Z * Z * Z) :=
  concat (map (channel_calls cfg users sender) (ch :: linked_chans cfg ch)).

(** [ord] is the order of the loop over [recipients]. *)
Definition canonical (cfg : RouterConfig) (ord : Channels.order) (recipients : gmap Z Delivery) : list Recipient :=
  omap (fun sid => d ← recipients !! sid; ref ← resolve_session cfg sid; Some (mkRecipient sid ref d))
    (ord (elements (dom recipients))).

Definition RouteRef (cfg : RouterConfig) (ord : Channels.order) (senderRef : SessionRef) (f : Frame) : option sending :=
  let sender := SessionID senderRef in
  if negb (HasSender cfg) || (31 <? Target f) then None else
  let f := f <| SenderSession := sender |> in
  if (0 <? Target f) && (Target f <? 31) then
    (fun resolve => (senderRef, f, resolve sender (u8 (Target f)) f)) <$> ResolveVoiceTarget cfg
  else if Target f =? 31 then Some (senderRef, f, [mkRecipient sender senderRef (mkDelivery f 0 0)]) else
  if negb (can_speak cfg sender) then None else
  match GetChan cfg, GetUsersInChan cfg with
  | Some chan, Some users =>
      let recipients := fold_left (add_recipient cfg sender f) (route_calls cfg users (chan sender) sender) ∅ in
      Some (senderRef, f, canonical cfg ord recipients)
  | _, _ => None
  end.

Definition Route (cfg : RouterConfig) (ord : Channels.order) (sender : Z) (f : Frame) : option sending :=
  ref ← resolve_session cfg sender; RouteRef cfg ord ref f.

(** ** What normal speech reaches *)

(** The deliveries of the calls for one session, in their order. *)
Definition deliveries (f : Frame) (sid : Z) (calls : list (Z * Z * Z)) : list Delivery :=
  map (fun c => mkDelivery f c.1.2 c.2) (filter (fun c => c.1.1 = sid) calls).
Definition admitted (cfg : RouterConfig) (sender sid : Z) : bool := negb (sid =? sender) && filter_recipient cfg sender sid.

Lemma deliveries_app f sid l1 l2 : deliveries f sid (l1 ++ l2) = deliveries f sid l1 ++ deliveries f sid l2.
Proof. unfold deliveries. by rewrite list.filter_app, map_app. Qed.

Definition merged (ds : list Delivery) : option Delivery :=
  match ds with [] => None | d :: ds => Some (merge_all d ds) end.
Lemma merged_snoc ds d : merged (ds ++ [d]) = Some (match merged ds with Some old => MergeDelivery old d | None => d end).
Proof. destruct ds as [|d0 ds]; [done|]. cbn. unfold merge_all. by rewrite fold_left_app. Qed.

Lemma add_recipients cfg sender f calls sid :
  fold_left (add_recipient cfg sender f) calls ∅ !! sid = if admitted cfg sender sid then merged (deliveries f sid calls) else None.
Proof.
  induction calls as [|[[s c] v] calls IH] using rev_ind.
  { cbn. rewrite lookup_empty. by destruct (admitted _ _ _). }
  rewrite fold_left_app, deliveries_app. cbn [fold_left add_recipient].
  set (m := fold_left (add_recipient cfg sender f) calls ∅) in *. unfold deliveries at 2. rewrite list.filter_cons. cbn [fst snd].
  destruct (decide (s = sid)) as [->|Hne].
  - cbn [filter list_filter map fst snd]. rewrite merged_snoc. unfold admitted in *.
    destruct (Z.eqb_spec sid sender); cbn [orb negb andb] in *; [done|].
    destruct (filter_recipient cfg sender sid); cbn [negb] in *; [|done]. rewrite lookup_insert_eq, IH. done.
  - cbn [filter list_filter map]. rewrite app_nil_r. destruct (_ || _); [done|]. by rewrite lookup_insert_ne.
Qed.

Lemma elem_of_canonical cfg ord recipients r : Channels.order_ok ord ->
  r ∈ canonical cfg ord recipients <->
  recipients !! r_SessionID r = Some (r_Delivery r) /\ resolve_session cfg (r_SessionID r) = Some (r_Session r).
Proof.
  intros Ho. destruct r as [sid ref d]. unfold canonical. rewrite list_elem_of_omap. cbn. split.
  - intros (sid' & _ & H). destruct (recipients !! sid') as [d'|] eqn:Ed; [|done]. cbn in H.
    destruct (resolve_session cfg sid') as [ref'|] eqn:Er; [|done]. injection H as <- <- <-. done.
  - intros [Hd Hr]. exists sid. rewrite Hd, Hr. split; [|done]. rewrite (Ho _), elem_of_elements. by apply elem_of_dom.
Qed.
Lemma canonical_once cfg ord recipients : Channels.order_ok ord -> NoDup (map r_SessionID (canonical cfg ord recipients)).
Proof.
  intros Ho. unfold canonical. assert (NoDup (ord (elements (dom recipients)))) as N by (rewrite (Ho _); apply NoDup_elements).
  induction N as [|sid l Hn N IH]; [constructor|]. cbn. destruct (recipients !! sid) as [d|]; [|done]. cbn.
  destruct (resolve_session cfg sid) as [ref|]; [|done]. cbn. constructor; [|done].
  intros (r & -> & (sid' & Hs & H)%list_elem_of_omap)%list_elem_of_fmap.
  destruct (recipients !! sid') as [d'|]; [|done]. cbn in H. destruct (resolve_session cfg sid'); [|done]. by injection H as <-.
Qed.

(** A session is reached from the channel [cid], as a member or a listener. *)
Definition reached (cfg : RouterConfig) (users : Z -> list Z) (sid cid : Z) : Prop := sid ∈ users cid \/ sid ∈ listeners_in cfg cid.
Lemma elem_of_channel_calls cfg users sender cid sid context volume :
  (sid, context, volume) ∈ channel_calls cfg users sender cid <->
  can_speak_in cfg sender cid = true /\
  ((sid ∈ users cid /\ context = ContextNormal /\ volume = f32_one) \/
   (sid ∈ listeners_in cfg cid /\ context = ContextListen /\ volume = listener_volume cfg sid cid)).
Proof.
  unfold channel_calls. destruct (can_speak_in cfg sender cid); cbn [negb].
  - rewrite elem_of_app, !list_elem_of_fmap. split.
    + intros [(x & [= -> -> ->] & H)|(x & [= -> -> ->] & H)]; split; auto.
    + intros [_ [(H & -> & ->)|(H & -> & ->)]]; [left|right]; eauto.
  - rewrite elem_of_nil. naive_solver.
Qed.
Lemma elem_of_route_calls cfg users ch sender c : c ∈ route_calls cfg users ch sender <->
  exists cid, cid ∈ ch :: linked_chans cfg ch /\ c ∈ channel_calls cfg users sender cid.
Proof.
  unfold route_calls. rewrite list_elem_of_In, in_concat. split.
  - intros (l & Hl & Hc). apply in_map_iff in Hl as (cid & <- & Hcid). exists cid. by rewrite !list_elem_of_In.
  - intros (cid & Hcid & Hc). exists (channel_calls cfg users sender cid). rewrite in_map_iff. rewrite !list_elem_of_In in *. eauto.
Qed.

(** The least context and the greatest volume of the ways a session is
    reached. *)
Definition best (cfg : RouterConfig) (users : Z -> list Z) (ch sender sid : Z) (f : Frame) (d : Delivery) : Prop :=
  is_merge f (deliveries f sid (route_calls cfg users ch sender)) d.

Lemma merged_is_merge f ds d : merged ds = Some d -> Forall (fun d => frame d = f /\ f32_ordered (VolumeAdjustment d)) ds -> is_merge f ds d.
Proof. destruct ds as [|d0 ds]; [done|]. cbn. intros [= <-]. apply merge_all_is_merge. Qed.

(** The frame as the router stamps it. *)
Definition stamped (senderRef : SessionRef) (f : Frame) : Frame := f <| SenderSession := SessionID senderRef |>.

Lemma route_normal cfg ord chan users senderRef f : Channels.order_ok ord -> HasSender cfg = true ->
  GetChan cfg = Some chan -> GetUsersInChan cfg = Some users -> Target f = 0 -> can_speak cfg (SessionID senderRef) = true ->
  exists rs, RouteRef cfg ord senderRef f = Some (senderRef, stamped senderRef f, rs) /\ NoDup (map r_SessionID rs) /\
    forall r, r ∈ rs <-> admitted cfg (SessionID senderRef) (r_SessionID r) = true /\
      resolve_session cfg (r_SessionID r) = Some (r_Session r) /\
      merged (deliveries (stamped senderRef f) (r_SessionID r) (route_calls cfg users (chan (SessionID senderRef)) (SessionID senderRef))) =
        Some (r_Delivery r).
Proof.
  intros Ho Hse Hc Hu Ht Hs. unfold RouteRef. fold (stamped senderRef f). change (Target (stamped senderRef f)) with (Target f).
  rewrite Ht, Hs, Hse, Hc, Hu. cbn [Z.ltb Z.compare Z.eqb andb orb negb].
  eexists. split; [reflexivity|]. split; [by apply canonical_once|]. intros r.
  rewrite elem_of_canonical, add_recipients by done. destruct (admitted _ _ _); naive_solver.
Qed.

(** Some delivery exists exactly for the sessions reached from a channel the
    sender may speak in. *)
Lemma merged_reached cfg users ch sender f sid :
  is_Some (merged (deliveries f sid (route_calls cfg users ch sender))) <->
  exists cid, cid ∈ ch :: linked_chans cfg ch /\ can_speak_in cfg sender cid = true /\ reached cfg users sid cid.
Proof.
  transitivity (exists c v, (sid, c, v) ∈ route_calls cfg users ch sender).
  - unfold deliveries. split.
    + destruct (filter _ _) as [|[[s c] v] l] eqn:El; [by intros []|]. intros _. exists c, v.
      assert ((s, c, v) ∈ filter (fun c : Z * Z * Z => c.1.1 = sid) (route_calls cfg users ch sender)) as Hin by (rewrite El; by left).
      apply list_elem_of_filter in Hin as [Es Hin]. cbn in Es. by subst s.
    + intros (c & v & Hin). destruct (filter _ _) as [|x l] eqn:El; [|by eexists].
      assert ((sid, c, v) ∈ filter (fun c : Z * Z * Z => c.1.1 = sid) (route_calls cfg users ch sender)) as Hf by (by apply list_elem_of_filter).
      rewrite El in Hf. by apply elem_of_nil in Hf.
  - setoid_rewrite elem_of_route_calls. setoid_rewrite elem_of_channel_calls. unfold reached. split.
    + intros (c & v & cid & Hcid & Hsp & [(H & _)|(H & _)]); exists cid; auto.
    + intros (cid & Hcid & Hsp & [H|H]).
      * exists ContextNormal, f32_one, cid. auto 8.
      * exists ContextListen, (listener_volume cfg sid cid), cid. auto 8.
Qed.

(** The delivery takes the least context and the greatest volume of the ways
    the session is reached. *)
Lemma merged_best cfg users ch sender f sid d :
  (forall cid, f32_ordered (listener_volume cfg sid cid)) ->
  merged (deliveries f sid (route_calls cfg users ch sender)) = Some d -> best cfg users ch sender sid f d.
Proof.
  intros Hv Hm. apply merged_is_merge; [done|]. rewrite Forall_forall. intros x Hx%list_elem_of_In.
  unfold deliveries in Hx. apply list_elem_of_fmap in Hx as ([[s c] v] & -> & [Es Hin]%list_elem_of_filter). cbn in Es. subst s.
  split; [done|]. cbn. apply elem_of_route_calls in Hin as (cid & _ & (_ & [(_ & _ & ->)|(_ & _ & ->)])%elem_of_channel_calls); [|done].
  by split; [unfold f32_one; zlia|].
Qed.
Lemma merged_context ds d : merged ds = Some d -> (exists x, x ∈ ds /\ Context d = Context x) /\ forall x, x ∈ ds -> Context d <= Context x.
Proof.
  revert d. induction ds as [|x ds IH] using rev_ind; [done|]. intros d. rewrite merged_snoc. intros [= <-].
  destruct (merged ds) as [old|] eqn:Em.
  - destruct (IH old eq_refl) as [(y & Hy & Ey) Hmin].
    assert (Context (MergeDelivery old x) = Z.min (Context old) (Context x)) as E.
    { unfold MergeDelivery. destruct (Z.ltb_spec (Context x) (Context old)); destruct (f32_gt _ _); cbn; lia. }
    rewrite E. split.
    + destruct (Z.min_spec (Context old) (Context x)) as [[_ ->]|[_ ->]].
      * exists y. split; [|done]. apply elem_of_app. by left.
      * exists x. split; [|done]. apply elem_of_app. right. by left.
    + intros z [Hz| ->%list_elem_of_singleton]%elem_of_app; [specialize (Hmin z Hz)|]; lia.
  - destruct ds; [|done]. split; [exists x; split; [by left|done]|]. intros z ->%list_elem_of_singleton. lia.
Qed.

(** Who is reached as a member hears normal speech, who only listens hears
    it as a listener. *)
Lemma merged_how cfg users ch sender f sid d : merged (deliveries f sid (route_calls cfg users ch sender)) = Some d ->
  let via (P : Z -> Prop) := exists cid, cid ∈ ch :: linked_chans cfg ch /\ can_speak_in cfg sender cid = true /\ P cid in
  (Context d = ContextNormal /\ via (fun cid => sid ∈ users cid)) \/
  (Context d = ContextListen /\ via (fun cid => sid ∈ listeners_in cfg cid) /\ ~ via (fun cid => sid ∈ users cid)).
Proof.
  intros Hm via. destruct (merged_context _ _ Hm) as [(x & Hx & Ex) Hmin]. unfold deliveries in Hx, Hmin.
  apply list_elem_of_fmap in Hx as ([[sid' c] v] & -> & [E Hin]%list_elem_of_filter). cbn in E, Ex. subst sid'.
  apply elem_of_route_calls in Hin as (cid & Hcid & (Hsp & Hw)%elem_of_channel_calls).
  destruct Hw as [(Hu & -> & ->)|(Hl & -> & ->)].
  - left. split; [done|]. by exists cid.
  - right. split; [done|]. split; [by exists cid|]. intros (cid' & Hcid' & Hsp' & Hu).
    assert (Context d <= ContextNormal); [|rewrite Ex in *; unfold ContextListen, ContextNormal in *; lia].
    apply (Hmin (mkDelivery f ContextNormal f32_one)). apply list_elem_of_fmap. exists (sid, ContextNormal, f32_one). split; [done|].
    apply list_elem_of_filter. split; [done|]. apply elem_of_route_calls. exists cid'. split; [done|]. apply elem_of_channel_calls. tauto.
Qed.

Lemma merged_frame f sid calls d : merged (deliveries f sid calls) = Some d -> frame d = f.
Proof.
  unfold deliveries. set (l := filter _ calls). clearbody l. revert d. induction l as [|c l IH] using rev_ind; [done|]. intros d.
  rewrite map_app. cbn [map]. rewrite merged_snoc. intros [= <-]. destruct (merged (map _ l)) as [old|]; [|done].
  specialize (IH old eq_refl). unfold MergeDelivery. by repeat case_match.
Qed.
End Routing.
