(* ===== verification/VoiceServer.v ===== *)
(** * The server's voice path

    The state voice depends on, as one record; the gates of speaking and
    hearing, the router configuration of [NewServer] and [SendVoice]
    ([internal/mumble/handlers.go]); voice targets
    ([internal/mumble/voicetarget.go]); the grouping by edge of
    [Dispatcher.DispatchVoice] ([internal/cluster/dispatcher.go]).

    A permission check is asked for its answer only: [aclCheck_current] shows
    that what checks leave in the cache changes no answer. *)

From Stdlib Require Import ZArith Lia String.
From stdpp Require Import base numbers list gmap sets option sorting.
From S2P Require Import Prelude Wire Fields Messages AudioVarint AudioPacket AudioCache Registry UserManager ChannelManager Acl AclCache Listeners VoiceState VoiceRouting.

Module VoiceServer.
Import Acl AclCache Listeners ChannelCrypto Routing.

(** ** The state *)

Record voiceTargetSpec := mkSpec {
  owner : SessionRef;
  sessions : gmap Z SessionRef;
  channels : list VoiceTargetTarget.t }.
#[global] Instance voiceTargetSpec_eta : Eta voiceTargetSpec := fun v => mkSpec (owner v) (sessions v) (channels v).

Record voiceRecipient := mkVoiceRecipient { vr_session : Z; vr_ref : SessionRef; vr_delivery : Delivery }.
#[global] Instance voiceRecipient_eta : Eta voiceRecipient := fun r => mkVoiceRecipient (vr_session r) (vr_ref r) (vr_delivery r).

(** [types.go] of the cluster package. *)
Record VoiceRecipient := mkBatchRecipient {
  br_Session : SessionRef; br_Context : Z; br_Volume : Z; br_HasPosition : bool; br_ForceTunnel : bool }.
Record VoiceBatch := mkBatch { b_Sender : SessionRef; b_Frame : Frame; b_Recipients : list VoiceRecipient }.

(** [srv_acl] is [None] for a server without an evaluator; [voice] the edges
    with a registered transport. *)
Record Server {DB : Type} := mkServer {
  srv_users : Manager;
  srv_chans : Channels.Manager DB;
  srv_registry : Registry;
  srv_listeners : listenerManager;
  srv_crypto : gmap Z gostring;
  srv_store : AclStore;
  srv_acl : option Evaluator;
  voiceTargets : gmap Z (gmap Z voiceTargetSpec);
  voice : gset EdgeID }.
Arguments Server : clear implicits.

Section Server.
Context (EqualFold : gostring -> gostring -> bool).
Context `{SO : Channels.Sorter} {DB TX : Type} `{CS : Channels.ChannelStore DB TX}.
#[local] Instance Server_eta : Eta (Server DB) := fun s =>
  mkServer DB (srv_users s) (srv_chans s) (srv_registry s) (srv_listeners s) (srv_crypto s) (srv_store s) (srv_acl s) (voiceTargets s) (voice s).

(** The order of the loop at each place that ranges over a map. *)
Context (ord : nat -> Channels.order) (ordE : list EdgeID -> list EdgeID).

Implicit Types s : Server DB.

(** ** Permissions and gates *)

Definition baselinePermissions : Z := DefaultPermissions.
Definition aclCheck s (subject : Subject) (channelID perm : Z) : bool :=
  match srv_acl s with
  | None => Z.land baselinePermissions perm =? perm
  | Some e => (Check EqualFold (srv_store s) (srv_users s) e (srv_chans s) subject channelID perm).2
  end.

Definition silenced (v : VoiceState) : bool := Mute v || Suppress v || SelfMute v.
Definition sessionActive s (sid : Z) : bool :=
  match Ref (srv_registry s) sid with Some rf => Active (srv_registry s) rf | None => false end.

Definition canSenderSpeak s (sessionID : Z) : bool :=
  if negb (sessionActive s sessionID) then false else
  match SpeakGateFor (srv_users s) sessionID with
  | None => false
  | Some g => negb (silenced (gate_Voice g))
  end.

Definition canSenderSpeakInChannel s (sessionID channelID : Z) : bool :=
  match SpeakGateFor (srv_users s) sessionID with
  | None => false
  | Some g =>
      if silenced (gate_Voice g) then false
      else aclCheck s (mkSubject sessionID (gate_UserID g) 0) channelID PermissionSpeak
  end.

Definition audioFilterRecipient s (senderSessionID recipientSessionID : Z) : bool :=
  if negb (sessionActive s recipientSessionID) then false else
  match VoiceStateOf (srv_users s) recipientSessionID with
  | None => false
  | Some vs => negb (Deaf vs) && negb (SelfDeaf vs)
  end.

(** [ConnectedChannelIDs] ends for every channel ([connected_known]). *)
Definition connected s (cid : Z) : list Z := default [] (Channels.ConnectedChannelIDs (ord 0%nat) (ord 1%nat) (srv_chans s) cid).
Definition hasMixedCrypto s (cid : Z) : bool :=
  default false (channelHasMixedCrypto (ord 0%nat) (ord 1%nat) (srv_chans s) (srv_crypto s) cid).

(** ** Voice targets *)

(** The loops of [storeVoiceTarget] over one target. *)
Definition note_session s (m : gmap Z SessionRef) (id : Z) : gmap Z SessionRef :=
  match Snapshot (srv_users s) id with
  | None => m
  | Some recipient =>
      let rf := mkRef id (User.SessionGeneration recipient) in
      match Registry.Snapshot (srv_registry s) rf with Some _ => <[id := rf]> m | None => m end
  end.
Definition note_target s (spec : voiceTargetSpec) (target : VoiceTargetTarget.t) : voiceTargetSpec :=
  let spec := spec <| sessions := fold_left (note_session s) (VoiceTargetTarget.Session target) (sessions spec) |> in
  if VoiceTargetTarget.HasChannelID target then
    match Channels.GetChannel (srv_chans s) (VoiceTargetTarget.ChannelID target) with
    | Some _ => spec <| channels := channels spec ++ [target <| VoiceTargetTarget.Session := [] |>] |>
    | None => spec
    end
  else spec.

Definition spec_empty (spec : voiceTargetSpec) : bool := bool_decide (sessions spec = ∅) && bool_decide (channels spec = []).

(** [c] is the session and the generation of the peer. *)
Definition storeVoiceTarget s (c : SessionRef) (vt : VoiceTarget.t) : Server DB :=
  let sid := SessionID c in
  match Snapshot (srv_users s) sid with
  | None => s
  | Some u =>
      if negb (User.SessionGeneration u =? Generation c) then s else
      let ownerRef := mkRef sid (User.SessionGeneration u) in
      match Registry.Snapshot (srv_registry s) ownerRef with
      | None => s
      | Some _ =>
          let spec := fold_left (note_target s) (VoiceTarget.Targets vt) (mkSpec ownerRef ∅ []) in
          let merged := default ∅ (voiceTargets s !! sid) in
          let merged := if spec_empty spec then delete (u8 (VoiceTarget.ID vt)) merged else <[u8 (VoiceTarget.ID vt) := spec]> merged in
          s <| voiceTargets := if bool_decide (merged = ∅) then delete sid (voiceTargets s) else <[sid := merged]> (voiceTargets s) |>
      end
  end.

(** The body of the [Range] of [removeVoiceTargetsLocked] on one entry. *)
Definition drop_explicit (sid : Z) (spec : voiceTargetSpec) : voiceTargetSpec :=
  match sessions spec !! sid with Some _ => spec <| sessions := delete sid (sessions spec) |> | None => spec end.
Definition drop_references (sid : Z) (targets : gmap Z voiceTargetSpec) : option (gmap Z voiceTargetSpec) :=
  if bool_decide (map_Forall (fun _ spec => sessions spec !! sid = None) targets) then Some targets else
  let updated := filter (fun kv => spec_empty kv.2 = false) (drop_explicit sid <$> targets) in
  if bool_decide (updated = ∅) then None else Some updated.
Definition removeVoiceTargetsLocked s (sessionID : Z) : Server DB :=
  s <| voiceTargets := omap (drop_references sessionID) (delete sessionID (voiceTargets s)) |>.

(** The closures of [resolveVoiceTarget]. The maps [checked] and [permitted]
    only remember the answers of [canWhisper]. *)
Definition canWhisper s (speaker : User.t) (cid : Z) : bool :=
  match srv_acl s with
  | None => aclCheck s (SubjectOf speaker) cid PermissionWhisper
  | Some e => CheckCurrent EqualFold (srv_store s) (srv_users s) e (srv_chans s) (SubjectOf speaker) cid PermissionWhisper
  end.
Definition groupAllows s (target : VoiceTargetTarget.t) (cid : Z) (u : User.t) : bool :=
  if bool_decide (VoiceTargetTarget.Group target = []) then true else
  match srv_acl s with
  | None => false
  | Some e => InGroup EqualFold (srv_store s) e (srv_chans s) u cid (VoiceTargetTarget.Group target)
  end.

Definition ref_of (u : User.t) : SessionRef := mkRef (User.SessionID u) (User.SessionGeneration u).
(** The zero [Frame] of a delivery in the making. *)
Definition no_frame : Frame := mkFrame 0 0 0 0 [] [0; 0; 0] false false.
Definition call : Type := User.t * Z * Z.
Definition add s (sessionID : Z) (acc : list voiceRecipient * gmap Z nat) (c : call) : list voiceRecipient * gmap Z nat :=
  let '(recipients, seen) := acc in
  let '(u, context, volume) := c in
  if (User.SessionID u =? sessionID) || Deaf (User.Voice u) || SelfDeaf (User.Voice u) then acc else
  if negb (Active (srv_registry s) (ref_of u)) then acc else
  let d := mkDelivery no_frame context volume in
  match seen !! User.SessionID u with
  | Some index => (alter (fun r => r <| vr_delivery := MergeDelivery (vr_delivery r) d |>) index recipients, seen)
  | None => (recipients ++ [mkVoiceRecipient (User.SessionID u) (ref_of u) d], <[User.SessionID u := length recipients]> seen)
  end.

(** The calls of [add], in order. *)
Definition session_calls s (speaker : User.t) (spec : voiceTargetSpec) : list call :=
  omap (fun sid =>
    expected ← sessions spec !! sid;
    if negb (Active (srv_registry s) expected) then None else
    u ← Snapshot (srv_users s) sid;
    if (User.SessionGeneration u =? Generation expected) && canWhisper s speaker (User.ChannelID u)
    then Some (u, ContextWhisper, f32_one) else None) (ord 2%nat (elements (dom (sessions spec)))).

Definition channel_calls s (speaker : User.t) (target : VoiceTargetTarget.t) (cid : Z) : list call :=
  if negb (canWhisper s speaker cid) then [] else
  map (fun u => (u, ContextShout, f32_one)) (filter (fun u => groupAllows s target cid u = true) (SnapshotByChannel (srv_users s) cid)) ++
  omap (fun sid =>
    u ← Snapshot (srv_users s) sid;
    if groupAllows s target cid u then Some (u, ContextListen, Volume (srv_listeners s) sid cid) else None)
    (SessionIDsIn (ord 3%nat) (srv_listeners s) cid).

(** The set [channels]; the walks may need fuel. *)
Definition target_channels s (target : VoiceTargetTarget.t) : option (gset Z) :=
  let id := VoiceTargetTarget.ChannelID target in
  linked ← (if VoiceTargetTarget.Links target then Channels.ConnectedChannelIDs (ord 0%nat) (ord 1%nat) (srv_chans s) id else Some []);
  below ← (if VoiceTargetTarget.Children target then Channels.SubtreeIDs (srv_chans s) id else Some []);
  Some ({[id]} ∪ list_to_set linked ∪ list_to_set below).
Definition target_calls s (speaker : User.t) (target : VoiceTargetTarget.t) : option (list call) :=
  match Channels.GetChannel (srv_chans s) (VoiceTargetTarget.ChannelID target) with
  | None => Some []
  | Some _ => (fun cids => concat (map (channel_calls s speaker target) (ord 4%nat (elements cids)))) <$> target_channels s target
  end.
Fixpoint targets_calls s (speaker : User.t) (targets : list VoiceTargetTarget.t) : option (list call) :=
  match targets with
  | [] => Some []
  | t :: targets => l ← target_calls s speaker t; l' ← targets_calls s speaker targets; Some (l ++ l')
  end.

Definition resolveVoiceTarget s (sessionID targetID : Z) : option (list voiceRecipient) :=
  match voiceTargets s !! sessionID ≫= (.!! targetID) with
  | None => Some []
  | Some spec =>
      if negb (Active (srv_registry s) (owner spec)) then Some [] else
      match Snapshot (srv_users s) sessionID with
      | None => Some []
      | Some speaker =>
          if silenced (User.Voice speaker) then Some [] else
          calls ← targets_calls s speaker (channels spec);
          Some (fold_left (add s sessionID) (session_calls s speaker spec ++ calls) ([], ∅)).1
      end
  end.
Definition getVoiceTargetRecipients s (sessionID targetID : Z) : option (list Z) :=
  map vr_session <$> resolveVoiceTarget s sessionID targetID.
Definition resolveVoiceTargetCanonical s (sessionID targetID : Z) (f : Frame) : option (list Recipient) :=
  map (fun r => mkRecipient (vr_session r) (vr_ref r) ((vr_delivery r) <| frame := f |>)) <$> resolveVoiceTarget s sessionID targetID.

(** ** The router of [NewServer] *)

Definition server_config s : RouterConfig :=
  {| HasSender := true;
     GetChan := Some (fun sid => default 0 (ChannelIDOf (srv_users s) sid));
     GetUsersInChan := Some (SessionIDsInChannel (srv_users s));
     ResolveVoiceTarget := Some (fun sid tid f => default [] (resolveVoiceTargetCanonical s sid tid f));
     ResolveSession := Some (Ref (srv_registry s));
     GetLinkedChans := Some (fun cid => filter (fun id => id <> cid) (connected s cid));
     GetListenersInChan := Some (SessionIDsIn (ord 3%nat) (srv_listeners s));
     GetListenerVolume := Some (Volume (srv_listeners s));
     FilterRecipient := Some (audioFilterRecipient s);
     CanSenderSpeak := Some (canSenderSpeak s);
     CanSenderSpeakInChan := Some (canSenderSpeakInChannel s) |}.

(** ** Dispatch *)

Definition group_one s (groups : gmap EdgeID (list VoiceRecipient)) (r : VoiceRecipient) : gmap EdgeID (list VoiceRecipient) :=
  match Registry.Snapshot (srv_registry s) (br_Session r) with
  | None => groups
  | Some sn =>
      if bool_decide (s_State sn = StateActive)
      then <[s_Edge sn := default [] (groups !! s_Edge sn) ++ [r]]> groups else groups
  end.
(** The calls of [DeliverVoice]. *)
Definition DispatchVoice s (batch : VoiceBatch) : list (EdgeID * VoiceBatch) :=
  if negb (Active (srv_registry s) (b_Sender batch)) then [] else
  let groups := fold_left (group_one s) (b_Recipients batch) ∅ in
  omap (fun e =>
    if bool_decide (e ∈ voice s)
    then (fun rs => (e, mkBatch (b_Sender batch) (b_Frame batch) rs)) <$> groups !! e else None)
    (ordE (elements (dom groups))).

Definition batch_recipient s (sender : Z) (r : Recipient) : option VoiceRecipient :=
  if negb (Active (srv_registry s) (r_Session r)) then None else
  let d := r_Delivery r in
  let hasPosition :=
    HasPosition (frame d) &&
    match Snapshot (srv_users s) sender, Snapshot (srv_users s) (r_SessionID r) with
    | Some speaker, Some target => bool_decide (User.PluginContext speaker = User.PluginContext target)
    | _, _ => false
    end in
  let forceTunnel :=
    match Snapshot (srv_users s) (r_SessionID r) with
    | Some target => hasMixedCrypto s (User.ChannelID target)
    | None => false
    end in
  Some (mkBatchRecipient (r_Session r) (Context d) (VolumeAdjustment d) hasPosition forceTunnel).
Definition SendVoice s (m : sending) : list (EdgeID * VoiceBatch) :=
  let '(sender, f, recipients) := m in
  if negb (Active (srv_registry s) sender) then [] else
  DispatchVoice s (mkBatch sender f (omap (batch_recipient s (SessionID sender)) recipients)).

(** A frame from a session, from the router to the edges. *)
Definition voice_in s (senderRef : SessionRef) (f : Frame) : list (EdgeID * VoiceBatch) :=
  match RouteRef (server_config s) (ord 5%nat) senderRef f with Some m => SendVoice s m | None => [] end.

(** ** The components, as voice uses them *)

(** What a permission check should answer. *)
Definition may s (subject : Subject) (cid perm : Z) : bool :=
  match srv_acl s with
  | None => Z.land baselinePermissions perm =? perm
  | Some e => CheckCurrent EqualFold (srv_store s) (srv_users s) e (srv_chans s) subject cid perm
  end.

Record server_ok s : Prop := {
  ok_users : mgr_wf (srv_users s);
  ok_chans : Channels.chan_wf (srv_chans s);
  ok_registry : registry_wf (srv_registry s);
  ok_listeners : exists L, refines (srv_listeners s) L;
  ok_acl : forall e, srv_acl s = Some e ->
    cache_valid EqualFold (srv_store s) (srv_users s) (temporary e) (srv_chans s) (cache e) }.

Lemma aclCheck_current s subject cid perm : server_ok s -> aclCheck s subject cid perm = may s subject cid perm.
Proof.
  intros W. unfold aclCheck, may. destruct (srv_acl s) as [e|] eqn:He; [|done].
  destruct (permissions_valid EqualFold (srv_store s) (srv_users s) e (srv_chans s) subject cid (ok_users s W) (ok_acl s W e He)) as (H & _).
  unfold Check, CheckCurrent, EffectivePermissions. destruct (permissions _ _ _ _ _ _ _ true) as [e' p]. cbn in *. by rewrite H.
Qed.

Lemma Snapshot_session s sid u : server_ok s -> Snapshot (srv_users s) sid = Some u -> User.SessionID u = sid.
Proof.
  intros W [l [Hl Hu]%user_at_Some]%Snapshot_Some. destruct (mw_session _ (ok_users s W) _ _ Hl) as (u' & Hu' & H & _). congruence.
Qed.
Lemma elem_of_users s u : server_ok s -> u ∈ UserManager.users (srv_users s) <-> Snapshot (srv_users s) (User.SessionID u) = Some u.
Proof.
  intros W. unfold UserManager.users. rewrite Snapshot_Some, list_elem_of_omap. split.
  - intros (l & ([sid l'] & -> & Hl%elem_of_map_to_list)%list_elem_of_fmap & Hu). cbn in Hu.
    exists l'. apply user_at_Some. destruct (mw_session _ (ok_users s W) _ _ Hl) as (u' & Hu' & H & _).
    assert (u' = u) as -> by congruence. by rewrite H.
  - intros (l & [Hl Hu]%user_at_Some). exists l. split; [|done]. apply list_elem_of_fmap. exists (User.SessionID u, l).
    split; [done|]. by apply elem_of_map_to_list.
Qed.
Lemma elem_of_SnapshotByChannel s cid u : server_ok s ->
  u ∈ SnapshotByChannel (srv_users s) cid <-> Snapshot (srv_users s) (User.SessionID u) = Some u /\ User.ChannelID u = cid.
Proof. intros W. unfold SnapshotByChannel. rewrite list_elem_of_filter, elem_of_users by done. naive_solver. Qed.
Lemma elem_of_SessionIDsInChannel s cid sid : server_ok s ->
  sid ∈ SessionIDsInChannel (srv_users s) cid <-> ChannelIDOf (srv_users s) sid = Some cid.
Proof.
  intros W. unfold SessionIDsInChannel, ChannelIDOf. change (filter _ _) with (SnapshotByChannel (srv_users s) cid).
  rewrite list_elem_of_fmap. split.
  - intros (u & -> & [Hu Hc]%elem_of_SnapshotByChannel); [|done]. rewrite Hu. cbn. by rewrite Hc.
  - destruct (Snapshot (srv_users s) sid) as [u|] eqn:Hu; [|done]. intros [= Hc]. exists u.
    pose proof (Snapshot_session s sid u W Hu) as Hs. split; [done|]. apply elem_of_SnapshotByChannel; [done|]. by rewrite Hs.
Qed.

Hypothesis Hord : forall i, Channels.order_ok (ord i).

Lemma elem_of_SessionIDsIn s cid sid : server_ok s ->
  sid ∈ SessionIDsIn (ord 3%nat) (srv_listeners s) cid <-> IsListening (srv_listeners s) sid cid = true.
Proof.
  intros W. destruct (ok_listeners s W) as [L R]. unfold SessionIDsIn, IsListening. rewrite ids_of_members by done.
  unfold sorted_ids. rewrite Channels.sortBy_perm, elem_of_ord, bool_decide_eq_true by done. apply (rf_inverse _ _ R).
Qed.

Lemma rtc_link_outside (m : Channels.Manager DB) a b : Channels.tree m !! a = None -> rtc (Channels.link m) a b -> b = a.
Proof. intros Ha H. destruct H as [|a b c (_ & [l Hl] & _)]; [done|congruence]. Qed.
(** The channels that hear a channel: itself and those its links lead to. *)
Lemma elem_of_connected s ch cid : cid ∈ ch :: filter (fun id => id <> ch) (connected s ch) <-> rtc (Channels.link (srv_chans s)) ch cid.
Proof.
  rewrite elem_of_cons, list_elem_of_filter. unfold connected. destruct (Channels.tree (srv_chans s) !! ch) as [l|] eqn:Ht.
  - destruct (Channels.connected_component (ord 0%nat) (ord 1%nat) (srv_chans s) ch (Hord _) (Hord _) ltac:(eauto)) as (comp & -> & Hc).
    cbn. rewrite Channels.elem_of_sortedLinkIDs, Hc by done. split; [intros [->|[_ H]]; [apply rtc_refl|done]|].
    intros H. destruct (decide (cid = ch)); [by left|by right].
  - unfold Channels.ConnectedChannelIDs. replace (Channels.in_tree (srv_chans s) ch) with false.
    + cbn. split; [intros [->|[_ H%elem_of_nil]]; [apply rtc_refl|done]|]. intros H. left. by eapply rtc_link_outside.
    + unfold Channels.in_tree. rewrite Ht. symmetry. apply bool_decide_eq_false_2. by intros [].
Qed.

(** ** Dispatch *)

(** The edge of an active session. *)
Definition edge_of s (rf : SessionRef) : option EdgeID :=
  match Registry.Snapshot (srv_registry s) rf with
  | Some sn => if bool_decide (s_State sn = StateActive) then Some (s_Edge sn) else None
  | None => None
  end.
Lemma Active_edge s rf : Active (srv_registry s) rf = true <-> is_Some (edge_of s rf).
Proof.
  unfold Active, edge_of. destruct (Registry.Snapshot _ rf) as [sn|]; [|by split; [|intros []]].
  case_bool_decide; split; try done; by intros [].
Qed.

Lemma group_all s rs e : default [] (fold_left (group_one s) rs ∅ !! e) = filter (fun r => edge_of s (br_Session r) = Some e) rs.
Proof.
  induction rs as [|r rs IH] using rev_ind; [cbn; by rewrite lookup_empty|].
  rewrite fold_left_app, list.filter_app, <- IH, list.filter_cons. cbn [fold_left]. set (g := fold_left (group_one s) rs ∅).
  unfold group_one, edge_of. destruct (Registry.Snapshot _ (br_Session r)) as [sn|]; [|by rewrite decide_False, app_nil_r].
  case_bool_decide; [|by rewrite decide_False, app_nil_r].
  destruct (decide (s_Edge sn = e)) as [<-|Hne].
  - by rewrite lookup_insert_eq, decide_True.
  - rewrite lookup_insert_ne by done. by rewrite decide_False, app_nil_r by congruence.
Qed.
Lemma group_some s rs e l : fold_left (group_one s) rs ∅ !! e = Some l -> l <> [].
Proof.
  revert l. induction rs as [|r rs IH] using rev_ind; [by intros l; cbn [fold_left]; rewrite lookup_empty|]. intros l.
  rewrite fold_left_app. cbn [fold_left]. unfold group_one. repeat case_match; try apply IH.
  destruct (decide (s_Edge s0 = e)) as [<-|Hne]; [rewrite lookup_insert_eq|by rewrite lookup_insert_ne; [apply IH|]].
  intros [= <-]. by destruct (default _ _).
Qed.

Lemma elem_of_DispatchVoice s batch e b : (forall l, ordE l ≡ₚ l) ->
  (e, b) ∈ DispatchVoice s batch <->
  Active (srv_registry s) (b_Sender batch) = true /\ e ∈ voice s /\ b_Recipients b <> [] /\
  b = mkBatch (b_Sender batch) (b_Frame batch) (filter (fun r => edge_of s (br_Session r) = Some e) (b_Recipients batch)).
Proof.
  intros HE. unfold DispatchVoice. destruct (Active _ _); cbn [negb]; [|rewrite elem_of_nil; naive_solver].
  rewrite list_elem_of_omap. setoid_rewrite (HE _). setoid_rewrite elem_of_elements. rewrite <- group_all.
  set (g := fold_left _ _ _). split.
  - intros (e' & He & H). case_bool_decide as Hv; [|done]. destruct (g !! e') as [l|] eqn:El; [|done]. cbn in H. injection H as <- <-.
    rewrite El. cbn. split; [done|]. split; [done|]. split; [|done]. by eapply group_some.
  - intros (_ & Hv & Hne & ->). cbn in Hne. exists e. destruct (g !! e) as [l|] eqn:El; [|done].
    split; [apply elem_of_dom; eauto|]. by rewrite bool_decide_eq_true_2.
Qed.
Lemma DispatchVoice_edges s batch : (forall l, ordE l ≡ₚ l) -> NoDup (map fst (DispatchVoice s batch)).
Proof.
  intros HE. unfold DispatchVoice. destruct (negb _); [constructor|]. set (g := fold_left _ _ _).
  assert (NoDup (ordE (elements (dom g)))) as N by (rewrite (HE _); apply NoDup_elements).
  induction N as [|e l Hn N IH]; [constructor|]. cbn. case_bool_decide; [|done]. destruct (g !! e) as [rs|]; [|done]. cbn.
  constructor; [|done]. intros ([e' b] & -> & (e'' & He & H')%list_elem_of_omap)%list_elem_of_fmap. case_bool_decide; [|done].
  destruct (g !! e'') as [rs'|]; [|done]. injection H' as <- _. done.
Qed.

(** ** Normal speech *)

Lemma Active_Ref s rf : Active (srv_registry s) rf = true -> Ref (srv_registry s) (SessionID rf) = Some rf.
Proof.
  unfold Active, Registry.Snapshot, Ref. destruct (session_entry _ _) as [[l e]|]; [|done].
  case_bool_decide as H; [|done]. intros _. by rewrite H.
Qed.
Lemma Ref_session s sid rf : server_ok s -> Ref (srv_registry s) sid = Some rf -> SessionID rf = sid.
Proof.
  intros W. unfold Ref. destruct (session_entry _ _) as [[l e]|] eqn:E; [|done]. intros [= <-].
  apply session_entry_Some in E as [E1 E2]. destruct (wf_sessions _ (ok_registry s W) _ _ E1) as (e' & E' & H & _). congruence.
Qed.

(** The sender is heard in the channel [cid]. *)
Definition speaks_in s (sender cid : Z) : Prop :=
  exists u, Snapshot (srv_users s) sender = Some u /\ silenced (User.Voice u) = false /\
    rtc (Channels.link (srv_chans s)) (User.ChannelID u) cid /\ may s (mkSubject sender (User.UserID u) 0) cid PermissionSpeak = true.
Definition member s (sid cid : Z) : Prop := ChannelIDOf (srv_users s) sid = Some cid.
Definition listens s (sid cid : Z) : Prop := IsListening (srv_listeners s) sid cid = true.
Definition not_deaf s (sid : Z) : Prop :=
  exists v, VoiceStateOf (srv_users s) sid = Some v /\ Deaf v = false /\ SelfDeaf v = false.

Lemma audioFilterRecipient_spec s sender sid : server_ok s ->
  audioFilterRecipient s sender sid = true <-> not_deaf s sid /\ exists rf, SessionID rf = sid /\ Ref (srv_registry s) sid = Some rf /\ is_Some (edge_of s rf).
Proof.
  intros W. unfold audioFilterRecipient, sessionActive, not_deaf. setoid_rewrite <- Active_edge. destruct (Ref _ sid) as [rf|] eqn:Er.
  - destruct (Active _ rf) eqn:Ea; cbn [negb].
    + destruct (VoiceStateOf _ _) as [v|]; [|naive_solver]. rewrite andb_true_iff, !negb_true_iff.
      pose proof (Ref_session s sid rf W Er). naive_solver.
    + split; [done|]. intros [_ (rf' & _ & [= <-] & H)]. congruence.
  - cbn. naive_solver.
Qed.

Lemma canSenderSpeak_spec s rf : Active (srv_registry s) rf = true ->
  canSenderSpeak s (SessionID rf) = true <-> exists u, Snapshot (srv_users s) (SessionID rf) = Some u /\ silenced (User.Voice u) = false.
Proof.
  intros Ha. unfold canSenderSpeak, sessionActive. rewrite (Active_Ref s rf Ha), Ha. cbn [negb]. unfold SpeakGateFor.
  destruct (Snapshot _ _) as [u|]; cbn; [|naive_solver]. rewrite negb_true_iff. naive_solver.
Qed.
Lemma canSenderSpeakInChannel_spec s sender u cid : server_ok s -> Snapshot (srv_users s) sender = Some u -> silenced (User.Voice u) = false ->
  canSenderSpeakInChannel s sender cid = may s (mkSubject sender (User.UserID u) 0) cid PermissionSpeak.
Proof.
  intros W Hu Hs. unfold canSenderSpeakInChannel, SpeakGateFor. rewrite Hu. cbn. rewrite Hs. by apply aclCheck_current.
Qed.

(** How the speech of [sender] comes to [sid]: as its own channel's, or only
    because it listens. *)
Definition heard_as s (sender sid context : Z) : Prop :=
  (context = ContextNormal /\ exists cid, speaks_in s sender cid /\ member s sid cid) \/
  (context = ContextListen /\ (exists cid, speaks_in s sender cid /\ listens s sid cid) /\
   ~ exists cid, speaks_in s sender cid /\ member s sid cid).

(** The channels of the router are those of [speaks_in]. *)
Lemma via_spec s sender u (P : Z -> Prop) : server_ok s -> Snapshot (srv_users s) sender = Some u -> silenced (User.Voice u) = false ->
  (exists cid, cid ∈ User.ChannelID u :: linked_chans (server_config s) (User.ChannelID u) /\
     can_speak_in (server_config s) sender cid = true /\ P cid) <-> exists cid, speaks_in s sender cid /\ P cid.
Proof.
  intros W Hu Hs. unfold linked_chans, can_speak_in. cbn [server_config GetLinkedChans CanSenderSpeakInChan].
  setoid_rewrite elem_of_connected. setoid_rewrite (fun cid => canSenderSpeakInChannel_spec s sender u cid W Hu Hs).
  unfold speaks_in. split.
  - intros (cid & H1 & H2 & H3). exists cid. eauto 8.
  - intros (cid & (u' & Hu' & _ & H1 & H2) & H3). assert (u' = u) as -> by congruence. eauto.
Qed.

Lemma heard_merged s sender u f sid d : server_ok s -> Snapshot (srv_users s) sender = Some u -> silenced (User.Voice u) = false ->
  let calls := route_calls (server_config s) (SessionIDsInChannel (srv_users s)) (User.ChannelID u) sender in
  merged (deliveries f sid calls) = Some d -> heard_as s sender sid (Context d).
Proof.
  intros W Hu Hs calls Hm. apply merged_how in Hm. rewrite !(via_spec s sender u _ W Hu Hs) in Hm.
  unfold heard_as, member, listens. unfold listeners_in in Hm. cbn [server_config GetListenersInChan] in Hm.
  setoid_rewrite (fun cid => elem_of_SessionIDsInChannel s cid sid W) in Hm.
  setoid_rewrite (fun cid => elem_of_SessionIDsIn s cid sid W) in Hm. exact Hm.
Qed.
Lemma heard_some s sender u f sid context : server_ok s -> Snapshot (srv_users s) sender = Some u -> silenced (User.Voice u) = false ->
  let calls := route_calls (server_config s) (SessionIDsInChannel (srv_users s)) (User.ChannelID u) sender in
  heard_as s sender sid context -> exists d, merged (deliveries f sid calls) = Some d /\ Context d = context.
Proof.
  intros W Hu Hs calls Hh. assert (is_Some (merged (deliveries f sid calls))) as [d Hd].
  { apply merged_reached. rewrite (via_spec s sender u (reached (server_config s) (SessionIDsInChannel (srv_users s)) sid) W Hu Hs).
    unfold reached, listeners_in. cbn [server_config GetListenersInChan]. setoid_rewrite (fun cid => elem_of_SessionIDsInChannel s cid sid W).
    setoid_rewrite (fun cid => elem_of_SessionIDsIn s cid sid W). unfold heard_as, member, listens in Hh. naive_solver. }
  exists d. split; [done|]. pose proof (heard_merged s sender u f sid d W Hu Hs Hd) as Hd'. unfold heard_as in *. naive_solver.
Qed.

Lemma speech_recipients s senderRef f : server_ok s -> Active (srv_registry s) senderRef = true -> Target f = 0 ->
  let sender := SessionID senderRef in
  exists rs, (RouteRef (server_config s) (ord 5%nat) senderRef f = Some (senderRef, stamped senderRef f, rs) \/
      (RouteRef (server_config s) (ord 5%nat) senderRef f = None /\ rs = [])) /\
    NoDup (map r_SessionID rs) /\
    (forall r, r ∈ rs -> SessionID (r_Session r) = r_SessionID r /\ frame (r_Delivery r) = stamped senderRef f) /\
    forall rf context, (exists r, r ∈ rs /\ r_Session r = rf /\ Context (r_Delivery r) = context) <->
      is_Some (edge_of s rf) /\ SessionID rf <> sender /\ not_deaf s (SessionID rf) /\ heard_as s sender (SessionID rf) context.
Proof.
  intros W Ha Ht sender. destruct (canSenderSpeak s sender) eqn:Hc.
  - apply (canSenderSpeak_spec s senderRef Ha) in Hc as Hc'. destruct Hc' as (u & Hu & Hs).
    destruct (route_normal (server_config s) (ord 5%nat) (fun sid => default 0 (ChannelIDOf (srv_users s) sid))
      (SessionIDsInChannel (srv_users s)) senderRef f (Hord _) eq_refl eq_refl eq_refl Ht Hc) as (rs & E & N & M).
    exists rs. split; [by left|]. split; [done|]. fold sender in M, Hu. replace (default 0 (ChannelIDOf (srv_users s) sender)) with (User.ChannelID u) in M
      by (unfold ChannelIDOf; by rewrite Hu).
    unfold admitted, filter_recipient, resolve_session in M. cbn [server_config FilterRecipient ResolveSession] in M.
    setoid_rewrite andb_true_iff in M. setoid_rewrite negb_true_iff in M. setoid_rewrite Z.eqb_neq in M.
    setoid_rewrite (fun sid => audioFilterRecipient_spec s sender sid W) in M.
    split.
    + intros r (_ & Hr & Hm)%M. split; [by apply (Ref_session s)|]. by apply merged_frame in Hm.
    + intros rf context. split.
      * intros (r & Hr & <- & <-). apply M in Hr as ((Hne & Hd & rf' & Hs' & Hr' & He) & Hr & Hm).
        assert (rf' = r_Session r) as -> by congruence. rewrite Hs'. split; [done|]. split; [done|]. split; [done|].
        by apply (heard_merged s sender u (stamped senderRef f)).
      * intros (He & Hne & Hd & Hh). destruct (heard_some s sender u (stamped senderRef f) (SessionID rf) context W Hu Hs Hh) as (d & Hm & <-).
        exists (mkRecipient (SessionID rf) rf d). split; [|done]. apply M. cbn.
        assert (Ref (srv_registry s) (SessionID rf) = Some rf) as Hr by (by apply Active_Ref, Active_edge).
        split; [|done]. split; [done|]. split; [done|]. eauto.
  - exists []. split; [right; split; [|done]|].
    { unfold RouteRef. fold (stamped senderRef f). change (Target (stamped senderRef f)) with (Target f). rewrite Ht.
      unfold can_speak. cbn [server_config HasSender CanSenderSpeak negb orb andb Z.ltb Z.compare Z.eqb]. fold sender. by rewrite Hc. }
    split; [constructor|]. split; [by intros r ?%elem_of_nil|]. intros rf context. split; [by intros (r & ?%elem_of_nil & _)|].
    intros (_ & _ & _ & Hh). exfalso. assert (canSenderSpeak s sender = true); [|congruence]. apply canSenderSpeak_spec; [done|].
    unfold heard_as, speaks_in in Hh. naive_solver.
Qed.

(** ** From the recipients to the edges *)

(** The position of the sender is for those in the same plugin context. *)
Definition shares_context s (sender sid : Z) : Prop :=
  exists u v, Snapshot (srv_users s) sender = Some u /\ Snapshot (srv_users s) sid = Some v /\ User.PluginContext u = User.PluginContext v.

Record batch_of s (sender : Z) (r : Recipient) (v : VoiceRecipient) : Prop := {
  bo_active : is_Some (edge_of s (r_Session r));
  bo_session : br_Session v = r_Session r;
  bo_context : br_Context v = Context (r_Delivery r);
  bo_volume : br_Volume v = VolumeAdjustment (r_Delivery r);
  bo_position : br_HasPosition v = true <-> HasPosition (frame (r_Delivery r)) = true /\ shares_context s sender (r_SessionID r) }.
Lemma batch_recipient_Some s sender r v : batch_recipient s sender r = Some v -> batch_of s sender r v.
Proof.
  unfold batch_recipient. destruct (Active _ (r_Session r)) eqn:Ha; cbn [negb]; [|done]. intros [= <-].
  split; [by apply Active_edge|done..|]. cbn. rewrite andb_true_iff. unfold shares_context.
  destruct (Snapshot _ sender) as [u|], (Snapshot _ (r_SessionID r)) as [w|]; [|split; [by intros []|by intros (_ & ? & ? & ? & ? & _)]..].
  rewrite bool_decide_eq_true. split; [intros [? ?]; eauto 8|by intros (? & ? & ? & [= <-] & [= <-] & ?)].
Qed.
Lemma batch_recipient_active s sender r : is_Some (edge_of s (r_Session r)) -> is_Some (batch_recipient s sender r).
Proof. intros H%Active_edge. unfold batch_recipient. by rewrite H. Qed.

Lemma batch_once s sender rs (P : VoiceRecipient -> Prop) `{forall v, Decision (P v)} : NoDup (map r_SessionID rs) ->
  (forall r, r ∈ rs -> SessionID (r_Session r) = r_SessionID r) ->
  NoDup (map br_Session (filter P (omap (batch_recipient s sender) rs))).
Proof.
  intros N Hs. induction rs as [|r rs IH]; [constructor|]. apply list.NoDup_cons in N as [Hn N]. cbn.
  specialize (IH N ltac:(intros; apply Hs; by right)). destruct (batch_recipient s sender r) as [v|] eqn:Ev; [|done].
  rewrite list.filter_cons. case_decide; [|done]. constructor; [|done].
  intros (v' & E & [_ (r' & Hr' & Ev')%list_elem_of_omap]%list_elem_of_filter)%list_elem_of_fmap.
  apply batch_recipient_Some in Ev as [_ Ev _ _ _], Ev' as [_ Ev' _ _ _]. apply Hn, list_elem_of_fmap. exists r'. split; [|done].
  rewrite <- (Hs r) by (by left). rewrite <- (Hs r') by (by right). by rewrite <- Ev, <- Ev', E.
Qed.

(** C12: ordinary speech goes where it should and nowhere else. For an active
    sender, every edge gets at most one batch, with the sender and the frame
    stamped with its session, and no session twice. The session [rf] gets the
    frame on the edge [e] exactly when it is active there, is not the sender,
    is not deaf, and the sender (neither muted nor suppressed) has Speak in a
    channel connected to its own by links which [rf] is in, or listens to; it
    comes as normal speech in the first case and as listened speech if only
    the second holds. The position is passed on only to a session in the same
    plugin context. *)
Theorem speech_delivered s (senderRef : SessionRef) (f : Frame) :
  (forall l, ordE l ≡ₚ l) -> server_ok s -> Active (srv_registry s) senderRef = true -> Target f = 0 ->
  let out := voice_in s senderRef f in
  let sender := SessionID senderRef in
  NoDup (map fst out) /\
  (forall e b, (e, b) ∈ out -> b_Sender b = senderRef /\ b_Frame b = stamped senderRef f /\ NoDup (map br_Session (b_Recipients b)) /\
     forall r, r ∈ b_Recipients b ->
       br_HasPosition r = true <-> HasPosition f = true /\ shares_context s sender (SessionID (br_Session r))) /\
  forall e rf context,
    (exists b r, (e, b) ∈ out /\ r ∈ b_Recipients b /\ br_Session r = rf /\ br_Context r = context) <->
    e ∈ voice s /\ edge_of s rf = Some e /\ SessionID rf <> sender /\ not_deaf s (SessionID rf) /\ heard_as s sender (SessionID rf) context.
Proof.
  intros HE W Ha Ht out sender. destruct (speech_recipients s senderRef f W Ha Ht) as (rs & E & N & Hr & M). fold sender in M.
  pose proof (fun r H => proj1 (Hr r H)) as Hid.
  assert (out = DispatchVoice s (mkBatch senderRef (stamped senderRef f) (omap (batch_recipient s sender) rs))) as Eout.
  { unfold out, voice_in. destruct E as [->|[-> ->]].
    - unfold SendVoice. rewrite Ha. done.
    - unfold DispatchVoice. cbn. rewrite Ha. cbn. rewrite dom_empty_L, elements_empty.
      assert (ordE [] = []) as -> by (apply Permutation_nil; symmetry; apply HE). done. }
  rewrite Eout. split; [by apply DispatchVoice_edges|]. setoid_rewrite (fun e b => elem_of_DispatchVoice s _ e b HE). cbn [b_Sender b_Frame b_Recipients].
  split.
  - intros e b (_ & _ & _ & ->). cbn. split; [done|]. split; [done|]. split; [by apply batch_once|].
    intros v [_ (r & Hin & [_ Ev _ _ Hp]%batch_recipient_Some)%list_elem_of_omap]%list_elem_of_filter.
    destruct (Hr r Hin) as [Hs Hf]. rewrite Hp, Hf, Ev, Hs. done.
  - intros e rf context. split.
    + intros (b & v & (_ & Hv & _ & ->) & Hin & <- & <-). cbn in Hin.
      apply list_elem_of_filter in Hin as [He (r & Hin & [_ Es Ec _ _]%batch_recipient_Some)%list_elem_of_omap].
      split; [done|]. split; [done|]. apply M. exists r. by rewrite Es, Ec.
    + intros (Hv & He & Hrest). destruct (proj2 (M rf context)) as (r & Hin & Es & Ec); [by rewrite He|].
      destruct (batch_recipient_active s sender r) as [v Ev]; [by rewrite Es, He|]. pose proof (batch_recipient_Some _ _ _ _ Ev) as [_ Es' Ec' _ _].
      assert (v ∈ filter (fun r => edge_of s (br_Session r) = Some e) (omap (batch_recipient s sender) rs)) as Hfin.
      { apply list_elem_of_filter. split; [by rewrite Es', Es|]. apply list_elem_of_omap. eauto. }
      eexists _, v. split; [split; [done|]; split; [done|]; split; [|reflexivity]|].
      * cbn. intros Hnil. rewrite Hnil in Hfin. by apply elem_of_nil in Hfin.
      * cbn. split; [done|]. split; congruence.
Qed.

(** ** Voice targets *)

(** The calls of [add] that take effect. *)
Definition takes s (sessionID : Z) (u : User.t) : Prop :=
  User.SessionID u <> sessionID /\ Deaf (User.Voice u) = false /\ SelfDeaf (User.Voice u) = false /\ Active (srv_registry s) (ref_of u) = true.
#[local] Instance takes_dec s sessionID u : Decision (takes s sessionID u) := _.

Lemma add_cases s sessionID rs seen u context volume :
  add s sessionID (rs, seen) (u, context, volume) =
  if decide (takes s sessionID u) then
    let d := mkDelivery no_frame context volume in
    match seen !! User.SessionID u with
    | Some index => (alter (fun r => r <| vr_delivery := MergeDelivery (vr_delivery r) d |>) index rs, seen)
    | None => (rs ++ [mkVoiceRecipient (User.SessionID u) (ref_of u) d], <[User.SessionID u := length rs]> seen)
    end
  else (rs, seen).
Proof.
  unfold add. destruct (decide (takes s sessionID u)) as [(H1%Z.eqb_neq & H2 & H3 & H4)|Hn]; [by rewrite H1, H2, H3, H4|].
  destruct (User.SessionID u =? sessionID) eqn:H1; [done|]. destruct (Deaf (User.Voice u)) eqn:H2; [done|].
  destruct (SelfDeaf (User.Voice u)) eqn:H3; [done|]. destruct (Active _ (ref_of u)) eqn:H4; [|done].
  destruct Hn. by apply Z.eqb_neq in H1.
Qed.

(** The deliveries of the calls for one session, in their order. *)
Definition calls_for s (sessionID sid : Z) (calls : list call) : list Delivery :=
  map (fun c => mkDelivery no_frame c.1.2 c.2) (filter (fun c => takes s sessionID c.1.1 /\ User.SessionID c.1.1 = sid) calls).
Lemma calls_for_snoc s sessionID sid calls c :
  calls_for s sessionID sid (calls ++ [c]) = calls_for s sessionID sid calls ++
    (if decide (takes s sessionID c.1.1 /\ User.SessionID c.1.1 = sid) then [mkDelivery no_frame c.1.2 c.2] else []).
Proof. unfold calls_for. rewrite list.filter_app, map_app, list.filter_cons. by case_decide. Qed.

(** What the accumulator holds after some calls. *)
Record collected s (sessionID : Z) (calls : list call) (rs : list voiceRecipient) (seen : gmap Z nat) : Prop := {
  co_index : forall sid i, seen !! sid = Some i <-> exists r, rs !! i = Some r /\ vr_session r = sid;
  co_user : forall r, r ∈ rs -> exists u context volume, (u, context, volume) ∈ calls /\ takes s sessionID u /\
    vr_session r = User.SessionID u /\ vr_ref r = ref_of u;
  co_delivery : forall sid, match seen !! sid ≫= (rs !!.) with
    | Some r => merged (calls_for s sessionID sid calls) = Some (vr_delivery r)
    | None => calls_for s sessionID sid calls = []
    end }.

Lemma collected_index s sessionID calls rs seen sid i : collected s sessionID calls rs seen -> seen !! sid = Some i ->
  exists r, rs !! i = Some r /\ vr_session r = sid /\ merged (calls_for s sessionID sid calls) = Some (vr_delivery r).
Proof.
  intros [C1 C2 C3] H. pose proof (proj1 (C1 sid i) H) as (r & Hr & Es). exists r. specialize (C3 sid). rewrite H in C3. cbn in C3.
  rewrite Hr in C3. done.
Qed.

Lemma collected_add s sessionID calls rs seen c : collected s sessionID calls rs seen ->
  let '(rs', seen') := add s sessionID (rs, seen) c in collected s sessionID (calls ++ [c]) rs' seen'.
Proof.
  intros C. destruct c as [[u context] volume]. rewrite add_cases. pose proof C as [C1 C2 C3].
  assert (forall r : voiceRecipient, r ∈ rs -> exists u' context' volume', (u', context', volume') ∈ calls ++ [(u, context, volume)] /\
    takes s sessionID u' /\ vr_session r = User.SessionID u' /\ vr_ref r = ref_of u') as C2'.
  { intros r (u' & c' & v' & Hin & H)%C2. exists u', c', v'. split; [apply elem_of_app; by left|done]. }
  case_decide as Hg; [|split; [done|done|]; intros sid; rewrite calls_for_snoc, decide_False, app_nil_r by (by intros []); apply C3].
  cbn zeta. destruct (seen !! User.SessionID u) as [i|] eqn:Ei.
  - destruct (collected_index _ _ _ _ _ _ _ C Ei) as (r & Hr & Es & Hm).
    set (g := fun r0 : voiceRecipient => _).
    assert (forall j r0, alter g i rs !! j = Some r0 <-> exists r1, rs !! j = Some r1 /\ r0 = if decide (j = i) then g r1 else r1) as Ha.
    { intros j r0. destruct (decide (j = i)) as [->|Hne].
      - rewrite list_lookup_alter_eq, Hr. cbn. naive_solver.
      - rewrite list_lookup_alter_ne by done. naive_solver. }
    split.
    + intros sid j. rewrite C1. setoid_rewrite Ha. split.
      * intros (r0 & H0 & E0). eexists. split; [eexists; split; [exact H0|reflexivity]|]. by destruct (decide (j = i)).
      * intros (r0 & (r1 & H1 & ->) & E0). exists r1. split; [done|]. by destruct (decide (j = i)).
    + intros r0 [j (r1 & H1 & ->)%Ha]%list_elem_of_lookup. destruct (C2' r1) as (u' & c' & v' & H); [by eapply list_elem_of_lookup_2|].
      exists u', c', v'. by destruct (decide (j = i)).
    + intros sid. rewrite calls_for_snoc. cbn [fst snd]. destruct (decide (sid = User.SessionID u)) as [->|Hne].
      * rewrite Ei. cbn. rewrite list_lookup_alter_eq, Hr. cbn. rewrite decide_True, merged_snoc, Hm by done. done.
      * rewrite decide_False, app_nil_r by naive_solver. specialize (C3 sid). destruct (seen !! sid) as [j|] eqn:Ej; [|done]. cbn in *.
        rewrite list_lookup_alter_ne; [done|]. intros <-. apply C1 in Ej as (r0 & H0 & E0). naive_solver.
  - assert (forall j r, rs !! j = Some r -> (j < length rs)%nat) as Hlt by (intros j r; apply lookup_lt_Some).
    split.
    + intros sid j. destruct (decide (sid = User.SessionID u)) as [->|Hne].
      * rewrite lookup_insert_eq. split.
        -- intros [= <-]. eexists. split; [apply list_lookup_middle; done|done].
        -- intros (r & Hr & E). destruct (decide (j < length rs)%nat) as [Hj|Hj].
           ++ rewrite lookup_app_l in Hr by done. assert (seen !! User.SessionID u = Some j) by (apply C1; eauto). congruence.
           ++ apply lookup_lt_Some in Hr. rewrite length_app in Hr. cbn in Hr. f_equal. lia.
      * rewrite lookup_insert_ne, C1 by done. split; intros (r & Hr & E); exists r; (split; [|done]).
        -- rewrite lookup_app_l; [done|by eapply Hlt].
        -- apply lookup_snoc_Some in Hr as [[_ Hr]|[_ <-]]; [done|]. by destruct Hne.
    + intros r [Hr| ->%list_elem_of_singleton]%elem_of_app; [by apply C2'|]. exists u, context, volume.
      split; [apply elem_of_app; right; by left|done].
    + intros sid. rewrite calls_for_snoc. cbn [fst snd]. specialize (C3 sid). destruct (decide (sid = User.SessionID u)) as [->|Hne].
      * rewrite Ei in C3. cbn in C3. rewrite lookup_insert_eq. cbn. rewrite list_lookup_middle by done. rewrite C3, decide_True by done. done.
      * rewrite lookup_insert_ne by done. rewrite decide_False, app_nil_r by naive_solver.
        destruct (seen !! sid) as [j|] eqn:Ej; [|done]. cbn in *. apply C1 in Ej as (r & Hr & _). rewrite lookup_app_l by (by eapply Hlt).
        done.
Qed.

Lemma collected_all s sessionID calls :
  let '(rs, seen) := fold_left (add s sessionID) calls ([], ∅) in collected s sessionID calls rs seen.
Proof.
  induction calls as [|c calls IH] using rev_ind.
  - cbn. split; [| by intros r ?%elem_of_nil|by intros sid; rewrite lookup_empty].
    intros sid i. rewrite lookup_empty. split; [done|]. by intros (r & Hr & _).
  - rewrite fold_left_app. cbn [fold_left]. destruct (fold_left _ _ _) as [rs seen]. by apply collected_add.
Qed.

(** The channels a target names. *)
Definition in_target s (t : VoiceTargetTarget.t) (cid : Z) : Prop :=
  cid = VoiceTargetTarget.ChannelID t \/
  (VoiceTargetTarget.Links t = true /\ rtc (Channels.link (srv_chans s)) (VoiceTargetTarget.ChannelID t) cid) \/
  (VoiceTargetTarget.Children t = true /\ Channels.below (srv_chans s) (VoiceTargetTarget.ChannelID t) cid).

(** A user is addressed by a target: as the session named, as a member of a
    channel, as one who listens to it. *)
Inductive addressed s (speaker : User.t) (spec : voiceTargetSpec) : call -> Prop :=
  | by_session rf u : sessions spec !! User.SessionID u = Some rf -> Active (srv_registry s) rf = true ->
      Snapshot (srv_users s) (User.SessionID u) = Some u -> User.SessionGeneration u = Generation rf ->
      may s (SubjectOf speaker) (User.ChannelID u) PermissionWhisper = true ->
      addressed s speaker spec (u, ContextWhisper, f32_one)
  | by_channel t cid u : t ∈ channels spec -> is_Some (Channels.GetChannel (srv_chans s) (VoiceTargetTarget.ChannelID t)) ->
      in_target s t cid -> may s (SubjectOf speaker) cid PermissionWhisper = true ->
      Snapshot (srv_users s) (User.SessionID u) = Some u -> User.ChannelID u = cid -> groupAllows s t cid u = true ->
      addressed s speaker spec (u, ContextShout, f32_one)
  | by_listening t cid u : t ∈ channels spec -> is_Some (Channels.GetChannel (srv_chans s) (VoiceTargetTarget.ChannelID t)) ->
      in_target s t cid -> may s (SubjectOf speaker) cid PermissionWhisper = true ->
      Snapshot (srv_users s) (User.SessionID u) = Some u -> listens s (User.SessionID u) cid -> groupAllows s t cid u = true ->
      addressed s speaker spec (u, ContextListen, Volume (srv_listeners s) (User.SessionID u) cid).

Lemma canWhisper_may s speaker cid : canWhisper s speaker cid = may s (SubjectOf speaker) cid PermissionWhisper.
Proof. unfold canWhisper, aclCheck, may. by destruct (srv_acl s). Qed.

Lemma elem_of_session_calls s speaker spec c : server_ok s ->
  c ∈ session_calls s speaker spec <-> exists rf u, c = (u, ContextWhisper, f32_one) /\ sessions spec !! User.SessionID u = Some rf /\
    Active (srv_registry s) rf = true /\ Snapshot (srv_users s) (User.SessionID u) = Some u /\ User.SessionGeneration u = Generation rf /\
    may s (SubjectOf speaker) (User.ChannelID u) PermissionWhisper = true.
Proof.
  intros W. unfold session_calls. rewrite list_elem_of_omap. setoid_rewrite (Hord _ _). setoid_rewrite elem_of_elements.
  setoid_rewrite elem_of_dom. split.
  - intros (sid & _ & H). destruct (sessions spec !! sid) as [rf|] eqn:Er; [|done]. cbn in H.
    destruct (Active _ rf) eqn:Ea; [|done]. cbn in H. destruct (Snapshot _ sid) as [u|] eqn:Eu; [|done]. cbn in H.
    destruct (Z.eqb_spec (User.SessionGeneration u) (Generation rf)); [|done]. rewrite canWhisper_may in H.
    destruct (may _ _ _ _) eqn:Em; [|done]. injection H as <-. exists rf, u. by rewrite (Snapshot_session s sid u W Eu).
  - intros (rf & u & -> & H1 & H2 & H3 & H4 & H5). exists (User.SessionID u). split; [by rewrite H1|].
    rewrite H1. cbn. rewrite H2. cbn. rewrite H3. cbn. by rewrite H4, Z.eqb_refl, canWhisper_may, H5.
Qed.

Lemma elem_of_shout_calls s speaker t cid c : server_ok s ->
  c ∈ channel_calls s speaker t cid <-> may s (SubjectOf speaker) cid PermissionWhisper = true /\
    exists u, Snapshot (srv_users s) (User.SessionID u) = Some u /\ groupAllows s t cid u = true /\
      ((c = (u, ContextShout, f32_one) /\ User.ChannelID u = cid) \/
       (c = (u, ContextListen, Volume (srv_listeners s) (User.SessionID u) cid) /\ listens s (User.SessionID u) cid)).
Proof.
  intros W. unfold channel_calls. rewrite canWhisper_may. destruct (may _ _ _ _); cbn [negb]; [|rewrite elem_of_nil; naive_solver].
  rewrite elem_of_app, list_elem_of_fmap, list_elem_of_omap. unfold listens. split.
  - intros [(u & -> & [Hg [Hu Hc]%elem_of_SnapshotByChannel]%list_elem_of_filter)|(sid & Hl%elem_of_SessionIDsIn & H)]; [|done| |done].
    + split; [done|]. exists u. auto.
    + destruct (Snapshot _ sid) as [u|] eqn:Eu; [|done]. cbn in H. destruct (groupAllows _ _ _ _) eqn:Eg; [|done]. injection H as <-.
      split; [done|]. exists u. rewrite (Snapshot_session s sid u W Eu). auto.
  - intros [_ (u & Hu & Hg & [[-> Hc]|[-> Hl]])].
    + left. exists u. split; [done|]. apply list_elem_of_filter. split; [done|]. by apply elem_of_SnapshotByChannel.
    + right. exists (User.SessionID u). split; [by apply elem_of_SessionIDsIn|]. rewrite Hu. cbn. by rewrite Hg.
Qed.

Lemma target_channels_spec s t : server_ok s -> is_Some (Channels.GetChannel (srv_chans s) (VoiceTargetTarget.ChannelID t)) ->
  exists cids, target_channels s t = Some cids /\ forall cid, cid ∈ cids <-> in_target s t cid.
Proof.
  intros W [ch Hch]. set (id := VoiceTargetTarget.ChannelID t) in *.
  assert (is_Some (Channels.tree (srv_chans s) !! id)) as Ht.
  { unfold Channels.GetChannel, Channels.channel_at, Channels.node_at in Hch. destruct (Channels.tree _ !! id); [eauto|done]. }
  unfold target_channels. fold id.
  assert (exists l, (if VoiceTargetTarget.Links t then Channels.ConnectedChannelIDs (ord 0%nat) (ord 1%nat) (srv_chans s) id else Some []) = Some l /\
    forall cid, cid ∈ l <-> VoiceTargetTarget.Links t = true /\ rtc (Channels.link (srv_chans s)) id cid) as (l & -> & Hl).
  { destruct (VoiceTargetTarget.Links t); [|exists []; split; [done|]; intros cid; rewrite elem_of_nil; naive_solver].
    destruct (Channels.connected_component (ord 0%nat) (ord 1%nat) (srv_chans s) id (Hord _) (Hord _) Ht) as (comp & -> & Hc).
    eexists. split; [done|]. intros cid. rewrite Channels.elem_of_sortedLinkIDs, Hc by done. naive_solver. }
  assert (exists l, (if VoiceTargetTarget.Children t then Channels.SubtreeIDs (srv_chans s) id else Some []) = Some l /\
    forall cid, cid ∈ l <-> VoiceTargetTarget.Children t = true /\ Channels.below (srv_chans s) id cid) as (l' & -> & Hl').
  { destruct (VoiceTargetTarget.Children t); [|exists []; split; [done|]; intros cid; rewrite elem_of_nil; naive_solver].
    destruct (Channels.SubtreeIDs_below (srv_chans s) id (ok_chans s W) Ht) as (l' & -> & Hb).
    eexists. split; [done|]. intros cid. rewrite Hb. naive_solver. }
  cbn. eexists. split; [done|]. intros cid. unfold in_target. fold id. rewrite !elem_of_union, elem_of_singleton, !elem_of_list_to_set, Hl, Hl'. tauto.
Qed.

Lemma target_calls_spec s speaker t : server_ok s -> exists l, target_calls s speaker t = Some l /\
  forall c, c ∈ l <-> is_Some (Channels.GetChannel (srv_chans s) (VoiceTargetTarget.ChannelID t)) /\
    exists cid, in_target s t cid /\ c ∈ channel_calls s speaker t cid.
Proof.
  intros W. unfold target_calls. destruct (Channels.GetChannel _ _) as [ch|] eqn:E.
  - destruct (target_channels_spec s t W) as (cids & -> & Hc); [eauto|]. eexists. split; [done|]. intros c.
    rewrite list_elem_of_In, in_concat. split.
    + intros (l & Hl & Hin). apply in_map_iff in Hl as (cid & <- & Hcid). split; [eauto|]. exists cid. rewrite list_elem_of_In. split; [|done].
      apply Hc. by rewrite <- elem_of_elements, <- (Hord 4%nat (elements cids)), list_elem_of_In.
    + intros (_ & cid & Hcid & Hin). exists (channel_calls s speaker t cid). split; [|by apply list_elem_of_In]. apply in_map_iff.
      exists cid. split; [done|]. rewrite <- list_elem_of_In, (Hord 4%nat (elements cids)), elem_of_elements. by apply Hc.
  - exists []. split; [done|]. intros c. rewrite elem_of_nil. split; [done|]. by intros [[] _].
Qed.
Lemma targets_calls_spec s speaker ts : server_ok s -> exists l, targets_calls s speaker ts = Some l /\
  forall c, c ∈ l <-> exists t, t ∈ ts /\ is_Some (Channels.GetChannel (srv_chans s) (VoiceTargetTarget.ChannelID t)) /\
    exists cid, in_target s t cid /\ c ∈ channel_calls s speaker t cid.
Proof.
  intros W. induction ts as [|t ts (l' & E' & H')].
  - exists []. split; [done|]. intros c. split; [by intros ?%elem_of_nil|by intros (t & ?%elem_of_nil & _)].
  - destruct (target_calls_spec s speaker t W) as (l & E & H). cbn. rewrite E, E'. cbn. eexists. split; [done|]. intros c.
    rewrite elem_of_app, H, H'. split.
    + intros [[H1 H2]|(t' & Hin & H1)]; [exists t|exists t']; (split; [|done]); [by left|by right].
    + intros (t' & [->|Hin]%elem_of_cons & H1); [by left|right; eauto].
Qed.

Lemma all_calls s speaker spec : server_ok s -> exists l, targets_calls s speaker (channels spec) = Some l /\
  forall c, c ∈ session_calls s speaker spec ++ l <-> addressed s speaker spec c.
Proof.
  intros W. destruct (targets_calls_spec s speaker (channels spec) W) as (l & E & H). exists l. split; [done|]. intros c.
  rewrite elem_of_app, (elem_of_session_calls s speaker spec c W), H. setoid_rewrite (fun t cid => elem_of_shout_calls s speaker t cid c W). split.
  - intros [(rf & u & -> & H1 & H2 & H3 & H4 & H5)|(t & Ht & Hch & cid & Hcid & Hm & u & Hu & Hg & [[-> Hc]|[-> Hl]])].
    + by eapply by_session.
    + by eapply by_channel.
    + by eapply by_listening.
  - intros [rf u H1 H2 H3 H4 H5|t cid u H1 H2 H3 H4 H5 H6 H7|t cid u H1 H2 H3 H4 H5 H6 H7].
    + left. exists rf, u. done.
    + right. exists t. split; [done|]. split; [done|]. exists cid. split; [done|]. split; [done|]. exists u. auto.
    + right. exists t. split; [done|]. split; [done|]. exists cid. split; [done|]. split; [done|]. exists u. auto.
Qed.

(** The call [c] of [add] takes effect for the target [targetID] of the
    session. *)
Definition hits s (sessionID targetID : Z) (c : call) : Prop :=
  exists spec speaker, voiceTargets s !! sessionID ≫= (.!! targetID) = Some spec /\ Active (srv_registry s) (owner spec) = true /\
    Snapshot (srv_users s) sessionID = Some speaker /\ silenced (User.Voice speaker) = false /\
    takes s sessionID c.1.1 /\ addressed s speaker spec c.

Lemma addressed_user s speaker spec c : addressed s speaker spec c -> Snapshot (srv_users s) (User.SessionID c.1.1) = Some c.1.1.
Proof. by intros []. Qed.

Lemma elem_of_calls_for s sessionID sid calls d :
  d ∈ calls_for s sessionID sid calls <->
  exists u context volume, (u, context, volume) ∈ calls /\ takes s sessionID u /\ User.SessionID u = sid /\ d = mkDelivery no_frame context volume.
Proof.
  unfold calls_for. rewrite list_elem_of_fmap. split.
  - intros ([[u c] v] & -> & [[H1 H2] H3]%list_elem_of_filter). exists u, c, v. done.
  - intros (u & c & v & H1 & H2 & H3 & ->). exists (u, c, v). split; [done|]. by apply list_elem_of_filter.
Qed.

Lemma collected_once s sessionID calls rs seen : collected s sessionID calls rs seen -> NoDup (map vr_session rs).
Proof.
  intros [C _ _]. apply list.NoDup_alt. intros i j sid Hi Hj. apply list_lookup_fmap_Some in Hi as (r & -> & Hi), Hj as (r' & E & Hj).
  assert (seen !! vr_session r = Some i) by (apply C; eauto). assert (seen !! vr_session r = Some j) by (apply C; rewrite E; eauto). congruence.
Qed.

(** What one recipient gets: the least context and, among ordinary volumes,
    the greatest, of the ways it is addressed. *)
Definition best_way s (sessionID targetID : Z) (r : voiceRecipient) : Prop :=
  let way context volume := exists u, hits s sessionID targetID (u, context, volume) /\ ref_of u = vr_ref r in
  (exists volume, way (Context (vr_delivery r)) volume) /\
  (forall context volume, way context volume -> Context (vr_delivery r) <= context) /\
  ((forall context volume, way context volume -> f32_ordered volume) ->
   (exists context, way context (VolumeAdjustment (vr_delivery r))) /\
   forall context volume, way context volume -> f32_order volume <= f32_order (VolumeAdjustment (vr_delivery r))).

Lemma collected_spec s sessionID targetID speaker spec calls rs seen : server_ok s ->
  voiceTargets s !! sessionID ≫= (.!! targetID) = Some spec -> Active (srv_registry s) (owner spec) = true ->
  Snapshot (srv_users s) sessionID = Some speaker -> silenced (User.Voice speaker) = false ->
  (forall c, c ∈ calls <-> addressed s speaker spec c) -> collected s sessionID calls rs seen ->
  (forall rf, (exists r, r ∈ rs /\ vr_ref r = rf) <-> exists c, hits s sessionID targetID c /\ ref_of c.1.1 = rf) /\
  forall r, r ∈ rs -> SessionID (vr_ref r) = vr_session r /\ best_way s sessionID targetID r.
Proof.
  intros W Hspec Hown Hsp Hsil Hcalls C.
  assert (forall c, hits s sessionID targetID c <-> takes s sessionID c.1.1 /\ c ∈ calls) as Hh.
  { intros c. rewrite Hcalls. unfold hits. split; [|naive_solver]. intros (spec' & speaker' & H1 & _ & H2 & _ & H). naive_solver. }
  assert (forall r, r ∈ rs -> forall d, d ∈ calls_for s sessionID (vr_session r) calls <->
    exists u context volume, hits s sessionID targetID (u, context, volume) /\ ref_of u = vr_ref r /\ d = mkDelivery no_frame context volume) as Hd.
  { intros r (u & c & v & Hin & Ht & Es & Er)%(co_user _ _ _ _ _ C) d. rewrite elem_of_calls_for. setoid_rewrite Hh. cbn.
    pose proof (addressed_user _ _ _ _ (proj1 (Hcalls _) Hin)) as Hu. cbn in Hu. split.
    - intros (u' & c' & v' & Hin' & Ht' & Es' & ->). exists u', c', v'. split; [done|]. split; [|done].
      pose proof (addressed_user _ _ _ _ (proj1 (Hcalls _) Hin')) as Hu'. cbn in Hu'. rewrite Es', Es, Hu in Hu'. congruence.
    - intros (u' & c' & v' & [Ht' Hin'] & Er' & ->). exists u', c', v'. split; [done|]. split; [done|]. split; [|done].
      rewrite Er in Er'. by injection Er' as ->. }
  split.
  - intros rf. split.
    + intros (r & (u & c & v & Hin & Ht & _ & Er)%(co_user _ _ _ _ _ C) & <-). exists (u, c, v). rewrite Hh. done.
    + intros ([[u c] v] & [Ht Hin]%Hh & <-). cbn in *. pose proof (co_delivery _ _ _ _ _ C (User.SessionID u)) as Hc.
      assert (mkDelivery no_frame c v ∈ calls_for s sessionID (User.SessionID u) calls) as Hd' by (apply elem_of_calls_for; eauto 8).
      destruct (seen !! User.SessionID u) as [i|] eqn:Ei; [|cbn in Hc; rewrite Hc in Hd'; by apply elem_of_nil in Hd'].
      apply (co_index _ _ _ _ _ C) in Ei as (r & Hr & Es). apply list_elem_of_lookup_2 in Hr. exists r. split; [done|].
      rewrite <- Es in Hd'. apply (Hd r Hr) in Hd' as (u' & c' & v' & [Ht' Hin']%Hh & Er & _). cbn in *. rewrite <- Er.
      apply (co_user _ _ _ _ _ C) in Hr as (u2 & _ & _ & _ & _ & Es2 & Er2).
      pose proof (addressed_user _ _ _ _ (proj1 (Hcalls _) Hin)) as Hu. pose proof (addressed_user _ _ _ _ (proj1 (Hcalls _) Hin')) as Hu'.
      cbn in *. rewrite Er2 in Er. injection Er as Er _. rewrite Er, <- Es2, Es, Hu in Hu'. congruence.
  - intros r Hr. pose proof Hr as [i Hi]%list_elem_of_lookup. assert (seen !! vr_session r = Some i) as Ei by (apply (co_index _ _ _ _ _ C); eauto).
    destruct (collected_index _ _ _ _ _ _ _ C Ei) as (r' & Hr' & _ & Hm). assert (r' = r) as -> by congruence.
    split; [destruct (co_user _ _ _ _ _ C r Hr) as (u & _ & _ & _ & _ & -> & ->); done|].
    specialize (Hd r Hr). destruct (merged_context _ _ Hm) as [(x & (u & c & v & Hu & Eu & ->)%Hd & Ex) Hmin]. cbn in Ex.
    unfold best_way. cbn zeta. split; [|split].
    + exists v, u. by rewrite Ex.
    + intros c' v' (u' & Hu' & Eu'). apply (Hmin (mkDelivery no_frame c' v')), Hd. eauto 8.
    + intros Hord'. apply (merged_is_merge no_frame) in Hm as (_ & _ & (y & (u2 & c2 & v2 & Hu2 & E2 & ->)%Hd & Ey) & Hall).
      * split; [exists c2, u2; cbn in Ey; by rewrite Ey|]. intros c' v' (u' & Hu' & Eu').
        apply (Hall (mkDelivery no_frame c' v')), Hd. eauto 8.
      * rewrite Forall_forall. intros d (u2 & c2 & v2 & Hu2 & E2 & ->)%list_elem_of_In%Hd. split; [done|]. eapply Hord'. eauto.
Qed.

(** A voice target reaches exactly those it addresses. Resolving it always
    ends; every recipient is listed once, under its session; and a session is a
    recipient exactly when the owner of the target is still the same active
    session, the speaker is not muted, suppressed or self-muted, and some other
    user with that identity, active and not deaf, is addressed with Whisper
    permission: named itself with the generation it was stored with, in a
    channel of the target (with its links and its subtree, as asked) and in the
    target's group, or listening to one. It gets the least context and the
    greatest volume of these ways. *)
Theorem voice_target_exact s (sessionID targetID : Z) : server_ok s ->
  exists rs, resolveVoiceTarget s sessionID targetID = Some rs /\ NoDup (map vr_session rs) /\
    (forall rf, (exists r, r ∈ rs /\ vr_ref r = rf) <-> exists c, hits s sessionID targetID c /\ ref_of c.1.1 = rf) /\
    forall r, r ∈ rs -> SessionID (vr_ref r) = vr_session r /\ best_way s sessionID targetID r.
Proof.
  intros W. assert ((forall c, ~ hits s sessionID targetID c) -> exists rs, Some [] = Some rs /\ NoDup (map vr_session rs) /\
    (forall rf, (exists r, r ∈ rs /\ vr_ref r = rf) <-> exists c, hits s sessionID targetID c /\ ref_of c.1.1 = rf) /\
    forall r, r ∈ rs -> SessionID (vr_ref r) = vr_session r /\ best_way s sessionID targetID r) as Hnone.
  { intros H. exists []. split; [done|]. split; [constructor|]. split; [|by intros r ?%elem_of_nil].
    intros rf. split; [by intros (r & ?%elem_of_nil & _)|]. intros (c & Hc & _). by destruct (H c). }
  unfold resolveVoiceTarget.
  destruct (voiceTargets s !! sessionID ≫= (.!! targetID)) as [spec|] eqn:Es; [|apply Hnone; intros c (spec' & sp & ? & ? & ? & ? & _); simplify_eq; congruence].
  destruct (Active (srv_registry s) (owner spec)) eqn:Ea; cbn [negb]; [|apply Hnone; intros c (spec' & sp & ? & ? & ? & ? & _); simplify_eq; congruence].
  destruct (Snapshot (srv_users s) sessionID) as [speaker|] eqn:Eu; [|apply Hnone; intros c (spec' & sp & ? & ? & ? & ? & _); simplify_eq; congruence].
  destruct (silenced (User.Voice speaker)) eqn:Ev; [apply Hnone; intros c (spec' & sp & ? & ? & ? & ? & _); simplify_eq; congruence|].
  destruct (all_calls s speaker spec W) as (l & -> & Hl). cbn [mbind option_bind]. eexists. split; [reflexivity|].
  pose proof (collected_all s sessionID (session_calls s speaker spec ++ l)) as C. destruct (fold_left _ _ _) as [rs seen]. cbn.
  split; [by eapply collected_once|]. by eapply collected_spec.
Qed.

(** ** What a target remembers *)

(** The identity of the user who has a session ID now, if the registry knows
    it. *)
Definition known_ref s (id : Z) : option SessionRef :=
  u ← Snapshot (srv_users s) id;
  let rf := mkRef id (User.SessionGeneration u) in
  _ ← Registry.Snapshot (srv_registry s) rf; Some rf.
Lemma note_session_known s m id : note_session s m id = match known_ref s id with Some rf => <[id := rf]> m | None => m end.
Proof. unfold note_session, known_ref. destruct (Snapshot _ id) as [u|]; [|done]. cbn. by destruct (Registry.Snapshot _ _). Qed.

Lemma note_sessions s ids : forall m sid, fold_left (note_session s) ids m !! sid =
  if decide (sid ∈ ids) then match known_ref s sid with Some rf => Some rf | None => m !! sid end else m !! sid.
Proof.
  induction ids as [|id ids IH]; intros m sid; cbn [fold_left]; [by rewrite decide_False by (apply not_elem_of_nil)|].
  rewrite IH, note_session_known. destruct (decide (sid = id)) as [->|Hne].
  - rewrite (decide_True (P := id ∈ id :: ids)) by (by left). destruct (known_ref s id); [rewrite lookup_insert_eq|]; by case_decide.
  - assert ((match known_ref s id with Some rf => <[id := rf]> m | None => m end) !! sid = m !! sid) as ->
      by (destruct (known_ref s id); [by rewrite lookup_insert_ne|done]).
    destruct (decide (sid ∈ ids)) as [Hin|Hin]; [by rewrite decide_True by (by right)|].
    rewrite decide_False; [done|]. by intros [?|?]%elem_of_cons.
Qed.

(** The spec [storeVoiceTarget] builds. *)
Definition built s (c : SessionRef) (vt : VoiceTarget.t) : voiceTargetSpec :=
  fold_left (note_target s) (VoiceTarget.Targets vt) (mkSpec c ∅ []).
Lemma note_targets_owner s ts : forall spec, owner (fold_left (note_target s) ts spec) = owner spec.
Proof. induction ts as [|t ts IH]; intros spec; [done|]. cbn [fold_left]. rewrite IH. unfold note_target. by repeat case_match. Qed.
Lemma note_targets_sessions s ts : forall spec sid, sessions (fold_left (note_target s) ts spec) !! sid =
  if decide (sid ∈ concat (map VoiceTargetTarget.Session ts))
  then match known_ref s sid with Some rf => Some rf | None => sessions spec !! sid end else sessions spec !! sid.
Proof.
  induction ts as [|t ts IH]; intros spec sid; cbn [fold_left]; [by rewrite decide_False by (apply not_elem_of_nil)|].
  rewrite IH.
  replace (sessions (note_target s spec t)) with (fold_left (note_session s) (VoiceTargetTarget.Session t) (sessions spec))
    by (unfold note_target; by repeat case_match).
  rewrite note_sessions. cbn [map concat]. destruct (decide (sid ∈ VoiceTargetTarget.Session t)) as [Hin|Hin].
  - rewrite (decide_True (P := sid ∈ _ ++ _)) by (apply elem_of_app; by left). destruct (known_ref s sid); by case_decide.
  - apply decide_ext. rewrite elem_of_app. naive_solver.
Qed.
Lemma note_targets_channels s ts : (forall t, t ∈ ts -> VoiceTargetTarget.HasChannelID t = false) ->
  forall spec, channels (fold_left (note_target s) ts spec) = channels spec.
Proof.
  induction ts as [|t ts IH]; intros H spec; [done|]. cbn [fold_left]. rewrite IH by (intros; apply H; by right).
  unfold note_target. by rewrite (H t) by (by left).
Qed.
Lemma built_session s c vt sid rf : sessions (built s c vt) !! sid = Some rf ->
  known_ref s sid = Some rf /\ exists t, t ∈ VoiceTarget.Targets vt /\ sid ∈ VoiceTargetTarget.Session t.
Proof.
  unfold built. rewrite note_targets_sessions. cbn. rewrite lookup_empty. case_decide as H; [|done].
  destruct (known_ref s sid); [|done]. intros [= <-]. split; [done|].
  apply list_elem_of_In, in_concat in H as (l & (t & <- & Ht)%in_map_iff & Hin). exists t. by rewrite !list_elem_of_In.
Qed.
Lemma known_ref_Some s id rf : known_ref s id = Some rf ->
  SessionID rf = id /\ is_Some (Registry.Snapshot (srv_registry s) rf) /\
  exists u, Snapshot (srv_users s) id = Some u /\ User.SessionGeneration u = Generation rf.
Proof.
  unfold known_ref. destruct (Snapshot _ id) as [u|]; [|done]. cbn. destruct (Registry.Snapshot _ _) eqn:E; [|done]. cbn. intros [= <-].
  rewrite E. eauto.
Qed.

Lemma storeVoiceTarget_known s c vt : storeVoiceTarget s c vt =
  if decide (known_ref s (SessionID c) = Some c) then
    let targets := default ∅ (voiceTargets s !! SessionID c) in
    let targets := if spec_empty (built s c vt) then delete (u8 (VoiceTarget.ID vt)) targets else <[u8 (VoiceTarget.ID vt) := built s c vt]> targets in
    s <| voiceTargets := if bool_decide (targets = ∅) then delete (SessionID c) (voiceTargets s) else <[SessionID c := targets]> (voiceTargets s) |>
  else s.
Proof.
  unfold storeVoiceTarget, known_ref. destruct (Snapshot _ (SessionID c)) as [u|]; [|by rewrite decide_False]. cbn [mbind option_bind].
  destruct (Z.eqb_spec (User.SessionGeneration u) (Generation c)) as [Hg|Hg]; cbn [negb].
  - assert (mkRef (SessionID c) (User.SessionGeneration u) = c) as Hc by (destruct c; cbn in *; by rewrite Hg). rewrite Hc.
    destruct (Registry.Snapshot _ c); cbn; [by rewrite decide_True|by rewrite decide_False].
  - rewrite decide_False; [done|]. destruct (Registry.Snapshot _ _); cbn; [|done]. intros [= E]. apply Hg. by rewrite <- E.
Qed.

(** One entry of the table of targets. *)
Definition target_at s (o t : Z) : option voiceTargetSpec := voiceTargets s !! o ≫= (.!! t).

Lemma target_at_store s c vt o t : known_ref s (SessionID c) = Some c ->
  target_at (storeVoiceTarget s c vt) o t =
  if decide (o = SessionID c /\ t = u8 (VoiceTarget.ID vt)) then (if spec_empty (built s c vt) then None else Some (built s c vt))
  else target_at s o t.
Proof.
  intros Hk. rewrite storeVoiceTarget_known, decide_True by done. cbn zeta. unfold target_at. cbn [voiceTargets set_field].
  set (tid := u8 _). set (m := default ∅ (voiceTargets s !! SessionID c)). set (m' := if spec_empty _ then _ else _).
  assert ((if bool_decide (m' = ∅) then delete (SessionID c) (voiceTargets s) else <[SessionID c := m']> (voiceTargets s)) !! o ≫= (.!! t) =
    if decide (o = SessionID c) then m' !! t else voiceTargets s !! o ≫= (.!! t)) as E.
  { destruct (decide (o = SessionID c)) as [->|Hne].
    - case_bool_decide as Hm; [rewrite lookup_delete_eq, Hm; cbn; by rewrite lookup_empty|by rewrite lookup_insert_eq].
    - case_bool_decide; [by rewrite lookup_delete_ne|by rewrite lookup_insert_ne]. }
  cbn. rewrite E. destruct (decide (o = SessionID c)) as [->|Hne]; [|by rewrite decide_False by (by intros [])].
  assert (m !! t = voiceTargets s !! SessionID c ≫= (.!! t)) as Em by (unfold m; destruct (voiceTargets s !! SessionID c); [done|apply lookup_empty]).
  unfold m'. destruct (decide (t = tid)) as [->|Ht].
  - rewrite decide_True by done. destruct (spec_empty _); [apply lookup_delete_eq|apply lookup_insert_eq].
  - rewrite decide_False by (by intros []). destruct (spec_empty _); [rewrite lookup_delete_ne by done|rewrite lookup_insert_ne by done]; done.
Qed.

(** A whisper to named users never changes hands. Let an active session
    store a target that names only sessions, and let anything happen to users,
    channels, registry and permissions afterwards as long as the target stays
    stored: whoever then receives it is active under the very identity (session
    ID and generation) that the named session ID had when the target was
    stored, and the target works only for the identity that stored it. Someone
    who takes over a freed session ID gets nothing. *)
Theorem voice_target_identity s s' (c : SessionRef) (vt : VoiceTarget.t) : server_ok s' ->
  known_ref s (SessionID c) = Some c -> voiceTargets s' = voiceTargets (storeVoiceTarget s c vt) ->
  (forall t, t ∈ VoiceTarget.Targets vt -> VoiceTargetTarget.HasChannelID t = false) ->
  exists rs, resolveVoiceTarget s' (SessionID c) (u8 (VoiceTarget.ID vt)) = Some rs /\
    forall r, r ∈ rs -> Active (srv_registry s') c = true /\ Active (srv_registry s') (vr_ref r) = true /\
      (exists t, t ∈ VoiceTarget.Targets vt /\ SessionID (vr_ref r) ∈ VoiceTargetTarget.Session t) /\
      is_Some (Registry.Snapshot (srv_registry s) (vr_ref r)) /\
      exists u, Snapshot (srv_users s) (SessionID (vr_ref r)) = Some u /\ User.SessionGeneration u = Generation (vr_ref r).
Proof.
  intros W Hk Hvt Hnoch. destruct (voice_target_exact s' (SessionID c) (u8 (VoiceTarget.ID vt)) W) as (rs & -> & _ & M & _).
  exists rs. split; [done|]. intros r Hr. destruct (proj1 (M (vr_ref r))) as ([[u context] volume] & (spec & speaker & H1 & H2 & _ & _ & Ht & Ha) & Er); [eauto|].
  cbn in Er, Ht. rewrite Hvt in H1. change (target_at (storeVoiceTarget s c vt) (SessionID c) (u8 (VoiceTarget.ID vt)) = Some spec) in H1.
  rewrite (target_at_store s c vt _ _ Hk), decide_True in H1 by done. destruct (spec_empty _); [done|]. injection H1 as <-.
  unfold built in H2. rewrite note_targets_owner in H2. cbn in H2. split; [done|]. rewrite <- Er.
  destruct Ht as (_ & _ & _ & Hact). split; [done|].
  assert (channels (built s c vt) = []) as Hch by (unfold built; by rewrite note_targets_channels).
  inversion Ha as [rf u' Hs _ _ Hgen _|t cid u' Hin|t cid u' Hin]; subst; try (rewrite Hch in Hin; by apply elem_of_nil in Hin).
  apply built_session in Hs as (Hkn & Hlist). apply known_ref_Some in Hkn as (Hid & Hreg & u0 & Hu0 & Hg0).
  assert (ref_of u = rf) as -> by (destruct rf; unfold ref_of; cbn in *; congruence). rewrite Hid. eauto.
Qed.

(** The table of targets: no empty entries, every target under its owner,
    every remembered reference under its session ID. *)
Record targets_ok s : Prop := {
  to_filled : forall o m, voiceTargets s !! o = Some m -> m <> ∅;
  to_spec : forall o t spec, target_at s o t = Some spec -> spec_empty spec = false /\ SessionID (owner spec) = o /\
    forall sid rf, sessions spec !! sid = Some rf -> SessionID rf = sid }.

Inductive target_step : Server DB -> Server DB -> Prop :=
  | step_store s c vt : target_step s (storeVoiceTarget s c vt)
  | step_remove s sid : target_step s (removeVoiceTargetsLocked s sid)
  | step_other s s' : voiceTargets s' = voiceTargets s -> target_step s s'.

Lemma store_ok s c vt : targets_ok s -> targets_ok (storeVoiceTarget s c vt).
Proof.
  intros [T1 T2]. destruct (decide (known_ref s (SessionID c) = Some c)) as [Hk|Hk].
  - split.
    + intros o m. rewrite storeVoiceTarget_known, decide_True by done. cbn zeta. cbn [voiceTargets set_field].
      case_bool_decide as Hm.
      * intros [_ H]%lookup_delete_Some. by eapply T1.
      * intros [[_ <-]|[_ H]]%lookup_insert_Some; [done|by eapply T1].
    + intros o t spec. rewrite target_at_store by done. case_decide as Hd; [|apply T2]. destruct Hd as [-> ->].
      destruct (spec_empty (built s c vt)) eqn:Ee; [done|]. intros [= <-]. split; [done|].
      split; [unfold built; by rewrite note_targets_owner|]. intros sid rf [H _]%built_session. by apply known_ref_Some in H as [-> _].
  - rewrite storeVoiceTarget_known, decide_False by done. by split.
Qed.

(** One target after the references to a session are dropped. *)
Definition without (sid : Z) (spec : voiceTargetSpec) : option voiceTargetSpec :=
  let spec := spec <| sessions := delete sid (sessions spec) |> in if spec_empty spec then None else Some spec.

Lemma drop_explicit_delete sid spec : drop_explicit sid spec = spec <| sessions := delete sid (sessions spec) |>.
Proof.
  unfold drop_explicit. destruct (sessions spec !! sid) eqn:E; [done|]. rewrite delete_id by done. by destruct spec.
Qed.
Lemma drop_references_lookup sid targets t : (forall t spec, targets !! t = Some spec -> spec_empty spec = false) ->
  drop_references sid targets ≫= (.!! t) = targets !! t ≫= without sid.
Proof.
  intros Hne. unfold drop_references. case_bool_decide as Hall; cbn.
  - destruct (targets !! t) as [spec|] eqn:E; [|done]. cbn. unfold without.
    rewrite delete_id by (by apply (map_Forall_lookup_1 _ _ _ _ Hall E)).
    replace (spec <| sessions := sessions spec |>) with spec by (by destruct spec). by rewrite (Hne t spec E).
  - set (m := filter _ _).
    assert (m !! t = targets !! t ≫= without sid) as Hm.
    { unfold m. rewrite map_lookup_filter, lookup_fmap. destruct (targets !! t) as [spec|]; [|done]. cbn. rewrite drop_explicit_delete.
      unfold without. cbn zeta. by destruct (spec_empty _). }
    case_bool_decide as Hemp; [|done]. cbn. rewrite <- Hm, Hemp. by rewrite lookup_empty.
Qed.

Lemma target_at_remove s sid o t : targets_ok s ->
  target_at (removeVoiceTargetsLocked s sid) o t = if decide (o = sid) then None else target_at s o t ≫= without sid.
Proof.
  intros [T1 T2]. unfold target_at, removeVoiceTargetsLocked. cbn [voiceTargets set_field]. cbn. rewrite lookup_omap.
  destruct (decide (o = sid)) as [->|Hne]; [by rewrite lookup_delete_eq|]. rewrite lookup_delete_ne by done.
  destruct (voiceTargets s !! o) as [m|] eqn:Em; [|done]. cbn. apply drop_references_lookup.
  intros t' spec Hs. apply (T2 o t'). unfold target_at. by rewrite Em.
Qed.
Lemma remove_ok s sid : targets_ok s -> targets_ok (removeVoiceTargetsLocked s sid).
Proof.
  intros T. pose proof T as [T1 T2]. split.
  - intros o m. unfold removeVoiceTargetsLocked. cbn. rewrite lookup_omap. destruct (delete sid (voiceTargets s) !! o) as [m0|] eqn:E; [|done].
    cbn. apply lookup_delete_Some in E as [_ E]. unfold drop_references. repeat case_bool_decide; try done; intros [= <-]; [by eapply T1|done].
  - intros o t spec. rewrite target_at_remove by done. case_decide as Hne; [done|]. destruct (target_at s o t) as [sp|] eqn:Es; [|done]. cbn.
    unfold without. cbn zeta. destruct (spec_empty _) eqn:Ee; [done|]. intros [= <-]. destruct (T2 o t sp Es) as (_ & Ho & Hs).
    split; [done|]. split; [done|]. cbn. intros sid' rf [_ H]%lookup_delete_Some. by apply Hs.
Qed.

(** The table of voice targets stays in order through any run of storing,
    disconnecting and changes elsewhere: no empty entries are kept, every
    target is filed under the session that owns it and every remembered
    reference under its session ID. When a session disconnects, its own targets
    are gone, no other target refers to it any more, a target that only named
    it is gone too, and nothing else changes. *)
Theorem voice_targets_released s s' (sid : Z) : voiceTargets s = ∅ -> rtc target_step s s' ->
  targets_ok s' /\ targets_ok (removeVoiceTargetsLocked s' sid) /\
  forall o t, target_at (removeVoiceTargetsLocked s' sid) o t = if decide (o = sid) then None else target_at s' o t ≫= without sid.
Proof.
  intros H0 Hrun. assert (targets_ok s') as T.
  { assert (targets_ok s) as T by (split; [intros o m; rewrite H0; by rewrite lookup_empty|intros o t spec; unfold target_at; rewrite H0; by rewrite lookup_empty]).
    clear H0. induction Hrun as [|s s1 s2 Hs _ IH]; [done|]. apply IH. destruct Hs as [s c vt|s sd|s s1 E].
    - by apply store_ok.
    - by apply remove_ok.
    - destruct T as [T1 T2]. unfold target_at in *. split; [|unfold target_at]; by rewrite E. }
  split; [done|]. split; [by apply remove_ok|]. intros o t. by apply target_at_remove.
Qed.
End Server.
End VoiceServer.
