(* ===== verification/VoiceSample.v ===== *)
(** * A small server with voices

    Three sessions on two edges, linked channels, a listener and a voice
    target, and the theorems of [Listeners], [VoiceState] and [VoiceServer]
    applied to them. *)

From Stdlib Require Import ZArith Lia String.
From stdpp Require Import base numbers list gmap sets option.
From S2P Require Import Prelude Wire Fields Messages AudioVarint AudioPacket AudioCache Registry RegistryConc UserManager ChannelManager ChannelTable Acl AclCache AclSample Listeners VoiceState VoiceRouting VoiceServer.

Module VoiceSample.
Import ChannelTable Acl AclCache AclSample Listeners VoiceFlags ChannelCrypto Routing VoiceServer.

(** ** Listeners *)

Definition listening : list lop :=
  [LAdd 3 4; LAdd 3 2; LSetVolume 3 4 0x40000000; LAdd 3 4; LSessionIDsIn 4; LRemove 3 2; LRemoveAllFor 1; LVolume 3 4; LListeningVolumes 3;
   LRemoveChannel 2; LCountForSession 3].
Lemma listener_tables_refine_witness :
  (lrun (lstep ident) empty_manager listening).2 = (lrun (spec_step ident) ∅ listening).2 /\
  refines (lrun (lstep ident) empty_manager listening).1 (lrun (spec_step ident) ∅ listening).1.
Proof. apply (listener_tables_refine ident ident_ok listening). Defined.

(** ** The server *)

Definition east : EdgeID := str "east"%string.
Definition person (name ch : Z) (mode : gostring) : User.t :=
  User.zero <| User.Name := [name] |> <| User.ChannelID := ch |> <| User.CryptoMode := mode |>.
Definition arrivals : list mop := [OpAdd (person 65 2 (str "lite")); OpAdd (person 66 3 (str "secure")); OpAdd (person 67 0 [])].
Definition users3 : UserManager.Manager := (run_mgr (UserManager.NewManager 5) arrivals).1.
Lemma users3_wf : mgr_wf users3.
Proof.
  destruct (run_mgr_wf arrivals (UserManager.NewManager 5)) as [W _]; [by apply NewManager_wf|repeat constructor|vm_compute; reflexivity|exact W].
Qed.

Definition bound : Registry :=
  let r := (RegisterEdge NewRegistry LocalEdgeID 1).1 in
  let r := (RegisterEdge r east 5).1 in
  let r := (Bind r (mkRef 1 1) LocalEdgeID).1 in
  let r := (Bind r (mkRef 2 2) east).1 in
  (Bind r (mkRef 3 3) LocalEdgeID).1.
Definition registry3 : Registry := fold_left (fun r rf => (commitActive r rf).1) [mkRef 1 1; mkRef 2 2; mkRef 3 3] bound.
Lemma commitActive_wf r rf : registry_wf r -> registry_wf (commitActive r rf).1.
Proof.
  intros W. unfold commitActive. destruct (session_entry r (SessionID rf)) as [[l e]|] eqn:E; [|done]. destruct (negb _); [done|].
  apply session_entry_Some in E as [_ E]. destruct (state e); try done. cbn. by eapply write_wf.
Qed.
Lemma registry3_wf : registry_wf registry3.
Proof. apply commitActive_wf, commitActive_wf, commitActive_wf, Bind_wf, Bind_wf, Bind_wf, RegisterEdge_wf, RegisterEdge_wf, NewRegistry_wf. Qed.

Definition listeners3 : listenerManager := (lrun (lstep ident) empty_manager [LAdd 3 4; LSetVolume 3 4 0x40000000]).1.
Definition crypto3 : gmap Z gostring := fold_left (UpdateChannelCrypto users3) [0; 2; 3; 4] ∅.
Definition bare : Server table :=
  mkServer table users3 server1 registry3 listeners3 crypto3 (default_store [] [] (fun _ => Some None)) (Some NewEvaluator) ∅ {[LocalEdgeID; east]}.
Definition orders (i : nat) : Channels.order := ident.
Lemma orders_ok i : Channels.order_ok (orders i).
Proof. exact ident_ok. Qed.

(** Session 1 whispers to session 2 as target 1, and shouts to the subtree of
    channel 3 as target 2. *)
Definition whisper : VoiceTarget.t := VoiceTarget.mk 1 [VoiceTargetTarget.mk false [2; 9] 0 [] false false].
Definition shout : VoiceTarget.t := VoiceTarget.mk 2 [VoiceTargetTarget.mk true [] 3 [] false true].
Definition whispering : Server table := storeVoiceTarget bare (mkRef 1 1) whisper.
Definition sample_server : Server table := storeVoiceTarget whispering (mkRef 1 1) shout.

Lemma sample_ok (s : Server table) : srv_users s = users3 -> srv_chans s = server1 -> srv_registry s = registry3 ->
  srv_listeners s = listeners3 -> srv_acl s = Some NewEvaluator -> server_ok fold_ascii s.
Proof.
  intros E1 E2 E3 E4 E5. split; rewrite ?E1, ?E2, ?E3, ?E4.
  - exact users3_wf.
  - exact server1_wf.
  - exact registry3_wf.
  - exists (lrun (spec_step ident) ∅ [LAdd 3 4; LSetVolume 3 4 0x40000000]).1.
    destruct (lrun_refines ident ident_ok [LAdd 3 4; LSetVolume 3 4 0x40000000] empty_manager ∅ refines_empty) as [_ R]. exact R.
  - intros e. rewrite E5. intros [= <-]. apply cache_valid_empty.
Qed.
Lemma sample_server_ok : server_ok fold_ascii sample_server.
Proof. apply sample_ok; vm_compute; reflexivity. Qed.

Definition talk : Frame := (frame sample_delivery) <| Target := 0 |>.

(** Session 1 speaks in channel 2: session 2 hears it through a link, session
    3 because it listens to channel 4. *)
Example talk_batches :
  map (fun eb => (eb.1, map (fun r => (br_Session r, br_Context r, br_Volume r, br_ForceTunnel r)) (b_Recipients eb.2)))
    (voice_in fold_ascii orders id sample_server (mkRef 1 1) talk) =
  [(east, [(mkRef 2 2, ContextNormal, f32_one, true)]); (LocalEdgeID, [(mkRef 3 3, ContextListen, 0x40000000, false)])].
Proof. vm_compute. reflexivity. Qed.

Lemma speech_delivered_witness :
  let out := voice_in fold_ascii orders id sample_server (mkRef 1 1) talk in
  NoDup (map fst out) /\
  (forall e b, (e, b) ∈ out -> b_Sender b = mkRef 1 1 /\ b_Frame b = stamped (mkRef 1 1) talk /\ NoDup (map br_Session (b_Recipients b)) /\
     forall r, r ∈ b_Recipients b ->
       br_HasPosition r = true <-> HasPosition talk = true /\ shares_context sample_server 1 (SessionID (br_Session r))) /\
  forall e rf context,
    (exists b r, (e, b) ∈ out /\ r ∈ b_Recipients b /\ br_Session r = rf /\ br_Context r = context) <->
    e ∈ voice sample_server /\ edge_of sample_server rf = Some e /\ SessionID rf <> 1 /\ not_deaf sample_server (SessionID rf) /\
    heard_as fold_ascii sample_server 1 (SessionID rf) context.
Proof.
  exact (speech_delivered fold_ascii orders id orders_ok sample_server (mkRef 1 1) talk (fun l => Permutation_refl l)
    sample_server_ok ltac:(vm_compute; reflexivity) ltac:(vm_compute; reflexivity)).
Defined.

Lemma users3_modes : bool_decide (Forall (fun u => User.CryptoMode u <> mixed) (UserManager.users users3)) = true.
Proof. vm_compute. reflexivity. Qed.
Lemma users3_places : bool_decide (Forall (fun u => User.ChannelID u ∈ [0; 2; 3; 4]) (UserManager.users users3)) = true.
Proof. vm_compute. reflexivity. Qed.
Lemma users3_mode u : u ∈ UserManager.users users3 -> User.CryptoMode u <> mixed.
Proof. intros H. pose proof (bool_decide_eq_true_1 _ users3_modes) as F. rewrite Forall_forall in F. by apply F, list_elem_of_In. Qed.
Lemma users3_elsewhere cid : cid ∉ [0; 2; 3; 4] -> entry_fresh users3 ∅ cid.
Proof.
  intros Hc. unfold entry_fresh. rewrite lookup_empty. cbn zeta.
  assert (SnapshotByChannel users3 cid = []) as ->; [|done]. apply elem_of_nil_inv. intros u [<- Hu]%list_elem_of_filter. apply Hc.
  pose proof (bool_decide_eq_true_1 _ users3_places) as F. rewrite Forall_forall in F. by apply F, list_elem_of_In.
Qed.
Lemma server1_has2 : is_Some (Channels.tree server1 !! 2).
Proof. apply (bool_decide_eq_true_1 _). vm_compute. reflexivity. Qed.

Lemma mixed_crypto_exact_witness :
  channelHasMixedCrypto ident ident server1 crypto3 2 = Some true /\
  exists b, channelHasMixedCrypto ident ident server1 (fold_left (UpdateChannelCrypto users3) [0; 2; 3; 4] ∅) 2 = Some b /\
    (b = true <-> exists u v, speaks_with server1 users3 2 u /\ speaks_with server1 users3 2 v /\ User.CryptoMode u <> User.CryptoMode v).
Proof.
  split; [vm_compute; reflexivity|].
  exact (mixed_crypto_exact ident ident server1 users3 ∅ [0; 2; 3; 4] 2 ident_ok ident_ok server1_has2 users3_mode users3_elsewhere).
Defined.

(** Target 2 reaches session 2 as a member of channel 3 and session 3 as a
    listener of its subchannel. *)
Lemma voice_target_exact_witness :
  (getVoiceTargetRecipients fold_ascii orders sample_server 1 2 = Some [2; 3]) /\
  exists rs, resolveVoiceTarget fold_ascii orders sample_server 1 2 = Some rs /\ NoDup (map vr_session rs) /\
    (forall rf, (exists r, r ∈ rs /\ vr_ref r = rf) <-> exists c, hits fold_ascii sample_server 1 2 c /\ ref_of c.1.1 = rf) /\
    forall r, r ∈ rs -> SessionID (vr_ref r) = vr_session r /\ best_way fold_ascii sample_server 1 2 r.
Proof.
  split; [vm_compute; reflexivity|]. exact (voice_target_exact fold_ascii orders orders_ok sample_server 1 2 sample_server_ok).
Defined.

Lemma voice_target_identity_witness :
  (getVoiceTargetRecipients fold_ascii orders whispering 1 1 = Some [2]) /\
  exists rs, resolveVoiceTarget fold_ascii orders whispering 1 (u8 (VoiceTarget.ID whisper)) = Some rs /\
    forall r, r ∈ rs -> Active (srv_registry whispering) (mkRef 1 1) = true /\ Active (srv_registry whispering) (vr_ref r) = true /\
      (exists t, t ∈ VoiceTarget.Targets whisper /\ SessionID (vr_ref r) ∈ VoiceTargetTarget.Session t) /\
      is_Some (Registry.Snapshot (srv_registry bare) (vr_ref r)) /\
      exists u, Snapshot (srv_users bare) (SessionID (vr_ref r)) = Some u /\ User.SessionGeneration u = Generation (vr_ref r).
Proof.
  split; [vm_compute; reflexivity|].
  apply (voice_target_identity fold_ascii orders orders_ok bare whispering (mkRef 1 1) whisper).
  - apply sample_ok; vm_compute; reflexivity.
  - vm_compute. reflexivity.
  - reflexivity.
  - by intros t ->%list_elem_of_singleton.
Defined.

Lemma voice_targets_released_witness :
  targets_ok sample_server /\ targets_ok (removeVoiceTargetsLocked sample_server 2) /\
  (forall o t, target_at (removeVoiceTargetsLocked sample_server 2) o t = if decide (o = 2) then None else target_at sample_server o t ≫= without 2).
Proof.
  apply (voice_targets_released bare sample_server 2); [reflexivity|].
  eapply rtc_l; [apply (step_store bare (mkRef 1 1) whisper)|]. eapply rtc_l; [apply (step_store whispering (mkRef 1 1) shout)|]. apply rtc_refl.
Defined.
End VoiceSample.
