(* ===== verification/UdpIngress.v ===== *)
(** * Voice packets on the wire of an edge

    [internal/edge/protocol.go], [HandleUDP] and the sending side of
    [internal/mumble/handlers.go], [internal/mumble/local_voice_transport.go]:
    which session an encrypted packet from an address belongs to, what is
    answered to pings, and how voice leaves for a session of the local edge.

    One packet is handled at a time; the checks that an entry of [conns] is
    still the one that was looked up compare a value with itself here. The
    ciphers are those of the file on the crypt state. *)

From Stdlib Require Import ZArith Lia.
From stdpp Require Import base numbers list gmap sets option.
From S2P Require Import Prelude Wire Fields Messages Codec AudioVarint AudioPacket AudioCache CryptState Registry UserManager ChannelManager VoiceState VoiceServer.

Module UdpIngress.
Import VoiceFlags ChannelCrypto VoiceServer.

(** ** protocol.go *)

Fixpoint proto_varint_loop (b : bytes) (i v : Z) : Z * Z :=
  match b with
  | [] => (0, -1)
  | c :: b =>
      if i =? 10 then (0, -1) else
      if (i =? 9) && (1 <? c) then (0, -1) else
      let v := Z.lor v (u64 (Z.shiftl (Z.land c 0x7f) (7 * i))) in
      if Z.land c 0x80 =? 0 then (v, i + 1) else proto_varint_loop b (i + 1) v
  end.
Definition DecodeProtoVarint (b : bytes) : Z * Z := proto_varint_loop b 0 0.

Fixpoint proto_append_loop (fuel : nat) (buf : bytes) (v : Z) : bytes :=
  match fuel with
  | O => buf
  | S fuel => if 0x80 <=? v then proto_append_loop fuel (buf ++ [Z.lor (u8 v) 0x80]) (Z.shiftr v 7) else buf ++ [u8 v]
  end.
(** A 64-bit number has at most ten groups of seven bits. *)
Definition AppendProtoVarint (buf : bytes) (v : Z) : bytes := proto_append_loop 10 buf v.
Definition AppendProtoVarintField (buf : bytes) (field v : Z) : bytes := AppendProtoVarint (AppendProtoVarint buf (u64 (Z.shiftl field 3))) v.

Definition pingLegacyVersion : Z := Z.lor (Z.shiftl 1 16) (Z.shiftl 5 8).
Definition pingVersionV2 : Z := Z.lor (Z.shiftl 1 48) (Z.shiftl 5 32).
Definition pingHeaderProtobuf : Z := 1.

Definition ProtobufPingReply (body : bytes) (userCount maxUsers maxBandwidth : Z) : option bytes :=
  match DecodePing WireProtobuf (1 :: body) with
  | Err _ => None
  | Ok (timestamp, requestInfo) =>
      if negb requestInfo then None else
      let out := AppendProtoVarintField [pingHeaderProtobuf] 1 timestamp in
      let out := AppendProtoVarintField out 3 pingVersionV2 in
      let out := AppendProtoVarintField out 4 (u64 userCount) in
      let out := AppendProtoVarintField out 5 (u64 maxUsers) in
      Some (AppendProtoVarintField out 6 (u64 maxBandwidth))
  end.
Definition PlainPingReply (data : bytes) (userCount maxUsers maxBandwidth : Z) : option bytes :=
  if (zlen data =? 12) && (be32_read data =? 0) then
    Some (be32 pingLegacyVersion ++ ztake 8 (zdrop 4 data) ++ be32 (u32 userCount) ++ be32 (u32 maxUsers) ++ be32 (u32 maxBandwidth))
  else match data with
  | b0 :: body => if (1 <? zlen data) && (b0 =? pingHeaderProtobuf) then ProtobufPingReply body userCount maxUsers maxBandwidth else None
  | [] => None
  end.

Definition ClientVersionFull (v : Version.t) : Z :=
  if negb (Version.VersionV2 v =? 0) then Version.VersionV2 v else
  if negb (Version.VersionV1 v =? 0) then
    let v1 := Version.VersionV1 v in
    let major := Z.shiftr (Z.land v1 0xFFFF0000) 16 in
    let minor := Z.shiftr (Z.land v1 0xFF00) 8 in
    let patch := Z.land v1 0xFF in
    Z.lor (Z.lor (u64 (Z.shiftl major 48)) (u64 (Z.shiftl minor 32))) (u64 (Z.shiftl patch 16))
  else 0.

(** ** The local edge *)

(** What voice needs of a [connection.Conn]. *)
Record Conn := mkConn {
  conn_Generation : Z;
  conn_Crypt : option CryptState;
  conn_Active : bool;
  conn_WireMode : Z }.
#[export] Instance Conn_eta : Eta Conn := fun c => mkConn (conn_Generation c) (conn_Crypt c) (conn_Active c) (conn_WireMode c).

(** Addresses are known by their strings. *)
Record Udp := mkUdp {
  udpConn : bool;
  conns : gmap Z Conn;
  sessionByAddr : gmap gostring SessionRef;
  addrBySession : gmap SessionRef gostring }.
#[export] Instance Udp_eta : Eta Udp := fun u => mkUdp (udpConn u) (conns u) (sessionByAddr u) (addrBySession u).

Record Limits := mkLimits { MaxUsers : Z; MaxBandwidth : Z }.

(** A datagram, a frame given to the router, a packet tunnelled in the stream
    of a session. *)
Inductive udp_effect :=
  | WriteTo (data : bytes) (addr : gostring)
  | RouteVoice (rf : SessionRef) (f : Frame)
  | WriteRaw (sid : Z) (packet : bytes).

Section Voice.
Context (aesE aesD : bytes -> bytes -> bytes) (gcmSeal : bytes -> bytes -> bytes -> bytes) (gcmOpen : bytes -> bytes -> bytes -> option bytes).
Context `{SO : Channels.Sorter} {DB : Type}.
Context (ord : nat -> Channels.order).
(** The order in which [range] visits [conns] for each mode. *)
Context (ordC : Mode -> list Z -> list Z).
Implicit Types (s : Server DB) (u : Udp).

Notation decrypt := (DecryptPacket aesE aesD gcmOpen).
Notation encrypt := (EncryptPacket aesE gcmSeal).

(** [make([]byte, n)]. *)
Definition blank (n : Z) : bytes := replicate (Z.to_nat n) 0.

Definition set_crypt u (sid : Z) (c : Conn) (cr : CryptState) : Udp := u <| conns := <[sid := c <| conn_Crypt := Some cr |>]> (conns u) |>.

(** [c.Crypt.Decrypt(plain, data)] with the reslicing after a success. [buf]
    is the buffer as it is left. *)
Definition try_crypt u (sid : Z) (c : Conn) (cr : CryptState) (buf data : bytes) : Udp * bytes * option bytes :=
  let '(cr', buf, e) := decrypt cr buf data in
  (set_crypt u sid c cr', buf, match e with None => Some (ztake (zlen data - Overhead cr) buf) | Some _ => None end).

Definition by_cache u (addr : gostring) (buf data : bytes) : Udp * bytes * option (Z * bytes) :=
  match sessionByAddr u !! addr with
  | None => (u, buf, None)
  | Some cachedRef =>
      let sid := SessionID cachedRef in
      match conns u !! sid with
      | None => (u, buf, None)
      | Some c =>
          match conn_Crypt c with
          | None => (u, buf, None)
          | Some cr =>
              if (conn_Generation c =? Generation cachedRef) && conn_Active c then
                match try_crypt u sid c cr buf data with
                | (u, buf, Some plain) => (u, buf, Some (sid, plain))
                | (u, buf, None) => (u <| sessionByAddr := delete addr (sessionByAddr u) |>, buf, None)
                end
              else (u, buf, None)
          end
      end
  end.

Fixpoint try_all (m : Mode) (sids : list Z) u (buf data : bytes) : Udp * bytes * option (Z * bytes) :=
  match sids with
  | [] => (u, buf, None)
  | sid :: sids =>
      match conns u !! sid with
      | None => try_all m sids u buf data
      | Some c =>
          match conn_Crypt c with
          | None => try_all m sids u buf data
          | Some cr =>
              if negb (conn_Active c) || negb (bool_decide (mode cr = m)) then try_all m sids u buf data else
              match try_crypt u sid c cr buf data with
              | (u, buf, Some plain) => (u, buf, Some (sid, plain))
              | (u, buf, None) => try_all m sids u buf data
              end
          end
      end
  end.
Fixpoint try_modes (ms : list Mode) u (buf data : bytes) : Udp * option (Z * bytes) :=
  match ms with
  | [] => (u, None)
  | m :: ms =>
      match try_all m (ordC m (map fst (map_to_list (conns u)))) u buf data with
      | (u, _, Some found) => (u, Some found)
      | (u, buf, None) => try_modes ms u buf data
      end
  end.
(** [senderSession] stays 0 until somebody is found. *)
Definition identify u (addr : gostring) (data : bytes) : Udp * option (Z * bytes) :=
  let '(u, buf, found) := by_cache u addr (blank (zlen data + 256)) data in
  let '(u, found) := match found with
    | Some (sid, plain) => if sid =? 0 then try_modes [ModeSecure; ModeLegacy; ModeLite] u plain data else (u, Some (sid, plain))
    | None => try_modes [ModeSecure; ModeLegacy; ModeLite] u buf data
    end in
  (u, match found with Some (sid, plain) => if sid =? 0 then None else Some (sid, plain) | None => None end).

Definition is_ping (wire : Z) (plain : bytes) : bool :=
  match plain with
  | b0 :: _ => (wire =? WireLegacy) && (Z.shiftr b0 5 =? 1) || (wire =? WireProtobuf) && (b0 =? 1)
  | [] => false
  end.
(** What a ping is answered with, before encryption. *)
Definition ping_answer (cfg : Limits) (count wire : Z) (plain : bytes) : option bytes :=
  match DecodePing wire plain with
  | Err _ => None
  | Ok (timestamp, extended) => Some (
      if wire =? WireProtobuf then
        if extended then default [] (ProtobufPingReply (zdrop 1 plain) count (MaxUsers cfg) (MaxBandwidth cfg))
        else AppendProtoVarintField [1] 1 timestamp
      else plain)
  end.
Definition mixed_for s (sid : Z) : bool :=
  match ChannelIDOf (srv_users s) sid with Some cid => hasMixedCrypto ord s cid | None => false end.

(** [c.Crypt.Encrypt] and the datagram. *)
Definition write_udp u (sid : Z) (c : Conn) (cr : CryptState) (packet : bytes) (addr : gostring) : Udp * option udp_effect :=
  let '(cr', enc, e) := encrypt cr (blank (zlen packet + Overhead cr)) packet in
  (set_crypt u sid c cr', match e with None => Some (WriteTo enc addr) | Some _ => None end).

Definition decodeAudio (c : Conn) (payload : bytes) : Frame * option audio_error := DecodeClientPacket (conn_WireMode c) payload.

(** A packet that was decrypted as [sid]'s. *)
Definition receive (cfg : Limits) s u (addr : gostring) (sid : Z) (plain : bytes) : Udp * list udp_effect :=
  if zlen plain <? 1 then (u, []) else
  match conns u !! sid with
  | None => (u, [])
  | Some c =>
      match conn_Crypt c with
      | None => (u, [])
      | Some cr =>
          if negb (conn_Active c) then (u, []) else
          let rf := mkRef sid (conn_Generation c) in
          if negb (Active (srv_registry s) rf) then (u, []) else
          let u := u <| addrBySession := <[rf := addr]> (addrBySession u) |> <| sessionByAddr := <[addr := rf]> (sessionByAddr u) |> in
          let wire := conn_WireMode c in
          if MaxPacketSize <? zlen plain then (u, []) else
          if is_ping wire plain then
            match ping_answer cfg (UserManager.Count (srv_users s)) wire plain with
            | None => (u, [])
            | Some answer =>
                if mixed_for s sid then (u, []) else
                let '(u, e) := write_udp u sid c cr answer addr in (u, option_list e)
            end
          else
            match decodeAudio c plain with
            | (f, None) => (u, [RouteVoice rf f])
            | (_, Some _) => (u, [])
            end
      end
  end.
Definition HandleUDP (cfg : Limits) s u (addr : gostring) (data : bytes) : Udp * list udp_effect :=
  if negb (udpConn u) then (u, []) else
  match PlainPingReply data (UserManager.Count (srv_users s)) (MaxUsers cfg) (MaxBandwidth cfg) with
  | Some reply => (u, [WriteTo reply addr])
  | None =>
      match identify u addr data with
      | (u, None) => (u, [])
      | (u, Some (sid, plain)) => receive cfg s u addr sid plain
      end
  end.

(** [rf] is the session of the connection. *)
Definition handleUDPTunnel (c : Conn) (rf : SessionRef) (payload : bytes) : list udp_effect * option audio_error :=
  if negb (conn_Active c) then ([], None) else
  match decodeAudio c payload with
  | (_, Some e) => ([], Some e)
  | (f, None) => ([RouteVoice rf f], None)
  end.

(** ** Voice that leaves *)

Definition sendAudioTo s u (sid : Z) (c : Conn) (recipientAddr : option gostring) (packet : bytes) : Udp * list udp_effect :=
  let tunnel u := (u, [WriteRaw sid packet]) in
  match recipientAddr, conn_Crypt c with
  | Some addr, Some cr =>
      if negb (udpConn u) then tunnel u else
      match ChannelIDOf (srv_users s) sid with
      | Some cid => if hasMixedCrypto ord s cid then tunnel u else
                    match write_udp u sid c cr packet addr with (u, Some e) => (u, [e]) | (u, None) => tunnel u end
      | None => match write_udp u sid c cr packet addr with (u, Some e) => (u, [e]) | (u, None) => tunnel u end
      end
  | _, _ => tunnel u
  end.
Definition sendDeliveryTo s u (sid : Z) (c : Conn) (addr : option gostring) (d : Delivery) (cache : option EncodingCache)
    : Udp * option EncodingCache * list udp_effect :=
  let position := HasPosition (frame d) &&
    match UserManager.Snapshot (srv_users s) (SenderSession (frame d)), UserManager.Snapshot (srv_users s) sid with
    | Some speaker, Some recipient => bool_decide (User.PluginContext speaker = User.PluginContext recipient)
    | _, _ => false
    end in
  let d := d <| frame := (frame d) <| HasPosition := position |> |> in
  match Encode cache (conn_WireMode c) d with
  | (Err _, cache) => (u, cache, [])
  | (Ok packet, cache) => let '(u, es) := sendAudioTo s u sid c addr packet in (u, cache, es)
  end.
Definition deliver_one s (f : Frame) u (cache : option EncodingCache) (r : VoiceRecipient) : Udp * option EncodingCache * list udp_effect :=
  if negb (Active (srv_registry s) (br_Session r)) then (u, cache, []) else
  match conns u !! SessionID (br_Session r) with
  | None => (u, cache, [])
  | Some c =>
      if negb (conn_Generation c =? Generation (br_Session r)) then (u, cache, []) else
      let d := mkDelivery (f <| HasPosition := br_HasPosition r |>) (br_Context r) (br_Volume r) in
      sendDeliveryTo s u (SessionID (br_Session r)) c (addrBySession u !! br_Session r) d cache
  end.
Fixpoint deliver_all s (f : Frame) u (cache : option EncodingCache) (rs : list VoiceRecipient) : Udp * list udp_effect :=
  match rs with
  | [] => (u, [])
  | r :: rs => let '(u, cache, e1) := deliver_one s f u cache r in let '(u, e2) := deliver_all s f u cache rs in (u, e1 ++ e2)
  end.
Definition DeliverVoice s u (batch : VoiceBatch) : Udp * list udp_effect := deliver_all s (b_Frame batch) u (Some NewEncodingCache) (b_Recipients batch).

(** ** Resynchronisation of the nonces *)

Definition CryptSetupResync (c : Conn) (payload : bytes) : Conn * list message * option wire_error :=
  match conn_Crypt c with
  | None => (c, [], None)
  | Some cr =>
      match (if 0 <? zlen payload then CryptSetup.Unmarshal CryptSetup.zero payload else (CryptSetup.zero, None)) with
      | (_, Some e) => (c, [], Some e)
      | (cs, None) =>
          let cr := if 0 <? zlen (CryptSetup.ClientNonce cs) then (SetDecNonce cr (CryptSetup.ClientNonce cs)).1 else cr in
          let answer := if (0 <? zlen (CryptSetup.ServerNonce cs)) || ((zlen (default [] (CryptSetup.Key cs)) =? 0) && (zlen (CryptSetup.ClientNonce cs) =? 0)) then
              match EncNonce cr with
              | Some nonce => if 0 <? zlen nonce then [MCryptSetup (CryptSetup.zero <| CryptSetup.ServerNonce := nonce |>)] else []
              | None => []
              end
            else [] in
          (c <| conn_Crypt := Some cr |>, answer, None)
      end
  end.

(** ** Whose packet it is *)

(** The packet verifies under the key of [cr]. In lite mode there is no key, and
    nothing verifies. *)
Definition verifies (cr : CryptState) (data : bytes) : Prop :=
  match mode cr with
  | ModeLite => False
  | ModeLegacy => exists key nonce plain, legacyBlock cr = Some key /\
      Ocb2.Decrypt (aesE key) (aesD key) (zdrop 4 data) nonce (ztake 3 (zdrop 1 data)) = Some (plain, true)
  | ModeSecure => exists key plain, secureAEAD cr = Some key /\ gcmOpen key (ztake secureNonceSize data) (zdrop secureNonceSize data) = Some plain
  end.
(** [cr'] sends and verifies as [cr]. *)
Record same_keys (cr cr' : CryptState) : Prop := {
  sk_mode : mode cr' = mode cr;
  sk_legacy : legacyBlock cr' = legacyBlock cr;
  sk_secure : secureAEAD cr' = secureAEAD cr;
  sk_enc : encNonce cr' = encNonce cr /\ encCounter cr' = encCounter cr;
  sk_size : length (decNonce cr) = 16%nat -> length (decNonce cr') = 16%nat }.
(** A connection in lite mode takes every packet, whoever sent it; the others
    those that verify. *)
Definition authentic (cr : CryptState) (data : bytes) : Prop := mode cr = ModeLite \/ verifies cr data.

(** The secure window is moved to the counter the packet claims, before the
    packet is verified. *)
Definition window_moved (data : bytes) (cr cr' : CryptState) : Prop :=
  secureOverhead <= zlen data /\ window cr (be64_read (zdrop 4 (ztake secureNonceSize data))) = Ok cr'.
(** What a packet that was not accepted leaves of [cr]: the keys and everything
    that is sent with; in lite mode all of it; in legacy mode all but two
    statistics, so the nonces it expects; in secure mode all but the window and
    its statistics, which may have been moved to the counter of the packet. *)
Definition intact (data : bytes) (cr cr' : CryptState) : Prop :=
  same_keys cr cr' /\
  match mode cr with
  | ModeLite => cr' = cr
  | ModeLegacy => exists late lost, cr' = cr <| Late := late |> <| Lost := lost |>
  | ModeSecure => rtc (window_moved data) cr cr'
  end.

Lemma same_keys_refl cr : same_keys cr cr.
Proof. by split. Qed.
Lemma same_keys_trans c1 c2 c3 : same_keys c1 c2 -> same_keys c2 c3 -> same_keys c1 c3.
Proof. intros [? ? ? [? ?] ?] [? ? ? [? ?] ?]. split; try congruence; [split; congruence|auto]. Qed.
Lemma intact_refl data cr : intact data cr cr.
Proof. split; [apply same_keys_refl|]. destruct (mode cr); [done|exists (Late cr), (Lost cr); by destruct cr|done]. Qed.
Lemma intact_trans data c1 c2 c3 : intact data c1 c2 -> intact data c2 c3 -> intact data c1 c3.
Proof.
  intros [H1 L1] [H2 L2]. split; [by eapply same_keys_trans|]. rewrite (sk_mode _ _ H1) in L2. destruct (mode c1).
  - congruence.
  - destruct L1 as (? & ? & ->), L2 as (la & lo & ->). by exists la, lo.
  - by etrans.
Qed.
Lemma authentic_same cr cr' data : same_keys cr cr' -> authentic cr' data -> authentic cr data.
Proof. intros [Hm Hl Hs _ _]. unfold authentic, verifies. by rewrite Hm, Hl, Hs. Qed.

Lemma advance_length n iv d : length (advance n iv d) = length n.
Proof.
  unfold advance. destruct (iv <? d); unfold inc_upper, set_first; [|by rewrite length_insert].
  destruct n as [|b n]; cbn; [done|]. f_equal. by rewrite inc_bytes_length.
Qed.
Lemma choose_nonce_kept cr iv cr' b : choose_nonce cr iv = Ok (cr', b) ->
  mode cr' = mode cr /\ legacyBlock cr' = legacyBlock cr /\ secureAEAD cr' = secureAEAD cr /\ (encNonce cr' = encNonce cr /\ encCounter cr' = encCounter cr) /\
  length (decNonce cr') = length (decNonce cr) /\ exists late lost, cr' <| decNonce := decNonce cr |> = cr <| Late := late |> <| Lost := lost |>.
Proof.
  unfold choose_nonce. destruct (iv_diff _ _ =? 1); [|destruct (1 <? _); [|destruct (_ && _); [|done]]]; intros [= <- <-]; cbn -[advance set_first];
    (split_and!; [done..| |]); rewrite ?advance_length; unfold set_first; rewrite ?length_insert; try done.
  - exists (Late cr), (Lost cr). by destruct cr.
  - exists (Late cr). by eexists.
  - eexists. by exists (Lost cr).
Qed.
Lemma window_kept cr counter cr' : window cr counter = Ok cr' -> same_keys cr cr'.
Proof.
  unfold window. destruct (counter <=? decMax cr).
  - repeat (case_match; [done|]). intros [= <-]. by split.
  - repeat case_match; simplify_eq; intros [= <-]; by split.
Qed.
Lemma Decrypt_total E D src nonce tag : length nonce = 16%nat -> Ocb2.Decrypt E D src nonce tag <> None.
Proof.
  intros H. unfold Ocb2.Decrypt. rewrite H. change (negb (Nat.eqb 16 Ocb2.NonceSize)) with false. cbv iota.
  destruct (Ocb2.decrypt_blocks _ _ _ _ _ _) as [[[? ?] ?] ?]. discriminate.
Qed.
Lemma decrypt_spec cr buf data cr' buf' e : length (decNonce cr) = 16%nat -> decrypt cr buf data = (cr', buf', e) ->
  same_keys cr cr' /\ (e = None -> authentic cr data) /\ (e <> None -> intact data cr cr').
Proof.
  intros Hn. unfold DecryptPacket, authentic, verifies. pose proof (intact_refl data cr) as Hi. destruct (mode cr) eqn:Em.
  - intros [= <- <- <-]. split; [apply same_keys_refl|]. split; [by left|done].
  - assert (same_keys cr cr) as Hk0 by apply same_keys_refl. unfold decryptLegacy. destruct (legacyBlock cr) as [key|] eqn:El; [|intros [= <- <- <-]; done].
    destruct (_ <? legacyOverhead); [intros [= <- <- <-]; done|]. destruct (zlen buf <? _); [intros [= <- <- <-]; done|].
    destruct (choose_nonce cr (first data)) as [[c1 restore]|er] eqn:Ec; [|intros [= <- <- <-]; done].
    destruct (choose_nonce_kept _ _ _ _ Ec) as (H1 & H2 & H3 & H4 & H5 & H6).
    assert (same_keys cr (c1 <| decNonce := decNonce cr |>)) as Hk by (split; cbn; done).
    assert (intact data cr (c1 <| decNonce := decNonce cr |>)) as Hi' by (split; [done|]; by rewrite Em).
    destruct (history c1 (first data) =? _); [intros [= <- <- <-]; done|].
    destruct (Ocb2.Decrypt _ _ _ _ _) as [[plain ok]|] eqn:Ed; [|apply Decrypt_total in Ed; [done|]; by rewrite H5].
    destruct ok; cbn [negb]; [|intros [= <- <- <-]; done].
    intros [= <- <- <-]. split; [|split; [|done]].
    + destruct restore; split; cbn; try done. intros _. by rewrite H5.
    + intros _. right. by exists key, (decNonce c1), plain.
  - assert (same_keys cr cr) as Hk0 by apply same_keys_refl. unfold decryptSecure. destruct (secureAEAD cr) as [key|] eqn:El; [|intros [= <- <- <-]; done].
    destruct (Z.ltb_spec (zlen data) secureOverhead) as [|Hlen]; [intros [= <- <- <-]; done|].
    destruct (window cr _) as [c1|er] eqn:Ew; [|intros [= <- <- <-]; done].
    assert (intact data cr c1) as Hi' by (split; [by eapply window_kept|]; rewrite Em; by apply rtc_once).
    apply window_kept in Ew. destruct (gcmOpen _ _ _) as [plain|] eqn:Eg; [|intros [= <- <- <-]; done].
    destruct (_ <? _); intros [= <- <- <-]; (split; [done|]); (split; [|done]); [done|]. intros _. right. by exists key, plain.
Qed.

(** ** The connections after the search *)

Definition related (R : CryptState -> CryptState -> Prop) (c c' : Conn) : Prop :=
  conn_Generation c' = conn_Generation c /\ conn_Active c' = conn_Active c /\ conn_WireMode c' = conn_WireMode c /\
  match conn_Crypt c, conn_Crypt c' with Some cr, Some cr' => R cr cr' | None, None => True | _, _ => False end.
Definition sized u : Prop := forall sid c cr, conns u !! sid = Some c -> conn_Crypt c = Some cr -> length (decNonce cr) = 16%nat.
(** The connections of [u'] are those of [u], related by [R sid]. *)
Definition conns_rel (R : Z -> CryptState -> CryptState -> Prop) u u' : Prop :=
  forall sid, match conns u !! sid, conns u' !! sid with Some c, Some c' => related (R sid) c c' | None, None => True | _, _ => False end.
Lemma related_mono (R R' : CryptState -> CryptState -> Prop) c c' : (forall x y, R x y -> R' x y) -> related R c c' -> related R' c c'.
Proof. intros H (? & ? & ? & Hc). split_and!; try done. destruct (conn_Crypt c), (conn_Crypt c'); auto. Qed.
Lemma conns_rel_refl (R : Z -> CryptState -> CryptState -> Prop) u : (forall sid cr, R sid cr cr) -> conns_rel R u u.
Proof. intros H sid. destruct (conns u !! sid) as [c|]; [|done]. split_and!; try done. by destruct (conn_Crypt c). Qed.
Lemma conns_rel_trans (R : Z -> CryptState -> CryptState -> Prop) u1 u2 u3 : (forall sid a b c, R sid a b -> R sid b c -> R sid a c) -> conns_rel R u1 u2 -> conns_rel R u2 u3 -> conns_rel R u1 u3.
Proof.
  intros H H1 H2 sid. specialize (H1 sid). specialize (H2 sid). destruct (conns u1 !! sid) as [c1|], (conns u2 !! sid) as [c2|], (conns u3 !! sid) as [c3|]; try done.
  destruct H1 as (A1 & A2 & A3 & A4), H2 as (B1 & B2 & B3 & B4). split_and!; try congruence. destruct (conn_Crypt c1), (conn_Crypt c2), (conn_Crypt c3); try done. eauto.
Qed.
Lemma set_crypt_rel (R : Z -> CryptState -> CryptState -> Prop) u sid c cr cr' : (forall sid cr, R sid cr cr) -> conns u !! sid = Some c -> conn_Crypt c = Some cr -> R sid cr cr' ->
  conns_rel R u (set_crypt u sid c cr').
Proof.
  intros Hr Hc He H sid1. cbn -[lookup insert]. destruct (decide (sid = sid1)) as [<-|Hn]; [rewrite lookup_insert_eq, Hc|rewrite lookup_insert_ne by done; by apply conns_rel_refl].
  split_and!; try done. cbn. by rewrite He.
Qed.
Lemma sized_rel (R : Z -> CryptState -> CryptState -> Prop) u u' : (forall sid a b, R sid a b -> same_keys a b) -> conns_rel R u u' -> sized u -> sized u'.
Proof.
  intros HR H S sid c' cr' Hc He. specialize (H sid). rewrite Hc in H. destruct (conns u !! sid) as [c|] eqn:Hu; [|done]. destruct H as (_ & _ & _ & H).
  rewrite He in H. destruct (conn_Crypt c) as [cr|] eqn:Hcr; [|done]. by apply (sk_size _ _ (HR _ _ _ H)), (S sid c cr).
Qed.

(** Whoever is not found is intact. *)
Definition spared (data : bytes) (found : option (Z * bytes)) (sid : Z) : CryptState -> CryptState -> Prop :=
  if bool_decide ((fst <$> found) = Some sid) then same_keys else intact data.
Lemma spared_refl data found sid cr : spared data found sid cr cr.
Proof. unfold spared. case_bool_decide; [apply same_keys_refl|apply intact_refl]. Qed.
Lemma spared_keys data found sid a b : spared data found sid a b -> same_keys a b.
Proof. unfold spared. case_bool_decide; [done|by intros [? _]]. Qed.
Lemma spared_trans data found sid a b c : spared data found sid a b -> spared data found sid b c -> spared data found sid a c.
Proof. unfold spared. case_bool_decide; [apply same_keys_trans|apply intact_trans]. Qed.
Lemma spared_none data found sid a b : spared data None sid a b -> spared data found sid a b.
Proof. unfold spared at 1. rewrite bool_decide_eq_false_2 by done. unfold spared. case_bool_decide; [by intros [? _]|done]. Qed.

(** The packet was found to be [sid]'s. *)
Definition found_in u (data : bytes) (found : option (Z * bytes)) : Prop :=
  match found with
  | Some (sid, plain) => exists c cr, conns u !! sid = Some c /\ conn_Crypt c = Some cr /\ conn_Active c = true /\ authentic cr data
  | None => True
  end.
Lemma found_in_back u u' data found : conns_rel (spared data found) u u' \/ conns_rel (spared data None) u u' -> found_in u' data found -> found_in u data found.
Proof.
  intros H. destruct found as [[sid plain]|]; [|done]. cbn. intros (c' & cr' & Hc & He & Ha & Hau).
  assert (exists c cr, conns u !! sid = Some c /\ conn_Crypt c = Some cr /\ conn_Active c = true /\ same_keys cr cr') as (c & cr & H1 & H2 & H3 & H4).
  { destruct H as [H|H]; specialize (H sid); rewrite Hc in H; destruct (conns u !! sid) as [c|] eqn:Hu; try done; destruct H as (_ & A & _ & B); rewrite He in B;
      destruct (conn_Crypt c) as [cr|] eqn:Hcr; try done; exists c, cr; split_and!; try done; try congruence; by eapply spared_keys. }
  exists c, cr. split_and!; try done. by eapply authentic_same.
Qed.

Lemma try_crypt_spec u sid c cr buf data : sized u -> conns u !! sid = Some c -> conn_Crypt c = Some cr -> conn_Active c = true ->
  let '(u', _, o) := try_crypt u sid c cr buf data in let found := (fun plain => (sid, plain)) <$> o in
  conns_rel (spared data found) u u' /\ found_in u data found /\ u' = u <| conns := conns u' |>.
Proof.
  intros S Hc He Ha. unfold try_crypt. destruct (decrypt cr buf data) as [[cr' buf'] e] eqn:Ed.
  destruct (decrypt_spec _ _ _ _ _ _ (S _ _ _ Hc He) Ed) as (H1 & H2 & H3). split_and!.
  - eapply set_crypt_rel; [intros; apply spared_refl|done|done|]. unfold spared. destruct e; cbn; [by apply H3|]. by rewrite bool_decide_eq_true_2.
  - destruct e; [done|]. exists c, cr. split_and!; auto.
  - done.
Qed.
Lemma by_cache_spec u addr buf data : sized u -> let '(u', _, found) := by_cache u addr buf data in
  conns_rel (spared data found) u u' /\ found_in u data found /\ addrBySession u' = addrBySession u /\ udpConn u' = udpConn u /\
  (sessionByAddr u' = sessionByAddr u \/ sessionByAddr u' = delete addr (sessionByAddr u)).
Proof.
  intros S. assert (conns_rel (spared data None) u u) as Hid by (apply conns_rel_refl; intros; apply spared_refl).
  unfold by_cache. destruct (sessionByAddr u !! addr) as [rf|]; [|by split_and!; [| | | |left]]. destruct (conns u !! SessionID rf) as [c|] eqn:Hc; [|by split_and!; [| | | |left]].
  destruct (conn_Crypt c) as [cr|] eqn:He; [|by split_and!; [| | | |left]]. destruct (_ && conn_Active c) eqn:Hb; [|by split_and!; [| | | |left]].
  apply andb_true_iff in Hb as [_ Ha]. pose proof (try_crypt_spec u _ c cr buf data S Hc He Ha) as H. destruct (try_crypt _ _ _ _ _ _) as [[u' buf'] [plain|]].
  - destruct H as (H1 & H2 & H3). split_and!; try done; [by rewrite H3|by rewrite H3|left; by rewrite H3].
  - destruct H as (H1 & H2 & H3). split_and!; try done; [by rewrite H3|by rewrite H3|right; by rewrite H3].
Qed.
Lemma try_all_spec m sids u buf data : sized u -> let '(u', _, found) := try_all m sids u buf data in
  conns_rel (spared data found) u u' /\ found_in u data found /\ u' = u <| conns := conns u' |>.
Proof.
  revert u buf. induction sids as [|sid sids IH]; intros u buf S; cbn [try_all].
  { split_and!; [apply conns_rel_refl; intros; apply spared_refl|done|by destruct u]. }
  destruct (conns u !! sid) as [c|] eqn:Hc; [|by apply IH]. destruct (conn_Crypt c) as [cr|] eqn:He; [|by apply IH].
  destruct (conn_Active c) eqn:Ha; cbn [negb orb]; [|by apply IH]. destruct (negb _); [by apply IH|].
  pose proof (try_crypt_spec u sid c cr buf data S Hc He Ha) as H. destruct (try_crypt _ _ _ _ _ _) as [[u1 buf1] [plain|]]; [done|].
  destruct H as (H1 & _ & H3). assert (sized u1) as S1 by (eapply sized_rel; [|exact H1|done]; intros; by eapply spared_keys).
  specialize (IH u1 buf1 S1). destruct (try_all m sids u1 buf1 data) as [[u2 buf2] found]. destruct IH as (K1 & K2 & K3).
  split_and!; [|eapply found_in_back; [by right|done]|rewrite K3, H3; by cbn].
  eapply conns_rel_trans; [intros; by eapply spared_trans| |exact K1]. intros sid1. specialize (H1 sid1).
  destruct (conns u !! sid1), (conns u1 !! sid1); try done. eapply related_mono; [|exact H1]. intros; by apply spared_none.
Qed.
Lemma try_modes_spec ms u buf data : sized u -> let '(u', found) := try_modes ms u buf data in
  conns_rel (spared data found) u u' /\ found_in u data found /\ u' = u <| conns := conns u' |>.
Proof.
  revert u buf. induction ms as [|m ms IH]; intros u buf S; cbn [try_modes].
  { split_and!; [apply conns_rel_refl; intros; apply spared_refl|done|by destruct u]. }
  pose proof (try_all_spec m (ordC m (map fst (map_to_list (conns u)))) u buf data S) as H. destruct (try_all _ _ _ _ _) as [[u1 buf1] [found|]]; [done|].
  destruct H as (H1 & _ & H3). assert (sized u1) as S1 by (eapply sized_rel; [|exact H1|done]; intros; by eapply spared_keys).
  specialize (IH u1 buf1 S1). destruct (try_modes ms u1 buf1 data) as [u2 found]. destruct IH as (K1 & K2 & K3).
  split_and!; [|eapply found_in_back; [by right|done]|rewrite K3, H3; by cbn].
  eapply conns_rel_trans; [intros; by eapply spared_trans| |exact K1]. intros sid1. specialize (H1 sid1).
  destruct (conns u !! sid1), (conns u1 !! sid1); try done. eapply related_mono; [|exact H1]. intros; by apply spared_none.
Qed.

(** Where the search leads. Only when session 0, which is no session, is found
    first could somebody have been disturbed; no connection has that number. *)
Lemma identify_spec u addr data : sized u -> conns u !! 0 = None -> let '(u', found) := identify u addr data in
  conns_rel (spared data found) u u' /\ found_in u data found /\ addrBySession u' = addrBySession u /\ udpConn u' = udpConn u /\
  (forall a, a <> addr -> sessionByAddr u' !! a = sessionByAddr u !! a).
Proof.
  intros S H0. unfold identify. pose proof (by_cache_spec u addr (blank (zlen data + 256)) data S) as H.
  destruct (by_cache _ _ _ _) as [[u1 buf1] found1]. destruct H as (H1 & H2 & H3 & H4 & H5).
  assert (forall a, a <> addr -> sessionByAddr u1 !! a = sessionByAddr u !! a) as H6.
  { intros a Ha. destruct H5 as [-> | ->]; [done|]. by rewrite lookup_delete_ne. }
  destruct found1 as [[sid plain]|].
  - destruct H2 as (c & cr & Hc & Hrest). destruct (Z.eqb_spec sid 0) as [->|Hn]; [congruence|]. rewrite (proj2 (Z.eqb_neq sid 0)) by done.
    split_and!; [done|by exists c, cr|done..].
  - assert (sized u1) as S1 by (eapply sized_rel; [|exact H1|done]; intros; by eapply spared_keys).
    pose proof (try_modes_spec [ModeSecure; ModeLegacy; ModeLite] u1 buf1 data S1) as K. destruct (try_modes _ _ _ _) as [u2 found]. destruct K as (K1 & K2 & K3).
    assert (found_in u data found) as Hf by (eapply found_in_back; [by right|done]).
    assert (conns_rel (spared data found) u u2) as Hr.
    { eapply conns_rel_trans; [intros; by eapply spared_trans| |exact K1]. intros sid1. specialize (H1 sid1).
      destruct (conns u !! sid1), (conns u1 !! sid1); try done. eapply related_mono; [|exact H1]. intros; by apply spared_none. }
    assert (match found with Some (sid, plain) => if sid =? 0 then None else Some (sid, plain) | None => None end = found) as ->.
    { destruct found as [[sid plain]|]; [|done]. destruct Hf as (c & cr & Hc & _). destruct (Z.eqb_spec sid 0) as [->|]; [congruence|done]. }
    split_and!; try done; rewrite K3; done.
Qed.

(** What a handled packet may do. *)
Record handled s u u' (addr : gostring) (data : bytes) (rf : SessionRef) (es : list udp_effect) : Prop := {
  hd_active : Active (srv_registry s) rf = true;
  hd_conn : exists c cr, conns u !! SessionID rf = Some c /\ conn_Crypt c = Some cr /\ conn_Generation c = Generation rf /\ conn_Active c = true /\ authentic cr data;
  hd_addr : addrBySession u' = <[rf := addr]> (addrBySession u) /\ sessionByAddr u' !! addr = Some rf;
  hd_effects : es = [] \/ (exists d, es = [WriteTo d addr]) \/ exists f c plain, es = [RouteVoice rf f] /\ conns u !! SessionID rf = Some c /\ DecodeClientPacket (conn_WireMode c) plain = (f, None) }.

Lemma write_udp_spec u sid c cr packet addr : let '(u', e) := write_udp u sid c cr packet addr in
  u' = u <| conns := conns u' |> /\ (e = None \/ exists d, e = Some (WriteTo d addr)).
Proof. unfold write_udp. destruct (encrypt _ _ _) as [[cr' enc] [er|]]; cbn; (split; [done|]); [by left|right; by eexists]. Qed.

(** Everybody but [sid] is as before, but for what the search leaves. *)
Definition others_intact (data : bytes) (sid : Z) u u' : Prop := conns_rel (fun sid' cr cr' => sid' <> sid -> intact data cr cr') u u'.

Lemma receive_spec cfg s u0 u addr data sid plain : sized u0 -> conns_rel (spared data (Some (sid, plain))) u0 u -> found_in u0 data (Some (sid, plain)) ->
  addrBySession u = addrBySession u0 -> let '(u', es) := receive cfg s u addr sid plain in
  (forall a, a <> addr -> sessionByAddr u' !! a = sessionByAddr u !! a) /\
  (u' = u /\ es = [] \/ exists rf, SessionID rf = sid /\ handled s u0 u' addr data rf es) /\ others_intact data sid u0 u'.
Proof.
  intros S Hr Hf Ha. assert (others_intact data sid u0 u) as Ho.
  { intros sid1. specialize (Hr sid1). destruct (conns u0 !! sid1), (conns u !! sid1); try done. eapply related_mono; [|exact Hr].
    intros x y. unfold spared. case_bool_decide as Hb; [|done]. cbn in Hb. intros _ Hn. congruence. }
  unfold receive. destruct (zlen plain <? 1); [by split_and!; [|left|]|]. destruct (conns u !! sid) as [c|] eqn:Hc; [|by split_and!; [|left|]].
  destruct (conn_Crypt c) as [cr|] eqn:He; [|by split_and!; [|left|]]. destruct (conn_Active c) eqn:Hac; cbn [negb]; [|by split_and!; [|left|]].
  destruct (Active _ _) eqn:Hact; cbn [negb]; [|by split_and!; [|left|]].
  set (rf := mkRef sid (conn_Generation c)) in *.
  set (u1 := u <| addrBySession := <[rf := addr]> (addrBySession u) |> <| sessionByAddr := <[addr := rf]> (sessionByAddr u) |>).
  destruct Hf as (c0 & cr0 & Hc0 & He0 & Ha0 & Hau). pose proof (Hr sid) as Hrs. rewrite Hc0, Hc in Hrs. destruct Hrs as (Hg & _ & Hw & _).
  assert (forall a, a <> addr -> sessionByAddr u1 !! a = sessionByAddr u !! a) as Hs by (intros a Hn; cbn -[lookup insert]; by rewrite lookup_insert_ne).
  assert (forall u2 es, u2 = u1 <| conns := conns u2 |> -> (es = [] \/ (exists d, es = [WriteTo d addr]) \/ exists f c plain, es = [RouteVoice rf f] /\ conns u0 !! SessionID rf = Some c /\ DecodeClientPacket (conn_WireMode c) plain = (f, None)) -> handled s u0 u2 addr data rf es) as Hh.
  { intros u2 es E Hes. split; [done| | |done].
    - exists c0, cr0. split_and!; auto.
    - rewrite E. cbn -[lookup insert]. split; [by rewrite Ha|apply lookup_insert_eq]. }
  assert (forall u2, u2 = u1 <| conns := conns u2 |> -> forall a, a <> addr -> sessionByAddr u2 !! a = sessionByAddr u !! a) as Hs2 by (intros u2 ->; exact Hs).
  destruct (MaxPacketSize <? zlen plain). { split_and!; [done|right; exists rf; split; [done|apply Hh; [done|by left]]|done]. }
  destruct (is_ping _ plain).
  - destruct (ping_answer _ _ _ _) as [answer|]; [|split_and!; [done|right; exists rf; split; [done|apply Hh; [done|by left]]|done]].
    destruct (mixed_for s sid); [split_and!; [done|right; exists rf; split; [done|apply Hh; [done|by left]]|done]|].
    pose proof (write_udp_spec u1 sid c cr answer addr) as Hwu. destruct (write_udp u1 sid c cr answer addr) as [u2 e] eqn:Ewu. destruct Hwu as [E2 Hwe].
    split_and!; [by apply Hs2| |].
    + right. exists rf. split; [done|]. apply Hh; [done|]. destruct Hwe as [-> |[d ->]]; [by left|right; left; by eexists].
    + unfold write_udp in Ewu. destruct (encrypt _ _ _) as [[cr' enc] er]. injection Ewu as <- <-. intros sid1. specialize (Ho sid1). cbn -[lookup insert] in *.
      destruct (decide (sid = sid1)) as [<-|Hn]; [|by rewrite lookup_insert_ne]. rewrite lookup_insert_eq, Hc0. rewrite Hc0, Hc in Ho. destruct Ho as (G1 & G2 & G3 & _).
      split_and!; try done. cbn. by rewrite He0.
  - destruct (decodeAudio c plain) as [f [er|]] eqn:Ed; (split_and!; [done| |done]); right; exists rf; (split; [done|]); (apply Hh; [done|]); [by left|].
    right. right. exists f, c0, plain. split_and!; [done|done|]. unfold decodeAudio in Ed. by rewrite <- Hw.
Qed.

(** C29: a voice packet is attributed to its sender only. What [HandleUDP] makes
    of a datagram: it answers a probe and changes nothing; or the datagram
    verifies under the key of the session it is attributed to, or that session
    is in lite mode, which has no key; the session is active and its connection
    has its generation, the address is noted for it, and at most its frame is
    routed or its ping answered to the address the datagram came from; or
    nothing happens beyond the search. Nobody else is affected but by the
    search: other addresses keep their sessions; every other connection keeps
    its keys and what it sends with, in lite mode all of its state, in legacy
    mode the nonces and the history it receives with, while in secure mode its
    window may have been moved to the counter the datagram claims. *)
Theorem udp_attribution cfg s u addr data : sized u -> conns u !! 0 = None ->
  let '(u', es) := HandleUDP cfg s u addr data in
  (forall a, a <> addr -> sessionByAddr u' !! a = sessionByAddr u !! a) /\
  ((u' = u /\ exists reply, es = [WriteTo reply addr]) \/
   (es = [] /\ addrBySession u' = addrBySession u /\ exists found, found_in u data found /\ conns_rel (spared data found) u u') \/
   exists rf, handled s u u' addr data rf es /\ others_intact data (SessionID rf) u u').
Proof.
  intros S H0. assert (conns_rel (spared data None) u u) as Hid by (apply conns_rel_refl; intros; apply spared_refl).
  unfold HandleUDP. destruct (negb (udpConn u)); [split; [done|right; left; split_and!; [done|done|by exists None]]|].
  destruct (PlainPingReply _ _ _ _) as [reply|]; [split; [done|left; split; [done|by eexists]]|].
  pose proof (identify_spec u addr data S H0) as H. destruct (identify u addr data) as [u1 [[sid plain]|]]; destruct H as (H1 & H2 & H3 & H4 & H5).
  - pose proof (receive_spec cfg s u u1 addr data sid plain S H1 H2 H3) as H. destruct (receive _ _ _ _ _ _) as [u2 es]. destruct H as (K1 & K2 & K3).
    split; [intros a Ha; rewrite K1, H5 by done; done|]. right. destruct K2 as [[-> ->]|(rf & <- & Hh)]; [left|right; by exists rf].
    split_and!; [done|done|]. by exists (Some (sid, plain)).
  - split; [done|]. right. left. split_and!; [done|done|]. by exists None.
Qed.

(** ** Voice that leaves *)

(** Where one recipient's packet goes: to the address of exactly this session,
    and not when the modes in its channels are mixed, or into its own stream. *)
Definition goes_to s u (r : VoiceRecipient) (e : udp_effect) : Prop :=
  match e with
  | WriteTo _ addr => addrBySession u !! br_Session r = Some addr /\ udpConn u = true /\ mixed_for s (SessionID (br_Session r)) = false
  | WriteRaw sid _ => sid = SessionID (br_Session r)
  | RouteVoice _ _ => False
  end.
Definition reachable_now s u (r : VoiceRecipient) : Prop :=
  Active (srv_registry s) (br_Session r) = true /\ exists c, conns u !! SessionID (br_Session r) = Some c /\ conn_Generation c = Generation (br_Session r).

(** The connections as they matter for the next recipient. *)
Definition same_ways u u' : Prop := addrBySession u' = addrBySession u /\ udpConn u' = udpConn u /\ conns_rel (fun _ _ _ => True) u u'.
Lemma same_ways_refl u : same_ways u u.
Proof. split_and!; try done. by apply conns_rel_refl. Qed.
Lemma same_ways_trans u1 u2 u3 : same_ways u1 u2 -> same_ways u2 u3 -> same_ways u1 u3.
Proof. intros (A1 & A2 & A3) (B1 & B2 & B3). split_and!; try congruence. by eapply conns_rel_trans. Qed.
Lemma write_udp_ways u sid c cr packet addr : conns u !! sid = Some c -> conn_Crypt c = Some cr -> same_ways u (write_udp u sid c cr packet addr).1.
Proof.
  intros Hc He. unfold write_udp. destruct (encrypt _ _ _) as [[cr' enc] er]. cbn. split_and!; try done. by eapply set_crypt_rel.
Qed.

Lemma sendAudioTo_spec s u r c packet : conns u !! SessionID (br_Session r) = Some c ->
  let '(u', es) := sendAudioTo s u (SessionID (br_Session r)) c (addrBySession u !! br_Session r) packet in
  same_ways u u' /\ exists e, es = [e] /\ goes_to s u r e.
Proof.
  intros Hc. assert (same_ways u u /\ exists e, [WriteRaw (SessionID (br_Session r)) packet] = [e] /\ goes_to s u r e) as Ht.
  { split; [apply same_ways_refl|]. by eexists. }
  unfold sendAudioTo. destruct (addrBySession u !! br_Session r) as [addr|] eqn:Ea; [|done]. destruct (conn_Crypt c) as [cr|] eqn:Ec; [|done].
  destruct (udpConn u) eqn:Eu; cbn [negb]; [|done].
  pose proof (write_udp_ways u _ c cr packet addr Hc Ec) as Hw. pose proof (write_udp_spec u (SessionID (br_Session r)) c cr packet addr) as Hs.
  assert (mixed_for s (SessionID (br_Session r)) = false -> let '(u', es) := match write_udp u (SessionID (br_Session r)) c cr packet addr with (u, Some e) => (u, [e]) | (u, None) => (u, [WriteRaw (SessionID (br_Session r)) packet]) end in
    same_ways u u' /\ exists e, es = [e] /\ goes_to s u r e) as Hu.
  { intros Hm. destruct (write_udp _ _ _ _ _ _) as [u' [e|]]; cbn in *; destruct Hs as [_ [Hs|[d Hs]]]; simplify_eq; (split; [done|]); eexists; (split; [done|]); done. }
  unfold mixed_for in Hu. destruct (ChannelIDOf _ _) as [cid|]; [|by apply Hu]. destruct (hasMixedCrypto ord s cid); [done|by apply Hu].
Qed.
Lemma deliver_one_spec s f u cache r : let '(u', cache', es) := deliver_one s f u cache r in
  same_ways u u' /\ (es = [] \/ exists e, es = [e] /\ goes_to s u r e /\ reachable_now s u r).
Proof.
  unfold deliver_one. destruct (Active _ _) eqn:Ea; cbn [negb]; [|split; [apply same_ways_refl|by left]].
  destruct (conns u !! _) as [c|] eqn:Hc; [|split; [apply same_ways_refl|by left]]. destruct (Z.eqb_spec (conn_Generation c) (Generation (br_Session r))) as [Hg|]; cbn [negb]; [|split; [apply same_ways_refl|by left]].
  unfold sendDeliveryTo. destruct (Encode _ _ _) as [[packet|er] cache']; [|split; [apply same_ways_refl|by left]].
  pose proof (sendAudioTo_spec s u r c packet Hc) as H. destruct (sendAudioTo _ _ _ _ _ _) as [u' es]. destruct H as (H1 & e & -> & H2).
  split; [done|]. right. exists e. split_and!; [done|done|]. split; [done|]. by exists c.
Qed.

(** Voice leaves for the right client. Delivering a batch on the local edge
    sends, in the order of the recipients, at most one packet per recipient; a
    recipient that gets one is active and its connection has the generation the
    batch was made for; the packet goes to the address that was verified for
    exactly this session, unless crypto modes are mixed in its channels, or
    into its own control stream. *)
Theorem voice_leaves_safely s u batch :
  let '(u', es) := DeliverVoice s u batch in
  same_ways u u' /\ exists sent, sublist sent (b_Recipients batch) /\ Forall2 (fun r e => goes_to s u r e /\ reachable_now s u r) sent es.
Proof.
  unfold DeliverVoice. assert (forall rs f u1 cache, same_ways u u1 -> let '(u', es) := deliver_all s f u1 cache rs in
    same_ways u u' /\ exists sent, sublist sent rs /\ Forall2 (fun r e => goes_to s u r e /\ reachable_now s u r) sent es) as H; [|apply H, same_ways_refl].
  clear. induction rs as [|r rs IH]; intros f u1 cache Hw; cbn [deliver_all]; [split; [done|]; by exists []|].
  pose proof (deliver_one_spec s f u1 cache r) as H. destruct (deliver_one s f u1 cache r) as [[u2 cache2] e1]. destruct H as [Hw2 He].
  assert (same_ways u u2) as Hw' by (by eapply same_ways_trans). specialize (IH f u2 cache2 Hw'). destruct (deliver_all s f u2 cache2 rs) as [u3 e2].
  destruct IH as [Hw3 (sent & Hsub & Hall)]. split; [done|]. destruct He as [-> |(e & -> & Hg & Hr)]; [exists sent; split; [by constructor|done]|].
  exists (r :: sent). split; [by constructor|]. constructor; [|done]. destruct Hw as (A1 & A2 & A3). split.
  - destruct e; cbn in *; [|done|done]. by rewrite <- A1, <- A2.
  - destruct Hr as (Hr & c & Hc & Hcg). split; [done|]. specialize (A3 (SessionID (br_Session r))). rewrite Hc in A3.
    destruct (conns u !! SessionID (br_Session r)) as [c0|]; [|done]. destruct A3 as (Hg0 & _). exists c0. split; [done|congruence].
Qed.
End Voice.

(** ** Pings *)

Lemma proto_append_eq buf v : AppendProtoVarint buf v = AppendVarint buf v.
Proof. reflexivity. Qed.
(** A field is a tag of wire type 0 and a varint. *)
Lemma field_eq buf fn v : 0 <= fn < 2 ^ 29 -> AppendProtoVarintField buf fn v = buf ++ AppendTag [] fn 0 ++ AppendVarint [] v.
Proof.
  intros Hf. unfold AppendProtoVarintField. rewrite !proto_append_eq, AppendVarint_app, (AppendVarint_app buf), app_assoc. do 2 f_equal.
  unfold AppendTag. f_equal. rewrite (u64_id fn) by zlia. rewrite Z.lor_0_r. done.
Qed.
Lemma uvarint_loop_pos b i s x w n : 0 <= i -> uvarint_loop b i s x = (w, n) -> 0 < n -> i < n.
Proof.
  revert i s x. induction b as [|c b IH]; intros i s x Hi; cbn; [intros [= <- <-]; lia|]. destruct (i =? 10); [intros [= <- <-]; lia|].
  destruct (c <? 128); [destruct (_ && _); intros [= <- <-]; lia|]. intros H Hn. apply IH in H; lia.
Qed.
(** The decoder reads back what is appended. *)
Lemma proto_varint_AppendVarint v rest : is_u64 v -> DecodeProtoVarint (AppendProtoVarint [] v ++ rest) = (v, zlen (AppendProtoVarint [] v)).
Proof.
  intros Hv. rewrite proto_append_eq, <- (Uvarint_AppendVarint v rest Hv). unfold DecodeProtoVarint, Uvarint.
  assert (bytes_ok (AppendVarint [] v)) as Hok by apply AppendVarint_ok.
  assert (forall b i x w n, bytes_ok b -> 0 <= i -> uvarint_loop (b ++ rest) i (7 * i) x = (w, n) -> n <= i + zlen b -> 0 < n -> proto_varint_loop (b ++ rest) i x = (w, n)) as H.
  { clear. induction b as [|c b IH]; intros i x w n Hb Hi H Hn Hp; autorewrite with mumble_len in Hn.
    - cbn [app] in H. apply uvarint_loop_pos in H; lia.
    - apply bytes_ok_cons in Hb as [Hc Hb]. cbn [app uvarint_loop proto_varint_loop] in *. destruct (i =? 10); [simplify_eq; lia|].
      assert (Z.land c 0x80 =? 0 = (c <? 0x80)) as Hbit. { apply eqb_prop. apply (u8_exhaust (fun c => eqb (Z.land c 0x80 =? 0) (c <? 0x80))); [vm_compute; reflexivity|done]. }
      assert (c <? 0x80 = true -> Z.land c 0x7f = c) as Hlow. { intros Hl. apply Z.ltb_lt in Hl. change 0x7f with (2 ^ 7 - 1). rewrite land_ones_mod by lia. apply Z.mod_small. destruct Hc. lia. }
      rewrite Hbit. destruct (c <? 0x80) eqn:Hl.
      + destruct ((i =? 9) && (1 <? c)); [simplify_eq; lia|]. by rewrite Hlow.
      + assert ((i =? 9) && (1 <? c) = (i =? 9)) as ->. { destruct (i =? 9); [|done]. cbn. apply Z.ltb_ge in Hl. apply Z.ltb_lt. lia. }
        destruct (Z.eqb_spec i 9) as [->|].
        * exfalso. change (9 + 1) with 10 in H. destruct (b ++ rest) as [|c2 b2]; cbn in H; injection H as <- <-; lia.
        * apply IH; [done|lia| |lia|done]. by replace (7 * (i + 1)) with (7 * i + 7) by lia. }
  destruct (uvarint_loop (AppendVarint [] v ++ rest) 0 0 0) as [w n] eqn:E. pose proof (Uvarint_AppendVarint v rest Hv) as HU. unfold Uvarint in HU. rewrite E in HU. simplify_eq.
  pose proof (AppendVarint_len v). apply H; [done|lia|exact E|lia|lia].
Qed.

Lemma ping_field fuel fn v rest ts ext : 1 <= fn <= 6 -> is_u64 v ->
  ping_loop (S fuel) (AppendTag [] fn 0 ++ AppendVarint [] v ++ rest) ts ext =
  ping_loop fuel rest (if fn =? 1 then v else ts) (if fn =? 2 then negb (v =? 0) else ext).
Proof.
  intros Hf Hv. pose proof (consumeField_varint fn v rest ltac:(lia) Hv) as Hc. cbn [ping_loop].
  destruct (AppendTag [] fn 0 ++ AppendVarint [] v ++ rest) as [|b0 b] eqn:E; [exfalso; by apply (tag_app_nonnil fn 0 (AppendVarint [] v ++ rest))|].
  rewrite Hc. cbn [mbind result_bind f_used f_number f_typ f_value]. rewrite <- E, app_assoc, <- zlen_app, slice_from_app. cbn [or_panic mbind result_bind negb Z.eqb].
  rewrite andb_false_r. done.
Qed.
Lemma ping_loop_u64 fuel b ts ext ts' ext' : zlen b < 2 ^ 63 -> is_u64 ts -> ping_loop fuel b ts ext = Ok (ts', ext') -> is_u64 ts'.
Proof.
  revert b ts ext. induction fuel as [|fuel IH]; intros b ts ext Hb Ht; cbn [ping_loop]; [destruct b; [by intros [= <- _]|done]|].
  destruct b as [|b0 b]; [by intros [= <- _]|]. pose proof (consumeField_bounds (b0 :: b) 0 Hb) as Hc. destruct (consumeField (b0 :: b) 0) as [it|]; [|done].
  destruct Hc as (Hu & _ & Hv & _). cbn [mbind result_bind]. rewrite slice_from_ok by lia. cbn [or_panic]. destruct (_ && _); [done|]. apply IH; [|by destruct (_ =? 1)].
  rewrite zlen_zdrop by lia. lia.
Qed.

(** The reply to a probe of the new format. *)
Definition reply_body (ts n m b : Z) : bytes :=
  AppendTag [] 1 0 ++ AppendVarint [] ts ++ AppendTag [] 3 0 ++ AppendVarint [] pingVersionV2 ++ AppendTag [] 4 0 ++ AppendVarint [] (u64 n) ++
  AppendTag [] 5 0 ++ AppendVarint [] (u64 m) ++ AppendTag [] 6 0 ++ AppendVarint [] (u64 b).
Lemma ProtobufPingReply_spec body n m b r : ProtobufPingReply body n m b = Some r ->
  exists ts, DecodePing WireProtobuf (1 :: body) = Ok (ts, true) /\ is_u64 ts /\ r = pingHeaderProtobuf :: reply_body ts n m b.
Proof.
  unfold ProtobufPingReply. destruct (DecodePing WireProtobuf (1 :: body)) as [[ts ext]|] eqn:Ed; [|done]. destruct ext; [|done]. cbn [negb]. intros [= <-]. exists ts.
  split; [done|]. split.
  - unfold DecodePing in Ed. destruct (_ || _) eqn:Hm; [done|]. apply orb_false_iff in Hm as [_ Hm]. apply Z.ltb_ge in Hm. unfold MaxPacketSize in Hm.
    rewrite index_0, slice_from_1 in Ed. cbn [or_panic mbind result_bind] in Ed.
    change (WireProtobuf =? WireLegacy) with false in Ed. change (WireProtobuf =? WireProtobuf) with true in Ed. cbv iota in Ed. change (negb (1 =? 1)) with false in Ed. cbv iota in Ed.
    eapply ping_loop_u64; [|apply (u64_range 0)|exact Ed]. autorewrite with mumble_len in Hm |- *. lia.
  - rewrite !field_eq by lia. unfold reply_body. rewrite <- !app_assoc. done.
Qed.
Lemma reply_length ts n m b : 16 <= zlen (reply_body ts n m b) <= 52.
Proof.
  unfold reply_body. autorewrite with mumble_len. change (zlen (AppendVarint [] pingVersionV2)) with 7.
  change (zlen (AppendTag [] 1 0)) with 1. change (zlen (AppendTag [] 3 0)) with 1. change (zlen (AppendTag [] 4 0)) with 1.
  change (zlen (AppendTag [] 5 0)) with 1. change (zlen (AppendTag [] 6 0)) with 1.
  pose proof (AppendVarint_len ts). pose proof (AppendVarint_len (u64 n)). pose proof (AppendVarint_len (u64 m)). pose proof (AppendVarint_len (u64 b)). lia.
Qed.
Lemma reply_decodes ts n m b : is_u64 ts -> DecodePing WireProtobuf (pingHeaderProtobuf :: reply_body ts n m b) = Ok (ts, false).
Proof.
  intros Hts. pose proof (reply_length ts n m b) as Hlen. set (fields := reply_body ts n m b) in *.
  unfold DecodePing. rewrite !(proj2 (Z.ltb_ge _ _)) by (unfold MaxPacketSize; autorewrite with mumble_len in *; lia).
  rewrite index_0, slice_from_1. cbn [orb or_panic mbind result_bind].
  change (WireProtobuf =? WireLegacy) with false. change (WireProtobuf =? WireProtobuf) with true. cbv iota. change (negb (pingHeaderProtobuf =? 1)) with false. cbv iota.
  assert (exists k, length fields = S (S (S (S (S k))))) as [k Hk]. { exists (length fields - 5)%nat. unfold zlen in Hlen. lia. }
  rewrite Hk. unfold fields, reply_body. rewrite ping_field by (done || lia). rewrite ping_field by (lia || (vm_compute; split; congruence)).
  rewrite ping_field by (lia || apply u64_range). rewrite ping_field by (lia || apply u64_range).
  rewrite <- (app_nil_r (AppendVarint [] (u64 b))), ping_field by (lia || apply u64_range). cbn. by destruct k.
Qed.

(** Pings cannot be turned into floods. The reply to an unauthenticated
    probe is at most 53 bytes long, is given only to a probe that asks for
    information, carries the timestamp of the probe, and is itself no probe: two
    servers never answer each other's replies. *)
Theorem ping_reply_safe data n m b r : PlainPingReply data n m b = Some r ->
  zlen r <= 53 /\ (forall n' m' b', PlainPingReply r n' m' b' = None) /\
  ((zlen data = 12 /\ zlen r = 24 /\ ztake 8 (zdrop 4 r) = ztake 8 (zdrop 4 data)) \/
   exists ts, DecodePing WireProtobuf data = Ok (ts, true) /\ DecodePing WireProtobuf r = Ok (ts, false)).
Proof.
  unfold PlainPingReply at 1. destruct ((zlen data =? 12) && _) eqn:E.
  - apply andb_true_iff in E as [E _]. apply Z.eqb_eq in E. intros Hr.
    assert (zlen (ztake 8 (zdrop 4 data)) = 8) as H8 by (rewrite zlen_ztake; rewrite ?zlen_zdrop by lia; lia).
    set (t8 := ztake 8 (zdrop 4 data)) in *. set (tl := t8 ++ be32 (u32 n) ++ be32 (u32 m) ++ be32 (u32 b)).
    assert (zlen tl = 20) as Ht by (unfold tl; autorewrite with mumble_len; rewrite H8; reflexivity).
    assert (r = [0; 1; 5; 0] ++ tl) as -> by (by injection Hr as <-). clear Hr. assert (zlen ([0; 1; 5; 0] ++ tl) = 24) as Hl by (autorewrite with mumble_len; rewrite Ht; reflexivity).
    split; [lia|]. split.
    + intros n' m' b'. unfold PlainPingReply. rewrite Hl. cbn [Z.eqb andb app]. by rewrite andb_false_r.
    + left. split; [done|]. split; [done|]. change 4 with (zlen [0; 1; 5; 0]) at 1. rewrite zdrop_app. unfold tl. rewrite <- H8. apply ztake_app.
  - destruct data as [|b0 body]; [done|]. destruct ((1 <? _) && (b0 =? pingHeaderProtobuf)) eqn:Eb; [|done]. apply andb_true_iff in Eb as [_ ->%Z.eqb_eq].
    intros (ts & Hd & Hts & ->)%ProtobufPingReply_spec. pose proof (reply_length ts n m b) as Hl. pose proof (reply_decodes ts n m b Hts) as Hr.
    split; [autorewrite with mumble_len; lia|]. split; [|right; by exists ts].
    intros n' m' b'. unfold PlainPingReply. rewrite (proj2 (Z.eqb_neq _ 12)) by (autorewrite with mumble_len; lia). cbn [andb].
    assert (ProtobufPingReply (reply_body ts n m b) n' m' b' = None) as -> by (unfold ProtobufPingReply; change pingHeaderProtobuf with 1 in Hr; by rewrite Hr). by case_match.
Qed.
End UdpIngress.
