(* ===== verification/UdpSample.v ===== *)
(** * Packets at a small edge

    The server of [VoiceSample] with one legacy and one lite connection, and
    the theorems of [UdpIngress] applied to it. *)

From Stdlib Require Import ZArith Lia.
From stdpp Require Import base numbers list gmap sets option.
From S2P Require Import Prelude Wire Fields Messages Codec AudioVarint AudioPacket AudioCache CryptState Registry UserManager ChannelManager VoiceState VoiceServer VoiceSample UdpIngress.

Module UdpSample.
Import VoiceFlags ChannelCrypto VoiceServer VoiceSample UdpIngress.

Definition alice_addr : gostring := [49].
Definition edge1 : Udp :=
  mkUdp true
    {[ 1 := mkConn 1 (Some sample_state) true WireLegacy;
       3 := mkConn 3 (Some (NewCryptState ModeLite)) true WireLegacy ]}
    ∅ ∅.
Definition limits1 : Limits := mkLimits 100 72000.
Definition visit (m : Mode) (sids : list Z) : list Z := sids.
Notation handle := (HandleUDP toy_aesE toy_aesD toy_seal toy_open orders visit limits1 sample_server).

(** A frame of normal speech, as the client encrypts it. *)
Definition spoken : bytes := [128; 0; 1; 7].
Definition alice_packet : bytes := (encryptLegacy toy_aesE sample_state (replicate 8 0) spoken).1.2.

Lemma edge1_sized : sized edge1.
Proof.
  intros sid c cr Hc He. unfold edge1 in Hc. cbn [conns] in Hc.
  apply lookup_insert_Some in Hc as [[<- <-]|[_ [<- <-]%lookup_singleton_Some]]; by injection He as <-.
Qed.

(** Alice's packet from an unknown address is hers, once. *)
Example alice_heard : (handle edge1 alice_addr alice_packet).2 = [RouteVoice (mkRef 1 1) (Frame_zero <| Codec := 4 |> <| OpusData := [7] |>)].
Proof. vm_compute. reflexivity. Qed.
Example alice_replayed : let u := (handle (edge1 <| conns := delete 3 (conns edge1) |>) alice_addr alice_packet).1 in
  addrBySession u !! mkRef 1 1 = Some alice_addr /\ (handle u alice_addr alice_packet).2 = [].
Proof. vm_compute. done. Qed.

Lemma udp_attribution_witness :
  let '(u', es) := handle edge1 alice_addr alice_packet in
  (forall a, a <> alice_addr -> sessionByAddr u' !! a = sessionByAddr edge1 !! a) /\
  ((u' = edge1 /\ exists reply, es = [WriteTo reply alice_addr]) \/
   (es = [] /\ addrBySession u' = addrBySession edge1 /\ exists found, found_in toy_aesE toy_aesD toy_open edge1 alice_packet found /\ conns_rel (spared alice_packet found) edge1 u') \/
   exists rf, handled toy_aesE toy_aesD toy_open sample_server edge1 u' alice_addr alice_packet rf es /\ others_intact alice_packet (SessionID rf) edge1 u').
Proof.
  apply (udp_attribution toy_aesE toy_aesD toy_seal toy_open orders visit limits1 sample_server edge1 alice_addr alice_packet);
    [exact edge1_sized|vm_compute; reflexivity].
Defined.

(** In lite mode nothing is verified: whatever fits no other session, from
    whatever address, is the voice of a lite session, and its replies and its
    voice go to that address from then on. *)
Example lite_speaks_for_anybody : let '(u', es) := handle edge1 [57] spoken in
  es = [RouteVoice (mkRef 3 3) (Frame_zero <| Codec := 4 |> <| OpusData := [7] |>)] /\ addrBySession u' !! mkRef 3 3 = Some [57].
Proof. vm_compute. done. Qed.

Lemma ping_reply_safe_witness : let probe := [0; 0; 0; 0; 1; 2; 3; 4; 5; 6; 7; 8] in
  exists r, PlainPingReply probe 3 100 72000 = Some r /\ zlen r <= 53 /\ (forall n' m' b', PlainPingReply r n' m' b' = None) /\
  ((zlen probe = 12 /\ zlen r = 24 /\ ztake 8 (zdrop 4 r) = ztake 8 (zdrop 4 probe)) \/
   exists ts, DecodePing WireProtobuf probe = Ok (ts, true) /\ DecodePing WireProtobuf r = Ok (ts, false)).
Proof.
  intros probe. eexists. split; [vm_compute; reflexivity|]. apply (ping_reply_safe probe 3 100 72000). vm_compute. reflexivity.
Defined.
End UdpSample.
