(* ===== verification/Ban.v ===== *)
(** * The ban list

    [Manager] of [internal/ban/manager.go] with its table, and the entries the
    server derives from a session ([banEntryByCert], [banEntryByIP],
    [appendSessionBan] of [internal/mumble/handlers.go]).

    Times are numbers of seconds; [strings.ToLower], [time.Parse],
    [Time.Format] and [net.ParseIP] are parameters. *)

From Stdlib Require Import ZArith Lia String.
From stdpp Require Import base numbers list gmap sets option.
From S2P Require Import Prelude Wire Fields Messages Registry UserManager.

Module Ban.

Record Row := mkRow {
  row_Address : bytes; row_Mask : Z; row_Name : gostring; row_Hash : gostring; row_Reason : gostring;
  row_Start : Z; row_Duration : Z }.

(** The table [bans] of one server. GORM stores the default of a column where
    a created row has the zero value; [Mask] has the default 32. *)
Definition stored (r : Row) : Row :=
  mkRow (row_Address r) (if row_Mask r =? 0 then 32 else row_Mask r) (row_Name r) (row_Hash r) (row_Reason r) (row_Start r) (row_Duration r).
(** [rows_of] is the content; a query may fail, a failed statement may have
    any effect. *)
Class BanStore (DB : Type) := {
  findBans : DB -> option (list Row);
  deleteBans : DB -> DB * bool;
  createBan : DB -> Row -> DB * bool;
  rows_of : DB -> list Row;
  findBans_rows : forall d rows, findBans d = Some rows -> rows = rows_of d;
  deleteBans_rows : forall d d', deleteBans d = (d', true) -> rows_of d' = [];
  createBan_rows : forall d d' r, createBan d r = (d', true) -> rows_of d' = rows_of d ++ [stored r] }.

Record banEntry := mkEntry {
  be_addr : bytes; be_mask : Z; be_hash : gostring; be_name : gostring; be_reason : gostring;
  be_start : Z; be_duration : Z; be_active : bool }.

(** ** Addresses *)

(** [net.IP.To4]. *)
Definition To4 (ip : bytes) : option bytes :=
  if zlen ip =? 4 then Some ip else
  if (zlen ip =? 16) && bool_decide (take 12 ip = [0; 0; 0; 0; 0; 0; 0; 0; 0; 0; 0xff; 0xff]) then Some (drop 12 ip) else None.

(** The loop of [matchAddr]; both slices have four bytes or more. *)
Fixpoint match_bytes (n : nat) (addr ip4 : bytes) (mask : Z) : bool :=
  match n, addr, ip4 with
  | S n, a :: addr, b :: ip4 =>
      if mask <=? 0 then true else
      let m := if mask <? 8 then u32 (Z.shiftl 1 mask - 1) else 0xff in
      if negb (Z.land a (u8 m) =? Z.land b (u8 m)) then false else
      match_bytes n addr ip4 (if 8 <=? mask then mask - 8 else 0)
  | _, _, _ => true
  end.
Definition matchAddr (ip addr : bytes) (mask : Z) : bool :=
  match To4 ip with
  | Some ip4 => if 4 <=? zlen addr then match_bytes 4 addr ip4 mask else false
  | None => false
  end.

Section Manager.
Context (ToLower : gostring -> gostring) (ParseTime : gostring -> Z) (FormatTime : Z -> gostring) (ParseIP : gostring -> option bytes).
Context {DB : Type} `{BS : BanStore DB}.

Record Manager := mkManager { db : DB; bans : list banEntry }.

Definition entry_of (b : Row) : banEntry :=
  mkEntry (row_Address b) (row_Mask b) (ToLower (row_Hash b)) (row_Name b) (row_Reason b) (row_Start b) (row_Duration b) true.
Definition loadLocked (m : Manager) : Manager :=
  match findBans (db m) with None => m | Some rows => mkManager (db m) (map entry_of rows) end.
Definition NewManager (d : DB) : Manager := loadLocked (mkManager d []).
Definition Reload (m : Manager) : Manager := loadLocked m.

(** [addr] is the address of the peer as [net.ParseIP] reads its host part. *)
Definition entry_matches (addr : option bytes) (hash : gostring) (b : banEntry) : bool :=
  be_active b &&
  ((negb (bool_decide (be_hash b = [])) && negb (bool_decide (hash = [])) && bool_decide (be_hash b = hash)) ||
   ((0 <? zlen (be_addr b)) && match addr with Some ip => matchAddr ip (be_addr b) (be_mask b) | None => false end)).
Definition IsBanned (m : Manager) (addr : option bytes) (certHash : gostring) : bool :=
  existsb (entry_matches addr (ToLower certHash)) (bans m).

Definition message_of (b : banEntry) : BanEntry.t :=
  BanEntry.mk (be_addr b) (be_mask b) (be_name b) (be_hash b) (be_reason b) (FormatTime (be_start b)) (be_duration b).
Definition List (m : Manager) : list BanEntry.t := map message_of (filter (fun b => be_active b = true) (bans m)).

Definition row_of (now : Z) (be : BanEntry.t) : Row :=
  mkRow (BanEntry.Address be) (BanEntry.Mask be) (BanEntry.Name be) (ToLower (BanEntry.Hash be)) (BanEntry.Reason be)
    (if bool_decide (BanEntry.Start be = []) then now else ParseTime (BanEntry.Start be)) (BanEntry.Duration be).
(** The loop of [Replace]: the first error ends it. *)
Fixpoint create_rows (now : Z) (d : DB) (bs : list BanEntry.t) : DB * bool :=
  match bs with
  | [] => (d, true)
  | b :: bs => let '(d, ok) := createBan d (row_of now b) in if ok : bool then create_rows now d bs else (d, false)
  end.
(** The flag is [true] for a nil error. *)
Definition Replace (now : Z) (m : Manager) (bs : list BanEntry.t) : Manager * bool :=
  let '(d, ok) := deleteBans (db m) in
  if negb ok then (mkManager d (bans m), false) else
  let '(d, ok) := create_rows now d bs in
  if negb ok then (mkManager d (bans m), false) else (loadLocked (mkManager d (bans m)), true).

(** ** The entries of a session *)

Definition newBanEntry (now : Z) (name reason : gostring) : BanEntry.t :=
  BanEntry.zero <| BanEntry.Name := name |> <| BanEntry.Reason := reason |> <| BanEntry.Start := FormatTime now |>.
Definition banEntryByCert (now : Z) (name reason certHash : gostring) : BanEntry.t :=
  (newBanEntry now name reason) <| BanEntry.Hash := ToLower certHash |>.
Definition banEntryByIP (now : Z) (name reason : gostring) (ip : bytes) : BanEntry.t :=
  let '(ip, mask) := match To4 ip with Some ip4 => (ip4, 32) | None => (ip, 128) end in
  (newBanEntry now name reason) <| BanEntry.Address := ip |> <| BanEntry.Mask := mask |>.
(** [connIP] is the address of the local connection of the session, if any. *)
Definition session_ip (connIP : option bytes) (u : User.t) : option bytes :=
  match (if bool_decide (User.Address u = []) then None else ParseIP (User.Address u)) with Some ip => Some ip | None => connIP end.
Definition appendSessionBan (now : Z) (connIP : option bytes) (existing : list BanEntry.t) (u : User.t) (reason : gostring) : list BanEntry.t :=
  if negb (bool_decide (User.CertHash u = [])) then existing ++ [banEntryByCert now (User.Name u) reason (User.CertHash u)] else
  match session_ip connIP u with
  | Some ip => existing ++ [banEntryByIP now (User.Name u) reason ip]
  | None => existing
  end.

(** ** What is matched *)

Lemma land_low a b k : 0 <= k -> Z.land a (Z.ones k) = Z.land b (Z.ones k) <-> forall j, 0 <= j < k -> Z.testbit a j = Z.testbit b j.
Proof.
  intros Hk. split.
  - intros H j Hj. assert (Z.testbit (Z.land a (Z.ones k)) j = Z.testbit (Z.land b (Z.ones k)) j) as H' by (by rewrite H).
    rewrite !Z.land_spec, (Z.ones_spec_low k j), !andb_true_r in H' by lia. done.
  - intros H. apply Z.bits_inj'. intros j Hj. rewrite !Z.land_spec. destruct (Z.ltb_spec j k).
    + rewrite H by lia. done.
    + rewrite Z.ones_spec_high, !andb_false_r by lia. done.
Qed.
Lemma byte_mask mask : 0 < mask -> u8 (if mask <? 8 then u32 (Z.shiftl 1 mask - 1) else 0xff) = Z.ones (Z.min mask 8).
Proof.
  intros Hm. destruct (Z.ltb_spec mask 8) as [H|H]; [|by rewrite Z.min_r by lia].
  assert (mask = 1 \/ mask = 2 \/ mask = 3 \/ mask = 4 \/ mask = 5 \/ mask = 6 \/ mask = 7) as E by lia.
  repeat (destruct E as [->|E]; [reflexivity|]). subst. reflexivity.
Qed.

Lemma match_bytes_spec n : forall addr ip4 mask, (n <= length addr)%nat -> (n <= length ip4)%nat ->
  match_bytes n addr ip4 mask = true <->
  forall i j, (i < n)%nat -> 0 <= j < 8 -> 8 * Z.of_nat i + j < mask -> Z.testbit (nth i addr 0) j = Z.testbit (nth i ip4 0) j.
Proof.
  induction n as [|n IH]; intros addr ip4 mask Ha Hi; [split; [lia|done]|].
  destruct addr as [|a addr], ip4 as [|b ip4]; cbn in Ha, Hi; try lia. cbn [match_bytes].
  destruct (Z.leb_spec mask 0) as [Hm|Hm]; [split; [lia|done]|]. rewrite byte_mask by done.
  destruct (Z.eqb_spec (Z.land a (Z.ones (Z.min mask 8))) (Z.land b (Z.ones (Z.min mask 8)))) as [E|E]; cbn [negb].
  - rewrite land_low in E by lia. rewrite IH by lia. split.
    + intros H [|i] j Hi' Hj Hm'; cbn [nth]; [apply E; lia|]. apply H; [lia|done|]. destruct (Z.leb_spec 8 mask); lia.
    + intros H i j Hi' Hj Hm'. apply (H (S i) j); [lia|done|]. destruct (Z.leb_spec 8 mask); lia.
  - split; [done|]. intros H. exfalso. apply E. apply land_low; [lia|]. intros j Hj. apply (H 0%nat j); lia.
Qed.
Lemma To4_length ip ip4 : To4 ip = Some ip4 -> length ip4 = 4%nat.
Proof.
  unfold To4, zlen. destruct (Z.eqb_spec (Z.of_nat (length ip)) 4); [intros [= <-]; lia|].
  destruct (Z.eqb_spec (Z.of_nat (length ip)) 16); [|done]. cbn. case_bool_decide; [|done]. intros [= <-]. rewrite length_drop. lia.
Qed.
Lemma matchAddr_spec ip addr mask : matchAddr ip addr mask = true <->
  exists ip4, To4 ip = Some ip4 /\ 4 <= zlen addr /\
    forall i j, (i < 4)%nat -> 0 <= j < 8 -> 8 * Z.of_nat i + j < mask -> Z.testbit (nth i addr 0) j = Z.testbit (nth i ip4 0) j.
Proof.
  unfold matchAddr. destruct (To4 ip) as [ip4|] eqn:E; [|split; [done|by intros (? & ? & _)]]. apply To4_length in E as L.
  destruct (Z.leb_spec 4 (zlen addr)) as [H|H]; [|split; [done|intros (? & _ & ? & _); lia]].
  rewrite match_bytes_spec by (unfold zlen in *; lia). naive_solver.
Qed.

(** ** What a replaced list holds *)

Lemma create_rows_rows now : forall bs d d', create_rows now d bs = (d', true) -> rows_of d' = rows_of d ++ map (fun b => stored (row_of now b)) bs.
Proof.
  induction bs as [|b bs IH]; intros d d'; cbn [create_rows map]; [intros [= <-]; by rewrite app_nil_r|].
  destruct (createBan d (row_of now b)) as [d1 [|]] eqn:E; [|done]. intros H. rewrite (IH _ _ H), (createBan_rows _ _ _ E), <- app_assoc. done.
Qed.
(** The table could be read back after a [Replace]. *)
Definition readable (m : Manager) : Prop := is_Some (findBans (db m)).
#[global] Instance readable_dec m : Decision (readable m) := ltac:(unfold readable; apply _).
Lemma Replace_bans now m bs m' : Replace now m bs = (m', true) -> readable m' ->
  bans m' = map (fun b => entry_of (stored (row_of now b))) bs.
Proof.
  unfold Replace. destruct (deleteBans (db m)) as [d [|]] eqn:Ed; [|done]. cbn [negb].
  destruct (create_rows now d bs) as [d1 [|]] eqn:Ec; [|done]. cbn [negb]. intros [= <-] [rows Hr].
  unfold loadLocked in *. cbn [db bans] in *. destruct (findBans d1) as [rows1|] eqn:E1; cbn in Hr; [|by rewrite E1 in Hr].
  cbn. rewrite (findBans_rows _ _ E1), (create_rows_rows _ _ _ _ Ec), (deleteBans_rows _ _ Ed). cbn. by rewrite map_map.
Qed.

(** A table whose statements all succeed. *)
Definition reliable : Prop := (forall d, (deleteBans d).2 = true) /\ (forall d r, (createBan d r).2 = true) /\ forall d, is_Some (findBans d).
Lemma create_rows_reliable now : reliable -> forall bs d, (create_rows now d bs).2 = true.
Proof.
  intros (_ & Hc & _). induction bs as [|b bs IH]; intros d; [done|]. cbn [create_rows]. specialize (Hc d (row_of now b)).
  destruct (createBan d (row_of now b)) as [d' ok]. cbn in Hc. by rewrite Hc.
Qed.
Lemma Replace_reliable now m bs : reliable -> (Replace now m bs).2 = true /\ readable (Replace now m bs).1.
Proof.
  intros H. unfold Replace. pose proof H as (Hd & _ & Hf). specialize (Hd (db m)). destruct (deleteBans (db m)) as [d ok]. cbn in Hd. subst ok. cbn [negb].
  pose proof (create_rows_reliable now H bs d) as Hc. destruct (create_rows now d bs) as [d1 ok]. cbn in Hc. subst ok. cbn [negb fst snd]. split; [done|].
  unfold readable, loadLocked. cbn [db]. by destruct (findBans d1).
Qed.
(** When a statement fails, or the list cannot be read back, the list in
    memory stays; the table may be left without any of it. *)
Lemma Replace_failed now m bs : (Replace now m bs).2 = false \/ ~ readable (Replace now m bs).1 -> bans (Replace now m bs).1 = bans m.
Proof.
  unfold Replace. destruct (deleteBans (db m)) as [d [|]]; [|done]. cbn [negb]. destruct (create_rows now d bs) as [d1 [|]]; [|done]. cbn [negb fst snd].
  intros [?|H]; [done|]. unfold loadLocked, readable in *. cbn [db bans] in *. destruct (findBans d1) eqn:E; [|done]. cbn in H. rewrite E in H. by destruct H.
Qed.

(** A list as [loadLocked] makes it from rows as the table holds them. *)
Definition loaded (m : Manager) : Prop := exists rows, bans m = map entry_of rows /\ Forall (fun r => row_Mask r <> 0) rows.

(** The laws of [strings.ToLower] the list relies on. *)
Context (ToLower_idemp : forall s, ToLower (ToLower s) = ToLower s) (ToLower_nil : ToLower [] = []).

Lemma Replace_loaded now m bs : loaded m -> loaded (Replace now m bs).1.
Proof.
  intros L. destruct (Replace now m bs) as [m' ok] eqn:E. cbn [fst].
  destruct (decide (ok = true /\ readable m')) as [[-> R]|H].
  - exists (map (fun b => stored (row_of now b)) bs). rewrite (Replace_bans _ _ _ _ E R), map_map. split; [done|].
    apply Forall_fmap, Forall_true. intros b. unfold stored. cbn. case_match; [done|]. by apply Z.eqb_neq.
  - destruct L as (rows & Er & Hm). exists rows. split; [|done]. rewrite <- Er.
    pose proof (Replace_failed now m bs) as F. rewrite E in F. apply F. cbn. destruct ok; [right|left]; naive_solver.
Qed.
Lemma relisted_matches now m b addr hash : loaded m -> b ∈ bans m ->
  entry_matches addr hash (entry_of (stored (row_of now (message_of b)))) = entry_matches addr hash b.
Proof.
  intros (rows & -> & Hm) (r & -> & Hr)%list_elem_of_fmap. rewrite Forall_forall in Hm. apply list_elem_of_In, Hm in Hr.
  unfold entry_matches, entry_of, stored, row_of, message_of. cbn. rewrite !ToLower_idemp. by apply Z.eqb_neq in Hr as ->.
Qed.
Lemma loaded_active m b : loaded m -> b ∈ bans m -> be_active b = true.
Proof. by intros (rows & -> & _) (r & -> & _)%list_elem_of_fmap. Qed.

(** Appending to the list adds to what is banned. *)
Lemma replace_appended now m m' extra addr certHash : loaded m -> Replace now m (List m ++ extra) = (m', true) -> readable m' ->
  IsBanned m' addr certHash = IsBanned m addr certHash || existsb (entry_matches addr (ToLower certHash)) (map (fun b => entry_of (stored (row_of now b))) extra).
Proof.
  intros L H R. unfold IsBanned. rewrite (Replace_bans _ _ _ _ H R), map_app, existsb_app. f_equal.
  unfold List. replace (filter (fun b => be_active b = true) (bans m)) with (bans m).
  - rewrite map_map. pose proof (fun b => relisted_matches now m b addr (ToLower certHash) L) as Hb. clear -Hb.
    induction (bans m) as [|b bs IH]; [done|]. cbn [map existsb]. rewrite Hb by (by left). f_equal. apply IH. intros b' Hb'. apply Hb. by right.
  - pose proof (loaded_active m) as Ha. specialize (fun b => Ha b L). clear -Ha. induction (bans m) as [|b bs IH]; [done|].
    rewrite list.filter_cons, decide_True by (apply Ha; by left). f_equal. apply IH. intros b' Hb'. apply Ha. by right.
Qed.

(** Who a ban of [u] refuses: with a certificate, who shows that certificate
    (in upper or lower case); without one, who comes from an address whose
    IPv4 form is the first four bytes of the address of the session. *)
Definition first4 (ip : bytes) : bytes := default ip (To4 ip).
Definition same_ipv4 (ip addr : bytes) : Prop := exists ip4, To4 addr = Some ip4 /\ 4 <= zlen (first4 ip) /\
  forall i, (i < 4)%nat -> u8 (nth i (first4 ip) 0) = u8 (nth i ip4 0).
Definition bears (connIP : option bytes) (u : User.t) (addr : option bytes) (h : gostring) : Prop :=
  if decide (User.CertHash u = []) then exists ip ip', session_ip connIP u = Some ip /\ addr = Some ip' /\ same_ipv4 ip ip'
  else ToLower h <> [] /\ ToLower h = ToLower (User.CertHash u).

Lemma u8_testbit a b : u8 a = u8 b <-> forall j, 0 <= j < 8 -> Z.testbit a j = Z.testbit b j.
Proof. unfold u8. rewrite <- !Z.land_ones by lia. by apply land_low. Qed.
Lemma matchAddr_whole ip addr mask : 32 <= mask -> matchAddr ip addr mask = true <->
  exists ip4, To4 ip = Some ip4 /\ 4 <= zlen addr /\ forall i, (i < 4)%nat -> u8 (nth i addr 0) = u8 (nth i ip4 0).
Proof.
  intros Hm. rewrite matchAddr_spec. split; intros (ip4 & H4 & L & H); exists ip4; (split; [done|]; split; [done|]).
  - intros i Hi. apply u8_testbit. intros j Hj. apply H; lia.
  - intros i j Hi Hj _. revert j Hj. by apply u8_testbit, H.
Qed.
(** The entry of a session matches who bears what the entry names. *)
Lemma cert_entry_matches now name reason cert addr h : ToLower cert <> [] ->
  entry_matches addr (ToLower h) (entry_of (stored (row_of now (banEntryByCert now name reason cert)))) = true <->
  ToLower h <> [] /\ ToLower h = ToLower cert.
Proof.
  intros Hc. unfold entry_matches, banEntryByCert. cbn. rewrite !ToLower_idemp, orb_false_r, !andb_true_iff, !negb_true_iff, !bool_decide_eq_false, bool_decide_eq_true.
  naive_solver.
Qed.
Lemma ip_entry_matches now name reason ip addr h :
  entry_matches addr (ToLower h) (entry_of (stored (row_of now (banEntryByIP now name reason ip)))) = true <->
  exists ip', addr = Some ip' /\ same_ipv4 ip ip'.
Proof.
  set (e := entry_of _). assert (be_active e = true /\ be_hash e = [] /\ be_addr e = first4 ip /\ 32 <= be_mask e) as (E1 & E2 & E3 & E4).
  { unfold e, banEntryByIP, first4. destruct (To4 ip); cbn; rewrite !ToLower_nil; repeat split; lia. }
  unfold entry_matches. rewrite E1, E2, E3. cbn. rewrite andb_true_iff. unfold same_ipv4. split.
  - intros [_ H]. destruct addr as [ip'|]; [|done]. exists ip'. split; [done|]. by apply (matchAddr_whole _ _ (be_mask e)).
  - intros (ip' & -> & H). apply (matchAddr_whole _ _ (be_mask e) E4) in H as Hm. destruct H as (? & _ & L & _). split; [apply Z.ltb_lt; lia|done].
Qed.

(** Banning a session adds to the list whoever bears what the entry names,
    and nobody else, and loses nobody. *)
Lemma session_ban_exact now m m' connIP u reason addr h : (User.CertHash u <> [] -> ToLower (User.CertHash u) <> []) -> loaded m ->
  Replace now m (appendSessionBan now connIP (List m) u reason) = (m', true) -> readable m' ->
  IsBanned m' addr h = true <-> IsBanned m addr h = true \/ bears connIP u addr h.
Proof.
  intros Hc L. unfold appendSessionBan, bears. destruct (decide (User.CertHash u = [])) as [Ec|Ec].
  - rewrite (bool_decide_eq_true_2 _ Ec). cbn [negb]. destruct (session_ip connIP u) as [ip|].
    + intros H R. rewrite (replace_appended now m m' _ addr h L H R), orb_true_iff. cbn [map existsb]. rewrite orb_false_r, ip_entry_matches. naive_solver.
    + intros H R. rewrite <- (app_nil_r (List m)) in H. rewrite (replace_appended now m m' _ addr h L H R), orb_false_r. naive_solver.
  - rewrite (bool_decide_eq_false_2 _ Ec). cbn [negb]. intros H R. rewrite (replace_appended now m m' _ addr h L H R), orb_true_iff. cbn [map existsb].
    by rewrite orb_false_r, cert_entry_matches by auto.
Qed.

(** A ban takes effect. Banning a session adds one entry to the list and
    loses none: whoever was banned is banned still; one who comes with the
    certificate of the banned user (in upper or lower case) is refused from any
    address; and if the user had none, whoever comes from its IPv4 address is
    refused. *)
Theorem ban_takes_effect now m m' (connIP : option bytes) (u : User.t) (reason : gostring) : loaded m -> (User.CertHash u <> [] -> ToLower (User.CertHash u) <> []) ->
  Replace now m (appendSessionBan now connIP (List m) u reason) = (m', true) -> readable m' ->
  (forall addr h, IsBanned m addr h = true -> IsBanned m' addr h = true) /\
  (forall addr h, User.CertHash u <> [] -> ToLower h = ToLower (User.CertHash u) -> ToLower h <> [] -> IsBanned m' addr h = true) /\
  (forall ip ip4 ip' h, User.CertHash u = [] -> ParseIP (User.Address u) = Some ip -> User.Address u <> [] -> To4 ip = Some ip4 ->
     To4 ip' = Some ip4 -> IsBanned m' (Some ip') h = true).
Proof.
  intros L Hc H R. pose proof (fun addr h => session_ban_exact now m m' connIP u reason addr h Hc L H R) as E. unfold bears in E. split; [|split].
  - intros addr h Hb. apply E. by left.
  - intros addr h Hn Hh He. apply E. right. by rewrite decide_False by done.
  - intros ip ip4 ip' h Hn Hp Ha H4 H4'. apply E. right. rewrite decide_True by done. exists ip, ip'. unfold session_ip.
    rewrite (bool_decide_eq_false_2 _ Ha), Hp. split; [done|]. split; [done|]. exists ip4. unfold first4. rewrite H4. cbn. apply To4_length in H4.
    split; [done|]. split; [unfold zlen; lia|done].
Qed.

(** A ban of an IPv6 address does nothing: after a user without a
    certificate is banned by such an address, the same addresses and
    certificates are refused as before. *)
Theorem ban_ipv6_ignored now m m' (connIP : option bytes) (u : User.t) (reason : gostring) ip addr h : loaded m ->
  User.CertHash u = [] -> User.Address u <> [] -> ParseIP (User.Address u) = Some ip -> To4 ip = None -> To4 addr = None ->
  Replace now m (appendSessionBan now connIP (List m) u reason) = (m', true) -> readable m' ->
  IsBanned m' (Some addr) h = IsBanned m (Some addr) h.
Proof.
  intros L Ec Hne Hp H4 Ha. unfold appendSessionBan, session_ip. rewrite (bool_decide_eq_true_2 _ Ec), (bool_decide_eq_false_2 _ Hne), Hp. cbn [negb].
  intros H R. rewrite (replace_appended now m m' _ _ _ L H R). cbn [map existsb]. rewrite orb_false_r.
  unfold entry_matches, banEntryByIP, matchAddr. rewrite H4, Ha. cbn. rewrite !ToLower_nil, andb_false_r. cbn. by rewrite orb_false_r.
Qed.
End Manager.

(** ** A table in memory *)

#[global] Program Instance list_store : BanStore (list Row) :=
  {| findBans := Some; deleteBans d := ([], true); createBan d r := (d ++ [stored r], true); rows_of d := d |}.
Next Obligation. by intros d rows [= <-]. Qed.
Next Obligation. by intros d d' [= <-]. Qed.
Next Obligation. by intros d d' r [= <-]. Qed.

Definition lower (s : gostring) : gostring := map (fun c => if (65 <=? c) && (c <=? 90) then c + 32 else c) s.
Lemma lower_idemp s : lower (lower s) = lower s.
Proof.
  unfold lower. rewrite map_map. apply map_ext. intros c.
  destruct ((65 <=? c) && (c <=? 90)) eqn:E; [|by rewrite E]. apply andb_true_iff in E as [E1%Z.leb_le E2%Z.leb_le].
  destruct (Z.leb_spec 65 (c + 32)), (Z.leb_spec (c + 32) 90); cbn [andb]; lia.
Qed.

(** A clock that prints nothing, addresses that are their own bytes. *)
Definition no_time (s : gostring) : Z := 0.
Definition no_date (t : Z) : gostring := [].
Definition as_bytes (s : gostring) : option bytes := if (zlen s =? 4) || (zlen s =? 16) then Some s else None.
Definition sample_bans : Manager (DB := list Row) := NewManager lower [mkRow [] 32 [] (str "ab"%string) [] 0 0].
Definition banned_user (address hash : gostring) : User.t := User.zero <| User.Address := address |> <| User.CertHash := hash |>.
Definition after_ban (u : User.t) : Manager (DB := list Row) :=
  (Replace lower no_time 0 sample_bans (appendSessionBan lower no_date as_bytes 0 None (List no_date sample_bans) u [])).1.
Lemma sample_bans_loaded : loaded lower sample_bans.
Proof. exists [mkRow [] 32 [] (str "ab"%string) [] 0 0]. split; [reflexivity|]. by repeat constructor. Qed.

(** The ban of 2001:db8::1 refuses 32.1.13.184, whose address is its first four
    bytes. *)
Example ipv6_ban_hits_ipv4 : let ip := [0x20; 1; 0xd; 0xb8; 0; 0; 0; 0; 0; 0; 0; 0; 0; 0; 0; 1] in
  map (fun a => IsBanned lower (after_ban (banned_user ip [])) (Some a) []) [ip; [32; 1; 13; 184]; [32; 1; 13; 185]] = [false; true; false].
Proof. vm_compute. reflexivity. Qed.

Lemma ban_takes_effect_witness :
  let u := banned_user [10; 0; 0; 7] [] in
  IsBanned lower (after_ban u) (Some [10; 0; 0; 7]) [] = true /\
  (forall addr h, IsBanned lower sample_bans addr h = true -> IsBanned lower (after_ban u) addr h = true).
Proof.
  intros u. destruct (ban_takes_effect lower no_time no_date as_bytes lower_idemp eq_refl 0 sample_bans (after_ban u) None u []) as (H1 & _ & H3);
    [exact sample_bans_loaded|done|reflexivity|by eexists|].
  split; [|exact H1]. apply (H3 [10; 0; 0; 7] [10; 0; 0; 7] [10; 0; 0; 7]); reflexivity || discriminate.
Defined.

Lemma ban_ipv6_ignored_witness :
  let ip := [0x20; 1; 0xd; 0xb8; 0; 0; 0; 0; 0; 0; 0; 0; 0; 0; 0; 1] in
  IsBanned lower (after_ban (banned_user ip [])) (Some ip) [] = IsBanned lower sample_bans (Some ip) [] /\
  IsBanned lower sample_bans (Some ip) [] = false.
Proof.
  intros ip. split; [|reflexivity].
  apply (ban_ipv6_ignored lower no_time no_date as_bytes lower_idemp eq_refl 0 sample_bans (after_ban (banned_user ip [])) None (banned_user ip []) [] ip);
    first [exact sample_bans_loaded|reflexivity|discriminate|by eexists].
Defined.

(** A mask that ends within a byte counts its low bits, not its high ones:
    10.31.0.1 is in 10.16.0.0/12 and 10.32.0.1 is not. *)
Example mask_low_bits : matchAddr [10; 31; 0; 1] [10; 16; 0; 0] 12 = false /\ matchAddr [10; 32; 0; 1] [10; 16; 0; 0] 12 = true.
Proof. split; reflexivity. Qed.
End Ban.
