(* ===== verification/RateLimit.v ===== *)
(** * Rate limits

    The one-second windows of the control handlers ([rateWindow],
    [rateLimitAllows] of [internal/mumble/handlers.go]) and the limiter of the
    login endpoints ([AuthRateLimit] of [internal/middleware/ratelimit.go]).
    Times are nanoseconds; the clock is an argument. *)

From Stdlib Require Import ZArith Lia String.
From stdpp Require Import base numbers list gmap sets option sorting.
From S2P Require Import Prelude Fields.

Module RateLimit.

(** ** The window of a session *)

Definition second : Z := 1000000000.
Record rateWindow := mkWindow { count : Z; windowAt : Z }.
#[global] Instance rateWindow_eta : Eta rateWindow := fun w => mkWindow (count w) (windowAt w).

Definition allow (now : Z) (r : rateWindow) (limit : Z) : rateWindow * bool :=
  let r := if second <? now - windowAt r then mkWindow 0 now else r in
  let r := r <| count := count r + 1 |> in
  (r, count r <=? limit).

(** The zero [time.Time] lies before every reading of the clock by more than a
    window. *)
Definition zero_time : Z := - 2 ^ 63.
Definition rateLimitAllows (now : Z) (limiter : gmap Z rateWindow) (sessionID perSecond : Z) : gmap Z rateWindow * bool :=
  let w := default (mkWindow 0 zero_time) (limiter !! sessionID) in
  let '(w, ok) := allow now w perSecond in (<[sessionID := w]> limiter, ok).

Definition maxTextMessagesPerSecond : Z := 30.
Definition maxUserStatesPerSecond : Z := 10.

(** The requests of all sessions, with the time of each. *)
Fixpoint requests (limiter : gmap Z rateWindow) (perSecond : Z) (calls : list (Z * Z)) : list bool :=
  match calls with
  | [] => []
  | (now, sid) :: calls => let '(limiter, ok) := rateLimitAllows now limiter sid perSecond in ok :: requests limiter perSecond calls
  end.

(** Those of one session alone. *)
Fixpoint alone (w : rateWindow) (limit : Z) (times : list Z) : list bool :=
  match times with
  | [] => []
  | now :: times => let '(w, ok) := allow now w limit in ok :: alone w limit times
  end.

Definition granted (l : list bool) : Z := zlen (filter (fun b => b = true) l).
Lemma granted_nil : granted [] = 0.
Proof. reflexivity. Qed.
Lemma granted_cons b l : granted (b :: l) = (if b then 1 else 0) + granted l.
Proof. unfold granted, zlen. rewrite list.filter_cons. destruct b; cbn [decide_rel]; [rewrite decide_True by done|rewrite decide_False by done]; cbn [length]; lia. Qed.

Lemma allow_cases now w limit :
  allow now w limit = if second <? now - windowAt w then (mkWindow 1 now, 1 <=? limit) else (mkWindow (count w + 1) (windowAt w), count w + 1 <=? limit).
Proof. unfold allow. by destruct (_ <? _). Qed.

(** A window that began in the interval is the only one that reaches into it. *)
Lemma alone_same limit t : 0 <= limit -> forall times w, t <= windowAt w -> 0 <= count w ->
  Forall (fun now => now <= t + second) times -> granted (alone w limit times) <= Z.max 0 (limit - count w).
Proof.
  intros Hl. induction times as [|now times IH]; intros w Hw Hc Ht; [cbn [alone]; rewrite granted_nil; lia|].
  apply Forall_cons_iff in Ht as [Hn Ht]. cbn [alone]. rewrite allow_cases. destruct (Z.ltb_spec second (now - windowAt w)); [lia|]. rewrite granted_cons. specialize (IH (mkWindow (count w + 1) (windowAt w)) Hw ltac:(cbn; lia) Ht). cbn [count windowAt] in IH.
  destruct (Z.leb_spec (count w + 1) limit); lia.
Qed.
Lemma alone_span limit t : 0 <= limit -> forall times w, 0 <= count w ->
  Forall (fun now => t <= now <= t + second) times -> granted (alone w limit times) <= Z.max 0 (limit - count w) + limit.
Proof.
  intros Hl. induction times as [|now times IH]; intros w Hc Ht; [cbn [alone]; rewrite granted_nil; lia|].
  apply Forall_cons_iff in Ht as [Hn Ht]. cbn [alone]. rewrite allow_cases. destruct (Z.ltb_spec second (now - windowAt w)) as [H|H].
  - rewrite granted_cons. pose proof (alone_same limit t Hl times (mkWindow 1 now) ltac:(cbn; lia) ltac:(cbn; lia)) as Hs. cbn [count windowAt] in Hs.
    specialize (Hs ltac:(eapply Forall_impl; [|exact Ht]; cbn; lia)). destruct (Z.leb_spec 1 limit); lia.
  - rewrite granted_cons. specialize (IH (mkWindow (count w + 1) (windowAt w)) ltac:(cbn; lia) Ht). cbn [count windowAt] in IH.
    destruct (Z.leb_spec (count w + 1) limit); lia.
Qed.
Lemma alone_app limit l1 : forall w l2, 0 <= count w -> exists w', alone w limit (l1 ++ l2) = alone w limit l1 ++ alone w' limit l2 /\ 0 <= count w'.
Proof.
  induction l1 as [|now l1 IH]; intros w l2 Hc; [exists w; done|]. cbn [app alone]. destruct (allow now w limit) as [w1 ok] eqn:E.
  destruct (IH w1 l2) as (w' & -> & Hc'); [|by exists w']. rewrite allow_cases in E. destruct (_ <? _); injection E as <- _; cbn [count]; lia.
Qed.

(** Sessions do not share a window. *)
Definition window_of (limiter : gmap Z rateWindow) (sid : Z) : rateWindow := default (mkWindow 0 zero_time) (limiter !! sid).
Definition answers_of (sid : Z) (calls : list (Z * Z)) (answers : list bool) : list bool :=
  map snd (filter (fun p => p.1.2 = sid) (zip calls answers)).
Definition times_of (sid : Z) (calls : list (Z * Z)) : list Z := map fst (filter (fun c => c.2 = sid) calls).
Lemma requests_alone perSecond sid : forall calls limiter,
  answers_of sid calls (requests limiter perSecond calls) = alone (window_of limiter sid) perSecond (times_of sid calls).
Proof.
  unfold answers_of, times_of, window_of. induction calls as [|[now s] calls IH]; intros limiter; [done|]. cbn [requests].
  unfold rateLimitAllows. destruct (allow now _ perSecond) as [w ok] eqn:E. cbn [zip zip_with]. rewrite !list.filter_cons. cbn [fst snd].
  specialize (IH (<[s := w]> limiter)). destruct (decide (s = sid)) as [->|Hne].
  - cbn [map fst snd alone]. rewrite lookup_insert_eq in IH. cbn in IH. rewrite E. by rewrite <- IH.
  - rewrite lookup_insert_ne in IH by done. exact IH.
Qed.

(** No flood gets through. Whatever sessions send and when, a session has
    at most twice its budget of messages accepted within any second, and the
    requests of other sessions make no difference: its answers are those of a
    window of its own. *)
Theorem rate_limit_bounds (perSecond : Z) (calls : list (Z * Z)) (before during after : list Z) (sid t : Z) : 0 <= perSecond ->
  times_of sid calls = before ++ during ++ after -> Forall (fun now => t <= now <= t + second) during ->
  let answers := answers_of sid calls (requests ∅ perSecond calls) in
  answers = alone (mkWindow 0 zero_time) perSecond (times_of sid calls) /\
  granted (take (length during) (drop (length before) answers)) <= 2 * perSecond.
Proof.
  intros Hl Ht Hd answers. assert (answers = alone (mkWindow 0 zero_time) perSecond (times_of sid calls)) as E.
  { unfold answers. rewrite requests_alone. unfold window_of. by rewrite lookup_empty. }
  split; [done|]. rewrite E, Ht.
  assert (forall times w, length (alone w perSecond times) = length times) as Hlen.
  { induction times as [|now times IH]; intros w; [done|]. cbn. by rewrite IH. }
  destruct (alone_app perSecond before (mkWindow 0 zero_time) (during ++ after) ltac:(done)) as (w1 & -> & H1).
  destruct (alone_app perSecond during w1 after H1) as (w2 & -> & H2).
  rewrite drop_app_length' by (by rewrite Hlen). rewrite take_app_length' by (by rewrite Hlen).
  pose proof (alone_span perSecond t Hl during w1 H1 Hd). lia.
Qed.

(** ** The limiter of the login endpoints *)

Record authRateEntry := mkAuth { a_count : Z; a_start : Z }.
Record AuthRateLimit := mkLimiter { byIP : gmap gostring authRateEntry; cleanup : Z }.

Section Auth.
Context (limit window : Z).
Definition interval : Z := window * 2.
Definition NewAuthRateLimit (now : Z) : AuthRateLimit := mkLimiter ∅ (now + interval).

Definition expired (now : Z) (e : authRateEntry) : bool := window <? now - a_start e.
Definition auth_clean (now : Z) (rl : AuthRateLimit) : AuthRateLimit :=
  if cleanup rl <? now
  then mkLimiter (filter (fun kv => expired now kv.2 = false) (byIP rl)) (now + interval) else rl.
Definition auth_count (now : Z) (m : gmap gostring authRateEntry) (ip : gostring) : gmap gostring authRateEntry * bool :=
  match m !! ip with
  | None => (<[ip := mkAuth 1 now]> m, true)
  | Some e =>
      if expired now e then (<[ip := mkAuth 1 now]> m, true) else
      if limit <=? a_count e then (m, false) else (<[ip := mkAuth (a_count e + 1) (a_start e)]> m, true)
  end.
Definition auth_allow (now : Z) (rl : AuthRateLimit) (ip : gostring) : AuthRateLimit * bool :=
  let rl := auth_clean now rl in
  let '(m, ok) := auth_count now (byIP rl) ip in (mkLimiter m (cleanup rl), ok).

Fixpoint auth_run (rl : AuthRateLimit) (calls : list (Z * gostring)) : list bool :=
  match calls with
  | [] => []
  | (now, ip) :: calls => let '(rl, ok) := auth_allow now rl ip in ok :: auth_run rl calls
  end.
(** The same without ever forgetting an entry. *)
Fixpoint full_run (m : gmap gostring authRateEntry) (calls : list (Z * gostring)) : list bool :=
  match calls with
  | [] => []
  | (now, ip) :: calls => let '(m, ok) := auth_count now m ip in ok :: full_run m calls
  end.

(** At time [now] the two tables agree up to entries that have expired. *)
Definition forgets (now : Z) (m full : gmap gostring authRateEntry) : Prop :=
  forall ip, m !! ip = full !! ip \/ (m !! ip = None /\ exists e, full !! ip = Some e /\ expired now e = true).

Lemma expired_mono now now' e : now <= now' -> expired now e = true -> expired now' e = true.
Proof. unfold expired. rewrite !Z.ltb_lt. lia. Qed.
Lemma forgets_mono now now' m full : now <= now' -> forgets now m full -> forgets now' m full.
Proof. intros Hle H ip. destruct (H ip) as [?|(? & e & ? & ?)]; [by left|right]. eauto 6 using expired_mono. Qed.
Lemma forgets_clean now rl full : forgets now (byIP rl) full -> forgets now (byIP (auth_clean now rl)) full.
Proof.
  intros H. unfold auth_clean. destruct (cleanup rl <? now); [|done]. cbn. intros ip. rewrite map_lookup_filter.
  destruct (H ip) as [E|(E & e & He & Hx)]; [|right; rewrite E; eauto]. rewrite E. destruct (full !! ip) as [e|]; [|by left]. cbn.
  destruct (expired now e) eqn:Hx; [right; split; [done|eauto]|by left].
Qed.
Lemma forgets_count now m full ip : forgets now m full ->
  (auth_count now m ip).2 = (auth_count now full ip).2 /\ forgets now (auth_count now m ip).1 (auth_count now full ip).1.
Proof.
  intros H. assert (forall e, forgets now (<[ip := e]> m) (<[ip := e]> full)) as Hi.
  { intros e ip'. destruct (decide (ip' = ip)) as [->|Hne]; [left; by rewrite !lookup_insert_eq|rewrite !lookup_insert_ne by done; apply H]. }
  unfold auth_count. destruct (H ip) as [E|(E & e & He & Hx)].
  - rewrite E. repeat case_match; cbn; split; try done; apply Hi.
  - rewrite E, He, Hx. split; [done|apply Hi].
Qed.

Lemma sorted_ahead now (ip : gostring) calls : Sorted Z.le (map fst ((now, ip) :: calls)) -> Forall (fun c : Z * gostring => now <= c.1) calls.
Proof.
  intros Hs. apply Sorted_StronglySorted in Hs; [|intros ???; lia]. apply StronglySorted_inv in Hs as [_ Hs]. rewrite Forall_forall in *.
  intros c Hc. apply Hs. by apply in_map.
Qed.

(** Forgetting is invisible: the limiter drops old entries now and then to
    bound its memory, and with a clock that does not run backwards every answer
    it gives is the one it would give if it had kept them all. *)
Theorem auth_cleanup_invisible (start : Z) (calls : list (Z * gostring)) : Sorted Z.le (map fst calls) ->
  auth_run (NewAuthRateLimit start) calls = full_run ∅ calls.
Proof.
  intros Hs. assert (forall calls rl full t, Sorted Z.le (map fst calls) -> Forall (fun c => t <= c.1) calls ->
    forgets t (byIP rl) full -> auth_run rl calls = full_run full calls) as H.
  { clear. induction calls as [|[now ip] calls IH]; intros rl full t Hs Ht H; [done|]. cbn [auth_run full_run]. unfold auth_allow.
    apply Forall_cons_iff in Ht as [Ht _]. cbn in Ht.
    apply (forgets_mono t now) in H; [|done]. apply forgets_clean in H. destruct (forgets_count now _ full ip H) as [E H'].
    destruct (auth_count now (byIP (auth_clean now rl)) ip) as [m ok], (auth_count now full ip) as [full' ok']. cbn in E, H'. subst ok'. f_equal.
    apply (IH (mkLimiter m _) full' now); [by apply Sorted_inv in Hs as [? _]| |done].
    by apply sorted_ahead in Hs. }
  destruct calls as [|[now ip] calls]; [done|]. apply (H _ _ _ now); [done| |intros ip'; by left].
  constructor; [done|]. by apply sorted_ahead in Hs.
Qed.
End Auth.

Lemma rate_limit_bounds_witness :
  let calls := [(5, 1); (6, 2); (7, 1); (8, 1); (2000000000, 1)] in
  let answers := answers_of 1 calls (requests ∅ 2 calls) in
  answers = [true; true; false; true] /\
  (answers = alone (mkWindow 0 zero_time) 2 (times_of 1 calls) /\ granted (take 3 (drop 0 answers)) <= 2 * 2).
Proof.
  intros calls answers. split; [vm_compute; reflexivity|].
  apply (rate_limit_bounds 2 calls [] [5; 7; 8] [2000000000] 1 5); [lia|reflexivity|repeat constructor; vm_compute; discriminate].
Defined.

Lemma auth_cleanup_invisible_witness :
  let calls := [(0, [1]); (1, [2]); (2, [1]); (3, [1]); (25, [1]); (26, [2])] in
  auth_run 2 10 (NewAuthRateLimit 10 0) calls = full_run 2 10 ∅ calls /\ full_run 2 10 ∅ calls = [true; true; true; false; true; true].
Proof.
  intros calls. split; [apply (auth_cleanup_invisible 2 10 0 calls); repeat constructor; vm_compute; discriminate|vm_compute; reflexivity].
Defined.
End RateLimit.
