(* ===== verification/ServerState.v ===== *)
(** * The server as control messages see it

    The state of [Server] beyond what voice needs, the messages it sends as a
    list of effects, and the helpers of [internal/mumble/handlers.go] the
    control handlers share: permission gates, broadcasts, the snapshots of
    users and channels on the wire.

    An effect is a call of the control transport: [Send], [SendThenClose],
    [Detach] or [AbortSync]. A
    permission check is asked for its answer only, see [VoiceServer]. *)

From Stdlib Require Import ZArith Lia String.
From stdpp Require Import base numbers list gmap sets option.
From S2P Require Import Prelude Wire Fields Messages Codec Registry UserManager ChannelManager Acl AclCache Listeners VoiceState VoiceServer RateLimit.

Module ServerState.
Import Acl AclCache Listeners VoiceFlags ChannelCrypto RateLimit VoiceServer.

(** [messages.DenyType]. *)
Definition DenyPermission : Z := 1.
Definition DenySuperUser : Z := 2.
Definition DenyTextTooLong : Z := 4.
Definition DenyTemporaryChannel : Z := 6.
Definition DenyUserName : Z := 8.
Definition DenyChannelFull : Z := 9.
Definition DenyChannelListenerLimit : Z := 12.
Definition DenyUserListenerLimit : Z := 13.

Inductive effect :=
  | Send (rf : SessionRef) (m : message)
  | SendThenClose (rf : SessionRef) (m : message)
  | Detach (rf : SessionRef)
  | AbortSync (rf : SessionRef).

(** The content policy and the numbers of the configuration. *)
Record Settings := mkSettings {
  allowRecording : bool; maxTextBytes : Z; maxImageBytes : Z;
  MaxChannelListeners : Z; MaxListenersPerUser : Z; DefaultChannel : Z }.

Record Core {DB : Type} := mkCore {
  srv : Server DB;
  settings : Settings;
  textRateLimiter : gmap Z rateWindow;
  userStateRateLimiter : gmap Z rateWindow }.
Arguments Core : clear implicits.
#[global] Instance Server_eta {DB} : Eta (Server DB) := fun s =>
  mkServer DB (srv_users s) (srv_chans s) (srv_registry s) (srv_listeners s) (srv_crypto s) (srv_store s) (srv_acl s) (voiceTargets s) (voice s).
#[global] Instance Core_eta {DB} : Eta (Core DB) := fun c => mkCore DB (srv c) (settings c) (textRateLimiter c) (userStateRateLimiter c).

Section Core.
Context (EqualFold : gostring -> gostring -> bool).
Context `{SO : Channels.Sorter} {DB TX : Type} `{CS : Channels.ChannelStore DB TX}.
Context (ord : nat -> Channels.order).
Implicit Types (s : Server DB) (c : Core DB).

(** ** Changes of the managers, with their notifications *)

Definition with_users s (m : Manager) (ns : list notification) : Server DB :=
  s <| srv_users := m |> <| srv_acl := (fun e => deliver_users e ns) <$> srv_acl s |>.
Definition with_chans s (m : Channels.Manager DB) (ls : list nat) : Server DB :=
  s <| srv_chans := m |> <| srv_acl := (fun e => deliver_channels e m ls) <$> srv_acl s |>.

Definition updateUser s (sid : Z) (fn : User.t -> User.t) : Server DB * option User.t :=
  let '(m, u, ns) := UpdateUser (srv_users s) sid fn in (with_users s m ns, u).
Definition setChannel s (sid channelID : Z) : Server DB :=
  (updateUser s sid (fun u => u <| User.ChannelID := channelID |>)).1.
Definition invalidateACLCache s : Server DB := s <| srv_acl := InvalidateCache <$> srv_acl s |>.
Definition updateChannelCrypto s (channelID : Z) : Server DB :=
  s <| srv_crypto := UpdateChannelCrypto (srv_users s) (srv_crypto s) channelID |>.

(** ** Permissions *)

Definition aclPermissions s (subject : Subject) (channelID : Z) : Z :=
  match srv_acl s with
  | None => baselinePermissions
  | Some e => (EffectivePermissions EqualFold (srv_store s) (srv_users s) e (srv_chans s) subject channelID).2
  end.
Definition maySpeak s (subject : Subject) (channelID : Z) : bool := aclCheck EqualFold s subject channelID PermissionSpeak.

Definition channelIsFull s (channelID : Z) (subject : Subject) : bool :=
  match Channels.GetChannel (srv_chans s) channelID with
  | None => false
  | Some ch =>
      if Channels.MaxUsers ch =? 0 then false else
      if aclCheck EqualFold s subject channelID PermissionWrite then false
      else Channels.MaxUsers ch <=? u32 (UserManager.CountInChannel (srv_users s) channelID)
  end.

Fixpoint first_permanent (m : Channels.Manager DB) (chain : list Z) : option Z :=
  match chain with
  | [] => None
  | cid :: chain =>
      match Channels.GetChannel m cid with
      | None => None
      | Some ch => if negb (Channels.IsTemporary ch) then Some cid else first_permanent m chain
      end
  end.
Definition firstPermanentChannel s (channelID : Z) : option Z :=
  first_permanent (srv_chans s) (default [] (Channels.AncestorChain (srv_chans s) channelID)).

Definition joinChannelFor c (userID : Z) : Z :=
  let s := srv c in
  let subject := SubjectForUserID userID in
  let root := Channels.rootChannelID in
  if DefaultChannel (settings c) <=? 0 then root else
  let target := u32 (DefaultChannel (settings c)) in
  if target =? root then root else
  match Channels.GetChannel (srv_chans s) target with
  | None => root
  | Some _ =>
      if negb (aclCheck EqualFold s subject target PermissionEnter) then root else
      if channelIsFull s target subject then root else target
  end.

(** ** Sending *)

Definition deliverableState (state : SessionState) : bool :=
  bool_decide (state = StateActive) || bool_decide (state = StateSyncing).
Definition Broadcast s (skipSession : Z) (m : message) : list effect :=
  map (fun sn => Send (s_Ref sn) m)
    (filter (fun sn => negb (SessionID (s_Ref sn) =? skipSession) && deliverableState (s_State sn) = true) (Sessions (srv_registry s))).
Definition sendControl s (sessionID : Z) (m : message) : list effect :=
  match Ref (srv_registry s) sessionID with Some rf => [Send rf m] | None => [] end.
Definition sendThenClose s (rf : SessionRef) (m : message) : list effect :=
  match Registry.Snapshot (srv_registry s) rf with Some _ => [SendThenClose rf m] | None => [] end.

(** [controlPeer.WriteMessage] and the [PermissionDenied] messages. *)
Definition write (rf : SessionRef) (m : message) : list effect := [Send rf m].
Definition deny (channelID denyType : Z) (reason : gostring) : message :=
  MPermissionDenied (PermissionDenied.zero <| PermissionDenied.ChannelID := channelID |> <| PermissionDenied.Type_ := denyType |>
    <| PermissionDenied.Reason := reason |>).

(** ** Users and channels on the wire *)

Definition channelToState (ch : Channels.Channel) : ChannelState.t :=
  ChannelState.zero <| ChannelState.ChannelID := Channels.ID ch |> <| ChannelState.Parent := Channels.ParentID ch |>
    <| ChannelState.HasParent := negb (Channels.ID ch =? 0) |> <| ChannelState.Name := Channels.Name ch |>
    <| ChannelState.Description := Channels.Description ch |> <| ChannelState.Position := Channels.Position ch |>
    <| ChannelState.MaxUsers := Channels.MaxUsers ch |> <| ChannelState.Temporary := Channels.IsTemporary ch |>
    <| ChannelState.Links := Channels.Links ch |>.
Definition channelToStateFor s (ch : Channels.Channel) (subject : Subject) (restricted : bool) : ChannelState.t :=
  (channelToState ch) <| ChannelState.IsEnterRestricted := restricted |> <| ChannelState.HasEnterRestricted := true |>
    <| ChannelState.CanEnter := aclCheck EqualFold s subject (Channels.ID ch) PermissionEnter |> <| ChannelState.HasCanEnter := true |>.

Definition userToState (u : User.t) : UserState.t :=
  let v := User.Voice u in
  let us := UserState.zero <| UserState.Session := User.SessionID u |> <| UserState.UserID := User.UserID u |> <| UserState.Name := User.Name u |>
    <| UserState.ChannelID := User.ChannelID u |> <| UserState.Texture := User.Texture u |> <| UserState.Comment := User.Comment u |>
    <| UserState.SetFields := Z.lor UserState.SetSession UserState.SetChannelID |> in
  let us := if Deaf v then mark (us <| UserState.Deaf := true |>) UserState.SetDeaf
            else if Mute v then mark (us <| UserState.Mute := true |>) UserState.SetMute else us in
  let us := if Suppress v then mark (us <| UserState.Suppress := true |>) UserState.SetSuppress else us in
  let us := if PrioritySpeaker v then mark (us <| UserState.PrioritySpeaker := true |>) UserState.SetPrioritySpeaker else us in
  let us := if Recording v then mark (us <| UserState.Recording := true |>) UserState.SetRecording else us in
  if SelfDeaf v then mark (us <| UserState.SelfDeaf := true |>) UserState.SetSelfDeaf
  else if SelfMute v then mark (us <| UserState.SelfMute := true |>) UserState.SetSelfMute else us.

(** A query that fails counts as no restriction. *)
Definition enterRestrictedChannels s : gset Z :=
  match srv_acl s with None => ∅ | Some _ => default ∅ (EnterRestrictedChannels (srv_store s)) end.
Definition refreshEnterStatesFor s (u : User.t) (channels : list Channels.Channel) (restricted : gset Z) : list effect :=
  map (fun ch => Send (mkRef (User.SessionID u) (User.SessionGeneration u))
    (MChannelState (channelToStateFor s ch (SubjectOf u) (bool_decide (Channels.ID ch ∈ restricted))))) channels.
Definition RefreshEnterStatesFor s (sessionID : Z) : list effect :=
  match Snapshot (srv_users s) sessionID with
  | None => []
  | Some u => refreshEnterStatesFor s u (default [] (Channels.GetTree (srv_chans s))) (enterRestrictedChannels s)
  end.
Definition RefreshEnterStates s : list effect :=
  let channels := default [] (Channels.GetTree (srv_chans s)) in
  let restricted := enterRestrictedChannels s in
  concat (map (fun u => refreshEnterStatesFor s u channels restricted) (SnapshotAll (srv_users s))).

Definition BroadcastChannelState s (ch : Channels.Channel) : list effect :=
  let restricted := bool_decide (Channels.ID ch ∈ enterRestrictedChannels s) in
  omap (fun sn =>
    if negb (deliverableState (s_State sn)) then None else
    u ← Snapshot (srv_users s) (SessionID (s_Ref sn));
    Some (Send (s_Ref sn) (MChannelState (channelToStateFor s ch (SubjectOf u) restricted)))) (Sessions (srv_registry s)).
Definition BroadcastChannelRemove s (channelID : Z) : list effect :=
  Broadcast s 0 (MChannelRemove (ChannelRemove.zero <| ChannelRemove.ChannelID := channelID |>)).

(** One round of the loop of [RefreshSuppressStates]. *)
Definition refresh_suppress s (u : User.t) : Server DB * list effect :=
  let sid := User.SessionID u in
  let may := maySpeak s (SubjectOf u) (User.ChannelID u) in
  let changed := match Snapshot (srv_users s) sid with Some live => (applySuppressFromSpeak (User.Voice live) may).2 | None => false end in
  let '(s, updated) := updateUser s sid (fun live => live <| User.Voice := (applySuppressFromSpeak (User.Voice live) may).1 |>) in
  match updated with
  | None => (s, [])
  | Some updated =>
      if negb changed then (s, []) else
      (s, Broadcast s 0 (MUserState (UserState.zero <| UserState.Session := sid |> <| UserState.Suppress := Suppress (User.Voice updated) |>
        <| UserState.SetFields := Z.lor UserState.SetSession UserState.SetSuppress |>)))
  end.
Fixpoint refresh_all s (us : list User.t) : Server DB * list effect :=
  match us with
  | [] => (s, [])
  | u :: us => let '(s, e1) := refresh_suppress s u in let '(s, e2) := refresh_all s us in (s, e1 ++ e2)
  end.
Definition RefreshSuppressStates s : Server DB * list effect :=
  match srv_acl s with None => (s, []) | Some _ => refresh_all s (SnapshotAll (srv_users s)) end.

Definition version1_2_3 : Z := Z.lor (Z.lor (Z.shiftl 1 48) (Z.shiftl 2 32)) (Z.shiftl 3 16).
Definition broadcastRecordingAnnouncement s (name : gostring) (recording : bool) : list effect :=
  let text := str "User '"%string ++ name ++ (if recording then str "' started recording"%string else str "' stopped recording"%string) in
  let tm := MTextMessage (TextMessage.zero <| TextMessage.TreeID := [0] |> <| TextMessage.Message := text |>) in
  omap (fun sn =>
    if negb (deliverableState (s_State sn)) then None else
    u ← Snapshot (srv_users s) (SessionID (s_Ref sn));
    if negb (User.SessionGeneration u =? Generation (s_Ref sn)) || (version1_2_3 <=? User.ClientVersion u) then None
    else Some (Send (s_Ref sn) tm)) (Sessions (srv_registry s)).

(** ** The listening part of UserState *)

(** One channel of [add]. *)
Definition listen_one c (rf : SessionRef) (target : User.t) (cid : Z) : Core DB * list effect * list Z :=
  let s := srv c in
  let sid := User.SessionID target in
  match Channels.GetChannel (srv_chans s) cid with
  | None => (c, [], [])
  | Some _ =>
      if negb (aclCheck EqualFold s (SubjectOf target) cid PermissionListen) then
        (c, write rf (MPermissionDenied (PermissionDenied.mk PermissionListen cid sid [] DenyPermission [])), []) else
      if (0 <? MaxChannelListeners (settings c)) && (MaxChannelListeners (settings c) <? Listeners.CountInChannel (srv_listeners s) cid + 1) then
        (c, write rf (MPermissionDenied (PermissionDenied.mk 0 cid sid (str "Channel listener limit reached"%string) DenyChannelListenerLimit [])), []) else
      if (0 <? MaxListenersPerUser (settings c)) && (MaxListenersPerUser (settings c) <? Listeners.CountForSession (srv_listeners s) sid + 1) then
        (c, write rf (MPermissionDenied (PermissionDenied.mk 0 cid sid (str "User listener limit reached"%string) DenyUserListenerLimit [])), []) else
      let '(l, added) := Listeners.Add (srv_listeners s) sid cid in
      (c <| srv := s <| srv_listeners := l |> |>, [], if added : bool then [cid] else [])
  end.
Fixpoint listen_all c (rf : SessionRef) (target : User.t) (cids : list Z) : Core DB * list effect * list Z :=
  match cids with
  | [] => (c, [], [])
  | cid :: cids =>
      let '(c, e1, a1) := listen_one c rf target cid in
      let '(c, e2, a2) := listen_all c rf target cids in (c, e1 ++ e2, a1 ++ a2)
  end.
Fixpoint unlisten_all (l : listenerManager) (sid : Z) (cids : list Z) : listenerManager * list Z :=
  match cids with
  | [] => (l, [])
  | cid :: cids =>
      let '(l, removed) := Listeners.Remove l sid cid in
      let '(l, rest) := unlisten_all l sid cids in (l, if removed : bool then cid :: rest else rest)
  end.
Fixpoint set_volumes (l : listenerManager) (sid : Z) (vols : list VolumeAdjustment.t) : listenerManager * list VolumeAdjustment.t :=
  match vols with
  | [] => (l, [])
  | va :: vols =>
      let cid := VolumeAdjustment.ListeningChannel va in
      if negb (Listeners.IsListening l sid cid) then set_volumes l sid vols else
      let '(l, rest) := set_volumes (Listeners.SetVolume l sid cid (VolumeAdjustment.Volume va)) sid vols in (l, va :: rest)
  end.
Definition applyListening c (rf : SessionRef) (target : User.t) (add remove : list Z) (vols : list VolumeAdjustment.t) : Core DB * list effect :=
  let sid := User.SessionID target in
  let '(c, e, appliedAdd) := listen_all c rf target add in
  let '(l, appliedRemove) := unlisten_all (srv_listeners (srv c)) sid remove in
  let '(l, appliedVols) := set_volumes l sid vols in
  let c := c <| srv := (srv c) <| srv_listeners := l |> |> in
  if bool_decide (appliedAdd = []) && bool_decide (appliedRemove = []) && (zlen appliedVols =? 0) then (c, e) else
  let base := UserState.zero <| UserState.Session := sid |> <| UserState.Actor := SessionID rf |>
    <| UserState.SetFields := Z.lor UserState.SetSession UserState.SetActor |>
    <| UserState.ListeningChannelAdd := appliedAdd |> <| UserState.ListeningChannelRemove := appliedRemove |> in
  let full := base <| UserState.ListeningVolumeAdjustment := appliedVols |> in
  (c, e ++ write rf (MUserState full) ++ Broadcast (srv c) (SessionID rf) (MUserState base)).

(** ** What the helpers keep *)

(** A running server: its parts are sound and the evaluator is told of every
    change. *)
Record live_ok s : Prop := {
  lo_server : server_ok EqualFold s;
  lo_users : self ∈ authorizationListeners (srv_users s);
  lo_chans : self ∈ Channels.authorizationListeners (srv_chans s);
  lo_generation : generation (srv_users s) + 1 < 2 ^ 64 }.

Lemma live_ok_parts s s' : live_ok s -> srv_users s' = srv_users s -> srv_chans s' = srv_chans s -> srv_registry s' = srv_registry s ->
  srv_store s' = srv_store s -> (exists L, refines (srv_listeners s') L) ->
  (forall e, srv_acl s' = Some e -> cache_valid EqualFold (srv_store s) (srv_users s) (temporary e) (srv_chans s) (cache e)) -> live_ok s'.
Proof. intros [[O1 O2 O3 O4 O5] L1 L2 L3] E1 E2 E3 E4 HL HA. split; [split|..]; rewrite ?E1, ?E2, ?E3, ?E4; done. Qed.

Lemma with_users_ok s o m ns : live_ok s -> mop_ok o -> user_exec (srv_users s) o = (m, ns) -> generation m + 1 < 2 ^ 64 -> live_ok (with_users s m ns).
Proof.
  intros [[O1 O2 O3 O4 O5] L1 L2 L3] Ho E Hg. destruct (exec_wf (srv_users s) o O1 Ho L3) as (W' & G' & _).
  rewrite <- user_exec_exec in W', G'. destruct (user_exec_kept (srv_users s) o O1 Ho L3 L1) as [L' K]. rewrite E in *. cbn [fst snd] in *.
  split; [split|..]; cbn; try done. intros e. destruct (srv_acl s) as [e0|] eqn:He; [|done]. cbn. intros [= <-]. specialize (O5 e0 eq_refl).
  destruct K as [K|[-> K]].
  - rewrite deliver_users_cache by (left; exact K). apply cache_valid_empty.
  - cbn. eapply (cache_valid_users EqualFold (srv_store s) (srv_users s) m); eauto. lia.
Qed.
Lemma with_chans_ok s o m ls : live_ok s -> Channels.cop_ok o -> chan_exec (srv_chans s) o = Some (m, ls) -> live_ok (with_chans s m ls).
Proof.
  intros [[O1 O2 O3 O4 O5] L1 L2 L3] Ho E. destruct (chan_exec_kept (srv_chans s) o O2 Ho L2) as (m' & ls' & E' & W' & L' & K).
  rewrite E in E'. injection E' as <- <-. split; [split|..]; cbn; try done. intros e. destruct (srv_acl s) as [e0|] eqn:He; [|done]. cbn. intros [= <-].
  specialize (O5 e0 eq_refl). destruct K as [K|[-> K]].
  - rewrite deliver_channels_cache by (left; exact K). apply cache_valid_empty.
  - cbn. by eapply cache_valid_tree.
Qed.

(** [UpdateUser] changes one user. *)
Definition settled (fn : User.t -> User.t) (u : User.t) : User.t := (settle u (fn u)).1.
Lemma UpdateUser_exact m sid fn : mgr_wf m ->
  (UpdateUser m sid fn).1.2 = settled fn <$> Snapshot m sid /\
  generation (UpdateUser m sid fn).1.1 = generation m /\
  forall sid', Snapshot (UpdateUser m sid fn).1.1 sid' = if decide (sid' = sid) then settled fn <$> Snapshot m sid else Snapshot m sid'.
Proof.
  intros W. unfold UpdateUser, settled. destruct (user_at m sid) as [[l u]|] eqn:E.
  - assert (Snapshot m sid = Some u) as Hs by (apply Snapshot_Some; eauto). rewrite Hs. cbn. destruct (settle u (fn u)) as [u' ch]. cbn.
    split; [done|]. split; [done|]. intros sid'. apply user_at_Some in E as [Hl Hr]. rewrite write_snapshot by eauto.
    destruct (decide (sid' = sid)) as [->|Hne]; [by rewrite decide_True|]. rewrite decide_False; [done|]. intros Hl'.
    destruct (mw_session m W _ _ Hl) as (u1 & H1 & E1 & _), (mw_session m W _ _ Hl') as (u2 & H2 & E2 & _). congruence.
  - assert (Snapshot m sid = None) as Hs by (unfold Snapshot; by rewrite E). rewrite Hs. cbn. split; [done|]. split; [done|]. intros sid'.
    by destruct (decide (sid' = sid)) as [->|].
Qed.

(** Everything of the server but users, their crypto modes and the evaluator. *)
Definition same_rest s s' : Prop :=
  srv_chans s' = srv_chans s /\ srv_registry s' = srv_registry s /\ srv_store s' = srv_store s /\
  voiceTargets s' = voiceTargets s /\ voice s' = voice s.
Lemma same_rest_trans s1 s2 s3 : same_rest s1 s2 -> same_rest s2 s3 -> same_rest s1 s3.
Proof. unfold same_rest. intuition congruence. Qed.

Lemma updateUser_exact s sid fn : live_ok s -> keeps_session fn -> keeps_name fn ->
  let '(s', u) := updateUser s sid fn in
  u = settled fn <$> Snapshot (srv_users s) sid /\ live_ok s' /\ same_rest s s' /\ srv_listeners s' = srv_listeners s /\ srv_crypto s' = srv_crypto s /\
  forall sid', Snapshot (srv_users s') sid' = if decide (sid' = sid) then settled fn <$> Snapshot (srv_users s) sid else Snapshot (srv_users s) sid'.
Proof.
  intros L Hs Hn. pose proof (UpdateUser_exact (srv_users s) sid fn (ok_users _ s (lo_server s L))) as (H1 & H2 & H3).
  unfold updateUser. destruct (UpdateUser (srv_users s) sid fn) as [[m u] ns] eqn:E. cbn in *. split; [done|]. split; [|split; [done|done]].
  apply (with_users_ok s (OpUpdateUser sid fn)); [done|done| |].
  - cbn. by rewrite E.
  - rewrite H2. apply (lo_generation s L).
Qed.

Lemma invalidateACLCache_ok s : live_ok s -> live_ok (invalidateACLCache s).
Proof.
  intros L. eapply (live_ok_parts s); try done; [apply (ok_listeners _ s (lo_server s L))|]. cbn. intros e.
  destruct (srv_acl s) as [e0|]; [|done]. cbn. intros [= <-]. apply cache_valid_empty.
Qed.
Lemma updateChannelCrypto_ok s ch : live_ok s -> live_ok (updateChannelCrypto s ch).
Proof. intros L. pose proof L as [[O1 O2 O3 O4 O5] _ _ _]. by eapply (live_ok_parts s). Qed.
Lemma with_listeners_ok s l : live_ok s -> (exists L, refines l L) -> live_ok (s <| srv_listeners := l |>).
Proof. intros L HL. pose proof L as [[O1 O2 O3 O4 O5] _ _ _]. by eapply (live_ok_parts s). Qed.
(** The users of a snapshot have distinct sessions. *)
Lemma users_sessions m : mgr_wf m -> NoDup (map User.SessionID (UserManager.users m)).
Proof.
  intros W. assert (forall kvs, (forall k l, (k, l) ∈ kvs -> exists u, records m !! l = Some u /\ User.SessionID u = k) ->
    map User.SessionID (omap (fun l => records m !! l) (map snd kvs)) = map fst kvs) as H.
  { induction kvs as [|[k l] kvs IH]; intros Hk; [done|]. cbn. destruct (Hk k l) as (u & -> & <-); [apply elem_of_cons; by left|]. cbn. f_equal.
    apply IH. intros k' l' H'. apply Hk, elem_of_cons. by right. }
  unfold UserManager.users. rewrite H; [apply NoDup_fst_map_to_list|]. intros k l Hin%elem_of_map_to_list.
  destruct (mw_session m W _ _ Hin) as (u & Hu & E & _). by exists u.
Qed.
Lemma SnapshotByChannel_sessions m cid : mgr_wf m -> NoDup (map User.SessionID (SnapshotByChannel m cid)).
Proof.
  intros W. eapply list.sublist_NoDup; [apply (users_sessions m W)|]. unfold SnapshotByChannel.
  induction (UserManager.users m) as [|u us IH]; [done|]. rewrite list.filter_cons. case_decide; cbn; by constructor.
Qed.

(** Every user is in a channel of the tree, and the root has no parent. *)
Record located s : Prop := {
  lc_users : forall sid u, Snapshot (srv_users s) sid = Some u -> is_Some (Channels.GetChannel (srv_chans s) (User.ChannelID u));
  lc_root : forall ch, Channels.GetChannel (srv_chans s) 0 = Some ch -> Channels.ParentID ch = 0 }.

(** ** What the listening part changes *)

Definition only_listeners c c' : Prop := c' = c <| srv := (srv c) <| srv_listeners := srv_listeners (srv c') |> |>.
Definition tabled c : Prop := exists L, refines (srv_listeners (srv c)) L.
Lemma only_listeners_refl c : only_listeners c c.
Proof. by destruct c as [[] ? ? ?]. Qed.
Lemma only_listeners_trans c1 c2 c3 : only_listeners c1 c2 -> only_listeners c2 c3 -> only_listeners c1 c3.
Proof. unfold only_listeners. intros E1 E2. rewrite E2, E1. done. Qed.

Lemma listen_one_frame c rf t cid : tabled c -> only_listeners c (listen_one c rf t cid).1.1 /\ tabled (listen_one c rf t cid).1.1.
Proof.
  intros T. pose proof (only_listeners_refl c). unfold listen_one. case_match; [|done]. do 3 (case_match; [done|]). destruct T as [L R].
  pose proof (Add_refines _ _ (User.SessionID t) cid R) as [R' _]. destruct (Listeners.Add _ _ _) as [l a]. split; [done|by eexists].
Qed.
Lemma listen_all_frame rf t cids : forall c, tabled c -> only_listeners c (listen_all c rf t cids).1.1 /\ tabled (listen_all c rf t cids).1.1.
Proof.
  induction cids as [|cid cids IH]; intros c T; cbn; [by pose proof (only_listeners_refl c)|].
  pose proof (listen_one_frame c rf t cid T) as [F1 T1]. destruct (listen_one c rf t cid) as [[c1 e1] a1].
  specialize (IH c1 T1) as [F2 T2]. destruct (listen_all c1 rf t cids) as [[c2 e2] a2]. cbn in *. split; [by eapply only_listeners_trans|done].
Qed.
Lemma unlisten_all_refines sid cids : forall l, (exists L, refines l L) -> exists L, refines (unlisten_all l sid cids).1 L.
Proof.
  induction cids as [|cid cids IH]; intros l [L R]; cbn; [by eexists|]. pose proof (Remove_refines _ _ sid cid R) as [R' _].
  destruct (Listeners.Remove l sid cid) as [l' b]. specialize (IH l' ltac:(by eexists)). by destruct (unlisten_all l' sid cids).
Qed.
Lemma set_volumes_refines sid vols : forall l, (exists L, refines l L) -> exists L, refines (set_volumes l sid vols).1 L.
Proof.
  induction vols as [|va vols IH]; intros l [L R]; cbn; [by eexists|]. case_match; [apply IH; by eexists|].
  specialize (IH (Listeners.SetVolume l sid (VolumeAdjustment.ListeningChannel va) (VolumeAdjustment.Volume va))
    ltac:(eexists; by apply SetVolume_refines)). by destruct (set_volumes _ sid vols).
Qed.
Lemma applyListening_frame c rf t add remove vols : tabled c ->
  only_listeners c (applyListening c rf t add remove vols).1 /\ tabled (applyListening c rf t add remove vols).1.
Proof.
  intros T. unfold applyListening. pose proof (listen_all_frame rf t add c T) as [F1 T1]. destruct (listen_all c rf t add) as [[c1 e1] a1]. cbn in F1, T1.
  pose proof (unlisten_all_refines (User.SessionID t) remove _ T1) as T2. destruct (unlisten_all _ _ _) as [l1 r1].
  pose proof (set_volumes_refines (User.SessionID t) vols _ T2) as T3. destruct (set_volumes _ _ _) as [l2 v2].
  assert (only_listeners c (c1 <| srv := (srv c1) <| srv_listeners := l2 |> |>)) as F by (rewrite F1; done).
  by case_match.
Qed.
Lemma only_listeners_ok c c' : only_listeners c c' -> tabled c' -> live_ok (srv c) -> live_ok (srv c').
Proof. intros E T L. rewrite E. by apply with_listeners_ok. Qed.
End Core.
End ServerState.
