(* ===== verification/UserStateHandler.v ===== *)
(** * The handler of UserState

    [handleUserState] of [internal/mumble/handlers.go]: the requests of a
    client about itself or, as an administrator, about another user. The
    handler is a sequence of guards, then one update of the user, then the
    echo of the message to everybody. *)

From Stdlib Require Import ZArith Lia String.
From stdpp Require Import base numbers list gmap sets option.
From S2P Require Import Prelude Wire Fields Messages Codec Registry UserManager ChannelManager Acl AclCache Listeners VoiceState VoiceServer RateLimit ServerState.

Module UserStateHandler.
Import Acl AclCache Listeners VoiceFlags ChannelCrypto RateLimit VoiceServer ServerState.

(** ** The groups of fields *)

Definition selfOnlyUserStateFields : Z :=
  Z.lor (Z.lor (Z.lor (Z.lor UserState.SetSelfMute UserState.SetSelfDeaf) UserState.SetPluginContext) UserState.SetPluginIdentity) UserState.SetRecording.
Definition adminVoiceUserStateFields : Z :=
  Z.lor (Z.lor (Z.lor UserState.SetMute UserState.SetDeaf) UserState.SetSuppress) UserState.SetPrioritySpeaker.
Definition pluginUserStateFields : Z := Z.lor UserState.SetPluginContext UserState.SetPluginIdentity.
Definition broadcastUserStateFields : Z :=
  Z.lor (Z.lor (Z.lor (Z.lor (Z.ldiff selfOnlyUserStateFields pluginUserStateFields) adminVoiceUserStateFields) UserState.SetChannelID)
    UserState.SetTexture) UserState.SetComment.
Definition handledUserStateFields : Z := Z.lor broadcastUserStateFields pluginUserStateFields.

(** [us.SetFields &^= bits]. *)
Definition unmark (us : UserState.t) (bits : Z) : UserState.t := us <| UserState.SetFields := Z.ldiff (UserState.SetFields us) bits |>.


(** ** What the voice flags of a message do *)

Lemma has_lor us b1 b2 : UserState.Has us (Z.lor b1 b2) = UserState.Has us b1 || UserState.Has us b2.
Proof.
  unfold UserState.Has. rewrite Z.land_lor_distr_r. destruct (Z.eqb_spec (Z.land (UserState.SetFields us) b1) 0) as [->|H1]; cbn [negb orb]; [done|].
  apply negb_true_iff, Z.eqb_neq. intros [E _]%Z.lor_eq_0_iff. done.
Qed.

(** The two messages say the same of [bit]. *)
Definition same_bit (us us' : UserState.t) (bit : Z) : Prop := UserState.Has us' bit = UserState.Has us bit.

Record self_effect (vs vs' : VoiceState) (us us' : UserState.t) : Prop := {
  se_admin : Mute vs' = Mute vs /\ Deaf vs' = Deaf vs /\ Suppress vs' = Suppress vs /\ PrioritySpeaker vs' = PrioritySpeaker vs;
  se_none : UserState.Has us UserState.SetSelfMute = false -> UserState.Has us UserState.SetSelfDeaf = false ->
    SelfMute vs' = SelfMute vs /\ SelfDeaf vs' = SelfDeaf vs;
  se_recording : Recording vs' = if UserState.Has us UserState.SetRecording then UserState.Recording us else Recording vs;
  se_told : told us' UserState.SetSelfMute (UserState.SelfMute us') (SelfMute vs') (SelfMute vs) /\
    told us' UserState.SetSelfDeaf (UserState.SelfDeaf us') (SelfDeaf vs') (SelfDeaf vs);
  se_message : us' = us <| UserState.SelfMute := UserState.SelfMute us' |> <| UserState.SelfDeaf := UserState.SelfDeaf us' |>
    <| UserState.SetFields := UserState.SetFields us' |>;
  se_bits : forall bit, Z.land (Z.lor UserState.SetSelfMute UserState.SetSelfDeaf) bit = 0 -> same_bit us us' bit }.

Lemma mark_bit x a bit : Z.land a bit = 0 -> has_bit (Z.lor x a) bit = has_bit x bit.
Proof. intros H. rewrite has_bit_lor. unfold has_bit at 2. rewrite H. cbn. apply orb_false_r. Qed.

Lemma applySelfVoiceState_effect vs us : let '(vs', us') := applySelfVoiceState vs us in self_effect vs vs' us us'.
Proof.
  destruct vs as [mu de su sm sd ps rc], us as [x1 x2 x3 x4 x5 x6 x7 x8 sm' sd' x11 x12 x13 x14 x15 x16 x17 x18 rc' x20 x21 x22 x23 sf].
  destruct (applySelfVoiceState _ _) as [vs' us'] eqn:E. revert E. unfold applySelfVoiceState, mark. fold_bits.
  assert (forall bit, Z.land (Z.lor UserState.SetSelfMute UserState.SetSelfDeaf) bit = 0 ->
    Z.land UserState.SetSelfMute bit = 0 /\ Z.land UserState.SetSelfDeaf bit = 0) as Hb.
  { intros bit. rewrite Z.land_lor_distr_l. apply Z.lor_eq_0_iff. }
  destruct (has_bit sf UserState.SetSelfDeaf) eqn:B1, sd', (has_bit sf UserState.SetSelfMute) eqn:B2, sm', (has_bit sf UserState.SetRecording) eqn:B3;
    do 3 (cbn -[has_bit Z.lor]; rewrite ?has_bit_lor, ?B1, ?B2, ?B3; const_bits); cbn -[has_bit Z.lor]; intros [= <- <-];
    (split; unfold told, same_bit; fold_bits; rewrite ?has_bit_lor, ?B1, ?B2, ?B3; const_bits; cbn -[has_bit Z.lor];
     [done|done|done|done|done|intros bit [H1 H2]%Hb; rewrite ?mark_bit by done; done]).
Qed.

Record admin_effect (vs vs' : VoiceState) (us us' : UserState.t) : Prop := {
  ae_self : SelfMute vs' = SelfMute vs /\ SelfDeaf vs' = SelfDeaf vs /\ Recording vs' = Recording vs;
  ae_none : UserState.Has us UserState.SetMute = false -> UserState.Has us UserState.SetDeaf = false -> Mute vs' = Mute vs /\ Deaf vs' = Deaf vs;
  ae_suppress : Suppress vs' = if UserState.Has us UserState.SetSuppress then UserState.Suppress us else Suppress vs;
  ae_priority : PrioritySpeaker vs' = if UserState.Has us UserState.SetPrioritySpeaker then UserState.PrioritySpeaker us else PrioritySpeaker vs;
  ae_told : told us' UserState.SetMute (UserState.Mute us') (Mute vs') (Mute vs) /\
    told us' UserState.SetDeaf (UserState.Deaf us') (Deaf vs') (Deaf vs);
  ae_message : us' = us <| UserState.Mute := UserState.Mute us' |> <| UserState.Deaf := UserState.Deaf us' |>
    <| UserState.SetFields := UserState.SetFields us' |>;
  ae_bits : forall bit, Z.land (Z.lor UserState.SetMute UserState.SetDeaf) bit = 0 -> same_bit us us' bit }.

Lemma applyAdminVoiceState_effect vs us : let '(vs', us') := applyAdminVoiceState vs us in admin_effect vs vs' us us'.
Proof.
  destruct vs as [mu de su sm sd ps rc], us as [x1 x2 x3 x4 x5 mu' de' su' x9 x10 x11 x12 x13 x14 x15 x16 x17 ps' x19 x20 x21 x22 x23 sf].
  destruct (applyAdminVoiceState _ _) as [vs' us'] eqn:E. revert E. unfold applyAdminVoiceState, mark. fold_bits.
  assert (forall bit, Z.land (Z.lor UserState.SetMute UserState.SetDeaf) bit = 0 ->
    Z.land UserState.SetMute bit = 0 /\ Z.land UserState.SetDeaf bit = 0) as Hb.
  { intros bit. rewrite Z.land_lor_distr_l. apply Z.lor_eq_0_iff. }
  destruct (has_bit sf UserState.SetDeaf) eqn:B1, de', (has_bit sf UserState.SetMute) eqn:B2, mu',
    (has_bit sf UserState.SetSuppress) eqn:B3, (has_bit sf UserState.SetPrioritySpeaker) eqn:B4;
    do 3 (cbn -[has_bit Z.lor]; rewrite ?has_bit_lor, ?B1, ?B2, ?B3, ?B4; const_bits); cbn -[has_bit Z.lor]; intros [= <- <-];
    (split; unfold told, same_bit; fold_bits; rewrite ?has_bit_lor, ?B1, ?B2, ?B3, ?B4; const_bits; cbn -[has_bit Z.lor];
     [done|done|done|done|done|done|intros bit [H1 H2]%Hb; rewrite ?mark_bit by done; done]).
Qed.
Section Handler.
Context (EqualFold : gostring -> gostring -> bool).
Context `{SO : Channels.Sorter} {DB TX : Type} `{CS : Channels.ChannelStore DB TX}.
Context (ord : nat -> Channels.order).
Implicit Types (s : Server DB) (c : Core DB).

Definition checkUserStateRateLimit (now : Z) c (sid : Z) : Core DB * bool :=
  let '(l, ok) := rateLimitAllows now (userStateRateLimiter c) sid maxUserStatesPerSecond in (c <| userStateRateLimiter := l |>, ok).

(** ** The guards: the denial a request meets, if any *)

Definition admin_voice_denied s (sender target : User.t) (us : UserState.t) : option message :=
  let ch := User.ChannelID target in
  if Z.land (UserState.SetFields us) adminVoiceUserStateFields =? 0 then None else
  if UserState.Suppress us || negb (aclCheck EqualFold s (SubjectOf sender) ch PermissionMuteDeafen)
  then Some (deny ch DenyPermission (str "No mute/deafen permission"%string)) else
  if Z.land (UserState.SetFields us) (Z.lor (Z.lor UserState.SetMute UserState.SetDeaf) UserState.SetSuppress) =? 0 then None else
  if match firstPermanentChannel s ch with
     | None => true
     | Some permanent => negb (aclCheck EqualFold s (SubjectOf sender) permanent PermissionMuteDeafen)
     end
  then Some (deny ch DenyTemporaryChannel (str "No mute/deafen permission outside temporary channel"%string)) else None.

(** The part the comment and the texture share: an administrator may only
    clear them. *)
Definition reset_denied s (sender target : User.t) (empty : bool) (reason : gostring) : option message :=
  if negb (aclCheck EqualFold s (SubjectOf sender) Channels.rootChannelID PermissionResetUser)
  then Some (deny Channels.rootChannelID DenyPermission (str "No permission to reset user content"%string)) else
  if negb empty then Some (deny (User.ChannelID target) DenyTextTooLong reason) else None.
Definition too_long (max len : Z) : bool := (0 <? max) && (max <? len).
Definition comment_denied c (sender target : User.t) (isAdminOp : bool) (us : UserState.t) : option message :=
  if negb (UserState.Has us UserState.SetComment) then None else
  match (if isAdminOp then reset_denied (srv c) sender target (bool_decide (UserState.Comment us = [])) (str "May only clear another user's comment"%string) else None) with
  | Some d => Some d
  | None => if too_long (maxTextBytes (settings c)) (zlen (UserState.Comment us))
            then Some (deny (User.ChannelID target) DenyTextTooLong (str "Comment too long"%string)) else None
  end.
Definition texture_denied c (sender target : User.t) (isAdminOp : bool) (us : UserState.t) : option message :=
  if negb (UserState.Has us UserState.SetTexture) then None else
  if too_long (maxImageBytes (settings c)) (zlen (UserState.Texture us))
  then Some (deny (User.ChannelID target) DenyTextTooLong (str "Texture too large"%string)) else
  if isAdminOp then reset_denied (srv c) sender target (bool_decide (UserState.Texture us = [])) (str "May only clear another user's texture"%string)
  else None.
(** [cid] exists and is not the channel the target is in. *)
Definition move_denied s (sender target : User.t) (isAdminOp : bool) (cid : Z) : option message :=
  let ch := User.ChannelID target in
  if isAdminOp && negb (aclCheck EqualFold s (SubjectOf sender) ch PermissionMove)
  then Some (deny ch DenyPermission (str "No move permission"%string)) else
  if negb (aclCheck EqualFold s (SubjectOf sender) cid PermissionMove) && negb (aclCheck EqualFold s (SubjectOf target) cid PermissionEnter)
  then Some (deny cid DenyPermission (str "Permission denied"%string)) else
  if channelIsFull EqualFold s cid (SubjectOf sender) then Some (deny cid DenyChannelFull (str "Channel is full"%string)) else None.

(** ** The changes *)

(** The move: the new state, the permissions sent to a user who moves
    itself, and whether the target may speak there. *)
Definition move s (rf : SessionRef) (tsid : Z) (target : User.t) (cid : Z) : Server DB * list effect * bool :=
  let old := User.ChannelID target in
  let s := setChannel s tsid cid in
  let target := target <| User.ChannelID := cid |> in
  let s := invalidateACLCache s in
  let s := updateChannelCrypto (updateChannelCrypto s old) cid in
  let e := if tsid =? SessionID rf then
      sendControl s tsid (MPermissionQuery (PermissionQuery.zero <| PermissionQuery.ChannelID := cid |>
        <| PermissionQuery.Permissions := u32 (aclPermissions EqualFold s (SubjectOf target) cid) |>))
    else [] in
  (s, e, maySpeak EqualFold s (SubjectOf target) cid).

(** The closure given to [UpdateUser]: the user, the message as the cascade
    leaves it, and the two flips of entering a channel. [moved] is the right to
    speak in the new channel. *)
Definition apply_fields (us : UserState.t) (moved : option bool) (u : User.t) : User.t * UserState.t * bool * bool :=
  let '(v, us) := applySelfVoiceState (User.Voice u) us in
  let '(v, us) := applyAdminVoiceState v us in
  let '(v, pc, sc) := match moved with Some may => applyChannelEnterEffects v may | None => (v, false, false) end in
  let u := u <| User.Voice := v |> in
  let u := if UserState.Has us UserState.SetTexture then u <| User.Texture := UserState.Texture us |> else u in
  let u := if UserState.Has us UserState.SetComment then u <| User.Comment := UserState.Comment us |> else u in
  let u := if UserState.Has us UserState.SetPluginIdentity then u <| User.PluginIdentity := UserState.PluginIdentity us |> else u in
  let u := if UserState.Has us UserState.SetPluginContext then u <| User.PluginContext := UserState.PluginContext us |> else u in
  (u, us, pc, sc).

(** The message as it is echoed. *)
Definition echo (us : UserState.t) (pc sc : bool) (updated : User.t) : UserState.t :=
  let us := if pc then mark (us <| UserState.PrioritySpeaker := false |>) UserState.SetPrioritySpeaker else us in
  let us := if sc then mark (us <| UserState.Suppress := Suppress (User.Voice updated) |>) UserState.SetSuppress else us in
  let us := unmark (us <| UserState.PluginContext := [] |> <| UserState.PluginIdentity := [] |>) pluginUserStateFields in
  us.
Definition addressed_echo (us : UserState.t) (tsid actor : Z) : UserState.t :=
  mark (us <| UserState.Session := tsid |> <| UserState.Actor := actor |>) (Z.lor UserState.SetSession UserState.SetActor).

Definition finish s (rf : SessionRef) (tsid : Z) (us : UserState.t) (moved : option bool) : Server DB * list effect :=
  match Snapshot (srv_users s) tsid with
  | None => (s, [])
  | Some live =>
      let '(_, us', pc, sc) := apply_fields us moved live in
      let '(s, updated) := updateUser s tsid (fun u => (apply_fields us moved u).1.1.1) in
      match updated with
      | None => (s, [])
      | Some updated =>
          let us := echo us' pc sc updated in
          if Z.land (UserState.SetFields us) broadcastUserStateFields =? 0 then (s, []) else
          let us := addressed_echo us tsid (SessionID rf) in
          (s, Broadcast s 0 (MUserState us) ++
              match moved with Some _ => RefreshEnterStatesFor EqualFold s tsid | None => [] end ++
              (if UserState.Has us UserState.SetRecording
               then broadcastRecordingAnnouncement s (User.Name updated) (Recording (User.Voice updated)) else []))
      end
  end.

(** ** The handler *)

(** From the channel of the message on. *)
Definition change s (rf : SessionRef) (tsid : Z) (sender target : User.t) (isAdminOp : bool) (us : UserState.t) : Server DB * list effect :=
  if UserState.Has us UserState.SetChannelID then
    let cid := UserState.ChannelID us in
    match Channels.GetChannel (srv_chans s) cid with
    | None => (s, [])
    | Some _ =>
        if cid =? User.ChannelID target then (s, []) else
        match move_denied s sender target isAdminOp cid with
        | Some d => (s, write rf d)
        | None =>
            let '(s, e, may) := move s rf tsid target cid in
            let '(s, e') := finish s rf tsid us (Some may) in (s, e ++ e')
        end
    end
  else finish s rf tsid us None.

(** What follows the listening part. *)
Definition fields c (rf : SessionRef) (tsid : Z) (sender target : User.t) (isAdminOp : bool) (us : UserState.t) : Core DB * list effect :=
  if UserState.SetFields us =? 0 then (c, []) else
  if isAdminOp && negb (Z.land (UserState.SetFields us) selfOnlyUserStateFields =? 0) then (c, []) else
  match admin_voice_denied (srv c) sender target us with
  | Some d => (c, write rf d)
  | None =>
  match comment_denied c sender target isAdminOp us with
  | Some d => (c, write rf d)
  | None =>
  match texture_denied c sender target isAdminOp us with
  | Some d => (c, write rf d)
  | None =>
      if UserState.Has us UserState.SetRecording && UserState.Recording us && negb (Recording (User.Voice target)) && negb (allowRecording (settings c)) then
        (c, sendThenClose (srv c) (mkRef tsid (User.SessionGeneration target))
          (MUserRemove (UserRemove.zero <| UserRemove.Session := tsid |> <| UserRemove.Reason := str "Recording is not allowed on this server"%string |>))) else
      let us := if UserState.Has us UserState.SetRecording && eqb (UserState.Recording us) (Recording (User.Voice target))
                then unmark us UserState.SetRecording else us in
      if Z.land (UserState.SetFields us) handledUserStateFields =? 0 then (c, []) else
      let '(s, e) := change (srv c) rf tsid sender target isAdminOp us in (c <| srv := s |>, e)
  end end end.

(** What follows the checks of the target. *)
Definition request (now : Z) c (rf : SessionRef) (tsid : Z) (sender target : User.t) (us : UserState.t) : Core DB * list effect :=
  let isAdminOp := negb (tsid =? SessionID rf) in
  if User.IsSuperUser target && negb (User.IsSuperUser sender)
  then (c, write rf (deny (User.ChannelID target) DenySuperUser (str "Cannot modify SuperUser"%string))) else
  if UserState.Has us UserState.SetName then (c, write rf (deny 0 DenyUserName [])) else
  let '(c, ok) := if isAdminOp then (c, true) else checkUserStateRateLimit now c (SessionID rf) in
  if negb ok then (c, []) else
  let us := unmark (us <| UserState.UserID := 0 |> <| UserState.TemporaryAccessTokens := [] |>) UserState.SetUserID in
  let add := UserState.ListeningChannelAdd us in
  let remove := UserState.ListeningChannelRemove us in
  let vols := UserState.ListeningVolumeAdjustment us in
  let us := us <| UserState.ListeningChannelAdd := [] |> <| UserState.ListeningChannelRemove := [] |> <| UserState.ListeningVolumeAdjustment := [] |> in
  let hasListening := (0 <? zlen add) || (0 <? zlen remove) || (0 <? zlen vols) in
  if hasListening && isAdminOp then (c, []) else
  let '(c, e) := if hasListening then applyListening EqualFold c rf target add remove vols else (c, []) in
  let '(c, e') := fields c rf tsid sender target isAdminOp us in (c, e ++ e').

Definition target_session (rf : SessionRef) (us : UserState.t) : Z :=
  if negb (UserState.Has us UserState.SetSession) || (UserState.Session us =? SessionID rf) then SessionID rf else UserState.Session us.

(** [rf] is the session of the peer, [now] the clock of the rate limit. The
    last component is the error the handler returns. *)
Definition handleUserState (now : Z) c (rf : SessionRef) (payload : bytes) : Core DB * list effect * option wire_error :=
  if negb (Active (srv_registry (srv c)) rf) then (c, [], None) else
  match UserState.Unmarshal UserState.zero payload with
  | (_, Some e) => (c, [], Some e)
  | (us, None) =>
      match Snapshot (srv_users (srv c)) (SessionID rf), Snapshot (srv_users (srv c)) (target_session rf us) with
      | Some sender, Some target => let '(c, e) := request now c rf (target_session rf us) sender target us in (c, e, None)
      | _, _ => (c, [], None)
      end
  end.

(** ** What one message does to the user *)

Record changed (us : UserState.t) (moved : option bool) (u u' : User.t) : Prop := {
  ch_frame : u' = u <| User.Voice := User.Voice u' |> <| User.Texture := User.Texture u' |> <| User.Comment := User.Comment u' |>
    <| User.PluginIdentity := User.PluginIdentity u' |> <| User.PluginContext := User.PluginContext u' |>;
  ch_self : UserState.Has us UserState.SetSelfMute = false -> UserState.Has us UserState.SetSelfDeaf = false ->
    SelfMute (User.Voice u') = SelfMute (User.Voice u) /\ SelfDeaf (User.Voice u') = SelfDeaf (User.Voice u);
  ch_recording : Recording (User.Voice u') = if UserState.Has us UserState.SetRecording then UserState.Recording us else Recording (User.Voice u);
  ch_admin : UserState.Has us UserState.SetMute = false -> UserState.Has us UserState.SetDeaf = false ->
    Mute (User.Voice u') = Mute (User.Voice u) /\ Deaf (User.Voice u') = Deaf (User.Voice u);
  ch_suppress : Suppress (User.Voice u') = match moved with
    | Some may => negb may
    | None => if UserState.Has us UserState.SetSuppress then UserState.Suppress us else Suppress (User.Voice u) end;
  ch_priority : PrioritySpeaker (User.Voice u') = match moved with
    | Some _ => false
    | None => if UserState.Has us UserState.SetPrioritySpeaker then UserState.PrioritySpeaker us else PrioritySpeaker (User.Voice u) end;
  ch_texture : User.Texture u' = if UserState.Has us UserState.SetTexture then UserState.Texture us else User.Texture u;
  ch_comment : User.Comment u' = if UserState.Has us UserState.SetComment then UserState.Comment us else User.Comment u;
  ch_identity : User.PluginIdentity u' = if UserState.Has us UserState.SetPluginIdentity then UserState.PluginIdentity us else User.PluginIdentity u;
  ch_context : User.PluginContext u' = if UserState.Has us UserState.SetPluginContext then UserState.PluginContext us else User.PluginContext u }.

Lemma apply_fields_changed us moved u : changed us moved u (apply_fields us moved u).1.1.1.
Proof.
  unfold apply_fields. pose proof (applySelfVoiceState_effect (User.Voice u) us) as S. destruct (applySelfVoiceState (User.Voice u) us) as [v1 us1].
  pose proof (applyAdminVoiceState_effect v1 us1) as A. destruct (applyAdminVoiceState v1 us1) as [v2 us2].
  destruct S as [(S1 & S2 & S3 & S4) S5 S6 _ S7 S8], A as [(A1 & A2 & A3) A4 A5 A6 _ A7 A8]. unfold same_bit in *.
  assert (forall bit, Z.land (Z.lor UserState.SetSelfMute UserState.SetSelfDeaf) bit = 0 -> Z.land (Z.lor UserState.SetMute UserState.SetDeaf) bit = 0 ->
    UserState.Has us2 bit = UserState.Has us bit) as B by (intros bit H1 H2; by rewrite (A8 bit H2), (S8 bit H1)).
  assert (UserState.Texture us2 = UserState.Texture us /\ UserState.Comment us2 = UserState.Comment us /\
    UserState.PluginIdentity us2 = UserState.PluginIdentity us /\ UserState.PluginContext us2 = UserState.PluginContext us) as (F1 & F2 & F3 & F4)
    by (rewrite A7, S7; done).
  set (w := match moved with Some may => _ | None => _ end).
  assert (SelfMute w.1.1 = SelfMute v2 /\ SelfDeaf w.1.1 = SelfDeaf v2 /\ Recording w.1.1 = Recording v2 /\ Mute w.1.1 = Mute v2 /\ Deaf w.1.1 = Deaf v2 /\
    Suppress w.1.1 = match moved with Some may => negb may | None => Suppress v2 end /\
    PrioritySpeaker w.1.1 = match moved with Some _ => false | None => PrioritySpeaker v2 end) as (W1 & W2 & W3 & W4 & W5 & W6 & W7).
  { unfold w. destruct moved as [may|]; [|done]. pose proof (enter_effects v2 may) as K. destruct (applyChannelEnterEffects v2 may) as [[v pc] sc].
    cbn. by destruct K as (? & ? & _ & _ & _ & ? & ? & ? & ? & ?). }
  destruct w as [[v3 pc] sc]. cbn [fst snd] in *.
  rewrite !(B UserState.SetTexture), !(B UserState.SetComment), !(B UserState.SetPluginIdentity), !(B UserState.SetPluginContext), F1, F2, F3, F4 by done.
  assert (UserState.Has us1 UserState.SetMute = UserState.Has us UserState.SetMute /\ UserState.Has us1 UserState.SetDeaf = UserState.Has us UserState.SetDeaf /\
    UserState.Has us1 UserState.SetSuppress = UserState.Has us UserState.SetSuppress /\
    UserState.Has us1 UserState.SetPrioritySpeaker = UserState.Has us UserState.SetPrioritySpeaker) as (B1 & B2 & B3 & B4)
    by (rewrite !S8 by done; done).
  assert (UserState.Suppress us1 = UserState.Suppress us /\ UserState.PrioritySpeaker us1 = UserState.PrioritySpeaker us) as [F5 F6] by (rewrite S7; done).
  destruct u as [u1 u2 u3 u4 u5 u6 u7 u8 u9 u10 u11 u12 u13 uv u15 u16 u17 u18 u19 u20 u21 u22 u23 u24]. cbn [User.Voice] in *.
  destruct (UserState.Has us UserState.SetTexture) eqn:T1, (UserState.Has us UserState.SetComment) eqn:T2,
    (UserState.Has us UserState.SetPluginIdentity) eqn:T3, (UserState.Has us UserState.SetPluginContext) eqn:T4; cbn; split; cbn;
    rewrite ?T1, ?T2, ?T3, ?T4, ?W1, ?W2, ?W3, ?W4, ?W5, ?W6, ?W7, ?A1, ?A2, ?A3, ?A5, ?A6, ?B1, ?B2, ?B3, ?B4, ?S3, ?S4, ?S6, ?F5, ?F6; try done;
    intros H1 H2; first [by apply S5|rewrite <- S1, <- S2; apply A4; congruence].
Qed.

(** ** Who may do what *)

Lemma settled_frame fn u : settled fn u = (fn u) <| User.SessionGeneration := User.SessionGeneration u |>
  <| User.AuthorizationRevision := User.AuthorizationRevision (settled fn u) |>.
Proof. unfold settled, settle. by case_match. Qed.

Lemma apply_fields_keeps us moved : keeps_session (fun u => (apply_fields us moved u).1.1.1) /\ keeps_name (fun u => (apply_fields us moved u).1.1.1).
Proof. split; intros u; by rewrite (ch_frame _ _ _ _ (apply_fields_changed us moved u)). Qed.

(** The user after the update: what [changed] says, up to the revision. *)
Definition updated_to (us : UserState.t) (moved : option bool) (u u' : User.t) : Prop :=
  exists v r, changed us moved u v /\ User.SessionGeneration v = User.SessionGeneration u /\ u' = v <| User.AuthorizationRevision := r |>.
Lemma settled_changed us moved u : updated_to us moved u (settled (fun u => (apply_fields us moved u).1.1.1) u).
Proof.
  pose proof (apply_fields_changed us moved u) as C. set (fn := fun u => (apply_fields us moved u).1.1.1). fold (fn u) in C.
  exists (fn u), (User.AuthorizationRevision (settled fn u)). split; [done|].
  assert (User.SessionGeneration (fn u) = User.SessionGeneration u) as E by (by rewrite (ch_frame _ _ _ _ C)).
  split; [done|]. rewrite (settled_frame fn u) at 1. rewrite <- E. by destruct (fn u).
Qed.

Lemma finish_exact s rf tsid us moved live : live_ok EqualFold s -> Snapshot (srv_users s) tsid = Some live ->
  let '(s', e) := finish s rf tsid us moved in live_ok EqualFold s' /\ same_rest s s' /\ srv_listeners s' = srv_listeners s /\
    forall sid, Snapshot (srv_users s') sid = if decide (sid = tsid) then Some (settled (fun u => (apply_fields us moved u).1.1.1) live) else Snapshot (srv_users s) sid.
Proof.
  intros L Hl. unfold finish. rewrite Hl. destruct (apply_fields us moved live) as [[[u us'] pc] sc].
  destruct (apply_fields_keeps us moved) as [K1 K2].
  pose proof (updateUser_exact EqualFold s tsid _ L K1 K2) as H. destruct (updateUser s tsid _) as [s' o]. destruct H as (-> & L' & R & HL & _ & H).
  rewrite Hl in H |- *. cbn [fmap option_fmap option_map]. destruct (Z.land _ broadcastUserStateFields =? 0); done.
Qed.

Lemma setChannel_exact s tsid cid target : live_ok EqualFold s -> Snapshot (srv_users s) tsid = Some target ->
  live_ok EqualFold (setChannel s tsid cid) /\ same_rest s (setChannel s tsid cid) /\ srv_listeners (setChannel s tsid cid) = srv_listeners s /\
  forall sid, Snapshot (srv_users (setChannel s tsid cid)) sid =
    if decide (sid = tsid) then Some (settled (fun u => u <| User.ChannelID := cid |>) target) else Snapshot (srv_users s) sid.
Proof.
  intros L Ht. unfold setChannel. pose proof (updateUser_exact EqualFold s tsid (fun u => u <| User.ChannelID := cid |>) L ltac:(by intros u) ltac:(by intros u)) as H.
  destruct (updateUser s tsid _) as [s' o]. destruct H as (_ & L' & R & HL & _ & H). cbn. rewrite Ht in H. done.
Qed.
Lemma move_exact s rf tsid target cid : live_ok EqualFold s -> Snapshot (srv_users s) tsid = Some target ->
  let '(s', e, may) := move s rf tsid target cid in live_ok EqualFold s' /\ same_rest s s' /\ srv_listeners s' = srv_listeners s /\
    forall sid, Snapshot (srv_users s') sid = if decide (sid = tsid) then Some (settled (fun u => u <| User.ChannelID := cid |>) target) else Snapshot (srv_users s) sid.
Proof.
  intros L Ht. destruct (setChannel_exact s tsid cid target L Ht) as (L1 & R1 & HL & H1). unfold move. cbn.
  split; [by apply updateChannelCrypto_ok, updateChannelCrypto_ok, invalidateACLCache_ok|]. split; [|done]. unfold same_rest in *. cbn. exact R1.
Qed.

(** [sender] may act on [u] as [rf] so that it becomes [u']. *)
Record authorized c (rf : SessionRef) (sender u u' : User.t) : Prop := {
  au_active : Active (srv_registry (srv c)) rf = true;
  au_super : User.IsSuperUser u = true -> User.IsSuperUser sender = true;
  au_frame : u' = u <| User.Voice := User.Voice u' |> <| User.Texture := User.Texture u' |> <| User.Comment := User.Comment u' |>
    <| User.PluginIdentity := User.PluginIdentity u' |> <| User.PluginContext := User.PluginContext u' |> <| User.ChannelID := User.ChannelID u' |>
    <| User.AuthorizationRevision := User.AuthorizationRevision u' |>;
  au_self : User.SessionID u <> SessionID rf ->
    SelfMute (User.Voice u') = SelfMute (User.Voice u) /\ SelfDeaf (User.Voice u') = SelfDeaf (User.Voice u) /\
    Recording (User.Voice u') = Recording (User.Voice u) /\ User.PluginIdentity u' = User.PluginIdentity u /\ User.PluginContext u' = User.PluginContext u;
  au_recording : Recording (User.Voice u) = false -> Recording (User.Voice u') = true -> allowRecording (settings c) = true;
  au_mute : (Mute (User.Voice u'), Deaf (User.Voice u')) <> (Mute (User.Voice u), Deaf (User.Voice u)) \/
      (Suppress (User.Voice u') <> Suppress (User.Voice u) /\ User.ChannelID u' = User.ChannelID u) ->
    may EqualFold (srv c) (SubjectOf sender) (User.ChannelID u) PermissionMuteDeafen = true /\
    exists p, firstPermanentChannel (srv c) (User.ChannelID u) = Some p /\ may EqualFold (srv c) (SubjectOf sender) p PermissionMuteDeafen = true;
  au_suppress : User.ChannelID u' = User.ChannelID u -> Suppress (User.Voice u) = false -> Suppress (User.Voice u') = false;
  au_priority : PrioritySpeaker (User.Voice u) = false -> PrioritySpeaker (User.Voice u') = true ->
    may EqualFold (srv c) (SubjectOf sender) (User.ChannelID u) PermissionMuteDeafen = true;
  au_comment : User.Comment u' <> User.Comment u -> too_long (maxTextBytes (settings c)) (zlen (User.Comment u')) = false /\
    (User.SessionID u <> SessionID rf -> User.Comment u' = [] /\ may EqualFold (srv c) (SubjectOf sender) Channels.rootChannelID PermissionResetUser = true);
  au_texture : User.Texture u' <> User.Texture u -> too_long (maxImageBytes (settings c)) (zlen (User.Texture u')) = false /\
    (User.SessionID u <> SessionID rf -> User.Texture u' = [] /\ may EqualFold (srv c) (SubjectOf sender) Channels.rootChannelID PermissionResetUser = true);
  au_move : User.ChannelID u' <> User.ChannelID u -> is_Some (Channels.GetChannel (srv_chans (srv c)) (User.ChannelID u')) /\
    (User.SessionID u <> SessionID rf -> may EqualFold (srv c) (SubjectOf sender) (User.ChannelID u) PermissionMove = true) /\
    (may EqualFold (srv c) (SubjectOf sender) (User.ChannelID u') PermissionMove = true \/
     may EqualFold (srv c) (SubjectOf u) (User.ChannelID u') PermissionEnter = true) /\
    channelIsFull EqualFold (srv c) (User.ChannelID u') (SubjectOf sender) = false }.
(** ** From the guards to the permissions *)

(** What the guards of [fields] establish of the message [us]. *)
Record guarded c (sender target : User.t) (isAdminOp : bool) (us : UserState.t) : Prop := {
  gd_self : isAdminOp = true -> forall bit, Z.land selfOnlyUserStateFields bit = bit -> UserState.Has us bit = false;
  gd_recording : UserState.Has us UserState.SetRecording = true -> UserState.Recording us = true ->
    Recording (User.Voice target) = false -> allowRecording (settings c) = true;
  gd_voice : forall bit, Z.land adminVoiceUserStateFields bit = bit -> UserState.Has us bit = true ->
    UserState.Suppress us = false /\ may EqualFold (srv c) (SubjectOf sender) (User.ChannelID target) PermissionMuteDeafen = true;
  gd_mute : forall bit, Z.land (Z.lor (Z.lor UserState.SetMute UserState.SetDeaf) UserState.SetSuppress) bit = bit -> UserState.Has us bit = true ->
    exists p, firstPermanentChannel (srv c) (User.ChannelID target) = Some p /\ may EqualFold (srv c) (SubjectOf sender) p PermissionMuteDeafen = true;
  gd_comment : UserState.Has us UserState.SetComment = true -> too_long (maxTextBytes (settings c)) (zlen (UserState.Comment us)) = false /\
    (isAdminOp = true -> UserState.Comment us = [] /\ may EqualFold (srv c) (SubjectOf sender) Channels.rootChannelID PermissionResetUser = true);
  gd_texture : UserState.Has us UserState.SetTexture = true -> too_long (maxImageBytes (settings c)) (zlen (UserState.Texture us)) = false /\
    (isAdminOp = true -> UserState.Texture us = [] /\ may EqualFold (srv c) (SubjectOf sender) Channels.rootChannelID PermissionResetUser = true) }.

Lemma has_group us group bit : Z.land group bit = bit -> UserState.Has us bit = true -> (Z.land (UserState.SetFields us) group =? 0) = false.
Proof.
  unfold UserState.Has. rewrite negb_true_iff, !Z.eqb_neq. intros G H E. apply H. rewrite <- G, Z.land_assoc, E. done.
Qed.
Lemma unmark_has us bits bit : Z.land bits bit = 0 -> UserState.Has (unmark us bits) bit = UserState.Has us bit.
Proof.
  intros H. unfold UserState.Has, unmark. cbn -[Z.ldiff]. do 2 f_equal. apply Z.bits_inj'. intros n Hn.
  rewrite !Z.land_spec, Z.ldiff_spec. assert (Z.testbit (Z.land bits bit) n = false) as B by (by rewrite H, Z.bits_0).
  rewrite Z.land_spec in B. destruct (Z.testbit bits n), (Z.testbit bit n); cbn in *; try done; by rewrite ?andb_true_r, ?andb_false_r.
Qed.
Lemma unmark_gone us bit : UserState.Has (unmark us bit) bit = false.
Proof.
  unfold UserState.Has, unmark. cbn -[Z.ldiff]. apply negb_false_iff, Z.eqb_eq. apply Z.bits_inj'. intros n Hn.
  rewrite Z.land_spec, Z.ldiff_spec, Z.bits_0. by destruct (Z.testbit bit n), (Z.testbit (UserState.SetFields us) n).
Qed.
Lemma reset_denied_none s sender target empty reason : live_ok EqualFold s -> reset_denied s sender target empty reason = None ->
  empty = true /\ may EqualFold s (SubjectOf sender) Channels.rootChannelID PermissionResetUser = true.
Proof.
  intros L. unfold reset_denied. rewrite (aclCheck_current _ s) by apply L. by destruct (may _ _ _ _ _), empty.
Qed.
Lemma admin_voice_denied_none s sender target us bit : live_ok EqualFold s -> admin_voice_denied s sender target us = None ->
  Z.land adminVoiceUserStateFields bit = bit -> UserState.Has us bit = true ->
  UserState.Suppress us = false /\ may EqualFold s (SubjectOf sender) (User.ChannelID target) PermissionMuteDeafen = true /\
  (Z.land (Z.lor (Z.lor UserState.SetMute UserState.SetDeaf) UserState.SetSuppress) bit = bit ->
   exists p, firstPermanentChannel s (User.ChannelID target) = Some p /\ may EqualFold s (SubjectOf sender) p PermissionMuteDeafen = true).
Proof.
  intros L E G H. revert E. unfold admin_voice_denied. rewrite (has_group us _ bit) by done. rewrite (aclCheck_current _ s) by apply L.
  destruct (UserState.Suppress us), (may _ _ _ _ _); cbn [negb orb]; try done. intros E. do 2 (split; [done|]). intros G'.
  rewrite (has_group us _ bit) in E by done. destruct (firstPermanentChannel s _) as [p|]; [|done]. exists p. split; [done|].
  rewrite (aclCheck_current _ s) in E by apply L. by destruct (may _ _ _ p _).
Qed.

Lemma guards_hold c sender target isAdminOp us : live_ok EqualFold (srv c) ->
  isAdminOp && negb (Z.land (UserState.SetFields us) selfOnlyUserStateFields =? 0) = false ->
  admin_voice_denied (srv c) sender target us = None -> comment_denied c sender target isAdminOp us = None ->
  texture_denied c sender target isAdminOp us = None ->
  UserState.Has us UserState.SetRecording && UserState.Recording us && negb (Recording (User.Voice target)) && negb (allowRecording (settings c)) = false ->
  guarded c sender target isAdminOp us.
Proof.
  intros L G1 G2 G3 G4 G5. split.
  - intros -> bit Hb. destruct (UserState.Has us bit) eqn:H; [|done]. by rewrite (has_group us _ bit Hb H) in G1.
  - intros H1 H2 H3. rewrite H1, H2, H3 in G5. by destruct (allowRecording (settings c)).
  - intros bit Hb H. by destruct (admin_voice_denied_none _ _ _ _ _ L G2 Hb H) as (? & ? & _).
  - intros bit Hb H. apply (admin_voice_denied_none _ _ _ _ bit L G2); [|done|done]. rewrite <- Hb, Z.land_assoc. done.
  - intros H. revert G3. unfold comment_denied. rewrite H. cbn [negb]. destruct isAdminOp.
    + destruct (reset_denied _ _ _ _ _) eqn:R; [done|]. apply reset_denied_none in R as [R1 R2]; [|done]. apply bool_decide_eq_true in R1. by destruct (too_long _ _).
    + by destruct (too_long _ _).
  - intros H. revert G4. unfold texture_denied. rewrite H. cbn [negb]. destruct (too_long _ _); [done|]. intros G4. split; [done|].
    intros ->. apply reset_denied_none in G4 as [R1 R2]; [|done]. by apply bool_decide_eq_true in R1.
Qed.
Lemma guarded_unmark c sender target isAdminOp us : guarded c sender target isAdminOp us ->
  guarded c sender target isAdminOp (unmark us UserState.SetRecording).
Proof.
  assert (forall bit, UserState.Has (unmark us UserState.SetRecording) bit = true -> UserState.Has us bit = true) as Hm.
  { intros bit. unfold UserState.Has, unmark. cbn -[Z.ldiff UserState.SetRecording]. rewrite !negb_true_iff, !Z.eqb_neq. intros H E. apply H.
    rewrite Z.ldiff_land, <- Z.land_assoc, (Z.land_comm _ bit), Z.land_assoc, E. done. }
  intros [G1 G2 G3 G4 G5 G6]. split.
  - intros Ha bit Hb. destruct (UserState.Has (unmark us _) bit) eqn:H; [|done]. apply Hm in H. by rewrite G1 in H.
  - intros H. by rewrite unmark_gone in H.
  - intros bit Hb H. eapply G3; eauto.
  - intros bit Hb H. eapply G4; eauto.
  - intros H. apply G5, Hm, H.
  - intros H. apply G6, Hm, H.
Qed.
(** ** The outcome of the change *)

(** The target after [change], as long as it changed. *)
Inductive outcome s (sender target : User.t) (isAdminOp : bool) (us : UserState.t) (u' : User.t) : Prop :=
  | stays : UserState.Has us UserState.SetChannelID = false -> updated_to us None target u' -> outcome s sender target isAdminOp us u'
  | moves (speak : bool) (r : Z) : UserState.Has us UserState.SetChannelID = true ->
      is_Some (Channels.GetChannel (srv_chans s) (UserState.ChannelID us)) -> UserState.ChannelID us <> User.ChannelID target ->
      move_denied s sender target isAdminOp (UserState.ChannelID us) = None ->
      updated_to us (Some speak) (target <| User.ChannelID := UserState.ChannelID us |> <| User.AuthorizationRevision := r |>) u' ->
      outcome s sender target isAdminOp us u'.

Definition only_target s s' (tsid : Z) (P : User.t -> Prop) : Prop :=
  live_ok EqualFold s' /\ same_rest s s' /\ srv_listeners s' = srv_listeners s /\
  forall sid, Snapshot (srv_users s') sid = Snapshot (srv_users s) sid \/ sid = tsid /\ exists u', Snapshot (srv_users s') sid = Some u' /\ P u'.
Lemma only_target_refl s tsid P : live_ok EqualFold s -> only_target s s tsid P.
Proof. intros L. split; [done|]. do 2 (split; [done|]). intros sid. by left. Qed.

Lemma change_outcome s rf tsid sender target isAdminOp us : live_ok EqualFold s -> Snapshot (srv_users s) tsid = Some target ->
  only_target s (change s rf tsid sender target isAdminOp us).1 tsid (outcome s sender target isAdminOp us).
Proof.
  intros L Ht. unfold change. destruct (UserState.Has us UserState.SetChannelID) eqn:Hc.
  - destruct (Channels.GetChannel _ _) eqn:Hg; [|by apply only_target_refl]. case_match eqn:Hq; [by apply only_target_refl|]. apply Z.eqb_neq in Hq.
    destruct (move_denied _ _ _ _ _) eqn:Hd; [by apply only_target_refl|].
    pose proof (move_exact s rf tsid target (UserState.ChannelID us) L Ht) as M. destruct (move s rf tsid target _) as [[s1 e1] may1].
    destruct M as (L1 & R1 & HL1 & M). assert (Snapshot (srv_users s1) tsid = Some (settled (fun u => u <| User.ChannelID := UserState.ChannelID us |>) target)) as Ht1
      by (by rewrite M, decide_True).
    pose proof (finish_exact s1 rf tsid us (Some may1) _ L1 Ht1) as F. destruct (finish s1 rf tsid us (Some may1)) as [s2 e2].
    destruct F as (L2 & R2 & HL2 & F). cbn. split; [done|]. split; [by eapply same_rest_trans|]. split; [by rewrite HL2|].
    intros sid. rewrite F. destruct (decide (sid = tsid)) as [->|Hn]; [|left; by rewrite M, decide_False]. right. split; [done|]. eexists. split; [done|].
    eapply (moves _ _ _ _ _ _ may1 (User.AuthorizationRevision (settled (fun u => u <| User.ChannelID := UserState.ChannelID us |>) target))); [done|by eexists|done|done|].
    pose proof (settled_changed us (Some may1) (settled (fun u => u <| User.ChannelID := UserState.ChannelID us |>) target)) as U.
    rewrite (settled_frame _ target) in U at 1. by destruct target.
  - pose proof (finish_exact s rf tsid us None _ L Ht) as F. destruct (finish s rf tsid us None) as [s2 e2].
    destruct F as (L2 & R2 & HL2 & F). cbn. split; [done|]. do 2 (split; [done|]). intros sid. rewrite F.
    destruct (decide (sid = tsid)) as [->|Hn]; [|by left]. right. split; [done|]. eexists. split; [done|]. apply stays; [done|]. apply settled_changed.
Qed.

Lemma move_denied_none s sender target isAdminOp cid : live_ok EqualFold s -> move_denied s sender target isAdminOp cid = None ->
  (isAdminOp = true -> may EqualFold s (SubjectOf sender) (User.ChannelID target) PermissionMove = true) /\
  (may EqualFold s (SubjectOf sender) cid PermissionMove = true \/ may EqualFold s (SubjectOf target) cid PermissionEnter = true) /\
  channelIsFull EqualFold s cid (SubjectOf sender) = false.
Proof.
  intros L. unfold move_denied. rewrite !(aclCheck_current _ s) by apply L. destruct (channelIsFull _ _ _ _).
  - by destruct isAdminOp, (may _ _ _ _ PermissionMove), (may _ _ _ _ PermissionMove), (may _ _ _ _ PermissionEnter).
  - destruct isAdminOp, (may _ _ _ (User.ChannelID target) PermissionMove), (may _ _ _ cid PermissionMove), (may _ _ _ cid PermissionEnter);
      cbn; intros H; try done; split; auto.
Qed.
(** The two kinds of outcome share everything but the channel. *)
Lemma outcome_changed s sender target isAdminOp us u' : outcome s sender target isAdminOp us u' ->
  exists moved base v r, changed us moved base v /\ u' = v <| User.AuthorizationRevision := r |> /\
    base = target <| User.ChannelID := User.ChannelID u' |> <| User.AuthorizationRevision := User.AuthorizationRevision base |> /\
    (moved = None <-> User.ChannelID u' = User.ChannelID target).
Proof.
  intros [Hc (v & r & C & _ & ->)|speak r Hc _ Hn _ (v & r' & C & _ & ->)].
  - exists None, target, v, r. pose proof (ch_frame _ _ _ _ C) as F. assert (User.ChannelID v = User.ChannelID target) as E by (by rewrite F).
    split; [done|]. split; [done|]. cbn. split; [|done]. rewrite E. by destruct target.
  - eexists (Some speak), _, v, r'. split; [done|]. pose proof (ch_frame _ _ _ _ C) as F.
    assert (User.ChannelID v = UserState.ChannelID us) as E by (by rewrite F). split; [done|]. cbn. rewrite E. split; [by destruct target|]. split; [done|congruence].
Qed.

Lemma guarded_authorized c rf sender target us u' : live_ok EqualFold (srv c) -> Active (srv_registry (srv c)) rf = true ->
  (User.IsSuperUser target = true -> User.IsSuperUser sender = true) ->
  guarded c sender target (negb (User.SessionID target =? SessionID rf)) us ->
  outcome (srv c) sender target (negb (User.SessionID target =? SessionID rf)) us u' -> authorized c rf sender target u'.
Proof.
  intros L HA HS [G1 G2 G3 G4 G5 G6] O. assert (forall P : Prop, (negb (User.SessionID target =? SessionID rf) = true -> P) -> User.SessionID target <> SessionID rf -> P) as Hadm.
  { intros P HP Hne. apply HP. by apply negb_true_iff, Z.eqb_neq. }
  destruct (outcome_changed _ _ _ _ _ _ O) as (moved & base & v & r & C & Ev & Eb & Em).
  assert (User.Voice base = User.Voice target /\ User.Texture base = User.Texture target /\ User.Comment base = User.Comment target /\
    User.PluginIdentity base = User.PluginIdentity target /\ User.PluginContext base = User.PluginContext target) as (B1 & B2 & B3 & B4 & B5) by (rewrite Eb; done).
  assert (User.Voice u' = User.Voice v /\ User.Texture u' = User.Texture v /\ User.Comment u' = User.Comment v /\
    User.PluginIdentity u' = User.PluginIdentity v /\ User.PluginContext u' = User.PluginContext v) as (V1 & V2 & V3 & V4 & V5) by (rewrite Ev; done).
  destruct C as [F C1 C2 C3 C4 C5 C6 C7 C8 C9]. rewrite B1, ?B2, ?B3, ?B4, ?B5, <- ?V1, <- ?V2, <- ?V3, <- ?V4, <- ?V5 in *.
  split.
  - done.
  - done.
  - rewrite Ev at 1. rewrite F, Eb. cbn. rewrite Ev. cbn. by destruct target.
  - apply Hadm. intros Ha. rewrite C2, C8, C9, !(G1 Ha) by done. destruct C1 as [-> ->]; [by apply G1|by apply G1|done].
  - intros H1 H2. rewrite C2 in H2. destruct (UserState.Has us UserState.SetRecording) eqn:H; [by apply G2|congruence].
  - intros [H|[H Hc]].
    + assert (exists bit, Z.land (Z.lor (Z.lor UserState.SetMute UserState.SetDeaf) UserState.SetSuppress) bit = bit /\
        Z.land adminVoiceUserStateFields bit = bit /\ UserState.Has us bit = true) as (bit & K1 & K2 & K3).
      { destruct (UserState.Has us UserState.SetMute) eqn:E1; [by exists UserState.SetMute|]. destruct (UserState.Has us UserState.SetDeaf) eqn:E2; [by exists UserState.SetDeaf|].
        destruct (C3 eq_refl eq_refl). congruence. }
      split; [by eapply G3|by eapply G4].
    + apply Em in Hc. subst moved. destruct (UserState.Has us UserState.SetSuppress) eqn:E; [|congruence].
      split; [by apply (G3 UserState.SetSuppress)|by apply (G4 UserState.SetSuppress)].
  - intros Hc H. apply Em in Hc. subst moved. rewrite C4. destruct (UserState.Has us UserState.SetSuppress) eqn:E; [|done]. by apply (G3 UserState.SetSuppress).
  - intros H1 H2. rewrite C5 in H2. destruct moved; [done|]. destruct (UserState.Has us UserState.SetPrioritySpeaker) eqn:E; [|congruence].
    by apply (G3 UserState.SetPrioritySpeaker).
  - intros H. rewrite C7 in H |- *. destruct (UserState.Has us UserState.SetComment) eqn:E; [|done]. destruct (G5 eq_refl) as [K1 K2]. split; [done|]. by apply Hadm.
  - intros H. rewrite C6 in H |- *. destruct (UserState.Has us UserState.SetTexture) eqn:E; [|done]. destruct (G6 eq_refl) as [K1 K2]. split; [done|]. by apply Hadm.
  - intros H. destruct O as [Hc (w & r' & C & _ & ->)|speak r' Hc Hg Hn Hd (w & r'' & C & _ & ->)].
    + exfalso. apply H. cbn. by rewrite (ch_frame _ _ _ _ C).
    + cbn. replace (User.ChannelID w) with (UserState.ChannelID us) by (by rewrite (ch_frame _ _ _ _ C)). split; [done|].
      destruct (move_denied_none _ _ _ _ _ L Hd) as (K1 & K2 & K3). split; [by apply Hadm|done].
Qed.
(** The settings and the clocks a request leaves alone; users change as [P] says. *)
Definition core_target c c' (tsid : Z) (P : User.t -> Prop) : Prop :=
  settings c' = settings c /\ textRateLimiter c' = textRateLimiter c /\ live_ok EqualFold (srv c') /\ same_rest (srv c) (srv c') /\
  forall sid, Snapshot (srv_users (srv c')) sid = Snapshot (srv_users (srv c)) sid \/ sid = tsid /\ exists u', Snapshot (srv_users (srv c')) sid = Some u' /\ P u'.
Lemma core_target_refl c tsid P : live_ok EqualFold (srv c) -> core_target c c tsid P.
Proof. intros L. split; [done|]. split; [done|]. split; [done|]. split; [done|]. intros sid. by left. Qed.

Lemma fields_authorized c rf sender target us : live_ok EqualFold (srv c) -> Active (srv_registry (srv c)) rf = true ->
  (User.IsSuperUser target = true -> User.IsSuperUser sender = true) -> Snapshot (srv_users (srv c)) (User.SessionID target) = Some target ->
  core_target c (fields c rf (User.SessionID target) sender target (negb (User.SessionID target =? SessionID rf)) us).1 (User.SessionID target)
    (authorized c rf sender target).
Proof.
  intros L HA HS Ht. unfold fields. set (adm := negb (User.SessionID target =? SessionID rf)).
  case_match; [by apply core_target_refl|]. case_match eqn:G1; [by apply core_target_refl|].
  destruct (admin_voice_denied _ _ _ _) eqn:G2; [by apply core_target_refl|]. destruct (comment_denied _ _ _ _ _) eqn:G3; [by apply core_target_refl|].
  destruct (texture_denied _ _ _ _ _) eqn:G4; [by apply core_target_refl|]. case_match eqn:G5; [by apply core_target_refl|].
  pose proof (guards_hold c sender target adm us L G1 G2 G3 G4 G5) as G. set (us1 := if _ && eqb _ _ then _ else us).
  assert (guarded c sender target adm us1) as G' by (unfold us1; case_match; [by apply guarded_unmark|done]).
  case_match; [by apply core_target_refl|].
  pose proof (change_outcome (srv c) rf (User.SessionID target) sender target adm us1 L Ht) as (L' & R & _ & H1).
  destruct (change _ _ _ _ _ _ _) as [s' e]. cbn in *. do 2 (split; [done|]). split; [done|]. split; [done|]. intros sid.
  destruct (H1 sid) as [H1'|(-> & u' & H1' & O)]; [by left|]. right. split; [done|]. exists u'. split; [done|]. by eapply guarded_authorized.
Qed.

Lemma authorized_only_listeners c c' rf sender u u' : only_listeners c c' -> authorized c' rf sender u u' -> authorized c rf sender u u'.
Proof. intros E A. rewrite E in A. destruct A. split; assumption. Qed.

Lemma request_authorized now c rf sender target us : live_ok EqualFold (srv c) -> Active (srv_registry (srv c)) rf = true ->
  Snapshot (srv_users (srv c)) (User.SessionID target) = Some target ->
  core_target c (request now c rf (User.SessionID target) sender target us).1 (User.SessionID target) (authorized c rf sender target).
Proof.
  intros L HA Ht. unfold request. case_match eqn:G1; [by apply core_target_refl|].
  assert (User.IsSuperUser target = true -> User.IsSuperUser sender = true) as HS by (destruct (User.IsSuperUser target), (User.IsSuperUser sender); done).
  case_match; [by apply core_target_refl|].
  set (lim := if _ : bool then (c, true) else checkUserStateRateLimit now c (SessionID rf)).
  assert (srv lim.1 = srv c /\ settings lim.1 = settings c /\ textRateLimiter lim.1 = textRateLimiter c) as (E1 & E2 & E3).
  { unfold lim, checkUserStateRateLimit. case_match; [done|]. by destruct (rateLimitAllows _ _ _ _). }
  destruct lim as [c1 ok]. cbn [fst] in *.
  assert (forall c2 P, core_target c1 c2 (User.SessionID target) P -> core_target c c2 (User.SessionID target) P) as Hc1.
  { intros c2 P. unfold core_target. rewrite E1, E2, E3. done. }
  assert (live_ok EqualFold (srv c1)) as L1 by (by rewrite E1).
  destruct (negb ok); [apply Hc1; by apply core_target_refl|]. set (us1 := unmark _ _). set (has := (_ || _) || _).
  case_match; [apply Hc1; by apply core_target_refl|].
  set (li := if has then _ else _). assert (only_listeners c1 li.1 /\ tabled li.1) as [F T].
  { unfold li. assert (tabled c1) by (unfold tabled; rewrite E1; apply (ok_listeners _ _ (lo_server _ _ L))).
    destruct has; [by apply applyListening_frame|by split; [apply only_listeners_refl|]]. }
  destruct li as [c2 e2]. cbn [fst] in *.
  pose proof (only_listeners_ok EqualFold c1 c2 F T L1) as L2. set (us2 := us1 <| UserState.ListeningChannelAdd := [] |> <| UserState.ListeningChannelRemove := [] |> <| UserState.ListeningVolumeAdjustment := [] |>).
  assert (srv_registry (srv c2) = srv_registry (srv c) /\ srv_users (srv c2) = srv_users (srv c) /\ settings c2 = settings c1 /\
    textRateLimiter c2 = textRateLimiter c1 /\ same_rest (srv c1) (srv c2)) as (P1 & P2 & P3 & P4 & P5) by (rewrite F, <- E1; done).
  pose proof (fields_authorized c2 rf sender target us2 L2 ltac:(by rewrite P1) HS ltac:(by rewrite P2)) as Hf.
  destruct (fields c2 rf _ sender target _ us2) as [c3 e3]. cbn [fst] in *. apply Hc1. destruct Hf as (K1 & K2 & K3 & K4 & K5).
  split; [congruence|]. split; [congruence|]. split; [done|]. split; [by eapply same_rest_trans|]. intros sid. destruct (K5 sid) as [K|(-> & u' & K & A)].
  - left. by rewrite K, P2, E1.
  - right. split; [done|]. exists u'. split; [done|]. apply (authorized_only_listeners c1 c2 _ _ _ _ F) in A. destruct A. split; rewrite ?E1, ?E2 in *; try done.
Qed.
(** Sessions have numbers from 1. *)
Lemma user_number s sid u : live_ok EqualFold s -> Snapshot (srv_users s) sid = Some u -> sid <> 0.
Proof.
  intros L [l [Hl _]%user_at_Some]%Snapshot_Some. pose proof (ok_users _ _ (lo_server _ _ L)) as M.
  assert (sid ∈ inUse (pool (srv_users s))) as Hin by (rewrite (mw_inuse _ M); apply elem_of_dom; eauto).
  pose proof (proj1 (pw_cover _ (mw_pool _ M) sid) ltac:(by left)). lia.
Qed.

(** ** Refusals *)

(** The answers of a refused request: a denial, or the end of the session for
    recording where that is not allowed. The denials about single channels to
    listen to name the session; the request goes on after them. *)
Definition refusal (e : effect) : bool :=
  match e with
  | Send _ (MPermissionDenied d) => PermissionDenied.Session d =? 0
  | SendThenClose _ _ => true
  | _ => false
  end.
Definition refused (es : list effect) : bool := existsb refusal es.
#[local] Arguments refused : simpl never.
(** The message asks to listen or to stop listening somewhere. *)
Definition listens (us : UserState.t) : bool :=
  (0 <? zlen (UserState.ListeningChannelAdd us)) || (0 <? zlen (UserState.ListeningChannelRemove us)) || (0 <? zlen (UserState.ListeningVolumeAdjustment us)).

Lemma refused_app e1 e2 : refused (e1 ++ e2) = refused e1 || refused e2.
Proof. apply existsb_app. Qed.
Lemma refused_sends {A} (f : A -> SessionRef) (m : A -> message) l : (forall x, refusal (Send (f x) (m x)) = false) -> refused (map (fun x => Send (f x) (m x)) l) = false.
Proof. intros H. unfold refused. induction l as [|x l IH]; [done|]. cbn [map existsb]. by rewrite H. Qed.
Lemma refused_omap {A} (f : A -> option effect) l : (forall x e, f x = Some e -> refusal e = false) -> refused (omap f l) = false.
Proof. intros H. unfold refused. induction l as [|x l IH]; [done|]. cbn [omap list_omap]. destruct (f x) as [e|] eqn:E; [|done]. cbn [existsb]. by rewrite (H x e E). Qed.
Lemma finish_not_refused s rf tsid us moved : refused (finish s rf tsid us moved).2 = false.
Proof.
  unfold finish. destruct (Snapshot _ _) as [live|]; [|done]. destruct (apply_fields us moved live) as [[[u us'] pc] sc]. destruct (updateUser s tsid _) as [s' [upd|]]; [|done].
  destruct (_ =? 0); [done|]. cbn [snd]. rewrite !refused_app. unfold Broadcast. rewrite refused_sends by done.
  assert (refused (match moved with Some _ => RefreshEnterStatesFor EqualFold s' tsid | None => [] end) = false) as ->.
  { destruct moved; [|done]. unfold RefreshEnterStatesFor. destruct (Snapshot _ _); [|done]. by apply refused_sends. }
  destruct (UserState.Has _ _); [|done]. apply refused_omap. intros sn e. destruct (negb _); [done|]. destruct (Snapshot _ _); [|done]. cbn. destruct (_ || _); [done|]. by intros [= <-].
Qed.
Lemma change_refused s rf tsid sender target isAdminOp us : refused (change s rf tsid sender target isAdminOp us).2 = true -> (change s rf tsid sender target isAdminOp us).1 = s.
Proof.
  unfold change. destruct (UserState.Has _ _); [|by rewrite finish_not_refused]. destruct (Channels.GetChannel _ _); [|done]. destruct (_ =? _); [done|]. destruct (move_denied _ _ _ _ _); [done|].
  destruct (move s rf tsid target _) as [[s1 e1] may] eqn:Em. pose proof (finish_not_refused s1 rf tsid us (Some may)) as F. destruct (finish _ _ _ _ _) as [s2 e2]. cbn in F |- *. rewrite refused_app, F, orb_false_r.
  assert (refused e1 = false) as ->; [|done]. unfold move in Em. injection Em as _ <- _. destruct (tsid =? SessionID rf); [|done]. unfold sendControl. by case_match.
Qed.
Lemma fields_refused c rf tsid sender target isAdminOp us : refused (fields c rf tsid sender target isAdminOp us).2 = true -> (fields c rf tsid sender target isAdminOp us).1 = c.
Proof.
  unfold fields. destruct (_ =? 0); [done|]. destruct (isAdminOp && _); [done|]. destruct (admin_voice_denied _ _ _ _); [done|]. destruct (comment_denied _ _ _ _ _); [done|].
  destruct (texture_denied _ _ _ _ _); [done|]. destruct (_ && negb (allowRecording _)); [done|]. set (us1 := if _ && eqb _ _ then _ else us). destruct (Z.land _ handledUserStateFields =? 0); [done|].
  pose proof (change_refused (srv c) rf tsid sender target isAdminOp us1) as H. destruct (change _ _ _ _ _ _ _) as [s e]. cbn in *. intros ->%H. by destruct c.
Qed.
Lemma listen_all_refused rf t cids : User.SessionID t <> 0 -> forall c, refused (listen_all EqualFold c rf t cids).1.2 = false.
Proof.
  intros Hz%Z.eqb_neq. induction cids as [|cid cids IH]; intros c; [done|]. cbn [listen_all].
  assert (refused (listen_one EqualFold c rf t cid).1.2 = false) as H1.
  { unfold listen_one. destruct (Channels.GetChannel _ _); [|done]. do 3 (case_match; [unfold refused; cbn; by rewrite Hz|]). by destruct (Listeners.Add _ _ _). }
  destruct (listen_one EqualFold c rf t cid) as [[c1 e1] a1]. specialize (IH c1). destruct (listen_all EqualFold c1 rf t cids) as [[c2 e2] a2]. cbn in *. by rewrite refused_app, H1.
Qed.
Lemma applyListening_refused c rf t add remove vols : User.SessionID t <> 0 -> refused (applyListening EqualFold c rf t add remove vols).2 = false.
Proof.
  intros Hz. unfold applyListening. pose proof (listen_all_refused rf t add Hz c) as H. destruct (listen_all _ _ _ _ _) as [[c1 e1] a1]. destruct (unlisten_all _ _ _) as [l2 a2]. destruct (set_volumes _ _ _) as [l3 a3].
  cbn [fst snd] in H |- *. case_match; [done|]. cbn [snd]. rewrite !refused_app, H. unfold Broadcast. by rewrite refused_sends.
Qed.
Lemma fields_listeners c rf tsid sender target isAdminOp us : live_ok EqualFold (srv c) -> Snapshot (srv_users (srv c)) tsid = Some target ->
  srv_listeners (srv (fields c rf tsid sender target isAdminOp us).1) = srv_listeners (srv c).
Proof.
  intros L Ht. unfold fields. destruct (_ =? 0); [done|]. destruct (isAdminOp && _); [done|]. destruct (admin_voice_denied _ _ _ _); [done|]. destruct (comment_denied _ _ _ _ _); [done|].
  destruct (texture_denied _ _ _ _ _); [done|]. destruct (_ && negb (allowRecording _)); [done|]. set (us1 := if _ && eqb _ _ then _ else us). destruct (Z.land _ handledUserStateFields =? 0); [done|].
  pose proof (change_outcome (srv c) rf tsid sender target isAdminOp us1 L Ht) as (_ & _ & H & _). by destruct (change _ _ _ _ _ _ _).
Qed.

(** What a refused request leaves, and when the listening changes. *)
Lemma request_refused now c rf sender target us : live_ok EqualFold (srv c) -> User.SessionID target <> 0 -> Snapshot (srv_users (srv c)) (User.SessionID target) = Some target ->
  let '(c', es) := request now c rf (User.SessionID target) sender target us in
  (refused es = true -> srv c' = (srv c) <| srv_listeners := srv_listeners (srv c') |>) /\
  (srv_listeners (srv c') = srv_listeners (srv c) \/ (listens us = true /\ User.SessionID target = SessionID rf)).
Proof.
  intros L Hz Ht. assert (forall s : Server DB, s = s <| srv_listeners := srv_listeners s |>) as Hid by (by intros []).
  assert (forall es : list effect, (refused es = true -> srv c = (srv c) <| srv_listeners := srv_listeners (srv c) |>) /\ (srv_listeners (srv c) = srv_listeners (srv c) \/ (listens us = true /\ User.SessionID target = SessionID rf))) as Hsame
    by (intros es; split; [intros _; apply Hid|by left]).
  unfold request. destruct (_ && negb (User.IsSuperUser sender)); [apply Hsame|]. destruct (UserState.Has us UserState.SetName); [apply Hsame|].
  set (lim := if _ : bool then (c, true) else checkUserStateRateLimit now c (SessionID rf)).
  assert (srv lim.1 = srv c) as E1. { unfold lim, checkUserStateRateLimit. case_match; [done|]. by destruct (rateLimitAllows _ _ _ _). }
  destruct lim as [c1 ok]. cbn [fst] in *. rewrite <- E1 in *. destruct (negb ok); [apply Hsame|]. set (us1 := unmark _ _).
  change ((0 <? zlen (UserState.ListeningChannelAdd us1)) || (0 <? zlen (UserState.ListeningChannelRemove us1)) || (0 <? zlen (UserState.ListeningVolumeAdjustment us1))) with (listens us).
  destruct (listens us && _) eqn:Hl; [apply Hsame|].
  set (li := if listens us then _ else _). set (us2 := us1 <| UserState.ListeningChannelAdd := [] |> <| UserState.ListeningChannelRemove := [] |> <| UserState.ListeningVolumeAdjustment := [] |>).
  assert (tabled c1) as T1 by apply (ok_listeners _ _ (lo_server _ _ L)).
  assert (only_listeners c1 li.1 /\ tabled li.1 /\ refused li.2 = false /\ (listens us = false -> li.1 = c1)) as (F & T & R & N).
  { unfold li. destruct (listens us); [|split; [apply only_listeners_refl|done]]. destruct (applyListening_frame EqualFold c1 rf target (UserState.ListeningChannelAdd us1) (UserState.ListeningChannelRemove us1) (UserState.ListeningVolumeAdjustment us1) T1).
    split; [done|]. split; [done|]. split; [by apply applyListening_refused|done]. }
  destruct li as [c2 e2]. cbn [fst snd] in *. pose proof (only_listeners_ok EqualFold c1 c2 F T L) as L2.
  pose proof (fields_refused c2 rf (User.SessionID target) sender target (negb (User.SessionID target =? SessionID rf)) us2) as FR.
  pose proof (fields_listeners c2 rf (User.SessionID target) sender target (negb (User.SessionID target =? SessionID rf)) us2 L2 ltac:(by rewrite F)) as FL.
  destruct (fields c2 rf _ sender target _ us2) as [c3 e3]. cbn [fst snd] in *. split.
  - rewrite refused_app, R. intros H. cbn [orb] in H. rewrite (FR H). exact (f_equal srv F).
  - destruct (listens us) eqn:El; [right|left; by rewrite FL, N]. split; [done|]. cbn [andb] in Hl. by apply negb_false_iff, Z.eqb_eq in Hl.
Qed.

(** ** The echo *)

(** [us] tells of a field what became of it: its new value, or nothing when
    it did not change. *)
Definition says {A} (us : UserState.t) (bit : Z) (said after before : A) : Prop :=
  if UserState.Has us bit then said = after else after = before.
Record reports (us : UserState.t) (u u' : User.t) : Prop := {
  rp_mute : says us UserState.SetMute (UserState.Mute us) (Mute (User.Voice u')) (Mute (User.Voice u));
  rp_deaf : says us UserState.SetDeaf (UserState.Deaf us) (Deaf (User.Voice u')) (Deaf (User.Voice u));
  rp_suppress : says us UserState.SetSuppress (UserState.Suppress us) (Suppress (User.Voice u')) (Suppress (User.Voice u));
  rp_selfmute : says us UserState.SetSelfMute (UserState.SelfMute us) (SelfMute (User.Voice u')) (SelfMute (User.Voice u));
  rp_selfdeaf : says us UserState.SetSelfDeaf (UserState.SelfDeaf us) (SelfDeaf (User.Voice u')) (SelfDeaf (User.Voice u));
  rp_priority : says us UserState.SetPrioritySpeaker (UserState.PrioritySpeaker us) (PrioritySpeaker (User.Voice u')) (PrioritySpeaker (User.Voice u));
  rp_recording : says us UserState.SetRecording (UserState.Recording us) (Recording (User.Voice u')) (Recording (User.Voice u));
  rp_texture : says us UserState.SetTexture (UserState.Texture us) (User.Texture u') (User.Texture u);
  rp_comment : says us UserState.SetComment (UserState.Comment us) (User.Comment u') (User.Comment u);
  rp_channel : says us UserState.SetChannelID (UserState.ChannelID us) (User.ChannelID u') (User.ChannelID u) }.

Lemma mark_has us a bit : UserState.Has (mark us a) bit = UserState.Has us bit || negb (Z.land a bit =? 0).
Proof. apply has_bit_lor. Qed.

(** The message the closure leaves: the flags of [told], and the rest of the
    message as it came. *)
Lemma apply_fields_message us u moved : let '(u', us', pc, sc) := apply_fields us moved u in
  exists v, User.Voice u' = match moved with Some may => (applyChannelEnterEffects v may).1.1 | None => v end /\
  (pc, sc) = match moved with Some may => ((applyChannelEnterEffects v may).1.2, (applyChannelEnterEffects v may).2) | None => (false, false) end /\
  says us' UserState.SetMute (UserState.Mute us') (Mute v) (Mute (User.Voice u)) /\
  says us' UserState.SetDeaf (UserState.Deaf us') (Deaf v) (Deaf (User.Voice u)) /\
  says us' UserState.SetSelfMute (UserState.SelfMute us') (SelfMute v) (SelfMute (User.Voice u)) /\
  says us' UserState.SetSelfDeaf (UserState.SelfDeaf us') (SelfDeaf v) (SelfDeaf (User.Voice u)) /\
  says us' UserState.SetSuppress (UserState.Suppress us') (Suppress v) (Suppress (User.Voice u)) /\
  says us' UserState.SetPrioritySpeaker (UserState.PrioritySpeaker us') (PrioritySpeaker v) (PrioritySpeaker (User.Voice u)) /\
  says us' UserState.SetRecording (UserState.Recording us') (Recording v) (Recording (User.Voice u)) /\
  (forall bit, Z.land (Z.lor (Z.lor (Z.lor UserState.SetMute UserState.SetDeaf) UserState.SetSelfMute) UserState.SetSelfDeaf) bit = 0 ->
     UserState.Has us' bit = UserState.Has us bit) /\
  UserState.Texture us' = UserState.Texture us /\ UserState.Comment us' = UserState.Comment us /\ UserState.ChannelID us' = UserState.ChannelID us.
Proof.
  unfold apply_fields. pose proof (applySelfVoiceState_effect (User.Voice u) us) as S. destruct (applySelfVoiceState (User.Voice u) us) as [v1 us1].
  pose proof (applyAdminVoiceState_effect v1 us1) as A. destruct (applyAdminVoiceState v1 us1) as [v2 us2].
  destruct S as [(S1 & S2 & S3 & S4) _ S6 [S9 S10] S7 S8], A as [(A1 & A2 & A3) _ A5 A6 [A9 A10] A7 A8]. unfold same_bit, told in *.
  set (w := match moved with Some may => _ | None => _ end). assert (w = match moved with Some may => applyChannelEnterEffects v2 may | None => (v2, false, false) end) as Ew by done.
  destruct w as [[v3 pc] sc]. set (u1 := if UserState.Has us2 UserState.SetPluginContext then _ else _).
  assert (User.Voice u1 = v3) as E1 by (unfold u1; clear; repeat match goal with |- context [if ?b then _ else _] => destruct b end; reflexivity).
  exists v2. unfold says.
  split; [rewrite E1; destruct moved; [by rewrite <- Ew|congruence]|]. split; [destruct moved; [rewrite <- Ew; reflexivity|congruence]|].
  rewrite <- S1, <- S2, <- S3, <- S4 in *.
  assert (UserState.SelfMute us2 = UserState.SelfMute us1 /\ UserState.SelfDeaf us2 = UserState.SelfDeaf us1 /\ UserState.Suppress us2 = UserState.Suppress us1 /\
    UserState.PrioritySpeaker us2 = UserState.PrioritySpeaker us1 /\ UserState.Recording us2 = UserState.Recording us /\
    UserState.Texture us2 = UserState.Texture us /\ UserState.Comment us2 = UserState.Comment us /\ UserState.ChannelID us2 = UserState.ChannelID us)
    as (F1 & F2 & F3 & F4 & F5 & F6 & F7 & F8) by (rewrite A7, S7; done).
  rewrite (A8 UserState.SetSelfMute), (A8 UserState.SetSelfDeaf), (A8 UserState.SetSuppress), (A8 UserState.SetPrioritySpeaker), (A8 UserState.SetRecording),
    (S8 UserState.SetRecording), F1, F2, F3, F4, F5, A1, A2, A3, A5, A6, S6 by done.
  do 4 (split; [done|]). split; [by destruct (UserState.Has us1 UserState.SetSuppress)|].
  split; [by destruct (UserState.Has us1 UserState.SetPrioritySpeaker)|]. split; [by destruct (UserState.Has us UserState.SetRecording)|]. split; [|done].
  intros bit. rewrite !Z.land_lor_distr_l, !Z.lor_eq_0_iff. intros [[[H1 H2] H3] H4]. rewrite A8, S8; [done|..]; rewrite Z.land_lor_distr_l, ?H1, ?H2, ?H3, ?H4; done.
Qed.
(** The message of [echo], field by field: plugin data is gone, what entering
    a channel changed is told. *)
Lemma echo_says us pc sc upd tsid actor : let m := addressed_echo (echo us pc sc upd) tsid actor in
  UserState.Session m = tsid /\ UserState.Actor m = actor /\ UserState.PluginContext m = [] /\ UserState.PluginIdentity m = [] /\
  UserState.Has m UserState.SetSession = true /\ UserState.Has m UserState.SetActor = true /\
  UserState.Has m UserState.SetPluginContext = false /\ UserState.Has m UserState.SetPluginIdentity = false /\
  (forall bit, Z.land handledUserStateFields bit = bit -> Z.land (Z.lor (Z.lor pluginUserStateFields UserState.SetPrioritySpeaker) UserState.SetSuppress) bit = 0 ->
     UserState.Has m bit = UserState.Has us bit) /\
  UserState.Has m UserState.SetPrioritySpeaker = UserState.Has us UserState.SetPrioritySpeaker || pc /\
  UserState.Has m UserState.SetSuppress = UserState.Has us UserState.SetSuppress || sc /\
  UserState.PrioritySpeaker m = (if pc then false else UserState.PrioritySpeaker us) /\
  UserState.Suppress m = (if sc then Suppress (User.Voice upd) else UserState.Suppress us) /\
  m = us <| UserState.Session := tsid |> <| UserState.Actor := actor |> <| UserState.PluginContext := [] |> <| UserState.PluginIdentity := [] |>
    <| UserState.PrioritySpeaker := UserState.PrioritySpeaker m |> <| UserState.Suppress := UserState.Suppress m |> <| UserState.SetFields := UserState.SetFields m |>.
Proof.
  intros m. assert (forall bit, UserState.Has m bit =
    UserState.Has (unmark (if sc then mark (if pc then mark us UserState.SetPrioritySpeaker else us) UserState.SetSuppress
      else if pc then mark us UserState.SetPrioritySpeaker else us) pluginUserStateFields) bit || negb (Z.land (Z.lor UserState.SetSession UserState.SetActor) bit =? 0)) as Hm.
  { intros bit. unfold m, addressed_echo, echo. rewrite mark_has. by destruct pc, sc. }
  assert (forall bit, Z.land pluginUserStateFields bit = 0 -> UserState.Has m bit = UserState.Has us bit || pc && negb (Z.land UserState.SetPrioritySpeaker bit =? 0) ||
    sc && negb (Z.land UserState.SetSuppress bit =? 0) || negb (Z.land (Z.lor UserState.SetSession UserState.SetActor) bit =? 0)) as Hm'.
  { intros bit Hb. rewrite Hm, unmark_has by done. destruct sc, pc; rewrite ?mark_has; cbn [andb]; by rewrite ?orb_false_r. }
  assert (forall bit, Z.land pluginUserStateFields bit = bit -> Z.land (Z.lor UserState.SetSession UserState.SetActor) bit = 0 -> UserState.Has m bit = false) as Hp.
  { intros bit Hb Ha. rewrite Hm, Ha. cbn [negb Z.eqb]. rewrite orb_false_r. set (x := if sc then _ else _). unfold UserState.Has, unmark. cbn -[Z.ldiff pluginUserStateFields].
    apply negb_false_iff, Z.eqb_eq. rewrite <- Hb, Z.land_assoc, Z.ldiff_land, <- (Z.land_assoc (UserState.SetFields x)), (Z.land_comm (Z.lnot _)), Z.land_lnot_diag, Z.land_0_r. done. }
  split; [done|]. split; [done|]. split; [done|]. split; [done|].
  split; [rewrite Hm' by done; by rewrite orb_true_r|]. split; [rewrite Hm' by done; by rewrite orb_true_r|].
  split; [by apply Hp|]. split; [by apply Hp|]. split.
  { intros bit Hb H0. rewrite !Z.land_lor_distr_l, !Z.lor_eq_0_iff in H0. destruct H0 as [[H1 H2] H3]. rewrite Hm' by done. rewrite H2, H3, <- Hb, Z.land_assoc.
    change (Z.land (Z.lor UserState.SetSession UserState.SetActor) handledUserStateFields) with 0. cbn [negb Z.eqb Z.land]. by rewrite !andb_false_r, !orb_false_r. }
  rewrite !Hm' by done. cbn [negb]. repeat split; try (by destruct pc, sc); by rewrite ?andb_true_r, ?andb_false_r, ?orb_false_r.
Qed.

Lemma echo_reports us moved u upd tsid actor : let '(u', us', pc, sc) := apply_fields us moved u in
  User.Voice upd = User.Voice u' -> User.Texture upd = User.Texture u' -> User.Comment upd = User.Comment u' ->
  let m := addressed_echo (echo us' pc sc upd) tsid actor in
  reports m (u <| User.ChannelID := User.ChannelID upd |>) (upd <| User.ChannelID := if UserState.Has m UserState.SetChannelID then UserState.ChannelID m else User.ChannelID upd |>) /\
  UserState.Has m UserState.SetChannelID = UserState.Has us UserState.SetChannelID /\ UserState.ChannelID m = UserState.ChannelID us.
Proof.
  pose proof (apply_fields_changed us moved u) as C. pose proof (apply_fields_message us u moved) as M.
  destruct (apply_fields us moved u) as [[[u' us'] pc] sc]. cbn [fst] in C. destruct M as (v & EV & EP & M1 & M2 & M3 & M4 & M5 & M6 & M7 & MB & MT & MC & MI).
  intros V1 V2 V3 m. pose proof (echo_says us' pc sc upd tsid actor) as (_ & _ & _ & _ & _ & _ & _ & _ & HB & HP & HS & FP & FS & F). fold m in HB, HP, HS, FP, FS, F. clearbody m.
  assert (UserState.Mute m = UserState.Mute us' /\ UserState.Deaf m = UserState.Deaf us' /\ UserState.SelfMute m = UserState.SelfMute us' /\ UserState.SelfDeaf m = UserState.SelfDeaf us' /\
    UserState.Recording m = UserState.Recording us' /\ UserState.Texture m = UserState.Texture us' /\ UserState.Comment m = UserState.Comment us' /\ UserState.ChannelID m = UserState.ChannelID us')
    as (G1 & G2 & G3 & G4 & G5 & G6 & G7 & G8) by (rewrite F; done).
  assert (Mute (User.Voice u') = Mute v /\ Deaf (User.Voice u') = Deaf v /\ SelfMute (User.Voice u') = SelfMute v /\ SelfDeaf (User.Voice u') = SelfDeaf v /\ Recording (User.Voice u') = Recording v /\
    pc = xorb (PrioritySpeaker v) (PrioritySpeaker (User.Voice u')) /\ sc = xorb (Suppress v) (Suppress (User.Voice u')) /\ (pc = true -> PrioritySpeaker (User.Voice u') = false))
    as (W1 & W2 & W3 & W4 & W5 & W6 & W7 & W8).
  { rewrite EV. destruct moved as [may1|].
    - pose proof (enter_effects v may1) as K. destruct (applyChannelEnterEffects v may1) as [[w1 w2] w3]. cbn in EP |- *. injection EP as -> ->. by destruct K as (? & ? & _ & ? & ? & ? & ? & ? & ? & ?).
    - injection EP as -> ->. by rewrite !xorb_nilpotent. }
  clear EV EP. split; [|by rewrite HB, MB, G8]. split; unfold says in *; cbn -[UserState.Has] in *;
    rewrite ?V1, ?V2, ?V3, ?G1, ?G2, ?G3, ?G4, ?G5, ?G6, ?G7, ?W1, ?W2, ?W3, ?W4, ?W5.
  - by rewrite HB.
  - by rewrite HB.
  - rewrite HS, FS, V1. destruct sc; [by rewrite orb_true_r|]. rewrite orb_false_r. replace (Suppress (User.Voice u')) with (Suppress v); [done|]. by destruct (Suppress v), (Suppress (User.Voice u')).
  - by rewrite HB.
  - by rewrite HB.
  - rewrite HP, FP. destruct pc; [rewrite orb_true_r; by rewrite W8|]. rewrite orb_false_r. replace (PrioritySpeaker (User.Voice u')) with (PrioritySpeaker v); [done|].
    by destruct (PrioritySpeaker v), (PrioritySpeaker (User.Voice u')).
  - by rewrite HB.
  - rewrite HB, MB by done. rewrite (ch_texture _ _ _ _ C), MT. by destruct (UserState.Has us UserState.SetTexture).
  - rewrite HB, MB by done. rewrite (ch_comment _ _ _ _ C), MC. by destruct (UserState.Has us UserState.SetComment).
  - by destruct (UserState.Has m UserState.SetChannelID).
Qed.
(** What other users see of a user. *)
Definition visible (u : User.t) : VoiceState * bytes * gostring * Z := (User.Voice u, User.Texture u, User.Comment u, User.ChannelID u).
(** Either nothing of [u] others see changed, or a message to everybody tells
    what did. *)
Definition announced s' (es : list effect) (sid actor : Z) (u u' : User.t) : Prop :=
  visible u' = visible u \/ exists m e1 e2, es = e1 ++ Broadcast s' 0 (MUserState m) ++ e2 /\
    UserState.Has m UserState.SetSession = true /\ UserState.Session m = sid /\ UserState.Has m UserState.SetActor = true /\ UserState.Actor m = actor /\
    UserState.PluginContext m = [] /\ UserState.PluginIdentity m = [] /\ reports m u u'.

Lemma reports_nothing m u u' : Z.land (UserState.SetFields m) broadcastUserStateFields = 0 -> reports m u u' -> visible u' = visible u.
Proof.
  intros H. assert (forall bit, Z.land broadcastUserStateFields bit = bit -> UserState.Has m bit = false) as Hn.
  { intros bit Hb. destruct (UserState.Has m bit) eqn:E; [|done]. apply (has_group _ _ _ Hb) in E. by rewrite H in E. }
  intros [R1 R2 R3 R4 R5 R6 R7 R8 R9 R10]. unfold says in *. rewrite Hn in R1, R2, R3, R4, R5, R6, R7, R8, R9, R10 by done. unfold visible. rewrite R8, R9, R10.
  do 3 f_equal. destruct (User.Voice u'), (User.Voice u); cbn in *. congruence.
Qed.
Lemma addressed_fields us tsid actor : Z.land (UserState.SetFields (addressed_echo us tsid actor)) broadcastUserStateFields =
  Z.land (UserState.SetFields us) broadcastUserStateFields.
Proof. unfold addressed_echo. cbn -[Z.lor Z.land broadcastUserStateFields]. rewrite Z.land_lor_distr_l. change (Z.land _ broadcastUserStateFields) with 0 at 2. apply Z.lor_0_r. Qed.

Lemma finish_announced s rf tsid us moved u live : live_ok EqualFold s -> Snapshot (srv_users s) tsid = Some live ->
  User.Voice u = User.Voice live -> User.Texture u = User.Texture live -> User.Comment u = User.Comment live ->
  User.ChannelID live = (if UserState.Has us UserState.SetChannelID then UserState.ChannelID us else User.ChannelID u) ->
  let '(s', e) := finish s rf tsid us moved in forall u', Snapshot (srv_users s') tsid = Some u' -> announced s' e tsid (SessionID rf) u u'.
Proof.
  intros L Hl EV ET EC EI. pose proof (finish_exact s rf tsid us moved live L Hl) as X. unfold finish in *. rewrite Hl in *.
  pose proof (echo_reports us moved live) as ER. pose proof (apply_fields_changed us moved live) as C.
  pose proof (settled_frame (fun u => (apply_fields us moved u).1.1.1) live) as SF. cbn beta in SF.
  destruct (apply_fields_keeps us moved) as [K1 K2]. pose proof (updateUser_exact EqualFold s tsid _ L K1 K2) as H.
  destruct (apply_fields us moved live) as [[[lu us'] pc] sc] eqn:EA. cbn [fst] in C, SF.
  destruct (updateUser s tsid _) as [s' o]. destruct H as (-> & _ & _ & _ & _ & H). rewrite Hl in H |- *. cbn [fmap option_fmap option_map] in *.
  set (upd := settled _ live) in *. specialize (ER upd tsid (SessionID rf)). cbn zeta in ER.
  assert (User.Voice upd = User.Voice lu /\ User.Texture upd = User.Texture lu /\ User.Comment upd = User.Comment lu /\ User.ChannelID upd = User.ChannelID live) as (U1 & U2 & U3 & U4).
  { rewrite SF. cbn. by rewrite (ch_frame _ _ _ _ C). }
  destruct ER as (ER & B1 & B2); [done..|]. clearbody upd.
  pose proof (echo_says us' pc sc upd tsid (SessionID rf)) as (S1 & S2 & S3 & S4 & S5 & S6 & _). rewrite <- (addressed_fields _ tsid (SessionID rf)).
  remember (addressed_echo (echo us' pc sc upd) tsid (SessionID rf)) as m eqn:Em. clear Em. rewrite B1, B2 in ER.
  assert (reports m u upd) as R.
  { destruct ER as [R1 R2 R3 R4 R5 R6 R7 R8 R9 _]. cbn in *. split; rewrite ?EV, ?ET, ?EC; try done. unfold says. rewrite B1, B2, U4, EI. by destruct (UserState.Has us UserState.SetChannelID). }
  assert (forall u', Snapshot (srv_users s') tsid = Some u' -> u' = upd) as Hu. { intros u'. rewrite H, decide_True by done. congruence. }
  destruct (Z.land _ _ =? 0) eqn:Hz; intros u' ->%Hu.
  - left. apply Z.eqb_eq in Hz. by eapply reports_nothing.
  - right. exists m, []. eexists. done.
Qed.
Lemma change_announced s rf tsid sender target isAdminOp us : live_ok EqualFold s -> Snapshot (srv_users s) tsid = Some target ->
  let '(s', e) := change s rf tsid sender target isAdminOp us in forall u', Snapshot (srv_users s') tsid = Some u' -> announced s' e tsid (SessionID rf) target u'.
Proof.
  intros L Ht. assert (forall e u', Snapshot (srv_users s) tsid = Some u' -> announced s e tsid (SessionID rf) target u') as Hsame.
  { intros e u' H. left. congruence. }
  unfold change. destruct (UserState.Has us UserState.SetChannelID) eqn:Hc.
  - destruct (Channels.GetChannel _ _) eqn:Hg; [|apply Hsame]. destruct (UserState.ChannelID us =? _); [apply Hsame|].
    destruct (move_denied _ _ _ _ _) eqn:Hd; [apply Hsame|].
    pose proof (move_exact s rf tsid target (UserState.ChannelID us) L Ht) as M. destruct (move s rf tsid target _) as [[s1 e1] may1].
    destruct M as (L1 & R1 & HL1 & M). pose proof (settled_frame (fun u => u <| User.ChannelID := UserState.ChannelID us |>) target) as SF.
    set (live := settled _ target) in *. assert (Snapshot (srv_users s1) tsid = Some live) as Ht1 by (by rewrite M, decide_True).
    pose proof (finish_announced s1 rf tsid us (Some may1) target live L1 Ht1) as F. rewrite SF, Hc in F. specialize (F eq_refl eq_refl eq_refl eq_refl).
    destruct (finish s1 rf tsid us (Some may1)) as [s2 e2]. intros u' Hu. destruct (F u' Hu) as [F'|(m & a & b & -> & F')]; [by left|].
    right. exists m, (e1 ++ a), b. by rewrite <- app_assoc.
  - apply (finish_announced s rf tsid us None target target L Ht); rewrite ?Hc; done.
Qed.

Lemma fields_announced c rf tsid sender target isAdminOp us : live_ok EqualFold (srv c) -> Snapshot (srv_users (srv c)) tsid = Some target ->
  let '(c', e) := fields c rf tsid sender target isAdminOp us in
  forall u', Snapshot (srv_users (srv c')) tsid = Some u' -> announced (srv c') e tsid (SessionID rf) target u'.
Proof.
  intros L Ht. assert (forall e u', Snapshot (srv_users (srv c)) tsid = Some u' -> announced (srv c) e tsid (SessionID rf) target u') as Hsame.
  { intros e u' H. left. congruence. }
  unfold fields. destruct (UserState.SetFields us =? 0); [apply Hsame|]. destruct (isAdminOp && _); [apply Hsame|].
  destruct (admin_voice_denied _ _ _ _); [apply Hsame|]. destruct (comment_denied _ _ _ _ _); [apply Hsame|].
  destruct (texture_denied _ _ _ _ _); [apply Hsame|]. destruct (_ && negb (allowRecording _)); [apply Hsame|].
  set (us1 := if _ && eqb _ _ then _ else us). destruct (Z.land _ handledUserStateFields =? 0); [apply Hsame|].
  pose proof (change_announced (srv c) rf tsid sender target isAdminOp us1 L Ht) as H. destruct (change _ _ _ _ _ _ _) as [s' e]. exact H.
Qed.

Lemma request_announced now c rf tsid sender target us : live_ok EqualFold (srv c) -> Snapshot (srv_users (srv c)) tsid = Some target ->
  let '(c', e) := request now c rf tsid sender target us in
  forall u', Snapshot (srv_users (srv c')) tsid = Some u' -> announced (srv c') e tsid (SessionID rf) target u'.
Proof.
  intros L Ht. assert (forall c1 e u', srv_users (srv c1) = srv_users (srv c) -> Snapshot (srv_users (srv c1)) tsid = Some u' -> announced (srv c1) e tsid (SessionID rf) target u') as Hsame.
  { intros c1 e u' E H. left. congruence. }
  unfold request. destruct (User.IsSuperUser target && _); [intros u'; by apply Hsame|]. destruct (UserState.Has us UserState.SetName); [intros u'; by apply Hsame|].
  set (lim := if _ : bool then (c, true) else checkUserStateRateLimit now c (SessionID rf)). assert (srv lim.1 = srv c) as E1.
  { unfold lim, checkUserStateRateLimit. destruct (negb _); [done|]. by destruct (rateLimitAllows _ _ _ _). }
  destruct lim as [c1 ok]. cbn [fst] in *. destruct (negb ok); [intros u'; apply Hsame; by rewrite E1|]. set (us1 := unmark _ _). set (has := (_ || _) || _).
  destruct (has && _); [intros u'; apply Hsame; by rewrite E1|].
  set (li := if has then _ else _). assert (only_listeners c1 li.1 /\ tabled li.1) as [F T].
  { unfold li. assert (tabled c1) by (unfold tabled; rewrite E1; apply (ok_listeners _ _ (lo_server _ _ L))).
    destruct has; [by apply applyListening_frame|by split; [apply only_listeners_refl|]]. }
  destruct li as [c2 e2]. cbn [fst] in *. assert (srv_users (srv c2) = srv_users (srv c)) as E2 by (rewrite F, <- E1; done).
  pose proof (only_listeners_ok EqualFold c1 c2 F T ltac:(by rewrite E1)) as L2.
  match goal with |- context [fields c2 rf tsid sender target ?a ?u] => pose proof (fields_announced c2 rf tsid sender target a u L2 ltac:(by rewrite E2)) as H end.
  destruct (fields c2 rf tsid sender target _ _) as [c3 e3]. intros u' Hu. destruct (H u' Hu) as [H'|(m & a & b & -> & H')]; [by left|].
  right. exists m, (e2 ++ a), b. by rewrite <- app_assoc.
Qed.

(** ** The theorems *)

(** What [handleUserState] comes to. *)
Lemma handleUserState_exact now c rf payload : live_ok EqualFold (srv c) ->
  let '(c', es, err) := handleUserState now c rf payload in
  settings c' = settings c /\ same_rest (srv c) (srv c') /\ live_ok EqualFold (srv c') /\ (err <> None -> c' = c /\ es = []) /\
  forall sid, Snapshot (srv_users (srv c')) sid = Snapshot (srv_users (srv c)) sid \/
    exists sender u u', Snapshot (srv_users (srv c)) (SessionID rf) = Some sender /\ Snapshot (srv_users (srv c)) sid = Some u /\
      Snapshot (srv_users (srv c')) sid = Some u' /\ authorized c rf sender u u'.
Proof.
  intros L. assert (forall err : option wire_error, settings c = settings c /\ same_rest (srv c) (srv c) /\ live_ok EqualFold (srv c) /\ (err <> None -> c = c /\ @nil effect = []) /\
    forall sid, Snapshot (srv_users (srv c)) sid = Snapshot (srv_users (srv c)) sid \/
      exists sender u u', Snapshot (srv_users (srv c)) (SessionID rf) = Some sender /\ Snapshot (srv_users (srv c)) sid = Some u /\
        Snapshot (srv_users (srv c)) sid = Some u' /\ authorized c rf sender u u') as Hsame.
  { intros err. split; [done|]. split; [done|]. split; [done|]. split; [done|]. intros sid. by left. }
  unfold handleUserState. destruct (Active _ rf) eqn:HA; cbn [negb]; [|apply Hsame]. destruct (UserState.Unmarshal _ _) as [us [e|]]; [apply Hsame|].
  destruct (Snapshot _ (SessionID rf)) as [sender|] eqn:Hs; [|apply Hsame]. destruct (Snapshot _ (target_session rf us)) as [target|] eqn:Ht; [|apply Hsame].
  pose proof (Snapshot_session EqualFold (srv c) _ _ (lo_server _ _ L) Ht) as Es. rewrite <- Es in *.
  pose proof (request_authorized now c rf sender target us L HA Ht) as (K1 & _ & K2 & K3 & K4). destruct (request _ _ _ _ _ _ _) as [c' e]. cbn in *.
  split; [done|]. split; [done|]. split; [done|]. split; [done|]. intros sid. destruct (K4 sid) as [K|(-> & u' & K & A)]; [by left|]. right. by exists sender, target, u'.
Qed.

(** The outcome of a message: what is always kept, what a refusal leaves, whose
    listening changes, and the one user who may have been changed. *)
Record handled c c' (rf : SessionRef) (payload : bytes) (es : list effect) (err : option wire_error) : Prop := {
  hd_kept : settings c' = settings c /\ same_rest (srv c) (srv c') /\ live_ok EqualFold (srv c');
  hd_error : err <> None -> c' = c /\ es = [];
  hd_refused : refused es = true -> srv c' = (srv c) <| srv_listeners := srv_listeners (srv c') |>;
  hd_listening : srv_listeners (srv c') = srv_listeners (srv c) \/
    exists us, UserState.Unmarshal UserState.zero payload = (us, None) /\ listens us = true /\ target_session rf us = SessionID rf;
  hd_user : exists tsid, (forall sid, sid <> tsid -> Snapshot (srv_users (srv c')) sid = Snapshot (srv_users (srv c)) sid) /\
    (Snapshot (srv_users (srv c')) tsid = Snapshot (srv_users (srv c)) tsid \/
     exists sender u u', Snapshot (srv_users (srv c)) (SessionID rf) = Some sender /\ Snapshot (srv_users (srv c)) tsid = Some u /\
       Snapshot (srv_users (srv c')) tsid = Some u' /\ authorized c rf sender u u') }.


(** Nobody's view of a user goes stale: when a UserState request changes what
    others see of a user, a message about that user, in the name of the
    sender, goes to every deliverable session and tells the new value of each
    field that changed; plugin data never leaves the server. *)
Theorem user_state_announced now c rf payload sid u : live_ok EqualFold (srv c) -> Snapshot (srv_users (srv c)) sid = Some u ->
  let '(c', es, _) := handleUserState now c rf payload in
  exists u', Snapshot (srv_users (srv c')) sid = Some u' /\ announced (srv c') es sid (SessionID rf) u u'.
Proof.
  intros L Hu. assert (forall es, exists u', Snapshot (srv_users (srv c)) sid = Some u' /\ announced (srv c) es sid (SessionID rf) u u') as Hsame.
  { intros es. exists u. split; [done|by left]. }
  unfold handleUserState. destruct (Active _ rf) eqn:HA; cbn [negb]; [|apply Hsame]. destruct (UserState.Unmarshal _ _) as [us [e|]]; [apply Hsame|].
  destruct (Snapshot _ (SessionID rf)) as [sender|] eqn:Hs; [|apply Hsame]. destruct (Snapshot _ (target_session rf us)) as [target|] eqn:Ht; [|apply Hsame].
  pose proof (Snapshot_session EqualFold (srv c) _ _ (lo_server _ _ L) Ht) as Es. rewrite <- Es in *.
  pose proof (request_authorized now c rf sender target us L HA Ht) as (_ & _ & _ & _ & K).
  pose proof (request_announced now c rf (User.SessionID target) sender target us L Ht) as A. destruct (request _ _ _ _ _ _ _) as [c' e]. cbn [fst] in *.
  destruct (K sid) as [K'|(-> & u' & K' & _)].
  - exists u. split; [congruence|by left].
  - exists u'. split; [done|]. rewrite Hu in Ht. injection Ht as ->. by apply A.
Qed.
End Handler.
End UserStateHandler.
