(* ===== verification/TextHandlers.v ===== *)
(** * Text messages and the queries of a client

    [handleTextMessage], [handleVoiceTarget] and the handlers that only answer
    their peer: [handleACL], [handlePermissionQuery], [handleRequestBlob],
    [handleUserStats]. A payload a query handler cannot parse is answered as
    far as it was read. *)

From Stdlib Require Import ZArith Lia String.
From stdpp Require Import base numbers list gmap sets option.
From S2P Require Import Prelude Wire Fields Messages Codec Registry UserManager ChannelManager Acl AclCache Listeners VoiceState VoiceServer RateLimit ServerState UserStateHandler.

Module TextHandlers.
Import Acl AclCache Listeners VoiceFlags ChannelCrypto RateLimit VoiceServer ServerState UserStateHandler.

Section Handlers.
Context (EqualFold : gostring -> gostring -> bool).
Context `{SO : Channels.Sorter} {DB TX : Type} `{CS : Channels.ChannelStore DB TX}.
Implicit Types (s : Server DB) (c : Core DB).

(** ** Text messages *)

Definition checkTextRateLimit (now : Z) c (sid : Z) : Core DB * bool :=
  let '(l, ok) := rateLimitAllows now (textRateLimiter c) sid maxTextMessagesPerSecond in (c <| textRateLimiter := l |>, ok).

(** One of the loops over the targets: the first channel the sender may not
    write to. *)
Fixpoint first_denied s (sender : User.t) (cids : list Z) : option message :=
  match cids with
  | [] => None
  | cid :: cids =>
      if negb (aclCheck EqualFold s (SubjectOf sender) cid PermissionTextMessage)
      then Some (deny cid DenyPermission (str "No text permission"%string)) else first_denied s sender cids
  end.
(** The channels of the users addressed by session; unknown ones are passed
    over. *)
Definition session_channels s (sids : list Z) : list Z := omap (fun sid => User.ChannelID <$> Snapshot (srv_users s) sid) sids.
Definition has_target (tm : TextMessage.t) : bool :=
  (0 <? zlen (TextMessage.Session tm)) || (0 <? zlen (TextMessage.ChannelID tm)) || (0 <? zlen (TextMessage.TreeID tm)).
Definition text_denied s (sender : User.t) (tm : TextMessage.t) : option message :=
  if has_target tm then
    match first_denied s sender (session_channels s (TextMessage.Session tm)) with
    | Some d => Some d
    | None =>
        match first_denied s sender (TextMessage.ChannelID tm) with
        | Some d => Some d
        | None => first_denied s sender (TextMessage.TreeID tm)
        end
    end
  else first_denied s sender [User.ChannelID sender].

Definition tree_recipients s (sender : User.t) (tid : Z) : list Z :=
  concat (map (fun cid => if negb (aclCheck EqualFold s (SubjectOf sender) cid PermissionTextMessage) then []
                          else SessionIDsInChannel (srv_users s) cid) (default [] (Channels.SubtreeIDs (srv_chans s) tid))).
Definition text_recipients s (sender : User.t) (tm : TextMessage.t) : list Z :=
  TextMessage.Session tm ++ concat (map (SessionIDsInChannel (srv_users s)) (TextMessage.ChannelID tm)) ++
  concat (map (tree_recipients s sender) (TextMessage.TreeID tm)).

(** The loop that sends, once per session and never to the sender. *)
Fixpoint send_once s (sender : Z) (seen : gset Z) (sids : list Z) (m : message) : list effect :=
  match sids with
  | [] => []
  | sid :: sids =>
      if (sid =? sender) || bool_decide (sid ∈ seen) then send_once s sender seen sids m
      else sendControl s sid m ++ send_once s sender ({[sid]} ∪ seen) sids m
  end.

Definition handleTextMessage (now : Z) c (rf : SessionRef) (payload : bytes) : Core DB * list effect * option wire_error :=
  if negb (Active (srv_registry (srv c)) rf) then (c, [], None) else
  match TextMessage.Unmarshal TextMessage.zero payload with
  | (_, Some e) => (c, [], Some e)
  | (tm, None) =>
      match Snapshot (srv_users (srv c)) (SessionID rf) with
      | None => (c, [], None)
      | Some u =>
          let '(c, ok) := checkTextRateLimit now c (SessionID rf) in
          if negb ok then (c, write rf (deny 0 DenyTextTooLong (str "Rate limit exceeded"%string)), None) else
          if too_long (maxTextBytes (settings c)) (zlen (TextMessage.Message tm)) then (c, write rf (deny 0 DenyTextTooLong []), None) else
          match text_denied (srv c) u tm with
          | Some d => (c, write rf d, None)
          | None =>
              let tm := tm <| TextMessage.Actor := SessionID rf |> in
              (c, send_once (srv c) (SessionID rf) ∅ (text_recipients (srv c) u tm) (MTextMessage tm), None)
          end
      end
  end.

(** ** Voice targets *)

Definition handleVoiceTarget c (rf : SessionRef) (payload : bytes) : Core DB * option wire_error :=
  if negb (Active (srv_registry (srv c)) rf) then (c, None) else
  match VoiceTarget.Unmarshal VoiceTarget.zero payload with
  | (_, Some e) => (c, Some e)
  | (vt, None) =>
      if (VoiceTarget.ID vt =? 0) || (30 <? VoiceTarget.ID vt) then (c, None)
      else (c <| srv := storeVoiceTarget (srv c) rf vt |>, None)
  end.

(** ** Queries *)

(** [_ = m.Unmarshal(payload)] under [len(payload) > 0]. *)
Definition read_ignoring {A} (unmarshal : A -> bytes -> A * option wire_error) (zero : A) (payload : bytes) : A :=
  if 0 <? zlen payload then (unmarshal zero payload).1 else zero.

Definition handleACL s (rf : SessionRef) (payload : bytes) : list effect :=
  if negb (Active (srv_registry s) rf) then [] else
  let m := read_ignoring ACL.Unmarshal ACL.zero payload in
  if ACL.Query m then write rf (MACL (m <| ACL.Query := false |> <| ACL.InheritACLs := true |>)) else [].

Definition handlePermissionQuery s (rf : SessionRef) (payload : bytes) : list effect :=
  if negb (Active (srv_registry s) rf) then [] else
  let pq := read_ignoring PermissionQuery.Unmarshal PermissionQuery.zero payload in
  match Snapshot (srv_users s) (SessionID rf) with
  | None => []
  | Some u => write rf (MPermissionQuery (pq <| PermissionQuery.Permissions :=
      u32 (aclPermissions EqualFold s (SubjectOf u) (PermissionQuery.ChannelID pq)) |>))
  end.

Definition texture_blob s (rf : SessionRef) (sid : Z) : list effect :=
  match Snapshot (srv_users s) sid with
  | Some u => if 0 <? zlen (User.Texture u)
              then write rf (MUserState (UserState.zero <| UserState.Session := sid |> <| UserState.Texture := User.Texture u |>
                     <| UserState.SetFields := Z.lor UserState.SetSession UserState.SetTexture |>)) else []
  | None => []
  end.
Definition comment_blob s (rf : SessionRef) (sid : Z) : list effect :=
  match Snapshot (srv_users s) sid with
  | Some u => if negb (bool_decide (User.Comment u = []))
              then write rf (MUserState (UserState.zero <| UserState.Session := sid |> <| UserState.Comment := User.Comment u |>
                     <| UserState.SetFields := Z.lor UserState.SetSession UserState.SetComment |>)) else []
  | None => []
  end.
Definition description_blob s (rf : SessionRef) (cid : Z) : list effect :=
  match Channels.GetChannel (srv_chans s) cid with
  | Some ch => if negb (bool_decide (Channels.Description ch = []))
               then write rf (MChannelState (ChannelState.zero <| ChannelState.ChannelID := cid |> <| ChannelState.Description := Channels.Description ch |>)) else []
  | None => []
  end.
Definition sendRequestedBlobs s (rf : SessionRef) (rb : RequestBlob.t) : list effect :=
  concat (map (texture_blob s rf) (RequestBlob.SessionTexture rb)) ++ concat (map (comment_blob s rf) (RequestBlob.SessionComment rb)) ++
  concat (map (description_blob s rf) (RequestBlob.ChannelDescription rb)).
Definition handleRequestBlob s (rf : SessionRef) (payload : bytes) : list effect :=
  if negb (Active (srv_registry s) rf) then [] else sendRequestedBlobs s rf (read_ignoring RequestBlob.Unmarshal RequestBlob.zero payload).

Definition handleUserStats s (rf : SessionRef) (payload : bytes) : list effect :=
  if negb (Active (srv_registry s) rf) then [] else
  let req := read_ignoring UserStats.Unmarshal UserStats.zero payload in
  let req := if UserStats.Session req =? 0 then req <| UserStats.Session := SessionID rf |> else req in
  if Exists (srv_users s) (UserStats.Session req) then write rf (MUserStats req) else [].

(** ** Who gets a text message *)

Lemma first_denied_none s sender cids : server_ok EqualFold s ->
  first_denied s sender cids = None <-> forall cid, cid ∈ cids -> may EqualFold s (SubjectOf sender) cid PermissionTextMessage = true.
Proof.
  intros W. induction cids as [|cid cids IH]; cbn; [split; [intros _ x H; by apply elem_of_nil in H|done]|].
  rewrite (aclCheck_current _ s) by done. destruct (may _ _ _ cid _) eqn:E; cbn [negb].
  - rewrite IH. split; [intros H x [->|Hx]%elem_of_cons; [done|auto]|]. intros H x Hx. apply H, elem_of_cons. by right.
  - split; [done|]. intros H. rewrite (H cid) in E by (apply elem_of_cons; by left). done.
Qed.
Lemma first_denied_kind s sender cids d : first_denied s sender cids = Some d -> exists p, d = MPermissionDenied p.
Proof. induction cids as [|cid cids IH]; cbn; [done|]. case_match; [intros [= <-]; by eexists|done]. Qed.

(** The channels a message is checked against. *)
Definition gated s (sender : User.t) (tm : TextMessage.t) : list Z :=
  if has_target tm then session_channels s (TextMessage.Session tm) ++ TextMessage.ChannelID tm ++ TextMessage.TreeID tm else [User.ChannelID sender].
Definition permitted s (sender : User.t) (tm : TextMessage.t) : Prop :=
  forall cid, cid ∈ gated s sender tm -> may EqualFold s (SubjectOf sender) cid PermissionTextMessage = true.
Lemma text_denied_none s sender tm : server_ok EqualFold s -> text_denied s sender tm = None <-> permitted s sender tm.
Proof.
  intros W. unfold text_denied, permitted, gated. destruct (has_target tm); [|by apply first_denied_none].
  setoid_rewrite elem_of_app. setoid_rewrite elem_of_app.
  pose proof (first_denied_none s sender (session_channels s (TextMessage.Session tm)) W) as H1.
  pose proof (first_denied_none s sender (TextMessage.ChannelID tm) W) as H2. pose proof (first_denied_none s sender (TextMessage.TreeID tm) W) as H3.
  destruct (first_denied s sender (session_channels _ _)) eqn:E1; [split; [done|]; intros H; discriminate (proj2 H1 ltac:(auto))|].
  destruct (first_denied s sender (TextMessage.ChannelID tm)) eqn:E2; [split; [done|]; intros H; discriminate (proj2 H2 ltac:(auto))|].
  rewrite H3. split; [|auto]. intros H x [Hx|[Hx|Hx]]; [by apply H1|by apply H2|by apply H].
Qed.
Lemma text_denied_kind s sender tm d : text_denied s sender tm = Some d -> exists p, d = MPermissionDenied p.
Proof.
  unfold text_denied. destruct (has_target tm); [|apply first_denied_kind]. destruct (first_denied s sender (session_channels _ _)) eqn:E1; [intros [= <-]; by eapply first_denied_kind|].
  destruct (first_denied s sender (TextMessage.ChannelID tm)) eqn:E2; [intros [= <-]; by eapply first_denied_kind|]. apply first_denied_kind.
Qed.

(** [sid] is addressed: by its session, by its channel, or by a tree its
    channel lies in and in which the sender may write to that channel. *)
Definition addressed_by s (sender : User.t) (tm : TextMessage.t) (sid : Z) : Prop :=
  sid ∈ TextMessage.Session tm \/ exists v, Snapshot (srv_users s) sid = Some v /\
    (User.ChannelID v ∈ TextMessage.ChannelID tm \/
     exists tid, tid ∈ TextMessage.TreeID tm /\ may EqualFold s (SubjectOf sender) (User.ChannelID v) PermissionTextMessage = true /\
       (Channels.below (srv_chans s) tid (User.ChannelID v) \/ (tid = User.ChannelID v /\ Channels.tree (srv_chans s) !! tid = None))).

Lemma SubtreeIDs_spec (m : Channels.Manager DB) id : Channels.chan_wf m ->
  exists sub, Channels.SubtreeIDs m id = Some sub /\
    forall x, x ∈ sub <-> Channels.below m id x \/ (id = x /\ Channels.tree m !! id = None).
Proof.
  intros W. destruct (Channels.tree m !! id) as [l|] eqn:E.
  - destruct (Channels.SubtreeIDs_below m id W) as (sub & H1 & H2); [by eexists|]. exists sub. split; [done|]. intros x. rewrite H2. naive_solver.
  - exists [id]. unfold Channels.SubtreeIDs. cbn. unfold Channels.node_at. rewrite E. cbn. split; [done|]. intros x. rewrite list_elem_of_singleton.
    split; [intros ->; by right|]. intros [(p & Hp & Hin)|[-> _]]; [|done]. exfalso. apply (Channels.path_tree m x p Hp) in Hin.
    rewrite E in Hin. by destruct Hin.
Qed.

Lemma text_recipients_spec s sender tm sid : server_ok EqualFold s -> sid ∈ text_recipients s sender tm <-> addressed_by s sender tm sid.
Proof.
  intros W. unfold text_recipients, addressed_by. rewrite !elem_of_app. apply or_iff_compat_l.
  assert (forall cid, sid ∈ SessionIDsInChannel (srv_users s) cid <-> exists v, Snapshot (srv_users s) sid = Some v /\ User.ChannelID v = cid) as Hin.
  { intros cid. rewrite (elem_of_SessionIDsInChannel EqualFold) by done. unfold ChannelIDOf. destruct (Snapshot _ _) as [v|]; cbn; naive_solver. }
  assert (sid ∈ concat (map (SessionIDsInChannel (srv_users s)) (TextMessage.ChannelID tm)) <->
    exists v, Snapshot (srv_users s) sid = Some v /\ User.ChannelID v ∈ TextMessage.ChannelID tm) as H1.
  { rewrite list_elem_of_In, in_concat. setoid_rewrite <- list_elem_of_In. setoid_rewrite list_elem_of_fmap. split.
    - intros (l & (cid & -> & Hc) & (v & Hv & <-)%Hin). eauto.
    - intros (v & Hv & Hc). eexists. split; [eauto|]. apply Hin. eauto. }
  assert (sid ∈ concat (map (tree_recipients s sender) (TextMessage.TreeID tm)) <-> exists tid, tid ∈ TextMessage.TreeID tm /\ sid ∈ tree_recipients s sender tid) as H2.
  { rewrite list_elem_of_In, in_concat. setoid_rewrite <- list_elem_of_In. setoid_rewrite list_elem_of_fmap. naive_solver. }
  assert (forall tid, sid ∈ tree_recipients s sender tid <-> exists v, Snapshot (srv_users s) sid = Some v /\
    may EqualFold s (SubjectOf sender) (User.ChannelID v) PermissionTextMessage = true /\
    (Channels.below (srv_chans s) tid (User.ChannelID v) \/ (tid = User.ChannelID v /\ Channels.tree (srv_chans s) !! tid = None))) as H3.
  { intros tid. unfold tree_recipients. destruct (SubtreeIDs_spec (srv_chans s) tid (ok_chans _ s W)) as (sub & -> & Hsub). cbn [default].
    rewrite list_elem_of_In, in_concat. setoid_rewrite <- list_elem_of_In. setoid_rewrite list_elem_of_fmap. split.
    - intros (l & (cid & -> & Hc) & Hs). rewrite (aclCheck_current _ s) in Hs by done. destruct (may _ _ _ cid _) eqn:E; [|by apply elem_of_nil in Hs].
      apply Hin in Hs as (v & Hv & <-). exists v. split; [done|]. split; [done|]. by apply Hsub.
    - intros (v & Hv & Hm & Hb). eexists. split; [exists (User.ChannelID v); split; [done|]; by apply Hsub|]. rewrite (aclCheck_current _ s), Hm by done. apply Hin. eauto. }
  rewrite H1, H2. setoid_rewrite H3. naive_solver.
Qed.

Lemma send_once_exact s sender m sids : server_ok EqualFold s -> forall seen,
  exists rfs, send_once s sender seen sids m = map (fun r => Send r m) rfs /\ NoDup (map SessionID rfs) /\
    forall r, r ∈ rfs <-> SessionID r ∈ sids /\ SessionID r <> sender /\ SessionID r ∉ seen /\ Ref (srv_registry s) (SessionID r) = Some r.
Proof.
  intros W. induction sids as [|sid sids IH]; intros seen; cbn [send_once].
  { exists []. split; [done|]. split; [constructor|]. intros r. split; [intros H; by apply elem_of_nil in H|intros [H _]; by apply elem_of_nil in H]. }
  destruct ((sid =? sender) || bool_decide (sid ∈ seen)) eqn:E.
  - destruct (IH seen) as (rfs & E1 & ND & H). exists rfs. split; [done|]. split; [done|]. intros r. rewrite H, elem_of_cons.
    apply orb_true_iff in E. rewrite Z.eqb_eq, bool_decide_eq_true in E. split; [naive_solver|]. intros ([->|?] & Hne & Hseen & Hr); [tauto|auto].
  - apply orb_false_iff in E as [E1%Z.eqb_neq E2%bool_decide_eq_false]. destruct (IH ({[sid]} ∪ seen)) as (rfs & E3 & ND & H). rewrite E3. unfold sendControl.
    destruct (Ref (srv_registry s) sid) as [rf|] eqn:Er.
    + pose proof (VoiceServer.Ref_session EqualFold s sid rf W Er) as Es. exists (rf :: rfs). split; [done|]. split.
      * cbn. constructor; [|done]. intros (r & Hr & (_ & _ & Hseen & _)%H)%list_elem_of_fmap. apply Hseen. rewrite <- Hr, Es. set_solver.
      * intros r. rewrite !elem_of_cons, H. split.
        -- intros [->|(H1 & H2 & H3 & H4)]; [rewrite Es; auto|]. split; [auto|]. split; [done|]. split; [set_solver|done].
        -- intros (H1 & H2 & H3 & H4). destruct (decide (SessionID r = sid)) as [Ee|Ee]; [left; congruence|]. right. split; [naive_solver|]. split; [done|]. split; [set_solver|done].
    + exists rfs. split; [done|]. split; [done|]. intros r. rewrite elem_of_cons, H. split; [intros (H1 & H2 & H3 & H4); split; [auto|]; split; [done|]; split; [set_solver|done]|].
      intros (H1 & H2 & H3 & H4). destruct (decide (SessionID r = sid)) as [Ee|Ee]; [congruence|]. split; [naive_solver|]. split; [done|]. split; [set_solver|done].
Qed.

(** C14: A text message reaches exactly the sessions it addresses, each once and
    never the sender, in the name of the sender, as long as the sender is
    within its rate, the text within the limit and the sender may write to
    every channel it names. Otherwise nobody but the sender hears of it. *)
Theorem text_message_exact now c rf payload tm u : live_ok EqualFold (srv c) -> Active (srv_registry (srv c)) rf = true ->
  TextMessage.Unmarshal TextMessage.zero payload = (tm, None) -> Snapshot (srv_users (srv c)) (SessionID rf) = Some u ->
  let '(c', es, err) := handleTextMessage now c rf payload in
  let ok := (rateLimitAllows now (textRateLimiter c) (SessionID rf) maxTextMessagesPerSecond).2 = true /\
    too_long (maxTextBytes (settings c)) (zlen (TextMessage.Message tm)) = false /\ permitted (srv c) u tm in
  err = None /\ srv c' = srv c /\ settings c' = settings c /\ userStateRateLimiter c' = userStateRateLimiter c /\
  (ok -> exists rfs, es = map (fun r => Send r (MTextMessage (tm <| TextMessage.Actor := SessionID rf |>))) rfs /\ NoDup (map SessionID rfs) /\
     forall r, r ∈ rfs <-> Ref (srv_registry (srv c)) (SessionID r) = Some r /\ SessionID r <> SessionID rf /\ addressed_by (srv c) u tm (SessionID r)) /\
  (~ ok -> exists d, es = [Send rf (MPermissionDenied d)]).
Proof.
  intros L HA HU Hu. pose proof (lo_server _ _ L) as W. unfold handleTextMessage, checkTextRateLimit. rewrite HA, HU, Hu. cbn [negb].
  destruct (rateLimitAllows _ _ _ _) as [l []] eqn:El; cbn [negb snd].
  2: { repeat split; try done; [intros (? & _); done|]. intros _. by eexists. }
  destruct (too_long _ _) eqn:Et; cbn -[text_denied too_long].
  { repeat split; try done; [intros (_ & H & _); cbn in Et; congruence|]. intros _. by eexists. }
  cbn in Et. destruct (text_denied (srv c) u tm) as [d|] eqn:Ed.
  - repeat split; try done.
    + intros (_ & _ & H). apply (text_denied_none _ _ _ W) in H. congruence.
    + intros _. destruct (text_denied_kind _ _ _ _ Ed) as [p ->]. by exists p.
  - repeat split; try done.
    + intros _. destruct (send_once_exact (srv c) (SessionID rf) (MTextMessage (tm <| TextMessage.Actor := SessionID rf |>))
        (text_recipients (srv c) u (tm <| TextMessage.Actor := SessionID rf |>)) W ∅) as (rfs & E1 & ND & H).
      exists rfs. split; [exact E1|]. split; [done|]. intros r. rewrite H, text_recipients_spec by done.
      assert (SessionID r ∉ (∅ : gset Z)) by set_solver. unfold addressed_by. cbn. tauto.
    + intros []. split; [done|]. split; [done|]. by apply (text_denied_none _ _ _ W).
Qed.
End Handlers.
End TextHandlers.
