(* ===== verification/ChannelHandlers.v ===== *)
(** * The handlers of ChannelState and ChannelRemove

    [handleChannelState] creates a channel or changes the description and the
    links of one; [handleChannelRemove] moves everybody out of a channel and
    takes it away. [ord] gives the order of the loops over maps. *)

From Stdlib Require Import ZArith Lia String.
From stdpp Require Import base numbers list gmap sets option.
From S2P Require Import Prelude Wire Fields Messages Codec Registry UserManager ChannelManager Acl AclCache Listeners VoiceState VoiceServer RateLimit ServerState UserStateHandler.

Module ChannelHandlers.
Import Acl AclCache Listeners VoiceFlags ChannelCrypto RateLimit VoiceServer ServerState UserStateHandler.

Section Handlers.
Context (EqualFold : gostring -> gostring -> bool).
Context `{SO : Channels.Sorter} {DB TX : Type} `{CS : Channels.ChannelStore DB TX}.
Context (ord : nat -> Channels.order).
Implicit Types (s : Server DB) (c : Core DB).

(** ** ChannelState *)

Definition create_channel s (rf : SessionRef) (u : User.t) (cs : ChannelState.t) : Server DB * list effect :=
  let parent := if ChannelState.Parent cs =? 0 then Channels.rootChannelID else ChannelState.Parent cs in
  if negb (aclCheck EqualFold s (SubjectOf u) parent PermissionMakeChannel)
  then (s, write rf (deny parent DenyPermission (str "Cannot create channel"%string))) else
  let '(m, ch, ls) := Channels.Create (srv_chans s) parent (ChannelState.Name cs) (ChannelState.Description cs) (ChannelState.Position cs)
    (ChannelState.Temporary cs) (ChannelState.MaxUsers cs) in
  let s := with_chans s m ls in
  match ch with
  | None => (s, write rf (deny 0 DenyPermission (str "Cannot create channel"%string)))
  | Some ch => (s, BroadcastChannelState EqualFold s ch)
  end.

Definition given {A} `{EqDecision A} (zero v : A) : option A := if bool_decide (v = zero) then None else Some v.
Definition opts_of (cs : ChannelState.t) : Channels.UpdateOpts :=
  Channels.mkOpts (given [] (ChannelState.Name cs)) (given [] (ChannelState.Description cs)) (given 0 (ChannelState.Position cs))
    (given 0 (ChannelState.MaxUsers cs)) (given false (ChannelState.Temporary cs)) None [] [].
Definition has_metadata (cs : ChannelState.t) : bool :=
  negb (bool_decide (ChannelState.Name cs = [])) || negb (bool_decide (ChannelState.Description cs = [])) || negb (ChannelState.Position cs =? 0) ||
  negb (ChannelState.MaxUsers cs =? 0) || ChannelState.Temporary cs.

Definition has_links (cs : ChannelState.t) : bool :=
  (0 <? zlen (ChannelState.Links cs)) || (0 <? zlen (ChannelState.LinksAdd cs)) || (0 <? zlen (ChannelState.LinksRemove cs)).
Definition desired_links (cs : ChannelState.t) (old : list Z) : gset Z :=
  let links := if 0 <? zlen (ChannelState.Links cs) then list_to_set (ChannelState.Links cs) else list_to_set old in
  (links ∪ list_to_set (ChannelState.LinksAdd cs)) ∖ list_to_set (ChannelState.LinksRemove cs).

(** The two loops that check the links; they deny with the same message. *)
Definition links_denied s (u : User.t) (cid : Z) (old : list Z) (desired : gset Z) : bool :=
  let check id := aclCheck EqualFold s (SubjectOf u) id PermissionLinkChannel in
  existsb (fun id => negb (bool_decide (id ∈ old)) && ((id =? cid) || negb (check cid) || negb (check id))) (ord 0%nat (elements desired)) ||
  existsb (fun id => negb (bool_decide (id ∈ desired)) && (negb (check cid) && negb (check id))) old.

Definition update_metadata s (cs : ChannelState.t) : Server DB * list effect :=
  if negb (has_metadata cs) then (s, []) else
  let '(m, ok, ls) := Channels.Update (ord 1%nat) (srv_chans s) (ChannelState.ChannelID cs) (opts_of cs) in
  let s := with_chans s m ls in
  if negb ok then (s, []) else
  match Channels.GetChannel (srv_chans s) (ChannelState.ChannelID cs) with
  | Some updated => (s, BroadcastChannelState EqualFold s updated)
  | None => (s, [])
  end.
Definition update_links s (rf : SessionRef) (cs : ChannelState.t) (desired : gset Z) : Server DB * list effect :=
  if negb (has_links cs) then (s, []) else
  let '(m, changed) := Channels.UpdateLinks (ord 3%nat) (ord 4%nat) (srv_chans s) (ChannelState.ChannelID cs) (ord 2%nat (elements desired)) in
  let s := with_chans s m [] in
  match changed with
  | None => (s, write rf (deny (ChannelState.ChannelID cs) DenyPermission []))
  | Some changed => (s, concat (map (fun id => match Channels.GetChannel (srv_chans s) id with
                          | Some linked => BroadcastChannelState EqualFold s linked | None => [] end) changed))
  end.

Definition update_channel s (rf : SessionRef) (u : User.t) (cs : ChannelState.t) : Server DB * list effect :=
  let cid := ChannelState.ChannelID cs in
  match Channels.GetChannel (srv_chans s) cid with
  | None => (s, [])
  | Some ch =>
      let desired := desired_links cs (Channels.Links ch) in
      if has_metadata cs && negb (aclCheck EqualFold s (SubjectOf u) cid PermissionWrite) then (s, write rf (deny cid DenyPermission [])) else
      if has_links cs && links_denied s u cid (Channels.Links ch) desired then (s, write rf (deny cid DenyPermission [])) else
      let '(s, e1) := update_metadata s cs in
      let '(s, e2) := update_links s rf cs desired in (s, e1 ++ e2)
  end.

Definition handleChannelState c (rf : SessionRef) (payload : bytes) : Core DB * list effect * option wire_error :=
  if negb (Active (srv_registry (srv c)) rf) then (c, [], None) else
  match ChannelState.Unmarshal ChannelState.zero payload with
  | (_, Some e) => (c, [], Some e)
  | (cs, None) =>
      match Snapshot (srv_users (srv c)) (SessionID rf) with
      | None => (c, [], None)
      | Some u =>
          let '(s, e) := if ChannelState.ChannelID cs =? 0 then create_channel (srv c) rf u cs else update_channel (srv c) rf u cs in
          (c <| srv := s |>, e, None)
      end
  end.

(** ** ChannelRemove *)

(** One round of the loop that moves the users to the parent. *)
Definition eject s (parentID : Z) (mu : User.t) : Server DB * list effect :=
  let sid := User.SessionID mu in
  let may := maySpeak EqualFold s (SubjectOf mu) parentID in
  let s := setChannel s sid parentID in
  let '(pc, sc) := match Snapshot (srv_users s) sid with
    | Some u => let '(_, pc, sc) := applyChannelEnterEffects (User.Voice u) may in (pc, sc) | None => (false, false) end in
  let '(s, updated) := updateUser s sid (fun u => u <| User.Voice := (applyChannelEnterEffects (User.Voice u) may).1.1 |>) in
  match updated with
  | None => (s, [])
  | Some updated =>
      let state := UserState.zero <| UserState.Session := sid |> <| UserState.ChannelID := parentID |>
        <| UserState.SetFields := Z.lor UserState.SetSession UserState.SetChannelID |> in
      let state := if pc then mark state UserState.SetPrioritySpeaker else state in
      let state := if sc then mark (state <| UserState.Suppress := Suppress (User.Voice updated) |>) UserState.SetSuppress else state in
      (s, Broadcast s 0 (MUserState state))
  end.
Fixpoint eject_all s (parentID : Z) (us : list User.t) : Server DB * list effect :=
  match us with
  | [] => (s, [])
  | mu :: us => let '(s, e1) := eject s parentID mu in let '(s, e2) := eject_all s parentID us in (s, e1 ++ e2)
  end.

(** The listeners of the channel lose it. *)
Definition drop_listeners s (cid : Z) : Server DB * list effect :=
  let '(l, sids) := Listeners.RemoveChannel (ord 5%nat) (srv_listeners s) cid in
  let s := s <| srv_listeners := l |> in
  (s, concat (map (fun sid => Broadcast s 0 (MUserState (UserState.zero <| UserState.Session := sid |>
        <| UserState.SetFields := UserState.SetSession |> <| UserState.ListeningChannelRemove := [cid] |>))) sids)).

Definition parent_of (ch : Channels.Channel) : Z := if Channels.ParentID ch =? 0 then Channels.rootChannelID else Channels.ParentID ch.
Definition remove_channel s (cr : ChannelRemove.t) (ch : Channels.Channel) : Server DB * list effect :=
  let cid := ChannelRemove.ChannelID cr in
  let parentID := parent_of ch in
  let '(s, e1) := eject_all s parentID (SnapshotByChannel (srv_users s) cid) in
  let '(s, e2) := drop_listeners s cid in
  let s := invalidateACLCache s in
  let '(m, ok, ls) := Channels.Remove (srv_chans s) cid in
  let s := with_chans s m ls in
  let e3 := if ok : bool then Broadcast s 0 (MChannelRemove cr) else [] in
  (updateChannelCrypto s parentID, e1 ++ e2 ++ e3).

Definition handleChannelRemove c (rf : SessionRef) (payload : bytes) : Core DB * list effect * option wire_error :=
  if negb (Active (srv_registry (srv c)) rf) then (c, [], None) else
  match ChannelRemove.Unmarshal ChannelRemove.zero payload with
  | (_, Some e) => (c, [], Some e)
  | (cr, None) =>
      match Snapshot (srv_users (srv c)) (SessionID rf) with
      | None => (c, [], None)
      | Some u =>
          if negb (aclCheck EqualFold (srv c) (SubjectOf u) (ChannelRemove.ChannelID cr) PermissionWrite)
          then (c, write rf (deny (ChannelRemove.ChannelID cr) DenyPermission []), None) else
          match Channels.GetChannel (srv_chans (srv c)) (ChannelRemove.ChannelID cr) with
          | None => (c, [], None)
          | Some ch => let '(s, e) := remove_channel (srv c) cr ch in (c <| srv := s |>, e, None)
          end
      end
  end.

(** ** Removing a channel *)

(** [u] as it is after it was moved to [parentID]. *)
Definition moved_to (parentID : Z) (u u' : User.t) : Prop :=
  exists may r, u' = u <| User.ChannelID := parentID |> <| User.Voice := (applyChannelEnterEffects (User.Voice u) may).1.1 |> <| User.AuthorizationRevision := r |>.

Lemma eject_exact s parentID mu : live_ok EqualFold s -> Snapshot (srv_users s) (User.SessionID mu) = Some mu ->
  let '(s', e) := eject s parentID mu in live_ok EqualFold s' /\ same_rest s s' /\ srv_listeners s' = srv_listeners s /\
  (exists mu', Snapshot (srv_users s') (User.SessionID mu) = Some mu' /\ moved_to parentID mu mu') /\
  forall sid, sid <> User.SessionID mu -> Snapshot (srv_users s') sid = Snapshot (srv_users s) sid.
Proof.
  intros L Hm. unfold eject. set (may := maySpeak _ _ _ _). destruct (setChannel_exact EqualFold s _ parentID mu L Hm) as (L1 & R1 & HL1 & H1).
  destruct (match Snapshot _ _ with Some u => _ | None => _ end) as [pc sc].
  set (s1 := setChannel s (User.SessionID mu) parentID) in *. set (fn := fun u => u <| User.Voice := (applyChannelEnterEffects (User.Voice u) may).1.1 |>).
  pose proof (updateUser_exact EqualFold s1 (User.SessionID mu) fn L1 ltac:(by intros u) ltac:(by intros u)) as H.
  destruct (updateUser s1 _ fn) as [s2 o]. destruct H as (-> & L2 & R2 & HL2 & _ & H2). rewrite H1, decide_True in H2 |- * by done. cbn [fmap option_fmap option_map] in *.
  split; [done|]. split; [by eapply same_rest_trans|]. split; [by rewrite HL2|]. split.
  - eexists. split; [by rewrite H2, decide_True|]. exists may. eexists. rewrite (settled_frame fn). unfold fn at 1. rewrite (settled_frame _ mu). by destruct mu.
  - intros sid Hs. by rewrite H2, H1, !decide_False.
Qed.

Lemma eject_all_exact parentID us : NoDup (map User.SessionID us) -> forall s, live_ok EqualFold s ->
  (forall mu, mu ∈ us -> Snapshot (srv_users s) (User.SessionID mu) = Some mu) ->
  let '(s', e) := eject_all s parentID us in live_ok EqualFold s' /\ same_rest s s' /\ srv_listeners s' = srv_listeners s /\
  (forall mu, mu ∈ us -> exists mu', Snapshot (srv_users s') (User.SessionID mu) = Some mu' /\ moved_to parentID mu mu') /\
  forall sid, sid ∉ map User.SessionID us -> Snapshot (srv_users s') sid = Snapshot (srv_users s) sid.
Proof.
  induction us as [|mu us IH]; cbn [map]; intros ND s L Hus; cbn [eject_all].
  { split; [done|]. split; [done|]. split; [done|]. split; [|done]. intros mu H. by apply elem_of_nil in H. }
  apply list.NoDup_cons in ND as [Hnew ND]. pose proof (eject_exact s parentID mu L (Hus mu ltac:(apply elem_of_cons; by left))) as H.
  destruct (eject s parentID mu) as [s1 e1]. destruct H as (L1 & R1 & HL1 & H1 & H1').
  assert (forall mu', mu' ∈ us -> Snapshot (srv_users s1) (User.SessionID mu') = Some mu') as Hus1.
  { intros mu' Hin. rewrite H1'; [apply Hus, elem_of_cons; by right|]. intros E. apply Hnew, list_elem_of_fmap. exists mu'. by rewrite E. }
  specialize (IH ND s1 L1 Hus1). destruct (eject_all s1 parentID us) as [s2 e2]. destruct IH as (L2 & R2 & HL2 & H2 & H2').
  split; [done|]. split; [by eapply same_rest_trans|]. split; [by rewrite HL2|]. split.
  - intros mu' [->|Hin]%elem_of_cons; [|by apply H2]. destruct H1 as (w & Hw & Hmv). exists w. by rewrite H2'.
  - intros sid [Hne Hni]%not_elem_of_cons. by rewrite H2', H1'.
Qed.
Hypothesis Hord : forall i, Channels.order_ok (ord i).

(** What [remove_channel] does: the users of the channel go to its parent, its
    listeners are dropped, and the channel goes when it can. *)
Record removed s s' (cid : Z) (ch : Channels.Channel) (gone : bool) : Prop := {
  rm_live : live_ok EqualFold s';
  rm_rest : srv_registry s' = srv_registry s /\ srv_store s' = srv_store s /\ voiceTargets s' = voiceTargets s /\ voice s' = voice s;
  rm_users : forall sid u, Snapshot (srv_users s) sid = Some u -> User.ChannelID u = cid ->
    exists u', Snapshot (srv_users s') sid = Some u' /\ moved_to (parent_of ch) u u';
  rm_others : forall sid, (forall u, Snapshot (srv_users s) sid = Some u -> User.ChannelID u <> cid) -> Snapshot (srv_users s') sid = Snapshot (srv_users s) sid;
  rm_listeners : forall L, refines (srv_listeners s) L -> refines (srv_listeners s') (spec_RemoveChannel L cid);
  rm_channels : forall x, Channels.GetChannel (srv_chans s') x = if decide (x = cid /\ gone = true) then None else Channels.GetChannel (srv_chans s) x;
  rm_gone : gone = true -> cid <> 0 /\ forall l, ~ Channels.kid (srv_chans s) cid l }.

Lemma invalidate_frame s : same_rest s (invalidateACLCache s) /\ srv_users (invalidateACLCache s) = srv_users s /\ srv_listeners (invalidateACLCache s) = srv_listeners s.
Proof. done. Qed.

Lemma remove_channel_exact s cr ch : live_ok EqualFold s -> Channels.GetChannel (srv_chans s) (ChannelRemove.ChannelID cr) = Some ch ->
  let '(s', e) := remove_channel s cr ch in exists gone, removed s s' (ChannelRemove.ChannelID cr) ch gone /\
    (gone = true -> exists e', e = e' ++ Broadcast s' 0 (MChannelRemove cr)) /\ gone = (Channels.Remove (srv_chans s) (ChannelRemove.ChannelID cr)).1.2.
Proof.
  intros L Hc. unfold remove_channel. set (cid := ChannelRemove.ChannelID cr) in *. pose proof (lo_server _ _ L) as W.
  pose proof (eject_all_exact (parent_of ch) (SnapshotByChannel (srv_users s) cid) (SnapshotByChannel_sessions _ cid (ok_users _ _ W)) s L) as H.
  assert (forall mu, mu ∈ SnapshotByChannel (srv_users s) cid <-> Snapshot (srv_users s) (User.SessionID mu) = Some mu /\ User.ChannelID mu = cid) as Hin
    by (intros mu; by apply (elem_of_SnapshotByChannel EqualFold)).
  specialize (H ltac:(by intros mu [? _]%Hin)). destruct (eject_all s (parent_of ch) _) as [s1 e1]. destruct H as (L1 & (R1 & R2 & R3 & R4 & R5) & HL1 & H1 & H1').
  unfold drop_listeners. destruct (Listeners.RemoveChannel (ord 5%nat) (srv_listeners s1) cid) as [l sids] eqn:El.
  assert (forall L, refines (srv_listeners s) L -> refines l (spec_RemoveChannel L cid)) as HL.
  { intros L0 R0. rewrite <- HL1 in R0. pose proof (RemoveChannel_refines (ord 5%nat) (Hord 5%nat) _ _ cid R0) as [Hr _]. by rewrite El in Hr. }
  set (s2 := s1 <| srv_listeners := l |>). assert (live_ok EqualFold s2) as L2.
  { apply with_listeners_ok; [done|]. destruct (ok_listeners _ _ W) as [L0 R0]. eauto. }
  pose proof (invalidateACLCache_ok EqualFold s2 L2) as L3. set (s3 := invalidateACLCache s2) in *.
  assert (srv_chans s3 = srv_chans s) as Ec by (cbn; done). rewrite Ec.
  pose proof (Channels.Remove_cases (srv_chans s) cid (ok_chans _ _ W)) as Hrm. destruct (Channels.Remove (srv_chans s) cid) as [[m ok] ls] eqn:Erm.
  destruct Hrm as [Wm Hrm]. pose proof (with_chans_ok EqualFold s3 (Channels.OpRemove cid) m ls L3 I ltac:(unfold chan_exec; by rewrite Ec, Erm)) as L4.
  exists ok. split; [|split; [intros ->; eexists; by rewrite app_assoc|done]]. split.
  - by apply updateChannelCrypto_ok.
  - cbn. done.
  - intros sid u Hu Hch. cbn. pose proof (Snapshot_session EqualFold s _ _ W Hu) as <-. apply H1. by apply Hin.
  - intros sid Hn. cbn. apply H1'. intros (mu & -> & [Hm1 Hm2]%Hin)%list_elem_of_fmap. by apply (Hn mu Hm1).
  - cbn. exact HL.
  - cbn. unfold Channels.GetChannel. intros x. destruct Hrm as [[-> Hx]|(-> & _ & _ & Hx)]; rewrite Hx; repeat case_decide; naive_solver.
  - intros ->. destruct Hrm as [[? _]|(_ & ? & ? & _)]; done.
Qed.
Lemma parent_exists (m : Channels.Manager DB) cid ch : Channels.chan_wf m -> Channels.GetChannel m cid = Some ch -> cid <> 0 ->
  is_Some (Channels.GetChannel m (parent_of ch)) /\ parent_of ch <> cid.
Proof.
  intros W Hc H0. unfold Channels.GetChannel in *. assert (parent_of ch = Channels.ParentID ch) as -> by (unfold parent_of; case_match eqn:E; [apply Z.eqb_eq in E; done|done]).
  apply Channels.channel_at_Some in Hc as Hc'. destruct Hc' as (l & n & Hl & _). destruct (Channels.cw_path m W cid ltac:(by eexists)) as [p Hp].
  destruct (Channels.path_parent m cid ch p Hp H0 Hc) as (p' & -> & Hp'). pose proof (Channels.path_self m _ _ Hp') as Hin.
  destruct (Channels.path_tree m _ _ Hp' _ Hin) as [l' Hl']. destruct (Channels.cw_nodes m W _ _ Hl') as (n' & Hn' & _). split.
  - exists (Channels.chan n'). apply Channels.channel_at_Some. by exists l', n'.
  - intros E. pose proof (Channels.path_NoDup m _ _ Hp) as ND. rewrite E in Hin. by apply list.NoDup_cons in ND as [? _].
Qed.

Lemma moved_to_channel p u u' : moved_to p u u' -> User.ChannelID u' = p.
Proof. by intros (may & r & ->). Qed.

Lemma removed_located s s' cid ch gone : Channels.chan_wf (srv_chans s) -> Channels.GetChannel (srv_chans s) cid = Some ch ->
  removed s s' cid ch gone -> located s -> located s'.
Proof.
  intros W Hc [L R U O _ C G] [Lu Lr]. split.
  - intros sid u' Hu'. rewrite C. destruct (Snapshot (srv_users s) sid) as [u|] eqn:Hu.
    + destruct (decide (User.ChannelID u = cid)) as [Hch|Hch].
      * destruct (U sid u Hu Hch) as (w & Hw & Hm). assert (w = u') as -> by congruence. rewrite (moved_to_channel _ _ _ Hm).
        destruct (decide (cid = 0)) as [->|H0].
        -- assert (parent_of ch = 0) as -> by (unfold parent_of; by rewrite (Lr ch Hc)). rewrite decide_False by (intros [_ [? _]%G]; done). by eexists.
        -- destruct (parent_exists _ _ _ W Hc H0) as [He Hne]. rewrite decide_False by (by intros [? _]). done.
      * rewrite O in Hu' by (intros w; rewrite Hu; by intros [= <-]). assert (u' = u) as -> by congruence.
        rewrite decide_False by (by intros [? _]). by eapply Lu.
    + rewrite O in Hu' by (intros w; by rewrite Hu). congruence.
  - intros ch'. rewrite C. destruct (decide (0 = cid /\ gone = true)) as [[<- [? _]%G]|_]; [done|apply Lr].
Qed.

(** What [handleChannelRemove] comes to. *)
Lemma handleChannelRemove_exact c rf payload : live_ok EqualFold (srv c) -> located (srv c) ->
  let '(c', es, err) := handleChannelRemove c rf payload in
  live_ok EqualFold (srv c') /\ located (srv c') /\ settings c' = settings c /\
  ((c' = c /\ (es = [] \/ exists d, es = [Send rf (MPermissionDenied d)])) \/
   exists cr u ch gone, ChannelRemove.Unmarshal ChannelRemove.zero payload = (cr, None) /\ Active (srv_registry (srv c)) rf = true /\
     Snapshot (srv_users (srv c)) (SessionID rf) = Some u /\ may EqualFold (srv c) (SubjectOf u) (ChannelRemove.ChannelID cr) PermissionWrite = true /\
     Channels.GetChannel (srv_chans (srv c)) (ChannelRemove.ChannelID cr) = Some ch /\
     removed (srv c) (srv c') (ChannelRemove.ChannelID cr) ch gone /\
     (gone = true -> exists e, es = e ++ Broadcast (srv c') 0 (MChannelRemove cr))).
Proof.
  intros L Lc. pose proof (lo_server _ _ L) as W.
  assert (forall es (P : Prop), es = [] \/ (exists d, es = [Send rf (MPermissionDenied d)]) -> live_ok EqualFold (srv c) /\ located (srv c) /\ settings c = settings c /\
    ((c = c /\ (es = [] \/ exists d, es = [Send rf (MPermissionDenied d)])) \/ P)) as Hsame by (intros es P He; do 3 (split; [done|]); by left).
  unfold handleChannelRemove. destruct (Active _ _) eqn:HA; cbn [negb]; [|apply Hsame; by left].
  destruct (ChannelRemove.Unmarshal _ _) as [cr [e|]] eqn:HU; [apply Hsame; by left|]. destruct (Snapshot _ _) as [u|] eqn:Hu; [|apply Hsame; by left].
  rewrite (aclCheck_current _ (srv c)) by done. destruct (may _ _ _ _ _) eqn:Hm; cbn [negb]; [|apply Hsame; right; by eexists].
  destruct (Channels.GetChannel _ _) as [ch|] eqn:Hc; [|apply Hsame; by left].
  pose proof (remove_channel_exact (srv c) cr ch L Hc) as H. destruct (remove_channel _ _ _) as [s' e]. destruct H as (gone & R & He & _).
  split; [apply R|]. split; [by eapply removed_located; [apply W|..]|]. split; [done|]. right. by exists cr, u, ch, gone.
Qed.

(** A ChannelRemove does exactly this, and only for a sender who may write to
    the channel: its users are moved to the parent, its listeners dropped, and
    the channel is taken away and everybody told so, unless it is the root,
    has subchannels or the database refuses; nobody is left in a channel that
    is not there. *)
Theorem channel_remove_exact c rf payload : live_ok EqualFold (srv c) -> located (srv c) ->
  let '(c', es, err) := handleChannelRemove c rf payload in
  live_ok EqualFold (srv c') /\ located (srv c') /\ settings c' = settings c /\
  ((c' = c /\ (es = [] \/ exists d, es = [Send rf (MPermissionDenied d)])) \/
   exists cr u ch gone, ChannelRemove.Unmarshal ChannelRemove.zero payload = (cr, None) /\ Active (srv_registry (srv c)) rf = true /\
     Snapshot (srv_users (srv c)) (SessionID rf) = Some u /\ may EqualFold (srv c) (SubjectOf u) (ChannelRemove.ChannelID cr) PermissionWrite = true /\
     Channels.GetChannel (srv_chans (srv c)) (ChannelRemove.ChannelID cr) = Some ch /\
     removed (srv c) (srv c') (ChannelRemove.ChannelID cr) ch gone /\
     (gone = true -> exists e, es = e ++ Broadcast (srv c') 0 (MChannelRemove cr))).
Proof. apply handleChannelRemove_exact. Qed.
(** Removing a channel that has subchannels moves its users out and leaves the
    channel where it is. *)
Theorem refused_removal_ejects c rf payload cr u ch l sid v : live_ok EqualFold (srv c) -> Active (srv_registry (srv c)) rf = true ->
  ChannelRemove.Unmarshal ChannelRemove.zero payload = (cr, None) -> Snapshot (srv_users (srv c)) (SessionID rf) = Some u ->
  may EqualFold (srv c) (SubjectOf u) (ChannelRemove.ChannelID cr) PermissionWrite = true ->
  Channels.GetChannel (srv_chans (srv c)) (ChannelRemove.ChannelID cr) = Some ch -> Channels.kid (srv_chans (srv c)) (ChannelRemove.ChannelID cr) l ->
  Snapshot (srv_users (srv c)) sid = Some v -> User.ChannelID v = ChannelRemove.ChannelID cr ->
  let c' := (handleChannelRemove c rf payload).1.1 in
  Channels.GetChannel (srv_chans (srv c')) (ChannelRemove.ChannelID cr) = Some ch /\
  exists v', Snapshot (srv_users (srv c')) sid = Some v' /\ User.ChannelID v' = parent_of ch.
Proof.
  intros L HA HU Hu Hm Hc Hk Hv Hch. unfold handleChannelRemove. rewrite HA, HU, Hu, (aclCheck_current _ (srv c)), Hm, Hc by apply L. cbn [negb].
  pose proof (remove_channel_exact (srv c) cr ch L Hc) as H. destruct (remove_channel _ _ _) as [s' e]. destruct H as (gone & [_ _ U _ _ C G] & _). cbn. split.
  - rewrite C. rewrite decide_False; [done|]. intros [_ [_ Hn]%G]. by apply (Hn l).
  - destruct (U sid v Hv Hch) as (v' & Hv' & Hmv). exists v'. split; [done|]. by apply moved_to_channel in Hmv.
Qed.

(** ** Changing a channel *)

Notation unlinked ch := (ch <| Channels.Links := [] |>).
(** The channels of the tree but for their links. *)
Definition same_but_links (m m' : Channels.Manager DB) : Prop :=
  forall x, (fun ch => unlinked ch) <$> Channels.GetChannel m' x = (fun ch => unlinked ch) <$> Channels.GetChannel m x.
Definition linked (m : Channels.Manager DB) (a b : Z) : Prop := Channels.links_to m a b \/ Channels.links_to m b a.

Lemma Update_channels (o : Channels.order) m id opts x : Channels.chan_wf m ->
  Channels.GetChannel (Channels.Update o m id opts).1.1 x =
    if decide (x = id) then (fun ch => Channels.apply_updates (Channels.updates_of o opts ch) ch) <$> Channels.GetChannel m x else Channels.GetChannel m x.
Proof.
  intros W. unfold Channels.GetChannel, Channels.Update. destruct (Channels.node_at m id) as [[l n]|] eqn:E.
  - assert (Channels.channel_at m id = Some (Channels.chan n)) as Hid by (unfold Channels.channel_at; by rewrite E).
    apply Channels.node_at_Some in E as [Hl Hn]. set (w := Channels.write_node l _ m).
    assert (Channels.channel_at w x = if decide (x = id) then Some (Channels.apply_updates (Channels.updates_of o opts (Channels.chan n)) (Channels.chan n)) else Channels.channel_at m x) as Hw.
    { unfold w, Channels.channel_at, Channels.node_at. cbn. destruct (decide (x = id)) as [->|Hne].
      - rewrite Hl. cbn. by rewrite lookup_insert_eq.
      - destruct (Channels.tree m !! x) as [lx|] eqn:Hx; [|done]. cbn. rewrite lookup_insert_ne; [done|]. intros <-.
        destruct (Channels.cw_nodes m W _ _ Hx) as (? & ? & ?), (Channels.cw_nodes m W _ _ Hl) as (? & ? & ?). congruence. }
    transitivity (Channels.channel_at w x); [|rewrite Hw; destruct (decide (x = id)) as [->|]; [by rewrite Hid|done]].
    destruct (Channels.updates_empty _); [reflexivity|]. by destruct (Channels.dbUpdates _ _ _).
  - cbn. destruct (decide (x = id)) as [->|]; [|done]. unfold Channels.channel_at. by rewrite E.
Qed.

(** What a message makes of a channel: what it gives, and otherwise what was
    there; a channel that is temporary stays so. *)
Definition described (cs : ChannelState.t) (ch : Channels.Channel) : Channels.Channel :=
  ch <| Channels.Name := if decide (ChannelState.Name cs = []) then Channels.Name ch else ChannelState.Name cs |>
     <| Channels.Description := if decide (ChannelState.Description cs = []) then Channels.Description ch else ChannelState.Description cs |>
     <| Channels.Position := if decide (ChannelState.Position cs = 0) then Channels.Position ch else ChannelState.Position cs |>
     <| Channels.MaxUsers := if decide (ChannelState.MaxUsers cs = 0) then Channels.MaxUsers ch else ChannelState.MaxUsers cs |>
     <| Channels.IsTemporary := ChannelState.Temporary cs || Channels.IsTemporary ch |>.
Definition asks_metadata (cs : ChannelState.t) : Prop :=
  ChannelState.Name cs <> [] \/ ChannelState.Description cs <> [] \/ ChannelState.Position cs <> 0 \/ ChannelState.MaxUsers cs <> 0 \/ ChannelState.Temporary cs = true.
Lemma has_metadata_spec cs : has_metadata cs = true <-> asks_metadata cs.
Proof. unfold has_metadata, asks_metadata. rewrite !orb_true_iff, !negb_true_iff, !bool_decide_eq_false, !Z.eqb_neq. tauto. Qed.
Lemma opts_described o cs ch : Channels.apply_updates (Channels.updates_of o (opts_of cs) ch) ch = described cs ch.
Proof.
  unfold Channels.apply_updates, Channels.updates_of, opts_of, described, given. cbn [Channels.up_name Channels.up_description Channels.up_position Channels.up_max_users
    Channels.up_is_temporary Channels.up_links Channels.new_links Channels.opt_Name Channels.opt_Description Channels.opt_Position Channels.opt_MaxUsers Channels.opt_Temporary
    Channels.opt_Links Channels.opt_LinksAdd Channels.opt_LinksRemove]. rewrite (bool_decide_eq_true_2 ([] = [])) by done. cbn [andb].
  unfold bool_decide. repeat case_decide; destruct ch; cbn in *; destruct (ChannelState.Temporary cs); done.
Qed.
Lemma described_idle cs ch : has_metadata cs = false -> described cs ch = ch.
Proof.
  intros H. assert (~ asks_metadata cs) as N by (rewrite <- has_metadata_spec; congruence). unfold asks_metadata in N. unfold described.
  destruct (ChannelState.Temporary cs); [tauto|]. rewrite !decide_True by (apply dec_stable; tauto). by destruct ch.
Qed.
Lemma described_frame cs ch : Channels.ID (described cs ch) = Channels.ID ch /\ Channels.ParentID (described cs ch) = Channels.ParentID ch /\
  Channels.Links (described cs ch) = Channels.Links ch /\ Channels.InheritACL (described cs ch) = Channels.InheritACL ch.
Proof. done. Qed.

Lemma set_links_frame ups : forall m, Channels.chan_wf m -> same_but_links m (fold_left (fun m '(id, ls) => Channels.set_links m id ls) ups m).
Proof.
  induction ups as [|[id ls] ups IH]; intros m W x; [done|]. cbn [fold_left]. rewrite IH by (eapply Channels.same_shape_wf; [apply Channels.set_links_same_shape|done]).
  unfold Channels.GetChannel. rewrite Channels.set_links_channel by done. case_decide; [|done]. by destruct (Channels.channel_at m x).
Qed.
Lemma UpdateLinks_frame o1 o2 m cid desired : Channels.chan_wf m -> same_but_links m (Channels.UpdateLinks o1 o2 m cid desired).1.
Proof.
  intros W. unfold Channels.UpdateLinks. destruct (Channels.channel_at m cid); [|done]. destruct (existsb _ _); [done|].
  match goal with |- context [if ?b then (m, Some []) else _] => destruct b end; [done|]. destruct (Channels.save_links _ _) as [d|] eqn:E; [|done].
  apply Channels.save_links_ids in E. cbn [fst]. intros x. rewrite set_links_frame; [done|]. eapply Channels.same_shape_wf; [apply Channels.same_shape_db; by rewrite E|done].
Qed.
Lemma same_but_links_there m m' x : same_but_links m m' -> is_Some (Channels.GetChannel m' x) <-> is_Some (Channels.GetChannel m x).
Proof. intros H. specialize (H x). destruct (Channels.GetChannel m' x), (Channels.GetChannel m x); cbn in H; try done; by split; intros []. Qed.

(** Only the channels, and with them the evaluator, change. *)
Definition only_chans s s' : Prop :=
  srv_users s' = srv_users s /\ srv_registry s' = srv_registry s /\ srv_listeners s' = srv_listeners s /\ srv_crypto s' = srv_crypto s /\
  srv_store s' = srv_store s /\ voiceTargets s' = voiceTargets s /\ voice s' = voice s.
Lemma only_chans_trans s1 s2 s3 : only_chans s1 s2 -> only_chans s2 s3 -> only_chans s1 s3.
Proof. unfold only_chans. intuition congruence. Qed.
Lemma with_chans_only s m ls : only_chans s (with_chans s m ls).
Proof. done. Qed.

Lemma update_metadata_exact s cs : live_ok EqualFold s ->
  let '(s', e) := update_metadata s cs in live_ok EqualFold s' /\ only_chans s s' /\ Channels.tree (srv_chans s') = Channels.tree (srv_chans s) /\
  forall x, Channels.GetChannel (srv_chans s') x = if decide (x = ChannelState.ChannelID cs)
    then described cs <$> Channels.GetChannel (srv_chans s) x
    else Channels.GetChannel (srv_chans s) x.
Proof.
  intros L. pose proof (ok_chans _ _ (lo_server _ _ L)) as W. unfold update_metadata. destruct (has_metadata cs) eqn:Hm; cbn [negb].
  - pose proof (Update_channels (ord 1%nat) (srv_chans s) (ChannelState.ChannelID cs) (opts_of cs)) as H.
    pose proof (Channels.Update_same_shape (ord 1%nat) (srv_chans s) (ChannelState.ChannelID cs) (opts_of cs)) as S.
    destruct (Channels.Update _ _ _ _) as [[m ok] ls] eqn:E. cbn [fst] in H, S.
    pose proof (with_chans_ok EqualFold s (Channels.OpUpdate (ord 1%nat) (ChannelState.ChannelID cs) (opts_of cs)) m ls L I ltac:(cbn; by rewrite E)) as L'.
    assert (live_ok EqualFold (with_chans s m ls) /\ only_chans s (with_chans s m ls) /\ Channels.tree (srv_chans (with_chans s m ls)) = Channels.tree (srv_chans s) /\
      forall x, Channels.GetChannel (srv_chans (with_chans s m ls)) x = if decide (x = ChannelState.ChannelID cs)
        then described cs <$> Channels.GetChannel (srv_chans s) x
        else Channels.GetChannel (srv_chans s) x) as R.
    { split; [done|]. split; [apply with_chans_only|]. split; [apply S|]. intros x. etransitivity; [apply (H x W)|]. destruct (decide _); [|done].
      destruct (Channels.GetChannel (srv_chans s) x); [|done]. cbn [fmap option_fmap option_map]. by rewrite opts_described. }
    destruct ok; cbn [negb]; [|exact R]. destruct (Channels.GetChannel _ _); exact R.
  - split; [done|]. split; [done|]. split; [done|]. intros x. case_decide; [|done]. destruct (Channels.GetChannel _ x) as [ch|]; [|done].
    cbn [fmap option_fmap option_map]. by rewrite described_idle.
Qed.

Lemma links_to_same (m m' : Channels.Manager DB) a b : Channels.tree m' = Channels.tree m ->
  Channels.Links <$> Channels.GetChannel m' a = Channels.Links <$> Channels.GetChannel m a -> Channels.links_to m' a b <-> Channels.links_to m a b.
Proof.
  intros HT HL. rewrite (Channels.links_to_iff m m'), (Channels.links_to_iff m m) by done. unfold Channels.links_of. unfold Channels.GetChannel in HL. by rewrite HL.
Qed.

(** The database can refuse to store links. *)
Definition links_refused s (cid : Z) (desired : Z -> Prop) : Prop :=
  (exists b, desired b /\ (b = cid \/ Channels.GetChannel (srv_chans s) b = None)) \/ exists (d : DB) ups, Channels.save_links d ups = None.
Lemma update_links_exact s rf cs desired : live_ok EqualFold s -> is_Some (Channels.GetChannel (srv_chans s) (ChannelState.ChannelID cs)) ->
  let '(s', e) := update_links s rf cs desired in live_ok EqualFold s' /\ only_chans s s' /\ same_but_links (srv_chans s) (srv_chans s') /\
  ((forall a b, Channels.links_to (srv_chans s') a b <-> Channels.links_to (srv_chans s) a b) /\
     (has_links cs = true -> links_refused s (ChannelState.ChannelID cs) (fun b => b ∈ desired)) \/
   has_links cs = true /\ Channels.tree (srv_chans s') = Channels.tree (srv_chans s) /\
   (forall b, b ∈ desired -> b <> ChannelState.ChannelID cs /\ is_Some (Channels.tree (srv_chans s) !! b)) /\
   (forall b, Channels.links_to (srv_chans s') (ChannelState.ChannelID cs) b <-> b ∈ desired) /\
   (forall a, a <> ChannelState.ChannelID cs -> is_Some (Channels.tree (srv_chans s) !! a) -> Channels.links_to (srv_chans s') a (ChannelState.ChannelID cs) <-> a ∈ desired) /\
   (forall a b, a <> ChannelState.ChannelID cs -> b <> ChannelState.ChannelID cs -> Channels.links_to (srv_chans s') a b <-> Channels.links_to (srv_chans s) a b)).
Proof.
  intros L Hex. pose proof (ok_chans _ _ (lo_server _ _ L)) as W. unfold update_links. destruct (has_links cs) eqn:Hl; cbn [negb]; [|by split; [|split; [|split; [|left]]]].
  pose proof (Channels.UpdateLinks_cases (ord 3%nat) (ord 4%nat) (srv_chans s) (ChannelState.ChannelID cs) (ord 2%nat (elements desired)) W (Hord _) (Hord _)) as H.
  pose proof (UpdateLinks_frame (ord 3%nat) (ord 4%nat) (srv_chans s) (ChannelState.ChannelID cs) (ord 2%nat (elements desired)) W) as F.
  pose proof (Channels.UpdateLinks_refused (ord 3%nat) (ord 4%nat) (srv_chans s) (ChannelState.ChannelID cs) (ord 2%nat (elements desired))) as N.
  destruct (Channels.UpdateLinks _ _ _ _ _) as [m changed] eqn:E. cbn [fst] in F.
  pose proof (with_chans_ok EqualFold s (Channels.OpUpdateLinks (ord 3%nat) (ord 4%nat) (ChannelState.ChannelID cs) (ord 2%nat (elements desired))) m [] L (conj (Hord _) (Hord _)) ltac:(cbn; by rewrite E)) as L'.
  assert (forall x, x ∈ ord 2%nat (elements desired) <-> x ∈ desired) as Hd by (intros x; by rewrite (Hord 2%nat (elements desired)), elem_of_elements).
  destruct changed as [changed|]; (split; [done|]); (split; [apply with_chans_only|]); (split; [done|]); [right|left].
  - destruct H as (W' & HT & H1 & H2 & H3 & _). cbn. split; [done|]. split; [done|]. setoid_rewrite Hd in H1. setoid_rewrite Hd in H2.
    split; [|by auto]. intros b Hb. apply H1, Channels.links_to_iff with (m := srv_chans s) in Hb; [|done]. by destruct Hb as (_ & ? & ?).
  - split; [by subst m|]. intros _. destruct (N eq_refl) as [Hn|[(x & Hx & Hw)|[ups Hu]]].
    + unfold Channels.GetChannel in Hex. rewrite Hn in Hex. by destruct Hex.
    + left. exists x. split; [by apply Hd|]. destruct Hw as [->|Hn]; [by left|right]. unfold Channels.GetChannel, Channels.channel_at, Channels.node_at. by rewrite Hn.
    + right. eauto.
Qed.
(** ** What a ChannelState may do *)

(** The channel [x] of [s'] is new and as the message describes it. *)
Record made s s' (cs : ChannelState.t) (x : Z) (ch : Channels.Channel) : Prop := {
  ma_new : Channels.GetChannel (srv_chans s) x = None;
  ma_only : forall y, Channels.GetChannel (srv_chans s') y = if decide (y = x) then Some ch else Channels.GetChannel (srv_chans s) y;
  ma_parent : is_Some (Channels.GetChannel (srv_chans s) (ChannelState.Parent cs));
  ma_name : ChannelState.Name cs <> [];
  ma_asked : Channels.asked ch (ChannelState.Parent cs) (ChannelState.Name cs) (ChannelState.Description cs) (ChannelState.Position cs)
    (ChannelState.Temporary cs) (ChannelState.MaxUsers cs) }.

(** A message without a channel asks for a new one: who may MakeChannel in the
    parent gets it, temporary or not, and everybody is told; it is not made
    without a parent or a name, or when the database refuses the row. *)
Definition created s s' (rf : SessionRef) (u : User.t) (cs : ChannelState.t) (es : list effect) : Prop :=
  ChannelState.ChannelID cs = 0 /\
  if may EqualFold s (SubjectOf u) (ChannelState.Parent cs) PermissionMakeChannel
  then (exists x ch, made s s' cs x ch /\ es = BroadcastChannelState EqualFold s' ch) \/
       ((forall x, Channels.GetChannel (srv_chans s') x = Channels.GetChannel (srv_chans s) x) /\ (exists d, es = [Send rf (MPermissionDenied d)]) /\
        (Channels.GetChannel (srv_chans s) (ChannelState.Parent cs) = None \/ ChannelState.Name cs = [] \/
         exists r, (Channels.dbCreate (Channels.db (srv_chans s)) r).2 = None))
  else s' = s /\ exists d, es = [Send rf (MPermissionDenied d)].

Definition asks_links (cs : ChannelState.t) : Prop := ChannelState.Links cs <> [] \/ ChannelState.LinksAdd cs <> [] \/ ChannelState.LinksRemove cs <> [].
(** The links a message wants for a channel that has the links [old]. *)
Definition wanted (cs : ChannelState.t) (old : list Z) (b : Z) : Prop :=
  (b ∈ (if decide (ChannelState.Links cs = []) then old else ChannelState.Links cs) \/ b ∈ ChannelState.LinksAdd cs) /\ b ∉ ChannelState.LinksRemove cs.
(** What a change needs: Write for the description, LinkChannel on both ends of
    every new link and on one end of every link that goes. *)
Definition may_change s (u : User.t) (cs : ChannelState.t) (ch : Channels.Channel) : Prop :=
  let cid := ChannelState.ChannelID cs in let link id := may EqualFold s (SubjectOf u) id PermissionLinkChannel = true in
  (asks_metadata cs -> may EqualFold s (SubjectOf u) cid PermissionWrite = true) /\
  (asks_links cs ->
    (forall b, wanted cs (Channels.Links ch) b -> b ∉ Channels.Links ch -> b <> cid /\ link cid /\ link b) /\
    (forall b, b ∈ Channels.Links ch -> ~ wanted cs (Channels.Links ch) b -> link cid \/ link b)).

(** The channel is described anew, its links are those wanted, and the
    channels it links to link back; if a wanted channel is not there, or the
    database refuses, all links stay. No other channel changes but for its
    link to this one. *)
Record channel_changed s s' (u : User.t) (cs : ChannelState.t) (ch : Channels.Channel) : Prop := {
  cc_channels : forall x, (fun ch => unlinked ch) <$> Channels.GetChannel (srv_chans s') x =
    if decide (x = ChannelState.ChannelID cs) then Some (unlinked (described cs ch)) else (fun ch => unlinked ch) <$> Channels.GetChannel (srv_chans s) x;
  cc_links : (forall a b, Channels.links_to (srv_chans s') a b <-> Channels.links_to (srv_chans s) a b) /\
      (asks_links cs -> links_refused s (ChannelState.ChannelID cs) (wanted cs (Channels.Links ch))) \/
    asks_links cs /\ (forall b, Channels.links_to (srv_chans s') (ChannelState.ChannelID cs) b <-> wanted cs (Channels.Links ch) b) /\
      (forall a, a <> ChannelState.ChannelID cs -> is_Some (Channels.GetChannel (srv_chans s) a) ->
        Channels.links_to (srv_chans s') a (ChannelState.ChannelID cs) <-> wanted cs (Channels.Links ch) a);
  cc_others : forall a b, a <> ChannelState.ChannelID cs -> b <> ChannelState.ChannelID cs ->
    Channels.links_to (srv_chans s') a b <-> Channels.links_to (srv_chans s) a b }.
Definition altered s s' (rf : SessionRef) (u : User.t) (cs : ChannelState.t) (es : list effect) : Prop :=
  ChannelState.ChannelID cs <> 0 /\
  match Channels.GetChannel (srv_chans s) (ChannelState.ChannelID cs) with
  | None => s' = s /\ es = []
  | Some ch => (may_change s u cs ch /\ channel_changed s s' u cs ch) \/ (~ may_change s u cs ch /\ s' = s /\ exists d, es = [Send rf (MPermissionDenied d)])
  end.

Lemma create_channel_exact s rf u cs : live_ok EqualFold s -> ChannelState.ChannelID cs = 0 ->
  let '(s', e) := create_channel s rf u cs in live_ok EqualFold s' /\ only_chans s s' /\ created s s' rf u cs e.
Proof.
  intros L H0. pose proof (ok_chans _ _ (lo_server _ _ L)) as W. unfold create_channel, created.
  assert ((if ChannelState.Parent cs =? 0 then Channels.rootChannelID else ChannelState.Parent cs) = ChannelState.Parent cs) as ->
    by (case_match eqn:E; [by apply Z.eqb_eq in E|done]).
  rewrite (aclCheck_current _ s) by apply L. destruct (may _ _ _ _ _) eqn:Hm; cbn [negb]; [|split; [done|]; split; [done|]; split; [done|]; split; [done|by eexists]].
  pose proof (Channels.Create_cases (srv_chans s) (ChannelState.Parent cs) (ChannelState.Name cs) (ChannelState.Description cs) (ChannelState.Position cs)
    (ChannelState.Temporary cs) (ChannelState.MaxUsers cs) W) as H.
  pose proof (Channels.Create_asked (srv_chans s) (ChannelState.Parent cs) (ChannelState.Name cs) (ChannelState.Description cs) (ChannelState.Position cs)
    (ChannelState.Temporary cs) (ChannelState.MaxUsers cs)) as HA.
  pose proof (Channels.Create_refused (srv_chans s) (ChannelState.Parent cs) (ChannelState.Name cs) (ChannelState.Description cs) (ChannelState.Position cs)
    (ChannelState.Temporary cs) (ChannelState.MaxUsers cs)) as HR.
  destruct (Channels.Create _ _ _ _ _ _ _) as [[m o] ls] eqn:E.
  pose proof (with_chans_ok EqualFold s (Channels.OpCreate (ChannelState.Parent cs) (ChannelState.Name cs) (ChannelState.Description cs) (ChannelState.Position cs)
    (ChannelState.Temporary cs) (ChannelState.MaxUsers cs)) m ls L I ltac:(cbn; by rewrite E)) as L'. cbn [fst snd] in HA, HR.
  destruct H as [(-> & _ & H)|(ch & d & pl & pn & -> & [lp Hlp] & Hname & Hp & Hnew & _ & _ & H)]; (split; [done|]); (split; [apply with_chans_only|]); (split; [done|]).
  - right. split; [exact H|]. split; [by eexists|]. by apply HR.
  - left. exists (Channels.ID ch), ch. split; [|done]. split; [|exact H| |done|by apply HA].
    + unfold Channels.GetChannel, Channels.channel_at, Channels.node_at. by rewrite Hnew.
    + destruct (Channels.cw_nodes _ W _ _ Hlp) as (n & Hn & _). exists (Channels.chan n). apply Channels.channel_at_Some. by exists lp, n.
Qed.

Lemma has_links_spec cs : has_links cs = true <-> asks_links cs.
Proof.
  unfold has_links, asks_links. rewrite !orb_true_iff, !Z.ltb_lt. unfold zlen.
  destruct (ChannelState.Links cs), (ChannelState.LinksAdd cs), (ChannelState.LinksRemove cs); cbn; naive_solver lia.
Qed.
Lemma elem_of_desired cs old b : b ∈ desired_links cs old <-> wanted cs old b.
Proof.
  unfold desired_links, wanted. rewrite elem_of_difference, elem_of_union, !elem_of_list_to_set. case_decide as E; destruct (Z.ltb_spec 0 (zlen (ChannelState.Links cs))) as [Hl|Hl];
    rewrite elem_of_list_to_set; try done; exfalso.
  - rewrite E in Hl. by cbn in Hl.
  - destruct (ChannelState.Links cs); [done|]. unfold zlen in Hl. cbn in Hl. lia.
Qed.
Lemma existsb_false {A} (f : A -> bool) l : existsb f l = false <-> forall x, x ∈ l -> f x = false.
Proof.
  rewrite <- not_true_iff_false, existsb_exists. split.
  - intros H x Hx. apply not_true_iff_false. intros E. apply H. exists x. by rewrite <- list_elem_of_In.
  - intros H (x & Hx%list_elem_of_In & E). by rewrite H in E.
Qed.
Lemma links_denied_false s u cid old desired : live_ok EqualFold s ->
  let link id := may EqualFold s (SubjectOf u) id PermissionLinkChannel = true in
  links_denied s u cid old desired = false <->
  (forall b, b ∈ desired -> b ∉ old -> b <> cid /\ link cid /\ link b) /\ (forall b, b ∈ old -> b ∉ desired -> link cid \/ link b).
Proof.
  intros L link. unfold links_denied. rewrite orb_false_iff, !existsb_false. setoid_rewrite (Hord 0%nat (elements desired)). setoid_rewrite elem_of_elements.
  unfold link. split; intros [H1 H2]; (split; [clear H2; rename H1 into H|clear H1; rename H2 into H]); intros b Hb.
  - intros Hn. specialize (H b Hb). cbn beta in H. rewrite bool_decide_eq_false_2, !(aclCheck_current _ s) in H by (done || apply L).
    cbn [negb andb] in H. by apply orb_false_iff in H as [[?%Z.eqb_neq ?%negb_false_iff]%orb_false_iff ?%negb_false_iff].
  - intros Hn. specialize (H b Hb). cbn beta in H. rewrite bool_decide_eq_false_2, !(aclCheck_current _ s) in H by (done || apply L). cbn [negb andb] in H.
    destruct (may _ _ _ cid _); [by left|]. destruct (may _ _ _ b _); [by right|done].
  - rewrite !(aclCheck_current _ s) by apply L. case_bool_decide as Hn; cbn [negb andb]; [done|]. destruct (H b Hb Hn) as (->%Z.eqb_neq & -> & ->). done.
  - rewrite !(aclCheck_current _ s) by apply L. case_bool_decide as Hn; cbn [negb andb]; [done|]. by destruct (H b Hb Hn) as [-> | ->]; rewrite ?andb_false_r.
Qed.
(** The two guards refuse exactly what is not permitted. *)
Lemma guards_exact s u cs ch : live_ok EqualFold s -> let cid := ChannelState.ChannelID cs in
  (has_metadata cs && negb (aclCheck EqualFold s (SubjectOf u) cid PermissionWrite)) || (has_links cs && links_denied s u cid (Channels.Links ch) (desired_links cs (Channels.Links ch))) = false <->
  may_change s u cs ch.
Proof.
  intros L cid. unfold may_change. rewrite orb_false_iff, <- has_metadata_spec, <- has_links_spec, (aclCheck_current _ s) by apply L.
  pose proof (links_denied_false s u cid (Channels.Links ch) (desired_links cs (Channels.Links ch)) L) as D. cbn zeta beta in D. setoid_rewrite elem_of_desired in D. fold cid.
  rewrite <- D. destruct (has_metadata cs), (has_links cs), (may _ _ _ cid PermissionWrite); cbn [negb andb]; intuition congruence.
Qed.

Lemma update_channel_exact s rf u cs : live_ok EqualFold s -> ChannelState.ChannelID cs <> 0 ->
  let '(s', e) := update_channel s rf u cs in live_ok EqualFold s' /\ only_chans s s' /\ altered s s' rf u cs e.
Proof.
  intros L H0. unfold update_channel, altered. set (cid := ChannelState.ChannelID cs) in *. destruct (Channels.GetChannel (srv_chans s) cid) as [ch|] eqn:Hc; [|done].
  pose proof (guards_exact s u cs ch L) as G. cbn zeta in G. fold cid in G. set (desired := desired_links cs (Channels.Links ch)) in *.
  destruct (has_metadata cs && _).
  { split; [done|]. split; [done|]. split; [done|]. right. split; [by rewrite <- G|]. split; [done|by eexists]. }
  destruct (has_links cs && _).
  { split; [done|]. split; [done|]. split; [done|]. right. split; [by rewrite <- G|]. split; [done|by eexists]. }
  pose proof (update_metadata_exact s cs L) as H1. destruct (update_metadata s cs) as [s1 e1]. destruct H1 as (L1 & O1 & T1 & H1). fold cid in H1.
  assert (is_Some (Channels.GetChannel (srv_chans s1) cid)) as Hex by (rewrite H1, decide_True, Hc by done; by eexists).
  pose proof (update_links_exact s1 rf cs desired L1 Hex) as H2. destruct (update_links s1 rf cs desired) as [s2 e2]. destruct H2 as (L2 & O2 & F2 & H2).
  fold cid in H2. split; [done|]. split; [by eapply only_chans_trans|]. split; [done|]. left. split; [by apply G|].
  assert (forall a b, Channels.links_to (srv_chans s1) a b <-> Channels.links_to (srv_chans s) a b) as HL1.
  { intros a b. apply links_to_same; [done|]. rewrite H1. case_decide; [|done]. by destruct (Channels.GetChannel (srv_chans s) a). }
  assert (forall x, is_Some (Channels.GetChannel (srv_chans s1) x) <-> is_Some (Channels.GetChannel (srv_chans s) x)) as HE.
  { intros x. rewrite H1. case_decide; [|done]. destruct (Channels.GetChannel (srv_chans s) x); [|done]. by split; eexists. }
  split.
  - intros x. rewrite (F2 x), H1. fold cid. case_decide; [|done]. subst x. by rewrite Hc.
  - fold cid. rewrite <- has_links_spec. destruct H2 as [[H2 Hr]|(Hh & T2 & Hd & Hfrom & Hto & Hoth)]; [left|right].
    + split; [by intros a b; rewrite H2|]. intros Hl. destruct (Hr Hl) as [(b & Hb & Hw)|Hs]; [|by right]. left. exists b. split; [by apply elem_of_desired|]. destruct Hw as [->|Hn]; [by left|right].
      apply eq_None_not_Some. rewrite <- HE. by rewrite Hn; intros [].
    + setoid_rewrite <- elem_of_desired. split; [done|]. split; [done|]. intros a Ha Hs. apply Hto; [done|]. rewrite T1. unfold Channels.GetChannel in Hs. destruct Hs as [c Hs].
      apply Channels.channel_at_Some in Hs as (l & n & Hl & _). by eexists.
  - fold cid. intros a b Ha Hb. destruct H2 as [[H2 _]|(_ & _ & _ & _ & _ & H2)]; [by rewrite H2, HL1|by rewrite H2, HL1].
Qed.

(** Users stay in channels that are there. *)
Lemma kept_located s s' : only_chans s s' -> located s ->
  (forall x ch, Channels.GetChannel (srv_chans s) x = Some ch -> exists ch', Channels.GetChannel (srv_chans s') x = Some ch' /\ Channels.ParentID ch' = Channels.ParentID ch) ->
  is_Some (Channels.GetChannel (srv_chans s) 0) -> located s'.
Proof.
  intros (E & _) [Lu Lr] K [r Hr]. split.
  - intros sid v. rewrite E. intros Hv. destruct (Lu sid v Hv) as [ch Hc]. destruct (K _ _ Hc) as (ch' & ? & _). by exists ch'.
  - intros ch' Hc'. destruct (K _ _ Hr) as (c & Hc & Ep). rewrite Hc in Hc'. injection Hc' as <-. rewrite Ep. by apply Lr.
Qed.
Lemma created_located s s' rf u cs es : Channels.chan_wf (srv_chans s) -> only_chans s s' -> created s s' rf u cs es -> located s -> located s'.
Proof.
  intros W O [_ C] Lc. assert (is_Some (Channels.GetChannel (srv_chans s) 0)) as Hr.
  { destruct (Channels.cw_root _ W) as [l Hl]. destruct (Channels.cw_nodes _ W _ _ Hl) as (n & Hn & _). exists (Channels.chan n). apply Channels.channel_at_Some. by exists l, n. }
  apply (kept_located s s' O Lc); [|done]. intros x ch Hx. exists ch. split; [|done]. destruct (may _ _ _ _ _); [|by destruct C as [-> _]].
  destruct C as [(y & c & [N A _ _ _] & _)|(A & _)]; rewrite A; [|done]. rewrite decide_False; [done|congruence].
Qed.
Lemma altered_located s s' rf u cs es : Channels.chan_wf (srv_chans s) -> only_chans s s' -> altered s s' rf u cs es -> located s -> located s'.
Proof.
  intros W O [_ C] Lc. assert (is_Some (Channels.GetChannel (srv_chans s) 0)) as Hr.
  { destruct (Channels.cw_root _ W) as [l Hl]. destruct (Channels.cw_nodes _ W _ _ Hl) as (n & Hn & _). exists (Channels.chan n). apply Channels.channel_at_Some. by exists l, n. }
  apply (kept_located s s' O Lc); [|done]. intros x ch Hx. destruct (Channels.GetChannel (srv_chans s) (ChannelState.ChannelID cs)) as [c|] eqn:Hc; [|destruct C as [-> _]; eauto].
  destruct C as [[_ [A _ _]]|[_ [-> _]]]; [|eauto]. specialize (A x). destruct (Channels.GetChannel (srv_chans s') x) as [ch'|].
  - exists ch'. split; [done|]. cbn in A. case_decide as Ex.
    + subst x. injection A. intros. assert (c = ch) as -> by congruence. done.
    + rewrite Hx in A. injection A. done.
  - cbn in A. case_decide; [done|]. by rewrite Hx in A.
Qed.

(** What [handleChannelState] comes to. *)
Definition state_handled c c' (rf : SessionRef) (payload : bytes) (es : list effect) (err : option wire_error) : Prop :=
  (c' = c /\ es = [] /\ (Active (srv_registry (srv c)) rf = false \/ is_Some err /\ (ChannelState.Unmarshal ChannelState.zero payload).2 = err \/
     Snapshot (srv_users (srv c)) (SessionID rf) = None)) \/
  exists cs u, err = None /\ Active (srv_registry (srv c)) rf = true /\ ChannelState.Unmarshal ChannelState.zero payload = (cs, None) /\
    Snapshot (srv_users (srv c)) (SessionID rf) = Some u /\ (created (srv c) (srv c') rf u cs es \/ altered (srv c) (srv c') rf u cs es).
Lemma handleChannelState_exact c rf payload : live_ok EqualFold (srv c) -> located (srv c) ->
  let '(c', es, err) := handleChannelState c rf payload in
  live_ok EqualFold (srv c') /\ located (srv c') /\ settings c' = settings c /\ only_chans (srv c) (srv c') /\ state_handled c c' rf payload es err.
Proof.
  intros L Lc. pose proof (lo_server _ _ L) as W. unfold handleChannelState, state_handled.
  destruct (Active _ _) eqn:HA; cbn [negb]; [|do 4 (split; [done|]); left; auto].
  destruct (ChannelState.Unmarshal _ _) as [cs [e|]] eqn:HU; [do 4 (split; [done|]); left; split_and!; [done..|right; left; by eauto]|].
  destruct (Snapshot _ _) as [u|] eqn:Hu; [|do 4 (split; [done|]); left; auto]. destruct (ChannelState.ChannelID cs =? 0) eqn:H0.
  - apply Z.eqb_eq in H0. pose proof (create_channel_exact (srv c) rf u cs L H0) as H. destruct (create_channel _ _ _ _) as [s' e]. destruct H as (L' & O & C).
    split; [done|]. split; [by eapply created_located; [apply W|..]|]. split; [done|]. split; [done|]. right. exists cs, u. auto 10.
  - apply Z.eqb_neq in H0. pose proof (update_channel_exact (srv c) rf u cs L H0) as H. destruct (update_channel _ _ _ _) as [s' e]. destruct H as (L' & O & C).
    split; [done|]. split; [by eapply altered_located; [apply W|..]|]. split; [done|]. split; [done|]. right. exists cs, u. auto 10.
Qed.

End Handlers.
End ChannelHandlers.
