(* ===== verification/SessionHandlers.v ===== *)
(** * The end of a session

    Kicks, bans, disconnects and failed connections: [UnregisterConn],
    [KickSessionRef], [KickSession], [BanAndKickSession], [MuteSession],
    [handleUserRemove], [handleBanList] of [internal/mumble/handlers.go],
    [controlFailed] and [closeFailedSync] of [control_transport.go],
    [LocalEdge.OnClose] of [localedge.go]. The locks of the registry are the
    business of [RegistryConc]; here one call follows the other.

    [now] is the clock, [connIP] the address of a local connection; the string
    functions of [Ban] are parameters. *)

From Stdlib Require Import ZArith Lia String.
From stdpp Require Import base numbers list gmap sets option countable.
From S2P Require Import Prelude Wire Fields Messages Codec Registry UserManager ChannelManager Acl AclCache Listeners VoiceState VoiceServer Ban RateLimit ServerState UserStateHandler TextHandlers ChannelHandlers.

Module SessionHandlers.
Import Acl AclCache Listeners VoiceFlags ChannelCrypto RateLimit VoiceServer ServerState UserStateHandler TextHandlers ChannelHandlers.

(** The server with its ban list and its local connections; an address is
    known by its string. *)
Record Site {DB BDB : Type} := mkSite {
  core : Core DB;
  bans : Ban.Manager (DB := BDB);
  conns : gset Z;
  addrBySession : gmap SessionRef gostring;
  sessionByAddr : gmap gostring SessionRef }.
Arguments Site : clear implicits.
#[global] Instance Site_eta {DB BDB} : Eta (Site DB BDB) := fun t => mkSite DB BDB (core t) (bans t) (conns t) (addrBySession t) (sessionByAddr t).

Section Handlers.
Context (EqualFold : gostring -> gostring -> bool).
Context `{SO : Channels.Sorter} {DB TX : Type} `{CS : Channels.ChannelStore DB TX}.
Context (ord : nat -> Channels.order).
Context (ToLower : gostring -> gostring) (ParseTime : gostring -> Z) (FormatTime : Z -> gostring) (ParseIP : gostring -> option bytes).
Context {BDB : Type} `{BS : Ban.BanStore BDB}.
Implicit Types (s : Server DB) (c : Core DB) (t : Site DB BDB).

Definition server t : Server DB := srv (core t).
Definition with_server t s : Site DB BDB := t <| core := (core t) <| srv := s |> |>.

(** ** The registry, one call after the other *)

(** [CloseAndUnbind]: the snapshot the cleanup is given, if it runs. *)
Definition CloseAndUnbind (r : Registry) (rf : SessionRef) : Registry * option SessionSnapshot :=
  match transition r rf with
  | Err _ => (r, None)
  | Ok l => match close_section r rf l with
            | (r, Err _) => (r, None)
            | (r, Ok snap) => ((unbind r rf).1, Some snap)
            end
  end.
(** [BeginClose] and [BeginCloseAndNotify]. *)
Definition BeginClose (r : Registry) (rf : SessionRef) : Registry * option SessionSnapshot :=
  match transition r rf with
  | Err _ => (r, None)
  | Ok _ => match beginClose r rf with (r, Err _) => (r, None) | (r, Ok snap) => (r, Some snap) end
  end.

(** ** Releasing a session *)

Definition removeIfGeneration s (rf : SessionRef) : Server DB * option User.t :=
  let '(m, u, ns) := RemoveIfGeneration (srv_users s) (SessionID rf) (Generation rf) in (with_users s m ns, u).
Definition cleanEmptyTempChannels s : Server DB :=
  match Channels.CleanEmptyTempChannels ord (srv_chans s) (fun cid => 0 <? UserManager.CountInChannel (srv_users s) cid) with
  | Some (m, ls) => with_chans s m ls
  | None => s
  end.

(** The cleanup of [UnregisterConn]. *)
Definition release t (rf : SessionRef) : Site DB BDB :=
  let sid := SessionID rf in
  let s := removeVoiceTargetsLocked (server t) sid in
  let s := s <| srv_listeners := (Listeners.RemoveAllFor (ord 6%nat) (srv_listeners s) sid).1 |> in
  let c := (core t) <| srv := s |> <| textRateLimiter := delete sid (textRateLimiter (core t)) |>
             <| userStateRateLimiter := delete sid (userStateRateLimiter (core t)) |> in
  let byAddr := match addrBySession t !! rf with
    | Some a => if bool_decide (sessionByAddr t !! a = Some rf) then delete a (sessionByAddr t) else sessionByAddr t
    | None => sessionByAddr t end in
  t <| core := c |> <| conns := conns t ∖ {[sid]} |> <| addrBySession := delete rf (addrBySession t) |> <| sessionByAddr := byAddr |>.

Definition UnregisterConn t (rf : SessionRef) : Site DB BDB * list effect * bool :=
  if negb (Valid rf) then (t, [], false) else
  let '(r, o) := CloseAndUnbind (srv_registry (server t)) rf in
  let '(t, e, announced) := match o with
    | None => (with_server t ((server t) <| srv_registry := r |>), [], false)
    | Some snap => (with_server (release t rf) ((server (release t rf)) <| srv_registry := r |>), [Detach rf], s_Announced snap) end in
  (with_server t (cleanEmptyTempChannels (server t)), e, announced).

Definition leave_channel s (channelID : Z) : Server DB := if negb (channelID =? 0) then updateChannelCrypto s channelID else s.

(** What every forced removal ends with. *)
Definition expel t (rf : SessionRef) (channelID : Z) (ur : UserRemove.t) : Site DB BDB * list effect :=
  let e1 := sendThenClose (server t) rf (MUserRemove ur) in
  let t := with_server t (removeIfGeneration (server t) rf).1 in
  let '(t, e2, _) := UnregisterConn t rf in
  (with_server t (leave_channel (server t) channelID), e1 ++ e2).

Definition user_remove (session actor : Z) (reason : gostring) (ban : bool) : UserRemove.t := UserRemove.mk session actor reason ban.

Definition KickSessionRef t (rf : SessionRef) (reason : gostring) : Site DB BDB * list effect * bool :=
  match SnapshotRef (srv_users (server t)) rf with
  | None => (t, [], false)
  | Some u =>
      let ur := user_remove (SessionID rf) 0 reason false in
      let '(r, o) := BeginClose (srv_registry (server t)) rf in
      let t := with_server t ((server t) <| srv_registry := r |>) in
      match o with
      | None => (t, [], false)
      | Some snap =>
          let e1 := match SnapshotRef (srv_users (server t)) rf with
                    | Some _ => if s_Announced snap then Broadcast (server t) (SessionID rf) (MUserRemove ur) else []
                    | None => [] end in
          let '(t, e2) := expel t rf (User.ChannelID u) ur in (t, e1 ++ e2, true)
      end
  end.
Definition KickSession t (sid : Z) (reason : gostring) : Site DB BDB * list effect * bool :=
  match Snapshot (srv_users (server t)) sid with
  | None => (t, [], false)
  | Some u => KickSessionRef t (mkRef sid (User.SessionGeneration u)) reason
  end.

(** [beginCloseAnnounced] followed by the broadcast it decides. *)
Definition announce_removal t (rf : SessionRef) (ur : UserRemove.t) : Site DB BDB * list effect :=
  let '(r, o) := BeginClose (srv_registry (server t)) rf in
  let t := with_server t ((server t) <| srv_registry := r |>) in
  match o with
  | Some snap => if s_Announced snap then (t, Broadcast (server t) (SessionID rf) (MUserRemove ur)) else (t, [])
  | None => (t, [])
  end.

Definition ban_session (now : Z) t (connIP : option bytes) (u : User.t) (reason : gostring) : Site DB BDB :=
  let existing := Ban.List FormatTime (bans t) in
  let updated := Ban.appendSessionBan ToLower FormatTime ParseIP now connIP existing u reason in
  if negb (zlen updated =? zlen existing) then t <| bans := (Ban.Replace ToLower ParseTime now (bans t) updated).1 |> else t.

Definition BanAndKickSession (now : Z) t (connIP : option bytes) (sid : Z) (reason : gostring) : Site DB BDB * list effect * bool :=
  match Snapshot (srv_users (server t)) sid with
  | None => (t, [], false)
  | Some u =>
      let t := ban_session now t connIP u reason in
      let ur := user_remove sid 0 reason true in
      let rf := mkRef sid (User.SessionGeneration u) in
      let '(t, e1) := announce_removal t rf ur in
      let '(t, e2) := expel t rf (User.ChannelID u) ur in (t, e1 ++ e2, true)
  end.

Definition removal_reason (ban : bool) : gostring := str (if ban then "No ban permission" else "No kick permission")%string.
Definition handleUserRemove (now : Z) t (connIP : option bytes) (rf : SessionRef) (payload : bytes) : Site DB BDB * list effect * option wire_error :=
  if negb (Active (srv_registry (server t)) rf) then (t, [], None) else
  match UserRemove.Unmarshal UserRemove.zero payload with
  | (_, Some e) => (t, [], Some e)
  | (ur, None) =>
      if UserRemove.Session ur =? 0 then (t, [], None) else
      match Snapshot (srv_users (server t)) (SessionID rf), Snapshot (srv_users (server t)) (UserRemove.Session ur) with
      | Some sender, Some target =>
          let perm := if UserRemove.Ban ur then PermissionBan else PermissionKick in
          if User.IsSuperUser target || negb (aclCheck EqualFold (server t) (SubjectOf sender) Channels.rootChannelID perm)
          then (t, write rf (deny 0 DenyPermission (removal_reason (UserRemove.Ban ur))), None) else
          let ur := ur <| UserRemove.Actor := SessionID rf |> in
          let t := if UserRemove.Ban ur then ban_session now t connIP target (UserRemove.Reason ur) else t in
          let targetRef := mkRef (UserRemove.Session ur) (User.SessionGeneration target) in
          let '(t, e1) := announce_removal t targetRef ur in
          let '(t, e2) := expel t targetRef (User.ChannelID target) ur in (t, e1 ++ e2, None)
      | _, _ => (t, [], None)
      end
  end.

(** ** Sessions that end by themselves *)

Definition controlFailed t (rf : SessionRef) : Site DB BDB * list effect :=
  let '(t, e1) := announce_removal t rf (UserRemove.zero <| UserRemove.Session := SessionID rf |>) in
  let '(t, e2, _) := UnregisterConn t rf in
  let '(s, u) := removeIfGeneration (server t) rf in
  let s := match u with Some u => leave_channel s (User.ChannelID u) | None => s end in
  (with_server t s, e1 ++ e2).

Definition closeFailedSync t (rf : SessionRef) : Site DB BDB * list effect :=
  let '(t, e, _) := UnregisterConn t rf in
  (with_server t (removeIfGeneration (server t) rf).1, AbortSync rf :: e).

Definition OnClose t (rf : SessionRef) : Site DB BDB * list effect :=
  if negb (Valid rf) then (t, []) else
  let '(t, e, announced) := UnregisterConn t rf in
  let '(s, u) := removeIfGeneration (server t) rf in
  let s := match u with Some u => leave_channel s (User.ChannelID u) | None => s end in
  let t := with_server t s in
  (t, e ++ if announced : bool then Broadcast (server t) (SessionID rf) (MUserRemove (UserRemove.zero <| UserRemove.Session := SessionID rf |>)) else []).

(** ** The REST mute and the ban list *)

Definition MuteSession s (sid : Z) (mute : bool) : Server DB * list effect * bool :=
  let req := UserState.zero <| UserState.Session := sid |> <| UserState.Mute := mute |> <| UserState.SetFields := Z.lor UserState.SetSession UserState.SetMute |> in
  let told := match Snapshot (srv_users s) sid with Some u => (applyAdminVoiceState (User.Voice u) req).2 | None => req end in
  let '(s, updated) := updateUser s sid (fun u => u <| User.Voice := (applyAdminVoiceState (User.Voice u) req).1 |>) in
  match updated with
  | None => (s, [], false)
  | Some _ => (s, Broadcast s 0 (MUserState told), true)
  end.

Definition handleBanList (now : Z) t (rf : SessionRef) (payload : bytes) : Site DB BDB * list effect :=
  if negb (Active (srv_registry (server t)) rf) then (t, []) else
  let bl := read_ignoring BanList.Unmarshal BanList.zero payload in
  match Snapshot (srv_users (server t)) (SessionID rf) with
  | None => (t, [])
  | Some u =>
      if negb (aclCheck EqualFold (server t) (SubjectOf u) Channels.rootChannelID PermissionBan)
      then (t, write rf (deny 0 DenyPermission (str "No ban permission"%string))) else
      let '(b, ok) := if BanList.Query bl then (bans t, true) else Ban.Replace ToLower ParseTime now (bans t) (BanList.Bans bl) in
      let t := t <| bans := b |> in
      if negb ok then (t, []) else
      (t, write rf (MBanList (BanList.mk (Ban.List FormatTime (bans t)) false)))
  end.

(** ** What ends with a session *)

Lemma write_entry_snapshot r l e e' rf : registry_wf r -> session_entry r (SessionID (ref e)) = Some (l, e) -> ref e' = ref e ->
  Registry.Snapshot (write_entry l e' r) rf = if bool_decide (rf = ref e) then Some (snapshot e') else Registry.Snapshot r rf.
Proof.
  intros W He Hr. apply session_entry_Some in He as [Hl Hh]. unfold Registry.Snapshot, session_entry, write_entry. cbn.
  destruct (decide (SessionID rf = SessionID (ref e))) as [Es|Es].
  - rewrite Es, Hl. cbn. rewrite lookup_insert_eq, Hh. cbn. rewrite Hr. repeat case_bool_decide; try done; congruence.
  - rewrite bool_decide_eq_false_2 by congruence. destruct (Registry.sessions r !! SessionID rf) as [l'|] eqn:E'; [|done]. cbn.
    rewrite lookup_insert_ne; [done|]. intros <-. destruct (wf_sessions r W _ _ E') as (e1 & H1 & H2 & _). congruence.
Qed.
Lemma write_entry_wf r l e e' : registry_wf r -> session_entry r (SessionID (ref e)) = Some (l, e) -> ref e' = ref e -> edge e' = edge e -> state e' <> StateClosed ->
  registry_wf (write_entry l e' r).
Proof.
  intros [W1 W2] [Hl Hh]%session_entry_Some Hr He Hs. split.
  - cbn. intros sid l' Hl'. destruct (W1 sid l' Hl') as (e1 & H1 & H2 & H3 & H4). destruct (decide (l' = l)) as [->|Hne].
    + rewrite lookup_insert_eq. exists e'. assert (e1 = e) as -> by congruence. rewrite Hr, He. done.
    + rewrite lookup_insert_ne by done. by exists e1.
  - cbn. intros l' [x Hx]. destruct (decide (l' = l)) as [->|Hne]; [apply W2; by eexists|]. rewrite lookup_insert_ne in Hx by done. apply W2. by eexists.
Qed.
Lemma Snapshot_entry r rf : registry_wf r -> is_Some (Registry.Snapshot r rf) -> exists l e, session_entry r (SessionID rf) = Some (l, e) /\ ref e = rf /\ state e <> StateClosed.
Proof.
  intros W [sn H]. unfold Registry.Snapshot in H. destruct (session_entry r (SessionID rf)) as [[l e]|] eqn:E; [|done]. case_bool_decide; [|done].
  exists l, e. split; [done|]. split; [done|]. apply session_entry_Some in E as [Hl Hh]. destruct (wf_sessions r W _ _ Hl) as (e1 & H1 & _ & _ & H2). congruence.
Qed.
Lemma transition_Ok r rf : transition r rf = match session_entry r (SessionID rf) with
  | Some (l, e) => if bool_decide (ref e = rf) then Ok l else Err ErrStaleSession | None => Err ErrStaleSession end.
Proof. done. Qed.
Lemma transition_unknown r rf : Registry.Snapshot r rf = None -> transition r rf = Err ErrStaleSession.
Proof. unfold Registry.Snapshot, transition. destruct (session_entry r (SessionID rf)) as [[l e]|]; [|done]. by case_bool_decide. Qed.

Lemma BeginClose_exact r rf : registry_wf r -> let '(r', o) := BeginClose r rf in
  registry_wf r' /\ (forall rf', rf' <> rf -> Registry.Snapshot r' rf' = Registry.Snapshot r rf') /\
  (is_Some (Registry.Snapshot r' rf) <-> is_Some (Registry.Snapshot r rf)) /\ (is_Some o <-> is_Some (Registry.Snapshot r rf)).
Proof.
  intros W. unfold BeginClose. destruct (Registry.Snapshot r rf) as [sn|] eqn:Hs.
  - destruct (Snapshot_entry r rf W ltac:(by eexists)) as (l & e & He & Hr & Hst). subst rf. unfold transition, beginClose. rewrite He, bool_decide_eq_true_2 by done. cbn [negb].
    destruct (state e) eqn:Est; [..|done]; [| |split; [done|]; split; [done|]; split; [by rewrite Hs|]; split; by eexists].
    + set (e' := e <| state := StateClosing |>). split; [by eapply write_entry_wf|]. split; [|].
      * intros rf' Hn. rewrite (write_entry_snapshot r l e e' rf' W He ltac:(done)). by rewrite bool_decide_eq_false_2.
      * rewrite (write_entry_snapshot r l e e' _ W He ltac:(done)), bool_decide_eq_true_2 by done. split; split; by eexists.
    + set (e' := e <| state := StateClosing |>). split; [by eapply write_entry_wf|]. split; [|].
      * intros rf' Hn. rewrite (write_entry_snapshot r l e e' rf' W He ltac:(done)). by rewrite bool_decide_eq_false_2.
      * rewrite (write_entry_snapshot r l e e' _ W He ltac:(done)), bool_decide_eq_true_2 by done. split; split; by eexists.
  - rewrite transition_unknown by done. rewrite Hs. split; [done|]. split; [done|]. split; [done|]. split; [done|]. by intros [].
Qed.

Lemma CloseAndUnbind_exact r rf : registry_wf r -> let '(r', o) := CloseAndUnbind r rf in
  registry_wf r' /\ (forall rf', rf' <> rf -> Registry.Snapshot r' rf' = Registry.Snapshot r rf') /\ Registry.Snapshot r' rf = None /\
  (is_Some o <-> is_Some (Registry.Snapshot r rf)).
Proof.
  intros W. unfold CloseAndUnbind. destruct (Registry.Snapshot r rf) as [sn|] eqn:Hs.
  - destruct (Snapshot_entry r rf W ltac:(by eexists)) as (l & e & He & Hr & Hst). subst rf. unfold transition, close_section. rewrite He, !bool_decide_eq_true_2 by done. cbn [negb].
    set (e' := e <| state := StateClosing |>). pose proof (write_entry_wf r l e e' W He ltac:(done) ltac:(done) ltac:(done)) as W1.
    pose proof (fun rf' => write_entry_snapshot r l e e' rf' W He ltac:(done)) as H1. set (r1 := write_entry l e' r) in *.
    pose proof He as [Hl Hh]%session_entry_Some.
    assert (session_entry r1 (SessionID (ref e)) = Some (l, e')) as He1 by (apply session_entry_Some; split; [done|]; cbn; apply lookup_insert_eq).
    unfold unbind. rewrite He1. cbn [ref e']. rewrite bool_decide_eq_true_2 by done. cbn [negb fst]. set (e2 := e' <| state := StateClosed |>).
    assert (forall rf', session_entry (write_entry l e2 r1 <| Registry.sessions := delete (SessionID (ref e)) (Registry.sessions (write_entry l e2 r1)) |>) (SessionID rf') =
      if decide (SessionID rf' = SessionID (ref e)) then None else session_entry r (SessionID rf')) as Hse.
    { intros rf'. unfold session_entry. cbn. case_decide as Ed; [by rewrite Ed, lookup_delete_eq|]. rewrite lookup_delete_ne by done.
      destruct (Registry.sessions r !! SessionID rf') as [l'|] eqn:E'; [|done]. cbn. rewrite !lookup_insert_ne; [done|..];
        (intros <-; destruct (wf_sessions r W _ _ E') as (x & Hx1 & Hx2 & _); congruence). }
    split; [|split; [|split]].
    + destruct W1 as [A B]. split.
      * cbn. intros sid l' [Hne Hl']%lookup_delete_Some. destruct (wf_sessions r W sid l' Hl') as (x & Hx1 & Hx2 & Hx3).
        rewrite !lookup_insert_ne by (intros <-; congruence). by exists x.
      * cbn. intros l' [x Hx]. destruct (decide (l' = l)) as [->|Hne]; [apply (wf_next r W); by eexists|]. rewrite !lookup_insert_ne in Hx by done. apply (wf_next r W). by eexists.
    + intros rf' Hn. unfold Registry.Snapshot. rewrite Hse. case_decide as Ed; [|done]. rewrite Ed, He. by rewrite bool_decide_eq_false_2.
    + unfold Registry.Snapshot. rewrite Hse. by rewrite decide_True.
    + split; by eexists.
  - rewrite transition_unknown by done. split; [done|]. split; [done|]. split; [done|]. split; [by intros []|by intros []].
Qed.
Lemma with_registry_ok s r : live_ok EqualFold s -> registry_wf r -> live_ok EqualFold (s <| srv_registry := r |>).
Proof. intros [[O1 O2 O3 O4 O5] L1 L2 L3] W. by split. Qed.
Lemma remove_targets_ok s sid : live_ok EqualFold s -> live_ok EqualFold (removeVoiceTargetsLocked s sid).
Proof. intros [[O1 O2 O3 O4 O5] L1 L2 L3]. by split. Qed.

Lemma removeIfGeneration_exact s rf : live_ok EqualFold s -> let '(s', u) := removeIfGeneration s rf in
  live_ok EqualFold s' /\ same_rest s s' /\ srv_listeners s' = srv_listeners s /\ srv_crypto s' = srv_crypto s /\ u = SnapshotRef (srv_users s) rf /\
  forall sid, Snapshot (srv_users s') sid = if decide (sid = SessionID rf /\ is_Some (SnapshotRef (srv_users s) rf)) then None else Snapshot (srv_users s) sid.
Proof.
  intros L. unfold removeIfGeneration. destruct (RemoveIfGeneration _ _ _) as [[m o] ns] eqn:E.
  assert (generation m = generation (srv_users s) /\ o = SnapshotRef (srv_users s) rf /\
    forall sid, Snapshot m sid = if decide (sid = SessionID rf /\ is_Some (SnapshotRef (srv_users s) rf)) then None else Snapshot (srv_users s) sid) as (Hg & Ho & Hs).
  { revert E. unfold RemoveIfGeneration, remove, SnapshotRef. destruct (user_at (srv_users s) (SessionID rf)) as [[l u]|] eqn:Eu; cbn [andb].
    - destruct (negb (User.SessionGeneration u =? Generation rf)); intros [= <- <- <-]; (split; [done|]); (split; [done|]); intros sid.
      + rewrite decide_False; [done|]. by intros [_ []].
      + unfold Snapshot, user_at. cbn. destruct (decide (sid = SessionID rf)) as [->|Hne].
        * rewrite decide_True by (split; [done|by eexists]). by rewrite lookup_delete_eq.
        * rewrite decide_False by (by intros [? _]). by rewrite lookup_delete_ne.
    - intros [= <- <- <-]. split; [done|]. split; [done|]. intros sid. rewrite decide_False; [done|]. by intros [_ []]. }
  split; [|split; [done|]; split; [done|]; split; [done|]; split; [done|exact Hs]].
  apply (with_users_ok EqualFold s (OpRemoveIfGeneration (SessionID rf) (Generation rf))); [done|done|cbn; by rewrite E|]. rewrite Hg. apply (lo_generation _ s L).
Qed.

Hypothesis Hord : forall i, Channels.order_ok (ord i).

(** Channels that were cleaned away were temporary and empty. *)
Definition cleaned s s' : Prop :=
  (forall x ch, Channels.GetChannel (srv_chans s') x = Some ch -> Channels.GetChannel (srv_chans s) x = Some ch) /\
  forall x ch, Channels.GetChannel (srv_chans s) x = Some ch -> Channels.GetChannel (srv_chans s') x = None ->
    x <> 0 /\ Channels.IsTemporary ch = true /\ forall sid u, Snapshot (srv_users s) sid = Some u -> User.ChannelID u <> x.

Lemma count_positive s cid : server_ok EqualFold s -> (0 <? UserManager.CountInChannel (srv_users s) cid) = false ->
  forall sid u, Snapshot (srv_users s) sid = Some u -> User.ChannelID u <> cid.
Proof.
  intros W H sid u Hu Hc. pose proof (Snapshot_session EqualFold s _ _ W Hu) as Hs. subst sid.
  assert (u ∈ SnapshotByChannel (srv_users s) cid) as Hin by (by apply (elem_of_SnapshotByChannel EqualFold)).
  unfold UserManager.CountInChannel, zlen in H. unfold SnapshotByChannel in Hin. destruct (filter _ _) as [|x xs]; [by apply elem_of_nil in Hin|]. apply Z.ltb_ge in H. cbn [length] in H. lia.
Qed.
Lemma cleanEmptyTempChannels_exact s : live_ok EqualFold s ->
  live_ok EqualFold (cleanEmptyTempChannels s) /\ only_chans s (cleanEmptyTempChannels s) /\ cleaned s (cleanEmptyTempChannels s).
Proof.
  intros L. pose proof (lo_server _ _ L) as W. set (hu := fun cid => 0 <? UserManager.CountInChannel (srv_users s) cid).
  destruct (Channels.clean_loop_spec hu ord (S (size (Channels.tree (srv_chans s)))) (srv_chans s) (ok_chans _ _ W) ltac:(lia)) as (m' & Hm & W' & Hsub & Hgone & _).
  unfold cleanEmptyTempChannels. fold hu. destruct (Channels.CleanEmptyTempChannels ord (srv_chans s) hu) as [[m ls]|] eqn:E.
  - assert (m = m') as -> by (unfold Channels.CleanEmptyTempChannels in E; rewrite Hm in E; by injection E).
    split; [apply (with_chans_ok EqualFold s (Channels.OpClean ord hu)); done|]. split; [done|]. split; [done|]. intros x ch Hx Hn. cbn in Hn.
    destruct (Hgone x ch Hx Hn) as (H1 & H2 & H3). split; [done|]. split; [done|]. by apply count_positive.
  - unfold Channels.CleanEmptyTempChannels in E. by rewrite Hm in E.
Qed.
Lemma cleaned_located s s' : only_chans s s' -> cleaned s s' -> located s -> located s'.
Proof.
  intros (E & _) [C1 C2] [Lu Lr]. split.
  - intros sid u. rewrite E. intros Hu. destruct (Lu sid u Hu) as [ch Hc]. destruct (Channels.GetChannel (srv_chans s') (User.ChannelID u)) eqn:Hn; [by eexists|].
    destruct (C2 _ _ Hc Hn) as (_ & _ & H). by destruct (H sid u Hu).
  - intros ch Hc. apply Lr. by apply C1.
Qed.
(** The traces of a session outside the user table are gone, and nobody
    else's. *)
Record released t t' (rf : SessionRef) : Prop := {
  rl_registry : Registry.Snapshot (srv_registry (server t')) rf = None;
  rl_sessions : forall rf', rf' <> rf -> Registry.Snapshot (srv_registry (server t')) rf' = Registry.Snapshot (srv_registry (server t)) rf';
  rl_listeners : forall L, refines (srv_listeners (server t)) L -> refines (srv_listeners (server t')) (spec_RemoveAllFor L (SessionID rf));
  rl_targets : voiceTargets (server t') = voiceTargets (removeVoiceTargetsLocked (server t) (SessionID rf));
  rl_limits : textRateLimiter (core t') = delete (SessionID rf) (textRateLimiter (core t)) /\
    userStateRateLimiter (core t') = delete (SessionID rf) (userStateRateLimiter (core t));
  rl_conns : conns t' = conns t ∖ {[SessionID rf]} /\ addrBySession t' = delete rf (addrBySession t);
  rl_address : forall a rf', sessionByAddr t' !! a = Some rf' -> sessionByAddr t !! a = Some rf' /\ (addrBySession t !! rf = Some a -> rf' <> rf) }.

(** What never changes here. *)
Definition steady t t' : Prop :=
  settings (core t') = settings (core t) /\ bans t' = bans t /\ srv_store (server t') = srv_store (server t) /\ voice (server t') = voice (server t).
Lemma steady_trans t1 t2 t3 : steady t1 t2 -> steady t2 t3 -> steady t1 t3.
Proof. unfold steady. intuition congruence. Qed.

Lemma release_exact t rf r : Registry.Snapshot r rf = None ->
  (forall rf', rf' <> rf -> Registry.Snapshot r rf' = Registry.Snapshot (srv_registry (server t)) rf') ->
  released t (with_server (release t rf) ((server (release t rf)) <| srv_registry := r |>)) rf.
Proof.
  intros H1 H2. split; try done.
  - intros L R. cbn. by apply (RemoveAllFor_refines (ord 6%nat) (Hord 6%nat)).
  - cbn. intros a rf' H. destruct (addrBySession t !! rf) as [a0|]; [|done]. case_bool_decide as E.
    + apply lookup_delete_Some in H as [Hne H]. split; [done|]. intros [= ->]. congruence.
    + split; [done|]. intros [= ->]. congruence.
Qed.

Lemma UnregisterConn_exact t rf : live_ok EqualFold (server t) -> Valid rf = true -> let '(t', e, announced) := UnregisterConn t rf in
  live_ok EqualFold (server t') /\ srv_users (server t') = srv_users (server t) /\ srv_crypto (server t') = srv_crypto (server t) /\
  cleaned (server t) (server t') /\ steady t t' /\ Registry.Snapshot (srv_registry (server t')) rf = None /\
  (is_Some (Registry.Snapshot (srv_registry (server t)) rf) -> released t t' rf /\ e = [Detach rf]).
Proof.
  intros L Hv. unfold UnregisterConn. rewrite Hv. cbn [negb]. pose proof (CloseAndUnbind_exact _ rf (ok_registry _ _ (lo_server _ _ L))) as H.
  destruct (CloseAndUnbind _ rf) as [r o]. destruct H as (W & H1 & H2 & H3).
  set (x := match o with Some snap => _ | None => _ end).
  assert (live_ok EqualFold (server x.1.1) /\ srv_users (server x.1.1) = srv_users (server t) /\ srv_crypto (server x.1.1) = srv_crypto (server t) /\
    srv_chans (server x.1.1) = srv_chans (server t) /\ steady t x.1.1 /\ srv_registry (server x.1.1) = r /\
    (is_Some o -> released t x.1.1 rf /\ x.1.2 = [Detach rf])) as (X1 & X2 & X3 & X4 & X5 & X6 & X7).
  { unfold x. destruct o as [snap|]; cbn [fst snd].
    - split; [|split; [done|]; split; [done|]; split; [done|]; split; [done|]; split; [done|]; intros _; split; [by apply release_exact|done]].
      apply (with_registry_ok (server (release t rf))); [|done]. apply (with_listeners_ok EqualFold (removeVoiceTargetsLocked (server t) (SessionID rf))); [by apply remove_targets_ok|].
      destruct (ok_listeners _ _ (lo_server _ _ L)) as [L0 R0]. exists (spec_RemoveAllFor L0 (SessionID rf)). by apply (RemoveAllFor_refines (ord 6%nat) (Hord 6%nat)).
    - split; [by apply with_registry_ok|]. do 5 (split; [done|]). by intros []. }
  destruct x as [[t1 e] ann]. cbn [fst snd] in *. destruct (cleanEmptyTempChannels_exact (server t1) X1) as (C1 & C2 & C3).
  set (s1 := cleanEmptyTempChannels (server t1)) in *. clearbody s1. destruct C2 as (O1 & O2 & O3 & O4 & O5 & O6 & O7). cbn.
  split; [done|]. split; [congruence|]. split; [congruence|]. split; [unfold cleaned in *; by rewrite X4, X2 in C3|].
  split; [destruct X5 as (? & ? & ? & ?); split; [done|]; split; [done|]; cbn; split; congruence|]. split; [cbn; by rewrite O2, X6|].
  intros Hs. apply H3, X7 in Hs as [[R1 R2 R3 R4 R5 R6 R7] ->]. split; [|done]. split; cbn; rewrite ?O2, ?O3, ?O6; done.
Qed.

Lemma leave_channel_frame s cid : live_ok EqualFold s -> live_ok EqualFold (leave_channel s cid) /\ same_rest s (leave_channel s cid) /\
  srv_users (leave_channel s cid) = srv_users s /\ srv_listeners (leave_channel s cid) = srv_listeners s.
Proof. intros L. unfold leave_channel. case_match; [|done]. split; [by apply updateChannelCrypto_ok|done]. Qed.

(** The session [rf] is over. *)
Record ended t t' (rf : SessionRef) : Prop := {
  en_live : live_ok EqualFold (server t');
  en_users : forall sid, Snapshot (srv_users (server t')) sid = if decide (sid = SessionID rf) then None else Snapshot (srv_users (server t)) sid;
  en_released : released t t' rf;
  en_channels : forall x ch, Channels.GetChannel (srv_chans (server t')) x = Some ch -> Channels.GetChannel (srv_chans (server t)) x = Some ch;
  en_cleaned : forall x ch, Channels.GetChannel (srv_chans (server t)) x = Some ch -> Channels.GetChannel (srv_chans (server t')) x = None ->
    x <> 0 /\ Channels.IsTemporary ch = true /\ forall sid u, Snapshot (srv_users (server t')) sid = Some u -> User.ChannelID u <> x;
  en_steady : steady t t' }.

Lemma ended_located t t' rf : ended t t' rf -> located (server t) -> located (server t').
Proof.
  intros [_ U _ C1 C2 _] [Lu Lr]. split.
  - intros sid u Hu. pose proof Hu as Hu'. rewrite U in Hu. case_decide; [done|]. destruct (Lu sid u Hu) as [ch Hc].
    destruct (Channels.GetChannel (srv_chans (server t')) (User.ChannelID u)) eqn:Hn; [by eexists|]. destruct (C2 _ _ Hc Hn) as (_ & _ & He). by destruct (He sid u Hu').
  - intros ch Hc. apply Lr. by apply C1.
Qed.

Lemma expel_exact t rf cid ur u : live_ok EqualFold (server t) -> Valid rf = true -> SnapshotRef (srv_users (server t)) rf = Some u ->
  is_Some (Registry.Snapshot (srv_registry (server t)) rf) ->
  let '(t', e) := expel t rf cid ur in ended t t' rf /\ e = [SendThenClose rf (MUserRemove ur); Detach rf].
Proof.
  intros L Hv Hu [sn Hs]. unfold expel. unfold sendThenClose at 1. rewrite Hs.
  pose proof (removeIfGeneration_exact (server t) rf L) as H. destruct (removeIfGeneration (server t) rf) as [s1 o]. destruct H as (L1 & (R1 & R2 & R3 & R4 & R5) & HL1 & HC1 & -> & U1).
  rewrite Hu in U1. cbn [fst]. pose proof (UnregisterConn_exact (with_server t s1) rf L1 Hv) as H2. destruct (UnregisterConn (with_server t s1) rf) as [[t2 e2] ann].
  destruct H2 as (L2 & E1 & E2 & [C1 C2] & S2 & HN & H2). cbn in H2. rewrite R2 in H2. destruct (H2 ltac:(by eexists)) as [[D1 D2 D3 D4 D5 D6 D7] ->].
  destruct (leave_channel_frame (server t2) cid L2) as (L3 & (Q1 & Q2 & Q3 & Q4 & Q5) & Q6 & Q7). set (s3 := leave_channel (server t2) cid) in *. clearbody s3.
  split; [|done]. cbn in *. split; cbn; rewrite ?Q1, ?Q2, ?Q6, ?Q7, ?E1.
  - done.
  - intros sid. rewrite U1. repeat case_decide; naive_solver.
  - split; cbn; rewrite ?Q2, ?Q4, ?Q7; try done.
    + intros rf' Hn. rewrite D2, R2 by done. done.
    + intros L0 R0. apply D3. by rewrite HL1.
    + rewrite D4. unfold removeVoiceTargetsLocked. cbn. by rewrite R4.
  - intros x ch Hx. apply C1 in Hx. cbn in Hx. by rewrite R1 in Hx.
  - intros x ch Hx Hn. cbn in C2. rewrite R1 in C2. by apply (C2 x ch).
  - destruct S2 as (? & ? & ? & ?). split; [done|]. split; [done|]. cbn in *. split; congruence.
Qed.
(** Every user belongs to a session of the registry. *)
Definition registered s : Prop := forall sid u, Snapshot (srv_users s) sid = Some u ->
  is_Some (Registry.Snapshot (srv_registry s) (mkRef sid (User.SessionGeneration u))).
Record site_ok t : Prop := {
  so_live : live_ok EqualFold (server t);
  so_located : located (server t);
  so_registered : registered (server t) }.

Lemma SnapshotRef_of s sid u : Snapshot (srv_users s) sid = Some u -> SnapshotRef (srv_users s) (mkRef sid (User.SessionGeneration u)) = Some u.
Proof. intros [l H]%Snapshot_Some. unfold SnapshotRef. cbn. rewrite H. by rewrite Z.eqb_refl. Qed.
Lemma generation_positive s sid u : server_ok EqualFold s -> Snapshot (srv_users s) sid = Some u -> User.SessionGeneration u <> 0.
Proof. intros W [l [Hl Hu]%user_at_Some]%Snapshot_Some. destruct (mw_session _ (ok_users _ _ W) _ _ Hl) as (u' & Hu' & _ & _ & H). assert (u' = u) as -> by congruence. lia. Qed.

Lemma announce_removal_exact t rf ur : live_ok EqualFold (server t) -> let '(t', e) := announce_removal t rf ur in
  exists r, t' = with_server t ((server t) <| srv_registry := r |>) /\ registry_wf r /\
  (forall rf', rf' <> rf -> Registry.Snapshot r rf' = Registry.Snapshot (srv_registry (server t)) rf') /\
  (is_Some (Registry.Snapshot r rf) <-> is_Some (Registry.Snapshot (srv_registry (server t)) rf)) /\
  (e = [] \/ e = Broadcast (server t') (SessionID rf) (MUserRemove ur)).
Proof.
  intros L. unfold announce_removal. pose proof (BeginClose_exact _ rf (ok_registry _ _ (lo_server _ _ L))) as H. destruct (BeginClose _ rf) as [r o].
  destruct H as (W & H1 & H2 & _). destruct o as [snap|]; [destruct (s_Announced snap)|]; exists r; auto 8.
Qed.
Lemma ended_after_announce t t' rf r : live_ok EqualFold (server t) -> registry_wf r ->
  (forall rf', rf' <> rf -> Registry.Snapshot r rf' = Registry.Snapshot (srv_registry (server t)) rf') ->
  ended (with_server t ((server t) <| srv_registry := r |>)) t' rf -> ended t t' rf.
Proof.
  intros L W H [E1 E2 [D1 D2 D3 D4 D5 D6 D7] E4 E5 E6]. split; try done. split; try done. intros rf' Hn. rewrite D2 by done. cbn. by apply H.
Qed.
Lemma ended_registered t t' rf : ended t t' rf -> registered (server t) -> registered (server t').
Proof.
  intros [_ U [_ D2 _ _ _ _ _] _ _ _] R sid u. rewrite U. case_decide; [done|]. intros Hu. rewrite D2; [by apply R|]. by intros <-.
Qed.
Lemma ended_ok t t' rf : ended t t' rf -> site_ok t -> site_ok t'.
Proof. intros E [H1 H2 H3]. split; [apply E|by eapply ended_located|by eapply ended_registered]. Qed.

(** The removal of a user, from the first broadcast to the last cleanup. *)
Lemma removal_exact t rf u ur : site_ok t -> SessionID rf <> 0 -> Snapshot (srv_users (server t)) (SessionID rf) = Some u -> Generation rf = User.SessionGeneration u ->
  let '(t1, e1) := announce_removal t rf ur in let '(t2, e2) := expel t1 rf (User.ChannelID u) ur in
  ended t t2 rf /\ e2 = [SendThenClose rf (MUserRemove ur); Detach rf] /\ (e1 = [] \/ e1 = Broadcast (server t1) (SessionID rf) (MUserRemove ur)).
Proof.
  intros [L Lc R] H0 Hu Hg. pose proof (announce_removal_exact t rf ur L) as A. destruct (announce_removal t rf ur) as [t1 e1]. destruct A as (r & -> & W & H1 & H2 & He).
  assert (mkRef (SessionID rf) (User.SessionGeneration u) = rf) as Er by (destruct rf; cbn in *; congruence).
  pose proof (expel_exact (with_server t ((server t) <| srv_registry := r |>)) rf (User.ChannelID u) ur u (with_registry_ok _ _ L W)) as X.
  assert (Valid rf = true) as Hv.
  { unfold Valid. apply andb_true_iff. rewrite !negb_true_iff, !Z.eqb_neq. split; [done|]. rewrite Hg. by eapply generation_positive; [apply L|]. }
  specialize (X Hv ltac:(rewrite <- Er; by apply SnapshotRef_of)). cbn in X. specialize (X ltac:(apply H2; rewrite <- Er; by apply R)).
  destruct (expel _ rf _ ur) as [t2 e2]. destruct X as [X ->]. split; [by eapply ended_after_announce|done].
Qed.

Lemma ban_session_frame now t connIP u reason : core (ban_session now t connIP u reason) = core t /\ conns (ban_session now t connIP u reason) = conns t /\
  addrBySession (ban_session now t connIP u reason) = addrBySession t /\ sessionByAddr (ban_session now t connIP u reason) = sessionByAddr t.
Proof. unfold ban_session. by case_match. Qed.

(** ** What a ban does *)

(** The laws of [strings.ToLower] a ban relies on. *)
Definition lower_laws : Prop := (forall s : gostring, ToLower (ToLower s) = ToLower s) /\ forall x, ToLower x = [] <-> x = [].
(** The list refuses whom it refused, and whoever bears what the banned
    session showed: nobody else. *)
Definition ban_added t (connIP : option bytes) (u : User.t) t0 : Prop := forall addr h,
  Ban.IsBanned ToLower (bans t0) addr h = true <-> Ban.IsBanned ToLower (bans t) addr h = true \/ Ban.bears ToLower ParseIP connIP u addr h.
(** Recording a ban of [u] touches nothing but the ban list. With a table
    whose statements succeed the ban is in force; a failing statement leaves the
    list in memory as it was. A session with no certificate and no address
    leaves no trace. *)
Record ban_recorded t (connIP : option bytes) (u : User.t) t0 : Prop := {
  br_only : t0 = t <| bans := bans t0 |>;
  br_loaded : Ban.loaded ToLower (bans t0);
  br_unknown : User.CertHash u = [] -> Ban.session_ip ParseIP connIP u = None -> t0 = t;
  br_either : Ban.bans (bans t0) = Ban.bans (bans t) \/ ban_added t connIP u t0;
  br_added : Ban.reliable (DB := BDB) -> ban_added t connIP u t0 }.

Lemma appended_length now connIP existing u reason :
  zlen (Ban.appendSessionBan ToLower FormatTime ParseIP now connIP existing u reason) =? zlen existing =
  bool_decide (User.CertHash u = [] /\ Ban.session_ip ParseIP connIP u = None).
Proof.
  unfold Ban.appendSessionBan. destruct (decide (User.CertHash u = [])) as [E|E]; [rewrite (bool_decide_eq_true_2 _ E)|rewrite (bool_decide_eq_false_2 _ E)]; cbn [negb].
  - destruct (Ban.session_ip ParseIP connIP u) as [ip|] eqn:Ei.
    + rewrite bool_decide_eq_false_2 by naive_solver. apply Z.eqb_neq. unfold zlen. rewrite length_app. cbn. lia.
    + rewrite bool_decide_eq_true_2 by naive_solver. by apply Z.eqb_eq.
  - rewrite bool_decide_eq_false_2 by naive_solver. apply Z.eqb_neq. unfold zlen. rewrite length_app. cbn. lia.
Qed.
Lemma ban_session_recorded now t connIP u reason : lower_laws -> Ban.loaded ToLower (bans t) ->
  ban_recorded t connIP u (ban_session now t connIP u reason).
Proof.
  intros [I N] L. unfold ban_session. rewrite appended_length. case_bool_decide as E; cbn [negb].
  - split; [by destruct t|done|done|by left|]. intros _ addr h. unfold Ban.bears. destruct E as [E1 E2]. rewrite decide_True by done. naive_solver congruence.
  - set (upd := Ban.appendSessionBan _ _ _ _ _ _ _ _). pose proof (Ban.Replace_loaded ToLower ParseTime FormatTime ParseIP now (bans t) upd L) as L'.
    assert (let r := Ban.Replace ToLower ParseTime now (bans t) upd in r.2 = true -> Ban.readable r.1 -> ban_added t connIP u (t <| bans := r.1 |>)) as A.
    { intros r Hr R addr h. cbn. apply (Ban.session_ban_exact ToLower ParseTime FormatTime ParseIP I (proj2 (N []) eq_refl) now (bans t) r.1 connIP u reason addr h); [naive_solver|done| |done].
      change (r = (r.1, true)). rewrite <- Hr. by destruct r. }
    cbn in A. split; [done|done|naive_solver| |].
    + destruct (decide ((Ban.Replace ToLower ParseTime now (bans t) upd).2 = true /\ Ban.readable (Ban.Replace ToLower ParseTime now (bans t) upd).1)) as [[]|F]; [right; auto|left].
      apply Ban.Replace_failed. destruct (Ban.Replace _ _ _ _ _) as [m' [|]]; naive_solver.
    + intros Hr. destruct (Ban.Replace_reliable ToLower ParseTime now (bans t) upd Hr). auto.
Qed.

(** ** The theorems *)

(** What a UserRemove comes to. *)
Lemma handleUserRemove_exact now t connIP rf payload : site_ok t ->
  let '(t', es, err) := handleUserRemove now t connIP rf payload in
  (t' = t /\ (es = [] \/ exists d, es = [Send rf (MPermissionDenied d)])) \/
  exists ur sender target e t0, UserRemove.Unmarshal UserRemove.zero payload = (ur, None) /\ Active (srv_registry (server t)) rf = true /\
    Snapshot (srv_users (server t)) (SessionID rf) = Some sender /\ Snapshot (srv_users (server t)) (UserRemove.Session ur) = Some target /\
    User.IsSuperUser target = false /\
    may EqualFold (server t) (SubjectOf sender) Channels.rootChannelID (if UserRemove.Ban ur then PermissionBan else PermissionKick) = true /\
    t0 = (if UserRemove.Ban ur then ban_session now t connIP target (UserRemove.Reason ur) else t) /\
    ended t0 t' (mkRef (UserRemove.Session ur) (User.SessionGeneration target)) /\
    es = e ++ [SendThenClose (mkRef (UserRemove.Session ur) (User.SessionGeneration target)) (MUserRemove (ur <| UserRemove.Actor := SessionID rf |>));
               Detach (mkRef (UserRemove.Session ur) (User.SessionGeneration target))] /\
    forall rf' m, Send rf' m ∈ e -> SessionID rf' <> UserRemove.Session ur /\ m = MUserRemove (ur <| UserRemove.Actor := SessionID rf |>).
Proof.
  intros S. pose proof (lo_server _ _ (so_live t S)) as W. unfold handleUserRemove. destruct (Active _ _) eqn:HA; cbn [negb]; [|by left; auto].
  destruct (UserRemove.Unmarshal _ _) as [ur [e|]] eqn:HU; [by left; auto|]. destruct (UserRemove.Session ur =? 0) eqn:H0; [by left; auto|]. apply Z.eqb_neq in H0.
  destruct (Snapshot _ (SessionID rf)) as [sender|] eqn:Hs; [|by left; auto]. destruct (Snapshot _ (UserRemove.Session ur)) as [target|] eqn:Ht; [|by left; auto].
  rewrite (aclCheck_current _ (server t)) by done. destruct (User.IsSuperUser target) eqn:Hsu; [left; split; [done|]; right; by eexists|].
  destruct (may _ _ _ _ _) eqn:Hm; cbn [negb orb]; [|left; split; [done|]; right; by eexists].
  change (UserRemove.Ban (ur <| UserRemove.Actor := SessionID rf |>)) with (UserRemove.Ban ur). change (UserRemove.Reason (ur <| UserRemove.Actor := SessionID rf |>)) with (UserRemove.Reason ur).
  change (UserRemove.Session (ur <| UserRemove.Actor := SessionID rf |>)) with (UserRemove.Session ur).
  set (t0 := if UserRemove.Ban ur then _ else t). assert (core t0 = core t) as E0 by (unfold t0; case_match; [apply ban_session_frame|done]).
  assert (site_ok t0) as S0 by (destruct S as [? ? ?]; split; unfold server in *; by rewrite E0).
  pose proof (removal_exact t0 (mkRef (UserRemove.Session ur) (User.SessionGeneration target)) target (ur <| UserRemove.Actor := SessionID rf |>) S0 H0) as X.
  unfold server in X at 1. rewrite E0 in X. specialize (X Ht eq_refl). destruct (announce_removal t0 _ _) as [t1 e1]. destruct (expel t1 _ _ _) as [t2 e2]. destruct X as (X1 & -> & X2).
  right. exists ur, sender, target, e1, t0. do 9 (split; [done|]). intros rf' m Hin. destruct X2 as [->| ->]; [by apply elem_of_nil in Hin|].
  unfold Broadcast in Hin. apply list_elem_of_fmap in Hin as (sn & Heq & Hf). injection Heq as -> ->. apply list_elem_of_filter in Hf as [Hf _]. apply andb_true_iff in Hf as [Hf%negb_true_iff%Z.eqb_neq _]. done.
Qed.
Lemma handleUserRemove_ok now t connIP rf payload : site_ok t -> site_ok (handleUserRemove now t connIP rf payload).1.1.
Proof.
  intros S. pose proof (handleUserRemove_exact now t connIP rf payload S) as H. destruct (handleUserRemove now t connIP rf payload) as [[t' es] err].
  destruct H as [[-> _]|(ur & sender & target & e & t0 & _ & _ & _ & _ & _ & _ & E0 & E & _)]; [done|]. eapply ended_ok; [exact E|].
  assert (core t0 = core t) as Ec by (rewrite E0; case_match; [apply ban_session_frame|done]). destruct S as [? ? ?]; split; unfold server in *; by rewrite Ec.
Qed.

(** C33: A UserRemove ends exactly the session it names, and only for a sender who
    may kick, or ban, in the root, and never for the SuperUser: the user, the
    session, its listeners, voice targets, limits and addresses are gone,
    nobody else's; the others are told first, the target gets the message as
    its last; temporary channels that became empty go. A message that asks for
    a ban records it first: with a ban table whose statements succeed, the ban
    list afterwards refuses whom it refused before and whoever bears the
    certificate of the target (or, if it showed none, comes from its IPv4
    address), and nobody else. A failing table leaves the list in memory as it
    was, and the session ends all the same. Without a ban the list stays. *)
Theorem user_remove_exact now t connIP rf payload : site_ok t -> lower_laws -> Ban.loaded ToLower (bans t) ->
  site_ok (handleUserRemove now t connIP rf payload).1.1 /\
  let '(t', es, err) := handleUserRemove now t connIP rf payload in
    (t' = t /\ (es = [] \/ exists d, es = [Send rf (MPermissionDenied d)])) \/
    exists ur sender target e t0, UserRemove.Unmarshal UserRemove.zero payload = (ur, None) /\ Active (srv_registry (server t)) rf = true /\
      Snapshot (srv_users (server t)) (SessionID rf) = Some sender /\ Snapshot (srv_users (server t)) (UserRemove.Session ur) = Some target /\
      User.IsSuperUser target = false /\
      may EqualFold (server t) (SubjectOf sender) Channels.rootChannelID (if UserRemove.Ban ur then PermissionBan else PermissionKick) = true /\
      (if UserRemove.Ban ur then ban_recorded t connIP target t0 else t0 = t) /\
      ended t0 t' (mkRef (UserRemove.Session ur) (User.SessionGeneration target)) /\ bans t' = bans t0 /\
      es = e ++ [SendThenClose (mkRef (UserRemove.Session ur) (User.SessionGeneration target)) (MUserRemove (ur <| UserRemove.Actor := SessionID rf |>));
                 Detach (mkRef (UserRemove.Session ur) (User.SessionGeneration target))] /\
      forall rf' m, Send rf' m ∈ e -> SessionID rf' <> UserRemove.Session ur /\ m = MUserRemove (ur <| UserRemove.Actor := SessionID rf |>).
Proof.
  intros S I L. split; [by apply handleUserRemove_ok|]. pose proof (handleUserRemove_exact now t connIP rf payload S) as H.
  destruct (handleUserRemove now t connIP rf payload) as [[t' es] err]. destruct H as [H|(ur & sender & target & e & t0 & H1 & H2 & H3 & H4 & H5 & H6 & -> & H7 & H8)]; [by left|].
  right. exists ur, sender, target, e, (if UserRemove.Ban ur then ban_session now t connIP target (UserRemove.Reason ur) else t). do 6 (split; [done|]).
  split; [destruct (UserRemove.Ban ur); [by apply ban_session_recorded|done]|]. split; [done|]. split; [by apply H7|done].
Qed.

(** Releasing the session before its user: the temporary channel of the user
    stays. *)
Lemma retire_exact t rf u : site_ok t -> SessionID rf <> 0 -> Snapshot (srv_users (server t)) (SessionID rf) = Some u -> Generation rf = User.SessionGeneration u ->
  let '(t1, e, ann) := UnregisterConn t rf in let '(s, o) := removeIfGeneration (server t1) rf in
  Valid rf = true /\ o = Some u /\ e = [Detach rf] /\
  forall s2, live_ok EqualFold s2 -> same_rest s s2 -> srv_users s2 = srv_users s -> srv_listeners s2 = srv_listeners s ->
    ended t (with_server t1 s2) rf /\ Channels.GetChannel (srv_chans s2) (User.ChannelID u) = Channels.GetChannel (srv_chans (server t)) (User.ChannelID u).
Proof.
  intros [L Lc R] H0 Hu Hg. assert (mkRef (SessionID rf) (User.SessionGeneration u) = rf) as Er by (destruct rf; cbn in *; congruence).
  assert (Valid rf = true) as Hv.
  { unfold Valid. apply andb_true_iff. rewrite !negb_true_iff, !Z.eqb_neq. split; [done|]. rewrite Hg. by eapply generation_positive; [apply L|]. }
  pose proof (UnregisterConn_exact t rf L Hv) as H. destruct (UnregisterConn t rf) as [[t1 e] ann]. destruct H as (L1 & E1 & _ & [C1 C2] & S1 & _ & H1).
  destruct (H1 ltac:(rewrite <- Er; by apply R)) as [[D1 D2 D3 D4 D5 D6 D7] ->].
  pose proof (removeIfGeneration_exact (server t1) rf L1) as H2. destruct (removeIfGeneration (server t1) rf) as [s o]. destruct H2 as (L2 & (R1 & R2 & R3 & R4 & R5) & HL2 & _ & -> & U2).
  assert (SnapshotRef (srv_users (server t1)) rf = Some u) as Hr by (rewrite E1, <- Er; by apply SnapshotRef_of). rewrite Hr in *.
  split; [done|]. split; [done|]. split; [done|]. intros s2 L3 (Q1 & Q2 & Q3 & Q4 & Q5) Q6 Q7.
  assert (forall sid, Snapshot (srv_users s2) sid = if decide (sid = SessionID rf) then None else Snapshot (srv_users (server t)) sid) as U3.
  { intros sid. rewrite Q6, U2, E1. repeat case_decide; naive_solver. }
  split.
  - split; cbn; rewrite ?Q1, ?R1; try done.
    + split; cbn; rewrite ?Q2, ?Q4, ?Q7, ?R2, ?R4, ?HL2; done.
    + intros x ch Hx Hn. destruct (C2 x ch Hx Hn) as (N1 & N2 & N3). split; [done|]. split; [done|]. intros sid v. rewrite U3. case_decide; [done|]. apply N3.
    + destruct S1 as (? & ? & ? & ?). split; [done|]. split; [done|]. cbn. split; congruence.
  - rewrite Q1, R1. destruct (lc_users (server t) Lc (SessionID rf) u Hu) as [ch Hc]. rewrite Hc.
    destruct (Channels.GetChannel (srv_chans (server t1)) (User.ChannelID u)) as [ch'|] eqn:Hn; [by rewrite (C1 _ _ Hn) in Hc|].
    destruct (C2 _ _ Hc Hn) as (_ & _ & N). by destruct (N _ _ Hu).
Qed.

(** The three ways a session ends by itself. *)
Lemma OnClose_exact t rf u : site_ok t -> SessionID rf <> 0 -> Snapshot (srv_users (server t)) (SessionID rf) = Some u -> Generation rf = User.SessionGeneration u ->
  ended t (OnClose t rf).1 rf /\ Channels.GetChannel (srv_chans (server (OnClose t rf).1)) (User.ChannelID u) = Channels.GetChannel (srv_chans (server t)) (User.ChannelID u).
Proof.
  intros S H0 Hu Hg. pose proof (retire_exact t rf u S H0 Hu Hg) as H. unfold OnClose. destruct (UnregisterConn t rf) as [[t1 e] ann] eqn:E.
  assert (live_ok EqualFold (server t1)) as L1.
  { pose proof (UnregisterConn_exact t rf (so_live t S)) as X. rewrite E in X. destruct (removeIfGeneration (server t1) rf). destruct H as (Hv & _). by apply X. }
  pose proof (removeIfGeneration_exact (server t1) rf L1) as H2. destruct (removeIfGeneration (server t1) rf) as [s o]. destruct H as (Hv & -> & -> & H), H2 as (L2 & _). rewrite Hv.
  cbn [negb fst]. destruct (leave_channel_frame s (User.ChannelID u) L2) as (A1 & A2 & A3 & A4). by apply H.
Qed.
Lemma controlFailed_exact t rf u : site_ok t -> SessionID rf <> 0 -> Snapshot (srv_users (server t)) (SessionID rf) = Some u -> Generation rf = User.SessionGeneration u ->
  ended t (controlFailed t rf).1 rf.
Proof.
  intros S H0 Hu Hg. unfold controlFailed. pose proof (announce_removal_exact t rf (UserRemove.zero <| UserRemove.Session := SessionID rf |>) (so_live t S)) as A.
  destruct (announce_removal t rf _) as [t0 e0]. destruct A as (r & -> & W & A1 & A2 & _).
  assert (site_ok (with_server t ((server t) <| srv_registry := r |>))) as S0.
  { destruct S as [L Lc R]. split; [by apply with_registry_ok|by destruct Lc; split|]. intros sid v Hv. cbn. destruct (decide (mkRef sid (User.SessionGeneration v) = rf)) as [<-|Hn].
    - apply A2. by apply R.
    - rewrite A1 by done. by apply R. }
  pose proof (retire_exact _ rf u S0 H0 Hu Hg) as H. set (t0 := with_server t _) in *. destruct (UnregisterConn t0 rf) as [[t1 e] ann] eqn:E.
  assert (live_ok EqualFold (server t1)) as L1.
  { pose proof (UnregisterConn_exact t0 rf (so_live t0 S0)) as X. rewrite E in X. destruct (removeIfGeneration (server t1) rf). destruct H as (Hv & _). by apply X. }
  pose proof (removeIfGeneration_exact (server t1) rf L1) as H2. destruct (removeIfGeneration (server t1) rf) as [s o]. destruct H as (Hv & -> & -> & H), H2 as (L2 & _).
  destruct (leave_channel_frame s (User.ChannelID u) L2) as (B1 & B2 & B3 & B4). cbn [fst].
  eapply (ended_after_announce t _ rf r); [apply S|done|done|]. by apply H.
Qed.
Lemma closeFailedSync_exact t rf u : site_ok t -> SessionID rf <> 0 -> Snapshot (srv_users (server t)) (SessionID rf) = Some u -> Generation rf = User.SessionGeneration u ->
  ended t (closeFailedSync t rf).1 rf.
Proof.
  intros S H0 Hu Hg. pose proof (retire_exact t rf u S H0 Hu Hg) as H. unfold closeFailedSync. destruct (UnregisterConn t rf) as [[t1 e] ann] eqn:E.
  assert (live_ok EqualFold (server t1)) as L1.
  { pose proof (UnregisterConn_exact t rf (so_live t S)) as X. rewrite E in X. destruct (removeIfGeneration (server t1) rf). destruct H as (Hv & _). by apply X. }
  pose proof (removeIfGeneration_exact (server t1) rf L1) as H2. destruct (removeIfGeneration (server t1) rf) as [s o]. destruct H as (_ & _ & _ & H), H2 as (L2 & _). cbn [fst]. by apply H.
Qed.
Lemma KickSessionRef_exact t rf u reason : site_ok t -> SessionID rf <> 0 -> Snapshot (srv_users (server t)) (SessionID rf) = Some u -> Generation rf = User.SessionGeneration u ->
  ended t (KickSessionRef t rf reason).1.1 rf /\ (KickSessionRef t rf reason).2 = true.
Proof.
  intros S H0 Hu Hg. assert (mkRef (SessionID rf) (User.SessionGeneration u) = rf) as Er by (destruct rf; cbn in *; congruence).
  assert (SnapshotRef (srv_users (server t)) rf = Some u) as Hr by (rewrite <- Er; by apply SnapshotRef_of). unfold KickSessionRef. rewrite Hr.
  pose proof (BeginClose_exact _ rf (ok_registry _ _ (lo_server _ _ (so_live t S)))) as B. destruct (BeginClose _ rf) as [r o]. destruct B as (W & B1 & B2 & B3).
  destruct o as [snap|]; [|exfalso; assert (is_Some (@None SessionSnapshot)) as [] by (apply B3; rewrite <- Er; by apply S); done].
  set (ur := user_remove _ _ _ _). pose proof (expel_exact (with_server t ((server t) <| srv_registry := r |>)) rf (User.ChannelID u) ur u (with_registry_ok _ _ (so_live t S) W)) as X.
  assert (Valid rf = true) as Hv.
  { unfold Valid. apply andb_true_iff. rewrite !negb_true_iff, !Z.eqb_neq. split; [done|]. rewrite Hg. by eapply generation_positive; [apply S|]. }
  specialize (X Hv Hr). cbn in X. specialize (X ltac:(apply B2; rewrite <- Er; by apply S)). destruct (expel _ rf _ ur) as [t2 e2]. destruct X as [X ->]. cbn [fst snd]. split; [|done].
  eapply (ended_after_announce t t2 rf r); [apply S|done|done|exact X].
Qed.

(** The session behind [rf] ends in every one of the ways a server ends a
    session: everything of it is gone, nothing of anybody else. *)
Theorem sessions_end_cleanly t rf u reason : site_ok t -> SessionID rf <> 0 -> Snapshot (srv_users (server t)) (SessionID rf) = Some u ->
  Generation rf = User.SessionGeneration u ->
  Forall (fun t' => ended t t' rf /\ site_ok t') [(KickSessionRef t rf reason).1.1; (OnClose t rf).1; (controlFailed t rf).1; (closeFailedSync t rf).1].
Proof.
  intros S H0 Hu Hg. assert (forall t', ended t t' rf -> ended t t' rf /\ site_ok t') as E by (intros t' E; split; [done|by eapply ended_ok]).
  repeat apply Forall_cons_2; [apply E; by eapply KickSessionRef_exact|apply E; by eapply OnClose_exact|apply E; by eapply controlFailed_exact|
    apply E; by eapply closeFailedSync_exact|by apply Forall_nil_2].
Qed.

(** The temporary channel of a client that disconnects stays, also when it
    was the last one in it: the session is released before the user. *)
Theorem disconnect_keeps_temporary_channel t rf u ch : site_ok t -> SessionID rf <> 0 -> Snapshot (srv_users (server t)) (SessionID rf) = Some u ->
  Generation rf = User.SessionGeneration u -> Channels.GetChannel (srv_chans (server t)) (User.ChannelID u) = Some ch ->
  (forall sid v, Snapshot (srv_users (server t)) sid = Some v -> sid <> SessionID rf -> User.ChannelID v <> User.ChannelID u) ->
  let t' := (OnClose t rf).1 in
  Channels.GetChannel (srv_chans (server t')) (User.ChannelID u) = Some ch /\
  forall sid v, Snapshot (srv_users (server t')) sid = Some v -> User.ChannelID v <> User.ChannelID u.
Proof.
  intros S H0 Hu Hg Hc Ho. destruct (OnClose_exact t rf u S H0 Hu Hg) as [[_ U _ _ _ _] H]. split; [by rewrite H|].
  intros sid v. rewrite U. case_decide; [done|]. intros Hv. by apply (Ho sid).
Qed.
End Handlers.
End SessionHandlers.
