(* ===== verification/HandlerSample.v ===== *)
(** * A small server that is talked to

    An administrator, a player in a temporary channel and a guest in the
    channel above it; the theorems about the control handlers applied to
    messages of theirs, and what the handlers compute for them. *)

From Stdlib Require Import ZArith Lia String.
From stdpp Require Import base numbers list gmap sets option.
From S2P Require Import Prelude Wire Fields Messages Codec Registry UserManager ChannelManager ChannelTable Acl AclCache AclSample Listeners VoiceState VoiceServer VoiceSample Ban RateLimit ServerState UserStateHandler TextHandlers ChannelHandlers SessionHandlers.

Module HandlerSample.
Import ChannelTable Acl AclCache AclSample Listeners VoiceFlags ChannelCrypto VoiceServer VoiceSample RateLimit ServerState UserStateHandler TextHandlers ChannelHandlers SessionHandlers.

Definition joined : list mop :=
  [OpListener self; OpAdd ((person 65 2 []) <| User.IsSuperUser := true |>); OpAdd (person 66 4 []); OpAdd (person 67 3 [])].
Definition users4 : UserManager.Manager := (run_mgr (UserManager.NewManager 5) joined).1.
Lemma users4_wf : mgr_wf users4.
Proof.
  destruct (run_mgr_wf joined (UserManager.NewManager 5)) as [W _]; [by apply NewManager_wf|repeat constructor|vm_compute; reflexivity|exact W].
Qed.
Definition chans4 : Channels.Manager table := Channels.AddAuthorizationListener server1 self.
Lemma chans4_wf : Channels.chan_wf chans4.
Proof. destruct (Channels.cop_exec_wf server1 (Channels.OpListener self) server1_wf I) as (m & [= <-] & W). exact W. Qed.

Definition server4 : Server table :=
  mkServer table users4 chans4 registry3 listeners3 ∅ (default_store [] [] (fun _ => Some None)) (Some NewEvaluator) ∅ {[LocalEdgeID; east]}.
Definition core4 : Core table := mkCore table server4 (mkSettings true 5000 131072 0 0 0) ∅ ∅.
Definition site4 : Site table (list Ban.Row) := mkSite table (list Ban.Row) core4 Ban.sample_bans {[1; 3]} ∅ ∅.

Lemma server4_live : live_ok fold_ascii server4.
Proof.
  split.
  - split.
    + exact users4_wf.
    + exact chans4_wf.
    + exact registry3_wf.
    + exists (lrun (spec_step ident) ∅ [LAdd 3 4; LSetVolume 3 4 0x40000000]).1.
      destruct (lrun_refines ident ident_ok [LAdd 3 4; LSetVolume 3 4 0x40000000] empty_manager ∅ refines_empty) as [_ R]. exact R.
    + intros e [= <-]. apply cache_valid_empty.
  - apply (bool_decide_eq_true_1 (self ∈ authorizationListeners users4)). vm_compute. reflexivity.
  - apply (bool_decide_eq_true_1 (self ∈ Channels.authorizationListeners chans4)). vm_compute. reflexivity.
  - vm_compute. reflexivity.
Qed.

(** What holds of every user is checked on the list of them. *)
Lemma users4_all (P : User.t -> bool) : forallb P (UserManager.users users4) = true ->
  forall sid u, Snapshot users4 sid = Some u -> User.SessionID u = sid /\ P u = true.
Proof.
  intros H sid u Hu. pose proof (Snapshot_session fold_ascii server4 sid u (lo_server _ _ server4_live) Hu) as Hs. split; [done|].
  rewrite forallb_forall in H. apply H, list_elem_of_In. apply (elem_of_users fold_ascii server4 u (lo_server _ _ server4_live)). by rewrite Hs.
Qed.
Definition there {A} (o : option A) : bool := match o with Some _ => true | None => false end.
Lemma there_Some {A} (o : option A) : there o = true -> is_Some o.
Proof. destruct o; [by eexists|done]. Qed.
Lemma users4_places : forallb (fun u => there (Channels.GetChannel chans4 (User.ChannelID u))) (UserManager.users users4) = true.
Proof. vm_compute. reflexivity. Qed.
Lemma users4_sessions : forallb (fun u => there (Registry.Snapshot registry3 (mkRef (User.SessionID u) (User.SessionGeneration u)))) (UserManager.users users4) = true.
Proof. vm_compute. reflexivity. Qed.
Lemma server4_located : located server4.
Proof.
  split.
  - intros sid u Hu. destruct (users4_all _ users4_places sid u Hu) as [_ H]. by apply there_Some.
  - intros ch. vm_compute. intros [= <-]. reflexivity.
Qed.
Lemma server4_registered : registered server4.
Proof.
  intros sid u Hu. destruct (users4_all _ users4_sessions sid u Hu) as [Hs H]. apply there_Some. by rewrite Hs in H.
Qed.
Lemma site4_ok : site_ok fold_ascii site4.
Proof. split; [exact server4_live|exact server4_located|exact server4_registered]. Qed.

Definition boss : SessionRef := mkRef 1 1.
Definition player : SessionRef := mkRef 2 2.
Definition guest : SessionRef := mkRef 3 3.

(** ** UserState *)

(** The administrator mutes and moves the player. *)
Definition move_player : bytes := UserState.Marshal (UserState.zero <| UserState.Session := 2 |> <| UserState.ChannelID := 3 |> <| UserState.Mute := true |>
  <| UserState.SetFields := Z.lor (Z.lor UserState.SetSession UserState.SetChannelID) UserState.SetMute |>).
Example move_player_done :
  let '(c, es, err) := handleUserState fold_ascii 0 core4 boss move_player in
  err = None /\ (fun u => (User.ChannelID u, Mute (User.Voice u))) <$> Snapshot (srv_users (srv c)) 2 = Some (3, true) /\
  (fun u => (User.ChannelID u, Mute (User.Voice u))) <$> Snapshot (srv_users (srv c)) 3 = Some (3, false) /\ length es = 7%nat.
Proof. vm_compute. repeat split. Qed.
(** The guest may not. *)
Example move_player_refused :
  let '(c, es, err) := handleUserState fold_ascii 0 core4 guest move_player in
  err = None /\ (fun u => (User.ChannelID u, Mute (User.Voice u))) <$> Snapshot (srv_users (srv c)) 2 = Some (4, false) /\ length es = 1%nat.
Proof. vm_compute. repeat split. Qed.

Lemma user_state_announced_witness :
  is_Some (Snapshot users4 2) /\ exists u, Snapshot users4 2 = Some u /\
  let '(c', es, _) := handleUserState fold_ascii 0 core4 boss move_player in
  exists u', Snapshot (srv_users (srv c')) 2 = Some u' /\ announced (srv c') es 2 1 u u'.
Proof.
  assert (is_Some (Snapshot users4 2)) as [u Hu] by (vm_compute; eauto). split; [by eexists|]. exists u. split; [exact Hu|].
  apply (user_state_announced fold_ascii 0 core4 boss move_player 2 u); [exact server4_live|exact Hu].
Defined.

(** ** Text *)

Definition hello : TextMessage.t := TextMessage.zero <| TextMessage.TreeID := [3] |> <| TextMessage.Session := [2] |> <| TextMessage.Message := str "hello"%string |>.
Example hello_sent : (handleTextMessage fold_ascii 0 core4 guest (TextMessage.Marshal hello)).1.2 =
  [Send player (MTextMessage (hello <| TextMessage.Actor := 3 |>))].
Proof. vm_compute. reflexivity. Qed.
Lemma hello_read : TextMessage.Unmarshal TextMessage.zero (TextMessage.Marshal hello) = (hello, None).
Proof. vm_compute. reflexivity. Qed.
Lemma guest_there : is_Some (Snapshot (srv_users (srv core4)) (SessionID guest)).
Proof. vm_compute. eauto. Qed.
Lemma guest_active : Active registry3 guest = true.
Proof. vm_compute. reflexivity. Qed.
Lemma boss_active : Active registry3 boss = true.
Proof. vm_compute. reflexivity. Qed.
Lemma text_message_exact_witness : exists u, Snapshot (srv_users (srv core4)) (SessionID guest) = Some u /\
  let '(c', es, err) := handleTextMessage fold_ascii 0 core4 guest (TextMessage.Marshal hello) in
  let ok := (rateLimitAllows 0 (textRateLimiter core4) (SessionID guest) maxTextMessagesPerSecond).2 = true /\
    too_long (maxTextBytes (settings core4)) (zlen (TextMessage.Message hello)) = false /\ permitted fold_ascii (srv core4) u hello in
  err = None /\ srv c' = srv core4 /\ settings c' = settings core4 /\ userStateRateLimiter c' = userStateRateLimiter core4 /\
  (ok -> exists rfs, es = map (fun r => Send r (MTextMessage (hello <| TextMessage.Actor := SessionID guest |>))) rfs /\ NoDup (map SessionID rfs) /\
     forall r, r ∈ rfs <-> Ref (srv_registry (srv core4)) (SessionID r) = Some r /\ SessionID r <> SessionID guest /\ addressed_by fold_ascii (srv core4) u hello (SessionID r)) /\
  (~ ok -> exists d, es = [Send guest (MPermissionDenied d)]).
Proof.
  destruct guest_there as [u Hu]. exists u. split; [exact Hu|].
  apply (text_message_exact fold_ascii 0 core4 guest (TextMessage.Marshal hello) hello u); [exact server4_live|exact guest_active|exact hello_read|exact Hu].
Defined.
(** ** Channels *)

Definition rename : bytes := ChannelState.Marshal (ChannelState.zero <| ChannelState.ChannelID := 3 |> <| ChannelState.Name := str "Play"%string |> <| ChannelState.LinksRemove := [2] |>).
Example rename_done :
  let '(c, es, err) := handleChannelState fold_ascii orders core4 boss rename in
  err = None /\ Channels.Name <$> Channels.GetChannel (srv_chans (srv c)) 3 = Some (str "Play"%string) /\ Channels.links_of (srv_chans (srv c)) 2 = [4] /\ length es = 9%nat.
Proof. vm_compute. repeat split. Qed.
(** A new temporary channel below channel 3: for the administrator, who may
    MakeChannel, and not for the guest. *)
Definition new_channel : bytes := ChannelState.Marshal (ChannelState.zero <| ChannelState.Parent := 3 |> <| ChannelState.HasParent := true |> <| ChannelState.Name := str "Go"%string |> <| ChannelState.Temporary := true |>).
Example channel_created :
  let '(c, es, err) := handleChannelState fold_ascii orders core4 boss new_channel in
  (err, length es, (fun ch => (Channels.Name ch, Channels.ParentID ch, Channels.IsTemporary ch)) <$> Channels.GetChannel (srv_chans (srv c)) 5) =
  (None, 3%nat, Some (str "Go"%string, 3, true)).
Proof. vm_compute. reflexivity. Qed.
Example channel_refused :
  let '(c, es, err) := handleChannelState fold_ascii orders core4 guest new_channel in
  err = None /\ Channels.GetChannel (srv_chans (srv c)) 5 = None /\ length es = 1%nat.
Proof. vm_compute. split_and!; reflexivity. Qed.

(** Channel 4 can go; channel 3 cannot, as 4 is below it. *)
Definition remove (cid : Z) : bytes := ChannelRemove.Marshal (ChannelRemove.zero <| ChannelRemove.ChannelID := cid |>).
Example remove_4 :
  let '(c, es, err) := handleChannelRemove fold_ascii orders core4 boss (remove 4) in
  Channels.GetChannel (srv_chans (srv c)) 4 = None /\ User.ChannelID <$> Snapshot (srv_users (srv c)) 2 = Some 3 /\ length es = 9%nat.
Proof. vm_compute. repeat split. Qed.
Lemma channel_remove_exact_witness :
  let '(c', es, err) := handleChannelRemove fold_ascii orders core4 boss (remove 4) in
  live_ok fold_ascii (srv c') /\ located (srv c') /\ settings c' = settings core4 /\
  ((c' = core4 /\ (es = [] \/ exists d, es = [Send boss (MPermissionDenied d)])) \/
   exists cr u ch gone, ChannelRemove.Unmarshal ChannelRemove.zero (remove 4) = (cr, None) /\ Active (srv_registry (srv core4)) boss = true /\
     Snapshot (srv_users (srv core4)) (SessionID boss) = Some u /\ may fold_ascii (srv core4) (SubjectOf u) (ChannelRemove.ChannelID cr) PermissionWrite = true /\
     Channels.GetChannel (srv_chans (srv core4)) (ChannelRemove.ChannelID cr) = Some ch /\
     removed fold_ascii (srv core4) (srv c') (ChannelRemove.ChannelID cr) ch gone /\
     (gone = true -> exists e, es = e ++ Broadcast (srv c') 0 (MChannelRemove cr))).
Proof. apply (channel_remove_exact fold_ascii orders orders_ok core4 boss (remove 4)); [exact server4_live|exact server4_located]. Defined.

Definition boss_user : User.t := default User.zero (Snapshot users4 1).
Definition guest_user : User.t := default User.zero (Snapshot users4 3).
Definition games : Channels.Channel := default (Channels.mkChannel 0 0 [] [] 0 0 false [] false) (Channels.GetChannel chans4 3).
Definition cr3 : ChannelRemove.t := ChannelRemove.zero <| ChannelRemove.ChannelID := 3 |>.
Lemma boss_there : Snapshot (srv_users (srv core4)) (SessionID boss) = Some boss_user.
Proof. vm_compute. reflexivity. Qed.
Lemma guest_user_there : Snapshot (srv_users (srv core4)) 3 = Some guest_user /\ User.ChannelID guest_user = 3.
Proof. vm_compute. split; reflexivity. Qed.
Lemma boss_may : may fold_ascii (srv core4) (SubjectOf boss_user) 3 PermissionWrite = true.
Proof. vm_compute. reflexivity. Qed.
Lemma games_there : Channels.GetChannel (srv_chans (srv core4)) 3 = Some games /\ parent_of games = 0.
Proof. vm_compute. split; reflexivity. Qed.
Lemma chess_below : exists l, Channels.kid (srv_chans (srv core4)) 3 l.
Proof. vm_compute. eexists 3%nat, _. split; [reflexivity|]. split; [reflexivity|]. split; [discriminate|reflexivity]. Qed.
Lemma cr3_read : ChannelRemove.Unmarshal ChannelRemove.zero (remove 3) = (cr3, None).
Proof. vm_compute. reflexivity. Qed.
Lemma refused_removal_ejects_witness : let c' := (handleChannelRemove fold_ascii orders core4 boss (remove 3)).1.1 in
  Channels.GetChannel (srv_chans (srv c')) 3 = Some games /\ exists v', Snapshot (srv_users (srv c')) 3 = Some v' /\ User.ChannelID v' = parent_of games.
Proof.
  destruct chess_below as [l Hl]. apply (refused_removal_ejects fold_ascii orders orders_ok core4 boss (remove 3) cr3 boss_user games l 3 guest_user);
    [exact server4_live|exact boss_active|exact cr3_read|exact boss_there|exact boss_may|apply games_there|exact Hl|apply guest_user_there|apply guest_user_there].
Defined.
(** ** The end of sessions *)

(** The administrator bans the player. *)
Definition ban_player : bytes := UserRemove.Marshal (UserRemove.zero <| UserRemove.Session := 2 |> <| UserRemove.Ban := true |> <| UserRemove.Reason := str "enough"%string |>).
Notation remove_user := (handleUserRemove fold_ascii orders Ban.lower Ban.no_time Ban.no_date Ban.as_bytes 0).
Example player_banned :
  let '(t, es, err) := remove_user site4 (Some [10; 0; 0; 7]) boss ban_player in
  err = None /\ Snapshot (srv_users (server t)) 2 = None /\ Channels.GetChannel (srv_chans (server t)) 4 = None /\ length (Ban.List Ban.no_date (bans t)) = S (length (Ban.List Ban.no_date (bans site4))).
Proof. vm_compute. repeat split. Qed.
Example player_not_banned : (remove_user site4 (Some [10; 0; 0; 7]) guest ban_player).1.1 = site4 /\ length (remove_user site4 (Some [10; 0; 0; 7]) guest ban_player).1.2 = 1%nat.
Proof. split; vm_compute; reflexivity. Qed.
Lemma lower_lawful : lower_laws Ban.lower.
Proof. split; [exact Ban.lower_idemp|]. by intros [|? ?]. Qed.
Lemma site4_bans : Ban.loaded Ban.lower (bans site4).
Proof. eexists. split; [reflexivity|]. by repeat constructor. Qed.
Lemma list_reliable : Ban.reliable (DB := list Ban.Row).
Proof. split; [done|]. split; [done|]. intros d. by eexists. Qed.
Lemma user_remove_exact_witness :
  site_ok fold_ascii (remove_user site4 (Some [10; 0; 0; 7]) boss ban_player).1.1 /\
  let '(t', es, err) := remove_user site4 (Some [10; 0; 0; 7]) boss ban_player in
    (t' = site4 /\ (es = [] \/ exists d, es = [Send boss (MPermissionDenied d)])) \/
    exists ur sender target e t0, UserRemove.Unmarshal UserRemove.zero ban_player = (ur, None) /\ Active (srv_registry (server site4)) boss = true /\
      Snapshot (srv_users (server site4)) (SessionID boss) = Some sender /\ Snapshot (srv_users (server site4)) (UserRemove.Session ur) = Some target /\
      User.IsSuperUser target = false /\
      may fold_ascii (server site4) (SubjectOf sender) Channels.rootChannelID (if UserRemove.Ban ur then PermissionBan else PermissionKick) = true /\
      (if UserRemove.Ban ur then ban_recorded Ban.lower Ban.as_bytes site4 (Some [10; 0; 0; 7]) target t0 else t0 = site4) /\
      ended fold_ascii t0 t' (mkRef (UserRemove.Session ur) (User.SessionGeneration target)) /\ bans t' = bans t0 /\
      es = e ++ [SendThenClose (mkRef (UserRemove.Session ur) (User.SessionGeneration target)) (MUserRemove (ur <| UserRemove.Actor := SessionID boss |>));
                 Detach (mkRef (UserRemove.Session ur) (User.SessionGeneration target))] /\
      forall rf' m, Send rf' m ∈ e -> SessionID rf' <> UserRemove.Session ur /\ m = MUserRemove (ur <| UserRemove.Actor := SessionID boss |>).
Proof.
  apply (user_remove_exact fold_ascii orders Ban.lower Ban.no_time Ban.no_date Ban.as_bytes orders_ok 0 site4 (Some [10; 0; 0; 7]) boss ban_player);
    [exact site4_ok|exact lower_lawful|exact site4_bans].
Defined.
(** The ban is in force: the player came from 10.0.0.7 without a certificate. *)
Example player_refused : let l := bans (remove_user site4 (Some [10; 0; 0; 7]) boss ban_player).1.1 in
  map (fun ip => Ban.IsBanned Ban.lower l (Some ip) []) [[10; 0; 0; 7]; [10; 0; 0; 8]] = [true; false] /\
  Ban.IsBanned Ban.lower (bans site4) (Some [10; 0; 0; 7]) [] = false.
Proof. vm_compute. split; reflexivity. Qed.

Definition player_user : User.t := default User.zero (Snapshot users4 2).
Lemma player_there : Snapshot (srv_users (server site4)) (SessionID player) = Some player_user.
Proof. vm_compute. reflexivity. Qed.
Lemma player_generation : Generation player = User.SessionGeneration player_user.
Proof. vm_compute. reflexivity. Qed.
Lemma player_session : SessionID player <> 0.
Proof. discriminate. Qed.
Lemma sessions_end_cleanly_witness :
  Forall (fun t' => ended fold_ascii site4 t' player /\ site_ok fold_ascii t')
    [(KickSessionRef orders site4 player []).1.1; (OnClose orders site4 player).1; (controlFailed orders site4 player).1; (closeFailedSync orders site4 player).1].
Proof.
  apply (sessions_end_cleanly fold_ascii orders Ban.lower Ban.no_time Ban.no_date Ban.as_bytes orders_ok site4 player player_user []);
    [exact site4_ok|exact player_session|exact player_there|exact player_generation].
Defined.

(** The player was alone in the temporary channel 4. *)
Definition chess : Channels.Channel := default games (Channels.GetChannel chans4 4).
Lemma chess_there : Channels.GetChannel (srv_chans (server site4)) (User.ChannelID player_user) = Some chess /\ Channels.IsTemporary chess = true.
Proof. vm_compute. split; reflexivity. Qed.
Lemma players_alone : forallb (fun v => (User.SessionID v =? 2) || negb (User.ChannelID v =? User.ChannelID player_user)) (UserManager.users users4) = true.
Proof. vm_compute. reflexivity. Qed.
Lemma player_alone : forall sid v, Snapshot (srv_users (server site4)) sid = Some v -> sid <> SessionID player -> User.ChannelID v <> User.ChannelID player_user.
Proof.
  intros sid v Hv Hs. destruct (users4_all _ players_alone sid v Hv) as [E H]. apply orb_true_iff in H as [H|H]; [|by apply negb_true_iff, Z.eqb_neq in H].
  apply Z.eqb_eq in H. cbn [SessionID player] in Hs. congruence.
Qed.
Lemma disconnect_keeps_temporary_channel_witness : let t' := (OnClose orders site4 player).1 in
  Channels.GetChannel (srv_chans (server t')) (User.ChannelID player_user) = Some chess /\
  forall sid v, Snapshot (srv_users (server t')) sid = Some v -> User.ChannelID v <> User.ChannelID player_user.
Proof.
  apply (disconnect_keeps_temporary_channel fold_ascii orders Ban.lower Ban.no_time Ban.no_date Ban.as_bytes orders_ok site4 player player_user chess);
    [exact site4_ok|exact player_session|exact player_there|exact player_generation|apply chess_there|exact player_alone].
Defined.
End HandlerSample.
