(* ===== verification/Identity.v ===== *)
(** * Identities

    [internal/identity/authority.go], [internal/mumble/identity_authority.go]
    and the credential helpers of [internal/mumble/handlers.go]: what an
    authority answers, the authority over the local database, and the handler
    of QueryUsers.

    The database and the password hashes are parameters. [Table] queries and
    queries of a model are different queries: only the latter leave out rows
    that were deleted. *)

From Stdlib Require Import ZArith Lia String.
From stdpp Require Import base numbers list gmap sets option.
From S2P Require Import Prelude Wire Fields Messages Codec Registry UserManager ChannelManager Acl VoiceServer ServerState TextHandlers.

Module Identity.
Import Acl VoiceServer ServerState TextHandlers.

(** ** authority.go *)

Record AuthenticateRequest := mkRequest {
  ServerInstanceID : gostring; Username : gostring; Password : gostring; CertificateHash : gostring; RemoteIP : gostring }.
Record Identity := mkIdentity {
  Eligible : bool; id_UserID : Z; id_Name : gostring; id_Groups : list gostring;
  id_IdentityVersion : Z; id_PolicyVersion : Z; id_IsSuperUser : bool }.
Definition Identity_zero : Identity := mkIdentity false 0 [] [] 0 0 false.
Definition DecisionAllow : gostring := str "allow"%string.
Definition DecisionDeny : gostring := str "deny"%string.
Record AuthenticateResult := mkAnswer { Decision : gostring; res_Identity : Identity; Reason : gostring }.
Record ResolveRequest := mkResolve { UserIDs : list Z; Names : list gostring }.

(** The interface [IdentityProvider]; [None] is an error. *)
Record Authority := mkAuthority {
  Authenticate : AuthenticateRequest -> option AuthenticateResult;
  Resolve : ResolveRequest -> option (list Identity);
  External : bool }.

(** ** The local authority *)

Definition SuperUserName : gostring := str "SuperUser"%string.

Inductive query (A : Type) := Found (a : A) | NotFound | QueryFailed.
Arguments Found {A} a.
Arguments NotFound {A}.
Arguments QueryFailed {A}.

Record ApiUser := mkApi { api_ID : Z; api_Username : gostring; api_PasswordHash : gostring }.
Record RegisteredUser := mkRegistered { reg_UserID : Z; reg_Name : gostring; reg_PasswordHash : gostring; reg_CertHash : gostring }.

(** The queries of the accounts: [First] of the table [users] by name, of
    [registered_users] of this server by name, and of the two models by number
    and by name. *)
Class Accounts (ADB : Type) := {
  tableUser : ADB -> gostring -> query ApiUser;
  tableRegistered : ADB -> gostring -> query RegisteredUser;
  userByID : ADB -> Z -> query ApiUser;
  userByName : ADB -> gostring -> query ApiUser;
  registeredByID : ADB -> Z -> query RegisteredUser;
  registeredByName : ADB -> gostring -> query RegisteredUser }.

Definition sanitizedClientTokens (tokens : list gostring) : list gostring :=
  filter (fun token => token <> []) (map TrimSpace tokens).

(** [strings.HasPrefix]. *)
Definition HasPrefix (s p : gostring) : bool := bool_decide (take (length p) s = p).

Section Local.
Context (EqualFold : gostring -> gostring -> bool).
Context (ComparePassword CompareArgon2id : gostring -> gostring -> bool).
Context {ADB : Type} `{AC : Accounts ADB}.

Definition LookupAPIUser (d : ADB) (username : gostring) : option (Z * gostring) :=
  match tableUser d username with Found u => Some (u32 (api_ID u), api_PasswordHash u) | _ => None end.
Definition lookupRegisteredUser (d : ADB) (username : gostring) : option (Z * gostring * gostring) :=
  match tableRegistered d username with Found u => Some (u32 (reg_UserID u), reg_PasswordHash u, reg_CertHash u) | _ => None end.

Definition registeredUserCredentialsValid (storedPasswordHash storedCertHash providedPassword presentedCertHash : gostring) : bool :=
  let certMatches := negb (bool_decide (storedCertHash = [])) && negb (bool_decide (presentedCertHash = [])) && EqualFold storedCertHash presentedCertHash in
  let passwordMatches := if negb (bool_decide (providedPassword = [])) && negb (bool_decide (storedPasswordHash = [])) then
      (HasPrefix storedPasswordHash (str "$argon2id$"%string) && CompareArgon2id storedPasswordHash providedPassword) ||
      (HasPrefix storedPasswordHash (str "$2"%string) && ComparePassword storedPasswordHash providedPassword)
    else false in
  certMatches || passwordMatches.

Definition denied : AuthenticateResult := mkAnswer DecisionDeny Identity_zero [].

(** The part of [Authenticate] on the server password and the API accounts:
    the number of the account, 0 for none, or a refusal. *)
Definition api_account (d : ADB) (serverPassword : gostring) (req : AuthenticateRequest) : option Z :=
  if negb (bool_decide (serverPassword = [])) then
    if negb (bool_decide (Password req = serverPassword)) then
      match LookupAPIUser d (Username req) with
      | Some (id, hash) => if ComparePassword hash (Password req) then Some id else None
      | None => None
      end
    else Some 0
  else if negb (bool_decide (Password req = [])) then
    match LookupAPIUser d (Username req) with
    | Some (id, hash) => if ComparePassword hash (Password req) then Some id else None
    | None => Some 0
    end
  else Some 0.
Definition local_Authenticate (d : ADB) (serverPassword : gostring) (req : AuthenticateRequest) : AuthenticateResult :=
  match api_account d serverPassword req with
  | None => denied
  | Some apiUserID =>
      let userID := if negb (apiUserID =? 0) then Some (MakeAPIUserID apiUserID) else
        match lookupRegisteredUser d (Username req) with
        | Some (uid, hash, certHash) => if registeredUserCredentialsValid hash certHash (Password req) (CertificateHash req) then Some uid else None
        | None => Some 0
        end in
      match userID with
      | None => denied
      | Some userID =>
          if bool_decide (Username req = SuperUserName) && (userID =? 0) then denied
          else mkAnswer DecisionAllow (mkIdentity true userID (Username req) [] 0 0 false) []
      end
  end.

Definition localNameForID (d : ADB) (userID : Z) : gostring * bool :=
  if IsAPIUserID userID then match userByID d (APIUserIDToDBID userID) with Found u => (api_Username u, true) | _ => ([], false) end
  else match registeredByID d userID with Found u => (reg_Name u, true) | _ => ([], false) end.
Definition localIDForName (d : ADB) (name : gostring) : Z * bool :=
  match userByName d name with
  | Found u => (MakeAPIUserID (api_ID u), true)
  | QueryFailed => (0, false)
  | NotFound => match registeredByName d (TrimSpace name) with Found u => (u32 (reg_UserID u), true) | _ => (0, false) end
  end.
Definition local_Resolve (d : ADB) (m : Manager) (req : ResolveRequest) : list Identity :=
  map (fun userID => match SnapshotByUserID m userID with
    | Some online => mkIdentity true userID (User.Name online) [] 0 0 false
    | None => let '(name, ok) := localNameForID d userID in mkIdentity ok userID name [] 0 0 false end) (UserIDs req) ++
  map (fun name => match SnapshotByName m name with
    | Some online => mkIdentity true (User.UserID online) name [] 0 0 false
    | None => let '(userID, ok) := localIDForName d name in mkIdentity ok userID name [] 0 0 false end) (Names req).

Definition localAuthority (d : ADB) (serverPassword : gostring) (m : Manager) : Authority :=
  mkAuthority (fun req => Some (local_Authenticate d serverPassword req)) (fun req => Some (local_Resolve d m req)) false.

(** ** Who gets in *)

(** The password of an API account, and the password or certificate of a
    registered user. *)
Definition proves_api (d : ADB) (req : AuthenticateRequest) (id : Z) : Prop :=
  exists u, tableUser d (Username req) = Found u /\ ComparePassword (api_PasswordHash u) (Password req) = true /\ id = u32 (api_ID u).
Definition proves_registered (d : ADB) (req : AuthenticateRequest) (uid : Z) : Prop :=
  exists u, tableRegistered d (Username req) = Found u /\
    registeredUserCredentialsValid (reg_PasswordHash u) (reg_CertHash u) (Password req) (CertificateHash req) = true /\ uid = u32 (reg_UserID u).
Definition allowed (req : AuthenticateRequest) (uid : Z) : AuthenticateResult := mkAnswer DecisionAllow (mkIdentity true uid (Username req) [] 0 0 false) [].

Lemma LookupAPIUser_Some d name id hash : LookupAPIUser d name = Some (id, hash) <-> exists u, tableUser d name = Found u /\ id = u32 (api_ID u) /\ hash = api_PasswordHash u.
Proof. unfold LookupAPIUser. split; [|by intros (u & -> & -> & ->)]. destruct (tableUser d name) as [u| |]; [|done..]. intros [= <- <-]. by exists u. Qed.
Lemma lookupRegisteredUser_Some d name uid hash cert : lookupRegisteredUser d name = Some (uid, hash, cert) <->
  exists u, tableRegistered d name = Found u /\ uid = u32 (reg_UserID u) /\ hash = reg_PasswordHash u /\ cert = reg_CertHash u.
Proof. unfold lookupRegisteredUser. split; [|by intros (u & -> & -> & -> & ->)]. destruct (tableRegistered d name) as [u| |]; [|done..]. intros [= <- <- <-]. by exists u. Qed.
Lemma api_account_sound d sp req id : api_account d sp req = Some id ->
  (sp <> [] -> Password req = sp \/ proves_api d req id) /\ (id <> 0 -> proves_api d req id).
Proof.
  unfold api_account. assert (forall h, LookupAPIUser d (Username req) = Some (id, h) -> ComparePassword h (Password req) = true -> proves_api d req id) as Hp.
  { intros h (u & Hu & -> & ->)%LookupAPIUser_Some Hc. by exists u. }
  destruct (decide (sp = [])) as [->|Hsp].
  - rewrite bool_decide_eq_true_2 by done. cbn [negb]. case_bool_decide; cbn [negb]; [intros [= <-]; by split|].
    destruct (LookupAPIUser _ _) as [[i h]|] eqn:E; [|intros [= <-]; by split]. destruct (ComparePassword h _) eqn:Ec; [|done]. intros [= ->]. split; [done|]. eauto.
  - rewrite bool_decide_eq_false_2 by done. cbn [negb]. case_bool_decide; cbn [negb]; [intros [= <-]; split; [by left|done]|].
    destruct (LookupAPIUser _ _) as [[i h]|] eqn:E; [|done]. destruct (ComparePassword h _) eqn:Ec; [|done]. intros [= ->]. split; eauto.
Qed.
Lemma MakeAPIUserID_nonzero id : id <> 0 -> MakeAPIUserID id <> 0.
Proof.
  intros H. unfold MakeAPIUserID. rewrite (proj2 (Z.eqb_neq id 0)) by done. intros E. apply Z.lor_eq_0_iff in E as [E _]. done.
Qed.

(** What an answer of the local authority comes from. *)
Lemma local_Authenticate_cases d sp req : local_Authenticate d sp req = denied \/
  exists id uid, api_account d sp req = Some id /\ local_Authenticate d sp req = allowed req uid /\ (Username req = SuperUserName -> uid <> 0) /\
    ((id <> 0 /\ uid = MakeAPIUserID id) \/
     (id = 0 /\ (proves_registered d req uid \/ (uid = 0 /\ forall u, tableRegistered d (Username req) <> Found u)))).
Proof.
  unfold local_Authenticate. destruct (api_account d sp req) as [id|]; [|by left]. set (o := if negb (id =? 0) then _ else _).
  assert (forall uid, o = Some uid -> (id <> 0 /\ uid = MakeAPIUserID id) \/
     (id = 0 /\ (proves_registered d req uid \/ (uid = 0 /\ forall u, tableRegistered d (Username req) <> Found u)))) as Ho.
  { intros uid. unfold o. destruct (Z.eqb_spec id 0) as [Hz|Hn]; cbn [negb]; [|intros [= <-]; by left]. intros H. right. split; [done|].
    destruct (lookupRegisteredUser d (Username req)) as [[[u h] ce]|] eqn:E.
    - destruct (registeredUserCredentialsValid _ _ _ _) eqn:Ev; [|done]. injection H as <-. left. apply lookupRegisteredUser_Some in E as (v & Hv & -> & -> & ->). by exists v.
    - injection H as <-. right. split; [done|]. intros u Hu. unfold lookupRegisteredUser in E. by rewrite Hu in E. }
  destruct o as [uid|]; [|by left]. destruct (bool_decide _ && _) eqn:Eb; [by left|]. right. exists id, uid. split_and!; [done|done| |by apply Ho].
  intros Hs ->. by rewrite bool_decide_eq_true_2 in Eb.
Qed.


(** A failing database admits everybody as a guest under any name, a
    registered one too. *)
Lemma failing_database_admits d req : tableUser d (Username req) = QueryFailed -> tableRegistered d (Username req) = QueryFailed -> Username req <> SuperUserName ->
  local_Authenticate d [] req = allowed req 0.
Proof.
  intros H1 H2 Hn. unfold local_Authenticate, api_account, LookupAPIUser, lookupRegisteredUser. rewrite H1, H2, bool_decide_eq_true_2 by done. cbn [negb].
  rewrite (bool_decide_eq_false_2 (Username req = _)) by done. by destruct (negb _).
Qed.

(** ** QueryUsers *)

Definition names_by_id (resolved : list Identity) : gmap Z gostring :=
  fold_left (fun m item => if Eligible item then <[id_UserID item := id_Name item]> m else m) resolved ∅.
Definition ids_by_name (resolved : list Identity) : gmap gostring Z :=
  fold_left (fun m item => if Eligible item then <[id_Name item := id_UserID item]> m else m) resolved ∅.
Definition handleQueryUsers {DB} (s : Server DB) (auth : Authority) (rf : SessionRef) (payload : bytes) : list effect :=
  if negb (Active (srv_registry s) rf) then [] else
  let qu := read_ignoring QueryUsers.Unmarshal QueryUsers.zero payload in
  match Resolve auth (mkResolve (QueryUsers.IDs qu) (QueryUsers.Names qu)) with
  | None => write rf (MQueryUsers (QueryUsers.mk (replicate (length (QueryUsers.Names qu)) 0) (replicate (length (QueryUsers.IDs qu)) [])))
  | Some resolved =>
      write rf (MQueryUsers (QueryUsers.mk (map (fun name => default 0 (ids_by_name resolved !! name)) (QueryUsers.Names qu))
        (map (fun userID => default [] (names_by_id resolved !! userID)) (QueryUsers.IDs qu))))
  end.

(** A name in the answer is that of an eligible identity. *)
Lemma names_by_id_sound resolved uid name : names_by_id resolved !! uid = Some name ->
  exists item, item ∈ resolved /\ Eligible item = true /\ id_UserID item = uid /\ id_Name item = name.
Proof.
  unfold names_by_id. assert (forall m : gmap Z gostring, (forall x n, m !! x = Some n -> exists item, item ∈ resolved /\ Eligible item = true /\ id_UserID item = x /\ id_Name item = n) ->
    forall items, (forall i, i ∈ items -> i ∈ resolved) -> fold_left (fun m item => if Eligible item then <[id_UserID item := id_Name item]> m else m) items m !! uid = Some name ->
    exists item, item ∈ resolved /\ Eligible item = true /\ id_UserID item = uid /\ id_Name item = name) as H.
  { intros m Hm items. revert m Hm. induction items as [|i items IH]; intros m Hm Hi; [apply Hm|]. cbn. apply IH; [|intros j Hj; apply Hi; by right].
    destruct (Eligible i) eqn:E; [|done]. intros x n [[<- <-]|[_ Hx]]%lookup_insert_Some; [exists i; split; [apply Hi; by left|done]|by apply Hm]. }
  apply (H ∅); [done|done].
Qed.
End Local.
End Identity.
