(* ===== verification/Login.v ===== *)
(** * Clients come in

    [handleVersion], [handleAuthenticate], [sendSync] and their helpers of
    [internal/mumble/handlers.go] for clients of the local edge,
    [internal/mumble/remoteedge.go] for clients of other edges.

    The control transport is known by its answers ([Answers]), its own
    behaviour is the subject of [Control]; [random i n] is the [i]-th reading
    of [n] random bytes. A call is not interrupted by others. The error that
    [handleAuthenticate] returns after a synchronisation or its end has failed,
    when the session is already closed, only goes to the log; the model has
    none there. *)

From Stdlib Require Import ZArith Lia String.
From stdpp Require Import base numbers list gmap sets option.
From S2P Require Import Prelude Wire Fields Messages Codec AudioVarint AudioPacket CryptState Registry UserManager ChannelManager Acl AclCache Listeners VoiceState VoiceServer Ban RateLimit ServerState UserStateHandler TextHandlers ChannelHandlers SessionHandlers UdpIngress Identity.

Module Login.
Import Acl AclCache Listeners VoiceFlags ChannelCrypto RateLimit VoiceServer ServerState SessionHandlers Identity.

Definition RejectInvalidUsername : Z := 2.
Definition RejectWrongUserPW : Z := 3.
Definition RejectWrongServerPW : Z := 4.
Definition RejectUsernameInUse : Z := 5.
Definition RejectServerFull : Z := 6.
Definition RejectAuthenticatorFail : Z := 8.

(** ** connection.Conn *)

Inductive conn_state := StateAuthenticating | ConnActive | ConnClosed.

(** The address as a string and as an IP, what TLS says, and what the
    connection learns. *)
Record Client := mkClient {
  cl_addr : option gostring;
  cl_ip : option bytes;
  cl_certHash : gostring;
  cl_verified : bool;
  cl_tls13 : bool;
  cl_hasCert : bool;
  cl_state : conn_state;
  cl_session : SessionRef;
  cl_userName : gostring;
  cl_cryptoModes : Z;
  cl_version : Z;
  cl_wireMode : Z;
  cl_Crypt : option CryptState }.
#[export] Instance Client_eta : Eta Client := fun c =>
  mkClient (cl_addr c) (cl_ip c) (cl_certHash c) (cl_verified c) (cl_tls13 c) (cl_hasCert c) (cl_state c) (cl_session c) (cl_userName c)
    (cl_cryptoModes c) (cl_version c) (cl_wireMode c) (cl_Crypt c).

(** [connection.New] as [acceptLoop] calls it. *)
Definition New_client (addr : option gostring) (ip : option bytes) (certHash : gostring) (verified tls13 hasCert : bool) : Client :=
  mkClient addr ip certHash verified tls13 hasCert StateAuthenticating (mkRef 0 0) [] 0 0 0 (Some (NewCryptState ModeLegacy)).

Definition ProtocolVersionV2 : Z := Z.lor (Z.shiftl 1 48) (Z.shiftl 5 32).
Definition NegotiateAudioWireMode (c : Client) (serverVersion : Z) : Client :=
  match cl_state c with
  | StateAuthenticating => c <| cl_wireMode := NegotiateWireMode (cl_version c) serverVersion |>
  | _ => c
  end.
Definition handleVersion (c : Client) (payload : bytes) : Client * option wire_error :=
  if 0 <? zlen payload then
    match Version.Unmarshal Version.zero payload with
    | (_, Some e) => (c, Some e)
    | (v, None) =>
        (NegotiateAudioWireMode (c <| cl_cryptoModes := Version.CryptoModes v |> <| cl_version := UdpIngress.ClientVersionFull v |>) ProtocolVersionV2, None)
    end
  else (c, None).

Definition cryptoModeString (m : Mode) : gostring :=
  match m with ModeSecure => str "secure"%string | ModeLite => str "lite"%string | ModeLegacy => str "legacy"%string end.
Definition negotiateCryptoMode (c : Client) : Mode :=
  let clientModes := if cl_cryptoModes c =? 0 then 2 else cl_cryptoModes c in
  let mutual := Z.land clientModes 7 in
  if negb (Z.land mutual 4 =? 0) && cl_tls13 c && cl_hasCert c then ModeSecure else
  if negb (Z.land mutual 2 =? 0) then ModeLegacy else
  if negb (Z.land mutual 1 =? 0) then ModeLite else ModeLegacy.
Definition generateCryptSetup (random : nat -> Z -> bytes) (m : Mode) : bytes * bytes * bytes :=
  match m with
  | ModeSecure => (random 0%nat 32, random 1%nat 12, random 2%nat 12)
  | ModeLite => ([], [], [])
  | ModeLegacy => (random 0%nat 16, random 1%nat 16, random 2%nat 16)
  end.

(** ** Sending during a login *)

(** A message on the connection itself, its last message, and the calls of the
    control transport. *)
Inductive login_effect :=
  | Written (m : message)
  | Rejected (type : Z) (reason : gostring)
  | Initial (rf : SessionRef) (m : message)
  | Control (e : effect).

(** Whether the transport takes the session, writes the keys, takes the [i]-th
    initial message, and confirms that all were written. *)
Record Answers := mkAnswers { takes : bool; keys : bool; lane : nat -> bool; confirms : bool }.

Record Config := mkConfig { cfg_MaxUsers : Z; cfg_MaxBandwidth : Z; cfg_WelcomeText : gostring; cfg_ServerInstanceID : gostring }.

(** [cluster.AuthRequest]; [cluster.SessionEvent] is a session and a mode. *)
Record AuthRequest := mkAuthRequest {
  ar_Username : gostring; ar_Password : gostring; ar_Tokens : list gostring; ar_CertHash : gostring; ar_CertificateVerified : bool;
  ar_RemoteIP : gostring; ar_ClientVersion : Z }.

Section Login.
Context (EqualFold : gostring -> gostring -> bool).
Context `{SO : Channels.Sorter} {DB TX : Type} `{CS : Channels.ChannelStore DB TX}.
Context (ord : nat -> Channels.order).
Context (ToLower : gostring -> gostring) (ParseIP : gostring -> option bytes) (SplitHostPort : gostring -> option gostring).
Context {BDB : Type}.
Implicit Types (s : Server DB) (t : Site DB BDB).
Context (cfg : Config) (authority : option Authority).

(** ** The decision *)

(** The checks of [handleAuthenticate], which [AuthenticateRemote] repeats. *)
Definition admission t (ip : option bytes) (username password certHash remoteIP : gostring) : result (Z * gostring) Identity :=
  if Ban.IsBanned ToLower (bans t) ip certHash then Err (RejectWrongServerPW, str "Banned"%string) else
  if bool_decide (username = []) then Err (RejectInvalidUsername, str "Username required"%string) else
  match SnapshotByName (srv_users (server t)) username with
  | Some _ => Err (RejectUsernameInUse, str "Username in use"%string)
  | None =>
      if (cfg_MaxUsers cfg <=? UserManager.Count (srv_users (server t))) && (0 <? cfg_MaxUsers cfg) then Err (RejectServerFull, str "Server full"%string) else
      match authority with
      | None => Err (RejectAuthenticatorFail, str "Identity service unavailable"%string)
      | Some a =>
          let req := mkRequest (cfg_ServerInstanceID cfg) username password certHash remoteIP in
          if External a && bool_decide (password = []) then Err (RejectWrongServerPW, str "Password required"%string) else
          match Identity.Authenticate a req with
          | None => Err (RejectAuthenticatorFail, str "Identity service unavailable"%string)
          | Some res =>
              if negb (bool_decide (Decision res = DecisionAllow)) then Err (RejectWrongUserPW, str "Invalid credentials"%string) else
              let resolved := res_Identity res in
              if negb (Eligible resolved) || bool_decide (id_Name resolved = []) then Err (RejectWrongUserPW, str "Invalid credentials"%string)
              else Ok resolved
          end
      end
  end.

(** The record both entries build. *)
Definition new_user t (now : Z) (resolved : Identity) (tokens : list gostring) (version : Z) (address certHash : gostring) (verified : bool) : User.t :=
  User.zero <| User.UserID := id_UserID resolved |> <| User.ChannelID := joinChannelFor EqualFold (core t) (id_UserID resolved) |>
    <| User.Name := id_Name resolved |> <| User.AccessTokens := sanitizedClientTokens tokens |> <| User.ExternalGroups := id_Groups resolved |>
    <| User.ExternalIdentity := match authority with Some a => External a | None => false end |>
    <| User.IdentityVersion := id_IdentityVersion resolved |> <| User.PolicyVersion := id_PolicyVersion resolved |>
    <| User.IdentityLastValidatedAt := now |> <| User.IsSuperUser := id_IsSuperUser resolved |> <| User.ClientVersion := version |>
    <| User.Address := address |> <| User.CertHash := certHash |> <| User.CertificateVerified := verified |>.

Definition addUser s (u : User.t) : Server DB * option User.t := let '(m, stored) := UserManager.Add (srv_users s) u in (with_users s m [], stored).
Definition ref_of (u : User.t) : SessionRef := mkRef (User.SessionID u) (User.SessionGeneration u).

(** ** The initial snapshot *)

Definition listening_state s (u : User.t) : UserState.t :=
  (userToState u) <| UserState.ListeningChannelAdd := Listeners.ChannelsFor (ord 7%nat) (srv_listeners s) (User.SessionID u) |>.
Definition self_state s (u : User.t) : UserState.t :=
  (listening_state s u) <| UserState.ListeningVolumeAdjustment :=
    map (fun '(cid, v) => VolumeAdjustment.mk cid v) (Listeners.ListeningVolumes (ord 8%nat) (srv_listeners s) (User.SessionID u)) |>.
Definition roster s (u : User.t) : list User.t :=
  filter (fun ou => negb (User.SessionID ou =? User.SessionID u) && Active (srv_registry s) (ref_of ou) = true) (SnapshotAll (srv_users s)).
Definition tree_states s (u : User.t) : list ChannelState.t :=
  let restricted := enterRestrictedChannels s in
  map (fun ch => channelToStateFor EqualFold s ch (SubjectOf u) (bool_decide (Channels.ID ch ∈ restricted))) (default [] (Channels.GetTree (srv_chans s))).
Definition snapshot_messages (c : Core DB) (u : User.t) : list message :=
  let s := srv c in
  [MCodecVersion (CodecVersion.zero <| CodecVersion.Opus := true |>)] ++ map MChannelState (tree_states s u) ++ [MUserState (self_state s u)] ++
  map (fun ou => MUserState (listening_state s ou)) (roster s u) ++
  [MServerSync (ServerSync.mk (User.SessionID u) (u32 (cfg_MaxBandwidth cfg)) (cfg_WelcomeText cfg) (aclPermissions EqualFold s (SubjectOf u) Channels.rootChannelID));
   MServerConfig (ServerConfig.mk (u32 (cfg_MaxBandwidth cfg)) (cfg_WelcomeText cfg) true (u32 (maxTextBytes (settings c))) (u32 (maxImageBytes (settings c)))
     (u32 (cfg_MaxUsers cfg)) (allowRecording (settings c)))].
(** The messages one after the other, up to the first that is refused. *)
Fixpoint send_lane (ok : nat -> bool) (i : nat) (rf : SessionRef) (ms : list message) : list login_effect * bool :=
  match ms with
  | [] => ([], true)
  | m :: ms => if ok i then let '(es, r) := send_lane ok (S i) rf ms in (Initial rf m :: es, r) else ([], false)
  end.

(** [sendSync]: the site, the connection, what was sent and whether it went
    through. *)
Definition sendSync (random : nat -> Z -> bytes) (ans : Answers) t (c : Client) (u : User.t) (rf : SessionRef) : Site DB BDB * Client * list login_effect * bool :=
  let m := negotiateCryptoMode c in
  let '(s, updated) := updateUser (server t) (User.SessionID u) (fun live => live <| User.CryptoMode := cryptoModeString m |>) in
  let u := default u updated in
  let t := with_server t s in
  let '(key, enc, dec) := generateCryptSetup random m in
  let c := c <| cl_Crypt := Some (SetKey (NewCryptState m) key enc dec).1 |> in
  if negb (keys ans) then (t, c, [], false) else
  let t := t <| conns := {[User.SessionID u]} ∪ conns t |> in
  let '(es, ok) := send_lane (lane ans) 0 rf (snapshot_messages (core t) u) in
  (t, c, Written (MCryptSetup (CryptSetup.mk (Some key) dec enc)) :: es, ok).

(** [CommitSyncAndAnnounce] when the transport confirms: the session becomes
    active, the others are told, the session counts as announced. *)
Definition commit_announce t (rf : SessionRef) (u : User.t) : option (Site DB BDB * list effect) :=
  match commitActive (srv_registry (server t)) rf with
  | (_, Some _) => None
  | (r, None) =>
      let t := with_server t ((server t) <| srv_registry := r |>) in
      let es := Broadcast (server t) (SessionID rf) (MUserState (userToState u)) in
      let r := match session_entry r (SessionID rf) with Some (l, _) => set_announced r l | None => r end in
      Some (with_server t ((server t) <| srv_registry := r |>), es)
  end.
(** The end of both entries: commit, or give up. *)
Definition complete (ans : Answers) t (rf : SessionRef) (u : User.t) : Site DB BDB * list effect * bool :=
  match (if confirms ans then commit_announce t rf u else None) with
  | Some (t, es) => (with_server t (updateChannelCrypto (server t) (User.ChannelID u)), es, true)
  | None => let '(t, es) := closeFailedSync ord t rf in (t, es, false)
  end.

(** ** Clients of the local edge *)

Definition remote_ip (c : Client) : gostring :=
  match cl_addr c with
  | None => []
  | Some a => let host := default [] (SplitHostPort a) in if bool_decide (host = []) then a else host
  end.
Definition address_of (c : Client) : gostring :=
  match cl_addr c with None => [] | Some a => default a (SplitHostPort a) end.

(** From the binding to the announcement. *)
Definition open_session (random : nat -> Z -> bytes) (ans : Answers) t (c : Client) (stored : User.t) : Site DB BDB * Client * list login_effect :=
  let rf := ref_of stored in
  match Bind (srv_registry (server t)) rf LocalEdgeID with
  | (_, Some _) => (with_server t (removeIfGeneration (server t) rf).1, c, [Rejected RejectAuthenticatorFail (str "Session setup failed"%string)])
  | (r, None) =>
      let t := with_server t ((server t) <| srv_registry := r |>) in
      if negb (takes ans) then
        let r := (unbind (BeginClose r rf).1 rf).1 in
        (with_server t (removeIfGeneration ((server t) <| srv_registry := r |>) rf).1, c, [Rejected RejectAuthenticatorFail (str "Session setup failed"%string)])
      else
        let t := with_server t (invalidateACLCache (server t)) in
        match sendSync random ans t c stored rf with
        | (t, c, es, false) => let '(t, e) := closeFailedSync ord t rf in (t, c, es ++ map Control e)
        | (t, c, es, true) =>
            let '(t, e, ok) := complete ans t rf stored in
            (t, if ok : bool then c <| cl_state := ConnActive |> else c, es ++ map Control e)
        end
  end.
Definition handleAuthenticate (now : Z) (random : nat -> Z -> bytes) (ans : Answers) t (c : Client) (payload : bytes)
    : Site DB BDB * Client * list login_effect * option wire_error :=
  match Authenticate.Unmarshal Authenticate.zero payload with
  | (_, Some e) => (t, c, [], Some e)
  | (m, None) =>
      match admission t (cl_ip c) (Authenticate.Username m) (Authenticate.Password m) (cl_certHash c) (remote_ip c) with
      | Err (ty, why) => (t, c, [Rejected ty why], None)
      | Ok resolved =>
          let u := new_user t now resolved (Authenticate.Tokens m) (cl_version c) (address_of c) (cl_certHash c) (cl_verified c) in
          match addUser (server t) u with
          | (s, None) => (with_server t s, c, [Rejected RejectServerFull (str "Server full"%string)], None)
          | (s, Some stored) =>
              let c := c <| cl_session := ref_of stored |> <| cl_userName := User.Name stored |> in
              (open_session random ans (with_server t s) c stored, None)
          end
      end
  end.

(** ** Clients of other edges *)

Definition EdgeConnected t (i : EdgeInstanceRef) : Site DB BDB :=
  match EdgeGeneration (srv_registry (server t)) (inst_edge i) with
  | Some g => if g =? inst_generation i then with_server t ((server t) <| voice := {[inst_edge i]} ∪ voice (server t) |>) else t
  | None => t
  end.
Definition remoteSessionOwned t (i : EdgeInstanceRef) (rf : SessionRef) : bool :=
  match EdgeGeneration (srv_registry (server t)) (inst_edge i) with
  | Some g => (g =? inst_generation i) && match Registry.Snapshot (srv_registry (server t)) rf with Some sn => bool_decide (s_Edge sn = inst_edge i) | None => false end
  | None => false
  end.

Definition AuthenticateRemote (now : Z) t (i : EdgeInstanceRef) (req : AuthRequest) : Site DB BDB * result (Z * gostring) (SessionRef * gostring) :=
  let stale := match EdgeGeneration (srv_registry (server t)) (inst_edge i) with Some g => negb (g =? inst_generation i) | None => true end in
  if stale then (t, Err (RejectAuthenticatorFail, str "Stale edge instance"%string)) else
  match admission t (ParseIP (ar_RemoteIP req)) (ar_Username req) (ar_Password req) (ar_CertHash req) (ar_RemoteIP req) with
  | Err why => (t, Err why)
  | Ok resolved =>
      let u := new_user t now resolved (ar_Tokens req) (ar_ClientVersion req) (ar_RemoteIP req) (ar_CertHash req) (ar_CertificateVerified req) in
      match addUser (server t) u with
      | (s, None) => (with_server t s, Err (RejectServerFull, str "Server full"%string))
      | (s, Some stored) =>
          let rf := ref_of stored in
          match Bind (srv_registry s) rf (inst_edge i) with
          | (_, Some _) => (with_server t (removeIfGeneration s rf).1, Err (RejectAuthenticatorFail, str "Session setup failed"%string))
          | (r, None) => (with_server t (invalidateACLCache (s <| srv_registry := r |>)), Ok (rf, User.Name stored))
          end
      end
  end.

Definition sendRemoteSync (ans : Answers) t (u : User.t) (rf : SessionRef) : list login_effect * bool := send_lane (lane ans) 0 rf (snapshot_messages (core t) u).
(** The flag is [true] for a nil error. *)
Definition TransportReadyRemote (ans : Answers) t (i : EdgeInstanceRef) (rf : SessionRef) (cryptoMode : gostring) : Site DB BDB * list login_effect * bool :=
  if negb (remoteSessionOwned t i rf) then (t, [], false) else
  match SnapshotRef (srv_users (server t)) rf with
  | None => (t, [], false)
  | Some u =>
      let '(t, u) := if negb (bool_decide (cryptoMode = [])) then
          let '(s, updated) := updateUser (server t) (SessionID rf) (fun live => live <| User.CryptoMode := cryptoMode |>) in (with_server t s, default u updated)
        else (t, u) in
      if negb (takes ans) then (t, [], false) else
      match sendRemoteSync ans t u rf with
      | (es, false) => let '(t, e) := closeFailedSync ord t rf in (t, es ++ map Control e, false)
      | (es, true) => let '(t, e, ok) := complete ans t rf u in (t, es ++ map Control e, ok)
      end
  end.

Definition cleanupRemote t (rf : SessionRef) : Site DB BDB * list effect :=
  let o := SnapshotRef (srv_users (server t)) rf in
  let '(t, e, announced) := UnregisterConn ord t rf in
  let '(s, removed) := removeIfGeneration (server t) rf in
  let t := with_server t s in
  let e := e ++ if announced : bool then Broadcast (server t) (SessionID rf) (MUserRemove (UserRemove.zero <| UserRemove.Session := SessionID rf |>)) else [] in
  let cid := match removed with Some u => User.ChannelID u | None => 0 end in
  let s := if negb (cid =? 0) then updateChannelCrypto (server t) cid
           else match o with Some u => leave_channel (server t) (User.ChannelID u) | None => server t end in
  (with_server t s, e).
Definition DisconnectRemote t (i : EdgeInstanceRef) (rf : SessionRef) : Site DB BDB * list effect :=
  if remoteSessionOwned t i rf then cleanupRemote t rf else (t, []).
Fixpoint cleanup_all t (rfs : list SessionRef) : Site DB BDB * list effect :=
  match rfs with
  | [] => (t, [])
  | rf :: rfs => let '(t, e1) := cleanupRemote t rf in let '(t, e2) := cleanup_all t rfs in (t, e1 ++ e2)
  end.
Definition EdgeDisconnected t (i : EdgeInstanceRef) : Site DB BDB * list effect :=
  let '(t, e) := cleanup_all t (SessionsForEdge (srv_registry (server t)) i) in
  (with_server t ((server t) <| voice := voice (server t) ∖ {[inst_edge i]} |>), e).

(** ** A user is added *)

(** No user has session 0. *)
Lemma Snapshot_positive s sid u : server_ok EqualFold s -> Snapshot (srv_users s) sid = Some u -> sid <> 0.
Proof.
  intros W [l [Hl _]%user_at_Some]%Snapshot_Some. pose proof (ok_users _ _ W) as M.
  assert (sid ∈ inUse (pool (srv_users s))) as Hin by (rewrite (mw_inuse _ M); apply elem_of_dom; eauto).
  pose proof (proj1 (pw_cover _ (mw_pool _ M) sid) ltac:(by left)). lia.
Qed.

Notation live := (live_ok EqualFold).
Notation ok := (site_ok EqualFold).

Lemma with_users_id s : with_users s (srv_users s) [] = s.
Proof. destruct s as [? ? ? ? ? ? a ? ?]. unfold with_users. cbn. by destruct a. Qed.
Lemma with_server_id t : with_server t (server t) = t.
Proof. by destruct t as [[] ? ? ? ?]. Qed.

(** The counter of the sessions does not wrap around. *)
Definition roomy s : Prop := generation (srv_users s) + 2 < 2 ^ 64.

Lemma addUser_exact s u : live s -> roomy s -> let '(s', o) := addUser s u in
  match o with
  | None => s' = s
  | Some stored => live s' /\ same_rest s s' /\ srv_listeners s' = srv_listeners s /\ srv_crypto s' = srv_crypto s /\
      stored = u <| User.SessionID := User.SessionID stored |> <| User.SessionGeneration := generation (srv_users s) + 1 |> <| User.AuthorizationRevision := 1 |> /\
      SnapshotByName (srv_users s) (User.Name u) = None /\ Snapshot (srv_users s) (User.SessionID stored) = None /\ User.SessionID stored <> 0 /\
      forall sid, Snapshot (srv_users s') sid = if decide (sid = User.SessionID stored) then Some stored else Snapshot (srv_users s) sid
  end.
Proof.
  intros L G. pose proof (ok_users _ _ (lo_server _ _ L)) as W. unfold roomy in G. unfold addUser.
  destruct (Add_cases (srv_users s) u W ltac:(lia)) as [[-> _]|(Hn & Hc & m' & st & E & W' & Hat & Hst & Hg & _ & Hs)]; [by rewrite with_users_id|].
  rewrite E. split_and!; try done.
  - apply (with_users_ok EqualFold s (OpAdd u)); [done|done|cbn; by rewrite E|]. rewrite Hg. lia.
  - unfold SnapshotByName. by rewrite Hn.
  - unfold Snapshot. by rewrite Hat.
  - assert (Snapshot m' (User.SessionID st) = Some st) as [l [Hl _]%user_at_Some]%Snapshot_Some by (rewrite Hs, decide_True; done).
    assert (User.SessionID st ∈ inUse (pool m')) as Hin by (rewrite (mw_inuse _ W'); apply elem_of_dom; eauto).
    pose proof (proj1 (pw_cover _ (mw_pool _ W') (User.SessionID st)) ltac:(by left)). lia.
Qed.

(** ** The registry *)

Lemma Bind_exact r rf ed : registry_wf r -> let '(r', e) := Bind r rf ed in
  registry_wf r' /\ match e with
    | Some _ => r' = r
    | None => is_Some (Registry.Snapshot r' rf) /\ forall rf', SessionID rf' <> SessionID rf -> Registry.Snapshot r' rf' = Registry.Snapshot r rf'
    end.
Proof.
  intros W. pose proof (Bind_wf r rf ed W) as W'. destruct (Bind r rf ed) as [r' e] eqn:E. cbn in W'. split; [done|]. revert E. unfold Bind. destruct (negb (Valid rf)); [by intros [= <- <-]|].
  destruct (edges r !! ed); [|by intros [= <- <-]]. destruct (session_entry r (SessionID rf)) as [[l old]|] eqn:Es.
  - case_bool_decide as Hr; cbn [andb]; [|by intros [= <- <-]]. case_bool_decide; [|by intros [= <- <-]]. intros [= <- <-]. split; [|done].
    unfold Registry.Snapshot. rewrite Es, bool_decide_eq_true_2 by done. by eexists.
  - intros [= <- <-]. split.
    + unfold Registry.Snapshot, session_entry. cbn. rewrite lookup_insert_eq. cbn. rewrite lookup_insert_eq. cbn. rewrite bool_decide_eq_true_2 by done. by eexists.
    + intros rf' Hn. unfold Registry.Snapshot, session_entry. cbn. rewrite lookup_insert_ne by done. destruct (Registry.sessions r !! SessionID rf') as [l'|] eqn:E'; [|done]. cbn.
      destruct (wf_sessions r W _ _ E') as (e1 & H1 & _). rewrite lookup_insert_ne; [done|]. intros <-. pose proof (wf_next r W (next r) ltac:(eauto)). lia.
Qed.
(** The commit of a session makes it active and announced, and nobody else. *)
Lemma commit_registry r rf r1 : registry_wf r -> commitActive r rf = (r1, None) ->
  let r2 := match session_entry r1 (SessionID rf) with Some (l, _) => set_announced r1 l | None => r1 end in
  registry_wf r1 /\ registry_wf r2 /\ (exists sn, Registry.Snapshot r2 rf = Some sn /\ s_State sn = StateActive /\ s_Announced sn = true) /\ is_Some (Registry.Snapshot r rf) /\
  forall rf', rf' <> rf -> Registry.Snapshot r2 rf' = Registry.Snapshot r rf'.
Proof.
  intros W. unfold commitActive. destruct (session_entry r (SessionID rf)) as [[l e]|] eqn:E; [|done]. case_bool_decide as Hr; [|done]. cbn [negb]. destruct (state e) eqn:Es; try done.
  subst rf. set (e1 := e <| state := StateActive |>). intros [= <-]. pose proof (write_entry_wf r l e e1 W E ltac:(done) ltac:(done) ltac:(done)) as W1.
  assert (session_entry (write_entry l e1 r) (SessionID (ref e)) = Some (l, e1)) as E1. { apply session_entry_Some in E as [A B]. apply session_entry_Some. split; [done|]. cbn. apply lookup_insert_eq. }
  cbn zeta. rewrite E1. unfold set_announced. replace (heap (write_entry l e1 r) !! l) with (Some e1) by (cbn; by rewrite lookup_insert_eq).
  set (e2 := e1 <| announced := true |>). pose proof (write_entry_wf _ l e1 e2 W1 E1 ltac:(done) ltac:(done) ltac:(done)) as W2.
  assert (forall rf', Registry.Snapshot (write_entry l e2 (write_entry l e1 r)) rf' = if bool_decide (rf' = ref e) then Some (snapshot e2) else Registry.Snapshot r rf') as Hs.
  { intros rf'. rewrite (write_entry_snapshot _ l e1 e2 rf' W1 E1 ltac:(done)), (write_entry_snapshot r l e e1 rf' W E ltac:(done)).
    change (ref e1) with (ref e). by destruct (bool_decide _). }
  split; [done|]. split; [done|]. split; [|split].
  - exists (snapshot e2). split; [|done]. by rewrite Hs, bool_decide_eq_true_2.
  - unfold Registry.Snapshot. rewrite E, bool_decide_eq_true_2 by done. by eexists.
  - intros rf' Hn. by rewrite Hs, bool_decide_eq_false_2.
Qed.

(** ** Steps of a login *)

Hypothesis Hord : forall i, Channels.order_ok (ord i).

Lemma settled_mode m u : settled (fun live => live <| User.CryptoMode := m |>) u = u <| User.CryptoMode := m |>.
Proof.
  unfold settled, settle. set (v := _ <| User.AuthorizationRevision := _ |>). assert (authorizationChanged u v = false) as ->.
  { unfold authorizationChanged, v. cbn. rewrite !Z.eqb_refl, !eqb_reflx, !bool_decide_eq_true_2 by done. done. }
  by destruct u.
Qed.
Lemma root_exists s : server_ok EqualFold s -> is_Some (Channels.GetChannel (srv_chans s) 0).
Proof.
  intros W. destruct (Channels.cw_root _ (ok_chans _ _ W)) as [l Hl]. destruct (Channels.cw_nodes _ (ok_chans _ _ W) _ _ Hl) as (n & Hn & _).
  exists (Channels.chan n). apply Channels.channel_at_Some. eauto.
Qed.
Lemma joinChannelFor_exists c uid : server_ok EqualFold (srv c) -> is_Some (Channels.GetChannel (srv_chans (srv c)) (joinChannelFor EqualFold c uid)).
Proof.
  intros W. pose proof (root_exists (srv c) W) as H. unfold joinChannelFor, Channels.rootChannelID. destruct (_ <=? 0); [done|]. destruct (_ =? 0); [done|].
  destruct (Channels.GetChannel _ (u32 _)) eqn:E; [|done]. destruct (negb _); [done|]. destruct (channelIsFull _ _ _ _); [done|]. by rewrite E.
Qed.

Lemma unbind_exact r rf : registry_wf r -> let r' := (unbind r rf).1 in
  registry_wf r' /\ forall rf', SessionID rf' <> SessionID rf -> Registry.Snapshot r' rf' = Registry.Snapshot r rf'.
Proof.
  intros W. cbn zeta. unfold unbind. destruct (session_entry r (SessionID rf)) as [[l e]|] eqn:E; [|done]. case_bool_decide as Hr; [|done]. cbn [negb fst]. subst rf.
  apply session_entry_Some in E as [Hl Hh].
  assert (forall sid l', Registry.sessions r !! sid = Some l' -> sid <> SessionID (ref e) -> l' <> l) as Hne.
  { intros sid l' Hs Hn ->. destruct (wf_sessions r W _ _ Hs) as (x & Hx & Hid & _). congruence. }
  split.
  - split; cbn.
    + intros sid l' [Hn Hs]%lookup_delete_Some. rewrite lookup_insert_ne by (intros E; symmetry in E; by eapply Hne). by apply (wf_sessions r W).
    + intros l' [x Hx]. destruct (decide (l' = l)) as [->|Hn]; [apply (wf_next r W); by eexists|]. rewrite lookup_insert_ne in Hx by done. apply (wf_next r W). by eexists.
  - intros rf' Hn. unfold Registry.Snapshot, session_entry. cbn. rewrite lookup_delete_ne by done. destruct (Registry.sessions r !! SessionID rf') as [l'|] eqn:E'; [|done]. cbn.
    rewrite lookup_insert_ne; [done|]. intros E; symmetry in E. by eapply Hne.
Qed.

(** Nobody came and nobody went. *)
Definition undisturbed t t' : Prop :=
  (forall sid, Snapshot (srv_users (server t')) sid = Snapshot (srv_users (server t)) sid) /\
  (forall rf, is_Some (SnapshotRef (srv_users (server t)) rf) -> Registry.Snapshot (srv_registry (server t')) rf = Registry.Snapshot (srv_registry (server t)) rf) /\
  bans t' = bans t.
Lemma undisturbed_refl t : undisturbed t t.
Proof. done. Qed.
Lemma SnapshotRef_Snapshot s rf : SnapshotRef (srv_users s) rf = match Snapshot (srv_users s) (SessionID rf) with
  | Some u => if User.SessionGeneration u =? Generation rf then Some u else None | None => None end.
Proof. unfold SnapshotRef, Snapshot. destruct (user_at _ _) as [[l u]|]; [|done]. cbn. by destruct (_ =? _). Qed.

(** [t1] is [t] with one more user, who is bound. *)
Record arrived t t1 (u : User.t) : Prop := {
  av_ok : ok t1;
  av_zero : User.SessionID u <> 0;
  av_new : Snapshot (srv_users (server t)) (User.SessionID u) = None;
  av_users : forall sid, Snapshot (srv_users (server t1)) sid = if decide (sid = User.SessionID u) then Some u else Snapshot (srv_users (server t)) sid;
  av_registry : forall rf, SessionID rf <> User.SessionID u -> Registry.Snapshot (srv_registry (server t1)) rf = Registry.Snapshot (srv_registry (server t)) rf;
  av_chans : srv_chans (server t1) = srv_chans (server t);
  av_bans : bans t1 = bans t }.

Lemma bound_arrived t s stored u ed r : ok t -> roomy (server t) -> is_Some (Channels.GetChannel (srv_chans (server t)) (User.ChannelID u)) ->
  addUser (server t) u = (s, Some stored) -> Bind (srv_registry s) (ref_of stored) ed = (r, None) -> arrived t (with_server t (s <| srv_registry := r |>)) stored.
Proof.
  intros [L [Lu Lr] R] G Hc Ha Hb. pose proof (addUser_exact (server t) u L G) as H. rewrite Ha in H. destruct H as (L1 & (R1 & R2 & R3 & R4 & R5) & HL & HC & Hst & Hn & Hnew & H0 & HS).
  pose proof (Bind_exact (srv_registry s) (ref_of stored) ed (ok_registry _ _ (lo_server _ _ L1))) as H. rewrite Hb in H. destruct H as (W & Hs & Hr). rewrite R2 in Hr.
  assert (User.ChannelID stored = User.ChannelID u) as Hch by (rewrite Hst; done).
  split; cbn; try done. split; cbn.
  - by apply with_registry_ok.
  - split; cbn; rewrite R1; [|done]. intros sid v. rewrite HS. case_decide; [intros [= <-]; by rewrite Hch|apply Lu].
  - intros sid v. cbn. rewrite HS. case_decide as Hd; [intros [= <-]; subst sid; exact Hs|]. intros Hv. rewrite Hr by done. by apply R.
Qed.
(** ... who is taken away again. *)
Lemma removed_undisturbed t s stored u r : ok t -> roomy (server t) -> addUser (server t) u = (s, Some stored) -> registry_wf r ->
  (forall rf', SessionID rf' <> User.SessionID stored -> Registry.Snapshot r rf' = Registry.Snapshot (srv_registry (server t)) rf') ->
  let t' := with_server t (removeIfGeneration (s <| srv_registry := r |>) (ref_of stored)).1 in ok t' /\ undisturbed t t'.
Proof.
  intros [L [Lu Lr] R] G Ha W Hr. pose proof (addUser_exact (server t) u L G) as H. rewrite Ha in H. destruct H as (L1 & (R1 & R2 & R3 & R4 & R5) & HL & HC & Hst & Hn & Hnew & H0 & HS).
  pose proof (removeIfGeneration_exact EqualFold (s <| srv_registry := r |>) (ref_of stored) (with_registry_ok _ s r L1 W)) as H.
  destruct (removeIfGeneration _ _) as [s2 o]. destruct H as (L2 & (Q1 & Q2 & Q3 & Q4 & Q5) & _ & _ & _ & H). cbn in Q1, Q2, H.
  assert (forall sid, Snapshot (srv_users s2) sid = Snapshot (srv_users (server t)) sid) as HS2.
  { intros sid. rewrite H, HS. destruct (decide (sid = User.SessionID stored)) as [->|Hne].
    - rewrite decide_True; [done|]. split; [done|]. change (srv_users (s <| srv_registry := r |>)) with (srv_users s). rewrite SnapshotRef_Snapshot, HS. cbn. rewrite decide_True, Z.eqb_refl by done. by eexists.
    - rewrite decide_False by (by intros [? _]). done. }
  cbn zeta. split.
  - split; cbn; [done| |].
    + split; cbn; rewrite Q1, R1; [|done]. intros sid v. rewrite HS2. apply Lu.
    + intros sid v. cbn. rewrite HS2, Q2. intros Hv. rewrite Hr; [by apply R|]. cbn. intros ->. congruence.
  - split; [done|]. split; [|done]. intros rf [v Hv]. cbn. rewrite Q2. apply Hr. intros E. rewrite SnapshotRef_Snapshot, E, Hnew in Hv. done.
Qed.

Lemma send_lane_true f i rf ms es : send_lane f i rf ms = (es, true) -> es = map (Initial rf) ms.
Proof.
  revert i es. induction ms as [|m ms IH]; intros i es; cbn; [by intros [= <-]|]. destruct (f i); [|done]. destruct (send_lane f (S i) rf ms) as [es' b] eqn:E.
  intros [= <- ->]. by rewrite (IH _ _ E).
Qed.

Lemma send_lane_all f i rf ms : (forall i, f i = true) -> send_lane f i rf ms = (map (Initial rf) ms, true).
Proof. intros H. revert i. induction ms as [|m ms IH]; intros i; cbn; [done|]. by rewrite H, IH. Qed.

Definition with_mode (c : Client) (u : User.t) : User.t := u <| User.CryptoMode := cryptoModeString (negotiateCryptoMode c) |>.
Lemma with_mode_name c u : User.Name (with_mode c u) = User.Name u.
Proof. reflexivity. Qed.
Lemma with_mode_stored c u stored g :
  stored = u <| User.SessionID := User.SessionID stored |> <| User.SessionGeneration := g |> <| User.AuthorizationRevision := 1 |> ->
  with_mode c stored = (with_mode c u) <| User.SessionID := User.SessionID (with_mode c stored) |> <| User.SessionGeneration := g |> <| User.AuthorizationRevision := 1 |>.
Proof. intros H. rewrite H. by destruct u. Qed.
Definition key_message (random : nat -> Z -> bytes) (c : Client) : message :=
  let '(key, enc, dec) := generateCryptSetup random (negotiateCryptoMode c) in MCryptSetup (CryptSetup.mk (Some key) dec enc).

Lemma sendSync_exact random ans t t1 c u : arrived t t1 u -> let '(t2, c2, es, b) := sendSync random ans t1 c u (ref_of u) in
  arrived t t2 (with_mode c u) /\ cl_session c2 = cl_session c /\ cl_state c2 = cl_state c /\
  (b = true -> es = Written (key_message random c) :: map (Initial (ref_of u)) (snapshot_messages (core t2) (with_mode c u))).
Proof.
  intros [[L [Lu Lr] R] H0 Hn HS HR Hch Hb]. unfold sendSync. set (fn := fun live => live <| User.CryptoMode := _ |>).
  pose proof (updateUser_exact EqualFold (server t1) (User.SessionID u) fn L ltac:(by intros v) ltac:(by intros v)) as H.
  assert (Snapshot (srv_users (server t1)) (User.SessionID u) = Some u) as Hu by (by rewrite HS, decide_True).
  rewrite Hu in H. cbn [fmap option_fmap option_map] in H. unfold fn in H at 2 3. rewrite settled_mode in H. fold (with_mode c u) in H.
  destruct (updateUser (server t1) (User.SessionID u) fn) as [s o]. destruct H as (-> & L2 & (Q1 & Q2 & Q3 & Q4 & Q5) & _ & _ & HS2).
  assert (forall t2, core t2 = core (with_server t1 s) -> bans t2 = bans t1 -> arrived t t2 (with_mode c u)) as Harr.
  { intros t2 Ec Eb. assert (server t2 = s) as Es by (unfold server; by rewrite Ec). split; rewrite ?Es; [|done|done| | |congruence|congruence].
    - split; rewrite ?Es; [done| |].
      + split; rewrite Q1; [|done]. intros sid v. rewrite HS2. case_decide; [intros [= <-]; by apply (Lu (User.SessionID u) u)|apply Lu].
      + intros sid v. rewrite HS2, Q2. case_decide as Hd; [intros [= <-]; subst sid; by apply (R (User.SessionID u) u)|apply R].
    - intros sid. rewrite HS2, HS. change (User.SessionID (with_mode c u)) with (User.SessionID u). by repeat case_decide.
    - intros rf Hrf. rewrite Q2. by apply HR. }
  destruct (generateCryptSetup random (negotiateCryptoMode c)) as [[key enc] dec] eqn:Eg. cbn [default from_option id].
  destruct (keys ans); cbn [negb]; [|split_and!; [by apply Harr|done|done|done]].
  set (t2 := _ <| conns := _ |>). destruct (send_lane (lane ans) 0 (ref_of u) _) as [es b] eqn:El. split_and!; [by apply Harr|done|done|].
  intros ->. apply send_lane_true in El as ->. unfold key_message. by rewrite Eg.
Qed.

(** A session that is given up leaves no trace. *)
Lemma ended_undisturbed t t1 t2 u : ok t -> arrived t t1 u -> ended EqualFold t1 t2 (ref_of u) -> ok t2 /\ undisturbed t t2.
Proof.
  intros S A E. pose proof (av_ok _ _ _ A) as S1. split; [by eapply ended_ok|]. destruct A as [_ _ Hn HS HR _ Hb], E as [_ U [_ D _ _ _ _ _] _ _ (_ & Hb2 & _)]. split; [|split].
  - intros sid. rewrite U, HS. cbn. destruct (decide (sid = User.SessionID u)) as [->|]; [by rewrite Hn|done].
  - intros rf [v Hv]. assert (SessionID rf <> User.SessionID u) as Hne. { intros Ee. rewrite SnapshotRef_Snapshot, Ee, Hn in Hv. done. }
    rewrite D; [by apply HR|]. intros ->. by apply Hne.
  - congruence.
Qed.
Lemma arrived_ended t t1 u : arrived t t1 u -> ended EqualFold t1 (closeFailedSync ord t1 (ref_of u)).1 (ref_of u).
Proof.
  intros A. apply (closeFailedSync_exact EqualFold ord ToLower (fun _ => 0) (fun _ => []) ParseIP Hord t1 (ref_of u) u); [apply A|apply A| |done]. cbn. rewrite (av_users _ _ _ A). by rewrite decide_True.
Qed.

(** The session is there, active and announced. *)
Record present t t' (u : User.t) : Prop := {
  pr_ok : ok t';
  pr_new : Snapshot (srv_users (server t)) (User.SessionID u) = None;
  pr_users : forall sid, Snapshot (srv_users (server t')) sid = if decide (sid = User.SessionID u) then Some u else Snapshot (srv_users (server t)) sid;
  pr_active : exists sn, Registry.Snapshot (srv_registry (server t')) (ref_of u) = Some sn /\ s_State sn = StateActive /\ s_Announced sn = true;
  pr_registry : forall rf, is_Some (SnapshotRef (srv_users (server t)) rf) -> Registry.Snapshot (srv_registry (server t')) rf = Registry.Snapshot (srv_registry (server t)) rf;
  pr_rest : srv_chans (server t') = srv_chans (server t) /\ bans t' = bans t }.

Lemma complete_exact ans t t1 u v : ok t -> arrived t t1 u -> User.ChannelID v = User.ChannelID u -> let '(t2, es, b) := complete ans t1 (ref_of u) v in
  if b then present t t2 u /\ srv_users (server t2) = srv_users (server t1) /\ exists t3, srv_users (server t3) = srv_users (server t1) /\ es = Broadcast (server t3) (User.SessionID u) (MUserState (userToState v))
  else ok t2 /\ undisturbed t t2.
Proof.
  intros S A Hcv. unfold complete. destruct (if confirms ans then commit_announce t1 (ref_of u) v else None) as [[t2 es]|] eqn:E.
  - destruct (confirms ans); [|done]. revert E. unfold commit_announce. destruct (commitActive _ _) as [r e] eqn:Ec. destruct e; [done|]. intros [= <- <-].
    destruct A as [[L [Lu Lr] R] H0 Hn HS HR Hch Hb]. pose proof (commit_registry _ _ _ (ok_registry _ _ (lo_server _ _ L)) Ec) as (W1 & W2 & Hact & Hsome & Hoth).
    set (r2 := match session_entry r _ with Some _ => _ | None => _ end) in *. split; [|split; [done|]; by exists (with_server t1 ((server t1) <| srv_registry := r |>))].
    split; cbn; try done.
    + split; cbn; [|done|].
      * exact (updateChannelCrypto_ok EqualFold _ _ (with_registry_ok EqualFold _ _ (with_registry_ok EqualFold (server t1) r L W1) W2)).
      * intros sid w Hw. cbn. destruct (decide (mkRef sid (User.SessionGeneration w) = ref_of u)) as [Er|Hne].
        -- rewrite Er. destruct Hact as (sn & -> & _). by eexists.
        -- rewrite Hoth by done. by apply R.
    + intros rf [w Hw]. assert (SessionID rf <> User.SessionID u) as Hne. { intros Ee. rewrite SnapshotRef_Snapshot, Ee, Hn in Hw. done. }
      rewrite Hoth; [by apply HR|]. intros ->. by apply Hne.
  - pose proof (arrived_ended t t1 u A) as H. destruct (closeFailedSync ord t1 (ref_of u)) as [t2 es]. by eapply ended_undisturbed.
Qed.
Lemma arrived_invalidate t t1 u : arrived t t1 u -> arrived t (with_server t1 (invalidateACLCache (server t1))) u.
Proof. intros [[L [Lu Lr] R] H0 Hn HS HR Hch Hb]. split; cbn; try done. split; cbn; [by apply invalidateACLCache_ok|by split|done]. Qed.

(** What a client that is let in is sent: the keys, the snapshot, and what the
    transport does. *)
Definition welcome (random : nat -> Z -> bytes) t (c : Client) (u : User.t) (es : list login_effect) : Prop :=
  exists t2 told, arrived t t2 u /\ es = Written (key_message random c) :: map (Initial (ref_of u)) (snapshot_messages (core t2) u) ++ map Control told.

Lemma open_session_exact random ans t s c u stored : ok t -> roomy (server t) -> is_Some (Channels.GetChannel (srv_chans (server t)) (User.ChannelID u)) ->
  addUser (server t) u = (s, Some stored) -> let '(t', c', es) := open_session random ans (with_server t s) c stored in
  (present t t' (with_mode c stored) /\ cl_session c' = cl_session c /\ cl_state c' = ConnActive /\ welcome random t c (with_mode c stored) es) \/
  (ok t' /\ undisturbed t t' /\ cl_state c' = cl_state c /\ cl_session c' = cl_session c).
Proof.
  intros S G Hc Ha. pose proof (addUser_exact (server t) u (so_live _ _ S) G) as H. rewrite Ha in H. destruct H as (L1 & (R1 & R2 & _) & _).
  unfold open_session. change (server (with_server t s)) with s. pose proof (Bind_exact (srv_registry s) (ref_of stored) LocalEdgeID (ok_registry _ _ (lo_server _ _ L1))) as Hb.
  destruct (Bind (srv_registry s) (ref_of stored) LocalEdgeID) as [r e] eqn:Eb. destruct Hb as [W Hb]. destruct e as [er|].
  - subst r. right. pose proof (removed_undisturbed t s stored u (srv_registry s) S G Ha W) as H. rewrite R2 in H. specialize (H ltac:(done)).
    replace (s <| srv_registry := srv_registry (server t) |>) with s in H by (rewrite <- R2; by destruct s). cbn zeta in H. destruct H as [H1 H2]. split_and!; done.
  - destruct Hb as [Hs Hoth]. rewrite R2 in Hoth. destruct (takes ans); cbn [negb].
    + pose proof (bound_arrived t s stored u LocalEdgeID r S G Hc Ha Eb) as A. apply arrived_invalidate in A. cbn in A.
      set (t1 := with_server _ (invalidateACLCache _)). assert (arrived t t1 stored) as A1 by exact A. pose proof (sendSync_exact random ans t t1 c stored A1) as H.
      destruct (sendSync random ans t1 c stored (ref_of stored)) as [[[t2 c2] es] b]. destruct H as (A2 & Hcs & Hcst & Hes). destruct b.
      * pose proof (complete_exact ans t t2 (with_mode c stored) stored S A2 eq_refl) as H. change (ref_of (with_mode c stored)) with (ref_of stored) in H.
        destruct (complete ans t2 (ref_of stored) stored) as [[t3 e3] b]. destruct b; [left|right; split_and!; [apply H|apply H|done|done]].
        destruct H as (P & _ & _). split_and!; [done|done|done|]. exists t2, e3. split; [done|]. by rewrite (Hes eq_refl).
      * pose proof (arrived_ended t t2 (with_mode c stored) A2) as H. change (ref_of (with_mode c stored)) with (ref_of stored) in H.
        destruct (closeFailedSync ord t2 (ref_of stored)) as [t3 e3]. cbn [fst] in H. right. by destruct (ended_undisturbed t t2 t3 (with_mode c stored) S A2 H).
    + right. pose proof (BeginClose_exact r (ref_of stored) W) as B. destruct (BeginClose r (ref_of stored)) as [r1 o]. destruct B as (W1 & B1 & _). cbn [fst].
      destruct (unbind_exact r1 (ref_of stored) W1) as [W2 B2]. pose proof (removed_undisturbed t s stored u (unbind r1 (ref_of stored)).1 S G Ha W2) as H.
      assert (forall rf', SessionID rf' <> User.SessionID stored -> Registry.Snapshot (unbind r1 (ref_of stored)).1 rf' = Registry.Snapshot (srv_registry (server t)) rf') as Hr.
      { intros rf' Hn. rewrite B2, B1 by (try done; by intros ->). by apply Hoth. }
      destruct (H Hr) as [H1 H2]. split_and!; done.
Qed.

(** ** Who is let in *)

(** What [admission] has checked. *)
Record admissible t (ip : option bytes) (username password certHash : gostring) (i : Identity) : Prop := {
  ad_ban : Ban.IsBanned ToLower (bans t) ip certHash = false;
  ad_name : username <> [] /\ SnapshotByName (srv_users (server t)) username = None;
  ad_room : 0 < cfg_MaxUsers cfg -> UserManager.Count (srv_users (server t)) < cfg_MaxUsers cfg;
  ad_authority : exists a req res, authority = Some a /\ Username req = username /\ Password req = password /\ CertificateHash req = certHash /\
    Identity.Authenticate a req = Some res /\ Decision res = DecisionAllow /\ res_Identity res = i /\ (External a = true -> password <> []);
  ad_identity : Eligible i = true /\ id_Name i <> [] }.
Lemma admission_Ok t ip username password certHash remoteIP i : admission t ip username password certHash remoteIP = Ok i ->
  admissible t ip username password certHash i.
Proof.
  unfold admission. destruct (Ban.IsBanned _ _ _ _) eqn:Eb; [done|]. case_bool_decide as Hu; [done|]. destruct (SnapshotByName _ _) eqn:En; [done|].
  destruct ((_ <=? _) && _) eqn:Er; [done|]. destruct authority as [a|] eqn:Ea; [|done]. destruct (External a && _) eqn:Ee; [done|].
  destruct (Identity.Authenticate a _) as [res|] eqn:Eu; [|done]. destruct (bool_decide (Decision res = _)) eqn:Hd; cbn [negb]; [apply bool_decide_eq_true in Hd|done].
  destruct (Eligible _) eqn:El; cbn [negb orb]; [|done]. destruct (bool_decide (id_Name _ = [])) eqn:Hn; [done|]. apply bool_decide_eq_false in Hn.
  intros [= <-]. split; [done|done| | |done].
  - intros Hp. apply andb_false_iff in Er as [Er%Z.leb_gt|Er%Z.ltb_ge]; lia.
  - exists a, (mkRequest (cfg_ServerInstanceID cfg) username password certHash remoteIP), res. split_and!; try done. intros Hx. rewrite Hx in Ee. cbn in Ee. by case_bool_decide.
Qed.

(** What [handleAuthenticate] comes to. *)
Lemma handleAuthenticate_exact now random ans t c payload : ok t -> roomy (server t) ->
  let '(t', c', es, err) := handleAuthenticate now random ans t c payload in
  (ok t' /\ undisturbed t t' /\ cl_state c' = cl_state c /\
    (cl_session c' = cl_session c \/ Snapshot (srv_users (server t)) (SessionID (cl_session c')) = None)) \/
  exists m i stored, Authenticate.Unmarshal Authenticate.zero payload = (m, None) /\
    admissible t (cl_ip c) (Authenticate.Username m) (Authenticate.Password m) (cl_certHash c) i /\
    SnapshotByName (srv_users (server t)) (User.Name stored) = None /\
    stored = (with_mode c (new_user t now i (Authenticate.Tokens m) (cl_version c) (address_of c) (cl_certHash c) (cl_verified c)))
               <| User.SessionID := User.SessionID stored |> <| User.SessionGeneration := generation (srv_users (server t)) + 1 |> <| User.AuthorizationRevision := 1 |> /\
    present t t' stored /\ cl_session c' = ref_of stored /\ cl_state c' = ConnActive /\ welcome random t c stored es.
Proof.
  intros S G. unfold handleAuthenticate. destruct (Authenticate.Unmarshal _ _) as [m [e|]] eqn:Em; [left; split_and!; try done; by left|].
  destruct (admission _ _ _ _ _ _) as [i|[ty why]] eqn:Ea; [|left; split_and!; try done; by left]. apply admission_Ok in Ea. set (u := new_user _ _ _ _ _ _ _ _).
  pose proof (addUser_exact (server t) u (so_live _ _ S) G) as H. destruct (addUser (server t) u) as [s [stored|]] eqn:Eu; [|subst s; rewrite with_server_id; left; split_and!; try done; by left].
  destruct H as (_ & _ & _ & _ & Hst & Hn & Hnew & _). set (c1 := c <| cl_session := _ |> <| cl_userName := _ |>).
  pose proof (open_session_exact random ans t s c1 u stored S G (joinChannelFor_exists (core t) _ (lo_server _ _ (so_live _ _ S))) Eu) as H.
  destruct (open_session random ans (with_server t s) c1 stored) as [[t' c'] es]. destruct H as [(P & H1 & H2 & H3)|(H1 & H2 & H3 & H4)]; [right|left; split_and!; try done; right; by rewrite H4].
  exists m, i, (with_mode c stored). split; [reflexivity|]. split; [exact Ea|]. split; [|split; [|split; [exact P|split; [exact H1|split; [exact H2|exact H3]]]]].
  - rewrite with_mode_name. replace (User.Name stored) with (User.Name u); [exact Hn|]. rewrite Hst. reflexivity.
  - apply (with_mode_stored c u stored _ Hst).
Qed.

(** C15: a login admits the right one or nobody. An Authenticate either leaves
    users, sessions and bans as they were, whatever failed and how far it had
    come, or adds exactly one user: one that is not banned, whose name is free,
    for whom there is room, and whom the authority allowed as exactly this
    identity; it has an unused session, is active and announced, the
    connection is bound to it, and it was sent the keys and then the whole
    snapshot. Nobody else is affected and the invariant of the server holds. *)
Theorem login_exact now random ans t c payload : ok t -> roomy (server t) ->
  let '(t', c', es, err) := handleAuthenticate now random ans t c payload in
  ok t' /\
  (undisturbed t t' \/
   exists m i stored, Authenticate.Unmarshal Authenticate.zero payload = (m, None) /\
    admissible t (cl_ip c) (Authenticate.Username m) (Authenticate.Password m) (cl_certHash c) i /\
    SnapshotByName (srv_users (server t)) (User.Name stored) = None /\
    stored = (with_mode c (new_user t now i (Authenticate.Tokens m) (cl_version c) (address_of c) (cl_certHash c) (cl_verified c)))
               <| User.SessionID := User.SessionID stored |> <| User.SessionGeneration := generation (srv_users (server t)) + 1 |> <| User.AuthorizationRevision := 1 |> /\
    present t t' stored /\ cl_session c' = ref_of stored /\ cl_state c' = ConnActive /\ welcome random t c stored es).
Proof.
  intros S G. pose proof (handleAuthenticate_exact now random ans t c payload S G) as H. destruct (handleAuthenticate _ _ _ _ _ _) as [[[t' c'] es] err].
  destruct H as [(H1 & H2 & _)|(m & i & stored & H1 & H2 & H3 & H4 & H5 & H6)]; [split; [done|by left]|].
  split; [apply H5|]. right. exists m, i, stored. done.
Qed.

(** Somebody who is let in and finds a transport that does its work is in. *)
Lemma open_session_done random ans t s c u stored : ok t -> roomy (server t) -> is_Some (Channels.GetChannel (srv_chans (server t)) (User.ChannelID u)) ->
  addUser (server t) u = (s, Some stored) -> is_Some (edges (srv_registry (server t)) !! LocalEdgeID) -> session_entry (srv_registry (server t)) (User.SessionID stored) = None ->
  takes ans = true -> keys ans = true -> (forall i, lane ans i = true) -> confirms ans = true ->
  let '(t', c', es) := open_session random ans (with_server t s) c stored in cl_state c' = ConnActive.
Proof.
  intros S G Hc Ha [ed He] Hf At Ak Al Ac. pose proof (addUser_exact (server t) u (so_live _ _ S) G) as H. rewrite Ha in H. destruct H as (L1 & (R1 & R2 & _) & _ & _ & Hst & _ & _ & H0 & HS).
  unfold open_session. change (server (with_server t s)) with s.
  assert (Valid (ref_of stored) = true) as Hv.
  { assert (User.SessionGeneration stored = generation (srv_users (server t)) + 1) as Hg by (by rewrite Hst).
    pose proof (mw_generation _ (ok_users _ _ (lo_server _ _ (so_live _ _ S)))). apply andb_true_iff. split; apply negb_true_iff, Z.eqb_neq; [exact H0|].
    change (User.SessionGeneration stored <> 0). lia. }
  assert (exists r l, Bind (srv_registry s) (ref_of stored) LocalEdgeID = (r, None) /\ session_entry r (User.SessionID stored) = Some (l, mkEntry (ref_of stored) LocalEdgeID StateSyncing false)) as (r & l & Eb & Er).
  { unfold Bind. rewrite Hv, R2, He. cbn [negb]. change (SessionID (ref_of stored)) with (User.SessionID stored). rewrite Hf. eexists _, _. split; [reflexivity|].
    unfold session_entry. cbn. rewrite lookup_insert_eq. cbn. by rewrite lookup_insert_eq. }
  rewrite Eb, At. cbn [negb]. set (t1 := with_server _ (invalidateACLCache _)).
  assert (srv_registry (server t1) = r) as Hr1 by done. clearbody t1.
  unfold sendSync. destruct (updateUser _ _ _) as [s2 o] eqn:Eu. assert (srv_registry s2 = r) as Hr2.
  { unfold updateUser in Eu. destruct (UpdateUser _ _ _) as [[? ?] ?]. injection Eu as <- <-. exact Hr1. }
  destruct (generateCryptSetup random _) as [[key enc] dec]. rewrite Ak. cbn [negb]. set (t2 := _ <| conns := _ |>). assert (srv_registry (server t2) = r) as Hr3 by done. clearbody t2.
  destruct (send_lane (lane ans) 0 _ _) as [es b] eqn:El. rewrite (send_lane_all _ _ _ _ Al) in El. injection El as <- <-.
  unfold complete, commit_announce. rewrite Ac, Hr3. unfold commitActive. change (SessionID (ref_of stored)) with (User.SessionID stored). rewrite Er. cbn [ref state].
  rewrite bool_decide_eq_true_2 by done. reflexivity.
Qed.

(** C16: whoever may come in does. When the checks let the client in under a
    name that is free, there is a number left, the edge is up and no session
    is without its user, then an Authenticate over a transport that takes and
    confirms the messages ends with the connection active, bound to a user of
    that name. *)
Theorem login_completes now random ans t c payload m i : ok t -> roomy (server t) -> cl_state c = StateAuthenticating -> Authenticate.Unmarshal Authenticate.zero payload = (m, None) ->
  admission t (cl_ip c) (Authenticate.Username m) (Authenticate.Password m) (cl_certHash c) (remote_ip c) = Ok i ->
  SnapshotByName (srv_users (server t)) (id_Name i) = None -> UserManager.Count (srv_users (server t)) < maxUsers (srv_users (server t)) ->
  is_Some (edges (srv_registry (server t)) !! LocalEdgeID) ->
  (forall sid, Snapshot (srv_users (server t)) sid = None -> session_entry (srv_registry (server t)) sid = None) ->
  takes ans = true -> keys ans = true -> (forall i, lane ans i = true) -> confirms ans = true ->
  let '(t', c', es, err) := handleAuthenticate now random ans t c payload in
  err = None /\ cl_state c' = ConnActive /\ exists u, Snapshot (srv_users (server t')) (SessionID (cl_session c')) = Some u /\ User.Name u = id_Name i /\ cl_session c' = ref_of u.
Proof.
  intros S G Est Em Ea Hn Hc He Hf At Ak Al Ac. unfold handleAuthenticate. rewrite Em, Ea. set (u := new_user _ _ _ _ _ _ _ _).
  pose proof (addUser_exact (server t) u (so_live _ _ S) G) as H. destruct (addUser (server t) u) as [s o] eqn:Eu. assert (is_Some o) as [stored ->].
  { revert Eu. unfold addUser. destruct (Add_cases (srv_users (server t)) u (ok_users _ _ (lo_server _ _ (so_live _ _ S))) ltac:(unfold roomy in G; lia)) as [[_ [[x Hx]|Hx]]|(_ & _ & m' & st & -> & _)].
    - exfalso. revert Hn. unfold SnapshotByName. change (User.Name u) with (id_Name i) in Hx. rewrite Hx. by destruct x.
    - lia.
    - intros [= <- <-]. by eexists. }
  destruct H as (_ & _ & _ & _ & Hst & _ & Hnew & _). set (c1 := c <| cl_session := _ |> <| cl_userName := _ |>).
  pose proof (joinChannelFor_exists (core t) (id_UserID i) (lo_server _ _ (so_live _ _ S))) as Hj.
  pose proof (open_session_exact random ans t s c1 u stored S G Hj Eu) as H1. pose proof (open_session_done random ans t s c1 u stored S G Hj Eu He (Hf _ Hnew) At Ak Al Ac) as H2.
  destruct (open_session random ans (with_server t s) c1 stored) as [[t' c'] es]. split; [done|]. split; [done|].
  destruct H1 as [(P & H1 & _)|(_ & _ & H1 & _)]; [|rewrite H2 in H1; change (cl_state c1) with (cl_state c) in H1; congruence].
  exists (with_mode c1 stored). rewrite H1. split_and!; [|by rewrite with_mode_name, Hst|done].
  rewrite (pr_users _ _ _ P). by rewrite decide_True.
Qed.

(** ** The snapshot *)

Lemma userToState_fields u : UserState.Session (userToState u) = User.SessionID u /\ UserState.ChannelID (userToState u) = User.ChannelID u.
Proof.
  set (P := fun us => UserState.Session us = User.SessionID u /\ UserState.ChannelID us = User.ChannelID u). change (P (userToState u)). unfold userToState.
  assert (forall (b : bool) us us', P us -> P us' -> P (if b then us' else us)) as K by (by intros []).
  assert (forall us bit, P us -> P (mark us bit)) as M by (by intros [] bit).
  set (u0 := UserState.zero <| UserState.Session := _ |> <| _ := _ |> <| _ := _ |> <| _ := _ |> <| _ := _ |> <| _ := _ |> <| _ := _ |>).
  assert (P u0) as H0 by (split; reflexivity). clearbody u0. cbv zeta.
  assert (forall us, P us -> P (us <| UserState.Deaf := true |>) /\ P (us <| UserState.Mute := true |>) /\ P (us <| UserState.Suppress := true |>) /\
    P (us <| UserState.PrioritySpeaker := true |>) /\ P (us <| UserState.Recording := true |>) /\ P (us <| UserState.SelfDeaf := true |>) /\ P (us <| UserState.SelfMute := true |>)) as F
    by (by intros []).
  repeat first [apply K | apply M | apply F]; exact H0.
Qed.
Lemma elem_of_roster s u ou : server_ok EqualFold s -> ou ∈ roster s u <->
  Snapshot (srv_users s) (User.SessionID ou) = Some ou /\ User.SessionID ou <> User.SessionID u /\ Active (srv_registry s) (ref_of ou) = true.
Proof.
  intros W. unfold roster, SnapshotAll. rewrite list_elem_of_filter, (elem_of_users EqualFold) by done. rewrite andb_true_iff, negb_true_iff, Z.eqb_neq. naive_solver.
Qed.
Lemma NoDup_map_filter {A} (f : A -> Z) (P : A -> Prop) `{!forall x, base.Decision (P x)} l : NoDup (map f l) -> NoDup (map f (filter P l)).
Proof.
  induction l as [|x l IH]; [done|]. cbn [map]. rewrite list.NoDup_cons. intros [Hx Hl]. rewrite list.filter_cons. case_decide; [|by apply IH].
  cbn [map]. apply list.NoDup_cons. split; [|by apply IH].
  intros (y & E & Hy)%list_elem_of_fmap. apply Hx, list_elem_of_fmap. exists y. split; [done|]. by apply list_elem_of_filter in Hy as [_ ?].
Qed.

(** A client can make sense of its snapshot. It starts with the codec, then
    every channel exactly once, each after its parent; then the client itself;
    then exactly the other active users, once each, with what they listen to;
    every user is in a channel that was already sent; the synchronisation is
    declared complete only after that. *)
Theorem snapshot_sound t u : ok t -> Snapshot (srv_users (server t)) (User.SessionID u) = Some u ->
  exists tree others sync config,
    snapshot_messages (core t) u = [MCodecVersion (CodecVersion.mk 0 0 false true)] ++ map MChannelState tree ++ [MUserState (self_state (server t) u)] ++
      map MUserState others ++ [MServerSync sync; MServerConfig config] /\
    NoDup (map ChannelState.ChannelID tree) /\
    (forall cid, cid ∈ map ChannelState.ChannelID tree <-> is_Some (Channels.GetChannel (srv_chans (server t)) cid)) /\
    (forall i cs, tree !! i = Some cs -> ChannelState.ChannelID cs = 0 \/
       exists j p, (j < i)%nat /\ tree !! j = Some p /\ ChannelState.ChannelID p = ChannelState.Parent cs) /\
    NoDup (map UserState.Session others) /\
    (forall sid, sid ∈ map UserState.Session others <-> sid <> User.SessionID u /\
       exists ou, Snapshot (srv_users (server t)) sid = Some ou /\ Active (srv_registry (server t)) (mkRef sid (User.SessionGeneration ou)) = true) /\
    (forall us, us ∈ self_state (server t) u :: others -> UserState.ChannelID us ∈ map ChannelState.ChannelID tree) /\
    ServerSync.Session sync = User.SessionID u.
Proof.
  intros [L [Lu Lr] R] Hu. pose proof (lo_server _ _ L) as W. destruct (Channels.GetTree_parents_first _ (ok_chans _ _ W)) as (out & Ht & Hnd & Hall & Hpar).
  assert (map ChannelState.ChannelID (tree_states (server t) u) = map Channels.ID out) as Eids.
  { unfold tree_states. rewrite Ht. cbn [default from_option]. rewrite map_map. by apply map_ext. }
  assert (forall us, us ∈ map (listening_state (server t)) (roster (server t) u) <-> exists ou, us = listening_state (server t) ou /\ ou ∈ roster (server t) u) as Hros by (intros us; apply list_elem_of_fmap).
  assert (forall ou, UserState.Session (listening_state (server t) ou) = User.SessionID ou /\ UserState.ChannelID (listening_state (server t) ou) = User.ChannelID ou) as Hst.
  { intros ou. apply userToState_fields. }
  assert (map UserState.Session (map (listening_state (server t)) (roster (server t) u)) = map User.SessionID (roster (server t) u)) as Esid.
  { rewrite map_map. apply map_ext. intros ou. apply Hst. }
  assert (forall cid, cid ∈ map Channels.ID out <-> is_Some (Channels.GetChannel (srv_chans (server t)) cid)) as Hids.
  { intros cid. split; [intros (ch & -> & Hc)%list_elem_of_fmap; exists ch; by apply Hall|intros [ch Hc]; apply Hall in Hc as [Hc <-]; apply list_elem_of_fmap; by exists ch]. }
  exists (tree_states (server t) u), (map (listening_state (server t)) (roster (server t) u)). eexists. eexists. split_and!.
  - unfold snapshot_messages. rewrite (map_map (listening_state (server t))). reflexivity.
  - by rewrite Eids.
  - intros cid. by rewrite Eids.
  - intros i cs Hi. unfold tree_states in Hi |- *. rewrite Ht in Hi |- *. cbn [default from_option id] in Hi |- *. rewrite list_lookup_fmap in Hi.
    apply fmap_Some in Hi as (ch & Ei & ->). destruct (Hpar i ch Ei) as [Hz|(j & p & Hj & Hp & Hid)]; [by left|right].
    match goal with |- context [map ?f out] => exists j, (f p); split; [done|]; split; [etrans; [apply (list_lookup_fmap f out j)|by rewrite Hp]|exact Hid] end.
  - rewrite Esid. apply NoDup_map_filter. apply (users_sessions _ (ok_users _ _ W)).
  - intros sid. rewrite Esid. split.
    + intros (ou & -> & Ho)%list_elem_of_fmap. apply elem_of_roster in Ho as (H1 & H2 & H3); [|done]. split; [done|]. by exists ou.
    + intros (Hn & ou & Ho & Ha). pose proof (Snapshot_session EqualFold _ _ _ W Ho) as <-. apply list_elem_of_fmap. exists ou. split; [done|]. apply elem_of_roster; done.
  - intros us Hus. rewrite Eids. apply Hids. apply elem_of_cons in Hus as [->|(ou & -> & Ho)%Hros].
    + replace (UserState.ChannelID (self_state (server t) u)) with (User.ChannelID u) by (symmetry; apply (Hst u)). by apply (Lu (User.SessionID u)).
    + rewrite (proj2 (Hst ou)). apply elem_of_roster in Ho as (H1 & _); [|done]. by apply (Lu (User.SessionID ou)).
  - reflexivity.
Qed.

(** Nothing keeps a client that is already in from authenticating again
    under another name. The connection then belongs to the new session, and
    when it closes the first session stays: its user is still there, bound and
    visible, and no connection will ever end it. *)
Theorem relogin_leaves_session now random ans t c payload u : ok t -> roomy (server t) ->
  Snapshot (srv_users (server t)) (SessionID (cl_session c)) = Some u -> Generation (cl_session c) = User.SessionGeneration u ->
  let '(t', c', es, err) := handleAuthenticate now random ans t c payload in
  cl_session c' <> cl_session c -> is_Some (Snapshot (srv_users (server t')) (SessionID (cl_session c'))) ->
  let t'' := (OnClose ord t' (cl_session c')).1 in
  ok t'' /\ Snapshot (srv_users (server t'')) (SessionID (cl_session c)) = Some u /\
  Registry.Snapshot (srv_registry (server t'')) (cl_session c) = Registry.Snapshot (srv_registry (server t)) (cl_session c) /\
  Snapshot (srv_users (server t'')) (SessionID (cl_session c')) = None.
Proof.
  intros S G Hu Hg. pose proof (handleAuthenticate_exact now random ans t c payload S G) as H. destruct (handleAuthenticate _ _ _ _ _ _) as [[[t' c'] es] err].
  intros Hne [w Hw]. destruct H as [(_ & (U & _) & _ & [E|E])|(m & i & stored & _ & _ & _ & _ & P & Hc & _)]; [done|rewrite U in Hw; congruence|].
  rewrite Hc in *. destruct P as [S' Hn HS (sn & Hact & _) HR _].
  assert (SessionID (cl_session c) <> User.SessionID stored) as Hd by (intros E; congruence).
  assert (Snapshot (srv_users (server t')) (User.SessionID stored) = Some stored) as Hs by (by rewrite HS, decide_True).
  pose proof (Snapshot_positive _ _ _ (lo_server _ _ (so_live _ _ S')) Hs) as H0.
  destruct (OnClose_exact EqualFold ord ToLower (fun _ => 0) (fun _ => []) ParseIP Hord t' (ref_of stored) stored S' H0 Hs eq_refl) as [E _].
  cbn zeta. split; [by eapply ended_ok|]. destruct E as [_ U [_ D _ _ _ _ _] _ _ _]. split_and!.
  - rewrite U, decide_False, HS, decide_False by done. done.
  - rewrite D by (intros E; apply Hd; by rewrite E). apply HR. rewrite SnapshotRef_Snapshot, Hu, Hg, Z.eqb_refl. by eexists.
  - rewrite U. by rewrite decide_True.
Qed.

(** ** Clients of other edges *)

(** What [AuthenticateRemote] comes to: a session that waits for its edge, or
    nothing. *)
Lemma AuthenticateRemote_exact now t i req : ok t -> roomy (server t) ->
  let '(t', res) := AuthenticateRemote now t i req in
  match res with
  | Err _ => ok t' /\ undisturbed t t'
  | Ok (rf, name) => EdgeGeneration (srv_registry (server t)) (inst_edge i) = Some (inst_generation i) /\
      exists id u, admissible t (ParseIP (ar_RemoteIP req)) (ar_Username req) (ar_Password req) (ar_CertHash req) id /\
        rf = ref_of u /\ name = User.Name u /\ User.Name u = id_Name id /\ User.UserID u = id_UserID id /\ arrived t t' u
  end.
Proof.
  intros S G. unfold AuthenticateRemote. destruct (EdgeGeneration _ _) as [g|] eqn:Eg; [|done]. destruct (Z.eqb_spec g (inst_generation i)) as [->|]; [|done]. cbn [negb].
  destruct (admission _ _ _ _ _ _) as [id|why] eqn:Ea; [|done]. apply admission_Ok in Ea. set (u := new_user _ _ _ _ _ _ _ _).
  pose proof (addUser_exact (server t) u (so_live _ _ S) G) as H. destruct (addUser (server t) u) as [s [stored|]] eqn:Eu; [|subst s; by rewrite with_server_id].
  destruct H as (L1 & (R1 & R2 & _) & _ & _ & Hst & _). pose proof (Bind_exact (srv_registry s) (ref_of stored) (inst_edge i) (ok_registry _ _ (lo_server _ _ L1))) as Hb.
  destruct (Bind (srv_registry s) (ref_of stored) (inst_edge i)) as [r e] eqn:Eb. destruct Hb as [W Hb]. destruct e as [er|].
  - subst r. pose proof (removed_undisturbed t s stored u (srv_registry s) S G Eu W) as H. rewrite R2 in H. specialize (H ltac:(done)).
    by replace (s <| srv_registry := srv_registry (server t) |>) with s in H by (rewrite <- R2; by destruct s).
  - split; [done|]. exists id, stored. split_and!; [done|done|done|by rewrite Hst|by rewrite Hst|].
    pose proof (bound_arrived t s stored u (inst_edge i) r S G (joinChannelFor_exists (core t) _ (lo_server _ _ (so_live _ _ S))) Eu Eb) as A. by apply arrived_invalidate in A.
Qed.
End Login.
End Login.
