(* ===== verification/Revalidation.v ===== *)
(** * Identities are checked again

    [internal/mumble/identity_revalidation.go]: the users an external authority
    vouched for are asked for again; who is no longer eligible, whose name
    belongs to somebody else by now, or who could not be confirmed for too long
    has to leave.

    Times are in nanoseconds, 0 is the zero time. A round is not interrupted by
    other calls. *)

From Stdlib Require Import ZArith Lia String.
From stdpp Require Import base numbers list gmap sets option.
From S2P Require Import Prelude Wire Fields Messages Codec Registry UserManager ChannelManager Acl AclCache Listeners VoiceState VoiceServer Ban RateLimit ServerState UserStateHandler SessionHandlers Identity Login.

Module Revalidation.
Import Acl AclCache VoiceFlags VoiceServer ServerState SessionHandlers Identity Login.

Record externalSession := mkExternal { es_Ref : SessionRef; es_UserID : Z; es_LastValidatedAt : Z }.

Definition vouched (u : User.t) : bool := User.ExternalIdentity u && negb (User.UserID u =? 0).
Definition external_of (u : User.t) : externalSession := mkExternal (ref_of u) (User.UserID u) (User.IdentityLastValidatedAt u).

(** What the authority says is written into the user. *)
Definition confirm (now : Z) (i : Identity) (u : User.t) : User.t :=
  u <| User.Name := id_Name i |> <| User.ExternalGroups := id_Groups i |> <| User.IdentityVersion := id_IdentityVersion i |>
    <| User.PolicyVersion := id_PolicyVersion i |> <| User.IdentityLastValidatedAt := now |>.
Definition identity_changed (i : Identity) (u : User.t) : bool :=
  negb (bool_decide (User.Name u = id_Name i)) || negb (bool_decide (User.ExternalGroups u = id_Groups i)) ||
  negb (User.IdentityVersion u =? id_IdentityVersion i) || negb (User.PolicyVersion u =? id_PolicyVersion i).
Definition suppress (may : bool) (u : User.t) : User.t := u <| User.Voice := (applySuppressFromSpeak (User.Voice u) may).1 |>.

(** The users of the answer by number; the last one counts. *)
Definition by_id (identities : list Identity) : gmap Z Identity :=
  fold_left (fun m i => if negb (id_UserID i =? 0) then <[id_UserID i := i]> m else m) identities ∅.

Section Revalidation.
Context (EqualFold : gostring -> gostring -> bool).
Context `{SO : Channels.Sorter} {DB TX : Type} `{CS : Channels.ChannelStore DB TX}.
Context (ord : nat -> Channels.order).
Context {BDB : Type}.
Context (authority : option Authority) (staleGrace : Z).
Implicit Types (s : Server DB) (t : Site DB BDB).

Definition externalUserSnapshots t : list externalSession :=
  map external_of (filter (fun u => vouched u = true) (SnapshotAll (srv_users (server t)))).

Definition grace : Z := if staleGrace <=? 0 then 180 * 10 ^ 9 else staleGrace.
Definition overdue (now : Z) (e : externalSession) : bool := (es_LastValidatedAt e =? 0) || (grace <? now - es_LastValidatedAt e).
Fixpoint applyRevalidationFailure (now : Z) t (es : list externalSession) : Site DB BDB * list effect :=
  match es with
  | [] => (t, [])
  | e :: es =>
      let '(t, e1) := if overdue now e then (KickSessionRef ord t (es_Ref e) (str "identity could not be revalidated within stale grace"%string)).1 else (t, []) in
      let '(t, e2) := applyRevalidationFailure now t es in (t, e1 ++ e2)
  end.

(** [users.UpdateIdentityRefAndPublish]. *)
Definition updateIdentityRef s (rf : SessionRef) (fn : User.t -> User.t) : Server DB * option User.t :=
  let '(m, u, ns) := UpdateIdentityRef (srv_users s) rf fn in (with_users s m ns, u).

(** The permissions of a user whose identity changed. *)
Definition refresh_rights s (rf : SessionRef) (updated : User.t) : Server DB * list effect :=
  let s := invalidateACLCache s in
  let may := maySpeak EqualFold s (SubjectOf updated) (User.ChannelID updated) in
  let changed := match SnapshotRef (srv_users s) rf with Some u => (applySuppressFromSpeak (User.Voice u) may).2 | None => false end in
  let '(s, now) := updateIdentityRef s rf (suppress may) in
  let e1 := match now with
            | Some u => if changed then Broadcast s 0 (MUserState (UserState.zero <| UserState.Session := User.SessionID u |>
                  <| UserState.Suppress := Suppress (User.Voice u) |> <| UserState.SetFields := Z.lor UserState.SetSession UserState.SetSuppress |>)) else []
            | None => [] end in
  (s, e1 ++ refreshEnterStatesFor EqualFold s updated (default [] (Channels.GetTree (srv_chans s))) (enterRestrictedChannels s)).
(** The callback of [WithSession]; [true] is a conflict. *)
Definition confirm_session (now : Z) s (rf : SessionRef) (i : Identity) : Server DB * list effect * bool :=
  let changed := match SnapshotRef (srv_users s) rf with Some u => identity_changed i u | None => false end in
  let '(s, updated) := updateIdentityRef s rf (confirm now i) in
  match updated with
  | None => (s, [], true)
  | Some u =>
      if changed then
        let e1 := Broadcast s (User.SessionID u) (MUserState (userToState u)) in
        let '(s, e2) := refresh_rights s rf u in (s, e1 ++ e2, false)
      else (s, [], false)
  end.
Definition WithSession {A} (r : Registry) (rf : SessionRef) (yes no : A) : A :=
  match Registry.Snapshot r rf with
  | Some sn => match with_session_guard sn with None => yes | Some _ => no end
  | None => no
  end.

(** One round of the loop of [revalidateSnapshots]. *)
Definition revalidate_one (now : Z) (found : option Identity) t (e : externalSession) : Site DB BDB * list effect :=
  match found with
  | None => applyRevalidationFailure now t [e]
  | Some i =>
      if negb (Eligible i) then (KickSessionRef ord t (es_Ref e) (str "identity is no longer eligible"%string)).1 else
      let '(s, e1, conflict) := WithSession (srv_registry (server t)) (es_Ref e) (confirm_session now (server t) (es_Ref e) i) (server t, [], false) in
      let t := with_server t s in
      if conflict : bool then let '(t, e2) := (KickSessionRef ord t (es_Ref e) (str "canonical identity conflicts with an online user"%string)).1 in (t, e1 ++ e2)
      else (t, e1)
  end.
Fixpoint revalidate_all (now : Z) (found : gmap Z Identity) t (es : list externalSession) : Site DB BDB * list effect :=
  match es with
  | [] => (t, [])
  | e :: es => let '(t, e1) := revalidate_one now (found !! es_UserID e) t e in let '(t, e2) := revalidate_all now found t es in (t, e1 ++ e2)
  end.

Fixpoint distinct (seen : list Z) (ids : list Z) : list Z :=
  match ids with
  | [] => []
  | x :: ids => if bool_decide (x ∈ seen) then distinct seen ids else x :: distinct (x :: seen) ids
  end.
(** The flag is [true] for a nil error. *)
Definition revalidateSnapshots (now : Z) (a : Authority) t (es : list externalSession) : Site DB BDB * list effect * bool :=
  if bool_decide (es = []) then (t, [], true) else
  match Resolve a (mkResolve (distinct [] (map es_UserID es)) []) with
  | None => (applyRevalidationFailure now t es, false)
  | Some identities => (revalidate_all now (by_id identities) t es, true)
  end.
(** A tick of [StartIdentityRevalidation]. *)
Definition revalidation_tick (now : Z) t : Site DB BDB * list effect :=
  match authority with
  | Some a => if External a then (revalidateSnapshots now a t (externalUserSnapshots t)).1 else (t, [])
  | None => (t, [])
  end.
Definition RevalidateUserNow (now : Z) t (userID : Z) : Site DB BDB * list effect * bool :=
  match authority with
  | Some a =>
      if External a then
        let selected := filter (fun e => es_UserID e = userID) (externalUserSnapshots t) in
        if bool_decide (selected = []) then (t, [], true) else revalidateSnapshots now a t selected
      else (t, [], false)
  | None => (t, [], false)
  end.

(** ** One user *)

Notation live := (live_ok EqualFold).
Notation ok := (site_ok EqualFold).
Hypothesis Hord : forall i, Channels.order_ok (ord i).

Lemma updateIdentityRef_exact s rf fn : live s -> keeps_session fn -> let '(s', o) := updateIdentityRef s rf fn in
  live s' /\ same_rest s s' /\ match SnapshotRef (srv_users s) rf with
  | None => o = None /\ s' = s
  | Some u =>
      (o = None /\ s' = s /\ exists sid w, sid <> SessionID rf /\ Snapshot (srv_users s) sid = Some w /\ User.Name w = User.Name (fn u)) \/
      (o = Some (settled fn u) /\ forall sid, Snapshot (srv_users s') sid = if decide (sid = SessionID rf) then Some (settled fn u) else Snapshot (srv_users s) sid)
  end.
Proof.
  intros L Hk. pose proof (ok_users _ _ (lo_server _ _ L)) as W. unfold updateIdentityRef. destruct (UpdateIdentityRef (srv_users s) rf fn) as [[m o] ns] eqn:E.
  assert (live (with_users s m ns)) as L'.
  { apply (with_users_ok EqualFold s (OpUpdateIdentity rf true fn)); [done|done|cbn; unfold UpdateIdentityRef in E; by rewrite E|].
    pose proof (generation_other (srv_users s) (OpUpdateIdentity rf true fn) ltac:(done)) as [G _]. cbn in G. unfold UpdateIdentityRef in E. rewrite E in G. cbn in G. rewrite G. apply L. }
  split; [done|]. split; [done|]. revert E. unfold UpdateIdentityRef, updateIdentity, SnapshotRef. destruct (user_at (srv_users s) (SessionID rf)) as [[l u]|] eqn:Eu; [|intros [= <- <- <-]; by rewrite with_users_id].
  destruct (User.SessionGeneration u =? Generation rf) eqn:Eg; cbn [negb andb]; [|intros [= <- <- <-]; by rewrite with_users_id].
  destruct (match user_named _ _ with Some (_, other) => _ | None => _ end) eqn:Ec.
  - intros [= <- <- <-]. left. rewrite with_users_id. split; [done|]. split; [done|]. destruct (user_named _ _) as [[l' other]|] eqn:En; [|done]. apply negb_true_iff, Z.eqb_neq in Ec.
    apply user_named_Some in En as [En1 En2]. destruct (mw_name _ W _ _ En1) as (o' & Eo & Ho1 & Ho2). assert (o' = other) as -> by congruence.
    exists (User.SessionID other), other. split; [done|]. split; [|done]. apply Snapshot_Some. exists l'. by apply user_at_Some.
  - destruct (settle u (fn u)) as [cand ch] eqn:Es. assert (settled fn u = cand) as Hst by (unfold settled; by rewrite Es).
    intros [= <- <- <-]. right. rewrite Hst. split; [done|]. intros sid. apply user_at_Some in Eu as [Hl Hr].
    trans (Snapshot (write_user l cand (srv_users s)) sid); [by destruct (negb _)|]. rewrite write_snapshot by eauto.
    destruct (decide (sid = SessionID rf)) as [->|Hne]; [by rewrite decide_True|]. rewrite decide_False; [done|]. intros Hl'.
    by apply Hne, (session_loc_inj _ _ _ l W).
Qed.

(** The sessions of a list before [sid]. *)
Fixpoint before (sid : Z) (sids : list Z) : list Z :=
  match sids with
  | [] => []
  | x :: sids => if bool_decide (x = sid) then [] else x :: before sid sids
  end.
(** In a round from [t] to [t'], when it is the turn of [sid] and the sessions
    of [earlier] have had theirs: somebody else bears the name. Whoever had its
    turn is already as in [t'], the others are still as in [t]. *)
Definition name_taken t t' (earlier : list Z) (sid : Z) (name : gostring) : Prop :=
  exists sid' w, sid' <> sid /\ User.Name w = name /\
    Snapshot (srv_users (server (if decide (sid' ∈ earlier) then t' else t))) sid' = Some w.

(** The user after a round from [t] to [t'], where the sessions of [earlier]
    were asked for before; [found] is what the authority knows of it. *)
Inductive judged t t' (earlier : list Z) (now : Z) (found : option Identity) (u : User.t) : option User.t -> Prop :=
  | judged_waiting : found = None -> overdue now (external_of u) = false -> judged t t' earlier now found u (Some u)
  | judged_overdue : found = None -> overdue now (external_of u) = true -> judged t t' earlier now found u None
  | judged_ineligible i : found = Some i -> Eligible i = false -> judged t t' earlier now found u None
  | judged_confirmed i quiet revision : found = Some i -> Eligible i = true ->
      judged t t' earlier now found u (Some ((confirm now i u) <| User.Voice := (User.Voice u) <| Suppress := quiet |> |> <| User.AuthorizationRevision := revision |>))
  | judged_conflict i : found = Some i -> Eligible i = true -> name_taken t t' earlier (User.SessionID u) (id_Name i) -> judged t t' earlier now found u None
  | judged_closing i sn : found = Some i -> Eligible i = true -> Registry.Snapshot (srv_registry (server t)) (ref_of u) = Some sn ->
      s_State sn <> StateSyncing -> s_State sn <> StateActive -> judged t t' earlier now found u (Some u).

(** Only the session [rf] is touched. *)
Record only_session t t' (rf : SessionRef) : Prop := {
  on_ok : ok t';
  on_users : forall sid, sid <> SessionID rf -> Snapshot (srv_users (server t')) sid = Snapshot (srv_users (server t)) sid;
  on_registry : forall rf', SessionID rf' <> SessionID rf -> Registry.Snapshot (srv_registry (server t')) rf' = Registry.Snapshot (srv_registry (server t)) rf';
  on_bans : bans t' = bans t }.
Lemma only_session_refl t rf : ok t -> only_session t t rf.
Proof. by split. Qed.
Lemma ended_only_session t t' rf : ok t -> ended EqualFold t t' rf -> only_session t t' rf /\ Snapshot (srv_users (server t')) (SessionID rf) = None.
Proof.
  intros S E. split; [|rewrite (en_users _ _ _ _ E); by rewrite decide_True]. pose proof E as [E1 U [_ D _ _ _ _ _] E4 E5 (_ & B & _)]. split.
  - by eapply ended_ok.
  - intros sid Hn. by rewrite U, decide_False.
  - intros rf' Hn. apply D. by intros ->.
  - exact B.
Qed.
Lemma kick_user t u reason : ok t -> Snapshot (srv_users (server t)) (User.SessionID u) = Some u ->
  let t' := (KickSessionRef ord t (ref_of u) reason).1.1 in only_session t t' (ref_of u) /\ Snapshot (srv_users (server t')) (User.SessionID u) = None.
Proof.
  intros S Hu. apply (ended_only_session t _ (ref_of u) S).
  by apply (KickSessionRef_exact EqualFold ord id (fun _ => 0) (fun _ => []) (fun _ => None) Hord t (ref_of u) u reason S); [eapply Snapshot_positive; [apply S|]|..].
Qed.

(** A user that changes but stays where it is. *)
Lemma with_user_ok t s u u' : ok t -> live s -> same_rest (server t) s -> Snapshot (srv_users (server t)) (User.SessionID u) = Some u ->
  (forall sid, Snapshot (srv_users s) sid = if decide (sid = User.SessionID u) then Some u' else Snapshot (srv_users (server t)) sid) ->
  User.ChannelID u' = User.ChannelID u -> User.SessionGeneration u' = User.SessionGeneration u -> only_session t (with_server t s) (ref_of u).
Proof.
  intros [L [Lu Lr] R] L' (Q1 & Q2 & _) Hu HS Hc Hg. split; cbn; try done.
  - split; cbn; [done|split; rewrite Q1; [|done]|].
    + intros sid v. rewrite HS. case_decide; [|apply Lu]. intros [= <-]. rewrite Hc. by apply (Lu (User.SessionID u)).
    + intros sid v. rewrite HS, Q2. case_decide as Hd; [|apply R]. intros [= <-]. rewrite Hg. subst sid. by apply R.
  - intros sid Hn. by rewrite HS, decide_False.
  - intros rf' _. by rewrite Q2.
Qed.

Lemma names_unique m sid1 sid2 u1 u2 : mgr_wf m -> Snapshot m sid1 = Some u1 -> Snapshot m sid2 = Some u2 -> User.Name u1 = User.Name u2 -> sid1 = sid2.
Proof.
  intros W [l1 [H1 R1]%user_at_Some]%Snapshot_Some [l2 [H2 R2]%user_at_Some]%Snapshot_Some Hn.
  destruct (mw_session m W _ _ H1) as (v1 & V1 & _ & N1 & _), (mw_session m W _ _ H2) as (v2 & V2 & _ & N2 & _).
  assert (l1 = l2) as -> by congruence. by eapply session_loc_inj.
Qed.
Lemma ref_of_user s u : Snapshot (srv_users s) (User.SessionID u) = Some u -> SnapshotRef (srv_users s) (ref_of u) = Some u.
Proof. intros Hu. rewrite SnapshotRef_Snapshot. cbn. by rewrite Hu, Z.eqb_refl. Qed.

(** [u'] is [u], possibly suppressed, with another revision. *)
Definition resuppressed (u u' : User.t) : Prop :=
  exists quiet revision, u' = u <| User.Voice := (User.Voice u) <| Suppress := quiet |> |> <| User.AuthorizationRevision := revision |>.
Lemma same_suppress (v : VoiceState) : v <| Suppress := Suppress v |> = v.
Proof. by destruct v. Qed.
Lemma resuppressed_refl u : resuppressed u u.
Proof. exists (Suppress (User.Voice u)), (User.AuthorizationRevision u). rewrite same_suppress. by destruct u. Qed.
Lemma settled_suppress may u : resuppressed u (settled (suppress may) u).
Proof.
  exists (Suppress (applySuppressFromSpeak (User.Voice u) may).1), (User.AuthorizationRevision (settled (suppress may) u)).
  rewrite (UserStateHandler.settled_frame (suppress may) u) at 1. unfold suppress. assert ((applySuppressFromSpeak (User.Voice u) may).1 = (User.Voice u) <| Suppress := Suppress (applySuppressFromSpeak (User.Voice u) may).1 |>) as <-.
  { unfold applySuppressFromSpeak. case_match; [done|]. by rewrite same_suppress. }
  by destruct u.
Qed.

Lemma refresh_rights_exact s u : live s -> Snapshot (srv_users s) (User.SessionID u) = Some u -> let '(s', es) := refresh_rights s (ref_of u) u in
  live s' /\ same_rest s s' /\ exists u', resuppressed u u' /\ forall sid, Snapshot (srv_users s') sid = if decide (sid = User.SessionID u) then Some u' else Snapshot (srv_users s) sid.
Proof.
  intros L Hu. unfold refresh_rights. set (s1 := invalidateACLCache s). assert (live s1) as L1 by (by apply invalidateACLCache_ok).
  set (may := maySpeak _ _ _ _). pose proof (updateIdentityRef_exact s1 (ref_of u) (suppress may) L1 ltac:(by intros v)) as H.
  destruct (updateIdentityRef s1 (ref_of u) (suppress may)) as [s2 o]. destruct H as (L2 & R2 & H). rewrite (ref_of_user s1 u Hu) in H.
  split; [done|]. split; [exact R2|]. destruct H as [(_ & _ & sid & w & Hn & Hw & E)|[_ HS]].
  - destruct Hn. by apply (names_unique (srv_users s) sid (User.SessionID u) w u (ok_users _ _ (lo_server _ _ L))).
  - exists (settled (suppress may) u). split; [apply settled_suppress|exact HS].
Qed.
Lemma settled_confirm now i u : exists revision, settled (confirm now i) u = (confirm now i u) <| User.AuthorizationRevision := revision |>.
Proof. eexists. rewrite (UserStateHandler.settled_frame (confirm now i) u) at 1. by destruct u. Qed.
Lemma confirm_session_exact now t u i : ok t -> Snapshot (srv_users (server t)) (User.SessionID u) = Some u ->
  let '(s', es, conflict) := confirm_session now (server t) (ref_of u) i in
  if conflict : bool then s' = server t /\ name_taken t t [] (User.SessionID u) (id_Name i)
  else only_session t (with_server t s') (ref_of u) /\ exists u', resuppressed (confirm now i u) u' /\ Snapshot (srv_users s') (User.SessionID u) = Some u'.
Proof.
  intros S Hu. pose proof (so_live _ _ S) as L. unfold confirm_session. rewrite (ref_of_user _ u Hu).
  pose proof (updateIdentityRef_exact (server t) (ref_of u) (confirm now i) L ltac:(by intros v)) as H. destruct (updateIdentityRef _ _ _) as [s1 o]. destruct H as (L1 & R1 & H).
  rewrite (ref_of_user _ u Hu) in H. destruct H as [(-> & -> & sid & w & Hn & Hw & E)|[-> HS]].
  { split; [done|]. exists sid, w. split; [exact Hn|]. split; [exact E|]. by rewrite decide_False by apply not_elem_of_nil. }
  destruct (settled_confirm now i u) as [rev Hst]. set (v := settled (confirm now i) u) in *.
  assert (resuppressed (confirm now i u) v) as Hv. { rewrite Hst. exists (Suppress (User.Voice u)), rev. change (User.Voice (confirm now i u)) with (User.Voice u). rewrite same_suppress. by destruct u. }
  assert (User.SessionID v = User.SessionID u /\ User.ChannelID v = User.ChannelID u /\ User.SessionGeneration v = User.SessionGeneration u) as (V1 & V2 & V3) by (by rewrite Hst).
  destruct (identity_changed i u).
  - assert (ref_of v = ref_of u) as Er by (unfold ref_of; congruence). pose proof (refresh_rights_exact s1 v L1 ltac:(by rewrite V1, HS, decide_True)) as H.
    rewrite Er in H. destruct (refresh_rights s1 (ref_of u) v) as [s2 es]. destruct H as (L2 & R2 & u' & (q & r & Hu') & HS2). rewrite V1 in HS2. split.
    + apply (with_user_ok t s2 u u' S L2 (same_rest_trans _ _ _ R1 R2) Hu); [|by rewrite Hu'|by rewrite Hu'].
      intros sid. rewrite HS2, HS. cbn. by repeat case_decide.
    + exists u'. split; [|by rewrite HS2, decide_True]. exists q, r. rewrite Hu', Hst. by destruct u.
  - split; [by apply (with_user_ok t s1 u v S L1 R1 Hu)|]. exists v. split; [done|]. rewrite HS. by rewrite decide_True.
Qed.

(** ** A round *)

Lemma failure_one now t u : ok t -> Snapshot (srv_users (server t)) (User.SessionID u) = Some u ->
  let t' := (applyRevalidationFailure now t [external_of u]).1 in
  only_session t t' (ref_of u) /\ Snapshot (srv_users (server t')) (User.SessionID u) = if overdue now (external_of u) then None else Some u.
Proof.
  intros S Hu. cbn [applyRevalidationFailure]. destruct (overdue now (external_of u)); [|split; [by apply only_session_refl|done]].
  pose proof (kick_user t u (str "identity could not be revalidated within stale grace"%string) S Hu) as H. by destruct (KickSessionRef ord t _ _) as [[t1 e1] b].
Qed.
Lemma revalidate_one_exact now found t u : ok t -> Snapshot (srv_users (server t)) (User.SessionID u) = Some u ->
  let t' := (revalidate_one now found t (external_of u)).1 in only_session t t' (ref_of u) /\ forall tf, judged t tf [] now found u (Snapshot (srv_users (server t')) (User.SessionID u)).
Proof.
  intros S Hu. unfold revalidate_one. destruct found as [i|].
  - change (es_Ref (external_of u)) with (ref_of u). destruct (Eligible i) eqn:El; cbn [negb].
    + assert (is_Some (Registry.Snapshot (srv_registry (server t)) (ref_of u))) as [sn Hsn] by (by apply S). unfold WithSession, with_session_guard. rewrite Hsn.
      destruct (bool_decide (s_State sn = StateSyncing \/ s_State sn = StateActive)) eqn:Hst.
      * apply bool_decide_eq_true in Hst. pose proof (confirm_session_exact now t u i S Hu) as H. destruct (confirm_session _ _ _ _) as [[s1 e1] b].
        assert (match s_State sn with StateSyncing | StateActive => None | _ => Some ErrInvalidState end = None) as -> by (by destruct Hst as [-> | ->]).
        destruct b.
        -- destruct H as [-> Hn]. rewrite with_server_id. pose proof (kick_user t u (str "canonical identity conflicts with an online user"%string) S Hu) as K.
           destruct (KickSessionRef ord t _ _) as [[t1 e2] b]. cbn zeta in K. cbn [fst] in K |- *. destruct K as [K1 ->]. split; [done|]. intros tf. eapply judged_conflict; [done|done|]. destruct Hn as (sid & w & H1 & H2 & H3). exists sid, w.
           rewrite decide_False in H3 |- * by apply not_elem_of_nil. done.
        -- destruct H as (O & u' & (q & r & ->) & H). split; [done|]. intros tf. cbn [fst]. change (server (with_server t s1)) with s1. rewrite H. change (User.Voice (confirm now i u)) with (User.Voice u). by apply judged_confirmed.
      * apply bool_decide_eq_false in Hst. assert (match s_State sn with StateSyncing | StateActive => None | _ => Some ErrInvalidState end = Some ErrInvalidState) as ->
          by (destruct (s_State sn); naive_solver). rewrite with_server_id. cbn [fst]. split; [by apply only_session_refl|]. intros tf. rewrite Hu. eapply judged_closing; [done|done|done|intros E; apply Hst; by left|intros E; apply Hst; by right].
    + pose proof (kick_user t u (str "identity is no longer eligible"%string) S Hu) as K. destruct (KickSessionRef ord t _ _) as [[t1 e2] b]. cbn zeta in K. cbn [fst] in K |- *. destruct K as [K1 ->]. split; [done|].
      intros tf. by eapply judged_ineligible.
  - destruct (failure_one now t u S Hu) as [O ->]. split; [exact O|]. intros tf. destruct (overdue now (external_of u)) eqn:E; [by apply judged_overdue|by apply judged_waiting].
Qed.

(** The users of [us] are judged one after the other, the others are left
    alone. *)
Definition all_judged now (found : User.t -> option Identity) t t' (us : list User.t) : Prop :=
  ok t' /\ bans t' = bans t /\ forall sid, match Snapshot (srv_users (server t)) sid with
    | None => Snapshot (srv_users (server t')) sid = None
    | Some u => if decide (sid ∈ map User.SessionID us) then judged t t' (before sid (map User.SessionID us)) now (found u) u (Snapshot (srv_users (server t')) sid) else Snapshot (srv_users (server t')) sid = Some u
    end.
(** The first of the round is [sid1], which took it from [t] to [t1]. *)
Lemma judged_later t t1 t' sid1 earlier now found u o : Registry.Snapshot (srv_registry (server t1)) (ref_of u) = Registry.Snapshot (srv_registry (server t)) (ref_of u) ->
  (forall sid, sid <> sid1 -> Snapshot (srv_users (server t1)) sid = Snapshot (srv_users (server t)) sid) ->
  (forall w, Snapshot (srv_users (server t1)) sid1 = Some w -> Snapshot (srv_users (server t')) sid1 = Some w) -> sid1 ∉ earlier ->
  judged t1 t' earlier now found u o -> judged t t' (sid1 :: earlier) now found u o.
Proof.
  intros E H1 H2 Hn []; [by constructor|by constructor|by eapply judged_ineligible|by eapply judged_confirmed| |eapply judged_closing; try done; by rewrite <- E].
  eapply judged_conflict; [done|done|]. match goal with H : name_taken _ _ _ _ _ |- _ => destruct H as (sid' & w & A & B & C) end. exists sid', w. split; [done|]. split; [done|].
  destruct (decide (sid' ∈ earlier)) as [Hin|Hin]; [by rewrite decide_True by (by apply elem_of_cons; right)|].
  destruct (decide (sid' = sid1)) as [->|Hd]; [rewrite decide_True by (by apply elem_of_cons; left); by apply H2|].
  rewrite decide_False by (by intros [?|?]%elem_of_cons). by rewrite <- H1.
Qed.
Lemma before_elem sid x sids : x ∈ before sid sids -> x ∈ sids.
Proof.
  induction sids as [|y sids IH]; cbn; [done|]. case_bool_decide; [by intros ?%elem_of_nil|]. intros [->|Hx]%elem_of_cons; apply elem_of_cons; [by left|right; auto].
Qed.
Lemma round_exact now (found : User.t -> option Identity) (round : Site DB BDB -> User.t -> Site DB BDB * list effect)
    (loop : Site DB BDB -> list User.t -> Site DB BDB * list effect) :
  (forall t, (loop t []).1 = t) -> (forall t u us, (loop t (u :: us)).1 = (loop (round t u).1 us).1) ->
  (forall t u, ok t -> Snapshot (srv_users (server t)) (User.SessionID u) = Some u ->
    only_session t (round t u).1 (ref_of u) /\ forall tf, judged t tf [] now (found u) u (Snapshot (srv_users (server (round t u).1)) (User.SessionID u))) ->
  forall us t, ok t -> NoDup (map User.SessionID us) -> (forall u, u ∈ us -> Snapshot (srv_users (server t)) (User.SessionID u) = Some u) -> all_judged now found t (loop t us).1 us.
Proof.
  intros L0 L1 HR us. induction us as [|u us IH]; intros t S Hd Hall.
  - rewrite L0. split; [done|]. split; [done|]. intros sid. destruct (Snapshot _ sid); [|done]. rewrite decide_False; [done|]. apply not_elem_of_nil.
  - rewrite L1. assert (Snapshot (srv_users (server t)) (User.SessionID u) = Some u) as Hu by (apply Hall, elem_of_cons; by left).
    destruct (HR t u S Hu) as [[S1 HU HRg HB] HJ]. cbn [map] in Hd. apply list.NoDup_cons in Hd as [Hnin Hd].
    assert (forall v, v ∈ us -> User.SessionID v <> User.SessionID u) as Hne. { intros v Hv E. apply Hnin. rewrite <- E. apply list_elem_of_fmap. by exists v. }
    destruct (IH (round t u).1 S1 Hd) as (S2 & B2 & H2).
    { intros v Hv. rewrite HU by (by apply Hne). apply Hall, elem_of_cons. by right. }
    split; [done|]. split; [congruence|]. intros sid. pose proof H2 as H2'. specialize (H2 sid). destruct (decide (sid = User.SessionID u)) as [->|Hs].
    + rewrite Hu, decide_True by (apply elem_of_cons; by left). cbn [map before]. rewrite bool_decide_eq_true_2 by done.
      destruct (Snapshot (srv_users (server (round t u).1)) (User.SessionID u)) as [w|]; [|rewrite H2; apply HJ].
      rewrite decide_False in H2 by done. rewrite H2. apply HJ.
    + rewrite HU in H2 by done. destruct (Snapshot (srv_users (server t)) sid) as [w|] eqn:Ew; [|done].
      pose proof (Snapshot_session EqualFold _ _ _ (lo_server _ _ (so_live _ _ S)) Ew) as Hws. destruct (decide (sid ∈ map User.SessionID us)) as [Hw|Hw].
      * rewrite decide_True by (apply elem_of_cons; by right). cbn [map before]. rewrite bool_decide_eq_false_2 by done.
        eapply judged_later; [apply HRg; cbn; congruence|exact HU| |by intros ?%before_elem|exact H2].
        intros w1 Hw1. specialize (H2' (User.SessionID u)). cbn [SessionID ref_of] in Hw1. rewrite Hw1 in H2'. by rewrite decide_False in H2' by done.
      * rewrite decide_False; [done|]. cbn. intros [-> |?]%elem_of_cons; [by apply Hs|done].
Qed.

(** What the authority knows of a user when it is asked for [ids]. *)
Definition knows (a : Authority) (ids : list Z) (u : User.t) : option Identity :=
  match Resolve a (mkResolve ids []) with Some l => by_id l !! User.UserID u | None => None end.

Lemma filter_all {A} (l : list A) : filter (fun _ => True) l = l.
Proof. induction l as [|x l IH]; [done|]. by rewrite list.filter_cons, decide_True, IH. Qed.
Lemma externals_of t (P : User.t -> bool) (Q : externalSession -> Prop) `{!forall e, base.Decision (Q e)} : (forall u, Q (external_of u) <-> P u = true) ->
  filter Q (externalUserSnapshots t) = map external_of (filter (fun u => vouched u && P u = true) (SnapshotAll (srv_users (server t)))).
Proof.
  intros HP. unfold externalUserSnapshots. induction (SnapshotAll _) as [|u us IH]; [done|]. rewrite !list.filter_cons.
  destruct (vouched u) eqn:Ev; cbn [andb].
  - rewrite decide_True by done. cbn [map]. rewrite list.filter_cons. destruct (P u) eqn:Ep.
    + rewrite (decide_True (P := Q (external_of u))) by (by apply HP). rewrite decide_True by done. cbn [map]. by rewrite IH.
    + rewrite (decide_False (P := Q (external_of u))) by (rewrite HP, Ep; done). rewrite decide_False by done. exact IH.
  - rewrite !decide_False by done. exact IH.
Qed.
Lemma revalidateSnapshots_exact now a t (P : User.t -> bool) : ok t ->
  let us := filter (fun u => P u = true) (SnapshotAll (srv_users (server t))) in
  all_judged now (knows a (distinct [] (map User.UserID us))) t (revalidateSnapshots now a t (map external_of us)).1.1 us.
Proof.
  intros S us. pose proof (lo_server _ _ (so_live _ _ S)) as W.
  assert (NoDup (map User.SessionID us)) as Hd by (apply NoDup_map_filter, (users_sessions _ (ok_users _ _ W))).
  assert (forall u, u ∈ us -> Snapshot (srv_users (server t)) (User.SessionID u) = Some u) as Hall.
  { intros u [_ Hu]%list_elem_of_filter. by apply (elem_of_users EqualFold (server t) u W). }
  unfold revalidateSnapshots. rewrite map_map. change (fun x => es_UserID (external_of x)) with User.UserID. case_bool_decide as He.
  { destruct us; [|done]. split; [done|]. split; [done|]. intros sid. destruct (Snapshot _ sid); [|done]. rewrite decide_False; [done|]. apply not_elem_of_nil. }
  unfold knows. destruct (Resolve a _) as [l|].
  - apply (round_exact now (fun u => by_id l !! User.UserID u) (fun t u => revalidate_one now (by_id l !! User.UserID u) t (external_of u))
      (fun t us => revalidate_all now (by_id l) t (map external_of us))); try done.
    + intros t0 u us0. cbn [map revalidate_all]. change (es_UserID (external_of u)) with (User.UserID u).
      destruct (revalidate_one _ _ _ _) as [t1 e1]. cbn [fst]. by destruct (revalidate_all _ _ t1 _).
    + intros t0 u S0 Hu. by apply revalidate_one_exact.
  - apply (round_exact now (fun _ => None) (fun t u => applyRevalidationFailure now t [external_of u]) (fun t us => applyRevalidationFailure now t (map external_of us))); try done.
    + intros t0 u us0. cbn [map applyRevalidationFailure]. destruct (if overdue now (external_of u) then _ else _) as [t1 e1]. cbn [fst]. by destruct (applyRevalidationFailure now t1 _).
    + intros t0 u S0 Hu. by apply (revalidate_one_exact now None).
Qed.

(** The answer read by number. *)
Lemma by_id_spec l k : match by_id l !! k with
  | Some i => i ∈ l /\ id_UserID i = k /\ k <> 0
  | None => forall i, i ∈ l -> id_UserID i = k -> k = 0 end.
Proof.
  unfold by_id. assert (forall l (m : gmap Z Identity), (forall i, m !! k = Some i -> id_UserID i = k /\ k <> 0) ->
    match fold_left (fun m i => if negb (id_UserID i =? 0) then <[id_UserID i := i]> m else m) l m !! k with
    | Some i => (i ∈ l \/ m !! k = Some i) /\ id_UserID i = k /\ k <> 0
    | None => m !! k = None /\ forall i, i ∈ l -> id_UserID i = k -> k = 0 end) as H.
  { clear l. induction l as [|j l IH]; intros m Hm; cbn [fold_left].
    - destruct (m !! k) as [i|] eqn:E; [split; [by right|by apply Hm]|]. split; [done|]. intros i Hi. by apply elem_of_nil in Hi.
    - set (m1 := if negb (id_UserID j =? 0) then <[id_UserID j := j]> m else m).
      assert (forall i, m1 !! k = Some i -> (i = j \/ m !! k = Some i) /\ id_UserID i = k /\ k <> 0) as Hm1.
      { unfold m1. intros i. destruct (Z.eqb_spec (id_UserID j) 0); cbn [negb]; [intros E; split; [by right|by apply Hm]|].
        destruct (decide (id_UserID j = k)) as [<-|Hn]; [rewrite lookup_insert_eq; intros [= <-]; auto|rewrite lookup_insert_ne by done; intros E; split; [by right|by apply Hm]]. }
      specialize (IH m1 ltac:(intros i Hi; by apply Hm1)). destruct (fold_left _ l m1 !! k) as [i|].
      + destruct IH as [[Hi|Hi] Hk]; [split; [left; apply elem_of_cons; by right|done]|]. destruct (Hm1 i Hi) as [[->|Hi'] _]; (split; [|done]); [left; apply elem_of_cons; by left|by right].
      + destruct IH as [H1 H2]. unfold m1 in H1. destruct (Z.eqb_spec (id_UserID j) 0) as [Ej|Ej]; cbn [negb] in H1.
        * split; [done|]. intros i [->|Hi]%elem_of_cons Hk; [lia|by apply (H2 i)].
        * apply lookup_insert_None in H1 as [H1 Hn]. split; [done|]. intros i [->|Hi]%elem_of_cons Hk; [done|by apply (H2 i)]. }
  specialize (H l ∅ ltac:(intros i; by rewrite lookup_empty)). rewrite lookup_empty in H. destruct (fold_left _ l ∅ !! k); naive_solver.
Qed.

(** The users an external authority is asked about, of those [P] selects, and
    what a check of them from [t] to [t'] does: each is judged on what the
    authority knows, nobody else is touched. *)
Definition asked t (P : User.t -> bool) : list User.t := filter (fun u => vouched u && P u = true) (SnapshotAll (srv_users (server t))).
Definition checked now t (P : User.t -> bool) t' : Prop :=
  ok t' /\ bans t' = bans t /\ forall sid, match Snapshot (srv_users (server t)) sid with
    | None => Snapshot (srv_users (server t')) sid = None
    | Some u =>
        match authority with
        | Some a => if External a && vouched u && P u then
            judged t t' (before sid (map User.SessionID (asked t P))) now (knows a (distinct [] (map User.UserID (asked t P))) u) u (Snapshot (srv_users (server t')) sid)
            else Snapshot (srv_users (server t')) sid = Some u
        | None => Snapshot (srv_users (server t')) sid = Some u
        end
    end.
Lemma checked_nobody now t P t' : ok t ->
  (authority = None \/ (exists a, authority = Some a /\ External a = false) \/ forall u, u ∈ SnapshotAll (srv_users (server t)) -> vouched u && P u = false) -> t' = t -> checked now t P t'.
Proof.
  intros S H ->. pose proof (lo_server _ _ (so_live _ _ S)) as W. split; [done|]. split; [done|]. intros sid. destruct (Snapshot (srv_users (server t)) sid) as [u|] eqn:Hu; [|done].
  destruct authority as [a|]; [|done]. destruct H as [H|[(a' & [= <-] & ->)|H]]; [done|done|]. rewrite <- andb_assoc, H, andb_false_r; [done|].
  apply (elem_of_users EqualFold (server t) u W). by rewrite (Snapshot_session EqualFold _ _ _ W Hu).
Qed.
Lemma checked_asked now a t P : ok t -> authority = Some a -> External a = true ->
  checked now t P (revalidateSnapshots now a t (map external_of (asked t P))).1.1.
Proof.
  intros S Ha He. pose proof (lo_server _ _ (so_live _ _ S)) as W. destruct (revalidateSnapshots_exact now a t (fun u => vouched u && P u) S) as (H1 & H2 & H3).
  split; [done|]. split; [done|]. intros sid. specialize (H3 sid).
  destruct (Snapshot (srv_users (server t)) sid) as [u|] eqn:Hu; [|done]. rewrite Ha, He. cbn [andb]. pose proof (Snapshot_session EqualFold _ _ _ W Hu) as Hs.
  assert (sid ∈ map User.SessionID (asked t P) <-> vouched u && P u = true) as Hin.
  { rewrite list_elem_of_fmap. split.
    - intros (v & E & [Hv Hin]%list_elem_of_filter). apply (elem_of_users EqualFold (server t) v W) in Hin. assert (v = u) as -> by congruence. done.
    - intros Hv. exists u. split; [done|]. apply list_elem_of_filter. split; [done|]. apply (elem_of_users EqualFold (server t) u W). by rewrite Hs. }
  destruct (vouched u && P u); [by rewrite decide_True in H3 by (by apply Hin)|by rewrite decide_False in H3 by (by rewrite Hin)].
Qed.
Lemma tick_checked now t : ok t -> checked now t (fun _ => true) (revalidation_tick now t).1.
Proof.
  intros S. unfold revalidation_tick. destruct authority as [a|] eqn:Ea; [|apply checked_nobody; [done|by left|done]].
  destruct (External a) eqn:Ee; [|apply checked_nobody; [done|right; left; eauto|done]].
  pose proof (externals_of t (fun _ => true) (fun _ => True) ltac:(done)) as Ef. rewrite filter_all in Ef. rewrite Ef. by apply checked_asked.
Qed.
Lemma notice_selects t userID : filter (fun e => es_UserID e = userID) (externalUserSnapshots t) = map external_of (asked t (fun u => User.UserID u =? userID)).
Proof. apply (externals_of t (fun u => User.UserID u =? userID) (fun e => es_UserID e = userID)). intros u. symmetry. apply Z.eqb_eq. Qed.
Lemma notice_checked now t userID : ok t -> checked now t (fun u => User.UserID u =? userID) (RevalidateUserNow now t userID).1.1.
Proof.
  intros S. unfold RevalidateUserNow. destruct authority as [a|] eqn:Ea; [|apply checked_nobody; [done|by left|done]].
  destruct (External a) eqn:Ee; [|apply checked_nobody; [done|right; left; eauto|done]]. cbn zeta. rewrite notice_selects. case_bool_decide as Hn; [|by apply checked_asked].
  apply checked_nobody; [done| |done]. right. right. intros u Hu. apply not_true_iff_false. intros Hv. apply map_eq_nil in Hn. apply (not_elem_of_nil u). rewrite <- Hn. by apply list_elem_of_filter.
Qed.
(** A notice is accepted when there is an external authority and it answers,
    if it has to be asked. *)
Lemma notice_accepted now t userID : (RevalidateUserNow now t userID).2 = true <-> exists a, authority = Some a /\ External a = true /\
  let us := asked t (fun u => User.UserID u =? userID) in (us = [] \/ is_Some (Resolve a (mkResolve (distinct [] (map User.UserID us)) []))).
Proof.
  unfold RevalidateUserNow. destruct authority as [a|]; [|naive_solver]. destruct (External a) eqn:Ee; [|naive_solver]. cbn zeta. rewrite notice_selects.
  set (us := asked t _). case_bool_decide as Hn.
  - split; [|done]. intros _. exists a. split; [done|]. split; [done|]. left. by apply map_eq_nil in Hn.
  - unfold revalidateSnapshots. rewrite (bool_decide_eq_false_2 _ Hn), map_map. change (fun x => es_UserID (external_of x)) with User.UserID.
    assert (us <> []) as Hu by (intros E; apply Hn; by rewrite E).
    destruct (Resolve a _) as [l|] eqn:Er; cbn [snd].
    + destruct (revalidate_all now (by_id l) t (map external_of us)) as [t1 e1]. split; [|done]. intros _. exists a. split; [done|]. split; [done|]. right. rewrite Er. by eexists.
    + destruct (applyRevalidationFailure now t (map external_of us)) as [t1 e1]. split; [done|]. intros (a' & [= <-] & _ & [?|[l Hl]]); [done|]. by rewrite Er in Hl.
Qed.

(** C18: the check of identities is exact. A tick leaves everybody alone whom no
    external authority vouched for. Of the others it keeps exactly those the
    authority still finds eligible, with the name, the groups and the versions
    it gave, and those it did not answer for whose last confirmation is within
    the grace; an eligible user has to leave only when, at its turn, somebody
    else bears its new name. A notice about one user does the same to the
    sessions of that user and to nobody else. The invariant of the server is
    kept. *)
Theorem revalidation_exact now t userID : ok t ->
  checked now t (fun _ => true) (revalidation_tick now t).1 /\ checked now t (fun u => User.UserID u =? userID) (RevalidateUserNow now t userID).1.1.
Proof. intros S. split; [by apply tick_checked|by apply notice_checked]. Qed.
End Revalidation.
End Revalidation.
