(* ===== verification/LoginSample.v ===== *)
(** * Somebody comes in

    The server of [HandlerSample] when clients authenticate, against the local
    authority over a small database. *)

From Stdlib Require Import ZArith Lia String.
From stdpp Require Import base numbers list gmap sets option.
From S2P Require Import Prelude Wire Fields Messages Codec CryptState Registry UserManager ChannelManager ChannelTable Acl AclCache AclSample Listeners VoiceState VoiceServer VoiceSample Ban RateLimit ServerState UserStateHandler TextHandlers ChannelHandlers SessionHandlers HandlerSample Identity Login Revalidation.

Module LoginSample.
Import ChannelTable Acl AclCache AclSample Listeners VoiceServer VoiceSample ServerState TextHandlers SessionHandlers HandlerSample Identity Login Revalidation.

(** Two accounts of the API and a registered user. *)
Definition apis : list ApiUser := [mkApi 1 (str "root"%string) (str "hash of s3cret"%string)].
Definition registered_users : list RegisteredUser := [mkRegistered 12 (str "dora"%string) [] (str "c0ffee"%string)].
Definition find_in {A} (f : A -> bool) (l : list A) : query A := match List.find f l with Some a => Found a | None => NotFound end.
#[export] Instance sample_accounts : Accounts unit := {
  tableUser _ n := find_in (fun u => bool_decide (api_Username u = n)) apis;
  tableRegistered _ n := find_in (fun u => bool_decide (reg_Name u = n)) registered_users;
  userByID _ i := find_in (fun u => api_ID u =? i) apis;
  userByName _ n := find_in (fun u => bool_decide (api_Username u = n)) apis;
  registeredByID _ i := find_in (fun u => reg_UserID u =? i) registered_users;
  registeredByName _ n := find_in (fun u => bool_decide (reg_Name u = n)) registered_users }.
Definition hashed (hash password : gostring) : bool := bool_decide (hash = (str "hash of "%string ++ password)).
Definition authenticate (req : AuthenticateRequest) : AuthenticateResult := local_Authenticate fold_ascii hashed hashed tt [] req.
Definition answer (name password cert : string) : gostring * Z :=
  let res := authenticate (mkRequest [] (str name) (str password) (str cert) []) in (Decision res, id_UserID (res_Identity res)).
Example root_in : answer "root" "s3cret" "" = (DecisionAllow, MakeAPIUserID 1).
Proof. vm_compute. reflexivity. Qed.
Example root_wrong : answer "root" "secret" "" = (DecisionDeny, 0).
Proof. vm_compute. reflexivity. Qed.
Example dora_in : answer "dora" "" "C0FFEE" = (DecisionAllow, 12).
Proof. vm_compute. reflexivity. Qed.
Example dora_wrong : answer "dora" "" "" = (DecisionDeny, 0).
Proof. vm_compute. reflexivity. Qed.
Example guest_in : answer "eve" "" "" = (DecisionAllow, 0).
Proof. vm_compute. reflexivity. Qed.
Example superuser_wrong : answer "SuperUser" "" "" = (DecisionDeny, 0).
Proof. vm_compute. reflexivity. Qed.

Definition authority : Authority := mkAuthority (fun req => Some (authenticate req)) (fun _ => None) false.
Definition config : Config := mkConfig 10 72000 (str "hi"%string) [].
Definition host (a : gostring) : option gostring := Some (take 7 a).
Definition random_bytes (i : nat) (n : Z) : bytes := repeat (Z.of_nat i) (Z.to_nat n).
Definition all_well : Answers := mkAnswers true true (fun _ => true) true.
Definition fresh : Client := mkClient (Some (str "9.9.9.9:4711"%string)) None [] false true false StateAuthenticating (mkRef 0 0) [] 2 0 0 None.
Definition come_in (n : string) : bytes := Authenticate.Marshal (Authenticate.zero <| Authenticate.Username := str n |>).

Definition login (ans : Answers) (t : Site table (list Ban.Row)) (c : Client) (p : bytes) :=
  handleAuthenticate fold_ascii orders id host config (Some authority) 0 random_bytes ans t c p.

Example eve_in :
  let '(t, c, es, err) := login all_well site4 fresh (come_in "eve") in
  err = None /\ cl_state c = ConnActive /\ cl_session c = mkRef 4 4 /\ User.Name <$> Snapshot (srv_users (server t)) 4 = Some (str "eve"%string) /\
  Active (srv_registry (server t)) (mkRef 4 4) = true /\ length es = 15%nat.
Proof. vm_compute. repeat split. Qed.
Example eve_lost :
  let '(t, c, es, err) := login (mkAnswers true true (fun i => (i <? 3)%nat) true) site4 fresh (come_in "eve") in
  err = None /\ cl_state c = StateAuthenticating /\ Snapshot (srv_users (server t)) 4 = None.
Proof. vm_compute. repeat split. Qed.

(** ** The theorems on it *)

Lemma site4_roomy : roomy (server site4).
Proof. vm_compute. reflexivity. Qed.

Lemma login_exact_witness :
  let '(t', c', es, err) := login all_well site4 fresh (come_in "eve") in
  site_ok fold_ascii t' /\
  (undisturbed site4 t' \/
   exists m i stored, Authenticate.Unmarshal Authenticate.zero (come_in "eve") = (m, None) /\
    admissible id config (Some authority) site4 (cl_ip fresh) (Authenticate.Username m) (Authenticate.Password m) (cl_certHash fresh) i /\
    SnapshotByName (srv_users (server site4)) (User.Name stored) = None /\
    stored = (with_mode fresh (new_user fold_ascii (Some authority) site4 0 i (Authenticate.Tokens m) (cl_version fresh) (address_of host fresh) (cl_certHash fresh) (cl_verified fresh)))
               <| User.SessionID := User.SessionID stored |> <| User.SessionGeneration := generation (srv_users (server site4)) + 1 |> <| User.AuthorizationRevision := 1 |> /\
    present fold_ascii site4 t' stored /\ cl_session c' = ref_of stored /\ cl_state c' = ConnActive /\ welcome fold_ascii orders config random_bytes site4 fresh stored es).
Proof.
  apply (login_exact fold_ascii orders id (fun _ => None) host config (Some authority) orders_ok 0 random_bytes all_well site4 fresh (come_in "eve")); [exact site4_ok|exact site4_roomy].
Defined.

Lemma eve_read : Authenticate.Unmarshal Authenticate.zero (come_in "eve") = (Authenticate.zero <| Authenticate.Username := str "eve"%string |>, None).
Proof. vm_compute. reflexivity. Qed.
Definition eve : Identity := mkIdentity true 0 (str "eve"%string) [] 0 0 false.
Lemma eve_admitted : admission id config (Some authority) site4 (cl_ip fresh) (str "eve"%string) [] (cl_certHash fresh) (remote_ip host fresh) = Ok eve.
Proof. vm_compute. reflexivity. Qed.
Lemma eve_new : SnapshotByName users4 (id_Name eve) = None.
Proof. vm_compute. reflexivity. Qed.
Lemma eve_fits : UserManager.Count users4 < maxUsers users4.
Proof. vm_compute. reflexivity. Qed.
Lemma local_up : is_Some (edges registry3 !! LocalEdgeID).
Proof. vm_compute. eauto. Qed.
(** The sessions of the registry are those of the users. *)
Lemma no_orphans : forall sid, Snapshot users4 sid = None -> session_entry registry3 sid = None.
Proof.
  assert (forallb (fun '(sid, _) => match Snapshot users4 sid with Some _ => true | None => false end) (map_to_list (Registry.sessions registry3)) = true) as H by (vm_compute; reflexivity).
  intros sid Hn. unfold session_entry. destruct (Registry.sessions registry3 !! sid) as [l|] eqn:E; [|done]. exfalso.
  rewrite forallb_forall in H. specialize (H (sid, l)). cbn beta iota in H. rewrite Hn in H. discriminate H. by apply list_elem_of_In, elem_of_map_to_list.
Qed.
Lemma login_completes_witness :
  let '(t', c', es, err) := login all_well site4 fresh (come_in "eve") in
  err = None /\ cl_state c' = ConnActive /\ exists u, Snapshot (srv_users (server t')) (SessionID (cl_session c')) = Some u /\ User.Name u = id_Name eve /\ cl_session c' = ref_of u.
Proof.
  apply (login_completes fold_ascii orders id (fun _ => None) host config (Some authority) orders_ok 0 random_bytes all_well site4 fresh (come_in "eve")
    (Authenticate.zero <| Authenticate.Username := str "eve"%string |>) eve);
    [exact site4_ok|exact site4_roomy|reflexivity|exact eve_read|exact eve_admitted|exact eve_new|exact eve_fits|exact local_up|exact no_orphans|reflexivity|reflexivity|reflexivity|reflexivity].
Defined.

Lemma guest_found : exists u, Snapshot (srv_users (server site4)) (SessionID guest) = Some u /\ User.SessionID u = 3 /\ User.SessionGeneration u = 3.
Proof. vm_compute. eauto. Qed.
Lemma snapshot_sound_witness : exists u, Snapshot (srv_users (server site4)) (SessionID guest) = Some u /\
  exists tree others sync config1,
    snapshot_messages fold_ascii orders config (core site4) u = [MCodecVersion (CodecVersion.mk 0 0 false true)] ++ map MChannelState tree ++ [MUserState (self_state orders (server site4) u)] ++
      map MUserState others ++ [MServerSync sync; MServerConfig config1] /\
    NoDup (map ChannelState.ChannelID tree) /\
    (forall cid, cid ∈ map ChannelState.ChannelID tree <-> is_Some (Channels.GetChannel (srv_chans (server site4)) cid)) /\
    (forall i cs, tree !! i = Some cs -> ChannelState.ChannelID cs = 0 \/
       exists j p, (j < i)%nat /\ tree !! j = Some p /\ ChannelState.ChannelID p = ChannelState.Parent cs) /\
    NoDup (map UserState.Session others) /\
    (forall sid, sid ∈ map UserState.Session others <-> sid <> User.SessionID u /\
       exists ou, Snapshot (srv_users (server site4)) sid = Some ou /\ Active (srv_registry (server site4)) (mkRef sid (User.SessionGeneration ou)) = true) /\
    (forall us, us ∈ self_state orders (server site4) u :: others -> UserState.ChannelID us ∈ map ChannelState.ChannelID tree) /\
    ServerSync.Session sync = User.SessionID u.
Proof.
  destruct guest_found as (u & Hu & Hs & _). exists u. split; [exact Hu|].
  apply (snapshot_sound fold_ascii orders config site4 u); [exact site4_ok|]. rewrite Hs. exact Hu.
Defined.

(** The guest, who is in, logs in again. *)
Definition seated : Client := fresh <| cl_state := ConnActive |> <| cl_session := guest |>.
Example guest_again :
  let '(t', c', _, _) := login all_well site4 seated (come_in "eve") in
  cl_session c' = mkRef 4 4 /\ User.Name <$> Snapshot (srv_users (server (OnClose orders t' (cl_session c')).1)) 3 = Some [67] /\
  Snapshot (srv_users (server (OnClose orders t' (cl_session c')).1)) 4 = None.
Proof. vm_compute. repeat split. Qed.
Lemma relogin_leaves_session_witness : exists u, Snapshot (srv_users (server site4)) (SessionID (cl_session seated)) = Some u /\
  let '(t', c', es, err) := login all_well site4 seated (come_in "eve") in
  cl_session c' <> cl_session seated -> is_Some (Snapshot (srv_users (server t')) (SessionID (cl_session c'))) ->
  let t'' := (OnClose orders t' (cl_session c')).1 in
  site_ok fold_ascii t'' /\ Snapshot (srv_users (server t'')) (SessionID (cl_session seated)) = Some u /\
  Registry.Snapshot (srv_registry (server t'')) (cl_session seated) = Registry.Snapshot (srv_registry (server site4)) (cl_session seated) /\
  Snapshot (srv_users (server t'')) (SessionID (cl_session c')) = None.
Proof.
  destruct guest_found as (u & Hu & Hs & Hg). exists u. split; [exact Hu|].
  apply (relogin_leaves_session fold_ascii orders id (fun _ => None) host config (Some authority) orders_ok 0 random_bytes all_well site4 seated (come_in "eve") u); [exact site4_ok|exact site4_roomy|exact Hu|]. symmetry. exact Hg.
Defined.

(** ** Identities are checked again *)

(** Eve comes in with the number 40 of an external authority that renames her
    later, and then knows her no more. *)
Definition outside (answer : option (list Identity)) : Authority :=
  mkAuthority (fun req => Some (mkAnswer DecisionAllow (mkIdentity true 40 (Username req) [] 1 1 false) [])) (fun _ => answer) true.
Definition site_eve : Site table (list Ban.Row) :=
  (handleAuthenticate fold_ascii orders id host config (Some (outside None)) 1000 random_bytes all_well site4 fresh
    (Authenticate.Marshal (Authenticate.zero <| Authenticate.Username := str "eve"%string |> <| Authenticate.Password := str "x"%string |>))).1.1.1.
Definition renamed : Authority := outside (Some [mkIdentity true 40 (str "evelyn"%string) [] 2 2 false]).
Definition name_after (a : Authority) (now : Z) : option gostring :=
  User.Name <$> Snapshot (srv_users (server (revalidation_tick fold_ascii orders (Some a) 500 now site_eve).1)) 4.
Example eve_renamed : name_after renamed 1100 = Some (str "evelyn"%string).
Proof. vm_compute. reflexivity. Qed.
Example eve_waits : name_after (outside None) 1100 = Some (str "eve"%string).
Proof. vm_compute. reflexivity. Qed.
Example eve_overdue : name_after (outside None) 1600 = None.
Proof. vm_compute. reflexivity. Qed.
Example eve_unknown : name_after (outside (Some [])) 1600 = None.
Proof. vm_compute. reflexivity. Qed.
Example eve_barred : name_after (outside (Some [mkIdentity false 40 (str "eve"%string) [] 2 2 false])) 1100 = None.
Proof. vm_compute. reflexivity. Qed.
Example eve_conflict : name_after (outside (Some [mkIdentity true 40 [65] [] 2 2 false])) 1100 = None.
Proof. vm_compute. reflexivity. Qed.

Lemma revalidation_exact_witness :
  checked fold_ascii (Some renamed) 500 1100 site4 (fun _ => true) (revalidation_tick fold_ascii orders (Some renamed) 500 1100 site4).1 /\
  checked fold_ascii (Some renamed) 500 1100 site4 (fun u => User.UserID u =? 40) (RevalidateUserNow fold_ascii orders (Some renamed) 500 1100 site4 40).1.1.
Proof. exact (revalidation_exact fold_ascii orders (Some renamed) 500 orders_ok 1100 site4 40 site4_ok). Defined.
End LoginSample.
