(* ===== verification/ExternalAuthority.v ===== *)
(** * The identity service of another program

    [internal/identity/external_http.go]: the authority that asks a service over
    HTTP who may log in and who still is who. The network, JSON, case folding
    and the certificate store are parameters; what comes back is limited,
    decoded and checked as the source does. *)

From Stdlib Require Import ZArith Lia String.
From stdpp Require Import base numbers list gmap option.
From S2P Require Import Prelude Wire Fields Messages Acl ChannelManager UserManager ServerState Ban SessionHandlers Identity Login.

Module ExternalAuthority.
Import Acl Identity.

Definition maxResponseBytes : Z := 2 ^ 20.
Definition Millisecond : Z := 10 ^ 6.

Record ExternalHTTPConfig := mkHTTPConfig {
  BaseURL : gostring; AuthenticatePath : gostring; ResolvePath : gostring; ServiceToken : gostring; Timeout : Z;
  CACertPath : gostring; ClientCertPath : gostring; ClientKeyPath : gostring }.
(** The certificates of the client are part of its transport. *)
Record TLSConfig := mkTLS { RootCAs : option bytes; Certificates : option (gostring * gostring) }.
Record ExternalHTTPAuthority := mkHTTPAuthority {
  baseURL : gostring; authenticatePath : gostring; resolvePath : gostring; token : gostring; client_Timeout : Z; client_TLS : TLSConfig }.

Inductive path_error := NotAbsolute | QueryOrFragment.
Inductive identity_error := ReservedID | ReservedName | GroupNotCanonical | DuplicateGroup.
Inductive ext_error :=
  | NotConfigured
  | AuthenticatePathInvalid (e : path_error)
  | ResolvePathInvalid (e : path_error)
  | ReadCA
  | NoCACertificates
  | CertificateAlone
  | LoadCertificate
  | BadRequest
  | Unreachable
  | HTTPStatus (code : Z)
  | DecodeResponse
  | AuthorityCode (code : Z) (message : gostring)
  | DecodeData
  | InvalidDecision
  | InvalidIdentity (e : identity_error).

(** What the service says. *)
Record envelope := mkEnvelope { Code : Z; Msg : gostring; Data : bytes }.
Record AuthData := mkAuthData {
  ad_Decision : gostring; ad_UserID : Z; ad_Name : gostring; ad_Groups : list gostring; ad_IdentityVersion : Z; ad_PolicyVersion : Z }.
Record ResolveItem := mkItem {
  it_Eligible : bool; it_UserID : Z; it_Name : gostring; it_Groups : list gostring; it_IdentityVersion : Z; it_PolicyVersion : Z }.

(** [strings.TrimRight(s, "/")]. *)
Definition trim_slashes (s : gostring) : gostring :=
  foldr (fun c acc => match acc with [] => if c =? 47 then [] else [c] | _ => c :: acc end) [] s.
(** The message of an error, on one line and cut. *)
Definition one_line (msg : gostring) : gostring :=
  take 256 (TrimSpace (map (fun c => if (c =? 13) || (c =? 10) then 32 else c) msg)).

Definition validateEndpointPath (path : gostring) : option path_error :=
  match path with
  | 47 :: 47 :: _ => Some NotAbsolute
  | 47 :: _ => if bool_decide (63 ∈ path) || bool_decide (35 ∈ path) then Some QueryOrFragment else None
  | _ => Some NotAbsolute
  end.
Fixpoint check_groups (seen groups : list gostring) : option identity_error :=
  match groups with
  | [] => None
  | g :: groups =>
      if bool_decide (TrimSpace g = []) || negb (bool_decide (TrimSpace g = g)) then Some GroupNotCanonical else
      if bool_decide (g ∈ seen) then Some DuplicateGroup else check_groups (g :: seen) groups
  end.
Definition validateExternalIdentity (i : Identity) : option identity_error :=
  if id_UserID i =? 0 then Some ReservedID else
  if bool_decide (TrimSpace (id_Name i) = []) || bool_decide (id_Name i = SuperUserName) then Some ReservedName else
  check_groups [] (id_Groups i).

Section External.
Context (EqualFold : gostring -> gostring -> bool).
(** Files and certificates. *)
Context (ReadFile : gostring -> option bytes) (holds_certificates : bytes -> bool) (LoadX509KeyPair : gostring -> gostring -> bool).
(** Whether a URL makes a request; the answer to a POST with this bearer token,
    if there is one in time; the decoders. *)
Context (url_ok : gostring -> bool).
Context (Post : gostring -> gostring -> AuthenticateRequest + ResolveRequest -> option (Z * bytes)).
Context (decodeEnvelope : bytes -> option envelope) (decodeAuth : bytes -> option AuthData) (decodeResolve : bytes -> option (list ResolveItem)).

Definition externalTLSConfig (cfg : ExternalHTTPConfig) : result ext_error TLSConfig :=
  roots ← (if bool_decide (CACertPath cfg = []) then Ok None else
           match ReadFile (CACertPath cfg) with
           | None => Err ReadCA
           | Some pem => if holds_certificates pem then Ok (Some pem) else Err NoCACertificates
           end);
  if negb (eqb (bool_decide (ClientCertPath cfg = [])) (bool_decide (ClientKeyPath cfg = []))) then Err CertificateAlone else
  if bool_decide (ClientCertPath cfg = []) then Ok (mkTLS roots None) else
  if LoadX509KeyPair (ClientCertPath cfg) (ClientKeyPath cfg) then Ok (mkTLS roots (Some (ClientCertPath cfg, ClientKeyPath cfg))) else Err LoadCertificate.
Definition NewExternalHTTPAuthority (cfg : ExternalHTTPConfig) : result ext_error ExternalHTTPAuthority :=
  let base := trim_slashes (TrimSpace (BaseURL cfg)) in
  if bool_decide (base = []) || bool_decide (TrimSpace (ServiceToken cfg) = []) then Err NotConfigured else
  let timeout := if Timeout cfg <=? 0 then 1500 * Millisecond else Timeout cfg in
  let authenticate := match AuthenticatePath cfg with [] => str "/api/internal/mumble/v1/authenticate" | p => p end in
  let resolve := match ResolvePath cfg with [] => str "/api/internal/mumble/v1/identities/resolve" | p => p end in
  match validateEndpointPath authenticate, validateEndpointPath resolve with
  | Some e, _ => Err (AuthenticatePathInvalid e)
  | None, Some e => Err (ResolvePathInvalid e)
  | None, None =>
      tls ← externalTLSConfig cfg;
      Ok (mkHTTPAuthority base authenticate resolve (TrimSpace (ServiceToken cfg)) timeout tls)
  end.

Implicit Types (a : ExternalHTTPAuthority).

(** [post] up to the decoding of the data of the answer. *)
Definition post a (path : gostring) (input : AuthenticateRequest + ResolveRequest) : result ext_error bytes :=
  if negb (url_ok (baseURL a ++ path)) then Err BadRequest else
  match Post (baseURL a ++ path) (token a) input with
  | None => Err Unreachable
  | Some (status, body) =>
      if negb (status =? 200) then Err (HTTPStatus status) else
      match decodeEnvelope (take (Z.to_nat maxResponseBytes) body) with
      | None => Err DecodeResponse
      | Some env => if negb (Code env =? 0) && negb (Code env =? 200) then Err (AuthorityCode (Code env) (one_line (Msg env))) else Ok (Data env)
      end
  end.
Definition identity_of (d : AuthData) : Identity := mkIdentity true (ad_UserID d) (ad_Name d) (ad_Groups d) (ad_IdentityVersion d) (ad_PolicyVersion d) false.
Definition Authenticate a (req : AuthenticateRequest) : result ext_error AuthenticateResult :=
  data ← post a (authenticatePath a) (inl req);
  match decodeAuth data with
  | None => Err DecodeData
  | Some d =>
      if EqualFold (ad_Decision d) DecisionDeny then Ok denied else
      if negb (EqualFold (ad_Decision d) DecisionAllow) then Err InvalidDecision else
      match validateExternalIdentity (identity_of d) with
      | Some e => Err (InvalidIdentity e)
      | None => Ok (mkAnswer DecisionAllow (identity_of d) [])
      end
  end.
Definition item_identity (it : ResolveItem) : Identity :=
  mkIdentity (it_Eligible it) (it_UserID it) (it_Name it) (it_Groups it) (it_IdentityVersion it) (it_PolicyVersion it) false.
Fixpoint accept_items (items : list ResolveItem) : result ext_error (list Identity) :=
  match items with
  | [] => Ok []
  | it :: items =>
      let i := item_identity it in
      match (if Eligible i then validateExternalIdentity i else None) with
      | Some e => Err (InvalidIdentity e)
      | None => l ← accept_items items; Ok (i :: l)
      end
  end.
Definition Resolve a (req : ResolveRequest) : result ext_error (list Identity) :=
  data ← post a (resolvePath a) (inr req);
  match decodeResolve data with None => Err DecodeData | Some items => accept_items items end.
Definition ok_of {A} (r : result ext_error A) : option A := match r with Ok x => Some x | Err _ => None end.
Definition external_authority a : Authority := mkAuthority (fun req => ok_of (Authenticate a req)) (fun req => ok_of (Resolve a req)) true.

(** ** Lemmas *)

(** What an accepted identity is like. *)
Definition acceptable (i : Identity) : Prop :=
  id_UserID i <> 0 /\ TrimSpace (id_Name i) <> [] /\ id_Name i <> SuperUserName /\
  Forall (fun g => g <> [] /\ TrimSpace g = g) (id_Groups i) /\ NoDup (id_Groups i).
Lemma check_groups_spec groups : forall seen, check_groups seen groups = None <->
  Forall (fun g => g <> [] /\ TrimSpace g = g) groups /\ NoDup groups /\ (forall g, g ∈ groups -> g ∉ seen).
Proof.
  induction groups as [|g groups IH]; intros seen; cbn [check_groups].
  - split; [intros _; split; [done|split; [constructor|by intros g ?%elem_of_nil]]|done].
  - rewrite Forall_cons_iff, list.NoDup_cons. setoid_rewrite elem_of_cons. destruct (bool_decide (TrimSpace g = [])) eqn:E1; cbn [orb].
    { apply bool_decide_eq_true in E1. split; [done|]. intros [[[H1 H2] _] _]. congruence. }
    apply bool_decide_eq_false in E1. destruct (bool_decide (TrimSpace g = g)) eqn:E2; cbn [negb].
    2: { apply bool_decide_eq_false in E2. split; [done|]. by intros [[[_ H2] _] _]. }
    apply bool_decide_eq_true in E2. destruct (bool_decide (g ∈ seen)) eqn:E3.
    { apply bool_decide_eq_true in E3. split; [done|]. intros (_ & _ & H). by destruct (H g); [left|]. }
    apply bool_decide_eq_false in E3. rewrite IH. setoid_rewrite elem_of_cons. split.
    + intros (H1 & H2 & H3). split; [split; [split; congruence|done]|]. split; [split; [|done]; intros Hg; by destruct (H3 g Hg); left|].
      intros x [->|Hx]; [done|]. intros Hs. by destruct (H3 x Hx); right.
    + intros ([_ H1] & [H2 H3] & H4). split; [done|]. split; [done|]. intros x Hx [->|Hs]; [done|]. by destruct (H4 x); [right|].
Qed.
Lemma validate_spec i : validateExternalIdentity i = None <-> acceptable i.
Proof.
  unfold validateExternalIdentity, acceptable. destruct (Z.eqb_spec (id_UserID i) 0) as [E|E]; [by split; [|intros []]|].
  destruct (bool_decide (TrimSpace (id_Name i) = [])) eqn:E1; cbn [orb]; [apply bool_decide_eq_true in E1; by split; [|intros (_ & ? & _)]|].
  destruct (bool_decide (id_Name i = SuperUserName)) eqn:E2; [apply bool_decide_eq_true in E2; by split; [|intros (_ & _ & ? & _)]|].
  apply bool_decide_eq_false in E1, E2. rewrite check_groups_spec. split; [by intros (? & ? & _)|].
  intros (_ & _ & _ & H1 & H2). split; [done|]. split; [done|]. by intros g _ ?%elem_of_nil.
Qed.

(** The service answered in time, with success, and with this data. *)
Definition answered a (path : gostring) (input : AuthenticateRequest + ResolveRequest) (data : bytes) : Prop :=
  url_ok (baseURL a ++ path) = true /\ exists body env, Post (baseURL a ++ path) (token a) input = Some (200, body) /\
    decodeEnvelope (take (Z.to_nat maxResponseBytes) body) = Some env /\ (Code env = 0 \/ Code env = 200) /\ data = Data env.
Lemma post_spec a path input data : post a path input = Ok data <-> answered a path input data.
Proof.
  unfold post, answered. destruct (url_ok _); cbn [negb]; [|by split; [|intros []]]. split.
  - destruct (Post _ _ _) as [[status body]|] eqn:E; [|done]. destruct (Z.eqb_spec status 200) as [->|]; cbn [negb]; [|done].
    destruct (decodeEnvelope _) as [env|] eqn:E2; [|done]. destruct (Z.eqb_spec (Code env) 0), (Z.eqb_spec (Code env) 200); cbn [negb andb]; try done;
      intros [= <-]; (split; [done|]; exists body, env; auto).
  - intros (_ & body & env & -> & -> & [Hc|Hc] & ->); rewrite Hc; done.
Qed.

(** The external authority lets somebody in just when the service was reached,
    answered with status 200 and code 0 or 200 within the limit, and said so in
    as many words for an identity that is acceptable: it has a number, a name
    that is not blank and not SuperUser, and groups that are canonical and
    different. It never makes a super user, and every other outcome is a refusal
    or an error. *)
Theorem external_authentication_exact a req i :
  (Authenticate a req = Ok (mkAnswer DecisionAllow i []) <->
   exists data d, answered a (authenticatePath a) (inl req) data /\ decodeAuth data = Some d /\
     EqualFold (ad_Decision d) DecisionDeny = false /\ EqualFold (ad_Decision d) DecisionAllow = true /\
     i = identity_of d /\ acceptable i) /\
  (forall res, Authenticate a req = Ok res -> res = denied \/ exists i, res = mkAnswer DecisionAllow i [] /\ id_IsSuperUser i = false).
Proof.
  unfold Authenticate. split.
  - split.
    + destruct (post a _ _) as [data|] eqn:E; [|done]. cbn [mbind result_bind]. apply post_spec in E. destruct (decodeAuth data) as [d|] eqn:Ed; [|done].
      destruct (EqualFold _ DecisionDeny) eqn:E1; [intros H; unfold denied in H; vm_compute in H; discriminate H|].
      destruct (EqualFold _ DecisionAllow) eqn:E2; cbn [negb]; [|done]. destruct (validateExternalIdentity _) as [e|] eqn:E3; [done|].
      apply validate_spec in E3. intros [= <-]. by exists data, d.
    + intros (data & d & H & Hd & E1 & E2 & -> & Hi). apply post_spec in H as ->. cbn [mbind result_bind]. rewrite Hd, E1, E2. cbn [negb].
      apply validate_spec in Hi as ->. done.
  - intros res. destruct (post a _ _) as [data|]; [|done]. cbn [mbind result_bind]. destruct (decodeAuth data) as [d|]; [|done].
    destruct (EqualFold _ DecisionDeny); [intros [= <-]; by left|]. destruct (EqualFold _ DecisionAllow); cbn [negb]; [|done].
    destruct (validateExternalIdentity _); [done|]. intros [= <-]. right. by eexists.
Qed.

(** Whom the service finds eligible is acceptable, or there is no answer. *)
Theorem external_resolution_sound a req l : Resolve a req = Ok l -> Forall (fun i => (Eligible i = true -> acceptable i) /\ id_IsSuperUser i = false) l.
Proof.
  unfold Resolve. destruct (post a _ _) as [data|]; [|done]. cbn [mbind result_bind]. destruct (decodeResolve data) as [items|]; [|done].
  revert l. induction items as [|it items IH]; intros l; cbn [accept_items]; [by intros [= <-]|]. cbv zeta.
  destruct (if Eligible (item_identity it) then _ else _) as [e|] eqn:E; [done|]. destruct (accept_items items) as [k|]; [|done]. cbn [mbind result_bind].
  intros [= <-]. constructor; [|by apply IH]. split; [|done]. intros He. rewrite He in E. by apply validate_spec.
Qed.

(** The token goes to the two paths of the configured service and nowhere else. *)
Definition proper_path (p : gostring) : Prop := (exists c r, p = 47 :: c :: r /\ c <> 47) \/ p = [47].
Lemma validateEndpointPath_spec p : validateEndpointPath p = None -> proper_path p /\ 63 ∉ p /\ 35 ∉ p.
Proof.
  assert (forall q, validateEndpointPath (47 :: q) = None -> proper_path (47 :: q) /\ 63 ∉ (47 :: q) /\ 35 ∉ (47 :: q)) as K.
  { intros q. assert (forall x : gostring, (if bool_decide (63 ∈ x) || bool_decide (35 ∈ x) then Some QueryOrFragment else None) = None -> 63 ∉ x /\ 35 ∉ x) as Kq.
    { intros x. destruct (bool_decide (63 ∈ x)) eqn:E1, (bool_decide (35 ∈ x)) eqn:E2; try done. apply bool_decide_eq_false in E1, E2. done. }
    destruct q as [|c q].
    - intros H. split; [by right|]. by apply Kq.
    - destruct (Z.eq_dec c 47) as [->|Hc]; [done|]. intros H. split; [left; by exists c, q|]. apply Kq.
      unfold validateEndpointPath in H. destruct c as [|c|c]; try exact H. do 6 (destruct c as [c|c|]; try exact H). done. }
  intros H. destruct p as [|c p]; [done|]. destruct (Z.eq_dec c 47) as [->|Hc]; [by apply K|].
  exfalso. unfold validateEndpointPath in H. destruct c as [|c|c]; try done. do 6 (destruct c as [c|c|]; try done).
Qed.
Theorem endpoints_stay cfg a : NewExternalHTTPAuthority cfg = Ok a ->
  proper_path (authenticatePath a) /\ proper_path (resolvePath a) /\ baseURL a <> [] /\ token a <> [] /\ 0 < client_Timeout a /\
  (Certificates (client_TLS a) = None <-> ClientCertPath cfg = []).
Proof.
  unfold NewExternalHTTPAuthority. cbv zeta. destruct (bool_decide (trim_slashes _ = [])) eqn:E1; [done|]. destruct (bool_decide (TrimSpace _ = [])) eqn:E2; [done|]. cbn [orb].
  apply bool_decide_eq_false in E1, E2. destruct (validateEndpointPath (match AuthenticatePath cfg with [] => _ | _ => _ end)) as [|] eqn:E3; [done|].
  destruct (validateEndpointPath (match ResolvePath cfg with [] => _ | _ => _ end)) as [|] eqn:E4; [done|].
  destruct (externalTLSConfig cfg) as [tls|] eqn:E5; [|done]. cbn [mbind result_bind]. intros [= <-]. cbn [authenticatePath resolvePath baseURL token client_Timeout client_TLS].
  split; [apply validateEndpointPath_spec in E3 as [? _]; done|]. split; [by apply validateEndpointPath_spec in E4 as [? _]|]. split; [done|]. split; [done|].
  split; [destruct (Z.leb_spec (Timeout cfg) 0); [done|lia]|].
  revert E5. unfold externalTLSConfig. destruct (if bool_decide (CACertPath cfg = []) then _ else _) as [roots|]; [|done]. cbn [mbind result_bind].
  destruct (negb (eqb _ _)); [done|]. destruct (bool_decide (ClientCertPath cfg = [])) eqn:E6; [apply bool_decide_eq_true in E6; by intros [= <-]|].
  apply bool_decide_eq_false in E6. destruct (LoadX509KeyPair _ _); [|done]. by intros [= <-].
Qed.

(** ** Logging in through the service *)

Context (ToLower : gostring -> gostring) {DB BDB : Type} (lcfg : Login.Config).
(** C8: a server in external mode lets in only somebody whom the service, asked
    about exactly these credentials and a password that is not empty, allows as
    an acceptable identity; while the service is down, slow, or answers anything
    else, nobody gets in. *)
Theorem external_admission_sound a (t : SessionHandlers.Site DB BDB) ip username password certHash remoteIP i :
  Login.admission ToLower lcfg (Some (external_authority a)) t ip username password certHash remoteIP = Ok i ->
  password <> [] /\ acceptable i /\ id_IsSuperUser i = false /\
  exists data d, answered a (authenticatePath a) (inl (mkRequest (Login.cfg_ServerInstanceID lcfg) username password certHash remoteIP)) data /\
    decodeAuth data = Some d /\ EqualFold (ad_Decision d) DecisionAllow = true /\ i = identity_of d.
Proof.
  unfold Login.admission. destruct (Ban.IsBanned _ _ _ _); [done|]. destruct (bool_decide (username = [])); [done|]. destruct (SnapshotByName _ _); [done|].
  destruct (_ && _); [done|]. cbn [External external_authority andb]. destruct (bool_decide (password = [])) eqn:Ep; [done|]. apply bool_decide_eq_false in Ep.
  cbn [Identity.Authenticate external_authority]. set (req := mkRequest _ _ _ _ _).
  destruct (external_authentication_exact a req i) as [H1 H2]. destruct (Authenticate a req) as [res|] eqn:E; [|done]. cbn [ok_of].
  destruct (H2 res eq_refl) as [->|(j & -> & Hj)]; [done|]. cbn [Decision res_Identity]. rewrite bool_decide_eq_true_2 by done. cbn [negb].
  destruct (negb (Eligible j) || _); [done|]. intros [= ->]. destruct (proj1 H1 eq_refl) as (data & d & Ha & Hd & _ & Hallow & Hi & Hacc).
  split; [done|]. split; [done|]. split; [done|]. by exists data, d.
Qed.
End External.
End ExternalAuthority.
