(* ===== verification/ExternalSample.v ===== *)
(** * An identity service that answers

    The theorems of [ExternalAuthority] applied to a service that knows one
    person, and to the server of [HandlerSample]. *)

From Stdlib Require Import ZArith Lia String.
From stdpp Require Import base numbers list gmap sets option.
From S2P Require Import Prelude Wire Fields Messages Codec Registry UserManager ChannelManager ChannelTable Acl AclSample VoiceSample Ban ServerState SessionHandlers HandlerSample Identity Login ExternalAuthority.

Module ExternalSample.
Import ChannelTable Acl AclSample VoiceSample ServerState SessionHandlers HandlerSample Identity ExternalAuthority.

(** The data of an answer: a byte that says what it is. *)
Definition toyEnvelope (b : bytes) : option envelope :=
  match b with
  | [1] | [2] | [3] | [4] => Some (mkEnvelope 200 [] b)
  | [5] => Some (mkEnvelope 503 (str "try later") [1])
  | _ => None
  end.
Definition person (decision name : string) (id : Z) : AuthData := mkAuthData (str decision) id (str name) [str "pilots"] 3 7.
Definition toyAuth (b : bytes) : option AuthData :=
  match b with
  | [1] => Some (person "Allow" "Ann Lee" 173)
  | [2] => Some (person "deny" "" 0)
  | [3] => Some (person "allow" "SuperUser" 174)
  | [4] => Some (person "allow" "Mallory" (2 ^ 31 + 1))
  | _ => None
  end.
Definition toyResolve (b : bytes) : option (list ResolveItem) := Some [mkItem true 173 (str "Ann Lee") [] 3 7; mkItem false 0 [] [] 0 0].
Definition service (url tok : gostring) (req : AuthenticateRequest + ResolveRequest) : option (Z * bytes) :=
  if negb (bool_decide (tok = str "t0ken")) then Some (401, []) else
  match req with
  | inl q =>
      if bool_decide (Username q = str "ann") && bool_decide (Password q = str "secret") then Some (200, [1]) else
      if bool_decide (Username q = str "super") then Some (200, [3]) else
      if bool_decide (Username q = str "mal") then Some (200, [4]) else
      if bool_decide (Username q = str "busy") then Some (200, [5]) else
      if bool_decide (Username q = str "late") then None else Some (200, [2])
  | inr _ => Some (200, [1])
  end.
Notation authenticate := (Authenticate fold_ascii (fun _ => true) service toyEnvelope toyAuth).
Notation external := (external_authority fold_ascii (fun _ => true) service toyEnvelope toyAuth toyResolve).

Definition settings (path : string) : ExternalHTTPConfig := mkHTTPConfig (str " https://id.example// ") (str path) [] (str " t0ken ") 0 [] [] [].
Notation New := (NewExternalHTTPAuthority (fun _ => None) (fun _ => false) (fun _ _ => false)).
Definition client : ExternalHTTPAuthority :=
  match New (settings "/custom/authenticate") with Ok a => a | Err _ => mkHTTPAuthority [] [] [] [] 0 (mkTLS None None) end.
Example client_made : client = mkHTTPAuthority (str "https://id.example") (str "/custom/authenticate") (str "/api/internal/mumble/v1/identities/resolve") (str "t0ken")
  (1500 * Millisecond) (mkTLS None None).
Proof. vm_compute. reflexivity. Qed.
Example unsafe_paths : map (fun p => New (settings p)) ["https://other.example/authenticate"; "//other.example/authenticate"; "/authenticate?token=leak"]%string =
  [Err (AuthenticatePathInvalid NotAbsolute); Err (AuthenticatePathInvalid NotAbsolute); Err (AuthenticatePathInvalid QueryOrFragment)].
Proof. vm_compute. reflexivity. Qed.
Lemma endpoints_stay_witness : proper_path (authenticatePath client) /\ token client <> [].
Proof.
  destruct (endpoints_stay (fun _ => None) (fun _ => false) (fun _ _ => false) (settings "/custom/authenticate") client) as (H1 & _ & _ & H2 & _); [vm_compute; reflexivity|].
  split; [exact H1|exact H2].
Defined.

Definition ask (name : string) : result ext_error AuthenticateResult := authenticate client (mkRequest [] (str name) (str "secret") [] []).
Example outcomes : map ask ["eve"; "super"; "busy"; "late"]%string =
  [Ok denied; Err (InvalidIdentity ReservedName); Err (AuthorityCode 503 (str "try later")); Err Unreachable].
Proof. vm_compute. reflexivity. Qed.
(** A number of the service may be that of an account of the management
    interface: only 0 is reserved. *)
Example borrowed_account : (exists i, ask "mal" = Ok (mkAnswer DecisionAllow i []) /\ id_UserID i = MakeAPIUserID 1) /\ APIUserIDToDBID (MakeAPIUserID 1) = 1.
Proof. split; [eexists; split; [vm_compute; reflexivity|vm_compute; reflexivity]|vm_compute; reflexivity]. Qed.

Definition limits : Login.Config := Login.mkConfig 10 72000 (str "hi") (str "voice-01").
Definition welcome (name password : string) : result (Z * gostring) Identity :=
  Login.admission id limits (Some (external client)) site4 None (str name) (str password) [] [].
Example no_password : welcome "ann" "" = Err (Login.RejectWrongServerPW, str "Password required").
Proof. vm_compute. reflexivity. Qed.
Lemma external_admission_sound_witness : exists i, welcome "ann" "secret" = Ok i /\ acceptable i /\ id_Name i = str "Ann Lee".
Proof.
  destruct (welcome "ann" "secret") as [i|] eqn:E; [|exfalso; vm_compute in E; discriminate E].
  destruct (external_admission_sound fold_ascii (fun _ => true) service toyEnvelope toyAuth toyResolve id limits client site4 None (str "ann") (str "secret") [] [] i E)
    as (_ & Hi & _ & data & d & _).
  exists i. split; [reflexivity|]. split; [exact Hi|]. vm_compute in E. injection E as <-. reflexivity.
Defined.
Lemma external_resolution_sound_witness : exists l, Resolve (fun _ => true) service toyEnvelope toyResolve client (mkResolve [173] []) = Ok l /\
  Forall (fun i => (Eligible i = true -> acceptable i) /\ id_IsSuperUser i = false) l.
Proof.
  destruct (Resolve (fun _ => true) service toyEnvelope toyResolve client (mkResolve [173] [])) as [l|] eqn:E; [|exfalso; vm_compute in E; discriminate E].
  exists l. split; [reflexivity|]. exact (external_resolution_sound (fun _ => true) service toyEnvelope toyResolve client (mkResolve [173] []) l E).
Defined.
End ExternalSample.
