(* ===== verification/SiteInvariant.v ===== *)
(** * What every call keeps

    The invariant [site_ok] of the whole server: its parts are sound, every
    user is in a channel of the tree, and every user belongs to a session of
    the registry. Every entry of the server keeps it, whatever it is given: the
    handlers of the control messages, the ends of sessions, the calls of the
    REST interface and those of remote edges. *)

From Stdlib Require Import ZArith Lia String.
From stdpp Require Import base numbers list gmap sets option.
From S2P Require Import Prelude Wire Fields Messages Codec Registry UserManager ChannelManager Acl AclCache Listeners VoiceState VoiceServer Ban RateLimit ServerState UserStateHandler TextHandlers ChannelHandlers SessionHandlers UdpIngress Identity Login Revalidation.

Module SiteInvariant.
Import Acl AclCache Listeners VoiceFlags RateLimit VoiceServer ServerState UserStateHandler TextHandlers ChannelHandlers SessionHandlers Identity Login Revalidation.

Section Invariant.
Context (EqualFold : gostring -> gostring -> bool).
Context `{SO : Channels.Sorter} {DB TX : Type} `{CS : Channels.ChannelStore DB TX}.
Context (ord : nat -> Channels.order) (Hord : forall i, Channels.order_ok (ord i)).
Context (ToLower : gostring -> gostring) (ParseTime : gostring -> Z) (FormatTime : Z -> gostring) (ParseIP : gostring -> option bytes).
Context {BDB : Type} `{BS : Ban.BanStore BDB}.
Implicit Types (s : Server DB) (c : Core DB) (t : Site DB BDB).
Notation live := (live_ok EqualFold).
Notation ok := (site_ok EqualFold).

Definition with_core t c : Site DB BDB := t <| core := c |>.

(** ** Changes that leave everybody where they are *)

Lemma same_server_ok t t' : server t' = server t -> ok t -> ok t'.
Proof. intros E [L Lc R]. split; by rewrite E. Qed.
Lemma same_users_ok t s : ok t -> live s -> srv_chans s = srv_chans (server t) -> srv_registry s = srv_registry (server t) ->
  (forall sid u', Snapshot (srv_users s) sid = Some u' -> exists u, Snapshot (srv_users (server t)) sid = Some u /\
     User.SessionGeneration u' = User.SessionGeneration u /\ is_Some (Channels.GetChannel (srv_chans s) (User.ChannelID u'))) -> ok (with_server t s).
Proof.
  intros [L [Lu Lr] R] L' Ec Er HU. split; cbn; [done|split|].
  - intros sid u' Hu. by destruct (HU sid u' Hu) as (u & _ & _ & ?).
  - by rewrite Ec.
  - intros sid u' Hu. cbn. destruct (HU sid u' Hu) as (u & Hu0 & -> & _). rewrite Er. by apply R.
Qed.
Lemma with_server_core t s c : srv c = s -> ok (with_server t s) -> ok (with_core t c).
Proof. intros E. apply same_server_ok. unfold server, with_core, with_server. cbn. done. Qed.
(** A user that changes without moving. *)
Lemma updateUser_ok t sid fn : ok t -> keeps_session fn -> keeps_name fn -> (forall u, User.ChannelID (fn u) = User.ChannelID u) ->
  ok (with_server t (updateUser (server t) sid fn).1).
Proof.
  intros S Hs Hn Hc. pose proof (updateUser_exact EqualFold (server t) sid fn (so_live _ _ S) Hs Hn) as H. destruct (updateUser _ _ _) as [s o]. destruct H as (_ & L & (Q1 & Q2 & _) & _ & _ & HS).
  apply same_users_ok; [done|done|done|done|]. intros sid' u'. rewrite HS. cbn [fst]. rewrite Q1. case_decide as Hd.
  - destruct (Snapshot (srv_users (server t)) sid) as [u|] eqn:Hu; [|done]. intros [= <-]. subst sid'. exists u. split; [done|]. rewrite (settled_frame fn u). cbn. split; [done|]. rewrite Hc. by apply (lc_users _ (so_located _ _ S) sid).
  - intros Hu. exists u'. split; [done|]. split; [done|]. by apply (lc_users _ (so_located _ _ S) sid').
Qed.

(** ** Handlers of control messages *)

Lemma handleUserState_ok now t rf payload : ok t -> ok (with_core t (handleUserState EqualFold now (core t) rf payload).1.1).
Proof.
  intros S. pose proof (handleUserState_exact EqualFold now (core t) rf payload (so_live _ _ S)) as H. destruct (handleUserState _ _ _ _ _) as [[c es] err].
  destruct H as (_ & (Q1 & Q2 & _) & L & _ & H). apply (with_server_core _ (srv c)); [done|]. apply same_users_ok; [done|done|done|done|].
  intros sid u' Hu'. destruct (H sid) as [E|(sender & u & v & _ & Hu & Hv & A)].
  - exists u'. rewrite E in Hu'. split; [done|]. split; [done|]. rewrite Q1. by apply (lc_users _ (so_located _ _ S) sid).
  - assert (v = u') as -> by (cbn in *; congruence). exists u. split; [done|]. split; [by rewrite (au_frame _ _ _ _ _ _ A)|]. rewrite Q1.
    destruct (decide (User.ChannelID u' = User.ChannelID u)) as [->|Hn]; [by apply (lc_users _ (so_located _ _ S) sid)|by apply (au_move _ _ _ _ _ _ A)].
Qed.
Lemma only_chans_ok t c : ok t -> live (srv c) -> located (srv c) -> only_chans (server t) (srv c) -> ok (with_core t c).
Proof. intros [L Lc R] L' Lc' (E & Er & _). split; [done|done|]. intros sid u. change (server (with_core t c)) with (srv c). rewrite E, Er. apply R. Qed.
Lemma handleChannelState_ok t rf payload : ok t -> ok (with_core t (handleChannelState EqualFold ord (core t) rf payload).1.1).
Proof.
  intros S. pose proof (handleChannelState_exact EqualFold ord Hord (core t) rf payload (so_live _ _ S) (so_located _ _ S)) as H. destruct (handleChannelState _ _ _ _ _) as [[c es] err].
  destruct H as (L & Lc & _ & O & _). by apply only_chans_ok.
Qed.
Lemma handleChannelRemove_ok t rf payload : ok t -> ok (with_core t (handleChannelRemove EqualFold ord (core t) rf payload).1.1).
Proof.
  intros S. pose proof (handleChannelRemove_exact EqualFold ord Hord (core t) rf payload (so_live _ _ S) (so_located _ _ S)) as H. destruct (handleChannelRemove _ _ _ _ _) as [[c es] err].
  destruct H as (L & Lc & _ & H). destruct H as [[-> _]|(cr & u & ch & gone & _ & _ & _ & _ & _ & [_ (Er & _) U O _ _ _] & _)]; [by apply same_server_ok with t|].
  split; [done|done|]. intros sid u' Hu'. change (server (with_core t (c, es, err).1.1)) with (srv c) in *. rewrite Er. destruct (Snapshot (srv_users (srv (core t))) sid) as [v|] eqn:Hv.
  - destruct (decide (User.ChannelID v = ChannelRemove.ChannelID cr)) as [Hc|Hc].
    + destruct (U sid v Hv Hc) as (w & Hw & M). assert (w = u') as -> by congruence. destruct M as (may & r & ->). cbn. by apply (so_registered _ _ S).
    + rewrite O in Hu' by (intros w; rewrite Hv; by intros [= <-]). assert (u' = v) as -> by congruence. by apply (so_registered _ _ S).
  - rewrite O in Hu' by (intros w; by rewrite Hv). congruence.
Qed.

Lemma handleTextMessage_server now c rf payload : srv (handleTextMessage EqualFold now c rf payload).1.1 = srv c.
Proof.
  unfold handleTextMessage, checkTextRateLimit. destruct (negb _); [done|]. destruct (TextMessage.Unmarshal _ _) as [tm [e|]]; [done|]. destruct (Snapshot _ _) as [u|]; [|done].
  destruct (rateLimitAllows _ _ _ _) as [l b]. destruct (negb b); [done|]. destruct (too_long _ _); [done|]. by destruct (text_denied _ _ _ _).
Qed.
Lemma handleTextMessage_ok now t rf payload : ok t -> ok (with_core t (handleTextMessage EqualFold now (core t) rf payload).1.1).
Proof. apply same_server_ok. unfold server, with_core. cbn. apply handleTextMessage_server. Qed.
Lemma handleVoiceTarget_ok t rf payload : ok t -> ok (with_core t (handleVoiceTarget (core t) rf payload).1).
Proof.
  intros S. unfold handleVoiceTarget. destruct (negb _); [by apply same_server_ok with t|]. destruct (VoiceTarget.Unmarshal _ _) as [vt [e|]]; [by apply same_server_ok with t|].
  destruct (_ || _); [by apply same_server_ok with t|]. cbn [fst]. apply (with_server_core _ (storeVoiceTarget (srv (core t)) rf vt)); [done|].
  rewrite storeVoiceTarget_known. case_decide; [|by apply same_server_ok with t]. cbn zeta. destruct S as [[[O1 O2 O3 O4 O5] L1 L2 L3] [Lu Lr] R]. split; [split; [split|..]|split|]; done.
Qed.
Lemma handleBanList_ok now t rf payload : ok t -> ok (handleBanList EqualFold ToLower ParseTime FormatTime now t rf payload).1.
Proof.
  intros S. unfold handleBanList. destruct (negb _); [done|]. destruct (Snapshot _ _) as [u|]; [|done]. destruct (negb _); [done|].
  destruct (if BanList.Query _ then _ else _) as [b k]. destruct (negb k); by apply same_server_ok with t.
Qed.

(** ** Sessions that end *)

Lemma UnregisterConn_registry t rf : live (server t) -> forall rf', rf' <> rf ->
  Registry.Snapshot (srv_registry (server (UnregisterConn ord t rf).1.1)) rf' = Registry.Snapshot (srv_registry (server t)) rf'.
Proof.
  intros L rf' Hn. unfold UnregisterConn. destruct (negb _); [done|]. pose proof (CloseAndUnbind_exact _ rf (ok_registry _ _ (lo_server _ _ L))) as H. destruct (CloseAndUnbind _ rf) as [r o].
  destruct H as (_ & H & _). assert (forall s, srv_registry (cleanEmptyTempChannels ord s) = srv_registry s) as Hc by (intros s; unfold cleanEmptyTempChannels; by case_match; [case_match|]).
  destruct o; cbn; rewrite Hc; by apply H.
Qed.
Lemma cleaned_located' s s' : srv_users s' = srv_users s -> cleaned s s' -> located s -> located s'.
Proof.
  intros E [C1 C2] [Lu Lr]. split.
  - intros sid u. rewrite E. intros Hu. destruct (Lu sid u Hu) as [ch Hc]. destruct (Channels.GetChannel (srv_chans s') (User.ChannelID u)) eqn:Hn; [by eexists|].
    destruct (C2 _ _ Hc Hn) as (_ & _ & H). by destruct (H sid u Hu).
  - intros ch Hc. apply Lr. by apply C1.
Qed.

Lemma UnregisterConn_stale t rf : ok t -> SnapshotRef (srv_users (server t)) rf = None ->
  ok (UnregisterConn ord t rf).1.1 /\ srv_users (server (UnregisterConn ord t rf).1.1) = srv_users (server t).
Proof.
  intros [L Lc R] Hn. destruct (Valid rf) eqn:Hv; [|unfold UnregisterConn; by rewrite Hv].
  pose proof (UnregisterConn_exact EqualFold ord Hord t rf L Hv) as H. pose proof (UnregisterConn_registry t rf L) as HR. destruct (UnregisterConn ord t rf) as [[t1 e] ann]. cbn [fst] in *.
  destruct H as (L1 & E1 & _ & C & _). split; [|done]. split; [done|by apply (cleaned_located' (server t))|].
  intros sid u. rewrite E1. intros Hu. rewrite HR; [by apply R|]. intros <-. rewrite (SnapshotRef_of _ _ _ Hu) in Hn. done.
Qed.
Lemma removeIfGeneration_stale s rf : live s -> SnapshotRef (srv_users s) rf = None -> (removeIfGeneration s rf).2 = None /\ (removeIfGeneration s rf).1 = s.
Proof.
  intros L Hn. unfold removeIfGeneration, RemoveIfGeneration, remove, SnapshotRef in *. destruct (user_at (srv_users s) (SessionID rf)) as [[l u]|]; [|split; [done|]; apply with_users_id].
  cbn [andb]. destruct (User.SessionGeneration u =? Generation rf); [done|]. cbn. split; [done|]. apply with_users_id.
Qed.
(** A session is somebody's or nobody's. *)
Lemma session_cases t rf : ok t -> SnapshotRef (srv_users (server t)) rf = None \/
  exists u, SnapshotRef (srv_users (server t)) rf = Some u /\ Snapshot (srv_users (server t)) (SessionID rf) = Some u /\ Generation rf = User.SessionGeneration u /\ SessionID rf <> 0.
Proof.
  intros S. destruct (SnapshotRef (srv_users (server t)) rf) as [u|] eqn:E; [right|by left]. exists u. rewrite SnapshotRef_Snapshot in E.
  destruct (Snapshot _ (SessionID rf)) as [v|] eqn:Hv; [|done]. destruct (Z.eqb_spec (User.SessionGeneration v) (Generation rf)); [|done]. injection E as ->.
  split; [done|]. split; [done|]. split; [done|]. eapply Snapshot_positive; [apply S|exact Hv].
Qed.
Lemma OnClose_ok t rf : ok t -> ok (OnClose ord t rf).1.
Proof.
  intros S. destruct (session_cases t rf S) as [Hn|(u & _ & Hu & Hg & H0)].
  - unfold OnClose. destruct (negb _); [done|]. destruct (UnregisterConn_stale t rf S Hn) as [S1 E1]. destruct (UnregisterConn ord t rf) as [[t1 e] ann]. cbn [fst] in *.
    destruct (removeIfGeneration_stale (server t1) rf (so_live _ _ S1) ltac:(by rewrite E1)) as [H1 H2]. destruct (removeIfGeneration _ _) as [s o]. cbn [fst snd] in *. subst. by rewrite with_server_id.
  - eapply ended_ok; [|exact S]. by apply (OnClose_exact EqualFold ord ToLower ParseTime FormatTime ParseIP Hord t rf u S H0 Hu Hg).
Qed.
Lemma announce_removal_ok t rf ur : ok t -> ok (announce_removal t rf ur).1 /\ srv_users (server (announce_removal t rf ur).1) = srv_users (server t).
Proof.
  intros [L Lc R]. pose proof (announce_removal_exact EqualFold t rf ur L) as H. destruct (announce_removal t rf ur) as [t1 e]. destruct H as (r & -> & W & H1 & H2 & _).
  split; [|done]. split; [by apply with_registry_ok|by destruct Lc|]. intros sid u Hu. cbn. destruct (decide (mkRef sid (User.SessionGeneration u) = rf)) as [E|Hn].
  - rewrite E. apply H2. rewrite <- E. by apply R.
  - rewrite H1 by done. by apply R.
Qed.
Lemma controlFailed_ok t rf : ok t -> ok (controlFailed ord t rf).1.
Proof.
  intros S. destruct (session_cases t rf S) as [Hn|(u & _ & Hu & Hg & H0)].
  - unfold controlFailed. pose proof (announce_removal_ok t rf (UserRemove.zero <| UserRemove.Session := SessionID rf |>) S) as [S0 E0]. destruct (announce_removal _ _ _) as [t0 e0]. cbn [fst] in *.
    destruct (UnregisterConn_stale t0 rf S0 ltac:(by rewrite E0)) as [S1 E1]. destruct (UnregisterConn ord t0 rf) as [[t1 e] ann]. cbn [fst] in *.
    destruct (removeIfGeneration_stale (server t1) rf (so_live _ _ S1) ltac:(by rewrite E1, E0)) as [H1 H2]. destruct (removeIfGeneration _ _) as [s o]. cbn [fst snd] in *. subst. by rewrite with_server_id.
  - eapply ended_ok; [|exact S]. by apply (controlFailed_exact EqualFold ord ToLower ParseTime FormatTime ParseIP Hord t rf u S H0 Hu Hg).
Qed.
Lemma KickSession_ok t sid reason : ok t -> ok (KickSession ord t sid reason).1.1.
Proof.
  intros S. unfold KickSession. destruct (Snapshot _ sid) as [u|] eqn:Hu; [|done]. eapply ended_ok; [|exact S].
  apply (KickSessionRef_exact EqualFold ord ToLower ParseTime FormatTime ParseIP Hord t (mkRef sid (User.SessionGeneration u)) u reason S); [|done|done]. by eapply Snapshot_positive; [apply S|].
Qed.
Lemma BanAndKickSession_ok now t connIP sid reason : ok t -> ok (BanAndKickSession ord ToLower ParseTime FormatTime ParseIP now t connIP sid reason).1.1.
Proof.
  intros S. unfold BanAndKickSession. destruct (Snapshot _ sid) as [u|] eqn:Hu; [|done]. set (t0 := ban_session _ _ _ _ _ _ _ _ _).
  assert (server t0 = server t) as E0 by (unfold server, t0; by rewrite (proj1 (ban_session_frame _ _ _ _ _ _ _ _ _))).
  pose proof (removal_exact EqualFold ord ToLower ParseTime FormatTime ParseIP Hord t0 (mkRef sid (User.SessionGeneration u)) u (user_remove sid 0 reason true) (same_server_ok t t0 E0 S)) as X.
  rewrite E0 in X. specialize (X ltac:(by eapply Snapshot_positive; [apply S|]) Hu eq_refl). destruct (announce_removal t0 _ _) as [t1 e1]. destruct (expel ord t1 _ _ _) as [t2 e2].
  cbn [fst]. eapply ended_ok; [apply X|]. by apply (same_server_ok t).
Qed.
Lemma MuteSession_ok t sid mute : ok t -> ok (with_server t (MuteSession (server t) sid mute).1.1).
Proof.
  intros S. unfold MuteSession. set (fn := fun u => u <| User.Voice := _ |>). pose proof (updateUser_ok t sid fn S ltac:(done) ltac:(done) ltac:(done)) as H.
  destruct (updateUser (server t) sid fn) as [s [u|]]; done.
Qed.

(** ** Edges that go *)

Lemma with_voice_ok t v : ok t -> ok (with_server t ((server t) <| voice := v |>)).
Proof. intros [[[O1 O2 O3 O4 O5] L1 L2 L3] [Lu Lr] R]. split; [split; [split|..]|split|]; done. Qed.
Lemma EdgeConnected_ok t i : ok t -> ok (EdgeConnected t i).
Proof. intros S. unfold EdgeConnected. destruct (EdgeGeneration _ _); [|done]. destruct (_ =? _); [|done]. by apply with_voice_ok. Qed.
(** [t'] is [t] after the sessions [rfs] ended: the others are as before. *)
Record fewer (rfs : list SessionRef) t t' : Prop := {
  fw_ok : ok t';
  fw_left : forall sid u, Snapshot (srv_users (server t')) sid = Some u <-> Snapshot (srv_users (server t)) sid = Some u /\ mkRef sid (User.SessionGeneration u) ∉ rfs;
  fw_sessions : forall sid u, Snapshot (srv_users (server t')) sid = Some u ->
    Registry.Snapshot (srv_registry (server t')) (mkRef sid (User.SessionGeneration u)) = Registry.Snapshot (srv_registry (server t)) (mkRef sid (User.SessionGeneration u));
  fw_edges : edges (srv_registry (server t')) = edges (srv_registry (server t)) }.
Lemma fewer_refl t : ok t -> fewer [] t t.
Proof. split; [done| |done|done]. intros sid u. pose proof (not_elem_of_nil (mkRef sid (User.SessionGeneration u))). naive_solver. Qed.
Lemma fewer_trans rfs1 rfs2 t1 t2 t3 : fewer rfs1 t1 t2 -> fewer rfs2 t2 t3 -> fewer (rfs1 ++ rfs2) t1 t3.
Proof.
  intros [A1 A2 A3 A4] [B1 B2 B3 B4]. split; [done| | |congruence].
  - intros sid u. rewrite B2, A2, not_elem_of_app. tauto.
  - intros sid u Hu. rewrite B3 by done. apply A3. by apply B2 in Hu as [? _].
Qed.
Lemma CloseAndUnbind_edges r rf : edges (CloseAndUnbind r rf).1 = edges r.
Proof. unfold CloseAndUnbind, close_section, unbind. by repeat case_match; simplify_eq. Qed.
Lemma UnregisterConn_edges t rf : edges (srv_registry (server (UnregisterConn ord t rf).1.1)) = edges (srv_registry (server t)).
Proof.
  unfold UnregisterConn. destruct (negb _); [done|]. pose proof (CloseAndUnbind_edges (srv_registry (server t)) rf) as H. destruct (CloseAndUnbind _ rf) as [r o]. cbn in H.
  assert (forall s, srv_registry (cleanEmptyTempChannels ord s) = srv_registry s) as Hc by (intros s; unfold cleanEmptyTempChannels; by case_match; [case_match|]).
  destruct o; cbn; by rewrite Hc.
Qed.
Lemma cleanupRemote_exact t rf : ok t -> fewer [rf] t (cleanupRemote ord t rf).1.
Proof.
  intros S. unfold cleanupRemote. pose proof (UnregisterConn_edges t rf) as He. destruct (session_cases t rf S) as [Hn|(u & Hr & Hu & Hg & H0)].
  - rewrite Hn. destruct (UnregisterConn_stale t rf S Hn) as [S1 E1]. pose proof (UnregisterConn_registry t rf (so_live _ _ S)) as HR. destruct (UnregisterConn ord t rf) as [[t1 e] ann]. cbn [fst] in *.
    destruct (removeIfGeneration_stale (server t1) rf (so_live _ _ S1) ltac:(by rewrite E1)) as [H1 H2]. destruct (removeIfGeneration _ _) as [s o]. cbn [fst snd] in *. subst o s. cbn [Z.eqb negb].
    rewrite !with_server_id. assert (forall sid u, Snapshot (srv_users (server t1)) sid = Some u -> mkRef sid (User.SessionGeneration u) <> rf) as Hne.
    { intros sid u Hu E. rewrite E1 in Hu. rewrite <- E, (SnapshotRef_of _ _ _ Hu) in Hn. done. }
    split; [done| | |done].
    + intros sid u. rewrite E1, list_elem_of_singleton. rewrite E1 in Hne. naive_solver.
    + intros sid u Hu. apply HR. by apply (Hne sid u).
  - rewrite Hr. pose proof (retire_exact EqualFold ord ToLower ParseTime FormatTime ParseIP Hord t rf u S H0 Hu Hg) as H. destruct (UnregisterConn ord t rf) as [[t1 e] ann] eqn:E.
    assert (live (server t1)) as L1.
    { pose proof (UnregisterConn_exact EqualFold ord Hord t rf (so_live _ t S)) as X. rewrite E in X. destruct (removeIfGeneration (server t1) rf). destruct H as (Hv & _). by apply X. }
    pose proof (removeIfGeneration_exact EqualFold (server t1) rf L1) as H2. destruct (removeIfGeneration (server t1) rf) as [s o]. destruct H as (Hv & -> & -> & H), H2 as (L2 & (_ & HR2 & _) & _).
    cbn [fst]. change (server (with_server t1 s)) with s. set (s2 := if negb (User.ChannelID u =? 0) then _ else _).
    assert (s2 = leave_channel s (User.ChannelID u)) as Hs2 by (unfold s2, leave_channel; by destruct (negb _)).
    destruct (leave_channel_frame EqualFold s (User.ChannelID u) L2) as (A1 & A2 & A3 & A4). rewrite <- Hs2 in *. destruct (H s2 A1 A2 A3 A4) as [En _].
    pose proof (ended_ok EqualFold t (with_server t1 s2) rf En S) as S2. destruct En as [_ U [_ D _ _ _ _ _] _ _ _]. change (with_server (with_server t1 s) s2) with (with_server t1 s2).
    split; [done| | |].
    + intros sid v. rewrite U, list_elem_of_singleton. case_decide as Hd.
      * subst sid. split; [done|]. intros [Hv' Hn]. destruct Hn. assert (v = u) as -> by congruence. destruct rf as [a b]. cbn in Hg |- *. by rewrite Hg.
      * split; [intros ?; split; [done|]|by intros [? _]]. intros E'. apply Hd. by rewrite <- E'.
    + intros sid v Hv'. rewrite U in Hv'. case_decide as Hd; [done|]. apply D. intros Eq. apply Hd. by rewrite <- Eq.
    + cbn. destruct A2 as (_ & -> & _). rewrite HR2. exact He.
Qed.
Lemma cleanup_all_exact rfs : forall t, ok t -> fewer rfs t (cleanup_all ord t rfs).1.
Proof.
  induction rfs as [|rf rfs IH]; intros t S; cbn [cleanup_all]; [by apply fewer_refl|].
  pose proof (cleanupRemote_exact t rf S) as F1. destruct (cleanupRemote ord t rf) as [t1 e1]. cbn [fst] in *. pose proof (IH t1 (fw_ok _ _ _ F1)) as F2. destruct (cleanup_all ord t1 rfs) as [t2 e2].
  exact (fewer_trans [rf] rfs _ _ _ F1 F2).
Qed.
Lemma EdgeDisconnected_exact t i : ok t -> fewer (SessionsForEdge (srv_registry (server t)) i) t (EdgeDisconnected ord t i).1.
Proof.
  intros S. unfold EdgeDisconnected. pose proof (cleanup_all_exact (SessionsForEdge (srv_registry (server t)) i) t S) as [F1 F2 F3 F4]. destruct (cleanup_all ord t _) as [t1 e]. cbn [fst] in *.
  split; [by apply with_voice_ok|exact F2|exact F3|exact F4].
Qed.
Lemma DisconnectRemote_ok t i rf : ok t -> ok (DisconnectRemote ord t i rf).1.
Proof. intros S. unfold DisconnectRemote. destruct (remoteSessionOwned _ _ _); [|done]. apply (fw_ok _ _ _ (cleanupRemote_exact t rf S)). Qed.

(** ** Edges *)

Definition with_reg t r : Site DB BDB := with_server t ((server t) <| srv_registry := r |>).
Lemma entry_snapshot r rf l e : session_entry r (SessionID rf) = Some (l, e) -> ref e = rf -> Registry.Snapshot r rf = Some (snapshot e).
Proof. intros He Hr. unfold Registry.Snapshot. by rewrite He, bool_decide_eq_true_2. Qed.
Lemma snapshot_entry r rf sn : Registry.Snapshot r rf = Some sn -> exists l e, session_entry r (SessionID rf) = Some (l, e) /\ ref e = rf /\ sn = snapshot e.
Proof.
  unfold Registry.Snapshot. destruct (session_entry r (SessionID rf)) as [[l e]|]; [|done]. destruct (bool_decide (ref e = rf)) eqn:E; [|done].
  apply bool_decide_eq_true in E. intros [= <-]. by exists l, e.
Qed.
Lemma SessionsForEdge_spec r i rf : registry_wf r -> EdgeGeneration r (inst_edge i) = Some (inst_generation i) ->
  rf ∈ SessionsForEdge r i <-> exists sn, Registry.Snapshot r rf = Some sn /\ s_Edge sn = inst_edge i.
Proof.
  intros W He. unfold SessionsForEdge. unfold EdgeGeneration in He. rewrite He, Z.eqb_refl. cbn [negb]. rewrite (elem_of_edge_refs r _ rf W). split.
  - intros (l & e & H1 & H2 & H3). exists (snapshot e). split; [by eapply entry_snapshot|done].
  - intros (sn & (l & e & H1 & H2 & ->)%snapshot_entry & H3). by exists l, e.
Qed.
Lemma with_reg_ok t r : ok t -> registry_wf r ->
  (forall sid u, Snapshot (srv_users (server t)) sid = Some u -> is_Some (Registry.Snapshot r (mkRef sid (User.SessionGeneration u)))) -> ok (with_reg t r).
Proof. intros [L [Lu Lr] R] W H. split; cbn; [by apply with_registry_ok|by split|exact H]. Qed.
Lemma RegisterEdge_ok t id g : ok t -> ok (with_reg t (RegisterEdge (srv_registry (server t)) id g).1).
Proof.
  intros S. destruct (RegisterEdge_wf _ id g (ok_registry _ _ (lo_server _ _ (so_live _ _ S)))) as (W & Hh & Hs). apply with_reg_ok; [done|done|].
  intros sid u Hu. destruct (so_registered _ _ S sid u Hu) as [sn Hsn]. exists sn. revert Hsn. unfold Registry.Snapshot, session_entry. by rewrite Hh, Hs.
Qed.
Lemma RemoveEdge_snapshot r id g rf sn : registry_wf r -> Registry.Snapshot r rf = Some sn -> (edges r !! id = Some g -> s_Edge sn <> id) ->
  Registry.Snapshot (RemoveEdge r id g).1 rf = Some sn.
Proof.
  intros W Hsn Hne. pose proof (RemoveEdge_exact r id g W) as H. destruct (RemoveEdge r id g) as [r' removed]. destruct H as [H1 H2]. cbn [fst].
  destruct (decide (edges r !! id = Some g)) as [He|He]; [|by destruct (H1 He) as [-> _]]. destruct (H2 He) as (_ & _ & H3). specialize (Hne He).
  apply snapshot_entry in Hsn as (l & e & Hs & Hr & ->). apply (entry_snapshot _ _ l); [|done]. apply H3. by split.
Qed.
(** An edge whose sessions have ended can go. *)
Lemma RemoveEdge_ok t id g : ok t ->
  (forall sid u sn, edges (srv_registry (server t)) !! id = Some g -> Snapshot (srv_users (server t)) sid = Some u ->
     Registry.Snapshot (srv_registry (server t)) (mkRef sid (User.SessionGeneration u)) = Some sn -> s_Edge sn <> id) ->
  ok (with_reg t (RemoveEdge (srv_registry (server t)) id g).1).
Proof.
  intros S Hnone. pose proof (ok_registry _ _ (lo_server _ _ (so_live _ _ S))) as W. apply with_reg_ok; [done|by apply RemoveEdge_wf|].
  intros sid u Hu. destruct (so_registered _ _ S sid u Hu) as [sn Hsn]. exists sn. apply RemoveEdge_snapshot; [done|done|]. intros He. by apply (Hnone sid u).
Qed.

(** ** Clients come in, here or at another edge *)

Context (SplitHostPort : gostring -> option gostring) (cfg : Config) (authority : option Authority) (staleGrace : Z).

Lemma handleAuthenticate_ok now random ans t cl payload : ok t -> roomy (server t) ->
  ok (handleAuthenticate EqualFold ord ToLower SplitHostPort cfg authority now random ans t cl payload).1.1.1.
Proof.
  intros S G. pose proof (handleAuthenticate_exact EqualFold ord ToLower ParseIP SplitHostPort cfg authority Hord now random ans t cl payload S G) as H.
  destruct (handleAuthenticate _ _ _ _ _ _ _ _ _ _ _ _) as [[[t' c'] es] err]. by destruct H as [(H & _)|(m & i & u & _ & _ & _ & _ & [H _ _ _ _ _] & _)].
Qed.
Lemma AuthenticateRemote_ok now t i req : ok t -> roomy (server t) -> ok (AuthenticateRemote EqualFold ToLower ParseIP cfg authority now t i req).1.
Proof.
  intros S G. pose proof (AuthenticateRemote_exact EqualFold ToLower ParseIP cfg authority now t i req S G) as H. destruct (AuthenticateRemote _ _ _ _ _ _ _ _ _) as [t' [[rf name]|why]]; [|apply H].
  destruct H as (_ & id & u & _ & _ & _ & _ & _ & A). apply A.
Qed.
Lemma closeFailedSync_ok t rf : ok t -> ok (closeFailedSync ord t rf).1.
Proof.
  intros S. destruct (session_cases t rf S) as [Hn|(u & _ & Hu & Hg & H0)].
  - unfold closeFailedSync. destruct (UnregisterConn_stale t rf S Hn) as [S1 E1]. destruct (UnregisterConn ord t rf) as [[t1 e] ann]. cbn [fst] in *.
    destruct (removeIfGeneration_stale (server t1) rf (so_live _ _ S1) ltac:(by rewrite E1)) as [_ ->]. by rewrite with_server_id.
  - eapply ended_ok; [|exact S]. by apply (closeFailedSync_exact EqualFold ord ToLower ParseTime FormatTime ParseIP Hord t rf u S H0 Hu Hg).
Qed.
Lemma complete_ok ans t rf u : ok t -> ok (complete ord ans t rf u).1.1.
Proof.
  intros S. unfold complete. destruct (if confirms ans then commit_announce t rf u else None) as [[t2 es]|] eqn:E.
  - destruct (confirms ans); [|done]. revert E. unfold commit_announce. destruct (commitActive _ _) as [r e] eqn:Ec. destruct e; [done|]. intros [= <- <-]. cbn [fst].
    destruct S as [L [Lu Lr] R]. destruct (commit_registry _ _ _ (ok_registry _ _ (lo_server _ _ L)) Ec) as (W1 & W2 & Hact & _ & Hoth). set (r2 := match session_entry r _ with Some _ => _ | None => _ end) in *.
    split; cbn; [|by split|].
    + exact (updateChannelCrypto_ok EqualFold _ _ (with_registry_ok EqualFold _ _ (with_registry_ok EqualFold (server t) r L W1) W2)).
    + intros sid w Hw. cbn. destruct (decide (mkRef sid (User.SessionGeneration w) = rf)) as [Er|Hne]; [rewrite Er; destruct Hact as (sn & -> & _); by eexists|].
      rewrite Hoth by done. by apply R.
  - pose proof (closeFailedSync_ok t rf S) as H. by destruct (closeFailedSync ord t rf).
Qed.
Lemma TransportReadyRemote_ok ans t i rf mode : ok t -> ok (TransportReadyRemote EqualFold ord cfg ans t i rf mode).1.1.
Proof.
  intros S. unfold TransportReadyRemote. destruct (negb (remoteSessionOwned _ _ _)); [done|]. destruct (SnapshotRef _ _) as [u|]; [|done].
  set (x := if negb _ then _ else _). assert (ok x.1) as S1.
  { unfold x. destruct (negb _); [|done]. set (fn := fun live => live <| User.CryptoMode := mode |>). pose proof (updateUser_ok t (SessionID rf) fn S ltac:(done) ltac:(done) ltac:(done)) as H.
    by destruct (updateUser _ _ fn). }
  destruct x as [t1 u1]. cbn [fst] in S1. destruct (negb (takes ans)); [done|]. destruct (sendRemoteSync _ _ _ _ _ _ _) as [es []].
  - pose proof (complete_ok ans t1 rf u1 S1) as H. by destruct (complete ord ans t1 rf u1) as [[t2 e] b].
  - pose proof (closeFailedSync_ok t1 rf S1) as H. by destruct (closeFailedSync ord t1 rf).
Qed.

(** ** The check of identities *)

Lemma revalidateSnapshots_ok now a t (P : User.t -> bool) (Q : externalSession -> Prop) `{!forall e, base.Decision (Q e)} : ok t -> (forall u, Q (external_of u) <-> P u = true) ->
  ok (revalidateSnapshots EqualFold ord staleGrace now a t (filter Q (externalUserSnapshots t))).1.1.
Proof. intros S HP. rewrite (externals_of t P Q HP). by apply (revalidateSnapshots_exact EqualFold ord staleGrace Hord). Qed.
Lemma revalidation_tick_ok now t : ok t -> ok (revalidation_tick EqualFold ord authority staleGrace now t).1.
Proof.
  intros S. unfold revalidation_tick. destruct authority as [a|]; [|done]. destruct (External a); [|done].
  pose proof (revalidateSnapshots_ok now a t (fun _ => true) (fun _ => True) S ltac:(done)) as H. by rewrite filter_all in H.
Qed.
Lemma RevalidateUserNow_ok now t userID : ok t -> ok (RevalidateUserNow EqualFold ord authority staleGrace now t userID).1.1.
Proof.
  intros S. unfold RevalidateUserNow. destruct authority as [a|]; [|done]. destruct (External a); [|done]. case_bool_decide; [done|].
  apply (revalidateSnapshots_ok now a t (fun u => User.UserID u =? userID)); [done|]. intros u. symmetry. apply Z.eqb_eq.
Qed.
End Invariant.
End SiteInvariant.
