(* ===== verification/Accounts.v ===== *)
(** * Accounts of the management interface

    Registration, login, tokens and roles: [internal/service/user.go],
    [internal/auth/jwt.go], [internal/middleware/auth.go], [rbac.go],
    [internal/sanitize], the handlers of [internal/handler/auth.go] and
    [user.go], and the guards of the routes in [internal/rest/router.go].

    The JWT library, the password hash and random bytes are parameters. What of
    a token's claims nobody reads (subject, time of issue) is left out; a claim's
    expiry is in seconds, the clock in nanoseconds. A failing query is an
    argument, but for the one that notes the last activity, whose error nobody
    looks at. After a change of a role or the deletion of an account the service
    calls [OnAuthorizationChange], which is in [RestServer]. *)

From Stdlib Require Import ZArith Lia String.
From stdpp Require Import base numbers list gmap sets option.
From S2P Require Import Prelude Wire Fields Acl.

Module Accounts.
Import Acl.

(** ** Strings *)

(** [strconv.ParseUint(s, 10, bits)]. *)
Definition ParseUint (bits : Z) (s : gostring) : option Z :=
  match s with
  | [] => None
  | _ => n ← parse_digits s 0; if n <? 2 ^ bits then Some n else None
  end.
Definition username_char (c : Z) : bool :=
  ((97 <=? c) && (c <=? 122)) || ((65 <=? c) && (c <=? 90)) || ((48 <=? c) && (c <=? 57)) || (c =? 95).
Definition Username (s : gostring) : gostring :=
  let s := TrimSpace s in
  if bool_decide (s = []) || (64 <? zlen s) then [] else
  if negb (forallb username_char s) then [] else s.
(** [strings.SplitN(s, " ", 2)] when there is a space. *)
Fixpoint split_space (s : gostring) : option (gostring * gostring) :=
  match s with
  | [] => None
  | c :: s => if c =? 32 then Some ([], s) else '(a, b) ← split_space s; Some (c :: a, b)
  end.

(** ** Accounts and tokens *)

Definition RoleUser : gostring := str "user".

(** A row of the table; a deleted one stays, marked. *)
Record Account := mkAccount {
  ac_Username : gostring; ac_PasswordHash : gostring; ac_JWTSecret : gostring; ac_Role : gostring;
  ac_TokenVersion : Z; ac_LastActivityAt : option Z; ac_Deleted : bool }.
#[export] Instance Account_eta : Eta Account := fun a =>
  mkAccount (ac_Username a) (ac_PasswordHash a) (ac_JWTSecret a) (ac_Role a) (ac_TokenVersion a) (ac_LastActivityAt a) (ac_Deleted a).
Notation Table := (gmap Z Account).
Implicit Types (db : Table).

Record JwtConfig := mkJwtConfig { jc_Issuer : gostring; jc_Audience : gostring; jc_ExpiryDays : Z }.
Record Claims := mkClaims {
  cl_Issuer : gostring; cl_Audience : list gostring; cl_ExpiresAt : Z;
  cl_UserID : Z; cl_Username : gostring; cl_Role : gostring; cl_TokenVersion : Z }.

(** The libraries: signing with HS256, reading a token without and with a check
    of its signature and its expiry; bcrypt. *)
Class AuthLib := {
  signed : gostring -> Claims -> option gostring;
  unverified : gostring -> option Claims;
  verified : Z -> gostring -> gostring -> option Claims;
  HashPassword : gostring -> gostring -> option gostring;
  ComparePassword : gostring -> gostring -> bool }.
Class AuthLaws `{AuthLib} : Prop := {
  verified_reads : forall now secret tok c, verified now secret tok = Some c -> unverified tok = Some c;
  signed_verified : forall now secret c tok, signed secret c = Some tok -> now < cl_ExpiresAt c * 10 ^ 9 -> verified now secret tok = Some c;
  hash_compare : forall salt p h, HashPassword salt p = Some h -> ComparePassword h p = true }.

Inductive auth_error :=
  | InvalidToken
  | InvalidIssuer
  | InvalidAudience
  | ErrTokenVersionMismatch
  | UsernameRequired
  | PasswordTooShort
  | ErrUsernameExists
  | ErrInvalidCredentials
  | ErrCannotChangeOwnRole
  | ErrCannotDeleteSelf
  | ErrInvalidRole
  | DatabaseFailed
  | CryptoFailed.

Record UserPayload := mkPayload { up_ID : Z; up_Username : gostring; up_Role : gostring }.
Record LoginResponse := mkLoginResponse { lr_Token : gostring; lr_User : UserPayload }.

Section Accounts.
Context `{AL : AuthLib} (ToLower : gostring -> gostring).
Context (cfg : JwtConfig).

(** ** Tokens *)

Definition Hour : Z := 3600 * 10 ^ 9.
Definition claims_for (now userID : Z) (username role : gostring) (tokenVersion : Z) : Claims :=
  mkClaims (jc_Issuer cfg) [jc_Audience cfg] ((now + i64 (i64 (jc_ExpiryDays cfg * 24) * Hour)) / 10 ^ 9) userID username role tokenVersion.
Definition Sign (now userID : Z) (username role : gostring) (tokenVersion : Z) (secret : gostring) : result auth_error gostring :=
  match signed secret (claims_for now userID username role tokenVersion) with Some tok => Ok tok | None => Err CryptoFailed end.
Definition Validate (now : Z) (tok secret : gostring) : result auth_error Claims :=
  match verified now secret tok with
  | None => Err InvalidToken
  | Some c =>
      if negb (bool_decide (cl_Issuer c = jc_Issuer cfg)) then Err InvalidIssuer else
      match cl_Audience c with
      | a :: _ => if bool_decide (a = jc_Audience cfg) then Ok c else Err InvalidAudience
      | [] => Err InvalidAudience
      end
  end.

(** A row that is not deleted. *)
Definition live_account db (id : Z) : option Account :=
  a ← db !! id; if ac_Deleted a then None else Some a.
Definition GetUserForAuth db (userID : Z) : result auth_error (gostring * Z) :=
  match live_account db userID with Some a => Ok (ac_JWTSecret a, ac_TokenVersion a) | None => Err DatabaseFailed end.
Definition ParseAndValidateToken (now : Z) db (tok : gostring) : result auth_error Claims :=
  match unverified tok with
  | None => Err InvalidToken
  | Some claims =>
      '(secret, version) ← GetUserForAuth db (cl_UserID claims);
      valid ← Validate now tok secret;
      if negb (cl_TokenVersion valid =? version) then Err ErrTokenVersionMismatch else Ok valid
  end.

(** ** Who gets to a handler *)

(** The token of an [Authorization] header. *)
Definition bearer (header : gostring) : option gostring :=
  '(scheme, tok) ← split_space header; if bool_decide (ToLower scheme = str "bearer") then Some tok else None.
(** The answer is a status, or the claims the handler finds. *)
Definition Auth (required : bool) (now : Z) db (header : gostring) : Z + option Claims :=
  let refuse := if required then inl 401 else inr None in
  match bearer header with
  | None => refuse
  | Some tok => match ParseAndValidateToken now db tok with Err _ => refuse | Ok claims => inr (Some claims) end
  end.
Definition RequireRole (allowed : list gostring) (claims : option Claims) : Z + option Claims :=
  match claims with
  | None => inl 401
  | Some c => if bool_decide (str "admin" ∈ allowed) && bool_decide (cl_Role c = str "admin") then inr claims else
              if bool_decide (cl_Role c ∈ allowed) then inr claims else inl 403
  end.

Inductive guard := Open | Limited | Authenticated | Administrator | ServiceToken.
Inductive endpoint :=
  | Health | OpenAPI | Docs | Revalidate | AuthStatus | AuthRegister | AuthLogin
  | ServerStatus | ServerList | ServerGet | ServerGetConfig | ServerGetChannels | ServerGetUsers
  | ServerCreate | ServerUpdate | ServerDelete | ServerUpdateConfig | ChannelCreate | ChannelUpdate | ChannelDelete
  | ACLGet | ACLPut | UserKick | UserMute | UserBan | BanList | BanCreate | BanDelete
  | RegisteredList | RegisteredCreate | RegisteredUpdate | RegisteredDelete
  | UserList | UserUpdate | UserDelete | MetaGet | MetaUpdate.
Record route := mkRoute { rt_method : string; rt_path : string; rt_guard : guard; rt_endpoint : endpoint }.
Definition routes : list route :=
  [mkRoute "GET" "/health" Open Health;
   mkRoute "POST" "/internal/identity/v1/revalidate" ServiceToken Revalidate;
   mkRoute "GET" "/api/v1/openapi.yaml" Open OpenAPI;
   mkRoute "GET" "/docs" Open Docs;
   mkRoute "GET" "/api/v1/auth/status" Open AuthStatus;
   mkRoute "POST" "/api/v1/auth/register" Limited AuthRegister;
   mkRoute "POST" "/api/v1/auth/login" Limited AuthLogin;
   mkRoute "GET" "/api/v1/status" Authenticated ServerStatus;
   mkRoute "GET" "/api/v1/servers" Authenticated ServerList;
   mkRoute "GET" "/api/v1/servers/{id}" Authenticated ServerGet;
   mkRoute "GET" "/api/v1/servers/{id}/config" Authenticated ServerGetConfig;
   mkRoute "GET" "/api/v1/servers/{id}/channels" Authenticated ServerGetChannels;
   mkRoute "GET" "/api/v1/servers/{id}/users" Authenticated ServerGetUsers;
   mkRoute "POST" "/api/v1/servers" Administrator ServerCreate;
   mkRoute "PATCH" "/api/v1/servers/{id}" Administrator ServerUpdate;
   mkRoute "DELETE" "/api/v1/servers/{id}" Administrator ServerDelete;
   mkRoute "PATCH" "/api/v1/servers/{id}/config" Administrator ServerUpdateConfig;
   mkRoute "POST" "/api/v1/servers/{id}/channels" Administrator ChannelCreate;
   mkRoute "PATCH" "/api/v1/servers/{id}/channels/{channelId}" Administrator ChannelUpdate;
   mkRoute "DELETE" "/api/v1/servers/{id}/channels/{channelId}" Administrator ChannelDelete;
   mkRoute "GET" "/api/v1/servers/{id}/channels/{channelId}/acl" Administrator ACLGet;
   mkRoute "PUT" "/api/v1/servers/{id}/channels/{channelId}/acl" Administrator ACLPut;
   mkRoute "POST" "/api/v1/servers/{id}/users/{sessionId}/kick" Administrator UserKick;
   mkRoute "POST" "/api/v1/servers/{id}/users/{sessionId}/mute" Administrator UserMute;
   mkRoute "POST" "/api/v1/servers/{id}/users/{sessionId}/ban" Administrator UserBan;
   mkRoute "GET" "/api/v1/servers/{id}/bans" Administrator BanList;
   mkRoute "POST" "/api/v1/servers/{id}/bans" Administrator BanCreate;
   mkRoute "DELETE" "/api/v1/servers/{id}/bans/{banId}" Administrator BanDelete;
   mkRoute "GET" "/api/v1/servers/{id}/registered-users" Administrator RegisteredList;
   mkRoute "POST" "/api/v1/servers/{id}/registered-users" Administrator RegisteredCreate;
   mkRoute "PATCH" "/api/v1/servers/{id}/registered-users/{userId}" Administrator RegisteredUpdate;
   mkRoute "DELETE" "/api/v1/servers/{id}/registered-users/{userId}" Administrator RegisteredDelete;
   mkRoute "GET" "/api/v1/users" Administrator UserList;
   mkRoute "PATCH" "/api/v1/users/{id}" Administrator UserUpdate;
   mkRoute "DELETE" "/api/v1/users/{id}" Administrator UserDelete;
   mkRoute "GET" "/api/v1/meta/config" Administrator MetaGet;
   mkRoute "PATCH" "/api/v1/meta/config" Administrator MetaUpdate].
(** The token of the callback of an identity provider, with [TrimPrefix]. *)
Definition trim_prefix (p s : gostring) : gostring := match strip_prefix p s with Some s => s | None => s end.
Definition service_token_ok (expected header : gostring) : bool :=
  let expected := TrimSpace expected in
  let provided := TrimSpace (trim_prefix (str "Bearer ") header) in
  negb (bool_decide (expected = []) || bool_decide (provided = []) || negb (bool_decide (expected = provided))).
(** The address the rate limit counts: what the header [X-Forwarded-For] says, if
    it says anything, before that of the connection. *)
Fixpoint before_comma (s : gostring) : gostring := match s with [] => [] | c :: s => if c =? 44 then [] else c :: before_comma s end.
Definition getIP (SplitHostPort : gostring -> option gostring) (forwardedFor remoteAddr : gostring) : gostring :=
  let x := TrimSpace forwardedFor in
  let x := if bool_decide (44 ∈ x) then TrimSpace (before_comma x) else x in
  if negb (bool_decide (x = [])) then x else
  if negb (bool_decide (remoteAddr = [])) then default remoteAddr (SplitHostPort remoteAddr) else str "unknown".
Definition admit_request (now : Z) db (revalidateToken : gostring) (rateAllows : bool) (g : guard) (header : gostring) : Z + option Claims :=
  match g with
  | Open => inr None
  | Limited => if rateAllows then inr None else inl 429
  | Authenticated => Auth true now db header
  | Administrator => match Auth true now db header with inl e => inl e | inr c => RequireRole [str "admin"] c end
  | ServiceToken => if service_token_ok revalidateToken header then inr None else inl 401
  end.

(** ** The service *)

Definition is_live (a : Account) : Prop := ac_Deleted a = false.
Definition count db : Z := Z.of_nat (size (filter (fun ia => is_live ia.2) db)).
Definition find_username db (name : gostring) : option (Z * Account) :=
  list.head (filter (fun ia => is_live ia.2 /\ ac_Username ia.2 = name) (map_to_list db)).
Definition touch (now : Z) db (id : Z) : Table :=
  match live_account db id with Some a => <[id := a <| ac_LastActivityAt := Some now |>]> db | None => db end.
Definition response (tok : gostring) (id : Z) (a : Account) : LoginResponse := mkLoginResponse tok (mkPayload id (ac_Username a) (ac_Role a)).

(** [Register] up to the look-up of the name; hashing the password takes long.
    [secret] is what [GenerateSecret] makes. *)
Record Registration := mkRegistration { rg_Username : gostring; rg_Hash : gostring; rg_Secret : gostring; rg_Role : gostring }.
Definition Register_begin (count_fails : bool) (salt : gostring) (secret : option gostring) db (username password : gostring) : result auth_error Registration :=
  let username := Username username in
  if bool_decide (username = []) then Err UsernameRequired else
  if zlen password <? 8 then Err PasswordTooShort else
  if count_fails then Err DatabaseFailed else
  let role := if count db =? 0 then RoleAdmin else RoleUser in
  match HashPassword salt password, secret with
  | Some hash, Some secret => Ok (mkRegistration username hash secret role)
  | _, _ => Err CryptoFailed
  end.
(** The rest: [id] is the key the database gives the row; the index of the table
    holds the names of deleted rows as well. *)
Definition Register_end (now id : Z) (find_fails create_fails : bool) db (r : Registration) : Table * result auth_error LoginResponse :=
  if find_fails then (db, Err DatabaseFailed) else
  match find_username db (rg_Username r) with
  | Some _ => (db, Err ErrUsernameExists)
  | None =>
      if create_fails || bool_decide (is_Some (db !! id)) || negb (bool_decide (map_Forall (fun _ a => ac_Username a <> rg_Username r) db)) then (db, Err DatabaseFailed) else
      let a := mkAccount (rg_Username r) (rg_Hash r) (rg_Secret r) (rg_Role r) 0 None false in
      let db := touch now (<[id := a]> db) id in
      match Sign now id (ac_Username a) (ac_Role a) (ac_TokenVersion a) (ac_JWTSecret a) with
      | Err e => (db, Err e)
      | Ok tok => (db, Ok (response tok id a))
      end
  end.
Definition Login (now : Z) (find_fails : bool) db (username password : gostring) : Table * result auth_error LoginResponse :=
  let username := Username username in
  if bool_decide (username = []) then (db, Err ErrInvalidCredentials) else
  if find_fails then (db, Err DatabaseFailed) else
  match find_username db username with
  | None => (db, Err ErrInvalidCredentials)
  | Some (id, a) =>
      if negb (ComparePassword (ac_PasswordHash a) password) then (db, Err ErrInvalidCredentials) else
      match Sign now id (ac_Username a) (ac_Role a) (ac_TokenVersion a) (ac_JWTSecret a) with
      | Err e => (db, Err e)
      | Ok tok => (touch now db id, Ok (response tok id a))
      end
  end.
Definition HasUsers (fails : bool) db : result auth_error bool := if fails then Err DatabaseFailed else Ok (0 <? count db).
Definition UpdateUserRole (fails : bool) (secret : option gostring) db (id : Z) (newRole : gostring) (currentUserID : Z) : Table * option auth_error :=
  if id =? currentUserID then (db, Some ErrCannotChangeOwnRole) else
  if negb (bool_decide (newRole ∈ [RoleAdmin; RoleUser])) then (db, Some ErrInvalidRole) else
  match secret with
  | None => (db, Some CryptoFailed)
  | Some secret =>
      if fails then (db, Some DatabaseFailed) else
      (match live_account db id with
       | Some a => <[id := a <| ac_Role := newRole |> <| ac_JWTSecret := secret |> <| ac_TokenVersion := ac_TokenVersion a + 1 |>]> db
       | None => db end, None)
  end.
Definition DeleteUser (fails : bool) db (id currentUserID : Z) : Table * option auth_error :=
  if id =? currentUserID then (db, Some ErrCannotDeleteSelf) else
  if fails then (db, Some DatabaseFailed) else
  (match live_account db id with Some a => <[id := a <| ac_Deleted := true |>]> db | None => db end, None).

(** ** The handlers *)

Definition register_status (r : result auth_error LoginResponse) : Z :=
  match r with
  | Ok _ => 201
  | Err ErrUsernameExists => 409
  | Err (UsernameRequired | PasswordTooShort) => 400
  | Err _ => 500
  end.
Definition login_status (r : result auth_error LoginResponse) : Z :=
  match r with Ok _ => 200 | Err ErrInvalidCredentials => 401 | Err _ => 500 end.
(** [GET /auth/status]: who a token is, or whether there are accounts. *)
Definition Status (now : Z) (fails : bool) db (header : gostring) : result auth_error (UserPayload + bool) :=
  match (tok ← bearer header; match ParseAndValidateToken now db tok with Ok c => Some c | Err _ => None end) with
  | Some c => Ok (inl (mkPayload (cl_UserID c) (cl_Username c) (cl_Role c)))
  | None => match HasUsers fails db with Ok b => Ok (inr b) | Err e => Err e end
  end.
Definition UserHandler_Update (fails : bool) (secret : option gostring) db (claims : Claims) (id : gostring) (body : option gostring) : Table * Z :=
  match ParseUint 64 id, body with
  | None, _ | _, None => (db, 400)
  | Some id, Some role =>
      match UpdateUserRole fails secret db id role (cl_UserID claims) with
      | (db, None) => (db, 204)
      | (db, Some (ErrCannotChangeOwnRole | ErrInvalidRole)) => (db, 400)
      | (db, Some _) => (db, 500)
      end
  end.
Definition UserHandler_Delete (fails : bool) db (claims : Claims) (id : gostring) : Table * Z :=
  match ParseUint 64 id with
  | None => (db, 400)
  | Some id =>
      match DeleteUser fails db id (cl_UserID claims) with
      | (db, None) => (db, 204)
      | (db, Some ErrCannotDeleteSelf) => (db, 400)
      | (db, Some _) => (db, 500)
      end
  end.

(** ** The interface at work

    Requests overlap: a registration counts the accounts before it writes, and a
    request is let in before it acts. *)

Record Api := mkApi { accounts : Table; registering : list Registration; running : list Claims; issued : list Claims }.
Inductive action :=
  | SetRole (id : gostring) (role : option gostring) (secret : option gostring)
  | DeleteAccount (id : gostring).
Inductive api_event :=
  | RegisterBegins (fails : bool) (salt : gostring) (secret : option gostring) (username password : gostring)
  | RegisterEnds (k : nat) (now id : Z) (find_fails create_fails : bool)
  | LogsIn (now : Z) (fails : bool) (username password : gostring)
  | AdminEnters (now : Z) (header : gostring)
  | AdminActs (k : nat) (fails : bool) (act : action).

Definition enter (now : Z) db (header : gostring) : Z + option Claims := admit_request now db [] true Administrator header.
Definition act_on (fails : bool) db (c : Claims) (act : action) : Table :=
  match act with
  | SetRole id role secret => (UserHandler_Update fails secret db c id role).1
  | DeleteAccount id => (UserHandler_Delete fails db c id).1
  end.
(** The claims of the token in an answer. *)
Definition granted (now : Z) (db : Table) (r : result auth_error LoginResponse) : list Claims :=
  match r with
  | Ok resp => match db !! up_ID (lr_User resp) with
               | Some a => [claims_for now (up_ID (lr_User resp)) (ac_Username a) (ac_Role a) (ac_TokenVersion a)] | None => [] end
  | Err _ => []
  end.
Definition api_step (st : Api) (e : api_event) : Api :=
  match e with
  | RegisterBegins fails salt secret username password =>
      match Register_begin fails salt secret (accounts st) username password with
      | Ok r => mkApi (accounts st) (registering st ++ [r]) (running st) (issued st)
      | Err _ => st
      end
  | RegisterEnds k now id find_fails create_fails =>
      match registering st !! k with
      | Some r => let '(db, resp) := Register_end now id find_fails create_fails (accounts st) r in
                  mkApi db (delete k (registering st)) (running st) (issued st ++ granted now db resp)
      | None => st
      end
  | LogsIn now fails username password =>
      let '(db, resp) := Login now fails (accounts st) username password in
      mkApi db (registering st) (running st) (issued st ++ granted now db resp)
  | AdminEnters now header =>
      match enter now (accounts st) header with
      | inr (Some c) => mkApi (accounts st) (registering st) (running st ++ [c]) (issued st)
      | _ => st
      end
  | AdminActs k fails act =>
      match running st !! k with
      | Some c => mkApi (act_on fails (accounts st) c act) (registering st) (delete k (running st)) (issued st)
      | None => st
      end
  end.
Definition empty_api : Api := mkApi ∅ [] [] [].

(** Nobody but the server has the secrets: a token that verifies under the
    secret of an account carries claims the server signed. *)
Definition unforged (st : Api) (now : Z) (header : gostring) : Prop :=
  forall tok id a c, bearer header = Some tok -> live_account (accounts st) id = Some a -> verified now (ac_JWTSecret a) tok = Some c -> c ∈ issued st.
Definition honest (st : Api) (e : api_event) : Prop :=
  match e with AdminEnters now header => unforged st now header | _ => True end.
Inductive api_from (st0 : Api) : Api -> Prop :=
  | api_start : api_from st0 st0
  | api_steps st e : api_from st0 st -> honest st e -> api_from st0 (api_step st e).
Notation api_reachable := (api_from empty_api).

(** The same interface with one request after the other: what comes of a
    registration, a login, a request of an administrator as a whole. *)
Inductive api_request :=
  | Registers (count_fails : bool) (salt : gostring) (secret : option gostring) (username password : gostring) (now id : Z) (find_fails create_fails : bool)
  | Logs (now : Z) (fails : bool) (username password : gostring)
  | Administers (now : Z) (header : gostring) (fails : bool) (act : action).
Definition serve_request (st : Api) (rq : api_request) : Api :=
  match rq with
  | Registers fails salt secret username password now id f1 f2 =>
      api_step (api_step st (RegisterBegins fails salt secret username password)) (RegisterEnds (length (registering st)) now id f1 f2)
  | Logs now fails username password => api_step st (LogsIn now fails username password)
  | Administers now header fails act => api_step (api_step st (AdminEnters now header)) (AdminActs (length (running st)) fails act)
  end.
Inductive api_serial : Api -> Prop :=
  | serial_start : api_serial empty_api
  | serial_step st rq : api_serial st -> match rq with Administers now header _ _ => unforged st now header | _ => True end -> api_serial (serve_request st rq).

(** ** Lemmas *)

Lemma live_account_Some db id a : live_account db id = Some a <-> db !! id = Some a /\ is_live a.
Proof. unfold live_account, is_live. destruct (db !! id) as [b|]; cbn; [|by split; [|intros []]]. destruct (ac_Deleted b) eqn:E; split; [done|intros [[= ->] ?]; congruence|by intros [= ->]|by intros [[= ->] _]]. Qed.

(** How the accounts may change: rows stay, versions grow, and with the same
    version the role, the name and the secret are the same. *)
Definition grows (a b : Account) : Prop :=
  ac_Username b = ac_Username a /\ ac_TokenVersion a <= ac_TokenVersion b /\ (ac_Deleted a = true -> ac_Deleted b = true /\ ac_TokenVersion b = ac_TokenVersion a) /\
  (ac_TokenVersion b = ac_TokenVersion a -> ac_Role b = ac_Role a).
Definition table_grows (db db' : Table) : Prop := forall id a, db !! id = Some a -> exists b, db' !! id = Some b /\ grows a b.
Lemma grows_refl a : grows a a.
Proof. by split_and!. Qed.
Lemma grows_trans a b c : grows a b -> grows b c -> grows a c.
Proof.
  intros (N1 & V1 & D1 & R1) (N2 & V2 & D2 & R2). split; [congruence|]. split; [lia|]. split.
  - intros H. destruct (D1 H) as [H1 E1], (D2 H1) as [H2 E2]. split; [done|congruence].
  - intros E. rewrite R2, R1; [done|lia|lia].
Qed.
Lemma table_grows_refl db : table_grows db db.
Proof. intros id a H. exists a. split; [done|apply grows_refl]. Qed.
Lemma table_grows_trans d1 d2 d3 : table_grows d1 d2 -> table_grows d2 d3 -> table_grows d1 d3.
Proof. intros H1 H2 id a Ha. destruct (H1 id a Ha) as (b & Hb & G1), (H2 id b Hb) as (c & Hc & G2). exists c. split; [done|by eapply grows_trans]. Qed.
Lemma insert_grows db id a : (forall b, db !! id = Some b -> grows b a) -> table_grows db (<[id := a]> db).
Proof.
  intros H id' b Hb. destruct (decide (id' = id)) as [->|Hne].
  - exists a. rewrite lookup_insert_eq. split; [done|by apply H].
  - exists b. rewrite lookup_insert_ne by done. split; [done|apply grows_refl].
Qed.
Lemma touch_grows now db id : table_grows db (touch now db id).
Proof. unfold touch. destruct (live_account db id) as [a|] eqn:E; [|apply table_grows_refl]. apply live_account_Some in E as [E _]. apply insert_grows. intros b Hb. assert (b = a) as -> by congruence. unfold grows. cbn. by split_and!. Qed.

(** Names are unique, deleted accounts included, and there are two roles. *)
Record table_ok db : Prop := {
  to_names : forall id1 id2 a1 a2, db !! id1 = Some a1 -> db !! id2 = Some a2 -> ac_Username a1 = ac_Username a2 -> id1 = id2;
  to_roles : forall id a, db !! id = Some a -> ac_Role a ∈ [RoleAdmin; RoleUser] }.
Lemma update_ok db id a b : table_ok db -> db !! id = Some a -> ac_Username b = ac_Username a -> ac_Role b ∈ [RoleAdmin; RoleUser] -> table_ok (<[id := b]> db).
Proof.
  intros [N R] Ha Hu Hr. split.
  - intros i j x y. destruct (decide (i = id)) as [->|Hi], (decide (j = id)) as [->|Hj]; rewrite ?lookup_insert_eq, ?lookup_insert_ne by done; [done|..].
    + intros [= <-] Hy E. rewrite Hu in E. by apply (N id j a y).
    + intros Hx [= <-] E. rewrite Hu in E. by apply (N i id x a).
    + apply N.
  - intros i x. destruct (decide (i = id)) as [->|Hi]; rewrite ?lookup_insert_eq, ?lookup_insert_ne by done; [by intros [= <-]|apply R].
Qed.
Lemma new_ok db id b : table_ok db -> db !! id = None -> (forall i x, db !! i = Some x -> ac_Username x <> ac_Username b) -> ac_Role b ∈ [RoleAdmin; RoleUser] -> table_ok (<[id := b]> db).
Proof.
  intros [N R] Ha Hu Hr. split.
  - intros i j x y. destruct (decide (i = id)) as [->|Hi], (decide (j = id)) as [->|Hj]; rewrite ?lookup_insert_eq, ?lookup_insert_ne by done; [done|..].
    + intros [= <-] Hy E. by destruct (Hu j y Hy).
    + intros Hx [= <-] E. by destruct (Hu i x Hx).
    + apply N.
  - intros i x. destruct (decide (i = id)) as [->|Hi]; rewrite ?lookup_insert_eq, ?lookup_insert_ne by done; [by intros [= <-]|apply R].
Qed.
Lemma touch_ok now db id : table_ok db -> table_ok (touch now db id).
Proof. intros T. unfold touch. destruct (live_account db id) as [a|] eqn:E; [|done]. apply live_account_Some in E as [E _]. eapply update_ok; [done|exact E|done|]. exact (to_roles _ T id a E). Qed.
Lemma find_username_Some db name id a : find_username db name = Some (id, a) -> live_account db id = Some a /\ ac_Username a = name.
Proof.
  unfold find_username. intros H. assert ((id, a) ∈ filter (fun ia => is_live ia.2 /\ ac_Username ia.2 = name) (map_to_list db)) as Hin
    by (destruct (filter _ _); [done|]; cbn in H; injection H as ->; by left).
  apply list_elem_of_filter in Hin as [[Hl Hn] Hin]. apply elem_of_map_to_list in Hin. split; [by apply live_account_Some|done].
Qed.

Definition registration_ok (r : Registration) : Prop := rg_Role r ∈ [RoleAdmin; RoleUser].
Lemma Register_begin_ok fails salt secret db username password r : Register_begin fails salt secret db username password = Ok r -> registration_ok r.
Proof.
  unfold Register_begin, registration_ok. destruct (bool_decide _); [done|]. destruct (_ <? _); [done|]. destruct fails; [done|]. destruct (HashPassword _ _), secret; [|done..].
  intros [= <-]. cbn. destruct (_ =? _); repeat constructor.
Qed.
(** What the two ends of a request for a token do to the table, and whose token
    it is. *)
Definition answers (now : Z) db (resp : LoginResponse) : Prop :=
  exists a, live_account db (up_ID (lr_User resp)) = Some a /\ lr_User resp = mkPayload (up_ID (lr_User resp)) (ac_Username a) (ac_Role a) /\
    signed (ac_JWTSecret a) (claims_for now (up_ID (lr_User resp)) (ac_Username a) (ac_Role a) (ac_TokenVersion a)) = Some (lr_Token resp).
Lemma touch_live now db id a : live_account db id = Some a -> live_account (touch now db id) id = Some (a <| ac_LastActivityAt := Some now |>).
Proof. intros E. unfold touch. rewrite E. apply live_account_Some in E as [E Hl]. apply live_account_Some. by rewrite lookup_insert_eq. Qed.
Lemma Register_end_spec now id f1 f2 db r : table_ok db -> registration_ok r -> let '(db', resp) := Register_end now id f1 f2 db r in
  table_ok db' /\ table_grows db db' /\ (forall lr, resp = Ok lr -> answers now db' lr /\ up_Username (lr_User lr) = rg_Username r).
Proof.
  intros T Hr. unfold Register_end. destruct f1; [by split_and!; [|apply table_grows_refl|]|]. destruct (find_username _ _); [by split_and!; [|apply table_grows_refl|]|].
  destruct (f2 || _ || _) eqn:E; [by split_and!; [|apply table_grows_refl|]|].
  apply orb_false_iff in E as [[_ E1]%orb_false_iff E2]. apply bool_decide_eq_false in E1. apply negb_false_iff, bool_decide_eq_true in E2.
  assert (db !! id = None) as Hid by (destruct (db !! id); [by destruct E1; eexists|done]).
  set (a := mkAccount _ _ _ _ _ _ _). assert (table_ok (<[id := a]> db)) as T1 by (apply new_ok; [done|done|intros i x Hx; by apply (E2 i)|done]).
  assert (table_grows db (<[id := a]> db)) as G1 by (apply insert_grows; by rewrite Hid).
  assert (live_account (<[id := a]> db) id = Some a) as La by (apply live_account_Some; by rewrite lookup_insert_eq).
  assert (table_ok (touch now (<[id := a]> db) id) /\ table_grows db (touch now (<[id := a]> db) id)) as [T2 G2]
    by (split; [by apply touch_ok|eapply table_grows_trans; [exact G1|apply touch_grows]]).
  destruct (Sign _ _ _ _ _ _) as [tok|e] eqn:Es; [|by split_and!]. split; [done|]. split; [done|]. intros lr [= <-]. split; [|done].
  exists (a <| ac_LastActivityAt := Some now |>). split; [by apply touch_live|]. split; [done|]. cbn. revert Es. unfold Sign. cbn. by destruct (signed _ _); [intros [= ->]|].
Qed.
Lemma Login_spec now fails db username password : table_ok db -> let '(db', resp) := Login now fails db username password in
  table_ok db' /\ table_grows db db' /\ (forall lr, resp = Ok lr -> answers now db' lr /\ up_Username (lr_User lr) = Username username /\
    exists a, live_account db (up_ID (lr_User lr)) = Some a /\ ComparePassword (ac_PasswordHash a) password = true).
Proof.
  intros T. unfold Login. destruct (bool_decide _); [by split_and!; [|apply table_grows_refl|]|]. destruct fails; [by split_and!; [|apply table_grows_refl|]|].
  destruct (find_username _ _) as [[id a]|] eqn:E; [|by split_and!; [|apply table_grows_refl|]]. apply find_username_Some in E as [E En].
  destruct (ComparePassword _ _) eqn:Ep; cbn [negb]; [|by split_and!; [|apply table_grows_refl|]].
  destruct (Sign _ _ _ _ _ _) as [tok|e] eqn:Es; [|by split_and!; [|apply table_grows_refl|]]. split; [by apply touch_ok|]. split; [apply touch_grows|].
  intros lr [= <-]. cbn. split; [|by split; [|exists a]]. exists (a <| ac_LastActivityAt := Some now |>). split; [by apply touch_live|]. split; [done|]. cbn. revert Es. unfold Sign. by destruct (signed _ _); [intros [= ->]|].
Qed.
Lemma act_on_spec fails db c act : table_ok db -> table_ok (act_on fails db c act) /\ table_grows db (act_on fails db c act).
Proof.
  intros T. assert (table_ok db /\ table_grows db db) as Same by (split; [done|apply table_grows_refl]).
  destruct act as [id role secret|id]; cbn [act_on]; unfold UserHandler_Update, UserHandler_Delete; destruct (ParseUint 64 id) as [n|]; try done.
  - destruct role as [r|]; [|done]. unfold UpdateUserRole. destruct (n =? _); [done|]. destruct (bool_decide _) eqn:Er; cbn [negb]; [|done].
    apply bool_decide_eq_true in Er. destruct secret as [sec|]; [|done]. destruct fails; [done|]. cbn [fst]. destruct (live_account db n) as [a|] eqn:E; [|done].
    apply live_account_Some in E as [E Hl]. split; [by eapply update_ok|]. apply insert_grows. intros b Hb. assert (b = a) as -> by congruence.
    unfold grows. cbn. split_and!; [done|lia|by rewrite Hl|lia].
  - unfold DeleteUser. destruct (n =? _); [done|]. destruct fails; [done|]. cbn [fst]. destruct (live_account db n) as [a|] eqn:E; [|done].
    apply live_account_Some in E as [E Hl]. split; [eapply update_ok; [done|exact E|done|exact (to_roles _ T n a E)]|]. apply insert_grows. intros b Hb. assert (b = a) as -> by congruence. by split_and!.
Qed.

(** A claim is at most as new as the row it names, and if as new, true of it. *)
Definition known db (c : Claims) : Prop :=
  exists a, db !! cl_UserID c = Some a /\ ac_Username a = cl_Username c /\ cl_TokenVersion c <= ac_TokenVersion a /\
    (ac_TokenVersion a = cl_TokenVersion c -> ac_Role a = cl_Role c).
Record api_ok (st : Api) : Prop := {
  ao_table : table_ok (accounts st);
  ao_registering : Forall registration_ok (registering st);
  ao_issued : forall c, c ∈ issued st -> known (accounts st) c;
  ao_running : forall c, c ∈ running st -> c ∈ issued st }.
Lemma known_grows db db' c : table_grows db db' -> known db c -> known db' c.
Proof.
  intros G (a & Ha & Hn & Hv & Hr). destruct (G _ _ Ha) as (b & Hb & N & V & _ & R). exists b. split; [done|]. split; [congruence|]. split; [lia|].
  intros E. rewrite R by lia. apply Hr. lia.
Qed.
Lemma granted_known now db resp c : c ∈ granted now db resp -> known db c.
Proof.
  unfold granted. destruct resp as [lr|e]; [|by intros ?%elem_of_nil]. destruct (db !! _) as [a|] eqn:E; [|by intros ?%elem_of_nil].
  intros ->%list_elem_of_singleton. exists a. by split_and!.
Qed.
Lemma Forall_delete {A} (P : A -> Prop) (k : nat) (l : list A) : Forall P l -> Forall P (delete k l).
Proof. revert k. induction l as [|x l IH]; intros [|k] H; cbn; [done..| |]; inversion H; subst; [done|]. constructor; [done|by apply IH]. Qed.
Lemma elem_of_delete {A} (x : A) (k : nat) (l : list A) : x ∈ delete k l -> x ∈ l.
Proof. revert k. induction l as [|y l IH]; intros [|k] H; cbn in *; [done..|apply elem_of_cons; by right|]. apply elem_of_cons in H as [->|H]; apply elem_of_cons; [by left|right; by eapply IH]. Qed.
Context {Laws : AuthLaws}.
Lemma ParseAndValidateToken_spec now db tok c : ParseAndValidateToken now db tok = Ok c ->
  exists a, live_account db (cl_UserID c) = Some a /\ verified now (ac_JWTSecret a) tok = Some c /\ cl_TokenVersion c = ac_TokenVersion a.
Proof.
  unfold ParseAndValidateToken, GetUserForAuth, Validate. destruct (unverified tok) as [d|] eqn:Eu; [|done].
  destruct (live_account db (cl_UserID d)) as [a|] eqn:Ea; [|done]. cbn [mbind result_bind].
  destruct (verified now (ac_JWTSecret a) tok) as [v|] eqn:Ev; [|done]. assert (v = d) as -> by (apply verified_reads in Ev; congruence).
  destruct (negb _); [done|]. destruct (cl_Audience d) as [|x l]; [done|]. destruct (bool_decide _); [|done]. cbn [mbind result_bind].
  destruct (_ =? _) eqn:E; [|done]. intros [= <-]. apply Z.eqb_eq in E. by exists a.
Qed.
Lemma enter_spec now db header c : enter now db header = inr (Some c) ->
  exists tok, bearer header = Some tok /\ ParseAndValidateToken now db tok = Ok c /\ cl_Role c = RoleAdmin.
Proof.
  unfold enter, admit_request, Auth. destruct (bearer header) as [tok|]; [|done]. destruct (ParseAndValidateToken now db tok) as [d|] eqn:E; [|done].
  unfold RequireRole. destruct (bool_decide (str "admin" ∈ _)) eqn:E1; cbn [andb].
  - destruct (bool_decide (cl_Role d = str "admin")) eqn:E2; [intros [= <-]; apply bool_decide_eq_true in E2; by exists tok|].
    destruct (bool_decide (cl_Role d ∈ _)) eqn:E3; [|done]. intros [= <-]. apply bool_decide_eq_true, list_elem_of_singleton in E3. by exists tok.
  - destruct (bool_decide (cl_Role d ∈ _)) eqn:E3; [|done]. intros [= <-]. apply bool_decide_eq_true, list_elem_of_singleton in E3. by exists tok.
Qed.
(** Who is let in with a token nobody forged is who the table says, now. *)
Lemma token_current st now header tok c : api_ok st -> unforged st now header -> bearer header = Some tok -> ParseAndValidateToken now (accounts st) tok = Ok c ->
  c ∈ issued st /\ exists a, live_account (accounts st) (cl_UserID c) = Some a /\ ac_Role a = cl_Role c /\ ac_Username a = cl_Username c.
Proof.
  intros I U Hb H. apply ParseAndValidateToken_spec in H as (a & Ha & Hv & Ht). pose proof (U _ _ _ _ Hb Ha Hv) as Hi. split; [done|]. exists a. split; [done|].
  destruct (ao_issued _ I c Hi) as (b & Hb' & Hn & _ & Hr). apply live_account_Some in Ha as [Ha _]. assert (b = a) as -> by congruence. split; [by apply Hr|done].
Qed.
Lemma api_step_ok st e : api_ok st -> honest st e -> api_ok (api_step st e) /\ table_grows (accounts st) (accounts (api_step st e)).
Proof.
  intros I Hh. destruct I as [T R Is Ru]. assert (api_ok st /\ table_grows (accounts st) (accounts st)) as Same by (split; [done|apply table_grows_refl]).
  assert (forall now db' resp reg, table_ok db' -> table_grows (accounts st) db' -> Forall registration_ok reg -> api_ok (mkApi db' reg (running st) (issued st ++ granted now db' resp))) as K.
  { intros now db' resp reg T' G R'. split; [done|done| |]; cbn; intros c.
    - intros [H|H]%elem_of_app; [by eapply known_grows, Is|by eapply granted_known].
    - intros H. apply elem_of_app. left. by apply Ru. }
  destruct e as [fails salt secret name pw|k now id f1 f2|now fails name pw|now header|k fails act]; cbn [api_step].
  - destruct (Register_begin _ _ _ _ _ _) as [r|] eqn:E; [|done]. apply Register_begin_ok in E. split; [|apply table_grows_refl]. split; [done| |done|done]. cbn. apply Forall_app. split; [done|by constructor].
  - destruct (registering st !! k) as [r|] eqn:Er; [|done]. pose proof (Register_end_spec now id f1 f2 (accounts st) r T (proj1 (Forall_lookup _ _) R k r Er)) as H.
    destruct (Register_end _ _ _ _ _ _) as [db' resp]. destruct H as (T' & G & _). split; [|done]. apply K; [done|done|by apply Forall_delete].
  - pose proof (Login_spec now fails (accounts st) name pw T) as H. destruct (Login _ _ _ _ _) as [db' resp]. destruct H as (T' & G & _). split; [|done]. by apply K.
  - destruct (enter now (accounts st) header) as [|[c|]] eqn:E; [done| |done]. apply enter_spec in E as (tok & Hb & Hp & _).
    assert (api_ok st) as I by done. destruct (token_current st now header tok c I Hh Hb Hp) as [Hi _]. split; [|apply table_grows_refl]. split; [done|done|done|]. cbn. intros d [H| ->%list_elem_of_singleton]%elem_of_app; [by apply Ru|done].
  - destruct (running st !! k) as [c|] eqn:E; [|done]. destruct (act_on_spec fails (accounts st) c act T) as [T' G]. split; [|done]. split; [done|done| |]; cbn; intros d H.
    + by eapply known_grows, Is.
    + by eapply Ru, elem_of_delete.
Qed.
Lemma api_from_ok st0 st : api_ok st0 -> api_from st0 st -> api_ok st /\ table_grows (accounts st0) (accounts st).
Proof.
  intros I R. induction R as [|st e R [I1 G] Hh]; [split; [done|apply table_grows_refl]|]. destruct (api_step_ok st e I1 Hh) as [I2 G2]. split; [done|by eapply table_grows_trans].
Qed.
Lemma empty_ok : api_ok empty_api.
Proof. split; [change (accounts empty_api) with (∅ : Table); split; intros *; by rewrite lookup_empty|done|by intros c ?%elem_of_nil|by intros c ?%elem_of_nil]. Qed.

(** C6: through the management interface nobody gets more than the table of
    accounts gives at that moment, however requests overlap. Who passes the
    guard of an administrator's route with a token that was not forged is an
    account that exists, is not deleted and is an administrator now; who passes
    that of the other routes has the name and role the token says. A token of an
    account whose role was changed since, or that was deleted, is never taken
    again. *)
Theorem management_access st now header c : api_reachable st -> unforged st now header ->
  (enter now (accounts st) header = inr (Some c) ->
     exists a, live_account (accounts st) (cl_UserID c) = Some a /\ ac_Role a = RoleAdmin /\ ac_Username a = cl_Username c) /\
  (admit_request now (accounts st) [] true Authenticated header = inr (Some c) ->
     exists a, live_account (accounts st) (cl_UserID c) = Some a /\ ac_Role a = cl_Role c /\ ac_Username a = cl_Username c) /\
  (forall st' d now' tok, d ∈ issued st -> (forall a, live_account (accounts st) (cl_UserID d) = Some a -> ac_TokenVersion a <> cl_TokenVersion d) ->
     api_from st st' -> ParseAndValidateToken now' (accounts st') tok <> Ok d).
Proof.
  intros R U. destruct (api_from_ok _ _ empty_ok R) as [I _]. split; [|split].
  - intros (tok & Hb & Hp & Hr)%enter_spec. destruct (token_current st now header tok c I U Hb Hp) as (_ & a & Ha & Hra & Hn). exists a. split; [done|]. split; [congruence|done].
  - unfold admit_request, Auth. destruct (bearer header) as [tok|] eqn:Hb; [|done]. destruct (ParseAndValidateToken now (accounts st) tok) as [d|] eqn:E; [|done].
    intros [= <-]. by destruct (token_current st now header tok d I U Hb E) as [_ ?].
  - intros st' d now' tok Hd Hs R' H. apply ParseAndValidateToken_spec in H as (b & Hb & _ & Hv). destruct (api_from_ok _ _ I R') as [_ G].
    destruct (ao_issued _ I d Hd) as (a & Ha & _ & Hle & _). destruct (G _ _ Ha) as (b' & Hb' & _ & V & D & _). apply live_account_Some in Hb as [Hb Hl]. assert (b' = b) as -> by congruence.
    destruct (ac_Deleted a) eqn:Ed; [destruct (D eq_refl); unfold is_live in Hl; congruence|]. apply (Hs a); [by apply live_account_Some|]. lia.
Qed.

(** ** A login and its token *)

(** Who logs in with the name and the password of an account is answered
    with a token that is taken, as the account and in the role the table gives,
    until it expires or the table of accounts changes; without a valid name and
    password there is no token. *)
Theorem login_token_accepted now fails db username password : table_ok db ->
  let '(db', resp) := Login now fails db username password in
  match resp with
  | Ok lr => exists a, live_account db' (up_ID (lr_User lr)) = Some a /\ ac_Username a = Username username /\ ComparePassword (ac_PasswordHash a) password = true /\
      forall now', now' < (now + i64 (i64 (jc_ExpiryDays cfg * 24) * Hour)) / 10 ^ 9 * 10 ^ 9 ->
        ParseAndValidateToken now' db' (lr_Token lr) = Ok (claims_for now (up_ID (lr_User lr)) (ac_Username a) (ac_Role a) (ac_TokenVersion a))
  | Err _ => db' = db
  end.
Proof.
  intros T. pose proof (Login_spec now fails db username password T) as H.
  assert ((Login now fails db username password).1 = db \/ exists lr, (Login now fails db username password).2 = Ok lr) as HE.
  { unfold Login. destruct (bool_decide _); [by left|]. destruct fails; [by left|]. destruct (find_username _ _) as [[id a]|]; [|by left]. destruct (negb _); [by left|]. destruct (Sign _ _ _ _ _ _); [right; by eexists|by left]. }
  assert (forall lr, (Login now fails db username password).2 = Ok lr -> (Login now fails db username password).1 = touch now db (up_ID (lr_User lr))) as HT.
  { intros lr. unfold Login. destruct (bool_decide _); [done|]. destruct fails; [done|]. destruct (find_username _ _) as [[id a]|]; [|done]. destruct (negb _); [done|]. destruct (Sign _ _ _ _ _ _); [|done]. by intros [= <-]. }
  destruct (Login now fails db username password) as [db' [lr|e]]; cbn in HE, HT; [|by destruct HE as [|[? ?]]]. destruct H as (_ & _ & H). destruct (H lr eq_refl) as ((a & Ha & Hu & Hs) & Hn & a0 & Ha0 & Hp).
  exists a. split; [done|]. split; [rewrite Hu in Hn; exact Hn|]. split.
  { rewrite (HT lr eq_refl), (touch_live now db _ a0 Ha0) in Ha. injection Ha as <-. exact Hp. }
  intros now' He. pose proof (signed_verified now' _ _ _ Hs He) as Hv. unfold ParseAndValidateToken, GetUserForAuth, Validate. rewrite (verified_reads _ _ _ _ Hv). cbn [cl_UserID claims_for].
  rewrite Ha. cbn [mbind result_bind]. rewrite Hv. cbn [cl_Issuer cl_Audience claims_for]. rewrite !bool_decide_eq_true_2 by done. cbn [negb mbind result_bind cl_TokenVersion claims_for]. by rewrite Z.eqb_refl.
Qed.

(** ** An administrator remains *)

Definition administrated db : Prop := exists id a, live_account db id = Some a /\ ac_Role a = RoleAdmin.
Lemma no_accounts db : count db = 0 <-> forall id a, live_account db id <> Some a.
Proof.
  unfold count. split.
  - intros H id a Ha. apply live_account_Some in Ha as [Ha Hl]. assert (size (filter (fun ia => is_live ia.2) db) = 0%nat) as H0 by lia. apply map_size_empty_inv in H0.
    assert (filter (fun ia => is_live ia.2) db !! id = Some a) as Hf by (by apply map_lookup_filter_Some). rewrite H0, lookup_empty in Hf. done.
  - intros H. assert (filter (fun ia => is_live ia.2) db = ∅) as ->; [|by rewrite map_size_empty].
    apply map_empty. intros id. destruct (filter _ db !! id) as [a|] eqn:E; [|done]. apply map_lookup_filter_Some in E as [E Hl]. destruct (H id a). by apply live_account_Some.
Qed.
Lemma accounts_inhabited db : count db <> 0 -> exists id a, live_account db id = Some a.
Proof.
  unfold count. intros H. destruct (map_choose (filter (fun ia => is_live ia.2) db)) as (i & a & Hf); [intros E; rewrite E, map_size_empty in H; done|].
  apply map_lookup_filter_Some in Hf. exists i, a. by apply live_account_Some.
Qed.
Lemma touch_admin now db id : administrated db -> administrated (touch now db id).
Proof.
  intros (i & a & Ha & Hr). destruct (decide (i = id)) as [->|Hne].
  - exists id, (a <| ac_LastActivityAt := Some now |>). split; [by apply touch_live|done].
  - exists i, a. split; [|done]. unfold touch. destruct (live_account db id) as [b|]; [|done]. apply live_account_Some in Ha. apply live_account_Some. by rewrite lookup_insert_ne.
Qed.
Lemma touch_inhabited now db id : (exists i a, live_account (touch now db id) i = Some a) -> exists i a, live_account db i = Some a.
Proof.
  intros (i & a & Ha). unfold touch in Ha. destruct (live_account db id) as [b|] eqn:E; [by exists id, b|by exists i, a].
Qed.
Lemma act_on_self fails db c act : live_account (act_on fails db c act) (cl_UserID c) = live_account db (cl_UserID c).
Proof.
  assert (forall n (a : Account), n <> cl_UserID c -> live_account (<[n := a]> db) (cl_UserID c) = live_account db (cl_UserID c)) as K by (intros n a Hn; unfold live_account; by rewrite lookup_insert_ne).
  destruct act as [id role secret|id]; cbn [act_on]; unfold UserHandler_Update, UserHandler_Delete; destruct (ParseUint 64 id) as [n|]; try done.
  - destruct role as [r|]; [|done]. unfold UpdateUserRole. destruct (Z.eqb_spec n (cl_UserID c)); [done|]. destruct (negb _); [done|]. destruct secret as [sec|]; [|done]. destruct fails; [done|].
    cbn [fst]. destruct (live_account db n) as [a|]; [by apply K|done].
  - unfold DeleteUser. destruct (Z.eqb_spec n (cl_UserID c)); [done|]. destruct fails; [done|]. cbn [fst]. destruct (live_account db n) as [a|]; [by apply K|done].
Qed.
Lemma Register_admin now id f1 f2 db r : (administrated db \/ ((forall i a, live_account db i <> Some a) /\ rg_Role r = RoleAdmin)) ->
  (exists i a, live_account (Register_end now id f1 f2 db r).1 i = Some a) -> administrated (Register_end now id f1 f2 db r).1.
Proof.
  intros H. assert ((exists i a, live_account db i = Some a) -> administrated db) as Old by (intros (i & a & Ha); destruct H as [?|[H _]]; [done|by destruct (H i a)]).
  unfold Register_end. destruct f1; [done|]. destruct (find_username _ _); [done|]. destruct (f2 || _ || _) eqn:E; [done|].
  apply orb_false_iff in E as [[_ E1]%orb_false_iff _]. apply bool_decide_eq_false in E1.
  set (b := mkAccount _ _ _ _ _ _ _). set (db1 := <[id := b]> db). intros _. assert (administrated db1) as A.
  { destruct H as [(i & a & Ha & Hr)|[_ Hr]].
    - exists i, a. split; [|done]. apply live_account_Some in Ha as [Ha Hl]. apply live_account_Some. unfold db1. rewrite lookup_insert_ne; [done|]. intros ->. apply E1. by eexists.
    - exists id, b. split; [|exact Hr]. apply live_account_Some. unfold db1. by rewrite lookup_insert_eq. }
  destruct (Sign _ _ _ _ _ _); by apply touch_admin.
Qed.

Lemma serial_inv st : api_serial st -> api_reachable st /\ registering st = [] /\ running st = [] /\
  ((exists i a, live_account (accounts st) i = Some a) -> administrated (accounts st)).
Proof.
  induction 1 as [|st rq S (R & E1 & E2 & A) H].
  { split; [constructor|]. split; [done|]. split; [done|]. intros (i & a & Ha%live_account_Some). change (accounts empty_api) with (∅ : Table) in Ha. by rewrite lookup_empty in Ha; destruct Ha. }
  destruct (api_from_ok _ _ empty_ok R) as [I _]. destruct rq as [fails salt secret name pw now id f1 f2|now fails name pw|now header fails act]; cbn [serve_request].
  - split; [by do 2 (apply api_steps; [|done])|]. rewrite E1. cbn [api_step length].
    destruct (Register_begin _ _ _ _ _ _) as [r|e] eqn:Eb; [|rewrite E1; done]. cbn [registering accounts running issued]. rewrite E1. cbn [app lookup list_lookup].
    pose proof (Register_admin now id f1 f2 (accounts st) r) as K. destruct (Register_end _ _ _ _ _ _) as [db' resp]. cbn in *. split; [done|]. split; [done|]. apply K.
    revert Eb. unfold Register_begin. destruct (bool_decide _); [done|]. destruct (_ <? _); [done|]. destruct fails; [done|]. destruct (HashPassword _ _), secret; [|done..]. intros [= <-]. cbn.
    destruct (Z.eqb_spec (count (accounts st)) 0) as [E0|E0]; [right; split; [by apply no_accounts|done]|left].
    by apply A, accounts_inhabited.
  - split; [by apply api_steps|]. cbn [api_step]. pose proof (touch_admin now (accounts st)) as K1. pose proof (touch_inhabited now (accounts st)) as K2.
    unfold Login. destruct (bool_decide _); [done|]. destruct fails; [done|]. destruct (find_username _ _) as [[id a]|]; [|done]. destruct (negb _); [done|].
    destruct (Sign _ _ _ _ _ _); [|done]. cbn. split; [done|]. split; [done|]. intros Hi. apply K1, A, (K2 id), Hi.
  - split; [by do 2 (apply api_steps; [|done])|]. rewrite E2. cbn [api_step length].
    destruct (enter now (accounts st) header) as [e|[c|]] eqn:Ee; [by rewrite E2|cbn [running accounts registering issued]; rewrite E2; cbn [app lookup list_lookup]|by rewrite E2].
    split; [done|]. split; [done|]. intros _. cbn. apply enter_spec in Ee as (tok & Hb & Hp & Hr). destruct (token_current st now header tok c I H Hb Hp) as (_ & a & Ha & Hra & _).
    exists (cl_UserID c), a. split; [by rewrite act_on_self|congruence].
Qed.
(** C7: when requests do not overlap, there is an administrator as soon as there
    is an account, and for ever after: the first account becomes one, and no
    request of an administrator takes the last one away. *)
Theorem administrator_remains st : api_serial st -> (exists i a, live_account (accounts st) i = Some a) ->
  exists i a, live_account (accounts st) i = Some a /\ ac_Role a = RoleAdmin.
Proof. intros S. by apply serial_inv. Qed.
End Accounts.
End Accounts.
