(* ===== verification/RestServer.v ===== *)
(** * What the REST interface does to the running server

    The requests of [internal/handler/server.go], [acl.go] and [ban.go] that
    reach the live server by way of [internal/server/server.go] and
    [internal/rest]: channels, permissions, bans, the policy for content, what is
    done to a connected user (kick, ban, mute), the callback that has a user
    checked again, and the list of users. A body is what JSON makes of it ([None]
    when it does not parse); the transaction that saves the permissions and the
    deletion of a ban are parameters. Only the virtual server 1 is running. The
    guards of the routes (roles, limits) are in [Accounts]. *)

From Stdlib Require Import ZArith Lia String.
From stdpp Require Import base numbers list gmap sets option.
From S2P Require Import Prelude Wire Fields Messages Codec Registry UserManager ChannelManager Acl AclCache Listeners VoiceState VoiceServer Ban RateLimit ServerState UserStateHandler ChannelHandlers SessionHandlers Identity Login Revalidation SiteInvariant Accounts.

Module RestServer.
Import Acl AclCache VoiceState VoiceFlags VoiceServer ServerState UserStateHandler ChannelHandlers SessionHandlers Identity Login Revalidation SiteInvariant.

(** What the client gets: a status, or nothing when the handler panics; or what
    comes of a request about the rows of a virtual server that is not running. *)
Inductive reply := Status (code : Z) | Panicked | Elsewhere.
#[export] Instance reply_eq_dec : EqDecision reply.
Proof. solve_decision. Defined.

(** [strconv.ParseUint(s, 10, 32)]. *)
Definition ParseUint32 (s : gostring) : option Z :=
  match s with
  | [] => None
  | _ => n ← parse_digits s 0; if n <? 2 ^ 32 then Some n else None
  end.

(** ** Bodies *)

Record CreateChannelBody := mkCreateBody {
  cb_ParentID : Z; cb_Name : gostring; cb_Description : gostring; cb_Position : Z; cb_Temporary : bool; cb_MaxUsers : Z }.
Record UpdateChannelBody := mkUpdateBody {
  ub_Name : option gostring; ub_Description : option gostring; ub_Position : option Z; ub_MaxUsers : option Z;
  ub_Temporary : option bool; ub_Links : option (list Z) }.
Record ACLBody := mkACLBody { ab_Groups : list (gostring * ChannelGroup); ab_ACLs : list (Z * ChannelACL) }.
Record BanBody := mkBanBody {
  bb_Address : gostring; bb_Hash : gostring; bb_Name : gostring; bb_Reason : gostring; bb_Duration : Z }.

(** A user in the answer to [GetUsers]. *)
Record ConnectedUser := mkConnectedUser {
  cu_SessionID : Z; cu_UserID : Z; cu_Name : gostring; cu_ChannelID : Z; cu_Address : gostring; cu_Ping : Z;
  cu_CertificateHash : gostring; cu_CryptoMode : gostring; cu_VoiceTransport : gostring;
  cu_SelfMute : bool; cu_SelfDeaf : bool; cu_Mute : bool; cu_Deaf : bool; cu_IsAdmin : bool }.

(** The database as these requests use it: the transaction that replaces the
    rules of a channel, and whether it committed; the deletion of a ban, [None]
    when there is none with this number. A transaction that fails leaves the
    rows as they were. *)
Class RestTables (BDB : Type) := {
  saveACL : AclStore -> Z -> list (gostring * ChannelGroup) -> list (Z * ChannelACL) -> AclStore * bool;
  deleteBan : BDB -> Z -> option (BDB * bool);
  saveACL_rollback : forall st cid groups acls st', saveACL st cid groups acls = (st', false) -> st' = st }.

Section Rest.
Context (EqualFold : gostring -> gostring -> bool).
Context `{SO : Channels.Sorter} {DB TX : Type} `{CS : Channels.ChannelStore DB TX}.
Context (ord : nat -> Channels.order).
Context (ToLower : gostring -> gostring) (ParseTime : gostring -> Z) (FormatTime : Z -> gostring) (ParseIP : gostring -> option bytes).
Context {BDB : Type} `{BS : Ban.BanStore BDB}.
Context `{RT : RestTables BDB}.
Context (authority : option Authority) (staleGrace : Z) (token : gostring).
Implicit Types (s : Server DB) (t : Site DB BDB).

(** ** The live server behind the handlers *)

(** [None] is a nil pointer. *)
Definition getChanMgr t (serverID : Z) : option (Channels.Manager DB) :=
  if serverID =? 1 then Some (srv_chans (server t)) else None.
Definition onChannelMutated t (serverID : Z) (ch : option Channels.Channel) (channelID : Z) (removed : bool) : list effect :=
  if negb (serverID =? 1) then [] else
  if removed then BroadcastChannelRemove (server t) channelID else
  match ch with Some ch => BroadcastChannelState EqualFold (server t) ch | None => [] end.
Definition onACLChange t (serverID : Z) : Site DB BDB * list effect :=
  if negb (serverID =? 1) then (t, []) else
  let t := with_server t (invalidateACLCache (server t)) in
  let '(s, e1) := RefreshSuppressStates EqualFold (server t) in
  (with_server t s, e1 ++ RefreshEnterStates EqualFold s).
(** [OnAuthorizationChange] of the service for accounts, which runs once a role has
    changed or an account is deleted: [roles] is what the table says then. *)
Definition with_roles (st : AclStore) (roles : Z -> option (option gostring)) : AclStore := mkStore (aclRows st) (groupRows st) roles (allRows st).
Definition OnAuthorizationChange t (roles : Z -> option (option gostring)) : Site DB BDB * list effect :=
  onACLChange (with_server t ((server t) <| srv_store := with_roles (srv_store (server t)) roles |>)) 1.
Definition onBanChange t (serverID : Z) : Site DB BDB :=
  if serverID =? 1 then t <| bans := Ban.Reload ToLower (bans t) |> else t.
(** [loaded]: what [LoadServerConfig] answers: recording, text and image limits. *)
Definition onConfigChange t (serverID : Z) (loaded : option (bool * Z * Z)) : Site DB BDB :=
  if negb (serverID =? 1) then t else
  match loaded with
  | None => t
  | Some (recording, text, image) =>
      let p := settings (core t) in
      t <| core := mkCore DB (srv (core t)) (mkSettings recording text image (MaxChannelListeners p) (MaxListenersPerUser p) (DefaultChannel p))
             (textRateLimiter (core t)) (userStateRateLimiter (core t)) |>
  end.

(** ** Channels *)

Definition CreateChannel t (id : gostring) (body : option CreateChannelBody) : Site DB BDB * list effect * reply :=
  match ParseUint32 id, body with
  | None, _ | _, None => (t, [], Status 400)
  | Some id, Some b =>
      if bool_decide (cb_Name b = []) then (t, [], Status 400) else
      match getChanMgr t id with
      | None => (t, [], Panicked)
      | Some mgr =>
          let '(m, ch, ls) := Channels.Create mgr (cb_ParentID b) (cb_Name b) (cb_Description b) (cb_Position b) (cb_Temporary b) (cb_MaxUsers b) in
          let t := with_server t (with_chans (server t) m ls) in
          match ch with
          | None => (t, [], Status 500)
          | Some ch => (t, onChannelMutated t id (Some ch) (Channels.ID ch) false, Status 201)
          end
      end
  end.

Definition has_fields (b : UpdateChannelBody) : bool :=
  match ub_Name b, ub_Description b, ub_Position b, ub_MaxUsers b, ub_Temporary b with
  | None, None, None, None, None => false
  | _, _, _, _, _ => true
  end.
Definition update_opts (b : UpdateChannelBody) : Channels.UpdateOpts :=
  Channels.mkOpts (ub_Name b) (ub_Description b) (ub_Position b) (ub_MaxUsers b) (ub_Temporary b) None [] [].
Definition UpdateChannel t (id channelId : gostring) (body : option UpdateChannelBody) : Site DB BDB * list effect * reply :=
  match ParseUint32 id, ParseUint32 channelId, body with
  | None, _, _ | _, None, _ | _, _, None => (t, [], Status 400)
  | Some id, Some cid, Some b =>
      match getChanMgr t id with
      | None => (t, [], Panicked)
      | Some mgr =>
          match Channels.GetChannel mgr cid with
          | None => (t, [], Status 404)
          | Some _ =>
              let '(t, updated) :=
                if has_fields b then
                  let '(m, ok, ls) := Channels.Update (ord 1%nat) mgr cid (update_opts b) in (with_server t (with_chans (server t) m ls), ok)
                else (t, true) in
              if negb updated then (t, [], Status 404) else
              let e1 := match Channels.GetChannel (srv_chans (server t)) cid with
                        | Some ch => onChannelMutated t id (Some ch) cid false | None => [] end in
              match ub_Links b with
              | None => (t, e1, Status 204)
              | Some links =>
                  let '(m, changed) := Channels.UpdateLinks (ord 3%nat) (ord 4%nat) (srv_chans (server t)) cid links in
                  let t := with_server t (with_chans (server t) m []) in
                  match changed with
                  | None => (t, e1, Status 400)
                  | Some changed =>
                      (t, e1 ++ concat (map (fun c => match Channels.GetChannel (srv_chans (server t)) c with
                            | Some ch => onChannelMutated t id (Some ch) c false | None => [] end) changed), Status 204)
                  end
              end
          end
      end
  end.

Definition DeleteChannel t (id channelId : gostring) : Site DB BDB * list effect * reply :=
  match ParseUint32 id, ParseUint32 channelId with
  | None, _ | _, None => (t, [], Status 400)
  | Some id, Some cid =>
      match getChanMgr t id with
      | None => (t, [], Panicked)
      | Some mgr =>
          let '(m, ok, ls) := Channels.Remove mgr cid in
          let t := with_server t (with_chans (server t) m ls) in
          if negb ok then (t, [], Status 400) else (t, onChannelMutated t id None cid true, Status 204)
      end
  end.

(** ** Permissions and bans *)

Definition PutACL t (id channelId : gostring) (body : option ACLBody) : Site DB BDB * list effect * reply :=
  match ParseUint32 id, ParseUint32 channelId, body with
  | None, _, _ | _, None, _ | _, _, None => (t, [], Status 400)
  | Some id, Some cid, Some b =>
      if negb (id =? 1) then (t, [], Elsewhere) else
      let groups := filter (fun g => g.1 <> []) (ab_Groups b) in
      let '(st, ok) := saveACL (srv_store (server t)) cid groups (ab_ACLs b) in
      let t := with_server t ((server t) <| srv_store := st |>) in
      if negb ok then (t, [], Status 500) else
      let '(t, e) := onACLChange t id in (t, e, Status 204)
  end.

Definition CreateBan (now : Z) t (id : gostring) (body : option BanBody) : Site DB BDB * reply :=
  match ParseUint32 id, body with
  | None, _ | _, None => (t, Status 400)
  | Some id, Some b =>
      if bool_decide (bb_Address b = []) && bool_decide (bb_Hash b = []) then (t, Status 400) else
      match (if bool_decide (bb_Address b = []) then Some ([], 32) else
             ip ← ParseIP (bb_Address b); match Ban.To4 ip with Some ip4 => Some (ip4, 32) | None => Some (ip, 128) end) with
      | None => (t, Status 400)
      | Some (addr, mask) =>
          if negb (id =? 1) then (t, Elsewhere) else
            let '(d, ok) := Ban.createBan (Ban.db (bans t)) (Ban.mkRow addr mask (bb_Name b) (bb_Hash b) (bb_Reason b) now (bb_Duration b)) in
            let t := t <| bans := Ban.mkManager d (Ban.bans (bans t)) |> in
            if negb ok then (t, Status 500) else (onBanChange t id, Status 201)
      end
  end.
Definition DeleteBan t (id banId : gostring) : Site DB BDB * reply :=
  match ParseUint32 id, ParseUint32 banId with
  | None, _ | _, None => (t, Status 400)
  | Some id, Some bid =>
      if negb (id =? 1) then (t, Elsewhere) else
      match deleteBan (Ban.db (bans t)) bid with
      | None => (t, Status 404)
      | Some (d, ok) =>
          let t := t <| bans := Ban.mkManager d (Ban.bans (bans t)) |> in
          if negb ok then (t, Status 500) else (onBanChange t id, Status 204)
      end
  end.

(** ** The list of users *)

Definition HasUDPAddress t (sessionID : Z) : bool :=
  match Registry.Ref (srv_registry (server t)) sessionID with
  | None => false
  | Some rf => bool_decide (is_Some (addrBySession t !! rf))
  end.
Definition connected_user t (includeSensitive : bool) (u : User.t) : ConnectedUser :=
  let v := User.Voice u in
  mkConnectedUser (User.SessionID u) (User.UserID u) (User.Name u) (User.ChannelID u)
    (if includeSensitive then User.Address u else []) (User.Ping u) (if includeSensitive then User.CertHash u else []) (User.CryptoMode u)
    (if HasUDPAddress t (User.SessionID u) then str "udp"%string else str "tcp"%string)
    (SelfMute v) (SelfDeaf v) (Mute v) (Deaf v) (IsAdminForDisplay (srv_store (server t)) (User.UserID u)).
Definition ListConnected t (includeSensitive : bool) : list ConnectedUser :=
  map (connected_user t includeSensitive) (SnapshotAll (srv_users (server t))).
(** [role]: the role of the claims, if the request has any. *)
Definition GetUsers t (role : option gostring) : list ConnectedUser :=
  ListConnected t (match role with Some r => bool_decide (r = str "admin"%string) | None => false end).

(** ** Kick, mute and ban *)

(** The adapter behind the handlers serves virtual server 1 alone. *)
Definition doUserAction t (id sessionId : gostring) (fn : Z -> Site DB BDB * list effect * bool) : Site DB BDB * list effect * reply :=
  match ParseUint32 id, ParseUint32 sessionId with
  | None, _ | _, None => (t, [], Status 400)
  | Some id, Some sid =>
      let '(t, e, ok) := if id =? 1 then fn sid else (t, [], false) in
      (t, e, Status (if ok : bool then 204 else 404))
  end.
Definition KickUser t (id sessionId reason : gostring) : Site DB BDB * list effect * reply :=
  doUserAction t id sessionId (fun sid => KickSession ord t sid reason).
Definition BanUser (now : Z) t (connIP : option bytes) (id sessionId reason : gostring) : Site DB BDB * list effect * reply :=
  doUserAction t id sessionId (fun sid => BanAndKickSession ord ToLower ParseTime FormatTime ParseIP now t connIP sid reason).
Definition MuteUser t (id sessionId : gostring) (body : option bool) : Site DB BDB * list effect * reply :=
  match body with
  | None => (t, [], Status 400)
  | Some mute => doUserAction t id sessionId (fun sid => let '(s, e, ok) := MuteSession (server t) sid mute in (with_server t s, e, ok))
  end.

(** The callback [/internal/identity/v1/revalidate] of an identity provider;
    [header] is the header [Authorization], [body] the number of the user.
    [Start] always gives the router [RevalidateUserNow]. *)
Definition Revalidate (now : Z) t (header : gostring) (body : option Z) : Site DB BDB * list effect * reply :=
  if negb (Accounts.service_token_ok token header) then (t, [], Status 401) else
  match body with
  | None => (t, [], Status 400)
  | Some userID =>
      if userID =? 0 then (t, [], Status 400) else
      let '(t, e, ok) := RevalidateUserNow EqualFold ord authority staleGrace now t userID in
      (t, e, Status (if ok : bool then 202 else 503))
  end.

(** ** One request *)

Inductive request :=
  | ReqCreateChannel (id : gostring) (body : option CreateChannelBody)
  | ReqUpdateChannel (id channelId : gostring) (body : option UpdateChannelBody)
  | ReqDeleteChannel (id channelId : gostring)
  | ReqPutACL (id channelId : gostring) (body : option ACLBody)
  | ReqCreateBan (now : Z) (id : gostring) (body : option BanBody)
  | ReqDeleteBan (id banId : gostring)
  | ReqConfig (serverID : Z) (loaded : option (bool * Z * Z))
  | ReqAccount (roles : Z -> option (option gostring))
  | ReqKick (id sessionId reason : gostring)
  | ReqBan (now : Z) (connIP : option bytes) (id sessionId reason : gostring)
  | ReqMute (id sessionId : gostring) (body : option bool)
  | ReqRevalidate (now : Z) (header : gostring) (body : option Z).
Definition rest_handle t (rq : request) : Site DB BDB * list effect * reply :=
  match rq with
  | ReqCreateChannel id body => CreateChannel t id body
  | ReqUpdateChannel id cid body => UpdateChannel t id cid body
  | ReqDeleteChannel id cid => DeleteChannel t id cid
  | ReqPutACL id cid body => PutACL t id cid body
  | ReqCreateBan now id body => let '(t, r) := CreateBan now t id body in (t, [], r)
  | ReqDeleteBan id bid => let '(t, r) := DeleteBan t id bid in (t, [], r)
  | ReqConfig id loaded => (onConfigChange t id loaded, [], Status 204)
  | ReqAccount roles => (OnAuthorizationChange t roles, Status 204)
  | ReqKick id sid reason => KickUser t id sid reason
  | ReqBan now connIP id sid reason => BanUser now t connIP id sid reason
  | ReqMute id sid body => MuteUser t id sid body
  | ReqRevalidate now header body => Revalidate now t header body
  end.

(** ** What a request keeps *)

Notation ok := (site_ok EqualFold).
Notation live := (live_ok EqualFold).
Hypothesis Hord : forall i, Channels.order_ok (ord i).

Lemma chans_ok t o m ls : ok t -> Channels.cop_ok o -> chan_exec (srv_chans (server t)) o = Some (m, ls) ->
  (forall sid u, Snapshot (srv_users (server t)) sid = Some u -> is_Some (Channels.GetChannel (srv_chans (server t)) (User.ChannelID u)) -> is_Some (Channels.GetChannel m (User.ChannelID u))) ->
  (forall ch, Channels.GetChannel m 0 = Some ch -> Channels.ParentID ch = 0) ->
  ok (with_server t (with_chans (server t) m ls)).
Proof.
  intros [L [Lu Lr] R] Ho E Hu Hr. split; cbn.
  - by apply (with_chans_ok EqualFold (server t) o m ls).
  - split; cbn; [|exact Hr]. intros sid u Hs. by eapply Hu, Lu.
  - exact R.
Qed.
Lemma CreateChannel_ok t id body : ok t -> ok (CreateChannel t id body).1.1.
Proof.
  intros S. unfold CreateChannel. destruct (ParseUint32 id) as [n|], body as [b|]; try done. destruct (bool_decide _); [done|].
  unfold getChanMgr. destruct (n =? 1); [|done]. pose proof (ok_chans _ _ (lo_server _ _ (so_live _ _ S))) as W.
  pose proof (Channels.Create_cases (srv_chans (server t)) (cb_ParentID b) (cb_Name b) (cb_Description b) (cb_Position b) (cb_Temporary b) (cb_MaxUsers b) W) as H.
  destruct (Channels.Create _ _ _ _ _ _ _) as [[m r] ls] eqn:E.
  assert (ok (with_server t (with_chans (server t) m ls))) as K; [|by destruct r].
  apply (chans_ok t (Channels.OpCreate (cb_ParentID b) (cb_Name b) (cb_Description b) (cb_Position b) (cb_Temporary b) (cb_MaxUsers b))); [done|done|by cbn; rewrite E| |]; unfold Channels.GetChannel.
  - intros sid u _. destruct H as [(_ & _ & Hx)|(ch & d & pl & pn & _ & _ & _ & _ & _ & _ & _ & Hx)]; rewrite Hx; [done|]. by case_decide.
  - intros ch. destruct H as [(_ & _ & Hx)|(ch0 & d & pl & pn & _ & _ & _ & _ & Hn & _ & _ & Hx)]; rewrite Hx; [apply (lc_root _ (so_located _ _ S))|].
    case_decide as H0; [|apply (lc_root _ (so_located _ _ S))]. rewrite <- H0 in Hn. destruct (Channels.cw_root _ W) as [l Hl]. congruence.
Qed.
Lemma updates_parent u ch : Channels.ParentID (Channels.apply_updates u ch) = Channels.ParentID ch.
Proof. unfold Channels.apply_updates, Channels.set_opt. by destruct (Channels.up_name u), (Channels.up_description u), (Channels.up_position u), (Channels.up_max_users u), (Channels.up_is_temporary u), (Channels.up_links u). Qed.
Lemma Update_ok t o cid opts m k ls : ok t -> Channels.Update o (srv_chans (server t)) cid opts = (m, k, ls) -> ok (with_server t (with_chans (server t) m ls)).
Proof.
  intros S E. pose proof (Update_channels o (srv_chans (server t)) cid opts) as H. rewrite E in H. cbn [fst] in H.
  specialize (fun x => H x (ok_chans _ _ (lo_server _ _ (so_live _ _ S)))) as Hx.
  apply (chans_ok t (Channels.OpUpdate o cid opts)); [done|done|by cbn; rewrite E| |].
  - intros sid u _ [ch Hc]. rewrite Hx. case_decide as Hd; [|by eexists]. rewrite Hc. by eexists.
  - intros ch. rewrite Hx. case_decide; [|apply (lc_root _ (so_located _ _ S))]. destruct (Channels.GetChannel _ 0) as [ch0|] eqn:E0; [|done].
    cbn. intros [= <-]. rewrite updates_parent. by apply (lc_root _ (so_located _ _ S)).
Qed.
Lemma UpdateLinks_ok t o1 o2 cid links : Channels.order_ok o1 -> Channels.order_ok o2 -> ok t ->
  ok (with_server t (with_chans (server t) (Channels.UpdateLinks o1 o2 (srv_chans (server t)) cid links).1 [])).
Proof.
  intros H1 H2 S. pose proof (UpdateLinks_frame o1 o2 (srv_chans (server t)) cid links (ok_chans _ _ (lo_server _ _ (so_live _ _ S)))) as F.
  apply (chans_ok t (Channels.OpUpdateLinks o1 o2 cid links)); [done|done|done| |].
  - intros sid u _ Hc. by apply (same_but_links_there _ _ _ F).
  - intros ch Hc. specialize (F 0). rewrite Hc in F. cbn in F. destruct (Channels.GetChannel (srv_chans (server t)) 0) as [ch0|] eqn:E0; [|done].
    apply (lc_root _ (so_located _ _ S)) in E0. cbn in F. injection F. intros. congruence.
Qed.
Lemma UpdateChannel_ok t id cid body : ok t -> ok (UpdateChannel t id cid body).1.1.
Proof.
  intros S. unfold UpdateChannel. destruct (ParseUint32 id) as [n|], (ParseUint32 cid) as [k|], body as [b|]; try done.
  unfold getChanMgr. destruct (n =? 1); [|done]. destruct (Channels.GetChannel _ k); [|done].
  destruct (if has_fields b then _ else _) as [t1 updated] eqn:E. assert (ok t1) as S1.
  { destruct (has_fields b); [|by injection E as <- <-]. destruct (Channels.Update _ _ _ _) as [[m u] ls] eqn:Eu. injection E as <- <-. by eapply Update_ok. }
  destruct (negb updated); [done|]. destruct (ub_Links b) as [links|]; [|done].
  pose proof (UpdateLinks_ok t1 (ord 3%nat) (ord 4%nat) k links (Hord _) (Hord _) S1) as S2. destruct (Channels.UpdateLinks _ _ _ _ _) as [m changed]. by destruct changed.
Qed.

Lemma doUserAction_ind (P : Site DB BDB -> Prop) t id sessionId fn : P t -> (forall sid, P (fn sid).1.1) -> P (doUserAction t id sessionId fn).1.1.
Proof.
  intros H0 H. unfold doUserAction. destruct (ParseUint32 id) as [n|], (ParseUint32 sessionId) as [sid|]; try done. destruct (n =? 1); [|done].
  specialize (H sid). by destruct (fn sid) as [[t' e] o].
Qed.
(** The request deletes a channel that somebody is in. *)
Definition evicts t (rq : request) : Prop :=
  match rq with
  | ReqDeleteChannel id channelId => exists cid sid u, ParseUint32 id = Some 1 /\ ParseUint32 channelId = Some cid /\
      Snapshot (srv_users (server t)) sid = Some u /\ User.ChannelID u = cid
  | _ => False
  end.
Lemma DeleteChannel_ok t id cid : ok t -> ~ evicts t (ReqDeleteChannel id cid) -> ok (DeleteChannel t id cid).1.1.
Proof.
  intros S He. unfold DeleteChannel. cbn in He. destruct (ParseUint32 id) as [n|], (ParseUint32 cid) as [k|]; try done.
  unfold getChanMgr. destruct (Z.eqb_spec n 1) as [->|]; [|done].
  pose proof (Channels.Remove_cases (srv_chans (server t)) k (ok_chans _ _ (lo_server _ _ (so_live _ _ S)))) as H.
  destruct (Channels.Remove _ _) as [[m r] ls] eqn:E. destruct H as [_ H].
  assert (ok (with_server t (with_chans (server t) m ls))) as K; [|by destruct r].
  apply (chans_ok t (Channels.OpRemove k)); [done|done|by cbn; rewrite E| |]; unfold Channels.GetChannel.
  - intros sid u Hu Hc. destruct H as [[_ Hx]|(_ & _ & _ & Hx)]; rewrite Hx; [done|]. case_decide as Hd; [|done]. exfalso. apply He. exists k, sid, u. done.
  - intros ch. destruct H as [[_ Hx]|(_ & H0 & _ & Hx)]; rewrite Hx; [apply (lc_root _ (so_located _ _ S))|]. rewrite decide_False by done. apply (lc_root _ (so_located _ _ S)).
Qed.

(** New rules, with the cache cleared. *)
Lemma rules_ok t st : ok t -> ok (with_server t (invalidateACLCache ((server t) <| srv_store := st |>))).
Proof.
  intros [[[O1 O2 O3 O4 O5] L1 L2 L3] [Lu Lr] R]. split; [split; [split|..]|split|]; cbn; try done.
  intros e He. destruct (srv_acl (server t)); [|done]. cbn in He. injection He as <-. apply cache_valid_empty.
Qed.
Lemma refresh_suppress_ok t u : ok t -> ok (with_server t (refresh_suppress EqualFold (server t) u).1).
Proof.
  intros S. unfold refresh_suppress. set (fn := fun live => live <| User.Voice := _ |>).
  pose proof (updateUser_ok EqualFold t (User.SessionID u) fn S ltac:(by intros ?) ltac:(by intros ?) ltac:(by intros ?)) as H.
  destruct (updateUser _ _ fn) as [s [v|]]; [|done]. by destruct (negb _).
Qed.
Lemma refresh_all_ok us : forall t, ok t -> ok (with_server t (refresh_all EqualFold (server t) us).1).
Proof.
  induction us as [|u us IH]; intros t S; cbn [refresh_all]; [by apply (same_server_ok EqualFold t)|].
  pose proof (refresh_suppress_ok t u S) as H. destruct (refresh_suppress _ _ u) as [s e1]. specialize (IH _ H).
  change (server (with_server t (s, e1).1)) with s in IH. by destruct (refresh_all _ s us) as [s2 e2].
Qed.
Lemma onACLChange_ok t st : ok t -> ok (onACLChange (with_server t ((server t) <| srv_store := st |>)) 1).1.
Proof.
  intros S. unfold onACLChange, RefreshSuppressStates. cbn [Z.eqb Pos.eqb negb]. cbv zeta. pose proof (rules_ok t st S) as S1.
  set (t2 := with_server (with_server t _) _). assert (ok t2) as S2 by (apply (same_server_ok EqualFold (with_server t (invalidateACLCache ((server t) <| srv_store := st |>)))); done).
  pose proof (refresh_all_ok (SnapshotAll (srv_users (server t2))) t2 S2) as H. destruct (srv_acl (server t2)); [|exact S2].
  by destruct (refresh_all _ _ _) as [s2 e2].
Qed.
Lemma PutACL_ok t id cid body : ok t -> ok (PutACL t id cid body).1.1.
Proof.
  intros S. unfold PutACL. destruct (ParseUint32 id) as [n|], (ParseUint32 cid) as [k|], body as [b|]; try done. destruct (Z.eqb_spec n 1) as [->|]; cbn [negb]; [|done].
  destruct (saveACL _ _ _ _) as [st [|]] eqn:E; cbn [negb].
  - pose proof (onACLChange_ok t st S) as H. by destruct (onACLChange _ _) as [t2 e2].
  - apply saveACL_rollback in E as ->. apply (same_server_ok EqualFold t); [|done]. destruct t as [[s p l1 l2] bs cs a1 a2]. by destruct s.
Qed.
Lemma same_core_ok t t' : core t' = core t -> ok t -> ok t'.
Proof. intros E. apply same_server_ok. unfold server. by rewrite E. Qed.
Lemma CreateBan_core now t id body : core (CreateBan now t id body).1 = core t.
Proof.
  unfold CreateBan, onBanChange. destruct (ParseUint32 id), body as [b|]; try done. destruct (_ && _); [done|].
  destruct (if bool_decide _ then _ else _) as [[addr mask]|]; [|done]. destruct (negb _) eqn:E; [done|]. destruct (Ban.createBan _ _) as [d o]. destruct (negb o); [done|]. by destruct (_ =? _).
Qed.
Lemma DeleteBan_core t id bid : core (DeleteBan t id bid).1 = core t.
Proof.
  unfold DeleteBan, onBanChange. destruct (ParseUint32 id), (ParseUint32 bid); try done. destruct (negb _); [done|].
  destruct (deleteBan _ _) as [[d o]|]; [|done]. destruct (negb o); [done|]. by destruct (_ =? _).
Qed.
Lemma onConfigChange_server t id loaded : server (onConfigChange t id loaded) = server t.
Proof. unfold onConfigChange. destruct (negb _); [done|]. by destruct loaded as [[[? ?] ?]|]. Qed.

Lemma Revalidate_ok now t header body : ok t -> ok (Revalidate now t header body).1.1.
Proof.
  intros S. unfold Revalidate. destruct (negb _); [done|]. destruct body as [n|]; [|done]. destruct (n =? 0); [done|].
  assert (ok (RevalidateUserNow EqualFold ord authority staleGrace now t n).1.1) as H by (by apply RevalidateUserNow_ok). by destruct (RevalidateUserNow _ _ _ _ _ _ _) as [[t' e] o].
Qed.
Lemma MuteUser_ok t id sid body : ok t -> ok (MuteUser t id sid body).1.1.
Proof.
  intros S. unfold MuteUser. destruct body as [mute|]; [|done]. apply (doUserAction_ind ok); [done|]. intros n.
  pose proof (MuteSession_ok EqualFold t n mute S) as H. by destruct (MuteSession _ _ _) as [[s e] o].
Qed.
Lemma rest_ok t rq : ok t -> ~ evicts t rq -> ok (rest_handle t rq).1.1.
Proof.
  intros S He. destruct rq as [id body|id cid body|id cid|id cid body|now id body|id bid|id loaded|roles|id sid reason|now ip id sid reason|id sid body|now header body]; cbn [rest_handle].
  - by apply CreateChannel_ok.
  - by apply UpdateChannel_ok.
  - by apply DeleteChannel_ok.
  - by apply PutACL_ok.
  - pose proof (CreateBan_core now t id body) as H. destruct (CreateBan now t id body). by apply (same_core_ok t).
  - pose proof (DeleteBan_core t id bid) as H. destruct (DeleteBan t id bid). by apply (same_core_ok t).
  - apply (same_server_ok EqualFold t); [apply onConfigChange_server|done].
  - by apply onACLChange_ok.
  - apply (doUserAction_ind ok); [done|]. intros n. by apply KickSession_ok.
  - apply (doUserAction_ind ok); [done|]. intros n. by apply BanAndKickSession_ok.
  - by apply MuteUser_ok.
  - by apply Revalidate_ok.
Qed.

(** ** Whom a request touches *)

(** Where a user is, and who. *)
Definition place (u : User.t) : Z * gostring * Z := (User.ChannelID u, User.Name u, User.SessionGeneration u).
Definition same_people s s' : Prop :=
  srv_registry s' = srv_registry s /\ forall sid, place <$> Snapshot (srv_users s') sid = place <$> Snapshot (srv_users s) sid.
Lemma same_people_refl s : same_people s s.
Proof. done. Qed.
Lemma same_people_trans s1 s2 s3 : same_people s1 s2 -> same_people s2 s3 -> same_people s1 s3.
Proof. intros [R1 H1] [R2 H2]. split; [congruence|]. intros sid. by rewrite H2. Qed.
Lemma refresh_suppress_people s u : live s -> same_people s (refresh_suppress EqualFold s u).1 /\ live (refresh_suppress EqualFold s u).1.
Proof.
  intros L. unfold refresh_suppress. set (fn := fun live => live <| User.Voice := _ |>).
  pose proof (updateUser_exact EqualFold s (User.SessionID u) fn L ltac:(by intros ?) ltac:(by intros ?)) as H.
  destruct (updateUser _ _ fn) as [s' o]. destruct H as (_ & L' & (_ & R & _) & _ & _ & HS).
  assert (same_people s s') as P.
  { split; [done|]. intros sid. rewrite HS. case_decide as Hd; [|done]. subst sid. destruct (Snapshot _ _) as [v|]; [|done]. cbn. by rewrite (settled_frame fn v). }
  destruct o as [v|]; [|done]. by destruct (negb _).
Qed.
Lemma refresh_all_people us : forall s, live s -> same_people s (refresh_all EqualFold s us).1.
Proof.
  induction us as [|u us IH]; intros s L; cbn [refresh_all]; [done|].
  destruct (refresh_suppress_people s u L) as [P L1]. destruct (refresh_suppress _ s u) as [s1 e1]. cbn [fst] in *. specialize (IH _ L1).
  destruct (refresh_all _ s1 us) as [s2 e2]. exact (same_people_trans _ _ _ P IH).
Qed.
Lemma onACLChange_people t st : ok t -> same_people (server t) (server (onACLChange (with_server t ((server t) <| srv_store := st |>)) 1).1).
Proof.
  intros S. unfold onACLChange, RefreshSuppressStates. cbn [Z.eqb Pos.eqb negb]. cbv zeta.
  pose proof (so_live _ _ (rules_ok t st S)) as L. set (t2 := with_server (with_server t _) _). assert (live (server t2)) as L2 by exact L.
  pose proof (refresh_all_people (SnapshotAll (srv_users (server t2))) (server t2) L2) as H. destruct (srv_acl (server t2)); [|done].
  by destruct (refresh_all _ _ _) as [s2 e2].
Qed.
(** The requests that are about the content of the server, not about a user. *)
Definition about_content (rq : request) : bool :=
  match rq with ReqKick _ _ _ | ReqBan _ _ _ _ _ | ReqMute _ _ _ | ReqRevalidate _ _ _ => false | _ => true end.
Lemma content_people t rq : ok t -> about_content rq = true -> same_people (server t) (server (rest_handle t rq).1.1).
Proof.
  intros S Hc. destruct rq as [id body|id cid body|id cid|id cid body|now id body|id bid|id loaded|roles| | | |]; try done; cbn [rest_handle].
  - unfold CreateChannel. destruct (ParseUint32 id), body; try done. destruct (bool_decide _); [done|]. destruct (getChanMgr _ _); [|done].
    destruct (Channels.Create _ _ _ _ _ _ _) as [[mg [ch|]] ls]; done.
  - unfold UpdateChannel. destruct (ParseUint32 id), (ParseUint32 cid), body as [b|]; try done. destruct (getChanMgr _ _) as [mgr|]; [|done]. destruct (Channels.GetChannel _ _); [|done].
    destruct (if has_fields b then _ else _) as [t1 updated] eqn:E. assert (same_people (server t) (server t1)) as P.
    { destruct (has_fields b); [|by injection E as <- <-]. destruct (Channels.Update _ _ _ _) as [[mg u] ls]. by injection E as <- <-. }
    destruct (negb updated); [exact P|]. destruct (ub_Links b) as [links|]; [|exact P]. destruct (Channels.UpdateLinks _ _ _ _ _) as [mg [changed|]]; exact P.
  - unfold DeleteChannel. destruct (ParseUint32 id), (ParseUint32 cid); try done. destruct (getChanMgr _ _); [|done].
    destruct (Channels.Remove _ _) as [[mg [|]] ls]; done.
  - unfold PutACL. destruct (ParseUint32 id) as [n|], (ParseUint32 cid) as [k|], body as [b|]; try done. destruct (Z.eqb_spec n 1) as [->|]; cbn [negb]; [|done].
    destruct (saveACL _ _ _ _) as [st [|]]; cbn [negb]; [|done]. pose proof (onACLChange_people t st S) as H. by destruct (onACLChange _ _) as [t2 e2].
  - pose proof (CreateBan_core now t id body) as H. destruct (CreateBan now t id body) as [t' r]. unfold server. cbn in *. by rewrite H.
  - pose proof (DeleteBan_core t id bid) as H. destruct (DeleteBan t id bid) as [t' r]. unfold server. cbn in *. by rewrite H.
  - cbn [fst]. by rewrite onConfigChange_server.
  - by apply onACLChange_people.
Qed.

(** The connected user a request names, on the server that runs. *)
Definition named t (id sessionId : gostring) : option (Z * User.t) :=
  match ParseUint32 id, ParseUint32 sessionId with
  | Some id, Some sid => if id =? 1 then pair sid <$> Snapshot (srv_users (server t)) sid else None
  | _, _ => None
  end.
Definition wrong_name (id sessionId : gostring) : Z := match ParseUint32 id, ParseUint32 sessionId with Some _, Some _ => 404 | _, _ => 400 end.
Lemma doUserAction_named t id sessionId fn : (forall sid, Snapshot (srv_users (server t)) sid = None -> fn sid = (t, [], false)) ->
  doUserAction t id sessionId fn = match named t id sessionId with
  | Some (sid, _) => let '(t', e, done) := fn sid in (t', e, Status (if done : bool then 204 else 404))
  | None => (t, [], Status (wrong_name id sessionId))
  end.
Proof.
  intros H. unfold doUserAction, named, wrong_name. destruct (ParseUint32 id) as [n|], (ParseUint32 sessionId) as [sid|]; try done. destruct (n =? 1); [|done].
  destruct (Snapshot (srv_users (server t)) sid) as [u|] eqn:Hu; [done|]. by rewrite H.
Qed.

(** The user is muted, or heard again and no longer deaf, as [mute] says. *)
Definition muted (mute : bool) (u u' : User.t) : Prop := exists revision, u' =
  u <| User.Voice := (User.Voice u) <| Mute := mute |> <| Deaf := mute && Deaf (User.Voice u) |> |> <| User.AuthorizationRevision := revision |>.
Lemma MuteSession_exact t sid mute u : ok t -> Snapshot (srv_users (server t)) sid = Some u ->
  let '(s', e, found) := MuteSession (server t) sid mute in found = true /\ srv_registry s' = srv_registry (server t) /\
  (exists u', Snapshot (srv_users s') sid = Some u' /\ muted mute u u') /\ forall sid', sid' <> sid -> Snapshot (srv_users s') sid' = Snapshot (srv_users (server t)) sid'.
Proof.
  intros S Hu. unfold MuteSession. set (fn := fun u => u <| User.Voice := _ |>).
  pose proof (updateUser_exact EqualFold (server t) sid fn (so_live _ _ S) ltac:(by intros ?) ltac:(by intros ?)) as H.
  destruct (updateUser (server t) sid fn) as [s' o]. destruct H as (-> & _ & (_ & R & _) & _ & _ & HS). rewrite Hu in *. cbn [fmap option_fmap option_map] in *.
  split; [done|]. split; [done|]. split.
  - eexists. split; [by rewrite HS, decide_True|]. eexists. rewrite (settled_frame fn u) at 1. unfold fn. destruct u, mute; cbn; reflexivity.
  - intros sid' Hn. by rewrite HS, decide_False.
Qed.
Lemma DeleteChannel_gone t id channelId cid : ok t -> ParseUint32 id = Some 1 -> ParseUint32 channelId = Some cid ->
  (DeleteChannel t id channelId).2 = Status 204 -> Channels.GetChannel (srv_chans (server (DeleteChannel t id channelId).1.1)) cid = None.
Proof.
  intros S Hi Hc. unfold DeleteChannel. rewrite Hi, Hc. cbn [getChanMgr Z.eqb Pos.eqb].
  pose proof (Channels.Remove_cases (srv_chans (server t)) cid (ok_chans _ _ (lo_server _ _ (so_live _ _ S)))) as H.
  destruct (Channels.Remove _ _) as [[m [|]] ls]; cbn [negb]; [|done]. intros _. destruct H as [_ [[? _]|(_ & _ & _ & Hx)]]; [done|].
  unfold Channels.GetChannel. cbn. rewrite Hx. by rewrite decide_True.
Qed.

(** A request breaks the invariant exactly when it deletes a channel under
    its users. *)
Lemma evicts_exact t rq : ok t -> ok (rest_handle t rq).1.1 <-> ~ (evicts t rq /\ (rest_handle t rq).2 = Status 204).
Proof.
  intros S. split.
  - intros S' [He Hr]. destruct rq as [| |id channelId| | | | | | | | |]; try done. destruct He as (cid & sid & u & Hi & Hc & Hu & Hch). cbn [rest_handle] in *.
    pose proof (DeleteChannel_gone t id channelId cid S Hi Hc Hr) as Hg.
    destruct (content_people t (ReqDeleteChannel id channelId) S eq_refl) as [_ P]. specialize (P sid). cbn [rest_handle] in P. rewrite Hu in P.
    destruct (Snapshot (srv_users (server (DeleteChannel t id channelId).1.1)) sid) as [u'|] eqn:Hu'; [|done].
    injection P as P _ _. destruct (lc_users _ (so_located _ _ S') sid u' Hu') as [ch Hx]. rewrite P, Hch, Hg in Hx. done.
  - intros Hn. destruct rq as [| |id channelId| | | | | | | | |]; try (apply rest_ok; [done|by intros []]). destruct (decide ((rest_handle t (ReqDeleteChannel id channelId)).2 = Status 204)) as [Hr|Hr].
    + apply rest_ok; [done|]. intros He. by apply Hn.
    + cbn [rest_handle] in *. revert Hr. unfold DeleteChannel. destruct (ParseUint32 id) as [n|], (ParseUint32 channelId) as [k|]; try done.
      unfold getChanMgr. destruct (n =? 1); [|done].
      pose proof (Channels.Remove_cases (srv_chans (server t)) k (ok_chans _ _ (lo_server _ _ (so_live _ _ S)))) as H.
      destruct (Channels.Remove _ _) as [[m [|]] ls] eqn:E; cbn [negb]; [done|]. intros _. destruct H as [_ [[_ Hx]|[? _]]]; [|done].
      apply (chans_ok t (Channels.OpRemove k)); [done|done|by cbn; rewrite E| |]; unfold Channels.GetChannel.
      * intros sid u _ Hc. by rewrite Hx.
      * intros ch. rewrite Hx. apply (lc_root _ (so_located _ _ S)).
Qed.

(** What a request does: nobody is moved, renamed or disconnected by a request
    about the content of the server; a kick or a ban ends the session it names,
    a mute mutes it, and a callback with the right token has the sessions of
    the user it names judged again. *)
Definition asked_for t (rq : request) t' (r : reply) : Prop :=
  match rq with
  | ReqKick id sessionId _ => match named t id sessionId with
      | Some (sid, u) => ended EqualFold t t' (mkRef sid (User.SessionGeneration u)) /\ r = Status 204
      | None => t' = t /\ r = Status (wrong_name id sessionId) end
  | ReqBan _ connIP id sessionId _ => match named t id sessionId with
      | Some (sid, u) => exists t0, core t0 = core t /\ (lower_laws ToLower -> Ban.loaded ToLower (bans t) -> ban_recorded ToLower ParseIP t connIP u t0) /\
          ended EqualFold t0 t' (mkRef sid (User.SessionGeneration u)) /\ bans t' = bans t0 /\ r = Status 204
      | None => t' = t /\ r = Status (wrong_name id sessionId) end
  | ReqMute id sessionId None => t' = t /\ r = Status 400
  | ReqMute id sessionId (Some mute) => match named t id sessionId with
      | Some (sid, u) => srv_registry (server t') = srv_registry (server t) /\ r = Status 204 /\
          (exists u', Snapshot (srv_users (server t')) sid = Some u' /\ muted mute u u') /\
          forall sid', sid' <> sid -> Snapshot (srv_users (server t')) sid' = Snapshot (srv_users (server t)) sid'
      | None => t' = t /\ r = Status (wrong_name id sessionId) end
  | ReqRevalidate now header body =>
      if Accounts.service_token_ok token header then match body with
        | Some userID => if decide (userID = 0) then t' = t /\ r = Status 400 else
            let P u := User.UserID u =? userID in let us := asked t P in
            checked EqualFold authority staleGrace now t P t' /\ (r = Status 202 \/ r = Status 503) /\
            (r = Status 202 <-> exists a, authority = Some a /\ External a = true /\ (us = [] \/ is_Some (Resolve a (mkResolve (distinct [] (map User.UserID us)) []))))
        | None => t' = t /\ r = Status 400 end
      else t' = t /\ r = Status 401
  | _ => same_people (server t) (server t')
  end.
Lemma named_there t id sessionId sid u : named t id sessionId = Some (sid, u) -> Snapshot (srv_users (server t)) sid = Some u.
Proof.
  unfold named. destruct (ParseUint32 id), (ParseUint32 sessionId) as [k|]; try done. destruct (_ =? 1); [|done].
  destruct (Snapshot _ k) eqn:E; [|done]. by intros [= <- <-].
Qed.
Lemma KickUser_exact t id sessionId reason : ok t -> let '(t', e, r) := KickUser t id sessionId reason in asked_for t (ReqKick id sessionId reason) t' r.
Proof.
  intros S. unfold KickUser, asked_for. rewrite doUserAction_named by (intros sid Hn; unfold KickSession; by rewrite Hn).
  destruct (named t id sessionId) as [[sid u]|] eqn:Hn; [|done]. apply named_there in Hn as Hu.
  unfold KickSession. rewrite Hu. destruct (KickSessionRef_exact EqualFold ord ToLower ParseTime FormatTime ParseIP Hord t (mkRef sid (User.SessionGeneration u)) u reason S) as [E1 E2];
    [by eapply Snapshot_positive; [apply S|]|done|done|]. destruct (KickSessionRef _ _ _ _) as [[t' e] o]. cbn in E1, E2. by subst o.
Qed.
Lemma BanUser_exact now t connIP id sessionId reason : ok t ->
  let '(t', e, r) := BanUser now t connIP id sessionId reason in asked_for t (ReqBan now connIP id sessionId reason) t' r.
Proof.
  intros S. unfold BanUser, asked_for. rewrite doUserAction_named by (intros sid Hn; unfold BanAndKickSession; by rewrite Hn).
  destruct (named t id sessionId) as [[sid u]|] eqn:Hn; [|done]. apply named_there in Hn as Hu. unfold BanAndKickSession. rewrite Hu.
  set (t0 := ban_session _ _ _ _ _ _ _ _ _). destruct (ban_session_frame ToLower ParseTime FormatTime ParseIP now t connIP u reason) as (E0 & _). fold t0 in E0.
  assert (server t0 = server t) as Es by (unfold server; by rewrite E0).
  pose proof (removal_exact EqualFold ord ToLower ParseTime FormatTime ParseIP Hord t0 (mkRef sid (User.SessionGeneration u)) u (user_remove sid 0 reason true) (same_server_ok EqualFold t t0 Es S)) as X.
  rewrite Es in X. specialize (X ltac:(by eapply Snapshot_positive; [apply S|]) Hu eq_refl). destruct (announce_removal t0 _ _) as [t1 e1]. destruct (expel ord t1 _ _ _) as [t2 e2].
  destruct X as (X & _). exists t0. split; [done|]. split; [intros; by apply ban_session_recorded|]. split; [done|]. split; [by apply X|done].
Qed.
Lemma updateUser_absent s sid fn : Snapshot (srv_users s) sid = None -> updateUser s sid fn = (s, None).
Proof.
  unfold Snapshot, updateUser, UpdateUser. destruct (user_at (srv_users s) sid) as [[l u]|]; [done|]. intros _. by rewrite with_users_id.
Qed.
Lemma MuteUser_exact t id sessionId body : ok t -> let '(t', e, r) := MuteUser t id sessionId body in asked_for t (ReqMute id sessionId body) t' r.
Proof.
  intros S. unfold MuteUser, asked_for. destruct body as [mute|]; [|done]. rewrite doUserAction_named.
  - destruct (named t id sessionId) as [[sid u]|] eqn:Hn; [|done]. apply named_there in Hn as Hu. pose proof (MuteSession_exact t sid mute u S Hu) as H.
    destruct (MuteSession (server t) sid mute) as [[s e] o]. destruct H as (-> & H1 & H2 & H3). done.
  - intros sid Hn. unfold MuteSession. set (fn := fun u => u <| User.Voice := _ |>).
    by rewrite (updateUser_absent (server t) sid fn Hn), with_server_id.
Qed.
Lemma Revalidate_exact now t header body : ok t -> let '(t', e, r) := Revalidate now t header body in asked_for t (ReqRevalidate now header body) t' r.
Proof.
  intros S. unfold Revalidate, asked_for. destruct (Accounts.service_token_ok token header); cbn [negb]; [|done]. destruct body as [n|]; [|done].
  destruct (Z.eqb_spec n 0) as [->|Hn]; [done|].
  pose proof (notice_checked EqualFold ord authority staleGrace Hord now t n S) as H1. pose proof (notice_accepted EqualFold ord authority staleGrace now t n) as H2.
  destruct (RevalidateUserNow _ _ _ _ _ _ _) as [[t' e] o]. cbn [fst snd] in *. rewrite decide_False by done. split; [exact H1|]. split; [destruct o; auto|]. rewrite <- H2. by destruct o.
Qed.

(** C5: a request of the REST interface touches only whom it names. One
    that is about the content (channels, permissions, bans, settings, accounts)
    moves nobody, renames nobody and ends no session. A kick or a ban ends the
    session it names, a ban with the ban recorded before (see
    [user_remove_exact]); a mute changes the voice of the user it names; both
    leave everybody else alone and change nothing when the user is not there.
    The callback of an identity provider, with the right token, has the sessions
    of one user judged as [revalidation_exact] says, and otherwise changes
    nothing. Every request keeps the invariant of the server, with one exception
    that always breaks it: to delete a channel with somebody in it. The channel
    goes and its users stay, in a channel that is not there. *)
Theorem rest_request_sound t rq : ok t ->
  asked_for t rq (rest_handle t rq).1.1 (rest_handle t rq).2 /\ (ok (rest_handle t rq).1.1 <-> ~ (evicts t rq /\ (rest_handle t rq).2 = Status 204)).
Proof.
  intros S. split; [|by apply evicts_exact]. destruct (about_content rq) eqn:Hc.
  - pose proof (content_people t rq S Hc) as H. by destruct rq.
  - destruct rq as [| | | | | | | |id sid reason|now ip id sid reason|id sid body|now header body]; try done; cbn [rest_handle].
    + pose proof (KickUser_exact t id sid reason S) as H. by destruct (KickUser t id sid reason) as [[t' e] r].
    + pose proof (BanUser_exact now t ip id sid reason S) as H. by destruct (BanUser now t ip id sid reason) as [[t' e] r].
    + pose proof (MuteUser_exact t id sid body S) as H. by destruct (MuteUser t id sid body) as [[t' e] r].
    + pose proof (Revalidate_exact now t header body S) as H. by destruct (Revalidate now t header body) as [[t' e] r].
Qed.

(** Who is not an administrator learns no address and no certificate, and the
    rest of the list does not depend on them. *)
Definition anonymous (u : User.t) : User.t := u <| User.Address := [] |> <| User.CertHash := [] |>.
Theorem listing_private t t' role : role <> Some (str "admin"%string) ->
  srv_registry (server t') = srv_registry (server t) -> srv_store (server t') = srv_store (server t) -> addrBySession t' = addrBySession t ->
  map anonymous (SnapshotAll (srv_users (server t'))) = map anonymous (SnapshotAll (srv_users (server t))) ->
  GetUsers t' role = GetUsers t role /\ Forall (fun u => cu_Address u = [] /\ cu_CertificateHash u = []) (GetUsers t role).
Proof.
  intros Hr E1 E2 E3 Hu. assert (match role with Some r => bool_decide (r = str "admin"%string) | None => false end = false) as Ha.
  { destruct role as [r|]; [|done]. apply bool_decide_eq_false_2. congruence. }
  assert (forall t u, connected_user t false u = connected_user t false (anonymous u)) as Hc by done.
  unfold GetUsers. rewrite Ha. unfold ListConnected. split.
  - rewrite (map_ext _ _ (Hc t')), (map_ext _ _ (Hc t)), <- !(map_map anonymous). rewrite Hu. apply map_ext. intros u. unfold connected_user, HasUDPAddress. by rewrite E1, E2, E3.
  - apply Forall_forall. intros x (u & <- & _)%in_map_iff. done.
Qed.
End Rest.

(** Tables that keep what they are given, in its order. *)
#[global, program] Instance list_tables : RestTables (list Ban.Row) := {|
  saveACL st cid groups acls := (mkStore
    (fun c => if c =? cid then Some (map snd acls) else aclRows st c)
    (fun c name => if c =? cid then Some (map snd (filter (fun g => g.1 = name) groups)) else groupRows st c name)
    (apiRole st)
    ((fun rows => filter (fun a => acl_ChannelID a <> cid) rows ++ map snd acls) <$> allRows st), true);
  deleteBan rows n := match rows !! Z.to_nat n with Some _ => Some (delete (Z.to_nat n) rows, true) | None => None end |}.
Next Obligation. done. Qed.
End RestServer.
