(* ===== verification/Ingress.v ===== *)
(** * Messages of clients reach their handlers

    [internal/edge/ingress.go], the handler tables of
    [internal/mumble/handlers.go] and [peer.go], and the loop of
    [internal/connection/conn.go]: who interprets a message, under which
    session, and what a connection may do before it has authenticated.

    A handler is a function of the state; what it sends is a list. The clock,
    the addresses of the connections and the answers of the transport are
    arguments. *)

From Stdlib Require Import ZArith Lia String.
From stdpp Require Import base numbers list gmap sets option.
From S2P Require Import Prelude Wire Fields Messages Codec AudioPacket CryptState Registry UserManager ChannelManager Acl AclCache Listeners VoiceState VoiceServer Ban RateLimit ServerState UserStateHandler TextHandlers ChannelHandlers SessionHandlers UdpIngress Identity Login Revalidation SiteInvariant.

Module Ingress.
Import Acl AclCache Listeners VoiceServer ServerState UserStateHandler TextHandlers ChannelHandlers SessionHandlers Identity Login SiteInvariant.

(** ** Ownership *)

Inductive MessageOwnership := OwnershipEdge | OwnershipCore | OwnershipSplit.
#[export] Instance MessageOwnership_eq_dec : EqDecision MessageOwnership.
Proof. solve_decision. Defined.
Definition OwnershipOf (t : Z) : MessageOwnership :=
  if t =? MessageCryptSetup then OwnershipEdge else
  if (t =? MessageVersion) || (t =? MessageAuthenticate) || (t =? MessagePing) || (t =? MessageUDPTunnel) then OwnershipSplit else OwnershipCore.

(** The registrations of [registerHandlers], one after the other. *)
Definition register {Ctx R} (tbl : HandlerTable (Ctx := Ctx) (R := R)) (kind : Z) (h : MessageHandler) : HandlerTable := <[Z.to_nat kind := Some h]> tbl.

Section Ingress.
Context (EqualFold : gostring -> gostring -> bool).
Context `{SO : Channels.Sorter} {DB TX : Type} `{CS : Channels.ChannelStore DB TX}.
Context (ord : nat -> Channels.order).
Context (ToLower : gostring -> gostring) (ParseTime : gostring -> Z) (FormatTime : Z -> gostring) (ParseIP : gostring -> option bytes).
Context {BDB : Type} `{BS : Ban.BanStore BDB}.
Context (SplitHostPort : gostring -> option gostring) (cfg : Config) (authority : option Authority).
Implicit Types (s : Server DB) (c : Core DB) (t : Site DB BDB).

(** ** The Core half *)

(** What a handler of the Core does with the site. *)
Definition action : Type := Site DB BDB -> Site DB BDB * list effect * option wire_error.
Definition nothing : action := fun t => (t, [], None).
Definition sends (f : Server DB -> list effect) : action := fun t => (t, f (server t), None).
(** [peerAdapt]: the handler runs for an active session only. *)
Definition peerAdapt (h : SessionRef -> bytes -> action) : MessageHandler (Ctx := SessionRef) (R := action) :=
  fun _ payload rf t => if Active (srv_registry (server t)) rf then h rf payload t else (t, [], None).
Definition unheard : MessageHandler (Ctx := SessionRef) (R := action) := fun _ _ _ => nothing.
Definition on_core (f : Core DB -> Core DB * list effect * option wire_error) : action :=
  fun t => let '(c, es, err) := f (core t) in (with_core t c, es, err).

(** [connIP] is the address of the connection of a session. A server without an
    authority does not start. *)
Definition coreIngress (now : Z) (connIP : Z -> option bytes) : HandlerTable (Ctx := SessionRef) (R := action) :=
  let tbl := NewHandlerTable in
  let tbl := register tbl MessageUserRemove (peerAdapt (fun rf p t =>
    handleUserRemove EqualFold ord ToLower ParseTime FormatTime ParseIP now t (connIP (UserRemove.Session (UserRemove.Unmarshal UserRemove.zero p).1)) rf p)) in
  let tbl := register tbl MessageUserState (peerAdapt (fun rf p => on_core (fun c => handleUserState EqualFold now c rf p))) in
  let tbl := register tbl MessageChannelState (peerAdapt (fun rf p => on_core (fun c => handleChannelState EqualFold ord c rf p))) in
  let tbl := register tbl MessageChannelRemove (peerAdapt (fun rf p => on_core (fun c => handleChannelRemove EqualFold ord c rf p))) in
  let tbl := register tbl MessageTextMessage (peerAdapt (fun rf p => on_core (fun c => handleTextMessage EqualFold now c rf p))) in
  let tbl := register tbl MessageVoiceTarget (peerAdapt (fun rf p => on_core (fun c => let '(c, err) := handleVoiceTarget c rf p in (c, [], err)))) in
  let tbl := register tbl MessageBanList (peerAdapt (fun rf p t => (handleBanList EqualFold ToLower ParseTime FormatTime now t rf p, None))) in
  let tbl := register tbl MessageACL (peerAdapt (fun rf p => sends (fun s => handleACL s rf p))) in
  let tbl := register tbl MessagePermissionQuery (peerAdapt (fun rf p => sends (fun s => handlePermissionQuery EqualFold s rf p))) in
  let tbl := register tbl MessageRequestBlob (peerAdapt (fun rf p => sends (fun s => handleRequestBlob s rf p))) in
  let tbl := register tbl MessageUserStats (peerAdapt (fun rf p => sends (fun s => handleUserStats s rf p))) in
  let tbl := register tbl MessageQueryUsers (peerAdapt (fun rf p =>
    match authority with Some a => sends (fun s => handleQueryUsers s a rf p) | None => nothing end)) in
  let tbl := register tbl MessageUserList unheard in
  let tbl := register tbl MessageContextActionModify unheard in
  let tbl := register tbl MessageContextAction unheard in
  register tbl MessagePluginDataTransmission unheard.
Definition CoreIngressHandler (now : Z) (connIP : Z -> option bytes) (kind : Z) (payload : bytes) (rf : SessionRef) : action :=
  Codec.Dispatch nothing (coreIngress now connIP) kind payload rf.

(** ** The Local Edge half *)

Inductive ingress_error := WireError (e : wire_error) | AudioError (e : audio_error).
Inductive ingress_effect :=
  | Login_effect (e : login_effect)
  | Voice (rf : SessionRef) (f : Frame)
  | Answer (m : message).
Definition client_action : Type := Site DB BDB * Client -> Site DB BDB * Client * list ingress_effect * option ingress_error.
Definition idle : client_action := fun '(t, cl) => (t, cl, [], None).
(** The connection as [UdpIngress] knows it. *)
Definition conn_of (cl : Client) : UdpIngress.Conn :=
  UdpIngress.mkConn (Generation (cl_session cl)) (cl_Crypt cl) (match cl_state cl with ConnActive => true | _ => false end) (cl_wireMode cl).

Definition edgeIngress (now : Z) (random : nat -> Z -> bytes) (ans : Answers) : HandlerTable (Ctx := unit) (R := client_action) :=
  let tbl := NewHandlerTable in
  let tbl := register tbl MessageVersion (fun _ p _ '(t, cl) => let '(cl, err) := handleVersion cl p in (t, cl, [], WireError <$> err)) in
  let tbl := register tbl MessageAuthenticate (fun _ p _ '(t, cl) =>
    let '(t, cl, es, err) := handleAuthenticate EqualFold ord ToLower SplitHostPort cfg authority now random ans t cl p in (t, cl, map Login_effect es, WireError <$> err)) in
  let tbl := register tbl MessageCryptSetup (fun _ p _ '(t, cl) =>
    let '(c, ms, err) := UdpIngress.CryptSetupResync (conn_of cl) p in (t, cl <| cl_Crypt := UdpIngress.conn_Crypt c |>, map Answer ms, WireError <$> err)) in
  register tbl MessageUDPTunnel (fun _ p _ '(t, cl) =>
    let '(es, err) := UdpIngress.handleUDPTunnel (conn_of cl) (cl_session cl) p in
    (t, cl, omap (fun e => match e with UdpIngress.RouteVoice rf f => Some (Voice rf f) | _ => None end) es, AudioError <$> err)).
Definition EdgeIngressHandler now random ans (kind : Z) (payload : bytes) : client_action :=
  Codec.Dispatch idle (edgeIngress now random ans) kind payload tt.

(** [ClientIngressRouter.Dispatch]. *)
Definition Dispatch (now : Z) (connIP : Z -> option bytes) (random : nat -> Z -> bytes) (ans : Answers) (kind : Z) (payload : bytes) : client_action :=
  fun '(t, cl) =>
  if bool_decide (OwnershipOf kind = OwnershipCore) then
    let '(t, es, err) := CoreIngressHandler now connIP kind payload (cl_session cl) t in (t, cl, map (fun e => Login_effect (Control e)) es, WireError <$> err)
  else EdgeIngressHandler now random ans kind payload (t, cl).

(** ** The loop of a connection *)

(** [x > 0] on the bits of a float32. *)
Definition positive32 (bits : Z) : bool := (0 <? bits) && (bits <=? 0x7f800000).
(** [SetupConn]: the reported latency goes to the user of the session. *)
Definition report_ping t (cl : Client) (avg : Z) : Site DB BDB := with_server t (with_users (server t) (SetPing (srv_users (server t)) (SessionID (cl_session cl)) avg) []).
Definition replyPing (nowMicro : Z) (payload : bytes) : client_action := fun '(t, cl) =>
  let answer t (stamp : Z) :=
    let stamp := if stamp =? 0 then u64 nowMicro else stamp in
    let '(good, late, lost, resync) := match cl_Crypt cl with Some cr => Stats cr | None => (0, 0, 0, 0) end in
    (t, cl, [Answer (MPing (Ping.mk stamp good late lost resync 0 0 0 0 0 0))], None) in
  if 0 <? zlen payload then
    match Ping.Unmarshal Ping.zero payload with
    | (_, Some e) => (t, cl, [], None)
    | (p, None) => answer (if positive32 (Ping.TCPPingAvg p) then report_ping t cl (Ping.TCPPingAvg p) else t) (Ping.Timestamp p)
    end
  else answer t 0.
(** One round of [Run] on a message that was read. *)
Definition received (now : Z) (connIP : Z -> option bytes) (random : nat -> Z -> bytes) (ans : Answers) (kind : Z) (payload : bytes) : client_action :=
  fun '(t, cl) =>
  match cl_state cl with
  | StateAuthenticating => if negb (kind =? MessageVersion) && negb (kind =? MessageAuthenticate) then (t, cl, [], None) else Dispatch now connIP random ans kind payload (t, cl)
  | _ => if kind =? MessagePing then replyPing now payload (t, cl) else Dispatch now connIP random ans kind payload (t, cl)
  end.

(** ** What a message can do *)

Notation ok := (site_ok EqualFold).
Hypothesis Hord : forall i, Channels.order_ok (ord i).

(** A table all of whose handlers have a property gives it to what it is asked
    for. *)
Definition all_handlers {Ctx R} (P : Z -> Ctx -> R -> Prop) (tbl : HandlerTable (Ctx := Ctx) (R := R)) : Prop :=
  forall n h, tbl !! n = Some (Some h) -> forall kind payload ctx, Z.to_nat kind = n -> P kind ctx (h kind payload ctx).
Lemma all_new {Ctx R} (P : Z -> Ctx -> R -> Prop) : all_handlers P NewHandlerTable.
Proof. intros n h H. apply lookup_replicate in H as [H _]. done. Qed.
Lemma all_register {Ctx R} (P : Z -> Ctx -> R -> Prop) tbl kind (h : MessageHandler (Ctx := Ctx) (R := R)) :
  all_handlers P tbl -> (forall k p ctx, Z.to_nat k = Z.to_nat kind -> P k ctx (h k p ctx)) -> all_handlers P (register tbl kind h).
Proof. intros Ht Hh n g [(<- & [= <-] & _)|[_ Hn]]%list_lookup_insert_Some; [done|by eapply Ht]. Qed.
Lemma all_dispatch {Ctx R} (P : Z -> Ctx -> R -> Prop) nop (tbl : HandlerTable (Ctx := Ctx) (R := R)) kind payload ctx :
  P kind ctx nop -> all_handlers P tbl -> P kind ctx (Codec.Dispatch nop tbl kind payload ctx).
Proof. intros Hn Ht. unfold Codec.Dispatch. destruct (_ <=? _); [done|]. destruct (tbl !! _) as [[h|]|] eqn:E; [by eapply Ht|done|done]. Qed.

(** A handler of the Core keeps the invariant. *)
Definition keeps_site (_ : Z) (_ : SessionRef) (a : action) : Prop := forall t, ok t -> ok (a t).1.1.
Lemma peerAdapt_keeps h : (forall k rf p, keeps_site k rf (h rf p)) -> forall kind k p rf, Z.to_nat k = Z.to_nat kind -> keeps_site k rf (peerAdapt h k p rf).
Proof. intros H kind k p rf _ t S. unfold peerAdapt. destruct (Active _ _); [by apply (H k)|done]. Qed.
Lemma on_core_keeps f k rf : (forall t, ok t -> ok (with_core t (f (core t)).1.1)) -> keeps_site k rf (on_core f).
Proof. intros H t S. unfold on_core. specialize (H t S). by destruct (f (core t)) as [[c es] err]. Qed.
Lemma coreIngress_keeps now connIP : all_handlers keeps_site (coreIngress now connIP).
Proof.
  unfold coreIngress. repeat apply all_register; [apply all_new|..]; try (by intros k p rf _ t S); apply peerAdapt_keeps; intros k rf p.
  - intros t S. by apply handleUserRemove_ok.
  - apply on_core_keeps. intros t S. by apply handleUserState_ok.
  - apply on_core_keeps. intros t S. by apply handleChannelState_ok.
  - apply on_core_keeps. intros t S. by apply handleChannelRemove_ok.
  - apply on_core_keeps. intros t S. by apply handleTextMessage_ok.
  - apply on_core_keeps. intros t S. pose proof (handleVoiceTarget_ok EqualFold t rf p S) as H. by destruct (handleVoiceTarget _ _ _).
  - intros t S. by apply handleBanList_ok.
  - by intros t S.
  - by intros t S.
  - by intros t S.
  - by intros t S.
  - destruct authority; by intros t S.
Qed.
Lemma CoreIngressHandler_ok now connIP kind payload rf t : ok t -> ok (CoreIngressHandler now connIP kind payload rf t).1.1.
Proof. apply (all_dispatch keeps_site); [by intros ? ?|apply coreIngress_keeps]. Qed.

(** Nothing is done for a session that is not active. *)
Definition ignores (_ : Z) (rf : SessionRef) (a : action) : Prop := forall t, Active (srv_registry (server t)) rf = false -> a t = (t, [], None).
Lemma CoreIngressHandler_inactive now connIP kind payload rf t : Active (srv_registry (server t)) rf = false ->
  CoreIngressHandler now connIP kind payload rf t = (t, [], None).
Proof.
  apply (all_dispatch ignores); [by intros ? ?|]. unfold coreIngress. repeat apply all_register; [apply all_new|..];
    first [by intros k p rf' _ t' _|intros k p rf' _ t' H; unfold peerAdapt; by rewrite H].
Qed.

Lemma SetPing_snapshot m sid ping sid' : mgr_wf m -> Snapshot (SetPing m sid ping) sid' =
  if decide (sid' = sid) then (fun u => u <| User.Ping := ping |>) <$> Snapshot m sid else Snapshot m sid'.
Proof.
  intros W. unfold SetPing. destruct (user_at m sid) as [[l u]|] eqn:E.
  - assert (Snapshot m sid = Some u) as Hs by (apply Snapshot_Some; eauto). rewrite Hs. apply user_at_Some in E as [Hl Hr]. rewrite write_snapshot by eauto. cbn.
    destruct (decide (sid' = sid)) as [->|Hne]; [by rewrite decide_True|]. rewrite decide_False; [done|]. intros Hl'. by apply Hne, (session_loc_inj m _ _ l W).
  - assert (Snapshot m sid = None) as Hs by (unfold Snapshot; by rewrite E). rewrite Hs. by destruct (decide (sid' = sid)) as [->|].
Qed.
Lemma report_ping_ok t cl avg : ok t -> ok (report_ping t cl avg).
Proof.
  intros S. pose proof (so_live _ _ S) as L. unfold report_ping. set (sid := SessionID (cl_session cl)).
  assert (generation (SetPing (srv_users (server t)) sid avg) = generation (srv_users (server t))) as G by (apply (generation_other (srv_users (server t)) (OpSetPing sid avg)); done).
  apply same_users_ok; [done| |done|done|].
  - apply (with_users_ok EqualFold (server t) (OpSetPing sid avg)); [done|done|done|]. rewrite G. apply L.
  - intros sid' u'. change (srv_users (with_users (server t) ?m [])) with m. rewrite (SetPing_snapshot _ _ _ _ (ok_users _ _ (lo_server _ _ L))). case_decide as Hd.
    + destruct (Snapshot (srv_users (server t)) sid) as [u|] eqn:Hu; [|done]. intros [= <-]. subst sid'. exists u. split; [done|]. split; [done|]. exact (lc_users _ (so_located _ _ S) sid u Hu).
    + intros Hu. exists u'. split; [done|]. split; [done|]. exact (lc_users _ (so_located _ _ S) sid' u' Hu).
Qed.

(** What the edge half leaves of the connection. *)
Definition same_conn (cl cl' : Client) : Prop := cl_session cl' = cl_session cl /\ cl_state cl' = cl_state cl /\ cl_userName cl' = cl_userName cl.
Lemma handleVersion_same cl p : same_conn cl (handleVersion cl p).1.
Proof.
  unfold handleVersion, NegotiateAudioWireMode. destruct (_ <? _); [|done]. destruct (Version.Unmarshal _ _) as [v [e|]]; [done|].
  by destruct cl as [? ? ? ? ? ? [] ? ? ? ? ? ?].
Qed.
Lemma handleUDPTunnel_own (uc : UdpIngress.Conn) rf p e : e ∈ (UdpIngress.handleUDPTunnel uc rf p).1 -> exists f, e = UdpIngress.RouteVoice rf f /\ UdpIngress.conn_Active uc = true.
Proof.
  unfold UdpIngress.handleUDPTunnel. destruct (UdpIngress.conn_Active uc); [|by intros ?%elem_of_nil]. cbn [negb].
  destruct (UdpIngress.decodeAudio uc p) as [f [err|]]; [by intros ?%elem_of_nil|]. intros ->%list_elem_of_singleton. eauto.
Qed.
(** Anything but a login leaves the server as it is and the connection with its
    session, and speaks for that session only. *)
Definition own_effects (cl : Client) (es : list ingress_effect) : Prop :=
  forall rf f, Voice rf f ∈ es -> rf = cl_session cl /\ cl_state cl = ConnActive.
Lemma own_effects_other cl {A} (g : A -> ingress_effect) l : (forall a rf f, g a <> Voice rf f) -> own_effects cl (map g l).
Proof. intros H rf f (x & E & _)%list_elem_of_fmap. by edestruct H. Qed.
Definition edge_only (kind : Z) (_ : unit) (a : client_action) : Prop := kind <> MessageAuthenticate ->
  forall t cl, let '(t', cl', es, err) := a (t, cl) in t' = t /\ same_conn cl cl' /\ own_effects cl es.
Lemma EdgeIngressHandler_only now random ans kind payload : edge_only kind tt (EdgeIngressHandler now random ans kind payload).
Proof.
  apply (all_dispatch edge_only). { intros _ t cl. split; [done|]. split; [done|]. by intros rf f ?%elem_of_nil. }
  unfold edgeIngress. repeat apply all_register; [apply all_new|..]; intros k p [] Ek Hk t cl.
  - pose proof (handleVersion_same cl p) as H. destruct (handleVersion cl p) as [cl' err]. split; [done|]. split; [done|]. by intros rf f ?%elem_of_nil.
  - destruct Hk. revert Ek. change (Z.to_nat MessageAuthenticate) with 2%nat. change MessageAuthenticate with 2. lia.
  - destruct (UdpIngress.CryptSetupResync _ _) as [[c ms] err]. split; [done|]. split; [done|]. by apply own_effects_other.
  - pose proof (handleUDPTunnel_own (conn_of cl) (cl_session cl) p) as H. destruct (UdpIngress.handleUDPTunnel _ _ _) as [es err]. split; [done|]. split; [done|].
    intros rf f (e & He & E)%list_elem_of_omap. destruct (H e He) as (g & -> & Ha). injection E as <- <-. split; [done|]. revert Ha. cbn. by destruct (cl_state cl).
Qed.
Lemma EdgeIngressHandler_login now random ans payload t cl : EdgeIngressHandler now random ans MessageAuthenticate payload (t, cl) =
  let '(t, cl, es, err) := handleAuthenticate EqualFold ord ToLower SplitHostPort cfg authority now random ans t cl payload in (t, cl, map Login_effect es, WireError <$> err).
Proof. reflexivity. Qed.
Lemma EdgeIngressHandler_ok now random ans kind payload t cl : ok t -> roomy (server t) ->
  ok (EdgeIngressHandler now random ans kind payload (t, cl)).1.1.1.
Proof.
  intros S G. destruct (decide (kind = MessageAuthenticate)) as [->|Hn].
  - rewrite EdgeIngressHandler_login.
    pose proof (handleAuthenticate_ok EqualFold ord Hord ToLower ParseIP SplitHostPort cfg authority now random ans t cl payload S G) as H.
    by destruct (handleAuthenticate _ _ _ _ _ _ _ _ _ _ _ _) as [[[t' cl'] es] err].
  - pose proof (EdgeIngressHandler_only now random ans kind payload Hn t cl) as H. destruct (EdgeIngressHandler _ _ _ _ _ _) as [[[t' cl'] es] err]. by destruct H as [-> _].
Qed.

(** The two halves together. *)
Lemma Dispatch_sound now connIP random ans kind payload t cl : ok t -> roomy (server t) ->
  let '(t', cl', es, err) := Dispatch now connIP random ans kind payload (t, cl) in
  ok t' /\ (kind <> MessageAuthenticate -> same_conn cl cl' /\ own_effects cl es /\ (Active (srv_registry (server t)) (cl_session cl) = false -> t' = t)).
Proof.
  intros S G. unfold Dispatch. destruct (bool_decide (OwnershipOf kind = OwnershipCore)).
  - pose proof (CoreIngressHandler_ok now connIP kind payload (cl_session cl) t S) as H1. pose proof (CoreIngressHandler_inactive now connIP kind payload (cl_session cl) t) as H2.
    destruct (CoreIngressHandler _ _ _ _ _ _) as [[t' es] err]. split; [done|]. intros _. split; [done|]. split; [by apply own_effects_other|]. intros Hi. by injection (H2 Hi).
  - pose proof (EdgeIngressHandler_ok now random ans kind payload t cl S G) as H1. pose proof (EdgeIngressHandler_only now random ans kind payload) as H2.
    unfold edge_only in H2. specialize (fun Hk => H2 Hk t cl). destruct (EdgeIngressHandler _ _ _ _ _ _) as [[[t' cl'] es] err]. split; [done|].
    intros Hk. destruct (H2 Hk) as (-> & H3 & H4). done.
Qed.
Lemma replyPing_sound nowMicro payload t cl : ok t ->
  let '(t', cl', es, err) := replyPing nowMicro payload (t, cl) in ok t' /\ cl' = cl /\ own_effects cl es /\ (t' = t \/ exists avg, t' = report_ping t cl avg).
Proof.
  intros S. unfold replyPing. assert (forall m, own_effects cl [Answer m]) as He by (intros m; exact (own_effects_other cl Answer [m] ltac:(done))).
  set (st := match cl_Crypt cl with Some cr => Stats cr | None => (0, 0, 0, 0) end). destruct st as [[[good late] lost] resync].
  destruct (0 <? zlen payload); [|split; [done|]; split; [done|]; split; [apply He|by left]].
  destruct (Ping.Unmarshal _ _) as [q [e|]]; [split; [done|]; split; [done|]; split; [by intros rf f ?%elem_of_nil|by left]|].
  destruct (positive32 _); (split; [|split; [done|split; [apply He|]]]); [by apply report_ping_ok|right; eauto|done|by left].
Qed.

Lemma client_message_ok now connIP random ans kind payload t cl : ok t -> roomy (server t) -> ok (received now connIP random ans kind payload (t, cl)).1.1.1.
Proof.
  intros S G. pose proof (Dispatch_sound now connIP random ans kind payload t cl S G) as H. pose proof (replyPing_sound now payload t cl S) as HP. unfold received.
  destruct (Dispatch _ _ _ _ _ _ _) as [[[t1 cl1] es1] err1]. destruct (replyPing _ _ _) as [[[t2 cl2] es2] err2]. destruct H as [H _], HP as [HP _].
  destruct (cl_state cl); [by destruct (_ && _)|..]; by destruct (kind =? MessagePing).
Qed.
(** C4: whatever a client sends, the server stays well formed and the client
    acts under its own session only. The invariant holds after every message.
    A connection that has not authenticated does nothing but by Version and
    Authenticate. Only Authenticate gives a connection a session; everything
    else leaves session, name and state of the connection. While the session of
    a connection is not active (ended, or not yet announced) its messages
    change nothing, save for a reported latency, and voice enters under the
    session of the active connection that sent it and no other. *)
Theorem client_message_sound now connIP random ans kind payload t cl : ok t -> roomy (server t) ->
  let '(t', cl', es, err) := received now connIP random ans kind payload (t, cl) in
  ok t' /\
  (cl_state cl = StateAuthenticating -> kind <> MessageVersion -> kind <> MessageAuthenticate -> (t', cl', es, err) = (t, cl, [], None)) /\
  (kind <> MessageAuthenticate -> same_conn cl cl' /\ own_effects cl es /\
     (Active (srv_registry (server t)) (cl_session cl) = false -> t' = t \/ kind = MessagePing /\ exists avg, t' = report_ping t cl avg)).
Proof.
  intros S G. pose proof (Dispatch_sound now connIP random ans kind payload t cl S G) as H. pose proof (replyPing_sound now payload t cl S) as HP. unfold received.
  destruct (negb (kind =? MessageVersion) && negb (kind =? MessageAuthenticate)) eqn:Ek; [apply andb_true_iff in Ek as [Hv%negb_true_iff%Z.eqb_neq Ha%negb_true_iff%Z.eqb_neq]|].
  2:{ assert (kind = MessageVersion \/ kind = MessageAuthenticate) as Hk by (revert Ek; rewrite andb_false_iff, !negb_false_iff, !Z.eqb_eq; done).
      assert ((kind =? MessagePing) = false) as -> by (by destruct Hk as [-> | ->]).
      assert (Dispatch now connIP random ans kind payload (t, cl) = match cl_state cl with StateAuthenticating => Dispatch now connIP random ans kind payload (t, cl) | _ => Dispatch now connIP random ans kind payload (t, cl) end) as <- by (by destruct (cl_state cl)).
      destruct (Dispatch _ _ _ _ _ _ _) as [[[t' cl'] es] err]. destruct H as [H1 H2]. split; [done|]. split; [naive_solver|]. intros Hn. destruct (H2 Hn) as (? & ? & ?). auto. }
  destruct (cl_state cl) eqn:Ecl; [split; [done|]; split; [done|]; intros _; split; [done|]; split; [by intros rf f ?%elem_of_nil|by left]|..];
    (destruct (kind =? MessagePing) eqn:Ep; [apply Z.eqb_eq in Ep; destruct (replyPing _ _ _) as [[[t' cl'] es] err]; destruct HP as (? & -> & ? & ?)|destruct (Dispatch _ _ _ _ _ _ _) as [[[t' cl'] es] err]; destruct H as [H1 H2]]);
    (split; [done|]); (split; [done|]); intros Hn; [split; [done|]; split; [done|]; naive_solver|destruct (H2 Hn) as (? & ? & ?); auto|split; [done|]; split; [done|]; naive_solver|destruct (H2 Hn) as (? & ? & ?); auto].
Qed.
End Ingress.
End Ingress.
