(* ===== verification/SiteEdges.v ===== *)
(** * Who registers an edge

    The edges of the registry are those that registered and did not leave:
    nothing a client or an administrator does changes them. *)

From Stdlib Require Import ZArith Lia String.
From stdpp Require Import base numbers list gmap sets option.
From S2P Require Import Prelude Wire Fields Messages Codec Registry UserManager ChannelManager Acl AclCache Listeners VoiceState VoiceServer Ban RateLimit ServerState UserStateHandler TextHandlers ChannelHandlers SessionHandlers UdpIngress Identity Login Revalidation SiteInvariant Ingress.

Module SiteEdges.
Import Acl AclCache Listeners VoiceFlags RateLimit VoiceServer ServerState UserStateHandler TextHandlers ChannelHandlers SessionHandlers Identity Login Revalidation SiteInvariant Ingress.

(** Case analysis of a function that returns the registry it got. *)
Ltac by_cases := repeat (case_match; simplify_eq/=; try done).

(** ** The registry *)

Lemma Bind_edges r rf ed : edges (Bind r rf ed).1 = edges r.
Proof. unfold Bind. by by_cases. Qed.
Lemma beginClose_edges r rf : edges (beginClose r rf).1 = edges r.
Proof. unfold beginClose. by by_cases. Qed.
Lemma BeginClose_edges r rf : edges (BeginClose r rf).1 = edges r.
Proof. unfold BeginClose. destruct (transition r rf); [|done]. pose proof (beginClose_edges r rf) as H. by destruct (beginClose r rf) as [r' []]. Qed.
Lemma unbind_edges r rf : edges (unbind r rf).1 = edges r.
Proof. unfold unbind. by by_cases. Qed.
Lemma commitActive_edges r rf : edges (commitActive r rf).1 = edges r.
Proof. unfold commitActive. by by_cases. Qed.
Lemma set_announced_edges r l : edges (set_announced r l) = edges r.
Proof. unfold set_announced. by by_cases. Qed.

Section Edges.
Context (EqualFold : gostring -> gostring -> bool).
Context `{SO : Channels.Sorter} {DB TX : Type} `{CS : Channels.ChannelStore DB TX}.
Context (ord : nat -> Channels.order) (Hord : forall i, Channels.order_ok (ord i)).
Context (ToLower : gostring -> gostring) (ParseTime : gostring -> Z) (FormatTime : Z -> gostring) (ParseIP : gostring -> option bytes).
Context {BDB : Type} `{BS : Ban.BanStore BDB}.
Context (SplitHostPort : gostring -> option gostring) (cfg : Config) (authority : option Authority) (staleGrace : Z).
Implicit Types (s : Server DB) (c : Core DB) (t : Site DB BDB).
Notation ok := (site_ok EqualFold).
Definition edges_of t : gmap EdgeID Z := edges (srv_registry (server t)).

(** ** The server *)

Lemma edges_with t s : edges_of (with_server t s) = edges (srv_registry s).
Proof. done. Qed.
Lemma updateUser_registry s sid fn : srv_registry (updateUser s sid fn).1 = srv_registry s.
Proof. unfold updateUser. by by_cases. Qed.
Lemma updateIdentityRef_registry s rf fn : srv_registry (updateIdentityRef s rf fn).1 = srv_registry s.
Proof. unfold updateIdentityRef. by by_cases. Qed.
Lemma updateChannelCrypto_registry s cid : srv_registry (updateChannelCrypto s cid) = srv_registry s.
Proof. unfold updateChannelCrypto. by by_cases. Qed.
Lemma leave_channel_registry s cid : srv_registry (leave_channel s cid) = srv_registry s.
Proof. unfold leave_channel. destruct (negb _); [apply updateChannelCrypto_registry|done]. Qed.
Lemma removeIfGeneration_registry s rf : srv_registry (removeIfGeneration s rf).1 = srv_registry s.
Proof. unfold removeIfGeneration. by by_cases. Qed.

(** ** The ends of sessions *)

Lemma announce_removal_edges t rf ur : edges_of (announce_removal t rf ur).1 = edges_of t.
Proof. unfold announce_removal. pose proof (BeginClose_edges (srv_registry (server t)) rf) as H. destruct (BeginClose _ rf) as [r [snap|]]; [by destruct (s_Announced snap)|done]. Qed.
Lemma UnregisterConn_site t rf : edges_of (UnregisterConn ord t rf).1.1 = edges_of t.
Proof. apply UnregisterConn_edges. Qed.
Lemma expel_edges t rf cid ur : edges_of (expel ord t rf cid ur).1 = edges_of t.
Proof.
  unfold expel. set (t1 := with_server t _). pose proof (UnregisterConn_site t1 rf) as H. destruct (UnregisterConn ord t1 rf) as [[t2 e] b]. cbn [fst] in *.
  rewrite edges_with, leave_channel_registry. unfold edges_of at 1 in H. rewrite H. unfold t1. by rewrite edges_with, removeIfGeneration_registry.
Qed.
(** What follows the unbinding of a session. *)
Lemma leave_edges t rf : edges_of (with_server t (let '(s, u) := removeIfGeneration (server t) rf in match u with Some u => leave_channel s (User.ChannelID u) | None => s end)) = edges_of t.
Proof.
  pose proof (removeIfGeneration_registry (server t) rf) as R. destruct (removeIfGeneration (server t) rf) as [s [u|]]; rewrite edges_with; [rewrite leave_channel_registry|]; cbn [fst] in R; by rewrite R.
Qed.
Lemma OnClose_edges t rf : edges_of (OnClose ord t rf).1 = edges_of t.
Proof.
  unfold OnClose. destruct (negb _); [done|]. pose proof (UnregisterConn_site t rf) as H. destruct (UnregisterConn ord t rf) as [[t1 e] b]. cbn [fst] in H. rewrite <- H, <- (leave_edges t1 rf).
  by destruct (removeIfGeneration (server t1) rf).
Qed.
Lemma controlFailed_edges t rf : edges_of (controlFailed ord t rf).1 = edges_of t.
Proof.
  unfold controlFailed. pose proof (announce_removal_edges t rf (UserRemove.zero <| UserRemove.Session := SessionID rf |>)) as H0. destruct (announce_removal _ _ _) as [t0 e0].
  pose proof (UnregisterConn_site t0 rf) as H. destruct (UnregisterConn ord t0 rf) as [[t1 e] b]. cbn [fst] in *. rewrite <- H0, <- H, <- (leave_edges t1 rf). by destruct (removeIfGeneration (server t1) rf).
Qed.
Lemma closeFailedSync_edges t rf : edges_of (closeFailedSync ord t rf).1 = edges_of t.
Proof.
  unfold closeFailedSync. pose proof (UnregisterConn_site t rf) as H. destruct (UnregisterConn ord t rf) as [[t1 e] b]. cbn [fst] in *. by rewrite edges_with, removeIfGeneration_registry.
Qed.
Lemma KickSessionRef_edges t rf reason : edges_of (KickSessionRef ord t rf reason).1.1 = edges_of t.
Proof.
  unfold KickSessionRef. destruct (SnapshotRef _ _) as [u|]; [|done]. pose proof (BeginClose_edges (srv_registry (server t)) rf) as H. destruct (BeginClose _ rf) as [r [snap|]]; [|done].
  set (t1 := with_server t _). pose proof (expel_edges t1 rf (User.ChannelID u) (user_remove (SessionID rf) 0 reason false)) as H1. destruct (expel ord t1 _ _ _) as [t2 e2]. cbn [fst] in *. by rewrite H1.
Qed.
Lemma KickSession_edges t sid reason : edges_of (KickSession ord t sid reason).1.1 = edges_of t.
Proof. unfold KickSession. destruct (Snapshot _ _); [apply KickSessionRef_edges|done]. Qed.
Lemma ban_session_edges now t connIP u reason : edges_of (ban_session ToLower ParseTime FormatTime ParseIP now t connIP u reason) = edges_of t.
Proof. unfold ban_session. by destruct (negb _). Qed.
Lemma removed_edges t rf ur cid : edges_of (expel ord (announce_removal t rf ur).1 rf cid ur).1 = edges_of t.
Proof. by rewrite expel_edges, announce_removal_edges. Qed.
Lemma BanAndKickSession_edges now t connIP sid reason : edges_of (BanAndKickSession ord ToLower ParseTime FormatTime ParseIP now t connIP sid reason).1.1 = edges_of t.
Proof.
  unfold BanAndKickSession. destruct (Snapshot _ _) as [u|]; [|done]. set (rf := mkRef _ _). set (ur := user_remove _ _ _ _). rewrite <- (ban_session_edges now t connIP u reason). set (t0 := ban_session _ _ _ _ _ _ _ _ _).
  rewrite <- (removed_edges t0 rf ur (User.ChannelID u)). destruct (announce_removal t0 rf ur) as [t1 e1]. cbn [fst]. by destruct (expel ord t1 _ _ _).
Qed.
Lemma handleUserRemove_edges now t connIP rf payload : edges_of (handleUserRemove EqualFold ord ToLower ParseTime FormatTime ParseIP now t connIP rf payload).1.1 = edges_of t.
Proof.
  unfold handleUserRemove. destruct (negb _); [done|]. destruct (UserRemove.Unmarshal _ _) as [ur [e|]]; [done|]. destruct (_ =? 0); [done|]. destruct (Snapshot _ _) as [sender|]; [|done]. destruct (Snapshot _ (UserRemove.Session ur)) as [target|]; [|done].
  destruct (_ || _); [done|]. cbn zeta. set (ur1 := ur <| UserRemove.Actor := _ |>). set (t0 := if UserRemove.Ban ur1 then _ else _). set (tr := mkRef _ _).
  assert (edges_of t0 = edges_of t) as <- by (unfold t0; destruct (UserRemove.Ban ur1); [apply ban_session_edges|done]).
  rewrite <- (removed_edges t0 tr ur1 (User.ChannelID target)). destruct (announce_removal t0 tr ur1) as [t1 e1]. cbn [fst]. by destruct (expel ord t1 _ _ _).
Qed.

(** ** Handlers of control messages *)

Lemma handleUserState_edges now t rf payload : ok t -> edges_of (with_core t (handleUserState EqualFold now (core t) rf payload).1.1) = edges_of t.
Proof.
  intros S. pose proof (handleUserState_exact EqualFold now (core t) rf payload (so_live _ _ S)) as H. destruct (handleUserState _ _ _ _ _) as [[c es] err].
  destruct H as (_ & (_ & Q2 & _) & _). exact (f_equal edges Q2).
Qed.
Lemma handleChannelState_edges t rf payload : ok t -> edges_of (with_core t (handleChannelState EqualFold ord (core t) rf payload).1.1) = edges_of t.
Proof.
  intros S. pose proof (handleChannelState_exact EqualFold ord Hord (core t) rf payload (so_live _ _ S) (so_located _ _ S)) as H. destruct (handleChannelState _ _ _ _ _) as [[c es] err].
  destruct H as (_ & _ & _ & (_ & Er & _) & _). exact (f_equal edges Er).
Qed.
Lemma handleChannelRemove_edges t rf payload : ok t -> edges_of (with_core t (handleChannelRemove EqualFold ord (core t) rf payload).1.1) = edges_of t.
Proof.
  intros S. pose proof (handleChannelRemove_exact EqualFold ord Hord (core t) rf payload (so_live _ _ S) (so_located _ _ S)) as H. destruct (handleChannelRemove _ _ _ _ _) as [[c es] err].
  destruct H as (_ & _ & _ & H). destruct H as [[-> _]|(cr & u & ch & gone & _ & _ & _ & _ & _ & [_ (Er & _) _ _ _ _ _] & _)]; [done|]. exact (f_equal edges Er).
Qed.
Lemma handleVoiceTarget_edges t rf payload : edges_of (with_core t (handleVoiceTarget (core t) rf payload).1) = edges_of t.
Proof.
  unfold handleVoiceTarget. destruct (negb _); [done|]. destruct (VoiceTarget.Unmarshal _ _) as [vt [e|]]; [done|]. destruct (_ || _); [done|]. cbn [fst].
  unfold edges_of, server, with_core. cbn [core srv]. rewrite storeVoiceTarget_known. by case_decide.
Qed.
Lemma handleTextMessage_edges now t rf payload : edges_of (with_core t (handleTextMessage EqualFold now (core t) rf payload).1.1) = edges_of t.
Proof. unfold edges_of, server, with_core. cbn [core]. pose proof (handleTextMessage_server EqualFold now (core t) rf payload) as H. cbn. by rewrite H. Qed.
Lemma handleBanList_edges now t rf payload : edges_of (handleBanList EqualFold ToLower ParseTime FormatTime now t rf payload).1 = edges_of t.
Proof.
  unfold handleBanList. destruct (negb _); [done|]. destruct (Snapshot _ _) as [u|]; [|done]. destruct (negb _); [done|]. destruct (if BanList.Query _ then _ else _) as [b k]. by destruct (negb k).
Qed.
Lemma MuteSession_edges t sid mute : edges_of (with_server t (MuteSession (server t) sid mute).1.1) = edges_of t.
Proof.
  unfold MuteSession. set (fn := fun u => u <| User.Voice := _ |>). pose proof (updateUser_registry (server t) sid fn) as H. destruct (updateUser (server t) sid fn) as [s [u|]]; exact (f_equal edges H).
Qed.

Definition keeps_edges (_ : Z) (_ : SessionRef) (a : action) : Prop := forall t, ok t -> edges_of (a t).1.1 = edges_of t.
Lemma peerAdapt_edges h : (forall k rf p, keeps_edges k rf (h rf p)) -> forall kind k p rf, Z.to_nat k = Z.to_nat kind -> keeps_edges k rf (peerAdapt h k p rf).
Proof. intros H kind k p rf _ t S. unfold peerAdapt. destruct (Active _ _); [by apply (H k)|done]. Qed.
Lemma on_core_edges f k rf : (forall t, ok t -> edges_of (with_core t (f (core t)).1.1) = edges_of t) -> keeps_edges k rf (on_core f).
Proof. intros H t S. unfold on_core. specialize (H t S). by destruct (f (core t)) as [[c es] err]. Qed.
Lemma CoreIngressHandler_edges now connIP kind payload rf t : ok t ->
  edges_of (CoreIngressHandler EqualFold ord ToLower ParseTime FormatTime ParseIP authority now connIP kind payload rf t).1.1 = edges_of t.
Proof.
  apply (all_dispatch keeps_edges); [by intros ? ?|]. unfold coreIngress.
  repeat apply all_register; [apply all_new|..]; try (by intros k p rf' _ t' S); apply peerAdapt_edges; intros k rf' p.
  - intros t' S. apply handleUserRemove_edges.
  - apply on_core_edges. intros t' S. by apply handleUserState_edges.
  - apply on_core_edges. intros t' S. by apply handleChannelState_edges.
  - apply on_core_edges. intros t' S. by apply handleChannelRemove_edges.
  - apply on_core_edges. intros t' S. apply handleTextMessage_edges.
  - apply on_core_edges. intros t' S. pose proof (handleVoiceTarget_edges t' rf' p) as H. by destruct (handleVoiceTarget _ _ _).
  - intros t' S. apply handleBanList_edges.
  - by intros t' S.
  - by intros t' S.
  - by intros t' S.
  - by intros t' S.
  - destruct authority; by intros t' S.
Qed.

(** ** Clients come in *)

Lemma addUser_registry s u : srv_registry (addUser s u).1 = srv_registry s.
Proof. unfold addUser. by by_cases. Qed.
Lemma commit_announce_edges t rf u t' es : commit_announce t rf u = Some (t', es) -> edges_of t' = edges_of t.
Proof.
  unfold commit_announce. pose proof (commitActive_edges (srv_registry (server t)) rf) as H. destruct (commitActive _ _) as [r [e|]]; [done|]. intros [= <- _]. rewrite edges_with. cbn in *.
  destruct (session_entry r _) as [[l e]|]; [rewrite set_announced_edges|]; exact H.
Qed.
Lemma complete_edges ans t rf u : edges_of (complete ord ans t rf u).1.1 = edges_of t.
Proof.
  unfold complete. destruct (if confirms ans then commit_announce t rf u else None) as [[t1 es]|] eqn:E.
  - destruct (confirms ans); [|done]. cbn [fst]. rewrite edges_with, updateChannelCrypto_registry. by apply commit_announce_edges in E.
  - pose proof (closeFailedSync_edges t rf) as H. by destruct (closeFailedSync ord t rf).
Qed.
Lemma sendSync_edges random ans t cl u rf : edges_of (sendSync EqualFold ord cfg random ans t cl u rf).1.1.1 = edges_of t.
Proof.
  unfold sendSync. set (fn := fun live => live <| User.CryptoMode := _ |>). pose proof (updateUser_registry (server t) (User.SessionID u) fn) as H. destruct (updateUser _ _ fn) as [s o]. cbn [fst] in H.
  destruct (generateCryptSetup _ _) as [[key enc] dec]. destruct (negb (keys ans)); [exact (f_equal edges H)|]. destruct (send_lane _ _ _ _) as [es b]. exact (f_equal edges H).
Qed.
Lemma open_session_edges random ans t cl u : edges_of (open_session EqualFold ord cfg random ans t cl u).1.1 = edges_of t.
Proof.
  unfold open_session. pose proof (Bind_edges (srv_registry (server t)) (ref_of u) LocalEdgeID) as H. destruct (Bind _ _ _) as [r [e|]].
  { cbn [fst]. by rewrite edges_with, removeIfGeneration_registry. }
  cbn [fst] in H. destruct (negb (takes ans)).
  { cbn [fst]. rewrite edges_with, removeIfGeneration_registry. cbn. by rewrite unbind_edges, BeginClose_edges. }
  set (t1 := with_server (with_server t _) _). assert (edges_of t1 = edges_of t) as <- by exact H.
  pose proof (sendSync_edges random ans t1 cl u (ref_of u)) as H1. destruct (sendSync _ _ _ _ _ _ _ _ _) as [[[t2 cl2] es] []]; cbn [fst] in H1; rewrite <- H1.
  - pose proof (complete_edges ans t2 (ref_of u) u) as H2. by destruct (complete ord ans t2 (ref_of u) u) as [[t3 e] b].
  - pose proof (closeFailedSync_edges t2 (ref_of u)) as H2. by destruct (closeFailedSync ord t2 (ref_of u)).
Qed.
Lemma handleAuthenticate_edges now random ans t cl payload : edges_of (handleAuthenticate EqualFold ord ToLower SplitHostPort cfg authority now random ans t cl payload).1.1.1 = edges_of t.
Proof.
  unfold handleAuthenticate. destruct (Authenticate.Unmarshal _ _) as [m [e|]]; [done|]. destruct (admission _ _ _ _ _ _ _ _ _) as [i|[why text]]; [|done]. cbn zeta. match goal with |- context [addUser _ ?x] => set (u := x) end.
  pose proof (addUser_registry (server t) u) as H. destruct (addUser _ u) as [s [stored|]]; [|exact (f_equal edges H)]. set (cl1 := cl <| cl_session := _ |> <| cl_userName := _ |>).
  pose proof (open_session_edges random ans (with_server t s) cl1 stored) as H1. destruct (open_session _ _ _ _ _ _ _ _) as [[t2 cl2] es]. cbn [fst] in *. rewrite H1. exact (f_equal edges H).
Qed.
Lemma AuthenticateRemote_edges now t i req : edges_of (AuthenticateRemote EqualFold ToLower ParseIP cfg authority now t i req).1 = edges_of t.
Proof.
  unfold AuthenticateRemote. destruct (match EdgeGeneration _ _ with Some _ => _ | None => _ end); [done|]. destruct (admission _ _ _ _ _ _ _ _ _) as [id|why]; [|done]. cbn zeta. match goal with |- context [addUser _ ?x] => set (u := x) end.
  pose proof (addUser_registry (server t) u) as H. destruct (addUser _ u) as [s [stored|]]; [|exact (f_equal edges H)]. cbn [fst] in H.
  pose proof (Bind_edges (srv_registry s) (ref_of stored) (inst_edge i)) as HB. destruct (Bind _ _ _) as [r [e|]]; cbn [fst] in *; rewrite edges_with.
  - by rewrite removeIfGeneration_registry, H.
  - cbn. by rewrite HB, H.
Qed.
Lemma TransportReadyRemote_edges ans t i rf mode : edges_of (TransportReadyRemote EqualFold ord cfg ans t i rf mode).1.1 = edges_of t.
Proof.
  unfold TransportReadyRemote. destruct (negb (remoteSessionOwned _ _ _)); [done|]. destruct (SnapshotRef _ _) as [u|]; [|done].
  set (x := if negb _ then _ else _). assert (edges_of x.1 = edges_of t) as H.
  { unfold x. destruct (negb _); [|done]. set (fn := fun live => live <| User.CryptoMode := mode |>). pose proof (updateUser_registry (server t) (SessionID rf) fn) as H. destruct (updateUser _ _ fn). exact (f_equal edges H). }
  destruct x as [t1 u1]. cbn [fst] in H. rewrite <- H. destruct (negb (takes ans)); [done|]. destruct (sendRemoteSync _ _ _ _ _ _ _) as [es []].
  - pose proof (complete_edges ans t1 rf u1) as H1. by destruct (complete ord ans t1 rf u1) as [[t2 e] b].
  - pose proof (closeFailedSync_edges t1 rf) as H1. by destruct (closeFailedSync ord t1 rf).
Qed.
Lemma cleanupRemote_edges t rf : edges_of (cleanupRemote ord t rf).1 = edges_of t.
Proof.
  unfold cleanupRemote. pose proof (UnregisterConn_site t rf) as H. destruct (UnregisterConn ord t rf) as [[t1 e] ann]. cbn [fst] in H. pose proof (removeIfGeneration_registry (server t1) rf) as R.
  destruct (removeIfGeneration (server t1) rf) as [s o]. cbn [fst] in *. rewrite edges_with. rewrite <- H. unfold edges_of at 1. rewrite <- R.
  destruct (negb _); [by rewrite updateChannelCrypto_registry|]. destruct (SnapshotRef _ _); [by rewrite leave_channel_registry|done].
Qed.
Lemma EdgeConnected_edges t i : edges_of (EdgeConnected t i) = edges_of t.
Proof. unfold EdgeConnected. destruct (EdgeGeneration _ _); [|done]. by destruct (_ =? _). Qed.
Lemma DisconnectRemote_edges t i rf : edges_of (DisconnectRemote ord t i rf).1 = edges_of t.
Proof. unfold DisconnectRemote. destruct (remoteSessionOwned _ _ _); [apply cleanupRemote_edges|done]. Qed.

(** ** Messages of clients *)

Lemma EdgeIngressHandler_edges now random ans kind payload t cl :
  edges_of (EdgeIngressHandler EqualFold ord ToLower SplitHostPort cfg authority now random ans kind payload (t, cl)).1.1.1 = edges_of t.
Proof.
  destruct (decide (kind = MessageAuthenticate)) as [->|Hn].
  - rewrite EdgeIngressHandler_login. pose proof (handleAuthenticate_edges now random ans t cl payload) as H. by destruct (handleAuthenticate _ _ _ _ _ _ _ _ _ _ _ _) as [[[t' cl'] es] err].
  - pose proof (EdgeIngressHandler_only EqualFold ord ToLower SplitHostPort cfg authority now random ans kind payload Hn t cl) as H. destruct (EdgeIngressHandler _ _ _ _ _ _ _ _ _ _ _ _) as [[[t' cl'] es] err]. by destruct H as [-> _].
Qed.
Lemma Dispatch_edges now connIP random ans kind payload t cl : ok t ->
  edges_of (Dispatch EqualFold ord ToLower ParseTime FormatTime ParseIP SplitHostPort cfg authority now connIP random ans kind payload (t, cl)).1.1.1 = edges_of t.
Proof.
  intros S. unfold Dispatch. destruct (bool_decide _); [|apply EdgeIngressHandler_edges].
  pose proof (CoreIngressHandler_edges now connIP kind payload (cl_session cl) t S) as H. by destruct (CoreIngressHandler _ _ _ _ _ _ _ _ _ _ _ _ t) as [[t' es] err].
Qed.
Lemma replyPing_edges nowMicro payload t cl : edges_of (replyPing nowMicro payload (t, cl)).1.1.1 = edges_of t.
Proof.
  unfold replyPing. destruct (match cl_Crypt cl with Some _ => _ | None => _ end) as [[[good late] lost] resync]. destruct (0 <? zlen payload); [|done].
  destruct (Ping.Unmarshal _ _) as [q [e|]]; [done|]. by destruct (positive32 _).
Qed.
Lemma received_edges now connIP random ans kind payload t cl : ok t ->
  edges_of (received EqualFold ord ToLower ParseTime FormatTime ParseIP SplitHostPort cfg authority now connIP random ans kind payload (t, cl)).1.1.1 = edges_of t.
Proof.
  intros S. unfold received. destruct (cl_state cl); [destruct (_ && _); [done|by apply Dispatch_edges]|..]; (destruct (kind =? MessagePing); [apply replyPing_edges|by apply Dispatch_edges]).
Qed.

(** ** The check of identities *)

Lemma refresh_rights_registry s rf u : srv_registry (refresh_rights EqualFold s rf u).1 = srv_registry s.
Proof.
  unfold refresh_rights. set (fn := suppress _). pose proof (updateIdentityRef_registry (invalidateACLCache s) rf fn) as H. destruct (updateIdentityRef _ _ fn) as [s1 o]. cbn [fst] in *. by rewrite H.
Qed.
Lemma confirm_session_registry now s rf i : srv_registry (confirm_session EqualFold now s rf i).1.1 = srv_registry s.
Proof.
  unfold confirm_session. set (fn := confirm _ _). pose proof (updateIdentityRef_registry s rf fn) as H. destruct (updateIdentityRef _ _ fn) as [s1 [u|]]; [|exact H]. cbn [fst] in *.
  destruct (match SnapshotRef _ _ with Some _ => _ | None => _ end); [|exact H]. pose proof (refresh_rights_registry s1 rf u) as H1. destruct (refresh_rights _ _ _ _) as [s2 e]. cbn [fst] in *. congruence.
Qed.
Lemma applyRevalidationFailure_edges now es : forall t, edges_of (applyRevalidationFailure ord staleGrace now t es).1 = edges_of t.
Proof.
  induction es as [|e es IH]; intros t; cbn [applyRevalidationFailure]; [done|].
  set (x := if overdue _ _ _ then _ else _). assert (edges_of x.1 = edges_of t) as H by (unfold x; destruct (overdue _ _ _); [apply KickSessionRef_edges|done]).
  destruct x as [t1 e1]. specialize (IH t1). destruct (applyRevalidationFailure _ _ _ t1 es). cbn [fst] in *. congruence.
Qed.
Lemma revalidate_one_edges now found t e : edges_of (revalidate_one EqualFold ord staleGrace now found t e).1 = edges_of t.
Proof.
  unfold revalidate_one. destruct found as [i|]; [|apply applyRevalidationFailure_edges]. destruct (negb _); [apply KickSessionRef_edges|].
  set (x := WithSession _ _ _ _). assert (srv_registry x.1.1 = srv_registry (server t)) as H.
  { unfold x, WithSession. destruct (Registry.Snapshot _ _) as [sn|]; [|done]. destruct (with_session_guard sn); [done|apply confirm_session_registry]. }
  destruct x as [[s1 e1] conflict]. cbn [fst] in H. destruct conflict; [|exact (f_equal edges H)].
  pose proof (KickSessionRef_edges (with_server t s1) (es_Ref e) (str "canonical identity conflicts with an online user"%string)) as H1. destruct (KickSessionRef _ _ _ _) as [[t2 e2] b]. cbn [fst] in *. rewrite H1. exact (f_equal edges H).
Qed.
Lemma revalidate_all_edges now found es : forall t, edges_of (revalidate_all EqualFold ord staleGrace now found t es).1 = edges_of t.
Proof.
  induction es as [|e es IH]; intros t; cbn [revalidate_all]; [done|]. pose proof (revalidate_one_edges now (found !! es_UserID e) t e) as H. destruct (revalidate_one _ _ _ _ _ t e) as [t1 e1].
  specialize (IH t1). destruct (revalidate_all _ _ _ _ _ t1 es). cbn [fst] in *. congruence.
Qed.
Lemma revalidateSnapshots_edges now a t es : edges_of (revalidateSnapshots EqualFold ord staleGrace now a t es).1.1 = edges_of t.
Proof.
  unfold revalidateSnapshots. destruct (bool_decide _); [done|]. destruct (Resolve a _); [apply revalidate_all_edges|apply applyRevalidationFailure_edges].
Qed.
Lemma revalidation_tick_edges now t : edges_of (revalidation_tick EqualFold ord authority staleGrace now t).1 = edges_of t.
Proof. unfold revalidation_tick. destruct authority as [a|]; [|done]. destruct (External a); [apply revalidateSnapshots_edges|done]. Qed.
Lemma RevalidateUserNow_edges now t userID : edges_of (RevalidateUserNow EqualFold ord authority staleGrace now t userID).1.1 = edges_of t.
Proof. unfold RevalidateUserNow. destruct authority as [a|]; [|done]. destruct (External a); [|done]. cbn zeta. destruct (bool_decide _); [done|apply revalidateSnapshots_edges]. Qed.
End Edges.
End SiteEdges.
