(* ===== verification/RemoteWire.v ===== *)
(** * The frames between an edge and the Core

    [internal/cluster/wire.go]: an envelope is written as a length and a JSON
    document, and read back. The documents themselves are made and read by
    [encoding/json], which is a parameter ([JSON]). *)

From Stdlib Require Import ZArith Lia String.
From stdpp Require Import base numbers list option.
From S2P Require Import Prelude Wire Codec AudioPacket Registry Login.

Module RemoteWire.
Import Login.

Definition WireMajor : Z := 1.
Definition WireMinor : Z := 0.
Definition MaxWireFrame : Z := Z.shiftl 4 20.

Definition WireType := gostring.
Definition WireHello : WireType := str "hello"%string.
Definition WireHelloAck : WireType := str "hello_ack"%string.
Definition WireHeartbeat : WireType := str "heartbeat"%string.
Definition WireAuthRequest : WireType := str "auth_request"%string.
Definition WireAuthResult : WireType := str "auth_result"%string.
Definition WireTransportReady : WireType := str "transport_ready"%string.
Definition WireControlUp : WireType := str "control_up"%string.
Definition WireControlDown : WireType := str "control_down"%string.
Definition WireControlFlush : WireType := str "control_flush"%string.
Definition WireControlFlushed : WireType := str "control_flushed"%string.
Definition WireVoiceUp : WireType := str "voice_up"%string.
Definition WireVoiceDown : WireType := str "voice_down"%string.
Definition WireDisconnect : WireType := str "disconnect"%string.
Definition WireCloseSession : WireType := str "close_session"%string.
Definition wire_types : list WireType :=
  [WireHello; WireHelloAck; WireHeartbeat; WireAuthRequest; WireAuthResult; WireTransportReady; WireControlUp; WireControlDown; WireControlFlush;
   WireControlFlushed; WireVoiceUp; WireVoiceDown; WireDisconnect; WireCloseSession].
Definition validWireType (t : WireType) : bool := bool_decide (t ∈ wire_types).

Record WireEnvelope := mkEnvelope { env_Type : WireType; env_ID : Z; env_Data : bytes }.
Record ProtocolVersion := mkVersion { pv_Major : Z; pv_Minor : Z }.
Record Hello := mkHello { he_Version : ProtocolVersion; he_EdgeID : EdgeID; he_Capabilities : list gostring }.
Record HelloAck := mkHelloAck { ha_Version : ProtocolVersion; ha_CoreEpoch : gostring; ha_EdgeInstance : EdgeInstanceRef; ha_Capabilities : list gostring; ha_Error : gostring }.
(** [AuthRequest], of which the Core uses what [Login.AuthRequest] has. *)
Record AuthRequestWire := mkAuthWire { aw_ConnectionID : Z; aw_Request : AuthRequest; aw_ClientCryptoModes : Z }.
Record AuthResponse := mkAuthResponse {
  ap_ConnectionID : Z; ap_Session : SessionRef; ap_Username : gostring; ap_Rejected : bool; ap_RejectType : Z; ap_Reason : gostring }.
Record SessionEvent := mkEvent { ev_ConnectionID : Z; ev_Session : SessionRef; ev_CryptoMode : gostring }.
Record ControlWire := mkControl { cw_ConnectionID : Z; cw_Session : SessionRef; cw_MessageType : Z; cw_Payload : bytes }.
Record VoiceUp := mkVoiceUp { vu_Session : SessionRef; vu_Frame : Frame }.

Definition noSession : SessionRef := mkRef 0 0.
Definition Hello_zero : Hello := mkHello (mkVersion 0 0) [] [].
Definition AuthRequest_zero : AuthRequestWire := mkAuthWire 0 (mkAuthRequest [] [] [] [] false [] 0) 0.
Definition SessionEvent_zero : SessionEvent := mkEvent 0 noSession [].
Definition ControlWire_zero : ControlWire := mkControl 0 noSession 0 [].

(** [encoding/json] on the types of this package: [None] is an error. *)
Class JSON := {
  marshal_envelope : WireEnvelope -> option bytes;
  unmarshal_envelope : bytes -> option WireEnvelope;
  unmarshal_hello : bytes -> option Hello;
  unmarshal_auth : bytes -> option AuthRequestWire;
  unmarshal_event : bytes -> option SessionEvent;
  unmarshal_control : bytes -> option ControlWire;
  unmarshal_voice : bytes -> option VoiceUp }.

Inductive wire_frame_error := ErrWireFrameTooLarge | ErrWireMessageType | ErrJSON | ErrStream (e : frame_error).

Section Wire.
Context `{J : JSON}.

(** [data] is the value, already marshalled; empty for [nil]. *)
Definition WriteWire (typ : WireType) (id : Z) (data : bytes) : result wire_frame_error bytes :=
  match marshal_envelope (mkEnvelope typ id data) with
  | None => Err ErrJSON
  | Some body =>
      if (zlen body =? 0) || (MaxWireFrame <? zlen body) then Err ErrWireFrameTooLarge
      else Ok (be32 (u32 (zlen body)) ++ body)
  end.

Definition stream {A} (r : result frame_error A) : result wire_frame_error A := match r with Ok a => Ok a | Err e => Err (ErrStream e) end.
Definition ReadWire (r : bytes) : result wire_frame_error (WireEnvelope * bytes) :=
  '(header, r) ← stream (ReadFull 4 r);
  let n := be32_read header in
  if (n =? 0) || (MaxWireFrame <? n) then Err ErrWireFrameTooLarge else
  '(body, r) ← stream (ReadFull n r);
  match unmarshal_envelope body with
  | None => Err ErrJSON
  | Some env => if validWireType (env_Type env) then Ok (env, r) else Err ErrWireMessageType
  end.

(** [dst] is what the caller passes; no data leaves it. *)
Definition DecodeWire {A} (unmarshal : bytes -> option A) (env : WireEnvelope) (dst : A) : option A :=
  if zlen (env_Data env) =? 0 then Some dst else unmarshal (env_Data env).

(** ** What is read is what was written *)

Lemma WriteWire_frame typ id data b : WriteWire typ id data = Ok b <->
  exists body, marshal_envelope (mkEnvelope typ id data) = Some body /\ 0 < zlen body <= MaxWireFrame /\ b = be32 (zlen body) ++ body.
Proof.
  unfold WriteWire. destruct (marshal_envelope _) as [body|]; [|naive_solver]. pose proof (zlen_nonneg body).
  assert (zlen body <= MaxWireFrame -> u32 (zlen body) = zlen body) as Hu by (intros; apply u32_id; change MaxWireFrame with 4194304 in *; zlia).
  destruct ((_ =? 0) || _) eqn:E.
  - split; [done|]. intros (? & [= <-] & Hl & _). apply orb_true_iff in E as [E%Z.eqb_eq|E%Z.ltb_lt]; lia.
  - apply orb_false_iff in E as [E1%Z.eqb_neq E2%Z.ltb_ge]. rewrite Hu by done. split.
    + intros [= <-]. exists body. split; [done|]. split; [lia|done].
    + by intros (? & [= <-] & _ & ->).
Qed.

Lemma ReadFull_short n (r : bytes) : zlen r < n -> exists e, ReadFull n r = Err e.
Proof. intros H. unfold ReadFull. destruct (Z.leb_spec n (zlen r)); [lia|]. destruct (_ =? _); eauto. Qed.
(** The reader from the header on. *)
Lemma ReadWire_header n r : is_u32 n -> ReadWire (be32 n ++ r) =
  if (n =? 0) || (MaxWireFrame <? n) then Err ErrWireFrameTooLarge else
  '(body, r) ← stream (ReadFull n r);
  match unmarshal_envelope body with
  | None => Err ErrJSON
  | Some env => if validWireType (env_Type env) then Ok (env, r) else Err ErrWireMessageType
  end.
Proof. intros Hn. unfold ReadWire. rewrite (ReadFull_app 4) by done. cbn [stream mbind result_bind]. pose proof (be32_back n [] Hn) as H. rewrite app_nil_r in H. by rewrite H. Qed.

(** The framing of the link loses nothing and reads no further. An envelope
    that was written, for a document the reader understands as that envelope,
    is read back whatever follows it on the stream, and leaves exactly what
    follows; a stream that stops inside the frame gives an error, never an
    envelope. Frames are at most 4 MiB and a header that says otherwise, or
    nothing, is refused before any of the body is read. *)
Theorem wire_roundtrip typ id data b :
  WriteWire typ id data = Ok b -> validWireType typ = true ->
  (forall body, marshal_envelope (mkEnvelope typ id data) = Some body -> unmarshal_envelope body = Some (mkEnvelope typ id data)) ->
  5 <= zlen b <= 4 + MaxWireFrame /\
  (forall rest, ReadWire (b ++ rest) = Ok (mkEnvelope typ id data, rest)) /\
  (forall n, n < length b -> exists e, ReadWire (take n b) = Err (ErrStream e))%nat /\
  (forall n rest, is_u32 n -> n = 0 \/ MaxWireFrame < n -> ReadWire (be32 n ++ rest) = Err ErrWireFrameTooLarge).
Proof.
  intros (body & Hm & Hl & ->)%WriteWire_frame Hv Hj. assert (is_u32 (zlen body)) as Hu by (change MaxWireFrame with 4194304 in *; unfold is_u32; lia).
  assert (zlen (be32 (zlen body)) = 4) as H4 by done. assert ((zlen body =? 0) || (MaxWireFrame <? zlen body) = false) as Hf by (apply orb_false_iff; split; [apply Z.eqb_neq|apply Z.ltb_ge]; lia).
  split; [rewrite zlen_app, H4; lia|]. split; [|split].
  - intros rest. rewrite <- app_assoc, ReadWire_header, Hf, ReadFull_app by done. cbn [stream mbind result_bind]. rewrite (Hj body Hm). cbn [env_Type]. by rewrite Hv.
  - intros n Hn. destruct (decide (n < 4)%nat) as [Hs|Hs].
    + unfold ReadWire. destruct (ReadFull_short 4 (take n (be32 (zlen body) ++ body))) as [e ->]; [unfold zlen; rewrite length_take; lia|]. by exists e.
    + rewrite take_app, (take_ge (be32 _)), ReadWire_header, Hf by (done || (change (length (be32 (zlen body))) with 4%nat; lia)). change (length (be32 (zlen body))) with 4%nat.
      rewrite length_app in Hn. change (length (be32 (zlen body))) with 4%nat in Hn. destruct (ReadFull_short (zlen body) (take (n - 4) body)) as [e ->]; [unfold zlen; rewrite length_take; lia|]. by exists e.
  - intros n rest Hn Hb. rewrite ReadWire_header by done. replace ((n =? 0) || (MaxWireFrame <? n)) with true; [done|]. symmetry. apply orb_true_iff. rewrite Z.eqb_eq, Z.ltb_lt. done.
Qed.
End Wire.
End RemoteWire.
