(* ===== verification/RemoteEdges.v ===== *)
(** * The links of remote edges

    [internal/cluster/remoteedgeserver.go] and the entries it calls in
    [internal/mumble/remoteedge.go]: an edge connects, says who it is, speaks
    for the clients it carries, and goes.

    A link is a reference into the store of links; the site is the whole
    server. JSON, the verdict of TLS on the peer and whether a frame can be
    sent are parameters. A goroutine that a message starts is a task in
    [ready], which runs on its own. *)

From Stdlib Require Import ZArith Lia String.
From stdpp Require Import base numbers list gmap sets option.
From S2P Require Import Prelude Wire Fields Messages Codec AudioPacket Registry UserManager ChannelManager Acl AclCache Listeners VoiceState VoiceRouting VoiceServer Ban RateLimit ServerState UserStateHandler TextHandlers ChannelHandlers SessionHandlers Identity Login Revalidation SiteInvariant Ingress SiteEdges RemoteWire.

Module RemoteEdges.
Import VoiceServer ServerState UserStateHandler SessionHandlers Identity Login SiteInvariant Ingress SiteEdges RemoteWire.

(** ** State *)

(** [edgeWireConn]. *)
Record link := mkLink {
  ln_instance : EdgeInstanceRef;
  ln_closed : bool;
  ln_nextID : Z;
  ln_flushWait : list Z;
  ln_sessions : gmap Z SessionRef }.
#[export] Instance link_eta : Eta link := fun l => mkLink (ln_instance l) (ln_closed l) (ln_nextID l) (ln_flushWait l) (ln_sessions l).
Definition newEdgeWireConn (i : EdgeInstanceRef) : link := mkLink i false 0 [] ∅.

(** [RemoteEdgeServer] and what it serves. *)
Record Cluster {DB BDB : Type} := mkCluster {
  site : Site DB BDB;
  instances : gmap EdgeID loc;
  nextGen : gmap EdgeID Z;
  links : gmap loc link;
  next_link : loc;
  ready : list (loc * SessionEvent) }.
Arguments Cluster : clear implicits.
Arguments mkCluster {_ _} _ _ _ _ _ _.
#[export] Instance Cluster_eta DB BDB : Eta (Cluster DB BDB) := fun c => mkCluster (site c) (instances c) (nextGen c) (links c) (next_link c) (ready c).

Inductive edge_error := ErrStaleSession | ErrInvalidSession | ErrMessageType | ErrDecode | ErrSend | ErrHandler (e : wire_error).
Inductive edge_value := VHelloAck (h : HelloAck) | VAuthResponse (r : AuthResponse) | VEvent (e : SessionEvent) | VControl (c : ControlWire) | VNone.
Inductive edge_effect :=
  | Sent (l : loc) (typ : WireType) (id : Z) (v : edge_value)
  | Core_effect (e : effect)
  | Login_did (e : login_effect)
  | Voice_to (batches : list (EdgeID * VoiceBatch))
  | FlushDone (l : loc) (id : Z) (good : bool)
  | Hung (l : option loc).

(** What TLS found out about the peer: verified chains, and the name and the
    alternative names of its certificate. *)
Record peer := mkPeer { p_verified : bool; p_cert : option (gostring * list gostring) }.

Section RemoteEdges.
Context (EqualFold : gostring -> gostring -> bool).
Context `{SO : Channels.Sorter} {DB TX : Type} `{CS : Channels.ChannelStore DB TX}.
Context (ord : nat -> Channels.order) (ordE : list EdgeID -> list EdgeID).
Context (ToLower : gostring -> gostring) (ParseTime : gostring -> Z) (FormatTime : Z -> gostring) (ParseIP : gostring -> option bytes).
Context {BDB : Type} `{BS : Ban.BanStore BDB}.
Context (SplitHostPort : gostring -> option gostring) (cfg : Config) (authority : option Authority).
Context `{J : JSON}.
Implicit Types (t : Site DB BDB) (c : Cluster DB BDB).

Definition with_site c t : Cluster DB BDB := c <| site := t |>.
Definition put_link c (l : loc) (k : link) : Cluster DB BDB := c <| links := <[l := k]> (links c) |>.
Definition reg c : Registry := srv_registry (server (site c)).

(** ** Speaking for clients ([remoteedge.go]) *)

Definition ControlRemote (now : Z) (connIP : Z -> option bytes) t (i : EdgeInstanceRef) (msg : ControlWire) : Site DB BDB * list effect * option edge_error :=
  if negb (remoteSessionOwned t i (cw_Session msg)) then (t, [], Some ErrStaleSession) else
  if (MessageCount <=? cw_MessageType msg) || negb (bool_decide (OwnershipOf (cw_MessageType msg) = OwnershipCore)) then (t, [], Some ErrMessageType) else
  let '(t, es, err) := CoreIngressHandler EqualFold ord ToLower ParseTime FormatTime ParseIP authority now connIP (cw_MessageType msg) (cw_Payload msg) (cw_Session msg) t in
  (t, es, ErrHandler <$> err).
Definition VoiceRemote t (i : EdgeInstanceRef) (v : VoiceUp) : list (EdgeID * VoiceBatch) * option edge_error :=
  if negb (remoteSessionOwned t i (vu_Session v)) || negb (Active (srv_registry (server t)) (vu_Session v)) then ([], Some ErrStaleSession)
  else (voice_in EqualFold ord ordE (server t) (vu_Session v) (vu_Frame v), None).

(** ** The link *)

(** [close]: once; whoever waits for a flush is told. *)
Definition close_link c (l : loc) : Cluster DB BDB * list edge_effect :=
  match links c !! l with
  | Some k =>
      if ln_closed k then (c, []) else
      let i := ln_instance k in
      let told := map (fun id => FlushDone l id false) (ln_flushWait k) in
      let c := put_link c l (k <| ln_closed := true |> <| ln_flushWait := [] |>) in
      let c := if bool_decide (instances c !! inst_edge i = Some l) then c <| instances := delete (inst_edge i) (instances c) |> else c in
      let '(t, es) := EdgeDisconnected ord (site c) i in
      let r := (RemoveEdge (srv_registry (server t)) (inst_edge i) (inst_generation i)).1 in
      (with_site c (with_reg t r), Hung (Some l) :: told ++ map Core_effect es)
  | None => (c, [])
  end.
(** [send], of a frame the queue and the socket take or not. *)
Definition send (c : Cluster DB BDB) (l : loc) (takes : bool) (typ : WireType) (id : Z) (v : edge_value) : list edge_effect * option edge_error :=
  match links c !! l with
  | Some k => if negb (ln_closed k) && takes then ([Sent l typ id v], None) else ([], Some ErrSend)
  | None => ([], Some ErrSend)
  end.

Definition session_of (k : link) (connID : Z) : SessionRef := default noSession (ln_sessions k !! connID).
Definition respond (connID : Z) (r : result (Z * gostring) (SessionRef * gostring)) : AuthResponse :=
  match r with
  | Ok (rf, name) => mkAuthResponse connID rf name false 0 []
  | Err (why, text) => mkAuthResponse connID noSession [] true why text
  end.

(** [handle]. *)
Definition handle (now : Z) (connIP : Z -> option bytes) (takes : bool) c (l : loc) (k : link) (env : WireEnvelope) : Cluster DB BDB * list edge_effect * option edge_error :=
  let i := ln_instance k in
  let kind typ := bool_decide (env_Type env = typ) in
  if kind WireAuthRequest then
    match DecodeWire unmarshal_auth env AuthRequest_zero with
    | None => (c, [], Some ErrDecode)
    | Some req =>
        if aw_ConnectionID req =? 0 then (c, [], Some ErrInvalidSession) else
        let '(t, answer) := AuthenticateRemote EqualFold ToLower ParseIP cfg authority now (site c) i (aw_Request req) in
        let c := with_site c t in
        let resp := respond (aw_ConnectionID req) answer in
        if ap_Rejected resp then let '(es, err) := send c l takes WireAuthResult (env_ID env) (VAuthResponse resp) in (c, es, err) else
        match ln_sessions k !! aw_ConnectionID req with
        | Some _ => (c, [], Some ErrInvalidSession)
        | None =>
            let c := put_link c l (k <| ln_sessions := <[aw_ConnectionID req := ap_Session resp]> (ln_sessions k) |>) in
            let '(es, err) := send c l takes WireAuthResult (env_ID env) (VAuthResponse resp) in (c, es, err)
        end
    end
  else if kind WireTransportReady then
    match DecodeWire unmarshal_event env SessionEvent_zero with
    | None => (c, [], Some ErrDecode)
    | Some ev =>
        if negb (bool_decide (session_of k (ev_ConnectionID ev) = ev_Session ev)) then (c, [], Some ErrStaleSession)
        else (c <| ready := ready c ++ [(l, ev)] |>, [], None)
    end
  else if kind WireControlUp then
    match DecodeWire unmarshal_control env ControlWire_zero with
    | None => (c, [], Some ErrDecode)
    | Some msg =>
        if negb (bool_decide (session_of k (cw_ConnectionID msg) = cw_Session msg)) then (c, [], Some ErrStaleSession) else
        let '(t, es, err) := ControlRemote now connIP (site c) i msg in (with_site c t, map Core_effect es, err)
    end
  else if kind WireControlFlushed then
    if bool_decide (env_ID env ∈ ln_flushWait k) then
      (put_link c l (k <| ln_flushWait := filter (fun id => id <> env_ID env) (ln_flushWait k) |>), [FlushDone l (env_ID env) true], None)
    else (c, [], Some ErrInvalidSession)
  else if kind WireVoiceUp then
    match DecodeWire unmarshal_voice env (mkVoiceUp noSession Frame_zero) with
    | None => (c, [], Some ErrDecode)
    | Some v => let '(bs, err) := VoiceRemote (site c) i v in (c, [Voice_to bs], err)
    end
  else if kind WireDisconnect then
    match DecodeWire unmarshal_event env SessionEvent_zero with
    | None => (c, [], Some ErrDecode)
    | Some ev =>
        let c := put_link c l (k <| ln_sessions := filter (fun kv => kv.2 <> ev_Session ev) (ln_sessions k) |>) in
        let '(t, es) := DisconnectRemote ord (site c) i (ev_Session ev) in (with_site c t, map Core_effect es, None)
    end
  else (c, [], Some ErrMessageType).

(** ** [remoteControlSink] *)

Definition WriteControl c (l : loc) (takes : bool) (rf : SessionRef) (m : message) : list edge_effect * option edge_error :=
  send c l takes WireControlDown 0 (VControl (mkControl 0 rf (message_type m) (message_Marshal m))).
(** [Flush] up to the point where it waits: the number it waits for, or why it
    does not. *)
Definition Flush_begin c (l : loc) (takes : bool) (rf : SessionRef) : Cluster DB BDB * list edge_effect * result edge_error Z :=
  match links c !! l with
  | Some k =>
      let id := u64 (ln_nextID k + 1) in
      let k' := k <| ln_nextID := id |> in
      match send c l takes WireControlFlush id (VEvent (mkEvent 0 rf [])) with
      | (es, None) => (put_link c l (k' <| ln_flushWait := id :: filter (fun x => x <> id) (ln_flushWait k) |>), es, Ok id)
      | (es, Some e) => (put_link c l (k' <| ln_flushWait := filter (fun x => x <> id) (ln_flushWait k) |>), es, Err e)
      end
  | None => (c, [], Err ErrSend)
  end.
(** The context of the caller ends before the answer. *)
Definition Flush_cancel c (l : loc) (id : Z) : Cluster DB BDB :=
  match links c !! l with
  | Some k => put_link c l (k <| ln_flushWait := filter (fun x => x <> id) (ln_flushWait k) |>)
  | None => c
  end.
Definition CloseSession c (l : loc) (takes : bool) (rf : SessionRef) : list edge_effect * option edge_error :=
  send c l takes WireCloseSession 0 (VEvent (mkEvent 0 rf [])).

(** ** The rounds *)

(** One round of [run] on what was read; [None] is a read error. *)
Definition run_one (now : Z) (connIP : Z -> option bytes) (takes : bool) c (l : loc) (env : option WireEnvelope) : Cluster DB BDB * list edge_effect :=
  match links c !! l with
  | Some k =>
      if ln_closed k then (c, []) else
      match env with
      | None => close_link c l
      | Some env =>
          if bool_decide (env_Type env = WireHeartbeat) then (c, []) else
          let '(c, es, err) := handle now connIP takes c l k env in
          match err with
          | None => (c, es)
          | Some _ => let '(c, es') := close_link c l in (c, es ++ es')
          end
      end
  | None => (c, [])
  end.
(** The goroutine a [WireTransportReady] started. *)
Definition run_ready (ans : Answers) c (n : nat) : Cluster DB BDB * list edge_effect :=
  match ready c !! n with
  | Some (l, ev) =>
      let c := c <| ready := delete n (ready c) |> in
      match links c !! l with
      | Some k => let '(t, es, _) := TransportReadyRemote EqualFold ord cfg ans (site c) (ln_instance k) (ev_Session ev) (ev_CryptoMode ev) in (with_site c t, map Login_did es)
      | None => (c, [])
      end
  | None => (c, [])
  end.

(** ** A new link *)

Definition peerMatchesEdge (p : peer) (id : EdgeID) : bool :=
  if negb (p_verified p) then false else
  match p_cert p with
  | None => false
  | Some (cn, names) => EqualFold cn id || existsb (fun n => EqualFold n id) names
  end.
(** What [serve] makes of the first frame: the edge it is, or the answer before
    the connection is hung up. *)
Definition greeted (p : peer) (env : WireEnvelope) : result (option edge_value) EdgeID :=
  if negb (bool_decide (env_Type env = WireHello)) then Err None else
  match DecodeWire unmarshal_hello env Hello_zero with
  | Some h =>
      if negb (pv_Major (he_Version h) =? WireMajor) || (zlen (he_EdgeID h) =? 0)
      then Err (Some (VHelloAck (mkHelloAck (mkVersion WireMajor WireMinor) [] (mkInstance [] 0) [] (str "incompatible protocol"%string))))
      else if peerMatchesEdge p (he_EdgeID h) then Ok (he_EdgeID h) else Err None
  | None => Err (Some (VHelloAck (mkHelloAck (mkVersion WireMajor WireMinor) [] (mkInstance [] 0) [] (str "incompatible protocol"%string))))
  end.
(** [serve] from there to [run]: a generation is claimed, the link that is
    installed is closed, and the edge registered. [takes]: the answer goes out. *)
Definition link_up (epoch : gostring) (takes : bool) c (envID : Z) (id : EdgeID) : Cluster DB BDB * list edge_effect :=
  let g := u64 (default 0 (nextGen c !! id) + 1) in
  let c := c <| nextGen := <[id := g]> (nextGen c) |> in
  let i := mkInstance id g in
  let '(c, es) := match instances c !! id with Some old => close_link c old | None => (c, []) end in
  match RegisterEdge (reg c) id g with
  | (_, Some _) => (c, es ++ [Hung None])
  | (r, None) =>
      let c := with_site c (with_reg (site c) r) in
      let l := next_link c in
      let c := put_link (c <| next_link := S l |>) l (newEdgeWireConn i) in
      let c := c <| instances := <[id := l]> (instances c) |> in
      let c := with_site c (EdgeConnected (site c) i) in
      match send c l takes WireHelloAck envID (VHelloAck (mkHelloAck (mkVersion WireMajor WireMinor) epoch i [str "control"%string; str "voice"%string] [])) with
      | (es', None) => (c, es ++ es')
      | (es', Some _) => let '(c, es'') := close_link c l in (c, es ++ es' ++ es'')
      end
  end.
Definition serve (epoch : gostring) (takes : bool) c (p : peer) (env : WireEnvelope) : Cluster DB BDB * list edge_effect :=
  match greeted p env with
  | Err None => (c, [Hung None])
  | Err (Some v) => (c, [Sent (next_link c) WireHelloAck (env_ID env) v; Hung None])
  | Ok id => link_up epoch takes c (env_ID env) id
  end.
Fixpoint close_links c (ls : list loc) : Cluster DB BDB * list edge_effect :=
  match ls with
  | [] => (c, [])
  | l :: ls => let '(c, e1) := close_link c l in let '(c, e2) := close_links c ls in (c, e1 ++ e2)
  end.
(** [Close]: the links in the order of the map. *)
Definition Close c : Cluster DB BDB * list edge_effect := close_links c (map snd (map_to_list (instances c))).

(** ** What the links keep *)

Notation ok := (site_ok EqualFold).
Hypothesis Hord : forall i, Channels.order_ok (ord i).

(** The server is sound; the installed links are the open ones, one for an
    edge; the generation of an open link is the one registered; and every
    registered edge is the local one or has a link. *)
Record cluster_ok c : Prop := {
  co_site : ok (site c);
  co_links : forall id l, instances c !! id = Some l <-> exists k, links c !! l = Some k /\ ln_closed k = false /\ inst_edge (ln_instance k) = id;
  co_registered : forall l k, links c !! l = Some k -> ln_closed k = false ->
    edges_of (site c) !! inst_edge (ln_instance k) = Some (inst_generation (ln_instance k));
  co_fresh : forall l k, links c !! l = Some k -> (l < next_link c)%nat;
  co_edges : forall id, is_Some (edges_of (site c) !! id) -> id = LocalEdgeID \/ is_Some (instances c !! id) }.

Lemma with_site_ok c t : cluster_ok c -> ok t -> edges_of t = edges_of (site c) -> cluster_ok (with_site c t).
Proof. intros [C1 C2 C3 C4 C5] S E. split; [done|exact C2| |exact C4|]. - intros l k Hl Ho. cbn. rewrite E. by eapply C3. - cbn. rewrite E. exact C5. Qed.
(** A link that stays what it is. *)
Lemma put_link_ok c l k k' : cluster_ok c -> links c !! l = Some k -> ln_instance k' = ln_instance k -> ln_closed k' = ln_closed k -> cluster_ok (put_link c l k').
Proof.
  intros [C1 C2 C3 C4 C5] Hl Hi Hc. split; [done| | | |done].
  - intros id l'. change (instances (put_link c l k')) with (instances c). rewrite C2. change (links (put_link c l k')) with (<[l := k']> (links c)).
    destruct (decide (l' = l)) as [->|Hn]; [rewrite lookup_insert_eq|by rewrite lookup_insert_ne]. split.
    + intros (k0 & H0 & H1 & H2). assert (k0 = k) as -> by congruence. exists k'. by rewrite Hc, Hi.
    + intros (k0 & [= <-] & H1 & H2). exists k. by rewrite <- Hc, <- Hi.
  - intros l' k0. change (links (put_link c l k')) with (<[l := k']> (links c)). destruct (decide (l' = l)) as [->|Hn]; [rewrite lookup_insert_eq|rewrite lookup_insert_ne by done; apply C3].
    intros [= <-] Ho. rewrite Hi. apply (C3 l k Hl). by rewrite <- Hc.
  - intros l' k0. change (links (put_link c l k')) with (<[l := k']> (links c)). destruct (decide (l' = l)) as [->|Hn]; [intros _; by apply (C4 l k)|rewrite lookup_insert_ne by done; apply C4].
Qed.
Lemma RemoveEdge_edges r id g : edges r !! id = Some g -> edges (RemoveEdge r id g).1 = delete id (edges r).
Proof. intros H. unfold RemoveEdge. by rewrite H, Z.eqb_refl. Qed.
(** Whether a session is at an edge. *)
Definition at_edge (r : Registry) (id : EdgeID) (rf : SessionRef) : Prop := exists sn, Registry.Snapshot r rf = Some sn /\ s_Edge sn = id.

(** [t'] is [t] once everybody at the edge is gone. *)
Record edge_gone (id : EdgeID) t t' : Prop := {
  eg_edges : edges_of t' = delete id (edges_of t);
  eg_users : forall sid u, Snapshot (srv_users (server t')) sid = Some u <-> Snapshot (srv_users (server t)) sid = Some u /\ ~ at_edge (srv_registry (server t)) id (mkRef sid (User.SessionGeneration u));
  eg_sessions : forall sid u, Snapshot (srv_users (server t')) sid = Some u ->
    Registry.Snapshot (srv_registry (server t')) (mkRef sid (User.SessionGeneration u)) = Registry.Snapshot (srv_registry (server t)) (mkRef sid (User.SessionGeneration u)) }.

(** [close] of an open link. *)
Lemma close_link_exact c l k : cluster_ok c -> links c !! l = Some k -> ln_closed k = false ->
  let c' := (close_link c l).1 in let id := inst_edge (ln_instance k) in
  cluster_ok c' /\
  instances c' = delete id (instances c) /\ links c' = <[l := k <| ln_closed := true |> <| ln_flushWait := [] |>]> (links c) /\ nextGen c' = nextGen c /\ next_link c' = next_link c /\ ready c' = ready c /\
  edge_gone id (site c) (site c').
Proof.
  intros [C1 C2 C3 C4 C5] Hl Ho. unfold close_link. rewrite Hl, Ho. cbn zeta. set (i := ln_instance k). set (k' := k <| ln_closed := true |> <| ln_flushWait := [] |>).
  assert (instances c !! inst_edge i = Some l) as Hi by (apply C2; eauto). pose proof (C3 l k Hl Ho) as He.
  change (instances (put_link c l k')) with (instances c). rewrite bool_decide_eq_true_2 by exact Hi. change (site ((put_link c l k') <| instances := delete (inst_edge i) (instances c) |>)) with (site c).
  pose proof (EdgeDisconnected_exact EqualFold ord Hord ToLower ParseTime FormatTime ParseIP (site c) i C1) as F.
  pose proof (ok_registry _ _ (lo_server _ _ (so_live _ _ C1))) as W. pose proof (SessionsForEdge_spec (reg c) i) as HS. specialize (fun rf => HS rf W He).
  destruct (EdgeDisconnected ord (site c) i) as [t es]. destruct F as [F1 F2 F3 F4]. cbn [fst] in *. set (r := (RemoveEdge (srv_registry (server t)) (inst_edge i) (inst_generation i)).1).
  assert (edges_of (with_reg t r) = delete (inst_edge i) (edges_of (site c))) as Er.
  { unfold r. change (edges_of (with_reg t ?x)) with (edges x). rewrite RemoveEdge_edges; [by rewrite F4|]. by rewrite F4. }
  assert (ok (with_reg t r)) as S'.
  { apply (RemoveEdge_ok EqualFold); [done|]. intros sid u sn _ Hu Hsn Hid. apply F2 in Hu as Hu'. destruct Hu' as [_ Hn]. apply Hn. apply HS. exists sn. split; [|done]. rewrite <- F3; done. }
  split; [split|].
  - exact S'.
  - intros id' l'. cbn. destruct (decide (id' = inst_edge i)) as [->|Hid].
    + rewrite lookup_delete_eq. split; [done|]. intros (k0 & H0 & H1 & H2). destruct (decide (l' = l)) as [->|Hn]; [rewrite lookup_insert_eq in H0; injection H0 as <-; done|].
      rewrite lookup_insert_ne in H0 by done. assert (instances c !! inst_edge i = Some l') as H by (apply C2; eauto). congruence.
    + rewrite lookup_delete_ne by done. rewrite C2. destruct (decide (l' = l)) as [->|Hn]; [rewrite lookup_insert_eq|by rewrite lookup_insert_ne]. split.
      * intros (k0 & H0 & H1 & H2). assert (k0 = k) as -> by congruence. by destruct Hid.
      * intros (k0 & [= <-] & H1 & H2). done.
  - intros l' k0. cbn [links with_site]. intros H0 H1. change (edges_of (site _)) with (edges_of (with_reg t r)). rewrite Er. destruct (decide (l' = l)) as [->|Hn].
    { cbn in H0. rewrite lookup_insert_eq in H0. injection H0 as <-. done. }
    cbn in H0. rewrite lookup_insert_ne in H0 by done. rewrite lookup_delete_ne; [by apply (C3 l')|]. intros E. assert (instances c !! inst_edge i = Some l') as H by (apply C2; eauto). congruence.
  - intros l' k0. cbn. destruct (decide (l' = l)) as [->|Hn]; [intros _; by apply (C4 l k)|rewrite lookup_insert_ne by done; apply C4].
  - intros id'. change (edges_of (site _)) with (edges_of (with_reg t r)). rewrite Er. change (instances _) with (delete (inst_edge i) (instances c)). destruct (decide (id' = inst_edge i)) as [->|Hid]; [rewrite lookup_delete_eq; by intros []|].
    rewrite !lookup_delete_ne by done. apply C5.
  - split; [done|]. split; [done|]. split; [done|]. split; [done|]. split; [done|]. split; [exact Er| |].
    + intros sid u. unfold at_edge. rewrite <- HS. apply F2.
    + intros sid u Hu. change (Snapshot (srv_users (server t)) sid = Some u) in Hu. rewrite <- F3 by done. destruct (so_registered _ _ F1 sid u Hu) as [sn Hsn]. rewrite Hsn.
      apply RemoveEdge_snapshot; [apply (ok_registry _ _ (lo_server _ _ (so_live _ _ F1)))|done|]. intros _ Hid. apply F2 in Hu as Hu'. destruct Hu' as [_ Hn]. apply Hn, HS. exists sn. split; [|done]. by rewrite <- F3.
Qed.
Lemma close_link_ok c l : cluster_ok c -> cluster_ok (close_link c l).1.
Proof.
  intros C. destruct (links c !! l) as [k|] eqn:Hl; [|unfold close_link; by rewrite Hl]. destruct (ln_closed k) eqn:Ho; [unfold close_link; by rewrite Hl, Ho|].
  by apply (close_link_exact c l k).
Qed.

(** ** Messages of an edge *)

Lemma owned_at_edge t i rf : remoteSessionOwned t i rf = true -> at_edge (srv_registry (server t)) (inst_edge i) rf.
Proof.
  unfold remoteSessionOwned. destruct (EdgeGeneration _ _) as [g|]; [|done]. intros [_ H]%andb_true_iff. destruct (Registry.Snapshot _ rf) as [sn|] eqn:E; [|done].
  apply bool_decide_eq_true in H. by exists sn.
Qed.
(** What a message of an edge may do to the server: let somebody in at that
    edge, end a session of that edge, or act for a session of that edge as the
    message of a client would. *)
Inductive edge_did (now : Z) (connIP : Z -> option bytes) t (i : EdgeInstanceRef) : Site DB BDB -> Prop :=
  | did_nothing : edge_did now connIP t i t
  | did_authenticate req : edge_did now connIP t i (AuthenticateRemote EqualFold ToLower ParseIP cfg authority now t i req).1
  | did_disconnect rf : at_edge (srv_registry (server t)) (inst_edge i) rf -> edge_did now connIP t i (cleanupRemote ord t rf).1
  | did_control rf kind payload : at_edge (srv_registry (server t)) (inst_edge i) rf -> OwnershipOf kind = OwnershipCore -> 
      edge_did now connIP t i (CoreIngressHandler EqualFold ord ToLower ParseTime FormatTime ParseIP authority now connIP kind payload rf t).1.1.
Lemma edge_did_ok now connIP t i t' : ok t -> roomy (server t) -> edge_did now connIP t i t' -> ok t' /\ edges_of t' = edges_of t.
Proof.
  intros S G [|req|rf _|rf kind payload _ _].
  - done.
  - split; [by apply AuthenticateRemote_ok|apply AuthenticateRemote_edges].
  - split; [|apply cleanupRemote_edges]. by apply (fw_ok EqualFold _ _ _ (cleanupRemote_exact EqualFold ord Hord ToLower ParseTime FormatTime ParseIP t rf S)).
  - split; [by apply CoreIngressHandler_ok|by apply (CoreIngressHandler_edges EqualFold ord Hord)].
Qed.
Lemma ControlRemote_did now connIP t i msg : edge_did now connIP t i (ControlRemote now connIP t i msg).1.1.
Proof.
  unfold ControlRemote. destruct (remoteSessionOwned _ _ _) eqn:Ho; cbn [negb]; [|constructor]. destruct (_ || _) eqn:Hk; [constructor|]. apply orb_false_iff in Hk as [_ Hk%negb_false_iff%bool_decide_eq_true].
  pose proof (did_control now connIP t i (cw_Session msg) (cw_MessageType msg) (cw_Payload msg) (owned_at_edge _ _ _ Ho) Hk) as H. by destruct (CoreIngressHandler _ _ _ _ _ _ _ _ _ _ _ _ _) as [[t' es] err].
Qed.
(** The link after a message: its table of sessions and its waits. *)
Definition same_link (l : loc) (k : link) c c' : Prop := instances c' = instances c /\ nextGen c' = nextGen c /\ next_link c' = next_link c /\
  exists k', links c' = <[l := k']> (links c) /\ ln_instance k' = ln_instance k /\ ln_closed k' = ln_closed k.
Definition voice_own c (k : link) (es : list edge_effect) : Prop :=
  forall bs, Voice_to bs ∈ es -> bs = [] \/ exists rf f, at_edge (reg c) (inst_edge (ln_instance k)) rf /\ Active (reg c) rf = true /\ bs = voice_in EqualFold ord ordE (server (site c)) rf f.
Lemma send_own c0 k c l takes typ id v : voice_own c0 k (send c l takes typ id v).1.
Proof. unfold send. intros bs. destruct (links c !! l) as [k'|]; [|by intros ?%elem_of_nil]. destruct (_ && _); [by intros ?%list_elem_of_singleton|by intros ?%elem_of_nil]. Qed.
Lemma core_own c k es : voice_own c k (map Core_effect es).
Proof. intros bs (x & E & _)%list_elem_of_fmap. done. Qed.
Lemma none_own c k : voice_own c k [].
Proof. by intros bs ?%elem_of_nil. Qed.
Lemma same_link_refl l k c : links c !! l = Some k -> same_link l k c c.
Proof. intros Hl. split; [done|]. split; [done|]. split; [done|]. exists k. by rewrite insert_id. Qed.
Lemma same_link_site l k c t : links c !! l = Some k -> same_link l k c (with_site c t).
Proof. intros Hl. destruct (same_link_refl l k c Hl) as (_ & _ & _ & H). done. Qed.
Lemma same_link_ready l k c x : links c !! l = Some k -> same_link l k c (c <| ready := x |>).
Proof. intros Hl. destruct (same_link_refl l k c Hl) as (_ & _ & _ & H). done. Qed.
Lemma handle_did now connIP takes c l k env : links c !! l = Some k -> let '(c', es, err) := handle now connIP takes c l k env in
  edge_did now connIP (site c) (ln_instance k) (site c') /\ same_link l k c c' /\ voice_own c k es.
Proof.
  intros Hl. pose proof (same_link_refl l k c Hl) as R. assert (edge_did now connIP (site c) (ln_instance k) (site c) /\ same_link l k c c /\ voice_own c k []) as Hn.
  { split; [constructor|]. split; [done|apply none_own]. }
  unfold handle. destruct (bool_decide _).
  { destruct (DecodeWire _ _ _) as [req|]; [|exact Hn]. destruct (_ =? 0); [exact Hn|]. pose proof (did_authenticate now connIP (site c) (ln_instance k) (aw_Request req)) as D.
    destruct (AuthenticateRemote _ _ _ _ _ _ _ _ _) as [t answer]. cbn [fst] in D. destruct (ap_Rejected _).
    - pose proof (send_own c k (with_site c t) l takes WireAuthResult (env_ID env) (VAuthResponse (respond (aw_ConnectionID req) answer))) as V. destruct (send _ _ _ _ _ _) as [es err]. split; [exact D|]. split; [by apply same_link_site|exact V].
    - destruct (ln_sessions k !! aw_ConnectionID req); [split; [exact D|]; split; [by apply same_link_site|apply none_own]|]. set (k' := k <| ln_sessions := _ |>).
      pose proof (send_own c k (put_link (with_site c t) l k') l takes WireAuthResult (env_ID env) (VAuthResponse (respond (aw_ConnectionID req) answer))) as V. destruct (send _ _ _ _ _ _) as [es err]. split; [exact D|]. split; [|exact V].
      split; [done|]. split; [done|]. split; [done|]. by exists k'. }
  destruct (bool_decide _).
  { destruct (DecodeWire _ _ _) as [ev|]; [|exact Hn]. destruct (negb _); [exact Hn|]. split; [constructor|]. split; [by apply same_link_ready|apply none_own]. }
  destruct (bool_decide _).
  { destruct (DecodeWire _ _ _) as [msg|]; [|exact Hn]. destruct (negb _); [exact Hn|]. pose proof (ControlRemote_did now connIP (site c) (ln_instance k) msg) as D. destruct (ControlRemote _ _ _ _ _) as [[t es] err].
    split; [exact D|]. split; [by apply same_link_site|apply core_own]. }
  destruct (bool_decide _).
  { destruct (bool_decide _); [|exact Hn]. split; [constructor|]. split; [|by intros bs ?%list_elem_of_singleton]. split; [done|]. split; [done|]. split; [done|]. by eexists. }
  destruct (bool_decide _).
  { destruct (DecodeWire _ _ _) as [v|]; [|exact Hn]. unfold VoiceRemote. destruct (remoteSessionOwned _ _ _) eqn:Ho; cbn [negb orb].
    - destruct (Active _ _) eqn:Ha; cbn [negb]; (split; [constructor|]; split; [done|]; intros bs [= ->]%list_elem_of_singleton); [right; exists (vu_Session v), (vu_Frame v); split; [by apply owned_at_edge in Ho|done]|by left].
    - split; [constructor|]. split; [done|]. intros bs [= ->]%list_elem_of_singleton. by left. }
  destruct (bool_decide _); [|exact Hn].
  destruct (DecodeWire _ _ _) as [ev|]; [|exact Hn]. change (site (put_link c l _)) with (site c). unfold DisconnectRemote. destruct (remoteSessionOwned _ _ _) eqn:Ho.
  - pose proof (did_disconnect now connIP (site c) (ln_instance k) (ev_Session ev) (owned_at_edge _ _ _ Ho)) as D. destruct (cleanupRemote _ _ _) as [t es]. split; [exact D|]. split; [|apply core_own]. split; [done|]. split; [done|]. split; [done|]. by eexists.
  - split; [constructor|]. split; [|apply none_own]. split; [done|]. split; [done|]. split; [done|]. by eexists.
Qed.
Lemma same_link_ok c c' l k : cluster_ok c -> links c !! l = Some k -> same_link l k c c' -> ok (site c') -> edges_of (site c') = edges_of (site c) -> cluster_ok c'.
Proof.
  intros C Hl (I & N & X & k' & Hk & Hi & Ho) S E. destruct (put_link_ok c l k k' C Hl Hi Ho) as [C1 C2 C3 C4 C5]. split; [done| | | |].
  - intros id l'. rewrite I, Hk. apply C2.
  - intros l' k0. rewrite Hk, E. apply C3.
  - intros l' k0. rewrite Hk, X. apply C4.
  - intros id. rewrite E, I. apply C5.
Qed.

Lemma close_link_gone c l k : cluster_ok c -> links c !! l = Some k -> ln_closed k = false ->
  let c' := (close_link c l).1 in
  cluster_ok c' /\ edge_gone (inst_edge (ln_instance k)) (site c) (site c') /\ (exists k', links c' !! l = Some k' /\ ln_closed k' = true) /\ instances c' !! inst_edge (ln_instance k) = None /\ nextGen c' = nextGen c.
Proof.
  intros C Hl Ho. destruct (close_link_exact c l k C Hl Ho) as (C' & I & K & N & _ & _ & E). split; [done|]. split; [done|]. split; [|split; [|done]].
  - rewrite K, lookup_insert_eq. by eexists.
  - by rewrite I, lookup_delete_eq.
Qed.
Lemma run_one_cases now connIP takes c l k env : cluster_ok c -> roomy (server (site c)) -> links c !! l = Some k -> ln_closed k = false -> env_Type env <> WireHeartbeat ->
  let '(c1, es1, err) := handle now connIP takes c l k env in
  let '(c', es) := run_one now connIP takes c l (Some env) in
  cluster_ok c1 /\ edge_did now connIP (site c) (ln_instance k) (site c1) /\ voice_own c k es1 /\
  match err with
  | None => c' = c1 /\ es = es1
  | Some _ => c' = (close_link c1 l).1 /\ exists k1, links c1 !! l = Some k1 /\ ln_instance k1 = ln_instance k /\ ln_closed k1 = false
  end.
Proof.
  intros C G Hl Ho Hh. unfold run_one. rewrite Hl, Ho, bool_decide_eq_false_2 by done. pose proof (handle_did now connIP takes c l k env Hl) as H. destruct (handle _ _ _ _ _ _ _) as [[c1 es1] err].
  destruct H as (D & L & V). destruct (edge_did_ok now connIP _ _ _ (co_site _ C) G D) as [S E]. pose proof (same_link_ok c c1 l k C Hl L S E) as C1. destruct L as (_ & _ & _ & k1 & Hk & Hi & Hc).
  destruct err as [e|]; [|done]. destruct (close_link c1 l) as [c2 es2]. split; [done|]. split; [done|]. split; [done|]. split; [done|]. exists k1. rewrite Hk, lookup_insert_eq. split; [done|]. by rewrite Hc.
Qed.

(** C19: an edge acts for the clients it carries and for nobody else. What one of
    its messages does to the server is to let a client in at that edge, to end
    one of its sessions, or what a Core message of one of its own active
    clients would do; voice enters for an active session of the edge only. If
    the message is refused, the link is closed, and then exactly the sessions
    of that edge end. The server and its links stay well formed. *)
Theorem edge_message_sound now connIP takes c l k env :
  cluster_ok c -> roomy (server (site c)) -> links c !! l = Some k -> ln_closed k = false -> env_Type env <> WireHeartbeat ->
  let id := inst_edge (ln_instance k) in
  let '(c1, es1, err) := handle now connIP takes c l k env in
  let '(c', es) := run_one now connIP takes c l (Some env) in
  cluster_ok c' /\ edge_did now connIP (site c) (ln_instance k) (site c1) /\ voice_own c k es1 /\
  match err with
  | None => c' = c1 /\ edges_of (site c') = edges_of (site c)
  | Some _ => edge_gone id (site c1) (site c') /\ (exists k', links c' !! l = Some k' /\ ln_closed k' = true) /\ instances c' !! id = None
  end.
Proof.
  intros C G Hl Ho Hh id. pose proof (run_one_cases now connIP takes c l k env C G Hl Ho Hh) as H. destruct (handle _ _ _ _ _ _ _) as [[c1 es1] err]. destruct (run_one _ _ _ _ _ _) as [c' es].
  destruct H as (C1 & D & V & H). destruct (edge_did_ok now connIP _ _ _ (co_site _ C) G D) as [S E]. destruct err as [e|].
  - destruct H as (-> & k1 & Hk & Hi & Hc). destruct (close_link_gone c1 l k1 C1 Hk Hc) as (C' & X1 & X2 & X3 & _). rewrite Hi in *. done.
  - destruct H as [-> ->]. done.
Qed.
Lemma run_one_ok now connIP takes c l env : cluster_ok c -> roomy (server (site c)) -> cluster_ok (run_one now connIP takes c l env).1.
Proof.
  intros C G. destruct (links c !! l) as [k|] eqn:Hl; [|unfold run_one; by rewrite Hl]. destruct (ln_closed k) eqn:Ho; [unfold run_one; by rewrite Hl, Ho|].
  destruct env as [env|]; [|unfold run_one; rewrite Hl, Ho; by apply close_link_ok]. destruct (decide (env_Type env = WireHeartbeat)) as [Hh|Hh]; [unfold run_one; by rewrite Hl, Ho, bool_decide_eq_true_2|].
  pose proof (run_one_cases now connIP takes c l k env C G Hl Ho Hh) as H. destruct (handle _ _ _ _ _ _ _) as [[c1 es1] err]. destruct (run_one _ _ _ _ _ _) as [c' es]. destruct H as (C1 & _ & _ & H).
  destruct err as [e|]; [destruct H as [-> _]; by apply close_link_ok|by destruct H as [-> _]].
Qed.
Lemma run_ready_ok ans c n : cluster_ok c -> cluster_ok (run_ready ans c n).1.
Proof.
  intros C. unfold run_ready. destruct (ready c !! n) as [[l ev]|]; [|done]. set (c0 := c <| ready := _ |>). assert (cluster_ok c0) as C0 by (destruct C as [C1 C2 C3 C4 C5]; by split).
  destruct (links c0 !! l) as [k|]; [|done]. pose proof (TransportReadyRemote_ok EqualFold ord Hord ToLower ParseTime FormatTime ParseIP cfg ans (site c0) (ln_instance k) (ev_Session ev) (ev_CryptoMode ev) (co_site _ C0)) as S.
  pose proof (TransportReadyRemote_edges EqualFold ord cfg ans (site c0) (ln_instance k) (ev_Session ev) (ev_CryptoMode ev)) as E. destruct (TransportReadyRemote _ _ _ _ _ _ _ _) as [[t es] b]. by apply with_site_ok.
Qed.
Lemma Flush_begin_ok c l takes rf : cluster_ok c -> cluster_ok (Flush_begin c l takes rf).1.1.
Proof.
  intros C. unfold Flush_begin. destruct (links c !! l) as [k|] eqn:Hl; [|done]. cbn zeta. destruct (send _ _ _ _ _ _) as [es [e|]]; by eapply put_link_ok.
Qed.
Lemma Flush_cancel_ok c l id : cluster_ok c -> cluster_ok (Flush_cancel c l id).
Proof. intros C. unfold Flush_cancel. destruct (links c !! l) as [k|] eqn:Hl; [|done]. by eapply put_link_ok. Qed.
Lemma close_links_ok ls : forall c, cluster_ok c -> cluster_ok (close_links c ls).1.
Proof.
  induction ls as [|l ls IH]; intros c C; cbn [close_links]; [done|]. pose proof (close_link_ok c l C) as C1. destruct (close_link c l) as [c1 e1]. specialize (IH c1 C1). by destruct (close_links c1 ls).
Qed.

(** ** A new link *)

(** The link that is installed for an edge is closed: what is left. *)
Lemma old_link_closed c id : cluster_ok c ->
  let c' := (match instances c !! id with Some old => close_link c old | None => (c, []) end).1 in
  cluster_ok c' /\ instances c' !! id = None /\ nextGen c' = nextGen c /\
  match instances c !! id with Some _ => edge_gone id (site c) (site c') | None => site c' = site c end.
Proof.
  intros C. destruct (instances c !! id) as [old|] eqn:Hi; [|done]. destruct (proj1 (co_links _ C id old) Hi) as (k & Hl & Ho & He).
  destruct (close_link_exact c old k C Hl Ho) as (C' & I & K & N & X & _ & E). rewrite He in *. split; [done|]. split; [by rewrite I, lookup_delete_eq|]. split; [done|]. done.
Qed.
Lemma install_ok c id g r : cluster_ok c -> instances c !! id = None -> RegisterEdge (reg c) id g = (r, None) ->
  let c1 := put_link ((with_site c (with_reg (site c) r)) <| next_link := S (next_link c) |>) (next_link c) (newEdgeWireConn (mkInstance id g)) in
  let c2 := c1 <| instances := <[id := next_link c]> (instances c) |> in
  let c3 := with_site c2 (EdgeConnected (site c2) (mkInstance id g)) in
  cluster_ok c3 /\ edges_of (site c3) = <[id := g]> (edges_of (site c)) /\ srv_users (server (site c3)) = srv_users (server (site c)) /\
  srv_registry (server (site c3)) = r /\ links c3 = <[next_link c := newEdgeWireConn (mkInstance id g)]> (links c) /\ instances c3 = <[id := next_link c]> (instances c).
Proof.
  intros [C1 C2 C3 C4 C5] Hi Hr c1 c2 c3. assert (edges_of (with_reg (site c) r) = <[id := g]> (edges_of (site c))) as Er.
  { change (edges r = <[id := g]> (edges (reg c))). revert Hr. unfold RegisterEdge. destruct (_ || _); [done|]. destruct (edges (reg c) !! id) as [cur|]; [destruct (negb _); [done|]|]; by intros [= <-]. }
  assert (ok (with_reg (site c) r)) as S1. { pose proof (RegisterEdge_ok EqualFold (site c) id g C1) as H. change (srv_registry (server (site c))) with (reg c) in H. by rewrite Hr in H. }
  assert (links c !! next_link c = None) as Hf. { destruct (links c !! next_link c) as [k|] eqn:E; [|done]. pose proof (C4 _ _ E). lia. }
  assert (ok (site c3)) as S3 by (apply EdgeConnected_ok; exact S1).
  assert (edges_of (site c3) = <[id := g]> (edges_of (site c))) as E3 by (rewrite <- Er; apply EdgeConnected_edges).
  split; [split|split; [done|split; [|split; [|done]]]].
  - done.
  - intros id' l'. change (instances c3) with (<[id := next_link c]> (instances c)). change (links c3) with (<[next_link c := newEdgeWireConn (mkInstance id g)]> (links c)).
    destruct (decide (id' = id)) as [->|Hid].
    + rewrite lookup_insert_eq. split.
      * intros [= <-]. rewrite lookup_insert_eq. by eexists.
      * intros (k & Hk & Ho & He). destruct (decide (l' = next_link c)) as [->|Hl]; [done|]. rewrite lookup_insert_ne in Hk by done. assert (instances c !! id = Some l') as H by (apply C2; eauto). congruence.
    + rewrite lookup_insert_ne by done. rewrite C2. destruct (decide (l' = next_link c)) as [->|Hl]; [rewrite lookup_insert_eq|by rewrite lookup_insert_ne]. split.
      * intros (k & Hk & _). congruence.
      * intros (k & [= <-] & _ & He). by destruct Hid.
  - intros l' k. change (links c3) with (<[next_link c := newEdgeWireConn (mkInstance id g)]> (links c)). rewrite E3. destruct (decide (l' = next_link c)) as [->|Hl].
    + rewrite lookup_insert_eq. intros [= <-] _. cbn. by rewrite lookup_insert_eq.
    + rewrite lookup_insert_ne by done. intros Hk Ho. rewrite lookup_insert_ne; [by apply (C3 l')|]. intros E. assert (instances c !! id = Some l') as H by (apply C2; eauto). congruence.
  - intros l' k. change (links c3) with (<[next_link c := newEdgeWireConn (mkInstance id g)]> (links c)). change (next_link c3) with (S (next_link c)). destruct (decide (l' = next_link c)) as [->|Hl]; [lia|].
    rewrite lookup_insert_ne by done. intros Hk. pose proof (C4 _ _ Hk). lia.
  - intros id'. rewrite E3. change (instances c3) with (<[id := next_link c]> (instances c)). destruct (decide (id' = id)) as [->|Hid]; [right; rewrite lookup_insert_eq; by eexists|]. rewrite !lookup_insert_ne by done. apply C5.
  - unfold c3. cbn [site with_site]. unfold EdgeConnected. destruct (EdgeGeneration _ _); [|done]. by destruct (_ =? _).
  - unfold c3. cbn [site with_site]. unfold EdgeConnected. destruct (EdgeGeneration _ _); [|done]. by destruct (_ =? _).
Qed.

Lemma with_nextGen_ok c x : cluster_ok c -> cluster_ok (c <| nextGen := x |>).
Proof. intros [C1 C2 C3 C4 C5]. by split. Qed.
Lemma RegisterEdge_sessions r id g r' : RegisterEdge r id g = (r', None) -> forall rf, Registry.Snapshot r' rf = Registry.Snapshot r rf.
Proof. unfold RegisterEdge. destruct (_ || _); [done|]. destruct (edges r !! id) as [cur|]; [destruct (negb _); [done|]|]; by intros [= <-]. Qed.
(** Who is there after a link came up. *)
Definition only_edge (id : EdgeID) t t' : Prop :=
  (forall sid u, Snapshot (srv_users (server t')) sid = Some u -> Snapshot (srv_users (server t)) sid = Some u) /\
  (forall sid u, Snapshot (srv_users (server t)) sid = Some u -> ~ at_edge (srv_registry (server t)) id (mkRef sid (User.SessionGeneration u)) -> Snapshot (srv_users (server t')) sid = Some u) /\
  (forall sid u, Snapshot (srv_users (server t')) sid = Some u ->
    Registry.Snapshot (srv_registry (server t')) (mkRef sid (User.SessionGeneration u)) = Registry.Snapshot (srv_registry (server t)) (mkRef sid (User.SessionGeneration u))) /\
  delete id (edges_of t') = delete id (edges_of t).
Lemma gone_only id t t' : edge_gone id t t' -> only_edge id t t'.
Proof.
  intros [E U R]. split; [|split; [|split; [done|by rewrite E, delete_delete_eq]]].
  - intros sid u Hu. by apply U in Hu as [? _].
  - intros sid u Hu Hn. apply U. by split.
Qed.
Lemma only_refl id t : only_edge id t t.
Proof. by split. Qed.
Lemma only_trans id t1 t2 t3 : only_edge id t1 t2 -> only_edge id t2 t3 -> only_edge id t1 t3.
Proof.
  intros (A1 & A2 & A3 & A4) (B1 & B2 & B3 & B4). split; [eauto|]. split; [|split; [|congruence]].
  - intros sid u Hu Hn. pose proof (A2 sid u Hu Hn) as Hu2. apply B2; [done|]. intros (sn & Hsn & He). apply Hn. exists sn. split; [|done]. by rewrite <- (A3 sid u Hu2).
  - intros sid u Hu. rewrite (B3 sid u Hu). apply A3. by apply B1.
Qed.

Lemma peerMatchesEdge_true p id : peerMatchesEdge p id = true -> p_verified p = true /\ exists cn names, p_cert p = Some (cn, names) /\ (EqualFold cn id = true \/ exists n, n ∈ names /\ EqualFold n id = true).
Proof.
  unfold peerMatchesEdge. destruct (p_verified p); [|done]. cbn [negb]. destruct (p_cert p) as [[cn names]|]; [|done]. intros H%orb_true_iff. split; [done|]. exists cn, names. split; [done|].
  destruct H as [H|(n & Hin & H)%existsb_exists]; [by left|right]. exists n. split; [by apply list_elem_of_In|done].
Qed.
(** The link of an edge after [link_up]. *)
Definition the_link c (id : EdgeID) (g : Z) : Prop := exists l, instances c !! id = Some l /\ links c !! l = Some (newEdgeWireConn (mkInstance id g)) /\ edges_of (site c) !! id = Some g /\
  forall l' k', links c !! l' = Some k' -> ln_closed k' = false -> inst_edge (ln_instance k') = id -> l' = l.
Lemma link_up_exact epoch takes c envID id : cluster_ok c -> let c' := (link_up epoch takes c envID id).1 in let g := u64 (default 0 (nextGen c !! id) + 1) in
  cluster_ok c' /\ nextGen c' !! id = Some g /\ only_edge id (site c) (site c') /\
  (is_Some (instances c !! id) -> forall sid u, Snapshot (srv_users (server (site c'))) sid = Some u -> ~ at_edge (reg c) id (mkRef sid (User.SessionGeneration u))) /\
  (instances c' !! id = None \/ the_link c' id g).
Proof.
  intros C. unfold link_up. cbn zeta. set (g := u64 _). set (c0 := c <| nextGen := _ |>). assert (cluster_ok c0) as C0 by (by apply with_nextGen_ok).
  assert (nextGen c0 !! id = Some g) as N0 by (cbn; apply lookup_insert_eq). destruct (old_link_closed c0 id C0) as (C1 & I1 & N1 & X1).
  destruct (match instances c0 !! id with Some old => _ | None => _ end) as [c1 es]. cbn [fst] in *.
  assert (only_edge id (site c) (site c1)) as O1. { destruct (instances c0 !! id); [by apply gone_only|]. rewrite X1. apply only_refl. }
  assert (is_Some (instances c !! id) -> forall sid u, Snapshot (srv_users (server (site c1))) sid = Some u -> ~ at_edge (reg c) id (mkRef sid (User.SessionGeneration u))) as A1.
  { intros [old Ho] sid u Hu. change (instances c0) with (instances c) in X1. rewrite Ho in X1. by apply (eg_users _ _ _ X1) in Hu as [_ ?]. }
  destruct (RegisterEdge (reg c1) id g) as [r [e|]] eqn:Er.
  { cbn [fst]. split; [done|]. split; [by rewrite N1|]. split; [done|]. split; [done|by left]. }
  destruct (install_ok c1 id g r C1 I1 Er) as (C3 & E3 & U3 & R3 & L3 & I3). set (c3 := with_site _ (EdgeConnected _ _)) in *.
  assert (only_edge id (site c1) (site c3)) as O3.
  { split; [intros sid u; by rewrite U3|]. split; [intros sid u; by rewrite U3|]. split; [|by rewrite E3, delete_insert_eq]. intros sid u _. rewrite R3. by apply (RegisterEdge_sessions (reg c1) id g). }
  assert (nextGen c3 !! id = Some g) as N3 by (change (nextGen c3) with (nextGen c1); by rewrite N1).
  assert (links c3 !! next_link c1 = Some (newEdgeWireConn (mkInstance id g))) as Hl by (by rewrite L3, lookup_insert_eq).
  pose proof (only_trans _ _ _ _ O1 O3) as O.
  assert (is_Some (instances c !! id) -> forall sid u, Snapshot (srv_users (server (site c3))) sid = Some u -> ~ at_edge (reg c) id (mkRef sid (User.SessionGeneration u))) as A3 by (rewrite U3; exact A1).
  match goal with |- context [send ?x ?l takes _ _ _] => change x with c3; change l with (next_link c1) end.
  destruct (send c3 (next_link c1) takes WireHelloAck envID _) as [es' [e|]].
  - destruct (close_link_gone c3 (next_link c1) _ C3 Hl eq_refl) as (C4 & X4 & _ & I4 & N4). destruct (close_link c3 (next_link c1)) as [c4 es'']. cbn [fst] in *.
    split; [done|]. split; [by rewrite N4|]. split; [by eapply only_trans, gone_only|]. split; [|by left]. intros Hs sid u Hu. apply (A3 Hs). by apply (eg_users _ _ _ X4) in Hu as [? _].
  - cbn [fst]. split; [done|]. split; [done|]. split; [done|]. split; [done|right]. exists (next_link c1). rewrite I3, lookup_insert_eq. split; [done|]. split; [done|]. split; [by rewrite E3, lookup_insert_eq|].
    intros l' k' Hk Ho Hid. assert (instances c3 !! id = Some l') as H by (apply (co_links _ C3); eauto). rewrite I3, lookup_insert_eq in H. congruence.
Qed.

Lemma serve_ok epoch takes c p env : cluster_ok c -> cluster_ok (serve epoch takes c p env).1.
Proof. intros C. unfold serve. destruct (greeted p env) as [id|[v|]]; [by apply link_up_exact|done|done]. Qed.

(** An edge that connects takes the place of its former link and of nothing
    else. Without a certificate in that edge's name, or with another protocol,
    nothing happens. Otherwise the link that edge had is closed and its
    sessions end, everybody at other edges stays with the same session, and the
    edge is either registered with the next generation and the new link, the
    only one of that edge, or it has no link at all. *)
Theorem edge_takes_over epoch takes c p env : cluster_ok c ->
  let c' := (serve epoch takes c p env).1 in
  cluster_ok c' /\
  match greeted p env with
  | Err _ => c' = c
  | Ok id =>
      p_verified p = true /\ (exists cn names, p_cert p = Some (cn, names) /\ (EqualFold cn id = true \/ exists n, n ∈ names /\ EqualFold n id = true)) /\
      only_edge id (site c) (site c') /\
      (is_Some (instances c !! id) -> forall sid u, Snapshot (srv_users (server (site c'))) sid = Some u -> ~ at_edge (reg c) id (mkRef sid (User.SessionGeneration u))) /\
      let g := u64 (default 0 (nextGen c !! id) + 1) in nextGen c' !! id = Some g /\ (instances c' !! id = None \/ the_link c' id g)
  end.
Proof.
  intros C. unfold serve. destruct (greeted p env) as [id|[v|]] eqn:Eg; [|by split|by split]. destruct (link_up_exact epoch takes c (env_ID env) id C) as (C' & N & O & A & L). split; [done|].
  assert (peerMatchesEdge p id = true) as Hp.
  { revert Eg. unfold greeted. destruct (negb _); [done|]. destruct (DecodeWire _ _ _) as [h|]; [|done]. destruct (_ || _); [done|]. destruct (peerMatchesEdge p (he_EdgeID h)) eqn:E; [|done]. by intros [= <-]. }
  apply peerMatchesEdge_true in Hp as [H1 H2]. done.
Qed.

Lemma CoreIngressHandler_UserState now connIP p rf t :
  CoreIngressHandler EqualFold ord ToLower ParseTime FormatTime ParseIP authority now connIP MessageUserState p rf t =
  peerAdapt (fun rf p => on_core (fun co => handleUserState EqualFold now co rf p)) MessageUserState p rf t.
Proof. reflexivity. Qed.
Lemma with_core_id t : with_core t (core t) = t.
Proof. by destruct t. Qed.
Lemma with_site_id c : with_site c (site c) = c.
Proof. by destruct c. Qed.

(** One bad message of one client takes everybody at its edge with it. A
    client of a remote edge that sends a message that does not parse (here a
    UserState; the handlers of a local client only log the error) makes the
    Core close the link of the edge: all its sessions end, and the edge is no
    longer registered. *)
Theorem bad_message_ends_edge now connIP takes c l k env msg :
  cluster_ok c -> roomy (server (site c)) -> links c !! l = Some k -> ln_closed k = false ->
  env_Type env = WireControlUp -> DecodeWire unmarshal_control env ControlWire_zero = Some msg -> session_of k (cw_ConnectionID msg) = cw_Session msg ->
  remoteSessionOwned (site c) (ln_instance k) (cw_Session msg) = true -> Active (reg c) (cw_Session msg) = true ->
  cw_MessageType msg = MessageUserState -> is_Some (UserState.Unmarshal UserState.zero (cw_Payload msg)).2 ->
  let c' := (run_one now connIP takes c l (Some env)).1 in
  edge_gone (inst_edge (ln_instance k)) (site c) (site c') /\
  forall sid u, Snapshot (srv_users (server (site c))) sid = Some u -> at_edge (reg c) (inst_edge (ln_instance k)) (mkRef sid (User.SessionGeneration u)) -> Snapshot (srv_users (server (site c'))) sid = None.
Proof.
  intros C G Hl Ho Ht Hd Hs Hw Ha Hk [e He]. assert (env_Type env <> WireHeartbeat) as Hh by (by rewrite Ht). pose proof (run_one_cases now connIP takes c l k env C G Hl Ho Hh) as H.
  assert (CoreIngressHandler EqualFold ord ToLower ParseTime FormatTime ParseIP authority now connIP MessageUserState (cw_Payload msg) (cw_Session msg) (site c) = (site c, [], Some e)) as E1.
  { rewrite CoreIngressHandler_UserState. unfold peerAdapt. change (srv_registry (server (site c))) with (reg c). rewrite Ha. unfold on_core, handleUserState. change (srv_registry (srv (core (site c)))) with (reg c). rewrite Ha. cbn [negb].
    destruct (UserState.Unmarshal _ _) as [us o]. cbn in He. subst o. by rewrite with_core_id. }
  assert (handle now connIP takes c l k env = (c, [], Some (ErrHandler e))) as E2.
  { unfold handle. rewrite Ht, !bool_decide_eq_false_2, (bool_decide_eq_true_2 (WireControlUp = WireControlUp)) by done. rewrite Hd, Hs, bool_decide_eq_true_2 by done. cbn [negb].
    unfold ControlRemote. rewrite Hw, Hk. cbn [negb]. change (_ || _) with false. cbn iota. rewrite E1. by rewrite with_site_id. }
  rewrite E2 in H. destruct (run_one _ _ _ _ _ _) as [c' es]. destruct H as (_ & _ & _ & -> & _). cbn [fst]. destruct (close_link_gone c l k C Hl Ho) as (_ & X & _). split; [done|].
  intros sid u Hu Hat. destruct (Snapshot (srv_users (server (site (close_link c l).1))) sid) as [v|] eqn:Hv; [|done]. apply (eg_users _ _ _ X) in Hv as [Hv Hn]. assert (v = u) as -> by congruence. done.
Qed.
End RemoteEdges.
End RemoteEdges.
