(* ===== verification/Events.v ===== *)
(** * Everything that happens to a server

    The server from its start ([NewServer]) on, as a step relation: messages of
    clients and their connections' ends, messages and losses of edge links, the
    calls of the REST interface, the checks of identities. What holds of every
    state that can be reached. *)

From Stdlib Require Import ZArith Lia String.
From stdpp Require Import base numbers list gmap sets option.
From S2P Require Import Prelude Wire Fields Messages Codec Registry UserManager ChannelManager Acl AclCache Listeners VoiceState VoiceServer Ban RateLimit ServerState UserStateHandler TextHandlers ChannelHandlers SessionHandlers Identity Login Revalidation SiteInvariant RestServer Ingress SiteEdges RemoteWire RemoteEdges.

Module Events.
Import Acl AclCache Listeners VoiceServer ServerState SessionHandlers Identity Login Revalidation SiteInvariant RestServer Ingress SiteEdges RemoteWire RemoteEdges.

(** The server and the connections of the local edge. *)
Record World {DB BDB : Type} := mkWorld { cluster : Cluster DB BDB; clients : gmap loc Client }.
Arguments World : clear implicits.
Arguments mkWorld {_ _} _ _.

(** One thing that happens. [random], [connIP], [ans], [takes] are what the
    outside answers meanwhile. *)
Inductive event :=
  | Connected (n : loc) (addr : option gostring) (ip : option bytes) (certHash : gostring) (verified tls13 hasCert : bool)
  | Received (n : loc) (now : Z) (connIP : Z -> option bytes) (random : nat -> Z -> bytes) (ans : Answers) (kind : Z) (payload : bytes)
  | Disconnected (n : loc)
  | ControlFailed (rf : SessionRef)
  | Rest (rq : request)
  | RevalidationTick (now : Z)
  | EdgeDials (epoch : gostring) (takes : bool) (p : peer) (env : WireEnvelope)
  | EdgeSends (now : Z) (connIP : Z -> option bytes) (takes : bool) (l : loc) (env : option WireEnvelope)
  | EdgeReady (ans : Answers) (n : nat)
  | EdgeLost (l : loc)
  | FlushAsked (l : loc) (takes : bool) (rf : SessionRef)
  | FlushGivenUp (l : loc) (id : Z)
  | EdgesShut.

Section Events.
Context (EqualFold : gostring -> gostring -> bool).
Context `{SO : Channels.Sorter} {DB TX : Type} `{CS : Channels.ChannelStore DB TX}.
Context (ord : nat -> Channels.order) (ordE : list EdgeID -> list EdgeID).
Context (ToLower : gostring -> gostring) (ParseTime : gostring -> Z) (FormatTime : Z -> gostring) (ParseIP : gostring -> option bytes).
Context {BDB : Type} `{BS : Ban.BanStore BDB} `{RT : RestTables BDB}.
Context (SplitHostPort : gostring -> option gostring) (cfg : Config) (authority : option Authority) (staleGrace : Z) (token : gostring).
Context `{J : JSON}.
Implicit Types (w : World DB BDB) (t : Site DB BDB) (c : Cluster DB BDB).

(** ** The start *)

(** [NewServer], on the channels, the bans and the permissions that are
    stored. *)
Definition NewServer (maxUsers : Z) (chans : Channels.Manager DB) (st : AclStore) (b : Ban.Manager (DB := BDB)) (policy : Settings) : Site DB BDB :=
  let users := UserManager.AddAuthorizationListener (UserManager.NewManager maxUsers) self in
  let chans := Channels.AddAuthorizationListener chans self in
  let registry := (RegisterEdge NewRegistry LocalEdgeID 1).1 in
  let s := mkServer DB users chans registry empty_manager ∅ st (Some NewEvaluator) ∅ {[LocalEdgeID]} in
  mkSite DB BDB (mkCore DB s policy ∅ ∅) b ∅ ∅ ∅.
Definition start (t : Site DB BDB) : World DB BDB := mkWorld (mkCluster t ∅ ∅ ∅ 0%nat []) ∅.

(** ** A step *)

Definition on_site w (t : Site DB BDB) : World DB BDB := mkWorld (with_site (cluster w) t) (clients w).
Definition on_cluster w (c : Cluster DB BDB) : World DB BDB := mkWorld c (clients w).
Definition step w (e : event) : World DB BDB :=
  let t := site (cluster w) in
  match e with
  | Connected n addr ip certHash verified tls13 hasCert =>
      match clients w !! n with
      | Some _ => w
      | None => mkWorld (cluster w) (<[n := New_client addr ip certHash verified tls13 hasCert]> (clients w))
      end
  | Received n now connIP random ans kind payload =>
      match clients w !! n with
      | Some cl =>
          let '(t, cl, _, _) := received EqualFold ord ToLower ParseTime FormatTime ParseIP SplitHostPort cfg authority now connIP random ans kind payload (t, cl) in
          mkWorld (with_site (cluster w) t) (<[n := cl]> (clients w))
      | None => w
      end
  | Disconnected n =>
      match clients w !! n with
      | Some cl => mkWorld (with_site (cluster w) (OnClose ord t (cl_session cl)).1) (delete n (clients w))
      | None => w
      end
  | ControlFailed rf => on_site w (controlFailed ord t rf).1
  | Rest rq => on_site w (rest_handle EqualFold ord ToLower ParseTime FormatTime ParseIP authority staleGrace token t rq).1.1
  | RevalidationTick now => on_site w (revalidation_tick EqualFold ord authority staleGrace now t).1
  | EdgeDials epoch takes p env => on_cluster w (serve EqualFold ord epoch takes (cluster w) p env).1
  | EdgeSends now connIP takes l env => on_cluster w (run_one EqualFold ord ordE ToLower ParseTime FormatTime ParseIP cfg authority now connIP takes (cluster w) l env).1
  | EdgeReady ans n => on_cluster w (run_ready EqualFold ord cfg ans (cluster w) n).1
  | EdgeLost l => on_cluster w (close_link ord (cluster w) l).1
  | FlushAsked l takes rf => on_cluster w (Flush_begin (cluster w) l takes rf).1.1
  | FlushGivenUp l id => on_cluster w (Flush_cancel (cluster w) l id)
  | EdgesShut => on_cluster w (Close ord (cluster w)).1
  end.

(** A deletion of a channel through the REST interface, with somebody in it. *)
Definition strands w (e : event) : Prop :=
  match e with Rest rq => evicts (site (cluster w)) rq | _ => False end.
(** The states a server comes to, as long as it has not let in 2^64 clients and
    nobody deletes a channel with users in it through the REST interface. *)
Inductive reachable (w0 : World DB BDB) : World DB BDB -> Prop :=
  | reached_start : reachable w0 w0
  | reached_step w e : reachable w0 w -> roomy (server (site (cluster w))) -> ~ strands w e -> reachable w0 (step w e).

(** ** Every step keeps the invariant *)

Notation ok := (site_ok EqualFold).
Notation cok := (cluster_ok EqualFold).
Hypothesis Hord : forall i, Channels.order_ok (ord i).

Lemma nobody_yet maxUsers chans st b policy sid : Snapshot (srv_users (server (NewServer maxUsers chans st b policy))) sid = None.
Proof. unfold Snapshot, user_at. cbn -[lookup]. by rewrite lookup_empty. Qed.
Lemma NewServer_ok maxUsers chans st b policy : 0 < maxUsers -> 4 * maxUsers < 2 ^ 32 -> Channels.chan_wf chans -> 
  (forall ch, Channels.GetChannel chans 0 = Some ch -> Channels.ParentID ch = 0) -> ok (NewServer maxUsers chans st b policy).
Proof.
  intros H0 H4 W Hr. destruct (NewManager_wf maxUsers H0 H4). split; [split; [split|..]|split|].
  - by split.
  - by eapply (Channels.cop_exec_wf chans (Channels.OpListener self)) in W as (? & [= <-] & ?).
  - apply RegisterEdge_wf, NewRegistry_wf.
  - exists ∅. apply refines_empty.
  - intros e [= <-]. apply cache_valid_empty.
  - by left.
  - apply elem_of_app. right. by left.
  - done.
  - intros sid u Hu. by rewrite nobody_yet in Hu.
  - exact Hr.
  - intros sid u Hu. by rewrite nobody_yet in Hu.
Qed.
Lemma rest_edges t rq : ok t -> edges_of (rest_handle EqualFold ord ToLower ParseTime FormatTime ParseIP authority staleGrace token t rq).1.1 = edges_of t.
Proof.
  intros S. destruct (about_content rq) eqn:Hc.
  { unfold edges_of. by rewrite (proj1 (content_people EqualFold ord ToLower ParseTime FormatTime ParseIP authority staleGrace token t rq S Hc)). }
  destruct rq as [| | | | | | | |id sid reason|now ip id sid reason|id sid body|now header body]; try done; cbn [rest_handle].
  - apply (doUserAction_ind (fun t' => edges_of t' = edges_of t)); [done|intros n; apply KickSession_edges].
  - apply (doUserAction_ind (fun t' => edges_of t' = edges_of t)); [done|intros n; apply BanAndKickSession_edges].
  - unfold MuteUser. destruct body as [mute|]; [|done]. apply (doUserAction_ind (fun t' => edges_of t' = edges_of t)); [done|]. intros n.
    pose proof (MuteSession_edges t n mute) as H. by destruct (MuteSession _ _ _) as [[s e] o].
  - unfold Revalidate. destruct (negb _); [done|]. destruct body as [n|]; [|done]. destruct (n =? 0); [done|].
    assert (edges_of (RevalidateUserNow EqualFold ord authority staleGrace now t n).1.1 = edges_of t) as H by apply RevalidateUserNow_edges. by destruct (RevalidateUserNow _ _ _ _ _ _ _) as [[t' e] o].
Qed.
Lemma step_ok w e : cok (cluster w) -> roomy (server (site (cluster w))) -> ~ strands w e -> cok (cluster (step w e)).
Proof.
  intros C G Hn. pose proof (co_site _ _ C) as S. assert (forall t, ok t -> edges_of t = edges_of (site (cluster w)) -> cok (cluster (on_site w t))) as HS by (intros; by apply with_site_ok).
  destruct e; cbn [step].
  - by destruct (clients w !! n).
  - destruct (clients w !! n) as [cl|]; [|done]. 
    pose proof (client_message_ok EqualFold ord ToLower ParseTime FormatTime ParseIP SplitHostPort cfg authority Hord now connIP random ans kind payload (site (cluster w)) cl S G) as H1.
    pose proof (received_edges EqualFold ord Hord ToLower ParseTime FormatTime ParseIP SplitHostPort cfg authority now connIP random ans kind payload (site (cluster w)) cl S) as H2.
    destruct (received _ _ _ _ _ _ _ _ _ _ _ _ _ _ _ _) as [[[t' cl'] es] err]. by apply with_site_ok.
  - destruct (clients w !! n) as [cl|]; [|done]. apply with_site_ok; [done|by apply OnClose_ok|apply OnClose_edges].
  - apply HS; [by apply controlFailed_ok|apply controlFailed_edges].
  - apply HS; [by apply rest_ok|by apply rest_edges].
  - apply HS; [by apply revalidation_tick_ok|apply revalidation_tick_edges].
  - by apply serve_ok.
  - by apply run_one_ok.
  - by apply run_ready_ok.
  - by apply close_link_ok.
  - by apply Flush_begin_ok.
  - by apply Flush_cancel_ok.
  - by apply close_links_ok.
Qed.
Lemma start_ok t : ok t -> (forall id, is_Some (edges_of t !! id) -> id = LocalEdgeID) -> cok (cluster (start t)).
Proof.
  intros S He. split; [done| | | |].
  - intros id l. cbn -[lookup]. rewrite lookup_empty. split; [done|]. intros (k & Hk & _). by rewrite lookup_empty in Hk.
  - intros l k. cbn -[lookup]. by rewrite lookup_empty.
  - intros l k. cbn -[lookup]. by rewrite lookup_empty.
  - intros id Hid. left. by apply He.
Qed.
Lemma reachable_ok w0 w : cok (cluster w0) -> reachable w0 w -> cok (cluster w).
Proof. intros C R. induction R as [|w e R IH G Hn]; [done|by apply step_ok]. Qed.

(** C3: every state a server comes to is well formed. Whatever clients send and
    in whatever order, whoever disconnects, whatever edges connect, say and
    drop, whomever the administrator kicks, bans or mutes, whatever is changed
    through the REST interface (short of deleting a channel with somebody in it)
    and whatever the identity authority answers: every user is in a channel of the tree, under
    a name nobody else has, with a session that the registry knows; that
    session is at the local edge or at an edge whose one open link carries its
    registered generation; and every permission that the cache answers is the
    one the rules give at that moment. *)
Theorem reachable_sound maxUsers chans st b policy w :
  0 < maxUsers -> 4 * maxUsers < 2 ^ 32 -> Channels.chan_wf chans -> (forall ch, Channels.GetChannel chans 0 = Some ch -> Channels.ParentID ch = 0) ->
  reachable (start (NewServer maxUsers chans st b policy)) w ->
  let s := server (site (cluster w)) in
  cok (cluster w) /\
  (forall sid u, Snapshot (srv_users s) sid = Some u ->
     sid <> 0 /\ is_Some (Channels.GetChannel (srv_chans s) (User.ChannelID u)) /\
     (forall sid' u', Snapshot (srv_users s) sid' = Some u' -> User.Name u' = User.Name u -> sid' = sid) /\
     exists sn, Registry.Snapshot (srv_registry s) (mkRef sid (User.SessionGeneration u)) = Some sn /\
       (s_Edge sn = LocalEdgeID \/
        exists l k, links (cluster w) !! l = Some k /\ ln_closed k = false /\ inst_edge (ln_instance k) = s_Edge sn /\
          EdgeGeneration (srv_registry s) (s_Edge sn) = Some (inst_generation (ln_instance k)) /\
          forall l' k', links (cluster w) !! l' = Some k' -> ln_closed k' = false -> inst_edge (ln_instance k') = s_Edge sn -> l' = l)) /\
  (forall subject cid perm, aclCheck EqualFold s subject cid perm = may EqualFold s subject cid perm).
Proof.
  intros H0 H4 W Hr R s. assert (cok (cluster w)) as C.
  { eapply reachable_ok; [|exact R]. apply start_ok; [by apply NewServer_ok|]. intros id. change (edges_of (NewServer _ _ _ _ _)) with (<[LocalEdgeID := 1]> (∅ : gmap EdgeID Z)).
    destruct (decide (id = LocalEdgeID)); [done|]. rewrite lookup_insert_ne, lookup_empty by done. by intros []. }
  pose proof (co_site _ _ C) as S. pose proof (lo_server _ _ (so_live _ _ S)) as SW. split; [done|]. split; [|intros subject cid perm; exact (aclCheck_current EqualFold s subject cid perm SW)].
  intros sid u Hu. split; [by eapply Snapshot_positive|]. split; [by apply (lc_users _ (so_located _ _ S) sid)|]. split.
  { intros sid' u' Hu' Hn. eapply names_unique; [apply (ok_users _ _ SW)|exact Hu'|exact Hu|exact Hn]. }
  destruct (so_registered _ _ S sid u Hu) as [sn Hsn]. exists sn. split; [done|].
  pose proof (snapshot_entry _ _ _ Hsn) as (l0 & e & He & _ & ->). apply session_entry_Some in He as [He1 He2]. destruct (wf_sessions _ (ok_registry _ _ SW) _ _ He1) as (e' & He' & _ & Hed & _).
  assert (e' = e) as -> by (unfold s in *; congruence). change (s_Edge (snapshot e)) with (edge e). destruct (co_edges _ _ C (edge e) Hed) as [?|[l Hl]]; [by left|right].
  apply (co_links _ _ C) in Hl as Hl'. destruct Hl' as (k & Hk & Ho & Hid). exists l, k. split; [done|]. split; [done|]. split; [done|]. split.
  - rewrite <- Hid. by apply (co_registered _ _ C l).
  - intros l' k' Hk' Ho' Hid'. assert (instances (cluster w) !! edge e = Some l') as H by (apply (co_links _ _ C); eauto). congruence.
Qed.
End Events.
End Events.
