(* ===== verification/EdgeSample.v ===== *)
(** * A server with an edge

    The small server of [HandlerSample] with the edge "east" linked to it, and a
    client that comes through the local edge; the theorems about messages of
    clients, about edge links and about everything that happens applied to
    them. The JSON documents are stood for by short codes. *)

From Stdlib Require Import ZArith Lia String.
From stdpp Require Import base numbers list gmap sets option.
From S2P Require Import Prelude Wire Fields Messages Codec AudioPacket Registry UserManager ChannelManager ChannelTable Acl AclCache AclSample Listeners VoiceState VoiceServer VoiceSample Ban RateLimit ServerState UserStateHandler TextHandlers ChannelHandlers SessionHandlers HandlerSample Identity Login LoginSample Revalidation SiteInvariant RestServer Ingress SiteEdges RemoteWire RemoteEdges Events.

Module EdgeSample.
Import ChannelTable Acl AclCache AclSample Listeners VoiceServer VoiceSample ServerState UserStateHandler SessionHandlers HandlerSample Identity Login LoginSample SiteInvariant RestServer Ingress SiteEdges RemoteWire RemoteEdges Events.

(** ** Documents *)

(** Session 2 is carried by connection 9 of the edge. A document is one byte. *)
Definition at_east : SessionRef := mkRef 2 2.
Definition broken : ControlWire := mkControl 9 at_east MessageUserState [8].
Definition come_from (name : string) (connID : Z) : AuthRequestWire :=
  mkAuthWire connID (mkAuthRequest (str name) [] [] [] false (str "10.0.0.9"%string) 0) 0.
#[local] Instance codes : JSON := {|
  marshal_envelope e := Some (zlen (env_Type e) :: env_Type e ++ be64 (u64 (env_ID e)) ++ env_Data e);
  unmarshal_envelope b := match b with
    | n :: b => Some (mkEnvelope (ztake n b) (be64_read (zdrop n b)) (zdrop 8 (zdrop n b)))
    | [] => None end;
  unmarshal_hello b := if bool_decide (b = [1]) then Some (mkHello (mkVersion WireMajor 0) east []) else
    if bool_decide (b = [2]) then Some (mkHello (mkVersion WireMajor 0) LocalEdgeID []) else None;
  unmarshal_auth b := if bool_decide (b = [1]) then Some (come_from "eve" 10) else if bool_decide (b = [2]) then Some (come_from "dan" 10) else None;
  unmarshal_event b := if bool_decide (b = [1]) then Some (mkEvent 9 at_east []) else None;
  unmarshal_control b := if bool_decide (b = [1]) then Some broken else None;
  unmarshal_voice b := None |}.

Lemma wire_roundtrip_witness :
  WriteWire WireDisconnect 7 [1] = Ok (be32 20 ++ 10 :: WireDisconnect ++ be64 7 ++ [1]) /\
  5 <= zlen (be32 20 ++ 10 :: WireDisconnect ++ be64 7 ++ [1]) <= 4 + MaxWireFrame /\
  (forall rest, ReadWire ((be32 20 ++ 10 :: WireDisconnect ++ be64 7 ++ [1]) ++ rest) = Ok (mkEnvelope WireDisconnect 7 [1], rest)) /\
  (forall n, n < length (be32 20 ++ 10%Z :: WireDisconnect ++ be64 7 ++ [1%Z]) -> exists e, ReadWire (take n (be32 20 ++ 10%Z :: WireDisconnect ++ be64 7 ++ [1%Z])) = Err (ErrStream e))%nat /\
  (forall n rest, is_u32 n -> n = 0 \/ MaxWireFrame < n -> ReadWire (be32 n ++ rest) = Err ErrWireFrameTooLarge).
Proof.
  split; [vm_compute; reflexivity|]. apply wire_roundtrip; [vm_compute; reflexivity|vm_compute; reflexivity|]. intros body [= <-]. vm_compute. reflexivity.
Defined.

(** ** A client of the local edge *)

Definition no_ip (sid : Z) : option bytes := None.
Definition says (cl : Client) (kind : Z) (payload : bytes) :=
  received fold_ascii orders Ban.lower Ban.no_time Ban.no_date Ban.as_bytes host config (Some authority) 0 no_ip random_bytes all_well kind payload (site4, cl).
Example too_early : says fresh MessageTextMessage [] = (site4, fresh, [], None).
Proof. reflexivity. Qed.
Example comes_in : let '(t, cl, es, err) := says fresh MessageAuthenticate (come_in "eve") in cl_session cl = mkRef 4 4 /\ cl_state cl = ConnActive /\ err = None.
Proof. vm_compute. repeat split. Qed.
(** A connection whose session has ended. *)
Definition gone : Client := fresh <| cl_state := ConnActive |> <| cl_session := mkRef 3 9 |>.
Example not_heard : (says gone MessageUserState (UserState.Marshal (UserState.zero <| UserState.SelfMute := true |> <| UserState.SetFields := UserState.SetSelfMute |>))).1.1.1 = site4.
Proof. vm_compute. reflexivity. Qed.
(** Its reported latency is still written, to whoever has the number now. *)
Example ping_of_the_dead : User.Ping <$> Snapshot (srv_users (server (says gone MessagePing (Ping.Marshal (Ping.zero <| Ping.TCPPingAvg := 0x41200000 |>))).1.1.1)) 3 = Some 0x41200000.
Proof. vm_compute. reflexivity. Qed.

Lemma client_message_sound_witness :
  let '(t', cl', es, err) := received fold_ascii orders Ban.lower Ban.no_time Ban.no_date Ban.as_bytes host config (Some authority) 0 no_ip random_bytes all_well MessageUserState [] (site4, gone) in
  site_ok fold_ascii t' /\
  (cl_state gone = StateAuthenticating -> MessageUserState <> MessageVersion -> MessageUserState <> MessageAuthenticate -> (t', cl', es, err) = (site4, gone, [], None)) /\
  (MessageUserState <> MessageAuthenticate -> same_conn gone cl' /\ own_effects gone es /\
     (Active (srv_registry (server site4)) (cl_session gone) = false -> t' = site4 \/ MessageUserState = MessagePing /\ exists avg, t' = report_ping site4 gone avg)).
Proof.
  apply (client_message_sound fold_ascii orders Ban.lower Ban.no_time Ban.no_date Ban.as_bytes host config (Some authority) orders_ok 0 no_ip random_bytes all_well MessageUserState [] site4 gone);
    [exact site4_ok|exact site4_roomy].
Defined.

(** ** The edge *)

Definition east_link : link := mkLink (mkInstance east 5) false 0 [] {[9 := at_east]}.
Definition cluster5 : Cluster table (list Ban.Row) := mkCluster site4 {[east := 0%nat]} {[east := 5]} {[0%nat := east_link]} 1 [].
Lemma cluster5_ok : cluster_ok fold_ascii cluster5.
Proof.
  split.
  - exact site4_ok.
  - intros id l. change (instances cluster5) with ({[east := 0%nat]} : gmap EdgeID loc). change (links cluster5) with ({[0%nat := east_link]} : gmap loc link). rewrite lookup_singleton_Some. split.
    + intros [<- <-]. exists east_link. rewrite lookup_singleton_eq. done.
    + intros (k & [<- <-]%lookup_singleton_Some & _ & <-). done.
  - intros l k. change (links cluster5) with ({[0%nat := east_link]} : gmap loc link). intros [<- <-]%lookup_singleton_Some _. vm_compute. reflexivity.
  - intros l k. change (links cluster5) with ({[0%nat := east_link]} : gmap loc link). intros [<- <-]%lookup_singleton_Some. cbn. lia.
  - intros id. change (edges_of (site cluster5)) with (<[east := 5]> (<[LocalEdgeID := 1]> (∅ : gmap EdgeID Z))). change (instances cluster5) with ({[east := 0%nat]} : gmap EdgeID loc).
    destruct (decide (id = east)) as [->|Hn]; [right; rewrite lookup_singleton_eq; by eexists|]. destruct (decide (id = LocalEdgeID)); [by left|]. rewrite !lookup_insert_ne, lookup_empty by done. by intros [].
Qed.
Definition ordE (l : list EdgeID) : list EdgeID := l.
Definition hears (c : Cluster table (list Ban.Row)) (typ : WireType) (data : bytes) :=
  run_one fold_ascii orders ordE id Ban.no_time Ban.no_date (fun _ => None) config (Some authority) 0 no_ip true c 0 (Some (mkEnvelope typ 1 data)).
Definition online (c : Cluster table (list Ban.Row)) (sid : Z) : bool := there (Snapshot (srv_users (server (site c))) sid).

Example eve_at_east : let c := (hears cluster5 WireAuthRequest [1]).1 in online c 4 = true /\ edges_of (site c) !! east = Some 5.
Proof. vm_compute. repeat split. Qed.
(** Eve has done nothing wrong. *)
Example eve_suffers : let c := (hears (hears cluster5 WireAuthRequest [1]).1 WireControlUp [1]).1 in
  online c 2 = false /\ online c 4 = false /\ online c 1 = true /\ edges_of (site c) !! east = None.
Proof. vm_compute. repeat split. Qed.
(** A connection that logs in twice, under any free name, ends the link, too. *)
Example number_taken : let c := (hears (hears cluster5 WireAuthRequest [1]).1 WireAuthRequest [2]).1 in online c 2 = false /\ edges_of (site c) !! east = None.
Proof. vm_compute. repeat split. Qed.
Example player_leaves : let c := (hears cluster5 WireDisconnect [1]).1 in online c 2 = false /\ edges_of (site c) !! east = Some 5.
Proof. vm_compute. repeat split. Qed.
(** A message that was under way when its client was kicked. *)
Example late_message : let c := with_site cluster5 (KickSession orders site4 2 []).1.1 in
  let c' := (hears c WireControlUp [1]).1 in edges_of (site c) !! east = Some 5 /\ edges_of (site c') !! east = None.
Proof. vm_compute. repeat split. Qed.

Lemma edge_message_sound_witness :
  let env := mkEnvelope WireDisconnect 1 [1] in
  let '(c1, es1, err) := handle fold_ascii orders ordE id Ban.no_time Ban.no_date (fun _ => None) config (Some authority) 0 no_ip true cluster5 0 east_link env in
  let '(c', es) := run_one fold_ascii orders ordE id Ban.no_time Ban.no_date (fun _ => None) config (Some authority) 0 no_ip true cluster5 0 (Some env) in
  cluster_ok fold_ascii c' /\
  edge_did fold_ascii orders id Ban.no_time Ban.no_date (fun _ => None) config (Some authority) 0 no_ip (site cluster5) (ln_instance east_link) (site c1) /\
  voice_own fold_ascii orders ordE cluster5 east_link es1 /\
  match err with
  | None => c' = c1 /\ edges_of (site c') = edges_of (site cluster5)
  | Some _ => edge_gone (inst_edge (ln_instance east_link)) (site c1) (site c') /\ (exists k', links c' !! 0%nat = Some k' /\ ln_closed k' = true) /\ instances c' !! inst_edge (ln_instance east_link) = None
  end.
Proof.
  apply (edge_message_sound fold_ascii orders ordE id Ban.no_time Ban.no_date (fun _ => None) config (Some authority) orders_ok 0 no_ip true cluster5 0 east_link (mkEnvelope WireDisconnect 1 [1]));
    [exact cluster5_ok|exact site4_roomy|reflexivity|reflexivity|discriminate].
Defined.
Lemma bad_message_ends_edge_witness :
  let c' := (run_one fold_ascii orders ordE id Ban.no_time Ban.no_date (fun _ => None) config (Some authority) 0 no_ip true cluster5 0 (Some (mkEnvelope WireControlUp 1 [1]))).1 in
  edge_gone (inst_edge (ln_instance east_link)) (site cluster5) (site c') /\
  forall sid u, Snapshot (srv_users (server (site cluster5))) sid = Some u -> at_edge (reg cluster5) (inst_edge (ln_instance east_link)) (mkRef sid (User.SessionGeneration u)) -> Snapshot (srv_users (server (site c'))) sid = None.
Proof.
  apply (bad_message_ends_edge fold_ascii orders ordE id Ban.no_time Ban.no_date (fun _ => None) config (Some authority) orders_ok 0 no_ip true cluster5 0 east_link (mkEnvelope WireControlUp 1 [1]) broken);
    [exact cluster5_ok|exact site4_roomy|reflexivity|reflexivity|reflexivity|vm_compute; reflexivity|vm_compute; reflexivity|vm_compute; reflexivity|vm_compute; reflexivity|reflexivity|vm_compute; by eexists].
Defined.

(** A second link of the edge takes the place of the first. *)
Definition east_peer : peer := mkPeer true (Some (str "edges"%string, [str "East"%string])).
Definition dials (p : peer) (data : bytes) := serve fold_ascii orders (str "epoch"%string) true cluster5 p (mkEnvelope WireHello 1 data).
Example replaced : let c := (dials east_peer [1]).1 in online c 2 = false /\ online c 1 = true /\ edges_of (site c) !! east = Some 6 /\ instances c !! east = Some 1%nat.
Proof. vm_compute. repeat split. Qed.
Example stranger : (dials (mkPeer true (Some (str "west"%string, []))) [1]).1 = cluster5.
Proof. vm_compute. reflexivity. Qed.
(** An edge that is called as the local one is registered beside it, and takes
    the local clients with it when it goes. *)
Definition local_peer : peer := mkPeer true (Some (LocalEdgeID, [])).
Example second_local : let c := (dials local_peer [2]).1 in let c' := (close_link orders c 1).1 in
  instances c !! LocalEdgeID = Some 1%nat /\ online c 1 = true /\ online c' 1 = false /\ online c' 3 = false /\ edges_of (site c') !! LocalEdgeID = None.
Proof. vm_compute. repeat split. Qed.

Lemma edge_takes_over_witness :
  let env := mkEnvelope WireHello 1 [1] in
  let c' := (serve fold_ascii orders (str "epoch"%string) true cluster5 east_peer env).1 in
  cluster_ok fold_ascii c' /\
  match greeted fold_ascii east_peer env with
  | Err _ => c' = cluster5
  | Ok id =>
      p_verified east_peer = true /\ (exists cn names, p_cert east_peer = Some (cn, names) /\ (fold_ascii cn id = true \/ exists n, n ∈ names /\ fold_ascii n id = true)) /\
      only_edge id (site cluster5) (site c') /\
      (is_Some (instances cluster5 !! id) -> forall sid u, Snapshot (srv_users (server (site c'))) sid = Some u -> ~ at_edge (reg cluster5) id (mkRef sid (User.SessionGeneration u))) /\
      let g := u64 (default 0 (nextGen cluster5 !! id) + 1) in nextGen c' !! id = Some g /\ (instances c' !! id = None \/ the_link c' id g)
  end.
Proof. exact (edge_takes_over fold_ascii orders id Ban.no_time Ban.no_date (fun _ => None) orders_ok (str "epoch"%string) true cluster5 east_peer (mkEnvelope WireHello 1 [1]) cluster5_ok). Defined.

(** ** From the start on *)

Definition begun : World table (list Ban.Row) := start (NewServer 5 server1 (default_store [] [] (fun _ => Some None)) Ban.sample_bans (mkSettings true 5000 131072 0 0 0)).
Definition move := step fold_ascii orders ordE id Ban.no_time Ban.no_date (fun _ => None) host config (Some authority) 0 (str "secret"%string).
Definition arrival : event := Connected 0 (Some (str "9.9.9.9:4711"%string)) None [] false true false.
Definition logs_in : event := Received 0 0 no_ip random_bytes all_well MessageAuthenticate (come_in "eve").
Definition edge_comes : event := EdgeDials (str "epoch"%string) true east_peer (mkEnvelope WireHello 1 [1]).
Definition history : list event := [arrival; logs_in; edge_comes; EdgeSends 0 no_ip true 0 (Some (mkEnvelope WireAuthRequest 1 [2]));
  Rest (ReqCreateChannel (str "1"%string) (Some (mkCreateBody 0 (str "Hall"%string) [] 0 false 0)));
  Rest (ReqMute (str "1"%string) (str "2"%string) (Some true))].
Definition today : World table (list Ban.Row) := fold_left move history begun.
Example today_online : map (fun sid => User.Name <$> Snapshot (srv_users (server (site (cluster today)))) sid) [1; 2; 3] = [Some (str "eve"%string); Some (str "dan"%string); None].
Proof. vm_compute. reflexivity. Qed.
Lemma today_reachable : reachable fold_ascii orders ordE id Ban.no_time Ban.no_date (fun _ => None) host config (Some authority) 0 (str "secret"%string) begun today.
Proof. unfold today, history. cbn [fold_left]. repeat (apply reached_step; [|vm_compute; reflexivity|by intros []]). apply reached_start. Qed.
Lemma reachable_sound_witness :
  let s := server (site (cluster today)) in
  cluster_ok fold_ascii (cluster today) /\
  (forall sid u, Snapshot (srv_users s) sid = Some u ->
     sid <> 0 /\ is_Some (Channels.GetChannel (srv_chans s) (User.ChannelID u)) /\
     (forall sid' u', Snapshot (srv_users s) sid' = Some u' -> User.Name u' = User.Name u -> sid' = sid) /\
     exists sn, Registry.Snapshot (srv_registry s) (mkRef sid (User.SessionGeneration u)) = Some sn /\
       (s_Edge sn = LocalEdgeID \/
        exists l k, links (cluster today) !! l = Some k /\ ln_closed k = false /\ inst_edge (ln_instance k) = s_Edge sn /\
          EdgeGeneration (srv_registry s) (s_Edge sn) = Some (inst_generation (ln_instance k)) /\
          forall l' k', links (cluster today) !! l' = Some k' -> ln_closed k' = false -> inst_edge (ln_instance k') = s_Edge sn -> l' = l)) /\
  (forall subject cid perm, aclCheck fold_ascii s subject cid perm = may fold_ascii s subject cid perm).
Proof.
  apply (reachable_sound fold_ascii orders ordE id Ban.no_time Ban.no_date (fun _ => None) host config (Some authority) 0 (str "secret"%string) orders_ok 5 server1 (default_store [] [] (fun _ => Some None)) Ban.sample_bans (mkSettings true 5000 131072 0 0 0) today);
    [lia|lia|exact server1_wf|intros ch; vm_compute; intros [= <-]; reflexivity|exact today_reachable].
Defined.
End EdgeSample.
