(* ===== verification/RestSample.v ===== *)
(** * Requests of the REST interface to a small server

    The theorems of [RestServer] applied to the server of [HandlerSample]:
    channels 0, 2 and 3, with 4 below 3, where session 2 is. *)

From Stdlib Require Import ZArith Lia String.
From stdpp Require Import base numbers list gmap sets option.
From S2P Require Import Prelude Wire Fields Messages Codec Registry UserManager ChannelManager ChannelTable Acl AclCache AclSample Listeners VoiceState VoiceServer VoiceSample Ban RateLimit ServerState UserStateHandler TextHandlers ChannelHandlers SessionHandlers HandlerSample SiteInvariant RestServer.

Module RestSample.
Import UserManager ChannelTable Acl AclSample VoiceServer VoiceSample ServerState SessionHandlers HandlerSample SiteInvariant RestServer.

Definition asked (rq : request) : Site table (list Ban.Row) * list effect * reply :=
  rest_handle fold_ascii orders Ban.lower Ban.no_time Ban.no_date Ban.as_bytes None 0 (str "secret"%string) site4 rq.
Definition delete4 : request := ReqDeleteChannel (str "1"%string) (str "4"%string).

(** The channel of session 2 is deleted under it. *)
Example deleted_under_user :
  (asked delete4).2 = Status 204 /\
  User.ChannelID <$> Snapshot (srv_users (server (asked delete4).1.1)) 2 = Some 4 /\
  Channels.GetChannel (srv_chans (server (asked delete4).1.1)) 4 = None.
Proof. vm_compute. done. Qed.
(** A channel with a subchannel stays; another virtual server has no manager. *)
Example refusals :
  (asked (ReqDeleteChannel (str "1"%string) (str "3"%string))).2 = Status 400 /\
  (asked (ReqDeleteChannel (str "one"%string) (str "3"%string))).2 = Status 400 /\
  (asked (ReqDeleteChannel (str "2"%string) (str "3"%string))).2 = Panicked /\
  (asked (ReqUpdateChannel (str "1"%string) (str "77"%string) (Some (mkUpdateBody None None None None None None)))).2 = Status 404.
Proof. vm_compute. done. Qed.

(** A kick and a ban of the player, a mute, and callbacks. *)
Definition one : gostring := str "1"%string.
Example users_named :
  map (fun rq => ((asked rq).2, User.SessionID <$> Snapshot (srv_users (server (asked rq).1.1)) 2))
    [ReqKick one (str "2"%string) []; ReqKick one (str "9"%string) []; ReqKick (str "2"%string) (str "2"%string) []; ReqKick one (str "x"%string) [];
     ReqBan 0 (Some [10; 0; 0; 7]) one (str "2"%string) []; ReqMute one (str "2"%string) (Some true);
     ReqRevalidate 0 (str "Bearer guess"%string) (Some 1); ReqRevalidate 0 (str "Bearer secret"%string) (Some 1)] =
    [(Status 204, None); (Status 404, Some 2); (Status 404, Some 2); (Status 400, Some 2); (Status 204, None); (Status 204, Some 2); (Status 401, Some 2); (Status 503, Some 2)].
Proof. vm_compute. reflexivity. Qed.

Definition asked4 (rq : request) : Prop := asked_for fold_ascii Ban.lower Ban.as_bytes None 0 (str "secret"%string) site4 rq (asked rq).1.1 (asked rq).2.
Definition ban2 : request := ReqBan 0 (Some [10; 0; 0; 7]) one (str "2"%string) [].
Lemma rest_request_sound_witness :
  (asked4 delete4 /\ ~ site_ok fold_ascii (asked delete4).1.1) /\ asked4 ban2 /\ site_ok fold_ascii (asked ban2).1.1.
Proof.
  pose proof (rest_request_sound fold_ascii orders Ban.lower Ban.no_time Ban.no_date Ban.as_bytes None 0 (str "secret"%string) orders_ok site4) as H.
  split.
  - destruct (H delete4 site4_ok) as [H1 H2]. split; [exact H1|]. intros S. apply (proj1 H2 S). split; [exists 4, 2, player_user; vm_compute; done|vm_compute; reflexivity].
  - destruct (H ban2 site4_ok) as [H1 H2]. split; [exact H1|]. apply H2. by intros [].
Defined.

(** Two servers that differ in the address of session 2. *)
Lemma updateUser_frame (s : Server table) sid fn : srv_registry s = srv_registry (updateUser s sid fn).1 /\ srv_store s = srv_store (updateUser s sid fn).1.
Proof. unfold updateUser. by destruct (UpdateUser _ _ _) as [[m u] ns]. Qed.
Lemma with_server_frame (t : Site table (list Ban.Row)) s : server (with_server t s) = s /\ addrBySession t = addrBySession (with_server t s).
Proof. done. Qed.
Definition known : Site table (list Ban.Row) :=
  with_server site4 (updateUser (server site4) 2 (fun u => u <| User.Address := str "192.0.2.7:999"%string |>)).1.
Example seen_by_admin : map cu_Address (GetUsers known (Some (str "admin"%string))) <> map cu_Address (GetUsers site4 (Some (str "admin"%string))).
Proof. by vm_compute. Qed.
Lemma listing_private_witness :
  GetUsers site4 (Some (str "user"%string)) = GetUsers known (Some (str "user"%string)) /\
  Forall (fun u => cu_Address u = [] /\ cu_CertificateHash u = []) (GetUsers known (Some (str "user"%string))).
Proof.
  destruct (updateUser_frame (server site4) 2 (fun u => u <| User.Address := str "192.0.2.7:999"%string |>)) as [H1 H2].
  destruct (with_server_frame site4 (updateUser (server site4) 2 (fun u => u <| User.Address := str "192.0.2.7:999"%string |>)).1) as [H3 H4].
  apply (listing_private known site4 (Some (str "user"%string))).
  - by vm_compute.
  - unfold known. rewrite H3. exact H1.
  - unfold known. rewrite H3. exact H2.
  - exact H4.
  - vm_compute. reflexivity.
Defined.
End RestSample.
