(* ===== verification/RemoteCore.v ===== *)
(** * The Core as an edge process sees it

    [internal/edge/remotecore.go]: one link to the Core, the requests that wait
    for an answer, and what a frame of the Core does. The edge behind it is
    known by the interface [RemoteDelivery].

    Whether a frame is queued (and, where the caller waits for that, written) is
    a parameter, as on the side of the Core; so is JSON. *)

From Stdlib Require Import ZArith Lia String.
From stdpp Require Import base numbers list gmap sets option.
From S2P Require Import Prelude Wire Fields Messages Codec AudioPacket Registry VoiceServer Login RemoteWire.

Module RemoteCore.
Import VoiceServer Login RemoteWire.

(** ** Configuration and reconnection *)

Record RemoteCoreClientConfig := mkClientConfig {
  cc_Address : gostring;
  cc_EdgeID : EdgeID;
  cc_ReconnectMin : Z;
  cc_ReconnectMax : Z;
  cc_HeartbeatInterval : Z;
  cc_HeartbeatTimeout : Z;
  cc_QueueSize : Z }.
#[export] Instance RemoteCoreClientConfig_eta : Eta RemoteCoreClientConfig := fun c =>
  mkClientConfig (cc_Address c) (cc_EdgeID c) (cc_ReconnectMin c) (cc_ReconnectMax c) (cc_HeartbeatInterval c) (cc_HeartbeatTimeout c) (cc_QueueSize c).
(** Durations are in nanoseconds. *)
Definition Millisecond : Z := 1000000.
Definition Second : Z := 1000 * Millisecond.
Definition or_default (v d : Z) : Z := if v <=? 0 then d else v.
(** [None] is an error; [SplitHostPort] splits an address or fails. *)
Definition NewRemoteCoreClientWithConfig (SplitHostPort : gostring -> option gostring) (cfg : RemoteCoreClientConfig) : option RemoteCoreClientConfig :=
  if bool_decide (cc_Address cfg = []) then None else
  match SplitHostPort (cc_Address cfg) with
  | None => None
  | Some _ =>
      let cfg := cfg <| cc_ReconnectMin := or_default (cc_ReconnectMin cfg) (250 * Millisecond) |> in
      let cfg := cfg <| cc_ReconnectMax := or_default (cc_ReconnectMax cfg) (5 * Second) |> in
      let cfg := cfg <| cc_HeartbeatInterval := or_default (cc_HeartbeatInterval cfg) (5 * Second) |> in
      let cfg := if cc_HeartbeatTimeout cfg <=? cc_HeartbeatInterval cfg then cfg <| cc_HeartbeatTimeout := i64 (3 * cc_HeartbeatInterval cfg) |> else cfg in
      Some (cfg <| cc_QueueSize := or_default (cc_QueueSize cfg) 256 |>)
  end.
(** The rounds of [Start]: how long it waits after each attempt, which ended
    without an error or with one. *)
Fixpoint waits (cfg : RemoteCoreClientConfig) (backoff : Z) (attempts : list bool) : list Z :=
  match attempts with
  | [] => []
  | well :: attempts =>
      let backoff := if well : bool then cc_ReconnectMin cfg else backoff in
      let next := i64 (backoff * 2) in
      backoff :: waits cfg (if cc_ReconnectMax cfg <? next then cc_ReconnectMax cfg else next) attempts
  end.
Definition Start_waits (cfg : RemoteCoreClientConfig) (attempts : list bool) : list Z := waits cfg (cc_ReconnectMin cfg) attempts.

(** However often the Core is out of reach, the edge tries again after a wait
    between the two delays it is configured with, and without a success in
    between the waits double up to the longer one; defaults and durations below
    2^61 never overflow; and a missing heartbeat is noticed only after one was
    due. *)
Theorem reconnect_waits SplitHostPort cfg cfg' :
  NewRemoteCoreClientWithConfig SplitHostPort cfg = Some cfg' ->
  cc_ReconnectMin cfg < 2 ^ 61 -> cc_ReconnectMax cfg < 2 ^ 61 -> cc_HeartbeatInterval cfg < 2 ^ 61 ->
  let lo := cc_ReconnectMin cfg' in let hi := cc_ReconnectMax cfg' in
  0 < lo /\ 0 < hi /\ 0 < cc_HeartbeatInterval cfg' < cc_HeartbeatTimeout cfg' /\ 0 < cc_QueueSize cfg' /\
  (forall attempts, Forall (fun w => Z.min lo hi <= w <= Z.max lo hi) (Start_waits cfg' attempts)) /\
  (lo <= hi -> forall n, Start_waits cfg' (replicate (S n) false) !! n = Some (Z.min hi (lo * 2 ^ Z.of_nat n))).
Proof.
  intros H Hlo Hhi Hhb lo hi.
  assert (forall v d, 0 < d < 2 ^ 61 -> v < 2 ^ 61 -> 0 < or_default v d < 2 ^ 61) as Hd by (intros v d; unfold or_default; destruct (Z.leb_spec v 0); lia).
  assert (lo = or_default (cc_ReconnectMin cfg) (250 * Millisecond) /\ hi = or_default (cc_ReconnectMax cfg) (5 * Second) /\ cc_HeartbeatInterval cfg' = or_default (cc_HeartbeatInterval cfg) (5 * Second) /\
    cc_HeartbeatTimeout cfg' = (if cc_HeartbeatTimeout cfg <=? cc_HeartbeatInterval cfg' then i64 (3 * cc_HeartbeatInterval cfg') else cc_HeartbeatTimeout cfg) /\ cc_QueueSize cfg' = or_default (cc_QueueSize cfg) 256) as (Elo & Ehi & Ehb & Eto & Eqs).
  { unfold lo, hi. revert H. unfold NewRemoteCoreClientWithConfig. destruct (bool_decide _); [done|]. destruct (SplitHostPort _); [|done]. intros H. injection H as <-. destruct (_ <=? _) eqn:E; cbn in E |- *; by rewrite ?E. }
  assert (0 < lo < 2 ^ 61) as L by (rewrite Elo; apply Hd; [done|lia]). assert (0 < hi < 2 ^ 61) as M by (rewrite Ehi; apply Hd; [done|lia]). clear Elo Ehi H.
  split; [lia|]. split; [lia|]. split; [|split; [rewrite Eqs; unfold or_default; destruct (Z.leb_spec (cc_QueueSize cfg) 0); lia|split]].
  - assert (0 < cc_HeartbeatInterval cfg' < 2 ^ 61) as Hi by (rewrite Ehb; apply Hd; [done|lia]). rewrite Eto. destruct (Z.leb_spec (cc_HeartbeatTimeout cfg) (cc_HeartbeatInterval cfg')); [|lia]. rewrite i64_id by (unfold is_i64; lia). lia.
  - unfold Start_waits. fold lo.
    assert (forall attempts b, Z.min lo hi <= b <= Z.max lo hi -> Forall (fun w => Z.min lo hi <= w <= Z.max lo hi) (waits cfg' b attempts)) as H; [|intros; apply H; lia].
    induction attempts as [|well attempts IH]; intros b Hb; cbn [waits]; [constructor|]. fold lo hi. set (b' := if well : bool then lo else b). assert (Z.min lo hi <= b' <= Z.max lo hi) by (unfold b'; destruct well; lia).
    constructor; [done|]. apply IH. rewrite i64_id by (unfold is_i64; lia). destruct (Z.ltb_spec hi (b' * 2)); lia.
  - intros Hle n. unfold Start_waits. fold lo.
    assert (forall b, lo <= b <= hi -> waits cfg' b (replicate (S n) false) !! n = Some (Z.min hi (b * 2 ^ Z.of_nat n))) as H; [|apply H; lia].
    induction n as [|n IH]; intros b Hb; [cbn; f_equal; lia|]. change (replicate (S (S n)) false) with (false :: replicate (S n) false). cbn [waits]. fold hi. rewrite i64_id by (unfold is_i64; lia).
    change ((b :: ?l) !! S n) with (l !! n). rewrite IH by (destruct (Z.ltb_spec hi (b * 2)); lia). f_equal. replace (Z.of_nat (S n)) with (Z.of_nat n + 1) by lia. rewrite Z.pow_add_r by lia. change (2 ^ 1) with 2. pose proof (Z.pow_pos_nonneg 2 (Z.of_nat n) ltac:(lia) ltac:(lia)).
    destruct (Z.ltb_spec hi (b * 2)); nia.
Qed.

(** ** State *)

Inductive core_error := ErrCoreProtocolNotImplemented | ErrNetClosed | ErrQueue | ErrStale | ErrFlushTimeout | ErrJSONValue | ErrFrameType | ErrLink.

(** [AuthForward], [AuthResult]. *)
Record AuthForward := mkForward { af_ConnID : Z; af_Request : AuthRequest; af_ClientCryptoModes : Z }.
Record AuthResult := mkAuthResult { au_SessionID : Z; au_Generation : Z; au_Username : gostring; au_Rejected : bool; au_RejectType : Z; au_RejectReason : gostring }.

(** [RemoteCoreClient]. The connection is a reference; a channel in [pending]
    that has been sent to is in [results]. *)
Record RemoteCoreClient := mkRemoteCore {
  rc_conn : option loc;
  rc_instance : EdgeInstanceRef;
  rc_epoch : gostring;
  rc_done : bool;
  rc_nextID : Z;
  rc_pending : gset Z;
  rc_results : gmap Z (result core_error AuthResponse);
  rc_sessions : gmap Z SessionRef }.
#[export] Instance RemoteCoreClient_eta : Eta RemoteCoreClient := fun c =>
  mkRemoteCore (rc_conn c) (rc_instance c) (rc_epoch c) (rc_done c) (rc_nextID c) (rc_pending c) (rc_results c) (rc_sessions c).
Definition noInstance : EdgeInstanceRef := mkInstance [] 0.
Definition NewRemoteCoreClient : RemoteCoreClient := mkRemoteCore None noInstance [] false 0 ∅ ∅ ∅.

(** What leaves the edge: frames to the Core, messages and payloads in the
    stream of a connection, datagrams, and the end of a connection. *)
Inductive up_value := UHello (h : Hello) | UAuth (r : AuthRequestWire) | UEvent (e : SessionEvent) | UControl (m : ControlWire) | UVoice (v : VoiceUp) | UNone.
Inductive edge_out :=
  | Up (typ : WireType) (id : Z) (v : up_value)
  | WriteMessage (l : loc) (m : message)
  | WriteRaw (l : loc) (kind : Z) (payload : bytes)
  | WriteTo (data : bytes) (addr : gostring)
  | HungUp (l : loc)
  | CoreHungUp (raw : loc).

(** What the outside answers meanwhile: whether a frame to the Core gets
    through, a connection has room in its queue, is flushed in time, a datagram
    goes out. *)
Record Env := mkEnv { up_takes : bool; room : loc -> bool; flushes : loc -> bool; udp_takes : gostring -> bool }.

(** ** Sending *)

Definition send (rc : RemoteCoreClient) (takes : bool) (typ : WireType) (id : Z) (v : up_value) : list edge_out * option core_error :=
  match rc_conn rc with
  | None => ([], Some ErrCoreProtocolNotImplemented)
  | Some _ => if takes then ([Up typ id v], None) else ([], Some (if rc_done rc then ErrNetClosed else ErrQueue))
  end.
(** [Authenticate] up to the wait: the number of the request. *)
Definition Authenticate_begin (rc : RemoteCoreClient) (takes : bool) (f : AuthForward) : RemoteCoreClient * list edge_out * result core_error Z :=
  let id := u64 (rc_nextID rc + 1) in
  let rc := rc <| rc_nextID := id |> in
  match send rc takes WireAuthRequest id (UAuth (mkAuthWire (af_ConnID f) (af_Request f) (af_ClientCryptoModes f))) with
  | (es, None) => (rc <| rc_pending := {[id]} ∪ rc_pending rc |>, es, Ok id)
  | (es, Some e) => (rc <| rc_pending := rc_pending rc ∖ {[id]} |>, es, Err e)
  end.
Definition result_of (r : AuthResponse) : AuthResult :=
  mkAuthResult (SessionID (ap_Session r)) (Generation (ap_Session r)) (ap_Username r) (ap_Rejected r) (ap_RejectType r) (ap_Reason r).
(** ... and from there; [None] as long as there is nothing to go on with. Of an
    answer and the end of the process either is taken. *)
Definition Authenticate_end (rc : RemoteCoreClient) (closing : bool) (id connID : Z) : option (RemoteCoreClient * result core_error AuthResult) :=
  match (if rc_done rc && closing then None else rc_results rc !! id) with
  | Some got =>
      let rc := rc <| rc_results := delete id (rc_results rc) |> in
      Some match got with
      | Err e => (rc, Err e)
      | Ok r => (if ap_Rejected r then rc else rc <| rc_sessions := <[connID := ap_Session r]> (rc_sessions rc) |>, Ok (result_of r))
      end
  | None => if rc_done rc then Some (rc, Err ErrNetClosed) else None
  end.
Definition ForwardControl (rc : RemoteCoreClient) (takes : bool) (connID kind : Z) (payload : bytes) : list edge_out * option core_error :=
  match rc_conn rc with
  | None => ([], Some ErrCoreProtocolNotImplemented)
  | Some _ =>
      let ref := default noSession (rc_sessions rc !! connID) in
      if negb (Valid ref) then ([], Some ErrStale)
      else send rc takes WireControlUp 0 (UControl (mkControl connID ref (u16 kind) payload))
  end.
Definition transportReadyWithMode (rc : RemoteCoreClient) (takes : bool) (connID : Z) (rf : SessionRef) (mode : gostring) : list edge_out * option core_error :=
  send rc takes WireTransportReady 0 (UEvent (mkEvent connID rf mode)).
Definition VoiceUp (rc : RemoteCoreClient) (takes : bool) (rf : SessionRef) (f : Frame) : list edge_out * option core_error :=
  send rc takes WireVoiceUp 0 (UVoice (mkVoiceUp rf f)).
Definition Disconnect (rc : RemoteCoreClient) (takes : bool) (rf : SessionRef) : list edge_out :=
  (send rc takes WireDisconnect 0 (UEvent (mkEvent 0 rf []))).1.
Definition Close (rc : RemoteCoreClient) : RemoteCoreClient := rc <| rc_done := true |>.

(** ** The interface to the edge *)

(** [RemoteDelivery], with the calls of the edge back to [Disconnect] going to
    the client as it is then. *)
Class RemoteDelivery (E : Type) := {
  DeliverControl : Env -> ControlWire -> E -> E * list edge_out;
  FlushControl : Env -> SessionRef -> E -> option core_error;
  DeliverVoice : Env -> VoiceBatch -> E -> E * list edge_out;
  CloseSession : SessionRef -> E -> E;
  CoreDisconnected : Env -> RemoteCoreClient -> E -> E * list edge_out }.
(** What the Core may rely on: a state that is kept, which connection a session
    is delivered to ([reaches]), that a call opens no connection ([continues]),
    and that after [CoreDisconnected] no session is delivered and no connection
    of before is open. *)
Class DeliveryLaws (E : Type) `{D : RemoteDelivery E} := {
  delivery_ok : E -> Prop;
  reaches : E -> SessionRef -> loc -> Prop;
  open_at : E -> loc -> Prop;
  continues : E -> E -> Prop;
  continues_refl (e : E) : continues e e;
  continues_trans (e1 e2 e3 : E) : continues e1 e2 -> continues e2 e3 -> continues e1 e3;
  continues_open (e e' : E) l : continues e e' -> open_at e' l -> open_at e l;
  control_law env m (e : E) : delivery_ok e -> let '(e', es) := DeliverControl env m e in
    delivery_ok e' /\ continues e e' /\ (es = [] \/ exists l, reaches e (cw_Session m) l /\ es = [WriteRaw l (cw_MessageType m) (cw_Payload m)]);
  voice_law env b (e : E) : delivery_ok e -> let '(e', es) := DeliverVoice env b e in
    delivery_ok e' /\ continues e e' /\
    forall o, o ∈ es -> exists r l, r ∈ b_Recipients b /\ reaches e (br_Session r) l /\ match o with WriteRaw l' k _ => l' = l /\ k = MessageUDPTunnel | WriteTo _ _ => True | _ => False end;
  close_law rf (e : E) : delivery_ok e -> delivery_ok (CloseSession rf e) /\ continues e (CloseSession rf e);
  lost_law env rc (e : E) : delivery_ok e -> let '(e', es) := CoreDisconnected env rc e in
    delivery_ok e' /\ continues e e' /\ (forall l, ~ open_at e' l) /\ (forall rf l, ~ reaches e' rf l) /\ forall o, o ∈ es -> match o with HungUp _ | Up _ _ _ => True | _ => False end }.

(** [encoding/json] on what the Core sends. *)
Class CoreJSON := {
  unmarshal_ack : bytes -> option HelloAck;
  unmarshal_response : bytes -> option AuthResponse;
  unmarshal_batch : bytes -> option VoiceBatch }.

Definition HelloAck_zero : HelloAck := mkHelloAck (mkVersion 0 0) [] noInstance [] [].
Definition AuthResponse_zero : AuthResponse := mkAuthResponse 0 noSession [] false 0 [].
Definition VoiceBatch_zero : VoiceBatch := mkBatch noSession Frame_zero [].

Section RemoteCore.
Context {E : Type} `{D : RemoteDelivery E} `{J : JSON} `{CJ : CoreJSON}.
Implicit Types (rc : RemoteCoreClient) (e : E) (env : Env).

(** ** The link *)

Definition hello (cfg : RemoteCoreClientConfig) : Hello := mkHello (mkVersion WireMajor WireMinor) (cc_EdgeID cfg) [str "control"%string; str "voice"%string].
(** [connectAndServe] from the answer to the greeting to the loops. *)
Definition connected env rc e (raw : loc) (answer : WireEnvelope) : RemoteCoreClient * E * list edge_out * option core_error :=
  if negb (bool_decide (env_Type answer = WireHelloAck)) then (rc, e, [CoreHungUp raw], Some ErrFrameType) else
  match DecodeWire unmarshal_ack answer HelloAck_zero with
  | None => (rc, e, [CoreHungUp raw], Some ErrJSONValue)
  | Some ack =>
      if negb (bool_decide (ha_Error ack = [])) || negb (pv_Major (ha_Version ack) =? WireMajor) then (rc, e, [CoreHungUp raw], Some ErrLink) else
      let oldEpoch := rc_epoch rc in
      let rc := rc <| rc_conn := Some raw |> <| rc_instance := ha_EdgeInstance ack |> <| rc_epoch := ha_CoreEpoch ack |> in
      if negb (bool_decide (oldEpoch = [])) && negb (bool_decide (oldEpoch = ha_CoreEpoch ack))
      then let '(e, es) := CoreDisconnected env rc e in (rc, e, es, None)
      else (rc, e, [], None)
  end.
Definition drop env rc e (raw : loc) (cause : core_error) : RemoteCoreClient * E * list edge_out :=
  let '(rc, e, es) :=
    if bool_decide (rc_conn rc = Some raw) then
      let rc := rc <| rc_conn := None |> <| rc_instance := noInstance |> in
      let '(e, es) := CoreDisconnected env rc e in (rc, e, es)
    else (rc, e, []) in
  (rc <| rc_results := set_fold (fun id m => <[id := Err cause]> m) (rc_results rc) (rc_pending rc) |> <| rc_pending := ∅ |>, e, es ++ [CoreHungUp raw]).
(** A round of [readLoop] on what was read; [None] is a read error. *)
Definition readLoop env rc e (frame : option WireEnvelope) : RemoteCoreClient * E * list edge_out * option core_error :=
  match frame with
  | None => (rc, e, [], Some ErrLink)
  | Some w =>
      let kind typ := bool_decide (env_Type w = typ) in
      if kind WireHeartbeat then (rc, e, [], None)
      else if kind WireAuthResult then
        match DecodeWire unmarshal_response w AuthResponse_zero with
        | None => (rc, e, [], Some ErrJSONValue)
        | Some resp =>
            if bool_decide (env_ID w ∈ rc_pending rc)
            then (rc <| rc_pending := rc_pending rc ∖ {[env_ID w]} |> <| rc_results := <[env_ID w := Ok resp]> (rc_results rc) |>, e, [], None)
            else (rc, e, [], None)
        end
      else if kind WireControlDown then
        match DecodeWire unmarshal_control w ControlWire_zero with
        | None => (rc, e, [], Some ErrJSONValue)
        | Some m => let '(e, es) := DeliverControl env m e in (rc, e, es, None)
        end
      else if kind WireControlFlush then
        match DecodeWire unmarshal_event w SessionEvent_zero with
        | None => (rc, e, [], Some ErrJSONValue)
        | Some ev =>
            match FlushControl env (ev_Session ev) e with
            | Some err => (rc, e, [], Some err)
            | None => let '(es, err) := send rc (up_takes env) WireControlFlushed (env_ID w) (UEvent ev) in (rc, e, es, err)
            end
        end
      else if kind WireVoiceDown then
        match DecodeWire unmarshal_batch w VoiceBatch_zero with
        | None => (rc, e, [], Some ErrJSONValue)
        | Some b => let '(e, es) := DeliverVoice env b e in (rc, e, es, None)
        end
      else if kind WireCloseSession then
        match DecodeWire unmarshal_event w SessionEvent_zero with
        | None => (rc, e, [], Some ErrJSONValue)
        | Some ev => (rc, CloseSession (ev_Session ev) e, [], None)
        end
      else (rc, e, [], Some ErrFrameType)
  end.
(** The loop of [connectAndServe]: what was read on [raw], a heartbeat that is
    due, the end of the context or of the process. *)
Definition serve_frame env rc e (raw : loc) (frame : option WireEnvelope) : RemoteCoreClient * E * list edge_out :=
  match readLoop env rc e frame with
  | (rc, e, es, None) => (rc, e, es)
  | (rc, e, es, Some cause) => let '(rc, e, es') := drop env rc e raw cause in (rc, e, es ++ es')
  end.
Definition serve_tick env rc e (raw : loc) : RemoteCoreClient * E * list edge_out :=
  match send rc (up_takes env) WireHeartbeat 0 UNone with
  | (es, None) => (rc, e, es)
  | (es, Some cause) => let '(rc, e, es') := drop env rc e raw cause in (rc, e, es ++ es')
  end.
Definition serve_end env rc e (raw : loc) : RemoteCoreClient * E * list edge_out := drop env rc e raw ErrNetClosed.

(** ** What the link does to the edge *)

Context `{L : !DeliveryLaws E}.

(** Requests whose answer is still to come, or there. *)
Definition known rc (id : Z) : Prop := id ∈ rc_pending rc \/ is_Some (rc_results rc !! id).

Lemma fail_all cause (ids : gset Z) (m : gmap Z (result core_error AuthResponse)) id :
  set_fold (fun id m => <[id := Err cause]> m) m ids !! id = if bool_decide (id ∈ ids) then Some (Err cause) else m !! id.
Proof.
  assert ((id ∈ ids -> set_fold (fun id m => <[id := Err cause]> m) m ids !! id = Some (Err cause)) /\ (id ∉ ids -> set_fold (fun id m => <[id := Err cause]> m) m ids !! id = m !! id)) as [H1 H2].
  { apply (set_fold_ind_L (fun r X => (id ∈ X -> r !! id = Some (Err cause)) /\ (id ∉ X -> r !! id = m !! id))); [set_solver|].
    intros x X r Hx [IH1 IH2]. destruct (decide (id = x)) as [->|Hn]; [rewrite lookup_insert_eq|rewrite lookup_insert_ne by done]; set_solver. }
  case_bool_decide; auto.
Qed.
(** Nothing but the ends of connections and the link. *)
Definition silent (o : edge_out) : Prop := match o with HungUp _ | Up _ _ _ | CoreHungUp _ => True | _ => False end.
(** The link is down, nobody is reached and nobody waits in vain. *)
Definition link_lost rc e rc' e' : Prop :=
  rc_conn rc' = None /\ continues e e' /\ (forall l, ~ open_at e' l) /\ (forall rf l, ~ reaches e' rf l) /\ rc_pending rc' = ∅ /\
  (forall id, id ∈ rc_pending rc -> exists cause, rc_results rc' !! id = Some (Err cause)) /\ rc_sessions rc' = rc_sessions rc /\ rc_nextID rc' = rc_nextID rc.
Lemma drop_spec env rc e raw cause : delivery_ok e -> rc_conn rc = Some raw -> let '(rc', e', es) := drop env rc e raw cause in
  delivery_ok e' /\ link_lost rc e rc' e' /\ (forall id, known rc id -> known rc' id) /\ (forall o, o ∈ es -> silent o).
Proof.
  intros O Hc. unfold drop. rewrite bool_decide_true by done. cbv zeta. set (rc1 := (rc <| rc_conn := None |>) <| rc_instance := noInstance |>).
  pose proof (lost_law env rc1 e O) as H. destruct (CoreDisconnected env rc1 e) as [e' es]. destruct H as (O' & Ht & Hl & Hr & He). split; [done|]. split; [|split].
  - split; [done|]. split; [done|]. split; [done|]. split; [done|]. split; [done|]. split; [|done]. intros id Hid. exists cause. etransitivity; [exact (fail_all cause (rc_pending rc) (rc_results rc) id)|]. by rewrite bool_decide_true.
  - intros id Hid. right. pose proof (fail_all cause (rc_pending rc) (rc_results rc) id) as Hf. case_bool_decide as Hb; [by exists (Err cause)|]. destruct Hid as [?|[r Hid]]; [done|]. exists r. by rewrite <- Hid.
  - intros o [Ho|Ho]%elem_of_app; [specialize (He o Ho); by destruct o|]. by apply list_elem_of_singleton in Ho as ->.
Qed.

(** The session a frame speaks of. *)
Definition names (frame : option WireEnvelope) (rf : SessionRef) : Prop :=
  exists w, frame = Some w /\
  ((exists m, DecodeWire unmarshal_control w ControlWire_zero = Some m /\ rf = cw_Session m) \/
   (exists b r, DecodeWire unmarshal_batch w VoiceBatch_zero = Some b /\ r ∈ b_Recipients b /\ rf = br_Session r)).
(** What may be written for it. *)
Definition addressed e (frame : option WireEnvelope) (o : edge_out) : Prop :=
  match o with WriteRaw l _ _ => exists rf, names frame rf /\ reaches e rf l | WriteMessage _ _ => False | _ => True end.
Lemma send_out rc takes typ id v o : o ∈ (send rc takes typ id v).1 -> o = Up typ id v.
Proof. unfold send. destruct (rc_conn rc); [|by intros ?%elem_of_nil]. destruct takes; cbn; [by intros ->%list_elem_of_singleton|by intros ?%elem_of_nil]. Qed.
Lemma readLoop_spec env rc e frame : delivery_ok e -> let '(rc', e', es, err) := readLoop env rc e frame in
  delivery_ok e' /\ continues e e' /\ rc_conn rc' = rc_conn rc /\ rc_sessions rc' = rc_sessions rc /\ rc_nextID rc' = rc_nextID rc /\
  (forall id, known rc id -> known rc' id) /\ (forall id, id ∈ rc_pending rc' -> id ∈ rc_pending rc) /\ (forall o, o ∈ es -> addressed e frame o).
Proof.
  intros O. assert (delivery_ok e /\ continues e e /\ rc_conn rc = rc_conn rc /\ rc_sessions rc = rc_sessions rc /\ rc_nextID rc = rc_nextID rc /\
    (forall id, known rc id -> known rc id) /\ (forall id, id ∈ rc_pending rc -> id ∈ rc_pending rc) /\ (forall o, o ∈ @nil edge_out -> addressed e frame o)) as Hn.
  { split; [done|]. split; [apply continues_refl|]. repeat (split; [done|]). by intros o ?%elem_of_nil. }
  unfold readLoop. destruct frame as [w|]; [|exact Hn]. destruct (bool_decide _); [exact Hn|]. destruct (bool_decide _).
  { destruct (DecodeWire unmarshal_response _ _) as [resp|]; [|exact Hn]. case_bool_decide as Hp; [|exact Hn].
    split; [done|]. split; [apply continues_refl|]. split; [done|]. split; [done|]. split; [done|]. split; [|split; [|by intros o ?%elem_of_nil]].
    - intros id. unfold known. cbn. destruct (decide (id = env_ID w)) as [->|Hne]; [rewrite lookup_insert_eq; right; by eexists|]. rewrite lookup_insert_ne by done. intros [?|?]; [left; set_solver|by right].
    - intros id. cbn. set_solver. }
  destruct (bool_decide _).
  { destruct (DecodeWire unmarshal_control _ _) as [m|] eqn:Em; [|exact Hn]. pose proof (control_law env m e O) as H. destruct (DeliverControl env m e) as [e' es]. destruct H as (O' & Ho & Hw).
    repeat (split; [done|]). intros o Hin. destruct Hw as [->|(l & Hl & ->)]; [by apply elem_of_nil in Hin|]. apply list_elem_of_singleton in Hin as ->. exists (cw_Session m). split; [|done]. exists w. split; [done|]. left. by exists m. }
  destruct (bool_decide _).
  { destruct (DecodeWire unmarshal_event _ _) as [ev|]; [|exact Hn]. destruct (FlushControl env (ev_Session ev) e) as [err|]; [exact Hn|].
    pose proof (send_out rc (up_takes env) WireControlFlushed (env_ID w) (UEvent ev)) as Hs. destruct (send _ _ _ _ _) as [es err]. split; [done|]. split; [apply continues_refl|]. repeat (split; [done|]). by intros o ->%Hs. }
  destruct (bool_decide _).
  { destruct (DecodeWire unmarshal_batch _ _) as [b|] eqn:Eb; [|exact Hn]. pose proof (voice_law env b e O) as H. destruct (DeliverVoice env b e) as [e' es]. destruct H as (O' & Ho & Hw).
    repeat (split; [done|]). intros o (r & l & Hr & Hl & Hm)%Hw. destruct o; try done. destruct Hm as [-> _]. exists (br_Session r). split; [|done]. exists w. split; [done|]. right. by exists b, r. }
  destruct (bool_decide _); [|exact Hn]. destruct (DecodeWire unmarshal_event _ _) as [ev|]; [|exact Hn]. destruct (close_law (ev_Session ev) e O) as [O' Ho]. repeat (split; [done|]). by intros o ?%elem_of_nil.
Qed.
(** A frame on the link either leaves it up, or down with everything that was
    on it. *)
Lemma serve_frame_spec env rc e raw frame : delivery_ok e -> rc_conn rc = Some raw -> let '(rc', e', es) := serve_frame env rc e raw frame in
  delivery_ok e' /\ continues e e' /\ (forall id, known rc id -> known rc' id) /\ rc_sessions rc' = rc_sessions rc /\ rc_nextID rc' = rc_nextID rc /\
  (forall o, o ∈ es -> addressed e frame o) /\
  (if match (readLoop env rc e frame).2 with None => true | Some _ => false end then rc_conn rc' = rc_conn rc
   else rc_conn rc' = None /\ (forall l, ~ open_at e' l) /\ (forall rf l, ~ reaches e' rf l) /\ rc_pending rc' = ∅).
Proof.
  intros O Hc. unfold serve_frame. pose proof (readLoop_spec env rc e frame O) as H. destruct (readLoop env rc e frame) as [[[rc1 e1] es1] err]. destruct H as (O1 & Ho1 & Hc1 & Hs1 & Hn1 & Hk1 & Hp1 & Ha1). cbn [snd]. destruct err as [cause|]; [|repeat (split; [done|]); done].
  pose proof (drop_spec env rc1 e1 raw cause O1 ltac:(congruence)) as H. destruct (drop env rc1 e1 raw cause) as [[rc2 e2] es2]. destruct H as (O2 & (L1 & L0 & L2 & L3 & L4 & L5 & L6 & L7) & Hk2 & Ha2).
  split; [done|]. split; [by eapply continues_trans|]. split; [auto|]. split; [congruence|]. split; [congruence|]. split; [|done].
  intros o [Ho|Ho]%elem_of_app; [by apply Ha1|]. specialize (Ha2 o Ho). by destruct o.
Qed.

End RemoteCore.
End RemoteCore.
