(* ===== verification/LinkQueue.v ===== *)
(** * Frames on their way out

    Both ends of a link between an edge and the Core queue their frames: any
    goroutine puts frames in, one goroutine for each link takes them out and
    writes them, and whoever asked for it waits to be told whether that worked
    ([RemoteCoreClient.send] and [writeLoop] of [internal/edge/remotecore.go],
    [edgeWireConn.send] and [writeLoop] of
    [internal/cluster/remoteedgeserver.go]). This file says what such a queue
    does, whoever runs it: a step relation on the queue and on what each
    goroutine has to do with it, and its invariant. [EdgeLink] and [CoreLink]
    are the two programs; each of their steps is one of these. *)

From Stdlib Require Import ZArith Lia.
From stdpp Require Import base numbers list gmap option relations.
From S2P Require Import Prelude Wire Fields.

Module LinkQueue.

Section Queue.
Context {V : Type} (capacity : nat).

(** A frame in the queue. Its channel [done] is known by the number of the frame;
    there is one if the sender waits. *)
Record frame := mkFrame { fr_value : V; fr_reliable : bool; fr_done : nat }.
(** [acks]: what was sent to the channels, [true] for no error. The rest is
    history: all frames that were queued, who took them out (the writer of a
    link, or somebody who clears the queue), and what was written whole. *)
Record queue := mkQueue {
  out : list frame;
  acks : gmap nat bool;
  accepted : list frame;
  taken : list (option nat * frame);
  written : list (nat * frame) }.
#[export] Instance queue_eta : Eta queue := fun q => mkQueue (out q) (acks q) (accepted q) (taken q) (written q).
Definition empty_queue : queue := mkQueue [] ∅ [] [] [].

Definition next_frame (q : queue) (v : V) (reliable : bool) : frame := mkFrame v reliable (length (accepted q)).
Definition full (q : queue) : bool := (capacity <=? length (out q))%nat.
Definition put (q : queue) (o : frame) : queue := q <| out := out q ++ [o] |> <| accepted := accepted q ++ [o] |>.
Definition take_out (q : queue) (w : option nat) : option (queue * frame) :=
  match out q with [] => None | o :: l => Some (q <| out := l |> <| taken := taken q ++ [(w, o)] |>, o) end.
Definition wrote (q : queue) (n : nat) (o : frame) : queue := q <| written := written q ++ [(n, o)] |>.
(** [o.done <- err]: the channel holds one value; [None]: it would block. *)
Definition answer (q : queue) (o : frame) (ok : bool) : option queue :=
  if fr_reliable o then match acks q !! fr_done o with Some _ => None | None => Some (q <| acks := <[fr_done o := ok]> (acks q) |>) end
  else Some q.

(** What a goroutine has to do with the queue: it sets a link up, writes for it,
    holds a frame, is about to answer, has stopped writing, clears the queue,
    waits, and how that ended. *)
Inductive role :=
  | Idle
  | Fresh (n : nat)
  | Looping (n : nat)
  | Holds (n : nat) (o : frame)
  | Says (n : nat) (o : frame) (ok : bool)
  | Gone (n : nat)
  | Clears (o : frame)
  | Waits (o : frame)
  | Succeeded (o : frame)
  | Failed (o : frame).

(** A queue, the number of links there have been, the goroutines. *)
Notation state := (queue * nat * list role)%type.
Inductive spec_step : state -> state -> Prop :=
  | s_stay s : spec_step s s
  | s_connect q m rs i : rs !! i = Some Idle -> spec_step (q, m, rs) (q, S m, <[i := Fresh m]> rs)
  | s_launch q m rs i n : rs !! i = Some (Fresh n) -> spec_step (q, m, rs) (q, m, <[i := Idle]> rs ++ [Looping n; Idle])
  | s_post q m rs i v reliable : rs !! i = Some Idle -> full q = false ->
      let o := next_frame q v reliable in spec_step (q, m, rs) (put q o, m, <[i := if reliable then Waits o else Succeeded o]> rs)
  | s_beat q m rs i v : rs !! i = Some Idle -> full q = false -> spec_step (q, m, rs) (put q (next_frame q v false), m, rs)
  | s_take q m rs i n q' o : rs !! i = Some (Looping n) -> take_out q (Some n) = Some (q', o) -> spec_step (q, m, rs) (q', m, <[i := Holds n o]> rs)
  | s_clear q m rs i q' o : rs !! i = Some Idle -> take_out q None = Some (q', o) -> spec_step (q, m, rs) (q', m, <[i := Clears o]> rs)
  | s_wrote q m rs i n o : rs !! i = Some (Holds n o) -> spec_step (q, m, rs) (wrote q n o, m, <[i := Says n o true]> rs)
  | s_broke q m rs i n o : rs !! i = Some (Holds n o) -> spec_step (q, m, rs) (q, m, <[i := Says n o false]> rs)
  | s_answer q m rs i n o (ok : bool) q' : rs !! i = Some (Says n o ok) -> answer q o ok = Some q' ->
      spec_step (q, m, rs) (q', m, <[i := if ok then Looping n else Gone n]> rs)
  | s_cleared q m rs i o q' : rs !! i = Some (Clears o) -> answer q o false = Some q' -> spec_step (q, m, rs) (q', m, <[i := Idle]> rs)
  | s_leave q m rs i n : rs !! i = Some (Looping n) -> spec_step (q, m, rs) (q, m, <[i := Gone n]> rs)
  | s_learn q m rs i o (ok : bool) : rs !! i = Some (Waits o) -> acks q !! fr_done o = Some ok ->
      spec_step (q, m, rs) (q, m, <[i := if ok then Succeeded o else Failed o]> rs)
  | s_give_up q m rs i o : rs !! i = Some (Waits o) -> spec_step (q, m, rs) (q, m, <[i := Failed o]> rs).

(** ** The invariant *)

(** What was taken out, or written, by [k]. *)
Definition by_key {K} `{EqDecision K} (k : K) (l : list (K * frame)) : list frame := map snd (filter (fun x => x.1 = k) l).
Definition own (r : role) : option nat := match r with Fresh n | Looping n | Holds n _ | Says n _ _ | Gone n => Some n | _ => None end.
Definition held (r : role) : option frame := match r with Holds _ o | Says _ o _ | Clears o => Some o | _ => None end.
(** What the writer of a link has taken but not written. *)
Definition in_hand (r : role) : list frame := match r with Holds _ o | Says _ o false => [o] | _ => [] end.

Definition role_ok (q : queue) (m : nat) (r : role) : Prop :=
  (forall n, own r = Some n -> (n < m)%nat) /\
  match r with
  | Fresh n => by_key (Some n) (taken q) = []
  | Looping n | Holds n _ | Says n _ _ => by_key (Some n) (taken q) = by_key n (written q) ++ in_hand r
  | Waits o => accepted q !! fr_done o = Some o /\ fr_reliable o = true
  | Succeeded o => accepted q !! fr_done o = Some o /\ (fr_reliable o = true -> exists n, (n, o) ∈ written q)
  | _ => True
  end /\
  (forall o, held r = Some o -> accepted q !! fr_done o = Some o /\ (fr_done o < length (taken q))%nat /\ acks q !! fr_done o = None) /\
  (forall n o, r = Says n o true -> (n, o) ∈ written q).

Record history_ok (q : queue) (m : nat) : Prop := {
  q_bound : (length (out q) <= capacity)%nat;
  q_order : accepted q = map snd (taken q) ++ out q;
  q_number : forall i o, accepted q !! i = Some o -> fr_done o = i;
  q_acks : forall t ok, acks q !! t = Some ok -> (t < length (taken q))%nat /\ (ok = true -> exists n o, (n, o) ∈ written q /\ fr_done o = t);
  q_written : forall n o, (n, o) ∈ written q -> accepted q !! fr_done o = Some o;
  q_links : forall n, exists lost, (length lost <= 1)%nat /\ by_key (Some n) (taken q) = by_key n (written q) ++ lost;
  q_fresh : forall n, (m <= n)%nat -> by_key (Some n) (taken q) = [];
  q_once : NoDup (map snd (written q)) }.
Record roles_ok (q : queue) (m : nat) (rs : list role) : Prop := {
  q_roles : forall i r, rs !! i = Some r -> role_ok q m r;
  q_held : forall i j r r' o o', rs !! i = Some r -> rs !! j = Some r' -> held r = Some o -> held r' = Some o' -> fr_done o = fr_done o' -> i = j;
  q_own : forall i j r r' n, rs !! i = Some r -> rs !! j = Some r' -> own r = Some n -> own r' = Some n -> i = j }.
Definition queue_ok (s : state) : Prop := history_ok s.1.1 s.1.2 /\ roles_ok s.1.1 s.1.2 s.2.

(** ** Changes *)

Lemma by_key_app {K} `{EqDecision K} (k : K) l l' : by_key k (l ++ l') = by_key k l ++ by_key k l'.
Proof. unfold by_key. by rewrite list.filter_app, map_app. Qed.
Lemma by_key_same {K} `{EqDecision K} (k : K) o : by_key k [(k, o)] = [o].
Proof. unfold by_key. by rewrite list.filter_cons_True. Qed.
Lemma by_key_other {K} `{EqDecision K} (k k' : K) o : k' <> k -> by_key k [(k', o)] = [].
Proof. intros H. unfold by_key. by rewrite list.filter_cons_False. Qed.
Lemma by_key_none {K} `{EqDecision K} (k : K) l o : by_key k l = [] -> (k, o) ∉ l.
Proof.
  unfold by_key. intros H%map_eq_nil Hin. assert ((k, o) ∈ filter (fun x : K * frame => x.1 = k) l) as F by (by apply list_elem_of_filter).
  rewrite H in F. by apply elem_of_nil in F.
Qed.

Lemma role_ok_mono q q' m r :
  (forall i o, accepted q !! i = Some o -> accepted q' !! i = Some o) ->
  (length (taken q) <= length (taken q'))%nat ->
  (forall x, x ∈ written q -> x ∈ written q') ->
  (forall n, own r = Some n -> by_key (Some n) (taken q') = by_key (Some n) (taken q) /\ by_key n (written q') = by_key n (written q)) ->
  (forall o, held r = Some o -> acks q' !! fr_done o = acks q !! fr_done o) ->
  role_ok q m r -> role_ok q' m r.
Proof.
  intros Ha Ht Hw Hk Hh (H1 & H2 & H3 & H4). split; [done|]. split; [|split].
  - destruct r as [|n|n|n o|n o ok|n|o|o|o|o]; try done; try (destruct (Hk n eq_refl) as [E1 E2]; rewrite ?E1, ?E2; exact H2).
    + destruct H2 as [H2 H2']. split; [by apply Ha|done].
    + destruct H2 as [H2 H2']. split; [by apply Ha|]. intros Hr. destruct (H2' Hr) as [n Hn]. exists n. by apply Hw.
  - intros o Ho. destruct (H3 o Ho) as (E1 & E2 & E3). split; [by apply Ha|]. split; [lia|]. by rewrite (Hh o Ho).
  - intros n o E. apply Hw. by apply H4.
Qed.
Lemma role_ok_more q m m' r : (m <= m')%nat -> role_ok q m r -> role_ok q m' r.
Proof. intros Hm (H1 & H2). split; [|done]. intros n Hn. specialize (H1 n Hn). lia. Qed.

(** One goroutine changes what it has to do, and the queue changes for it. *)
Lemma change_ok q m rs q' i r r' : roles_ok q m rs -> rs !! i = Some r ->
  (forall j s, j <> i -> rs !! j = Some s -> role_ok q' m s) -> role_ok q' m r' ->
  (forall n, own r' = Some n -> own r = Some n \/ forall j s, rs !! j = Some s -> own s <> Some n) ->
  (forall o j s o', held r' = Some o -> j <> i -> rs !! j = Some s -> held s = Some o' -> fr_done o <> fr_done o') ->
  roles_ok q' m (<[i := r']> rs).
Proof.
  intros [R1 R2 R3] Hi Ho Hr Hown Hheld. pose proof (lookup_lt_Some _ _ _ Hi) as Hlt. split.
  - intros j s [[-> [-> _]]|[Hj Hs]]%list_lookup_insert_Some; [done|]. apply (Ho j s); [congruence|done].
  - intros j k s s' o o' [[-> [-> _]]|[Hj Hs]]%list_lookup_insert_Some [[Hik [-> _]]|[Hk Hs']]%list_lookup_insert_Some Hh Hh' E; [done|..|by eapply R2].
    + destruct (Hheld o k s' o' Hh ltac:(congruence) Hs' Hh' E).
    + subst k. destruct (Hheld o' j s o Hh' ltac:(congruence) Hs Hh (eq_sym E)).
  - intros j k s s' n [[-> [-> _]]|[Hj Hs]]%list_lookup_insert_Some [[Hik [-> _]]|[Hk Hs']]%list_lookup_insert_Some Hn Hn'; [done|..|by eapply R3].
    + destruct (Hown n Hn) as [Hn2|Hn2]; [by apply (R3 j k r s' n)|by destruct (Hn2 k s')].
    + subst k. destruct (Hown n Hn') as [Hn2|Hn2]; [by apply (R3 j i s r n)|by destruct (Hn2 j s)].
Qed.
(** The queue stays as it is. *)
Lemma quiet_ok q m rs i r r' : roles_ok q m rs -> rs !! i = Some r -> role_ok q m r' ->
  (own r' = None \/ own r' = own r) -> (held r' = None \/ held r' = held r) -> roles_ok q m (<[i := r']> rs).
Proof.
  intros R Hi Hr Hown Hheld. apply (change_ok q m rs q i r r'); [done..| |done| |].
  - intros j s _ Hs. by eapply q_roles.
  - intros n Hn. left. destruct Hown; congruence.
  - intros o j s o' Ho Hj Hs Hs' E. destruct Hheld as [F|F]; [congruence|]. rewrite F in Ho. apply Hj. by eapply (q_held _ _ _ R).
Qed.

(** What [put], [take_out], [wrote] and [answer] change, and what they leave. *)
Lemma put_fields q o : out (put q o) = out q ++ [o] /\ accepted (put q o) = accepted q ++ [o] /\ acks (put q o) = acks q /\ taken (put q o) = taken q /\ written (put q o) = written q.
Proof. done. Qed.
Lemma wrote_fields q n o : out (wrote q n o) = out q /\ accepted (wrote q n o) = accepted q /\ acks (wrote q n o) = acks q /\ taken (wrote q n o) = taken q /\ written (wrote q n o) = written q ++ [(n, o)].
Proof. done. Qed.
Lemma put_history q m v reliable : history_ok q m -> full q = false -> history_ok (put q (next_frame q v reliable)) m.
Proof.
  intros [H1 H2 H3 H4 H5 H6 H7 H8] Hf. apply Nat.leb_gt in Hf. set (x := next_frame q v reliable).
  destruct (put_fields q x) as (E1 & E2 & E3 & E4 & E5). split; rewrite ?E1, ?E2, ?E3, ?E4, ?E5; try done.
  - rewrite length_app. cbn. lia.
  - by rewrite H2, app_assoc.
  - intros i o [Hi|[Hi Ho]]%lookup_app_Some; [by apply H3|]. apply list_lookup_singleton_Some in Ho as [Hz <-]. cbn. lia.
  - intros n o Ho. apply lookup_app_l_Some. by eapply H5.
Qed.
Lemma put_role q m v reliable r : role_ok q m r -> role_ok (put q (next_frame q v reliable)) m r.
Proof.
  destruct (put_fields q (next_frame q v reliable)) as (E1 & E2 & E3 & E4 & E5). apply role_ok_mono; rewrite ?E1, ?E2, ?E3, ?E4, ?E5; try done.
  intros i o Ho. by apply lookup_app_l_Some.
Qed.
Lemma put_lookup q v reliable : accepted (put q (next_frame q v reliable)) !! fr_done (next_frame q v reliable) = Some (next_frame q v reliable).
Proof. cbn. rewrite lookup_app_r by lia. by rewrite Nat.sub_diag. Qed.

Lemma taken_next q m w q' o : history_ok q m -> take_out q w = Some (q', o) ->
  accepted q !! fr_done o = Some o /\ fr_done o = length (taken q) /\ acks q !! fr_done o = None.
Proof.
  intros H. unfold take_out. destruct (out q) as [|x l] eqn:E; [done|]. intros [= _ ->].
  assert (accepted q !! length (taken q) = Some o) as Hl.
  { rewrite (q_order _ _ H), E, lookup_app_r by (rewrite length_map; lia). by rewrite length_map, Nat.sub_diag. }
  pose proof (q_number _ _ H _ _ Hl) as Hn. rewrite Hn. split; [done|]. split; [done|].
  destruct (acks q !! length (taken q)) as [ok|] eqn:Ea; [|done]. destruct (q_acks _ _ H _ _ Ea) as [F _]. lia.
Qed.
Lemma take_fields q w q' o : take_out q w = Some (q', o) ->
  accepted q' = accepted q /\ acks q' = acks q /\ written q' = written q /\ taken q' = taken q ++ [(w, o)] /\ out q = o :: out q'.
Proof. unfold take_out. destruct (out q) as [|x l] eqn:E; [done|]. by intros [= <- ->]. Qed.
Lemma take_history q m w q' o : history_ok q m -> take_out q w = Some (q', o) ->
  (forall n, w = Some n -> (n < m)%nat /\ by_key (Some n) (taken q) = by_key n (written q)) -> history_ok q' m.
Proof.
  intros H Ht Hw. destruct (take_fields _ _ _ _ Ht) as (E1 & E2 & E3 & E4 & E5). destruct H as [H1 H2 H3 H4 H5 H6 H7 H8]. split.
  - rewrite E5 in H1. cbn in H1. lia.
  - by rewrite E1, E4, H2, E5, map_app, <- app_assoc.
  - by rewrite E1.
  - intros t ok Ha. rewrite E2 in Ha. destruct (H4 t ok Ha) as [F1 F2]. rewrite E3, E4, length_app. split; [lia|done].
  - rewrite E1, E3. done.
  - intros n. rewrite E3, E4, by_key_app. destruct (decide (w = Some n)) as [->|Hne].
    + destruct (Hw n eq_refl) as [_ ->]. rewrite by_key_same. exists [o]. split; [cbn; lia|done].
    + rewrite by_key_other, app_nil_r by done. apply H6.
  - intros n Hn. rewrite E4, by_key_app, by_key_other, app_nil_r; [by apply H7|]. intros E. destruct (Hw n E) as [F _]. lia.
  - by rewrite E3.
Qed.
Lemma take_role q m w q' o r : take_out q w = Some (q', o) -> (forall n, w = Some n -> own r <> Some n) -> role_ok q m r -> role_ok q' m r.
Proof.
  intros Ht Hw. destruct (take_fields _ _ _ _ Ht) as (E1 & E2 & E3 & E4 & E5).
  apply role_ok_mono; rewrite ?E1, ?E2, ?E3, ?E4; try done.
  - rewrite length_app. lia.
  - intros n Hn. rewrite by_key_app, by_key_other, app_nil_r; [done|]. intros E. by destruct (Hw n E).
Qed.

Lemma taken_nodup q m : history_ok q m -> NoDup (map snd (taken q)).
Proof.
  intros H. apply NoDup_alt. intros i j o Hi Hj.
  assert (forall k, map snd (taken q) !! k = Some o -> fr_done o = k) as F; [|by rewrite <- (F i Hi), <- (F j Hj)].
  intros k Hk. apply (q_number _ _ H). rewrite (q_order _ _ H). by apply lookup_app_l_Some.
Qed.
Lemma by_key_in {K} `{EqDecision K} (k : K) l o : o ∈ by_key k l <-> (k, o) ∈ l.
Proof.
  unfold by_key. split.
  - intros ([k' o'] & -> & [E H]%list_elem_of_filter)%list_elem_of_fmap. cbn in E. by subst.
  - intros H. apply list_elem_of_fmap. exists (k, o). split; [done|]. by apply list_elem_of_filter.
Qed.
(** A frame that is being written has not been written. *)
Lemma not_yet_written q m n o : history_ok q m -> by_key (Some n) (taken q) = by_key n (written q) ++ [o] -> o ∉ map snd (written q).
Proof.
  intros H Hn ([k o'] & -> & Hk)%list_elem_of_fmap. cbn [snd] in Hn. pose proof (taken_nodup q m H) as Hd.
  assert ((Some n, o') ∈ taken q) as Ht by (apply by_key_in; rewrite Hn, elem_of_app; right; by apply list_elem_of_singleton).
  assert ((Some k, o') ∈ taken q) as Ht'.
  { apply by_key_in. destruct (q_links _ _ H k) as (lost & _ & E). rewrite E, elem_of_app. left. by apply by_key_in. }
  apply list_elem_of_lookup in Ht as [a Ha], Ht' as [b Hb].
  assert (a = b) as ->. { rewrite NoDup_alt in Hd. apply (Hd a b o'); change (map snd (taken q)) with (snd <$> taken q); rewrite list_lookup_fmap; [by rewrite Ha|by rewrite Hb]. }
  assert (k = n) as -> by congruence. apply by_key_in in Hk.
  assert (NoDup (by_key (Some n) (taken q))) as Hf.
  { unfold by_key. eapply sublist_NoDup; [exact Hd|]. apply fmap_sublist, sublist_filter. }
  rewrite Hn in Hf. apply list.NoDup_app in Hf as (_ & Hf & _). apply (Hf o' Hk). by apply list_elem_of_singleton.
Qed.
Lemma wrote_history q m n o : history_ok q m -> accepted q !! fr_done o = Some o ->
  by_key (Some n) (taken q) = by_key n (written q) ++ [o] -> history_ok (wrote q n o) m.
Proof.
  intros H Ho Hn. pose proof H as [H1 H2 H3 H4 H5 H6 H7 H8]. destruct (wrote_fields q n o) as (E1 & E2 & E3 & E4 & E5). split; rewrite ?E1, ?E2, ?E3, ?E4, ?E5; try done.
  - intros t ok Ha. destruct (H4 t ok Ha) as [F1 F2]. split; [done|]. intros E. destruct (F2 E) as (k & x & Hk & Hx). exists k, x. rewrite elem_of_app. auto.
  - intros k x [Hx|Hx]%elem_of_app; [by eapply H5|]. apply list_elem_of_singleton in Hx. by injection Hx as -> ->.
  - intros k. rewrite by_key_app. destruct (decide (n = k)) as [->|Hne].
    + rewrite by_key_same, Hn. exists []. rewrite app_nil_r. split; [cbn; lia|done].
    + rewrite by_key_other, app_nil_r by done. apply H6.
  - rewrite map_app. apply list.NoDup_app. split; [done|]. split; [|apply NoDup_singleton].
    intros x Hx Hy%list_elem_of_singleton. cbn in Hy. subst x. by eapply (not_yet_written q m n o).
Qed.
Lemma wrote_role q m n o r : own r <> Some n -> role_ok q m r -> role_ok (wrote q n o) m r.
Proof.
  intros Hn. destruct (wrote_fields q n o) as (E1 & E2 & E3 & E4 & E5). apply role_ok_mono; rewrite ?E1, ?E2, ?E3, ?E4, ?E5; try done.
  - intros x Hx. rewrite elem_of_app. auto.
  - intros k Hk. rewrite by_key_app, by_key_other, app_nil_r; [done|]. intros <-. done.
Qed.

Lemma answer_fields q o ok q' : answer q o ok = Some q' ->
  out q' = out q /\ accepted q' = accepted q /\ taken q' = taken q /\ written q' = written q /\
  (forall t, t <> fr_done o -> acks q' !! t = acks q !! t) /\ (acks q' !! fr_done o = acks q !! fr_done o \/ acks q' !! fr_done o = Some ok).
Proof.
  unfold answer. destruct (fr_reliable o); [|intros [= <-]; auto 10]. destruct (acks q !! fr_done o) as [x|]; [done|]. intros [= <-].
  cbn. repeat (split; [done|]). split; [intros t Ht; by rewrite lookup_insert_ne|]. right. by rewrite lookup_insert_eq.
Qed.
Lemma answer_history q m o ok q' : history_ok q m -> answer q o ok = Some q' -> (fr_done o < length (taken q))%nat ->
  (ok = true -> exists n, (n, o) ∈ written q) -> history_ok q' m.
Proof.
  intros [H1 H2 H3 H4 H5 H6 H7 H8] Ha Ht Hok. destruct (answer_fields _ _ _ _ Ha) as (E1 & E2 & E3 & E4 & E5 & E6).
  split; rewrite ?E1, ?E2, ?E3, ?E4; try done. intros t k Hk. destruct (decide (t = fr_done o)) as [->|Hne]; [|rewrite E5 in Hk by done; by apply H4].
  destruct E6 as [E6|E6]; rewrite E6 in Hk; [by apply H4|]. injection Hk as <-. split; [done|]. intros Ek. destruct (Hok Ek) as [n Hn]. by exists n, o.
Qed.
Lemma answer_role q m o ok q' r : answer q o ok = Some q' -> (forall o', held r = Some o' -> fr_done o' <> fr_done o) -> role_ok q m r -> role_ok q' m r.
Proof.
  intros Ha Hh. destruct (answer_fields _ _ _ _ Ha) as (E1 & E2 & E3 & E4 & E5 & E6).
  apply role_ok_mono; rewrite ?E2, ?E3, ?E4; try done. intros o' Ho'. apply E5. by apply Hh.
Qed.

Lemma snoc_ok q m rs r : roles_ok q m rs -> role_ok q m r -> held r = None ->
  (forall n j s, own r = Some n -> rs !! j = Some s -> own s <> Some n) -> roles_ok q m (rs ++ [r]).
Proof.
  intros [R1 R2 R3] Hr Hh Hn.
  assert (forall j s, (rs ++ [r]) !! j = Some s -> rs !! j = Some s \/ j = length rs /\ s = r) as Hj.
  { intros j s [H|[H1 H2]]%lookup_app_Some; [by left|]. apply list_lookup_singleton_Some in H2 as [H2 <-]. right. split; [lia|done]. }
  split.
  - intros j s [H|[_ ->]]%Hj; [by eapply R1|done].
  - intros j k s s' o o' [H|[-> ->]]%Hj [H'|[-> ->]]%Hj Ho Ho' E; [by eapply R2|congruence..].
  - intros j k s s' n [H|[-> ->]]%Hj [H'|[-> ->]]%Hj Ho Ho'; [by eapply R3| | |done].
    + by destruct (Hn n j s Ho' H).
    + by destruct (Hn n k s' Ho H').
Qed.
Lemma idle_ok q m : role_ok q m Idle.
Proof. by repeat split. Qed.

(** ** The steps *)

Lemma connect_ok q m rs i : rs !! i = Some Idle -> queue_ok (q, m, rs) -> queue_ok (q, S m, <[i := Fresh m]> rs).
Proof.
  intros Hi [H R]. cbn [fst snd] in H, R. split; cbn [fst snd]; [destruct H as [H1 H2 H3 H4 H5 H6 H7 H8]; split; try done; intros n Hn; apply H7; lia|].
  apply (change_ok q (S m) rs q i Idle (Fresh m)); [|done|..].
  - destruct R as [R1 R2 R3]. split; [|done|done]. intros j s Hs'. apply (role_ok_more _ m); [lia|by eapply R1].
  - intros j s _ Hs'. apply (role_ok_more _ m); [lia|by eapply q_roles].
  - split; [intros n [= <-]; lia|]. split; [by apply (q_fresh _ _ H)|]. by split.
  - intros n [= <-]. right. intros j s Hs' E. destruct (q_roles _ _ _ R _ _ Hs') as (Hm' & _). specialize (Hm' _ E). lia.
  - done.
Qed.
Lemma launch_ok q m rs i n : rs !! i = Some (Fresh n) -> queue_ok (q, m, rs) -> queue_ok (q, m, <[i := Idle]> rs ++ [Looping n; Idle]).
Proof.
  intros Hi [H R]. cbn [fst snd] in H, R. split; [done|]. cbn [fst snd]. destruct (q_roles _ _ _ R _ _ Hi) as (Hm & Hr & _). pose proof (q_own _ _ _ R) as Hown.
  change [Looping n; Idle] with ([Looping n] ++ [Idle]). rewrite app_assoc. apply snoc_ok; [apply snoc_ok|..]; try done.
  - apply (quiet_ok q m rs i (Fresh n) Idle); try done; by left.
  - split; [done|]. split; [|by split]. destruct (q_links _ _ H n) as (lost & _ & E). cbn. rewrite Hr in E |- *. symmetry in E. apply app_eq_nil in E as [-> _]. done.
  - intros k j s [= <-] [[-> [<- _]]|[Hj Hs']]%list_lookup_insert_Some E; [done|]. apply Hj. by apply (Hown i j (Fresh n) s n).
Qed.
Lemma post_ok q m rs i v (rel : bool) (o := next_frame q v rel) : rs !! i = Some Idle -> full q = false -> queue_ok (q, m, rs) ->
  queue_ok (put q o, m, <[i := if rel then Waits o else Succeeded o]> rs).
Proof.
  intros Hi Hf [H R]. cbn [fst snd] in H, R. split; cbn [fst snd]; [by apply put_history|]. apply (change_ok q m rs _ i Idle); [done..| | | |].
  - intros j s _ Hs'. apply put_role. by eapply q_roles.
  - pose proof (put_lookup q v rel) as Hl. fold o in Hl. destruct rel; (split; [done|]); (split; [by split|]); by split.
  - by destruct rel.
  - by destruct rel.
Qed.
Lemma beat_ok q m rs v : full q = false -> queue_ok (q, m, rs) -> queue_ok (put q (next_frame q v false), m, rs).
Proof.
  intros Hf [H R]. cbn [fst snd] in H, R. split; cbn [fst snd]; [by apply put_history|].
  destruct R as [R1 R2 R3]. split; [|done|done]. intros j s Hs'. apply put_role. by eapply R1.
Qed.
(** A frame that was taken out is nobody else's. *)
Lemma taken_new q m rs q' w o j s o' : history_ok q m -> roles_ok q m rs -> take_out q w = Some (q', o) ->
  rs !! j = Some s -> held s = Some o' -> fr_done o <> fr_done o'.
Proof.
  intros H R Ht Hs' Ho' E. destruct (taken_next _ _ _ _ _ H Ht) as (_ & Hn & _).
  destruct (q_roles _ _ _ R _ _ Hs') as (_ & _ & F & _). destruct (F _ Ho') as (_ & F2 & _). lia.
Qed.
Lemma taken_held q m q' w o : history_ok q m -> take_out q w = Some (q', o) ->
  accepted q' !! fr_done o = Some o /\ (fr_done o < length (taken q'))%nat /\ acks q' !! fr_done o = None.
Proof.
  intros H Ht. destruct (taken_next _ _ _ _ _ H Ht) as (Hl & Hn & Ha). destruct (take_fields _ _ _ _ Ht) as (E1 & E2 & E3 & E4 & E5).
  rewrite E1, E2, E4, length_app. split; [done|]. split; [cbn; lia|done].
Qed.
Lemma take_ok q m rs i n q' o : rs !! i = Some (Looping n) -> take_out q (Some n) = Some (q', o) -> queue_ok (q, m, rs) ->
  queue_ok (q', m, <[i := Holds n o]> rs).
Proof.
  intros Hi Ht [H R]. cbn [fst snd] in H, R. destruct (q_roles _ _ _ R _ _ Hi) as (Hm & Hr & _). cbn in Hr. rewrite app_nil_r in Hr.
  split; cbn [fst snd]; [apply (take_history q m (Some n) _ o); [done..|]; intros k [= <-]; split; [by apply Hm|done]|].
  destruct (take_fields _ _ _ _ Ht) as (_ & _ & E3 & E4 & _). apply (change_ok q m rs _ i (Looping n)); [done..| | | |].
  - intros j s Hj Hs'. apply (take_role q m (Some n) _ o); [done| |by eapply q_roles]. intros k [= <-] E. apply Hj. by apply (q_own _ _ _ R j i s (Looping n) n).
  - split; [by intros k [= <-]; apply Hm|]. split; [by rewrite E3, E4, by_key_app, by_key_same, Hr|]. split; [|done].
    intros x [= <-]. by apply (taken_held q m q' (Some n)).
  - by left.
  - intros x j s o' [= <-] Hj Hs' Ho'. by apply (taken_new q m rs q' (Some n) _ j s).
Qed.
Lemma clear_ok q m rs i q' o : rs !! i = Some Idle -> take_out q None = Some (q', o) -> queue_ok (q, m, rs) -> queue_ok (q', m, <[i := Clears o]> rs).
Proof.
  intros Hi Ht [H R]. cbn [fst snd] in H, R. split; cbn [fst snd]; [by apply (take_history q m None _ o)|]. apply (change_ok q m rs _ i Idle); [done..| | | |].
  - intros j s Hj Hs'. apply (take_role q m None _ o); [done|done|by eapply q_roles].
  - split; [done|]. split; [done|]. split; [|done]. intros x [= <-]. by apply (taken_held q m q' None).
  - done.
  - intros x j s o' [= <-] Hj Hs' Ho'. by apply (taken_new q m rs q' None _ j s).
Qed.
Lemma wrote_ok q m rs i n o : rs !! i = Some (Holds n o) -> queue_ok (q, m, rs) -> queue_ok (wrote q n o, m, <[i := Says n o true]> rs).
Proof.
  intros Hi [H R]. cbn [fst snd] in H, R. destruct (q_roles _ _ _ R _ _ Hi) as (Hm & Hr & Hh & _). destruct (Hh o eq_refl) as (F1 & F2 & F3).
  split; cbn [fst snd]; [by apply wrote_history|]. apply (change_ok q m rs _ i (Holds n o)); [done..| | | |].
  - intros j s Hj Hs'. apply wrote_role; [|by eapply q_roles]. intros E. apply Hj. by apply (q_own _ _ _ R j i s (Holds n o) n).
  - split; [done|]. split; [|split].
    + change (by_key (Some n) (taken q) = by_key n (written q ++ [(n, o)]) ++ []). rewrite by_key_app, by_key_same, app_nil_r. exact Hr.
    + intros x [= <-]. done.
    + intros k x [= <- <-]. cbn. rewrite elem_of_app. right. by apply list_elem_of_singleton.
  - by left.
  - intros x j s o' Hx Hj Hs' Ho' E. injection Hx as <-. apply Hj. by apply (q_held _ _ _ R j i s (Holds n o) o' o).
Qed.
Lemma answer_ok q m rs i n o (ok : bool) q' : rs !! i = Some (Says n o ok) -> answer q o ok = Some q' -> queue_ok (q, m, rs) ->
  queue_ok (q', m, <[i := if ok then Looping n else Gone n]> rs).
Proof.
  intros Hi Ha [H R]. cbn [fst snd] in H, R. destruct (q_roles _ _ _ R _ _ Hi) as (Hm & Hr & Hh & Hs). destruct (Hh o eq_refl) as (F1 & F2 & F3).
  split; cbn [fst snd]; [apply (answer_history q m o ok); [done..|]; intros ->; exists n; by apply Hs|].
  apply (change_ok q m rs _ i (Says n o ok)); [done..| | | |].
  - intros j s Hj Hs'. apply (answer_role q m o ok); [done| |by eapply q_roles]. intros o' Ho' E. apply Hj. by apply (q_held _ _ _ R j i s (Says n o ok) o' o).
  - destruct (answer_fields _ _ _ _ Ha) as (E1 & E2 & E3 & E4 & E5 & E6).
    destruct ok; (split; [by intros k [= <-]; apply Hm|]); [|by split]. split; [by rewrite E3, E4|]. by split.
  - intros k. destruct ok; by left.
  - by destruct ok.
Qed.
Lemma cleared_ok q m rs i o q' : rs !! i = Some (Clears o) -> answer q o false = Some q' -> queue_ok (q, m, rs) -> queue_ok (q', m, <[i := Idle]> rs).
Proof.
  intros Hi Ha [H R]. cbn [fst snd] in H, R. destruct (q_roles _ _ _ R _ _ Hi) as (_ & _ & Hh & _). destruct (Hh o eq_refl) as (F1 & F2 & F3).
  split; cbn [fst snd]; [by apply (answer_history q m o false)|]. apply (change_ok q m rs _ i (Clears o)); [done..| | |done|done].
  - intros j s Hj Hs'. apply (answer_role q m o false); [done| |by eapply q_roles]. intros o' Ho' E. apply Hj. by apply (q_held _ _ _ R j i s (Clears o) o' o).
  - apply idle_ok.
Qed.
Lemma learn_ok q m rs i o (ok : bool) : rs !! i = Some (Waits o) -> acks q !! fr_done o = Some ok -> queue_ok (q, m, rs) ->
  queue_ok (q, m, <[i := if ok then Succeeded o else Failed o]> rs).
Proof.
  intros Hi Ha [H R]. cbn [fst snd] in H, R. split; [done|]. cbn [fst snd]. destruct (q_roles _ _ _ R _ _ Hi) as (_ & [Hr1 Hr2] & _).
  apply (quiet_ok q m rs i (Waits o)); try done; try (destruct ok; by left).
  destruct ok; (split; [done|]); [|by split]. split; [|by split]. split; [done|]. intros _.
  destruct (q_acks _ _ H _ _ Ha) as [_ F]. destruct (F eq_refl) as (n & x & Hx & Ex). exists n.
  pose proof (q_written _ _ H _ _ Hx) as Hx2. rewrite Ex, Hr1 in Hx2. by injection Hx2 as ->.
Qed.
(** A goroutine stops what it does, or fails. *)
Lemma stop_ok q m rs i r r' : rs !! i = Some r -> role_ok q m r' -> (own r' = None \/ own r' = own r) -> (held r' = None \/ held r' = held r) ->
  queue_ok (q, m, rs) -> queue_ok (q, m, <[i := r']> rs).
Proof. intros Hi Hr Ho Hh [H R]. cbn [fst snd] in H, R. split; [done|]. by apply (quiet_ok q m rs i r). Qed.

(** Every step keeps the invariant. *)
Lemma spec_step_ok s s' : spec_step s s' -> queue_ok s -> queue_ok s'.
Proof.
  intros St O. destruct St as [s|q m rs i Hi|q m rs i n Hi|q m rs i v rel Hi Hf o|q m rs i v Hi Hf|q m rs i n q' o Hi Ht|q m rs i q' o Hi Ht|q m rs i n o Hi|q m rs i n o Hi|q m rs i n o ok q' Hi Ha|q m rs i o q' Hi Ha|q m rs i n Hi|q m rs i o ok Hi Ha|q m rs i o Hi].
  - done.
  - by apply connect_ok.
  - by apply launch_ok.
  - by apply post_ok.
  - by apply beat_ok.
  - by apply (take_ok q m rs i n).
  - by apply (clear_ok q m).
  - by apply wrote_ok.
  - apply (stop_ok q m rs i (Holds n o)); try done; try (by right). destruct (q_roles _ _ _ (proj2 O) _ _ Hi) as (Hm & Hr & Hh & Hs). by split.
  - by apply (answer_ok q m rs i n o).
  - by apply (cleared_ok q m rs i o).
  - apply (stop_ok q m rs i (Looping n)); try done; try (by right). destruct (q_roles _ _ _ (proj2 O) _ _ Hi) as (Hm & _). by split.
  - by apply learn_ok.
  - apply (stop_ok q m rs i (Waits o)); try done; by left.
Qed.

(** ** Nobody is forgotten *)

(** A frame whose sender asked to be told is in the queue, in somebody's hands, or
    answered for. *)
Definition kept (q : queue) (rs : list role) (o : frame) : Prop :=
  o ∈ out q \/ (exists i r, rs !! i = Some r /\ held r = Some o) \/ is_Some (acks q !! fr_done o).
Definition pending_ok (q : queue) (rs : list role) : Prop := forall o, o ∈ accepted q -> fr_reliable o = true -> kept q rs o.
Lemma kept_set q q' rs i r r' o : rs !! i = Some r ->
  (o ∈ out q -> o ∈ out q' \/ held r' = Some o) ->
  (held r = Some o -> held r' = Some o \/ is_Some (acks q' !! fr_done o)) ->
  (is_Some (acks q !! fr_done o) -> is_Some (acks q' !! fr_done o)) ->
  kept q rs o -> kept q' (<[i := r']> rs) o.
Proof.
  intros Hi Ho Hh Ha. pose proof (lookup_lt_Some _ _ _ Hi) as Hlt.
  assert (held r' = Some o -> kept q' (<[i := r']> rs) o) as F by (intros E; right; left; exists i, r'; by rewrite list_lookup_insert_eq).
  intros [H|[(j & s & Hj & Hs)|H]].
  - destruct (Ho H); [by left|by apply F].
  - destruct (decide (i = j)) as [->|Hne].
    + assert (s = r) as -> by congruence. destruct (Hh Hs); [by apply F|by right; right].
    + right. left. exists j, s. by rewrite list_lookup_insert_ne.
  - right. right. by apply Ha.
Qed.
Lemma kept_same q rs i r r' o : rs !! i = Some r -> held r' = held r -> kept q rs o -> kept q (<[i := r']> rs) o.
Proof. intros Hi E. apply (kept_set q q rs i r); [done|by left|rewrite E; by left|done]. Qed.
Lemma answer_tells q o ok q' : answer q o ok = Some q' -> fr_reliable o = true -> is_Some (acks q' !! fr_done o).
Proof. unfold answer. intros H Hr. rewrite Hr in H. destruct (acks q !! fr_done o); [done|]. injection H as <-. cbn. rewrite lookup_insert_eq. by eexists. Qed.
Lemma answer_keeps q o ok q' t : answer q o ok = Some q' -> is_Some (acks q !! t) -> is_Some (acks q' !! t).
Proof.
  intros Ha Ht. destruct (answer_fields _ _ _ _ Ha) as (_ & _ & _ & _ & E & F). destruct (decide (t = fr_done o)) as [->|Hne]; [|by rewrite E].
  destruct F as [->|F]; [done|rewrite F; by eexists].
Qed.
Lemma pending_put q rs rs' o : pending_ok q rs -> (forall x, kept q rs x -> kept (put q o) rs' x) -> pending_ok (put q o) rs'.
Proof.
  intros P F x [Hx|Hx]%elem_of_app Hr; [by apply F, P|]. left. cbn. apply elem_of_app. by right.
Qed.
Lemma kept_put q rs o x : kept q rs x -> kept (put q o) rs x.
Proof. intros [H|H]; [|by right]. left. cbn. apply elem_of_app. by left. Qed.
Lemma pending_take q rs i r r' w q' o : rs !! i = Some r -> held r = None -> held r' = Some o -> take_out q w = Some (q', o) -> pending_ok q rs -> pending_ok q' (<[i := r']> rs).
Proof.
  intros Hi Hr Hr' Ht P x Hx Hrel. destruct (take_fields _ _ _ _ Ht) as (E1 & E2 & E3 & E4 & E5). rewrite E1 in Hx.
  apply (kept_set q q' rs i r); [done|rewrite E5|by rewrite Hr|by rewrite E2|by apply P]. intros [->|H]%elem_of_cons; [by right|by left].
Qed.
Lemma pending_answer q rs i r r' o ok q' : rs !! i = Some r -> held r = Some o -> answer q o ok = Some q' -> pending_ok q rs -> pending_ok q' (<[i := r']> rs).
Proof.
  intros Hi Hr Ha P x Hx Hrel. destruct (answer_fields _ _ _ _ Ha) as (E1 & E2 & _). rewrite E2 in Hx.
  apply (kept_set q q' rs i r); [done|rewrite E1; by left| |by eapply answer_keeps|by apply P].
  rewrite Hr. intros [= ->]. right. by eapply answer_tells.
Qed.
Lemma spec_step_pending s s' : spec_step s s' -> pending_ok s.1.1 s.2 -> pending_ok s'.1.1 s'.2.
Proof.
  intros St P. destruct St as [s|q m rs i Hi|q m rs i n Hi|q m rs i v rel Hi Hf o|q m rs i v Hi Hf|q m rs i n q' o Hi Ht|q m rs i q' o Hi Ht|q m rs i n o Hi|q m rs i n o Hi|q m rs i n o ok q' Hi Ha|q m rs i o q' Hi Ha|q m rs i n Hi|q m rs i o ok Hi Ha|q m rs i o Hi]; cbn [fst snd] in *; try done.
  - intros x Hx Hr. apply (kept_same q rs i Idle); [done..|by apply P].
  - intros x Hx Hr. destruct (kept_same q rs i (Fresh n) Idle x Hi eq_refl (P x Hx Hr)) as [H|[(j & s & Hj & Hs)|H]]; [by left| |by right; right].
    right. left. exists j, s. split; [by apply lookup_app_l_Some|done].
  - apply (pending_put q rs); [done|]. intros x Hx. apply (kept_same _ rs i Idle); [done|by destruct rel|by apply kept_put].
  - apply (pending_put q rs); [done|]. intros x. apply kept_put.
  - by apply (pending_take q rs i (Looping n) _ (Some n) q' o).
  - by apply (pending_take q rs i Idle _ None q' o).
  - intros x Hx Hr. apply (kept_set q _ rs i (Holds n o)); try done; try (by left). by apply P.
  - intros x Hx Hr. apply (kept_same q rs i (Holds n o)); [done..|by apply P].
  - by apply (pending_answer q rs i (Says n o ok) _ o ok).
  - by apply (pending_answer q rs i (Clears o) _ o false).
  - intros x Hx Hr. apply (kept_same q rs i (Looping n)); [done..|by apply P].
  - intros x Hx Hr. apply (kept_same q rs i (Waits o)); [done|by destruct ok|by apply P].
  - intros x Hx Hr. apply (kept_same q rs i (Waits o)); [done..|by apply P].
Qed.

(** ** What a queue promises *)

(** Frames come out in the order they went in, each is written at most once, and
    the frames a writer took are those it wrote and at most one more. Who is told
    that a frame was written, it was. Nobody blocks on telling, and no frame whose
    sender waits gets out of sight. *)
Record promise (q : queue) (rs : list role) : Prop := {
  p_bound : (length (out q) <= capacity)%nat;
  p_order : accepted q = map snd (taken q) ++ out q;
  p_links : forall n, exists lost, (length lost <= 1)%nat /\ by_key (Some n) (taken q) = by_key n (written q) ++ lost;
  p_once : NoDup (map snd (written q));
  p_told : forall o, Succeeded o ∈ rs -> o ∈ accepted q /\ (fr_reliable o = true -> o ∈ map snd (written q));
  p_tells : forall r o ok, r ∈ rs -> held r = Some o -> is_Some (answer q o ok);
  p_waits : forall o, Waits o ∈ rs -> kept q rs o }.
Lemma queue_promise q m rs : queue_ok (q, m, rs) -> pending_ok q rs -> promise q rs.
Proof.
  intros [H R] P. cbn [fst snd] in H, R. split; try apply H.
  - intros o [i Hi]%list_elem_of_lookup. destruct (q_roles _ _ _ R _ _ Hi) as (_ & [H1 H2] & _). split; [by eapply list_elem_of_lookup_2|].
    intros Hr. destruct (H2 Hr) as [n Hn]. by apply (list_elem_of_fmap_2 snd) in Hn.
  - intros r o ok [i Hi]%list_elem_of_lookup Ho. destruct (q_roles _ _ _ R _ _ Hi) as (_ & _ & F & _). destruct (F o Ho) as (_ & _ & E).
    unfold answer. destruct (fr_reliable o); [rewrite E|]; by eexists.
  - intros o [i Hi]%list_elem_of_lookup. destruct (q_roles _ _ _ R _ _ Hi) as (_ & [H1 H2] & _). apply P; [by eapply list_elem_of_lookup_2|done].
Qed.
(** Both invariants, along any steps. *)
Definition spec_ok (s : state) : Prop := queue_ok s /\ pending_ok s.1.1 s.2.
Lemma spec_steps_ok s s' : rtc spec_step s s' -> spec_ok s -> spec_ok s'.
Proof. induction 1 as [s|s1 s2 s3 St _ IH]; [done|]. intros [O P]. apply IH. split; [by eapply spec_step_ok|by eapply spec_step_pending]. Qed.
Lemma spec_promise q m rs : spec_ok (q, m, rs) -> promise q rs.
Proof. intros [O P]. by apply (queue_promise q m). Qed.
(** What does not concern the queue is a step as well. *)
Lemma spec_stay q m rs i r : rs !! i = Some r -> spec_step (q, m, rs) (q, m, <[i := r]> rs).
Proof. intros Hi. rewrite list_insert_id by done. apply s_stay. Qed.
(** Where a frame is that waits in the queue. *)
Lemma queue_place q m o : history_ok q m -> o ∈ out q -> (length (taken q) <= fr_done o)%nat.
Proof.
  intros H [k Hk]%list_elem_of_lookup. assert (accepted q !! (length (taken q) + k)%nat = Some o) as Hl.
  { rewrite (q_order _ _ H), lookup_app_r by (rewrite length_map; lia). rewrite length_map. by replace (length (taken q) + k - length (taken q))%nat with k by lia. }
  rewrite (q_number _ _ H _ _ Hl). lia.
Qed.
Lemma queue_length q m o : history_ok q m -> o ∈ accepted q -> (S (fr_done o) <= length (taken q) + length (out q))%nat.
Proof.
  intros H [k Hk]%list_elem_of_lookup. rewrite (q_number _ _ H _ _ Hk). apply lookup_lt_Some in Hk.
  rewrite (q_order _ _ H), length_app, length_map in Hk. lia.
Qed.
(** An empty queue, nobody at work. *)
Lemma empty_queue_ok rs : Forall (eq Idle) rs -> spec_ok (empty_queue, 0%nat, rs).
Proof.
  intros H. assert (forall i r, rs !! i = Some r -> r = Idle) as F by (intros i r Hi; symmetry; by eapply Forall_lookup_1 in H).
  split; [|intros o Ho; by apply elem_of_nil in Ho]. split; split; cbn [fst snd empty_queue out acks accepted taken written]; try done.
  - cbn. lia.
  - intros n o Ho. by apply elem_of_nil in Ho.
  - intros n. exists []. split; [cbn; lia|done].
  - constructor.
  - intros i r Hi. rewrite (F i r Hi). apply idle_ok.
  - intros i j r r' o o' Hi _ Ho. rewrite (F i r Hi) in Ho. done.
  - intros i j r r' n Hi _ Ho. rewrite (F i r Hi) in Ho. done.
Qed.
End Queue.
Arguments frame : clear implicits.
Arguments queue : clear implicits.
Arguments role : clear implicits.
End LinkQueue.
