(* ===== verification/EdgeLink.v ===== *)
(** * The outbound queue of an edge process

    [send], [Start], [connectAndServe], [drop], [writeLoop] and [Close] of
    [internal/edge/remotecore.go] as goroutines that interleave: whoever sends,
    the one that keeps connecting, a writer and a reader for each link, whoever
    closes the client. There is one queue for all links. What the frames say
    and what their arrival does is in [RemoteCore]; the greeting, and the
    requests that wait for an answer, are as well.

    Each step is one of [LinkQueue]. What that promises is not all one would wish
    of a link: three schedules at the end show frames that are lost, that arrive
    on the wrong link, and a sender that waits for ever. *)

From Stdlib Require Import ZArith Lia.
From stdpp Require Import base numbers list gmap option relations.
From S2P Require Import Prelude Wire Fields LinkQueue.

Module EdgeLink.
Import LinkQueue.

Section EdgeLink.
Context {V : Type} (QueueSize : nat) (heartbeat : V).

(** A connection, open or not, with [connDone] and the number of errors in
    [errCh], which are local to [connectAndServe]. *)
Record raw := mkRaw { raw_open : bool; connDone : bool; errCh : nat }.
#[export] Instance raw_eta : Eta raw := fun r => mkRaw (raw_open r) (connDone r) (errCh r).
(** [c_conn] is the number of a connection; [cancelled] is [ctx]. *)
Record client := mkClient {
  c_queue : queue V;
  c_conn : option nat;
  c_done : bool;
  cancelled : bool;
  raws : list raw }.
#[export] Instance client_eta : Eta client := fun c => mkClient (c_queue c) (c_conn c) (c_done c) (cancelled c) (raws c).
Definition NewRemoteCoreClient : client := mkClient empty_queue None false false [].

(** Where a goroutine is. *)
Inductive pc :=
  | Send (v : V) (reliable : bool)     (* [send] *)
  | Offer (v : V) (reliable : bool)
  | Await (o : frame V)
  | Sent (o : frame V)
  | Broken (o : frame V)
  | Refused (v : V)
  | Start                              (* [Start] *)
  | Connect
  | Launch (n : nat)                   (* [connectAndServe] *)
  | Serve (n : nat)
  | Beat (n : nat)
  | BeatOffer (n : nat)
  | Finish (n : nat)
  | Drop (n : nat)                     (* [drop] *)
  | HangUp (n : nat)
  | Drain (n : nat)
  | Drained (n : nat) (o : frame V)
  | Pause
  | Ended
  | WriteLoop (n : nat)                (* [writeLoop] *)
  | Writing (n : nat) (o : frame V)
  | Answer (n : nat) (o : frame V) (ok : bool)
  | Leave (n : nat)
  | WriterEnd (n : nat)
  | ReadLoop (n : nat)                 (* [readLoop] *)
  | ReaderEnd
  | Close                              (* [Close] *)
  | CloseConn
  | Closed
  | Cancel
  | Cancelled.

Definition set_raw (n : nat) (f : raw -> raw) (c : client) : client := c <| raws := alter f n (raws c) |>.
Definition is_open (c : client) (n : nat) : bool := match raws c !! n with Some r => raw_open r | None => false end.
Definition is_connDone (c : client) (n : nat) : bool := match raws c !! n with Some r => connDone r | None => false end.
Definition errors (c : client) (n : nat) : nat := match raws c !! n with Some r => errCh r | None => 0%nat end.

(** One step, and the goroutines it starts. [b] says which case a select takes,
    or how the outside answers. *)
Definition tstep (c : client) (p : pc) (b : nat) : option (client * pc * list pc) :=
  match p with
  | Send v reliable => Some (c, match c_conn c with Some _ => Offer v reliable | None => Refused v end, [])
  | Offer v reliable =>
      match b with
      | 0%nat => if full QueueSize (c_queue c) then None else
          let o := next_frame (c_queue c) v reliable in
          Some (c <| c_queue := put (c_queue c) o |>, if reliable then Await o else Sent o, [])
      | 1%nat => if c_done c then Some (c, Refused v, []) else None
      | _ => if full QueueSize (c_queue c) && negb (c_done c) then Some (c, Refused v, []) else None
      end
  | Await o => match acks (c_queue c) !! fr_done o with Some ok => Some (c, if (ok : bool) then Sent o else Broken o, []) | None => None end
  | Start =>
      match b with
      | 0%nat => if cancelled c then Some (c, Ended, []) else None
      | 1%nat => if c_done c then Some (c, Ended, []) else None
      | _ => if cancelled c || c_done c then None else Some (c, Connect, [])
      end
  | Connect =>
      match b with
      | 0%nat => let n := length (raws c) in Some (c <| raws := raws c ++ [mkRaw true false 0] |> <| c_conn := Some n |>, Launch n, [])
      | _ => Some (c, Pause, [])
      end
  | Launch n => Some (c, Serve n, [WriteLoop n; ReadLoop n])
  | Serve n =>
      match b with
      | 0%nat => match errors c n with S k => Some (set_raw n (fun r => r <| errCh := k |>) c, Finish n, []) | O => None end
      | 1%nat => Some (c, Beat n, [])
      | 2%nat => if cancelled c then Some (c, Finish n, []) else None
      | _ => if c_done c then Some (c, Finish n, []) else None
      end
  | Beat n => Some (c, match c_conn c with Some _ => BeatOffer n | None => Drop n end, [])
  | BeatOffer n =>
      match b with
      | 0%nat => if full QueueSize (c_queue c) then None else Some (c <| c_queue := put (c_queue c) (next_frame (c_queue c) heartbeat false) |>, Serve n, [])
      | 1%nat => if c_done c then Some (c, Drop n, []) else None
      | _ => if full QueueSize (c_queue c) && negb (c_done c) then Some (c, Drop n, []) else None
      end
  | Finish n => Some (set_raw n (fun r => r <| connDone := true |>) c, Drop n, [])
  | Drop n => Some (if bool_decide (c_conn c = Some n) then c <| c_conn := None |> else c, HangUp n, [])
  | HangUp n => Some (set_raw n (fun r => r <| raw_open := false |>) c, Drain n, [])
  | Drain n =>
      match take_out (c_queue c) None with
      | Some (q, o) => Some (c <| c_queue := q |>, Drained n o, [])
      | None => Some (c, Pause, [])
      end
  | Drained n o => match answer (c_queue c) o false with Some q => Some (c <| c_queue := q |>, Drain n, []) | None => None end
  | Pause =>
      match b with
      | 0%nat => Some (c, Start, [])
      | 1%nat => if cancelled c then Some (c, Ended, []) else None
      | _ => if c_done c then Some (c, Ended, []) else None
      end
  | WriteLoop n =>
      match b with
      | 0%nat => match take_out (c_queue c) (Some n) with Some (q, o) => Some (c <| c_queue := q |>, Writing n o, []) | None => None end
      | 1%nat => if c_done c then Some (c, Leave n, []) else None
      | _ => if is_connDone c n then Some (c, Leave n, []) else None
      end
  | Writing n o =>
      match b with
      | 0%nat => if is_open c n then Some (c <| c_queue := wrote (c_queue c) n o |>, Answer n o true, []) else None
      | _ => Some (c, Answer n o false, [])
      end
  | Answer n o ok => match answer (c_queue c) o ok with Some q => Some (c <| c_queue := q |>, if ok then WriteLoop n else Leave n, []) | None => None end
  | Leave n => Some (set_raw n (fun r => r <| errCh := S (errCh r) |>) c, WriterEnd n, [])
  | ReadLoop n => Some (set_raw n (fun r => r <| errCh := S (errCh r) |>) c, ReaderEnd, [])
  | Close => if c_done c then Some (c, Closed, []) else Some (c <| c_done := true |>, CloseConn, [])
  | CloseConn => Some (match c_conn c with Some n => set_raw n (fun r => r <| raw_open := false |>) c | None => c end, Closed, [])
  | Cancel => Some (c <| cancelled := true |>, Cancelled, [])
  | Sent _ | Broken _ | Refused _ | Ended | WriterEnd _ | ReaderEnd | Closed | Cancelled => None
  end.
Definition step (s : client * list pc) (i b : nat) : option (client * list pc) :=
  let '(c, ts) := s in p ← ts !! i; '(c, p, l) ← tstep c p b; Some (c, <[i := p]> ts ++ l).
Fixpoint run (s : client * list pc) (schedule : list (nat * nat)) : option (client * list pc) :=
  match schedule with
  | [] => Some s
  | (i, b) :: schedule => s ← step s i b; run s schedule
  end.
(** A goroutine that has not started. *)
Definition starts (p : pc) : Prop := match p with Send _ _ | Start | Close | Cancel => True | _ => False end.

(** ** Every step is one of [LinkQueue] *)

Definition role_of (p : pc) : role V :=
  match p with
  | Await o => Waits o
  | Sent o => Succeeded o
  | Broken o => Failed o
  | Launch n => Fresh n
  | WriteLoop n => Looping n
  | Writing n o => Holds n o
  | Answer n o ok => Says n o ok
  | Leave n | WriterEnd n => Gone n
  | Drained _ o => Clears o
  | _ => Idle
  end.
Definition abstraction (s : client * list pc) : queue V * nat * list (role V) := (c_queue s.1, length (raws s.1), role_of <$> s.2).

Lemma edge_tstep_spec c p b c' p' l rs i : tstep c p b = Some (c', p', l) -> rs !! i = Some (role_of p) ->
  spec_step QueueSize (c_queue c, length (raws c), rs) (c_queue c', length (raws c'), <[i := role_of p']> rs ++ (role_of <$> l)).
Proof.
  intros Ht Hi. destruct p; cbn in Ht; repeat case_match; simplify_eq; cbn [role_of fmap list_fmap]; rewrite ?app_nil_r; cbn in Hi |- *; rewrite ?length_alter.
  all: try by apply spec_stay.
  - by apply (s_post _ _ _ _ _ v true).
  - by apply (s_post _ _ _ _ _ v false).
  - by apply (s_learn _ _ _ _ _ o true).
  - by apply (s_learn _ _ _ _ _ o false).
  - rewrite length_app, Nat.add_1_r. by apply s_connect.
  - by apply s_launch.
  - rewrite list_insert_id by done. by eapply s_beat.
  - by apply s_clear.
  - by eapply s_cleared.
  - by apply s_take.
  - by apply s_leave.
  - by apply s_leave.
  - by apply s_wrote.
  - by apply s_broke.
  - by eapply (s_answer _ _ _ _ _ _ o true).
  - by eapply (s_answer _ _ _ _ _ _ o false).
Qed.
Lemma edge_step_spec s i b s' : step s i b = Some s' -> spec_step QueueSize (abstraction s) (abstraction s').
Proof.
  destruct s as [c ts]. cbn. destruct (ts !! i) as [p|] eqn:Hi; [|done]. cbn. destruct (tstep c p b) as [[[c' p'] l]|] eqn:Ht; [|done]. cbn. intros [= <-].
  unfold abstraction. cbn [fst snd]. rewrite fmap_app, list_fmap_insert. apply (edge_tstep_spec c p b); [done|]. by rewrite list_lookup_fmap, Hi.
Qed.
Lemma edge_run_spec schedule : forall s s', run s schedule = Some s' -> rtc (spec_step QueueSize) (abstraction s) (abstraction s').
Proof.
  induction schedule as [|[i b] schedule IH]; intros s s'; cbn [run]; [by intros [= <-]|]. destruct (step s i b) as [s1|] eqn:E; [|done]. cbn.
  intros R. eapply rtc_l; [by eapply edge_step_spec|by apply IH].
Qed.
Lemma start_abstraction ts : Forall starts ts -> spec_ok QueueSize (abstraction (NewRemoteCoreClient, ts)).
Proof. intros H. apply empty_queue_ok. apply Forall_fmap. eapply Forall_impl; [|exact H]. by intros []. Qed.

(** C22: however the goroutines of an edge interleave, through any number of links,
    their steps are those of a queue that keeps the order, within its capacity:
    frames come out as they went in, each is written at most once, the writer of
    a link writes all it takes but for at most one frame, its last; a sender
    that waited and was told that its frame is written is told the truth, a
    sender that did not wait has its frame in the queue; and nobody blocks on
    telling. *)
Theorem edge_link_sound ts0 schedule c ts :
  Forall starts ts0 -> run (NewRemoteCoreClient, ts0) schedule = Some (c, ts) ->
  rtc (spec_step QueueSize) (abstraction (NewRemoteCoreClient, ts0)) (abstraction (c, ts)) /\
  promise QueueSize (c_queue c) (role_of <$> ts).
Proof.
  intros H R. pose proof (edge_run_spec _ _ _ R) as Hr. split; [done|]. apply (spec_promise _ _ (length (raws c))).
  exact (spec_steps_ok _ _ _ Hr (start_abstraction ts0 H)).
Qed.

(** ** A sender that waits for ever *)

(** Goroutines that only send, or are at their end. *)
Definition at_rest (p : pc) : Prop :=
  match p with Send _ _ | Offer _ _ | Await _ | Sent _ | Broken _ | Refused _ | Ended | WriterEnd _ | ReaderEnd | Closed | Cancelled => True | _ => False end.
Lemma rest_step s i b s' : Forall at_rest s.2 -> step s i b = Some s' ->
  Forall at_rest s'.2 /\ acks (c_queue s'.1) = acks (c_queue s.1) /\ (forall j o, s.2 !! j = Some (Await o) -> acks (c_queue s.1) !! fr_done o = None -> s'.2 !! j = Some (Await o)).
Proof.
  destruct s as [c ts]. cbn. intros H. destruct (ts !! i) as [p|] eqn:Hi; [|done]. cbn. destruct (tstep c p b) as [[[c' p'] l]|] eqn:Ht; [|done]. cbn. intros [= <-]. cbn.
  pose proof (Forall_lookup_1 _ _ _ _ H Hi) as Hp.
  assert (at_rest p' /\ l = [] /\ acks (c_queue c') = acks (c_queue c)) as (F1 & -> & F2).
  { destruct p; try done; cbn in Ht; repeat case_match; simplify_eq; done. }
  rewrite app_nil_r. split; [by apply Forall_insert|]. split; [done|]. intros j o Hj Ho. destruct (decide (i = j)) as [->|Hne]; [|by rewrite list_lookup_insert_ne].
  assert (p = Await o) as -> by congruence. cbn in Ht. rewrite Ho in Ht. done.
Qed.
Lemma rest_run schedule : forall s s', Forall at_rest s.2 -> run s schedule = Some s' ->
  forall j o, s.2 !! j = Some (Await o) -> acks (c_queue s.1) !! fr_done o = None -> s'.2 !! j = Some (Await o).
Proof.
  induction schedule as [|[i b] schedule IH]; intros s s' H; cbn [run]; [by intros [= <-]|]. destruct (step s i b) as [s1|] eqn:E; [|done]. cbn. intros R j o Hj Ho.
  destruct (rest_step s i b s1 H E) as (F1 & F2 & F3). apply (IH s1 s' F1 R); [by apply F3|by rewrite F2].
Qed.
End EdgeLink.
Arguments pc : clear implicits.
Arguments client : clear implicits.

(** ** What goes wrong

    Frames are numbers here, a heartbeat is 0, and there is room for one. *)

Notation schedule := (list (nat * nat)).
Definition go (ts : list (pc Z)) (l : schedule) : option (client Z * list (pc Z)) := run 1 0 (NewRemoteCoreClient, ts) l.
Definition frame1 (v : Z) (reliable : bool) : frame Z := mkFrame v reliable 0.
Definition frame2 (v : Z) (reliable : bool) : frame Z := mkFrame v reliable 1.
(** The client connects: its writer and its reader are the next two goroutines. *)
Definition connects : schedule := [(0, 2); (0, 0); (0, 0)]%nat.
(** A frame goes through. *)
Definition well : schedule := connects ++ [(1, 0); (1, 0); (2, 0); (2, 0); (2, 0); (1, 0)]%nat.
Example told : (fun s => (written (c_queue s.1), s.2)) <$> go [Start; Send 7 true] well =
  Some ([(0%nat, frame1 7 true)], [Serve 0; Sent (frame1 7 true); WriteLoop 0; ReadLoop 0]).
Proof. vm_compute. reflexivity. Qed.
(** The queue is full when a heartbeat is due. The link is dropped, but its writer
    is not told; after the next connection it takes a frame, writes it to the old
    socket, and ends. The sender of 8 was not refused, nobody was told, and the
    new link goes on. *)
Definition loses : schedule := connects ++
  [(1, 0); (1, 0); (0, 1); (0, 0); (0, 2); (0, 0); (0, 0); (0, 0); (0, 0); (0, 0); (0, 0); (0, 2); (0, 0); (0, 0);
   (2, 0); (2, 0); (3, 0); (3, 1); (3, 0); (3, 0)]%nat.
Example frame_lost : (fun s => (written (c_queue s.1), out (c_queue s.1), c_conn s.1, s.2)) <$> go [Start; Send 7 false; Send 8 false] loses =
  Some ([], [], Some 1%nat, [Serve 1; Sent (frame1 7 false); Sent (frame2 8 false); WriterEnd 0; ReadLoop 0; WriteLoop 1; ReadLoop 1]).
Proof. vm_compute. reflexivity. Qed.
(** A sender sees that there is a connection, the connection is lost and what was
    queued is cleared, and then it queues its frame: the next link begins with
    a frame that names a session of the last. For the Core that is a reason to
    close the link ([RemoteEdges.bad_message_ends_edge]). *)
Definition crosses : schedule := connects ++
  [(1, 0); (3, 0); (0, 0); (0, 0); (0, 0); (0, 0); (0, 0); (1, 0); (0, 0); (0, 2); (0, 0); (0, 0); (4, 0); (4, 0); (4, 0)]%nat.
Example old_frame_on_new_link : (fun s => (written (c_queue s.1), c_conn s.1)) <$> go [Start; Send 7 false] crosses = Some ([(1%nat, frame1 7 false)], Some 1%nat).
Proof. vm_compute. reflexivity. Qed.

(** The client is closed while a frame is on its way into the queue: of a queue
    with room and a closed client either is taken. *)
Definition ends : schedule := connects ++
  [(1, 0); (2, 0); (2, 0); (0, 3); (0, 0); (0, 0); (0, 0); (0, 0); (0, 2); (3, 1); (3, 0); (4, 0); (1, 0)]%nat.
(** A sender that asks to be told can wait for ever: its frame is accepted when
    nobody is left who writes or clears the queue, and it looks at nothing but
    the answer. *)
Theorem sender_stranded : exists ts0 l c ts i o, Forall starts ts0 /\ go ts0 l = Some (c, ts) /\ c_done c = true /\ ts !! i = Some (Await o) /\
  forall l' c' ts', run 1 0 (c, ts) l' = Some (c', ts') -> ts' !! i = Some (Await o).
Proof.
  destruct (go [Start; Send 7 true; Close] ends) as [[c ts]|] eqn:E; [|exfalso; vm_compute in E; discriminate E].
  exists [Start; Send 7 true; Close], ends, c, ts, 1%nat, (frame1 7 true). split; [by repeat constructor|]. split; [done|].
  vm_compute in E. injection E as <- <-. split; [done|]. split; [done|]. intros l' c' ts' R.
  refine (rest_run 1 0 l' _ _ _ R 1%nat _ eq_refl eq_refl). by repeat constructor.
Qed.
Lemma edge_link_sound_witness : exists c ts, go [Start; Send 7 true] well = Some (c, ts) /\ promise 1 (c_queue c) (role_of <$> ts) /\ map snd (written (c_queue c)) = [frame1 7 true].
Proof.
  assert (Forall (@starts Z) [Start; Send 7 true]) as H by (repeat constructor).
  destruct (go [Start; Send 7 true] well) as [[c ts]|] eqn:E; [|exfalso; vm_compute in E; discriminate E].
  destruct (edge_link_sound 1 0 [Start; Send 7 true] well c ts H E) as [_ P]. exists c, ts. split; [reflexivity|]. split; [exact P|].
  vm_compute in E. injection E as <- <-. reflexivity.
Defined.
End EdgeLink.
