(* ===== verification/CoreLink.v ===== *)
(** * The outbound queue of the Core for one edge

    [newEdgeWireConn], [send], [writeLoop], [run] and the part of [close] that
    concerns the queue, of [internal/cluster/remoteedgeserver.go], as goroutines
    that interleave. What frames say, and what the end of a link does to the
    sessions of the edge, is in [RemoteEdges].

    Each step is one of [LinkQueue], as at the other end of the link
    ([EdgeLink]); but here every connection has a queue of its own, and a sender
    that waits also looks at the end of the link. *)

From Stdlib Require Import ZArith Lia.
From stdpp Require Import base numbers list gmap option relations.
From S2P Require Import Prelude Wire Fields LinkQueue.

Module CoreLink.
Import LinkQueue.

Section CoreLink.
Context {V : Type} (QueueSize : nat) (heartbeat : V).

Record edgeWireConn := mkWireConn { e_queue : queue V; e_done : bool; e_open : bool }.
#[export] Instance edgeWireConn_eta : Eta edgeWireConn := fun e => mkWireConn (e_queue e) (e_done e) (e_open e).

(** Where a goroutine is. [Closing w]: in [close], [w] for the writer. *)
Inductive pc :=
  | Offer (v : V) (reliable : bool)    (* [send] *)
  | Await (o : frame V)
  | Sent (o : frame V)
  | Broken (o : frame V)
  | Refused (v : V)
  | Serve                              (* [serve], with the connection made *)
  | Run                                (* [run] *)
  | Beats
  | BeatOffer
  | BeatsEnd
  | WriteLoop                          (* [writeLoop] *)
  | Writing (o : frame V)
  | Answer (o : frame V) (ok : bool)
  | WriterEnd
  | Close (w : bool)                   (* [close] *)
  | HangUp (w : bool)
  | Closed.

Definition closed_by (w : bool) : pc := if w then WriterEnd else Closed.
(** One step. [b] says which case a select takes, or how the outside answers. *)
Definition tstep (e : edgeWireConn) (p : pc) (b : nat) : option (edgeWireConn * pc) :=
  match p with
  | Offer v reliable =>
      match b with
      | 0%nat => if full QueueSize (e_queue e) then None else
          let o := next_frame (e_queue e) v reliable in
          Some (e <| e_queue := put (e_queue e) o |>, if reliable then Await o else Sent o)
      | 1%nat => if e_done e then Some (e, Refused v) else None
      | _ => if full QueueSize (e_queue e) && negb (e_done e) then Some (e, Refused v) else None
      end
  | Await o =>
      match b with
      | 0%nat => match acks (e_queue e) !! fr_done o with Some ok => Some (e, if (ok : bool) then Sent o else Broken o) | None => None end
      | _ => if e_done e then Some (e, Broken o) else None
      end
  | Serve => match b with 0%nat => Some (e, Run) | _ => Some (e, Close false) end
  | Run => Some (e, Close false)
  | Beats =>
      match b with
      | 0%nat => Some (e, BeatOffer)
      | 1%nat => if e_done e then Some (e, BeatsEnd) else None
      | _ => Some (e, Close false)
      end
  | BeatOffer =>
      match b with
      | 0%nat => if full QueueSize (e_queue e) then None else Some (e <| e_queue := put (e_queue e) (next_frame (e_queue e) heartbeat false) |>, Beats)
      | 1%nat => if e_done e then Some (e, Beats) else None
      | _ => if full QueueSize (e_queue e) && negb (e_done e) then Some (e, Beats) else None
      end
  | WriteLoop =>
      match b with
      | 0%nat => match take_out (e_queue e) (Some 0%nat) with Some (q, o) => Some (e <| e_queue := q |>, Writing o) | None => None end
      | _ => if e_done e then Some (e, WriterEnd) else None
      end
  | Writing o =>
      match b with
      | 0%nat => if e_open e then Some (e <| e_queue := wrote (e_queue e) 0 o |>, Answer o true) else None
      | _ => Some (e, Answer o false)
      end
  | Answer o ok => match answer (e_queue e) o ok with Some q => Some (e <| e_queue := q |>, if ok then WriteLoop else Close true) | None => None end
  | Close w => if e_done e then Some (e, closed_by w) else Some (e <| e_done := true |>, HangUp w)
  | HangUp w => Some (e <| e_open := false |>, closed_by w)
  | Sent _ | Broken _ | Refused _ | BeatsEnd | WriterEnd | Closed => None
  end.
Definition step (s : edgeWireConn * list pc) (i b : nat) : option (edgeWireConn * list pc) :=
  let '(e, ts) := s in p ← ts !! i; '(e, p) ← tstep e p b; Some (e, <[i := p]> ts).
Fixpoint run (s : edgeWireConn * list pc) (schedule : list (nat * nat)) : option (edgeWireConn * list pc) :=
  match schedule with
  | [] => Some s
  | (i, b) :: schedule => s ← step s i b; run s schedule
  end.
(** A goroutine that will send or close, or the one that sends heartbeats; the
    first is the one that made the connection, and the last two are the writer
    and one that does nothing. *)
Definition starts (p : pc) : Prop := match p with Offer _ _ | Beats | Close false => True | _ => False end.
Definition newEdgeWireConn (ts : list pc) : edgeWireConn * list pc := (mkWireConn empty_queue false true, (Serve :: ts) ++ [WriteLoop; Closed]).
Definition writer (ts : list pc) : nat := S (length ts).

(** ** Every step is one of [LinkQueue] *)

Definition role_of (p : pc) : role V :=
  match p with
  | Await o => Waits o
  | Sent o => Succeeded o
  | Broken o => Failed o
  | WriteLoop => Looping 0
  | Writing o => Holds 0 o
  | Answer o ok => Says 0 o ok
  | Close true | HangUp true | WriterEnd => Gone 0
  | _ => Idle
  end.
Definition abstraction (s : edgeWireConn * list pc) : queue V * nat * list (role V) := (e_queue s.1, 1%nat, role_of <$> s.2).
Lemma core_tstep_spec e p b e' p' rs i : tstep e p b = Some (e', p') -> rs !! i = Some (role_of p) ->
  spec_step QueueSize (e_queue e, 1%nat, rs) (e_queue e', 1%nat, <[i := role_of p']> rs).
Proof.
  intros Ht Hi. destruct p; cbn in Ht; repeat case_match; simplify_eq; cbn in Hi |- *; try by apply spec_stay.
  - by apply (s_post _ _ _ _ _ v true).
  - by apply (s_post _ _ _ _ _ v false).
  - by apply (s_learn _ _ _ _ _ o true).
  - by apply (s_learn _ _ _ _ _ o false).
  - by apply s_give_up.
  - rewrite list_insert_id by done. by eapply s_beat.
  - by apply s_take.
  - by apply s_leave.
  - by apply s_wrote.
  - by apply s_broke.
  - by eapply (s_answer _ _ _ _ _ _ o true).
  - by eapply (s_answer _ _ _ _ _ _ o false).
  - destruct w; by apply spec_stay.
  - destruct w; by apply spec_stay.
Qed.
Lemma core_step_spec s i b s' : step s i b = Some s' -> spec_step QueueSize (abstraction s) (abstraction s').
Proof.
  destruct s as [e ts]. cbn. destruct (ts !! i) as [p|] eqn:Hi; [|done]. cbn. destruct (tstep e p b) as [[e' p']|] eqn:Ht; [|done]. cbn. intros [= <-].
  unfold abstraction. cbn [fst snd]. rewrite list_fmap_insert. apply (core_tstep_spec e p b); [done|]. by rewrite list_lookup_fmap, Hi.
Qed.

(** ** The invariant *)

Definition at_work (p : pc) : Prop := match p with WriteLoop | Writing _ | Answer _ _ | Close true => True | _ => False end.
(** [w] is the writer, and it is at work until the link is closed. *)
Record link_ok (w : nat) (s : edgeWireConn * list pc) : Prop := {
  l_spec : spec_ok QueueSize (abstraction s);
  l_writer : exists p, s.2 !! w = Some p /\ own (role_of p) = Some 0%nat /\ (e_done s.1 = false -> at_work p) }.
Lemma step_writer e (ts : list pc) p (i w : nat) b e' p' q : tstep e p b = Some (e', p') -> ts !! i = Some p -> ts !! w = Some q ->
  own (role_of q) = Some 0%nat -> (e_done e = false -> at_work q) ->
  exists q', <[i := p']> ts !! w = Some q' /\ own (role_of q') = Some 0%nat /\ (e_done e' = false -> at_work q').
Proof.
  intros Ht Hi Hw Ho Hd. assert (e_done e' = false -> e_done e = false) as Hm.
  { destruct p; cbn in Ht; repeat case_match; simplify_eq; first [done|congruence]. }
  destruct (decide (i = w)) as [->|Hne]; [|exists q; rewrite list_lookup_insert_ne by done; auto].
  assert (p = q) as -> by congruence. exists p'. rewrite list_lookup_insert_eq by (by eapply lookup_lt_Some). split; [done|].
  destruct q as [| | | | | | | | | | | | | |[]|[]|]; try done; cbn in Ht; repeat case_match; simplify_eq; try done; split; try done; intros F; cbn in F; try congruence; destruct (Hd (Hm F)).
Qed.
Lemma step_link_ok w s i b s' : step s i b = Some s' -> link_ok w s -> link_ok w s'.
Proof.
  intros St [H (q & Hw & Ho & Hd)]. split; [eapply spec_steps_ok; [|exact H]; apply rtc_once; by eapply core_step_spec|].
  destruct s as [e ts]. cbn in St. destruct (ts !! i) as [p|] eqn:Hi; [|done]. cbn in St. destruct (tstep e p b) as [[e' p']|] eqn:Ht; [|done]. cbn in St. injection St as <-.
  by eapply step_writer.
Qed.
Lemma run_link_ok w l : forall s s', run s l = Some s' -> link_ok w s -> link_ok w s'.
Proof.
  induction l as [|[i b] l IH]; intros s s'; cbn [run]; [by intros [= <-]|]. destruct (step s i b) as [s1|] eqn:E; [|done]. cbn.
  intros R O. eapply IH; [done|]. by eapply step_link_ok.
Qed.
Lemma new_link_ok ts : Forall starts ts -> link_ok (writer ts) (newEdgeWireConn ts).
Proof.
  intros H. split.
  - set (rs := role_of <$> (Serve :: ts)). assert (Forall (eq (@Idle V)) rs) as Hr.
    { constructor; [done|]. apply Forall_fmap. eapply Forall_impl; [|exact H]. intros [| | | | | | | | | | | | | |[]| |]; done. }
    assert (rs !! 0%nat = Some Idle) as H0 by done.
    assert (<[0%nat := Fresh 0]> rs !! 0%nat = Some (Fresh (V := V) 0)) as H1 by done.
    pose proof (spec_steps_ok QueueSize _ _ (rtc_l _ _ _ _ (s_connect _ _ _ _ _ H0) (rtc_once _ _ (s_launch _ _ _ _ _ _ H1))) (empty_queue_ok QueueSize rs Hr)) as O.
    unfold abstraction, newEdgeWireConn. cbn [fst snd e_queue]. rewrite fmap_app. exact O.
  - exists WriteLoop. split; [|done]. change ((ts ++ [WriteLoop; Closed]) !! length ts = Some WriteLoop). rewrite lookup_app_r by lia. by rewrite Nat.sub_diag.
Qed.

(** ** Whoever waits is answered *)

(** There is something to go on with. *)
Definition answered (e : edgeWireConn) (o : frame V) : Prop := is_Some (acks (e_queue e) !! fr_done o) \/ e_done e = true.
(** How many steps the writer needs at most for a frame and all before it. *)
Definition phase (p : pc) : nat := match p with Writing _ => 2 | Answer _ _ => 1 | _ => 0 end.
Definition ahead (w : nat) (s : edgeWireConn * list pc) (o : frame V) : nat :=
  (3 * (S (fr_done o) - length (taken (e_queue s.1))) + match s.2 !! w with Some p => phase p | None => 0 end)%nat.

Lemma only_writer w s i p : link_ok w s -> s.2 !! i = Some p -> own (role_of p) = Some 0%nat -> i = w.
Proof.
  intros [[[_ R] _] (q & Hw & Ho & _)] Hi Hp. apply (q_own _ _ _ R i w (role_of p) (role_of q) 0%nat); [..|done|done]; cbn; rewrite list_lookup_fmap; [by rewrite Hi|by rewrite Hw].
Qed.
(** At its loop, the writer finds a frame that is waited for. *)
Lemma writer_finds w e ts o : link_ok w (e, ts) -> ts !! w = Some WriteLoop -> o ∈ accepted (e_queue e) -> fr_reliable o = true -> ~ answered e o -> o ∈ out (e_queue e).
Proof.
  intros L Hw Ho Hr Hn. destruct (l_spec _ _ L) as [_ P]. destruct (P o Ho Hr) as [H|[(j & r & Hj & Hh)|H]]; [done|exfalso|destruct Hn; by left].
  cbn in Hj. rewrite list_lookup_fmap in Hj. destruct (ts !! j) as [p|] eqn:Hp; [|done]. cbn in Hj. injection Hj as <-.
  assert (own (role_of p) = Some 0%nat) as Hown by (destruct p as [| | | | | | | | | | | | | |[]|[]|]; done).
  rewrite (only_writer w _ j p L Hp Hown) in Hp. assert (p = WriteLoop) as -> by congruence. done.
Qed.
Lemma step_keeps s i b s' o : step s i b = Some s' -> o ∈ accepted (e_queue s.1) -> o ∈ accepted (e_queue s'.1).
Proof.
  destruct s as [e ts]. cbn. destruct (ts !! i) as [p|]; [|done]. cbn. destruct (tstep e p b) as [[e' p']|] eqn:Ht; [|done]. cbn. intros [= <-] Ho. cbn.
  destruct p; cbn in Ht; repeat case_match; simplify_eq; try done; try (cbn; apply elem_of_app; by left).
  - cbn. by match goal with H : take_out _ _ = Some _ |- _ => destruct (take_fields _ _ _ _ H) as (-> & _) end.
  - cbn. by match goal with H : answer _ _ _ = Some _ |- _ => destruct (answer_fields _ _ _ _ H) as (_ & -> & _) end.
  - cbn. by match goal with H : answer _ _ _ = Some _ |- _ => destruct (answer_fields _ _ _ _ H) as (_ & -> & _) end.
Qed.
Lemma step_answered s i b s' o : step s i b = Some s' -> answered s.1 o -> answered s'.1 o.
Proof.
  destruct s as [e ts]. cbn. destruct (ts !! i) as [p|]; [|done]. cbn. destruct (tstep e p b) as [[e' p']|] eqn:Ht; [|done]. cbn. intros [= <-] Ho. cbn.
  destruct p; cbn in Ht; repeat case_match; simplify_eq; try done; destruct Ho as [Ho|Ho]; try (by left); try (by right); left; cbn.
  - by match goal with H : take_out _ _ = Some _ |- _ => destruct (take_fields _ _ _ _ H) as (_ & -> & _) end.
  - by eapply answer_keeps.
  - by eapply answer_keeps.
Qed.
(** The writer comes nearer, nobody else pushes it back. *)
Lemma step_ahead w s i b s' o : link_ok w s -> o ∈ accepted (e_queue s.1) -> fr_reliable o = true -> ~ answered s.1 o -> step s i b = Some s' ->
  answered s'.1 o \/ (ahead w s' o + (if decide (i = w) then 1 else 0) <= ahead w s o)%nat.
Proof.
  intros L Ho Hr Hn. destruct s as [e ts]. cbn. destruct (ts !! i) as [p|] eqn:Hi; [|done]. cbn. destruct (tstep e p b) as [[e' p']|] eqn:Ht; [|done]. cbn. intros [= <-]. cbn.
  unfold ahead. cbn [fst snd]. destruct (decide (i = w)) as [->|Hne].
  - rewrite list_lookup_insert_eq by (by eapply lookup_lt_Some). rewrite Hi. destruct (l_writer _ _ L) as (q & Hw & Ho' & Hd). cbn in Hw, Hd. assert (q = p) as -> by congruence.
    assert (e_done e = false) as Hed by (destruct (e_done e) eqn:E; [destruct Hn; by right|done]). specialize (Hd Hed).
    destruct p as [| | | | | | | | | | | | | |[]|[]|]; try done; cbn in Ht; repeat case_match; simplify_eq; try (right; cbn; lia); try (left; by right).
    + right. match goal with H : take_out _ _ = Some _ |- _ => destruct (take_fields _ _ _ _ H) as (_ & _ & _ & E & _) end. cbn. rewrite E, length_app. cbn.
      pose proof (queue_place _ _ _ o (proj1 (proj1 (l_spec _ _ L))) (writer_finds w e ts o L Hi Ho Hr Hn)) as Hp. cbn in Hp. lia.
    + right. match goal with H : answer _ _ _ = Some _ |- _ => destruct (answer_fields _ _ _ _ H) as (_ & _ & E & _) end. cbn. rewrite E. lia.
    + right. match goal with H : answer _ _ _ = Some _ |- _ => destruct (answer_fields _ _ _ _ H) as (_ & _ & E & _) end. cbn. rewrite E. lia.
  - rewrite list_lookup_insert_ne by done. right. assert (own (role_of p) <> Some 0%nat) as Hown by (intros F; apply Hne; by apply (only_writer w (e, ts) i p)).
    assert (taken (e_queue e') = taken (e_queue e)) as ->; [|lia]. destruct p; try done; cbn in Ht; repeat case_match; simplify_eq; done.
Qed.
(** How often a goroutine has its turn. *)
Definition turns (i : nat) (l : list (nat * nat)) : nat := length (filter (fun x => x.1 = i) l).
Lemma turns_cons i j b l : turns i ((j, b) :: l) = ((if decide (j = i) then 1 else 0) + turns i l)%nat.
Proof. unfold turns. destruct (decide (j = i)); [by rewrite list.filter_cons_True|by rewrite list.filter_cons_False]. Qed.
Lemma run_answered w l : forall s s' o, link_ok w s -> o ∈ accepted (e_queue s.1) -> fr_reliable o = true -> run s l = Some s' ->
  (ahead w s o < turns w l)%nat -> answered s'.1 o.
Proof.
  assert (forall l s s' o, run s l = Some s' -> answered s.1 o -> answered s'.1 o) as Hstay.
  { clear l. induction l as [|[i b] l IH]; intros s s' o; cbn [run]; [by intros [= <-]|]. destruct (step s i b) as [s1|] eqn:E; [|done]. cbn. intros R Ha. eapply IH; [done|]. by eapply step_answered. }
  induction l as [|[i b] l IH]; intros s s' o L Ho Hr; cbn [run]; [unfold turns; cbn; lia|]. destruct (step s i b) as [s1|] eqn:E; [|done]. cbn [mbind option_bind]. intros R Ht. rewrite turns_cons in Ht.
  assert (Decision (answered s.1 o)) as Dec by (unfold answered; apply _). destruct Dec as [Ha|Ha]; [eapply Hstay; [exact R|]; by eapply step_answered|].
  destruct (step_ahead w s i b s1 o L Ho Hr Ha E) as [Ha'|Hle]; [by eapply Hstay|]. apply (IH s1 s'); [by eapply step_link_ok|by eapply step_keeps|done|done|].
  lia.
Qed.

(** C23: on a link of the Core whoever waits to be told is told. However the
    goroutines interleave, the link keeps the order within the capacity, as
    [LinkQueue] promises, and a sender that waits goes on at its next turn once
    its frame is answered for or the link is closed; until then the writer is
    never blocked, and in any schedule that gives it [3 * QueueSize + 3] turns,
    whatever becomes of its writes, one of the two comes true. *)
Theorem core_send_returns ts0 l e ts i o :
  Forall starts ts0 -> run (newEdgeWireConn ts0) l = Some (e, ts) ->
  promise QueueSize (e_queue e) (role_of <$> ts) /\
  (ts !! i = Some (Await o) ->
   (answered e o -> exists b p, step (e, ts) i b = Some (e, <[i := p]> ts) /\ (p = Sent o \/ p = Broken o)) /\
   (~ answered e o -> exists b, is_Some (step (e, ts) (writer ts0) b)) /\
   (forall l' e' ts', run (e, ts) l' = Some (e', ts') -> (3 * QueueSize + 3 <= turns (writer ts0) l')%nat -> answered e' o)).
Proof.
  intros H R. pose proof (run_link_ok _ _ _ _ R (new_link_ok ts0 H)) as L. pose proof (spec_promise _ _ _ _ (l_spec _ _ L)) as P. split; [exact P|].
  intros Hi. destruct (q_roles _ _ _ (proj2 (proj1 (l_spec _ _ L))) i (Waits o)) as (_ & [Ho Hr] & _); [cbn; by rewrite list_lookup_fmap, Hi|].
  cbn in Ho. apply list_elem_of_lookup_2 in Ho. split; [|split].
  - intros [[ok Ha]|Hd].
    + exists 0%nat, (if ok then Sent o else Broken o). unfold step. rewrite Hi. cbn. rewrite Ha. cbn. destruct ok; auto.
    + exists 1%nat, (Broken o). unfold step. rewrite Hi. cbn. rewrite Hd. cbn. auto.
  - intros Hn. destruct (l_writer _ _ L) as (p & Hw & Hown & Hd). cbn in Hw, Hd.
    assert (e_done e = false) as Hed by (destruct (e_done e) eqn:E; [destruct Hn; by right|done]). specialize (Hd Hed). unfold step. rewrite Hw.
    destruct p as [| | | | | | | | | | |x|x ok| |[]|[]|]; try done; cbn.
    + exists 0%nat. pose proof (writer_finds _ e ts o L Hw Ho Hr Hn) as Hin. unfold take_out. destruct (out (e_queue e)); [by apply elem_of_nil in Hin|by eexists].
    + exists 1%nat. by eexists.
    + exists 0%nat. destruct (p_tells _ _ _ P (role_of (Answer x ok)) x ok) as [q' Ha]; [apply list_elem_of_fmap_2; by eapply list_elem_of_lookup_2|done|].
      cbn in Ha. rewrite Ha. by eexists.
    + exists 0%nat. rewrite Hed. by eexists.
  - intros l' e' ts' R' Ht. apply (run_answered (writer ts0) l' (e, ts) (e', ts')); [done..|]. unfold ahead. cbn [fst snd].
    pose proof (queue_length _ _ _ o (proj1 (proj1 (l_spec _ _ L))) Ho) as Hl. pose proof (p_bound _ _ _ P) as Hb. cbn in Hl, Hb.
    assert (match ts !! writer ts0 with Some p => phase p | None => 0%nat end <= 2)%nat by (destruct (ts !! writer ts0) as [[]|]; cbn; lia). lia.
Qed.
End CoreLink.
Arguments pc : clear implicits.

(** ** Samples

    Frames are numbers, a heartbeat is 0, and there is room for one. *)

Definition frame1 (v : Z) : frame Z := mkFrame v true 0.
Definition senders : list (pc Z) := [Offer 7 true; Offer 8 false; Offer 9 false].
Definition go (l : list (nat * nat)) := run 1 0 (newEdgeWireConn senders) l.
Definition queued : list (nat * nat) := [(1, 0); (2, 2)]%nat.
Definition six_turns : list (nat * nat) := [(4, 0); (4, 0); (4, 0); (3, 0); (4, 0); (4, 0); (4, 0)]%nat.
Example full_queue : (fun s => (out (e_queue s.1), s.2)) <$> go queued = Some ([frame1 7], [Serve; Await (frame1 7); Refused 8; Offer 9 false; WriteLoop; Closed]).
Proof. vm_compute. reflexivity. Qed.
Example in_order : (fun s => (map (fun x => fr_value x.2) (written (e_queue s.1)), s.2 !! 1%nat)) <$> go (queued ++ six_turns ++ [(1, 0)]%nat) = Some ([7; 9], Some (Sent (frame1 7))).
Proof. vm_compute. reflexivity. Qed.
(** A write fails, and the link is closed for all. *)
Example write_fails : (fun s => (e_done s.1, written (e_queue s.1), s.2)) <$> go (queued ++ [(4, 0); (4, 1); (4, 0); (3, 0); (4, 0); (4, 0); (1, 0)]%nat) =
  Some (true, [], [Serve; Broken (frame1 7); Refused 8; Sent (mkFrame 9 false 1); WriterEnd; Closed]).
Proof. vm_compute. reflexivity. Qed.
Lemma core_send_returns_witness : exists e ts e' ts', go queued = Some (e, ts) /\ ts !! 1%nat = Some (Await (frame1 7)) /\
  ~ is_Some (acks (e_queue e) !! 0%nat) /\ run 1 0 (e, ts) six_turns = Some (e', ts') /\ answered e' (frame1 7).
Proof.
  assert (Forall (@starts Z) senders) as H by (repeat constructor).
  destruct (go queued) as [[e ts]|] eqn:E; [|exfalso; vm_compute in E; discriminate E].
  assert (ts !! 1%nat = Some (Await (frame1 7))) as Hi by (vm_compute in E; injection E as <- <-; reflexivity).
  destruct (run 1 0 (e, ts) six_turns) as [[e' ts']|] eqn:R; [|exfalso; vm_compute in E; injection E as <- <-; vm_compute in R; discriminate R].
  exists e, ts, e', ts'. split; [reflexivity|]. split; [exact Hi|]. split; [vm_compute in E; injection E as <- <-; vm_compute; intros [x F]; discriminate F|]. split; [exact R|].
  destruct (core_send_returns 1 0 senders queued e ts 1%nat (frame1 7) H E) as [_ F]. destruct (F Hi) as (_ & _ & G).
  apply (G six_turns e' ts' R). vm_compute. lia.
Defined.
End CoreLink.
