(* ===== verification/EdgeRuntime.v ===== *)
(** * An edge in a process of its own

    [internal/edge/edgeruntime.go] behind the loop of [internal/connection/conn.go]
    and the router of [ingress.go]: an edge keeps the connections of clients and
    their voice addresses, asks the Core who a client is, relays what the Core
    decides, and delivers what the Core sends.

    A handler is not interrupted, except where it waits for the Core's answer to
    a login: there it is left ([handleAuthenticate]) and taken up again
    ([resume]), and anything may happen meanwhile. The goroutine that closes a
    connection after its last message is a task in [closing]. *)

From Stdlib Require Import ZArith Lia String.
From stdpp Require Import base numbers list gmap sets option.
From S2P Require Import Prelude Wire Fields Messages Codec AudioVarint AudioPacket AudioCache CryptState Registry VoiceServer UdpIngress Login Ingress RemoteWire RemoteCore.

Module EdgeRuntime.
Import VoiceServer Login Ingress RemoteWire RemoteCore.

(** ** State *)

Record coreSession := mkCoreSession { cs_sessionID : Z; cs_generation : Z; cs_cryptoMode : gostring }.
Definition core_ref (s : coreSession) : SessionRef := mkRef (cs_sessionID s) (cs_generation s).
Definition no_session : coreSession := mkCoreSession 0 0 [].

(** [EdgeRuntime] over the connections, which are references. The session
    number of a connection is its reference at this edge, its generation that of
    the session at the Core. *)
Record Runtime := mkRuntime {
  clients : gmap loc Client;
  next_client : loc;
  conns : gmap Z loc;
  sessions : gmap Z coreSession;
  bySession : gmap SessionRef Z;
  udpBySession : gmap SessionRef gostring;
  sessionByAddr : gmap gostring SessionRef;
  nextRef : Z;
  udp : bool;
  closing : list loc }.
#[export] Instance Runtime_eta : Eta Runtime := fun e =>
  mkRuntime (clients e) (next_client e) (conns e) (sessions e) (bySession e) (udpBySession e) (sessionByAddr e) (nextRef e) (udp e) (closing e).
Definition NewEdgeRuntime (bound : bool) : Runtime := mkRuntime ∅ 0%nat ∅ ∅ ∅ ∅ ∅ 0 bound [].
Definition put_client (e : Runtime) (l : loc) (c : Client) : Runtime := e <| clients := <[l := c]> (clients e) |>.

Definition is_closed (c : Client) : bool := match cl_state c with ConnClosed => true | _ => false end.
Definition is_active (c : Client) : bool := match cl_state c with ConnActive => true | _ => false end.
Definition is_new (c : Client) : bool := match cl_state c with StateAuthenticating => true | _ => false end.
(** A message is queued: the connection is not closed and has room. *)
Definition queues (env : Env) (l : loc) (c : Client) : bool := negb (is_closed c) && room env l.

(** ** The end of a connection *)

Definition OnClose (env : Env) (rc : RemoteCoreClient) (e : Runtime) (l : loc) (c : Client) : Runtime * list edge_out :=
  let ref := SessionID (cl_session c) in
  if ref =? 0 then (e, []) else
  if negb (bool_decide (conns e !! ref = Some l)) then (e, []) else
  let '(e, session) := match sessions e !! ref with
    | Some s =>
        let session := core_ref s in
        let e := e <| bySession := delete session (bySession e) |> in
        let e := match udpBySession e !! session with Some addr => e <| sessionByAddr := delete addr (sessionByAddr e) |> | None => e end in
        (e <| udpBySession := delete session (udpBySession e) |>, session)
    | None => (e, noSession)
    end in
  let e := e <| conns := delete ref (conns e) |> <| sessions := delete ref (sessions e) |> in
  (e, if Valid session then Disconnect rc (up_takes env) session else []).
(** [Conn.Close]. *)
Definition close_conn (env : Env) (rc : RemoteCoreClient) (e : Runtime) (l : loc) : Runtime * list edge_out :=
  match clients e !! l with
  | Some c =>
      if is_closed c then (e, []) else
      let '(e, es) := OnClose env rc (put_client e l (c <| cl_state := ConnClosed |>)) l c in (e, HungUp l :: es)
  | None => (e, [])
  end.
(** [CoreDisconnected]: the connections in the order of the map. *)
Fixpoint close_all (env : Env) (rc : RemoteCoreClient) (e : Runtime) (ls : list loc) : Runtime * list edge_out :=
  match ls with
  | [] => (e, [])
  | l :: ls => let '(e, e1) := close_conn env rc e l in let '(e, e2) := close_all env rc e ls in (e, e1 ++ e2)
  end.
Definition coreDisconnected (env : Env) (rc : RemoteCoreClient) (e : Runtime) : Runtime * list edge_out :=
  close_all env rc e (map snd (map_to_list (conns e))).

(** ** What the Core sends *)

(** The connection a session is kept for; a missing number is 0. *)
Definition conn_at (e : Runtime) (rf : SessionRef) : option loc := conns e !! default 0 (bySession e !! rf).
Definition deliverControl (env : Env) (m : ControlWire) (e : Runtime) : Runtime * list edge_out :=
  let rf := cw_Session m in
  let connID := default 0 (bySession e !! rf) in
  let s := default no_session (sessions e !! connID) in
  match bySession e !! rf, conns e !! connID with
  | Some _, Some l =>
      if negb (cs_sessionID s =? SessionID rf) || negb (cs_generation s =? Generation rf) then (e, []) else
      if MessageCount <=? cw_MessageType m then (e, []) else
      match clients e !! l with
      | Some c =>
          if negb (queues env l c) then (e, []) else
          (if cw_MessageType m =? MessageServerConfig then put_client e l (c <| cl_state := ConnActive |>) else e, [WriteRaw l (cw_MessageType m) (cw_Payload m)])
      | None => (e, [])
      end
  | _, _ => (e, [])
  end.
Definition flushControl (env : Env) (rf : SessionRef) (e : Runtime) : option core_error :=
  match conn_at e rf with
  | None => Some ErrStale
  | Some l => if flushes env l then None else Some ErrFlushTimeout
  end.
Definition closeSession (rf : SessionRef) (e : Runtime) : Runtime :=
  match conn_at e rf with
  | None => e
  | Some l => e <| closing := closing e ++ [l] |>
  end.

Section EdgeRuntime.
Context (aesE aesD : bytes -> bytes -> bytes) (gcmSeal : bytes -> bytes -> bytes -> bytes) (gcmOpen : bytes -> bytes -> bytes -> option bytes).
Context (SplitHostPort : gostring -> option gostring) (limits : UdpIngress.Limits).
(** The order in which [range] visits [bySession]. *)
Context (ordS : list (SessionRef * Z) -> list (SessionRef * Z)).
Notation decrypt := (DecryptPacket aesE aesD gcmOpen).
Notation encrypt := (EncryptPacket aesE gcmSeal).
Implicit Types (e : Runtime) (env : Env) (rc : RemoteCoreClient).

Definition set_crypt e (l : loc) (c : Client) (cr : CryptState) : Runtime := put_client e l (c <| cl_Crypt := Some cr |>).
Definition write_udp env e (l : loc) (c : Client) (cr : CryptState) (packet : bytes) (addr : gostring) : Runtime * option edge_out :=
  let '(cr', enc, err) := encrypt cr (UdpIngress.blank (zlen packet + Overhead cr)) packet in
  (set_crypt e l c cr', match err with None => Some (WriteTo enc addr) | Some _ => None end).
Definition deliver_one env (f : Frame) e (cache : option EncodingCache) (r : VoiceRecipient) : Runtime * option EncodingCache * list edge_out :=
  let rf := br_Session r in
  match bySession e !! rf, conn_at e rf with
  | Some _, Some l =>
      match clients e !! l with
      | Some c =>
          if negb (is_active c) then (e, cache, []) else
          match Encode cache (cl_wireMode c) (mkDelivery (f <| HasPosition := br_HasPosition r |>) (br_Context r) (br_Volume r)) with
          | (Err _, cache) => (e, cache, [])
          | (Ok packet, cache) =>
              let tunnel e := (e, cache, if queues env l c then [WriteRaw l MessageUDPTunnel packet] else []) in
              match udpBySession e !! rf, cl_Crypt c with
              | Some addr, Some cr =>
                  if br_ForceTunnel r || negb (udp e) then tunnel e else
                  match write_udp env e l c cr packet addr with
                  | (e, Some o) => if udp_takes env addr then (e, cache, [o]) else tunnel e
                  | (e, None) => tunnel e
                  end
              | _, _ => tunnel e
              end
          end
      | None => (e, cache, [])
      end
  | _, _ => (e, cache, [])
  end.
Fixpoint deliver_all env (f : Frame) e (cache : option EncodingCache) (rs : list VoiceRecipient) : Runtime * list edge_out :=
  match rs with
  | [] => (e, [])
  | r :: rs => let '(e, cache, e1) := deliver_one env f e cache r in let '(e, e2) := deliver_all env f e cache rs in (e, e1 ++ e2)
  end.
Definition deliverVoice env (b : VoiceBatch) e : Runtime * list edge_out := deliver_all env (b_Frame b) e (Some NewEncodingCache) (b_Recipients b).

#[export] Instance edge_delivery : RemoteDelivery Runtime := {|
  DeliverControl := deliverControl;
  FlushControl := flushControl;
  DeliverVoice := deliverVoice;
  CloseSession := closeSession;
  CoreDisconnected := coreDisconnected |}.

(** ** The edge and its link *)

Record waiter := mkWaiter { w_conn : loc; w_ref : Z; w_user : gostring }.
Record Edge := mkEdge { rt : Runtime; core : RemoteCoreClient; waiting : gmap Z waiter }.
#[export] Instance Edge_eta : Eta Edge := fun g => mkEdge (rt g) (core g) (waiting g).
Inductive client_error := WireErr (err : wire_error) | AudioErr (err : audio_error) | CoreErr (err : core_error) | CryptErr (err : crypto_error) | WriteErr.
Implicit Types (g : Edge).
Definition with_rt g e : Edge := mkEdge e (core g) (waiting g).

(** ** A client logs in *)

Definition attach e (l : loc) (c : Client) : Runtime * Client * Z :=
  let ref := SessionID (cl_session c) in
  if negb (ref =? 0) && bool_decide (conns e !! ref = Some l) then (e, c, ref) else
  let ref := u32 (nextRef e + 1) in
  let c := c <| cl_session := mkRef ref (Generation (cl_session c)) |> in
  ((put_client e l c) <| nextRef := ref |> <| conns := <[ref := l]> (conns e) |>, c, ref).
Definition SendReject env e (l : loc) (c : Client) (typ : Z) (reason : gostring) : Runtime * list edge_out * option client_error :=
  (e <| closing := closing e ++ [l] |>, if queues env l c then [WriteMessage l (MReject (Reject.mk typ reason))] else [], if queues env l c then None else Some WriteErr).
Definition handleAuthenticate env g (l : loc) (c : Client) (payload : bytes) : Edge * list edge_out * option client_error :=
  match Authenticate.Unmarshal Authenticate.zero payload with
  | (_, Some err) => (g, [], Some (WireErr err))
  | (m, None) =>
      if bool_decide (Authenticate.Username m = []) then
        let '(e, es, err) := SendReject env (rt g) l c RejectInvalidUsername (str "Username required"%string) in (with_rt g e, es, err)
      else
        let '(e, c, ref) := attach (rt g) l c in
        let f := mkForward ref (mkAuthRequest (Authenticate.Username m) (Authenticate.Password m) (Authenticate.Tokens m) (cl_certHash c) (cl_verified c)
          (remote_ip SplitHostPort c) (cl_version c)) (cl_cryptoModes c) in
        match Authenticate_begin (core g) (up_takes env) f with
        | (rc, es, Ok id) => (mkEdge e rc (<[id := mkWaiter l ref (Authenticate.Username m)]> (waiting g)), es, None)
        | (rc, es, Err err) =>
            let '(e, es', err) := SendReject env e l c RejectAuthenticatorFail (str "Core unavailable"%string) in (mkEdge e rc (waiting g), es ++ es', err)
        end
  end.

Definition negotiateRemoteCrypto (c : Client) : Mode :=
  let modes := if cl_cryptoModes c =? 0 then 2 else cl_cryptoModes c in
  if negb (Z.land modes 4 =? 0) && (cl_tls13 c && cl_hasCert c) then ModeSecure else
  if negb (Z.land modes 2 =? 0) then ModeLegacy else
  if negb (Z.land modes 1 =? 0) then ModeLite else ModeLegacy.
Definition remoteCryptMaterial (random : nat -> Z -> bytes) (m : Mode) : bytes * bytes * bytes :=
  match m with
  | ModeSecure => (random 0%nat 32, random 1%nat 12, random 2%nat 12)
  | ModeLegacy => (random 0%nat 16, random 1%nat 16, random 2%nat 16)
  | ModeLite => ([], [], [])
  end.
(** The Core has accepted: the keys go out, and the session is adopted. *)
Definition adopt env (random : nat -> Z -> bytes) g (w : waiter) (c : Client) (session : SessionRef) (username : gostring) : Edge * list edge_out * option client_error :=
  let l := w_conn w in
  let m := negotiateRemoteCrypto c in
  let '(key, enc, dec) := remoteCryptMaterial random m in
  let '(cr, err) := SetKey (NewCryptState m) key enc dec in
  let c := c <| cl_Crypt := Some cr |> in
  let g := with_rt g (put_client (rt g) l c) in
  match err with
  | Some err => (g, [], Some (CryptErr err))
  | None =>
      if negb (queues env l c) then (g, [], Some WriteErr) else
      let setup := WriteMessage l (MCryptSetup (CryptSetup.mk (Some key) dec enc)) in
      let cryptoName := cryptoModeString m in
      let e := rt g in
      let e := e <| sessions := <[w_ref w := mkCoreSession (SessionID session) (Generation session) cryptoName]> (sessions e) |> <| bySession := <[session := w_ref w]> (bySession e) |> in
      let c := c <| cl_session := mkRef (SessionID (cl_session c)) (Generation session) |> in
      let c := c <| cl_userName := if bool_decide (username = []) then w_user w else username |> in
      let e := put_client e l c in
      match transportReadyWithMode (core g) (up_takes env) (w_ref w) session cryptoName with
      | (es, None) => (with_rt g e, setup :: es, None)
      | (es, Some _) =>
          let '(e, es', err) := SendReject env e l c RejectAuthenticatorFail (str "Core unavailable"%string) in (with_rt g e, setup :: es ++ es', err)
      end
  end.
(** [handleAuthenticate] from the answer on; [None] as long as it waits. *)
Definition resume env (random : nat -> Z -> bytes) (pick : bool) (id : Z) g : option (Edge * list edge_out * option client_error) :=
  w ← waiting g !! id;
  c ← clients (rt g) !! w_conn w;
  '(rc, r) ← Authenticate_end (core g) pick id (w_ref w);
  let g := mkEdge (rt g) rc (delete id (waiting g)) in
  let reject typ reason := let '(e, es, err) := SendReject env (rt g) (w_conn w) c typ reason in (with_rt g e, es, err) in
  Some match r with
  | Err _ => reject RejectAuthenticatorFail (str "Core unavailable"%string)
  | Ok result =>
      if au_Rejected result then reject (au_RejectType result) (au_RejectReason result) else
      let session := mkRef (au_SessionID result) (au_Generation result) in
      if negb (Valid session) then reject RejectAuthenticatorFail (str "Invalid Core session"%string)
      else adopt env random g w c session (au_Username result)
  end.

(** ** What a client sends *)

Definition handleVersion (c : Client) (payload : bytes) : Client * option wire_error :=
  if zlen payload =? 0 then (c, None) else
  match Version.Unmarshal Version.zero payload with
  | (_, Some err) => (c, Some err)
  | (v, None) => (NegotiateAudioWireMode (c <| cl_cryptoModes := Version.CryptoModes v |> <| cl_version := UdpIngress.ClientVersionFull v |>) ProtocolVersionV2, None)
  end.
Definition handleUDPTunnel env g (c : Client) (payload : bytes) : list edge_out * option client_error :=
  if negb (is_active c) then ([], None) else
  match DecodeClientPacket (cl_wireMode c) payload with
  | (_, Some err) => ([], Some (AudioErr err))
  | (f, None) =>
      match sessions (rt g) !! SessionID (cl_session c) with
      | None => ([], None)
      | Some s => let '(es, err) := VoiceUp (core g) (up_takes env) (core_ref s) f in (es, CoreErr <$> err)
      end
  end.
Definition HandleEdgeMessage env g (l : loc) (c : Client) (kind : Z) (payload : bytes) : Edge * list edge_out * option client_error :=
  if kind =? MessageVersion then let '(c, err) := handleVersion c payload in (with_rt g (put_client (rt g) l c), [], WireErr <$> err)
  else if kind =? MessageAuthenticate then handleAuthenticate env g l c payload
  else if kind =? MessageCryptSetup then
    let '(u, ms, err) := UdpIngress.CryptSetupResync (conn_of c) payload in
    (with_rt g (put_client (rt g) l (c <| cl_Crypt := UdpIngress.conn_Crypt u |>)), if queues env l c then map (WriteMessage l) ms else [], WireErr <$> err)
  else if kind =? MessageUDPTunnel then let '(es, err) := handleUDPTunnel env g c payload in (g, es, err)
  else (g, [], None).
Definition HandleCoreMessage env g (l : loc) (c : Client) (kind : Z) (payload : bytes) : Edge * list edge_out * option client_error :=
  let ref := SessionID (cl_session c) in
  if ref =? 0 then (g, [], None) else
  if negb (bool_decide (conns (rt g) !! ref = Some l)) then (g, [], None) else
  let '(es, err) := ForwardControl (core g) (up_takes env) ref kind payload in (g, es, CoreErr <$> err).
(** [replyPing]; this edge has no reporter. *)
Definition replyPing env (nowMicro : Z) (l : loc) (c : Client) (payload : bytes) : list edge_out :=
  let answer stamp :=
    let stamp := if stamp =? 0 then u64 nowMicro else stamp in
    let '(good, late, lost, resync) := match cl_Crypt c with Some cr => Stats cr | None => (0, 0, 0, 0) end in
    if queues env l c then [WriteMessage l (MPing (Ping.mk stamp good late lost resync 0 0 0 0 0 0))] else [] in
  if 0 <? zlen payload then
    match Ping.Unmarshal Ping.zero payload with
    | (_, Some _) => []
    | (p, None) => answer (Ping.Timestamp p)
    end
  else answer 0.
(** A round of [Run] on a message that was read. *)
Definition received env (nowMicro : Z) g (l : loc) (kind : Z) (payload : bytes) : Edge * list edge_out * option client_error :=
  match clients (rt g) !! l with
  | None => (g, [], None)
  | Some c =>
      if is_closed c then (g, [], None) else
      if is_new c && negb (kind =? MessageVersion) && negb (kind =? MessageAuthenticate) then (g, [], None) else
      if kind =? MessagePing then (g, replyPing env nowMicro l c payload, None) else
      if MessageCount <=? kind then (g, [], None) else
      if bool_decide (OwnershipOf kind = OwnershipCore) then HandleCoreMessage env g l c kind payload
      else HandleEdgeMessage env g l c kind payload
  end.

(** ** Datagrams *)

Definition try_crypt e (l : loc) (c : Client) (cr : CryptState) (buf data : bytes) : Runtime * bytes * option bytes :=
  let '(cr', buf, err) := decrypt cr buf data in
  (set_crypt e l c cr', buf, match err with None => Some (ztake (zlen data - Overhead cr) buf) | Some _ => None end).
(** The session that last sent from this address. Without a crypt state the
    buffer stays as it is. *)
Definition by_cache e (addr : gostring) (buf data : bytes) : Runtime * bytes * option (loc * SessionRef * bytes) :=
  match sessionByAddr e !! addr with
  | None => (e, buf, None)
  | Some cached =>
      match (match bySession e !! cached with Some connID => conns e !! connID | None => None end) with
      | None => (e, buf, None)
      | Some l =>
          match clients e !! l with
          | None => (e, buf, None)
          | Some c =>
              match cl_Crypt c with
              | None => (e, buf, Some (l, cached, buf))
              | Some cr => match try_crypt e l c cr buf data with
                  | (e, buf, Some plain) => (e, buf, Some (l, cached, plain))
                  | (e, buf, None) => (e, buf, None)
                  end
              end
          end
      end
  end.
Fixpoint try_all (candidates : list (SessionRef * Z)) e (buf data : bytes) : Runtime * option (loc * SessionRef * bytes) :=
  match candidates with
  | [] => (e, None)
  | (rf, connID) :: candidates =>
      match (l ← conns e !! connID; c ← clients e !! l; cr ← cl_Crypt c; Some (l, c, cr)) with
      | None => try_all candidates e buf data
      | Some (l, c, cr) =>
          if negb (is_active c) then try_all candidates e buf data else
          match try_crypt e l c cr buf data with
          | (e, _, Some plain) => (e, Some (l, rf, plain))
          | (e, buf, None) => try_all candidates e buf data
          end
      end
  end.
Definition identify e (addr : gostring) (data : bytes) : Runtime * option (loc * SessionRef * bytes) :=
  match by_cache e addr (UdpIngress.blank (zlen data + 64)) data with
  | (e, _, Some found) => (e, Some found)
  | (e, buf, None) => try_all (ordS (map_to_list (bySession e))) e buf data
  end.
Definition HandleUDP env g (addr : gostring) (data : bytes) : Edge * list edge_out :=
  let e := rt g in
  let userCount := Z.of_nat (size (sessions e)) in
  let out o := if udp e then [o] else [] in
  match UdpIngress.PlainPingReply data userCount (UdpIngress.MaxUsers limits) (UdpIngress.MaxBandwidth limits) with
  | Some reply => (g, out (WriteTo reply addr))
  | None =>
      match identify e addr data with
      | (e, None) => (with_rt g e, [])
      | (e, Some (l, rf, plain)) =>
          if zlen plain =? 0 then (with_rt g e, []) else
          let e := e <| udpBySession := <[rf := addr]> (udpBySession e) |> <| sessionByAddr := <[addr := rf]> (sessionByAddr e) |> in
          match clients e !! l with
          | None => (with_rt g e, [])
          | Some c =>
              let wire := cl_wireMode c in
              if UdpIngress.is_ping wire plain then
                match UdpIngress.ping_answer limits userCount wire plain, cl_Crypt c with
                | Some answer, Some cr => let '(e, o) := write_udp env e l c cr answer addr in (with_rt g e, match o with Some o => out o | None => [] end)
                | _, _ => (with_rt g e, [])
                end
              else
                match DecodeClientPacket wire plain with
                | (f, None) => (with_rt g e, (VoiceUp (core g) (up_takes env) rf f).1)
                | (_, Some _) => (with_rt g e, [])
                end
          end
      end
  end.

(** ** What happens to an edge *)

Inductive edge_event :=
  | Accepted (addr : option gostring) (ip : option bytes) (certHash : gostring) (verified tls13 hasCert : bool)
  | Received (l : loc) (nowMicro : Z) (kind : Z) (payload : bytes)
  | Resumed (id : Z) (random : nat -> Z -> bytes) (pick : bool)
  | ReadFailed (l : loc)
  | Flushed (n : nat)
  | Datagram (addr : gostring) (data : bytes)
  | Dialed (raw : loc) (answer : WireEnvelope)
  | CoreSends (raw : loc) (frame : option WireEnvelope)
  | Ticks (raw : loc)
  | Ends (raw : loc)
  | Closes.

(** [acceptLoop]: the banner is the first message. *)
Definition ProtocolVersionV1 : Z := Z.lor (Z.shiftl 1 16) (Z.shiftl 5 8).
Definition BannerCryptoModes : Z := 7.
Definition banner : Version.t :=
  Version.zero <| Version.VersionV1 := ProtocolVersionV1 |> <| Version.VersionV2 := ProtocolVersionV2 |> <| Version.Release := str "go-mumble-server"%string |>
    <| Version.OS := str "Go"%string |> <| Version.OSVersion := str "1.0"%string |> <| Version.CryptoModes := BannerCryptoModes |>.
Definition accept env e (c : Client) : Runtime * list edge_out :=
  let l := next_client e in
  ((put_client e l c) <| next_client := S l |>, if queues env l c then [WriteMessage l (MVersion banner)] else []).
(** The loop of a connection stands in a handler. *)
Definition busy g (l : loc) : bool := existsb (fun iw => bool_decide (w_conn iw.2 = l)) (map_to_list (waiting g)).

Context `{J : JSON} `{CJ : CoreJSON}.
Definition on_link g (r : RemoteCoreClient * Runtime * list edge_out) : Edge * list edge_out := let '(rc, e, es) := r in (mkEdge e rc (waiting g), es).
Definition on_rt g (r : Runtime * list edge_out) : Edge * list edge_out := let '(e, es) := r in (with_rt g e, es).
Definition step env g (ev : edge_event) : Edge * list edge_out :=
  match ev with
  | Accepted addr ip certHash verified tls13 hasCert => on_rt g (accept env (rt g) (New_client addr ip certHash verified tls13 hasCert))
  | Received l now kind payload => if busy g l then (g, []) else (received env now g l kind payload).1
  | Resumed id random pick => match resume env random pick id g with Some (g, es, _) => (g, es) | None => (g, []) end
  | ReadFailed l => if busy g l then (g, []) else on_rt g (close_conn env (core g) (rt g) l)
  | Flushed n =>
      match closing (rt g) !! n with
      | Some l => on_rt g (close_conn env (core g) ((rt g) <| closing := delete n (closing (rt g)) |>) l)
      | None => (g, [])
      end
  | Datagram addr data => HandleUDP env g addr data
  | Dialed raw answer => match rc_conn (core g) with Some _ => (g, []) | None => on_link g (connected env (core g) (rt g) raw answer).1 end
  | CoreSends raw frame => if bool_decide (rc_conn (core g) = Some raw) then on_link g (serve_frame env (core g) (rt g) raw frame) else (g, [])
  | Ticks raw => if bool_decide (rc_conn (core g) = Some raw) then on_link g (serve_tick env (core g) (rt g) raw) else (g, [])
  | Ends raw => if bool_decide (rc_conn (core g) = Some raw) then on_link g (serve_end env (core g) (rt g) raw) else (g, [])
  | Closes => (mkEdge (rt g) (Close (core g)) (waiting g), [])
  end.
Fixpoint run g (evs : list (Env * edge_event)) : Edge * list edge_out :=
  match evs with
  | [] => (g, [])
  | (env, ev) :: evs => let '(g, e1) := step env g ev in let '(g, e2) := run g evs in (g, e1 ++ e2)
  end.
Definition start (bound : bool) : Edge := mkEdge (NewEdgeRuntime bound) NewRemoteCoreClient ∅.

End EdgeRuntime.
End EdgeRuntime.
