(* ===== verification/EdgeSafety.v ===== *)
(** * What an edge process guarantees

    The invariant of [EdgeRuntime] over everything that can happen to an edge,
    and that the edge keeps what [RemoteCore] relies on: a frame of the Core
    goes to the connection its session was given to and to no other, and when
    the link is lost no session survives. *)

From Stdlib Require Import ZArith Lia String.
From stdpp Require Import base numbers list gmap sets option.
From S2P Require Import Prelude Wire Fields Messages Codec AudioVarint AudioPacket AudioCache CryptState Registry VoiceServer UdpIngress Login Ingress RemoteWire RemoteCore EdgeRuntime.

Module EdgeSafety.
Import VoiceServer Login Ingress RemoteWire RemoteCore EdgeRuntime.

(** ** The invariant of the runtime *)

Record rt_ok (e : Runtime) : Prop := {
  r_conns : forall ref l, conns e !! ref = Some l -> 1 <= ref <= nextRef e /\ exists c, clients e !! l = Some c /\ is_closed c = false /\ SessionID (cl_session c) = ref;
  r_attached : forall l c, clients e !! l = Some c -> is_closed c = false -> SessionID (cl_session c) <> 0 -> conns e !! SessionID (cl_session c) = Some l;
  r_active : forall l c, clients e !! l = Some c -> is_active c = true -> is_Some (sessions e !! SessionID (cl_session c));
  r_sessions : forall ref s, sessions e !! ref = Some s -> Valid (core_ref s) = true /\
    exists l c, conns e !! ref = Some l /\ clients e !! l = Some c /\ Generation (cl_session c) = cs_generation s;
  r_by : forall rf ref, bySession e !! rf = Some ref -> Valid rf = true;
  r_fresh : forall l c, clients e !! l = Some c -> (l < next_client e)%nat;
  r_range : 0 <= nextRef e < 2 ^ 32 }.

Definition open_conn (e : Runtime) (l : loc) : Prop := exists c, clients e !! l = Some c /\ is_closed c = false /\ SessionID (cl_session c) <> 0.
(** A session is kept for a connection. *)
Definition kept_for (e : Runtime) (rf : SessionRef) (l : loc) : Prop := exists ref, bySession e !! rf = Some ref /\ conns e !! ref = Some l.

(** What only concerns voice addresses and tasks. *)
Lemma rt_ok_other e e' : rt_ok e -> clients e' = clients e -> next_client e' = next_client e -> conns e' = conns e -> sessions e' = sessions e -> nextRef e' = nextRef e -> bySession e' = bySession e -> rt_ok e'.
Proof. intros [H1 H2 H3 H4 H7 H5 H6] E1 E2 E3 E4 E5 E6. split; rewrite ?E1, ?E2, ?E3, ?E4, ?E5, ?E6; done. Qed.
(** A connection changes, but not its session nor whether it is closed. *)
Lemma put_client_ok e l c c' : rt_ok e -> clients e !! l = Some c -> cl_session c' = cl_session c -> is_closed c' = is_closed c ->
  (is_active c' = true -> is_active c = true \/ is_Some (sessions e !! SessionID (cl_session c))) -> rt_ok (put_client e l c').
Proof.
  intros [H1 H2 H3 H4 H7 H5 H6] Hl Hs Hc Ha. assert (forall l0 c0, clients (put_client e l c') !! l0 = Some c0 -> l0 = l /\ c0 = c' \/ clients e !! l0 = Some c0) as Hput.
  { intros l0 c0. change (clients (put_client e l c')) with (<[l := c']> (clients e)). intros [[-> ->]|[_ ?]]%lookup_insert_Some; auto. }
  assert (forall l0 c0, clients e !! l0 = Some c0 -> exists c1, clients (put_client e l c') !! l0 = Some c1 /\ is_closed c1 = is_closed c0 /\ cl_session c1 = cl_session c0) as Hget.
  { intros l0 c0 H0. change (clients (put_client e l c')) with (<[l := c']> (clients e)). destruct (decide (l0 = l)) as [->|Hn].
    - rewrite lookup_insert_eq. exists c'. assert (c0 = c) as -> by congruence. done.
    - rewrite lookup_insert_ne by done. by exists c0. }
  split.
  - intros ref l0 H0. destruct (H1 ref l0 H0) as (Hr & c0 & Hc0 & Ho & Hs0). split; [done|]. destruct (Hget _ _ Hc0) as (c1 & ? & ? & E). exists c1. rewrite E. by split; [|split; congruence].
  - intros l0 c0 [[-> ->]|H0]%Hput Ho Hz; [|by apply H2]. rewrite Hs in *. apply H2; congruence.
  - intros l0 c0 [[-> ->]|H0]%Hput Ho; [|by eapply H3]. rewrite Hs. destruct (Ha Ho); [by eapply H3|done].
  - intros ref s H0. destruct (H4 ref s H0) as (Hv & l0 & c0 & ? & Hc0 & Hg). split; [done|]. destruct (Hget _ _ Hc0) as (c1 & ? & _ & E). exists l0, c1. by rewrite E.
  - done.
  - intros l0 c0 [[-> ->]|H0]%Hput; by eapply H5.
  - done.
Qed.

Section EdgeSafety.
Context (aesE aesD : bytes -> bytes -> bytes) (gcmSeal : bytes -> bytes -> bytes -> bytes) (gcmOpen : bytes -> bytes -> bytes -> option bytes).
Context (SplitHostPort : gostring -> option gostring) (limits : UdpIngress.Limits) (ordS : list (SessionRef * Z) -> list (SessionRef * Z)).
Implicit Types (e : Runtime) (env : Env) (rc : RemoteCoreClient) (g : Edge).

(** ** Closing *)

Lemma OnClose_frame env rc e l c : let e' := (OnClose env rc e l c).1 in
  clients e' = clients e /\ next_client e' = next_client e /\ nextRef e' = nextRef e /\ closing e' = closing e /\ (forall rf ref, bySession e' !! rf = Some ref -> bySession e !! rf = Some ref) /\
  (if negb (SessionID (cl_session c) =? 0) && bool_decide (conns e !! SessionID (cl_session c) = Some l)
   then conns e' = delete (SessionID (cl_session c)) (conns e) /\ sessions e' = delete (SessionID (cl_session c)) (sessions e)
   else conns e' = conns e /\ sessions e' = sessions e).
Proof.
  unfold OnClose. destruct (_ =? 0); [done|]. cbn [negb andb]. destruct (bool_decide _); [|done]. cbn [negb]. destruct (sessions e !! _) as [s|] eqn:Es; [|by destruct (Valid _)].
  assert (forall rf ref, delete (core_ref s) (bySession e) !! rf = Some ref -> bySession e !! rf = Some ref) as Hd by (intros rf ref [_ ?]%lookup_delete_Some; done). destruct (udpBySession _ !! _); done.
Qed.
Lemma Disconnect_up rc takes rf o : o ∈ Disconnect rc takes rf -> o = Up WireDisconnect 0 (UEvent (mkEvent 0 rf [])).
Proof. unfold Disconnect, send. destruct (rc_conn rc); [|by intros ?%elem_of_nil]. destruct takes; cbn; [by intros ->%list_elem_of_singleton|by intros ?%elem_of_nil]. Qed.
Lemma OnClose_out env rc e l c o : o ∈ (OnClose env rc e l c).2 -> exists rf, o = Up WireDisconnect 0 (UEvent (mkEvent 0 rf [])).
Proof.
  unfold OnClose. destruct (_ =? 0); [by intros ?%elem_of_nil|]. destruct (negb _); [by intros ?%elem_of_nil|]. destruct (sessions e !! _) as [s|]; cbv zeta iota beta; cbn [snd]; destruct (Valid _); first [by intros ?%elem_of_nil|intros H%Disconnect_up; eauto].
Qed.

(** A connection that was open is closed, and with it all that was kept for it. *)
Lemma close_conn_spec env rc e l : rt_ok e -> let '(e', es) := close_conn env rc e l in
  rt_ok e' /\ (forall l', open_conn e' l' <-> open_conn e l' /\ l' <> l) /\ nextRef e' = nextRef e /\
  (forall l' c', clients e' !! l' = Some c' -> exists c, clients e !! l' = Some c /\ cl_session c' = cl_session c /\ (is_closed c = true -> is_closed c' = true) /\ (l' = l -> is_closed c' = true)) /\
  (forall l' c, clients e !! l' = Some c -> is_Some (clients e' !! l')) /\
  (forall o, o ∈ es -> match o with HungUp _ | Up _ _ _ => True | _ => False end).
Proof.
  intros R. pose proof R as [H1 H2 H3 H4 H7 H5 H6]. unfold close_conn. destruct (clients e !! l) as [c|] eqn:Hl.
  2:{ split; [done|]. split. { intros l'. split; [|tauto]. intros Ho. split; [done|]. intros ->. destruct Ho as (c & ? & _). congruence. }
      split; [done|]. split; [|split]. - intros l' c' ?. exists c'. repeat split; [done|done|]. intros ->. congruence. - eauto. - by intros o ?%elem_of_nil. }
  destruct (is_closed c) eqn:Ec.
  { split; [done|]. split. { intros l'. split; [|tauto]. intros Ho. split; [done|]. intros ->. destruct Ho as (c0 & ? & ? & _). congruence. }
    split; [done|]. split; [|split]. - intros l' c' ?. exists c'. repeat split; [done|done|]. intros ->. congruence. - eauto. - by intros o ?%elem_of_nil. }
  set (c' := c <| cl_state := ConnClosed |>). pose proof (OnClose_frame env rc (put_client e l c') l c) as F. pose proof (OnClose_out env rc (put_client e l c') l c) as Out.
  destruct (OnClose env rc (put_client e l c') l c) as [e' es]. cbn [fst snd] in F, Out. destruct F as (F1 & F2 & F3 & _ & F5 & F4). change (clients (put_client e l c')) with (<[l := c']> (clients e)) in F1.
  change (conns (put_client e l c')) with (conns e) in F4. change (sessions (put_client e l c')) with (sessions e) in F4. change (nextRef (put_client e l c')) with (nextRef e) in F3. change (next_client (put_client e l c')) with (next_client e) in F2.
  set (ref := SessionID (cl_session c)) in *.
  assert (conns e' = delete ref (conns e) /\ sessions e' = delete ref (sessions e)) as [Fc Fs].
  { destruct (Z.eqb_spec ref 0) as [Hz|Hz]; cbn [negb andb] in F4.
    - assert (conns e !! ref = None) as Hn. { destruct (conns e !! ref) eqn:E; [|done]. apply H1 in E as [E _]. lia. }
      rewrite !delete_id; [done| |done]. destruct (sessions e !! ref) eqn:E; [|done]. apply H4 in E as (_ & ? & ? & ? & _). congruence.
    - rewrite bool_decide_true in F4; [done|]. by apply H2. }
  assert (forall l0 c0, clients e' !! l0 = Some c0 -> l0 = l /\ c0 = c' \/ l0 <> l /\ clients e !! l0 = Some c0) as Hput by (intros l0 c0; rewrite F1; intros [[-> ->]|[? ?]]%lookup_insert_Some; auto).
  assert (forall l0 c0, clients e !! l0 = Some c0 -> l0 <> l -> clients e' !! l0 = Some c0) as Hget by (intros l0 c0 ? ?; rewrite F1; by rewrite lookup_insert_ne).
  assert (forall ref' l', conns e !! ref' = Some l' -> l' = l -> ref' = ref) as Hinj. { intros ref' l' H0 ->. destruct (H1 _ _ H0) as (_ & c0 & ? & _ & <-). unfold ref. congruence. }
  split; [|split; [|split; [done|split; [|split]]]].
  - split; rewrite ?F2, ?F3, ?Fc, ?Fs.
    + intros ref' l' [Hne H0]%lookup_delete_Some. destruct (H1 _ _ H0) as (? & c0 & Hc0 & ? & ?). split; [done|]. exists c0. split; [|done]. apply Hget; [done|]. intros ->. apply Hne. symmetry. by eapply Hinj.
    + intros l0 c0 [[-> ->]|[Hne H0]]%Hput Ho Hz; [done|]. rewrite lookup_delete_ne; [by apply H2|]. intros E. apply Hne. assert (conns e !! ref = Some l) as Hl' by (apply H2; [done|done|unfold ref in *; congruence]). specialize (H2 _ _ H0 Ho Hz). congruence.
    + intros l0 c0 [[-> ->]|[Hne H0]]%Hput Ha; [done|]. pose proof (H3 _ _ H0 Ha) as [s Hs]. rewrite lookup_delete_ne; [by exists s|]. intros E. apply Hne. destruct (H4 _ _ Hs) as (_ & l1 & _ & [? _]%H1 & _).
      assert (conns e !! ref = Some l) as Hl' by (apply H2; [done|done|unfold ref in *; lia]).
      assert (conns e !! SessionID (cl_session c0) = Some l0) as Hl0 by (apply H2; [done|by destruct (cl_state c0) eqn:Est; unfold is_active, is_closed in *; rewrite Est in *|lia]). congruence.
    + intros ref' s [Hne H0]%lookup_delete_Some. destruct (H4 _ _ H0) as (? & l0 & c0 & ? & ? & ?). split; [done|]. exists l0, c0. rewrite lookup_delete_ne by done. repeat split; [done| |done]. apply Hget; [done|]. intros ->. apply Hne. symmetry. by eapply Hinj.
    + intros rf ref' H0%F5. by apply (H7 rf ref').
    + intros l0 c0 [[-> ->]|[Hne H0]]%Hput; by eapply H5.
    + done.
  - intros l'. split.
    + intros (c0 & [[-> ->]|[Hne H0]]%Hput & Ho & Hz); [done|]. split; [by exists c0|done].
    + intros [(c0 & H0 & Ho & Hz) Hne]. exists c0. split; [by apply Hget|done].
  - intros l' c0 [[-> ->]|[Hne H0]]%Hput; [by exists c|]. by exists c0.
  - intros l' c0 H0. rewrite F1. destruct (decide (l' = l)) as [->|Hn]; [rewrite lookup_insert_eq|rewrite lookup_insert_ne by done]; eauto.
  - intros o [->|[rf ->]%Out]%elem_of_cons; done.
Qed.

(** How the connections of an edge are found again later: same sessions, none
    opened, none lost. *)
Definition survives (e e' : Runtime) : Prop :=
  (forall l c', clients e' !! l = Some c' -> exists c, clients e !! l = Some c /\ cl_session c' = cl_session c /\ (is_closed c = true -> is_closed c' = true)) /\
  (forall l, is_Some (clients e !! l) -> is_Some (clients e' !! l)).
Lemma survives_refl e : survives e e.
Proof. split; [|done]. intros l c ?. by exists c. Qed.
Lemma survives_trans e1 e2 e3 : survives e1 e2 -> survives e2 e3 -> survives e1 e3.
Proof.
  intros [A1 B1] [A2 B2]. split; [|auto]. intros l c3 H3. destruct (A2 _ _ H3) as (c2 & H2 & S2 & X2). destruct (A1 _ _ H2) as (c1 & H1 & S1 & X1). exists c1. repeat split; [done|congruence|auto].
Qed.
Lemma survives_open e e' l : survives e e' -> open_conn e' l -> open_conn e l.
Proof.
  intros [A _] (c' & Hc' & Ho & Hz). destruct (A _ _ Hc') as (c & Hc & Hs & Hx). exists c. rewrite <- Hs. repeat split; [done| |done]. destruct (is_closed c); [|done]. by rewrite Hx in Ho.
Qed.
Lemma close_all_spec env rc ls : forall e, rt_ok e -> let '(e', es) := close_all env rc e ls in
  rt_ok e' /\ (forall l', open_conn e' l' <-> open_conn e l' /\ l' ∉ ls) /\ nextRef e' = nextRef e /\ survives e e' /\
  (forall o, o ∈ es -> match o with HungUp _ | Up _ _ _ => True | _ => False end).
Proof.
  induction ls as [|l ls IH]; intros e R; cbn [close_all].
  - split; [done|]. split; [intros l'; split; [intros ?; split; [done|apply not_elem_of_nil]|tauto]|]. split; [done|]. split; [apply survives_refl|by intros o ?%elem_of_nil].
  - pose proof (close_conn_spec env rc e l R) as H. destruct (close_conn env rc e l) as [e1 es1]. destruct H as (R1 & O1 & N1 & S1 & X1 & E1).
    specialize (IH e1 R1). destruct (close_all env rc e1 ls) as [e2 es2]. destruct IH as (R2 & O2 & N2 & S2 & E2). split; [done|]. split; [|split; [congruence|split]].
    + intros l'. rewrite O2, O1, not_elem_of_cons. tauto.
    + eapply survives_trans; [|exact S2]. split; [|by intros l' [c ?]; eapply X1]. intros l' c' H'. destruct (S1 _ _ H') as (c & ? & ? & ? & _). by exists c.
    + intros o [?|?]%elem_of_app; [by apply E1|by apply E2].
Qed.
(** When the Core is lost no connection that ever asked to log in stays open. *)
Lemma coreDisconnected_spec env rc e : rt_ok e -> let '(e', es) := coreDisconnected env rc e in
  rt_ok e' /\ (forall l, ~ open_conn e' l) /\ conns e' = ∅ /\ nextRef e' = nextRef e /\ survives e e' /\
  (forall o, o ∈ es -> match o with HungUp _ | Up _ _ _ => True | _ => False end).
Proof.
  intros R. unfold coreDisconnected. pose proof (close_all_spec env rc (map snd (map_to_list (conns e))) e R) as H. destruct (close_all _ _ _ _) as [e' es]. destruct H as (R' & O & N & S & E).
  assert (forall l, ~ open_conn e' l) as Hno.
  { intros l [(c & Hc & Ho & Hz) Hl]%O. apply Hl. change (l ∈ (snd <$> map_to_list (conns e))). apply list_elem_of_fmap. exists (SessionID (cl_session c), l). split; [done|]. apply elem_of_map_to_list. by apply (r_attached e R). }
  split; [done|]. split; [done|]. split; [|done]. apply map_empty. intros ref. destruct (conns e' !! ref) as [l|] eqn:El; [|done]. exfalso. destruct (r_conns e' R' _ _ El) as (Hr & c & Hc & Ho & Hs). apply (Hno l). exists c. repeat split; [done|done|lia].
Qed.

(** ** Ciphers *)

(** Only the state of ciphers differs. *)
Record recrypted (e e' : Runtime) : Prop := {
  re_conns : conns e' = conns e;
  re_sessions : sessions e' = sessions e;
  re_bySession : bySession e' = bySession e;
  re_nextRef : nextRef e' = nextRef e;
  re_next : next_client e' = next_client e;
  re_clients : forall l, option_Forall2 (fun c c' => exists cr, c' = c <| cl_Crypt := cr |>) (clients e !! l) (clients e' !! l) }.
Lemma recrypted_refl e : recrypted e e.
Proof. split; [done..|]. intros l. destruct (clients e !! l) as [c|]; constructor. exists (cl_Crypt c). by destruct c. Qed.
Lemma recrypted_trans e1 e2 e3 : recrypted e1 e2 -> recrypted e2 e3 -> recrypted e1 e3.
Proof.
  intros [A1 B1 C1 D1 E1 F1] [A2 B2 C2 D2 E2 F2]. split; [congruence..|]. intros l. specialize (F1 l). specialize (F2 l). destruct F1 as [c1 c2 [cr ->]|]; inversion F2 as [? c3 [cr3 ->]|]; subst; constructor. by exists cr3.
Qed.
Lemma set_crypt_re e l c cr : clients e !! l = Some c -> recrypted e (set_crypt e l c cr).
Proof.
  intros Hl. split; [done..|]. intros l'. change (clients (set_crypt e l c cr)) with (<[l := c <| cl_Crypt := Some cr |>]> (clients e)). destruct (decide (l' = l)) as [->|Hn].
  - rewrite lookup_insert_eq, Hl. constructor. eauto.
  - rewrite lookup_insert_ne by done. apply (re_clients e e), recrypted_refl.
Qed.
Lemma recrypted_put e e' l c : recrypted e e' -> clients e' !! l = Some c -> exists c0 cr, clients e !! l = Some c0 /\ c = c0 <| cl_Crypt := cr |>.
Proof. intros H Hl. pose proof (re_clients _ _ H l) as F. rewrite Hl in F. inversion F as [c0 ? [cr ?]|]; subst. eauto. Qed.
Lemma recrypted_get e e' l c : recrypted e e' -> clients e !! l = Some c -> exists cr, clients e' !! l = Some (c <| cl_Crypt := cr |>).
Proof. intros H Hl. pose proof (re_clients _ _ H l) as F. rewrite Hl in F. inversion F as [? c0 [cr ?]|]; subst. eauto. Qed.
Lemma recrypted_ok e e' : recrypted e e' -> rt_ok e -> rt_ok e'.
Proof.
  intros H [H1 H2 H3 H4 H7 H5 H6]. pose proof H as [A B C D F _]. split; rewrite ?A, ?B, ?C, ?D, ?F; [| | | |done| |done].
  - intros ref l Hr. destruct (H1 _ _ Hr) as (? & c & Hc & ? & ?). split; [done|]. destruct (recrypted_get _ _ _ _ H Hc) as [cr ?]. by eexists.
  - intros l c Hc. destruct (recrypted_put _ _ _ _ H Hc) as (c0 & cr & H0 & ->). exact (H2 _ _ H0).
  - intros l c Hc. destruct (recrypted_put _ _ _ _ H Hc) as (c0 & cr & H0 & ->). exact (H3 _ _ H0).
  - intros ref s Hr. destruct (H4 _ _ Hr) as (? & l & c & ? & Hc & ?). split; [done|]. destruct (recrypted_get _ _ _ _ H Hc) as [cr ?]. exists l. by eexists.
  - intros l c Hc. destruct (recrypted_put _ _ _ _ H Hc) as (c0 & cr & H0 & ->). exact (H5 _ _ H0).
Qed.
Lemma recrypted_open e e' l : recrypted e e' -> open_conn e' l -> open_conn e l.
Proof. intros H (c & Hc & Ho & Hz). destruct (recrypted_put _ _ _ _ H Hc) as (c0 & cr & H0 & ->). by exists c0. Qed.
Lemma recrypted_survives e e' : recrypted e e' -> survives e e'.
Proof.
  intros H. split.
  - intros l c Hc. destruct (recrypted_put _ _ _ _ H Hc) as (c0 & cr & H0 & ->). by exists c0.
  - intros l [c Hc]. destruct (recrypted_get _ _ _ _ H Hc) as [cr ?]. by eexists.
Qed.
Lemma recrypted_kept e e' rf l : recrypted e e' -> kept_for e' rf l <-> kept_for e rf l.
Proof. intros [A _ C _ _ _]. unfold kept_for. by rewrite A, C. Qed.

(** ** Voice *)

Lemma write_udp_rt env e l c cr packet addr : clients e !! l = Some c -> let '(e', o) := write_udp aesE gcmSeal env e l c cr packet addr in
  recrypted e e' /\ match o with Some (WriteTo _ a) => a = addr | Some _ => False | None => True end.
Proof. intros Hl. unfold write_udp. destruct (EncryptPacket _ _ _ _ _) as [[cr' enc] err]. split; [by apply set_crypt_re|by destruct err]. Qed.
Definition voice_out (rf : SessionRef) e (o : edge_out) : Prop :=
  exists l, kept_for e rf l /\ match o with WriteRaw l' k _ => l' = l /\ k = MessageUDPTunnel | WriteTo _ a => udpBySession e !! rf = Some a | _ => False end.
Lemma deliver_one_rt env f e cache r : let '(e', _, es) := deliver_one aesE gcmSeal env f e cache r in
  recrypted e e' /\ udpBySession e' = udpBySession e /\ (forall o, o ∈ es -> voice_out (br_Session r) e o).
Proof.
  assert (recrypted e e /\ udpBySession e = udpBySession e /\ (forall o, o ∈ [] -> voice_out (br_Session r) e o)) as Hnone by (split; [apply recrypted_refl|split; [done|by intros o ?%elem_of_nil]]).
  unfold deliver_one. unfold conn_at. destruct (bySession e !! br_Session r) as [ref|] eqn:Hb; [|done]. change (default 0 (Some ref)) with ref. destruct (conns e !! ref) as [l|] eqn:Hl; [|done]. destruct (clients e !! l) as [c|] eqn:Hc; [|done].
  destruct (negb (is_active c)); [done|]. destruct (Encode _ _ _) as [[packet|] cache']; [|done].
  assert (kept_for e (br_Session r) l) as Hk by (exists ref; done).
  assert (forall o, o ∈ (if queues env l c then [WriteRaw l MessageUDPTunnel packet] else []) -> voice_out (br_Session r) e o) as Ht.
  { destruct (queues env l c); [|by intros o ?%elem_of_nil]. intros o ->%list_elem_of_singleton. by exists l. }
  assert (recrypted e e /\ udpBySession e = udpBySession e) as [Hre _] by (split; [apply recrypted_refl|done]).
  destruct (udpBySession e !! br_Session r) as [addr|] eqn:Ha; [|done]. destruct (cl_Crypt c) as [cr|]; [|done]. destruct (_ || _); [done|].
  pose proof (write_udp_rt env e l c cr packet addr Hc) as W. assert (udpBySession (write_udp aesE gcmSeal env e l c cr packet addr).1 = udpBySession e) as Hu by (unfold write_udp; by destruct (EncryptPacket _ _ _ _ _) as [[? ?] ?]).
  destruct (write_udp _ _ _ _ _ _ _ _ _) as [e' [o|]]; cbn [fst] in Hu; destruct W as [W1 W2]; [|done]. destruct (udp_takes env addr); [|done]. split; [done|]. split; [done|].
  intros o' ->%list_elem_of_singleton. exists l. split; [done|]. destruct o; try done. by subst.
Qed.
Lemma deliver_all_spec env f rs : forall e cache, let '(e', es) := deliver_all aesE gcmSeal env f e cache rs in
  recrypted e e' /\ udpBySession e' = udpBySession e /\ (forall o, o ∈ es -> exists r, r ∈ rs /\ voice_out (br_Session r) e o).
Proof.
  induction rs as [|r rs IH]; intros e cache; cbn [deliver_all].
  - split; [apply recrypted_refl|]. split; [done|by intros o ?%elem_of_nil].
  - pose proof (deliver_one_rt env f e cache r) as H. destruct (deliver_one _ _ _ _ _ _ _) as [[e1 cache1] es1]. destruct H as (R1 & U1 & O1). specialize (IH e1 cache1). destruct (deliver_all _ _ _ _ _ _ _) as [e2 es2]. destruct IH as (R2 & U2 & O2).
    split; [by eapply recrypted_trans|]. split; [congruence|]. intros o [Ho|Ho]%elem_of_app.
    + exists r. split; [left|by apply O1].
    + destruct (O2 o Ho) as (r' & ? & l & Hk & Hm). exists r'. split; [by right|]. exists l. rewrite <- (recrypted_kept e e1) by done. split; [done|]. by rewrite <- U1.
Qed.

(** The packet of a recipient in the format of its connection. *)
Definition voice_packet (f : Frame) (r : VoiceRecipient) (c : Client) : result audio_error bytes :=
  EncodeServerPacket (cl_wireMode c) (mkDelivery (f <| HasPosition := br_HasPosition r |>) (br_Context r) (br_Volume r)).
(** A recipient whose active connection is kept and has room, and whose packet
    can be encoded. *)
Definition hears env e (f : Frame) (r : VoiceRecipient) : Prop :=
  exists l c packet, kept_for e (br_Session r) l /\ clients e !! l = Some c /\ is_active c = true /\ room env l = true /\ voice_packet f r c = Ok packet.
(** What the cipher of a connection is made of: only its counters move when it
    encrypts. *)
Definition cipher (cr : CryptState) : Mode * option bytes * option bytes := (mode cr, legacyBlock cr, secureAEAD cr).
Definition rekeyed (e e' : Runtime) : Prop := forall l, (fun c => cipher <$> cl_Crypt c) <$> clients e' !! l = (fun c => cipher <$> cl_Crypt c) <$> clients e !! l.
Lemma encrypt_cipher cr dst packet : cipher (EncryptPacket aesE gcmSeal cr dst packet).1.1 = cipher cr.
Proof. unfold EncryptPacket, encryptLegacy, encryptSecure. by repeat case_match. Qed.
(** A recipient's packet: into the stream of the connection kept for it, or
    encrypted with the keys of that connection, as a datagram to the address
    noted for it. *)
Definition voice_sent e (f : Frame) (r : VoiceRecipient) (o : edge_out) : Prop :=
  exists l c, kept_for e (br_Session r) l /\ clients e !! l = Some c /\
    match o with
    | WriteRaw l' k packet => l' = l /\ k = MessageUDPTunnel /\ voice_packet f r c = Ok packet
    | WriteTo data a => udpBySession e !! br_Session r = Some a /\ exists packet cr cr', voice_packet f r c = Ok packet /\
        cipher <$> cl_Crypt c = Some (cipher cr) /\ EncryptPacket aesE gcmSeal cr (UdpIngress.blank (zlen packet + Overhead cr)) packet = (cr', data, None)
    | _ => False
    end.
Lemma recrypted_hears env e e' f r : recrypted e e' -> hears env e f r -> hears env e' f r.
Proof.
  intros R (l & c & packet & Hk & Hc & Ha & Hr & Hp). pose proof (re_clients _ _ R l) as Hl. rewrite Hc in Hl. inversion Hl as [? c' [cr Hcr] Hx Hc'|]; subst.
  exists l, (c <| cl_Crypt := cr |>), packet. split; [by apply (recrypted_kept e e' _ _ R)|]. done.
Qed.
Lemma recrypted_sent e e' f r o : recrypted e e' -> rekeyed e e' -> udpBySession e' = udpBySession e -> voice_sent e' f r o -> voice_sent e f r o.
Proof.
  intros R K U (l & c' & Hk & Hc & Hm). pose proof (re_clients _ _ R l) as Hl. specialize (K l). rewrite Hc in Hl, K. inversion Hl as [c ? [cr Hcr] Hx Hc'|]; subst.
  rewrite <- Hx in K. injection K as K. exists l, c. split; [by apply (recrypted_kept e e' _ _ R)|]. split; [done|]. destruct o; try done.
  destruct Hm as [Ha (packet & cr1 & cr2 & Hp & Hq & He)]. split; [by rewrite <- U|]. exists packet, cr1, cr2. split; [exact Hp|]. split; [|done]. cbn in K. rewrite <- K. exact Hq.
Qed.
Lemma deliver_one_exact env f e c0 r : cache_ok f c0 -> let '(e', cache, es) := deliver_one aesE gcmSeal env f e (Some c0) r in
  recrypted e e' /\ rekeyed e e' /\ udpBySession e' = udpBySession e /\ (exists c1, cache = Some c1 /\ cache_ok f c1) /\
  ((es = [] /\ ~ hears env e f r) \/ exists o, es = [o] /\ voice_sent e f r o).
Proof.
  intros K. pose proof (deliver_one_rt env f e (Some c0) r) as Hrt. destruct (deliver_one aesE gcmSeal env f e (Some c0) r) as [[e' cache] es] eqn:E. destruct Hrt as (R & U & _).
  split; [done|]. enough (rekeyed e e' /\ (exists c1, cache = Some c1 /\ cache_ok f c1) /\ ((es = [] /\ ~ hears env e f r) \/ exists o, es = [o] /\ voice_sent e f r o)) by naive_solver.
  revert E. unfold deliver_one, conn_at. destruct (bySession e !! br_Session r) as [ref|] eqn:Hb.
  2:{ intros [= <- <- <-]. split; [done|]. split; [by exists c0|]. left. split; [done|]. intros (l & c & p & (ref & ? & _) & _). congruence. }
  cbn [default from_option]. change (id ref) with ref. destruct (conns e !! ref) as [l|] eqn:Hl.
  2:{ intros [= <- <- <-]. split; [done|]. split; [by exists c0|]. left. split; [done|]. intros (l & c & p & (ref' & ? & ?) & _). congruence. }
  assert (kept_for e (br_Session r) l) as Hk by (by exists ref). assert (forall l', kept_for e (br_Session r) l' -> l' = l) as Hkl by (intros l' (ref' & ? & ?); congruence).
  destruct (clients e !! l) as [c|] eqn:Hc.
  2:{ intros [= <- <- <-]. split; [done|]. split; [by exists c0|]. left. split; [done|]. intros (l' & c & p & ->%Hkl & ? & _). congruence. }
  destruct (is_active c) eqn:Ha; cbn [negb].
  2:{ intros [= <- <- <-]. split; [done|]. split; [by exists c0|]. left. split; [done|]. intros (l' & c' & p & ->%Hkl & ? & ? & _). congruence. }
  set (d := mkDelivery _ _ _). destruct (Encode_ok f c0 (cl_wireMode c) d K eq_refl) as (He & c1 & Hc1 & K1).
  destruct (Encode (Some c0) (cl_wireMode c) d) as [res cache']. cbn [fst snd] in He, Hc1. subst cache'. change (res = voice_packet f r c) in He. destruct res as [packet|err].
  2:{ intros [= <- <- <-]. split; [done|]. split; [by exists c1|]. left. split; [done|]. intros (l' & c' & p & ->%Hkl & ? & _ & _ & Hp). assert (c' = c) as -> by congruence. congruence. }
  assert (forall e1, rekeyed e e1 -> (e1, Some c1, if queues env l c then [WriteRaw l MessageUDPTunnel packet] else []) = (e', cache, es) ->
    rekeyed e e' /\ (exists c1, cache = Some c1 /\ cache_ok f c1) /\ ((es = [] /\ ~ hears env e f r) \/ exists o, es = [o] /\ voice_sent e f r o)) as Htunnel.
  { intros e1 Hk1 [= -> <- <-]. split; [done|]. split; [by exists c1|]. assert (queues env l c = room env l) as -> by (unfold queues; unfold is_closed, is_active in *; by destruct (cl_state c)).
    destruct (room env l) eqn:Hr; [right; eexists; split; [done|]; exists l, c; by rewrite <- He|]. left. split; [done|]. intros (l' & ? & ? & ->%Hkl & ? & ? & ? & _). congruence. }
  destruct (udpBySession e !! br_Session r) as [addr|] eqn:Hu; [|by apply Htunnel]. destruct (cl_Crypt c) as [cr|] eqn:Hcr; [|by apply Htunnel]. destruct (_ || _); [by apply Htunnel|].
  unfold write_udp. pose proof (encrypt_cipher cr (UdpIngress.blank (zlen packet + Overhead cr)) packet) as Hkey.
  destruct (EncryptPacket _ _ _ _ _) as [[cr' enc] err] eqn:Ee. cbn [fst] in Hkey. assert (rekeyed e (set_crypt e l c cr')) as Hk1.
  { intros l'. change (clients (set_crypt e l c cr')) with (<[l := c <| cl_Crypt := Some cr' |>]> (clients e)). destruct (decide (l' = l)) as [->|Hne]; [|by rewrite lookup_insert_ne].
    rewrite lookup_insert_eq, Hc. cbn. by rewrite Hcr, Hkey. }
  destruct err as [err|]; [by apply Htunnel|]. destruct (udp_takes env addr); [|by apply Htunnel].
  intros [= <- <- <-]. split; [done|]. split; [by exists c1|]. right. eexists. split; [done|]. exists l, c. split; [done|]. split; [done|]. split; [done|].
  exists packet, cr, cr'. split; [done|]. split; [by rewrite Hcr|done].
Qed.
Lemma deliver_all_exact env f rs : forall e c0, cache_ok f c0 -> let '(e', es) := deliver_all aesE gcmSeal env f e (Some c0) rs in
  recrypted e e' /\ rekeyed e e' /\ udpBySession e' = udpBySession e /\ exists parts, es = concat parts /\
    Forall2 (fun r part => (part = [] /\ ~ hears env e f r) \/ exists o, part = [o] /\ voice_sent e f r o) rs parts.
Proof.
  induction rs as [|r rs IH]; intros e c0 K; cbn [deliver_all].
  - split; [apply recrypted_refl|]. split; [done|]. split; [done|]. exists []. by split.
  - pose proof (deliver_one_exact env f e c0 r K) as H. destruct (deliver_one _ _ _ _ _ _ _) as [[e1 cache1] es1]. destruct H as (R1 & K1 & U1 & (c1 & -> & Kc1) & P1).
    specialize (IH e1 c1 Kc1). destruct (deliver_all _ _ _ _ _ _ _) as [e2 es2]. destruct IH as (R2 & K2 & U2 & parts & -> & HP).
    split; [by eapply recrypted_trans|]. split; [intros l; by rewrite K2|]. split; [congruence|]. exists (es1 :: parts). split; [done|]. constructor; [done|]. revert HP. apply Forall2_impl.
    intros r' part [[-> Hn]|(o & -> & Ho)]; [left; split; [done|]; intros Hh; by apply Hn, (recrypted_hears env e)|right; exists o; split; [done|by eapply recrypted_sent]].
Qed.

(** ** Control *)

(** The connection that has adopted the session [rf], with its client. *)
Definition owner e (rf : SessionRef) (l : loc) (c : Client) : Prop :=
  exists s, bySession e !! rf = Some (SessionID (cl_session c)) /\ conns e !! SessionID (cl_session c) = Some l /\ clients e !! l = Some c /\ is_closed c = false /\
    sessions e !! SessionID (cl_session c) = Some s /\ core_ref s = rf /\ Generation (cl_session c) = Generation rf.

Lemma deliverControl_spec env m e : rt_ok e -> let '(e', es) := deliverControl env m e in
  rt_ok e' /\ survives e e' /\ conns e' = conns e /\ sessions e' = sessions e /\ bySession e' = bySession e /\ nextRef e' = nextRef e /\
  (es = [] /\ e' = e \/ exists ref l c s, bySession e !! cw_Session m = Some ref /\ conns e !! ref = Some l /\ clients e !! l = Some c /\ queues env l c = true /\
     sessions e !! ref = Some s /\ core_ref s = cw_Session m /\ cw_MessageType m < MessageCount /\ es = [WriteRaw l (cw_MessageType m) (cw_Payload m)] /\
     e' = if cw_MessageType m =? MessageServerConfig then put_client e l (c <| cl_state := ConnActive |>) else e).
Proof.
  intros R. assert (rt_ok e /\ survives e e /\ conns e = conns e /\ sessions e = sessions e /\ bySession e = bySession e /\ nextRef e = nextRef e) as Hn by (split; [exact R|split; [apply survives_refl|done]]).
  assert (forall P : Prop, rt_ok e /\ survives e e /\ conns e = conns e /\ sessions e = sessions e /\ bySession e = bySession e /\ nextRef e = nextRef e /\ (@nil edge_out = [] /\ e = e \/ P)) as Hnone by tauto.
  unfold deliverControl. set (rf := cw_Session m). destruct (bySession e !! rf) as [ref|] eqn:Hb; [|apply Hnone]. change (default 0 (Some ref)) with ref. destruct (conns e !! ref) as [l|] eqn:Hl; [|apply Hnone].
  set (s := default no_session (sessions e !! ref)). destruct (negb (cs_sessionID s =? SessionID rf) || negb (cs_generation s =? Generation rf)) eqn:Eg; [apply Hnone|].
  apply orb_false_iff in Eg as [Eg1%negb_false_iff%Z.eqb_eq Eg2%negb_false_iff%Z.eqb_eq]. destruct (MessageCount <=? cw_MessageType m) eqn:Ek; [apply Hnone|]. apply Z.leb_gt in Ek.
  destruct (clients e !! l) as [c|] eqn:Hc; [|apply Hnone]. destruct (queues env l c) eqn:Eq; [|apply Hnone]. cbn [negb].
  assert (core_ref s = rf) as Hs by (unfold core_ref; rewrite Eg1, Eg2; by destruct rf).
  assert (sessions e !! ref = Some s) as Hss. { pose proof (r_by e R rf ref Hb) as Hv. subst s. destruct (sessions e !! ref) as [s|]; [done|]. rewrite <- Hs in Hv. discriminate Hv. }
  assert (SessionID (cl_session c) = ref /\ is_closed c = false) as [Hr Ho]. { destruct (r_conns e R _ _ Hl) as (_ & c0 & ? & ? & <-). assert (c0 = c) as -> by congruence. done. }
  split; [|split; [|split; [by destruct (_ =? _)|split; [by destruct (_ =? _)|split; [by destruct (_ =? _)|split; [by destruct (_ =? _)|]]]]]].
  - destruct (_ =? _); [|done]. apply (put_client_ok e l c); [done|done|done|done|]. intros _. right. rewrite Hr. by exists s.
  - destruct (_ =? _); [|apply survives_refl]. split.
    + intros l0 c0. change (clients (put_client e l (c <| cl_state := ConnActive |>))) with (<[l := c <| cl_state := ConnActive |>]> (clients e)). intros [[<- <-]|[_ H0]]%lookup_insert_Some; [|by exists c0]. exists c. repeat split; [done|]. congruence.
    + intros l0 H0. change (clients (put_client e l (c <| cl_state := ConnActive |>))) with (<[l := c <| cl_state := ConnActive |>]> (clients e)). destruct (decide (l0 = l)) as [->|]; [rewrite lookup_insert_eq; by eexists|by rewrite lookup_insert_ne].
  - right. exists ref, l, c, s. done.
Qed.

(** The owner gets the message, once, and nobody else; without one that has
    room it is dropped. *)
Lemma deliverControl_exact env m e : rt_ok e -> let '(e', es) := deliverControl env m e in
  (es = [] /\ e' = e /\ forall l c, owner e (cw_Session m) l c -> cw_MessageType m < MessageCount -> room env l = false) \/
  exists l c, owner e (cw_Session m) l c /\ room env l = true /\ cw_MessageType m < MessageCount /\ es = [WriteRaw l (cw_MessageType m) (cw_Payload m)] /\
    e' = if cw_MessageType m =? MessageServerConfig then put_client e l (c <| cl_state := ConnActive |>) else e.
Proof.
  intros R. pose proof (deliverControl_spec env m e R) as H. destruct (deliverControl env m e) as [e' es] eqn:E. destruct H as (_ & _ & _ & _ & _ & _ & H).
  destruct H as [[-> ->]|(ref & l & c & s & Hb & Hl & Hc & Hq & Hs & Hrf & Hk & -> & ->)].
  - left. split; [done|]. split; [done|]. intros l c (s & Hb & Hl & Hc & Ho & Hs & Hrf & _) Hk. apply not_true_iff_false. intros Hr. revert E. unfold deliverControl.
    rewrite Hb. cbn [default from_option]. change (id (SessionID (cl_session c))) with (SessionID (cl_session c)). rewrite Hl, Hs. cbn [default from_option]. change (id s) with s.
    rewrite <- Hrf. cbn [core_ref SessionID Generation]. rewrite !Z.eqb_refl. cbn [negb orb]. destruct (Z.leb_spec MessageCount (cw_MessageType m)); [lia|]. rewrite Hc. unfold queues. by rewrite Ho, Hr.
  - right. destruct (r_conns e R _ _ Hl) as (_ & c0 & Hc0 & Ho & <-). assert (c0 = c) as -> by congruence. destruct (r_sessions e R _ _ Hs) as (_ & l1 & c1 & ? & ? & Hg). assert (c1 = c) as -> by congruence.
    exists l, c. split; [exists s; split_and!; try done; by rewrite <- Hrf|]. apply andb_true_iff in Hq as [_ Hq]. done.
Qed.

(** The edge is what [RemoteCore] relies on. *)
#[export] Instance edge_laws : DeliveryLaws Runtime (D := edge_delivery aesE gcmSeal).
Proof.
  refine {| delivery_ok := rt_ok; reaches := kept_for; open_at := open_conn; continues e e' := survives e e' /\ nextRef e' = nextRef e |}.
  - intros e. split; [apply survives_refl|done].
  - intros e1 e2 e3 [? ?] [? ?]. split; [by eapply survives_trans|congruence].
  - intros e e' l [H _]. by apply survives_open.
  - intros env m e R. pose proof (deliverControl_spec env m e R) as H. change (DeliverControl env m e) with (deliverControl env m e). destruct (deliverControl env m e) as [e' es].
    destruct H as (R' & Hs & _ & _ & _ & Hn & [[-> _]|(ref & l & c & s & Hb & Hl & _ & _ & _ & _ & _ & -> & _)]); (split; [done|]); (split; [done|]); [by left|]. right. exists l. split; [|done]. by exists ref.
  - intros env b e R. pose proof (deliver_all_spec env (b_Frame b) (b_Recipients b) e (Some NewEncodingCache)) as H. change (DeliverVoice env b e) with (deliver_all aesE gcmSeal env (b_Frame b) e (Some NewEncodingCache) (b_Recipients b)).
    destruct (deliver_all _ _ _ _ _ _ _) as [e' es]. destruct H as (H & _ & Ho). split; [by eapply recrypted_ok|]. split; [split; [by apply recrypted_survives|apply H]|].
    intros o (r & Hr & l & Hk & Hm)%Ho. exists r, l. split; [done|]. split; [done|]. by destruct o.
  - intros rf e R. change (CloseSession rf e) with (closeSession rf e). unfold closeSession. destruct (conn_at e rf) as [l|]; (split; [|split; [exact (survives_refl e)|done]]); [|done]. by apply (rt_ok_other e).
  - intros env rc e R. pose proof (coreDisconnected_spec env rc e R) as H. change (CoreDisconnected env rc e) with (coreDisconnected env rc e). destruct (coreDisconnected env rc e) as [e' es].
    destruct H as (R' & Ho & Hc & Hn & Hs & He). split; [done|]. split; [done|]. split; [done|]. split; [|done]. intros rf l (ref & _ & Hl). by rewrite Hc, lookup_empty in Hl.
Defined.

(** ** The invariant of the edge *)

(** Whoever waits for the Core is a connection under the number it asked with,
    and its answer is to come or there. *)
Record edge_ok (g : Edge) : Prop := {
  g_rt : rt_ok (rt g);
  g_waiting : forall id w, waiting g !! id = Some w -> 1 <= id <= rc_nextID (core g) /\ known (core g) id /\ w_ref w <> 0 /\
    exists c, clients (rt g) !! w_conn w = Some c /\ SessionID (cl_session c) = w_ref w;
  g_range : 0 <= rc_nextID (core g) < 2 ^ 64 }.
(** One more number of each kind at most. *)
Definition goes_on g g' : Prop := edge_ok g' /\ nextRef (rt g') <= nextRef (rt g) + 1 /\ rc_nextID (core g') <= rc_nextID (core g) + 1.

Lemma edge_ok_with g e rc : edge_ok g -> rt_ok e -> survives (rt g) e -> (forall id, known (core g) id -> known rc id) -> rc_nextID rc = rc_nextID (core g) -> edge_ok (mkEdge e rc (waiting g)).
Proof.
  intros [G1 G2 G3] R [S1 S2] K N. split; [done| |by rewrite <- N in G3]. intros id w Hw. destruct (G2 id w Hw) as (Hi & Hk & Hr & c & Hc & Hs). cbn [core rt]. rewrite N. split; [done|]. split; [auto|]. split; [done|].
  destruct (S2 (w_conn w)) as [c' Hc']; [by eexists|]. exists c'. split; [done|]. destruct (S1 _ _ Hc') as (c0 & Hc0 & E & _). rewrite E. congruence.
Qed.
(** A state of the runtime from which only tasks and voice addresses differ. *)
Lemma goes_on_rt g e es : edge_ok g -> rt_ok e -> survives (rt g) e -> nextRef e <= nextRef (rt g) + 1 -> goes_on g (on_rt g (e, es)).1.
Proof. intros G R S N. split; [by apply edge_ok_with|]. cbn. split; [done|lia]. Qed.
Lemma survives_same e e' : clients e' = clients e -> survives e e'.
Proof. intros E. split; rewrite E; [|done]. intros l c ?. by exists c. Qed.
Lemma survives_put e l c c' : clients e !! l = Some c -> cl_session c' = cl_session c -> (is_closed c = true -> is_closed c' = true) -> survives e (put_client e l c').
Proof.
  intros Hl Hs Hc. change (survives e (put_client e l c')) with ((forall l0 c0, <[l := c']> (clients e) !! l0 = Some c0 -> exists c, clients e !! l0 = Some c /\ cl_session c0 = cl_session c /\ (is_closed c = true -> is_closed c0 = true)) /\ (forall l0, is_Some (clients e !! l0) -> is_Some (<[l := c']> (clients e) !! l0))).
  split; intros l0; destruct (decide (l0 = l)) as [->|Hn]; rewrite ?lookup_insert_eq, ?lookup_insert_ne by done; [intros c0 [= <-]; by exists c|intros c0 ?; by exists c0|by eexists|done].
Qed.
Lemma goes_on_put g l c c' : edge_ok g -> clients (rt g) !! l = Some c -> cl_session c' = cl_session c -> cl_state c' = cl_state c -> goes_on g (with_rt g (put_client (rt g) l c')).
Proof.
  intros G Hl Hs Hc. assert (is_closed c' = is_closed c) as Hcl by (unfold is_closed; by rewrite Hc). apply (goes_on_rt g (put_client (rt g) l c') []); [done| | |].
  - apply (put_client_ok _ l c); [apply G|done|done|done|]. unfold is_active. rewrite Hc. by left.
  - apply (survives_put _ l c); [done|done|by rewrite Hcl].
  - cbn. lia.
Qed.
Lemma goes_on_refl g : edge_ok g -> goes_on g g.
Proof. intros G. split; [done|lia]. Qed.
Lemma SendReject_ok env g l c typ why : edge_ok g -> let '(e, es, err) := SendReject env (rt g) l c typ why in edge_ok (with_rt g e) /\ nextRef e = nextRef (rt g).
Proof. intros G. split; [|done]. apply edge_ok_with; [done| |by apply survives_same|done|done]. by apply (rt_ok_other (rt g)); [apply G|..]. Qed.
Lemma goes_on_reject env g l c typ why : edge_ok g -> let '(e, es, err) := SendReject env (rt g) l c typ why in goes_on g (with_rt g e).
Proof. intros G. pose proof (SendReject_ok env g l c typ why G) as H. destruct (SendReject _ _ _ _ _ _) as [[e es] err]. destruct H as [H N]. split; [done|]. cbn. lia. Qed.

(** ** Logging in *)

Lemma attach_spec e l c : rt_ok e -> clients e !! l = Some c -> is_closed c = false -> nextRef e + 1 < 2 ^ 32 -> let '(e', c', ref) := attach e l c in
  rt_ok e' /\ clients e' !! l = Some c' /\ conns e' !! ref = Some l /\ SessionID (cl_session c') = ref /\ ref <> 0 /\ nextRef e <= nextRef e' <= nextRef e + 1 /\
  cl_state c' = cl_state c /\ (forall l', l' <> l -> clients e' !! l' = clients e !! l') /\ sessions e' = sessions e /\ bySession e' = bySession e.
Proof.
  intros R Hl Ho Hn. pose proof R as [H1 H2 H3 H4 H7 H5 H6]. unfold attach. destruct (Z.eqb_spec (SessionID (cl_session c)) 0) as [Hz|Hz]; cbn [negb andb].
  2:{ rewrite bool_decide_true by (by apply H2). repeat (split; [done|]). split; [by apply H2|]. split; [done|]. split; [done|]. split; [lia|done]. }
  assert (u32 (nextRef e + 1) = nextRef e + 1) as -> by (apply u32_id; unfold is_u32; lia). set (ref := nextRef e + 1). set (c' := c <| cl_session := mkRef ref (Generation (cl_session c)) |>).
  set (e' := (put_client e l c') <| nextRef := ref |> <| conns := <[ref := l]> (conns e) |>). change (clients e') with (<[l := c']> (clients e)).
  assert (conns e !! ref = None) as Hfree. { destruct (conns e !! ref) eqn:E; [|done]. apply H1 in E as [E _]. subst ref. lia. }
  assert (is_active c = false) as Hna. { destruct (is_active c) eqn:Ea; [|done]. destruct (H3 l c Hl Ea) as [s Hs]. rewrite Hz in Hs. destruct (H4 _ _ Hs) as (_ & l0 & _ & [? _]%H1 & _). lia. }
  assert (forall l0 c0, clients e' !! l0 = Some c0 -> l0 = l /\ c0 = c' \/ l0 <> l /\ clients e !! l0 = Some c0) as Hput by (intros l0 c0; change (clients e') with (<[l := c']> (clients e)); intros [[-> ->]|[? ?]]%lookup_insert_Some; auto).
  assert (forall ref' l', conns e !! ref' = Some l' -> l' <> l). { intros ref' l' E ->. destruct (H1 _ _ E) as (? & c0 & ? & _ & ?). assert (c0 = c) as -> by congruence. lia. }
  split; [|rewrite lookup_insert_eq; repeat (split; [done|]); split; [apply lookup_insert_eq|]; split; [done|]; split; [subst ref; lia|]; split; [change (nextRef e') with ref; subst ref; lia|]; split; [done|]; split; [intros l' ?; by rewrite lookup_insert_ne|done]].
  split.
  - intros ref' l'. change (conns e') with (<[ref := l]> (conns e)). change (nextRef e') with ref. change (clients e') with (<[l := c']> (clients e)). intros [[<- <-]|[Hne E]]%lookup_insert_Some.
    + split; [subst ref; lia|]. exists c'. by rewrite lookup_insert_eq.
    + destruct (H1 _ _ E) as (? & c0 & ? & ? & ?). split; [subst ref; lia|]. exists c0. rewrite lookup_insert_ne; [done|]. intros <-. by eapply H.
  - intros l0 c0 [[-> ->]|[Hne H0]]%Hput Ho0 Hz0; change (conns e') with (<[ref := l]> (conns e)); [by rewrite lookup_insert_eq|]. specialize (H2 _ _ H0 Ho0 Hz0). rewrite lookup_insert_ne; [done|]. intros E. rewrite <- E in H2. congruence.
  - intros l0 c0 [[-> ->]|[Hne H0]]%Hput Ha; [|by eapply H3]. change (is_active c') with (is_active c) in Ha. congruence.
  - intros ref' s E. destruct (H4 _ _ E) as (? & l0 & c0 & E0 & ? & ?). split; [done|]. exists l0, c0. change (conns e') with (<[ref := l]> (conns e)). change (clients e') with (<[l := c']> (clients e)).
    rewrite !lookup_insert_ne; [done|intros <-; by eapply H|intros <-; congruence].
  - done.
  - intros l0 c0 [[-> ->]|[Hne H0]]%Hput; by eapply H5.
  - change (nextRef e') with ref. subst ref. lia.
Qed.

Lemma busy_waits g l id w : waiting g !! id = Some w -> w_conn w = l -> busy g l = true.
Proof. intros Hw Hl. unfold busy. apply existsb_exists. exists (id, w). split; [|by apply bool_decide_eq_true]. apply list_elem_of_In. by apply elem_of_map_to_list. Qed.
Lemma begin_spec rc takes f : 0 <= rc_nextID rc -> rc_nextID rc + 1 < 2 ^ 64 -> let '(rc', es, r) := Authenticate_begin rc takes f in
  rc_nextID rc' = rc_nextID rc + 1 /\ (forall id, id <= rc_nextID rc -> known rc id -> known rc' id) /\
  match r with Ok id => id = rc_nextID rc + 1 /\ known rc' id | Err _ => True end.
Proof.
  intros H0 H1. unfold Authenticate_begin. assert (u64 (rc_nextID rc + 1) = rc_nextID rc + 1) as -> by (apply u64_id; unfold is_u64; lia). destruct (send _ _ _ _ _) as [es [err|]]; unfold known; cbn [fst snd]; (split; [done|]).
  - split; [|done]. intros id Hid [?|?]; [left|by right]. cbn. apply elem_of_difference. split; [done|]. rewrite elem_of_singleton. lia.
  - split; [intros id Hid [?|?]; [left; cbn; set_solver|by right]|]. split; [done|]. left. cbn. set_solver.
Qed.
(** Only one connection changed, and nobody waits on it. *)
Lemma edge_ok_attached g e rc l c' : edge_ok g -> busy g l = false -> rt_ok e -> (forall l', l' <> l -> clients e !! l' = clients (rt g) !! l') -> clients e !! l = Some c' ->
  (forall id, id <= rc_nextID (core g) -> known (core g) id -> known rc id) -> rc_nextID rc = rc_nextID (core g) + 1 -> rc_nextID rc < 2 ^ 64 -> edge_ok (mkEdge e rc (waiting g)).
Proof.
  intros [G1 G2 G3] B R Ho Hl K N M. split; [done| |cbn [core]; lia]. intros id w Hw. destruct (G2 id w Hw) as (Hi & Hk & Hr & c & Hc & Hs). cbn [core rt]. split; [lia|]. split; [apply K; [lia|done]|]. split; [done|].
  exists c. split; [|done]. rewrite Ho; [done|]. intros E. rewrite (busy_waits g l id w Hw E) in B. done.
Qed.
Lemma handleAuthenticate_goes_on env g l c payload : edge_ok g -> busy g l = false -> clients (rt g) !! l = Some c -> is_closed c = false -> nextRef (rt g) + 1 < 2 ^ 32 -> rc_nextID (core g) + 1 < 2 ^ 64 ->
  let '(g', es, err) := handleAuthenticate SplitHostPort env g l c payload in goes_on g g'.
Proof.
  intros G B Hl Ho N M. unfold handleAuthenticate. destruct (Authenticate.Unmarshal _ _) as [m [err|]]; [by apply goes_on_refl|]. destruct (bool_decide _).
  { pose proof (goes_on_reject env g l c RejectInvalidUsername (str "Username required"%string) G) as H. by destruct (SendReject _ _ _ _ _ _) as [[e es] err]. }
  pose proof (attach_spec (rt g) l c (g_rt g G) Hl Ho N) as A. destruct (attach (rt g) l c) as [[e c'] ref]. destruct A as (R & Hl' & Hr & Hs & Hz & Hn & _ & Hother & _).
  match goal with |- context [Authenticate_begin ?a ?b ?f] => pose proof (begin_spec a b f ltac:(apply G) M) as Bg; destruct (Authenticate_begin a b f) as [[rc es] r] end; destruct Bg as (Hid & Hk & Hown).
  pose proof (edge_ok_attached g e rc l c' G B R Hother Hl' Hk Hid ltac:(lia)) as G'. destruct r as [id|err].
  - destruct Hown as [-> Hown]. split; [|cbn [rt core]; lia]. pose proof G' as [G1 G2 G3]. split; [done| |done].
    intros id w. cbn [waiting rt core]. intros [[<- <-]|[_ Hw]]%lookup_insert_Some; [|exact (G2 id w Hw)]. cbn [w_ref w_conn]. split; [pose proof (g_range g G); lia|]. split; [done|]. split; [done|]. by exists c'.
  - pose proof (SendReject_ok env _ l c' RejectAuthenticatorFail (str "Core unavailable"%string) G') as H. cbn [rt] in H. destruct (SendReject env e l c' _ _) as [[e2 es2] err2]. destruct H as (H1 & H2).
    split; [exact H1|]. cbn [rt core]. lia.
Qed.

Lemma handleVersion_keeps c payload : cl_session (handleVersion c payload).1 = cl_session c /\ cl_state (handleVersion c payload).1 = cl_state c.
Proof. unfold handleVersion. destruct (_ =? 0); [done|]. destruct (Version.Unmarshal _ _) as [v [err|]]; [done|]. cbn [fst]. unfold NegotiateAudioWireMode. by case_match. Qed.
Lemma received_goes_on env now g l kind payload : edge_ok g -> busy g l = false -> nextRef (rt g) + 1 < 2 ^ 32 -> rc_nextID (core g) + 1 < 2 ^ 64 ->
  let '(g', es, err) := received SplitHostPort env now g l kind payload in goes_on g g'.
Proof.
  intros G B N M. unfold received. destruct (clients (rt g) !! l) as [c|] eqn:Hl; [|by apply goes_on_refl]. destruct (is_closed c) eqn:Ho; [by apply goes_on_refl|].
  destruct (_ && _); [by apply goes_on_refl|]. destruct (_ =? _); [by apply goes_on_refl|]. destruct (_ <=? _); [by apply goes_on_refl|]. destruct (bool_decide _).
  - unfold HandleCoreMessage. destruct (_ =? 0); [by apply goes_on_refl|]. destruct (negb _); [by apply goes_on_refl|]. destruct (ForwardControl _ _ _ _ _). by apply goes_on_refl.
  - unfold HandleEdgeMessage. destruct (_ =? _).
    { pose proof (handleVersion_keeps c payload) as [V1 V2]. destruct (handleVersion c payload) as [c' err]. by apply (goes_on_put g l c). }
    destruct (_ =? _); [by apply handleAuthenticate_goes_on|]. destruct (_ =? _).
    { destruct (UdpIngress.CryptSetupResync _ _) as [[u ms] err]. by apply (goes_on_put g l c). }
    destruct (_ =? _); [|by apply goes_on_refl]. destruct (handleUDPTunnel _ _ _ _) as [es err]. by apply goes_on_refl.
Qed.

(** ** The answer of the Core *)

Lemma adopt_runtime e l c c' rf ref mode : rt_ok e -> clients e !! l = Some c -> is_closed c = false -> SessionID (cl_session c) = ref -> ref <> 0 -> Valid rf = true ->
  cl_state c' = cl_state c -> cl_session c' = mkRef ref (Generation rf) ->
  rt_ok (put_client (e <| sessions := <[ref := mkCoreSession (SessionID rf) (Generation rf) mode]> (sessions e) |> <| bySession := <[rf := ref]> (bySession e) |>) l c').
Proof.
  intros [H1 H2 H3 H4 H7 H5 H6] Hl Ho Hs Hz Hv Hst Hse. assert (is_closed c' = false) as Ho' by (unfold is_closed in *; by rewrite Hst). assert (is_active c' = is_active c) as Ha' by (unfold is_active; by rewrite Hst).
  assert (conns e !! ref = Some l) as Hr by (rewrite <- Hs; apply H2; congruence). match goal with |- rt_ok ?x => set (e' := x) end.
  assert (clients e' = <[l := c']> (clients e)) as Ec by done. assert (sessions e' = <[ref := mkCoreSession (SessionID rf) (Generation rf) mode]> (sessions e)) as Es by done. assert (bySession e' = <[rf := ref]> (bySession e)) as Eb by done.
  assert (forall ref' l' c0, conns e !! ref' = Some l' -> clients e !! l' = Some c0 -> is_closed c0 = false -> SessionID (cl_session c0) = ref' -> exists c1, clients e' !! l' = Some c1 /\ is_closed c1 = false /\ SessionID (cl_session c1) = ref' /\ (ref' <> ref -> c1 = c0)) as Hget.
  { intros ref' l' c0 E0 E1 E2 E3. rewrite Ec. destruct (decide (l' = l)) as [->|Hn]; [rewrite lookup_insert_eq; exists c'; assert (c0 = c) as -> by congruence; rewrite Hse; cbn; repeat split; [done|congruence|congruence]|]. rewrite lookup_insert_ne by done. by exists c0. }
  split.
  - intros ref' l' E. destruct (H1 _ _ E) as (? & c0 & ? & ? & ?). split; [done|]. destruct (Hget ref' l' c0) as (c1 & ? & ? & ? & _); [done..|]. by exists c1.
  - intros l0 c0. rewrite Ec. intros [[<- <-]|[Hne E]]%lookup_insert_Some ? ?; [by rewrite Hse|by apply H2].
  - intros l0 c0. rewrite Ec, Es. intros [[<- <-]|[Hne E]]%lookup_insert_Some Ha; [rewrite Hse, lookup_insert_eq; by eexists|]. destruct (H3 _ _ E Ha) as [s ?]. destruct (decide (SessionID (cl_session c0) = ref)) as [->|]; [rewrite lookup_insert_eq; by eexists|rewrite lookup_insert_ne by done; by exists s].
  - intros ref' s. rewrite Es. intros [[<- <-]|[Hne E]]%lookup_insert_Some.
    + split; [by destruct rf|]. exists l, c'. rewrite Ec, lookup_insert_eq, Hse. done.
    + destruct (H4 _ _ E) as (? & l0 & c0 & E0 & E1 & E2). split; [done|]. exists l0, c0. split; [done|]. split; [|done]. rewrite Ec, lookup_insert_ne; [done|]. intros <-. destruct (H1 _ _ E0) as (_ & c1 & ? & _ & ?). congruence.
  - intros rf' ref'. rewrite Eb. intros [[<- <-]|[_ E]]%lookup_insert_Some; [done|by eapply H7].
  - intros l0 c0. rewrite Ec. intros [[<- <-]|[Hne E]]%lookup_insert_Some; by eapply H5.
  - done.
Qed.

Lemma Authenticate_end_spec rc pick id connID rc' r : Authenticate_end rc pick id connID = Some (rc', r) ->
  rc_nextID rc' = rc_nextID rc /\ rc_conn rc' = rc_conn rc /\ rc_pending rc' = rc_pending rc /\ (forall id', id' <> id -> known rc id' -> known rc' id') /\
  (rc_done rc = false -> exists got, rc_results rc !! id = Some got /\ match got with Ok a => r = Ok (result_of a) | Err e => r = Err e end).
Proof.
  unfold Authenticate_end. destruct (rc_done rc && pick) eqn:Ed.
  - apply andb_true_iff in Ed as [-> _]. intros [= <- <-]. repeat (split; [done|]). done.
  - destruct (rc_results rc !! id) as [got|] eqn:Eg.
    + intros [= E1]. assert (rc_nextID rc' = rc_nextID rc /\ rc_conn rc' = rc_conn rc /\ rc_pending rc' = rc_pending rc /\ rc_results rc' = delete id (rc_results rc)) as (-> & -> & Hp & Hr) by (destruct got as [a|]; [destruct (ap_Rejected a)|]; by injection E1 as <- _).
      repeat (split; [done|]). split; [|intros _; exists got; split; [done|]; destruct got as [a|]; by injection E1 as _ <-].
      intros id' Hn. unfold known. rewrite Hp, Hr. by rewrite lookup_delete_ne.
    + destruct (rc_done rc) eqn:E; [|done]. intros [= <- <-]. repeat (split; [done|]). done.
Qed.
Lemma adopt_ok env random g w c session username : edge_ok g -> clients (rt g) !! w_conn w = Some c -> SessionID (cl_session c) = w_ref w -> w_ref w <> 0 -> Valid session = true ->
  let '(g', es, err) := adopt env random g w c session username in edge_ok g' /\ nextRef (rt g') = nextRef (rt g) /\ core g' = core g.
Proof.
  intros G Hl Hs Hz Hv. unfold adopt. destruct (remoteCryptMaterial _ _) as [[key enc] dec]. destruct (SetKey _ _ _ _) as [cr err]. set (c1 := c <| cl_Crypt := Some cr |>). set (e1 := put_client (rt g) (w_conn w) c1).
  assert (edge_ok (with_rt g e1)) as G1 by (by apply (goes_on_put g (w_conn w) c c1)). destruct err as [err|]; [done|]. destruct (queues env (w_conn w) c1) eqn:Q; cbn [negb]; [|done].
  apply andb_true_iff in Q as [Q%negb_true_iff _]. assert (clients e1 !! w_conn w = Some c1) as Hl1 by apply lookup_insert_eq.
  match goal with |- context [put_client ?e (w_conn w) ?c] => set (e2 := put_client e (w_conn w) c); set (c2 := c) in e2 end.
  assert (rt_ok e2) as R2 by (apply (adopt_runtime e1 (w_conn w) c1 c2 session (w_ref w)); [apply G1|done|done|done|done|done|done|by unfold c2, c1; cbn; rewrite Hs]).
  assert (edge_ok (with_rt g e2)) as G2.
  { pose proof G1 as [_ H2 H3]. split; [done| |done]. intros id w' Hw. destruct (H2 id w' Hw) as (? & ? & ? & c0 & Hc0 & Hs0). repeat (split; [done|]). cbn [rt with_rt] in *.
    change (clients e2) with (<[w_conn w := c2]> (clients e1)). destruct (decide (w_conn w' = w_conn w)) as [E|Hn]; [|rewrite lookup_insert_ne by done; by exists c0]. rewrite E, lookup_insert_eq. exists c2. split; [done|]. assert (c0 = c1) as -> by congruence. done. }
  destruct (transportReadyWithMode _ _ _ _ _) as [es [err|]]; [|done]. pose proof (SendReject_ok env (with_rt g e2) (w_conn w) c2 RejectAuthenticatorFail (str "Core unavailable"%string) G2) as H. cbn [rt with_rt] in H.
  destruct (SendReject env e2 _ _ _ _) as [[e3 es3] err3]. destruct H as [H1 H2]. done.
Qed.
Lemma resume_ok env random pick id g g' es err : edge_ok g -> resume env random pick id g = Some (g', es, err) -> edge_ok g' /\ nextRef (rt g') = nextRef (rt g) /\ rc_nextID (core g') = rc_nextID (core g).
Proof.
  intros G. unfold resume. destruct (waiting g !! id) as [w|] eqn:Hw; [|done]. cbn [mbind option_bind]. destruct (g_waiting g G id w Hw) as (Hi & Hk & Hr & c & Hc & Hs). rewrite Hc. cbn [mbind option_bind].
  destruct (Authenticate_end _ _ _ _) as [[rc r]|] eqn:Ea; [|done]. cbn [mbind option_bind]. destruct (Authenticate_end_spec _ _ _ _ _ _ Ea) as (N & _ & _ & K & _). intros [= E].
  assert (edge_ok (mkEdge (rt g) rc (delete id (waiting g)))) as G1.
  { split; [apply G| |cbn; rewrite N; apply G]. intros id' w'. cbn [waiting]. intros [Hn Hw']%lookup_delete_Some. destruct (g_waiting g G id' w' Hw') as (? & ? & ? & ?). cbn [core rt]. rewrite N. split; [done|]. split; [by apply K|done]. }
  assert (forall typ why, let '(e, es, err) := SendReject env (rt g) (w_conn w) c typ why in edge_ok (with_rt (mkEdge (rt g) rc (delete id (waiting g))) e) /\ nextRef e = nextRef (rt g)) as Hrej by (intros; by apply (SendReject_ok env _ (w_conn w) c _ _ G1)).
  destruct r as [res|cause]; [|specialize (Hrej RejectAuthenticatorFail (str "Core unavailable"%string)); destruct Hrej; injection E as <- _ _; done].
  destruct (au_Rejected res); [specialize (Hrej (au_RejectType res) (au_RejectReason res)); destruct Hrej; injection E as <- _ _; done|].
  destruct (Valid _) eqn:Hv; cbn [negb] in E; [|specialize (Hrej RejectAuthenticatorFail (str "Invalid Core session"%string)); destruct Hrej; injection E as <- _ _; done].
  pose proof (adopt_ok env random _ w c _ (au_Username res) G1 Hc Hs Hr Hv) as H. rewrite E in H. destruct H as (? & ? & E'). rewrite E'. done.
Qed.

(** ** Datagrams *)

Lemma try_crypt_rt e l c cr buf data : clients e !! l = Some c -> recrypted e (try_crypt aesE aesD gcmOpen e l c cr buf data).1.1.
Proof. intros Hl. unfold try_crypt. destruct (DecryptPacket _ _ _ _ _ _) as [[cr' buf'] err]. by apply set_crypt_re. Qed.
(** A datagram is attributed to a session that is kept for a connection. *)
Lemma try_all_rt cands : forall e buf data, let '(e', r) := try_all aesE aesD gcmOpen cands e buf data in
  recrypted e e' /\ match r with Some (l, rf, _) => exists connID, (rf, connID) ∈ cands /\ conns e !! connID = Some l | None => True end.
Proof.
  induction cands as [|[rf connID] cands IH]; intros e buf data; cbn [try_all]; [split; [apply recrypted_refl|done]|].
  assert (forall e1 buf1, recrypted e e1 -> let '(e', r) := try_all aesE aesD gcmOpen cands e1 buf1 data in
    recrypted e e' /\ match r with Some (l, rf0, _) => exists connID0, (rf0, connID0) ∈ (rf, connID) :: cands /\ conns e !! connID0 = Some l | None => True end) as Hgo.
  { intros e1 buf1 R1. specialize (IH e1 buf1 data). destruct (try_all _ _ _ cands e1 buf1 data) as [e2 r]. destruct IH as [R2 Hr]. split; [by eapply recrypted_trans|]. destruct r as [[[l rf0] plain]|]; [|done].
    destruct Hr as (cid & ? & ?). exists cid. split; [by right|]. by rewrite <- (re_conns _ _ R1). }
  destruct (conns e !! connID) as [l|] eqn:El; [|by apply Hgo, recrypted_refl]. cbn [mbind option_bind]. destruct (clients e !! l) as [c|] eqn:Ec; [|by apply Hgo, recrypted_refl]. cbn [mbind option_bind].
  destruct (cl_Crypt c) as [cr|]; [|by apply Hgo, recrypted_refl]. cbn [mbind option_bind]. destruct (negb _); [by apply Hgo, recrypted_refl|].
  pose proof (try_crypt_rt e l c cr buf data Ec) as R1. destruct (try_crypt _ _ _ _ _ _ _ _ _) as [[e1 buf1] [plain|]]; cbn [fst] in R1; [|by apply Hgo]. split; [done|]. exists connID. split; [left|done].
Qed.
Lemma identify_rt e addr data : (forall l, ordS l ≡ₚ l) -> let '(e', r) := identify aesE aesD gcmOpen ordS e addr data in
  recrypted e e' /\ match r with Some (l, rf, _) => kept_for e rf l | None => True end.
Proof.
  intros Hord. unfold identify. set (buf0 := UdpIngress.blank _).
  assert (forall e1 buf1, recrypted e e1 -> let '(e', r) := try_all aesE aesD gcmOpen (ordS (map_to_list (bySession e1))) e1 buf1 data in recrypted e e' /\ match r with Some (l, rf, _) => kept_for e rf l | None => True end) as Hgo.
  { intros e1 buf1 R1. pose proof (try_all_rt (ordS (map_to_list (bySession e1))) e1 buf1 data) as H. destruct (try_all _ _ _ _ _ _ _) as [e2 r]. destruct H as [R2 Hr]. split; [by eapply recrypted_trans|].
    destruct r as [[[l rf] plain]|]; [|done]. destruct Hr as (cid & Hin & Hl). rewrite Hord in Hin. apply elem_of_map_to_list in Hin. rewrite <- (recrypted_kept e e1) by done. by exists cid. }
  unfold by_cache. destruct (sessionByAddr e !! addr) as [cached|]; [|by apply Hgo, recrypted_refl]. destruct (bySession e !! cached) as [connID|] eqn:Eb; [|by apply Hgo, recrypted_refl].
  destruct (conns e !! connID) as [l|] eqn:El; [|by apply Hgo, recrypted_refl]. destruct (clients e !! l) as [c|] eqn:Ec; [|by apply Hgo, recrypted_refl].
  assert (kept_for e cached l) as Hk by (by exists connID). destruct (cl_Crypt c) as [cr|]; [|split; [apply recrypted_refl|done]].
  pose proof (try_crypt_rt e l c cr buf0 data Ec) as R1. destruct (try_crypt _ _ _ _ _ _ _ _ _) as [[e1 buf1] [plain|]]; cbn [fst] in R1; [done|by apply Hgo].
Qed.
Lemma goes_on_recrypted g e es : edge_ok g -> recrypted (rt g) e -> goes_on g (on_rt g (e, es)).1.
Proof. intros G R. apply goes_on_rt; [done|eapply recrypted_ok; [done|apply G]|by apply recrypted_survives|rewrite (re_nextRef _ _ R); lia]. Qed.
Lemma HandleUDP_ok env g addr data : (forall l, ordS l ≡ₚ l) -> edge_ok g -> goes_on g (HandleUDP aesE aesD gcmSeal gcmOpen limits ordS env g addr data).1.
Proof.
  intros Hord G. unfold HandleUDP. destruct (UdpIngress.PlainPingReply _ _ _ _); [by apply goes_on_refl|]. pose proof (identify_rt (rt g) addr data Hord) as H. destruct (identify _ _ _ _ _ _ _) as [e [[[l rf] plain]|]]; destruct H as [R _]; [|by apply (goes_on_recrypted g e [])].
  destruct (_ =? 0); [by apply (goes_on_recrypted g e [])|]. set (e1 := e <| udpBySession := _ |> <| sessionByAddr := _ |>).
  assert (recrypted (rt g) e1) as R1 by (by destruct R). destruct (clients e1 !! l) as [c|] eqn:Ec; [|by apply (goes_on_recrypted g e1 [])]. destruct (UdpIngress.is_ping _ _).
  - destruct (UdpIngress.ping_answer _ _ _ _) as [answer|]; [|by apply (goes_on_recrypted g e1 [])]. destruct (cl_Crypt c) as [cr|]; [|by apply (goes_on_recrypted g e1 [])].
    pose proof (write_udp_rt env e1 l c cr answer addr Ec) as W. destruct (write_udp _ _ _ _ _ _ _ _ _) as [e2 o]. destruct W as [W _]. apply (goes_on_recrypted g e2 []); [done|]. by eapply recrypted_trans.
  - destruct (DecodeClientPacket _ _) as [f [err|]]; by apply (goes_on_recrypted g e1 []).
Qed.

(** ** Every step *)

Lemma accept_ok env g c : edge_ok g -> cl_session c = mkRef 0 0 -> cl_state c = StateAuthenticating -> goes_on g (on_rt g (accept env (rt g) c)).1.
Proof.
  intros G Hs Hst. pose proof (g_rt g G) as R. pose proof R as [H1 H2 H3 H4 H7 H5 H6]. set (e := rt g) in *. set (l := next_client e). unfold accept. set (e' := (put_client e l c) <| next_client := S l |>).
  assert (clients e !! l = None) as Hfree. { destruct (clients e !! l) eqn:E; [|done]. apply H5 in E. subst l. lia. }
  assert (clients e' = <[l := c]> (clients e)) as Ec by done. assert (forall l0 c0, clients e !! l0 = Some c0 -> clients e' !! l0 = Some c0) as Hget by (intros l0 c0 E; rewrite Ec, lookup_insert_ne; [done|intros <-; congruence]).
  assert (rt_ok e') as R'.
  { split.
    + intros ref l0 E. destruct (H1 _ _ E) as (? & c0 & ? & ? & ?). split; [done|]. exists c0. split; [by apply Hget|done].
    + intros l0 c0. rewrite Ec. intros [[<- <-]|[_ E]]%lookup_insert_Some ? Hz; [by rewrite Hs in Hz|by apply H2].
    + intros l0 c0. rewrite Ec. intros [[<- <-]|[_ E]]%lookup_insert_Some Ha; [unfold is_active in Ha; by rewrite Hst in Ha|by eapply H3].
    + intros ref s E. destruct (H4 _ _ E) as (? & l0 & c0 & ? & ? & ?). split; [done|]. exists l0, c0. split; [done|]. split; [by apply Hget|done].
    + done.
    + intros l0 c0. rewrite Ec. change (next_client e') with (S l). intros [[<- <-]|[_ E]]%lookup_insert_Some; [lia|]. apply H5 in E. subst l. lia.
    + done. }
  split; [|cbn; subst e; lia]. split; [done| |apply G]. intros id w Hw. destruct (g_waiting g G id w Hw) as (? & ? & ? & c0 & ? & ?). repeat (split; [done|]). exists c0. split; [by apply Hget|done].
Qed.
Context `{J : JSON} `{CJ : CoreJSON}.
#[local] Notation step := (step aesE aesD gcmSeal gcmOpen SplitHostPort limits ordS).
#[local] Notation run := (run aesE aesD gcmSeal gcmOpen SplitHostPort limits ordS).

Lemma goes_on_link g rc e es : edge_ok g -> rt_ok e -> survives (rt g) e -> nextRef e = nextRef (rt g) -> (forall id, known (core g) id -> known rc id) -> rc_nextID rc = rc_nextID (core g) -> goes_on g (on_link g (rc, e, es)).1.
Proof. intros G R S N K M. split; [by apply edge_ok_with|]. cbn. lia. Qed.
Lemma goes_on_drop env g raw cause es : edge_ok g -> rc_conn (core g) = Some raw -> let '(rc, e, es') := drop (D := edge_delivery aesE gcmSeal) env (core g) (rt g) raw cause in goes_on g (on_link g (rc, e, es ++ es')).1.
Proof.
  intros G Hc. pose proof (drop_spec (L := edge_laws) env (core g) (rt g) raw cause (g_rt g G) Hc) as H. destruct (drop _ _ _ _ _) as [[rc e] es']. destruct H as (R & (_ & [S N] & _ & _ & _ & _ & _ & M) & K & _). by apply goes_on_link.
Qed.
Lemma edge_step_ok env g ev : (forall l, ordS l ≡ₚ l) -> edge_ok g -> nextRef (rt g) + 1 < 2 ^ 32 -> rc_nextID (core g) + 1 < 2 ^ 64 -> goes_on g (step env g ev).1.
Proof.
  intros Hord G N M. destruct ev as [addr ip certHash verified tls13 hasCert|l now kind payload|id random pick|l|n|addr data|raw answer|raw frame|raw|raw|]; cbn [EdgeRuntime.step].
  - by apply accept_ok.
  - destruct (busy g l) eqn:B; [by apply goes_on_refl|]. pose proof (received_goes_on env now g l kind payload G B N M) as H. by destruct (received _ _ _ _ _ _ _) as [[g' es] err].
  - destruct (resume _ _ _ _ _) as [[[g' es] err]|] eqn:E; [|by apply goes_on_refl]. destruct (resume_ok _ _ _ _ _ _ _ _ G E) as (G' & N' & M'). split; [done|]. cbn [fst]. lia.
  - destruct (busy g l); [by apply goes_on_refl|]. pose proof (close_conn_spec env (core g) (rt g) l (g_rt g G)) as H. destruct (close_conn _ _ _ _) as [e es]. destruct H as (R & _ & Nr & S1 & S2 & _). apply goes_on_rt; [done|done| |lia].
    split; [|intros l' [c Hc]; by eapply S2]. intros l' c' H'. destruct (S1 _ _ H') as (c & ? & ? & ? & _). by exists c.
  - destruct (closing (rt g) !! n) as [l|]; [|by apply goes_on_refl]. set (e0 := (rt g) <| closing := _ |>). assert (rt_ok e0) as R0 by (by apply (rt_ok_other (rt g)); [apply G|..]).
    pose proof (close_conn_spec env (core g) e0 l R0) as H. destruct (close_conn _ _ _ _) as [e es]. destruct H as (R & _ & Nr & S1 & S2 & _). change (nextRef e0) with (nextRef (rt g)) in Nr. apply goes_on_rt; [done|done| |lia].
    split; [|intros l' [c Hc]; by eapply S2]. intros l' c' H'. destruct (S1 _ _ H') as (c & ? & ? & ? & _). by exists c.
  - by apply HandleUDP_ok.
  - destruct (rc_conn (core g)) as [raw0|] eqn:Ec; [by apply goes_on_refl|]. unfold connected. assert (forall es, goes_on g (on_link g (core g, rt g, es)).1) as Hsame by (intros es; apply goes_on_link; [done|apply G|apply survives_refl|done|done|done]).
    destruct (negb _); [apply Hsame|]. destruct (DecodeWire _ _ _) as [ack|]; [|apply Hsame]. destruct (_ || _); [apply Hsame|]. cbv zeta. set (rc1 := (core g) <| rc_conn := _ |> <| rc_instance := _ |> <| rc_epoch := _ |>).
    destruct (_ && _); [|apply goes_on_link; [done|apply G|apply survives_refl|done|done|done]].
    pose proof (coreDisconnected_spec env rc1 (rt g) (g_rt g G)) as H. change (CoreDisconnected env rc1 (rt g)) with (coreDisconnected env rc1 (rt g)). destruct (coreDisconnected env rc1 (rt g)) as [e es]. destruct H as (R & _ & _ & Nr & S & _). by apply goes_on_link.
  - case_bool_decide as Hc; [|by apply goes_on_refl]. pose proof (serve_frame_spec (L := edge_laws) env (core g) (rt g) raw frame (g_rt g G) Hc) as H. destruct (serve_frame _ _ _ _ _) as [[rc e] es]. destruct H as (R & [S Nr] & K & _ & Mr & _). by apply goes_on_link.
  - case_bool_decide as Hc; [|by apply goes_on_refl]. unfold serve_tick. destruct (send _ _ _ _ _) as [es [cause|]]; [|apply goes_on_link; [done|apply G|apply survives_refl|done|done|done]].
    pose proof (goes_on_drop env g raw cause es G Hc) as H. by destruct (drop _ _ _ _ _) as [[rc e] es'].
  - case_bool_decide as Hc; [|by apply goes_on_refl]. unfold serve_end. pose proof (goes_on_drop env g raw ErrNetClosed [] G Hc) as H. by destruct (drop _ _ _ _ _) as [[rc e] es'].
  - split; [|cbn; lia]. pose proof G as [G1 G2 G3]. by split.
Qed.
Lemma edge_run_ok evs : forall g, (forall l, ordS l ≡ₚ l) -> edge_ok g -> nextRef (rt g) + zlen evs < 2 ^ 32 -> rc_nextID (core g) + zlen evs < 2 ^ 64 -> edge_ok (run g evs).1.
Proof.
  induction evs as [|[env ev] evs IH]; intros g Hord G N M; [done|]. cbn [EdgeRuntime.run]. rewrite zlen_cons in N, M. pose proof (zlen_nonneg evs). pose proof (edge_step_ok env g ev Hord G ltac:(lia) ltac:(lia)) as H1.
  destruct (step env g ev) as [g1 e1]. destruct H1 as (G1 & N1 & M1). cbn [fst] in *. specialize (IH g1 Hord G1 ltac:(lia) ltac:(lia)). by destruct (run g1 evs) as [g2 e2].
Qed.
Lemma edge_start_ok bound : edge_ok (start bound).
Proof. split; [split; intros *; cbn; rewrite ?lookup_empty; try done; lia|intros id w; cbn; by rewrite lookup_empty|cbn; lia]. Qed.

(** ** What the edge guarantees *)

(** C20: a session's messages reach its client and no other. Whatever happens to
    an edge from its start on (fewer than 2^32 events), its tables are
    consistent: every open connection that asked to log in has its own number,
    every adopted session belongs to one open connection, and only such a
    connection is active. A control message of the Core then is written as it
    is, once, to the one open connection that adopted exactly the session it
    names, if there is one with room in its queue; otherwise nothing happens.
    Of a batch of voice every recipient gets at most one packet, in order, in
    the stream of the connection kept for it or, encrypted with the keys of that
    connection, at the address noted for it; and it gets one if that connection is active and has room, unless its
    packet cannot be encoded. Neither opens a connection or gives a session to
    anybody. *)
Theorem edge_delivers_exactly bound evs env m b :
  (forall l, ordS l ≡ₚ l) -> zlen evs < 2 ^ 32 ->
  let e := rt (run (start bound) evs).1 in
  edge_ok (run (start bound) evs).1 /\
  (let '(e', es) := deliverControl env m e in
   conns e' = conns e /\ sessions e' = sessions e /\
   ((es = [] /\ e' = e /\ forall l c, owner e (cw_Session m) l c -> cw_MessageType m < MessageCount -> room env l = false) \/
    exists l c, owner e (cw_Session m) l c /\ room env l = true /\ cw_MessageType m < MessageCount /\ es = [WriteRaw l (cw_MessageType m) (cw_Payload m)] /\
      e' = if cw_MessageType m =? MessageServerConfig then put_client e l (c <| cl_state := ConnActive |>) else e)) /\
  (let '(e', es) := deliverVoice aesE gcmSeal env b e in
   conns e' = conns e /\ sessions e' = sessions e /\ bySession e' = bySession e /\
   exists parts, es = concat parts /\
     Forall2 (fun r part => (part = [] /\ ~ hears env e (b_Frame b) r) \/ exists o, part = [o] /\ voice_sent e (b_Frame b) r o) (b_Recipients b) parts).
Proof.
  intros Hord N e. pose proof (edge_run_ok evs (start bound) Hord (edge_start_ok bound) N ltac:(cbn; lia)) as G. assert (rt_ok e) as R by apply G. split; [done|]. split.
  - pose proof (deliverControl_spec env m e R) as H. pose proof (deliverControl_exact env m e R) as X. destruct (deliverControl env m e) as [e' es].
    destruct H as (_ & _ & Hc & Hs & _). done.
  - assert (cache_ok (b_Frame b) NewEncodingCache) as K by (intros mode d p _ Hl; by unfold NewEncodingCache, EncodingCache in Hl; rewrite lookup_empty in Hl).
    pose proof (deliver_all_exact env (b_Frame b) (b_Recipients b) e _ K) as H. unfold deliverVoice. destruct (deliver_all _ _ _ _ _ _ _) as [e' es]. destruct H as (H & _ & _ & Ho).
    repeat (split; [apply H|]). done.
Qed.

(** Whoever waits for an answer to a closed connection is refused in silence. *)
Lemma resume_closed env random pick id g w c : edge_ok g -> waiting g !! id = Some w -> clients (rt g) !! w_conn w = Some c -> is_closed c = true ->
  is_Some (rc_results (core g) !! id) -> (forall m, (SetKey (NewCryptState m) (remoteCryptMaterial random m).1.1 (remoteCryptMaterial random m).1.2 (remoteCryptMaterial random m).2).2 = None) ->
  exists g', resume env random pick id g = Some (g', [], Some WriteErr) /\ sessions (rt g') = sessions (rt g) /\ bySession (rt g') = bySession (rt g) /\ conns (rt g') = conns (rt g).
Proof.
  intros G Hw Hc Ho [got Hg] Hk. unfold resume. rewrite Hw. cbn [mbind option_bind]. rewrite Hc. cbn [mbind option_bind].
  assert (exists rc r, Authenticate_end (core g) pick id (w_ref w) = Some (rc, r)) as (rc & r & ->) by (unfold Authenticate_end; destruct (rc_done (core g) && pick) eqn:E; [apply andb_true_iff in E as [-> _]; eauto|rewrite Hg; destruct got as [x|]; [destruct (ap_Rejected x)|]; eauto]).
  cbn [mbind option_bind]. assert (forall c', is_closed c' = is_closed c -> queues env (w_conn w) c' = false) as Hq by (intros c' E; unfold queues; by rewrite E, Ho).
  destruct r as [res|]; [|unfold SendReject; rewrite (Hq c) by done; by eexists]. destruct (au_Rejected res); [unfold SendReject; rewrite (Hq c) by done; by eexists|]. destruct (Valid _); cbn [negb]; [|unfold SendReject; rewrite (Hq c) by done; by eexists].
  unfold adopt. specialize (Hk (negotiateRemoteCrypto c)). destruct (remoteCryptMaterial _ _) as [[key enc] dec]. cbn [fst snd] in Hk. destruct (SetKey _ _ _ _) as [cr err]. cbn [snd] in Hk. subst err.
  rewrite Hq by done. cbn [negb]. by eexists.
Qed.

(** C21: an edge without its Core has no clients. When the link to the Core is
    lost, every connection that ever asked to log in is closed, no number and
    no session is left, nothing can be sent to the Core, and every login that
    was waiting goes on at once, ends with an error, writes nothing to its
    client and adopts nothing, whatever had been answered before. *)
Theorem core_loss_closes env g raw cause :
  edge_ok g -> rc_conn (core g) = Some raw ->
  let '(rc, e, es) := drop (D := edge_delivery aesE gcmSeal) env (core g) (rt g) raw cause in
  let g' := mkEdge e rc (waiting g) in
  edge_ok g' /\ rc_conn rc = None /\ rc_pending rc = ∅ /\ conns e = ∅ /\ sessions e = ∅ /\
  (forall l c, clients e !! l = Some c -> SessionID (cl_session c) <> 0 -> is_closed c = true) /\
  (forall o, o ∈ es -> silent o) /\
  forall env' random pick id w, waiting g !! id = Some w ->
    (forall m, (SetKey (NewCryptState m) (remoteCryptMaterial random m).1.1 (remoteCryptMaterial random m).1.2 (remoteCryptMaterial random m).2).2 = None) ->
    exists g'', resume env' random pick id g' = Some (g'', [], Some WriteErr) /\ sessions (rt g'') = ∅.
Proof.
  intros G Hc. pose proof (drop_spec (L := edge_laws) env (core g) (rt g) raw cause (g_rt g G) Hc) as H. pose proof (goes_on_drop env g raw cause [] G Hc) as HG. destruct (drop _ _ _ _ _) as [[rc e] es]. cbn [app on_link fst] in HG. destruct HG as [HG _].
  destruct H as (R & (Hn & _ & Ho & _ & Hp & _ & _ & _) & _ & Hs). change (delivery_ok e) with (rt_ok e) in R. change (forall l, ~ open_conn e l) in Ho.
  assert (forall l c, clients e !! l = Some c -> SessionID (cl_session c) <> 0 -> is_closed c = true) as Hcl. { intros l c E Hz. destruct (is_closed c) eqn:Ec; [done|]. exfalso. apply (Ho l). by exists c. }
  assert (conns e = ∅) as Hconns. { apply map_empty. intros ref. destruct (conns e !! ref) as [l|] eqn:El; [|done]. destruct (r_conns e R _ _ El) as (Hr & c & E & Hx & Hi). rewrite (Hcl l c E) in Hx; [done|lia]. }
  assert (sessions e = ∅) as Hsess. { apply map_empty. intros ref. destruct (sessions e !! ref) as [s|] eqn:El; [|done]. destruct (r_sessions e R _ _ El) as (_ & l & c & E & _). by rewrite Hconns, lookup_empty in E. }
  repeat (split; [done|]). intros env' random pick id w Hw Hk. destruct (g_waiting _ HG id w Hw) as (_ & Hkn & Hz & c & E & Hse). cbn [rt core] in E, Hkn.
  destruct (resume_closed env' random pick id (mkEdge e rc (waiting g)) w c HG Hw E) as (g'' & Hg & Hs' & _); [apply (Hcl _ _ E); congruence| |done|].
  - destruct Hkn as [Hin|?]; [|done]. rewrite Hp in Hin. set_solver.
  - exists g''. split; [done|]. rewrite Hs'. done.
Qed.

(** One client that is slow, or gone, costs an edge all of its clients. When
    the Core asks for the messages of a session to be flushed (before it closes
    it, or at the end of a login), and the connection of that session is no
    longer there or does not take them in time, the edge drops its link to the
    Core and with it closes every connection that ever asked to log in. *)
Theorem slow_client_ends_edge env g raw w ev :
  edge_ok g -> rc_conn (core g) = Some raw ->
  env_Type w = WireControlFlush -> DecodeWire unmarshal_event w SessionEvent_zero = Some ev ->
  match conn_at (rt g) (ev_Session ev) with Some l => flushes env l = false | None => True end ->
  let g' := (step env g (CoreSends raw (Some w))).1 in
  rc_conn (core g') = None /\ conns (rt g') = ∅ /\
  forall l c, clients (rt g') !! l = Some c -> SessionID (cl_session c) <> 0 -> is_closed c = true.
Proof.
  intros G Hc Ht Hd Hf. cbn [EdgeRuntime.step]. rewrite bool_decide_true by done. unfold serve_frame, readLoop. rewrite Ht. change (bool_decide (WireControlFlush = WireHeartbeat)) with false. change (bool_decide (WireControlFlush = WireAuthResult)) with false.
  change (bool_decide (WireControlFlush = WireControlDown)) with false. change (bool_decide (WireControlFlush = WireControlFlush)) with true. cbv iota. rewrite Hd. change (FlushControl env (ev_Session ev) (rt g)) with (flushControl env (ev_Session ev) (rt g)).
  assert (exists cause, flushControl env (ev_Session ev) (rt g) = Some cause) as [cause ->]. { unfold flushControl. destruct (conn_at _ _); [rewrite Hf|]; by eexists. }
  pose proof (drop_spec (L := edge_laws) env (core g) (rt g) raw cause (g_rt g G) Hc) as H. destruct (drop _ _ _ _ _) as [[rc e] es].
  destruct H as (R & (Hn & _ & Ho & _) & _). change (rt_ok e) in R. change (forall l, ~ open_conn e l) in Ho. cbn [on_link fst core rt]. split; [done|].
  assert (forall l c, clients e !! l = Some c -> SessionID (cl_session c) <> 0 -> is_closed c = true) as Hcl. { intros l c E Hz. destruct (is_closed c) eqn:Ec; [done|]. exfalso. apply (Ho l). by exists c. }
  split; [|done]. apply map_empty. intros ref. destruct (conns e !! ref) as [l|] eqn:El; [|done]. destruct (r_conns e R _ _ El) as (Hr & c & E & Hx & Hi). rewrite (Hcl l c E) in Hx; [done|lia].
Qed.

(** A login that the Core accepts for a connection that has been closed
    meanwhile is forgotten: nothing is adopted, and the Core is not told, so
    that the session stays there. *)
Theorem late_answer_orphans env random pick id g w c a :
  edge_ok g -> waiting g !! id = Some w -> clients (rt g) !! w_conn w = Some c -> is_closed c = true ->
  rc_results (core g) !! id = Some (Ok a) -> ap_Rejected a = false ->
  (forall m, (SetKey (NewCryptState m) (remoteCryptMaterial random m).1.1 (remoteCryptMaterial random m).1.2 (remoteCryptMaterial random m).2).2 = None) ->
  exists g', resume env random pick id g = Some (g', [], Some WriteErr) /\ sessions (rt g') = sessions (rt g) /\ bySession (rt g') = bySession (rt g).
Proof. intros G Hw Hc Ho Hg Ha Hk. destruct (resume_closed env random pick id g w c G Hw Hc Ho ltac:(by eexists) Hk) as (g' & H & H1 & H2 & _). by exists g'. Qed.

(** What a message of a client may cause: answers to that client, and frames to
    the Core under its own number and its own session. *)
Definition own_up g (l : loc) (c : Client) (kind : Z) (payload : bytes) (o : edge_out) : Prop :=
  match o with
  | WriteMessage l' _ => l' = l
  | Up _ _ (UControl m) => is_new c = false /\ OwnershipOf kind = OwnershipCore /\ cw_ConnectionID m = SessionID (cl_session c) /\ conns (rt g) !! cw_ConnectionID m = Some l /\
      rc_sessions (core g) !! cw_ConnectionID m = Some (cw_Session m) /\ cw_MessageType m = u16 kind /\ cw_Payload m = payload
  | Up _ _ (UVoice v) => is_active c = true /\ exists s, sessions (rt g) !! SessionID (cl_session c) = Some s /\ vu_Session v = core_ref s
  | Up _ _ (UAuth r) => aw_ConnectionID r = (attach (rt g) l c).2 /\ ar_CertHash (aw_Request r) = cl_certHash c /\ ar_CertificateVerified (aw_Request r) = cl_verified c
  | _ => False
  end.
Lemma core_owned kind : OwnershipOf kind = OwnershipCore -> kind <> MessageVersion /\ kind <> MessageAuthenticate.
Proof. intros H. split; intros ->; discriminate H. Qed.
(** An edge lets a client speak for itself only. A message that is read from
    a connection causes nothing but answers on that connection and frames under
    the connection's own number: a control message goes to the Core unchanged,
    with the session the Core gave to this number, voice with the session this
    connection adopted, and only when it is active; a login with the
    certificate of the connection. Before the login nothing of the Core's is
    relayed. *)
Theorem edge_speaks_for_owner env now g l c kind payload :
  edge_ok g -> clients (rt g) !! l = Some c ->
  let '(g', es, err) := received SplitHostPort env now g l kind payload in
  forall o, o ∈ es -> own_up g l c kind payload o.
Proof.
  intros G Hl. assert (forall o, o ∈ [] -> own_up g l c kind payload o) as Hnil by (by intros o ?%elem_of_nil). unfold received. rewrite Hl. destruct (is_closed c) eqn:Ho; [done|]. destruct (is_new c && _ && _) eqn:En; [done|].
  assert (forall ms : list message, forall o, o ∈ (if queues env l c then map (WriteMessage l) ms else []) -> own_up g l c kind payload o) as Hms.
  { intros ms o. destruct (queues env l c); [|apply Hnil]. change (map (WriteMessage l) ms) with (WriteMessage l <$> ms). intros (m & -> & _)%list_elem_of_fmap. done. }
  destruct (kind =? MessagePing).
  { unfold replyPing. assert (forall stamp, forall o, o ∈ (let '(good, late, lost, resync) := match cl_Crypt c with Some cr => Stats cr | None => (0, 0, 0, 0) end in
      if queues env l c then [WriteMessage l (MPing (Ping.mk stamp good late lost resync 0 0 0 0 0 0))] else []) -> own_up g l c kind payload o) as Ha.
    { intros stamp. destruct (match cl_Crypt c with Some cr => Stats cr | None => (0, 0, 0, 0) end) as [[[good late] lost] resync]. exact (Hms [_]). }
    destruct (0 <? zlen payload); [destruct (Ping.Unmarshal _ _) as [p [err|]]; [exact Hnil|]|]; apply Ha. }
  destruct (_ <=? _); [done|]. case_bool_decide as Hw.
  - unfold HandleCoreMessage. destruct (_ =? 0); [done|]. case_bool_decide as Hc; [|done]. cbn [negb]. unfold ForwardControl. destruct (rc_conn (core g)) as [raw|] eqn:Er; [|done].
    destruct (rc_sessions (core g) !! SessionID (cl_session c)) as [rf|] eqn:Es; [|done]. change (default noSession (Some rf)) with rf. destruct (Valid rf); [|done]. cbn [negb].
    match goal with |- context [send ?a ?b ?t ?i ?v] => pose proof (send_out a b t i v) as Hs; destruct (send a b t i v) as [es err] end. intros o ->%Hs. cbn. split; [|by repeat split]. destruct (core_owned kind Hw) as [H1%Z.eqb_neq H2%Z.eqb_neq]. rewrite H1, H2 in En. by destruct (is_new c).
  - unfold HandleEdgeMessage. destruct (_ =? _); [by destruct (handleVersion c payload)|]. destruct (_ =? _).
    + unfold handleAuthenticate. destruct (Authenticate.Unmarshal _ _) as [m [err|]]; [done|]. destruct (bool_decide _); [exact (Hms [MReject (Reject.mk RejectInvalidUsername (str "Username required"%string))])|].
      assert (cl_certHash (attach (rt g) l c).1.2 = cl_certHash c /\ cl_verified (attach (rt g) l c).1.2 = cl_verified c /\ cl_state (attach (rt g) l c).1.2 = cl_state c) as (A1 & A2 & A3) by (unfold attach; cbv zeta; destruct (negb _ && _); done).
      assert (own_up g l c kind payload = own_up g l c kind payload) as _ by done. unfold own_up in *. destruct (attach (rt g) l c) as [[e c'] ref]. cbn [fst snd] in *.
      unfold Authenticate_begin. match goal with |- context [send ?a ?b ?t ?i ?v] => pose proof (send_out a b t i v) as Hs; destruct (send a b t i v) as [es [err|]] end; cbn [fst] in Hs.
      * unfold SendReject. intros o [->%Hs|Hin]%elem_of_app; [done|]. destruct (queues env l c'); [|by apply elem_of_nil in Hin]. by apply list_elem_of_singleton in Hin as ->.
      * by intros o ->%Hs.
    + destruct (_ =? _); [destruct (UdpIngress.CryptSetupResync _ _) as [[u ms] err]; apply Hms|]. destruct (_ =? _); [|done]. unfold handleUDPTunnel. destruct (is_active c) eqn:Ea; [|done]. cbn [negb]. destruct (DecodeClientPacket _ _) as [f [err|]]; [done|].
      destruct (sessions (rt g) !! _) as [s|] eqn:Es; [|done]. unfold VoiceUp. match goal with |- context [send ?a ?b ?t ?i ?v] => pose proof (send_out a b t i v) as Hs; destruct (send a b t i v) as [es err] end. intros o ->%Hs. cbn. split; [done|]. by exists s.
Qed.

Lemma adopt_served env random g w c session username raw key enc dec cr : clients (rt g) !! w_conn w = Some c -> is_closed c = false -> room env (w_conn w) = true ->
  rc_conn (core g) = Some raw -> up_takes env = true ->
  remoteCryptMaterial random (negotiateRemoteCrypto c) = (key, enc, dec) -> SetKey (NewCryptState (negotiateRemoteCrypto c)) key enc dec = (cr, None) ->
  let mode := cryptoModeString (negotiateRemoteCrypto c) in
  let c' := c <| cl_Crypt := Some cr |> <| cl_session := mkRef (SessionID (cl_session c)) (Generation session) |> <| cl_userName := if bool_decide (username = []) then w_user w else username |> in
  exists e', adopt env random g w c session username = (with_rt g e', [WriteMessage (w_conn w) (MCryptSetup (CryptSetup.mk (Some key) dec enc)); Up WireTransportReady 0 (UEvent (mkEvent (w_ref w) session mode))], None) /\
    sessions e' = <[w_ref w := mkCoreSession (SessionID session) (Generation session) mode]> (sessions (rt g)) /\ bySession e' = <[session := w_ref w]> (bySession (rt g)) /\ conns e' = conns (rt g) /\ clients e' !! w_conn w = Some c'.
Proof.
  intros Hc Ho Hroom Hconn Hup Hk Hset mode c'. unfold adopt. rewrite Hk, Hset. set (c1 := c <| cl_Crypt := Some cr |>).
  assert (queues env (w_conn w) c1 = true) as -> by (unfold queues; change (is_closed c1) with (is_closed c); by rewrite Ho, Hroom). cbn [negb]. cbv zeta.
  set (g1 := with_rt g (put_client (rt g) (w_conn w) c1)). assert (forall ref rf m, transportReadyWithMode (core g1) (up_takes env) ref rf m = ([Up WireTransportReady 0 (UEvent (mkEvent ref rf m))], None)) as -> by (intros; unfold transportReadyWithMode, send; change (core g1) with (core g); by rewrite Hconn, Hup).
  eexists. split; [reflexivity|]. split; [done|]. split; [done|]. split; [done|]. apply lookup_insert_eq.
Qed.
(** A login that the Core accepts is served. When the answer accepts the
    session and the connection is still open and has room, the client gets its
    keys and the Core the readiness, in this order; the session is adopted
    under the client's number and name; and from then on a control message for
    it is written to this client, the server's configuration making it
    active. *)
Theorem accepted_login_served env random pick id g w c a raw :
  edge_ok g -> waiting g !! id = Some w -> clients (rt g) !! w_conn w = Some c -> is_closed c = false -> room env (w_conn w) = true ->
  rc_done (core g) = false -> rc_conn (core g) = Some raw -> up_takes env = true ->
  rc_results (core g) !! id = Some (Ok a) -> ap_Rejected a = false -> Valid (ap_Session a) = true ->
  let '(key, enc, dec) := remoteCryptMaterial random (negotiateRemoteCrypto c) in
  (SetKey (NewCryptState (negotiateRemoteCrypto c)) key enc dec).2 = None ->
  exists g', resume env random pick id g = Some (g', [WriteMessage (w_conn w) (MCryptSetup (CryptSetup.mk (Some key) dec enc));
      Up WireTransportReady 0 (UEvent (mkEvent (w_ref w) (ap_Session a) (cryptoModeString (negotiateRemoteCrypto c))))], None) /\
    edge_ok g' /\ waiting g' = delete id (waiting g) /\ rc_sessions (core g') !! w_ref w = Some (ap_Session a) /\
    (core_ref <$> sessions (rt g') !! w_ref w) = Some (ap_Session a) /\
    (cl_userName <$> clients (rt g') !! w_conn w) = Some (if bool_decide (ap_Username a = []) then w_user w else ap_Username a) /\
    forall env' m, cw_Session m = ap_Session a -> cw_MessageType m < MessageCount -> room env' (w_conn w) = true ->
      (deliverControl env' m (rt g')).2 = [WriteRaw (w_conn w) (cw_MessageType m) (cw_Payload m)] /\
      (cw_MessageType m = MessageServerConfig -> exists c', clients (deliverControl env' m (rt g')).1 !! w_conn w = Some c' /\ is_active c' = true).
Proof.
  intros G Hw Hc Ho Hroom Hd Hconn Hup Hres Hrej Hv. destruct (remoteCryptMaterial random (negotiateRemoteCrypto c)) as [[key enc] dec] eqn:Ek. intros Hkey.
  destruct (g_waiting g G id w Hw) as (_ & _ & Hz & c0 & Hc0 & Hs). assert (c0 = c) as -> by congruence.
  assert (conns (rt g) !! w_ref w = Some (w_conn w)) as Hat by (rewrite <- Hs; apply (r_attached _ (g_rt g G)); [done|done|congruence]).
  destruct (SetKey _ _ _ _) as [cr e0] eqn:Eset. cbn [snd] in Hkey. subst e0.
  set (rc1 := (core g) <| rc_results := delete id (rc_results (core g)) |> <| rc_sessions := <[w_ref w := ap_Session a]> (rc_sessions (core g)) |>).
  set (g1 := mkEdge (rt g) rc1 (delete id (waiting g))).
  destruct (adopt_served env random g1 w c (ap_Session a) (ap_Username a) raw key enc dec cr Hc Ho Hroom Hconn Hup Ek Eset) as (e' & Had & Hse & Hby & Hco & Hcl).
  assert (resume env random pick id g = Some (adopt env random g1 w c (ap_Session a) (ap_Username a))) as E.
  { unfold resume. rewrite Hw. cbn [mbind option_bind]. rewrite Hc. cbn [mbind option_bind]. unfold Authenticate_end. rewrite Hd. cbn [andb]. rewrite Hres, Hrej. cbn [mbind option_bind].
    change (au_Rejected (result_of a)) with (ap_Rejected a). rewrite Hrej. change (au_SessionID (result_of a)) with (SessionID (ap_Session a)). change (au_Generation (result_of a)) with (Generation (ap_Session a)).
    assert (mkRef (SessionID (ap_Session a)) (Generation (ap_Session a)) = ap_Session a) as -> by (by destruct (ap_Session a)). rewrite Hv. done. }
  rewrite E, Had. exists (with_rt g1 e'). split; [done|]. rewrite Had in E. destruct (resume_ok _ _ _ _ _ _ _ _ G E) as (G' & _). split; [exact G'|]. split; [done|]. split; [apply lookup_insert_eq|].
  cbn [rt with_rt]. split; [rewrite Hse, lookup_insert_eq; cbn; by destruct (ap_Session a)|]. split; [by rewrite Hcl|].
  intros env' m Hm Hkind Hroom'. unfold deliverControl. rewrite Hm, Hby, lookup_insert_eq. change (default 0 (Some (w_ref w))) with (w_ref w). rewrite Hco. change (conns (rt g1)) with (conns (rt g)). rewrite Hat, Hse, lookup_insert_eq.
  change (default no_session (Some ?s)) with s. cbn [cs_sessionID cs_generation]. rewrite !Z.eqb_refl. cbn [negb orb]. destruct (Z.leb_spec MessageCount (cw_MessageType m)); [lia|]. rewrite Hcl. unfold queues. rewrite Hroom'.
  match goal with |- context [is_closed ?x] => change (is_closed x) with (is_closed c) end. rewrite Ho. cbn [negb andb fst snd]. split; [done|]. intros ->. rewrite Z.eqb_refl. eexists. split; [apply lookup_insert_eq|done].
Qed.
End EdgeSafety.
End EdgeSafety.
