(* ===== verification/EdgeProcessSample.v ===== *)
(** * A small edge process

    Two clients come to an edge that is linked to a Core; the theorems of
    [EdgeSafety] applied to it. The JSON documents are stood for by short codes
    and the ciphers by those of [CryptState]'s examples. *)

From Stdlib Require Import ZArith Lia String.
From stdpp Require Import base numbers list gmap sets option.
From S2P Require Import Prelude Wire Fields Messages Codec AudioPacket CryptState Registry VoiceServer UdpIngress Login LoginSample Ingress RemoteWire RemoteCore EdgeRuntime EdgeSafety.

Module EdgeProcessSample.
Import VoiceServer Login LoginSample Ingress RemoteWire RemoteCore EdgeRuntime EdgeSafety.

(** ** Documents *)

Definition ann_session : SessionRef := mkRef 5 7.
Definition bob_session : SessionRef := mkRef 6 8.
Definition accepts (rf : SessionRef) (name : string) : AuthResponse := mkAuthResponse 0 rf (str name) false 0 [].
#[local] Instance codes : JSON := {|
  marshal_envelope e := None;
  unmarshal_envelope b := None;
  unmarshal_hello b := None;
  unmarshal_auth b := None;
  unmarshal_event b := match b with [1] => Some (mkEvent 0 ann_session []) | [2] => Some (mkEvent 0 (mkRef 9 9) []) | _ => None end;
  unmarshal_control b := match b with [1; k] => Some (mkControl 0 ann_session k [4; 4]) | [2; k] => Some (mkControl 0 bob_session k [4; 4]) | _ => None end;
  unmarshal_voice b := None |}.
#[local] Instance core_codes : CoreJSON := {|
  unmarshal_ack b := Some (mkHelloAck (mkVersion WireMajor 0) [1] (mkInstance (str "far"%string) 1) [] []);
  unmarshal_response b := match b with [1] => Some (accepts ann_session "ann") | [2] => Some (accepts bob_session "") | [3] => Some (mkAuthResponse 0 noSession [] true RejectWrongUserPW []) | _ => None end;
  unmarshal_batch b := None |}.

Definition visited (l : list (SessionRef * Z)) : list (SessionRef * Z) := l.
Definition small : UdpIngress.Limits := UdpIngress.mkLimits 100 72000.
Definition fine : Env := mkEnv true (fun _ => true) (fun _ => true) (fun _ => true).
(** Client 0 does not read. *)
Definition stalled : Env := mkEnv true (fun _ => true) (fun l => negb (Nat.eqb l 0)) (fun _ => true).
Definition happens (evs : list edge_event) : Edge := (run toy_aesE toy_aesD toy_seal toy_open host small visited (start true) (map (fun ev => (fine, ev)) evs)).1.
Definition comes : edge_event := Accepted (Some [49; 48]) None [] false false false.
Definition frame (typ : WireType) (id : Z) (data : bytes) : edge_event := CoreSends 0 (Some (mkEnvelope typ id data)).
Definition logs_in (l : loc) (name : string) : edge_event := Received l 0 MessageAuthenticate (come_in name).

(** Ann is in; Bob has asked and been accepted, but his handler has not gone on. *)
Definition morning : list edge_event :=
  [comes; comes; Dialed 0 (mkEnvelope WireHelloAck 1 [1]); logs_in 0 "ann"; frame WireAuthResult 1 [1]; Resumed 1 random_bytes false;
   frame WireControlDown 0 [1; MessageServerConfig]; logs_in 1 "bob"; frame WireAuthResult 2 [2]].
Definition g9 : Edge := happens morning.
Lemma g9_ok : edge_ok g9.
Proof. apply (edge_run_ok toy_aesE toy_aesD toy_seal toy_open host small visited); [done|apply edge_start_ok|vm_compute; reflexivity|vm_compute; reflexivity]. Qed.
Definition client_of (g : Edge) (l : loc) : Client := default (New_client None None [] false false false) (clients (rt g) !! l).
Example ann_is_in : is_active (client_of g9 0) = true /\ cl_userName (client_of g9 0) = str "ann"%string /\ cl_session (client_of g9 0) = mkRef 1 7 /\ conns (rt g9) !! 2 = Some 1%nat.
Proof. vm_compute. repeat split. Qed.
Definition bob_in : Edge := happens (morning ++ [Resumed 2 random_bytes false]).
Example bob_follows : cl_userName (client_of bob_in 1) = str "bob"%string /\ conn_at (rt bob_in) bob_session = Some 1%nat.
Proof. vm_compute. repeat split. Qed.
Definition hears (g : Edge) (env : Env) (typ : WireType) (data : bytes) := step toy_aesE toy_aesD toy_seal toy_open host small visited env g (CoreSends 0 (Some (mkEnvelope typ 7 data))).
Example text_for_ann : (hears g9 fine WireControlDown [1; MessageTextMessage]).2 = [WriteRaw 0 MessageTextMessage [4; 4]].
Proof. vm_compute. reflexivity. Qed.
Example nobody_there : (hears g9 fine WireControlDown [2; MessageTextMessage]).2 = [].
Proof. vm_compute. reflexivity. Qed.
(** Ann's queue does not drain, or Ann has just left: Bob is out, too. *)
Example bob_suffers : map (fun g => (is_closed (client_of g 0), is_closed (client_of g 1), rc_conn (core g))) [(hears bob_in stalled WireControlFlush [1]).1; (hears bob_in fine WireControlFlush [2]).1] =
  [(true, true, None); (true, true, None)].
Proof. vm_compute. reflexivity. Qed.
(** Bob, refused once for an empty name and about to be hung up, asks again; the
    Core takes him in, and is never told that he has gone. *)
Example bob_haunts : let g := happens (morning ++ [Flushed 0]) in
  let g' := happens [comes; Dialed 0 (mkEnvelope WireHelloAck 1 [1]); logs_in 0 ""; logs_in 0 "bob"; Flushed 0; frame WireAuthResult 1 [2]; Resumed 1 random_bytes false] in
  waiting g' = ∅ /\ sessions (rt g') = ∅ /\ rc_sessions (core g') !! 1 = Some bob_session /\ is_closed (client_of g' 0) = true.
Proof. vm_compute. repeat split. Qed.
Example haunts_silently : omap (fun o => match o with Up typ _ _ => Some typ | _ => None end)
  (run toy_aesE toy_aesD toy_seal toy_open host small visited (start true) (map (fun ev => (fine, ev))
    [comes; Dialed 0 (mkEnvelope WireHelloAck 1 [1]); logs_in 0 ""; logs_in 0 "bob"; Flushed 0; frame WireAuthResult 1 [2]; Resumed 1 random_bytes false])).2 = [WireAuthRequest].
Proof. vm_compute. reflexivity. Qed.

(** ** The theorems *)

Definition text : ControlWire := mkControl 0 ann_session MessageTextMessage [4; 4].
Definition words : VoiceBatch := mkBatch bob_session Frame_zero [mkBatchRecipient ann_session 0 0 false false].
Definition happened : list (Env * edge_event) := map (fun ev => (fine, ev)) morning.
Lemma edge_delivers_exactly_witness :
  let e := rt (run toy_aesE toy_aesD toy_seal toy_open host small visited (start true) happened).1 in
  edge_ok (run toy_aesE toy_aesD toy_seal toy_open host small visited (start true) happened).1 /\
  (let '(e', es) := deliverControl fine text e in
   conns e' = conns e /\ sessions e' = sessions e /\
   ((es = [] /\ e' = e /\ forall l c, owner e (cw_Session text) l c -> cw_MessageType text < MessageCount -> room fine l = false) \/
    exists l c, owner e (cw_Session text) l c /\ room fine l = true /\ cw_MessageType text < MessageCount /\ es = [WriteRaw l (cw_MessageType text) (cw_Payload text)] /\
      e' = if cw_MessageType text =? MessageServerConfig then put_client e l (c <| cl_state := ConnActive |>) else e)) /\
  (let '(e', es) := deliverVoice toy_aesE toy_seal fine words e in
   conns e' = conns e /\ sessions e' = sessions e /\ bySession e' = bySession e /\
   exists parts, es = concat parts /\
     Forall2 (fun r part => (part = [] /\ ~ EdgeSafety.hears fine e (b_Frame words) r) \/ exists o, part = [o] /\ voice_sent toy_aesE toy_seal e (b_Frame words) r o) (b_Recipients words) parts).
Proof. apply (edge_delivers_exactly toy_aesE toy_aesD toy_seal toy_open host small visited true happened fine text words); [done|vm_compute; reflexivity]. Defined.

Lemma keys_fit m : (SetKey (NewCryptState m) (remoteCryptMaterial random_bytes m).1.1 (remoteCryptMaterial random_bytes m).1.2 (remoteCryptMaterial random_bytes m).2).2 = None.
Proof. by destruct m. Qed.
Definition bob_waits : waiter := mkWaiter 1 2 (str "bob"%string).
Lemma core_loss_closes_witness :
  let '(rc, e, es) := drop (D := edge_delivery toy_aesE toy_seal) fine (core g9) (rt g9) 0 ErrLink in
  let g' := mkEdge e rc (waiting g9) in
  edge_ok g' /\ rc_conn rc = None /\ rc_pending rc = ∅ /\ conns e = ∅ /\ sessions e = ∅ /\
  (forall l c, clients e !! l = Some c -> SessionID (cl_session c) <> 0 -> is_closed c = true) /\
  (forall o, o ∈ es -> silent o) /\
  forall env' random pick id w, waiting g9 !! id = Some w ->
    (forall m, (SetKey (NewCryptState m) (remoteCryptMaterial random m).1.1 (remoteCryptMaterial random m).1.2 (remoteCryptMaterial random m).2).2 = None) ->
    exists g'', resume env' random pick id g' = Some (g'', [], Some WriteErr) /\ sessions (rt g'') = ∅.
Proof. apply (core_loss_closes toy_aesE toy_seal fine g9 0 ErrLink); [exact g9_ok|vm_compute; reflexivity]. Defined.
Example bob_is_waiting : waiting g9 !! 2 = Some bob_waits /\ forall m, (SetKey (NewCryptState m) (remoteCryptMaterial random_bytes m).1.1 (remoteCryptMaterial random_bytes m).1.2 (remoteCryptMaterial random_bytes m).2).2 = None.
Proof. split; [vm_compute; reflexivity|exact keys_fit]. Qed.

Lemma slow_client_ends_edge_witness :
  let g' := (step toy_aesE toy_aesD toy_seal toy_open host small visited stalled bob_in (CoreSends 0 (Some (mkEnvelope WireControlFlush 7 [1])))).1 in
  rc_conn (core g') = None /\ conns (rt g') = ∅ /\
  forall l c, clients (rt g') !! l = Some c -> SessionID (cl_session c) <> 0 -> is_closed c = true.
Proof.
  apply (slow_client_ends_edge toy_aesE toy_aesD toy_seal toy_open host small visited stalled bob_in 0 (mkEnvelope WireControlFlush 7 [1]) (mkEvent 0 ann_session []));
    [|vm_compute; reflexivity|reflexivity|reflexivity|vm_compute; reflexivity].
  apply (edge_run_ok toy_aesE toy_aesD toy_seal toy_open host small visited); [done|apply edge_start_ok|vm_compute; reflexivity|vm_compute; reflexivity].
Defined.

Lemma edge_speaks_for_owner_witness :
  let '(g', es, err) := received host fine 0 g9 0 MessageTextMessage [1] in
  forall o, o ∈ es -> own_up g9 0 (client_of g9 0) MessageTextMessage [1] o.
Proof. apply (edge_speaks_for_owner host fine 0 g9 0 (client_of g9 0) MessageTextMessage [1]); [exact g9_ok|vm_compute; reflexivity]. Defined.
Example ann_speaks : (received host fine 0 g9 0 MessageTextMessage [1]).1.2 = [Up WireControlUp 0 (UControl (mkControl 1 ann_session MessageTextMessage [1]))].
Proof. vm_compute. reflexivity. Qed.

Lemma accepted_login_served_witness :
  exists g', resume fine random_bytes false 2 g9 = Some (g', [WriteMessage 1 (MCryptSetup (CryptSetup.mk (Some (random_bytes 0 16)) (random_bytes 2 16) (random_bytes 1 16)));
      Up WireTransportReady 0 (UEvent (mkEvent 2 bob_session (str "legacy"%string)))], None) /\
    edge_ok g' /\ waiting g' = delete 2 (waiting g9) /\ rc_sessions (core g') !! 2 = Some bob_session /\
    (core_ref <$> sessions (rt g') !! 2) = Some bob_session /\
    (cl_userName <$> clients (rt g') !! 1%nat) = Some (str "bob"%string) /\
    forall env' m, cw_Session m = bob_session -> cw_MessageType m < MessageCount -> room env' 1%nat = true ->
      (deliverControl env' m (rt g')).2 = [WriteRaw 1 (cw_MessageType m) (cw_Payload m)] /\
      (cw_MessageType m = MessageServerConfig -> exists c', clients (deliverControl env' m (rt g')).1 !! 1%nat = Some c' /\ is_active c' = true).
Proof.
  assert (waiting g9 !! 2 = Some bob_waits) as H1 by (vm_compute; reflexivity). assert (clients (rt g9) !! w_conn bob_waits = Some (client_of g9 1)) as H2 by (vm_compute; reflexivity).
  assert (is_closed (client_of g9 1) = false) as H3 by (vm_compute; reflexivity). assert (rc_done (core g9) = false) as H4 by (vm_compute; reflexivity). assert (rc_conn (core g9) = Some 0%nat) as H5 by (vm_compute; reflexivity).
  assert (rc_results (core g9) !! 2 = Some (Ok (accepts bob_session ""))) as H6 by (vm_compute; reflexivity).
  assert (negotiateRemoteCrypto (client_of g9 1) = ModeLegacy) as Hm by (vm_compute; reflexivity).
  pose proof (accepted_login_served fine random_bytes false 2 g9 bob_waits (client_of g9 1) (accepts bob_session "") 0 g9_ok H1 H2 H3 eq_refl H4 H5 eq_refl H6 eq_refl eq_refl) as H. rewrite Hm in H. exact (H eq_refl).
Defined.
End EdgeProcessSample.
