(* ===== verification/Configuration.v ===== *)
(** * Configuration

    [internal/config]: where each setting comes from (defaults, file,
    environment), what a mode requires, and what of it the database overrides
    when a process starts; with the mode-dependent composition of
    [internal/app/app.go].

    The environment, the file system, the TOML parser and the database library
    are parameters; so are [strings.ToLower] and [net.SplitHostPort]. Durations
    are in nanoseconds. *)

From Stdlib Require Import ZArith Lia String.
From stdpp Require Import base numbers list gmap option.
From S2P Require Import Prelude Wire Fields Acl RemoteCore.

Module Configuration.
Import Acl RemoteCore.

(** ** Data *)

Definition ModeStandalone : gostring := str "standalone".
Definition ModeCore : gostring := str "core".
Definition ModeEdge : gostring := str "edge".
Definition Minute : Z := 60 * Second.

Record Config := mkConfig {
  Mode : gostring;
  Host : gostring;
  MumblePort : Z;
  RESTPort : Z;
  FrontendEmbed : bool;
  DatabasePath : gostring;
  SSLCertPath : gostring;
  SSLKeyPath : gostring;
  EdgeListenAddr : gostring;
  CoreAddress : gostring;
  EdgeID : gostring;
  CoreCACertPath : gostring;
  EdgeTLSCertPath : gostring;
  EdgeTLSKeyPath : gostring;
  EdgeClientCAPath : gostring;
  EdgeClientCertPath : gostring;
  EdgeClientKeyPath : gostring;
  CoreServerName : gostring;
  EdgeHeartbeatInterval : Z;
  EdgeHeartbeatTimeout : Z;
  EdgeReconnectMin : Z;
  EdgeReconnectMax : Z;
  EdgeQueueSize : Z;
  MaxUsers : Z;
  MaxBandwidth : Z;
  LogLevel : gostring;
  JWTIssuer : gostring;
  JWTAudience : gostring;
  JWTExpiryDays : Z;
  ChannelDepth : Z;
  ChannelCount : Z;
  WelcomeText : gostring;
  ServerPassword : gostring;
  DefaultChannel : Z;
  CertRequired : bool;
  Bonjour : bool;
  RegisterName : gostring;
  VoiceDebug : bool;
  AllowRecording : bool;
  MaxTextMessageLength : Z;
  MaxImageMessageLength : Z;
  MaxChannelListeners : Z;
  MaxListenersPerUser : Z;
  AuthMode : gostring;
  ExternalAuthURL : gostring;
  ExternalAuthAuthenticatePath : gostring;
  ExternalAuthResolvePath : gostring;
  ExternalAuthServiceToken : gostring;
  ExternalAuthServerInstanceID : gostring;
  ExternalAuthTimeout : Z;
  ExternalAuthRevalidate : Z;
  ExternalAuthStaleGrace : Z;
  ExternalAuthCACertPath : gostring;
  ExternalAuthClientCertPath : gostring;
  ExternalAuthClientKeyPath : gostring;
  IdentityRevalidateToken : gostring }.
#[export] Instance Config_eta : Eta Config := fun c => mkConfig (Mode c) (Host c) (MumblePort c) (RESTPort c) (FrontendEmbed c) (DatabasePath c) (SSLCertPath c) (SSLKeyPath c)
    (EdgeListenAddr c) (CoreAddress c) (EdgeID c) (CoreCACertPath c) (EdgeTLSCertPath c) (EdgeTLSKeyPath c) (EdgeClientCAPath c) (EdgeClientCertPath c) (EdgeClientKeyPath c)
    (CoreServerName c) (EdgeHeartbeatInterval c) (EdgeHeartbeatTimeout c) (EdgeReconnectMin c) (EdgeReconnectMax c) (EdgeQueueSize c) (MaxUsers c) (MaxBandwidth c) (LogLevel c)
    (JWTIssuer c) (JWTAudience c) (JWTExpiryDays c) (ChannelDepth c) (ChannelCount c) (WelcomeText c) (ServerPassword c) (DefaultChannel c) (CertRequired c) (Bonjour c)
    (RegisterName c) (VoiceDebug c) (AllowRecording c) (MaxTextMessageLength c) (MaxImageMessageLength c) (MaxChannelListeners c) (MaxListenersPerUser c) (AuthMode c)
    (ExternalAuthURL c) (ExternalAuthAuthenticatePath c) (ExternalAuthResolvePath c) (ExternalAuthServiceToken c) (ExternalAuthServerInstanceID c) (ExternalAuthTimeout c)
    (ExternalAuthRevalidate c) (ExternalAuthStaleGrace c) (ExternalAuthCACertPath c) (ExternalAuthClientCertPath c) (ExternalAuthClientKeyPath c) (IdentityRevalidateToken c).

Record Distributed_section := mk_Distributed { fd_Mode : gostring; fd_EdgeListen : gostring; fd_CoreAddress : gostring; fd_EdgeID : gostring; fd_CoreCACert : gostring; fd_EdgeTLSCert : gostring; fd_EdgeTLSKey : gostring; fd_EdgeClientCA : gostring; fd_ClientCert : gostring; fd_ClientKey : gostring; fd_CoreServerName : gostring; fd_HeartbeatIntervalSeconds : Z; fd_HeartbeatTimeoutSeconds : Z; fd_ReconnectMinMS : Z; fd_ReconnectMaxMS : Z; fd_QueueSize : Z }
   .
Record Network_section := mk_Network { fn_Port : Z; fn_RestPort : Z; fn_Host : gostring }.
Record TLS_section := mk_TLS { ft_Cert : gostring; ft_Key : gostring }.
Record Server_section := mk_Server { fs_MaxUsers : Z; fs_MaxBandwidth : Z; fs_WelcomeText : gostring; fs_ServerPassword : gostring; fs_MaxListenersPerChannel : Z; fs_MaxListenersPerUser : Z }
   .
Record Database_section := mk_Database { fb_Path : gostring }.
Record Logging_section := mk_Logging { fl_Level : gostring }.
Record Channels_section := mk_Channels { fh_NestingLimit : Z; fh_CountLimit : Z }.
Record Users_section := mk_Users { fu_DefaultChannel : Z; fu_CertRequired : bool }.
Record Bonjour_section := mk_Bonjour { fj_Enabled : bool; fj_Name : gostring }.
Record Auth_section := mk_Auth { fa_Mode : gostring; fa_ExternalURL : gostring; fa_AuthenticatePath : gostring; fa_ResolvePath : gostring; fa_ServiceToken : gostring; fa_ServerInstanceID : gostring; fa_TimeoutMS : Z; fa_RevalidateIntervalSeconds : Z; fa_StaleGraceSeconds : Z; fa_CACert : gostring; fa_ClientCert : gostring; fa_ClientKey : gostring; fa_IdentityRevalidateToken : gostring }
   .
Record fileConfig := mkFileConfig {
  fc_Distributed : Distributed_section;
  fc_Network : Network_section;
  fc_TLS : TLS_section;
  fc_Server : Server_section;
  fc_Database : Database_section;
  fc_Logging : Logging_section;
  fc_Channels : Channels_section;
  fc_Users : Users_section;
  fc_Bonjour : Bonjour_section;
  fc_Auth : Auth_section }.

Definition defaults : Config := mkConfig ModeStandalone (str "0.0.0.0"%string) 64738 64730 true (str "mumble-server.sqlite"%string) [] [] [] [] [] []
  [] [] [] [] [] [] (5 * Second) (15 * Second) (250 * Millisecond) (5 * Second) 256 100 72000 (str "info"%string) (str "go-mumble-server"%string) (str
  "go-mumble-server-api"%string) 30 10 1000 [] [] 0 false false [] false true 5000 131072 0 0 (str "local"%string) [] (str
  "/api/internal/mumble/v1/authenticate"%string) (str "/api/internal/mumble/v1/identities/resolve"%string) [] [] (1500 * Millisecond) (45 * Second) (3
  * Minute) [] [] [] [].

Inductive config_error : Type :=
  | InvalidMode (value : gostring)
  | ReadConfig (path : gostring)
  | ParseConfig (path : gostring)
  | NoDatabase
  | CertPair (cert key : gostring)
  | ListenAddress (addr : gostring)
  | EdgeTLS (e : config_error)
  | EdgeTLSMissing
  | Unreadable (name : string) (path : gostring)
  | NoCoreAddress
  | CoreAddressFormat (addr : gostring)
  | NoEdgeID
  | ClientTLS (e : config_error)
  | ClientTLSMissing
  | HeartbeatOrder
  | UnsupportedMode (mode : gostring).

(** ** Loading *)

Definition nonempty (s : gostring) : bool := match s with [] => false | _ => true end.
(** [strconv.Atoi]. *)
Definition Atoi (s : gostring) : option Z :=
  let '(neg, digits) := match s with
    | c :: rest => if c =? 45 then (true, rest) else if c =? 43 then (false, rest) else (false, s)
    | [] => (false, s) end in
  match digits with
  | [] => None
  | _ => n ← parse_digits digits 0;
         let v := if neg : bool then - n else n in
         if (- 2 ^ 63 <=? v) && (v <? 2 ^ 63) then Some v else None
  end.
Definition positive (s : gostring) : option Z :=
  n ← Atoi s; if 0 <? n then Some n else None.

(** One assignment of [applyFileConfig] or [applyEnv], with its guard. *)
Definition step : Type := Config -> Config.
Definition always (f : step) : step := f.
Definition only (b : bool) (f : step) : step := fun cfg => if b then f cfg else cfg.
Definition maybe (n : option Z) (f : Z -> step) : step := fun cfg => match n with Some n => f n cfg | None => cfg end.
Definition run (steps : list step) (cfg : Config) : Config := fold_left (fun cfg s => s cfg) steps cfg.

Section Load.
Context (ToLower : gostring -> gostring) (Getenv : string -> gostring).
Context (ReadFile : gostring -> option bytes) (Unmarshal : bytes -> option fileConfig).

Definition ParseRuntimeMode (value : gostring) : result config_error gostring :=
  let mode := ToLower (TrimSpace value) in
  if bool_decide (mode ∈ [ModeStandalone; ModeCore; ModeEdge]) then Ok mode else Err (InvalidMode value).

Definition file_steps (fc : fileConfig) : list step :=
  [only (nonempty (fd_Mode (fc_Distributed fc))) (fun cfg => cfg <| Mode := ToLower (TrimSpace (fd_Mode (fc_Distributed fc))) |>);
   only (nonempty (fd_EdgeListen (fc_Distributed fc))) (fun cfg => cfg <| EdgeListenAddr := fd_EdgeListen (fc_Distributed fc) |>);
   only (nonempty (fd_CoreAddress (fc_Distributed fc))) (fun cfg => cfg <| CoreAddress := fd_CoreAddress (fc_Distributed fc) |>);
   only (nonempty (fd_EdgeID (fc_Distributed fc))) (fun cfg => cfg <| EdgeID := fd_EdgeID (fc_Distributed fc) |>);
   only (nonempty (fd_CoreCACert (fc_Distributed fc))) (fun cfg => cfg <| CoreCACertPath := fd_CoreCACert (fc_Distributed fc) |>);
   always (fun cfg => cfg <| EdgeTLSCertPath := fd_EdgeTLSCert (fc_Distributed fc) |>);
   always (fun cfg => cfg <| EdgeTLSKeyPath := fd_EdgeTLSKey (fc_Distributed fc) |>);
   always (fun cfg => cfg <| EdgeClientCAPath := fd_EdgeClientCA (fc_Distributed fc) |>);
   always (fun cfg => cfg <| EdgeClientCertPath := fd_ClientCert (fc_Distributed fc) |>);
   always (fun cfg => cfg <| EdgeClientKeyPath := fd_ClientKey (fc_Distributed fc) |>);
   always (fun cfg => cfg <| CoreServerName := fd_CoreServerName (fc_Distributed fc) |>);
   only (0 <? (fd_HeartbeatIntervalSeconds (fc_Distributed fc))) (fun cfg => cfg <| EdgeHeartbeatInterval := i64 ((fd_HeartbeatIntervalSeconds (fc_Distributed fc)) * Second) |>);
   only (0 <? (fd_HeartbeatTimeoutSeconds (fc_Distributed fc))) (fun cfg => cfg <| EdgeHeartbeatTimeout := i64 ((fd_HeartbeatTimeoutSeconds (fc_Distributed fc)) * Second) |>);
   only (0 <? (fd_ReconnectMinMS (fc_Distributed fc))) (fun cfg => cfg <| EdgeReconnectMin := i64 ((fd_ReconnectMinMS (fc_Distributed fc)) * Millisecond) |>);
   only (0 <? (fd_ReconnectMaxMS (fc_Distributed fc))) (fun cfg => cfg <| EdgeReconnectMax := i64 ((fd_ReconnectMaxMS (fc_Distributed fc)) * Millisecond) |>);
   only (0 <? (fd_QueueSize (fc_Distributed fc))) (fun cfg => cfg <| EdgeQueueSize := fd_QueueSize (fc_Distributed fc) |>);
   only (nonempty (fn_Host (fc_Network fc))) (fun cfg => cfg <| Host := fn_Host (fc_Network fc) |>);
   only (negb ((fn_Port (fc_Network fc)) =? 0)) (fun cfg => cfg <| MumblePort := fn_Port (fc_Network fc) |>);
   only (negb ((fn_RestPort (fc_Network fc)) =? 0)) (fun cfg => cfg <| RESTPort := fn_RestPort (fc_Network fc) |>);
   only (nonempty (ft_Cert (fc_TLS fc))) (fun cfg => cfg <| SSLCertPath := ft_Cert (fc_TLS fc) |>);
   only (nonempty (ft_Key (fc_TLS fc))) (fun cfg => cfg <| SSLKeyPath := ft_Key (fc_TLS fc) |>);
   only (negb ((fs_MaxUsers (fc_Server fc)) =? 0)) (fun cfg => cfg <| MaxUsers := fs_MaxUsers (fc_Server fc) |>);
   only (negb ((fs_MaxBandwidth (fc_Server fc)) =? 0)) (fun cfg => cfg <| MaxBandwidth := fs_MaxBandwidth (fc_Server fc) |>);
   only (0 <? (fs_MaxListenersPerChannel (fc_Server fc))) (fun cfg => cfg <| MaxChannelListeners := fs_MaxListenersPerChannel (fc_Server fc) |>);
   only (0 <? (fs_MaxListenersPerUser (fc_Server fc))) (fun cfg => cfg <| MaxListenersPerUser := fs_MaxListenersPerUser (fc_Server fc) |>);
   always (fun cfg => cfg <| WelcomeText := fs_WelcomeText (fc_Server fc) |>);
   always (fun cfg => cfg <| ServerPassword := fs_ServerPassword (fc_Server fc) |>);
   only (nonempty (fb_Path (fc_Database fc))) (fun cfg => cfg <| DatabasePath := fb_Path (fc_Database fc) |>);
   only (nonempty (fl_Level (fc_Logging fc))) (fun cfg => cfg <| LogLevel := fl_Level (fc_Logging fc) |>);
   only (negb ((fh_NestingLimit (fc_Channels fc)) =? 0)) (fun cfg => cfg <| ChannelDepth := fh_NestingLimit (fc_Channels fc) |>);
   only (negb ((fh_CountLimit (fc_Channels fc)) =? 0)) (fun cfg => cfg <| ChannelCount := fh_CountLimit (fc_Channels fc) |>);
   always (fun cfg => cfg <| DefaultChannel := fu_DefaultChannel (fc_Users fc) |>);
   always (fun cfg => cfg <| CertRequired := fu_CertRequired (fc_Users fc) |>);
   only (fj_Enabled (fc_Bonjour fc)) (fun cfg => cfg <| Bonjour := true |>);
   only (nonempty (fj_Name (fc_Bonjour fc))) (fun cfg => cfg <| RegisterName := fj_Name (fc_Bonjour fc) |>);
   only (nonempty (fa_Mode (fc_Auth fc))) (fun cfg => cfg <| AuthMode := ToLower (fa_Mode (fc_Auth fc)) |>);
   always (fun cfg => cfg <| ExternalAuthURL := fa_ExternalURL (fc_Auth fc) |>);
   only (nonempty (fa_AuthenticatePath (fc_Auth fc))) (fun cfg => cfg <| ExternalAuthAuthenticatePath := fa_AuthenticatePath (fc_Auth fc) |>);
   only (nonempty (fa_ResolvePath (fc_Auth fc))) (fun cfg => cfg <| ExternalAuthResolvePath := fa_ResolvePath (fc_Auth fc) |>);
   always (fun cfg => cfg <| ExternalAuthServiceToken := fa_ServiceToken (fc_Auth fc) |>);
   always (fun cfg => cfg <| ExternalAuthServerInstanceID := fa_ServerInstanceID (fc_Auth fc) |>);
   only (0 <? (fa_TimeoutMS (fc_Auth fc))) (fun cfg => cfg <| ExternalAuthTimeout := i64 ((fa_TimeoutMS (fc_Auth fc)) * Millisecond) |>);
   only (0 <? (fa_RevalidateIntervalSeconds (fc_Auth fc))) (fun cfg => cfg <| ExternalAuthRevalidate := i64 ((fa_RevalidateIntervalSeconds (fc_Auth fc)) * Second) |>);
   only (0 <? (fa_StaleGraceSeconds (fc_Auth fc))) (fun cfg => cfg <| ExternalAuthStaleGrace := i64 ((fa_StaleGraceSeconds (fc_Auth fc)) * Second) |>);
   always (fun cfg => cfg <| ExternalAuthCACertPath := fa_CACert (fc_Auth fc) |>);
   always (fun cfg => cfg <| ExternalAuthClientCertPath := fa_ClientCert (fc_Auth fc) |>);
   always (fun cfg => cfg <| ExternalAuthClientKeyPath := fa_ClientKey (fc_Auth fc) |>);
   always (fun cfg => cfg <| IdentityRevalidateToken := fa_IdentityRevalidateToken (fc_Auth fc) |>)].

Definition applyFileConfig (cfg : Config) (fc : fileConfig) : Config := run (file_steps fc) cfg.

Definition flag (v : gostring) : bool := bool_decide (ToLower v = str "true") || bool_decide (v = str "1").
Definition env_str (name : string) (f : gostring -> step) : step :=
  let v := Getenv name in only (nonempty v) (f v).
Definition env_int (name : string) (f : Z -> step) : step :=
  let v := Getenv name in only (nonempty v) (maybe (Atoi v) f).
Definition env_pos (name : string) (f : Z -> step) : step :=
  let v := Getenv name in only (nonempty v) (maybe (positive v) f).
Definition env_steps : list step :=
  [env_str "MUMBLE_MODE" (fun v cfg => cfg <| Mode := ToLower (TrimSpace v) |>);
   env_str "MUMBLE_EDGE_LISTEN" (fun v cfg => cfg <| EdgeListenAddr := v |>);
   env_str "MUMBLE_CORE_ADDRESS" (fun v cfg => cfg <| CoreAddress := v |>);
   env_str "MUMBLE_EDGE_ID" (fun v cfg => cfg <| EdgeID := v |>);
   env_str "MUMBLE_CORE_CA_CERT" (fun v cfg => cfg <| CoreCACertPath := v |>);
   env_str "MUMBLE_EDGE_TLS_CERT" (fun v cfg => cfg <| EdgeTLSCertPath := v |>);
   env_str "MUMBLE_EDGE_TLS_KEY" (fun v cfg => cfg <| EdgeTLSKeyPath := v |>);
   env_str "MUMBLE_EDGE_CLIENT_CA" (fun v cfg => cfg <| EdgeClientCAPath := v |>);
   env_str "MUMBLE_EDGE_CLIENT_CERT" (fun v cfg => cfg <| EdgeClientCertPath := v |>);
   env_str "MUMBLE_EDGE_CLIENT_KEY" (fun v cfg => cfg <| EdgeClientKeyPath := v |>);
   env_str "MUMBLE_CORE_SERVER_NAME" (fun v cfg => cfg <| CoreServerName := v |>);
   env_pos "MUMBLE_EDGE_HEARTBEAT_INTERVAL_SECONDS" (fun n cfg => cfg <| EdgeHeartbeatInterval := i64 (n * Second) |>);
   env_pos "MUMBLE_EDGE_HEARTBEAT_TIMEOUT_SECONDS" (fun n cfg => cfg <| EdgeHeartbeatTimeout := i64 (n * Second) |>);
   env_pos "MUMBLE_EDGE_RECONNECT_MIN_MS" (fun n cfg => cfg <| EdgeReconnectMin := i64 (n * Millisecond) |>);
   env_pos "MUMBLE_EDGE_RECONNECT_MAX_MS" (fun n cfg => cfg <| EdgeReconnectMax := i64 (n * Millisecond) |>);
   env_pos "MUMBLE_EDGE_QUEUE_SIZE" (fun n cfg => cfg <| EdgeQueueSize := n |>);
   env_str "MUMBLE_HOST" (fun v cfg => cfg <| Host := v |>);
   env_int "MUMBLE_MUMBLE_PORT" (fun n cfg => cfg <| MumblePort := n |>);
   env_int "MUMBLE_REST_PORT" (fun n cfg => cfg <| RESTPort := n |>);
   env_str "MUMBLE_DATABASE_PATH" (fun v cfg => cfg <| DatabasePath := v |>);
   env_str "MUMBLE_SSL_CERT_PATH" (fun v cfg => cfg <| SSLCertPath := v |>);
   env_str "MUMBLE_SSL_KEY_PATH" (fun v cfg => cfg <| SSLKeyPath := v |>);
   env_int "MUMBLE_MAX_USERS" (fun n cfg => cfg <| MaxUsers := n |>);
   env_int "MUMBLE_MAX_BANDWIDTH" (fun n cfg => cfg <| MaxBandwidth := n |>);
   env_int "MUMBLE_MAX_LISTENERS_PER_CHANNEL" (fun n cfg => cfg <| MaxChannelListeners := n |>);
   env_int "MUMBLE_MAX_LISTENERS_PER_USER" (fun n cfg => cfg <| MaxListenersPerUser := n |>);
   env_str "MUMBLE_LOG_LEVEL" (fun v cfg => cfg <| LogLevel := ToLower v |>);
   env_str "MUMBLE_JWT_ISSUER" (fun v cfg => cfg <| JWTIssuer := v |>);
   env_str "MUMBLE_JWT_AUDIENCE" (fun v cfg => cfg <| JWTAudience := v |>);
   env_int "MUMBLE_JWT_EXPIRY_DAYS" (fun n cfg => cfg <| JWTExpiryDays := n |>);
   env_str "MUMBLE_BONJOUR" (fun v cfg => cfg <| Bonjour := flag v |>);
   env_str "MUMBLE_REGISTER_NAME" (fun v cfg => cfg <| RegisterName := v |>);
   env_str "MUMBLE_WELCOME_TEXT" (fun v cfg => cfg <| WelcomeText := v |>);
   env_str "MUMBLE_SERVER_PASSWORD" (fun v cfg => cfg <| ServerPassword := v |>);
   env_int "MUMBLE_CHANNEL_NESTING_LIMIT" (fun n cfg => cfg <| ChannelDepth := n |>);
   env_int "MUMBLE_CHANNEL_COUNT_LIMIT" (fun n cfg => cfg <| ChannelCount := n |>);
   env_int "MUMBLE_DEFAULT_CHANNEL" (fun n cfg => cfg <| DefaultChannel := n |>);
   env_str "MUMBLE_CERT_REQUIRED" (fun v cfg => cfg <| CertRequired := flag v |>);
   env_str "MUMBLE_AUTH_MODE" (fun v cfg => cfg <| AuthMode := ToLower v |>);
   env_str "MUMBLE_EXTERNAL_AUTH_URL" (fun v cfg => cfg <| ExternalAuthURL := v |>);
   env_str "MUMBLE_EXTERNAL_AUTH_AUTHENTICATE_PATH" (fun v cfg => cfg <| ExternalAuthAuthenticatePath := v |>);
   env_str "MUMBLE_EXTERNAL_AUTH_RESOLVE_PATH" (fun v cfg => cfg <| ExternalAuthResolvePath := v |>);
   env_str "MUMBLE_EXTERNAL_AUTH_SERVICE_TOKEN" (fun v cfg => cfg <| ExternalAuthServiceToken := v |>);
   env_str "MUMBLE_EXTERNAL_AUTH_SERVER_INSTANCE_ID" (fun v cfg => cfg <| ExternalAuthServerInstanceID := v |>);
   env_pos "MUMBLE_EXTERNAL_AUTH_TIMEOUT_MS" (fun n cfg => cfg <| ExternalAuthTimeout := i64 (n * Millisecond) |>);
   env_pos "MUMBLE_EXTERNAL_AUTH_REVALIDATE_SECONDS" (fun n cfg => cfg <| ExternalAuthRevalidate := i64 (n * Second) |>);
   env_pos "MUMBLE_EXTERNAL_AUTH_STALE_GRACE_SECONDS" (fun n cfg => cfg <| ExternalAuthStaleGrace := i64 (n * Second) |>);
   env_str "MUMBLE_EXTERNAL_AUTH_CA_CERT" (fun v cfg => cfg <| ExternalAuthCACertPath := v |>);
   env_str "MUMBLE_EXTERNAL_AUTH_CLIENT_CERT" (fun v cfg => cfg <| ExternalAuthClientCertPath := v |>);
   env_str "MUMBLE_EXTERNAL_AUTH_CLIENT_KEY" (fun v cfg => cfg <| ExternalAuthClientKeyPath := v |>);
   env_str "MUMBLE_IDENTITY_REVALIDATE_TOKEN" (fun v cfg => cfg <| IdentityRevalidateToken := v |>)].

Definition applyEnv (cfg : Config) : Config := run env_steps cfg.

Definition checked (cfg : Config) : result config_error Config :=
  _ ← ParseRuntimeMode (Mode cfg); Ok cfg.
Definition Load (path : gostring) : result config_error Config :=
  if nonempty path then
    match ReadFile path with
    | None => Err (ReadConfig path)
    | Some data => match Unmarshal data with
                   | None => Err (ParseConfig path)
                   | Some fc => checked (applyEnv (applyFileConfig defaults fc))
                   end
    end
  else checked (applyEnv defaults).

(** ** Where a setting comes from *)

(** A setting: how to read it, its value in the environment, its value in a
    file. *)
Inductive setting : Type :=
  | Str (get : Config -> gostring) (env : option gostring) (file : fileConfig -> option gostring)
  | Num (get : Config -> Z) (env : option Z) (file : fileConfig -> option Z)
  | Flag (get : Config -> bool) (env : option bool) (file : fileConfig -> option bool).
Definition given {A} (name : string) (parse : gostring -> option A) : option A :=
  let v := Getenv name in if nonempty v then parse v else None.
Definition settings : list setting :=
  [Str Mode (given "MUMBLE_MODE" (fun v => Some (ToLower (TrimSpace v))))
      (fun fc => if nonempty (fd_Mode (fc_Distributed fc)) then Some (ToLower (TrimSpace (fd_Mode (fc_Distributed fc)))) else None);
   Str Host (given "MUMBLE_HOST" Some)
      (fun fc => if nonempty (fn_Host (fc_Network fc)) then Some (fn_Host (fc_Network fc)) else None);
   Num MumblePort (given "MUMBLE_MUMBLE_PORT" Atoi)
      (fun fc => if negb ((fn_Port (fc_Network fc)) =? 0) then Some (fn_Port (fc_Network fc)) else None);
   Num RESTPort (given "MUMBLE_REST_PORT" Atoi)
      (fun fc => if negb ((fn_RestPort (fc_Network fc)) =? 0) then Some (fn_RestPort (fc_Network fc)) else None);
   Flag FrontendEmbed None (fun _ => None);
   Str DatabasePath (given "MUMBLE_DATABASE_PATH" Some)
      (fun fc => if nonempty (fb_Path (fc_Database fc)) then Some (fb_Path (fc_Database fc)) else None);
   Str SSLCertPath (given "MUMBLE_SSL_CERT_PATH" Some)
      (fun fc => if nonempty (ft_Cert (fc_TLS fc)) then Some (ft_Cert (fc_TLS fc)) else None);
   Str SSLKeyPath (given "MUMBLE_SSL_KEY_PATH" Some)
      (fun fc => if nonempty (ft_Key (fc_TLS fc)) then Some (ft_Key (fc_TLS fc)) else None);
   Str EdgeListenAddr (given "MUMBLE_EDGE_LISTEN" Some)
      (fun fc => if nonempty (fd_EdgeListen (fc_Distributed fc)) then Some (fd_EdgeListen (fc_Distributed fc)) else None);
   Str CoreAddress (given "MUMBLE_CORE_ADDRESS" Some)
      (fun fc => if nonempty (fd_CoreAddress (fc_Distributed fc)) then Some (fd_CoreAddress (fc_Distributed fc)) else None);
   Str EdgeID (given "MUMBLE_EDGE_ID" Some)
      (fun fc => if nonempty (fd_EdgeID (fc_Distributed fc)) then Some (fd_EdgeID (fc_Distributed fc)) else None);
   Str CoreCACertPath (given "MUMBLE_CORE_CA_CERT" Some)
      (fun fc => if nonempty (fd_CoreCACert (fc_Distributed fc)) then Some (fd_CoreCACert (fc_Distributed fc)) else None);
   Str EdgeTLSCertPath (given "MUMBLE_EDGE_TLS_CERT" Some)
      (fun fc => Some (fd_EdgeTLSCert (fc_Distributed fc)));
   Str EdgeTLSKeyPath (given "MUMBLE_EDGE_TLS_KEY" Some)
      (fun fc => Some (fd_EdgeTLSKey (fc_Distributed fc)));
   Str EdgeClientCAPath (given "MUMBLE_EDGE_CLIENT_CA" Some)
      (fun fc => Some (fd_EdgeClientCA (fc_Distributed fc)));
   Str EdgeClientCertPath (given "MUMBLE_EDGE_CLIENT_CERT" Some)
      (fun fc => Some (fd_ClientCert (fc_Distributed fc)));
   Str EdgeClientKeyPath (given "MUMBLE_EDGE_CLIENT_KEY" Some)
      (fun fc => Some (fd_ClientKey (fc_Distributed fc)));
   Str CoreServerName (given "MUMBLE_CORE_SERVER_NAME" Some)
      (fun fc => Some (fd_CoreServerName (fc_Distributed fc)));
   Num EdgeHeartbeatInterval (given "MUMBLE_EDGE_HEARTBEAT_INTERVAL_SECONDS" (fun v => n ← positive v; Some (i64 (n * Second))))
      (fun fc => if 0 <? (fd_HeartbeatIntervalSeconds (fc_Distributed fc)) then Some (i64 ((fd_HeartbeatIntervalSeconds (fc_Distributed fc)) * Second)) else None);
   Num EdgeHeartbeatTimeout (given "MUMBLE_EDGE_HEARTBEAT_TIMEOUT_SECONDS" (fun v => n ← positive v; Some (i64 (n * Second))))
      (fun fc => if 0 <? (fd_HeartbeatTimeoutSeconds (fc_Distributed fc)) then Some (i64 ((fd_HeartbeatTimeoutSeconds (fc_Distributed fc)) * Second)) else None);
   Num EdgeReconnectMin (given "MUMBLE_EDGE_RECONNECT_MIN_MS" (fun v => n ← positive v; Some (i64 (n * Millisecond))))
      (fun fc => if 0 <? (fd_ReconnectMinMS (fc_Distributed fc)) then Some (i64 ((fd_ReconnectMinMS (fc_Distributed fc)) * Millisecond)) else None);
   Num EdgeReconnectMax (given "MUMBLE_EDGE_RECONNECT_MAX_MS" (fun v => n ← positive v; Some (i64 (n * Millisecond))))
      (fun fc => if 0 <? (fd_ReconnectMaxMS (fc_Distributed fc)) then Some (i64 ((fd_ReconnectMaxMS (fc_Distributed fc)) * Millisecond)) else None);
   Num EdgeQueueSize (given "MUMBLE_EDGE_QUEUE_SIZE" (fun v => n ← positive v; Some n))
      (fun fc => if 0 <? (fd_QueueSize (fc_Distributed fc)) then Some (fd_QueueSize (fc_Distributed fc)) else None);
   Num MaxUsers (given "MUMBLE_MAX_USERS" Atoi)
      (fun fc => if negb ((fs_MaxUsers (fc_Server fc)) =? 0) then Some (fs_MaxUsers (fc_Server fc)) else None);
   Num MaxBandwidth (given "MUMBLE_MAX_BANDWIDTH" Atoi)
      (fun fc => if negb ((fs_MaxBandwidth (fc_Server fc)) =? 0) then Some (fs_MaxBandwidth (fc_Server fc)) else None);
   Str LogLevel (given "MUMBLE_LOG_LEVEL" (fun v => Some (ToLower v)))
      (fun fc => if nonempty (fl_Level (fc_Logging fc)) then Some (fl_Level (fc_Logging fc)) else None);
   Str JWTIssuer (given "MUMBLE_JWT_ISSUER" Some) (fun _ => None);
   Str JWTAudience (given "MUMBLE_JWT_AUDIENCE" Some) (fun _ => None);
   Num JWTExpiryDays (given "MUMBLE_JWT_EXPIRY_DAYS" Atoi) (fun _ => None);
   Num ChannelDepth (given "MUMBLE_CHANNEL_NESTING_LIMIT" Atoi)
      (fun fc => if negb ((fh_NestingLimit (fc_Channels fc)) =? 0) then Some (fh_NestingLimit (fc_Channels fc)) else None);
   Num ChannelCount (given "MUMBLE_CHANNEL_COUNT_LIMIT" Atoi)
      (fun fc => if negb ((fh_CountLimit (fc_Channels fc)) =? 0) then Some (fh_CountLimit (fc_Channels fc)) else None);
   Str WelcomeText (given "MUMBLE_WELCOME_TEXT" Some)
      (fun fc => Some (fs_WelcomeText (fc_Server fc)));
   Str ServerPassword (given "MUMBLE_SERVER_PASSWORD" Some)
      (fun fc => Some (fs_ServerPassword (fc_Server fc)));
   Num DefaultChannel (given "MUMBLE_DEFAULT_CHANNEL" Atoi)
      (fun fc => Some (fu_DefaultChannel (fc_Users fc)));
   Flag CertRequired (given "MUMBLE_CERT_REQUIRED" (fun v => Some (flag v)))
      (fun fc => Some (fu_CertRequired (fc_Users fc)));
   Flag Bonjour (given "MUMBLE_BONJOUR" (fun v => Some (flag v)))
      (fun fc => if fj_Enabled (fc_Bonjour fc) then Some true else None);
   Str RegisterName (given "MUMBLE_REGISTER_NAME" Some)
      (fun fc => if nonempty (fj_Name (fc_Bonjour fc)) then Some (fj_Name (fc_Bonjour fc)) else None);
   Flag VoiceDebug None (fun _ => None);
   Flag AllowRecording None (fun _ => None);
   Num MaxTextMessageLength None (fun _ => None);
   Num MaxImageMessageLength None (fun _ => None);
   Num MaxChannelListeners (given "MUMBLE_MAX_LISTENERS_PER_CHANNEL" Atoi)
      (fun fc => if 0 <? (fs_MaxListenersPerChannel (fc_Server fc)) then Some (fs_MaxListenersPerChannel (fc_Server fc)) else None);
   Num MaxListenersPerUser (given "MUMBLE_MAX_LISTENERS_PER_USER" Atoi)
      (fun fc => if 0 <? (fs_MaxListenersPerUser (fc_Server fc)) then Some (fs_MaxListenersPerUser (fc_Server fc)) else None);
   Str AuthMode (given "MUMBLE_AUTH_MODE" (fun v => Some (ToLower v)))
      (fun fc => if nonempty (fa_Mode (fc_Auth fc)) then Some (ToLower (fa_Mode (fc_Auth fc))) else None);
   Str ExternalAuthURL (given "MUMBLE_EXTERNAL_AUTH_URL" Some)
      (fun fc => Some (fa_ExternalURL (fc_Auth fc)));
   Str ExternalAuthAuthenticatePath (given "MUMBLE_EXTERNAL_AUTH_AUTHENTICATE_PATH" Some)
      (fun fc => if nonempty (fa_AuthenticatePath (fc_Auth fc)) then Some (fa_AuthenticatePath (fc_Auth fc)) else None);
   Str ExternalAuthResolvePath (given "MUMBLE_EXTERNAL_AUTH_RESOLVE_PATH" Some)
      (fun fc => if nonempty (fa_ResolvePath (fc_Auth fc)) then Some (fa_ResolvePath (fc_Auth fc)) else None);
   Str ExternalAuthServiceToken (given "MUMBLE_EXTERNAL_AUTH_SERVICE_TOKEN" Some)
      (fun fc => Some (fa_ServiceToken (fc_Auth fc)));
   Str ExternalAuthServerInstanceID (given "MUMBLE_EXTERNAL_AUTH_SERVER_INSTANCE_ID" Some)
      (fun fc => Some (fa_ServerInstanceID (fc_Auth fc)));
   Num ExternalAuthTimeout (given "MUMBLE_EXTERNAL_AUTH_TIMEOUT_MS" (fun v => n ← positive v; Some (i64 (n * Millisecond))))
      (fun fc => if 0 <? (fa_TimeoutMS (fc_Auth fc)) then Some (i64 ((fa_TimeoutMS (fc_Auth fc)) * Millisecond)) else None);
   Num ExternalAuthRevalidate (given "MUMBLE_EXTERNAL_AUTH_REVALIDATE_SECONDS" (fun v => n ← positive v; Some (i64 (n * Second))))
      (fun fc => if 0 <? (fa_RevalidateIntervalSeconds (fc_Auth fc)) then Some (i64 ((fa_RevalidateIntervalSeconds (fc_Auth fc)) * Second)) else None);
   Num ExternalAuthStaleGrace (given "MUMBLE_EXTERNAL_AUTH_STALE_GRACE_SECONDS" (fun v => n ← positive v; Some (i64 (n * Second))))
      (fun fc => if 0 <? (fa_StaleGraceSeconds (fc_Auth fc)) then Some (i64 ((fa_StaleGraceSeconds (fc_Auth fc)) * Second)) else None);
   Str ExternalAuthCACertPath (given "MUMBLE_EXTERNAL_AUTH_CA_CERT" Some)
      (fun fc => Some (fa_CACert (fc_Auth fc)));
   Str ExternalAuthClientCertPath (given "MUMBLE_EXTERNAL_AUTH_CLIENT_CERT" Some)
      (fun fc => Some (fa_ClientCert (fc_Auth fc)));
   Str ExternalAuthClientKeyPath (given "MUMBLE_EXTERNAL_AUTH_CLIENT_KEY" Some)
      (fun fc => Some (fa_ClientKey (fc_Auth fc)));
   Str IdentityRevalidateToken (given "MUMBLE_IDENTITY_REVALIDATE_TOKEN" Some)
      (fun fc => Some (fa_IdentityRevalidateToken (fc_Auth fc)))].

(** The environment first, then the file, then the default. *)
Definition from {A} (get : Config -> A) (env : option A) (file : option A) : A := default (default (get defaults) file) env.
Definition follows (fc : option fileConfig) (cfg : Config) (s : setting) : Prop :=
  match s with
  | Str get env file => get cfg = from get env (fc ≫= file)
  | Num get env file => get cfg = from get env (fc ≫= file)
  | Flag get env file => get cfg = from get env (fc ≫= file)
  end.
End Load.

(** What a list of assignments does to one setting. *)
Section Affects.
Context {T : Type} (get : Config -> T).
Inductive affects : list step -> (T -> T) -> Prop :=
  | affects_nil : affects [] (fun x => x)
  | affects_skip s l g : (forall c, get (s c) = get c) -> affects l g -> affects (s :: l) g
  | affects_hit s l g h : (forall c, get (s c) = h (get c)) -> affects l g -> affects (s :: l) (fun x => g (h x)).
Lemma affects_run l g : affects l g -> forall c, get (run l c) = g (get c).
Proof. unfold run. induction 1 as [|s l g E _ IH|s l g h E _ IH]; intros c; cbn; rewrite ?IH, ?E; done. Qed.
Lemma always_skips f l g : (forall c, get (f c) = get c) -> affects l g -> affects (always f :: l) g.
Proof. apply affects_skip. Qed.
Lemma only_skips b f l g : (forall c, get (f c) = get c) -> affects l g -> affects (only b f :: l) g.
Proof. intros E. apply affects_skip. intros c. unfold only. by destruct b. Qed.
Lemma maybe_skips b n f l g : (forall n c, get (f n c) = get c) -> affects l g -> affects (only b (maybe n f) :: l) g.
Proof. intros E. apply only_skips. intros c. unfold maybe. by destruct n. Qed.
Lemma always_hits f l g v : (forall c, get (f c) = v) -> affects l g -> affects (always f :: l) (fun x => g v).
Proof. intros E H. by apply (affects_hit (always f) l g (fun _ => v)). Qed.
Lemma only_hits b f l g v : (forall c, get (f c) = v) -> affects l g -> affects (only b f :: l) (fun x => g (if b then v else x)).
Proof. intros E H. apply (affects_hit (only b f) l g (fun x => if b then v else x)); [|done]. intros c. unfold only. by destruct b. Qed.
Lemma maybe_hits b n f l g v : (forall n c, get (f n c) = v n) -> affects l g ->
  affects (only b (maybe n f) :: l) (fun x => g (if b then match n with Some n => v n | None => x end else x)).
Proof.
  intros E H. apply (affects_hit (only b (maybe n f)) l g (fun x => if b then match n with Some n => v n | None => x end else x)); [|done].
  intros c. unfold only, maybe. destruct b, n; done.
Qed.
End Affects.

(** Finds what the assignments do to a setting, one after the other. *)
Ltac steps_affect :=
  first
  [ apply affects_nil
  | lazymatch goal with
    | |- affects _ (only _ (maybe _ _) :: _) _ => eapply maybe_skips; [intros ? ?; reflexivity|steps_affect]
    | |- affects _ (only _ _ :: _) _ => eapply only_skips; [intros ?; reflexivity|steps_affect]
    | |- affects _ (always _ :: _) _ => eapply always_skips; [intros ?; reflexivity|steps_affect]
    end
  | eapply maybe_hits; [intros ? ?; cbn; reflexivity|steps_affect]
  | eapply only_hits; [intros ?; cbn; reflexivity|steps_affect]
  | eapply always_hits; [intros ?; cbn; reflexivity|steps_affect] ].

Section Precedence.
Context (ToLower : gostring -> gostring) (Getenv : string -> gostring).

Lemma env_affects {T} (get : Config -> T) g c : affects get (env_steps ToLower Getenv) g -> get (applyEnv ToLower Getenv c) = g (get c).
Proof. intros H. apply (affects_run get _ _ H). Qed.
Lemma file_affects {T} (get : Config -> T) fc g c : affects get (file_steps ToLower fc) g -> get (applyFileConfig ToLower c fc) = g (get c).
Proof. intros H. apply (affects_run get _ _ H). Qed.

Definition env_gives (c : Config) (s : setting) : Prop :=
  match s with
  | Str get env _ => get (applyEnv ToLower Getenv c) = default (get c) env
  | Num get env _ => get (applyEnv ToLower Getenv c) = default (get c) env
  | Flag get env _ => get (applyEnv ToLower Getenv c) = default (get c) env
  end.
Lemma env_over c : Forall (env_gives c) (settings ToLower Getenv).
Proof.
  unfold settings. repeat apply Forall_cons_2; [..|apply Forall_nil_2]; unfold env_gives.
  all: (etransitivity; [apply env_affects; unfold env_steps, env_str, env_int, env_pos; cbv zeta; steps_affect|]).
  all: unfold given; cbv zeta beta; try reflexivity; destruct (nonempty _); try reflexivity.
  all: first [destruct (positive _); reflexivity|destruct (Atoi _); reflexivity].
Qed.
Definition file_gives (fc : fileConfig) (c : Config) (s : setting) : Prop :=
  match s with
  | Str get _ file => get (applyFileConfig ToLower c fc) = default (get c) (file fc)
  | Num get _ file => get (applyFileConfig ToLower c fc) = default (get c) (file fc)
  | Flag get _ file => get (applyFileConfig ToLower c fc) = default (get c) (file fc)
  end.
Lemma file_over fc c : Forall (file_gives fc c) (settings ToLower Getenv).
Proof.
  unfold settings. repeat apply Forall_cons_2; [..|apply Forall_nil_2]; unfold file_gives.
  all: (etransitivity; [apply file_affects; unfold file_steps; steps_affect|]).
  all: cbv beta; try reflexivity; match goal with |- context [if ?b then _ else _] => destruct b end; reflexivity.
Qed.

(** ** Precedence *)

Context (ReadFile : gostring -> option bytes) (Unmarshal : bytes -> option fileConfig).
Notation Load := (Load ToLower Getenv ReadFile Unmarshal).
Notation settings := (settings ToLower Getenv).

(** The file of a command line. *)
Definition file_at (path : gostring) (fc : option fileConfig) : Prop :=
  (path = [] /\ fc = None) \/
  (path <> [] /\ exists data f, ReadFile path = Some data /\ Unmarshal data = Some f /\ fc = Some f).
Definition over_defaults (fc : option fileConfig) : Config :=
  match fc with Some f => applyFileConfig ToLower defaults f | None => defaults end.
Lemma follows_all fc : Forall (follows fc (applyEnv ToLower Getenv (over_defaults fc))) settings.
Proof.
  pose proof (env_over (over_defaults fc)) as E.
  assert (Forall (fun s => match fc with Some f => file_gives f defaults s | None => True end) settings) as F by (destruct fc; [apply file_over|by apply Forall_true]).
  assert (Forall (fun s => env_gives (over_defaults fc) s /\ match fc with Some f => file_gives f defaults s | None => True end) settings) as H by (by apply Forall_and).
  eapply Forall_impl; [|exact H].
  intros [get env file|get env file|get env file] [E' F']; cbn in E', F' |- *; rewrite E'; unfold from; f_equal; destruct fc; done.
Qed.

(** C31: what [Load] answers: every setting is the one of the environment where
    that has a usable one, else that of the file, else the default; it fails
    just when the file named cannot be read or parsed or the mode that results
    is none of the three. *)
Theorem load_precedence path :
  match Load path with
  | Ok cfg => exists fc, file_at path fc /\ Forall (follows fc cfg) settings /\ ToLower (TrimSpace (Mode cfg)) ∈ [ModeStandalone; ModeCore; ModeEdge]
  | Err (ReadConfig p) => p = path /\ path <> [] /\ ReadFile path = None
  | Err (ParseConfig p) => p = path /\ path <> [] /\ exists data, ReadFile path = Some data /\ Unmarshal data = None
  | Err (InvalidMode m) => (exists fc cfg, file_at path fc /\ Forall (follows fc cfg) settings /\ Mode cfg = m) /\ ToLower (TrimSpace m) ∉ [ModeStandalone; ModeCore; ModeEdge]
  | Err _ => False
  end.
Proof.
  assert (forall fc, file_at path fc -> match checked ToLower (applyEnv ToLower Getenv (over_defaults fc)) with
    | Ok cfg => exists fc, file_at path fc /\ Forall (follows fc cfg) settings /\ ToLower (TrimSpace (Mode cfg)) ∈ [ModeStandalone; ModeCore; ModeEdge]
    | Err (InvalidMode m) => (exists fc cfg, file_at path fc /\ Forall (follows fc cfg) settings /\ Mode cfg = m) /\ ToLower (TrimSpace m) ∉ [ModeStandalone; ModeCore; ModeEdge]
    | Err _ => False end) as H.
  { intros fc Hf. pose proof (follows_all fc) as HF. revert HF. generalize (applyEnv ToLower Getenv (over_defaults fc)).
    intros cfg HF. unfold checked, ParseRuntimeMode. cbv zeta. destruct (bool_decide _) eqn:E; cbn [mbind result_bind].
    - apply bool_decide_eq_true in E. by exists fc.
    - apply bool_decide_eq_false in E. split; [by exists fc, cfg|done]. }
  unfold Configuration.Load. destruct (nonempty path) eqn:Ep.
  - assert (path <> []) by (by intros ->).
    destruct (ReadFile path) as [data|] eqn:Er; [|done]. destruct (Unmarshal data) as [f|] eqn:Eu; [|by eauto].
    refine (_ (H (Some f) (or_intror _))); [|split; [done|by exists data, f]].
    destruct (checked _ _) as [|[]]; done.
  - assert (path = []) as -> by (by destruct path).
    refine (_ (H None (or_introl _))); [|done]. destruct (checked _ _) as [|[]]; done.
Qed.
End Precedence.

End Configuration.
