(* ===== verification/Startup.v ===== *)
(** * Starting a process

    What a mode requires of its configuration ([internal/config/config.go],
    [ValidateForMode]), the settings the database holds and how they meet those
    of the configuration ([internal/config/dbconfig.go],
    [internal/database/bootstrap.go], the beginning of [Prepare] in
    [internal/server/server.go]), and which parts a process is made of
    ([internal/app]).

    The file system, the parsing of addresses and the network are parameters; of
    the database library, a row that is created and read again. *)

From Stdlib Require Import ZArith Lia String.
From stdpp Require Import base numbers list gmap option.
From S2P Require Import Prelude Wire Fields Acl RemoteCore Configuration.

Module Startup.
Import RemoteCore Configuration.

(** ** What a mode requires *)

Section Validate.
Context (SplitHostPort : gostring -> option gostring) (Stat : gostring -> bool).
(** The order in which a map of paths is visited. *)
Context (visit : list (string * gostring) -> list (string * gostring)).

Definition validateCertPair (certPath keyPath : gostring) : result config_error unit :=
  if negb (eqb (nonempty certPath) (nonempty keyPath)) then Err (CertPair certPath keyPath) else Ok tt.
Definition wrapped (wrap : config_error -> config_error) (r : result config_error unit) : result config_error unit :=
  match r with Ok u => Ok u | Err e => Err (wrap e) end.
Fixpoint stat_all (paths : list (string * gostring)) : result config_error unit :=
  match paths with
  | [] => Ok tt
  | (name, path) :: paths => if Stat path then stat_all paths else Err (Unreadable name path)
  end.
Definition splits (addr : gostring) : bool := match SplitHostPort addr with Some _ => true | None => false end.

Definition ValidateForMode (cfg : Config) : result config_error unit :=
  if bool_decide (Mode cfg ∈ [ModeStandalone; ModeCore]) then
    if negb (nonempty (DatabasePath cfg)) then Err NoDatabase else
    _ ← validateCertPair (SSLCertPath cfg) (SSLKeyPath cfg);
    if bool_decide (Mode cfg = ModeCore) && nonempty (EdgeListenAddr cfg) then
      if negb (splits (EdgeListenAddr cfg)) then Err (ListenAddress (EdgeListenAddr cfg)) else
      _ ← wrapped EdgeTLS (validateCertPair (EdgeTLSCertPath cfg) (EdgeTLSKeyPath cfg));
      if negb (nonempty (EdgeTLSCertPath cfg)) || negb (nonempty (EdgeClientCAPath cfg)) then Err EdgeTLSMissing else
      stat_all (visit [("edge_tls_cert"%string, EdgeTLSCertPath cfg); ("edge_tls_key"%string, EdgeTLSKeyPath cfg); ("edge_client_ca"%string, EdgeClientCAPath cfg)])
    else Ok tt
  else if bool_decide (Mode cfg = ModeEdge) then
    if negb (nonempty (CoreAddress cfg)) then Err NoCoreAddress else
    if negb (splits (CoreAddress cfg)) then Err (CoreAddressFormat (CoreAddress cfg)) else
    if negb (nonempty (EdgeID cfg)) then Err NoEdgeID else
    _ ← validateCertPair (SSLCertPath cfg) (SSLKeyPath cfg);
    if nonempty (CoreCACertPath cfg) && negb (Stat (CoreCACertPath cfg)) then Err (Unreadable "core_ca_cert" (CoreCACertPath cfg)) else
    _ ← wrapped ClientTLS (validateCertPair (EdgeClientCertPath cfg) (EdgeClientKeyPath cfg));
    if negb (nonempty (CoreCACertPath cfg)) || negb (nonempty (EdgeClientCertPath cfg)) then Err ClientTLSMissing else
    _ ← stat_all (visit [("client_cert"%string, EdgeClientCertPath cfg); ("client_key"%string, EdgeClientKeyPath cfg)]);
    if EdgeHeartbeatTimeout cfg <=? EdgeHeartbeatInterval cfg then Err HeartbeatOrder else Ok tt
  else Err (UnsupportedMode (Mode cfg)).

(** The configuration an edge hands to its link to the Core. *)
Definition edge_client_config (cfg : Config) : RemoteCoreClientConfig :=
  mkClientConfig (CoreAddress cfg) (EdgeID cfg) (EdgeReconnectMin cfg) (EdgeReconnectMax cfg) (EdgeHeartbeatInterval cfg) (EdgeHeartbeatTimeout cfg) (EdgeQueueSize cfg).

(** A deployment that can be started, said without the order of the checks. *)
Definition paired (cert key : gostring) : Prop := cert = [] <-> key = [].
Definition readable (path : gostring) : Prop := path <> [] /\ Stat path = true.
Definition deployable (cfg : Config) : Prop :=
  paired (SSLCertPath cfg) (SSLKeyPath cfg) /\
  ((Mode cfg = ModeStandalone /\ DatabasePath cfg <> []) \/
   (Mode cfg = ModeCore /\ DatabasePath cfg <> [] /\
    (EdgeListenAddr cfg <> [] -> splits (EdgeListenAddr cfg) = true /\
     readable (EdgeTLSCertPath cfg) /\ readable (EdgeTLSKeyPath cfg) /\ readable (EdgeClientCAPath cfg))) \/
   (Mode cfg = ModeEdge /\ CoreAddress cfg <> [] /\ splits (CoreAddress cfg) = true /\ EdgeID cfg <> [] /\
    readable (CoreCACertPath cfg) /\ readable (EdgeClientCertPath cfg) /\ readable (EdgeClientKeyPath cfg) /\
    EdgeHeartbeatInterval cfg < EdgeHeartbeatTimeout cfg)).

Lemma nonempty_true s : nonempty s = true <-> s <> [].
Proof. by destruct s. Qed.
Lemma nonempty_false s : nonempty s = false <-> s = [].
Proof. by destruct s. Qed.
Lemma cert_pair_ok c k : validateCertPair c k = Ok tt <-> paired c k.
Proof. unfold validateCertPair, paired. destruct c, k; cbn; naive_solver. Qed.
Lemma wrapped_ok f r : wrapped f r = Ok tt <-> r = Ok tt.
Proof. by destruct r. Qed.
Lemma then_ok (r : result config_error unit) (k : result config_error unit) : (_ ← r; k) = Ok tt <-> r = Ok tt /\ k = Ok tt.
Proof. destruct r as [[]|]; cbn; naive_solver. Qed.
Lemma guard_ok (b : bool) e (k : result config_error unit) : (if b then Err e else k) = Ok tt <-> b = false /\ k = Ok tt.
Proof. destruct b; naive_solver. Qed.
Lemma stat_all_ok l : stat_all l = Ok tt <-> Forall (fun p => Stat p.2 = true) l.
Proof.
  induction l as [|[name path] l IH]; cbn; [by split; [constructor|]|]. rewrite Forall_cons_iff. cbn.
  destruct (Stat path); [rewrite IH; naive_solver|naive_solver].
Qed.
Lemma stat_visited l : (forall l, visit l ≡ₚ l) -> stat_all (visit l) = Ok tt <-> Forall (fun p => Stat p.2 = true) l.
Proof. intros H. rewrite stat_all_ok. by apply Forall_Permutation, H. Qed.

(** C32: a configuration passes the check before the start just when it
    describes a deployment that can be started in its mode, in whatever order
    its paths are visited. *)
Theorem validation_exact cfg : (forall l, visit l ≡ₚ l) -> ValidateForMode cfg = Ok tt <-> deployable cfg.
Proof.
  intros Hv. unfold ValidateForMode, deployable, readable. destruct (decide (Mode cfg ∈ [ModeStandalone; ModeCore])) as [H|H].
  - rewrite (bool_decide_eq_true_2 _ H), guard_ok, then_ok, cert_pair_ok, negb_false_iff, nonempty_true.
    assert (Mode cfg <> ModeEdge) as He by (intros E; rewrite E in H; apply (bool_decide_eq_true_2 _) in H; by vm_compute in H).
    destruct (decide (Mode cfg = ModeCore)) as [E|E].
    + rewrite (bool_decide_eq_true_2 _ E). assert (Mode cfg <> ModeStandalone) by (rewrite E; by vm_compute).
      destruct (nonempty (EdgeListenAddr cfg)) eqn:El; cbn [andb]; [apply nonempty_true in El|apply nonempty_false in El; naive_solver].
      rewrite guard_ok, then_ok, guard_ok, wrapped_ok, cert_pair_ok, (stat_visited _ Hv), orb_false_iff, !negb_false_iff, !nonempty_true, !Forall_cons_iff. cbn. unfold paired. naive_solver.
    + rewrite (bool_decide_eq_false_2 _ E). cbn [andb]. assert (Mode cfg = ModeStandalone) by (revert H; rewrite !elem_of_cons, elem_of_nil; naive_solver). naive_solver.
  - rewrite (bool_decide_eq_false_2 _ H). rewrite !elem_of_cons, elem_of_nil in H. destruct (decide (Mode cfg = ModeEdge)) as [E|E]; [|rewrite (bool_decide_eq_false_2 _ E); naive_solver].
    rewrite (bool_decide_eq_true_2 _ E), !guard_ok, then_ok, guard_ok, then_ok, guard_ok, then_ok, guard_ok, wrapped_ok, !cert_pair_ok, (stat_visited _ Hv), orb_false_iff, andb_false_iff, !negb_false_iff, !nonempty_true, nonempty_false, !Forall_cons_iff, Z.leb_gt. cbn. unfold paired. naive_solver.
Qed.

(** What the check lets through, the link to the Core accepts, and with a
    heartbeat that is configured at all it keeps the configured one. *)
Theorem validated_edge_connects cfg : (forall l, visit l ≡ₚ l) -> Mode cfg = ModeEdge -> ValidateForMode cfg = Ok tt ->
  exists cc, NewRemoteCoreClientWithConfig SplitHostPort (edge_client_config cfg) = Some cc /\
    cc_Address cc = CoreAddress cfg /\ cc_EdgeID cc = EdgeID cfg /\ cc_EdgeID cc <> [] /\
    (0 < EdgeHeartbeatInterval cfg -> cc_HeartbeatInterval cc = EdgeHeartbeatInterval cfg /\ cc_HeartbeatTimeout cc = EdgeHeartbeatTimeout cfg).
Proof.
  intros Hv E H. apply (validation_exact cfg Hv) in H as [_ [[E' _]|[[E' _]|(_ & H1 & H2 & H3 & _ & _ & _ & H4)]]]; [by rewrite E in E'..|].
  unfold NewRemoteCoreClientWithConfig. cbn [edge_client_config cc_Address].
  rewrite (bool_decide_eq_false_2 _ H1). unfold splits in H2. destruct (SplitHostPort (CoreAddress cfg)); [|done].
  eexists. split; [reflexivity|]. cbn.
  destruct (_ <=? _) eqn:El; cbn; (split; [done|split; [done|split; [done|intros Hp]]]).
  - apply Z.leb_le in El. revert El. unfold or_default. destruct (Z.leb_spec (EdgeHeartbeatInterval cfg) 0); lia.
  - unfold or_default. destruct (Z.leb_spec (EdgeHeartbeatInterval cfg) 0); [lia|done].
Qed.
End Validate.

(** ** The settings of the database *)

Record MetaConfig := mkMeta {
  mc_Host : gostring; mc_MumblePort : Z; mc_RESTPort : Z; mc_Bonjour : bool; mc_RegisterName : gostring;
  mc_JWTIssuer : gostring; mc_JWTAudience : gostring; mc_JWTExpiryDays : Z }.
#[export] Instance MetaConfig_eta : Eta MetaConfig := fun m =>
  mkMeta (mc_Host m) (mc_MumblePort m) (mc_RESTPort m) (mc_Bonjour m) (mc_RegisterName m) (mc_JWTIssuer m) (mc_JWTAudience m) (mc_JWTExpiryDays m).
Record ServerConfigData := mkServerData {
  sd_MaxUsers : Z; sd_MaxBandwidth : Z; sd_WelcomeText : gostring; sd_ServerPassword : gostring; sd_DefaultChannel : Z;
  sd_CertRequired : bool; sd_ChannelNestingLimit : Z; sd_ChannelCountLimit : Z; sd_VoiceDebug : bool; sd_AllowRecording : bool;
  sd_MaxTextMessageLength : Z; sd_MaxImageMessageLength : Z; sd_MaxChannelListeners : Z; sd_MaxListenersPerUser : Z }.

(** The rows: [models.MetaConfig] has the fields of [MetaConfig] beside its
    fixed key; [models.ServerConfig] more than those of [ServerConfigData]. *)
Record ServerRow := mkServerRow {
  sr_data : ServerConfigData; sr_AllowHTML : bool; sr_RegName : gostring; sr_RegPassword : gostring; sr_RegURL : gostring }.
(** A virtual server that is deleted stays in its table, marked. *)
Record VirtualServer := mkVirtualServer {
  vs_Name : gostring; vs_Host : gostring; vs_Port : Z; vs_MaxUsers : Z; vs_WelcomeText : gostring;
  vs_CertPEM : gostring; vs_KeyPEM : gostring; vs_Deleted : bool }.
#[export] Instance VirtualServer_eta : Eta VirtualServer := fun v =>
  mkVirtualServer (vs_Name v) (vs_Host v) (vs_Port v) (vs_MaxUsers v) (vs_WelcomeText v) (vs_CertPEM v) (vs_KeyPEM v) (vs_Deleted v).
Record Database := mkDatabase {
  meta_config : option MetaConfig; server_configs : gmap Z ServerRow; virtual_servers : gmap Z VirtualServer }.
#[export] Instance Database_eta : Eta Database := fun d => mkDatabase (meta_config d) (server_configs d) (virtual_servers d).

(** What the columns hold for a row that is created: a zero value gives way to
    the default that the column declares. *)
Definition or_zero (d v : Z) : Z := if v =? 0 then d else v.
Definition or_empty (d v : gostring) : gostring := match v with [] => d | _ => v end.
Definition meta_columns (m : MetaConfig) : MetaConfig :=
  mkMeta (or_empty (str "0.0.0.0") (mc_Host m)) (mc_MumblePort m) (mc_RESTPort m) (mc_Bonjour m) (mc_RegisterName m)
    (or_empty (str "go-mumble-server") (mc_JWTIssuer m)) (or_empty (str "go-mumble-server-api") (mc_JWTAudience m)) (or_zero 30 (mc_JWTExpiryDays m)).
Definition server_columns (r : ServerRow) : ServerRow :=
  let d := sr_data r in
  mkServerRow (mkServerData (or_zero 100 (sd_MaxUsers d)) (or_zero 72000 (sd_MaxBandwidth d)) (sd_WelcomeText d) (sd_ServerPassword d) (sd_DefaultChannel d)
    (sd_CertRequired d) (or_zero 10 (sd_ChannelNestingLimit d)) (or_zero 1000 (sd_ChannelCountLimit d)) (sd_VoiceDebug d) true
    (or_zero 5000 (sd_MaxTextMessageLength d)) (or_zero 131072 (sd_MaxImageMessageLength d)) (sd_MaxChannelListeners d) (sd_MaxListenersPerUser d))
    true (sr_RegName r) (sr_RegPassword r) (sr_RegURL r).
Definition vs_columns (v : VirtualServer) : VirtualServer := v <| vs_MaxUsers := or_zero 100 (vs_MaxUsers v) |>.

Inductive db_error : Type := DatabaseError.
(** An answer of the database: [None] when the query fails. *)
Definition answer {A} (fails : bool) (a : A) : result db_error A := if fails then Err DatabaseError else Ok a.

Definition LoadMetaConfig (fails : bool) (db : Database) : result db_error (option MetaConfig) := answer fails (meta_config db).
(** The columns that [UpdateMetaConfig] names are all of them. *)
Definition UpdateMetaConfig (fails : bool) (db : Database) (m : option MetaConfig) : result db_error Database :=
  match m with
  | None => Ok db
  | Some m => answer fails (match meta_config db with Some _ => db <| meta_config := Some m |> | None => db end)
  end.
Definition DefaultServerConfig : ServerConfigData := mkServerData 100 72000 [] [] 0 false 10 1000 false true 5000 131072 0 0.
Definition LoadServerConfig (fails : bool) (db : Database) (serverID : Z) : result db_error ServerConfigData :=
  answer fails (match server_configs db !! serverID with None => DefaultServerConfig | Some sc => sr_data sc end).

Definition blank : Config := mkConfig [] [] 0 0 false [] [] [] [] [] [] [] [] [] [] [] [] [] 0 0 0 0 0 0 0 [] [] [] 0 0 0 [] [] 0 false false [] false false
  0 0 0 0 [] [] [] [] [] [] 0 0 0 [] [] [] [].
Definition ConfigForServer (meta : option MetaConfig) (server : option ServerConfigData) (bootstrap : option Config) : Config :=
  let meta := default (mkMeta (str "0.0.0.0") 64738 64730 false [] (str "go-mumble-server") (str "go-mumble-server-api") 30) meta in
  let server := default DefaultServerConfig server in
  let cfg := blank <| Host := mc_Host meta |> <| MumblePort := mc_MumblePort meta |> <| RESTPort := mc_RESTPort meta |>
    <| Bonjour := mc_Bonjour meta |> <| RegisterName := mc_RegisterName meta |> <| JWTIssuer := mc_JWTIssuer meta |>
    <| JWTAudience := mc_JWTAudience meta |> <| JWTExpiryDays := mc_JWTExpiryDays meta |>
    <| MaxUsers := sd_MaxUsers server |> <| MaxBandwidth := sd_MaxBandwidth server |> <| WelcomeText := sd_WelcomeText server |>
    <| ServerPassword := sd_ServerPassword server |> <| DefaultChannel := sd_DefaultChannel server |> <| CertRequired := sd_CertRequired server |>
    <| ChannelDepth := sd_ChannelNestingLimit server |> <| ChannelCount := sd_ChannelCountLimit server |> <| VoiceDebug := sd_VoiceDebug server |>
    <| AllowRecording := sd_AllowRecording server |> <| MaxTextMessageLength := sd_MaxTextMessageLength server |>
    <| MaxImageMessageLength := sd_MaxImageMessageLength server |> <| MaxChannelListeners := sd_MaxChannelListeners server |>
    <| MaxListenersPerUser := sd_MaxListenersPerUser server |> in
  let cfg := match bootstrap with None => cfg | Some b => cfg
    <| Mode := Mode b |> <| DatabasePath := DatabasePath b |> <| SSLCertPath := SSLCertPath b |> <| SSLKeyPath := SSLKeyPath b |>
    <| EdgeListenAddr := EdgeListenAddr b |> <| CoreAddress := CoreAddress b |> <| EdgeID := EdgeID b |> <| CoreCACertPath := CoreCACertPath b |>
    <| LogLevel := LogLevel b |> <| FrontendEmbed := FrontendEmbed b |> <| AuthMode := AuthMode b |> <| ExternalAuthURL := ExternalAuthURL b |>
    <| ExternalAuthAuthenticatePath := ExternalAuthAuthenticatePath b |> <| ExternalAuthResolvePath := ExternalAuthResolvePath b |>
    <| ExternalAuthServiceToken := ExternalAuthServiceToken b |> <| ExternalAuthServerInstanceID := ExternalAuthServerInstanceID b |>
    <| ExternalAuthTimeout := ExternalAuthTimeout b |> <| ExternalAuthRevalidate := ExternalAuthRevalidate b |>
    <| ExternalAuthStaleGrace := ExternalAuthStaleGrace b |> <| ExternalAuthCACertPath := ExternalAuthCACertPath b |>
    <| ExternalAuthClientCertPath := ExternalAuthClientCertPath b |> <| ExternalAuthClientKeyPath := ExternalAuthClientKeyPath b |>
    <| IdentityRevalidateToken := IdentityRevalidateToken b |> end in
  let cfg := if nonempty (Mode cfg) then cfg else cfg <| Mode := ModeStandalone |> in
  if nonempty (RegisterName cfg) then cfg else cfg <| RegisterName := str "go-mumble-server" |>.

Definition meta_of (cfg : Config) : MetaConfig :=
  mkMeta (Host cfg) (MumblePort cfg) (RESTPort cfg) (Bonjour cfg) (RegisterName cfg) (JWTIssuer cfg) (JWTAudience cfg) (JWTExpiryDays cfg).
Definition server_of (cfg : Config) : ServerConfigData :=
  mkServerData (MaxUsers cfg) (MaxBandwidth cfg) (WelcomeText cfg) (ServerPassword cfg) (DefaultChannel cfg) (CertRequired cfg) (ChannelDepth cfg) (ChannelCount cfg)
    (VoiceDebug cfg) (AllowRecording cfg) (MaxTextMessageLength cfg) (MaxImageMessageLength cfg) (MaxChannelListeners cfg) (MaxListenersPerUser cfg).

Section Prepare.
(** What the database library leaves in the tables for a created row. *)
Context (stored_meta : MetaConfig -> MetaConfig) (stored_server : ServerRow -> ServerRow).

Definition EnsureMetaConfig (first create : bool) (db : Database) (cfg : Config) : result db_error Database :=
  m ← answer first (meta_config db);
  match m with
  | Some _ => Ok db
  | None =>
      let m := meta_of cfg in
      let m := if nonempty (mc_RegisterName m) then m else m <| mc_RegisterName := str "go-mumble-server" |> in
      answer create (db <| meta_config := Some (stored_meta m) |>)
  end.
(** A row that is not deleted; a key that is in use, by a deleted row as well,
    cannot be created again. *)
Definition live_server (db : Database) (id : Z) : option VirtualServer :=
  v ← virtual_servers db !! id; if vs_Deleted v then None else Some v.
Definition create_server (fails : bool) (db : Database) (id : Z) (v : VirtualServer) : result db_error Database :=
  answer (fails || bool_decide (is_Some (virtual_servers db !! id))) (db <| virtual_servers := <[id := vs_columns v]> (virtual_servers db) |>).
Definition EnsureDefaultVirtualServer (first create : bool) (db : Database) (name host : gostring) (port maxUsers : Z) (welcomeText : gostring) : result db_error Database :=
  vs ← answer first (live_server db 1);
  match vs with
  | Some _ => Ok db
  | None => create_server create db 1 (mkVirtualServer name host port maxUsers welcomeText [] [] false)
  end.
Definition EnsureServerConfig (first create : bool) (db : Database) (serverID : Z) (cfg : Config) : result db_error Database :=
  sc ← answer first (server_configs db !! serverID);
  match sc with
  | Some _ => Ok db
  | None => answer create (db <| server_configs := <[serverID := stored_server (mkServerRow (server_of cfg) false [] [] [])]> (server_configs db) |>)
  end.

(** Which of the queries of a start fail. *)
Record Faults := mkFaults {
  ensure_meta_first : bool; ensure_meta_create : bool; load_meta : bool; load_server : bool;
  ensure_vs_first : bool; ensure_vs_create : bool; ensure_server_first : bool; ensure_server_create : bool }.
Definition no_faults : Faults := mkFaults false false false false false false false false.

(** The settings a process runs with, and the database as it leaves it. *)
Definition Prepare (fl : Faults) (cfg : Config) (db : Database) : result db_error (Config * Database) :=
  db ← EnsureMetaConfig (ensure_meta_first fl) (ensure_meta_create fl) db cfg;
  meta ← LoadMetaConfig (load_meta fl) db;
  serverCfg ← LoadServerConfig (load_server fl) db 1;
  let run := ConfigForServer meta (Some serverCfg) (Some cfg) in
  db ← EnsureDefaultVirtualServer (ensure_vs_first fl) (ensure_vs_create fl) db (str "Default") (Host run) (MumblePort run) (MaxUsers run) (WelcomeText run);
  db ← EnsureServerConfig (ensure_server_first fl) (ensure_server_create fl) db 1 run;
  Ok (run, db).

Hypothesis meta_is_stored : forall m, stored_meta m = meta_columns m.
Hypothesis server_is_stored : forall r, stored_server r = server_columns r.

Lemma run_settings meta data cfg : meta_of (ConfigForServer (Some meta) (Some data) (Some cfg)) = meta <| mc_RegisterName := or_empty (str "go-mumble-server") (mc_RegisterName meta) |> /\
  server_of (ConfigForServer (Some meta) (Some data) (Some cfg)) = data.
Proof.
  unfold ConfigForServer. cbn -[str]. destruct data. destruct meta as [? ? ? ? [|? ?] ? ? ?]; cbn -[str]; by destruct (nonempty (Mode cfg)).
Qed.

(** The settings in the tables. *)
Definition meta_row (cfg : Config) (db : Database) : MetaConfig :=
  match meta_config db with
  | Some m => m
  | None => meta_columns ((meta_of cfg) <| mc_RegisterName := or_empty (str "go-mumble-server") (RegisterName cfg) |>)
  end.
Definition server_data (db : Database) : ServerConfigData :=
  match server_configs db !! 1 with Some row => sr_data row | None => DefaultServerConfig end.
Lemma ensure_meta_ok cfg db : EnsureMetaConfig false false db cfg = Ok (db <| meta_config := Some (meta_row cfg db) |>).
Proof.
  unfold EnsureMetaConfig, meta_row, answer. cbn -[str]. destruct db as [[m|] sc vs]; cbn -[str]; [done|]. rewrite meta_is_stored.
  by destruct (RegisterName cfg) eqn:E; unfold meta_of; rewrite E.
Qed.
(** The virtual server 1 was deleted. *)
Definition removed_server (db : Database) : bool := match virtual_servers db !! 1 with Some v => vs_Deleted v | None => false end.
Lemma ensure_vs_ok db name host port users text : removed_server db = false -> exists vs,
  EnsureDefaultVirtualServer false false db name host port users text = Ok (db <| virtual_servers := vs |>) /\
  (exists v, vs !! 1 = Some v /\ vs_Deleted v = false) /\ (is_Some (virtual_servers db !! 1) -> vs = virtual_servers db).
Proof.
  unfold removed_server, EnsureDefaultVirtualServer, live_server, create_server, answer. destruct (virtual_servers db !! 1) as [v|] eqn:E; cbn [mbind option_bind result_bind].
  - intros Hd. rewrite Hd. cbn [mbind result_bind]. exists (virtual_servers db). rewrite E. split; [by destruct db|]. split; [by exists v|done].
  - intros _. rewrite bool_decide_eq_false_2 by (by intros []). eexists. split; [done|]. rewrite lookup_insert_eq. split; [by eexists|by intros []].
Qed.
Lemma ensure_vs_removed first create db name host port users text : removed_server db = true ->
  EnsureDefaultVirtualServer first create db name host port users text = Err DatabaseError.
Proof.
  unfold removed_server, EnsureDefaultVirtualServer, live_server, create_server, answer. destruct (virtual_servers db !! 1) as [v|] eqn:E; [|done]. intros Hd.
  destruct first; [done|]. cbn [mbind option_bind result_bind]. rewrite Hd. by rewrite bool_decide_eq_true_2, orb_true_r by (by eexists).
Qed.
Lemma ensure_server_ok db id cfg : exists scs,
  EnsureServerConfig false false db id cfg = Ok (db <| server_configs := scs |>) /\
  scs !! id = Some (default (server_columns (mkServerRow (server_of cfg) false [] [] [])) (server_configs db !! id)) /\
  (is_Some (server_configs db !! id) -> scs = server_configs db).
Proof.
  unfold EnsureServerConfig, answer. cbn -[str]. destruct (server_configs db !! id) eqn:E.
  - exists (server_configs db). rewrite E. by destruct db.
  - eexists. split; [done|]. rewrite lookup_insert_eq, server_is_stored. split; [done|by intros []].
Qed.
Lemma prepare_ok cfg db : removed_server db = false -> exists run scs vs, Prepare no_faults cfg db = Ok (run, mkDatabase (Some (meta_row cfg db)) scs vs) /\
  run = ConfigForServer (Some (meta_row cfg db)) (Some (server_data db)) (Some cfg) /\
  scs !! 1 = Some (default (server_columns (mkServerRow (server_of run) false [] [] [])) (server_configs db !! 1)) /\
  (is_Some (server_configs db !! 1) -> scs = server_configs db) /\
  (exists v, vs !! 1 = Some v /\ vs_Deleted v = false) /\ (is_Some (virtual_servers db !! 1) -> vs = virtual_servers db).
Proof.
  intros Hd. unfold Prepare. cbn [no_faults ensure_meta_first ensure_meta_create load_meta load_server ensure_vs_first ensure_vs_create ensure_server_first ensure_server_create].
  rewrite ensure_meta_ok. cbn [mbind result_bind LoadMetaConfig LoadServerConfig answer]. cbv zeta.
  set (run := ConfigForServer _ _ _).
  destruct (ensure_vs_ok (db <| meta_config := Some (meta_row cfg db) |>) (str "Default") (Host run) (MumblePort run) (MaxUsers run) (WelcomeText run)) as (vs & -> & Hv & Hv'); [exact Hd|].
  cbn [mbind result_bind].
  destruct (ensure_server_ok (db <| meta_config := Some (meta_row cfg db) |> <| virtual_servers := vs |>) 1 run) as (scs & -> & Hs & Hs').
  cbn [mbind result_bind]. by exists run, scs, vs.
Qed.
Lemma prepare_removed fl cfg db : removed_server db = true -> Prepare fl cfg db = Err DatabaseError.
Proof.
  intros Hd. unfold Prepare. destruct (EnsureMetaConfig _ _ _ _) as [db1|[]] eqn:E; [|done]. cbn [mbind result_bind].
  destruct (LoadMetaConfig _ _) as [meta|[]]; [|done]. cbn [mbind result_bind]. destruct (LoadServerConfig _ _ _) as [sc|[]]; [|done]. cbn [mbind result_bind]. cbv zeta.
  rewrite ensure_vs_removed; [done|]. revert E. unfold EnsureMetaConfig, answer. destruct (ensure_meta_first fl); [done|]. cbn.
  destruct (meta_config db); [by intros [= <-]|]. destruct (ensure_meta_create fl); [done|]. by intros [= <-].
Qed.
Lemma server_data_run cfg db : server_of (ConfigForServer (Some (meta_row cfg db)) (Some (server_data db)) (Some cfg)) = server_data db.
Proof. apply run_settings. Qed.
Lemma password_of c : ServerPassword c = sd_ServerPassword (server_of c).
Proof. reflexivity. Qed.
Lemma default_row_stored : server_columns (mkServerRow DefaultServerConfig false [] [] []) = mkServerRow DefaultServerConfig true [] [] [].
Proof. reflexivity. Qed.

(** C30: the settings of the virtual server that a process runs with are those of
    its row, and without a row the built-in defaults, whatever the file, the
    environment or the command line say: on a fresh database a configured
    password, user limit or welcome text is dropped, and the row that is created
    for the next start holds the defaults. The global settings do seed their
    row. After that the tables decide: a later start, with any configuration,
    leaves them as they are and runs with the same settings. If the virtual
    server was deleted there is no start at all. *)
Theorem database_decides cfg db : if removed_server db then forall fl, Prepare fl cfg db = Err DatabaseError else exists run db', Prepare no_faults cfg db = Ok (run, db') /\
  server_of run = server_data db /\ server_data db' = server_data db /\
  (server_configs db !! 1 = None -> server_of run = DefaultServerConfig /\ ServerPassword run = []) /\
  (meta_config db = None -> Host cfg <> [] -> JWTIssuer cfg <> [] -> JWTAudience cfg <> [] -> JWTExpiryDays cfg <> 0 ->
   meta_of run = (meta_of cfg) <| mc_RegisterName := or_empty (str "go-mumble-server") (RegisterName cfg) |>) /\
  forall cfg2, exists run2, Prepare no_faults cfg2 db' = Ok (run2, db') /\ server_of run2 = server_of run /\ meta_of run2 = meta_of run.
Proof.
  destruct (removed_server db) eqn:Hrem; [intros fl; by apply prepare_removed|].
  destruct (prepare_ok cfg db Hrem) as (run & scs & vs & E & -> & Hs & Hs' & (v & Hv & Hdel) & Hv').
  eexists _, _. split; [exact E|]. clear E. rewrite server_data_run in *.
  assert (server_data (mkDatabase (Some (meta_row cfg db)) scs vs) = server_data db) as Hd.
  { unfold server_data at 1. cbn. rewrite Hs. unfold server_data. destruct (server_configs db !! 1); [done|]. cbn [default]. by rewrite default_row_stored. }
  split; [done|]. split; [exact Hd|]. split; [|split].
  - intros Hn. assert (server_data db = DefaultServerConfig) as E by (unfold server_data; by rewrite Hn). split; [done|].
    by rewrite password_of, server_data_run, E.
  - intros Hn H1 H2 H3 H4. rewrite (proj1 (run_settings _ _ _)). unfold meta_row. rewrite Hn. unfold meta_of, meta_columns, or_zero. cbn -[str].
    apply Z.eqb_neq in H4 as ->. destruct (Host cfg), (JWTIssuer cfg), (JWTAudience cfg); try done. by destruct (RegisterName cfg).
  - intros cfg2. destruct (prepare_ok cfg2 (mkDatabase (Some (meta_row cfg db)) scs vs)) as (run2 & scs2 & vs2 & E & -> & _ & Hs2 & _ & Hv2);
      [unfold removed_server; cbn; by rewrite Hv|].
    cbn [server_configs virtual_servers] in *. rewrite Hs2 in E by (rewrite Hs; by eexists). rewrite Hv2 in E by (rewrite Hv; by eexists).
    eexists. split; [exact E|]. rewrite server_data_run, Hd, !(proj1 (run_settings _ _ _)). done.
Qed.
End Prepare.

(** ** The parts of a process *)

Record RemoteEdgeServerConfig := mkEdgeServerConfig {
  es_ListenAddr : gostring; es_HeartbeatInterval : Z; es_HeartbeatTimeout : Z; es_QueueSize : Z }.
Definition NewRemoteEdgeServerWithConfig (cfg : RemoteEdgeServerConfig) : RemoteEdgeServerConfig :=
  mkEdgeServerConfig (es_ListenAddr cfg) (or_default (es_HeartbeatInterval cfg) (5 * Second)) (or_default (es_HeartbeatTimeout cfg) (15 * Second))
    (or_default (es_QueueSize cfg) 256).

(** The parts that are constructed: the database, the settings its Core runs
    with, the listener for edges, the link to a Core. *)
Record App := mkApp {
  app_Mode : gostring;
  app_DB : option Database;
  app_Server : option Config;
  app_RemoteEdge : option RemoteEdgeServerConfig;
  app_RemoteCore : option RemoteCoreClientConfig }.

Inductive build_error : Type :=
  | Invalid (e : config_error)
  | OpenFailed
  | PrepareFailed
  | TLSFailed
  | ClientFailed
  | TransportFailed.

Section Build.
Context (SplitHostPort : gostring -> option gostring) (Stat : gostring -> bool) (visit : list (string * gostring) -> list (string * gostring)).
Context (stored_meta : MetaConfig -> MetaConfig) (stored_server : ServerRow -> ServerRow).
Context (Open : gostring -> option Database) (fl : Faults).
(** Whether the rest succeeds: the certificates and sockets of a client
    transport, the identity authority, the key pairs of the links. *)
Context (transport_up coreEdgeTLS edgeCoreTLS : Config -> bool).

Definition buildLocalRuntime (cfg : Config) : result build_error App :=
  match Open (DatabasePath cfg) with
  | None => Err OpenFailed
  | Some db =>
      match Prepare stored_meta stored_server fl cfg db with
      | Err _ => Err PrepareFailed
      | Ok (run, db) =>
          if negb (transport_up run) then Err TransportFailed else
          if bool_decide (Mode cfg = ModeCore) then
            if nonempty (EdgeListenAddr cfg) && negb (coreEdgeTLS cfg) then Err TLSFailed else
            let edges := NewRemoteEdgeServerWithConfig (mkEdgeServerConfig (EdgeListenAddr cfg) (EdgeHeartbeatInterval cfg) (EdgeHeartbeatTimeout cfg) (EdgeQueueSize cfg)) in
            Ok (mkApp (Mode cfg) (Some db) (Some run) (Some edges) None)
          else Ok (mkApp (Mode cfg) (Some db) (Some run) None None)
      end
  end.
Definition buildEdgeRuntime (cfg : Config) : result build_error App :=
  if nonempty (CoreCACertPath cfg) && nonempty (EdgeClientCertPath cfg) && negb (edgeCoreTLS cfg) then Err TLSFailed else
  match NewRemoteCoreClientWithConfig SplitHostPort (edge_client_config cfg) with
  | None => Err ClientFailed
  | Some core => if negb (transport_up cfg) then Err TransportFailed else Ok (mkApp ModeEdge None None None (Some core))
  end.
Definition Build (cfg : Config) : result build_error App :=
  match ValidateForMode SplitHostPort Stat visit cfg with
  | Err e => Err (Invalid e)
  | Ok _ => if bool_decide (Mode cfg = ModeEdge) then buildEdgeRuntime cfg else buildLocalRuntime cfg
  end.

(** A process has exactly the parts of its mode, and only a deployable
    configuration gets any: an edge has no database and no Core of its own but
    a link; the others have no link, and only the Core listens for edges. *)
Theorem process_parts cfg app : (forall l, visit l ≡ₚ l) -> Build cfg = Ok app ->
  deployable SplitHostPort Stat cfg /\ app_Mode app = Mode cfg /\
  (Mode cfg = ModeEdge <-> app_DB app = None) /\ (app_DB app = None <-> app_Server app = None) /\
  (Mode cfg = ModeEdge <-> is_Some (app_RemoteCore app)) /\ (Mode cfg = ModeCore <-> is_Some (app_RemoteEdge app)) /\
  (forall run, app_Server app = Some run -> exists db, Open (DatabasePath cfg) = Some db /\ exists db', Prepare stored_meta stored_server fl cfg db = Ok (run, db') /\ app_DB app = Some db').
Proof.
  intros Hv H. unfold Build in H. destruct (ValidateForMode _ _ _ cfg) as [[]|] eqn:Ev; [|done]. apply (validation_exact _ _ _ cfg Hv) in Ev.
  split; [done|]. clear Ev. assert (ModeEdge <> ModeCore) by (by vm_compute).
  case_bool_decide as E.
  - unfold buildEdgeRuntime in H. destruct (_ && _); [done|]. destruct (NewRemoteCoreClientWithConfig _ _); [|done]. destruct (negb _); [done|].
    injection H as <-. cbn [app_Mode app_DB app_Server app_RemoteEdge app_RemoteCore]. rewrite E. unfold is_Some. naive_solver.
  - unfold buildLocalRuntime in H. destruct (Open _) as [db|] eqn:Eo; [|done]. destruct (Prepare _ _ _ _ _) as [[run db']|] eqn:Ep; [|done]. destruct (negb _); [done|].
    case_bool_decide as Ec.
    + destruct (_ && _); [done|]. injection H as <-. cbn [app_Mode app_DB app_Server app_RemoteEdge app_RemoteCore]. unfold is_Some. naive_solver.
    + injection H as <-. cbn [app_Mode app_DB app_Server app_RemoteEdge app_RemoteCore]. unfold is_Some. naive_solver.
Qed.
End Build.

(** [main]: the flags over what [Load] answers. *)
Definition main_config (ToLower : gostring -> gostring) (loaded : result config_error Config) (frontendEmbed : bool) (mode : gostring) : result config_error Config :=
  cfg ← loaded;
  let cfg := cfg <| FrontendEmbed := frontendEmbed |> in
  if nonempty mode then parsed ← ParseRuntimeMode ToLower mode; Ok (cfg <| Mode := parsed |>) else Ok cfg.

(** ** Examples *)

Definition lower (c : Z) : Z := if (65 <=? c) && (c <=? 90) then c + 32 else c.
Definition ascii_lower (s : gostring) : gostring := map lower s.
Definition secured (name : string) : gostring :=
  if bool_decide (name = "MUMBLE_SERVER_PASSWORD"%string) then str "secret" else if bool_decide (name = "MUMBLE_MAX_USERS"%string) then str "5" else [].
Definition no_file (path : gostring) : option bytes := None.
Definition no_toml (b : bytes) : option fileConfig := None.
Definition bootstrap : Config := applyEnv ascii_lower secured defaults.
Definition fresh : Database := mkDatabase None ∅ ∅.
Example bootstrap_loaded : Load ascii_lower secured no_file no_toml [] = Ok bootstrap /\ ServerPassword bootstrap = str "secret" /\ MaxUsers bootstrap = 5.
Proof. vm_compute. done. Qed.
(** A password and a limit that the environment sets are not those the server
    runs with, on the first start or any later one. *)
Lemma database_decides_witness : exists run db', Prepare meta_columns server_columns no_faults bootstrap fresh = Ok (run, db') /\
  ServerPassword run = [] /\ sd_MaxUsers (server_of run) = 100 /\
  exists run2, Prepare meta_columns server_columns no_faults bootstrap db' = Ok (run2, db') /\ server_of run2 = DefaultServerConfig.
Proof.
  pose proof (database_decides meta_columns server_columns (fun m => eq_refl) (fun r => eq_refl) bootstrap fresh) as H.
  change (removed_server fresh) with false in H. destruct H as (run & db' & H1 & _ & _ & H2 & _ & H3).
  destruct (H2 eq_refl) as [H4 H5]. destruct (H3 bootstrap) as (run2 & H6 & H7 & _).
  exists run, db'. split; [exact H1|]. split; [exact H5|]. split; [rewrite H4; reflexivity|]. exists run2. split; [exact H6|]. rewrite H7. exact H4.
Defined.

Definition host_port (addr : gostring) : option gostring := if bool_decide (58 ∈ addr) then Some addr else None.
Definition edge_settings : Config :=
  defaults <| Mode := ModeEdge |> <| CoreAddress := str "core:7000" |> <| EdgeID := str "far" |> <| CoreCACertPath := str "ca" |>
    <| EdgeClientCertPath := str "cert" |> <| EdgeClientKeyPath := str "key" |>.
Lemma validation_exact_witness : ValidateForMode host_port (fun _ => true) (@rev (string * gostring)) edge_settings = Ok tt /\
  deployable host_port (fun _ => true) edge_settings.
Proof.
  assert (ValidateForMode host_port (fun _ => true) (@rev (string * gostring)) edge_settings = Ok tt) as H by (vm_compute; reflexivity).
  split; [exact H|]. apply (validation_exact host_port (fun _ => true) (@rev (string * gostring)) edge_settings); [|exact H].
  intros l. symmetry. apply Permutation_rev.
Defined.
Example silent_edge_refused : ValidateForMode host_port (fun _ => true) (@rev (string * gostring)) (edge_settings <| EdgeHeartbeatTimeout := 5 * Second |>) = Err HeartbeatOrder.
Proof. vm_compute. done. Qed.

End Startup.
