(* ===== verification/AccountsSample.v ===== *)
(** * A small management interface

    The theorems of [Accounts] at work, with a toy for the libraries: a token is
    a code of its claims and of the secret it was signed with, a hash the
    password itself. Two examples show requests that overlap. *)

From Stdlib Require Import ZArith Lia String.
From stdpp Require Import base numbers list gmap sets option countable.
From S2P Require Import Prelude Wire Fields Acl RateLimit Accounts.

Module AccountsSample.
Import Acl Accounts.

(** ** Libraries *)

Definition claims_tuple (c : Claims) := (cl_Issuer c, cl_Audience c, cl_ExpiresAt c, cl_UserID c, cl_Username c, cl_Role c, cl_TokenVersion c).
Definition tuple_claims (t : gostring * list gostring * Z * Z * gostring * gostring * Z) : Claims :=
  let '(i, a, e, u, n, r, v) := t in mkClaims i a e u n r v.
#[global] Instance claims_eq_dec : EqDecision Claims.
Proof. solve_decision. Defined.
#[global] Program Instance claims_countable : Countable Claims := inj_countable' claims_tuple tuple_claims _.
Next Obligation. by intros []. Qed.
Definition token (secret : gostring) (c : Claims) : gostring := [Z.pos (encode (secret, c))].
Definition read (tok : gostring) : option (gostring * Claims) := match tok with [Z.pos p] => decode p | _ => None end.
Lemma read_token secret c : read (token secret c) = Some (secret, c).
Proof. unfold read, token. apply decode_encode. Qed.
#[global] Instance toy : AuthLib := {|
  signed secret c := Some (token secret c);
  unverified tok := snd <$> read tok;
  verified now secret tok := '(s, c) ← read tok; if bool_decide (s = secret) && (now <? cl_ExpiresAt c * 10 ^ 9) then Some c else None;
  HashPassword salt p := Some p;
  ComparePassword h p := bool_decide (h = p) |}.
#[global] Instance toy_laws : AuthLaws.
Proof.
  split.
  - intros now secret tok c. cbn. destruct (read tok) as [[s d]|]; [|done]. cbn. destruct (_ && _); [|done]. by intros [= ->].
  - intros now secret c tok [= <-] H. cbn [verified toy]. rewrite read_token. cbn. apply Z.ltb_lt in H as ->. by rewrite bool_decide_eq_true_2.
  - intros salt p h [= ->]. cbn. by rewrite bool_decide_eq_true_2.
Qed.

(** ** Three people *)

Definition config : JwtConfig := mkJwtConfig (str "us") (str "api") 30.
Definition ascii_lower (s : gostring) : gostring := map (fun c => if (65 <=? c) && (c <=? 90) then c + 32 else c) s.
Notation step := (api_step ascii_lower config).
Notation honest := (honest ascii_lower).
Definition register (name : string) (k : nat) (id : Z) : list api_event :=
  [RegisterBegins false [] (Some [id]) (str name) (str "password1"); RegisterEnds k 0 id false false].
(** The header with the last token that was granted to an account. *)
Definition header_of (st : Api) (id : Z) : gostring :=
  match live_account (accounts st) id, list.last (filter (fun c => cl_UserID c = id) (issued st)) with
  | Some a, Some c => str "Bearer " ++ token (ac_JWTSecret a) c
  | _, _ => []
  end.
Definition after (evs : list api_event) : Api := fold_left step evs empty_api.
Definition role_of (st : Api) (id : Z) : option gostring := ac_Role <$> live_account (accounts st) id.

Definition three : Api := after (register "ann" 0 1 ++ register "bob" 0 2 ++ register "cid" 0 3).
Example first_is_admin : map (role_of three) [1; 2; 3] = [Some RoleAdmin; Some RoleUser; Some RoleUser].
Proof. vm_compute. done. Qed.
Example bad_registrations :
  register_status (Register_end config 0 9 false false (accounts three) (mkRegistration (str "ann") [] [] RoleUser)).2 = 409 /\
  Register_begin false [] (Some []) (accounts three) (str "a b") (str "password1") = Err UsernameRequired /\
  Register_begin false [] (Some []) (accounts three) (str "dan") (str "short") = Err PasswordTooShort.
Proof. vm_compute. done. Qed.

(** Ann makes bob an administrator. *)
Definition ann_enters : api_event := AdminEnters 1 (header_of three 1).
Definition promotion : api_event := AdminActs 0 false (SetRole (str "2") (Some RoleAdmin) (Some [22])).
Definition promoted : Api := fold_left step [ann_enters; promotion] three.
Example old_token_refused :
  role_of promoted 2 = Some RoleAdmin /\
  admit_request ascii_lower config 1 (accounts three) [] true Authenticated (header_of three 2) <> inl 401 /\
  admit_request ascii_lower config 1 (accounts promoted) [] true Authenticated (header_of three 2) = inl 401.
Proof. by vm_compute. Qed.
Definition bob_logs_in : api_event := LogsIn 2 false (str "bob") (str "password1").
Definition two_admins : Api := step promoted bob_logs_in.

Lemma honest_read st now header c : (tok ← bearer ascii_lower header; unverified tok) = Some c -> c ∈ issued st -> honest st (AdminEnters now header).
Proof. intros H Hi tok id a d Hb _ Hv. rewrite Hb in H. cbn [mbind option_bind] in H. apply verified_reads in Hv. congruence. Qed.
Definition claims_of (header : gostring) : Claims := default (mkClaims [] [] 0 0 [] [] 0) (tok ← bearer ascii_lower header; unverified tok).
Lemma honest_header st now header : (tok ← bearer ascii_lower header; unverified tok) = Some (claims_of header) -> bool_decide (claims_of header ∈ issued st) = true ->
  honest st (AdminEnters now header).
Proof. intros H Hi%bool_decide_eq_true. by eapply honest_read. Qed.
Ltac reach := repeat first [apply api_start | apply api_steps; [|first [exact I | apply honest_header; vm_compute; reflexivity]]].
Lemma two_admins_reachable : api_from ascii_lower config empty_api two_admins.
Proof. unfold two_admins, promoted, three, after, register. cbn [fold_left app]. reach. Qed.

Definition anns : Claims := claims_of (header_of two_admins 1).
Lemma management_access_witness :
  (exists a, live_account (accounts two_admins) (cl_UserID anns) = Some a /\ ac_Role a = RoleAdmin /\ ac_Username a = cl_Username anns) /\
  ParseAndValidateToken config 1 (accounts two_admins) (default [] (bearer ascii_lower (header_of three 2))) <> Ok (claims_of (header_of three 2)).
Proof.
  assert (unforged ascii_lower two_admins 3 (header_of two_admins 1)) as U by (apply (honest_header two_admins 3); vm_compute; reflexivity).
  destruct (management_access ascii_lower config two_admins 3 (header_of two_admins 1) anns two_admins_reachable U) as (H1 & _ & H2). split.
  - apply H1. vm_compute. reflexivity.
  - apply (H2 two_admins); [apply (bool_decide_eq_true_1 (claims_of (header_of three 2) ∈ issued two_admins)); vm_compute; reflexivity| |apply api_start].
    intros a Ha. vm_compute in Ha. injection Ha as <-. by vm_compute.
Defined.

Lemma login_token_accepted_witness : table_ok (accounts promoted) /\
  exists lr a, (Login config 2 false (accounts promoted) (str "bob") (str "password1")).2 = Ok lr /\
    live_account (Login config 2 false (accounts promoted) (str "bob") (str "password1")).1 (up_ID (lr_User lr)) = Some a /\ ac_Username a = str "bob".
Proof.
  assert (api_from ascii_lower config empty_api promoted) as R by (unfold promoted, three, after, register; cbn [fold_left app]; reach).
  destruct (api_from_ok ascii_lower config _ _ empty_ok R) as [[T _ _ _] _]. split; [exact T|].
  pose proof (login_token_accepted config 2 false (accounts promoted) (str "bob") (str "password1") T) as H.
  destruct (Login config 2 false (accounts promoted) (str "bob") (str "password1")) as [db [lr|e]] eqn:E.
  - destruct H as (a & Ha & Hn & _). exists lr, a. split; [reflexivity|]. split; [exact Ha|]. rewrite Hn. reflexivity.
  - exfalso. apply (f_equal snd) in E. vm_compute in E. discriminate E.
Defined.

Definition requests : list api_request :=
  [Registers false [] (Some [1]) (str "ann") (str "password1") 0 1 false false;
   Registers false [] (Some [2]) (str "bob") (str "password1") 0 2 false false;
   Administers 1 (header_of three 1) false (DeleteAccount (str "1"));
   Administers 1 (header_of three 1) false (DeleteAccount (str "2"))].
Definition alone : Api := fold_left (serve_request ascii_lower config) requests empty_api.
Lemma alone_serial : api_serial ascii_lower config alone.
Proof.
  unfold alone, requests. cbn [fold_left].
  repeat first [apply serial_start | apply serial_step; [|first [exact I | apply (honest_header _ 1); vm_compute; reflexivity]]].
Qed.
Lemma administrator_remains_witness : exists i a, live_account (accounts alone) i = Some a /\ ac_Role a = RoleAdmin.
Proof.
  apply (administrator_remains ascii_lower config alone alone_serial).
  exists 1. destruct (live_account (accounts alone) 1) as [a|] eqn:E; [exists a; reflexivity|]. vm_compute in E. discriminate E.
Defined.

(** ** Requests that overlap *)

(** Both administrators are let in and take the role from each other: nobody is
    left who could administrate. *)
Definition duel : Api := fold_left step
  [AdminEnters 3 (header_of two_admins 1); AdminEnters 3 (header_of two_admins 2);
   AdminActs 0 false (SetRole (str "2") (Some RoleUser) (Some [4])); AdminActs 0 false (SetRole (str "1") (Some RoleUser) (Some [5]))] two_admins.
Example admins_demote_each_other : map (role_of duel) [1; 2; 3] = [Some RoleUser; Some RoleUser; Some RoleUser].
Proof. vm_compute. done. Qed.
(** Whoever registers while the first account is being made becomes an
    administrator as well. *)
Definition race : Api := after [RegisterBegins false [] (Some [1]) (str "ann") (str "password1"); RegisterBegins false [] (Some [2]) (str "eve") (str "password1");
  RegisterEnds 0 0 1 false false; RegisterEnds 0 0 2 false false].
Example both_become_admins : map (role_of race) [1; 2] = [Some RoleAdmin; Some RoleAdmin].
Proof. vm_compute. done. Qed.

(** Twenty requests a minute come from one address; one that makes up a header
    for each gets all of them through. *)
Definition guesses (forwarded : Z -> gostring) : list bool :=
  RateLimit.auth_run 20 (60 * 10 ^ 9) (RateLimit.NewAuthRateLimit (60 * 10 ^ 9) 0)
    (map (fun i => (Z.of_nat i, getIP (fun a => Some (take 7 a)) (forwarded (Z.of_nat i)) (str "9.9.9.9:4711"))) (seq 1 30)).
Example made_up_header : forallb Datatypes.id (guesses (fun i => [i])) = true /\ length (filter (fun b => b = true) (guesses (fun _ => []))) = 20%nat.
Proof. vm_compute. done. Qed.

(** ** The routes *)

(** A route that changes something is for administrators, but for registering,
    logging in and the callback of the identity provider. *)
Definition changes (r : route) : bool := negb (String.eqb (rt_method r) "GET").
Example changes_guarded : Forall (fun r => match rt_guard r with Administrator => True | _ => rt_endpoint r = AuthRegister \/ rt_endpoint r = AuthLogin \/ rt_endpoint r = Revalidate end)
  (filter (fun r => changes r = true) routes).
Proof. vm_compute. repeat constructor; tauto. Qed.
End AccountsSample.
