(* ===== verification/Management.v ===== *)
(** * Virtual servers and settings through the management interface

    The requests of [internal/handler/server.go] that read and write the tables
    of virtual servers and settings, [internal/cert/persist.go], and how they
    meet the start of a process ([Startup]). A body is what JSON makes of it
    ([None] when it does not parse); which queries of a request fail is an
    argument. *)

From Stdlib Require Import ZArith Lia String.
From stdpp Require Import base numbers list gmap option.
From S2P Require Import Prelude Wire Fields Acl RemoteCore Configuration Startup Accounts.

Module Management.
Import Configuration Startup.

(** ** Bodies *)

Record ServerBody := mkServerBody { sb_Name : gostring; sb_Host : gostring; sb_Port : Z; sb_MaxUsers : Z; sb_WelcomeText : gostring }.
Record ServerPatch := mkServerPatch {
  sp_Name : option gostring; sp_Host : option gostring; sp_Port : option Z; sp_MaxUsers : option Z; sp_WelcomeText : option gostring }.
Record ConfigPatch := mkConfigPatch {
  cp_MaxUsers : option Z; cp_MaxBandwidth : option Z; cp_WelcomeText : option gostring; cp_DefaultChannel : option Z; cp_CertRequired : option bool;
  cp_ChannelNestingLimit : option Z; cp_ChannelCountLimit : option Z; cp_VoiceDebug : option bool; cp_AllowRecording : option bool;
  cp_MaxTextMessageLength : option Z; cp_MaxImageMessageLength : option Z }.
Record MetaPatch := mkMetaPatch {
  mp_Host : option gostring; mp_MumblePort : option Z; mp_RESTPort : option Z; mp_Bonjour : option bool; mp_RegisterName : option gostring }.

(** What is shown: the columns marked ["-"] are not. *)
Record ServerView := mkServerView { sv_ID : Z; sv_Name : gostring; sv_Host : gostring; sv_Port : Z; sv_MaxUsers : Z; sv_WelcomeText : gostring }.
Record ConfigView := mkConfigView {
  cv_MaxUsers : Z; cv_MaxBandwidth : Z; cv_WelcomeText : gostring; cv_DefaultChannel : Z; cv_CertRequired : bool;
  cv_ChannelNestingLimit : Z; cv_ChannelCountLimit : Z; cv_VoiceDebug : bool; cv_AllowRecording : bool;
  cv_MaxTextMessageLength : Z; cv_MaxImageMessageLength : Z }.
Record MetaView := mkMetaView { mv_Host : gostring; mv_MumblePort : Z; mv_RESTPort : Z; mv_Bonjour : bool; mv_RegisterName : gostring }.
Inductive shown :=
  | Nothing
  | Servers (l : list ServerView)
  | OneServer (v : ServerView)
  | Settings (v : ConfigView)
  | Global (v : MetaView).

Record ServerHandler := mkServerHandler { h_cfg : Config; metaHost : gostring; metaMumblePort : Z }.

Section Management.
(** What the library leaves in the tables, as in [Startup]; a new certificate. *)
Context (stored_meta : MetaConfig -> MetaConfig) (stored_server : ServerRow -> ServerRow).
Context (GenerateSelfSigned : option (gostring * gostring)).
(** Which of the queries of a request fail. *)
Implicit Types (f : nat -> bool) (db : Database).

Definition NewServerHandler (fails : bool) db (cfg : Config) : ServerHandler :=
  match LoadMetaConfig fails db with
  | Ok (Some meta) => mkServerHandler cfg (mc_Host meta) (mc_MumblePort meta)
  | _ => mkServerHandler cfg (str "0.0.0.0") 64738
  end.

Definition GetOrCreateCertForVirtualServer (first update : bool) db (id : Z) : result db_error (gostring * gostring) * Database :=
  if first then (Err DatabaseError, db) else
  match live_server db id with
  | None => (Err DatabaseError, db)
  | Some vs =>
      if nonempty (vs_CertPEM vs) && nonempty (vs_KeyPEM vs) then (Ok (vs_CertPEM vs, vs_KeyPEM vs), db) else
      match GenerateSelfSigned with
      | None => (Err DatabaseError, db)
      | Some (cert, key) =>
          if update then (Err DatabaseError, db) else
          (Ok (cert, key), db <| virtual_servers := <[id := vs <| vs_CertPEM := cert |> <| vs_KeyPEM := key |>]> (virtual_servers db) |>)
      end
  end.

(** ** Virtual servers *)

Definition view_server (id : Z) (v : VirtualServer) : ServerView := mkServerView id (vs_Name v) (vs_Host v) (vs_Port v) (vs_MaxUsers v) (vs_WelcomeText v).
Definition List (h : ServerHandler) f db : Database * Z * shown :=
  match EnsureDefaultVirtualServer (f 0%nat) (f 1%nat) db (str "Default") (metaHost h) (metaMumblePort h) 100 [] with
  | Err _ => (db, 500, Nothing)
  | Ok db =>
      if f 2%nat then (db, 500, Nothing) else
      (db, 200, Servers (map (fun iv => view_server iv.1 iv.2) (filter (fun iv => vs_Deleted iv.2 = false) (map_to_list (virtual_servers db)))))
  end.
Definition Get f db (id : gostring) : Z * shown :=
  match Accounts.ParseUint 32 id with
  | None => (400, Nothing)
  | Some id => if f 0%nat then (500, Nothing) else
      match live_server db id with None => (404, Nothing) | Some vs => (200, OneServer (view_server id vs)) end
  end.
(** [id]: the key the table gives the new row. *)
Definition Create (h : ServerHandler) f db (id : Z) (body : option ServerBody) : Database * Z * shown :=
  match body with
  | None => (db, 400, Nothing)
  | Some b =>
      let vs := mkVirtualServer (or_empty (str "Server") (sb_Name b)) (or_empty (metaHost h) (sb_Host b)) (or_zero (metaMumblePort h) (sb_Port b))
        (if sb_MaxUsers b <=? 0 then 100 else sb_MaxUsers b) (sb_WelcomeText b) [] [] false in
      match create_server (f 0%nat) db id vs with
      | Err _ => (db, 500, Nothing)
      | Ok db =>
          let db := (GetOrCreateCertForVirtualServer (f 1%nat) (f 2%nat) db id).2 in
          let db := match EnsureServerConfig stored_server (f 3%nat) (f 4%nat) db id (h_cfg h) with Ok db => db | Err _ => db end in
          (db, 201, OneServer (view_server id vs))
      end
  end.
Definition patch {A} (o : option A) (a : A) : A := match o with Some b => b | None => a end.
Definition patched_server (b : ServerPatch) (v : VirtualServer) : VirtualServer :=
  v <| vs_Name := patch (sp_Name b) (vs_Name v) |> <| vs_Host := patch (sp_Host b) (vs_Host v) |> <| vs_Port := patch (sp_Port b) (vs_Port v) |>
    <| vs_MaxUsers := patch (sp_MaxUsers b) (vs_MaxUsers v) |> <| vs_WelcomeText := patch (sp_WelcomeText b) (vs_WelcomeText v) |>.
Definition no_server_patch (b : ServerPatch) : bool :=
  match b with mkServerPatch None None None None None => true | _ => false end.
Definition Update f db (id : gostring) (body : option ServerPatch) : Database * Z * shown :=
  match Accounts.ParseUint 32 id, body with
  | None, _ | _, None => (db, 400, Nothing)
  | Some id, Some b =>
      if f 0%nat then (db, 500, Nothing) else
      match live_server db id with
      | None => (db, 404, Nothing)
      | Some vs =>
          let vs := patched_server b vs in
          if no_server_patch b then (db, 200, OneServer (view_server id vs)) else
          if f 1%nat then (db, 500, Nothing) else
          (db <| virtual_servers := <[id := vs]> (virtual_servers db) |>, 200, OneServer (view_server id vs))
      end
  end.
Definition Delete f db (id : gostring) : Database * Z * shown :=
  match Accounts.ParseUint 32 id with
  | None => (db, 400, Nothing)
  | Some id =>
      if f 0%nat then (db, 500, Nothing) else
      match live_server db id with
      | None => (db, 404, Nothing)
      | Some vs =>
          if f 1%nat then (db, 500, Nothing) else
          (db <| virtual_servers := <[id := vs <| vs_Deleted := true |>]> (virtual_servers db) |>, 204, Nothing)
      end
  end.

(** ** Settings *)

Definition view_config (d : ServerConfigData) : ConfigView :=
  mkConfigView (sd_MaxUsers d) (sd_MaxBandwidth d) (sd_WelcomeText d) (sd_DefaultChannel d) (sd_CertRequired d) (sd_ChannelNestingLimit d)
    (sd_ChannelCountLimit d) (sd_VoiceDebug d) (sd_AllowRecording d) (sd_MaxTextMessageLength d) (sd_MaxImageMessageLength d).
Definition GetConfig f db (id : gostring) : Z * shown :=
  match Accounts.ParseUint 32 id with
  | None => (400, Nothing)
  | Some id => match LoadServerConfig (f 0%nat) db id with Err _ => (500, Nothing) | Ok sc => (200, Settings (view_config sc)) end
  end.
Definition patched_data (b : ConfigPatch) (d : ServerConfigData) : ServerConfigData :=
  mkServerData (patch (cp_MaxUsers b) (sd_MaxUsers d)) (patch (cp_MaxBandwidth b) (sd_MaxBandwidth d)) (patch (cp_WelcomeText b) (sd_WelcomeText d))
    (sd_ServerPassword d) (patch (cp_DefaultChannel b) (sd_DefaultChannel d)) (patch (cp_CertRequired b) (sd_CertRequired d))
    (patch (cp_ChannelNestingLimit b) (sd_ChannelNestingLimit d)) (patch (cp_ChannelCountLimit b) (sd_ChannelCountLimit d))
    (patch (cp_VoiceDebug b) (sd_VoiceDebug d)) (patch (cp_AllowRecording b) (sd_AllowRecording d))
    (patch (cp_MaxTextMessageLength b) (sd_MaxTextMessageLength d)) (patch (cp_MaxImageMessageLength b) (sd_MaxImageMessageLength d))
    (sd_MaxChannelListeners d) (sd_MaxListenersPerUser d).
Definition patched_row (b : ConfigPatch) (r : ServerRow) : ServerRow :=
  mkServerRow (patched_data b (sr_data r)) (sr_AllowHTML r) (sr_RegName r) (sr_RegPassword r) (sr_RegURL r).
Definition no_config_patch (b : ConfigPatch) : bool :=
  match b with mkConfigPatch None None None None None None None None None None None => true | _ => false end.
(** [models.ServerConfig] with its key alone. *)
Definition zero_row : ServerRow := mkServerRow (mkServerData 0 0 [] [] 0 false 0 0 false false 0 0 0 0) false [] [] [].
(** Besides the answer: for which server [onConfigChange] is called. *)
Definition UpdateConfig f db (id : gostring) (body : option ConfigPatch) : Database * Z * option Z :=
  match Accounts.ParseUint 32 id, body with
  | None, _ | _, None => (db, 400, None)
  | Some id, Some b =>
      if f 0%nat then (db, 500, None) else
      let found := match server_configs db !! id with
        | Some r => Some (db, r)
        | None => if f 1%nat then None else let r := stored_server zero_row in Some (db <| server_configs := <[id := r]> (server_configs db) |>, r)
        end in
      match found with
      | None => (db, 500, None)
      | Some (db, r) =>
          if no_config_patch b then (db, 204, None) else
          if f 2%nat then (db, 500, None) else
          (db <| server_configs := <[id := patched_row b r]> (server_configs db) |>, 204, Some id)
      end
  end.
Definition default_meta : MetaConfig := mkMeta (str "0.0.0.0") 64738 64730 false [] (str "go-mumble-server") (str "go-mumble-server-api") 30.
Definition GetMetaConfig f db : Z * shown :=
  match LoadMetaConfig (f 0%nat) db with
  | Err _ => (500, Nothing)
  | Ok meta => let m := default default_meta meta in
      (200, Global (mkMetaView (mc_Host m) (mc_MumblePort m) (mc_RESTPort m) (mc_Bonjour m) (mc_RegisterName m)))
  end.
Definition patched_meta (b : MetaPatch) (m : MetaConfig) : MetaConfig :=
  mkMeta (patch (mp_Host b) (mc_Host m)) (patch (mp_MumblePort b) (mc_MumblePort m)) (patch (mp_RESTPort b) (mc_RESTPort m))
    (patch (mp_Bonjour b) (mc_Bonjour m)) (patch (mp_RegisterName b) (mc_RegisterName m)) (mc_JWTIssuer m) (mc_JWTAudience m) (mc_JWTExpiryDays m).
Definition UpdateMetaConfig_request f db (body : option MetaPatch) : Database * Z :=
  match body with
  | None => (db, 400)
  | Some b =>
      let meta := match LoadMetaConfig (f 0%nat) db with Ok (Some meta) => meta | _ => default_meta end in
      match UpdateMetaConfig (f 1%nat) db (Some (patched_meta b meta)) with Err _ => (db, 500) | Ok db => (db, 204) end
  end.

(** ** A process and its restarts *)

Inductive request :=
  | ListServers
  | GetServer (id : gostring)
  | CreateServer (id : Z) (body : option ServerBody)
  | UpdateServer (id : gostring) (body : option ServerPatch)
  | DeleteServer (id : gostring)
  | ReadConfig (id : gostring)
  | WriteConfig (id : gostring) (body : option ConfigPatch)
  | ReadMeta
  | WriteMeta (body : option MetaPatch).
(** The database afterwards, and the status. *)
Definition serve (h : ServerHandler) f db (rq : request) : Database * Z :=
  match rq with
  | ListServers => (List h f db).1
  | GetServer id => (db, (Get f db id).1)
  | CreateServer id body => (Create h f db id body).1
  | UpdateServer id body => (Update f db id body).1
  | DeleteServer id => (Delete f db id).1
  | ReadConfig id => (db, (GetConfig f db id).1)
  | WriteConfig id body => (UpdateConfig f db id body).1
  | ReadMeta => (db, (GetMetaConfig f db).1)
  | WriteMeta body => UpdateMetaConfig_request f db body
  end.

(** What [Prepare] leaves in the database, also when it fails half way. *)
Definition left_by_start (fl : Faults) (cfg : Config) db : Database :=
  match EnsureMetaConfig stored_meta (ensure_meta_first fl) (ensure_meta_create fl) db cfg with
  | Err _ => db
  | Ok db =>
      match LoadMetaConfig (load_meta fl) db, LoadServerConfig (load_server fl) db 1 with
      | Ok meta, Ok serverCfg =>
          let run := ConfigForServer meta (Some serverCfg) (Some cfg) in
          match EnsureDefaultVirtualServer (ensure_vs_first fl) (ensure_vs_create fl) db (str "Default") (Host run) (MumblePort run) (MaxUsers run) (WelcomeText run) with
          | Err _ => db
          | Ok db => match EnsureServerConfig stored_server (ensure_server_first fl) (ensure_server_create fl) db 1 run with Err _ => db | Ok db => db end
          end
      | _, _ => db
      end
  end.
(** A database and the process on it, if there is one: the settings it was
    started with, and its handler. *)
Record Process := mkProcess { tables : Database; running : option (Config * ServerHandler) }.
Inductive event :=
  | Started (fl : Faults) (load_fails : bool) (cfg : Config)
  | Stopped
  | Requested (f : nat -> bool) (rq : request).
Definition step (p : Process) (e : event) : Process :=
  match e with
  | Started fl load_fails cfg =>
      match Prepare stored_meta stored_server fl cfg (tables p) with
      | Ok (run, db) => mkProcess db (Some (run, NewServerHandler load_fails db run))
      | Err _ => mkProcess (left_by_start fl cfg (tables p)) None
      end
  | Stopped => mkProcess (tables p) None
  | Requested f rq =>
      match running p with
      | Some (run, h) => mkProcess (serve h f (tables p) rq).1 (Some (run, h))
      | None => p
      end
  end.
Inductive runs (p0 : Process) : Process -> Prop :=
  | runs_start : runs p0 p0
  | runs_step p e : runs p0 p -> runs p0 (step p e).

(** ** Lemmas *)

Hypothesis meta_is_stored : forall m, stored_meta m = meta_columns m.
Hypothesis server_is_stored : forall r, stored_server r = server_columns r.

Lemma prepare_leaves fl cfg db run db' : Prepare stored_meta stored_server fl cfg db = Ok (run, db') -> left_by_start fl cfg db = db'.
Proof.
  unfold Prepare, left_by_start. destruct (EnsureMetaConfig _ _ _ _ _) as [db1|]; [|done]. cbn [mbind result_bind].
  destruct (LoadMetaConfig _ _) as [m|]; [|done]. cbn [mbind result_bind]. destruct (LoadServerConfig _ _ _) as [sc|]; [|done]. cbn [mbind result_bind]. cbv zeta.
  generalize (ConfigForServer m (Some sc) (Some cfg)). intros c.
  destruct (EnsureDefaultVirtualServer _ _ _ _ _ _ _ _) as [db2|]; [|done]. cbn [mbind result_bind].
  destruct (EnsureServerConfig _ _ _ _ _ _) as [db3|]; [|done]. by intros [= _ <-].
Qed.
Lemma server_of_run meta d cfg : server_of (ConfigForServer meta (Some d) (Some cfg)) = d.
Proof. destruct meta as [m|]; [exact (proj2 (run_settings m d cfg))|unfold ConfigForServer; cbn -[str]; destruct d; cbn -[str]; by destruct (nonempty (Mode cfg))]. Qed.
Lemma prepare_runs fl cfg db run db' : Prepare stored_meta stored_server fl cfg db = Ok (run, db') -> server_of run = server_data db.
Proof.
  unfold Prepare, EnsureMetaConfig. destruct (answer (ensure_meta_first fl) (meta_config db)) as [m0|] eqn:E0; [|done]. cbn [mbind result_bind].
  destruct (match m0 with Some _ => _ | None => _ end) as [db1|] eqn:E1; [|done]. cbn [mbind result_bind].
  assert (server_configs db1 = server_configs db) as Hc by (destruct m0; [by injection E1 as <-|revert E1; cbv zeta; unfold answer; destruct (ensure_meta_create fl); [done|by intros [= <-]]]).
  destruct (LoadMetaConfig _ _) as [m|]; [|done]. cbn [mbind result_bind]. destruct (LoadServerConfig _ _ _) as [sc|] eqn:E2; [|done]. cbn [mbind result_bind]. cbv zeta.
  assert (sc = server_data db) as Hsc.
  { revert E2. unfold LoadServerConfig, answer. destruct (load_server fl); [done|]. rewrite Hc. by intros [= <-]. }
  pose proof (server_of_run m sc cfg) as Hr. rewrite Hsc in Hr at 2. revert Hr. generalize (ConfigForServer m (Some sc) (Some cfg)). intros c Hr.
  destruct (EnsureDefaultVirtualServer _ _ _ _ _ _ _ _) as [db2|]; [|done]. cbn [mbind result_bind].
  destruct (EnsureServerConfig _ _ _ _ _ _) as [db3|]; [|done]. cbn [mbind result_bind]. intros H. by simplify_eq.
Qed.
Lemma handler_cfg fails db cfg : h_cfg (NewServerHandler fails db cfg) = cfg.
Proof. unfold NewServerHandler. by destruct (LoadMetaConfig _ _) as [[m|]|]. Qed.
(** The steps of a start, for a property of the tables that each of them keeps. *)
Lemma left_by_start_ind (P : Database -> Prop) fl cfg db : P db ->
  (forall db1 m, P db1 -> P (db1 <| meta_config := m |>)) ->
  (forall db1 db2 first create name host port users text, P db1 -> EnsureDefaultVirtualServer first create db1 name host port users text = Ok db2 -> P db2) ->
  (forall db1 db2 first create run, P db1 -> server_of run = server_data db1 -> EnsureServerConfig stored_server first create db1 1 run = Ok db2 -> P db2) ->
  P (left_by_start fl cfg db).
Proof.
  intros H0 Hm Hv Hs. unfold left_by_start. destruct (EnsureMetaConfig _ _ _ _ _) as [db1|] eqn:E1; [|done].
  assert (P db1) as H1.
  { revert E1. unfold EnsureMetaConfig, answer. destruct (ensure_meta_first fl); [done|]. cbn [mbind result_bind]. destruct (meta_config db); [by intros [= <-]|].
    cbv zeta. destruct (ensure_meta_create fl); [done|]. intros [= <-]. by apply Hm. }
  destruct (LoadMetaConfig _ _) as [m|]; [|done]. destruct (LoadServerConfig _ _ _) as [sc|] eqn:E2; [|done]. cbv zeta.
  assert (sc = server_data db1) as ->.
  { revert E2. unfold LoadServerConfig, answer. destruct (load_server fl); [done|]. by intros [= <-]. }
  set (run := ConfigForServer _ _ _). destruct (EnsureDefaultVirtualServer _ _ _ _ _ _ _ _) as [db2|] eqn:E3; [|done].
  pose proof (Hv _ _ _ _ _ _ _ _ _ H1 E3) as H2. destruct (EnsureServerConfig _ _ _ _ _ _) as [db3|] eqn:E4; [|done].
  eapply Hs; [exact H2| |exact E4]. transitivity (server_data db1).
  - apply server_of_run.
  - revert E3. unfold EnsureDefaultVirtualServer, create_server, answer. destruct (ensure_vs_first fl); [done|]. cbn [mbind result_bind].
    destruct (live_server db1 1); [by intros [= <-]|]. destruct (_ || _); [done|]. by intros [= <-].
Qed.

(** Which tables an operation leaves alone. *)
Lemma create_server_frame fails db id v db' : create_server fails db id v = Ok db' ->
  server_configs db' = server_configs db /\ meta_config db' = meta_config db /\ virtual_servers db !! id = None /\ virtual_servers db' = <[id := vs_columns v]> (virtual_servers db).
Proof.
  unfold create_server, answer. destruct (fails || _) eqn:E; [done|]. intros [= <-]. cbn. apply orb_false_iff in E as [_ E%bool_decide_eq_false]. split; [done|]. split; [done|]. split; [|done].
  by apply eq_None_not_Some.
Qed.
Lemma ensure_vs_frame first create db name host port users text db' : EnsureDefaultVirtualServer first create db name host port users text = Ok db' ->
  server_configs db' = server_configs db /\ meta_config db' = meta_config db /\ removed_server db' = false.
Proof.
  unfold EnsureDefaultVirtualServer, answer. destruct first; [done|]. cbn [mbind result_bind]. unfold live_server. destruct (virtual_servers db !! 1) as [v|] eqn:E; cbn [mbind option_bind].
  - destruct (vs_Deleted v) eqn:Ed; [|intros [= <-]; unfold removed_server; by rewrite E].
    intros H. apply create_server_frame in H as (_ & _ & H & _). congruence.
  - intros H. apply create_server_frame in H as (H1 & H2 & _ & H3). split; [done|]. split; [done|]. unfold removed_server. by rewrite H3, lookup_insert_eq.
Qed.
Lemma cert_frame first update db id : let db' := (GetOrCreateCertForVirtualServer first update db id).2 in
  server_configs db' = server_configs db /\ meta_config db' = meta_config db /\
  forall k, vs_Deleted <$> virtual_servers db' !! k = vs_Deleted <$> virtual_servers db !! k.
Proof.
  unfold GetOrCreateCertForVirtualServer, live_server. destruct first; [done|]. destruct (virtual_servers db !! id) as [vs|] eqn:E; [|done]. cbn [mbind option_bind].
  destruct (vs_Deleted vs) eqn:Ed; [done|]. destruct (_ && _); [done|]. destruct GenerateSelfSigned as [[cert key]|]; [|done]. destruct update; [done|].
  cbn. split; [done|]. split; [done|]. intros k. rewrite lookup_insert. case_decide as Hk; [|done]. subst k. rewrite E. cbn. by rewrite Ed.
Qed.
Lemma ensure_server_rows first create db id cfg db' : EnsureServerConfig stored_server first create db id cfg = Ok db' ->
  virtual_servers db' = virtual_servers db /\ meta_config db' = meta_config db /\
  forall k, server_configs db' !! k = if decide (k = id) then Some (default (server_columns (mkServerRow (server_of cfg) false [] [] [])) (server_configs db !! id)) else server_configs db !! k.
Proof.
  unfold EnsureServerConfig, answer. destruct first; [done|]. cbn [mbind result_bind]. destruct (server_configs db !! id) as [r|] eqn:E.
  - intros [= <-]. split; [done|]. split; [done|]. intros k. case_decide as Hk; [subst k; by rewrite E|done].
  - destruct create; [done|]. intros [= <-]. cbn. split; [done|]. split; [done|]. intros k. rewrite lookup_insert, server_is_stored. case_decide as Hk; [subst k; by rewrite decide_True|by rewrite decide_False].
Qed.

(** ** Settings that nothing can set *)

(** No password for the server, no limits of listeners. *)
Definition unset (d : ServerConfigData) : Prop := sd_ServerPassword d = [] /\ sd_MaxChannelListeners d = 0 /\ sd_MaxListenersPerUser d = 0.
Definition rows_unset db : Prop := map_Forall (fun _ r => unset (sr_data r)) (server_configs db).
Definition process_unset (p : Process) : Prop :=
  rows_unset (tables p) /\ forall run h, running p = Some (run, h) -> unset (server_of run) /\ unset (server_of (h_cfg h)).
Lemma columns_unset d : unset d -> unset (sr_data (server_columns (mkServerRow d false [] [] []))).
Proof. done. Qed.
Lemma server_data_unset db : rows_unset db -> unset (server_data db).
Proof. intros H. unfold server_data. destruct (server_configs db !! 1) as [r|] eqn:E; [by eapply H|done]. Qed.
Lemma rows_unset_eq db db' : server_configs db' = server_configs db -> rows_unset db -> rows_unset db'.
Proof. unfold rows_unset. by intros ->. Qed.
Lemma ensure_server_unset first create db id cfg db' : rows_unset db -> unset (server_of cfg) -> EnsureServerConfig stored_server first create db id cfg = Ok db' -> rows_unset db'.
Proof.
  intros H Hc E. destruct (ensure_server_rows _ _ _ _ _ _ E) as (_ & _ & Hx). intros k r. rewrite Hx. case_decide; [|apply H]. subst k. intros [= <-].
  destruct (server_configs db !! id) as [r|] eqn:Er; [by eapply H|exact (columns_unset _ Hc)].
Qed.
Lemma start_unset fl cfg db : rows_unset db -> rows_unset (left_by_start fl cfg db).
Proof.
  intros H. apply left_by_start_ind; [done|intros db1 m; by apply rows_unset_eq| |].
  - intros db1 db2 first create name host port users text H1 E. eapply rows_unset_eq; [|exact H1]. by apply ensure_vs_frame in E as [E _].
  - intros db1 db2 first create run H1 Hr E. eapply ensure_server_unset; [exact H1| |exact E]. rewrite Hr. by apply server_data_unset.
Qed.
Lemma update_config_unset f db id body : rows_unset db -> rows_unset (UpdateConfig f db id body).1.1.
Proof.
  intros H. assert (forall k r db1, rows_unset db1 -> unset (sr_data r) -> rows_unset (db1 <| server_configs := <[k := r]> (server_configs db1) |>)) as K.
  { intros k r db1 H1 Hr i x. cbn. rewrite lookup_insert_Some. intros [[<- <-]|[_ Hx]]; [done|by eapply H1]. }
  unfold UpdateConfig. destruct (Accounts.ParseUint 32 id) as [n|], body as [b|]; try done. destruct (f 0%nat); [done|].
  destruct (match server_configs db !! n with Some r => _ | None => _ end) as [[db1 r]|] eqn:E; [|done].
  assert (rows_unset db1 /\ unset (sr_data r)) as [H1 Hr].
  { destruct (server_configs db !! n) as [r0|] eqn:E0; [injection E as <- <-; split; [done|by eapply H]|]. destruct (f 1%nat); [done|]. injection E as <- <-. rewrite server_is_stored.
    split; [by apply K|done]. }
  destruct (no_config_patch b); [done|]. destruct (f 2%nat); [done|]. apply (K n (patched_row b r) db1 H1). exact Hr.
Qed.
Lemma serve_unset h f db rq : rows_unset db -> unset (server_of (h_cfg h)) -> rows_unset (serve h f db rq).1.
Proof.
  intros H Hc. destruct rq as [|id|id body|id body|id|id|id body| |body]; cbn [serve fst]; try done.
  - unfold List. destruct (EnsureDefaultVirtualServer _ _ _ _ _ _ _ _) as [db1|] eqn:E; [|done]. assert (rows_unset db1) by (eapply rows_unset_eq; [|exact H]; by apply ensure_vs_frame in E as [E _]).
    by destruct (f 2%nat).
  - unfold Create. destruct body as [b|]; [|done]. cbv zeta. destruct (create_server _ _ _ _) as [db1|] eqn:E; [|done]. apply create_server_frame in E as (E & _).
    destruct (cert_frame (f 1%nat) (f 2%nat) db1 id) as (E2 & _). set (db2 := (GetOrCreateCertForVirtualServer _ _ db1 id).2) in *.
    assert (rows_unset db2) as H2 by (eapply rows_unset_eq; [|exact H]; congruence).
    destruct (EnsureServerConfig _ _ _ _ _ _) as [db3|] eqn:E3; [by eapply ensure_server_unset|exact H2].
  - unfold Update. destruct (Accounts.ParseUint 32 id), body as [b|]; try done. destruct (f 0%nat); [done|]. destruct (live_server _ _); [|done]. destruct (no_server_patch b); [done|]. by destruct (f 1%nat).
  - unfold Delete. destruct (Accounts.ParseUint 32 id); [|done]. destruct (f 0%nat); [done|]. destruct (live_server _ _); [|done]. by destruct (f 1%nat).
  - by apply update_config_unset.
  - unfold UpdateMetaConfig_request, UpdateMetaConfig, answer. destruct body as [b|]; [|done]. cbv zeta. destruct (f 1%nat); [done|]. cbn. destruct (meta_config db); [|done]. by eapply rows_unset_eq.
Qed.
(** Whatever a process is configured with and whatever requests and restarts
    follow, a server that began with an empty database never has a password and
    never limits its channel listeners: no file, variable or request reaches
    these settings. *)
Theorem password_cannot_be_set db p run h : server_configs db = ∅ -> runs (mkProcess db None) p -> running p = Some (run, h) ->
  ServerPassword run = [] /\ MaxChannelListeners run = 0 /\ MaxListenersPerUser run = 0.
Proof.
  intros H0 R Hrun. assert (process_unset p) as [_ H].
  { clear Hrun. induction R as [|p e R [Hr Hp]]; [split; [unfold rows_unset; cbn; rewrite H0; apply map_Forall_empty|done]|].
    destruct e as [fl lf cfg| |f rq]; cbn [step]; [| |].
    - destruct (Prepare _ _ _ _ _) as [[run0 db']|] eqn:E; (split; cbn [tables running]; [|try done]).
      + rewrite <- (prepare_leaves _ _ _ _ _ E). by apply start_unset.
      + intros run1 h1 [= <- <-]. assert (unset (server_of run0)) as Hu; [|split; [done|]].
        * apply prepare_runs in E. rewrite E. by apply server_data_unset.
        * by rewrite handler_cfg.
      + by apply start_unset.
    - done.
    - destruct (running p) as [[run0 h0]|] eqn:E; [|split; [done|by rewrite E]]. split; cbn [tables running].
      + apply serve_unset; [done|]. by apply (Hp run0 h0).
      + intros run1 h1 [= <- <-]. by apply Hp. }
  destruct (H run h Hrun) as [Hu _]. exact Hu.
Qed.

(** ** A change of the settings *)

Lemma no_config_patch_spec b : no_config_patch b = true -> b = mkConfigPatch None None None None None None None None None None None.
Proof. destruct b as [o1 o2 o3 o4 o5 o6 o7 o8 o9 o10 o11]. cbn. by do 11 (match goal with |- match ?o with _ => _ end = _ -> _ => destruct o; [done|] end). Qed.
(** A request to change the settings of a virtual server changes exactly the
    fields it names, in the row of this server alone, which it creates with the
    defaults of the columns if it is missing; that is what the interface then
    shows, and what the next start runs with, whatever the configuration says. *)
Theorem update_config_exact db id n b : Accounts.ParseUint 32 id = Some n ->
  let '(db', status, notified) := UpdateConfig (fun _ => false) db id (Some b) in
  let row := patched_row b (default (mkServerRow DefaultServerConfig true [] [] []) (server_configs db !! n)) in
  status = 204 /\ notified = (if no_config_patch b then None else Some n) /\
  virtual_servers db' = virtual_servers db /\ meta_config db' = meta_config db /\
  (forall k, server_configs db' !! k = if decide (k = n) then Some row else server_configs db !! k) /\
  GetConfig (fun _ => false) db' id = (200, Settings (view_config (sr_data row))) /\
  (n = 1 -> removed_server db = false -> forall cfg, exists run db2,
     Prepare stored_meta stored_server no_faults cfg db' = Ok (run, db2) /\ server_of run = sr_data row).
Proof.
  intros Hid. unfold UpdateConfig. rewrite Hid.
  assert (stored_server zero_row = mkServerRow DefaultServerConfig true [] [] []) as Hz by (by rewrite server_is_stored).
  set (row := patched_row b (default _ _)).
  destruct (match server_configs db !! n with Some r => _ | None => _ end) as [[db1 r]|] eqn:E; [|by destruct (server_configs db !! n)].
  assert (r = default (mkServerRow DefaultServerConfig true [] [] []) (server_configs db !! n) /\ virtual_servers db1 = virtual_servers db /\ meta_config db1 = meta_config db /\
    forall k, server_configs db1 !! k = if decide (k = n) then Some r else server_configs db !! k) as (Hr & Hv & Hm & Hs).
  { destruct (server_configs db !! n) as [r0|] eqn:E0; injection E as <- <-; cbn.
    - split; [done|]. split; [done|]. split; [done|]. intros k. by case_decide as Hk; [subst k|].
    - split; [exact Hz|]. split; [done|]. split; [done|]. intros k. rewrite lookup_insert. by case_decide as Hk; [subst k; rewrite decide_True|rewrite decide_False]. }
  assert (row = patched_row b r) as Hrow0 by (unfold row; by rewrite Hr). clearbody row. subst row. set (row := patched_row b r).
  assert (forall db', virtual_servers db' = virtual_servers db -> server_configs db' !! n = Some row ->
    GetConfig (fun _ => false) db' id = (200, Settings (view_config (sr_data row))) /\
    (n = 1 -> removed_server db = false -> forall cfg, exists run db2, Prepare stored_meta stored_server no_faults cfg db' = Ok (run, db2) /\ server_of run = sr_data row)) as K.
  { intros db' Hv' Hs'. split; [unfold GetConfig, LoadServerConfig, answer; by rewrite Hid, Hs'|]. intros -> Hd cfg.
    destruct (prepare_ok stored_meta stored_server meta_is_stored server_is_stored cfg db') as (run & scs & vs & Hp & -> & _).
    { unfold removed_server in *. by rewrite Hv'. }
    eexists _, _. split; [exact Hp|]. rewrite server_of_run. unfold server_data. by rewrite Hs'. }
  cbv zeta. destruct (no_config_patch b) eqn:En.
  - assert (row = r) as Hrow.
    { unfold row, patched_row, patched_data. rewrite (no_config_patch_spec b En). by destruct r as [[] ? ? ? ?]. }
    rewrite Hrow in K |- *. split; [done|]. split; [done|]. split; [done|]. split; [done|]. split; [exact Hs|]. apply K; [done|]. rewrite Hs. by rewrite decide_True.
  - split; [done|]. split; [done|]. split; [done|]. split; [done|].
    assert (forall k, <[n := row]> (server_configs db1) !! k = if decide (k = n) then Some row else server_configs db !! k) as Hk.
    { intros k. rewrite lookup_insert. case_decide as Hk; [subst k; by rewrite decide_True|]. rewrite decide_False by done. rewrite Hs. by rewrite decide_False. }
    split; [exact Hk|]. apply (K (db1 <| server_configs := <[n := row]> (server_configs db1) |>)); [done|]. cbn. by rewrite lookup_insert_eq.
Qed.

(** ** A virtual server that was deleted *)

Lemma serve_removed h f db rq : removed_server db = true -> removed_server (serve h f db rq).1 = true.
Proof.
  intros H. assert (forall db', (forall k, vs_Deleted <$> virtual_servers db' !! k = vs_Deleted <$> virtual_servers db !! k) -> removed_server db' = true) as K.
  { intros db' Hk. specialize (Hk 1). unfold removed_server in *. by destruct (virtual_servers db !! 1), (virtual_servers db' !! 1); cbn in Hk; try done; injection Hk as ->. }
  assert (forall k v w, virtual_servers db !! k = Some v -> vs_Deleted v = false -> <[k := w]> (virtual_servers db) !! 1 = virtual_servers db !! 1) as Hne.
  { intros k v w Hv Hd. rewrite lookup_insert_ne; [done|]. intros ->. unfold removed_server in H. rewrite Hv in H. congruence. }
  destruct rq as [|id|id body|id body|id|id|id body| |body]; cbn [serve fst]; try done.
  - unfold List. by rewrite ensure_vs_removed.
  - unfold Create. destruct body as [b|]; [|done]. cbv zeta. destruct (create_server _ _ _ _) as [db1|] eqn:E; [|done].
    apply create_server_frame in E as (_ & _ & Hn & Hv). destruct (cert_frame (f 1%nat) (f 2%nat) db1 id) as (_ & _ & Hc).
    set (db2 := (GetOrCreateCertForVirtualServer _ _ db1 id).2) in *.
    assert (removed_server db2 = true) as H2.
    { unfold removed_server in *. specialize (Hc 1). rewrite Hv in Hc. rewrite lookup_insert_ne in Hc by (intros ->; by rewrite Hn in H).
      by destruct (virtual_servers db !! 1), (virtual_servers db2 !! 1); cbn in Hc; try done; injection Hc as ->. }
    destruct (EnsureServerConfig _ _ _ _ _ _) as [db3|] eqn:E3; [|exact H2]. apply ensure_server_rows in E3 as (E3 & _). unfold removed_server in *. cbn. by rewrite E3.
  - unfold Update. destruct (Accounts.ParseUint 32 id) as [n|], body as [b|]; try done. destruct (f 0%nat); [done|]. unfold live_server. destruct (virtual_servers db !! n) as [v|] eqn:Ev; [|done]. cbn [mbind option_bind].
    destruct (vs_Deleted v) eqn:Ed; [done|]. destruct (no_server_patch b); [done|]. destruct (f 1%nat); [done|]. unfold removed_server in *. cbn. by rewrite (Hne n v _ Ev Ed).
  - unfold Delete. destruct (Accounts.ParseUint 32 id) as [n|]; [|done]. destruct (f 0%nat); [done|]. unfold live_server. destruct (virtual_servers db !! n) as [v|] eqn:Ev; [|done]. cbn [mbind option_bind].
    destruct (vs_Deleted v) eqn:Ed; [done|]. destruct (f 1%nat); [done|]. unfold removed_server in *. cbn. by rewrite (Hne n v _ Ev Ed).
  - unfold UpdateConfig. destruct (Accounts.ParseUint 32 id) as [n|], body as [b|]; try done. destruct (f 0%nat); [done|].
    destruct (match server_configs db !! n with Some r => _ | None => _ end) as [[db1 r]|] eqn:E; [|done].
    assert (virtual_servers db1 = virtual_servers db) as Hv by (destruct (server_configs db !! n); [by injection E as <- _|destruct (f 1%nat); [done|by injection E as <- _]]).
    destruct (no_config_patch b), (f 2%nat); cbn; unfold removed_server in *; cbn; by rewrite Hv.
  - unfold UpdateMetaConfig_request, UpdateMetaConfig, answer. destruct body as [b|]; [|done]. cbv zeta. destruct (f 1%nat); [done|]. cbn. by destruct (meta_config db).
Qed.
Lemma start_removed fl cfg db : removed_server db = true -> removed_server (left_by_start fl cfg db) = true.
Proof.
  intros H. apply left_by_start_ind; [done|done| |].
  - intros db1 db2 first create name host port users text H1 E. by rewrite ensure_vs_removed in E.
  - intros db1 db2 first create run H1 _ E. apply ensure_server_rows in E as (E & _). unfold removed_server in *. by rewrite E.
Qed.
(** C9: to delete the virtual server 1 through the interface ends the server for
    good: the row stays, marked, and its key cannot be created again, so that no
    later start succeeds, with any configuration and after any requests, and the
    list of virtual servers is answered with an error. *)
Theorem deletion_is_final f db id run p : Accounts.ParseUint 32 id = Some 1 -> (Delete f db id).1.2 = 204 ->
  runs (mkProcess (Delete f db id).1.1 run) p ->
  (forall fl load_fails cfg, running (step p (Started fl load_fails cfg)) = None) /\
  (forall h g, (List h g (tables p)).1.2 = 500) /\ (forall g, (Get g (tables p) id).1 <> 200).
Proof.
  intros Hid Hs R. assert (removed_server (tables p) = true) as H.
  { induction R as [|p e R IH].
    - cbn [tables]. revert Hs. unfold Delete. rewrite Hid. destruct (f 0%nat); [done|]. destruct (live_server _ _); [|done]. destruct (f 1%nat); [done|].
      intros _. unfold removed_server. cbn. by rewrite lookup_insert_eq.
    - destruct e as [fl lf cfg| |g rq]; cbn [step].
      + rewrite prepare_removed by done. cbn [tables]. by apply start_removed.
      + done.
      + destruct (running p) as [[r h]|]; [|done]. cbn [tables]. by apply serve_removed. }
  split; [|split].
  - intros fl lf cfg. cbn [step]. by rewrite prepare_removed.
  - intros h g. unfold List. by rewrite ensure_vs_removed.
  - intros g. unfold Get, live_server. rewrite Hid. destruct (g 0%nat); [done|]. unfold removed_server in H. destruct (virtual_servers (tables p) !! 1) as [v|]; [|done]. cbn. by rewrite H.
Qed.
End Management.

(** ** A server and its administrator *)

Definition self_signed : option (gostring * gostring) := Some (str "cert", str "key").
Notation psteps := (fold_left (step meta_columns server_columns self_signed)).
Definition fine (_ : nat) : bool := false.
Definition empty_process : Process := mkProcess fresh None.
Definition started : Process := psteps [Started no_faults false bootstrap] empty_process.
Lemma steps_run es : forall p0 p, runs meta_columns server_columns self_signed p0 p -> runs meta_columns server_columns self_signed p0 (psteps es p).
Proof. induction es as [|e es IH]; intros p0 p H; [exact H|]. apply IH. by apply runs_step. Qed.

(** The password of the environment has no effect; nor have requests. *)
Definition tight : ConfigPatch := mkConfigPatch (Some 5) None (Some (str "hello")) None None None None None (Some false) None None.
Definition managed : Process := psteps
  [Requested fine (CreateServer 2 (Some (mkServerBody (str "second") [] 0 0 []))); Requested fine (WriteConfig (str "1") (Some tight)); Requested fine (WriteConfig (str "2") (Some tight));
   Stopped; Started no_faults false bootstrap] started.
Definition run_of (p : Process) : Config := match running p with Some (run, _) => run | None => blank end.
Definition handler_of (p : Process) : ServerHandler := match running p with Some (_, h) => h | None => mkServerHandler blank [] 0 end.
Example managed_settings : MaxUsers (run_of managed) = 5 /\ WelcomeText (run_of managed) = str "hello" /\ AllowRecording (run_of managed) = false /\
  sd_MaxUsers (sr_data (default zero_row (server_configs (tables managed) !! 2))) = 5.
Proof. vm_compute. done. Qed.
Lemma password_cannot_be_set_witness : ServerPassword bootstrap = str "secret" /\ ServerPassword (run_of managed) = [].
Proof.
  split; [vm_compute; reflexivity|].
  apply (password_cannot_be_set meta_columns server_columns self_signed (fun r => eq_refl) fresh managed (run_of managed) (handler_of managed)); [reflexivity| |].
  - unfold managed, started. apply steps_run, steps_run, runs_start.
  - destruct (running managed) as [[r h]|] eqn:E; unfold run_of, handler_of; rewrite E; [reflexivity|]. vm_compute in E. discriminate E.
Defined.

(** A request about a server without a row of its own creates it. *)
Lemma update_config_exact_witness :
  (UpdateConfig server_columns fine (tables started) (str "7") (Some tight)).2 = Some 7 /\
  server_configs (UpdateConfig server_columns fine (tables started) (str "7") (Some tight)).1.1 !! 1 = server_configs (tables started) !! 1 /\
  (GetConfig fine (UpdateConfig server_columns fine (tables started) (str "7") (Some tight)).1.1 (str "7")).1 = 200.
Proof.
  pose proof (update_config_exact meta_columns server_columns (fun m => eq_refl) (fun r => eq_refl) (tables started) (str "7") 7 tight eq_refl) as H.
  change (fun _ : nat => false) with fine in H. destruct (UpdateConfig server_columns fine (tables started) (str "7") (Some tight)) as [[db' st] nt].
  destruct H as (_ & Hn & _ & _ & Hs & Hg & _). split; [exact Hn|]. split; [exact (Hs 1)|]. cbn [fst]. rewrite Hg. reflexivity.
Defined.

(** The administrator deletes the server and restarts the process. *)
Definition deleted : Database := (Delete fine (tables started) (str "1")).1.1.
Lemma deletion_is_final_witness : running (step meta_columns server_columns self_signed (mkProcess deleted None) (Started no_faults false defaults)) = None.
Proof.
  destruct (deletion_is_final meta_columns server_columns self_signed (fun r => eq_refl) fine (tables started) (str "1") None (mkProcess deleted None)) as [H _];
    [reflexivity|vm_compute; reflexivity|apply runs_start|]. apply H.
Defined.
(** When the read of the global settings fails, a request to change one of them
    overwrites all the others with the built-in values. *)
Example failed_read_resets :
  let f := fun n : nat => bool_decide (n = 0%nat) in
  let db := (tables started) <| meta_config := Some (mkMeta (str "10.0.0.1") 64000 64001 true (str "mine") (str "issuer") (str "audience") 7) |> in
  meta_config (UpdateMetaConfig_request f db (Some (mkMetaPatch None (Some 65000) None None None))).1 =
  Some (mkMeta (str "0.0.0.0") 65000 64730 false [] (str "go-mumble-server") (str "go-mumble-server-api") 30).
Proof. vm_compute. done. Qed.
End Management.
