(* ===== verification/RegisteredUsers.v ===== *)
(** * Registered users

    The requests of [internal/handler/registered_user.go] over the table of
    registered users. A body is what JSON makes of it ([None] when it does not
    parse), which queries fail is an argument, the password hash is a parameter.
    A row that is deleted stays, marked. *)

From Stdlib Require Import ZArith Lia String.
From stdpp Require Import base numbers list gmap option.
From S2P Require Import Prelude Wire Fields Acl Accounts.

Module RegisteredUsers.

Record RegisteredUser := mkUser {
  ru_ServerID : Z; ru_UserID : Z; ru_Name : gostring; ru_CertHash : gostring; ru_PasswordHash : gostring; ru_Email : gostring;
  ru_LastChannelID : Z; ru_Deleted : bool }.
#[export] Instance RegisteredUser_eta : Eta RegisteredUser := fun u =>
  mkUser (ru_ServerID u) (ru_UserID u) (ru_Name u) (ru_CertHash u) (ru_PasswordHash u) (ru_Email u) (ru_LastChannelID u) (ru_Deleted u).
Notation Table := (gmap Z RegisteredUser).

Record CreateBody := mkCreate { cb_Name : gostring; cb_Password : gostring; cb_Email : gostring }.
Record UpdateBody := mkUpdate { ub_Name : option gostring; ub_Password : option gostring; ub_Email : option gostring }.
(** What [List] shows of a row. *)
Record Shown := mkShown { sh_ID : Z; sh_UserID : Z; sh_Name : gostring; sh_Email : gostring; sh_LastChannelID : Z }.

Section Users.
Context (HashArgon2id : gostring -> option gostring).
Implicit Types (db : Table).

(** [strconv.ParseUint(s, 10, 32)] and [strconv.ParseInt(s, 10, 32)]. *)
Definition server_number (s : gostring) : option Z := Accounts.ParseUint 32 s.
Definition user_number (s : gostring) : option Z := Acl.ParseInt32 s.

Definition live_on (serverID : Z) (u : RegisteredUser) : bool := (ru_ServerID u =? serverID) && negb (ru_Deleted u).
(** [SELECT MAX(user_id)] of the live rows of a server; [None] is NULL. *)
Definition max_user_id db (serverID : Z) : option Z :=
  map_fold (fun _ u m => if live_on serverID u then Some (match m with Some m => Z.max m (ru_UserID u) | None => ru_UserID u end) else m) None db.
Definition nextID (maxID : option Z) : Z :=
  match maxID with Some m => if 0 <=? m then i32 (m + 1) else 1 | None => 1 end.

Definition List (fails : bool) db (id : gostring) : Z * list Shown :=
  match server_number id with
  | None => (400, [])
  | Some serverID =>
      if fails then (500, []) else
      (200, map (fun iu => mkShown iu.1 (ru_UserID iu.2) (ru_Name iu.2) (ru_Email iu.2) (ru_LastChannelID iu.2))
              (filter (fun iu => live_on serverID iu.2 = true) (map_to_list db)))
  end.
(** [Create] in two parts: it reads the greatest number, hashes the password,
    which takes long, and then writes. An error of the first query is not looked
    at and leaves NULL. *)
Definition Create_begin (max_fails : bool) db (id : gostring) (body : option CreateBody) : result Z RegisteredUser :=
  match server_number id, body with
  | None, _ | _, None => Err 400
  | Some serverID, Some b =>
      if bool_decide (cb_Name b = []) then Err 400 else
      if bool_decide (cb_Password b = []) then Err 400 else
      let next := nextID (if max_fails then None else max_user_id db serverID) in
      match HashArgon2id (cb_Password b) with
      | None => Err 500
      | Some hash => Ok (mkUser serverID next (cb_Name b) [] hash (cb_Email b) 0 false)
      end
  end.
(** [key]: the key the table gives the row. *)
Definition Create_end (fails : bool) db (key : Z) (u : RegisteredUser) : Table * Z :=
  if fails || bool_decide (is_Some (db !! key)) then (db, 500) else (<[key := u]> db, 201).
Definition Create (max_fails fails : bool) db (key : Z) (id : gostring) (body : option CreateBody) : Table * Z :=
  match Create_begin max_fails db id body with Err status => (db, status) | Ok u => Create_end fails db key u end.

Definition first_with db (serverID userID : Z) : option (Z * RegisteredUser) :=
  list.head (filter (fun iu => live_on serverID iu.2 = true /\ ru_UserID iu.2 = userID) (map_to_list db)).
Definition patched (b : UpdateBody) (hash : option gostring) (u : RegisteredUser) : RegisteredUser :=
  u <| ru_Name := default (ru_Name u) (ub_Name b) |> <| ru_PasswordHash := default (ru_PasswordHash u) hash |> <| ru_Email := default (ru_Email u) (ub_Email b) |>.
Definition Update (first_fails fails : bool) db (id userId : gostring) (body : option UpdateBody) : Table * Z :=
  match server_number id, user_number userId, body with
  | None, _, _ | _, None, _ | _, _, None => (db, 400)
  | Some serverID, Some userID, Some b =>
      if first_fails then (db, 500) else
      match first_with db serverID userID with
      | None => (db, 404)
      | Some (key, u) =>
          let new_password := match ub_Password b with Some p => negb (bool_decide (p = [])) | None => false end in
          match (if new_password then Some <$> HashArgon2id (default [] (ub_Password b)) else Some None) with
          | None => (db, 500)
          | Some hash =>
              if bool_decide (ub_Name b = None) && bool_decide (hash = None) && bool_decide (ub_Email b = None) then (db, 204) else
              if fails then (db, 500) else (<[key := patched b hash u]> db, 204)
          end
      end
  end.
Definition Delete (fails : bool) db (id userId : gostring) : Table * Z :=
  match server_number id, user_number userId with
  | None, _ | _, None => (db, 400)
  | Some serverID, Some userID =>
      if fails then (db, 500) else
      ((fun u => if live_on serverID u && (ru_UserID u =? userID) then u <| ru_Deleted := true |> else u) <$> db, 204)
  end.

(** ** One request after the other *)

Inductive request :=
  | Creates (max_fails fails : bool) (key : Z) (id : gostring) (body : option CreateBody)
  | Updates (first_fails fails : bool) (id userId : gostring) (body : option UpdateBody)
  | Deletes (fails : bool) (id userId : gostring).
Definition serve db (rq : request) : Table * Z :=
  match rq with
  | Creates mf fl key id body => Create mf fl db key id body
  | Updates ff fl id uid body => Update ff fl db id uid body
  | Deletes fl id uid => Delete fl db id uid
  end.
(** The greatest number has not reached the end of int32. *)
Definition room db (rq : request) : Prop :=
  match rq with
  | Creates _ _ _ id _ => forall s m, server_number id = Some s -> max_user_id db s = Some m -> m < 2 ^ 31 - 1
  | _ => True
  end.
(** The query of the greatest number fails. *)
Definition max_failed (rq : request) : bool := match rq with Creates max_fails _ _ _ _ => max_fails | _ => false end.
(** The tables requests lead to; [failed]: for one of them the query failed. *)
Inductive served : bool -> Table -> Prop :=
  | served_none : served false ∅
  | served_one failed db rq : served failed db -> room db rq -> served (failed || max_failed rq) (serve db rq).1.

(** ** Numbers *)

Lemma max_user_id_spec db s : match max_user_id db s with
  | Some m => (exists k u, db !! k = Some u /\ live_on s u = true /\ ru_UserID u = m) /\ forall k u, db !! k = Some u -> live_on s u = true -> ru_UserID u <= m
  | None => forall k u, db !! k = Some u -> live_on s u = false
  end.
Proof.
  unfold max_user_id. apply (map_fold_weak_ind (fun r m => match r with
    | Some x => (exists k u, m !! k = Some u /\ live_on s u = true /\ ru_UserID u = x) /\ forall k u, m !! k = Some u -> live_on s u = true -> ru_UserID u <= x
    | None => forall k u, m !! k = Some u -> live_on s u = false end)).
  - intros k u. by rewrite lookup_empty.
  - intros i x m r Hi IH. destruct (live_on s x) eqn:El.
    + destruct r as [r|].
      * destruct IH as [(k & u & Hk & Hu & <-) Hmax]. split.
        -- destruct (Z.max_spec (ru_UserID u) (ru_UserID x)) as [[_ ->]|[_ ->]]; [exists i, x; by rewrite lookup_insert_eq|].
           exists k, u. rewrite lookup_insert_ne by (intros ->; congruence). done.
        -- intros j v [[<- <-]|[_ Hj]]%lookup_insert_Some Hv; [lia|]. specialize (Hmax j v Hj Hv). lia.
      * split; [exists i, x; by rewrite lookup_insert_eq|]. intros j v [[<- <-]|[_ Hj]]%lookup_insert_Some Hv; [lia|]. by rewrite (IH j v Hj) in Hv.
    + destruct r as [r|].
      * destruct IH as [(k & u & Hk & Hu & Hr) Hmax]. split.
        -- exists k, u. rewrite lookup_insert_ne by (intros ->; congruence). done.
        -- intros j v [[<- <-]|[_ Hj]]%lookup_insert_Some Hv; [congruence|]. by eapply Hmax.
      * intros j v [[<- <-]|[_ Hj]]%lookup_insert_Some; [done|by eapply IH].
Qed.

Record numbers_ok (failed : bool) db : Prop := {
  no_range : forall k u, db !! k = Some u -> ru_Deleted u = false -> 1 <= ru_UserID u < 2 ^ 31;
  no_distinct : failed = false -> forall k l u v, db !! k = Some u -> db !! l = Some v -> ru_Deleted u = false -> ru_Deleted v = false ->
    ru_ServerID u = ru_ServerID v -> ru_UserID u = ru_UserID v -> k = l }.
Lemma live_on_spec s u : live_on s u = true <-> ru_ServerID u = s /\ ru_Deleted u = false.
Proof. unfold live_on. rewrite andb_true_iff, Z.eqb_eq, negb_true_iff. done. Qed.
(** A change of rows that keeps who they are and revives none. *)
Lemma numbers_kept failed db db' : numbers_ok failed db ->
  (forall k u', db' !! k = Some u' -> ru_Deleted u' = false -> exists u, db !! k = Some u /\ ru_Deleted u = false /\ ru_ServerID u = ru_ServerID u' /\ ru_UserID u = ru_UserID u') ->
  numbers_ok failed db'.
Proof.
  intros [H1 H2] H. split.
  - intros k u' Hk Hd. destruct (H k u' Hk Hd) as (u & Hu & Hd' & _ & <-). by eapply H1.
  - intros Hf k l u' v' Hk Hl Hu Hv Hs Hi. destruct (H k u' Hk Hu) as (u & Hu1 & Hu2 & Hu3 & Hu4), (H l v' Hl Hv) as (v & Hv1 & Hv2 & Hv3 & Hv4).
    apply (H2 Hf k l u v); congruence.
Qed.
Lemma numbers_weaken failed b db : numbers_ok failed db -> numbers_ok (failed || b) db.
Proof. intros [H1 H2]. split; [done|]. intros [Hf _]%orb_false_iff. by apply H2. Qed.
Lemma Create_numbers failed mf fails db key id body : numbers_ok failed db -> room db (Creates mf fails key id body) -> numbers_ok (failed || mf) (Create mf fails db key id body).1.
Proof.
  intros H Hm. pose proof (numbers_weaken failed mf db H) as Hw. unfold Create, Create_begin. destruct (server_number id) as [s|] eqn:Es; [|done]. destruct body as [b|]; [|done].
  destruct (bool_decide _); [done|]. destruct (bool_decide _); [done|]. destruct (HashArgon2id _) as [hash|]; [|done].
  unfold Create_end. destruct (fails || _) eqn:E; [done|]. apply orb_false_iff in E as [_ E%bool_decide_eq_false]. apply eq_None_not_Some in E.
  cbn [fst]. cbn [room] in Hm. specialize (Hm s). pose proof (max_user_id_spec db s) as Hmax. set (n := nextID _).
  assert (1 <= n < 2 ^ 31 /\ (mf = false -> forall k u, db !! k = Some u -> ru_ServerID u = s -> ru_Deleted u = false -> ru_UserID u < n)) as [Hn Hlt].
  { unfold n, nextID. destruct mf; [split; [lia|done]|]. destruct (max_user_id db s) as [m|].
    - specialize (Hm m Es eq_refl). destruct Hmax as [(k & u & Hk & [Hu1 Hu2]%live_on_spec & Hu3) Hmax]. pose proof (no_range _ _ H k u Hk Hu2) as Hr.
      destruct (Z.leb_spec 0 m); [|lia]. assert (i32 (m + 1) = m + 1) as -> by (apply i32_id; unfold is_i32; lia). split; [lia|].
      intros _ j v Hj Hs Hd. specialize (Hmax j v Hj). rewrite live_on_spec in Hmax. specialize (Hmax (conj Hs Hd)). lia.
    - split; [lia|]. intros _ k u Hk Hs Hd. specialize (Hmax k u Hk). assert (live_on s u = true) as Ht by (by apply live_on_spec). congruence. }
  split.
  - intros k u [[_ <-]|[_ Hk]]%lookup_insert_Some Hd; [exact Hn|by eapply no_range].
  - intros [Hf Hmf]%orb_false_iff k l u v [[<- <-]|[Hk1 Hk]]%lookup_insert_Some [[<- <-]|[Hl1 Hl]]%lookup_insert_Some Hu Hv Hs Hi; [done|..].
    + cbn in Hs, Hi. specialize (Hlt Hmf l v Hl (eq_sym Hs) Hv). lia.
    + cbn in Hs, Hi. specialize (Hlt Hmf k u Hk Hs Hu). lia.
    + by eapply (no_distinct _ _ H).
Qed.
Lemma Update_numbers failed ff fails db id uid body : numbers_ok failed db -> numbers_ok failed (Update ff fails db id uid body).1.
Proof.
  intros H. unfold Update. destruct (server_number id) as [s|], (user_number uid) as [n|], body as [b|]; try done. destruct ff; [done|].
  destruct (first_with db s n) as [[key u]|] eqn:E; [|done]. cbv zeta.
  match goal with |- context [match (if ?b then ?x else ?y) with _ => _ end] => destruct (if b then x else y) as [hash|]; [|done] end.
  destruct (_ && _); [done|]. destruct fails; [done|]. cbn [fst]. apply (numbers_kept failed db); [done|]. intros k u' [[<- <-]|[_ Hk]]%lookup_insert_Some Hd; [|by exists u'].
  exists u. unfold first_with in E. apply head_Some_elem_of, list_elem_of_filter in E as [[[_ Hl]%live_on_spec _] E%elem_of_map_to_list]. done.
Qed.
Lemma Delete_numbers failed fails db id uid : numbers_ok failed db -> numbers_ok failed (Delete fails db id uid).1.
Proof.
  intros H. unfold Delete. destruct (server_number id) as [s|], (user_number uid) as [n|]; try done. destruct fails; [done|].
  apply (numbers_kept failed db); [done|]. cbn. intros k u'. rewrite lookup_fmap. destruct (db !! k) as [u|] eqn:E; [|done]. cbn. intros [= <-].
  destruct (_ && _); [done|]. intros Hd. by exists u.
Qed.

(** C10: while requests do not overlap and int32 has room, the registered users of
    a virtual server have numbers from 1 up to the limit, whatever queries fail:
    0 and the negative numbers, which mean something else in the rules of
    channels, are never given out. Two of them have different numbers, unless
    the query for the greatest number failed for one who was created: its error
    is not looked at, and 1 is given out again. *)
Theorem registered_numbers_distinct failed db : served failed db ->
  (forall k u, db !! k = Some u -> ru_Deleted u = false -> 1 <= ru_UserID u < 2 ^ 31) /\
  (failed = false -> forall k l u v, db !! k = Some u -> db !! l = Some v -> ru_Deleted u = false -> ru_Deleted v = false ->
    ru_ServerID u = ru_ServerID v -> ru_UserID u = ru_UserID v -> k = l).
Proof.
  intros S. assert (numbers_ok failed db) as [H1 H2]; [|by split]. induction S as [|failed db rq S IH Hn]; [split; [|intros _]; intros *; by rewrite lookup_empty|].
  destruct rq as [mf fl key id body|ff fl id uid body|fl id uid]; cbn [serve max_failed]; rewrite ?orb_false_r.
  - by apply Create_numbers.
  - by apply Update_numbers.
  - by apply Delete_numbers.
Qed.
End Users.

(** ** Numbers that come back *)

Definition plain (p : gostring) : option gostring := Some p.
Definition person (name : string) : option CreateBody := Some (mkCreate (str name) (str "secret") []).
Definition requests : list request :=
  [Creates false false 1 (str "1") (person "ann"); Creates false false 2 (str "1") (person "bob"); Creates false false 3 (str "2") (person "eve")].
Definition three : Table := fold_left (fun db rq => (serve plain db rq).1) requests ∅.
Definition numbers (db : Table) : list (Z * Z) := map (fun iu => (iu.1, ru_UserID iu.2)) (filter (fun iu => ru_Deleted iu.2 = false) (map_to_list db)).
Lemma served_run rqs db : served plain false db -> Forall (fun rq => max_failed rq = false) rqs ->
  (forall n rq, rqs !! n = Some rq -> room (fold_left (fun db rq => (serve plain db rq).1) (take n rqs) db) rq) ->
  served plain false (fold_left (fun db rq => (serve plain db rq).1) rqs db).
Proof.
  revert db. induction rqs as [|rq rqs IH]; intros db Hd Hf Hr; [done|]. apply Forall_cons_iff in Hf as [Hm Hf]. cbn [fold_left].
  apply IH; [|done|intros n rq' Hn; exact (Hr (S n) rq' Hn)].
  pose proof (served_one plain false db rq Hd (Hr 0%nat rq eq_refl)) as S. by rewrite Hm in S.
Qed.
Lemma registered_numbers_distinct_witness : exists u v, three !! 1 = Some u /\ three !! 2 = Some v /\ ru_UserID u <> ru_UserID v.
Proof.
  assert (served plain false three) as S.
  { unfold three, requests.
    apply served_run; [apply served_none|repeat constructor|]. intros n rq Hn.
    repeat (destruct n as [|n]; [injection Hn as <-; intros s m Hs Hm; vm_compute in Hs; injection Hs as <-; vm_compute in Hm;
      first [discriminate Hm|injection Hm as <-; reflexivity]|]). discriminate Hn. }
  destruct (registered_numbers_distinct plain false three S) as [_ H]. specialize (H eq_refl).
  destruct (three !! 1) as [u|] eqn:E1; [|exfalso; vm_compute in E1; discriminate E1]. destruct (three !! 2) as [v|] eqn:E2; [|exfalso; vm_compute in E2; discriminate E2].
  exists u, v. split; [reflexivity|]. split; [reflexivity|]. intros E. specialize (H 1 2 u v E1 E2).
  assert (1 = 2) as HF; [|discriminate HF]. vm_compute in E1, E2. injection E1 as <-. injection E2 as <-. apply H; [reflexivity..|exact E].
Defined.
(** The number of somebody who was deleted goes to the next who registers, and
    with it the rules that name the number. *)
Example number_of_the_deleted :
  let db := (Delete false three (str "1") (str "2")).1 in
  ru_UserID <$> (three !! 2) = Some 2 /\ ru_UserID <$> ((Create plain false false db 4 (str "1") (person "mal")).1 !! 4) = Some 2.
Proof. vm_compute. done. Qed.
(** Two requests that overlap give two people one number; a name can be taken
    twice; and after the last number the count goes negative and stays there. *)
Example overlapping : match Create_begin plain false three (str "1") (person "cid"), Create_begin plain false three (str "1") (person "ann") with
  | Ok u, Ok v => map_size (Create_end false (Create_end false three 4 u).1 5 v).1 = 5%nat /\ ru_UserID u = 3 /\ ru_UserID v = 3 /\ ru_Name v = str "ann"
  | _, _ => False
  end.
Proof. vm_compute. done. Qed.
(** A query that fails gives two people the number 1. *)
Example number_one_again :
  ru_UserID <$> (three !! 1) = Some 1 /\ ru_UserID <$> ((Create plain true false three 4 (str "1") (person "mal")).1 !! 4) = Some 1.
Proof. vm_compute. done. Qed.
Example after_the_last : nextID (Some (2 ^ 31 - 1)) = - 2 ^ 31.
Proof. vm_compute. done. Qed.
End RegisteredUsers.
