(* ===== verification/ChannelView.v ===== *)
(** * The tree of channels in the management interface

    [GetChannels] of [internal/handler/server.go] shows the rows of the channels
    of a virtual server as a tree: [buildChannelTree] calls itself for every
    child, over the whole table each time. The rows are those of
    [ChannelManager], in the order of the query. *)

From Stdlib Require Import ZArith Lia String.
From stdpp Require Import base numbers list gmap option.
From S2P Require Import Prelude Fields ChannelManager.
From stdpp Require Import list.

Local Open Scope Z_scope.

Module ChannelView.
Import Channels.

(** [ChannelNode]; what it takes from the row of a channel is kept as the row. *)
Inductive ChannelNode := mkNode (c : Row) (serverID : Z) (cryptoMode : gostring) (children : list ChannelNode).
Definition nd_Row (n : ChannelNode) : Row := let 'mkNode c _ _ _ := n in c.
Definition nd_ServerID (n : ChannelNode) : Z := let 'mkNode _ s _ _ := n in s.
Definition nd_CryptoMode (n : ChannelNode) : gostring := let 'mkNode _ _ m _ := n in m.
Definition nd_Children (n : ChannelNode) : list ChannelNode := let 'mkNode _ _ _ l := n in l.

Section View.
Context (serverID : Z) (cryptoModes : gmap Z gostring).
Implicit Types (channels : list Row).

Definition is_child (parentID : option Z) (c : Row) : bool :=
  match parentID, row_ParentID c with
  | None, None => true
  | Some p, Some q => q =? p
  | _, _ => false
  end.
(** [None]: the fuel is spent. *)
Fixpoint buildChannelTree (fuel : nat) channels (parentID : option Z) : option (list ChannelNode) :=
  match fuel with
  | O => None
  | S fuel =>
      mapM (fun c => children ← buildChannelTree fuel channels (Some (row_ID c));
                     Some (mkNode c serverID (default [] (cryptoModes !! u32 (row_ID c))) children))
           (filter (fun c => is_child parentID c = true) channels)
  end.
Definition GetChannels channels : option (list ChannelNode) := buildChannelTree (S (length channels)) channels None.

(** The rows of a tree, each before those below it. *)
Fixpoint rows_of (n : ChannelNode) : list Row :=
  let fix rows_list (l : list ChannelNode) : list Row := match l with [] => [] | n :: l => rows_of n ++ rows_list l end in
  match n with mkNode c _ _ l => c :: rows_list l end.
Fixpoint rows_all (l : list ChannelNode) : list Row := match l with [] => [] | n :: l => rows_of n ++ rows_all l end.
Lemma rows_of_node c s m l : rows_of (mkNode c s m l) = c :: rows_all l.
Proof. reflexivity. Qed.

(** ** Chains of parents *)

Context (channels : list Row).
Hypothesis Hids : NoDup (map row_ID channels).

(** [chain path c]: [path] is [c] and its parents, up to a channel without. *)
Inductive chain : list Row -> Row -> Prop :=
  | chain_root c : c ∈ channels -> row_ParentID c = None -> chain [c] c
  | chain_child path p c : chain path p -> c ∈ channels -> row_ParentID c = Some (row_ID p) -> chain (c :: path) c.
Definition grounded (c : Row) : Prop := exists path, chain path c.

Lemma same_id c d : c ∈ channels -> d ∈ channels -> row_ID c = row_ID d -> c = d.
Proof.
  clear -Hids. induction channels as [|x l IH]; [by intros ?%elem_of_nil|]. cbn in Hids. apply NoDup_cons in Hids as [Hx Hl].
  assert (forall y, y ∈ l -> row_ID y <> row_ID x) as Hne by (intros y Hy E; apply Hx; rewrite <- E; by apply list_elem_of_fmap_2).
  intros [->|Hc]%elem_of_cons [->|Hd]%elem_of_cons E; [done|by destruct (Hne d Hd)|by destruct (Hne c Hc)|by apply IH].
Qed.
Lemma chain_in path c : chain path c -> Forall (fun d => d ∈ channels) path.
Proof. induction 1; by repeat constructor. Qed.
Lemma chain_unique path c : chain path c -> forall path', chain path' c -> path = path'.
Proof.
  induction 1 as [c Hc Hp|path p c H IH Hc Hp]; intros path' H'; inversion H'; subst; try congruence.
  match goal with H2 : chain ?q ?p', H3 : row_ParentID c = Some (row_ID ?p') |- _ => rename H2 into Hq; rename H3 into Hp' end.
  f_equal. apply IH. rewrite Hp in Hp'. injection Hp' as Hp'.
  assert (p = p0) as ->; [|exact Hq]. pose proof (chain_in _ _ H) as F1. pose proof (chain_in _ _ Hq) as F2.
  apply same_id; [|..|done]; [by inversion H; subst; inversion F1|by inversion Hq; subst; inversion F2].
Qed.
(** A suffix of a chain is the chain of its first element. *)
Lemma chain_suffix path c : chain path c -> forall pre d suf, path = pre ++ d :: suf -> chain (d :: suf) d.
Proof.
  induction 1 as [c Hc Hp|path p c H IH Hc Hp]; intros pre d suf E.
  - destruct pre as [|x [|y pre]]; [|done..]. injection E as -> <-. by constructor.
  - destruct pre as [|x pre]; [injection E as -> <-; by econstructor|]. injection E as -> E. by eapply IH.
Qed.
Lemma chain_nodup path c : chain path c -> NoDup path.
Proof.
  induction 1 as [c Hc Hp|path p c H IH Hc Hp]; [apply NoDup_singleton|]. apply NoDup_cons. split; [|done]. intros Hin.
  apply list_elem_of_split in Hin as (l1 & l2 & E). pose proof (chain_suffix _ _ H _ _ _ E) as Hs.
  assert (chain (c :: path) c) as Hc2 by (by econstructor). pose proof (chain_unique _ _ Hs _ Hc2) as Eq. injection Eq as Eq.
  rewrite E in Eq. apply (f_equal length) in Eq. rewrite length_app in Eq. cbn in Eq. lia.
Qed.
Lemma chain_length path c : chain path c -> (length path <= length channels)%nat.
Proof. intros H. apply submseteq_length, NoDup_submseteq; [by eapply chain_nodup|]. intros d Hd. by eapply Forall_forall in Hd; [|exact (chain_in _ _ H)]. Qed.

(** ** The tree *)

(** The children of [p], or the roots. *)
Definition below (path : list Row) : option Z := row_ID <$> head path.
Definition at_top (path : list Row) : Prop := path = [] \/ exists p, chain path p.
Lemma chain_head path c : chain path c -> exists l, path = c :: l.
Proof. destruct 1; by eexists. Qed.
Lemma child_chain path c : at_top path -> c ∈ channels -> is_child (below path) c = true <-> chain (c :: path) c.
Proof.
  intros [->|[p Hp]] Hc.
  - cbn. unfold is_child. split.
    + destruct (row_ParentID c) eqn:E; [done|]. intros _. by constructor.
    + inversion 1; subst; [by destruct (row_ParentID c)|]. match goal with H : chain [] _ |- _ => inversion H end.
  - destruct (chain_head _ _ Hp) as [l ->]. cbn. unfold is_child. split.
    + destruct (row_ParentID c) as [q|] eqn:E; [|done]. intros ->%Z.eqb_eq. by econstructor.
    + inversion 1; subst. match goal with H1 : chain (p :: l) ?x, H2 : row_ParentID c = Some (row_ID ?x) |- _ => destruct (chain_head _ _ H1) as [? E]; injection E as <- _; rewrite H2 end. apply Z.eqb_refl.
Qed.

(** Every level holds the rows with its parent, in the order of the table. *)
Inductive tree_of : option Z -> list ChannelNode -> Prop :=
  | tree_rows p l : map nd_Row l = filter (fun c => is_child p c = true) channels ->
      (forall n, n ∈ l -> nd_ServerID n = serverID /\ nd_CryptoMode n = default [] (cryptoModes !! u32 (row_ID (nd_Row n)))) ->
      (forall n, n ∈ l -> tree_of (Some (row_ID (nd_Row n))) (nd_Children n)) -> tree_of p l.

(** What is shown below a chain: the rows whose own chain goes through it. *)
Definition shows (path : list Row) (l : list ChannelNode) : Prop :=
  NoDup (rows_all l) /\ forall d, d ∈ rows_all l <-> exists q, q <> [] /\ chain (q ++ path) d.
Lemma rows_all_app l1 l2 : rows_all (l1 ++ l2) = rows_all l1 ++ rows_all l2.
Proof. induction l1 as [|n l1 IH]; [done|]. cbn [app rows_all]. by rewrite IH, app_assoc. Qed.
Lemma siblings path cs ns : NoDup cs -> Forall (fun c => chain (c :: path) c) cs ->
  Forall2 (fun c n => exists sid m l, n = mkNode c sid m l /\ shows (c :: path) l) cs ns ->
  NoDup (rows_all ns) /\ forall d, d ∈ rows_all ns <-> exists c q, c ∈ cs /\ chain (q ++ c :: path) d.
Proof.
  intros Hnd Hch H. induction H as [|c n cs ns (sid & m & l & -> & Hl1 & Hl2) H IH].
  - split; [constructor|]. intros d. split; [by intros ?%elem_of_nil|by intros (c & q & ?%elem_of_nil & _)].
  - apply NoDup_cons in Hnd as [Hc Hnd]. apply Forall_cons_iff in Hch as [Hcc Hch]. destruct (IH Hnd Hch) as [IH1 IH2]. clear IH.
    assert (forall d, d ∈ c :: rows_all l <-> exists q, chain (q ++ c :: path) d) as Hn.
    { intros d. rewrite elem_of_cons, Hl2. split.
      - intros [->|(q & _ & Hq)]; [by exists []|by exists q].
      - intros [[|x q] Hq]; [left; destruct (chain_head _ _ Hq) as [? E]; by injection E|right; by exists (x :: q)]. }
    cbn [rows_all]. rewrite rows_of_node. split.
    + apply NoDup_app. split; [|split; [|done]].
      * apply NoDup_cons. split; [|done]. rewrite Hl2. intros (q & Hq & Hx). pose proof (chain_unique _ _ Hx _ Hcc) as E. apply (f_equal length) in E.
        rewrite length_app in E. destruct q; [done|cbn in E; lia].
      * intros d Hd1 Hd2. apply Hn in Hd1 as [q1 H1]. apply IH2 in Hd2 as (c2 & q2 & Hc2 & H2). pose proof (chain_unique _ _ H1 _ H2) as E.
        rewrite (cons_middle c q1 path), (cons_middle c2 q2 path), !app_assoc in E. apply app_inv_tail in E. apply app_inj_tail in E as [_ ->]. done.
    + intros d. rewrite elem_of_app, Hn, IH2. split.
      * intros [[q Hq]|(c2 & q & Hc2 & Hq)]; [exists c, q|exists c2, q]; (split; [|done]); rewrite elem_of_cons; auto.
      * intros (c2 & q & [->|Hc2]%elem_of_cons & Hq); [left; by exists q|right; by exists c2, q].
Qed.
Lemma Forall2_elem_r {A B} (R : A -> B -> Prop) l k y : Forall2 R l k -> y ∈ k -> exists x, x ∈ l /\ R x y.
Proof. induction 1 as [|x z l k Hx _ IH]; [by intros ?%elem_of_nil|]. intros [->|Hy]%elem_of_cons; [exists x; split; [left|done]|]. destruct (IH Hy) as (w & Hw & HR). exists w. split; [by right|done]. Qed.
Lemma tree_built : forall fuel path, at_top path -> (length channels < fuel + length path)%nat ->
  exists l, buildChannelTree fuel channels (below path) = Some l /\ tree_of (below path) l /\ shows path l.
Proof.
  induction fuel as [|fuel IH]; intros path Ht Hf.
  - destruct Ht as [->|[p Hp]]; [cbn in Hf; lia|]. apply chain_length in Hp. lia.
  - cbn [buildChannelTree]. set (cs := filter _ channels).
    assert (forall c, c ∈ cs <-> chain (c :: path) c) as Hcs.
    { intros c. unfold cs. rewrite list_elem_of_filter. split; [intros [H1 H2]; by apply child_chain|].
      intros H. assert (c ∈ channels) as Hc by (apply chain_in in H; by inversion H). split; [by apply child_chain|done]. }
    set (f := fun c => children ← buildChannelTree fuel channels (Some (row_ID c)); _).
    assert (Forall (fun c => exists n, f c = Some n /\ exists l, n = mkNode c serverID (default [] (cryptoModes !! u32 (row_ID c))) l /\ tree_of (Some (row_ID c)) l /\ shows (c :: path) l) cs) as Hall.
    { apply Forall_forall. intros c Hc%Hcs. destruct (IH (c :: path)) as (l & E & Hl); [right; by exists c|cbn [length]; lia|].
      unfold f. cbn in E. rewrite E. eexists. split; [done|]. by exists l. }
    assert (exists ns, Forall2 (fun c n => f c = Some n /\ exists l, n = mkNode c serverID (default [] (cryptoModes !! u32 (row_ID c))) l /\ tree_of (Some (row_ID c)) l /\ shows (c :: path) l) cs ns) as [ns Hns].
    { clear -Hall. induction Hall as [|c cs (n & H) _ [ns IH]]; [by exists []|]. exists (n :: ns). by constructor. }
    exists ns. split; [apply mapM_Some; eapply Forall2_impl; [exact Hns|by intros c n [? _]]|]. split.
    + constructor.
      * clear -Hns. change (map nd_Row ns = cs). induction Hns as [|c n cs ns (_ & l & -> & _) _ IH]; [done|]. cbn. by rewrite IH.
      * intros n Hn. destruct (Forall2_elem_r _ _ _ _ Hns Hn) as (c & _ & _ & l & -> & _). done.
      * intros n Hn. destruct (Forall2_elem_r _ _ _ _ Hns Hn) as (c & _ & _ & l & -> & Hl & _). done.
    + destruct (siblings path cs ns) as [H1 H2].
      * apply NoDup_filter. by eapply NoDup_fmap_1.
      * apply Forall_forall. by intros c Hc%Hcs.
      * eapply Forall2_impl; [exact Hns|]. intros c n (_ & l & -> & _ & Hl). by eexists _, _, l.
      * split; [done|]. intros d. rewrite H2. split.
        -- intros (c & q & _ & Hq). exists (q ++ [c]). split; [by destruct q|]. by rewrite <- app_assoc.
        -- intros (q & Hq & Hd). destruct q as [|c q' _] using rev_ind; [done|]. rewrite <- app_assoc in Hd. cbn in Hd. exists c, q'. split; [|done].
           apply Hcs. by eapply chain_suffix.
Qed.

(** C11: the tree of channels is built within a depth of one call more than there
    are channels, so the recursion ends whatever the parents in the table say,
    and it shows every channel whose chain of parents ends at one without a
    parent exactly once, below its parent, and no other. *)
Theorem channel_view_exact : exists l, GetChannels channels = Some l /\ tree_of None l /\
  NoDup (rows_all l) /\ forall c, c ∈ rows_all l <-> grounded c.
Proof.
  destruct (tree_built (S (length channels)) []) as (l & E & Ht & Hn & Hs); [by left|cbn; lia|]. exists l. split; [exact E|]. split; [exact Ht|]. split; [done|].
  intros c. rewrite Hs. split; [intros (q & _ & Hq); rewrite app_nil_r in Hq; by exists q|].
  intros [q Hq]. exists q. rewrite app_nil_r. split; [|done]. destruct (chain_head _ _ Hq) as [? ->]. done.
Qed.
End View.

(** Channel 2 below 1, and two channels that are each other's parent. *)
Definition row (id : Z) (parent : option Z) : Row := mkRow id parent [] [] 0 0 false true [].
Definition knot : list Row := [row 1 None; row 2 (Some 1); row 3 (Some 4); row 4 (Some 3); row 5 (Some 1)].
Example knot_shown : GetChannels 1 ∅ knot =
  Some [mkNode (row 1 None) 1 [] [mkNode (row 2 (Some 1)) 1 [] []; mkNode (row 5 (Some 1)) 1 [] []]].
Proof. vm_compute. done. Qed.
Lemma channel_view_exact_witness : exists l, GetChannels 1 ∅ knot = Some l /\ NoDup (rows_all l) /\ row 5 (Some 1) ∈ rows_all l.
Proof.
  assert (NoDup (map row_ID knot)) as Hn by (apply (bool_decide_eq_true_1 (NoDup (map row_ID knot))); vm_compute; reflexivity).
  destruct (channel_view_exact 1 ∅ knot Hn) as (l & E & _ & Hl & Hg). exists l. split; [exact E|]. split; [exact Hl|].
  apply Hg. exists [row 5 (Some 1); row 1 None]. apply (chain_child knot [row 1 None] (row 1 None) (row 5 (Some 1))); [apply chain_root; [unfold knot; set_solver|reflexivity]|unfold knot; set_solver|reflexivity].
Defined.
End ChannelView.
