(* ===== verification/Argon2.v ===== *)
(** * Hashed passwords of registered users

    [internal/auth/argon2id.go]: the string a password is stored as, and the
    comparison with it. The key derivation of the library and the random salt
    are parameters; splitting, printing and scanning of numbers and base64 are
    those of the Go library, as far as the code uses them. *)

From Stdlib Require Import ZArith Lia String.
From stdpp Require Import base numbers list option.
From S2P Require Import Prelude Wire Fields Acl Identity.

Module Argon2.

(** ** Strings *)

(** [strings.Split] at one character. *)
Fixpoint Split (sep : Z) (s : gostring) : list gostring :=
  match s with
  | [] => [[]]
  | c :: s => if c =? sep then [] :: Split sep s else
      match Split sep s with x :: l => (c :: x) :: l | [] => [[c]] end
  end.
(** [strings.HasPrefix], and a stretch of literal text in the format of
    [fmt.Sscanf]: what follows it. *)
Fixpoint strip (p s : gostring) : option gostring :=
  match p, s with
  | [], _ => Some s
  | a :: p, b :: s => if a =? b then strip p s else None
  | _ :: _, [] => None
  end.
(** [%d] of [fmt.Sscanf] for an unsigned number below [2 ^ bits]: white space is
    skipped (here: that of ASCII within a line), and what follows the digits is
    left. *)
Definition is_blank (c : Z) : bool := (c =? 32) || (c =? 9) || (c =? 11) || (c =? 12) || (c =? 13).
Definition is_digit (c : Z) : bool := (48 <=? c) && (c <=? 57).
Fixpoint skip_blank (s : gostring) : gostring := match s with c :: s' => if is_blank c then skip_blank s' else s | [] => [] end.
Fixpoint digits (acc : Z) (s : gostring) : Z * gostring :=
  match s with
  | c :: s' => if is_digit c then digits (10 * acc + (c - 48)) s' else (acc, s)
  | [] => (acc, [])
  end.
Definition scan_unsigned (bound : Z) (s : gostring) : option (Z * gostring) :=
  match skip_blank s with
  | c :: s' => if is_digit c then let '(n, rest) := digits 0 (c :: s') in if n <? bound then Some (n, rest) else None else None
  | [] => None
  end.
(** The same for an [int], with a sign. *)
Definition scan_int (s : gostring) : option (Z * gostring) :=
  match skip_blank s with
  | 45 :: (d :: _) as s' => if is_digit d then '(n, rest) ← scan_unsigned (2 ^ 63 + 1) (tail s'); Some (- n, rest) else None
  | 43 :: (d :: _) as s' => if is_digit d then scan_unsigned (2 ^ 63) (tail s') else None
  | s' => scan_unsigned (2 ^ 63) s'
  end.

(** [%d] of [fmt.Sprintf], for a number of at most 64 bits: 20 digits. *)
Fixpoint decimal_loop (fuel : nat) (n : Z) (acc : gostring) : gostring :=
  match fuel with
  | O => acc
  | S fuel => let acc := 48 + n mod 10 :: acc in if n <? 10 then acc else decimal_loop fuel (n / 10) acc
  end.
Definition decimal (n : Z) : gostring := decimal_loop 20 n [].

(** ** Base64 without padding *)

Definition b64_alphabet : gostring := str "ABCDEFGHIJKLMNOPQRSTUVWXYZabcdefghijklmnopqrstuvwxyz0123456789+/".
Definition b64_char (v : Z) : Z := nth (Z.to_nat v) b64_alphabet 0.
Definition b64_val (c : Z) : option Z :=
  if (65 <=? c) && (c <=? 90) then Some (c - 65) else if (97 <=? c) && (c <=? 122) then Some (c - 71) else
  if (48 <=? c) && (c <=? 57) then Some (c + 4) else if c =? 43 then Some 62 else if c =? 47 then Some 63 else None.
Fixpoint sextets (l : bytes) : list Z :=
  match l with
  | a :: b :: c :: l => a / 4 :: (a mod 4) * 16 + b / 16 :: (b mod 16) * 4 + c / 64 :: c mod 64 :: sextets l
  | [a; b] => [a / 4; (a mod 4) * 16 + b / 16; (b mod 16) * 4]
  | [a] => [a / 4; (a mod 4) * 16]
  | [] => []
  end.
Definition EncodeToString (l : bytes) : gostring := map b64_char (sextets l).
(** [Strict]: the bits that are left over have to be zero. *)
Fixpoint octets (l : list Z) : option bytes :=
  match l with
  | q :: r :: s :: t :: l => k ← octets l; Some (q * 4 + r / 16 :: (r mod 16) * 16 + s / 4 :: (s mod 4) * 64 + t :: k)
  | [q; r; s] => if s mod 4 =? 0 then Some [q * 4 + r / 16; (r mod 16) * 16 + s / 4] else None
  | [q; r] => if r mod 16 =? 0 then Some [q * 4 + r / 16] else None
  | [_] => None
  | [] => Some []
  end.
(** Line breaks are passed over. *)
Definition DecodeString (s : gostring) : option bytes :=
  l ← mapM b64_val (filter (fun c => c <> 10 /\ c <> 13) s); octets l.

(** ** The code *)

Definition argon2_Version : Z := 19.
Definition argon2idMemory : Z := 64 * 1024.
Definition argon2idIterations : Z := 3.
Definition argon2idParallelism : Z := 4.
Definition argon2idSaltLen : Z := 16.
Definition argon2idKeyLen : Z := 32.

Record argon2Params := mkParams { memory : Z; iterations : Z; parallelism : Z }.
Inductive hash_error := ErrInvalidArgon2Hash | ErrIncompatibleArgon2Version | ErrScan | ErrBase64.

Definition decodeArgon2Hash (encodedHash : gostring) : result hash_error (argon2Params * bytes * bytes) :=
  match strip (str "$argon2id$") encodedHash with
  | None => Err ErrInvalidArgon2Hash
  | Some _ =>
      match Split 36 encodedHash with
      | [_; _; v; m; s; h] =>
          match (r ← strip (str "v=") v; scan_int r) with
          | None => Err ErrScan
          | Some (version, _) =>
              if negb (version =? argon2_Version) then Err ErrIncompatibleArgon2Version else
              match (r ← strip (str "m=") m; '(memory, r) ← scan_unsigned (2 ^ 32) r;
                     r ← strip (str ",t=") r; '(iterations, r) ← scan_unsigned (2 ^ 32) r;
                     r ← strip (str ",p=") r; '(parallelism, _) ← scan_unsigned (2 ^ 8) r; Some (mkParams memory iterations parallelism)) with
              | None => Err ErrScan
              | Some p =>
                  match DecodeString s with
                  | None => Err ErrBase64
                  | Some salt => match DecodeString h with None => Err ErrBase64 | Some hash => Ok (p, salt, hash) end
                  end
              end
          end
      | _ => Err ErrInvalidArgon2Hash
      end
  end.

(** The library: a key of the length asked for. (It panics when asked for no
    iterations, no threads or an empty key, which no string asks for that
    [HashArgon2id] made.) *)
Class KDF := { IDKey : bytes -> bytes -> Z -> Z -> Z -> Z -> bytes }.
Class KDFLaws `{KDF} : Prop := {
  IDKey_length : forall p s t m par n, 0 <= n -> zlen (IDKey p s t m par n) = n;
  IDKey_bytes : forall p s t m par n, Forall (fun b => 0 <= b < 256) (IDKey p s t m par n) }.

Section Hash.
Context `{K : KDF}.

(** The string before the salt. *)
Definition stored_format : gostring :=
  str "$argon2id$v=" ++ decimal argon2_Version ++ str "$m=" ++ decimal argon2idMemory ++ str ",t=" ++ decimal argon2idIterations ++
  str ",p=" ++ decimal argon2idParallelism ++ str "$".
(** [salt]: [argon2idSaltLen] random bytes, if there are any. *)
Definition HashArgon2id (salt : option bytes) (password : bytes) : option gostring :=
  salt ← salt;
  let hash := IDKey password salt argon2idIterations argon2idMemory argon2idParallelism argon2idKeyLen in
  Some (stored_format ++ EncodeToString salt ++ [36] ++ EncodeToString hash).
Definition compareArgon2idHash (password : bytes) (encodedHash : gostring) : result hash_error bool :=
  match decodeArgon2Hash encodedHash with
  | Err e => Err e
  | Ok (p, salt, hash) => Ok (bool_decide (hash = IDKey password salt (iterations p) (memory p) (parallelism p) (zlen hash)))
  end.
Definition CompareArgon2id (hash : gostring) (password : bytes) : bool :=
  match compareArgon2idHash password hash with Ok b => b | Err _ => false end.

(** ** Lemmas *)

Lemma Split_app sep x y : sep ∉ x -> Split sep (x ++ sep :: y) = x :: Split sep y.
Proof.
  induction x as [|c x IH]; intros Hx; cbn [app Split]; [by rewrite Z.eqb_refl|].
  rewrite elem_of_cons in Hx. destruct (Z.eqb_spec c sep) as [->|]; [destruct Hx; by left|]. rewrite IH; [done|]. intros H. apply Hx. by right.
Qed.
Lemma Split_last sep x : sep ∉ x -> Split sep x = [x].
Proof.
  induction x as [|c x IH]; intros Hx; cbn [Split]; [done|]. rewrite elem_of_cons in Hx.
  destruct (Z.eqb_spec c sep) as [->|]; [destruct Hx; by left|]. rewrite IH; [done|]. intros H. apply Hx. by right.
Qed.
(** The 64 characters: each stands for its number, and none is a line break or a
    dollar sign. *)
Lemma b64_chars v : 0 <= v < 64 -> b64_val (b64_char v) = Some v /\ b64_char v <> 10 /\ b64_char v <> 13 /\ b64_char v <> 36.
Proof.
  intros H. assert (forallb (fun n => let v := Z.of_nat n in bool_decide (b64_val (b64_char v) = Some v /\ b64_char v <> 10 /\ b64_char v <> 13 /\ b64_char v <> 36)) (seq 0 64) = true) as Hall by (vm_compute; reflexivity).
  rewrite forallb_forall in Hall. specialize (Hall (Z.to_nat v)). rewrite in_seq in Hall. specialize (Hall ltac:(lia)). cbv zeta in Hall. rewrite Z2Nat.id in Hall by lia.
  by apply bool_decide_eq_true in Hall.
Qed.
Definition is_bytes (l : bytes) : Prop := Forall (fun b => 0 <= b < 256) l.
Lemma sextets_spec : forall n l, (length l <= n)%nat -> is_bytes l -> Forall (fun v => 0 <= v < 64) (sextets l) /\ octets (sextets l) = Some l.
Proof.
  unfold is_bytes. induction n as [|n IH]; intros l Hn Hl; [destruct l; [by split|cbn in Hn; lia]|].
  destruct l as [|a [|b [|c l]]]; [by split|..]; repeat (apply Forall_cons_iff in Hl as [? Hl]); cbn [sextets octets].
  - split; [repeat constructor; Z.div_mod_to_equations; lia|].
    assert ((a mod 4 * 16) mod 16 = 0) as -> by (Z.div_mod_to_equations; lia). cbn [Z.eqb]. repeat f_equal. Z.div_mod_to_equations; lia.
  - split; [repeat constructor; Z.div_mod_to_equations; lia|].
    assert ((b mod 16 * 4) mod 4 = 0) as -> by (Z.div_mod_to_equations; lia). cbn [Z.eqb]. repeat f_equal; Z.div_mod_to_equations; lia.
  - cbn in Hn. destruct (IH l ltac:(lia) Hl) as [F1 F2]. split.
    + repeat (constructor; [Z.div_mod_to_equations; lia|]). done.
    + rewrite F2. cbn [mbind option_bind]. repeat f_equal; Z.div_mod_to_equations; lia.
Qed.
Lemma base64_roundtrip l : is_bytes l -> DecodeString (EncodeToString l) = Some l /\ 36 ∉ EncodeToString l.
Proof.
  intros Hl. destruct (sextets_spec (length l) l (le_n _) Hl) as [H1 H2]. unfold EncodeToString, DecodeString.
  assert (forall vs, Forall (fun v => 0 <= v < 64) vs -> mapM b64_val (filter (fun c => c <> 10 /\ c <> 13) (map b64_char vs)) = Some vs /\ 36 ∉ map b64_char vs) as H.
  { induction vs as [|v vs IH]; intros Hv; [split; [done|by intros ?%elem_of_nil]|]. apply Forall_cons_iff in Hv as [Hv Hvs]. destruct (IH Hvs) as [IH1 IH2].
    destruct (b64_chars v Hv) as (E & Ha & Hb & Hc). cbn [map]. rewrite list.filter_cons_True by done. cbn [mapM]. rewrite E. cbn [mbind option_bind]. rewrite IH1. split; [done|].
    intros [?|?]%elem_of_cons; [congruence|done]. }
  destruct (H _ H1) as [-> H3]. done.
Qed.

Lemma stored_format_eq : stored_format = str "$argon2id$v=19$m=65536,t=3,p=4$".
Proof. vm_compute. reflexivity. Qed.
Lemma decode_hash salt hash : is_bytes salt -> is_bytes hash ->
  decodeArgon2Hash (stored_format ++ EncodeToString salt ++ [36] ++ EncodeToString hash) =
  Ok (mkParams argon2idMemory argon2idIterations argon2idParallelism, salt, hash).
Proof.
  intros Hs Hh. destruct (base64_roundtrip salt Hs) as [Ds Ns], (base64_roundtrip hash Hh) as [Dh Nh]. rewrite stored_format_eq. unfold decodeArgon2Hash.
  assert (forall t, strip (str "$argon2id$") (str "$argon2id$v=19$m=65536,t=3,p=4$" ++ t) = Some (str "v=19$m=65536,t=3,p=4$" ++ t)) as -> by reflexivity.
  assert (forall t, Split 36 (str "$argon2id$v=19$m=65536,t=3,p=4$" ++ t) = [] :: str "argon2id" :: str "v=19" :: str "m=65536,t=3,p=4" :: Split 36 t) as ->.
  { intros t. exact (eq_refl (Split 36 (str "$argon2id$v=19$m=65536,t=3,p=4$" ++ t))). }
  cbn [app]. rewrite (Split_app 36 _ _ Ns), (Split_last 36 _ Nh).
  assert ((r ← strip (str "v=") (str "v=19"); scan_int r) = Some (19, [])) as -> by (vm_compute; reflexivity).
  cbn [argon2_Version Z.eqb Pos.eqb negb].
  match goal with |- match ?x with _ => _ end = _ => assert (x = Some (mkParams argon2idMemory argon2idIterations argon2idParallelism)) as -> by (vm_compute; reflexivity) end.
  by rewrite Ds, Dh.
Qed.

Lemma compare_stored `{!KDFLaws} salt password stored other : is_bytes salt -> HashArgon2id (Some salt) password = Some stored ->
  CompareArgon2id stored other =
  bool_decide (IDKey password salt argon2idIterations argon2idMemory argon2idParallelism argon2idKeyLen =
               IDKey other salt argon2idIterations argon2idMemory argon2idParallelism argon2idKeyLen).
Proof.
  intros Hs E. unfold HashArgon2id in E. cbn [mbind option_bind] in E. apply (inj Some) in E as <-. set (key := IDKey password salt _ _ _ _).
  assert (zlen key = argon2idKeyLen) as Hkey by (apply IDKey_length; unfold argon2idKeyLen; lia).
  unfold CompareArgon2id, compareArgon2idHash. rewrite decode_hash; [|done|apply IDKey_bytes]. cbn [iterations memory parallelism].
  by rewrite Hkey.
Qed.
Lemma stored_has_format salt password stored : HashArgon2id salt password = Some stored -> exists rest, stored = stored_format ++ rest.
Proof. destruct salt as [salt|]; [|done]. intros E. apply (inj Some) in E as <-. by eexists. Qed.
Lemma format_prefixes rest :
  Identity.HasPrefix (stored_format ++ rest) (str "$argon2id$") = true /\ Identity.HasPrefix (stored_format ++ rest) (str "$2") = false.
Proof. rewrite stored_format_eq. split; reflexivity. Qed.

(** A registered user's password opens the account it was set for, whatever
    the salt: of the string [HashArgon2id] stores, the comparison at the login
    reads back the parameters, the salt and the key it was made of, so that it
    lets in just who presents a certificate of the account's or a non-empty
    password that derives the same key, the one that was set among them; and
    without random bytes nothing is stored. *)
Theorem argon2_roundtrip `{!KDFLaws} EqualFold ComparePassword salt password :
  is_bytes salt ->
  HashArgon2id None password = None /\
  exists stored, HashArgon2id (Some salt) password = Some stored /\
  CompareArgon2id stored password = true /\
  forall storedCert other cert,
    Identity.registeredUserCredentialsValid EqualFold ComparePassword CompareArgon2id stored storedCert other cert = true <->
    (storedCert <> [] /\ cert <> [] /\ EqualFold storedCert cert = true) \/
    (other <> [] /\ IDKey password salt argon2idIterations argon2idMemory argon2idParallelism argon2idKeyLen =
                    IDKey other salt argon2idIterations argon2idMemory argon2idParallelism argon2idKeyLen).
Proof.
  intros Hs. split; [done|]. destruct (HashArgon2id (Some salt) password) as [stored|] eqn:E; [|done].
  exists stored. split; [done|]. split; [rewrite (compare_stored salt password) by done; by apply bool_decide_eq_true_2|].
  intros storedCert other cert. unfold Identity.registeredUserCredentialsValid.
  rewrite (compare_stored salt password stored other Hs E).
  destruct (stored_has_format _ _ _ E) as [rest ->]. destruct (format_prefixes rest) as [-> ->].
  rewrite (bool_decide_eq_false_2 (stored_format ++ rest = [])) by (rewrite stored_format_eq; done). cbn [negb andb].
  rewrite orb_true_iff, !andb_true_iff, !negb_true_iff, !bool_decide_eq_false, orb_false_r, andb_true_r.
  case_bool_decide as Ho; cbn [negb]; rewrite ?bool_decide_eq_true; naive_solver.
Qed.
End Hash.

(** A key that depends on the password and the salt. *)
Definition toy_key (p s : bytes) (n : Z) : bytes := map (fun i => (foldr Z.add 0 (p ++ s) + Z.of_nat i) mod 256) (seq 0 (Z.to_nat n)).
#[export] Instance toy_kdf : KDF := {| IDKey p s t m par n := toy_key p s n |}.
#[export] Instance toy_kdf_laws : KDFLaws.
Proof.
  split; intros p s t m par n; cbn [IDKey toy_kdf]; unfold toy_key.
  - intros Hn. unfold zlen. rewrite length_map, length_seq. lia.
  - apply Forall_forall. intros b (i & <- & _)%in_map_iff. apply Z.mod_pos_bound. lia.
Qed.
Definition some_salt : bytes := map Z.of_nat (seq 100 16).
Example stored_form : HashArgon2id (Some some_salt) (str "secret") =
  Some (str "$argon2id$v=19$m=65536,t=3,p=4$ZGVmZ2hpamtsbW5vcHFycw$Pj9AQUJDREVGR0hJSktMTU5PUFFSU1RVVldYWVpbXF0").
Proof. vm_compute. reflexivity. Qed.
Lemma argon2_roundtrip_witness : exists stored, HashArgon2id (Some some_salt) (str "secret") = Some stored /\
  CompareArgon2id stored (str "secret") = true /\
  Identity.registeredUserCredentialsValid (fun a b => bool_decide (a = b)) (fun _ _ => false) CompareArgon2id stored [] (str "Secret") [] <> true.
Proof.
  assert (is_bytes some_salt) as Hs by (repeat constructor; vm_compute; congruence).
  destruct (argon2_roundtrip (fun a b => bool_decide (a = b)) (fun _ _ => false) some_salt (str "secret") Hs) as (_ & stored & E & H1 & H2).
  exists stored. split; [exact E|]. split; [exact H1|]. rewrite H2. intros [(H & _)|[_ H]]; [by apply H|]. vm_compute in H. discriminate H.
Defined.
(** Not every string is a hash; one of another version is refused. *)
Example malformed : map (fun s => CompareArgon2id (str s) (str "secret")) ["plain"; "$argon2id$v=18$m=65536,t=3,p=4$AA$AA"; "$argon2id$v=19$m=65536,t=3,p=400$AA$AA"; "$argon2id$v=19$m=65536,t=3,p=4$AB$AA"]%string =
  [false; false; false; false].
Proof. vm_compute. reflexivity. Qed.
End Argon2.
